(* ===== verification/_CoqProject ===== *)
-Q . S2P
Prelude.v
Strings.v
Money.v
Intent.v
Authority.v
Usage.v
Broker.v
Float64.v
Execution.v
CanonicalJSON.v
Evidence.v
Control.v
Policy.v
Crypto.v
Identity.v
ParentIntent.v
Fleet.v
Incident.v
Replay.v
FleetStore.v
Pipeline.v
Scenarios.v
Activation.v
ActivationStore.v
Http.v
Grants.v
AgentKeys.v
ActivationKeys.v
Bundles.v
ControlHandlers.v
Enforcement.v
Submission.v
Retention.v
Simulation.v
Telemetry.v
Wire.v
Venues.v
Backbone.v
MoneyJSON.v
Reads.v
MarketData.v
ObjectStore.v
Clickhouse.v
Outbox.v
Routing.v
Wiring.v
