(* ===== verification/Prelude.v ===== *)
(** * A verified model of agentic-assurance

    The program stands between trading agents and venues.  An agent proposes an order in a
    signed envelope; a gateway establishes who is calling, validates the envelope, checks
    fleet controls and hard policy, reserves delegated authority, submits the order once and
    records evidence of every step.  Behind it the evidence is streamed into an analytical
    store, a fleet engine measures cohorts of agents and opens incidents, and people issue
    and revoke grants, keys, policies and controls.  This library models the Go code of both
    processes and proves what makes each part correct.  Names of operations are those of the
    source; each file says which Go files it follows.

    ** The files, and the code they model

    Foundations.
    - [Prelude]: Go's integers, times, strings and maps; the [result] type; database
      transactions ([TxFault], [transaction]), which commit, roll back, or commit and lose
      their acknowledgement; tactics, hints, and the lemmas on lists and maps.
    - [Strings], [Float64], [Crypto], [Wire]: the parts of Go's standard library the code
      leans on: byte strings, IEEE binary64, hexadecimal text with Ed25519 and SHA-256 as
      parameters, ParseFloat, URL escaping and one HTTP exchange.
    - [Money], [MoneyJSON] (internal/money): fixed-point amounts and quantities, their
      parser, printer and wire forms, the notional of an order.
    - [CanonicalJSON] (internal/canonicaljson): the bytes signatures and hashes cover.

    The decision path.
    - [Intent], [ParentIntent] (internal/intent, gateway/parent.go): the envelope and its
      validation; the reconstruction of fragmented intents.
    - [Authority], [Usage], [Grants] (internal/authority, gateway/grants.go and intents.go):
      grants and the pre-check; the reservation ledger in memory and over PostgreSQL behind
      the class [Reserver]; the grant store and the handlers that issue and revoke.
    - [Broker], [Venues] (internal/broker, adapters/fakebroker, alpaca, tradier): the venue
      contract as the class [Adapter], the deterministic venue, and two brokerages' clients.
    - [Execution] (internal/execution): idempotency records behind the class [IdemStore],
      the cache, retention, and the only code that calls a venue.
    - [Control], [ControlHandlers] (internal/control, gateway/controls*.go): fleet controls,
      throttles, their store, and the handlers that authorize, lift and list them.
    - [Policy], [Activation], [ActivationStore], [ActivationKeys], [Bundles]
      (internal/policy, gateway/activationkeys.go, [FileBundles] of gateway/http.go): the
      policy language and its evaluator, bundles and their signatures, the history of
      accepted activations, the keys that decide them, and what a replica enforces.
    - [Identity], [AgentKeys], [Http] (internal/identity, gateway/agentkeys.go, http.go):
      workload certificates, credentials and privileges, agent keys, envelope signatures,
      and what every handler asks of its caller.
    - [Pipeline], [Submission], [Telemetry] (gateway/pipeline.go, http.go, intents.go,
      intent_list.go, telemetry.go): the whole submission, its HTTP surface, its copy for
      the analytical plane.  [Scenarios] runs it on concrete gateways.
    - [Enforcement]: the pipeline over the tables the operators' surfaces write, as
      cmd/assurance-gateway wires them.

    Evidence and analysis.
    - [Evidence], [Outbox], [Backbone] (internal/evidence, fleet/evidence_projection.go):
      append-only events, chains and corrections; the transactional outbox, its depth and
      its loops; the stream, its consumer and the projection.
    - [Fleet], [FleetStore], [Clickhouse] (internal/fleet): measurements, baselines, risk
      vectors and shadow mode; the analytical rows and the producer; the client of the store.
    - [Incident] (internal/incident) and [Replay], its evidence recorded in the store and
      read back; [Simulation] (internal/simulation); [Retention] with [ObjectStore]
      (internal/retention, adapters/objectstore); [MarketData] (adapters/marketdata).
    - [Reads]: the surfaces that only read, of the gateway, of incidents and of the fleet.

    The processes.
    - [Routing], [Wiring] (cmd/assurance-gateway/main.go, cmd/fleet-engine/main.go,
      internal/pg, the [Routes] of three packages): http.ServeMux and the route tables; what
      each process builds and serves in a given environment.

    ** How state and effects are modelled

    Integers of Go are [Z] with wrap-around written out where the code can overflow;
    strings are byte strings.  A table is a [gmap] from its primary key to a row record; row
    level security is the tenant in the key or a filter on the tenant, as [withTenant] sets
    it.  An operation takes the tables and returns new tables with a [result]; a transaction
    that errs leaves the tables as they were.  Constraints of the schema that the code relies
    on (primary keys, checks, partial unique indexes) are part of the operation that can hit
    them.  Operations run one at a time, which is what serializable transactions, advisory
    locks and row locks give where the code takes them; where the code takes none the
    interleaving is a step relation or is written out ([Simulation.sim_step],
    [MarketData.market_step], [Telemetry], [ActivationStore.concurrent_revocations_leave_none]).
    A goroutine's loop is a sequence of its passes; a timer only chooses when one happens.
    Where a lost commit acknowledgement changes what the caller may conclude it is a
    case of its own ([TxFault]); in [Usage] and [Control] a transaction commits or fails.
    Database times keep nanoseconds except in the analytical store; rows that SQL leaves
    unordered come in key order.  What a call meets from outside (clock, faults, answers) is
    a record, [Moment], [Surroundings] or [Round], that theorems quantify over.

    ** What the theorems show

    - Orders.  Every order that reaches the venue was decided by every stage
      ([Pipeline.every_sent_order_was_decided]) under a grant, a policy and a key that people
      put there ([Enforcement.every_order_has_people_behind_it]); at most once per key and
      envelope, in the store ([Execution.at_most_one_submission]) and on the brokerage's wire
      ([Venues.brokerage_receives_an_order_once]); a definite outcome rests on an answer
      ([Venues.definite_outcomes_rest_on_answers]); a control once authorized, a revocation
      once answered, stops what it covers ([Enforcement.a_control_stops_the_venue],
      [Grants.revocation_is_final]).
    - Authority and money.  Ceilings hold over any lawful history ([Usage.ceiling_never_exceeded]);
      an unknown outcome keeps its capacity; numbers cross the wire exactly
      ([MoneyJSON.numbers_cross_the_wire_exactly]); the notional is rounded up and never down.
    - Policy and keys.  What is enforced was authorized ([Bundles.enforced_policy_was_authorized]),
      history is linear ([ActivationStore.policy_history_is_linear]), and policy keys come
      from the bootstrap or from a key ([ActivationKeys.policy_key_is_bootstrap_or_signed]).
    - Evidence.  Nothing recorded changes or is lost on its way: the store, the outbox and
      its loops ([Evidence.evidence_append_only], [Outbox.backlog_is_drained],
      [Outbox.sweeps_remove_only_receipts]), the stream and the projection
      ([Backbone.evidence_reaches_the_projection]), the archive
      ([Retention.restored_is_what_was_exported], [ObjectStore.archive_client_refines_the_store]),
      the timeline of an incident ([Replay.incident_replays_from_evidence]), and the
      telemetry, which counts what it drops ([Telemetry.telemetry_loses_nothing_in_silence]).
    - Measurement.  A component of the risk vector has a number exactly when there was what
      to measure ([Fleet.vector_well_formed]); market data is asked for within its budget,
      stragglers apart ([MarketData.daily_budget_is_kept]).
    - Isolation.  A caller acts and reads for the tenant its credential establishes
      ([Identity.tenant_is_established], [Reads.reads_disclose_only_their_tenant],
      [Simulation.simulations_are_isolated], [Reads.fleet_queries_are_scoped]).
    - Processes.  The submission path is served only with everything that enforces
      ([Wiring.submission_needs_everything]), a gateway that can identify nobody answers
      nobody ([Wiring.nobody_is_told_anything]), every endpoint is served by its handler
      ([Routing.requests_reach_their_rows]), and every submission is answered
      ([Pipeline.every_submission_answered], [Submission.status_carries_the_decision]).
    - Decisions and representations.  Evaluators are characterised by equivalences
      ([Authority.Evaluate_allows_iff], [Intent.Validate_accepts_iff],
      [Policy.Evaluate_most_restrictive], [Identity.signature_accepts_iff]); two ledgers agree
      ([Usage.memory_refines_postgres]); canonical bytes stand for one document
      ([CanonicalJSON.Canonical_iff_same_document]); round trips of every stored form.
    - Divergences of the code from what it says or means, each a theorem on the executable
      definitions: among them [Usage.rolling_ceiling_wraps],
      [Execution.cached_outcome_ignores_envelope], [Venues.live_order_is_recorded_as_rejected],
      [ObjectStore.some_keys_are_signed_wrongly], [MoneyJSON.blank_string_is_zero],
      [MarketData.straggler_resets_the_budget],
      [Wiring.long_retention_wraps], [Wiring.fault_injection_reaches_a_brokerage].

    ** Fuel

    Loops of the code that end by themselves are structural or carry fuel with a reason that
    it suffices: a sweep needs one round per full batch of rows
    ([Execution.sweep_prunes_exactly]); decimal printing needs the digits of its number;
    rolling windows need as many rounds as the range holds windows; trimming, quoting and the
    decoding of a list take a byte or an element per round, so the length of the text is
    enough.  Histories are lists of operations of any length.

    ** What is not modelled

    Parameters of the model, with their documented behaviour as named laws and instances in
    the witnesses: Ed25519, SHA-256 and HMAC; X.509 chains; the decoders of JSON, YAML and
    URLs and the formatting of times; PostgreSQL, NATS JetStream, ClickHouse and S3 behind
    their interfaces; the brokerages and the market-data provider.  The simulator is a
    program of another language that the runner starts: what it prints is arbitrary.  Texts
    written for people and logs are left out, as are listening, signals and shutdown of the
    processes.  cmd/openapi-gen generates the API description from schemas and cmd/live-setup
    prepares a workstation; neither is part of a running system.  adapters/mcp and
    adapters/rest hold no code.  The console is a user interface in TypeScript; migrations
    and schemas enter as the constraints the stores check.

    ** What is left

    Refinements rather than parts: the YAML and JSON decoders as definitions of their own,
    and a single step relation of gateway and fleet engine together. *)

From stdpp Require Export base gmap strings list fin_maps option sorting.
From Stdlib Require Export ZArith Lia Bool.
From Stdlib Require Ascii String.
Export Ascii.AsciiSyntax.
#[global] Delimit Scope char_scope with char.
#[global] Open Scope list_scope.

#[global] Open Scope Z_scope.

(** * Notation scope, tactics, hints *)

Declare Scope go_scope.
Delimit Scope go_scope with go.
#[global] Open Scope go_scope.

(** Values of Go functions returning [(T, error)]. *)
Inductive result (A E : Type) : Type :=
| Ok (a : A)
| Err (e : E).
Arguments Ok {A E} a.
Arguments Err {A E} e.

Definition is_ok {A E} (r : result A E) : bool :=
  match r with Ok _ => true | Err _ => false end.

Notation "'let?' x ':=' e 'in' k" :=
  (match e with Ok x => k | Err er => Err er end)
  (at level 10, x name, e at level 100, k at level 200) : go_scope.

#[global] Instance result_eq_dec {A E} `{EqDecision A, EqDecision E} :
  EqDecision (result A E).
Proof. solve_decision. Defined.

(** Lemmas that close the common side conditions of the components. *)
Create HintDb golib.

(** Case analysis on the first [match] or [if] of a hypothesis or of the goal. *)
Ltac inv_match H :=
  match type of H with
  | context [match ?x with _ => _ end] =>
      let E := fresh "E" in destruct x eqn:E; try discriminate
  end.

Ltac inv_all H := repeat (inv_match H).

Ltac go_cases :=
  match goal with
  | |- context [match ?x with _ => _ end] =>
      let E := fresh "E" in destruct x eqn:E
  end.

(** Turn boolean tests into propositions everywhere. *)
Ltac b2p :=
  repeat match goal with
  | H : andb _ _ = true |- _ => apply andb_true_iff in H as [? ?]
  | H : orb _ _ = false |- _ => apply orb_false_iff in H as [? ?]
  | H : negb _ = true |- _ => apply negb_true_iff in H
  | H : negb _ = false |- _ => apply negb_false_iff in H
  | H : (_ =? _)%Z = true |- _ => apply Z.eqb_eq in H
  | H : (_ =? _)%Z = false |- _ => apply Z.eqb_neq in H
  | H : (_ <? _)%Z = true |- _ => apply Z.ltb_lt in H
  | H : (_ <? _)%Z = false |- _ => apply Z.ltb_ge in H
  | H : (_ <=? _)%Z = true |- _ => apply Z.leb_le in H
  | H : (_ <=? _)%Z = false |- _ => apply Z.leb_gt in H
  | H : (_ =? _)%nat = true |- _ => apply Nat.eqb_eq in H
  | H : (_ =? _)%nat = false |- _ => apply Nat.eqb_neq in H
  | H : (_ <? _)%nat = true |- _ => apply Nat.ltb_lt in H
  | H : (_ <? _)%nat = false |- _ => apply Nat.ltb_ge in H
  | H : String.eqb _ _ = true |- _ => apply String.eqb_eq in H
  | H : String.eqb _ _ = false |- _ => apply String.eqb_neq in H
  end.

(** * Machine integers *)

(** A Go [int64], as the integer it denotes; arithmetic wraps around. *)
Definition min_int64 : Z := - 2 ^ 63.
Definition max_int64 : Z := 2 ^ 63 - 1.

Definition wrap64 (z : Z) : Z := (z + 2 ^ 63) mod 2 ^ 64 - 2 ^ 63.

Definition in_int64 (z : Z) : Prop := min_int64 <= z <= max_int64.
Definition in_int64b (z : Z) : bool := (min_int64 <=? z) && (z <=? max_int64).

Definition add64 (a b : Z) : Z := wrap64 (a + b).
Definition sub64 (a b : Z) : Z := wrap64 (a - b).
Definition neg64 (a : Z) : Z := wrap64 (- a).

Lemma in_int64b_spec z : in_int64b z = true <-> in_int64 z.
Proof. unfold in_int64b, in_int64. rewrite andb_true_iff, !Z.leb_le. done. Qed.

Lemma wrap64_range z : in_int64 (wrap64 z).
Proof.
  unfold in_int64, wrap64, min_int64, max_int64.
  pose proof (Z.mod_pos_bound (z + 2 ^ 63) (2 ^ 64) ltac:(lia)). lia.
Qed.

Lemma wrap64_id z : in_int64 z -> wrap64 z = z.
Proof.
  unfold in_int64, wrap64, min_int64, max_int64. intros.
  rewrite Z.mod_small; lia.
Qed.

Lemma wrap64_unit z k : wrap64 (z + k * 2 ^ 64) = wrap64 z.
Proof.
  unfold wrap64. replace (z + k * 2 ^ 64 + 2 ^ 63) with (z + 2 ^ 63 + k * 2 ^ 64) by lia.
  by rewrite Z.mod_add by lia.
Qed.

Lemma add64_exact a b : in_int64 (a + b) -> add64 a b = a + b.
Proof. apply wrap64_id. Qed.

Lemma sub64_exact a b : in_int64 (a - b) -> sub64 a b = a - b.
Proof. apply wrap64_id. Qed.

#[export] Hint Resolve wrap64_range wrap64_id add64_exact sub64_exact : golib.

Ltac int64_lia := unfold in_int64, min_int64, max_int64 in *; lia.

(** * Time *)

(** An instant is the number of nanoseconds since the zero [time.Time]
    (0001-01-01T00:00:00Z), so [IsZero] is [t = 0]; [UTC()] does not move the
    instant.  A duration is a signed 64-bit number of nanoseconds. *)
Abbreviation Time := Z.
Abbreviation Duration := Z.

Definition Nanosecond : Duration := 1.
Definition Second : Duration := 1000000000.
Definition Minute : Duration := 60 * Second.
Definition Hour : Duration := 60 * Minute.
Definition Day : Duration := 24 * Hour.

Definition IsZero (t : Time) : bool := t =? 0.
Definition Before (t u : Time) : bool := t <? u.
Definition After (t u : Time) : bool := u <? t.
Definition TimeEqual (t u : Time) : bool := t =? u.

(** [t.Add(d)]. *)
Definition TimeAdd (t : Time) (d : Duration) : Time := t + d.

(** [t.Sub(u)] saturates at the ends of the duration range. *)
Definition TimeSub (t u : Time) : Duration :=
  Z.max min_int64 (Z.min max_int64 (t - u)).

(** [time.Date(now.Year(), now.Month(), now.Day(), 0, 0, 0, 0, time.UTC)]. *)
Definition DayStart (t : Time) : Time := t - t mod Day.

Lemma DayStart_le t : DayStart t <= t.
Proof.
  unfold DayStart. pose proof (Z.mod_pos_bound t Day ltac:(vm_compute; done)). lia.
Qed.

Lemma DayStart_mono t u : t <= u -> DayStart t <= DayStart u.
Proof.
  unfold DayStart. intros Htu.
  assert (HD : 0 < Day) by (vm_compute; done).
  pose proof (Z.div_mod t Day ltac:(lia)). pose proof (Z.div_mod u Day ltac:(lia)).
  pose proof (Z.div_le_mono t u Day HD Htu). nia.
Qed.

#[export] Hint Resolve DayStart_le DayStart_mono : golib.

(** * Strings: Go strings are sequences of bytes *)

#[global] Arguments String.append !_ _ / : simpl nomatch.

Definition str_nonempty (s : string) : bool := negb (String.eqb s "").

Definition byte_of (n : nat) : Ascii.ascii := Ascii.ascii_of_nat n.

Fixpoint str_of_bytes (l : list nat) : string :=
  match l with
  | [] => ""
  | b :: l' => String (byte_of b) (str_of_bytes l')
  end.

(** The UTF-8 encodings of the runes for which [unicode.IsSpace] holds. *)
Definition space_encodings : list (list nat) :=
  [[9]; [10]; [11]; [12]; [13]; [32]; [194; 133]; [194; 160]; [225; 154; 128];
   [226; 128; 128]; [226; 128; 129]; [226; 128; 130]; [226; 128; 131]; [226; 128; 132];
   [226; 128; 133]; [226; 128; 134]; [226; 128; 135]; [226; 128; 136]; [226; 128; 137];
   [226; 128; 138]; [226; 128; 168]; [226; 128; 169]; [226; 128; 175]; [226; 129; 159];
   [227; 128; 128]]%nat.

Definition bytes (s : string) : list nat :=
  map Ascii.nat_of_ascii (String.list_ascii_of_string s).

Fixpoint strip_prefix (p l : list nat) : option (list nat) :=
  match p, l with
  | [], _ => Some l
  | x :: p', y :: l' => if (x =? y)%nat then strip_prefix p' l' else None
  | _ :: _, [] => None
  end.

Fixpoint strip_one (encs : list (list nat)) (l : list nat) : option (list nat) :=
  match encs with
  | [] => None
  | e :: encs' => match strip_prefix e l with
                  | Some l' => Some l'
                  | None => strip_one encs' l
                  end
  end.

(** Every strip removes at least one byte, so the length is enough fuel. *)
Fixpoint trim_bytes (fuel : nat) (encs : list (list nat)) (l : list nat) : list nat :=
  match fuel with
  | O => l
  | S f => match strip_one encs l with
           | Some l' => trim_bytes f encs l'
           | None => l
           end
  end.

Definition trim_left (l : list nat) : list nat :=
  trim_bytes (length l) space_encodings l.
Definition trim_right (l : list nat) : list nat :=
  rev (trim_bytes (length l) (map (@rev nat) space_encodings) (rev l)).

(** [strings.TrimSpace]. *)
Definition TrimSpace (s : string) : string := str_of_bytes (trim_right (trim_left (bytes s))).

(** [strings.TrimSpace(s) == ""], the blank test used throughout. *)
Definition blank (s : string) : bool := String.eqb (TrimSpace s) "".

Lemma str_nonempty_false s : str_nonempty s = false <-> s = "".
Proof. unfold str_nonempty. by rewrite negb_false_iff, String.eqb_eq. Qed.

Lemma blank_false s : blank s = false -> TrimSpace s <> "".
Proof. unfold blank. by rewrite String.eqb_neq. Qed.

(** [strings.ToUpper], for comparison with ASCII constants.  The two non-ASCII
    runes whose upper case is ASCII are U+0131 (dotless i) and U+017F (long s);
    other non-ASCII bytes are kept, which no comparison in the source observes. *)
Fixpoint upper_bytes (l : list nat) : list nat :=
  match l with
  | 196%nat :: 177%nat :: l' => 73%nat :: upper_bytes l'
  | 197%nat :: 191%nat :: l' => 83%nat :: upper_bytes l'
  | b :: l' => (if ((97 <=? b) && (b <=? 122))%nat then b - 32 else b)%nat :: upper_bytes l'
  | [] => []
  end.

Definition ToUpper (s : string) : string := str_of_bytes (upper_bytes (bytes s)).

Example TrimSpace_ex : TrimSpace "  a b " = "a b".
Proof. vm_compute. done. Qed.

Example ToUpper_ex : ToUpper "read_Only" = "READ_ONLY".
Proof. vm_compute. done. Qed.

Lemma bytes_nil s : bytes s = [] -> s = "".
Proof. by destruct s. Qed.

Lemma blank_empty : blank "" = true.
Proof. done. Qed.

Lemma nonblank_nonempty s : blank s = false -> s <> "".
Proof. by intros H ->. Qed.

(** Keys joined by a NUL byte, [a + "\x00" + b]. *)
Definition nul_join (a b : string) : string := a +:+ String Ascii.zero b.

Fixpoint nul_free (s : string) : bool :=
  match s with
  | "" => true
  | String c s' => negb (Ascii.eqb c Ascii.zero) && nul_free s'
  end.

Lemma nul_join_inj a1 b1 a2 b2 :
  nul_free a1 = true -> nul_free a2 = true ->
  nul_join a1 b1 = nul_join a2 b2 -> a1 = a2 /\ b1 = b2.
Proof.
  unfold nul_join. revert a2.
  induction a1 as [|c a1 IH]; intros [|d a2]; cbn; intros H1 H2 Heq.
  - by injection Heq as ->.
  - injection Heq as <- _. cbn in H2. done.
  - injection Heq as -> _. cbn in H1. done.
  - injection Heq as -> Heq. apply andb_true_iff in H1 as [_ H1], H2 as [_ H2].
    destruct (IH a2 H1 H2 Heq) as [-> ->]. done.
Qed.

(** Membership test, the [for range] loops over string slices. *)
Fixpoint contains (l : list string) (want : string) : bool :=
  match l with
  | [] => false
  | x :: l' => if String.eqb x want then true else contains l' want
  end.

Lemma contains_spec l w : contains l w = true <-> w ∈ l.
Proof.
  induction l as [|x l IH]; cbn [contains].
  - split; [done | intros H; by apply not_elem_of_nil in H].
  - rewrite elem_of_cons. destruct (String.eqb_spec x w) as [->|Hne].
    + split; auto.
    + rewrite IH. split; [auto | intros [->|]; [done | auto]].
Qed.

Lemma contains_cons x l w :
  contains (x :: l) w = if String.eqb x w then true else contains l w.
Proof. done. Qed.

#[global] Arguments contains : simpl nomatch.
#[global] Arguments String.eqb : simpl nomatch.

(** Byte-wise string order, Go's [<] on strings. *)
Definition str_ltb (a b : string) : bool :=
  match String.compare a b with Lt => true | _ => false end.
Definition str_leb (a b : string) : bool := negb (str_ltb b a).

Lemma filter_perm {A} (f : A -> bool) l1 l2 :
  l1 ≡ₚ l2 -> List.filter f l1 ≡ₚ List.filter f l2.
Proof.
  induction 1; cbn; repeat case_match; try done; [by constructor | by constructor | by etrans].
Qed.

(** * Sorting

    [sort.Strings], [sort.Slice] and [sort.SliceStable] by the order a
    component passes: insertion sort is stable, and for an antisymmetric order
    every sort gives the same result. *)

Section StableSort.
Context {A : Type} (lt : A -> A -> bool).

Fixpoint insert_sorted (x : A) (l : list A) : list A :=
  match l with
  | [] => [x]
  | y :: l' => if lt y x then y :: insert_sorted x l' else x :: l
  end.

Definition stable_sort (l : list A) : list A := foldr insert_sorted [] l.

Definition not_after (x y : A) : Prop := lt y x = false.

Lemma insert_sorted_perm x l : insert_sorted x l ≡ₚ x :: l.
Proof.
  induction l as [|y l IH]; simpl; [done|].
  destruct (lt y x); [rewrite IH; constructor | done].
Qed.

Lemma stable_sort_perm l : stable_sort l ≡ₚ l.
Proof.
  induction l as [|x l IH]; simpl; [done|]. by rewrite insert_sorted_perm, IH.
Qed.

Lemma length_stable_sort l : length (stable_sort l) = length l.
Proof. apply Permutation_length, stable_sort_perm. Qed.

Hypothesis lt_asym : forall x y, lt x y = true -> lt y x = false.
Hypothesis not_after_trans :
  forall x y z, not_after x y -> not_after y z -> not_after x z.

Lemma insert_sorted_sorted x l :
  StronglySorted not_after l -> StronglySorted not_after (insert_sorted x l).
Proof.
  induction 1 as [|y l Hl IH Hy]; simpl; [by repeat constructor|].
  destruct (lt y x) eqn:E.
  - constructor; [done|].
    rewrite insert_sorted_perm. constructor; [by apply lt_asym | done].
  - constructor; [by constructor|]. constructor; [done|].
    eapply Forall_impl; [exact Hy|]. intros z. by apply not_after_trans.
Qed.

Lemma stable_sort_sorted l : StronglySorted not_after (stable_sort l).
Proof.
  induction l as [|x l IH]; simpl; [constructor | by apply insert_sorted_sorted].
Qed.
End StableSort.

#[export] Hint Resolve stable_sort_perm : golib.

(** A sorted permutation is unique when the order is antisymmetric. *)
Lemma sorted_perm_unique {A} (R : A -> A -> Prop) :
  (forall x y, R x y -> R y x -> x = y) ->
  forall l1 l2, StronglySorted R l1 -> StronglySorted R l2 -> l1 ≡ₚ l2 -> l1 = l2.
Proof.
  intros Hanti l1. induction l1 as [|x l1 IH]; intros l2 H1 H2 HP.
  - by apply Permutation_nil_l in HP.
  - destruct l2 as [|y l2]; [symmetry in HP; by apply Permutation_nil_cons in HP|].
    inversion H1 as [|? ? H1a H1b]; inversion H2 as [|? ? H2a H2b]; subst.
    assert (x = y) as ->.
    { assert (Hx : x ∈ y :: l2) by (rewrite <- HP; constructor).
      assert (Hy : y ∈ x :: l1) by (rewrite HP; constructor).
      apply elem_of_cons in Hx as [->|Hx]; [done|].
      apply elem_of_cons in Hy as [->|Hy]; [done|].
      rewrite Forall_forall in H1b, H2b. by apply Hanti; [apply H1b | apply H2b]. }
    f_equal. apply IH; [done..|]. by apply Permutation_cons_inv in HP.
Qed.

(** On a list whose elements the order separates, the result does not depend on how
    the list was ordered. *)
Lemma stable_sort_unique {A} (lt : A -> A -> bool) l l' :
  (forall x y, lt x y = true -> lt y x = false) ->
  (forall x y z, not_after lt x y -> not_after lt y z -> not_after lt x z) ->
  (forall x y, x ∈ l -> y ∈ l -> not_after lt x y -> not_after lt y x -> x = y) ->
  l ≡ₚ l' -> stable_sort lt l = stable_sort lt l'.
Proof.
  intros Hasym Htrans Hanti HP.
  set (R x y := not_after lt x y /\ x ∈ l /\ y ∈ l).
  assert (HR : forall m, m ≡ₚ l -> StronglySorted R (stable_sort lt m)).
  { intros m Hm. pose proof (stable_sort_sorted lt Hasym Htrans m) as Hs.
    assert (Hin : forall x, x ∈ stable_sort lt m -> x ∈ l) by (intros x; by rewrite stable_sort_perm, Hm).
    induction Hs as [|x s Hs IH Hx]; constructor.
    - apply IH. intros y Hy. apply Hin. by right.
    - apply List.Forall_forall. intros y Hy. rewrite List.Forall_forall in Hx.
      split_and!; [by apply Hx | apply Hin; by left | apply Hin; right; by apply list_elem_of_In]. }
  apply (sorted_perm_unique R).
  - intros x y (H1 & Hx & Hy) (H2 & _ & _). by apply Hanti.
  - by apply HR.
  - by apply HR.
  - by rewrite !stable_sort_perm.
Qed.

Lemma stable_sort_id {A} (lt : A -> A -> bool) l : StronglySorted (not_after lt) l -> stable_sort lt l = l.
Proof.
  induction 1 as [|x l Hl IH Hx]; simpl; [done|]. rewrite IH.
  destruct Hx as [|y l Hy _]; simpl; [done|]. by rewrite Hy.
Qed.

(** ** The string order is total *)

Lemma ascii_compare_refl a : Ascii.compare a a = Eq.
Proof. unfold Ascii.compare. apply N.compare_refl. Qed.

Lemma str_compare_antisym a b : String.compare a b = CompOpp (String.compare b a).
Proof. apply String.compare_antisym. Qed.

Lemma str_compare_eq a b : String.compare a b = Eq <-> a = b.
Proof.
  split; [apply String.compare_eq_iff | intros <-].
  induction a as [|x a IH]; simpl; [done|]. by rewrite ascii_compare_refl.
Qed.

Lemma ascii_compare_N a b :
  Ascii.compare a b = N.compare (Ascii.N_of_ascii a) (Ascii.N_of_ascii b).
Proof. done. Qed.

Lemma str_compare_lt_trans a b c :
  String.compare a b = Lt -> String.compare b c = Lt -> String.compare a c = Lt.
Proof.
  revert b c. induction a as [|x a IH]; intros [|y b] [|z c]; simpl; try done.
  rewrite !ascii_compare_N.
  destruct (N.compare_spec (Ascii.N_of_ascii x) (Ascii.N_of_ascii y)) as [Hxy|Hxy|Hxy];
    try done;
  destruct (N.compare_spec (Ascii.N_of_ascii y) (Ascii.N_of_ascii z)) as [Hyz|Hyz|Hyz];
    try done; intros H1 H2;
  destruct (N.compare_spec (Ascii.N_of_ascii x) (Ascii.N_of_ascii z)) as [Hxz|Hxz|Hxz];
    try done; try lia; by eapply IH.
Qed.

Lemma str_ltb_lt a b : str_ltb a b = true <-> String.compare a b = Lt.
Proof. unfold str_ltb. by destruct (String.compare a b). Qed.

Lemma str_ltb_asym a b : str_ltb a b = true -> str_ltb b a = false.
Proof.
  unfold str_ltb. rewrite (str_compare_antisym b a).
  by destruct (String.compare a b).
Qed.

Lemma str_not_after_trans a b c :
  not_after str_ltb a b -> not_after str_ltb b c -> not_after str_ltb a c.
Proof.
  unfold not_after. intros Hab Hbc. destruct (str_ltb c a) eqn:E; [|done].
  apply str_ltb_lt in E.
  destruct (String.compare a b) eqn:Eab.
  - apply str_compare_eq in Eab as ->. unfold str_ltb in Hbc. by rewrite E in Hbc.
  - assert (str_ltb c b = true); [|congruence].
    apply str_ltb_lt. by eapply str_compare_lt_trans.
  - unfold str_ltb in Hab. rewrite (str_compare_antisym b a), Eab in Hab. done.
Qed.

Lemma str_not_after_antisym a b :
  not_after str_ltb a b -> not_after str_ltb b a -> a = b.
Proof.
  unfold not_after, str_ltb. rewrite (str_compare_antisym b a).
  destruct (String.compare a b) eqn:E; simpl; try done.
  by apply str_compare_eq in E.
Qed.

(** [sort.Strings]. *)
Definition sort_strings (l : list string) : list string := stable_sort str_ltb l.

Lemma sort_strings_sorted l : StronglySorted (not_after str_ltb) (sort_strings l).
Proof. apply stable_sort_sorted; [apply str_ltb_asym | apply str_not_after_trans]. Qed.

Lemma sort_strings_perm l1 l2 : l1 ≡ₚ l2 -> sort_strings l1 = sort_strings l2.
Proof.
  intros HP. apply (sorted_perm_unique (not_after str_ltb)).
  - apply str_not_after_antisym.
  - apply sort_strings_sorted.
  - apply sort_strings_sorted.
  - unfold sort_strings. by rewrite !stable_sort_perm.
Qed.

(** * Runs of a deterministic step function over a list of operations *)

Definition run_ops {S O : Type} (step : S -> O -> S) (s : S) (ops : list O) : S :=
  foldl step s ops.

Lemma run_ops_invariant {S O} (step : S -> O -> S) (I : S -> Prop) :
  (forall s o, I s -> I (step s o)) -> forall ops s, I s -> I (run_ops step s ops).
Proof.
  intros Hstep ops. induction ops as [|o ops IH]; intros s Hs; simpl; [done|].
  apply IH. by apply Hstep.
Qed.

Lemma run_ops_app {S O} (step : S -> O -> S) s ops1 ops2 :
  run_ops step s (ops1 ++ ops2) = run_ops step (run_ops step s ops1) ops2.
Proof. apply foldl_app. Qed.

(** * Trimming leaves words without leading or trailing space alone *)

Lemma str_of_bytes_bytes s : str_of_bytes (bytes s) = s.
Proof.
  unfold bytes. induction s as [|c s IH]; simpl; [done|].
  rewrite IH. unfold byte_of. by rewrite Ascii.ascii_nat_embedding.
Qed.

Definition no_space_head (encs : list (list nat)) (b : nat) : bool :=
  forallb (fun e => match e with [] => false | x :: _ => negb (x =? b)%nat end) encs.

Lemma strip_one_none encs b l : no_space_head encs b = true -> strip_one encs (b :: l) = None.
Proof.
  induction encs as [|e encs IH]; simpl; [done|]. intros H.
  apply andb_true_iff in H as [He Henc].
  destruct e as [|x e]; [done|]. simpl.
  apply negb_true_iff in He. rewrite He. by apply IH.
Qed.

Lemma trim_bytes_id encs b l :
  no_space_head encs b = true -> trim_bytes (length (b :: l)) encs (b :: l) = b :: l.
Proof. intros H. simpl. by rewrite strip_one_none. Qed.

Lemma trim_right_id l b :
  no_space_head (map (@rev nat) space_encodings) b = true ->
  trim_right (l ++ [b]) = l ++ [b].
Proof.
  intros H. unfold trim_right.
  assert (Hr : rev (l ++ [b]) = b :: rev l) by apply rev_app_distr.
  rewrite Hr.
  replace (length (l ++ [b])) with (length (b :: rev l)).
  - rewrite trim_bytes_id by done. simpl. by rewrite rev_involutive.
  - simpl. rewrite length_rev, length_app. simpl. lia.
Qed.

Lemma TrimSpace_bytes_id s b l l' c :
  bytes s = b :: l -> bytes s = l' ++ [c] ->
  no_space_head space_encodings b = true ->
  no_space_head (map (@rev nat) space_encodings) c = true ->
  TrimSpace s = s.
Proof.
  intros Hb Hc H1 H2. unfold TrimSpace, trim_left.
  rewrite Hb, trim_bytes_id by done. rewrite <- Hb, Hc, trim_right_id by done.
  rewrite <- Hc. apply str_of_bytes_bytes.
Qed.

Lemma bytes_app s t : bytes (s +:+ t) = bytes s ++ bytes t.
Proof.
  unfold bytes. rewrite <- map_app. f_equal.
  induction s as [|c s IH]; simpl; [done|]. by rewrite <- IH.
Qed.

(** A word all of whose bytes are printable ASCII and not a space. *)
Definition word_byte (b : nat) : bool := ((33 <=? b) && (b <=? 126))%nat.

Lemma word_byte_head b :
  word_byte b = true ->
  no_space_head space_encodings b = true /\
  no_space_head (map (@rev nat) space_encodings) b = true.
Proof.
  unfold word_byte. intros H. apply andb_true_iff in H as [H1 H2].
  apply Nat.leb_le in H1. apply Nat.leb_le in H2.
  do 127 (destruct b as [|b]; [try (exfalso; lia); by vm_compute |]). exfalso. lia.
Qed.

Lemma TrimSpace_word s :
  forallb word_byte (bytes s) = true -> TrimSpace s = s.
Proof.
  intros H. destruct (bytes s) as [|b l] eqn:E; [by apply bytes_nil in E as -> |].
  assert (exists l' c, b :: l = l' ++ [c]) as (l' & c & Hc).
  { destruct (exists_last (l := b :: l)) as (l' & c & Hc); [done|]. eauto. }
  rewrite forallb_forall in H.
  assert (Hwb : word_byte b = true) by (apply H; by left).
  assert (Hwc : word_byte c = true).
  { apply H. rewrite Hc. apply in_or_app. right. by left. }
  eapply TrimSpace_bytes_id; [exact E | rewrite E; exact Hc | apply word_byte_head..]; done.
Qed.

(** ** A byte that belongs to no space keeps a string from being blank *)

Lemma strip_prefix_app p l l' : strip_prefix p l = Some l' -> l = p ++ l'.
Proof.
  revert l. induction p as [|x p IH]; intros l; simpl; [by intros [= ->]|].
  destruct l as [|y l]; [done|]. destruct (Nat.eqb_spec x y) as [->|]; [|done].
  intros H. by rewrite (IH _ H).
Qed.

Lemma strip_one_mem b encs l l' :
  Forall (fun e => b ∉ e) encs -> strip_one encs l = Some l' -> b ∈ l -> b ∈ l'.
Proof.
  induction 1 as [|e encs He Henc IH]; simpl; [done|].
  destruct (strip_prefix e l) as [r|] eqn:E; [|done]. intros [= <-].
  rewrite (strip_prefix_app _ _ _ E). rewrite elem_of_app. naive_solver.
Qed.

Lemma trim_bytes_mem b fuel encs l :
  Forall (fun e => b ∉ e) encs -> b ∈ l -> b ∈ trim_bytes fuel encs l.
Proof.
  intros He. revert l. induction fuel as [|fuel IH]; intros l Hl; simpl; [done|].
  destruct (strip_one encs l) as [l'|] eqn:E; [|done]. by apply IH, (strip_one_mem b encs l).
Qed.

Definition in_no_space (b : nat) : bool :=
  forallb (fun e => negb (existsb (Nat.eqb b) e)) space_encodings.

Lemma trim_mem b l : in_no_space b = true -> b ∈ l -> b ∈ trim_right (trim_left l).
Proof.
  unfold in_no_space. intros Hb Hl. rewrite forallb_forall in Hb.
  assert (H : Forall (fun e => b ∉ e) space_encodings).
  { rewrite Forall_forall. intros e He Hin. specialize (Hb e (proj1 (list_elem_of_In _ _) He)).
    apply negb_true_iff, not_true_iff_false in Hb. apply Hb, existsb_exists. exists b.
    split; [by apply list_elem_of_In | apply Nat.eqb_refl]. }
  assert (Hr : Forall (fun e => b ∉ e) (map (@rev nat) space_encodings)).
  { rewrite Forall_map. apply (Forall_impl _ _ _ H). intros e He Hin. apply He.
    by apply list_elem_of_In, in_rev, list_elem_of_In. }
  unfold trim_right, trim_left. apply list_elem_of_In. apply -> in_rev. apply list_elem_of_In.
  apply trim_bytes_mem; [done|]. apply list_elem_of_In. apply -> in_rev. apply list_elem_of_In.
  by apply trim_bytes_mem.
Qed.

Lemma mem_not_blank b s : in_no_space b = true -> b ∈ bytes s -> blank s = false.
Proof.
  intros Hb Hs. unfold blank, TrimSpace. apply String.eqb_neq. intros E.
  pose proof (trim_mem b _ Hb Hs) as Hin.
  destruct (trim_right (trim_left (bytes s))); [by apply elem_of_nil in Hin | done].
Qed.

(** ** The first separator decides *)

Lemma split_first {A} (c : A) (l1 l2 r1 r2 : list A) :
  c ∉ l1 -> c ∉ l2 -> l1 ++ c :: r1 = l2 ++ c :: r2 -> l1 = l2 /\ r1 = r2.
Proof.
  revert l2. induction l1 as [|a l1 IH]; intros [|b l2] H1 H2; cbn; intros H; simplify_eq.
  - done.
  - destruct H2. constructor.
  - destruct H1. constructor.
  - destruct (IH l2) as [-> ->]; try done; intros Hin; [apply H1 | apply H2]; by constructor.
Qed.

Lemma split_last {A} (c : A) (l1 l2 r1 r2 : list A) :
  c ∉ r1 -> c ∉ r2 -> l1 ++ c :: r1 = l2 ++ c :: r2 -> l1 = l2 /\ r1 = r2.
Proof.
  intros H1 H2 H. apply (f_equal (@rev A)) in H. rewrite !rev_app_distr in H. cbn in H.
  rewrite <- !app_assoc in H. cbn in H.
  apply split_first in H as [Hr Hl]; [|by rewrite list_elem_of_In, <- in_rev, <- list_elem_of_In..].
  by apply rev_inj in Hr as ->; apply rev_inj in Hl as ->.
Qed.

(** * Database transactions *)

(** What the database does to one transaction: it works, it fails, or it commits
    and the answer is lost. *)
Inductive TxFault := Fine | Fails | LostAck.

(** An error inside rolls back; a commit whose answer is lost has happened. *)
Definition transaction {DB A E : Type} (lost : string -> E) (f : TxFault) (db : DB)
    (fn : DB -> DB * result A E) : DB * result A E :=
  match f with
  | Fails => (db, Err (lost "begin"))
  | Fine | LostAck =>
      match fn db with
      | (_, Err e) => (db, Err e)
      | (db', Ok a) => match f with LostAck => (db', Err (lost "commit")) | _ => (db', Ok a) end
      end
  end.

(** The state a transaction leaves is the old one or the one its body committed. *)
Lemma transaction_state {DB A E} (lost : string -> E) f (db : DB) (fn : DB -> DB * result A E) :
  fst (transaction lost f db fn) = db \/
  (exists a, snd (fn db) = Ok a /\ fst (transaction lost f db fn) = fst (fn db)).
Proof.
  unfold transaction. destruct f, (fn db) as [db' [a|e]]; cbn; eauto.
Qed.

Lemma transaction_ok {DB A E} (lost : string -> E) f (db : DB) (fn : DB -> DB * result A E) db' a :
  transaction lost f db fn = (db', Ok a) -> f = Fine /\ fn db = (db', Ok a).
Proof. unfold transaction. destruct f, (fn db) as [? [?|?]]; intros; simplify_eq; done. Qed.

(** * Sums over finite maps *)

Section MapSum.
Context {K V : Type} `{Countable K}.
Implicit Types (m : gmap K V) (f : V -> Z).

Definition map_sum (f : V -> Z) (m : gmap K V) : Z :=
  map_fold (fun _ v acc => f v + acc) 0 m.

Lemma map_sum_empty f : map_sum f ∅ = 0.
Proof. apply map_fold_empty. Qed.

Lemma map_sum_insert_new f m k v :
  m !! k = None -> map_sum f (<[k := v]> m) = f v + map_sum f m.
Proof.
  intros Hk. unfold map_sum. rewrite map_fold_insert_L; [done | | done].
  intros. lia.
Qed.

Lemma map_sum_delete f m k v :
  m !! k = Some v -> map_sum f (delete k m) = map_sum f m - f v.
Proof.
  intros Hk. rewrite <- (insert_delete_id m k v) at 2 by done.
  rewrite map_sum_insert_new by apply lookup_delete_eq. lia.
Qed.

Lemma map_sum_update f m k v v' :
  m !! k = Some v -> map_sum f (<[k := v']> m) = map_sum f m - f v + f v'.
Proof.
  intros Hk. rewrite <- insert_delete_eq.
  rewrite map_sum_insert_new by apply lookup_delete_eq.
  rewrite (map_sum_delete _ _ _ _ Hk). lia.
Qed.

Lemma map_sum_le f g m :
  (forall k v, m !! k = Some v -> f v <= g v) -> map_sum f m <= map_sum g m.
Proof.
  induction m as [|k v m Hk IH] using map_ind; intros Hle.
  - rewrite !map_sum_empty. lia.
  - rewrite !map_sum_insert_new by done.
    assert (f v <= g v) by (apply (Hle k); apply lookup_insert_eq).
    enough (map_sum f m <= map_sum g m) by lia.
    apply IH. intros k' v' Hk'. apply (Hle k'). rewrite lookup_insert_ne; congruence.
Qed.

Lemma map_sum_ext f g m :
  (forall k v, m !! k = Some v -> f v = g v) -> map_sum f m = map_sum g m.
Proof.
  intros Heq. apply Z.le_antisymm; apply map_sum_le; intros k v Hk;
    rewrite (Heq k v Hk); lia.
Qed.

Lemma map_sum_nonneg f m :
  (forall k v, m !! k = Some v -> 0 <= f v) -> 0 <= map_sum f m.
Proof.
  intros Hf. transitivity (map_sum (fun _ => 0) m); [|by apply map_sum_le].
  induction m as [|k v m Hk IH] using map_ind; [by rewrite map_sum_empty|].
  rewrite map_sum_insert_new by done.
  assert (0 <= map_sum (fun _ : V => 0) m); [|lia].
  apply IH. intros k' v' Hk'. apply (Hf k'). rewrite lookup_insert_ne; congruence.
Qed.

(** Accumulating in a Go [int64] gives the exact sum, wrapped once. *)
Definition map_sum64 (f : V -> Z) (m : gmap K V) : Z :=
  map_fold (fun _ v acc => add64 acc (f v)) 0 m.

Lemma wrap64_add a b : wrap64 (wrap64 a + b) = wrap64 (a + b).
Proof.
  unfold wrap64 at 2. pose proof (Z.div_mod (a + 2 ^ 63) (2 ^ 64) ltac:(lia)) as Hd.
  replace ((a + 2 ^ 63) mod 2 ^ 64 - 2 ^ 63 + b)
    with (a + b + (- ((a + 2 ^ 63) / 2 ^ 64)) * 2 ^ 64) by lia.
  apply wrap64_unit.
Qed.

Lemma map_sum64_wrap f m : map_sum64 f m = wrap64 (map_sum f m).
Proof.
  unfold map_sum64, map_sum. rewrite !map_fold_foldr.
  induction (map_to_list m) as [|[k v] l IH]; simpl; [done|].
  rewrite IH. unfold add64. rewrite wrap64_add. f_equal. lia.
Qed.
End MapSum.

(** A property of every value of a map, and how updates affect it. *)
Section MapAll.
Context {K V : Type} `{Countable K}.
Implicit Types (m : gmap K V) (P : V -> Prop).

Definition map_all (P : V -> Prop) (m : gmap K V) : Prop :=
  forall k v, m !! k = Some v -> P v.

Lemma map_all_empty P : map_all P ∅.
Proof. intros k v Hk. by rewrite lookup_empty in Hk. Qed.

Lemma map_all_insert P m k v : P v -> map_all P m -> map_all P (<[k := v]> m).
Proof.
  intros Hv Hm k' v' Hk'. destruct (decide (k = k')) as [->|].
  - rewrite lookup_insert_eq in Hk'. congruence.
  - rewrite lookup_insert_ne in Hk' by done. eauto.
Qed.

Lemma map_all_delete P m k : map_all P m -> map_all P (delete k m).
Proof. intros Hm k' v' [_ Hk']%lookup_delete_Some. eauto. Qed.

Lemma map_all_impl (P Q : V -> Prop) m :
  (forall v, P v -> Q v) -> map_all P m -> map_all Q m.
Proof. intros HPQ Hm k v Hk. eauto. Qed.
End MapAll.

#[export] Hint Resolve map_all_empty map_all_insert map_all_delete : golib.
