(* ===== verification/Strings.v ===== *)
(** The functions of Go's strings package that identity and the gateway use, on byte
    strings, with the lemmas their parsers need. *)

From S2P Require Import Prelude.

(** [strings.Split(s, sep)] for a one-byte separator. *)
Fixpoint Split (sep : Ascii.ascii) (s : string) : list string :=
  match s with
  | "" => [""]
  | String c s' =>
      if Ascii.eqb c sep then "" :: Split sep s'
      else match Split sep s' with
           | h :: t => String c h :: t
           | [] => [String c ""]
           end
  end.

(** [strings.Cut(s, sep)] for a one-byte separator; [None] when it is absent. *)
Fixpoint Cut (sep : Ascii.ascii) (s : string) : option (string * string) :=
  match s with
  | "" => None
  | String c s' =>
      if Ascii.eqb c sep then Some ("", s')
      else match Cut sep s' with
           | Some (a, b) => Some (String c a, b)
           | None => None
           end
  end.

(** [strings.CutPrefix]; [HasPrefix] and [TrimPrefix] follow. *)
Fixpoint CutPrefix (s prefix : string) {struct prefix} : option string :=
  match prefix, s with
  | "", _ => Some s
  | String p prefix', String c s' => if Ascii.eqb p c then CutPrefix s' prefix' else None
  | String _ _, "" => None
  end.

Definition HasPrefix (s prefix : string) : bool :=
  match CutPrefix s prefix with Some _ => true | None => false end.

Definition TrimPrefix (s prefix : string) : string := default s (CutPrefix s prefix).

(** [strings.Contains] *)
Fixpoint Contains (s sub : string) : bool :=
  HasPrefix s sub || match s with String _ s' => Contains s' sub | "" => false end.

(** [strings.HasSuffix] and [strings.TrimSuffix] for a one-byte suffix. *)
Fixpoint HasSuffix (s : string) (suffix : Ascii.ascii) : bool :=
  match s with
  | "" => false
  | String c "" => Ascii.eqb c suffix
  | String _ s' => HasSuffix s' suffix
  end.

Fixpoint drop_last (s : string) : string :=
  match s with
  | "" => ""
  | String _ "" => ""
  | String c s' => String c (drop_last s')
  end.

Definition TrimSuffix (s : string) (suffix : Ascii.ascii) : string :=
  if HasSuffix s suffix then drop_last s else s.

(** [strings.ToLower], for comparison with ASCII text: U+0130 and U+212A are the runes
    outside ASCII whose lower case is in it; other bytes outside ASCII are kept. *)
Fixpoint lower_bytes (l : list nat) : list nat :=
  match l with
  | 196%nat :: 176%nat :: l' => 105%nat :: lower_bytes l'
  | 226%nat :: 132%nat :: 170%nat :: l' => 107%nat :: lower_bytes l'
  | b :: l' => (if ((65 <=? b) && (b <=? 90))%nat then b + 32 else b)%nat :: lower_bytes l'
  | [] => []
  end.

Definition ToLower (s : string) : string := str_of_bytes (lower_bytes (bytes s)).

(** [strings.EqualFold], for ASCII text on one side: U+017F and U+212A are the runes
    outside ASCII that fold into it. *)
Fixpoint fold_bytes (l : list nat) : list nat :=
  match l with
  | 197%nat :: 191%nat :: l' => 115%nat :: fold_bytes l'
  | 226%nat :: 132%nat :: 170%nat :: l' => 107%nat :: fold_bytes l'
  | b :: l' => (if ((65 <=? b) && (b <=? 90))%nat then b + 32 else b)%nat :: fold_bytes l'
  | [] => []
  end.

Definition EqualFold (a b : string) : bool :=
  bool_decide (fold_bytes (bytes a) = fold_bytes (bytes b)).

Example Split_ex : Split ","%char "a,,b" = ["a"; ""; "b"].
Proof. done. Qed.

Example Cut_ex : Cut "="%char "a@t=x=y" = Some ("a@t", "x=y").
Proof. done. Qed.

(** * Lemmas *)

Fixpoint str_mem (c : Ascii.ascii) (s : string) : bool :=
  match s with
  | "" => false
  | String d s' => Ascii.eqb d c || str_mem c s'
  end.

Lemma Cut_app sep a b :
  str_mem sep a = false -> Cut sep (a +:+ String sep b) = Some (a, b).
Proof.
  induction a as [|c a IH]; simpl; intros H; [by rewrite Ascii.eqb_refl|].
  apply orb_false_iff in H as [-> H]. by rewrite IH.
Qed.

Lemma Split_word sep a : str_mem sep a = false -> Split sep a = [a].
Proof.
  induction a as [|c a IH]; simpl; intros H; [done|].
  apply orb_false_iff in H as [-> H]. by rewrite IH.
Qed.

Lemma Split_app sep a s :
  str_mem sep a = false -> Split sep (a +:+ String sep s) = a :: Split sep s.
Proof.
  induction a as [|c a IH]; simpl; intros H; [by rewrite Ascii.eqb_refl|].
  apply orb_false_iff in H as [-> H]. by rewrite IH.
Qed.

(** [strings.Join] for a one-byte separator. *)
Fixpoint Join (sep : Ascii.ascii) (l : list string) : string :=
  match l with
  | [] => ""
  | [a] => a
  | a :: l' => a +:+ String sep (Join sep l')
  end.

Lemma Split_Join sep l :
  l <> [] -> Forall (fun a => str_mem sep a = false) l -> Split sep (Join sep l) = l.
Proof.
  intros Hl H. induction H as [|a l Ha Hl' IH]; [done|].
  destruct l as [|b l]; [by apply Split_word|].
  change (Join sep (a :: b :: l)) with (a +:+ String sep (Join sep (b :: l))).
  rewrite Split_app by done. by rewrite IH.
Qed.

Lemma CutPrefix_spec s p r : CutPrefix s p = Some r <-> s = p +:+ r.
Proof.
  revert s. induction p as [|c p IH]; intros s; simpl; [split; [by intros [= ->] | by intros ->]|].
  destruct s as [|d s]; [done|]. destruct (Ascii.eqb_spec c d) as [->|Hne].
  - rewrite IH. split; [by intros -> | by intros [= ->]].
  - split; [done|]. intros [= -> _]. done.
Qed.

Lemma HasPrefix_spec s p : HasPrefix s p = true <-> exists r, s = p +:+ r.
Proof.
  unfold HasPrefix. destruct (CutPrefix s p) as [r|] eqn:E.
  - split; [|done]. intros _. exists r. by apply CutPrefix_spec.
  - split; [done|]. intros [r Hr]. apply CutPrefix_spec in Hr. congruence.
Qed.

Lemma str_mem_app c a b : str_mem c (a +:+ b) = str_mem c a || str_mem c b.
Proof. induction a as [|d a IH]; simpl; [done|]. by rewrite IH, orb_assoc. Qed.

(** Two prefixes of one string are comparable: the shorter is a prefix of the longer. *)
Lemma app_prefix_eq a b r1 r2 :
  a +:+ r1 = b +:+ r2 -> String.length a = String.length b -> a = b.
Proof.
  revert b. induction a as [|c a IH]; intros [|d b]; simpl; intros H Hl; try done.
  injection H as -> H. injection Hl as Hl. by rewrite (IH b H Hl).
Qed.

Lemma str_app_assoc a b c : a +:+ (b +:+ c) = (a +:+ b) +:+ c.
Proof. induction a as [|d a IH]; simpl; [done|]. by rewrite IH. Qed.

(** An element is known by a key that the list does not repeat. *)
Lemma nodup_map_eq {A B} (f : A -> B) (l : list A) e e' :
  NoDup (map f l) -> e ∈ l -> e' ∈ l -> f e = f e' -> e = e'.
Proof.
  induction l as [|x l IH]; intros Hnd He He' Heq; [by apply not_elem_of_nil in He|].
  inversion Hnd as [|? ? Hx Hl]; subst.
  assert (Hin : forall y, y ∈ l -> f y ∈ map f l).
  { intros y Hy. by apply list_elem_of_In, in_map, list_elem_of_In. }
  apply elem_of_cons in He as [->|He], He' as [->|He']; try done.
  - exfalso. apply Hx. rewrite Heq. auto.
  - exfalso. apply Hx. rewrite <- Heq. auto.
  - auto.
Qed.
