(* ===== verification/Money.v ===== *)
(** Exact decimal money and quantities: internal/money/money.go and
    internal/money/quantity.go.

    An [Amount] counts ten-thousandths of a currency unit and a [Quantity]
    hundred-millionths of an instrument unit, both in an int64.  Error values
    are a constructor per refusal of the source; their text is not modelled.
    The text forms of JSON and YAML are in [MoneyJSON], [Float] in [Broker]. *)

From S2P Require Import Prelude.

Abbreviation Amount := Z.
Abbreviation Quantity := Z.

Definition Scale : nat := 4.
Definition unitsPerCurrency : Z := 10000.
Definition QuantityScale : nat := 8.
Definition unitsPerQuantity : Z := 100000000.

(** * Decimal text *)

Definition digit (d : Z) : Ascii.ascii := Ascii.ascii_of_nat (48 + Z.to_nat d).

Definition is_digit (c : Ascii.ascii) : bool :=
  let n := Ascii.nat_of_ascii c in ((48 <=? n) && (n <=? 57))%nat.

Definition digit_value (c : Ascii.ascii) : Z := Z.of_nat (Ascii.nat_of_ascii c) - 48.

Fixpoint itoa_fuel (fuel : nat) (n : Z) : string :=
  match fuel with
  | O => ""
  | S f => if n <? 10 then String (digit n) ""
           else itoa_fuel f (n / 10) +:+ String (digit (n mod 10)) ""
  end.

(** Decimal digits of a non-negative integer; the binary logarithm bounds the
    number of decimal digits. *)
Definition itoa (n : Z) : string := itoa_fuel (S (Z.to_nat (Z.log2 n))) n.

Fixpoint zeros (n : nat) : string :=
  match n with O => "" | S m => String "0"%char (zeros m) end.

Definition pad_left (w : nat) (s : string) : string :=
  zeros (w - String.length s) +:+ s.

(** The [%d] and [%0wd] verbs of fmt. *)
Definition fmt_d (n : Z) : string := if n <? 0 then "-" +:+ itoa (- n) else itoa n.
Definition fmt_0d (w : nat) (n : Z) : string :=
  if n <? 0 then "-" +:+ pad_left (w - 1) (itoa (- n)) else pad_left w (itoa n).

(** [strings.TrimRight(s, "0")]. *)
Fixpoint trim_right_zeros (s : string) : string :=
  match s with
  | "" => ""
  | String c s' =>
      match trim_right_zeros s' with
      | "" => if Ascii.eqb c "0"%char then "" else String c ""
      | t => String c t
      end
  end.

(** [strings.Trim(s, "0")]. *)
Fixpoint trim_left_zeros (s : string) : string :=
  match s with
  | String c s' => if Ascii.eqb c "0"%char then trim_left_zeros s' else s
  | "" => ""
  end.
Definition trim_zeros (s : string) : string := trim_right_zeros (trim_left_zeros s).

(** * Amount.String and Quantity.String *)

Definition Amount_String (a : Amount) : string :=
  let negative := a <? 0 in
  let a := if negative then neg64 a else a in
  let whole := Z.quot a unitsPerCurrency in
  let fraction := Z.rem a unitsPerCurrency in
  let sign := if negative then "-" else "" in
  sign +:+ fmt_d whole +:+ "." +:+ fmt_0d 4 fraction.

Definition Quantity_String (q : Quantity) : string :=
  let negative := q <? 0 in
  let q := if negative then neg64 q else q in
  let whole := Z.quot q unitsPerQuantity in
  let fraction := Z.rem q unitsPerQuantity in
  let sign := if negative then "-" else "" in
  if fraction =? 0 then sign +:+ fmt_d whole
  else sign +:+ fmt_d whole +:+ "." +:+ trim_right_zeros (fmt_0d 8 fraction).

Definition Amount_Add (a b : Amount) : Amount := add64 a b.
Definition Amount_Sub (a b : Amount) : Amount := sub64 a b.
Definition Amount_IsZero (a : Amount) : bool := a =? 0.
Definition Quantity_IsZero (q : Quantity) : bool := q =? 0.

(** * Parsing *)

Inductive ParseError :=
| EmptyNumber | NoDigits | ExponentNotation | NotDecimal
| ErrPrecision | ErrQuantityPrecision | OutOfRange.

#[global] Instance ParseError_eq_dec : EqDecision ParseError.
Proof. solve_decision. Defined.

Fixpoint str_forall (p : Ascii.ascii -> bool) (s : string) : bool :=
  match s with "" => true | String c s' => p c && str_forall p s' end.

Definition allDigits (s : string) : bool :=
  if String.eqb s "" then false else str_forall is_digit s.

(** [strings.ContainsAny(s, "eE")]. *)
Definition has_exponent (s : string) : bool :=
  negb (str_forall (fun c => negb (Ascii.eqb c "e"%char || Ascii.eqb c "E"%char)) s).

(** [strings.Cut(s, ".")]. *)
Fixpoint cut_dot (s : string) : string * string * bool :=
  match s with
  | "" => ("", "", false)
  | String c s' =>
      if Ascii.eqb c "."%char then ("", s', true)
      else let '(w, f, has) := cut_dot s' in (String c w, f, has)
  end.

Fixpoint digits_val (acc : Z) (s : string) : Z :=
  match s with
  | "" => acc
  | String c s' => digits_val (acc * 10 + digit_value c) s'
  end.

(** [strconv.ParseInt(s, 10, 64)] on a non-empty string of digits. *)
Definition ParseInt (s : string) : option Z :=
  let v := digits_val 0 s in if v <=? max_int64 then Some v else None.

Fixpoint str_drop (n : nat) (s : string) : string :=
  match n, s with
  | S m, String _ s' => str_drop m s'
  | _, _ => s
  end.
Fixpoint str_take (n : nat) (s : string) : string :=
  match n, s with
  | S m, String c s' => String c (str_take m s')
  | _, _ => ""
  end.

Definition parse_sign (s : string) : bool * string :=
  match s with
  | String c s' =>
      if Ascii.eqb c "+"%char then (false, s')
      else if Ascii.eqb c "-"%char then (true, s')
      else (false, s)
  | "" => (false, "")
  end.

(** The multiplier loop, [multiplier *= 10] for range scale. *)
Fixpoint pow10_loop (n : nat) (multiplier : Z) : Z :=
  match n with O => multiplier | S m => pow10_loop m (wrap64 (multiplier * 10)) end.

(** From the excess-precision check on: the digits are known to be digits. *)
Definition parse_digits (negative : bool) (whole fraction : string) (hasFraction : bool)
    (scale : nat) (precisionErr : ParseError) : result Z ParseError :=
  let? fraction :=
    (if hasFraction && (scale <? String.length fraction)%nat then
       if str_nonempty (trim_zeros (str_drop scale fraction)) then Err precisionErr
       else Ok (str_take scale fraction)
     else Ok fraction) in
  match ParseInt whole with
  | None => Err OutOfRange
  | Some units =>
      let multiplier := pow10_loop scale 1 in
      if Z.quot (2 ^ 62) multiplier <? units then Err OutOfRange else
      let padded := fraction +:+ zeros (scale - String.length fraction) in
      match (if str_nonempty padded then ParseInt padded else Some 0) with
      | None => Err OutOfRange
      | Some fractionUnits =>
          let total := add64 (wrap64 (units * multiplier)) fractionUnits in
          Ok (if negative then neg64 total else total)
      end
  end.

Definition parseFixed (s : string) (scale : nat) (precisionErr : ParseError)
    : result Z ParseError :=
  let s := TrimSpace s in
  if String.eqb s "" then Err EmptyNumber else
  let '(negative, s) := parse_sign s in
  if String.eqb s "" then Err NoDigits else
  if has_exponent s then Err ExponentNotation else
  let '(whole, fraction, hasFraction) := cut_dot s in
  let whole := if String.eqb whole "" then "0" else whole in
  if negb (allDigits whole) || (hasFraction && negb (allDigits fraction)) then Err NotDecimal
  else parse_digits negative whole fraction hasFraction scale precisionErr.

Definition Parse (s : string) : result Amount ParseError := parseFixed s Scale ErrPrecision.
Definition ParseQuantity (s : string) : result Quantity ParseError :=
  parseFixed s QuantityScale ErrQuantityPrecision.

(** * Notional *)

(** big.Int arithmetic is exact; [QuoRem] truncates, and the operands are
    non-negative when it is called. *)
Definition NotionalOf (price : Amount) (quantity : Quantity) : Amount :=
  if (price =? 0) || (quantity =? 0) then 0 else
  let product := price * quantity in
  let negative := product <? 0 in
  let product := Z.abs product in
  let quotient := Z.quot product unitsPerQuantity in
  let remainder := Z.rem product unitsPerQuantity in
  let quotient := if negb (remainder =? 0) then quotient + 1 else quotient in
  if negb (in_int64b quotient) then 0 else
  if negative then neg64 quotient else quotient.

Example Amount_String_ex : Amount_String 12345678 = "1234.5678".
Proof. vm_compute. done. Qed.
Example Amount_String_neg_ex : Amount_String (-5) = "-0.0005".
Proof. vm_compute. done. Qed.
Example Quantity_String_ex : Quantity_String 150000000 = "1.5".
Proof. vm_compute. done. Qed.
Example Parse_ex : Parse " +900000000000.0003 " = Ok 9000000000000003.
Proof. vm_compute. done. Qed.
Example Parse_precision_ex : Parse "1.00001" = Err ErrPrecision.
Proof. vm_compute. done. Qed.

(** * Lemmas on decimal text *)

#[local] Arguments digit : simpl never.
#[local] Arguments is_digit : simpl never.
#[local] Arguments digit_value : simpl never.

Lemma digit_cases (P : Z -> Prop) :
  P 0 -> P 1 -> P 2 -> P 3 -> P 4 -> P 5 -> P 6 -> P 7 -> P 8 -> P 9 ->
  forall d, 0 <= d < 10 -> P d.
Proof.
  intros. assert (d = 0 \/ d = 1 \/ d = 2 \/ d = 3 \/ d = 4 \/ d = 5 \/ d = 6 \/ d = 7 \/
    d = 8 \/ d = 9) by lia. destruct_or!; by subst.
Qed.

Lemma is_digit_digit d : 0 <= d < 10 -> is_digit (digit d) = true.
Proof. revert d. by apply digit_cases. Qed.

Lemma digit_value_digit d : 0 <= d < 10 -> digit_value (digit d) = d.
Proof. revert d. by apply digit_cases. Qed.

Lemma str_forall_app p s t : str_forall p (s +:+ t) = str_forall p s && str_forall p t.
Proof. induction s as [|c s IH]; simpl; [done|]. by rewrite IH, andb_assoc. Qed.

Lemma length_append s t :
  String.length (s +:+ t) = (String.length s + String.length t)%nat.
Proof. induction s as [|c s IH]; simpl; [done|]. by rewrite IH. Qed.

Lemma digits_val_app a s t : digits_val a (s +:+ t) = digits_val (digits_val a s) t.
Proof. revert a. induction s as [|c s IH]; intros a; simpl; [done|]. by rewrite IH. Qed.

Lemma itoa_fuel_digits fuel n :
  (0 < fuel)%nat -> 0 <= n < 10 ^ Z.of_nat fuel ->
  str_forall is_digit (itoa_fuel fuel n) = true /\ digits_val 0 (itoa_fuel fuel n) = n /\
  itoa_fuel fuel n <> "".
Proof.
  revert n. induction fuel as [|f IH]; intros n Hf Hn; [lia|]. cbn [itoa_fuel].
  destruct (n <? 10) eqn:E; b2p.
  - cbn [str_forall digits_val]. rewrite is_digit_digit, digit_value_digit by lia. done.
  - rewrite Nat2Z.inj_succ, Z.pow_succ_r in Hn by lia.
    assert (Hd : 0 <= n / 10 < 10 ^ Z.of_nat f).
    { split; [apply Z.div_pos; lia|]. apply Z.div_lt_upper_bound; lia. }
    assert (f <> O) by (intros ->; change (10 ^ Z.of_nat 0) with 1 in Hn; lia).
    destruct (IH (n / 10) ltac:(lia) Hd) as (H1 & H2 & H3).
    pose proof (Z.mod_pos_bound n 10 ltac:(lia)).
    rewrite str_forall_app, digits_val_app, H1, H2. cbn [str_forall digits_val].
    rewrite is_digit_digit, digit_value_digit by lia.
    split_and!; [done | pose proof (Z.div_mod n 10); lia |].
    destruct (itoa_fuel f (n / 10)); done.
Qed.

Lemma itoa_spec n :
  0 <= n ->
  str_forall is_digit (itoa n) = true /\ digits_val 0 (itoa n) = n /\ itoa n <> "".
Proof.
  intros Hn. apply itoa_fuel_digits; [lia|]. split; [done|].
  destruct (Z.eq_dec n 0) as [->|]; [vm_compute; done|].
  pose proof (Z.log2_spec n ltac:(lia)) as [_ H].
  pose proof (Z.log2_nonneg n).
  rewrite Nat2Z.inj_succ, Z2Nat.id by lia.
  eapply Z.lt_le_trans; [exact H|]. apply Z.pow_le_mono_l. lia.
Qed.

Lemma length_itoa_fuel fuel n k :
  0 <= n < 10 ^ Z.of_nat (S k) -> (String.length (itoa_fuel fuel n) <= S k)%nat.
Proof.
  revert n k. induction fuel as [|f IH]; intros n k Hn; cbn [itoa_fuel]; [cbn; lia|].
  destruct (n <? 10) eqn:E; b2p; [cbn; lia|].
  rewrite length_append. cbn [String.length].
  destruct k as [|k]; [change (10 ^ Z.of_nat 1) with 10 in Hn; lia|].
  rewrite Nat2Z.inj_succ, Z.pow_succ_r in Hn by lia.
  assert (0 <= n / 10 < 10 ^ Z.of_nat (S k)).
  { split; [apply Z.div_pos; lia|]. apply Z.div_lt_upper_bound; lia. }
  specialize (IH (n / 10) k ltac:(lia)). lia.
Qed.

Lemma zeros_digits n : str_forall is_digit (zeros n) = true.
Proof. by induction n. Qed.

Lemma digits_val_zeros a n : digits_val a (zeros n) = a * 10 ^ Z.of_nat n.
Proof.
  revert a. induction n as [|n IH]; intros a; simpl; [lia|].
  rewrite IH, Nat2Z.inj_succ, Z.pow_succ_r by lia.
  change (digit_value "0"%char) with 0. lia.
Qed.

Lemma length_zeros n : String.length (zeros n) = n.
Proof. induction n; simpl; congruence. Qed.

Lemma length_pad_left w s :
  (String.length s <= w)%nat -> String.length (pad_left w s) = w.
Proof. intros. unfold pad_left. rewrite length_append, length_zeros. lia. Qed.

Lemma pad_left_digits w s :
  str_forall is_digit s = true -> str_forall is_digit (pad_left w s) = true.
Proof. intros. unfold pad_left. by rewrite str_forall_app, zeros_digits, H. Qed.

Lemma digits_val_pad_left w s : digits_val 0 (pad_left w s) = digits_val 0 s.
Proof. unfold pad_left. by rewrite digits_val_app, digits_val_zeros. Qed.

Lemma digits_val_shift a s :
  digits_val a s = a * 10 ^ Z.of_nat (String.length s) + digits_val 0 s.
Proof.
  revert a. induction s as [|c s IH]; intros a; [simpl; lia|].
  cbn [digits_val String.length].
  rewrite (IH (a * 10 + digit_value c)), (IH (0 * 10 + digit_value c)).
  rewrite Nat2Z.inj_succ, Z.pow_succ_r by lia. lia.
Qed.

Lemma digit_value_bound c : is_digit c = true -> 0 <= digit_value c < 10.
Proof.
  unfold is_digit, digit_value. intros H. apply andb_true_iff in H as [H1 H2].
  apply Nat.leb_le in H1. apply Nat.leb_le in H2. lia.
Qed.

Lemma digits_val_bound s :
  str_forall is_digit s = true -> 0 <= digits_val 0 s < 10 ^ Z.of_nat (String.length s).
Proof.
  induction s as [|c s IH]; [simpl; lia|].
  cbn [str_forall digits_val String.length]. intros H.
  apply andb_true_iff in H as [Hc Hs]. specialize (IH Hs).
  apply digit_value_bound in Hc. rewrite digits_val_shift.
  rewrite Nat2Z.inj_succ, Z.pow_succ_r by lia.
  pose proof (Z.pow_pos_nonneg 10 (Z.of_nat (String.length s))). nia.
Qed.

Lemma append_nil_r s : s +:+ "" = s.
Proof. induction s as [|c s IH]; [done|]. cbn. f_equal. exact IH. Qed.

Lemma append_assoc s t u : (s +:+ t) +:+ u = s +:+ (t +:+ u).
Proof. induction s as [|c s IH]; [done|]. cbn. f_equal. exact IH. Qed.

(** Trailing zeros can be put back. *)
Lemma trim_right_zeros_spec s :
  (String.length (trim_right_zeros s) <= String.length s)%nat /\
  trim_right_zeros s +:+ zeros (String.length s - String.length (trim_right_zeros s)) = s /\
  (str_forall is_digit s = true -> str_forall is_digit (trim_right_zeros s) = true).
Proof.
  induction s as [|c s (IH1 & IH2 & IH3)]; [done|]. cbn [trim_right_zeros].
  destruct (trim_right_zeros s) as [|t0 t] eqn:E.
  - destruct (Ascii.eqb c "0"%char) eqn:Ec.
    + apply Ascii.eqb_eq in Ec as ->. cbn in *. rewrite Nat.sub_0_r in IH2.
      split_and!; [lia | by f_equal | done].
    + cbn in *. rewrite Nat.sub_0_r in IH2 |- *.
      split_and!; [lia | by f_equal |]. intros H. apply andb_true_iff in H as [-> _]. done.
  - cbn in *. split_and!; [lia | by rewrite IH2 |].
    intros H. apply andb_true_iff in H as [-> H]. by rewrite (IH3 H).
Qed.

Lemma trim_zeros_all s :
  str_nonempty (trim_zeros s) = false -> s = zeros (String.length s).
Proof.
  unfold trim_zeros. induction s as [|c s IH]; cbn; [done|].
  destruct (Ascii.eqb c "0"%char) eqn:Ec.
  - apply Ascii.eqb_eq in Ec as ->. intros H. by rewrite <- IH.
  - intros H. cbn [trim_right_zeros] in H.
    destruct (trim_right_zeros s); rewrite ?Ec in H; done.
Qed.

Lemma str_take_drop n s : str_take n s +:+ str_drop n s = s.
Proof.
  revert n. induction s as [|c s IH]; intros [|n]; simpl; try done. by rewrite IH.
Qed.

Lemma length_str_take n s :
  (n <= String.length s)%nat -> String.length (str_take n s) = n.
Proof.
  revert n. induction s as [|c s IH]; intros [|n] H; simpl in *; try lia.
  rewrite IH; lia.
Qed.

Lemma str_take_digits n s :
  str_forall is_digit s = true -> str_forall is_digit (str_take n s) = true.
Proof.
  revert n. induction s as [|c s IH]; intros [|n] H; simpl in *; try done.
  apply andb_true_iff in H as [-> H]. by rewrite IH.
Qed.

Lemma pow10_loop_spec n :
  (n <= 18)%nat -> forall m, 0 <= m -> m * 10 ^ Z.of_nat n <= max_int64 ->
  pow10_loop n m = m * 10 ^ Z.of_nat n.
Proof.
  induction n as [|n IH]; intros Hn m Hm Hle; simpl; [lia|].
  rewrite Nat2Z.inj_succ, Z.pow_succ_r in * by lia.
  pose proof (Z.pow_pos_nonneg 10 (Z.of_nat n)).
  rewrite wrap64_id; [| int64_lia || (unfold in_int64, min_int64 in *; nia)].
  rewrite IH; [lia | lia | nia | nia].
Qed.

(** * Parsing a literal *)

(** The signed decimal literals the parser accepts, from their parts. *)
Definition sign_text (negative : bool) : string := if negative then "-" else "".

Definition literal (negative : bool) (w f : string) (has : bool) : string :=
  sign_text negative +:+ w +:+ (if has then "." +:+ f else "").

Definition signed (negative : bool) (z : Z) : Z := if negative then - z else z.

Definition literal_byte (c : Ascii.ascii) : bool :=
  is_digit c || Ascii.eqb c "."%char || Ascii.eqb c "-"%char.

Lemma literal_byte_word s :
  str_forall literal_byte s = true -> forallb word_byte (bytes s) = true.
Proof.
  induction s as [|c s IH]; [done|]. cbn [str_forall]. intros H.
  apply andb_true_iff in H as [Hc Hs]. unfold bytes in *. cbn.
  rewrite (IH Hs), andb_true_r. clear -Hc.
  unfold literal_byte, is_digit in Hc. unfold word_byte.
  destruct (Ascii.eqb c "."%char) eqn:E1; [apply Ascii.eqb_eq in E1 as ->; done|].
  destruct (Ascii.eqb c "-"%char) eqn:E2; [apply Ascii.eqb_eq in E2 as ->; done|].
  rewrite !orb_false_r in Hc. apply andb_true_iff in Hc as [H1 H2].
  apply Nat.leb_le in H1. apply Nat.leb_le in H2.
  apply andb_true_iff. split; apply Nat.leb_le; lia.
Qed.

Lemma str_forall_impl (p q : Ascii.ascii -> bool) s :
  (forall c, p c = true -> q c = true) -> str_forall p s = true -> str_forall q s = true.
Proof.
  intros Hpq. induction s as [|c s IH]; cbn; [done|]. intros H.
  apply andb_true_iff in H as [Hc Hs]. by rewrite (Hpq c Hc), IH.
Qed.

Lemma digit_not c d : is_digit c = true -> is_digit d = false -> Ascii.eqb c d = false.
Proof. intros Hc Hd. destruct (Ascii.eqb_spec c d); [congruence | done]. Qed.

Lemma digits_literal s : str_forall is_digit s = true -> str_forall literal_byte s = true.
Proof. apply str_forall_impl. intros c Hc. unfold literal_byte. rewrite Hc. done. Qed.

Lemma allDigits_iff s : allDigits s = true <-> s <> "" /\ str_forall is_digit s = true.
Proof.
  unfold allDigits.
  destruct (String.eqb_spec s "") as [->|Hne];
    split; [done | by intros [? _] | done | by intros [_ ?]].
Qed.

Lemma cut_dot_digits w t :
  str_forall is_digit w = true ->
  cut_dot (w +:+ t) = let '(w', f, has) := cut_dot t in (w +:+ w', f, has).
Proof.
  induction w as [|c w IH]; cbn; [by destruct (cut_dot t) as [[] ?]|].
  intros H. apply andb_true_iff in H as [Hc Hw].
  rewrite (digit_not c "."%char Hc) by done. rewrite (IH Hw).
  by destruct (cut_dot t) as [[] ?].
Qed.

Lemma literal_bytes negative w f has :
  str_forall is_digit w = true -> (has = true -> str_forall is_digit f = true) ->
  str_forall literal_byte (literal negative w f has) = true.
Proof.
  intros Hw Hf. unfold literal. rewrite !str_forall_app, (digits_literal w Hw).
  destruct negative, has; cbn; rewrite ?(digits_literal f) by auto; done.
Qed.

Lemma no_exponent s : str_forall literal_byte s = true -> has_exponent s = false.
Proof.
  intros H. unfold has_exponent. apply negb_false_iff.
  revert H. apply str_forall_impl. intros c Hc. apply negb_true_iff, orb_false_iff.
  split; [destruct (Ascii.eqb_spec c "e"%char) as [->|] |
          destruct (Ascii.eqb_spec c "E"%char) as [->|]]; done.
Qed.

Lemma parse_sign_literal negative w t :
  w <> "" -> str_forall is_digit w = true ->
  parse_sign (sign_text negative +:+ w +:+ t) = (negative, w +:+ t).
Proof.
  intros Hw Hd. destruct negative; [done|]. cbn.
  destruct w as [|c w]; [done|]. cbn in *. apply andb_true_iff in Hd as [Hc _].
  rewrite (digit_not c "+"%char Hc), (digit_not c "-"%char Hc) by done. done.
Qed.

Lemma append_eqb_empty w t : w <> "" -> String.eqb (w +:+ t) "" = false.
Proof. by destruct w. Qed.

Lemma parse_literal negative w f has scale e :
  allDigits w = true -> (has = true -> allDigits f = true) -> (has = false -> f = "") ->
  parseFixed (literal negative w f has) scale e = parse_digits negative w f has scale e.
Proof.
  intros Hw Hf Hf'. apply allDigits_iff in Hw as [Hw0 Hw].
  assert (Hfd : str_forall is_digit f = true).
  { destruct has; [by apply allDigits_iff, Hf | by rewrite Hf']. }
  pose proof (literal_bytes negative w f has Hw ltac:(auto)) as Hl.
  unfold parseFixed. rewrite TrimSpace_word by by apply literal_byte_word.
  assert (Hne : String.eqb (literal negative w f has) "" = false).
  { unfold literal. destruct negative; [done | exact (append_eqb_empty w _ Hw0)]. }
  rewrite Hne. unfold literal in *. rewrite (parse_sign_literal negative w _ Hw0 Hw).
  rewrite append_eqb_empty by done.
  rewrite str_forall_app in Hl. apply andb_true_iff in Hl as [_ Hl].
  rewrite (no_exponent _ Hl), (cut_dot_digits w _ Hw).
  assert (Hcut : cut_dot (if has then "." +:+ f else "") = ("", f, has)).
  { destruct has; [done | by rewrite Hf']. }
  rewrite Hcut, append_nil_r. destruct (String.eqb_spec w ""); [done|].
  assert (Haw : allDigits w = true) by by apply allDigits_iff.
  rewrite Haw. cbn [negb orb]. destruct has; cbn [andb]; [by rewrite Hf | done].
Qed.

Definition frac_units (f : string) (scale : nat) : Z :=
  digits_val 0 (f +:+ zeros (scale - String.length f)).

Lemma frac_units_bound f scale :
  str_forall is_digit f = true -> (String.length f <= scale)%nat ->
  0 <= frac_units f scale < 10 ^ Z.of_nat scale.
Proof.
  intros Hf Hl. unfold frac_units.
  assert (Hd : str_forall is_digit (f +:+ zeros (scale - String.length f)) = true)
    by by rewrite str_forall_app, Hf, zeros_digits.
  apply digits_val_bound in Hd. rewrite length_append, length_zeros in Hd.
  by replace (String.length f + (scale - String.length f))%nat with scale in Hd by lia.
Qed.

Lemma scale_bound scale : (scale <= 18)%nat -> 1 <= 10 ^ Z.of_nat scale <= 10 ^ 18.
Proof.
  intros. split; [pose proof (Z.pow_pos_nonneg 10 (Z.of_nat scale)); lia|].
  apply Z.pow_le_mono_r; lia.
Qed.

(** The conversion is exact and never wraps once the whole part passes its bound. *)
Lemma units_exact (negative : bool) (units m frac : Z) :
  1 <= m <= 10 ^ 18 -> 0 <= units <= 2 ^ 62 / m -> 0 <= frac < m ->
  (let total := add64 (wrap64 (units * m)) frac in
   if negative then neg64 total else total) = signed negative (units * m + frac) /\
  in_int64 (signed negative (units * m + frac)).
Proof.
  intros Hm Hu Hf.
  assert (Hum : 0 <= units * m <= 2 ^ 62).
  { pose proof (Z.mul_div_le (2 ^ 62) m ltac:(lia)). nia. }
  assert (H64 : in_int64 (units * m)) by int64_lia.
  assert (H64' : in_int64 (units * m + frac)) by int64_lia.
  rewrite (wrap64_id _ H64), (add64_exact _ _ H64'). cbv zeta.
  destruct negative; simpl; unfold neg64; rewrite ?wrap64_id; split; try done; int64_lia.
Qed.

Lemma parse_digits_exact negative w f has scale e :
  (scale <= 18)%nat -> allDigits w = true -> str_forall is_digit f = true ->
  (String.length f <= scale)%nat ->
  digits_val 0 w <= 2 ^ 62 / 10 ^ Z.of_nat scale ->
  parse_digits negative w f has scale e =
    Ok (signed negative (digits_val 0 w * 10 ^ Z.of_nat scale + frac_units f scale)).
Proof.
  intros Hs Hw Hf Hl Hu. apply allDigits_iff in Hw as [_ Hw].
  pose proof (digits_val_bound w Hw) as Hwb. pose proof (scale_bound scale Hs) as Hsb.
  pose proof (frac_units_bound f scale Hf Hl) as Hfb.
  unfold parse_digits.
  replace (has && (scale <? String.length f)%nat) with false
    by (symmetry; apply andb_false_iff; right; apply Nat.ltb_ge; done).
  unfold ParseInt.
  assert (H62 : 2 ^ 62 / 10 ^ Z.of_nat scale <= 2 ^ 62) by (apply Z.div_le_upper_bound; nia).
  destruct (Z.leb_spec (digits_val 0 w) max_int64); [|int64_lia].
  rewrite pow10_loop_spec by (unfold max_int64; lia). rewrite Z.mul_1_l.
  rewrite Z.quot_div_nonneg by lia.
  destruct (Z.ltb_spec (2 ^ 62 / 10 ^ Z.of_nat scale) (digits_val 0 w)); [lia|].
  fold (frac_units f scale).
  destruct (units_exact negative _ _ (frac_units f scale) Hsb (conj (proj1 Hwb) Hu) Hfb)
    as [Hex _].
  destruct (str_nonempty (f +:+ zeros (scale - String.length f))) eqn:En.
  - destruct (Z.leb_spec (frac_units f scale) max_int64); [|int64_lia].
    cbv zeta in Hex. by rewrite Hex.
  - assert (Hz : frac_units f scale = 0).
    { unfold frac_units. unfold str_nonempty in En. b2p. by rewrite En. }
    rewrite Hz in Hex. cbv zeta in Hex. by rewrite Hex, Hz.
Qed.

(** * Printing is a literal *)

Lemma fmt_d_nonneg n : 0 <= n -> fmt_d n = itoa n.
Proof. intros. unfold fmt_d. destruct (Z.ltb_spec n 0); [lia | done]. Qed.

Lemma fmt_d_inj n m : 0 <= n -> 0 <= m -> fmt_d n = fmt_d m -> n = m.
Proof.
  intros Hn Hm. rewrite !fmt_d_nonneg by done. intros H.
  destruct (itoa_spec n Hn) as (_ & <- & _), (itoa_spec m Hm) as (_ & <- & _). by rewrite H.
Qed.

Lemma fmt_0d_nonneg w n : 0 <= n -> fmt_0d w n = pad_left w (itoa n).
Proof. intros. unfold fmt_0d. destruct (Z.ltb_spec n 0); [lia | done]. Qed.

Lemma allDigits_itoa n : 0 <= n -> allDigits (itoa n) = true.
Proof. intros Hn. apply allDigits_iff. by destruct (itoa_spec n Hn) as (? & _ & ?). Qed.

(** The [scale]-digit fraction of a magnitude. *)
Lemma frac_text scale n :
  (0 < scale)%nat -> 0 <= n < 10 ^ Z.of_nat scale ->
  let t := pad_left scale (itoa n) in
  str_forall is_digit t = true /\ String.length t = scale /\ digits_val 0 t = n.
Proof.
  intros Hs Hn t. destruct (itoa_spec n ltac:(lia)) as (Hd & Hv & _).
  assert (Hl : (String.length (itoa n) <= scale)%nat).
  { destruct scale as [|k]; [lia|]. by apply length_itoa_fuel. }
  subst t. split_and!; [by apply pad_left_digits | by apply length_pad_left |].
  by rewrite digits_val_pad_left.
Qed.

(** The magnitude and sign both renderers work on. *)
Lemma magnitude a :
  - max_int64 <= a <= max_int64 ->
  (if a <? 0 then neg64 a else a) = Z.abs a /\ signed (a <? 0) (Z.abs a) = a.
Proof.
  intros H. destruct (Z.ltb_spec a 0); simpl; split; try lia.
  unfold neg64. rewrite wrap64_id; [lia | int64_lia].
Qed.

Lemma Amount_String_literal a :
  - max_int64 <= a <= max_int64 ->
  Amount_String a = literal (a <? 0) (itoa (Z.abs a / 10000))
                      (pad_left 4 (itoa (Z.abs a mod 10000))) true.
Proof.
  intros Ha. unfold Amount_String. cbv zeta.
  destruct (magnitude a Ha) as [-> _]. unfold unitsPerCurrency.
  rewrite Z.quot_div_nonneg, Z.rem_mod_nonneg by lia.
  rewrite fmt_d_nonneg by (apply Z.div_pos; lia).
  rewrite fmt_0d_nonneg by (apply Z.mod_pos_bound; lia). done.
Qed.

Lemma Quantity_String_literal q :
  - max_int64 <= q <= max_int64 ->
  let r := Z.abs q mod 100000000 in
  Quantity_String q =
    literal (q <? 0) (itoa (Z.abs q / 100000000))
      (if r =? 0 then "" else trim_right_zeros (pad_left 8 (itoa r))) (negb (r =? 0)).
Proof.
  intros Ha r. unfold Quantity_String. cbv zeta.
  destruct (magnitude q Ha) as [-> _]. unfold unitsPerQuantity.
  rewrite Z.quot_div_nonneg, Z.rem_mod_nonneg by lia. subst r.
  rewrite fmt_d_nonneg by (apply Z.div_pos; lia).
  rewrite fmt_0d_nonneg by (apply Z.mod_pos_bound; lia).
  destruct (Z.abs q mod 100000000 =? 0); cbn [negb]; unfold literal, sign_text; [|done].
  by rewrite append_nil_r.
Qed.

(** The magnitudes the parser accepts at a scale. *)
Definition parse_limit (scale : nat) : Z :=
  (2 ^ 62 / 10 ^ Z.of_nat scale + 1) * 10 ^ Z.of_nat scale.

Lemma parse_limit_whole scale n :
  (scale <= 18)%nat -> 0 <= n < parse_limit scale ->
  n / 10 ^ Z.of_nat scale <= 2 ^ 62 / 10 ^ Z.of_nat scale.
Proof.
  intros Hs Hn. unfold parse_limit in Hn. pose proof (scale_bound scale Hs).
  apply Z.lt_succ_r. apply Z.div_lt_upper_bound; lia.
Qed.

Lemma parse_printed negative n f has scale e :
  (scale <= 18)%nat -> 0 <= n < parse_limit scale ->
  (has = true -> f <> "") -> (has = false -> f = "") ->
  str_forall is_digit f = true -> (String.length f <= scale)%nat ->
  frac_units f scale = n mod 10 ^ Z.of_nat scale ->
  parseFixed (literal negative (itoa (n / 10 ^ Z.of_nat scale)) f has) scale e =
    Ok (signed negative n).
Proof.
  intros Hs Hn Hf1 Hf2 Hd Hl Hfu. pose proof (scale_bound scale Hs).
  assert (Hq : 0 <= n / 10 ^ Z.of_nat scale) by (apply Z.div_pos; lia).
  rewrite parse_literal;
    [| by apply allDigits_itoa | intros; apply allDigits_iff; auto | done].
  destruct (itoa_spec _ Hq) as (_ & Hv & _).
  rewrite parse_digits_exact; [| done | by apply allDigits_itoa | done | done |].
  - rewrite Hfu, Hv. do 2 f_equal.
    pose proof (Z.div_mod n (10 ^ Z.of_nat scale)). lia.
  - rewrite Hv. by apply parse_limit_whole.
Qed.

(** * Properties *)

Lemma Amount_roundtrip' (a : Amount) :
  Z.abs a < parse_limit Scale -> Parse (Amount_String a) = Ok a.
Proof.
  intros Ha. assert (Hr : - max_int64 <= a <= max_int64).
  { change (parse_limit Scale) with 4611686018427390000 in Ha. int64_lia. }
  rewrite (Amount_String_literal a Hr). unfold Parse.
  destruct (frac_text 4 (Z.abs a mod 10000)) as (Hd & Hl & Hv);
    [lia | apply Z.mod_pos_bound; lia |].
  change 10000 with (10 ^ Z.of_nat Scale) in *.
  rewrite parse_printed; [f_equal; apply magnitude; exact Hr | unfold Scale; lia | lia | |
    done | exact Hd | rewrite Hl; done |].
  - intros _ E. by rewrite E in Hl.
  - unfold frac_units. rewrite Hl. change (Scale - 4)%nat with O.
    cbn [zeros]. by rewrite append_nil_r.
Qed.

(** Every amount the platform can hold within the parser's range is read
    back unchanged from the text [Amount.String] writes, so a ledger column and a
    signed literal carry the exact value. *)
Theorem Amount_roundtrip (a : Amount) :
  Z.abs a < parse_limit Scale -> Parse (Amount_String a) = Ok a.
Proof. apply Amount_roundtrip'. Qed.

Example Amount_roundtrip_witness :
  Z.abs (-12345678) < parse_limit Scale /\ Parse (Amount_String (-12345678)) = Ok (-12345678).
Proof.
  split; [vm_compute; done | apply (Amount_roundtrip (-12345678)); vm_compute; done].
Defined.

(** Quantities round trip too, although [Quantity.String] drops trailing
    zeros and the decimal point of a whole count. *)
Theorem Quantity_roundtrip (q : Quantity) :
  Z.abs q < parse_limit QuantityScale -> ParseQuantity (Quantity_String q) = Ok q.
Proof.
  intros Ha. assert (Hr : - max_int64 <= q <= max_int64).
  { change (parse_limit QuantityScale) with 4611686018500000000 in Ha. int64_lia. }
  rewrite (Quantity_String_literal q Hr). unfold ParseQuantity.
  destruct (frac_text 8 (Z.abs q mod 100000000)) as (Hd & Hl & Hv);
    [lia | apply Z.mod_pos_bound; lia |].
  change 100000000 with (10 ^ Z.of_nat QuantityScale) in *.
  set (r := Z.abs q mod 10 ^ Z.of_nat QuantityScale) in *.
  destruct (trim_right_zeros_spec (pad_left 8 (itoa r))) as (Ht1 & Ht2 & Ht3).
  assert (Hfu : frac_units (if r =? 0 then "" else trim_right_zeros (pad_left 8 (itoa r)))
                  QuantityScale = r).
  { unfold frac_units. destruct (Z.eqb_spec r 0) as [->|]; [done|].
    rewrite Hl in Ht2. unfold QuantityScale. by rewrite Ht2. }
  rewrite parse_printed; [f_equal; apply magnitude; exact Hr | unfold QuantityScale; lia |
    lia | | | | | exact Hfu]; destruct (Z.eqb_spec r 0); try done.
  - intros _ E. rewrite E in Hfu. done.
  - by apply Ht3.
  - cbn. lia.
  - rewrite Hl in Ht1. exact Ht1.
Qed.

Example Quantity_roundtrip_witness :
  Z.abs 150000000 < parse_limit QuantityScale /\
  ParseQuantity (Quantity_String 150000000) = Ok 150000000.
Proof.
  split; [vm_compute; done | apply (Quantity_roundtrip 150000000); vm_compute; done].
Defined.

(** The value a literal denotes, scaled by the digits after its point. *)
Definition denotes (v : Z) (scale : nat) (negative : bool) (w f : string) : Prop :=
  v * 10 ^ Z.of_nat (String.length f) =
    signed negative (digits_val 0 (w +:+ f)) * 10 ^ Z.of_nat scale.

Lemma frac_units_denotes negative w f scale :
  (String.length f <= scale)%nat ->
  denotes (signed negative (digits_val 0 w * 10 ^ Z.of_nat scale + frac_units f scale))
    scale negative w f.
Proof.
  intros Hl. unfold denotes, frac_units.
  rewrite digits_val_app, digits_val_zeros, digits_val_app.
  rewrite (digits_val_shift (digits_val 0 w) f).
  set (k := String.length f) in *.
  assert (Hp : 10 ^ Z.of_nat scale = 10 ^ Z.of_nat k * 10 ^ Z.of_nat (scale - k)).
  { rewrite <- Z.pow_add_r by lia. f_equal. lia. }
  rewrite Hp. destruct negative; simpl; ring.
Qed.

Lemma denotes_take v scale negative w f :
  (scale <= String.length f)%nat ->
  str_nonempty (trim_zeros (str_drop scale f)) = false ->
  denotes v scale negative w (str_take scale f) -> denotes v scale negative w f.
Proof.
  intros Hl Hz Hv. apply trim_zeros_all in Hz. unfold denotes in *.
  rewrite length_str_take in Hv by done.
  rewrite <- (str_take_drop scale f), Hz, !length_append, length_zeros, length_str_take by done.
  rewrite <- append_assoc, digits_val_app, digits_val_zeros.
  rewrite Nat2Z.inj_add, Z.pow_add_r by lia. rewrite Z.mul_assoc, Hv.
  destruct negative; simpl; ring.
Qed.

Lemma parse_digits_sound negative w f has scale e v :
  (scale <= 18)%nat -> allDigits w = true -> str_forall is_digit f = true ->
  (has = false -> f = "") ->
  parse_digits negative w f has scale e = Ok v ->
  denotes v scale negative w f /\ Z.abs v < parse_limit scale.
Proof.
  intros Hs Hw Hf Hf0 H.
  pose proof (scale_bound scale Hs) as Hsb.
  set (g := if (scale <? String.length f)%nat then str_take scale f else f).
  assert (Hg : str_forall is_digit g = true /\ (String.length g <= scale)%nat).
  { subst g. destruct (Nat.ltb_spec scale (String.length f)); [|done].
    split; [by apply str_take_digits | rewrite length_str_take; lia]. }
  assert (Hgd : (denotes v scale negative w g -> denotes v scale negative w f) /\
                parse_digits negative w g false scale e = Ok v).
  { unfold parse_digits in H |- *. cbn [andb]. subst g.
    destruct (Nat.ltb_spec scale (String.length f)); cbv zeta.
    - destruct has; [|rewrite Hf0 in * by done; simpl in *; lia]. cbn [andb] in H.
      destruct (str_nonempty (trim_zeros (str_drop scale f))) eqn:E; [done|].
      split; [apply denotes_take; [lia | done] | exact H].
    - rewrite andb_false_r in H. done. }
  destruct Hgd as [Hgd Hp]. destruct Hg as [Hg1 Hg2].
  assert (Hu : digits_val 0 w <= 2 ^ 62 / 10 ^ Z.of_nat scale).
  { unfold parse_digits in Hp. cbn [andb] in Hp. unfold ParseInt at 1 in Hp.
    destruct (digits_val 0 w <=? max_int64); [|done].
    rewrite pow10_loop_spec, Z.mul_1_l, Z.quot_div_nonneg in Hp
      by (unfold max_int64; lia).
    destruct (Z.ltb_spec (2 ^ 62 / 10 ^ Z.of_nat scale) (digits_val 0 w)); done. }
  rewrite parse_digits_exact in Hp by done. injection Hp as <-.
  split; [by apply Hgd, frac_units_denotes|].
  apply allDigits_iff in Hw as [_ Hw]. pose proof (digits_val_bound w Hw).
  pose proof (frac_units_bound g scale Hg1 Hg2). unfold parse_limit.
  destruct negative; simpl; nia.
Qed.

Lemma cut_dot_parts s w f has :
  cut_dot s = (w, f, has) ->
  s = w +:+ (if has then "." +:+ f else "") /\ (has = false -> f = "").
Proof.
  revert w f has. induction s as [|c s IH]; cbn; intros w f has H; [by simplify_eq|].
  destruct (Ascii.eqb_spec c "."%char) as [->|]; [by simplify_eq|].
  destruct (cut_dot s) as [[w' f'] has'] eqn:E. simplify_eq.
  destruct (IH _ _ _ eq_refl) as [-> Hf]. done.
Qed.

Lemma parse_sign_parts s negative s' :
  parse_sign s = (negative, s') ->
  exists sg, s = sg +:+ s' /\ sg ∈ ["";"+";"-"] /\ negative = String.eqb sg "-".
Proof.
  destruct s as [|c s]; simpl; intros H; [simplify_eq; exists ""; set_solver|].
  destruct (Ascii.eqb_spec c "+"%char) as [->|]; [simplify_eq; exists "+"; set_solver|].
  destruct (Ascii.eqb_spec c "-"%char) as [->|]; simplify_eq; [exists "-" | exists ""];
    set_solver.
Qed.

(** The parser never rounds and never wraps: whatever text it accepts, after
    trimming, is an optional sign, digits and an optional point with digits, the
    value returned times a power of ten is exactly the number written, and its
    magnitude stays below the documented bound. *)
Theorem parseFixed_exact (s : string) (scale : nat) (e : ParseError) (v : Z) :
  (scale <= 18)%nat -> parseFixed s scale e = Ok v ->
  exists (sg w0 f : string) (has : bool),
    TrimSpace s = sg +:+ w0 +:+ (if has then "." +:+ f else "") /\
    sg ∈ ["";"+";"-"] /\ str_forall is_digit (w0 +:+ f) = true /\
    denotes v scale (String.eqb sg "-") w0 f /\
    Z.abs v < parse_limit scale.
Proof.
  intros Hs H. unfold parseFixed in H.
  destruct (String.eqb (TrimSpace s) ""); [done|].
  destruct (parse_sign (TrimSpace s)) as [negative s'] eqn:Esg.
  destruct (String.eqb s' ""); [done|].
  destruct (has_exponent s'); [done|].
  destruct (cut_dot s') as [[w0 f] has] eqn:Ecut.
  destruct (parse_sign_parts _ _ _ Esg) as (sg & Hsg & Hin & ->).
  destruct (cut_dot_parts _ _ _ _ Ecut) as [-> Hf0].
  destruct (negb _ || _) eqn:Ed in H; [done|]. b2p.
  set (w := if String.eqb w0 "" then "0" else w0) in *.
  assert (Hf : str_forall is_digit f = true).
  { destruct has; [|by rewrite Hf0]. cbn in *. b2p. by apply allDigits_iff. }
  destruct (parse_digits_sound _ _ _ _ _ _ _ Hs ltac:(eassumption) Hf Hf0 H) as [Hd Hb].
  exists sg, w0, f, has. split_and!; [done | done | | | done].
  - rewrite str_forall_app, Hf, andb_true_r.
    assert (Hw : str_forall is_digit w = true) by by apply allDigits_iff.
    subst w. by destruct (String.eqb_spec w0 "") as [->|].
  - revert Hd. subst w. by destruct (String.eqb_spec w0 "") as [->|].
Qed.

Example parseFixed_exact_witness :
  exists (sg w0 f : string) (has : bool),
    TrimSpace " -12.50" = sg +:+ w0 +:+ (if has then "." +:+ f else "") /\
    sg ∈ ["";"+";"-"] /\ str_forall is_digit (w0 +:+ f) = true /\
    denotes (-125000) 4 (String.eqb sg "-") w0 f /\
    Z.abs (-125000) < parse_limit 4.
Proof.
  apply (parseFixed_exact " -12.50" 4 ErrPrecision (-125000)); [lia | vm_compute; done].
Defined.

(** ** Notional *)

(** The least whole number of ten-thousandths covering an exact product. *)
Definition ceil_div (n d : Z) : Z := - ((- n) / d).

Lemma quot_round_up (n : Z) :
  0 <= n ->
  (let q := Z.quot n unitsPerQuantity in
   if negb (Z.rem n unitsPerQuantity =? 0) then q + 1 else q) = ceil_div n unitsPerQuantity.
Proof.
  intros Hn. unfold ceil_div, unitsPerQuantity. cbv zeta.
  rewrite Z.quot_div_nonneg, Z.rem_mod_nonneg by lia.
  destruct (Z.eqb_spec (n mod 100000000) 0) as [E|E]; simpl.
  - rewrite Z.div_opp_l_z by lia. lia.
  - rewrite Z.div_opp_l_nz by lia. lia.
Qed.

Lemma ceil_div_bounds (n : Z) :
  0 <= n ->
  n <= ceil_div n unitsPerQuantity * unitsPerQuantity < n + unitsPerQuantity /\
  0 <= ceil_div n unitsPerQuantity.
Proof.
  intros Hn. unfold ceil_div, unitsPerQuantity.
  pose proof (Z.div_mod (- n) 100000000 ltac:(lia)).
  pose proof (Z.mod_pos_bound (- n) 100000000 ltac:(lia)). lia.
Qed.

Lemma NotionalOf_spec (p : Amount) (q : Quantity) :
  let r := NotionalOf p q in
  in_int64 r /\
  (r = 0 <-> p = 0 \/ q = 0 \/ max_int64 < ceil_div (Z.abs (p * q)) unitsPerQuantity) /\
  (r <> 0 ->
     Z.sgn r = Z.sgn (p * q) /\
     Z.abs (p * q) <= Z.abs r * unitsPerQuantity < Z.abs (p * q) + unitsPerQuantity).
Proof.
  unfold NotionalOf.
  destruct (Z.eqb_spec p 0) as [->|Hp]; [simpl; split_and!; [int64_lia | lia | lia]|].
  destruct (Z.eqb_spec q 0) as [->|Hq]; [simpl; split_and!; [int64_lia | lia | lia]|].
  cbn [orb]. cbv zeta.
  pose proof (quot_round_up (Z.abs (p * q)) ltac:(lia)) as Hc. cbv zeta in Hc. rewrite Hc.
  destruct (ceil_div_bounds (Z.abs (p * q)) ltac:(lia)) as [Hb Hpos].
  set (c := ceil_div (Z.abs (p * q)) unitsPerQuantity) in *.
  assert (Hpq : p * q <> 0) by nia.
  destruct (in_int64b c) eqn:E; cbn [negb].
  - apply in_int64b_spec in E. assert (0 < c) by (unfold unitsPerQuantity in *; lia).
    destruct (Z.ltb_spec (p * q) 0); unfold neg64; rewrite ?wrap64_id by int64_lia;
      split_and!; try int64_lia; unfold unitsPerQuantity in *; lia.
  - assert (~ in_int64 c) by (rewrite <- in_int64b_spec; congruence).
    split_and!; [int64_lia | split; [right; right; int64_lia | done] | done].
Qed.

(** The notional of an order is the exact product of price and quantity
    rounded away from zero, with no wrap-around: a grant is never charged less
    than the order can cost, nor one unit more than needed.  Zero is returned
    only for a zero factor or a product that does not fit, the case every
    caller treats as indeterminate. *)
Theorem NotionalOf_ceiling (p : Amount) (q : Quantity) :
  let r := NotionalOf p q in
  in_int64 r /\
  (r = 0 <-> p = 0 \/ q = 0 \/ max_int64 < ceil_div (Z.abs (p * q)) unitsPerQuantity) /\
  (r <> 0 ->
     Z.sgn r = Z.sgn (p * q) /\
     Z.abs (p * q) <= Z.abs r * unitsPerQuantity < Z.abs (p * q) + unitsPerQuantity).
Proof. apply NotionalOf_spec. Qed.

Lemma NotionalOf_zero_iff (p q : Z) :
  NotionalOf p q = 0 <->
  p = 0 \/ q = 0 \/ max_int64 < ceil_div (Z.abs (p * q)) unitsPerQuantity.
Proof. apply NotionalOf_spec. Qed.

(** A positive price and quantity give a positive notional, or an overflow. *)
Lemma NotionalOf_nonneg (p q : Z) : 0 < p -> 0 < q -> 0 <= NotionalOf p q <= max_int64.
Proof.
  intros Hp Hq. destruct (NotionalOf_spec p q) as (H1 & H2 & H3).
  destruct (Z.eq_dec (NotionalOf p q) 0) as [->|Hr]; [int64_lia|].
  destruct (H3 Hr) as [Hs _]. rewrite (Z.sgn_pos (p * q)) in Hs by nia.
  apply Z.sgn_pos_iff in Hs. int64_lia.
Qed.
