(* ===== verification/Intent.v ===== *)
(** The canonical financial intent: internal/intent/envelope.go,
    instrument.go and validate.go.

    Go's named string types are strings here too, because an envelope decoded
    from the wire can carry any text in them; the constants are the catalogue.
    Pointers are [option].  [Validate] mutates its receiver, so it returns the
    normalized envelope together with the errors.  A [ValidationError] keeps the
    field and the stable code; the human-readable message is not modelled.
    Decoding from JSON is not modelled. *)

From S2P Require Import Prelude Money.

Abbreviation VerificationLevel := string.
Abbreviation AttestationLevel := string.
Abbreviation DependencyType := string.
Abbreviation AssetClass := string.
Abbreviation Side := string.
Abbreviation OrderType := string.
Abbreviation TimeInForce := string.

Definition SchemaVersion : string := "0.1".

Definition VerificationUnknown : VerificationLevel := "UNKNOWN".
Definition VerificationDeclared : VerificationLevel := "DECLARED".
Definition VerificationVerified : VerificationLevel := "VERIFIED".

Definition AttestationA0 : AttestationLevel := "A0".
Definition AttestationA1 : AttestationLevel := "A1".
Definition AttestationA2 : AttestationLevel := "A2".
Definition AttestationA3 : AttestationLevel := "A3".

Definition dependencyTypes : list DependencyType :=
  ["MARKET_DATA"; "NEWS"; "MODEL"; "STRATEGY"; "RUNTIME"; "EXECUTION_ADAPTER"].

Definition AssetEquity : AssetClass := "EQUITY".
Definition AssetETF : AssetClass := "ETF".
Definition AssetOption : AssetClass := "OPTION".
Definition AssetCrypto : AssetClass := "CRYPTO".

Definition SideBuy : Side := "BUY".
Definition SideSell : Side := "SELL".

Definition OrderMarket : OrderType := "MARKET".
Definition OrderLimit : OrderType := "LIMIT".
Definition OrderStop : OrderType := "STOP".
Definition OrderStopLimit : OrderType := "STOP_LIMIT".

Definition timesInForce : list TimeInForce := ["DAY"; "GTC"; "IOC"; "FOK"].

Record Claim := mkClaim {
  cl_Value : string;
  cl_Verification : VerificationLevel;
  cl_EvidenceRef : string
}.

Record Attestation := mkAttestation {
  at_Level : AttestationLevel;
  at_Method : string;
  at_EvidenceRef : string
}.

Record Agent := mkAgent {
  ag_AgentID : string;
  ag_SpiffeID : string;
  ag_Attestation : Attestation
}.

Record Principal := mkPrincipal {
  pr_PrincipalID : string;
  pr_AccountID : string
}.

Record RuntimeClaims := mkRuntimeClaims {
  rc_ModelProvider : Claim;
  rc_ModelFamily : Claim;
  rc_ModelVersion : Claim
}.

Record Dependency := mkDependency {
  dep_Type : DependencyType;
  dep_ID : string;
  dep_Verification : VerificationLevel;
  dep_ObservedAt : Time;
  dep_EvidenceRef : string
}.

Record Intent := mkIntent {
  in_AssetClass : AssetClass;
  in_InstrumentID : string;
  in_Side : Side;
  in_OrderType : OrderType;
  in_Notional : option Amount;
  in_Quantity : option Quantity;
  in_LimitPrice : option Amount;
  in_StopPrice : option Amount;
  in_TimeInForce : TimeInForce;
  in_ExtendedHours : bool
}.

Record Signature := mkSignature {
  sig_Algorithm : string;
  sig_KeyID : string;
  sig_Value : string
}.

Record AgentExecutionEnvelope := mkEnvelope {
  env_SchemaVersion : string;
  env_EnvelopeID : string;
  env_IdempotencyKey : string;
  env_CorrelationID : string;
  env_ReceivedAt : Time;
  env_TenantID : string;
  env_Principal : Principal;
  env_Agent : Agent;
  env_RuntimeClaims : RuntimeClaims;
  env_AuthorityGrantID : string;
  env_Dependencies : list Dependency;
  env_Intent : Intent;
  env_ParentIntentID : string;
  env_StrategyID : string;
  env_PortfolioSnapshotID : string;
  env_MarketSnapshotID : string;
  env_Signature : Signature
}.

Abbreviation Envelope := AgentExecutionEnvelope.

(** [Claim.Verified]. *)
Definition Verified (c : Claim) : bool :=
  String.eqb (cl_Verification c) VerificationVerified && str_nonempty (cl_EvidenceRef c).

(** * Instrument identity *)

Definition is_upper (c : Ascii.ascii) : bool :=
  let n := Ascii.nat_of_ascii c in ((65 <=? n) && (n <=? 90))%nat.
Definition is_lower (c : Ascii.ascii) : bool :=
  let n := Ascii.nat_of_ascii c in ((97 <=? n) && (n <=? 122))%nat.
Definition is_alnum (c : Ascii.ascii) : bool := is_upper c || is_lower c || is_digit c.
Definition is_id_byte (c : Ascii.ascii) : bool :=
  is_alnum c || Ascii.eqb c "_"%char || Ascii.eqb c "."%char || Ascii.eqb c ":"%char ||
  Ascii.eqb c "-"%char.

(** The longest prefix of upper-case letters, and what follows it. *)
Fixpoint span_upper (s : string) : nat * string :=
  match s with
  | String c s' => if is_upper c then let '(n, r) := span_upper s' in (S n, r) else (O, s)
  | "" => (O, "")
  end.

(** [^[A-Z]{1,5}(\.[A-Z]{1,2})?$] *)
Definition tickerPattern (s : string) : bool :=
  let '(n, r) := span_upper s in
  ((1 <=? n) && (n <=? 5))%nat &&
  match r with
  | "" => true
  | String c r' => Ascii.eqb c "."%char &&
      let '(m, r2) := span_upper r' in
      ((1 <=? m) && (m <=? 2))%nat && String.eqb r2 ""
  end.

Fixpoint cut_prefix (p s : string) : option string :=
  match p, s with
  | "", _ => Some s
  | String a p', String b s' => if Ascii.eqb a b then cut_prefix p' s' else None
  | _, "" => None
  end.

(** [^instr_[A-Za-z0-9][A-Za-z0-9_.:-]{2,63}$] *)
Definition instrumentIDPattern (s : string) : bool :=
  match cut_prefix "instr_" s with
  | Some (String c r) =>
      is_alnum c && str_forall is_id_byte r &&
      ((2 <=? String.length r) && (String.length r <=? 63))%nat
  | _ => false
  end.

Definition validAssetClass (a : AssetClass) : bool :=
  contains [AssetEquity; AssetETF; AssetOption; AssetCrypto] a.

Record NormalizedInstrument := mkNormalized {
  ni_InstrumentID : string;
  ni_AssetClass : AssetClass;
  ni_Symbol : string;
  ni_Venue : string;
  ni_Currency : string;
  ni_FIGI : string;
  ni_ISIN : string
}.

(** The stable codes of [NormalizationError]. *)
Definition Normalize (instrumentID : string) (assetClass : AssetClass)
    (meta : NormalizedInstrument) : result NormalizedInstrument string :=
  let id := TrimSpace instrumentID in
  if String.eqb id "" then Err "INSTRUMENT_ID_MISSING"
  else if tickerPattern id then Err "INSTRUMENT_ID_IS_A_TICKER"
  else if negb (instrumentIDPattern id) then Err "INSTRUMENT_ID_MALFORMED"
  else if negb (validAssetClass assetClass) then Err "ASSET_CLASS_INVALID"
  else Ok {| ni_InstrumentID := id; ni_AssetClass := assetClass;
             ni_Symbol := TrimSpace (ni_Symbol meta);
             ni_Venue := TrimSpace (ni_Venue meta);
             ni_Currency := ToUpper (TrimSpace (ni_Currency meta));
             ni_FIGI := ni_FIGI meta; ni_ISIN := ni_ISIN meta |}.

Definition zeroInstrument : NormalizedInstrument := mkNormalized "" "" "" "" "" "" "".

(** * Validation *)

Record ValidationError := mkVE { ve_Field : string; ve_Code : string }.
Abbreviation ValidationErrors := (list ValidationError).

#[global] Instance ValidationError_eq_dec : EqDecision ValidationError.
Proof. solve_decision. Defined.

(** [ValidationErrors.Has]. *)
Fixpoint Has (v : ValidationErrors) (code : string) : bool :=
  match v with
  | [] => false
  | e :: v' => if String.eqb (ve_Code e) code then true else Has v' code
  end.
Definition Codes (v : ValidationErrors) : list string := map ve_Code v.

Definition when (b : bool) (field code : string) : ValidationErrors :=
  if b then [mkVE field code] else [].

Definition requireID (field value : string) : ValidationErrors :=
  when (blank value) field "REQUIRED_FIELD_MISSING".

Definition validateAttestation (a : Agent) : Agent * ValidationErrors :=
  let level := at_Level (ag_Attestation a) in
  if String.eqb level "" then
    (mkAgent (ag_AgentID a) (ag_SpiffeID a)
       (mkAttestation AttestationA0 (at_Method (ag_Attestation a))
          (at_EvidenceRef (ag_Attestation a))), [])
  else if contains [AttestationA0; AttestationA1] level then (a, [])
  else if String.eqb level AttestationA2 then
    (a, when (blank (ag_SpiffeID a)) "agent.workload_identity.spiffe_id"
          "ATTESTATION_A2_WITHOUT_WORKLOAD_IDENTITY")
  else if String.eqb level AttestationA3 then
    (a, [mkVE "agent.attestation.level" "ATTESTATION_A3_NOT_SUPPORTED"])
  else (a, [mkVE "agent.attestation.level" "ATTESTATION_LEVEL_INVALID"]).

Definition verificationLevels : list VerificationLevel :=
  [VerificationUnknown; VerificationDeclared; VerificationVerified].

(** The checks that follow the switch of [validateClaim]. *)
Definition claimChecks (field : string) (c : Claim) : ValidationErrors :=
  when (String.eqb (cl_Verification c) VerificationVerified && blank (cl_EvidenceRef c))
    field "VERIFIED_WITHOUT_EVIDENCE" ++
  when (blank (cl_Value c) && negb (String.eqb (cl_Verification c) VerificationUnknown))
    field "CLAIM_WITHOUT_VALUE".

Definition validateClaim (field : string) (c : Claim) : Claim * ValidationErrors :=
  if String.eqb (cl_Verification c) "" then
    let c' := mkClaim (cl_Value c) VerificationUnknown (cl_EvidenceRef c) in
    (c', claimChecks field c')
  else if contains verificationLevels (cl_Verification c) then (c, claimChecks field c)
  else (c, [mkVE (field +:+ ".verification") "VERIFICATION_LEVEL_INVALID"]).

Definition validateRuntimeClaims (r : RuntimeClaims) : RuntimeClaims * ValidationErrors :=
  let '(p, e1) := validateClaim "runtime_claims.model_provider" (rc_ModelProvider r) in
  let '(f, e2) := validateClaim "runtime_claims.model_family" (rc_ModelFamily r) in
  let '(v, e3) := validateClaim "runtime_claims.model_version" (rc_ModelVersion r) in
  (mkRuntimeClaims p f v, e1 ++ e2 ++ e3).

Definition validateDependency (i : nat) (d : Dependency) : Dependency * ValidationErrors :=
  let field := "dependencies[" +:+ itoa (Z.of_nat i) +:+ "]" in
  let '(claim, ce) :=
    validateClaim field (mkClaim (dep_ID d) (dep_Verification d) (dep_EvidenceRef d)) in
  (mkDependency (dep_Type d) (dep_ID d) (cl_Verification claim) (dep_ObservedAt d)
     (dep_EvidenceRef d),
   when (negb (contains dependencyTypes (dep_Type d))) (field +:+ ".type")
     "DEPENDENCY_TYPE_INVALID" ++
   when (blank (dep_ID d)) (field +:+ ".id") "REQUIRED_FIELD_MISSING" ++
   when (IsZero (dep_ObservedAt d)) (field +:+ ".observed_at") "TIMESTAMP_MISSING" ++ ce).

Fixpoint validateDependencies (i : nat) (ds : list Dependency)
    : list Dependency * ValidationErrors :=
  match ds with
  | [] => ([], [])
  | d :: ds' =>
      let '(d', e) := validateDependency i d in
      let '(ds'', es) := validateDependencies (S i) ds' in
      (d' :: ds'', e ++ es)
  end.

Definition isNil {A} (o : option A) : bool := match o with None => true | Some _ => false end.
Definition notPositive (o : option Z) : bool :=
  match o with Some v => v <=? 0 | None => false end.

Definition validateSizing (i : Intent) : ValidationErrors :=
  let hasNotional := negb (isNil (in_Notional i)) in
  let hasQuantity := negb (isNil (in_Quantity i)) in
  (if hasNotional && hasQuantity then [mkVE "intent" "SIZING_NOT_EXCLUSIVE"]
   else when (negb hasNotional && negb hasQuantity) "intent" "SIZING_MISSING") ++
  when (notPositive (in_Notional i)) "intent.notional" "SIZING_NOT_POSITIVE" ++
  when (notPositive (in_Quantity i)) "intent.quantity" "SIZING_NOT_POSITIVE" ++
  (if String.eqb (in_OrderType i) OrderMarket then []
   else if contains [OrderLimit; OrderStop; OrderStopLimit] (in_OrderType i) then
     when hasNotional "intent.notional" "NOTIONAL_NOT_ALLOWED_FOR_ORDER_TYPE" ++
     when (negb hasQuantity) "intent.quantity" "QUANTITY_REQUIRED_FOR_ORDER_TYPE"
   else if String.eqb (in_OrderType i) "" then
     [mkVE "intent.order_type" "REQUIRED_FIELD_MISSING"]
   else [mkVE "intent.order_type" "ORDER_TYPE_INVALID"]).

Definition validatePrices (i : Intent) : ValidationErrors :=
  let needsLimit := String.eqb (in_OrderType i) OrderLimit ||
                    String.eqb (in_OrderType i) OrderStopLimit in
  let needsStop := String.eqb (in_OrderType i) OrderStop ||
                   String.eqb (in_OrderType i) OrderStopLimit in
  when (needsLimit && isNil (in_LimitPrice i)) "intent.limit_price" "LIMIT_PRICE_REQUIRED" ++
  when (negb needsLimit && negb (isNil (in_LimitPrice i))) "intent.limit_price"
    "LIMIT_PRICE_NOT_ALLOWED" ++
  when (needsStop && isNil (in_StopPrice i)) "intent.stop_price" "STOP_PRICE_REQUIRED" ++
  when (negb needsStop && negb (isNil (in_StopPrice i))) "intent.stop_price"
    "STOP_PRICE_NOT_ALLOWED" ++
  when (notPositive (in_LimitPrice i)) "intent.limit_price" "PRICE_NOT_POSITIVE" ++
  when (notPositive (in_StopPrice i)) "intent.stop_price" "PRICE_NOT_POSITIVE".

Definition validateIntent (i : Intent) : ValidationErrors :=
  (match Normalize (in_InstrumentID i) (in_AssetClass i) zeroInstrument with
   | Ok _ => []
   | Err code => [mkVE "intent.instrument_id" code]
   end) ++
  when (negb (contains [SideBuy; SideSell] (in_Side i))) "intent.side" "SIDE_INVALID" ++
  (if String.eqb (in_TimeInForce i) "" then
     [mkVE "intent.time_in_force" "REQUIRED_FIELD_MISSING"]
   else when (negb (contains timesInForce (in_TimeInForce i))) "intent.time_in_force"
     "TIME_IN_FORCE_INVALID") ++
  validateSizing i ++ validatePrices i.

Definition Validate (e : Envelope) : Envelope * ValidationErrors :=
  let head :=
    when (String.eqb (sig_Value (env_Signature e)) "") "signature.value"
      "SIGNATURE_REQUIRED" ++
    when (String.eqb (sig_KeyID (env_Signature e)) "") "signature.key_id"
      "SIGNATURE_KEY_ID_REQUIRED" ++
    when (String.eqb (sig_Algorithm (env_Signature e)) "") "signature.algorithm"
      "SIGNATURE_ALGORITHM_REQUIRED" ++
    (if String.eqb (env_SchemaVersion e) "" then
       [mkVE "schema_version" "SCHEMA_VERSION_MISSING"]
     else when (negb (String.eqb (env_SchemaVersion e) SchemaVersion)) "schema_version"
       "SCHEMA_VERSION_UNSUPPORTED") ++
    requireID "envelope_id" (env_EnvelopeID e) ++
    requireID "idempotency_key" (env_IdempotencyKey e) ++
    requireID "tenant_id" (env_TenantID e) ++
    requireID "authority_grant_id" (env_AuthorityGrantID e) ++
    requireID "principal.principal_id" (pr_PrincipalID (env_Principal e)) ++
    requireID "principal.account_id" (pr_AccountID (env_Principal e)) ++
    requireID "agent.agent_id" (ag_AgentID (env_Agent e)) ++
    when (IsZero (env_ReceivedAt e)) "received_at" "TIMESTAMP_MISSING" in
  let '(agent, e1) := validateAttestation (env_Agent e) in
  let '(claims, e2) := validateRuntimeClaims (env_RuntimeClaims e) in
  let '(deps, e3) := validateDependencies 0 (env_Dependencies e) in
  let e4 := validateIntent (env_Intent e) in
  (mkEnvelope (env_SchemaVersion e) (env_EnvelopeID e) (env_IdempotencyKey e)
     (env_CorrelationID e) (env_ReceivedAt e) (env_TenantID e) (env_Principal e)
     agent claims (env_AuthorityGrantID e) deps (env_Intent e)
     (env_ParentIntentID e) (env_StrategyID e) (env_PortfolioSnapshotID e)
     (env_MarketSnapshotID e) (env_Signature e),
   head ++ e1 ++ e2 ++ e3 ++ e4).

(** * What validation accepts *)

Lemma when_nil b f c : when b f c = [] <-> b = false.
Proof. by destruct b. Qed.

(** The five shapes of an executable order (spec 12.3 and ADR-020): one
    positive size; a share count for every priced order; exactly the prices
    the order type needs, all positive. *)
Inductive OrderShape :
    OrderType -> option Amount -> option Quantity -> option Amount -> option Amount -> Prop :=
| shape_market_notional n : 0 < n -> OrderShape OrderMarket (Some n) None None None
| shape_market_quantity q : 0 < q -> OrderShape OrderMarket None (Some q) None None
| shape_limit q l : 0 < q -> 0 < l -> OrderShape OrderLimit None (Some q) (Some l) None
| shape_stop q s : 0 < q -> 0 < s -> OrderShape OrderStop None (Some q) None (Some s)
| shape_stop_limit q l s : 0 < q -> 0 < l -> 0 < s ->
    OrderShape OrderStopLimit None (Some q) (Some l) (Some s).

Definition WellShaped (i : Intent) : Prop :=
  OrderShape (in_OrderType i) (in_Notional i) (in_Quantity i) (in_LimitPrice i) (in_StopPrice i).

Lemma notPositive_Some z : notPositive (Some z) = false <-> 0 < z.
Proof. simpl. apply Z.leb_gt. Qed.

Lemma shape_complete i :
  WellShaped i -> validateSizing i = [] /\ validatePrices i = [].
Proof.
  unfold WellShaped, validateSizing, validatePrices.
  destruct 1; simpl;
    repeat match goal with
    | |- context [?z <=? 0] => destruct (Z.leb_spec z 0); [lia|]
    end; done.
Qed.

(** Every order type outside the catalogue is an error. *)
Lemma validateSizing_type i :
  validateSizing i = [] ->
  in_OrderType i = OrderMarket \/ in_OrderType i = OrderLimit \/
  in_OrderType i = OrderStop \/ in_OrderType i = OrderStopLimit.
Proof.
  unfold validateSizing. intros H.
  apply app_eq_nil in H as [_ H]. apply app_eq_nil in H as [_ H].
  apply app_eq_nil in H as [_ H].
  destruct (String.eqb_spec (in_OrderType i) OrderMarket); [by left|].
  destruct (contains _ _) eqn:E; [|by destruct (String.eqb (in_OrderType i) "")].
  apply contains_spec in E. set_solver.
Qed.

Lemma shape_sound i :
  validateSizing i = [] -> validatePrices i = [] -> WellShaped i.
Proof.
  intros Hs Hp. pose proof (validateSizing_type i Hs) as Ht.
  unfold validateSizing, validatePrices, WellShaped in *.
  destruct i as [ac id side ot [n|] [q|] [l|] [s|] tif eh]; simpl in *;
  destruct Ht as [->|[->|[->| ->]]]; simpl in *; try discriminate;
  repeat match goal with
  | H : context [?z <=? 0] |- _ => destruct (Z.leb_spec z 0); simpl in *; try discriminate
  end; constructor; lia.
Qed.

Lemma sizing_and_prices_iff_shape' i :
  validateSizing i ++ validatePrices i = [] <-> WellShaped i.
Proof.
  split.
  - intros [Hs Hp]%app_eq_nil. by apply shape_sound.
  - intros H. destruct (shape_complete i H) as [-> ->]. done.
Qed.

(** Validation accepts the sizing and price fields of an order exactly when
    they have one of the five executable shapes: a market order sized by one
    positive notional or quantity, or a limit, stop or stop-limit order with a
    positive quantity and exactly its own positive prices. *)
Theorem sizing_and_prices_iff_shape (i : Intent) :
  validateSizing i ++ validatePrices i = [] <-> WellShaped i.
Proof.
  split.
  - intros [Hs Hp]%app_eq_nil. by apply shape_sound.
  - intros H. destruct (shape_complete i H) as [-> ->]. done.
Qed.

(** An assertion of provenance validation accepts: UNKNOWN (or absent), DECLARED
    with a value, VERIFIED with a value and a reference to evidence. *)
Definition ClaimAccepted (c : Claim) : Prop :=
  cl_Verification c ∈ [""; VerificationUnknown] \/
  (cl_Verification c = VerificationDeclared /\ blank (cl_Value c) = false) \/
  (cl_Verification c = VerificationVerified /\ blank (cl_Value c) = false /\
   blank (cl_EvidenceRef c) = false).

Definition dep_Claim (d : Dependency) : Claim :=
  mkClaim (dep_ID d) (dep_Verification d) (dep_EvidenceRef d).

Definition DependencyAccepted (d : Dependency) : Prop :=
  dep_Type d ∈ dependencyTypes /\ blank (dep_ID d) = false /\
  dep_ObservedAt d <> 0 /\ ClaimAccepted (dep_Claim d).

Definition AttestationAccepted (a : Agent) : Prop :=
  at_Level (ag_Attestation a) ∈ [""; AttestationA0; AttestationA1] \/
  (at_Level (ag_Attestation a) = AttestationA2 /\ blank (ag_SpiffeID a) = false).

Record IntentAccepted (i : Intent) : Prop := {
  ia_instrument : instrumentIDPattern (TrimSpace (in_InstrumentID i)) = true;
  ia_not_ticker : tickerPattern (TrimSpace (in_InstrumentID i)) = false;
  ia_class : in_AssetClass i ∈ [AssetEquity; AssetETF; AssetOption; AssetCrypto];
  ia_side : in_Side i ∈ [SideBuy; SideSell];
  ia_tif : in_TimeInForce i ∈ timesInForce;
  ia_shape : WellShaped i
}.

Lemma contains_false l w : contains l w = false <-> w ∉ l.
Proof. rewrite <- contains_spec. by destruct (contains l w). Qed.

Lemma validateClaim_iff field c : snd (validateClaim field c) = [] <-> ClaimAccepted c.
Proof.
  destruct c as [v l ev]. unfold validateClaim, ClaimAccepted, claimChecks; simpl.
  destruct (String.eqb_spec l "") as [->|Hne]; simpl.
  { rewrite andb_false_r. simpl. split; [intros _; left; constructor | done]. }
  destruct (contains verificationLevels l) eqn:E; simpl.
  - apply contains_spec in E. unfold verificationLevels in E.
    apply elem_of_cons in E as [->|E]; simpl.
    { rewrite andb_false_r. simpl. split; [intros _; left; repeat constructor | done]. }
    apply elem_of_cons in E as [->|E]; simpl.
    { rewrite andb_true_r, when_nil. split; [auto|].
      intros [H|[[_ H]|[H _]]]; [set_solver | done | done]. }
    apply list_elem_of_singleton in E as ->. simpl.
    rewrite andb_true_r, app_nil, !when_nil. split; [naive_solver|].
    intros [H|[[H _]|(_ & H1 & H2)]]; [set_solver | done | done].
  - split; [done|]. apply contains_false in E. intros [H|[[H _]|[H _]]]; exfalso; apply E.
    + apply elem_of_cons in H as [->|H]; [done|].
      apply list_elem_of_singleton in H as ->. constructor.
    + rewrite H. repeat constructor.
    + rewrite H. repeat constructor.
Qed.

Lemma validateAttestation_iff a : snd (validateAttestation a) = [] <-> AttestationAccepted a.
Proof.
  destruct a as [id sp [l m ev]]. unfold validateAttestation, AttestationAccepted; simpl.
  destruct (String.eqb_spec l "") as [->|Hne]; simpl; [split; [left; constructor | done]|].
  rewrite !contains_cons. destruct (String.eqb_spec AttestationA0 l) as [<-|H0]; simpl;
    [split; [left; repeat constructor | done]|].
  destruct (String.eqb_spec AttestationA1 l) as [<-|H1]; simpl;
    [split; [left; repeat constructor | done]|].
  destruct (String.eqb_spec l AttestationA2) as [->|H2]; simpl.
  - rewrite when_nil. split; [auto | intros [H|[_ H]]; [set_solver | done]].
  - destruct (String.eqb_spec l AttestationA3) as [->|H3]; simpl;
      (split; [done | intros [H|[H _]]; [set_solver | done]]).
Qed.

Lemma validateRuntimeClaims_iff r :
  snd (validateRuntimeClaims r) = [] <->
  ClaimAccepted (rc_ModelProvider r) /\ ClaimAccepted (rc_ModelFamily r) /\
  ClaimAccepted (rc_ModelVersion r).
Proof.
  unfold validateRuntimeClaims.
  rewrite <- (validateClaim_iff "runtime_claims.model_provider" (rc_ModelProvider r)).
  rewrite <- (validateClaim_iff "runtime_claims.model_family" (rc_ModelFamily r)).
  rewrite <- (validateClaim_iff "runtime_claims.model_version" (rc_ModelVersion r)).
  destruct (validateClaim _ (rc_ModelProvider r)), (validateClaim _ (rc_ModelFamily r)),
    (validateClaim _ (rc_ModelVersion r)). simpl. by rewrite !app_nil.
Qed.

Lemma validateDependency_iff n d :
  snd (validateDependency n d) = [] <-> DependencyAccepted d.
Proof.
  unfold validateDependency, DependencyAccepted. cbv zeta.
  rewrite <- (validateClaim_iff ("dependencies[" +:+ itoa (Z.of_nat n) +:+ "]") (dep_Claim d)).
  unfold dep_Claim. destruct (validateClaim _ _) as [cl ce]. simpl.
  rewrite !app_nil, !when_nil, negb_false_iff, contains_spec. unfold IsZero.
  by rewrite Z.eqb_neq.
Qed.

Lemma validateDependencies_iff n ds :
  snd (validateDependencies n ds) = [] <-> Forall DependencyAccepted ds.
Proof.
  revert n. induction ds as [|d ds IH]; intros n; simpl; [split; constructor|].
  pose proof (validateDependency_iff n d) as Hd. specialize (IH (S n)).
  destruct (validateDependency n d) as [d' e], (validateDependencies (S n) ds) as [ds' es].
  simpl in *. by rewrite app_nil, Forall_cons, Hd, IH.
Qed.

Lemma Normalize_ok_iff i :
  is_ok (Normalize (in_InstrumentID i) (in_AssetClass i) zeroInstrument) = true <->
  instrumentIDPattern (TrimSpace (in_InstrumentID i)) = true /\
  tickerPattern (TrimSpace (in_InstrumentID i)) = false /\
  in_AssetClass i ∈ [AssetEquity; AssetETF; AssetOption; AssetCrypto].
Proof.
  unfold Normalize, validAssetClass. cbv zeta. rewrite <- contains_spec.
  destruct (String.eqb_spec (TrimSpace (in_InstrumentID i)) "") as [->|];
    [split; [done | by intros [? _]]|].
  destruct (tickerPattern _), (instrumentIDPattern _), (contains _ _); simpl; naive_solver.
Qed.

Lemma validateIntent_iff i : validateIntent i = [] <-> IntentAccepted i.
Proof.
  unfold validateIntent. rewrite app_nil, app_nil, app_nil.
  rewrite sizing_and_prices_iff_shape', when_nil, negb_false_iff, contains_spec.
  pose proof (Normalize_ok_iff i) as HN.
  assert (Htif : (if String.eqb (in_TimeInForce i) "" then
     [mkVE "intent.time_in_force" "REQUIRED_FIELD_MISSING"]
   else when (negb (contains timesInForce (in_TimeInForce i))) "intent.time_in_force"
     "TIME_IN_FORCE_INVALID") = [] <-> in_TimeInForce i ∈ timesInForce).
  { destruct (String.eqb_spec (in_TimeInForce i) "") as [->|].
    - split; [done|]. intros H. apply contains_spec in H. done.
    - by rewrite when_nil, negb_false_iff, contains_spec. }
  rewrite Htif. destruct (Normalize _ _ _); simpl in HN.
  - split.
    + intros (_ & ? & ? & ?). destruct HN as [HN _]. destruct (HN eq_refl) as (? & ? & ?).
      by constructor.
    + intros []. split_and!; done.
  - split; [by intros [? _] | intros []]. destruct HN as [_ HN]. by discriminate HN.
Qed.

(** ** Envelopes *)

Definition required_ids (e : Envelope) : list string :=
  [env_EnvelopeID e; env_IdempotencyKey e; env_TenantID e; env_AuthorityGrantID e;
   pr_PrincipalID (env_Principal e); pr_AccountID (env_Principal e); ag_AgentID (env_Agent e)].

Record EnvelopeAccepted (e : Envelope) : Prop := {
  ea_signed : sig_Value (env_Signature e) <> "" /\ sig_KeyID (env_Signature e) <> "" /\
              sig_Algorithm (env_Signature e) <> "";
  ea_schema : env_SchemaVersion e = SchemaVersion;
  ea_ids : Forall (fun s => blank s = false) (required_ids e);
  ea_received : env_ReceivedAt e <> 0;
  ea_attestation : AttestationAccepted (env_Agent e);
  ea_claims : ClaimAccepted (rc_ModelProvider (env_RuntimeClaims e)) /\
              ClaimAccepted (rc_ModelFamily (env_RuntimeClaims e)) /\
              ClaimAccepted (rc_ModelVersion (env_RuntimeClaims e));
  ea_dependencies : Forall DependencyAccepted (env_Dependencies e);
  ea_intent : IntentAccepted (env_Intent e)
}.

Lemma requireID_nil f v : requireID f v = [] <-> blank v = false.
Proof. apply when_nil. Qed.

Lemma schema_check_nil v :
  (if String.eqb v "" then [mkVE "schema_version" "SCHEMA_VERSION_MISSING"]
   else when (negb (String.eqb v SchemaVersion)) "schema_version" "SCHEMA_VERSION_UNSUPPORTED")
  = [] <-> v = SchemaVersion.
Proof.
  destruct (String.eqb_spec v "") as [->|]; [done|].
  by rewrite when_nil, negb_false_iff, String.eqb_eq.
Qed.

Lemma Validate_errors_nil e :
  snd (Validate e) = [] <->
  (sig_Value (env_Signature e) <> "" /\ sig_KeyID (env_Signature e) <> "" /\
   sig_Algorithm (env_Signature e) <> "") /\
  env_SchemaVersion e = SchemaVersion /\ Forall (fun s => blank s = false) (required_ids e) /\
  env_ReceivedAt e <> 0 /\ snd (validateAttestation (env_Agent e)) = [] /\
  snd (validateRuntimeClaims (env_RuntimeClaims e)) = [] /\
  snd (validateDependencies 0 (env_Dependencies e)) = [] /\ validateIntent (env_Intent e) = [].
Proof.
  unfold Validate. cbv zeta.
  destruct (validateAttestation _), (validateRuntimeClaims _), (validateDependencies _ _).
  cbn [snd]. rewrite !app_nil, schema_check_nil, !requireID_nil, !when_nil, !String.eqb_neq.
  unfold IsZero, required_ids. rewrite Z.eqb_neq, !Forall_cons, Forall_nil. tauto.
Qed.

(** [Validate] reports no error for exactly the acceptable envelopes: signed,
    at the supported schema version, every identifier non-blank, a receive time,
    provenance that claims no more than it shows, and an intent with a canonical
    instrument, a known class, side and time in force, and an executable shape. *)
Theorem Validate_accepts_iff (e : Envelope) :
  snd (Validate e) = [] <-> EnvelopeAccepted e.
Proof.
  rewrite Validate_errors_nil, validateAttestation_iff, validateRuntimeClaims_iff,
    validateDependencies_iff, validateIntent_iff.
  split; [intros (? & ? & ? & ? & ? & ? & ? & ?); by constructor | intros []; tauto].
Qed.

(** ** Provenance *)

(** How validation may change a provenance level: a missing one becomes UNKNOWN. *)
Definition level_kept (l l' : VerificationLevel) : Prop :=
  l' = if String.eqb l "" then VerificationUnknown else l.

Lemma validateClaim_level field c :
  level_kept (cl_Verification c) (cl_Verification (fst (validateClaim field c))) /\
  cl_Value (fst (validateClaim field c)) = cl_Value c /\
  cl_EvidenceRef (fst (validateClaim field c)) = cl_EvidenceRef c.
Proof.
  unfold validateClaim, level_kept.
  destruct (String.eqb (cl_Verification c) ""); [done|].
  by destruct (contains _ _).
Qed.

Lemma validateClaim_again field c :
  snd (validateClaim field c) = [] ->
  validateClaim field (fst (validateClaim field c)) = (fst (validateClaim field c), []).
Proof.
  destruct c as [v l ev]. unfold validateClaim; simpl.
  destruct (String.eqb_spec l "") as [->|Hne]; simpl; [by intros ->|].
  destruct (contains verificationLevels l) eqn:E; simpl; [|done].
  destruct (String.eqb_spec l ""); [done|]. simpl. rewrite E. by intros ->.
Qed.

Lemma validateAttestation_again a :
  snd (validateAttestation a) = [] ->
  validateAttestation (fst (validateAttestation a)) = (fst (validateAttestation a), []).
Proof.
  destruct a as [id sp [l m ev]]. unfold validateAttestation; simpl.
  destruct (String.eqb_spec l "") as [->|Hne]; [done|]. simpl.
  destruct (contains [AttestationA0; AttestationA1] l) eqn:E; simpl.
  { destruct (String.eqb_spec l ""); [done|]. by rewrite E. }
  destruct (String.eqb_spec l AttestationA2) as [->|]; simpl; [by intros ->|].
  by destruct (String.eqb l AttestationA3).
Qed.

Lemma validateRuntimeClaims_again r :
  snd (validateRuntimeClaims r) = [] ->
  validateRuntimeClaims (fst (validateRuntimeClaims r)) = (fst (validateRuntimeClaims r), []).
Proof.
  unfold validateRuntimeClaims.
  pose proof (validateClaim_again "runtime_claims.model_provider" (rc_ModelProvider r)) as H1.
  pose proof (validateClaim_again "runtime_claims.model_family" (rc_ModelFamily r)) as H2.
  pose proof (validateClaim_again "runtime_claims.model_version" (rc_ModelVersion r)) as H3.
  destruct (validateClaim _ (rc_ModelProvider r)), (validateClaim _ (rc_ModelFamily r)),
    (validateClaim _ (rc_ModelVersion r)). simpl in *. rewrite !app_nil.
  intros (? & ? & ?). by rewrite H1, H2, H3.
Qed.

Lemma validateDependency_again n d :
  snd (validateDependency n d) = [] ->
  validateDependency n (fst (validateDependency n d)) = (fst (validateDependency n d), []).
Proof.
  unfold validateDependency. cbv zeta.
  set (field := "dependencies[" +:+ itoa (Z.of_nat n) +:+ "]").
  pose proof (validateClaim_again field (dep_Claim d)) as H.
  destruct (validateClaim_level field (dep_Claim d)) as (_ & Hv & He).
  unfold dep_Claim in *.
  destruct (validateClaim field _) as [[v l ev] ce]. simpl in *. subst v ev.
  rewrite !app_nil. intros (-> & -> & -> & ->). by rewrite H.
Qed.

Lemma validateDependencies_again n ds :
  snd (validateDependencies n ds) = [] ->
  validateDependencies n (fst (validateDependencies n ds)) =
    (fst (validateDependencies n ds), []).
Proof.
  revert n. induction ds as [|d ds IH]; intros n; simpl; [done|].
  pose proof (validateDependency_again n d) as Hd. specialize (IH (S n)).
  destruct (validateDependency n d) as [d' e]. destruct (validateDependencies (S n) ds).
  simpl in *. rewrite app_nil. intros [? ?]. by rewrite Hd, IH.
Qed.

(** Normalization is stable: validating an accepted envelope again, as a
    consumer downstream does, changes nothing and reports nothing. *)
Theorem Validate_idempotent (e : Envelope) :
  snd (Validate e) = [] -> Validate (fst (Validate e)) = (fst (Validate e), []).
Proof.
  intros H. pose proof (proj1 (Validate_errors_nil e) H) as (_ & _ & _ & _ & Ha & Hr & Hd & _).
  unfold Validate in *. cbv zeta in *.
  pose proof (validateAttestation_again _ Ha) as Ha'.
  pose proof (validateRuntimeClaims_again _ Hr) as Hr'.
  pose proof (validateDependencies_again _ _ Hd) as Hd'.
  assert (Hid : ag_AgentID (fst (validateAttestation (env_Agent e))) = ag_AgentID (env_Agent e)).
  { unfold validateAttestation. repeat (go_cases; try done). }
  destruct (validateAttestation (env_Agent e)) as [ag ea].
  destruct (validateRuntimeClaims (env_RuntimeClaims e)) as [rc er].
  destruct (validateDependencies 0 (env_Dependencies e)) as [ds ed].
  cbn [fst snd] in *. subst ea er ed.
  cbn [env_Agent env_RuntimeClaims env_Dependencies env_Signature env_SchemaVersion
    env_EnvelopeID env_IdempotencyKey env_TenantID env_AuthorityGrantID env_Principal
    env_ReceivedAt env_Intent].
  rewrite Ha', Hr', Hd', Hid. by rewrite H.
Qed.

Definition sample_intent : Intent :=
  mkIntent AssetEquity "instr_acme" SideBuy OrderLimit None (Some 1000000000) (Some 1000000)
    None "DAY" false.

Definition sample_envelope : Envelope :=
  mkEnvelope "0.1" "env-1" "key-1" "" 1000 "tenant-1" (mkPrincipal "p-1" "acct-1")
    (mkAgent "agent-1" "" (mkAttestation "" "" ""))
    (mkRuntimeClaims (mkClaim "" "" "") (mkClaim "" "" "") (mkClaim "m" "DECLARED" ""))
    "grant-1" [mkDependency "NEWS" "feed" "" 5 ""] sample_intent "" "strat-1" "" ""
    (mkSignature "Ed25519" "k-1" "00").

Example Validate_idempotent_witness :
  snd (Validate sample_envelope) = [] /\
  Validate (fst (Validate sample_envelope)) = (fst (Validate sample_envelope), []).
Proof.
  split; [vm_compute; reflexivity | apply Validate_idempotent; vm_compute; reflexivity].
Defined.

Definition verified_shown (c : Claim) : Prop :=
  cl_Verification c = VerificationVerified -> Verified c = true.

Lemma validateClaim_shown field c :
  snd (validateClaim field c) = [] -> verified_shown (fst (validateClaim field c)).
Proof.
  intros H. apply validateClaim_iff in H. unfold verified_shown.
  destruct (validateClaim_level field c) as (Hl & _ & He).
  unfold level_kept, Verified in *. rewrite He. intros Hv. rewrite Hv. simpl.
  apply negb_true_iff, String.eqb_neq. rewrite Hv in Hl.
  destruct (String.eqb_spec (cl_Verification c) "") as [Hc|Hc]; [done|].
  destruct H as [H|[[H _]|(_ & _ & H)]].
  - rewrite <- Hl in H. set_solver.
  - by rewrite H in Hl.
  - by apply nonblank_nonempty.
Qed.

Lemma validateDependency_level n d :
  level_kept (dep_Verification d) (dep_Verification (fst (validateDependency n d))) /\
  (snd (validateDependency n d) = [] -> verified_shown (dep_Claim (fst (validateDependency n d)))).
Proof.
  unfold validateDependency. cbv zeta.
  set (field := "dependencies[" +:+ itoa (Z.of_nat n) +:+ "]").
  destruct (validateClaim_level field (dep_Claim d)) as (Hl & Hv & He).
  pose proof (validateClaim_shown field (dep_Claim d)) as Hs. unfold dep_Claim in *.
  destruct (validateClaim field _) as [[v l ev] ce]. simpl in *. subst v ev.
  split; [exact Hl|]. rewrite !app_nil. intros (_ & _ & _ & ->). by apply Hs.
Qed.

Lemma validateDependencies_level n ds :
  Forall2 (fun d d' => level_kept (dep_Verification d) (dep_Verification d'))
    ds (fst (validateDependencies n ds)) /\
  (snd (validateDependencies n ds) = [] ->
   Forall verified_shown (map dep_Claim (fst (validateDependencies n ds)))).
Proof.
  revert n. induction ds as [|d ds IH]; intros n; simpl; [by repeat constructor|].
  destruct (validateDependency_level n d) as [H1 H2]. destruct (IH (S n)) as [H3 H4].
  destruct (validateDependency n d), (validateDependencies (S n) ds). simpl in *.
  split; [by constructor|]. intros [? ?]%app_eq_nil. constructor; auto.
Qed.

Lemma validateAttestation_level a :
  snd (validateAttestation a) = [] ->
  let a' := fst (validateAttestation a) in
  at_Level (ag_Attestation a') ∈ [AttestationA0; AttestationA1] \/
  at_Level (ag_Attestation a') = AttestationA2 /\ blank (ag_SpiffeID a') = false.
Proof.
  destruct a as [id sp [l m ev]]. unfold validateAttestation; simpl.
  destruct (String.eqb l ""); simpl; [intros _; left; constructor|].
  destruct (contains _ l) eqn:E; simpl; [intros _; left; by apply contains_spec|].
  destruct (String.eqb_spec l AttestationA2) as [->|]; simpl.
  - rewrite when_nil. auto.
  - by destruct (String.eqb l AttestationA3).
Qed.

(** Validation never promotes provenance (P-004, INV-008).  In an accepted
    envelope every runtime claim and dependency keeps the level its producer
    wrote, a missing level becoming UNKNOWN; nothing is VERIFIED without an
    evidence reference; and the attestation is A0, A1, or A2 with a workload
    identity, never A3. *)
Theorem Validate_never_promotes (e : Envelope) :
  snd (Validate e) = [] ->
  let e' := fst (Validate e) in
  let claims r := [rc_ModelProvider r; rc_ModelFamily r; rc_ModelVersion r] in
  Forall2 (fun c c' => level_kept (cl_Verification c) (cl_Verification c'))
    (claims (env_RuntimeClaims e)) (claims (env_RuntimeClaims e')) /\
  Forall2 (fun d d' => level_kept (dep_Verification d) (dep_Verification d'))
    (env_Dependencies e) (env_Dependencies e') /\
  Forall verified_shown (claims (env_RuntimeClaims e') ++ map dep_Claim (env_Dependencies e')) /\
  (at_Level (ag_Attestation (env_Agent e')) ∈ [AttestationA0; AttestationA1] \/
   at_Level (ag_Attestation (env_Agent e')) = AttestationA2 /\
   blank (ag_SpiffeID (env_Agent e')) = false).
Proof.
  intros H. pose proof (proj1 (Validate_errors_nil e) H) as (_ & _ & _ & _ & Ha & Hr & Hd & _).
  cbv zeta. unfold Validate. cbv zeta.
  destruct (validateDependencies_level 0 (env_Dependencies e)) as [Hd1 Hd2].
  pose proof (validateAttestation_level _ Ha) as Hat. cbv zeta in Hat.
  destruct (validateClaim_level "runtime_claims.model_provider"
    (rc_ModelProvider (env_RuntimeClaims e))) as [Hl1 _].
  destruct (validateClaim_level "runtime_claims.model_family"
    (rc_ModelFamily (env_RuntimeClaims e))) as [Hl2 _].
  destruct (validateClaim_level "runtime_claims.model_version"
    (rc_ModelVersion (env_RuntimeClaims e))) as [Hl3 _].
  pose proof (validateClaim_shown "runtime_claims.model_provider"
    (rc_ModelProvider (env_RuntimeClaims e))) as Hs1.
  pose proof (validateClaim_shown "runtime_claims.model_family"
    (rc_ModelFamily (env_RuntimeClaims e))) as Hs2.
  pose proof (validateClaim_shown "runtime_claims.model_version"
    (rc_ModelVersion (env_RuntimeClaims e))) as Hs3.
  destruct (validateAttestation (env_Agent e)) as [ag ea].
  destruct (validateDependencies 0 (env_Dependencies e)) as [ds ed].
  unfold validateRuntimeClaims in *.
  destruct (validateClaim _ (rc_ModelProvider _)), (validateClaim _ (rc_ModelFamily _)),
    (validateClaim _ (rc_ModelVersion _)). cbn in *.
  apply app_eq_nil in Hr as [? Hr]. apply app_eq_nil in Hr as [? ?].
  split_and!; [by repeat constructor | done | | done].
  repeat constructor; auto.
Qed.

Example Validate_never_promotes_witness :
  snd (Validate sample_envelope) = [] /\
  map dep_Verification (env_Dependencies (fst (Validate sample_envelope))) = ["UNKNOWN"] /\
  Forall verified_shown (map dep_Claim (env_Dependencies (fst (Validate sample_envelope)))).
Proof.
  assert (H : snd (Validate sample_envelope) = []) by (vm_compute; reflexivity).
  split; [exact H|]. split; [vm_compute; reflexivity|].
  destruct (Validate_never_promotes sample_envelope H) as (_ & _ & Hf & _).
  apply Forall_app in Hf as [_ Hf]. exact Hf.
Defined.
