(* ===== verification/Authority.v ===== *)
(** Delegated authority: internal/authority/grant.go, evaluate.go and
    reservation.go.

    A grant, its windows and allow lists, the pre-check [Evaluate] and the limit
    arithmetic it shares with the atomic reservation.  A [Decision] keeps the
    outcome, the stable code, the grant and the instant; its human-readable
    reason is not modelled. *)

From S2P Require Import Prelude Money Intent.

Abbreviation Status := string.
Definition StatusActive : Status := "ACTIVE".
Definition StatusRevoked : Status := "REVOKED".

Record Limits := mkLimits {
  PerOrderNotional : Amount;
  Rolling1hNotional : Amount;
  DailyNotional : Amount;
  MaxOpenOrders : Z
}.

Record Grant := mkGrant {
  g_GrantID : string;
  g_TenantID : string;
  g_PrincipalID : string;
  g_AccountID : string;
  g_AgentID : string;
  g_IssuedAt : Time;
  g_ValidFrom : Time;
  g_ValidUntil : Time;
  g_AllowedOperations : list Side;
  g_AllowedAssetClasses : list AssetClass;
  g_AllowedInstruments : list string;
  g_DeniedInstruments : list string;
  g_Limits : Limits;
  g_Status : Status;
  g_RevokedAt : option Time;
  g_RevocationReason : string
}.

Definition Revoke (g : Grant) (at_ : Time) (reason : string) : Grant :=
  mkGrant (g_GrantID g) (g_TenantID g) (g_PrincipalID g) (g_AccountID g) (g_AgentID g)
    (g_IssuedAt g) (g_ValidFrom g) (g_ValidUntil g) (g_AllowedOperations g)
    (g_AllowedAssetClasses g) (g_AllowedInstruments g) (g_DeniedInstruments g) (g_Limits g)
    StatusRevoked (Some at_) reason.

Definition Active (g : Grant) (now : Time) : bool :=
  String.eqb (g_Status g) StatusActive && negb (Before now (g_ValidFrom g)) &&
  Before now (g_ValidUntil g).

Definition allowsSide (g : Grant) (s : Side) : bool := contains (g_AllowedOperations g) s.

Definition allowsAssetClass (g : Grant) (a : AssetClass) : bool :=
  contains (g_AllowedAssetClasses g) a.

Definition allowsInstrument (g : Grant) (instrumentID : string) : bool :=
  if contains (g_DeniedInstruments g) instrumentID then false
  else if (length (g_AllowedInstruments g) =? 0)%nat then true
  else contains (g_AllowedInstruments g) instrumentID.

(** * Decisions *)

Record Decision := mkDecision {
  d_Allowed : bool;
  d_Code : string;
  d_GrantID : string;
  d_EvaluatedAt : Time
}.

Definition codeAllowed : string := "AUTHORITY_OK".

Definition allow (g : Grant) (now : Time) : Decision :=
  mkDecision true codeAllowed (g_GrantID g) now.

Definition deny (g : option Grant) (now : Time) (code : string) : Decision :=
  mkDecision false code (match g with Some g => g_GrantID g | None => "" end) now.

(** Usage already consumed under a grant. *)
Record Snapshot := mkSnapshot {
  sn_Rolling1hNotional : Amount;
  sn_DailyNotional : Amount;
  sn_OpenOrders : Z
}.

(** A [UsageSource] answers for a tenant, a grant and an instant, or fails. *)
Definition UsageSource : Type := string -> string -> Time -> result Snapshot string.

Definition EffectiveNotional (i : Intent) : Amount * bool :=
  match in_Notional i with
  | Some n => (n, true)
  | None =>
      match in_Quantity i with
      | None => (0, false)
      | Some q =>
          if String.eqb (in_OrderType i) OrderLimit ||
             String.eqb (in_OrderType i) OrderStopLimit then
            match in_LimitPrice i with
            | Some p =>
                let notional := NotionalOf p q in
                if (notional =? 0) && negb (p =? 0) && negb (q =? 0) then (0, false)
                else (notional, true)
            | None => (0, false)
            end
          else (0, false)
      end
  end.

(** The empty code is the answer of a check that found nothing to refuse. *)
Definition checkLimits (limits : Limits) (consumed : Snapshot) (notional : Amount) : string :=
  if (0 <? PerOrderNotional limits) && (PerOrderNotional limits <? notional) then
    "PER_ORDER_LIMIT_EXCEEDED"
  else if (0 <? Rolling1hNotional limits) &&
          (Rolling1hNotional limits <? Amount_Add (sn_Rolling1hNotional consumed) notional) then
    "ROLLING_LIMIT_EXCEEDED"
  else if (0 <? DailyNotional limits) &&
          (DailyNotional limits <? Amount_Add (sn_DailyNotional consumed) notional) then
    "DAILY_LIMIT_EXCEEDED"
  else if (0 <? MaxOpenOrders limits) && (MaxOpenOrders limits <=? sn_OpenOrders consumed) then
    "MAX_OPEN_ORDERS_EXCEEDED"
  else "".

Definition evaluateLimits (env : Envelope) (g : Grant) (usage : option UsageSource)
    (now : Time) : Decision :=
  let limits := g_Limits g in
  let needsNotional := (0 <? PerOrderNotional limits) || (0 <? Rolling1hNotional limits) ||
                       (0 <? DailyNotional limits) in
  let needsUsage := (0 <? Rolling1hNotional limits) || (0 <? DailyNotional limits) ||
                    (0 <? MaxOpenOrders limits) in
  let '(notional, determinable) := EffectiveNotional (env_Intent env) in
  if needsNotional && negb determinable then deny (Some g) now "NOTIONAL_INDETERMINATE"
  else if (0 <? PerOrderNotional limits) && (PerOrderNotional limits <? notional) then
    deny (Some g) now "PER_ORDER_LIMIT_EXCEEDED"
  else if negb needsUsage then allow g now
  else match usage with
       | None => deny (Some g) now "USAGE_UNAVAILABLE"
       | Some src =>
           match src (g_TenantID g) (g_GrantID g) now with
           | Err _ => deny (Some g) now "USAGE_UNAVAILABLE"
           | Ok consumed =>
               let code := checkLimits limits consumed notional in
               if str_nonempty code then deny (Some g) now code else allow g now
           end
       end.

Definition Evaluate (env : option Envelope) (g : option Grant) (usage : option UsageSource)
    (now : Time) : Decision :=
  match g with
  | None => deny None now "GRANT_NOT_FOUND"
  | Some g =>
    match env with
    | None => deny (Some g) now "ENVELOPE_ABSENT"
    | Some env =>
      if negb (String.eqb (g_TenantID g) (env_TenantID env)) then
        deny (Some g) now "GRANT_WRONG_TENANT"
      else if negb (String.eqb (g_GrantID g) (env_AuthorityGrantID env)) then
        deny (Some g) now "GRANT_MISMATCH"
      else if String.eqb (g_Status g) StatusRevoked then deny (Some g) now "GRANT_REVOKED"
      else if Before now (g_ValidFrom g) then deny (Some g) now "GRANT_NOT_YET_VALID"
      else if negb (Before now (g_ValidUntil g)) then deny (Some g) now "GRANT_EXPIRED"
      else if negb (String.eqb (g_AgentID g) (ag_AgentID (env_Agent env))) then
        deny (Some g) now "GRANT_WRONG_AGENT"
      else if negb (String.eqb (g_PrincipalID g) (pr_PrincipalID (env_Principal env))) then
        deny (Some g) now "GRANT_WRONG_PRINCIPAL"
      else if negb (String.eqb (g_AccountID g) (pr_AccountID (env_Principal env))) then
        deny (Some g) now "GRANT_WRONG_ACCOUNT"
      else if negb (allowsSide g (in_Side (env_Intent env))) then
        deny (Some g) now "OPERATION_NOT_ALLOWED"
      else if negb (allowsAssetClass g (in_AssetClass (env_Intent env))) then
        deny (Some g) now "ASSET_CLASS_NOT_ALLOWED"
      else if negb (allowsInstrument g (in_InstrumentID (env_Intent env))) then
        deny (Some g) now "INSTRUMENT_NOT_ALLOWED"
      else evaluateLimits env g usage now
    end
  end.

(** * Reservations *)

Inductive ReservationState := StateReserved | StateCommitted | StateReleased.

#[global] Instance ReservationState_eq_dec : EqDecision ReservationState.
Proof. solve_decision. Defined.

Record ReservationIdentity := mkIdentity {
  rid_EnvelopeID : string;
  rid_PrincipalID : string;
  rid_AccountID : string
}.

Definition reservationDecision (g : Grant) (at_ : Time) (allowed : bool) (code : string)
    : Decision :=
  if allowed then allow g at_ else deny (Some g) at_ code.

(** * What the pre-check allows *)

(** The order is within the ceilings of a grant, given what [usage] reports. *)
Record WithinLimits (l : Limits) (i : Intent) (usage : result Snapshot string) : Prop := {
  wl_determinable :
    0 < PerOrderNotional l \/ 0 < Rolling1hNotional l \/ 0 < DailyNotional l ->
    snd (EffectiveNotional i) = true;
  wl_per_order : 0 < PerOrderNotional l -> fst (EffectiveNotional i) <= PerOrderNotional l;
  wl_usage :
    0 < Rolling1hNotional l \/ 0 < DailyNotional l \/ 0 < MaxOpenOrders l ->
    exists consumed, usage = Ok consumed /\
      checkLimits l consumed (fst (EffectiveNotional i)) = ""
}.

(** What the arithmetic says, branch by branch. *)
Lemma checkLimits_ok l c n :
  checkLimits l c n = "" <->
  (0 < PerOrderNotional l -> n <= PerOrderNotional l) /\
  (0 < Rolling1hNotional l ->
     Amount_Add (sn_Rolling1hNotional c) n <= Rolling1hNotional l) /\
  (0 < DailyNotional l -> Amount_Add (sn_DailyNotional c) n <= DailyNotional l) /\
  (0 < MaxOpenOrders l -> sn_OpenOrders c < MaxOpenOrders l).
Proof.
  unfold checkLimits.
  repeat match goal with
  | |- context [?a <? ?b] => destruct (Z.ltb_spec a b); cbn [andb]
  | |- context [?a <=? ?b] => destruct (Z.leb_spec a b); cbn [andb]
  end; split; try done; try (intros (? & ? & ? & ?); exfalso; lia); intros _; lia.
Qed.

#[export] Hint Resolve <- checkLimits_ok : golib.

Definition source_answer (usage : option UsageSource) (g : Grant) (now : Time)
    : result Snapshot string :=
  match usage with
  | None => Err "no usage source is configured"
  | Some src => src (g_TenantID g) (g_GrantID g) now
  end.

Lemma pos3_iff a b c :
  (0 <? a) || (0 <? b) || (0 <? c) = true <-> 0 < a \/ 0 < b \/ 0 < c.
Proof. rewrite !orb_true_iff, !Z.ltb_lt. tauto. Qed.

Lemma evaluateLimits_iff env g usage now :
  d_Allowed (evaluateLimits env g usage now) = true <->
  WithinLimits (g_Limits g) (env_Intent env) (source_answer usage g now).
Proof.
  unfold evaluateLimits. cbv zeta. set (l := g_Limits g).
  pose proof (pos3_iff (PerOrderNotional l) (Rolling1hNotional l) (DailyNotional l)) as Hnn.
  pose proof (pos3_iff (Rolling1hNotional l) (DailyNotional l) (MaxOpenOrders l)) as Hnu.
  destruct (_ || _ || (0 <? DailyNotional l)) eqn:Enn;
  destruct (_ || _ || (0 <? MaxOpenOrders l)) eqn:Enu;
  destruct (EffectiveNotional (env_Intent env)) as [n det] eqn:En;
  (destruct det; cbn [andb negb];
   [| try (split; [done | intros [W1 _ _]; rewrite En in W1; cbn [snd] in W1;
        destruct Hnn as [Hnn _]; by specialize (W1 (Hnn eq_refl))])]);
  (destruct (_ && (PerOrderNotional l <? n)) eqn:Ep;
   [b2p; split; [done | intros [_ W2 _]; rewrite En in W2; cbn [fst] in W2; lia] |
    apply andb_false_iff in Ep; rewrite !Z.ltb_ge in Ep]);
  try (split; [intros _; constructor; rewrite ?En; cbn [fst snd]; try done; try lia;
         intros Hor; exfalso; tauto || (destruct Hnn, Hnu; intuition congruence) | done]).
  all: unfold source_answer;
    destruct usage as [src|]; [destruct (src _ _ now) as [c|e]|].
  all: try (split; [done | intros [_ _ W3]; destruct (W3 (proj1 Hnu eq_refl)) as (c' & ? & _);
    discriminate]).
  all: destruct (str_nonempty (checkLimits l c n)) eqn:Ec.
  all: try (split; [done | intros [_ _ W3];
    destruct (W3 (proj1 Hnu eq_refl)) as (c' & [= <-] & Hc); rewrite En in Hc;
    cbn [fst] in Hc; by rewrite Hc in Ec]).
  all: apply str_nonempty_false in Ec; split; [intros _; constructor; rewrite ?En | done];
    cbn [fst snd]; try done; try lia; eauto.
  all: intros Hor; exfalso; destruct Hnn as [_ Hnn]; by specialize (Hnn Hor).
Qed.

(** Everything an allowed pre-check establishes about an envelope. *)
Record Authorized (env : Envelope) (g : Grant) (usage : option UsageSource) (now : Time) : Prop := {
  au_tenant : g_TenantID g = env_TenantID env;
  au_grant : g_GrantID g = env_AuthorityGrantID env;
  au_not_revoked : g_Status g <> StatusRevoked;
  au_window : g_ValidFrom g <= now < g_ValidUntil g;
  au_agent : g_AgentID g = ag_AgentID (env_Agent env);
  au_principal : g_PrincipalID g = pr_PrincipalID (env_Principal env);
  au_account : g_AccountID g = pr_AccountID (env_Principal env);
  au_side : in_Side (env_Intent env) ∈ g_AllowedOperations g;
  au_class : in_AssetClass (env_Intent env) ∈ g_AllowedAssetClasses g;
  au_not_denied : in_InstrumentID (env_Intent env) ∉ g_DeniedInstruments g;
  au_instrument : g_AllowedInstruments g = [] \/
                  in_InstrumentID (env_Intent env) ∈ g_AllowedInstruments g;
  au_limits : WithinLimits (g_Limits g) (env_Intent env) (source_answer usage g now)
}.

Lemma allowsInstrument_iff g id :
  allowsInstrument g id = true <->
  id ∉ g_DeniedInstruments g /\ (g_AllowedInstruments g = [] \/ id ∈ g_AllowedInstruments g).
Proof.
  unfold allowsInstrument. rewrite <- contains_false, <- contains_spec.
  destruct (contains (g_DeniedInstruments g) id); [naive_solver|].
  destruct (g_AllowedInstruments g) eqn:E; simpl; [naive_solver|].
  naive_solver.
Qed.

Lemma Evaluate_allows_iff' env g usage now :
  d_Allowed (Evaluate (Some env) (Some g) usage now) = true <-> Authorized env g usage now.
Proof.
  unfold Evaluate, Before.
  repeat match goal with
  | |- context [if negb ?b then _ else _] =>
      let E := fresh "E" in destruct b eqn:E; cbn [negb];
      [| split; [done | intros Ha; exfalso; destruct Ha]]
  | |- context [if ?b then _ else _] =>
      let E := fresh "E" in destruct b eqn:E; cbn [negb];
      [split; [done | intros Ha; exfalso; destruct Ha] |]
  end; b2p; try congruence; try lia.
  - rewrite evaluateLimits_iff. split; [|by intros []].
    intros Hl. apply contains_spec in E7, E8. apply allowsInstrument_iff in E9 as [? ?].
    by constructor.
  - assert (allowsInstrument g (in_InstrumentID (env_Intent env)) = true); [|congruence].
    by apply allowsInstrument_iff.
  - assert (allowsAssetClass g (in_AssetClass (env_Intent env)) = true); [|congruence].
    by apply contains_spec.
  - assert (allowsSide g (in_Side (env_Intent env)) = true); [|congruence].
    by apply contains_spec.
Qed.

(** The authority pre-check allows an envelope exactly when every condition
    of the grant holds: same tenant, grant, agent, principal and account, not
    revoked, inside the validity window, an allowed side and asset class, an
    instrument that is not denied and is in a non-empty allow list, and within
    the ceilings given the consumed usage.  An order whose size cannot be
    established, and usage that cannot be read, never pass a configured ceiling. *)
Theorem Evaluate_allows_iff (env : Envelope) (g : Grant) (usage : option UsageSource)
    (now : Time) :
  d_Allowed (Evaluate (Some env) (Some g) usage now) = true <-> Authorized env g usage now.
Proof. apply Evaluate_allows_iff'. Qed.

(** A revoked grant is refused as revoked before any allow list or ceiling
    is looked at, and an order of unknown size never passes a grant that caps
    size: the two fail-closed answers carry their own stable code. *)
Theorem Evaluate_fails_closed (env : Envelope) (g : Grant) (usage : option UsageSource)
    (now : Time) :
  g_TenantID g = env_TenantID env -> g_GrantID g = env_AuthorityGrantID env ->
  (g_Status g = StatusRevoked ->
     d_Code (Evaluate (Some env) (Some g) usage now) = "GRANT_REVOKED") /\
  (snd (EffectiveNotional (env_Intent env)) = false ->
   0 < PerOrderNotional (g_Limits g) \/ 0 < Rolling1hNotional (g_Limits g) \/
     0 < DailyNotional (g_Limits g) ->
   d_Allowed (Evaluate (Some env) (Some g) usage now) = false).
Proof.
  intros Ht Hg. split.
  - intros Hs. unfold Evaluate. rewrite Ht, Hg, Hs, !String.eqb_refl. done.
  - intros Hd Hcap. destruct (d_Allowed _) eqn:E; [|done].
    apply Evaluate_allows_iff' in E as []. destruct au_limits0 as [W1 _ _].
    by rewrite (W1 Hcap) in Hd.
Qed.

Definition sample_grant : Grant :=
  mkGrant "grant-1" "tenant-1" "p-1" "acct-1" "agent-1" 0 0 1000000
    [SideBuy] [AssetEquity] [] ["instr_bad"] (mkLimits 0 100000000 0 0) StatusRevoked None "".

Example Evaluate_fails_closed_witness :
  g_TenantID sample_grant = env_TenantID sample_envelope /\
  d_Code (Evaluate (Some sample_envelope) (Some sample_grant) None 10) = "GRANT_REVOKED".
Proof.
  split; [reflexivity|].
  apply (Evaluate_fails_closed sample_envelope sample_grant None 10); reflexivity.
Defined.

(** ** The size of an order *)

(** The size authority, policy and parent-intent reconstruction work with: for
    an intent validation accepts, it is positive whenever it is determinable; it
    is the notional of a notional order, the rounded-up product of a priced
    order, and undeterminable exactly for market and stop orders sized by
    quantity and for products beyond the representable range. *)
Theorem EffectiveNotional_accepted (i : Intent) :
  WellShaped i ->
  (snd (EffectiveNotional i) = true -> 0 < fst (EffectiveNotional i)) /\
  (snd (EffectiveNotional i) = false <->
     in_Notional i = None /\
     (in_OrderType i = OrderMarket \/ in_OrderType i = OrderStop \/
      exists p q, in_LimitPrice i = Some p /\ in_Quantity i = Some q /\
        max_int64 < ceil_div (p * q) unitsPerQuantity)).
Proof.
  assert (Hprod : forall p q, 0 < p -> 0 < q ->
    let n := NotionalOf p q in
    0 <= n <= max_int64 /\ (n = 0 <-> max_int64 < ceil_div (p * q) unitsPerQuantity)).
  { intros p q Hp Hq. split; [by apply NotionalOf_nonneg|].
    rewrite NotionalOf_zero_iff, Z.abs_eq by nia. intuition lia. }
  unfold WellShaped, EffectiveNotional.
  destruct i as [ac id side ot on oq ol os tif eh]; simpl. destruct 1; simpl.
  - split; [done | split; [done | intros [? _]; done]].
  - split; [done | split; [auto | done]].
  - destruct (Hprod l q) as [Hr Hz]; [done..|]. set (n := NotionalOf l q) in *.
    destruct (Z.eqb_spec l 0), (Z.eqb_spec q 0); try lia. rewrite !andb_true_r.
    destruct (Z.eqb_spec n 0) as [E|E]; simpl; (split; [intros; try done; lia|]).
    + split; [|done]. intros _. split; [done|]. right. right. exists l, q.
      split_and!; [done..|]. by apply Hz.
    + split; [done|]. intros (_ & [?|[?|(p' & q' & [= <-] & [= <-] & Hbig)]]); try done.
      exfalso. apply E. by apply Hz.
  - split; [done | split; [auto | done]].
  - destruct (Hprod l q) as [Hr Hz]; [done..|]. set (n := NotionalOf l q) in *.
    destruct (Z.eqb_spec l 0), (Z.eqb_spec q 0); try lia. rewrite !andb_true_r.
    destruct (Z.eqb_spec n 0) as [E|E]; simpl; (split; [intros; try done; lia|]).
    + split; [|done]. intros _. split; [done|]. right. right. exists l, q.
      split_and!; [done..|]. by apply Hz.
    + split; [done|]. intros (_ & [?|[?|(p' & q' & [= <-] & [= <-] & Hbig)]]); try done.
      exfalso. apply E. by apply Hz.
Qed.

Example EffectiveNotional_accepted_witness :
  WellShaped sample_intent /\ 0 < fst (EffectiveNotional sample_intent).
Proof.
  assert (H : WellShaped sample_intent) by (apply shape_limit; lia).
  split; [exact H|].
  apply (proj1 (EffectiveNotional_accepted sample_intent H)). vm_compute; reflexivity.
Defined.
