(* ===== verification/Usage.v ===== *)
(** The ledger of consumed authority: internal/authority/usage.go.

    [Memory] is MemoryUsage, a Go map keyed by the concatenation of tenant, NUL
    and idempotency key.  [Postgres] is PostgresUsage: each method is one
    transaction, serialized per grant by its advisory lock, so it is a function
    on the table [authority_usage], whose primary key is (tenant_id,
    idempotency_key).  The SQL is modelled from the statements in the source:
    sums are exact numerics that cross to Go as text and are parsed by
    [Money.Parse].  [available = false] is a transaction that cannot begin or
    commit; one that commits and loses its acknowledgement is not a case here.  [Exact] is the abstract ledger, with unbounded integer arithmetic. *)

From S2P Require Import Prelude Money Intent Authority.

Record Entry := mkEntry {
  e_TenantID : string;
  e_GrantID : string;
  e_IdempotencyKey : string;
  e_Notional : Amount;
  e_SubmittedAt : Time;
  e_Open : bool;
  e_State : ReservationState;
  e_EnvelopeID : string;
  e_PrincipalID : string;
  e_AccountID : string;
  e_ClosedAt : option Time
}.

Definition set_open (e : Entry) (open : bool) (closed : option Time) : Entry :=
  mkEntry (e_TenantID e) (e_GrantID e) (e_IdempotencyKey e) (e_Notional e) (e_SubmittedAt e)
    open (e_State e) (e_EnvelopeID e) (e_PrincipalID e) (e_AccountID e) closed.

Definition set_settled (e : Entry) (st : ReservationState) (open : bool) (closed : option Time)
    : Entry :=
  mkEntry (e_TenantID e) (e_GrantID e) (e_IdempotencyKey e) (e_Notional e) (e_SubmittedAt e)
    open st (e_EnvelopeID e) (e_PrincipalID e) (e_AccountID e) closed.

(** The row a successful reservation writes. *)
Definition reserved (g : Grant) (idempotencyKey : string) (notional : Amount)
    (who : ReservationIdentity) (at_ : Time) : Entry :=
  mkEntry (g_TenantID g) (g_GrantID g) idempotencyKey notional at_ true StateReserved
    (rid_EnvelopeID who) (rid_PrincipalID who) (rid_AccountID who) None.

(** Which entries a window counts. *)
Definition counted (tenantID grantID : string) (e : Entry) : bool :=
  String.eqb (e_TenantID e) tenantID && String.eqb (e_GrantID e) grantID &&
  negb (bool_decide (e_State e = StateReleased)).

Definition rolling_part (t g : string) (now : Time) (e : Entry) : Z :=
  if counted t g e && After (e_SubmittedAt e) (TimeAdd now (- Hour)) then e_Notional e else 0.
Definition daily_part (t g : string) (now : Time) (e : Entry) : Z :=
  if counted t g e && negb (Before (e_SubmittedAt e) (DayStart now)) then e_Notional e else 0.
Definition open_part (t g : string) (e : Entry) : Z :=
  if counted t g e && e_Open e then 1 else 0.

(** A held key is a retry only of the same economic request. *)
Definition same_request (held : Entry) (g : Grant) (notional : Amount)
    (who : ReservationIdentity) : bool :=
  String.eqb (e_GrantID held) (g_GrantID g) &&
  String.eqb (e_EnvelopeID held) (rid_EnvelopeID who) &&
  String.eqb (e_PrincipalID held) (rid_PrincipalID who) &&
  String.eqb (e_AccountID held) (rid_AccountID who) &&
  (e_Notional held =? notional).

(** * The in-process ledger *)

Module Memory.
Definition NUL : string := String Ascii.zero "".
Definition usageKey (tenantID idempotencyKey : string) : string :=
  tenantID +:+ NUL +:+ idempotencyKey.

Abbreviation Ledger := (gmap string Entry).

Definition Record_ (m : Ledger) (e : Entry) : Ledger :=
  let k := usageKey (e_TenantID e) (e_IdempotencyKey e) in
  match m !! k with Some _ => m | None => <[k := e]> m end.

Definition Close (m : Ledger) (tenantID idempotencyKey : string) : Ledger :=
  let k := usageKey tenantID idempotencyKey in
  match m !! k with
  | Some e => <[k := set_open e false (e_ClosedAt e)]> m
  | None => m
  end.

(** The counters are Go integers: additions wrap. *)
Definition snapshot (m : Ledger) (tenantID grantID : string) (now : Time) : Snapshot :=
  mkSnapshot (map_sum64 (rolling_part tenantID grantID now) m)
    (map_sum64 (daily_part tenantID grantID now) m)
    (map_sum64 (open_part tenantID grantID) m).

Definition Usage (m : Ledger) : UsageSource := fun t g now => Ok (snapshot m t g now).

Definition Reserve (m : Ledger) (g : option Grant) (idempotencyKey : string)
    (notional : Amount) (who : ReservationIdentity) (at_ : Time)
    : Ledger * result Decision string :=
  match g with
  | None => (m, Err "no grant to reserve against")
  | Some g =>
      let k := usageKey (g_TenantID g) idempotencyKey in
      match m !! k with
      | Some held =>
          if negb (same_request held g notional who) then
            (m, Ok (reservationDecision g at_ false "RESERVATION_KEY_REUSED"))
          else (m, Ok (allow g at_))
      | None =>
          let consumed := snapshot m (g_TenantID g) (g_GrantID g) at_ in
          let code := checkLimits (g_Limits g) consumed notional in
          if str_nonempty code then (m, Ok (reservationDecision g at_ false code))
          else (<[k := reserved g idempotencyKey notional who at_]> m, Ok (allow g at_))
      end
  end.

Definition Release (m : Ledger) (tenantID idempotencyKey : string) : Ledger :=
  let k := usageKey tenantID idempotencyKey in
  match m !! k with
  | Some e => if bool_decide (e_State e = StateReserved) then delete k m else m
  | None => m
  end.

Definition Settle (m : Ledger) (tenantID idempotencyKey : string) (st : ReservationState)
    (open : bool) (at_ : Time) : Ledger :=
  let k := usageKey tenantID idempotencyKey in
  match m !! k with
  | Some e => <[k := set_settled e st open (if open then e_ClosedAt e else Some at_)]> m
  | None => m
  end.
End Memory.

(** * The PostgreSQL ledger *)

Module Postgres.
Abbreviation Ledger := (gmap (string * string) Entry).

(** [numeric(20,4)::text]: the exact value with its scale; COALESCE gives 0. *)
Definition numeric_text (z : Z) : string :=
  if z =? 0 then "0" else
  (if z <? 0 then "-" else "") +:+ itoa (Z.abs z / 10000) +:+ "." +:+
    pad_left 4 (itoa (Z.abs z mod 10000)).

Definition parseAmount (text : string) : result Amount ParseError := Parse text.

Definition sameAmount (text : string) (notional : Amount) : bool :=
  match parseAmount text with Ok held => held =? notional | Err _ => false end.

(** The aggregate query, and the two sums read back from text. *)
Definition query (m : Ledger) (tenantID grantID : string) (now : Time)
    : result Snapshot ParseError :=
  let rolling := numeric_text (map_sum (rolling_part tenantID grantID now) m) in
  let daily := numeric_text (map_sum (daily_part tenantID grantID now) m) in
  let openOrders := map_sum (open_part tenantID grantID) m in
  let? r := parseAmount rolling in
  let? d := parseAmount daily in
  Ok (mkSnapshot r d openOrders).

Definition Usage (available : bool) (m : Ledger) : UsageSource := fun t g now =>
  if available then
    match query m t g now with Ok s => Ok s | Err _ => Err "not a readable amount" end
  else Err "unavailable".

(** What the row already holding this key is for. *)
Definition mismatch (held : Entry) (g : Grant) (notional : Amount)
    (who : ReservationIdentity) : bool :=
  if negb (String.eqb (e_GrantID held) (g_GrantID g)) then true
  else if negb (String.eqb (e_EnvelopeID held) (rid_EnvelopeID who)) then true
  else if negb (String.eqb (e_PrincipalID held) (rid_PrincipalID who)) ||
          negb (String.eqb (e_AccountID held) (rid_AccountID who)) then true
  else negb (sameAmount (numeric_text (e_Notional held)) notional).

(** A negative amount violates the table's CHECK, so the INSERT fails. *)
Definition Reserve (available : bool) (m : Ledger) (g : option Grant)
    (idempotencyKey : string) (notional : Amount) (who : ReservationIdentity) (at_ : Time)
    : Ledger * result Decision string :=
  match g with
  | None => (m, Err "no grant to reserve against")
  | Some g =>
      if negb available then (m, Ok (deny (Some g) at_ "USAGE_UNAVAILABLE")) else
      match m !! (g_TenantID g, idempotencyKey) with
      | Some held =>
          if mismatch held g notional who then
            (m, Ok (reservationDecision g at_ false "RESERVATION_KEY_REUSED"))
          else (m, Ok (allow g at_))
      | None =>
          match query m (g_TenantID g) (g_GrantID g) at_ with
          | Err _ => (m, Ok (deny (Some g) at_ "USAGE_UNAVAILABLE"))
          | Ok consumed =>
              let code := checkLimits (g_Limits g) consumed notional in
              if str_nonempty code then (m, Ok (reservationDecision g at_ false code))
              else if notional <? 0 then (m, Ok (deny (Some g) at_ "USAGE_UNAVAILABLE"))
              else (<[(g_TenantID g, idempotencyKey) :=
                       reserved g idempotencyKey notional who at_]> m, Ok (allow g at_))
          end
      end
  end.

Definition Release (m : Ledger) (tenantID idempotencyKey : string) : Ledger :=
  match m !! (tenantID, idempotencyKey) with
  | Some e => if bool_decide (e_State e = StateReserved)
              then delete (tenantID, idempotencyKey) m else m
  | None => m
  end.

Definition Settle (m : Ledger) (tenantID idempotencyKey : string) (st : ReservationState)
    (open : bool) (at_ : Time) : Ledger :=
  match m !! (tenantID, idempotencyKey) with
  | Some e => <[(tenantID, idempotencyKey) :=
                 set_settled e st open (if open then None else Some at_)]> m
  | None => m
  end.

Definition Close (m : Ledger) (tenantID idempotencyKey : string) (at_ : Time) : Ledger :=
  match m !! (tenantID, idempotencyKey) with
  | Some e => <[(tenantID, idempotencyKey) := set_open e false (Some at_)]> m
  | None => m
  end.

(** INSERT without a state takes the column default, COMMITTED, and ON CONFLICT
    keeps the row that is there. *)
Definition Record_ (m : Ledger) (e : Entry) : Ledger :=
  if e_Notional e <? 0 then m else
  match m !! (e_TenantID e, e_IdempotencyKey e) with
  | Some _ => m
  | None =>
      <[(e_TenantID e, e_IdempotencyKey e) :=
         mkEntry (e_TenantID e) (e_GrantID e) (e_IdempotencyKey e) (e_Notional e)
           (e_SubmittedAt e) (e_Open e) StateCommitted "" "" ""
           (if e_Open e then None else Some (e_SubmittedAt e))]> m
  end.
End Postgres.

(** * The reservation interface

    What the gateway needs of a ledger: the operations of authority.Reserver and
    authority.UsageSource, and the laws the ceilings rest on.  The boolean says
    whether the storage answers; the in-process ledger always does. *)

Class Reserver (L : Type) := {
  rv_empty : L;
  rv_reserve : bool -> L -> option Grant -> string -> Amount -> ReservationIdentity -> Time ->
               L * result Decision string;
  rv_release : L -> string -> string -> L;
  rv_settle : L -> string -> string -> ReservationState -> bool -> Time -> L;
  rv_usage : bool -> L -> UsageSource
}.

(** An order no larger than 400 trillion, and ceilings no larger than what the
    parser accepts: the range in which a sum of two amounts cannot wrap. *)
Definition max_order : Amount := 4 * 10 ^ 18.
Definition sane_order (n : Amount) : Prop := 0 <= n <= max_order.
Definition sane_limits (l : Limits) : Prop :=
  Rolling1hNotional l <= parse_limit Scale /\ DailyNotional l <= parse_limit Scale /\
  MaxOpenOrders l <= max_int64.

(** The exact reading of a grant's ceilings for what is consumed. *)
Definition exact_room (l : Limits) (rolling daily opened n : Z) : Prop :=
  (0 < PerOrderNotional l -> n <= PerOrderNotional l) /\
  (0 < Rolling1hNotional l -> rolling + n <= Rolling1hNotional l) /\
  (0 < DailyNotional l -> daily + n <= DailyNotional l) /\
  (0 < MaxOpenOrders l -> opened < MaxOpenOrders l).

(** Consumption already within the ceilings that are configured. *)
Definition within (l : Limits) (rolling daily opened : Z) : Prop :=
  (0 < Rolling1hNotional l -> 0 <= rolling <= Rolling1hNotional l) /\
  (0 < DailyNotional l -> 0 <= daily <= DailyNotional l) /\
  (0 < MaxOpenOrders l -> 0 <= opened <= MaxOpenOrders l).

Class ReserverLaws (L : Type) `{Reserver L} := {
  (** the exact total of a measure over the ledger's entries *)
  rl_sum : (Entry -> Z) -> L -> Z;
  rl_all : (Entry -> Prop) -> L -> Prop;
  (** what the ledger holds under a tenant and key *)
  rl_find : L -> string -> string -> option Entry;
  rl_sum_empty f : rl_sum f rv_empty = 0;
  rl_sum_zero l : rl_sum (fun _ => 0) l = 0;
  rl_all_empty P : rl_all P rv_empty;
  rl_sum_le f g l P : rl_all P l -> (forall e, P e -> f e <= g e) -> rl_sum f l <= rl_sum g l;
  rl_all_impl (P Q : Entry -> Prop) l : (forall e, P e -> Q e) -> rl_all P l -> rl_all Q l;
  rl_all_find P l t k e : rl_all P l -> rl_find l t k = Some e -> P e;
  (** Reserve writes nothing, or writes one row for which there is exact room. *)
  rl_reserve up l g k n who at_ l' r :
    rv_reserve up l (Some g) k n who at_ = (l', r) ->
    l' = l \/
    (rl_find l (g_TenantID g) k = None /\ r = Ok (allow g at_) /\
     (forall f, rl_sum f l' = rl_sum f l + f (reserved g k n who at_)) /\
     (forall P : Entry -> Prop, P (reserved g k n who at_) -> rl_all P l -> rl_all P l') /\
     (sane_order n -> sane_limits (g_Limits g) ->
      within (g_Limits g) (rl_sum (rolling_part (g_TenantID g) (g_GrantID g) at_) l)
        (rl_sum (daily_part (g_TenantID g) (g_GrantID g) at_) l)
        (rl_sum (open_part (g_TenantID g) (g_GrantID g)) l) ->
      exact_room (g_Limits g) (rl_sum (rolling_part (g_TenantID g) (g_GrantID g) at_) l)
        (rl_sum (daily_part (g_TenantID g) (g_GrantID g) at_) l)
        (rl_sum (open_part (g_TenantID g) (g_GrantID g)) l) n));
  rl_release l t k :
    rv_release l t k = l \/
    exists e, rl_find l t k = Some e /\ e_State e = StateReserved /\
      (forall f, rl_sum f (rv_release l t k) = rl_sum f l - f e) /\
      (forall P : Entry -> Prop, rl_all P l -> rl_all P (rv_release l t k));
  rl_settle l t k st open at_ :
    rv_settle l t k st open at_ = l \/
    exists e closed, rl_find l t k = Some e /\
      (forall f, rl_sum f (rv_settle l t k st open at_) =
         rl_sum f l - f e + f (set_settled e st open closed)) /\
      (forall P : Entry -> Prop, P (set_settled e st open closed) -> rl_all P l ->
         rl_all P (rv_settle l t k st open at_))
}.

(** ** Arithmetic of the check inside the range *)

Lemma exact_checkLimits l r d o n :
  sane_order n -> sane_limits l -> within l r d o ->
  checkLimits l (mkSnapshot r d o) n = "" -> exact_room l r d o n.
Proof.
  intros Hn (Hl1 & Hl2 & Hl3) (Hr & Hd & Ho) Hc.
  apply checkLimits_ok in Hc as (H1 & H2 & H3 & H4). cbn in *.
  change (parse_limit Scale) with 4611686018427390000 in *.
  unfold exact_room, Amount_Add, add64, sane_order, max_order in *.
  split_and!; auto; intros Hpos.
  - specialize (Hr Hpos). specialize (H2 Hpos).
    rewrite wrap64_id in H2 by int64_lia. done.
  - specialize (Hd Hpos). specialize (H3 Hpos).
    rewrite wrap64_id in H3 by int64_lia. done.
Qed.

(** The memory ledger's wrapped counters are exact where a ceiling looks at them. *)
Lemma wrapped_checkLimits l r d o n :
  sane_limits l -> within l r d o ->
  checkLimits l (mkSnapshot (wrap64 r) (wrap64 d) (wrap64 o)) n =
  checkLimits l (mkSnapshot r d o) n.
Proof.
  intros (Hl1 & Hl2 & Hl3) (Hr & Hd & Ho).
  change (parse_limit Scale) with 4611686018427390000 in *.
  unfold checkLimits, Amount_Add. cbn.
  destruct (Z.ltb_spec 0 (Rolling1hNotional l)) as [H1|H1];
    [rewrite (wrap64_id r) by int64_lia|];
  (destruct (Z.ltb_spec 0 (DailyNotional l)) as [H2|H2];
    [rewrite (wrap64_id d) by int64_lia|]);
  (destruct (Z.ltb_spec 0 (MaxOpenOrders l)) as [H3|H3];
    [rewrite (wrap64_id o) by int64_lia|]); cbn [andb]; done.
Qed.

Lemma numeric_text_literal z :
  z <> 0 ->
  Postgres.numeric_text z =
    literal (z <? 0) (itoa (Z.abs z / 10000)) (pad_left 4 (itoa (Z.abs z mod 10000))) true.
Proof.
  intros Hz. unfold Postgres.numeric_text. destruct (Z.eqb_spec z 0); [done|].
  unfold literal, sign_text. done.
Qed.

Lemma numeric_text_denotes z v :
  denotes v 4 (z <? 0) (itoa (Z.abs z / 10000)) (pad_left 4 (itoa (Z.abs z mod 10000))) ->
  v = z.
Proof.
  destruct (frac_text 4 (Z.abs z mod 10000)) as (Hd & Hl & Hv);
    [lia | apply Z.mod_pos_bound; lia |].
  destruct (itoa_spec (Z.abs z / 10000)) as (_ & Hw & _); [apply Z.div_pos; lia|].
  unfold denotes. rewrite digits_val_app, Hw, digits_val_shift, Hv, Hl.
  pose proof (Z.div_mod (Z.abs z) 10000 ltac:(lia)).
  change (10 ^ Z.of_nat 4) with 10000.
  destruct (Z.ltb_spec z 0); simpl; lia.
Qed.

(** What crosses from PostgreSQL as text is read back exactly, or refused. *)
Lemma numeric_text_parse z v :
  Postgres.parseAmount (Postgres.numeric_text z) = Ok v -> v = z.
Proof.
  destruct (Z.eq_dec z 0) as [->|Hz]; [vm_compute; congruence|].
  destruct (frac_text 4 (Z.abs z mod 10000)) as (Hd & Hl & Hv);
    [lia | apply Z.mod_pos_bound; lia |].
  assert (Hw : allDigits (itoa (Z.abs z / 10000)) = true)
    by (apply allDigits_itoa, Z.div_pos; lia).
  rewrite (numeric_text_literal z Hz). unfold Postgres.parseAmount, Parse.
  rewrite parse_literal; [| done | | done].
  - intros H. apply parse_digits_sound in H as [H _];
      [by apply numeric_text_denotes | unfold Scale; lia | done | done | done].
  - intros _. apply allDigits_iff. split; [|done]. intros E. by rewrite E in Hl.
Qed.

Lemma numeric_text_readable z :
  0 <= z < parse_limit Scale -> Postgres.parseAmount (Postgres.numeric_text z) = Ok z.
Proof.
  intros Hz. destruct (Z.eq_dec z 0) as [->|Hne]; [done|].
  rewrite (numeric_text_literal z Hne). unfold Postgres.parseAmount.
  rewrite <- Amount_String_literal; [apply Amount_roundtrip'; lia|].
  change (parse_limit Scale) with 4611686018427390000 in Hz. int64_lia.
Qed.

Lemma query_exact m t g now c :
  Postgres.query m t g now = Ok c ->
  c = mkSnapshot (map_sum (rolling_part t g now) m) (map_sum (daily_part t g now) m)
        (map_sum (open_part t g) m).
Proof.
  unfold Postgres.query. intros H.
  destruct (Postgres.parseAmount _) as [r|] eqn:Er; [|done].
  apply numeric_text_parse in Er as ->.
  destruct (Postgres.parseAmount _) as [d|] eqn:Ed in H; [|done].
  apply numeric_text_parse in Ed as ->. by simplify_eq.
Qed.

(** ** The two ledgers are lawful *)

#[export] Instance memory_reserver : Reserver Memory.Ledger := {
  rv_empty := ∅;
  rv_reserve _ := Memory.Reserve;
  rv_release := Memory.Release;
  rv_settle := Memory.Settle;
  rv_usage _ := Memory.Usage
}.

#[export] Instance postgres_reserver : Reserver Postgres.Ledger := {
  rv_empty := ∅;
  rv_reserve := Postgres.Reserve;
  rv_release := Postgres.Release;
  rv_settle := Postgres.Settle;
  rv_usage := Postgres.Usage
}.

(** What a ledger kept in a finite map, whatever its keys, owes the interface. *)
Section MapLedger.
Context {K : Type} `{Countable K} (key : string -> string -> K).
Implicit Types (m : gmap K Entry).

Lemma map_sum_zero m : map_sum (fun _ : Entry => 0) m = 0.
Proof.
  induction m as [|k v m Hk IH] using map_ind; [apply map_sum_empty|].
  by rewrite map_sum_insert_new, IH.
Qed.

Lemma map_sum_le_all f g m (P : Entry -> Prop) :
  map_all P m -> (forall e, P e -> f e <= g e) -> map_sum f m <= map_sum g m.
Proof. intros HP Hle. apply map_sum_le. intros k v Hk. apply Hle. by eapply HP. Qed.

Lemma map_insert_laws m t k e :
  m !! key t k = None ->
  (forall f, map_sum f (<[key t k := e]> m) = map_sum f m + f e) /\
  (forall P : Entry -> Prop, P e -> map_all P m -> map_all P (<[key t k := e]> m)).
Proof.
  intros Hk. split; [|intros; by apply map_all_insert].
  intros f. rewrite map_sum_insert_new by done. lia.
Qed.

Lemma map_update_laws m t k e e' :
  m !! key t k = Some e ->
  (forall f, map_sum f (<[key t k := e']> m) = map_sum f m - f e + f e') /\
  (forall P : Entry -> Prop, P e' -> map_all P m -> map_all P (<[key t k := e']> m)).
Proof.
  intros Hk. split; [|intros; by apply map_all_insert].
  intros f. by apply map_sum_update.
Qed.

Lemma map_delete_laws m t k e :
  m !! key t k = Some e ->
  (forall f, map_sum f (delete (key t k) m) = map_sum f m - f e) /\
  (forall P : Entry -> Prop, map_all P m -> map_all P (delete (key t k) m)).
Proof.
  intros Hk. split; [|intros; by apply map_all_delete].
  intros f. by apply map_sum_delete.
Qed.
End MapLedger.

#[export] Instance memory_laws : ReserverLaws Memory.Ledger.
Proof.
  refine {| rl_sum := map_sum; rl_all := map_all;
            rl_find m t k := m !! Memory.usageKey t k |}.
  - apply map_sum_empty.
  - apply map_sum_zero.
  - intros P. apply map_all_empty.
  - intros f g l P. apply map_sum_le_all.
  - intros P Q l HPQ. by apply map_all_impl.
  - intros P l t k e HP Hk. by eapply HP.
  - intros up l g k n who at_ l' r Hr. cbn in Hr. unfold Memory.Reserve in Hr.
    destruct (l !! _) eqn:Hk; [destruct (negb _); simplify_eq; by left|].
    destruct (str_nonempty _) eqn:Hc; simplify_eq; [by left|right].
    destruct (map_insert_laws Memory.usageKey l _ _ (reserved g k n who at_) Hk) as [H1 H2].
    split_and!; [done | done | done | done |].
    intros Hn Hl Hw. apply str_nonempty_false in Hc.
    unfold Memory.snapshot in Hc. rewrite !map_sum64_wrap, wrapped_checkLimits in Hc by done.
    by apply exact_checkLimits.
  - intros l t k. cbn. unfold Memory.Release. destruct (l !! _) as [e|] eqn:Hk; [|by left].
    destruct (bool_decide_reflect (e_State e = StateReserved)); [right|by left].
    exists e. destruct (map_delete_laws Memory.usageKey l _ _ _ Hk). done.
  - intros l t k st open at_. cbn. unfold Memory.Settle.
    destruct (l !! _) as [e|] eqn:Hk; [right|by left].
    eexists e, _. split; [done|]. by apply (map_update_laws Memory.usageKey).
Defined.

#[export] Instance postgres_laws : ReserverLaws Postgres.Ledger.
Proof.
  refine {| rl_sum := map_sum; rl_all := map_all; rl_find m t k := m !! (t, k) |}.
  - apply map_sum_empty.
  - apply map_sum_zero.
  - intros P. apply map_all_empty.
  - intros f g l P. apply map_sum_le_all.
  - intros P Q l HPQ. by apply map_all_impl.
  - intros P l t k e HP Hk. by eapply HP.
  - intros up l g k n who at_ l' r Hr. cbn in Hr. unfold Postgres.Reserve in Hr.
    destruct up; cbn [negb] in Hr; [|simplify_eq; by left].
    destruct (l !! _) eqn:Hk; [destruct (Postgres.mismatch _ _ _ _); simplify_eq; by left|].
    destruct (Postgres.query _ _ _ _) as [c|] eqn:Hq; [|simplify_eq; by left].
    destruct (str_nonempty _) eqn:Hc; [simplify_eq; by left|].
    destruct (n <? 0); simplify_eq; [by left|right].
    destruct (map_insert_laws pair l _ _ (reserved g k n who at_) Hk) as [H1 H2].
    split_and!; [done | done | done | done |].
    intros Hn Hl Hw. apply str_nonempty_false in Hc.
    apply query_exact in Hq as ->. by apply exact_checkLimits.
  - intros l t k. cbn. unfold Postgres.Release. destruct (l !! _) as [e|] eqn:Hk; [|by left].
    destruct (bool_decide_reflect (e_State e = StateReserved)); [right|by left].
    exists e. destruct (map_delete_laws pair l _ _ _ Hk). done.
  - intros l t k st open at_. cbn. unfold Postgres.Settle.
    destruct (l !! _) as [e|] eqn:Hk; [right|by left].
    eexists e, _. split; [done|]. by apply (map_update_laws pair).
Defined.

(** * The ceiling is never exceeded *)

Section Ceiling.
Context {L : Type} `{HR : Reserver L, HL : !ReserverLaws L}.
Variable g : Grant.

(** What a settlement may do: capacity that was released stays released, and an
    order that was closed is not opened again. *)
Definition settle_ok (l : L) (t k : string) (st : ReservationState) (open : bool) : Prop :=
  forall e, rl_find l t k = Some e ->
    (e_State e = StateReleased -> st = StateReleased) /\ (open = true -> e_Open e = true).

(** A history of the ledger: reservations under any grant at a clock that does
    not run backwards, where the grant under study keeps the ceilings it was
    issued with, releases, and settlements. *)
Inductive Reachable : L -> Time -> Prop :=
| reach_empty t : Reachable rv_empty t
| reach_tick l t t' : Reachable l t -> t <= t' -> Reachable l t'
| reach_reserve up l t g' k n who l' r :
    Reachable l t -> sane_order n ->
    (g_TenantID g' = g_TenantID g -> g_GrantID g' = g_GrantID g ->
     g_Limits g' = g_Limits g) ->
    rv_reserve up l (Some g') k n who t = (l', r) -> Reachable l' t
| reach_release l t tn k : Reachable l t -> Reachable (rv_release l tn k) t
| reach_settle l t tn k st open :
    Reachable l t -> settle_ok l tn k st open ->
    Reachable (rv_settle l tn k st open t) t.

Definition entry_ok (now : Time) (e : Entry) : Prop :=
  0 <= e_Notional e /\ e_SubmittedAt e <= now.

Abbreviation rolling now := (rolling_part (g_TenantID g) (g_GrantID g) now).
Abbreviation daily now := (daily_part (g_TenantID g) (g_GrantID g) now).
Abbreviation opened := (open_part (g_TenantID g) (g_GrantID g)).

Definition ledger_ok (l : L) (now : Time) : Prop :=
  rl_all (entry_ok now) l /\
  within (g_Limits g) (rl_sum (rolling now) l) (rl_sum (daily now) l) (rl_sum opened l).

Lemma rolling_bounds now e : 0 <= e_Notional e -> 0 <= rolling now e <= e_Notional e.
Proof. unfold rolling_part. intros. destruct (_ && _); lia. Qed.
Lemma daily_bounds now e : 0 <= e_Notional e -> 0 <= daily now e <= e_Notional e.
Proof. unfold daily_part. intros. destruct (_ && _); lia. Qed.
Lemma open_bounds e : 0 <= opened e <= 1.
Proof. unfold open_part. destruct (_ && _); lia. Qed.

Lemma rolling_later now now' e :
  now <= now' -> 0 <= e_Notional e -> rolling now' e <= rolling now e.
Proof.
  unfold rolling_part, After, TimeAdd. intros.
  destruct (counted _ _ e); simpl; [|lia].
  destruct (Z.ltb_spec (now' + - Hour) (e_SubmittedAt e)),
    (Z.ltb_spec (now + - Hour) (e_SubmittedAt e)); lia.
Qed.

Lemma daily_later now now' e :
  now <= now' -> 0 <= e_Notional e -> daily now' e <= daily now e.
Proof.
  unfold daily_part, Before. intros Hle ?. pose proof (DayStart_mono _ _ Hle).
  destruct (counted _ _ e); simpl; [|lia].
  destruct (Z.ltb_spec (e_SubmittedAt e) (DayStart now')),
    (Z.ltb_spec (e_SubmittedAt e) (DayStart now)); simpl; lia.
Qed.

Lemma rl_sum_nonneg f l (P : Entry -> Prop) :
  rl_all P l -> (forall e, P e -> 0 <= f e) -> 0 <= rl_sum f l.
Proof. intros HP Hf. rewrite <- (rl_sum_zero l). by eapply rl_sum_le. Qed.

Lemma sums_nonneg l now :
  rl_all (entry_ok now) l ->
  0 <= rl_sum (rolling now) l /\ 0 <= rl_sum (daily now) l /\ 0 <= rl_sum opened l.
Proof.
  intros H. split_and!; (eapply rl_sum_nonneg; [exact H|]; intros e [He _]).
  - by apply rolling_bounds.
  - by apply daily_bounds.
  - apply open_bounds.
Qed.

(** Sums that can only have shrunk stay within. *)
Lemma within_shrink lim r d o r' d' o' :
  within lim r d o -> r' <= r -> d' <= d -> o' <= o -> 0 <= r' -> 0 <= d' -> 0 <= o' ->
  within lim r' d' o'.
Proof. unfold within. intros (W1 & W2 & W3). intros. split_and!; intros; lia. Qed.

Lemma ledger_tick l now now' : now <= now' -> ledger_ok l now -> ledger_ok l now'.
Proof.
  intros Hle [Ha Hw].
  assert (Ha' : rl_all (entry_ok now') l).
  { eapply rl_all_impl; [|exact Ha]. intros e [? ?]. split; lia. }
  split; [done|]. destruct (sums_nonneg l now' Ha') as (? & ? & ?).
  eapply within_shrink; [exact Hw | | | | done..].
  - eapply rl_sum_le; [exact Ha|]. intros e [? _]. by apply rolling_later.
  - eapply rl_sum_le; [exact Ha|]. intros e [? _]. by apply daily_later.
  - done.
Qed.

(** An update that lowers every measure keeps the ledger within. *)
Lemma ledger_shrink l l' now :
  ledger_ok l now -> rl_all (entry_ok now) l' ->
  rl_sum (rolling now) l' <= rl_sum (rolling now) l ->
  rl_sum (daily now) l' <= rl_sum (daily now) l ->
  rl_sum opened l' <= rl_sum opened l -> ledger_ok l' now.
Proof.
  intros [_ Hw] Ha' H1 H2 H3. split; [done|].
  destruct (sums_nonneg l' now Ha') as (? & ? & ?). by eapply within_shrink.
Qed.

Lemma ledger_release l now t k : ledger_ok l now -> ledger_ok (rv_release l t k) now.
Proof.
  intros Hl. destruct (rl_release l t k) as [->|(e & Hf & _ & Hs & Ha)]; [done|].
  pose proof Hl as [Hall _]. pose proof (rl_all_find _ _ _ _ _ Hall Hf) as [He _].
  apply (ledger_shrink l); [done | by apply Ha | rewrite Hs..].
  - pose proof (rolling_bounds now e He). lia.
  - pose proof (daily_bounds now e He). lia.
  - pose proof (open_bounds e). lia.
Qed.

Lemma settled_measures now e st open closed :
  0 <= e_Notional e ->
  (e_State e = StateReleased -> st = StateReleased) -> (open = true -> e_Open e = true) ->
  let e' := set_settled e st open closed in
  rolling now e' <= rolling now e /\ daily now e' <= daily now e /\ opened e' <= opened e.
Proof.
  intros Hn Hst Ho e'.
  assert (Hc : counted (g_TenantID g) (g_GrantID g) e' = true ->
               counted (g_TenantID g) (g_GrantID g) e = true).
  { unfold counted. simpl. rewrite !andb_true_iff. intros [Hid Hr]. split; [done|].
    apply negb_true_iff, bool_decide_eq_false. apply negb_true_iff, bool_decide_eq_false in Hr.
    intros HR'. by apply Hr, Hst. }
  pose proof (rolling_bounds now e Hn). pose proof (daily_bounds now e Hn).
  pose proof (open_bounds e).
  split_and!; [unfold rolling_part at 1 | unfold daily_part at 1 | unfold open_part at 1];
    destruct (counted _ _ e') eqn:E; cbn [andb]; try lia;
    [unfold rolling_part | unfold daily_part | unfold open_part]; rewrite (Hc eq_refl); simpl.
  - done.
  - done.
  - destruct open; [by rewrite Ho|]. destruct (e_Open e); lia.
Qed.

Lemma ledger_settle l now t k st open :
  settle_ok l t k st open -> ledger_ok l now -> ledger_ok (rv_settle l t k st open now) now.
Proof.
  intros Hok Hl.
  destruct (rl_settle l t k st open now) as [->|(e & c & Hf & Hs & Ha)]; [done|].
  pose proof Hl as [Hall _]. pose proof (rl_all_find _ _ _ _ _ Hall Hf) as [He Hsub].
  destruct (Hok e Hf) as [H1 H2].
  destruct (settled_measures now e st open c He H1 H2) as (? & ? & ?).
  apply (ledger_shrink l); [done | by apply Ha | rewrite Hs; lia..].
Qed.

Lemma ledger_reserve up l now g' k n who l' r :
  sane_limits (g_Limits g) -> sane_order n ->
  (g_TenantID g' = g_TenantID g -> g_GrantID g' = g_GrantID g -> g_Limits g' = g_Limits g) ->
  rv_reserve up l (Some g') k n who now = (l', r) ->
  ledger_ok l now -> ledger_ok l' now.
Proof.
  intros Hlim Hn Hg Hr [Hall Hw].
  destruct (rl_reserve _ _ _ _ _ _ _ _ _ Hr) as [->|(_ & _ & Hs & Ha & Hroom)]; [done|].
  set (e := reserved g' k n who now) in *.
  assert (He : entry_ok now e) by (split; simpl; [apply Hn | lia]).
  assert (Hall' : rl_all (entry_ok now) l') by by apply Ha.
  split; [done|]. destruct (sums_nonneg l' now Hall') as (? & ? & ?).
  destruct (String.eqb (g_TenantID g') (g_TenantID g) &&
            String.eqb (g_GrantID g') (g_GrantID g)) eqn:E.
  - apply andb_true_iff in E as [Et Eg]. apply String.eqb_eq in Et, Eg.
    specialize (Hg Et Eg). rewrite Et, Eg, Hg in Hroom.
    destruct (Hroom Hn Hlim Hw) as (_ & Hr2 & Hr3 & Hr4).
    rewrite !Hs in *.
    pose proof (rolling_bounds now e (proj1 He)). pose proof (daily_bounds now e (proj1 He)).
    pose proof (open_bounds e). change (e_Notional e) with n in *.
    unfold within. split_and!; intros Hpos;
      [specialize (Hr2 Hpos) | specialize (Hr3 Hpos) | specialize (Hr4 Hpos)]; lia.
  - assert (Hc : counted (g_TenantID g) (g_GrantID g) e = false).
    { unfold counted. simpl. by rewrite E. }
    assert (rolling now e = 0 /\ daily now e = 0 /\ opened e = 0) as (E1 & E2 & E3).
    { unfold rolling_part, daily_part, open_part. by rewrite Hc. }
    rewrite !Hs, E1, E2, E3, !Z.add_0_r. done.
Qed.

Lemma ledger_reachable l now :
  sane_limits (g_Limits g) -> Reachable l now -> ledger_ok l now.
Proof.
  intros Hlim. induction 1.
  - split; [apply rl_all_empty|]. rewrite !rl_sum_empty. unfold within. lia.
  - by eapply ledger_tick.
  - by eapply ledger_reserve.
  - by apply ledger_release.
  - by apply ledger_settle.
Qed.
End Ceiling.

(** C7: INV-002, no grant's ceiling is exceeded.  Take a grant whose ceilings are sane and
    stay as issued, and any history of reservations, releases and settlements of a lawful
    ledger, any number of grants interleaved and the storage failing at will, in which the
    clock does not run backwards, no order is larger than 4e18 units, a size for which the
    int64 comparison cannot wrap ([rolling_ceiling_wraps] is what happens beyond), and no
    settlement revives released capacity or opens a closed order again.  Then the exact
    total the ledger counts against the grant in the last hour and in the current day, and
    its open orders, stay within its configured ceilings. *)
Theorem ceiling_never_exceeded {L : Type} `{HR : Reserver L, HL : !ReserverLaws L}
    (g : Grant) (l : L) (now : Time) :
  sane_limits (g_Limits g) -> Reachable g l now ->
  (0 < Rolling1hNotional (g_Limits g) ->
     0 <= rl_sum (rolling_part (g_TenantID g) (g_GrantID g) now) l
       <= Rolling1hNotional (g_Limits g)) /\
  (0 < DailyNotional (g_Limits g) ->
     0 <= rl_sum (daily_part (g_TenantID g) (g_GrantID g) now) l
       <= DailyNotional (g_Limits g)) /\
  (0 < MaxOpenOrders (g_Limits g) ->
     0 <= rl_sum (open_part (g_TenantID g) (g_GrantID g)) l <= MaxOpenOrders (g_Limits g)).
Proof.
  intros Hlim Hr. destruct (ledger_reachable g l now Hlim Hr) as [_ Hw]. exact Hw.
Qed.

(** A ledger after one accepted order, one refused by the ceiling and a settled one. *)
Definition demo_grant : Grant :=
  mkGrant "grant-1" "tenant-1" "p-1" "acct-1" "agent-1" 0 0 1000000
    [SideBuy] [AssetEquity] [] [] (mkLimits 0 100000000 0 2) StatusActive None "".
Definition demo_id : ReservationIdentity := mkIdentity "env-1" "p-1" "acct-1".
Definition demo_1 : Postgres.Ledger :=
  fst (rv_reserve true rv_empty (Some demo_grant) "k1" 60000000 demo_id 10).
Definition demo_2 : Postgres.Ledger :=
  fst (rv_reserve true demo_1 (Some demo_grant) "k2" 60000000 demo_id 20).
Definition demo_3 : Postgres.Ledger :=
  fst (rv_reserve true demo_2 (Some demo_grant) "k3" 40000000 demo_id 20).
Definition demo_ledger : Postgres.Ledger :=
  rv_settle demo_3 "tenant-1" "k1" StateCommitted false 20.

Lemma reach_reserve_fst {L : Type} `{HR : Reserver L, HL : !ReserverLaws L}
    g up (l : L) t k n who :
  Reachable g l t -> sane_order n ->
  Reachable g (fst (rv_reserve up l (Some g) k n who t)) t.
Proof.
  intros Hl Hn. destruct (rv_reserve _ _ _ _ _ _ _) as [l' r] eqn:E.
  by eapply reach_reserve.
Qed.

Lemma sane_small n : 0 <= n <= 100000000 -> sane_order n.
Proof. unfold sane_order, max_order. lia. Qed.

Lemma demo_reachable : Reachable demo_grant demo_ledger 20.
Proof.
  apply (reach_settle demo_grant demo_3 20); [|].
  { apply reach_reserve_fst; [|apply sane_small; lia].
    apply reach_reserve_fst; [|apply sane_small; lia].
    apply (reach_tick demo_grant _ 10 20); [|lia].
    apply reach_reserve_fst; [apply reach_empty | apply sane_small; lia]. }
  intros e He. change (demo_3 !! ("tenant-1", "k1") = Some e) in He.
  assert (Hs : option_map (fun e => (e_State e, e_Open e)) (demo_3 !! ("tenant-1", "k1")) =
               Some (StateReserved, true)) by (vm_compute; reflexivity).
  rewrite He in Hs. injection Hs as Hs1 Hs2. clear He.
  split; [rewrite Hs1; discriminate | intros _; exact Hs2].
Qed.

Example ceiling_never_exceeded_witness :
  map_sum (rolling_part "tenant-1" "grant-1" 20) demo_ledger = 100000000 /\
  0 <= rl_sum (rolling_part (g_TenantID demo_grant) (g_GrantID demo_grant) 20) demo_ledger
     <= Rolling1hNotional (g_Limits demo_grant).
Proof.
  split; [vm_compute; reflexivity|].
  assert (Hl : sane_limits (g_Limits demo_grant)).
  { unfold sane_limits. cbn. change (parse_limit Scale) with 4611686018427390000.
    unfold max_int64. lia. }
  exact (proj1 (ceiling_never_exceeded (L := Postgres.Ledger) demo_grant demo_ledger 20 Hl
    demo_reachable) eq_refl).
Defined.

(** Outside that range the ceiling does not hold: [checkLimits] adds the order
    to what is consumed in wrapping int64 arithmetic, so under a grant that caps
    only the rolling hour at 10,000 an order of 922,337,203,685,477.5806 is allowed
    once one unit of currency has been consumed, where the same order is refused on
    an empty ledger. *)
Theorem rolling_ceiling_wraps :
  let huge := NotionalOf 4611686018427387903 (2 * unitsPerQuantity) in
  let '(l1, _) := Postgres.Reserve true ∅ (Some demo_grant) "k1" 10000 demo_id 10 in
  Parse "461168601842738.7903" = Ok 4611686018427387903 /\
  Rolling1hNotional (g_Limits demo_grant) < huge /\
  snd (Postgres.Reserve true ∅ (Some demo_grant) "k2" huge demo_id 20) =
    Ok (deny (Some demo_grant) 20 "ROLLING_LIMIT_EXCEEDED") /\
  snd (Postgres.Reserve true l1 (Some demo_grant) "k2" huge demo_id 20) =
    Ok (allow demo_grant 20).
Proof. vm_compute. done. Qed.

(** * A key holds one economic request *)

Lemma sameAmount_iff held n :
  0 <= held < parse_limit Scale ->
  Postgres.sameAmount (Postgres.numeric_text held) n = (held =? n).
Proof. intros H. unfold Postgres.sameAmount. by rewrite numeric_text_readable. Qed.

Lemma mismatch_iff held g n who :
  0 <= e_Notional held < parse_limit Scale ->
  Postgres.mismatch held g n who = negb (same_request held g n who).
Proof.
  intros H. unfold Postgres.mismatch, same_request. rewrite sameAmount_iff by done.
  by repeat destruct (String.eqb _ _).
Qed.

(** The database reservation, on every path.  Without storage it denies.  A key
    already held is allowed exactly when grant, envelope, principal, account and
    amount are all those it was reserved for, and is otherwise refused as reused;
    either way nothing is written.  A fresh key is admitted exactly when the
    ceilings have room for it, and only then is a row written. *)
Theorem Reserve_decides (up : bool) (m : Postgres.Ledger) (g : Grant) (k : string)
    (n : Amount) (who : ReservationIdentity) (at_ : Time) :
  (forall e, m !! (g_TenantID g, k) = Some e -> 0 <= e_Notional e < parse_limit Scale) ->
  let usage := Postgres.query m (g_TenantID g) (g_GrantID g) at_ in
  let '(m', r) := Postgres.Reserve up m (Some g) k n who at_ in
  (forall d, r = Ok d ->
    (d_Allowed d = true <->
       up = true /\
       ((exists e, m !! (g_TenantID g, k) = Some e /\ same_request e g n who = true) \/
        (m !! (g_TenantID g, k) = None /\ 0 <= n /\
         exists c, usage = Ok c /\ checkLimits (g_Limits g) c n = ""))) /\
    (m !! (g_TenantID g, k) = None -> d_Allowed d = true ->
       m' = <[(g_TenantID g, k) := reserved g k n who at_]> m) /\
    (m !! (g_TenantID g, k) <> None \/ d_Allowed d = false -> m' = m)) /\
  is_ok r = true.
Proof.
  intros Hheld. unfold Postgres.Reserve. cbv zeta.
  destruct up; cbn [negb]; [|split; [|done]; intros d [= <-]; cbn; intuition congruence].
  destruct (m !! _) as [e|] eqn:Hk.
  - rewrite mismatch_iff by auto.
    destruct (same_request e g n who) eqn:Es; cbn [negb]; (split; [|done]);
      intros d [= <-]; cbn; split_and!; try done; split; try done; try congruence; eauto.
    intros (_ & [(? & [= <-] & ?)|(? & _)]); congruence.
  - destruct (Postgres.query _ _ _ _) as [c|x] eqn:Hq.
    + destruct (str_nonempty _) eqn:Hc; [|apply str_nonempty_false in Hc;
        destruct (Z.ltb_spec n 0)];
        (split; [|done]); intros d [= <-]; cbn; split_and!; try done; try (split; [done|]);
        try (intros (_ & [(? & ? & _)|(_ & ? & c' & [= <-] & Hc')]); try done; try lia).
      * by rewrite Hc' in Hc.
      * split; [|done]. intros _. split; [done|]. right. eauto 6.
      * by intros [?|?].
    + split; [|done]. intros d [= <-]. cbn. split_and!; try done. split; [done|].
      by intros (_ & [(? & ? & _)|(_ & _ & c' & ? & _)]).
Qed.

Example Reserve_decides_witness :
  snd (Postgres.Reserve true demo_ledger (Some demo_grant) "k1" 60000000 demo_id 30) =
    Ok (allow demo_grant 30) /\
  fst (Postgres.Reserve true demo_ledger (Some demo_grant) "k1" 60000000 demo_id 30) =
    demo_ledger.
Proof.
  split; [vm_compute; reflexivity|].
  pose proof (Reserve_decides true demo_ledger demo_grant "k1" 60000000 demo_id 30) as H.
  destruct (Postgres.Reserve _ _ _ _ _ _ _) as [m' r] eqn:E.
  assert (Hr : r = Ok (allow demo_grant 30)).
  { change r with (snd (m', r)). rewrite <- E. vm_compute. reflexivity. }
  refine (proj2 (proj2 (proj1 (H _) _ Hr)) _).
  - intros e He.
    assert (Hs : e_Notional <$> (demo_ledger !! ("tenant-1", "k1")) = Some 60000000)
      by (vm_compute; reflexivity).
    cbn [g_TenantID demo_grant] in He. rewrite He in Hs. injection Hs as ->. vm_compute.
    split; [discriminate | reflexivity].
  - left. vm_compute. discriminate.
Defined.

(** * The in-process ledger answers as the database does *)

Lemma usageKey_inj t1 k1 t2 k2 :
  nul_free t1 = true -> nul_free t2 = true ->
  Memory.usageKey t1 k1 = Memory.usageKey t2 k2 -> t1 = t2 /\ k1 = k2.
Proof. apply nul_join_inj. Qed.

(** Entries up to the closing instant, which the two ledgers keep differently:
    the database clears it on reopening and stamps it in Close. *)
Definition undated (e : Entry) : Entry := set_open e (e_Open e) None.

Record agree (M : Memory.Ledger) (P : Postgres.Ledger) : Prop := {
  ag_key t k : nul_free t = true ->
    undated <$> (M !! Memory.usageKey t k) = undated <$> (P !! (t, k));
  ag_mem x e : M !! x = Some e -> exists t k, nul_free t = true /\ x = Memory.usageKey t k;
  ag_pg t k e : P !! (t, k) = Some e -> nul_free t = true
}.

Lemma agree_empty : agree ∅ ∅.
Proof. split; intros *; rewrite ?lookup_empty; done. Qed.

Lemma agree_insert M P t k e e' :
  agree M P -> nul_free t = true -> undated e = undated e' ->
  agree (<[Memory.usageKey t k := e]> M) (<[(t, k) := e']> P).
Proof.
  intros [A1 A2 A3] Ht He. split.
  - intros t' k' Ht'. destruct (decide ((t, k) = (t', k'))) as [Heq|Hne].
    + injection Heq as <- <-. rewrite !lookup_insert_eq. simpl. by rewrite He.
    + rewrite !lookup_insert_ne; [by apply A1 | done |].
      intros Heq. apply usageKey_inj in Heq as [-> ->]; done.
  - intros x e0. destruct (decide (Memory.usageKey t k = x)) as [<-|]; [by eauto|].
    rewrite lookup_insert_ne by done. apply A2.
  - intros t' k' e0. destruct (decide ((t, k) = (t', k'))) as [[= <- <-]|]; [done|].
    rewrite lookup_insert_ne by done. apply A3.
Qed.

Lemma agree_delete M P t k :
  agree M P -> nul_free t = true -> agree (delete (Memory.usageKey t k) M) (delete (t, k) P).
Proof.
  intros [A1 A2 A3] Ht. split.
  - intros t' k' Ht'. destruct (decide ((t, k) = (t', k'))) as [Heq|Hne].
    + injection Heq as <- <-. by rewrite !lookup_delete_eq.
    + rewrite !lookup_delete_ne; [by apply A1 | done |].
      intros Heq. apply usageKey_inj in Heq as [-> ->]; done.
  - intros x e [_ Hx]%lookup_delete_Some. by eapply A2.
  - intros t' k' e [_ Hx]%lookup_delete_Some. by eapply A3.
Qed.

Lemma agree_sum f M P :
  (forall e, f (undated e) = f e) -> agree M P -> map_sum f M = map_sum f P.
Proof.
  intros Hf. revert M. induction P as [|[t k] e P Hk IH] using map_ind; intros M HA.
  - assert (M = ∅) as ->; [|by rewrite !map_sum_empty].
    apply map_empty. intros x. destruct (M !! x) as [e|] eqn:Hx; [|done].
    destruct (ag_mem _ _ HA x e Hx) as (t & k & Ht & ->).
    pose proof (ag_key _ _ HA t k Ht) as Hkey. by rewrite Hx, lookup_empty in Hkey.
  - assert (Ht : nul_free t = true) by (eapply (ag_pg _ _ HA t k); apply lookup_insert_eq).
    pose proof (ag_key _ _ HA t k Ht) as Hkey. rewrite lookup_insert_eq in Hkey.
    destruct (M !! Memory.usageKey t k) as [e'|] eqn:Hm; [|done]. simpl in Hkey.
    rewrite map_sum_insert_new by done.
    pose proof (map_sum_delete f M _ _ Hm).
    assert (Hd : agree (delete (Memory.usageKey t k) M) (delete (t, k) (<[(t, k) := e]> P)))
      by by apply agree_delete.
    rewrite delete_insert_id in Hd by done. rewrite <- (IH _ Hd).
    assert (f e' = f e) by (rewrite <- (Hf e), <- (Hf e'); congruence). lia.
Qed.

(** ** Operations and what a caller sees of them *)

Inductive lop :=
| LReserve (g : Grant) (k : string) (n : Amount) (who : ReservationIdentity) (at_ : Time)
| LRelease (t k : string)
| LSettle (t k : string) (st : ReservationState) (open : bool) (at_ : Time)
| LUsage (t grant : string) (now : Time).

Inductive lanswer :=
| ADecision (r : result Decision string)
| ADone
| ASnapshot (r : result Snapshot string).

Definition lstep {L} `{Reserver L} (l : L) (op : lop) : L * lanswer :=
  match op with
  | LReserve g k n who at_ =>
      let '(l', r) := rv_reserve true l (Some g) k n who at_ in (l', ADecision r)
  | LRelease t k => (rv_release l t k, ADone)
  | LSettle t k st open at_ => (rv_settle l t k st open at_, ADone)
  | LUsage t gr now => (l, ASnapshot (rv_usage true l t gr now))
  end.

Fixpoint lrun {L} `{Reserver L} (l : L) (ops : list lop) : list lanswer :=
  match ops with
  | [] => []
  | op :: ops' => let '(l', a) := lstep l op in a :: lrun l' ops'
  end.

Definition lop_tenant (op : lop) : string :=
  match op with
  | LReserve g _ _ _ _ => g_TenantID g
  | LRelease t _ | LSettle t _ _ _ _ | LUsage t _ _ => t
  end.

Definition lop_cost (op : lop) : Z :=
  match op with LReserve _ _ n _ _ => n + 1 | _ => 0 end.

Definition lop_ok (op : lop) : Prop :=
  nul_free (lop_tenant op) = true /\ 1 <= lop_cost op + match op with
    LReserve _ _ _ _ _ => 0 | _ => 1 end.

Fixpoint requested (ops : list lop) : Z :=
  match ops with [] => 0 | op :: ops' => lop_cost op + requested ops' end.

(** What an entry weighs in the budget: its amount, and one open order. *)
Definition weight (e : Entry) : Z := e_Notional e + 1.

Record in_step (M : Memory.Ledger) (P : Postgres.Ledger) (budget : Z) : Prop := {
  is_agree : agree M P;
  is_nonneg : map_all (fun e => 0 <= e_Notional e) P;
  is_budget : map_sum weight P + budget < parse_limit Scale
}.

Section InStep.
Context (M : Memory.Ledger) (P : Postgres.Ledger) (budget : Z).
Hypothesis HS : in_step M P budget.
Hypothesis Hb : 0 <= budget.

Lemma map_sum_lookup_le f k e :
  map_all (fun e => 0 <= f e) P -> P !! k = Some e -> 0 <= f e <= map_sum f P.
Proof.
  intros Hf Hk. split; [by eapply Hf|]. pose proof (map_sum_delete f P k e Hk).
  enough (0 <= map_sum f (delete k P)) by lia.
  apply map_sum_nonneg. intros k' v [_ Hv]%lookup_delete_Some. by eapply Hf.
Qed.

Lemma held_small k e : P !! k = Some e -> 0 <= e_Notional e < parse_limit Scale.
Proof.
  intros Hk. destruct HS as [_ Hn Hw].
  assert (map_all (fun e => 0 <= weight e) P).
  { eapply map_all_impl; [|exact Hn]. unfold weight. intros. cbn in *. lia. }
  pose proof (map_sum_lookup_le weight k e ltac:(done) Hk). unfold weight in *.
  pose proof (Hn k e Hk). cbn in *. lia.
Qed.

Lemma part_small f :
  (forall e, 0 <= e_Notional e -> 0 <= f e <= weight e) ->
  0 <= map_sum f P < parse_limit Scale.
Proof.
  intros Hf. destruct HS as [_ Hn Hw]. split.
  - apply map_sum_nonneg. intros k v Hk. apply Hf. by eapply Hn.
  - enough (map_sum f P <= map_sum weight P) by lia.
    apply map_sum_le. intros k v Hk. apply Hf. by eapply Hn.
Qed.

Lemma snapshots_agree t gr now :
  Postgres.query P t gr now = Ok (Memory.snapshot M t gr now).
Proof.
  pose proof (is_agree _ _ _ HS) as HA. unfold Memory.snapshot, Postgres.query.
  rewrite !map_sum64_wrap.
  rewrite !(agree_sum _ M P) by done.
  assert (Hr : 0 <= map_sum (rolling_part t gr now) P < parse_limit Scale).
  { apply part_small. unfold weight, rolling_part. intros. destruct (_ && _); lia. }
  assert (Hd : 0 <= map_sum (daily_part t gr now) P < parse_limit Scale).
  { apply part_small. unfold weight, daily_part. intros. destruct (_ && _); lia. }
  assert (Ho : 0 <= map_sum (open_part t gr) P < parse_limit Scale).
  { apply part_small. unfold weight, open_part. intros. destruct (_ && _); lia. }
  rewrite !numeric_text_readable by done.
  change (parse_limit Scale) with 4611686018427390000 in *.
  rewrite !wrap64_id by int64_lia. done.
Qed.

(** The two tables hold the same entry under a key, or none. *)
Lemma lookups_agree t k :
  nul_free t = true ->
  match M !! Memory.usageKey t k, P !! (t, k) with
  | Some e, Some e' => undated e = undated e'
  | None, None => True
  | _, _ => False
  end.
Proof.
  intros Ht. pose proof (ag_key _ _ (is_agree _ _ _ HS) t k Ht) as H.
  destruct (M !! _), (P !! _); simpl in H; congruence || done.
Qed.

Lemma in_step_reserve g k n who at_ :
  nul_free (g_TenantID g) = true -> 0 <= n -> n + 1 <= budget ->
  snd (Memory.Reserve M (Some g) k n who at_) =
    snd (Postgres.Reserve true P (Some g) k n who at_) /\
  in_step (fst (Memory.Reserve M (Some g) k n who at_))
    (fst (Postgres.Reserve true P (Some g) k n who at_)) (budget - (n + 1)).
Proof.
  intros Ht Hn Hc. destruct HS as [HA Hnn Hw].
  assert (Hkeep : in_step M P (budget - (n + 1))) by (split; [done..|lia]).
  pose proof (lookups_agree (g_TenantID g) k Ht) as Hl.
  unfold Memory.Reserve, Postgres.Reserve. cbn [negb].
  destruct (M !! _) as [e|] eqn:Hm, (P !! _) as [e'|] eqn:Hp; try done.
  - rewrite mismatch_iff by by eapply held_small.
    assert (same_request e g n who = same_request e' g n who) as ->.
    { change (same_request e g n who) with (same_request (undated e) g n who).
      by rewrite Hl. }
    by destruct (same_request e' g n who).
  - rewrite snapshots_agree. destruct (str_nonempty _); [done|].
    destruct (Z.ltb_spec n 0); [lia|]. cbn [fst snd]. split; [done|]. split.
    + by apply agree_insert.
    + by apply map_all_insert.
    + rewrite map_sum_insert_new by done. unfold weight at 1. simpl. lia.
Qed.

Lemma in_step_release t k :
  nul_free t = true -> in_step (Memory.Release M t k) (Postgres.Release P t k) budget.
Proof.
  intros Ht. pose proof (lookups_agree t k Ht) as Hl.
  unfold Memory.Release, Postgres.Release.
  destruct (M !! _) as [e|] eqn:Hm, (P !! _) as [e'|] eqn:Hp; try done.
  assert (e_State e = e_State e') as ->.
  { change (e_State (undated e) = e_State (undated e')). by rewrite Hl. }
  destruct (bool_decide _); [|done]. destruct HS as [HA Hnn Hw]. split.
  - by apply agree_delete.
  - by apply map_all_delete.
  - rewrite (map_sum_delete weight P _ _ Hp). unfold weight at 2.
    pose proof (Hnn _ _ Hp). cbn in *. lia.
Qed.

Lemma in_step_settle t k st open at_ :
  nul_free t = true ->
  in_step (Memory.Settle M t k st open at_) (Postgres.Settle P t k st open at_) budget.
Proof.
  intros Ht. pose proof (lookups_agree t k Ht) as Hl.
  unfold Memory.Settle, Postgres.Settle.
  destruct (M !! _) as [e|] eqn:Hm, (P !! _) as [e'|] eqn:Hp; try done.
  destruct HS as [HA Hnn Hw]. split.
  - apply agree_insert; [done..|]. destruct e, e'. unfold undated, set_settled, set_open in *.
    simpl in *. by injection Hl as -> -> -> -> -> -> -> -> -> ->.
  - apply map_all_insert; [|done]. simpl. by eapply Hnn.
  - rewrite (map_sum_update weight P _ e') by done. unfold weight in *. simpl. lia.
Qed.
End InStep.

Lemma lrun_agree ops : forall M P,
  Forall lop_ok ops -> in_step M P (requested ops) -> lrun M ops = lrun P ops.
Proof.
  induction ops as [|op ops IH]; intros M P Hok HS; [done|].
  inversion Hok as [|? ? [Ht Hop] Hok']; subst. cbn [lrun].
  assert (Hreq : 0 <= requested ops).
  { clear -Hok'. induction Hok' as [|o os [_ Ho] _ IHo]; simpl; [lia|]. destruct o; simpl in *; lia. }
  assert (Hb : 0 <= requested (op :: ops)) by (simpl; destruct op; simpl in *; lia).
  destruct op; cbn [lop_cost lop_tenant requested] in *.
  - destruct (in_step_reserve M P _ HS Hb g k n who at_) as [Ha Hs]; [done | lia | lia |].
    cbn [lstep rv_reserve memory_reserver postgres_reserver].
    destruct (Memory.Reserve _ _ _ _ _ _) as [M' r].
    destruct (Postgres.Reserve _ _ _ _ _ _ _) as [P' r']. cbn in Ha, Hs. subst r'.
    f_equal. apply IH; [done|].
    by replace (n + 1 + requested ops - (n + 1)) with (requested ops) in Hs by lia.
  - cbn [lstep rv_release memory_reserver postgres_reserver]. f_equal. apply IH; [done|].
    by apply (in_step_release M P).
  - cbn [lstep rv_settle memory_reserver postgres_reserver]. f_equal. apply IH; [done|].
    by apply (in_step_settle M P).
  - cbn [lstep rv_usage memory_reserver postgres_reserver]. unfold Memory.Usage, Postgres.Usage. rewrite (snapshots_agree M P _ HS Hb).
    f_equal. by apply IH.
Qed.

(** C32: The in-process ledger is a refinement of the database one: over any
    sequence of reservations, releases, settlements and usage queries, for tenants
    without a NUL byte and a total requested within the parser's range, the two
    give the same decisions and the same sums at every step, although one keys a
    map by a joined string and adds in int64, and the other sums exact numerics
    that travel as text. *)
Theorem memory_refines_postgres (ops : list lop) :
  Forall lop_ok ops -> requested ops < parse_limit Scale ->
  lrun (L := Memory.Ledger) rv_empty ops = lrun (L := Postgres.Ledger) rv_empty ops.
Proof.
  intros Hok Hreq. apply lrun_agree; [done|]. split.
  - apply agree_empty.
  - apply map_all_empty.
  - change (map_sum weight (∅ : Postgres.Ledger) + requested ops < parse_limit Scale).
    rewrite map_sum_empty. lia.
Qed.

Definition demo_ops : list lop :=
  [LReserve demo_grant "k1" 60000000 demo_id 10; LReserve demo_grant "k2" 60000000 demo_id 20;
   LReserve demo_grant "k1" 60000000 demo_id 25; LSettle "tenant-1" "k1" StateReleased false 30;
   LReserve demo_grant "k2" 60000000 demo_id 40; LUsage "tenant-1" "grant-1" 50].

Example memory_refines_postgres_witness :
  lrun (L := Memory.Ledger) ∅ demo_ops =
    [ADecision (Ok (allow demo_grant 10));
     ADecision (Ok (deny (Some demo_grant) 20 "ROLLING_LIMIT_EXCEEDED"));
     ADecision (Ok (allow demo_grant 25)); ADone; ADecision (Ok (allow demo_grant 40));
     ASnapshot (Ok (mkSnapshot 60000000 60000000 1))] /\
  lrun (L := Memory.Ledger) rv_empty demo_ops = lrun (L := Postgres.Ledger) rv_empty demo_ops.
Proof.
  split; [vm_compute; reflexivity|]. apply (memory_refines_postgres demo_ops).
  - repeat constructor; cbn; lia.
  - vm_compute. reflexivity.
Defined.
