(* ===== verification/Broker.v ===== *)
(** The venue boundary: internal/broker/adapter.go, and the deterministic venue
    adapters/fakebroker/fakebroker.go as an implementation of it.

    [Adapter] is the part of the Go interface the enforcement path calls.  A venue's
    float64 values are IEEE binary64 numbers ([SpecFloat]).  A [Context] is what
    [ctx.Err()] answers.  Errors keep the sentinel they wrap. *)

From Stdlib Require Import SpecFloat.
From S2P Require Import Prelude Money Intent.

Abbreviation ExecutionState := string.
Definition StateUnknown : ExecutionState := "UNKNOWN".
Definition StateAccepted : ExecutionState := "ACCEPTED".
Definition StateRejected : ExecutionState := "REJECTED".
Definition StatePartiallyFilled : ExecutionState := "PARTIALLY_FILLED".
Definition StateFilled : ExecutionState := "FILLED".
Definition StateCancelled : ExecutionState := "CANCELLED".
Definition StateExpired : ExecutionState := "EXPIRED".

Definition Terminal (s : ExecutionState) : bool :=
  contains [StateFilled; StateRejected; StateCancelled; StateExpired] s.

(** * Floating point *)

Abbreviation float64 := spec_float.
Definition f64_of_Z (z : Z) : float64 := binary_normalize 53 1024 z 0 false.
Definition f64_mul : float64 -> float64 -> float64 := SFmul 53 1024.
Definition f64_div : float64 -> float64 -> float64 := SFdiv 53 1024.
Definition f64_ltb : float64 -> float64 -> bool := SFltb.
Definition f64_zero : float64 := S754_zero false.

#[global] Instance float64_eq_dec : EqDecision float64.
Proof. solve_decision. Defined.

Definition Amount_Float (a : Amount) : float64 :=
  f64_div (f64_of_Z a) (f64_of_Z unitsPerCurrency).
Definition Quantity_Float (q : Quantity) : float64 :=
  f64_div (f64_of_Z q) (f64_of_Z unitsPerQuantity).

(** * Orders *)

Record Fill := mkFill {
  fl_FillID : string;
  fl_Quantity : float64;
  fl_Price : float64;
  fl_OccurredAt : Time
}.

Record BrokerOrder := mkBrokerOrder {
  bo_ClientOrderID : string;
  bo_BrokerOrderID : string;
  bo_State : ExecutionState;
  bo_FilledQuantity : float64;
  bo_AverageFillPrice : float64;
  bo_Fills : list Fill;
  bo_SubmittedAt : Time;
  bo_UpdatedAt : Time;
  bo_RejectReason : string
}.

Record OrderRequest := mkOrderRequest {
  or_ClientOrderID : string;
  or_TenantID : string;
  or_InstrumentID : string;
  or_Symbol : string;
  or_AssetClass : AssetClass;
  or_Side : Side;
  or_OrderType : OrderType;
  or_Quantity : option Quantity;
  or_Notional : option Amount;
  or_LimitPrice : option Amount;
  or_StopPrice : option Amount;
  or_TimeInForce : string;
  or_ExtendedHours : bool
}.

(** The errors the caller tells apart, by the sentinel they wrap. *)
Inductive BrokerError :=
| ErrTimeout
| ErrOrderNotFound
| ErrUnsupported (reason : string)
| ErrVenue (reason : string).

#[global] Instance BrokerError_eq_dec : EqDecision BrokerError.
Proof. solve_decision. Defined.

Definition BrokerError_text (e : BrokerError) : string :=
  match e with
  | ErrTimeout => "broker did not respond in time; outcome is unknown"
  | ErrOrderNotFound => "broker has no such order"
  | ErrUnsupported r => "broker does not support this request" +:+ ": " +:+ r
  | ErrVenue r => r
  end.

Abbreviation Context := (option string).

Class Adapter (V : Type) := {
  ad_SubmitOrder : V -> Context -> Time -> OrderRequest -> V * result BrokerOrder BrokerError;
  ad_Reconcile : V -> Context -> string -> V * result BrokerOrder BrokerError
}.

(** * The deterministic venue *)

Module FakeBroker.
Abbreviation Fault := string.
Definition FaultNone : Fault := "".
Definition FaultTimeoutBeforeReceipt : Fault := "TIMEOUT_BEFORE_RECEIPT".
Definition FaultTimeoutAfterReceipt : Fault := "TIMEOUT_AFTER_RECEIPT".
Definition FaultReject : Fault := "REJECT".
Definition FaultPartialFill : Fault := "PARTIAL_FILL".
Definition FaultFillAfterLocalTimeout : Fault := "FILL_AFTER_LOCAL_TIMEOUT".
Definition FaultStaleStatus : Fault := "STALE_STATUS".
Definition FaultUnreconcilable : Fault := "UNRECONCILABLE".
Definition FaultCancelRace : Fault := "CANCEL_RACE".
Definition FaultExpire : Fault := "EXPIRE".

Record Broker := mkBroker {
  fb_orders : gmap string BrokerOrder;
  fb_faults : gmap string Fault;
  fb_submissions : gmap string Z;
  fb_seq : Z
}.

Definition New : Broker := mkBroker ∅ ∅ ∅ 0.

Definition InjectFault (b : Broker) (clientOrderID : string) (f : Fault) : Broker :=
  mkBroker (fb_orders b) (<[clientOrderID := f]> (fb_faults b)) (fb_submissions b) (fb_seq b).

Definition Submissions (b : Broker) (clientOrderID : string) : Z :=
  default 0 (fb_submissions b !! clientOrderID).

Definition applyFill (order : BrokerOrder) (req : OrderRequest) (fraction : float64)
    (now : Time) : BrokerOrder :=
  let qty := match or_Quantity req with
             | Some q => Quantity_Float q | None => f64_of_Z 100 end in
  let filled := f64_mul qty fraction in
  let price := match or_LimitPrice req with
               | Some p => Amount_Float p | None => f64_of_Z 100 end in
  let fill := mkFill ("fill-" +:+ bo_ClientOrderID order +:+ "-" +:+
                      itoa (Z.of_nat (length (bo_Fills order)) + 1)) filled price now in
  mkBrokerOrder (bo_ClientOrderID order) (bo_BrokerOrderID order) (bo_State order)
    filled price (bo_Fills order ++ [fill]) (bo_SubmittedAt order) (bo_UpdatedAt order)
    (bo_RejectReason order).

Definition with_state (o : BrokerOrder) (st : ExecutionState) (reason : string)
    : BrokerOrder :=
  mkBrokerOrder (bo_ClientOrderID o) (bo_BrokerOrderID o) st (bo_FilledQuantity o)
    (bo_AverageFillPrice o) (bo_Fills o) (bo_SubmittedAt o) (bo_UpdatedAt o) reason.

(** The order a fault makes of an accepted one: the [switch fault]. *)
Definition faulted (fault : Fault) (order : BrokerOrder) (req : OrderRequest) (now : Time)
    : BrokerOrder :=
  if String.eqb fault FaultReject then
    with_state order StateRejected "insufficient buying power"
  else if String.eqb fault FaultPartialFill then
    applyFill (with_state order StatePartiallyFilled "") req
      (f64_div (f64_of_Z 4) (f64_of_Z 10)) now
  else if String.eqb fault FaultFillAfterLocalTimeout then
    applyFill (with_state order StateFilled "") req (f64_of_Z 1) now
  else if String.eqb fault FaultExpire then with_state order StateExpired ""
  else order.

Definition SubmitOrder (b : Broker) (ctx : Context) (now : Time) (req : OrderRequest)
    : Broker * result BrokerOrder BrokerError :=
  match ctx with
  | Some e => (b, Err (ErrVenue e))
  | None =>
      let id := or_ClientOrderID req in
      if String.eqb id "" then (b, Err (ErrUnsupported "client order id is required")) else
      let b := mkBroker (fb_orders b) (fb_faults b)
                 (<[id := Submissions b id + 1]> (fb_submissions b)) (fb_seq b) in
      let fault := default FaultNone (fb_faults b !! id) in
      match fb_orders b !! id with
      | Some existing =>
          if String.eqb fault FaultTimeoutAfterReceipt ||
             String.eqb fault FaultTimeoutBeforeReceipt
          then (b, Err ErrTimeout)
          else (b, Ok existing)
      | None =>
          if String.eqb fault FaultTimeoutBeforeReceipt then (b, Err ErrTimeout) else
          let seq := fb_seq b + 1 in
          let order := mkBrokerOrder id ("fake-" +:+ fmt_0d 6 seq) StateAccepted f64_zero
                         f64_zero [] now now "" in
          let order := faulted fault order req now in
          let b := mkBroker (<[id := order]> (fb_orders b)) (fb_faults b)
                     (fb_submissions b) seq in
          if String.eqb fault FaultTimeoutAfterReceipt ||
             String.eqb fault FaultFillAfterLocalTimeout ||
             String.eqb fault FaultUnreconcilable
          then (b, Err ErrTimeout)
          else (b, Ok order)
      end
  end.

Definition GetOrder (b : Broker) (ctx : Context) (clientOrderID : string)
    : result BrokerOrder BrokerError :=
  match ctx with
  | Some e => Err (ErrVenue e)
  | None =>
      let fault := default FaultNone (fb_faults b !! clientOrderID) in
      if String.eqb fault FaultUnreconcilable then Err ErrTimeout else
      match fb_orders b !! clientOrderID with
      | None => Err ErrOrderNotFound
      | Some order =>
          if String.eqb fault FaultStaleStatus then
            Ok (mkBrokerOrder (bo_ClientOrderID order) (bo_BrokerOrderID order) StateAccepted
                  f64_zero (bo_AverageFillPrice order) [] (bo_SubmittedAt order)
                  (bo_UpdatedAt order) (bo_RejectReason order))
          else Ok order
      end
  end.

Definition Reconcile (b : Broker) (ctx : Context) (clientOrderID : string)
    : result BrokerOrder BrokerError := GetOrder b ctx clientOrderID.

Definition touch (o : BrokerOrder) (st : ExecutionState) (now : Time) : BrokerOrder :=
  mkBrokerOrder (bo_ClientOrderID o) (bo_BrokerOrderID o) st (bo_FilledQuantity o)
    (bo_AverageFillPrice o) (bo_Fills o) (bo_SubmittedAt o) now (bo_RejectReason o).

Definition CancelOrder (b : Broker) (ctx : Context) (now : Time) (clientOrderID : string)
    : Broker * result unit BrokerError :=
  let put o := mkBroker (<[clientOrderID := o]> (fb_orders b)) (fb_faults b)
                 (fb_submissions b) (fb_seq b) in
  match ctx with
  | Some e => (b, Err (ErrVenue e))
  | None =>
      match fb_orders b !! clientOrderID with
      | None => (b, Err ErrOrderNotFound)
      | Some order =>
          if String.eqb (default FaultNone (fb_faults b !! clientOrderID)) FaultCancelRace then
            (put (touch order StateFilled now), Err (ErrUnsupported "order already filled"))
          else if Terminal (bo_State order) then
            (b, Err (ErrUnsupported ("order is " +:+ bo_State order)))
          else (put (touch order StateCancelled now), Ok ())
      end
  end.
End FakeBroker.

#[export] Instance fakebroker_adapter : Adapter FakeBroker.Broker := {
  ad_SubmitOrder := FakeBroker.SubmitOrder;
  ad_Reconcile b ctx id := (b, FakeBroker.Reconcile b ctx id)
}.

(** ** What the venue keeps *)

(** Every order is filed under its own client order id, in a state the core knows. *)
Definition order_filed (b : FakeBroker.Broker) : Prop :=
  forall id o, FakeBroker.fb_orders b !! id = Some o -> bo_ClientOrderID o = id.

Lemma faulted_id fault o req now :
  bo_ClientOrderID (FakeBroker.faulted fault o req now) = bo_ClientOrderID o.
Proof.
  unfold FakeBroker.faulted. by repeat destruct (String.eqb _ _).
Qed.

(** The submission either touches no order, or files exactly one new order under
    its own id; whatever was there stays as it is. *)
Lemma SubmitOrder_orders b ctx now req b' r :
  FakeBroker.SubmitOrder b ctx now req = (b', r) ->
  FakeBroker.fb_orders b' = FakeBroker.fb_orders b \/
  (FakeBroker.fb_orders b !! or_ClientOrderID req = None /\
   exists o, bo_ClientOrderID o = or_ClientOrderID req /\
     FakeBroker.fb_orders b' = <[or_ClientOrderID req := o]> (FakeBroker.fb_orders b) /\
     (r = Ok o \/ r = Err ErrTimeout)).
Proof.
  unfold FakeBroker.SubmitOrder. destruct ctx; [intros [= <- <-]; by left|].
  destruct (String.eqb _ ""); [intros [= <- <-]; by left|]. cbn [FakeBroker.fb_orders].
  destruct (FakeBroker.fb_orders b !! _) eqn:E; [destruct (_ || _); intros [= <- <-]; by left|].
  destruct (String.eqb _ FakeBroker.FaultTimeoutBeforeReceipt);
    [intros [= <- <-]; by left|]. cbn [FakeBroker.fb_faults FakeBroker.fb_seq].
  destruct (_ || _); intros [= <- <-]; right; (split; [done|]); eexists;
    (split; [|split; [reflexivity|auto]]); by rewrite faulted_id.
Qed.

(** What the deterministic venue does with one submission.  The attempt is
    counted once whatever happens to it; an order already filed under the id is
    neither replaced nor duplicated; no other order changes; every order stays
    under its own id; an order that is answered is the one filed; and after a lost
    answer, reconciliation finds the order exactly when the venue filed it. *)
Theorem SubmitOrder_contract (b : FakeBroker.Broker) (now : Time) (req : OrderRequest) :
  order_filed b -> or_ClientOrderID req <> "" ->
  let id := or_ClientOrderID req in
  let '(b', r) := FakeBroker.SubmitOrder b None now req in
  FakeBroker.Submissions b' id = FakeBroker.Submissions b id + 1 /\
  (forall o, FakeBroker.fb_orders b !! id = Some o -> FakeBroker.fb_orders b' !! id = Some o) /\
  (forall id', id' <> id -> FakeBroker.fb_orders b' !! id' = FakeBroker.fb_orders b !! id') /\
  order_filed b' /\
  (forall o, r = Ok o -> FakeBroker.fb_orders b' !! id = Some o) /\
  (FakeBroker.Reconcile b' None id = Err ErrOrderNotFound <->
   FakeBroker.fb_orders b' !! id = None /\
   FakeBroker.fb_faults b' !! id <> Some FakeBroker.FaultUnreconcilable).
Proof.
  intros Hf Hid. cbv zeta. destruct (FakeBroker.SubmitOrder b None now req) as [b' r] eqn:E.
  assert (Hcount : FakeBroker.Submissions b' (or_ClientOrderID req) =
                   FakeBroker.Submissions b (or_ClientOrderID req) + 1).
  { unfold FakeBroker.SubmitOrder in E. apply String.eqb_neq in Hid. rewrite Hid in E.
    cbn [FakeBroker.fb_orders FakeBroker.fb_faults FakeBroker.fb_seq] in E.
    repeat inv_match E; injection E as <- <-; unfold FakeBroker.Submissions;
      cbn [FakeBroker.fb_submissions]; by rewrite lookup_insert_eq. }
  assert (Hok : forall o, r = Ok o -> FakeBroker.fb_orders b' !! or_ClientOrderID req = Some o).
  { unfold FakeBroker.SubmitOrder in E. apply String.eqb_neq in Hid. rewrite Hid in E.
    cbn [FakeBroker.fb_orders FakeBroker.fb_faults FakeBroker.fb_seq] in E.
    repeat inv_match E; injection E as <- <-; intros o [= <-];
      cbn [FakeBroker.fb_orders]; rewrite ?lookup_insert_eq; done. }
  split; [done|].
  assert (Hrest : (forall o, FakeBroker.fb_orders b !! or_ClientOrderID req = Some o ->
             FakeBroker.fb_orders b' !! or_ClientOrderID req = Some o) /\
          (forall id', id' <> or_ClientOrderID req ->
             FakeBroker.fb_orders b' !! id' = FakeBroker.fb_orders b !! id') /\
          order_filed b').
  { destruct (SubmitOrder_orders _ _ _ _ _ _ E) as [Heq|(Hn & o & Ho & Heq & _)].
    - unfold order_filed. rewrite Heq. done.
    - rewrite Heq. split_and!.
      + congruence.
      + intros id' Hne. by rewrite lookup_insert_ne.
      + intros id' o'. rewrite Heq. destruct (decide (id' = or_ClientOrderID req)) as [->|Hne].
        * rewrite lookup_insert_eq. by intros [= <-].
        * rewrite lookup_insert_ne by done. apply Hf. }
  destruct Hrest as (H1 & H2 & H3). split_and!; [done..|].
  unfold FakeBroker.Reconcile, FakeBroker.GetOrder.
  destruct (FakeBroker.fb_faults b' !! or_ClientOrderID req) as [f|]; cbn [from_option id];
    [destruct (String.eqb_spec f FakeBroker.FaultUnreconcilable) as [->|Hne]|];
    destruct (FakeBroker.fb_orders b' !! or_ClientOrderID req); cbn;
    try destruct (String.eqb _ _); split; try done; try (intros [? Hne']; congruence);
    intros _; split; congruence.
Qed.

Definition sample_request : OrderRequest :=
  mkOrderRequest "coid-k1" "tenant-1" "instr_1" "ACME" AssetEquity SideBuy OrderLimit
    (Some 150000000) None (Some 500000) None "DAY" false.

Example SubmitOrder_contract_witness :
  let b := FakeBroker.InjectFault FakeBroker.New "coid-k1" FakeBroker.FaultPartialFill in
  let '(b', r) := FakeBroker.SubmitOrder b None 10 sample_request in
  FakeBroker.Submissions b' "coid-k1" = FakeBroker.Submissions b "coid-k1" + 1 /\
  option_map bo_State (FakeBroker.fb_orders b' !! "coid-k1") = Some StatePartiallyFilled.
Proof.
  cbv zeta.
  pose proof (SubmitOrder_contract
    (FakeBroker.InjectFault FakeBroker.New "coid-k1" FakeBroker.FaultPartialFill) 10
    sample_request) as H.
  destruct (FakeBroker.SubmitOrder _ _ _ _) as [b' r] eqn:E. split.
  - apply H; [intros id o Ho; cbn in Ho; by rewrite lookup_empty in Ho | discriminate].
  - change b' with (fst (b', r)). rewrite <- E. vm_compute. reflexivity.
Defined.
