(* ===== verification/Float64.v ===== *)
(** Floating point of the analytical components.

    float64 values are the IEEE binary64 numbers of [SpecFloat]: every operation rounds
    once, to nearest even, as on amd64 (an architecture that fuses a product and a sum
    rounds once for both).  [f64_to_int] is Go's conversion, whose result outside the
    range of int64 is what amd64 gives.  [fmt_fixed] is the fixed-point format of fmt,
    the exact decimal value rounded to nearest, ties to even. *)

From Stdlib Require Import SpecFloat.
From S2P Require Import Prelude Money Broker.

Definition f64_add : float64 -> float64 -> float64 := SFadd 53 1024.
Definition f64_sub : float64 -> float64 -> float64 := SFsub 53 1024.
Definition f64_leb : float64 -> float64 -> bool := SFleb.
Definition f64_eqb : float64 -> float64 -> bool := SFeqb.
Definition f64_abs : float64 -> float64 := SFabs.
Definition f64_opp : float64 -> float64 := SFopp.

(** A decimal literal [n / d] of the source. *)
Definition f64_lit (n d : Z) : float64 := f64_div (f64_of_Z n) (f64_of_Z d).
Definition f64_ratio (n d : Z) : float64 := f64_div (f64_of_Z n) (f64_of_Z d).

Definition is_nan (x : float64) : bool := match x with S754_nan => true | _ => false end.

(** math.Max and math.Min. *)
Definition f64_max (x y : float64) : float64 :=
  match x, y with
  | S754_infinity false, _ | _, S754_infinity false => S754_infinity false
  | S754_nan, _ | _, S754_nan => S754_nan
  | S754_zero s, S754_zero _ => if s then y else x
  | _, _ => if f64_ltb y x then x else y
  end.
Definition f64_min (x y : float64) : float64 :=
  match x, y with
  | S754_infinity true, _ | _, S754_infinity true => S754_infinity true
  | S754_nan, _ | _, S754_nan => S754_nan
  | S754_zero s, S754_zero _ => if s then x else y
  | _, _ => if f64_ltb x y then x else y
  end.

(** The order of sort.Float64s: NaN first. *)
Definition f64_before (x y : float64) : bool := f64_ltb x y || (is_nan x && negb (is_nan y)).

(** The integer part, toward zero. *)
Definition f64_trunc (x : float64) : option Z :=
  match x with
  | S754_zero _ => Some 0
  | S754_finite s m e =>
      let a := if 0 <=? e then Z.pos m * 2 ^ e else Z.pos m / 2 ^ (- e) in
      Some (if s then - a else a)
  | _ => None
  end.

Definition f64_to_int (x : float64) : Z :=
  match f64_trunc x with
  | Some z => if in_int64b z then z else min_int64
  | None => min_int64
  end.

Definition f64_is_integral (x : float64) : bool :=
  match x with
  | S754_finite _ m e => (0 <=? e) || (Z.pos m mod 2 ^ (- e) =? 0)
  | _ => true
  end.

(** math.Floor and math.Ceil of a position that is not negative, as integers. *)
Definition floor_pos (x : float64) : Z := default 0 (f64_trunc x).
Definition ceil_pos (x : float64) : Z :=
  if f64_is_integral x then floor_pos x else floor_pos x + 1.

(** [n / d] to the nearest integer, ties to even, for [0 <= n] and [0 < d]. *)
Definition round_half_even (n d : Z) : Z :=
  let q := n / d in
  match Z.compare (2 * (n mod d)) d with
  | Lt => q
  | Gt => q + 1
  | Eq => if Z.even q then q else q + 1
  end.

(** fmt's [%.<prec>f]. *)
Definition fmt_fixed (prec : nat) (x : float64) : string :=
  let digits (neg : bool) (scaled : Z) :=
    (if neg then "-" else "") +:+ fmt_d (scaled / 10 ^ Z.of_nat prec) +:+
    (if (prec =? 0)%nat then "" else "." +:+ fmt_0d prec (scaled mod 10 ^ Z.of_nat prec)) in
  match x with
  | S754_nan => "NaN"
  | S754_infinity false => "+Inf"
  | S754_infinity true => "-Inf"
  | S754_zero s => digits s 0
  | S754_finite s m e =>
      let n := Z.pos m * 10 ^ Z.of_nat prec in
      digits s (if 0 <=? e then n * 2 ^ e else round_half_even n (2 ^ (- e)))
  end.

Example fmt_fixed_ex :
  (fmt_fixed 2 (f64_lit 5 2), fmt_fixed 0 (f64_lit 5 2), fmt_fixed 1 (f64_lit (-1) 4), fmt_fixed 2 (f64_lit 1 200))
  = ("2.50", "2", "-0.2", "0.01").
Proof. vm_compute. reflexivity. Qed.

(** ** The order *)

Lemma f64_compare_eq x y :
  SFcompare x y = Some Eq -> x = y \/ exists s s', x = S754_zero s /\ y = S754_zero s'.
Proof.
  destruct x as [s|s| |s m e], y as [s'|s'| |s' m' e']; cbn; try done; try by destruct s; try by destruct s'.
  - intros _. right. eauto.
  - destruct s, s'; intros; try done; by left.
  - destruct s, s'; try done; (destruct (Z.compare e e') eqn:E; try done; apply Z.compare_eq in E as ->; intros [= H]).
    + rewrite Pos.compare_cont_spec in H. left. destruct (Pos.compare m m') eqn:Em; try done.
      by apply Pos.compare_eq in Em as ->.
    + rewrite Pos.compare_cont_spec in H. left. destruct (Pos.compare m m') eqn:Em; try done.
      by apply Pos.compare_eq in Em as ->.
Qed.
