(* ===== verification/Execution.v ===== *)
(** The order lifecycle: internal/execution.

    idempotency.go gives the records, memstore.go and pgstore.go two stores,
    retention.go the pruning of one of them, and service.go the only code that calls
    a venue.  [Memory] is MemoryStore; [Postgres] is PostgresStore, whose methods
    are transactions over the tables idempotency_records and idempotency_tombstones
    with their unique indexes.  A [Fault] is what the database does to one
    transaction: it works, it fails, or it commits and the answer is lost.  The
    column type numeric(20,8) of filled_quantity is a parameter.  [World] is what a
    service call can change: the store, the cache, the venue, and the list of
    submissions sent so far.  A crash between the venue's answer and the record is
    a call that returns nothing. *)

From S2P Require Import Prelude Money Intent Broker.

(** * Records *)

Inductive RecordState := RecordPending | RecordResolved.

#[global] Instance RecordState_eq_dec : EqDecision RecordState.
Proof. solve_decision. Defined.

Record Outcome := mkOutcome {
  oc_State : ExecutionState;
  oc_ClientOrderID : string;
  oc_BrokerOrderID : string;
  oc_FilledQuantity : float64;
  oc_RejectReason : string;
  oc_Replayed : bool;
  oc_Reconciled : bool
}.

Definition zeroOutcome : Outcome := mkOutcome "" "" "" f64_zero "" false false.

Record IdemRecord := mkRecord {
  rc_TenantID : string;
  rc_IdempotencyKey : string;
  rc_EnvelopeID : string;
  rc_ClientOrderID : string;
  rc_State : RecordState;
  rc_Outcome : Outcome;
  rc_CreatedAt : Time;
  rc_UpdatedAt : Time
}.

Inductive ExecError :=
| ErrKeyReused (claimedBy : string)
| ErrEnvelopeReused
| ErrKeyRetired
| ErrRecordNotFound
| ErrTenantContextMissing
| ErrUnresolved
| ErrStore (reason : string)
| ErrArgument (reason : string).

#[global] Instance ExecError_eq_dec : EqDecision ExecError.
Proof. solve_decision. Defined.

Abbreviation Fault := TxFault.

Definition set_Replayed (o : Outcome) (b : bool) : Outcome :=
  mkOutcome (oc_State o) (oc_ClientOrderID o) (oc_BrokerOrderID o) (oc_FilledQuantity o)
    (oc_RejectReason o) b (oc_Reconciled o).
Definition set_Reconciled (o : Outcome) (b : bool) : Outcome :=
  mkOutcome (oc_State o) (oc_ClientOrderID o) (oc_BrokerOrderID o) (oc_FilledQuantity o)
    (oc_RejectReason o) (oc_Replayed o) b.

(** ** The store interface *)

Class IdemStore (S : Type) := {
  st_Claim : Fault -> S -> IdemRecord -> S * result (option IdemRecord * bool) ExecError;
  st_Resolve : Fault -> S -> string -> string -> Outcome -> Time -> S * result unit ExecError;
  st_Load : Fault -> S -> string -> string -> result IdemRecord ExecError;
  (** retention: prune a tenant's resolved records older than an instant *)
  st_Prune : Fault -> S -> string -> Time -> Time -> S * result nat ExecError
}.

(** * The in-process store *)

Module Memory.
Record MemoryStore := mkStore {
  ms_records : gmap string IdemRecord;
  ms_envelopes : gmap string string;
  ms_retiredKeys : gmap string string;
  ms_retiredEnvelopes : gmap string string
}.

Definition NewMemoryStore : MemoryStore := mkStore ∅ ∅ ∅ ∅.

Definition key (tenantID idempotencyKey : string) : string :=
  nul_join tenantID idempotencyKey.

Definition failing (f : Fault) : bool := match f with Fine => false | _ => true end.

Definition Claim (f : Fault) (m : MemoryStore) (rec : IdemRecord)
    : MemoryStore * result (option IdemRecord * bool) ExecError :=
  if failing f then (m, Err (ErrStore "unavailable")) else
  let k := key (rc_TenantID rec) (rc_IdempotencyKey rec) in
  let e := key (rc_TenantID rec) (rc_EnvelopeID rec) in
  let held_by_other (o : option string) :=
    match o with
    | Some held => negb (String.eqb held (rc_IdempotencyKey rec))
    | None => false
    end in
  match ms_retiredKeys m !! k with
  | Some _ => (m, Err ErrKeyRetired)
  | None =>
      if str_nonempty (rc_EnvelopeID rec) && held_by_other (ms_retiredEnvelopes m !! e) then
        (m, Err ErrEnvelopeReused)
      else match ms_records m !! k with
      | Some existing => (m, Ok (Some existing, false))
      | None =>
          if str_nonempty (rc_EnvelopeID rec) && held_by_other (ms_envelopes m !! e) then
            (m, Err ErrEnvelopeReused)
          else
            let envelopes := if str_nonempty (rc_EnvelopeID rec)
                             then <[e := rc_IdempotencyKey rec]> (ms_envelopes m)
                             else ms_envelopes m in
            (mkStore (<[k := rec]> (ms_records m)) envelopes (ms_retiredKeys m)
               (ms_retiredEnvelopes m), Ok (None, true))
      end
  end.

Definition Resolve (f : Fault) (m : MemoryStore) (tenantID idempotencyKey : string)
    (o : Outcome) (at_ : Time) : MemoryStore * result unit ExecError :=
  if failing f then (m, Err (ErrStore "unavailable")) else
  let k := key tenantID idempotencyKey in
  match ms_records m !! k with
  | None => (m, Err ErrRecordNotFound)
  | Some rec =>
      let rec := mkRecord (rc_TenantID rec) (rc_IdempotencyKey rec) (rc_EnvelopeID rec)
                   (rc_ClientOrderID rec) RecordResolved (set_Replayed o false)
                   (rc_CreatedAt rec) at_ in
      (mkStore (<[k := rec]> (ms_records m)) (ms_envelopes m) (ms_retiredKeys m)
         (ms_retiredEnvelopes m), Ok ())
  end.

Definition Load (f : Fault) (m : MemoryStore) (tenantID idempotencyKey : string)
    : result IdemRecord ExecError :=
  if failing f then Err (ErrStore "unavailable") else
  match ms_records m !! key tenantID idempotencyKey with
  | None => Err ErrRecordNotFound
  | Some rec => Ok rec
  end.

(** The in-process cache, standing in for Redis. *)
Record MemoryCache := mkCache {
  mc_records : gmap string IdemRecord;
  mc_Disabled : bool
}.

Definition NewMemoryCache : MemoryCache := mkCache ∅ false.

Definition Get (c : MemoryCache) (tenantID idempotencyKey : string) : option IdemRecord :=
  if mc_Disabled c then None else mc_records c !! key tenantID idempotencyKey.

Definition Put (c : MemoryCache) (rec : IdemRecord) : MemoryCache :=
  if mc_Disabled c then c
  else mkCache (<[key (rc_TenantID rec) (rc_IdempotencyKey rec) := rec]> (mc_records c))
         (mc_Disabled c).

Definition Flush (c : MemoryCache) : MemoryCache := mkCache ∅ (mc_Disabled c).
End Memory.

(** * The authoritative store *)

Module Postgres.
(** A row of idempotency_records under its primary key (tenant_id,
    idempotency_key); the outcome columns are NULL while PENDING. *)
Record Row := mkRow {
  r_envelope_id : string;
  r_client_order_id : string;
  r_state : RecordState;
  r_outcome_state : option string;
  r_broker_order_id : option string;
  r_filled_quantity : option float64;
  r_reject_reason : option string;
  r_created_at : Time;
  r_updated_at : Time
}.

Record Tombstone := mkTombstone {
  t_envelope_id : string;
  t_client_order_id : string;
  t_final_state : string;
  t_retired_at : Time
}.

Record Tables := mkTables {
  records : gmap (string * string) Row;
  tombstones : gmap (string * string) Tombstone
}.

Definition empty_tables : Tables := mkTables ∅ ∅.

(** One transaction for a tenant: an error rolls back, and a commit whose answer
    is lost has happened. *)
Definition withTenant {A} (f : Fault) (db : Tables) (tenantID : string)
    (fn : Tables -> Tables * result A ExecError) : Tables * result A ExecError :=
  if String.eqb tenantID "" then (db, Err ErrTenantContextMissing) else
  match f with
  | Fails => (db, Err (ErrStore "begin"))
  | Fine | LostAck =>
      match fn db with
      | (_, Err e) => (db, Err e)
      | (db', Ok a) =>
          match f with LostAck => (db', Err (ErrStore "commit")) | _ => (db', Ok a) end
      end
  end.

Definition nullIfEmpty (s : string) : option string :=
  if String.eqb s "" then None else Some s.

Definition loadInTx (db : Tables) (tenantID key : string) : result IdemRecord ExecError :=
  match records db !! (tenantID, key) with
  | None => Err ErrRecordNotFound
  | Some r =>
      Ok (mkRecord tenantID key (r_envelope_id r) (r_client_order_id r) (r_state r)
            (mkOutcome (default "" (r_outcome_state r)) (r_client_order_id r)
               (default "" (r_broker_order_id r)) (default f64_zero (r_filled_quantity r))
               (default "" (r_reject_reason r)) false false)
            (r_created_at r) (r_updated_at r))
  end.

(** A scan of a tenant's rows. *)
Definition tenant_exists {A} (p : string -> A -> bool) (m : gmap (string * string) A)
    (tenantID : string) : bool :=
  existsb (fun '((t, k), a) => String.eqb t tenantID && p k a) (map_to_list m).

Definition retiredInTx (db : Tables) (rec : IdemRecord) : ExecError :=
  let keyRetired := tenant_exists (fun k _ => String.eqb k (rc_IdempotencyKey rec))
                      (tombstones db) (rc_TenantID rec) in
  let envelopeRetired :=
    tenant_exists (fun k t => str_nonempty (rc_EnvelopeID rec) &&
                     String.eqb (t_envelope_id t) (rc_EnvelopeID rec) &&
                     negb (String.eqb k (rc_IdempotencyKey rec)))
      (tombstones db) (rc_TenantID rec) in
  if keyRetired then ErrKeyRetired
  else if envelopeRetired then ErrEnvelopeReused
  else ErrStore "the idempotency record could not be claimed or read".

Definition Claim (f : Fault) (db : Tables) (rec : IdemRecord)
    : Tables * result (option IdemRecord * bool) ExecError :=
  withTenant f db (rc_TenantID rec) (fun db =>
    let t := rc_TenantID rec in
    let k := rc_IdempotencyKey rec in
    let not_inserted :=
      match loadInTx db t k with
      | Ok existing => (db, Ok (Some existing, false))
      | Err _ => (db, Err (retiredInTx db rec))
      end in
    if tenant_exists (fun k' tb => String.eqb k' k ||
                        String.eqb (t_envelope_id tb) (rc_EnvelopeID rec)) (tombstones db) t
    then not_inserted
    else match records db !! (t, k) with
    | Some _ => not_inserted
    | None =>
        if tenant_exists (fun _ r => String.eqb (r_client_order_id r) (rc_ClientOrderID rec))
             (records db) t then (db, Err (ErrStore "idempotency_client_order_id_idx"))
        else if tenant_exists (fun _ r => String.eqb (r_envelope_id r) (rc_EnvelopeID rec))
             (records db) t then (db, Err ErrEnvelopeReused)
        else
          let row := mkRow (rc_EnvelopeID rec) (rc_ClientOrderID rec) RecordPending None None
                       None None (rc_CreatedAt rec) (rc_CreatedAt rec) in
          (mkTables (<[(t, k) := row]> (records db)) (tombstones db), Ok (None, true))
    end).

Section Columns.
(** Storing a float64 in numeric(20,8) and reading it back, or a refusal. *)
Context (numeric_20_8 : float64 -> option float64).

Definition Resolve (f : Fault) (db : Tables) (tenantID idempotencyKey : string)
    (o : Outcome) (at_ : Time) : Tables * result unit ExecError :=
  withTenant f db tenantID (fun db =>
    match records db !! (tenantID, idempotencyKey) with
    | None => (db, Err ErrRecordNotFound)
    | Some r =>
        match r_state r with
        | RecordResolved => (db, Err ErrRecordNotFound)
        | RecordPending =>
            match numeric_20_8 (oc_FilledQuantity o) with
            | None => (db, Err (ErrStore "numeric field overflow"))
            | Some filled =>
                let row := mkRow (r_envelope_id r) (r_client_order_id r) RecordResolved
                             (Some (oc_State o)) (nullIfEmpty (oc_BrokerOrderID o))
                             (Some filled) (nullIfEmpty (oc_RejectReason o))
                             (r_created_at r) at_ in
                (mkTables (<[(tenantID, idempotencyKey) := row]> (records db))
                   (tombstones db), Ok ())
            end
        end
    end).
End Columns.

Definition Load (f : Fault) (db : Tables) (tenantID idempotencyKey : string)
    : result IdemRecord ExecError :=
  snd (withTenant f db tenantID (fun db => (db, loadInTx db tenantID idempotencyKey))).

Definition LoadByEnvelope (f : Fault) (db : Tables) (tenantID envelopeID : string)
    : result (option IdemRecord) ExecError :=
  snd (withTenant f db tenantID (fun db =>
    match filter (fun '((t, _), r) => t = tenantID /\ r_envelope_id r = envelopeID)
            (map_to_list (records db)) with
    | [] => (db, Ok None)
    | ((_, key), _) :: _ =>
        (db, match loadInTx db tenantID key with
             | Ok rec => Ok (Some rec) | Err e => Err e end)
    end)).

(** ** Retention *)

Definition PruneBatch : nat := Z.to_nat 5000.

Definition expired (tenantID : string) (before : Time) (x : (string * string) * Row) : bool :=
  String.eqb (fst (fst x)) tenantID &&
  match r_state (snd x) with
  | RecordResolved => Before (r_updated_at (snd x)) before
  | RecordPending => false
  end.

Definition doomed (db : Tables) (tenantID : string) (before : Time)
    : list ((string * string) * Row) :=
  take PruneBatch
    (stable_sort (fun a b => r_updated_at (snd a) <? r_updated_at (snd b))
       (List.filter (expired tenantID before) (map_to_list (records db)))).

(** INSERT ... ON CONFLICT (tenant_id, idempotency_key) DO NOTHING; a second key
    for a retired envelope violates the table's unique constraint. *)
Fixpoint retire (tombs : gmap (string * string) Tombstone) (now : Time)
    (l : list ((string * string) * Row)) : option (gmap (string * string) Tombstone) :=
  match l with
  | [] => Some tombs
  | ((t, k), r) :: l' =>
      match tombs !! (t, k) with
      | Some _ => retire tombs now l'
      | None =>
          if tenant_exists (fun _ tb => String.eqb (t_envelope_id tb) (r_envelope_id r)) tombs t
          then None
          else retire (<[(t, k) := mkTombstone (r_envelope_id r) (r_client_order_id r)
                                     (default "UNKNOWN" (r_outcome_state r)) now]> tombs) now l'
      end
  end.

Definition delete_keys (rows : gmap (string * string) Row)
    (l : list ((string * string) * Row)) : gmap (string * string) Row :=
  foldl (fun rs x => delete (fst x) rs) rows l.

Definition Prune (f : Fault) (db : Tables) (tenantID : string) (before now : Time)
    : Tables * result nat ExecError :=
  withTenant f db tenantID (fun db =>
    let l := doomed db tenantID before in
    match retire (tombstones db) now l with
    | None => (db, Err (ErrStore "idempotency_tombstones_envelope"))
    | Some tombs => (mkTables (delete_keys (records db) l) tombs, Ok (length l))
    end).

(** One tenant of Sweeper.Sweep: passes until one deletes less than a batch.  The
    list of faults bounds the passes: it says what each one meets. *)
Fixpoint sweep_tenant (faults : list Fault) (db : Tables) (tenantID : string)
    (before now : Time) (total : nat) : Tables * nat * bool :=
  match faults with
  | [] => (db, total, false)
  | f :: faults' =>
      match Prune f db tenantID before now with
      | (db', Err _) => (db', total, true)
      | (db', Ok deleted) =>
          let total := (total + deleted)%nat in
          if (deleted <? PruneBatch)%nat then (db', total, true)
          else sweep_tenant faults' db' tenantID before now total
      end
  end.
End Postgres.

Module Sweeper.
Definition DefaultRetention : Duration := 30 * 24 * Hour.

(** One pass over every tenant: [faults] says what each tenant's passes meet. *)
Fixpoint sweep_all (faults : string -> list Fault) (db : Postgres.Tables)
    (tenants : list string) (before now : Time) (total : nat) : Postgres.Tables * nat :=
  match tenants with
  | [] => (db, total)
  | t :: tenants' =>
      let '(db', total', _) := Postgres.sweep_tenant (faults t) db t before now total in
      sweep_all faults db' tenants' before now total'
  end.

Definition Sweep (faults : string -> list Fault) (db : Postgres.Tables)
    (tenants : list string) (keep : Duration) (now : Time) : Postgres.Tables * nat :=
  sweep_all faults db tenants (TimeAdd now (- keep)) now 0.
End Sweeper.

(** * The service *)

(** What the outside does during one call. *)
Record Surroundings := mkSurroundings {
  su_now : Time;
  su_submit_ctx : Context;
  su_reconcile_ctx : Context;
  su_claim : Fault;
  su_resolve : Fault;
  (** the process dies between the venue's answer and the record *)
  su_crash : bool
}.

Definition knownState (s : ExecutionState) : bool :=
  contains [StateUnknown; StateAccepted; StateRejected; StatePartiallyFilled; StateFilled;
            StateCancelled; StateExpired] s.

Inductive ConversionError :=
| WrongClientOrderID | NoState | UnknownState | NegativeFill.

Definition outcomeFrom (expectedClientOrderID : string) (order : BrokerOrder)
    : result Outcome ConversionError :=
  if negb (String.eqb (bo_ClientOrderID order) expectedClientOrderID) then
    Err WrongClientOrderID
  else if String.eqb (bo_State order) "" then Err NoState
  else if negb (knownState (bo_State order)) then Err UnknownState
  else if f64_ltb (bo_FilledQuantity order) f64_zero then Err NegativeFill
  else Ok (mkOutcome (bo_State order) (bo_ClientOrderID order) (bo_BrokerOrderID order)
             (bo_FilledQuantity order) (bo_RejectReason order) false false).

Definition replay (o : Outcome) : Outcome := set_Replayed o true.

Section Service.
Context {S V : Type} `{IdemStore S} `{Adapter V}.

(** One submission that reached the venue: the tenant, the idempotency key and the
    envelope it was sent for. *)
Record Sent := mkSent { se_tenant : string; se_key : string; se_envelope : string }.

Record World := mkWorld {
  w_store : S;
  w_cache : option Memory.MemoryCache;
  w_venue : V;
  w_sent : list Sent
}.

Definition set_store (w : World) (s : S) : World :=
  mkWorld s (w_cache w) (w_venue w) (w_sent w).
Definition set_venue (w : World) (v : V) : World :=
  mkWorld (w_store w) (w_cache w) v (w_sent w).

(** What a call returns: an outcome and an error. *)
Definition Answer : Type := Outcome * option ExecError.

Definition fromCache (w : World) (tenantID key : string) : option IdemRecord :=
  match w_cache w with
  | None => None
  | Some c =>
      match Memory.Get c tenantID key with
      | Some rec => match rc_State rec with
                    | RecordResolved => Some rec | RecordPending => None end
      | None => None
      end
  end.

Definition cache (w : World) (rec : IdemRecord) : World :=
  mkWorld (w_store w) (option_map (fun c => Memory.Put c rec) (w_cache w)) (w_venue w)
    (w_sent w).

Definition resolve (su : Surroundings) (w : World) (tenantID key : string) (o : Outcome)
    : World * option ExecError :=
  match st_Resolve (su_resolve su) (w_store w) tenantID key o (su_now su) with
  | (s, Err e) => (set_store w s, Some e)
  | (s, Ok _) =>
      (cache (set_store w s)
         (mkRecord tenantID key "" (oc_ClientOrderID o) RecordResolved o 0 (su_now su)), None)
  end.

Definition unknown (clientOrderID : string) : Outcome :=
  mkOutcome StateUnknown clientOrderID "" f64_zero "" false false.

Definition reconcileAndResolve (su : Surroundings) (w : World)
    (tenantID key clientOrderID : string) : World * Answer :=
  let '(v, answer) := ad_Reconcile (w_venue w) (su_reconcile_ctx su) clientOrderID in
  let w := set_venue w v in
  match answer with
  | Ok order =>
      match outcomeFrom clientOrderID order with
      | Err _ => (w, (unknown clientOrderID, Some ErrUnresolved))
      | Ok outcome =>
          match resolve su w tenantID key outcome with
          | (w, Some e) => (w, (outcome, Some e))
          | (w, None) => (w, (set_Reconciled outcome true, None))
          end
      end
  | Err _ => (w, (unknown clientOrderID, Some ErrUnresolved))
  end.

(** [None] is a process that died before it could answer. *)
Definition submitOnce (su : Surroundings) (w : World) (env : Envelope) (req : OrderRequest)
    : World * option Answer :=
  let t := env_TenantID env in
  let k := env_IdempotencyKey env in
  let '(v, answer) := ad_SubmitOrder (w_venue w) (su_submit_ctx su) (su_now su) req in
  let w := mkWorld (w_store w) (w_cache w) v
             (w_sent w ++ [mkSent t k (env_EnvelopeID env)]) in
  if su_crash su then (w, None) else
  match answer with
  | Err ErrTimeout =>
      let '(w, a) := reconcileAndResolve su w t k (or_ClientOrderID req) in (w, Some a)
  | Err e =>
      let outcome := mkOutcome StateRejected (or_ClientOrderID req) "" f64_zero
                       (BrokerError_text e) false false in
      let '(w, err) := resolve su w t k outcome in (w, Some (outcome, err))
  | Ok order =>
      match outcomeFrom (or_ClientOrderID req) order with
      | Err _ =>
          let '(w, a) := reconcileAndResolve su w t k (or_ClientOrderID req) in (w, Some a)
      | Ok outcome =>
          let '(w, err) := resolve su w t k outcome in (w, Some (outcome, err))
      end
  end.

Definition resumeExisting (su : Surroundings) (w : World) (existing : option IdemRecord)
    : World * Answer :=
  match existing with
  | None => (w, (zeroOutcome,
                 Some (ErrStore "store reported an existing record but returned none")))
  | Some rec =>
      match rc_State rec with
      | RecordResolved => (cache w rec, (replay (rc_Outcome rec), None))
      | RecordPending =>
          reconcileAndResolve su w (rc_TenantID rec) (rc_IdempotencyKey rec)
            (rc_ClientOrderID rec)
      end
  end.

(** A record or cache entry of another envelope. *)
Definition claimed_by_other (rec : IdemRecord) (env : Envelope) : bool :=
  str_nonempty (rc_EnvelopeID rec) &&
  negb (String.eqb (rc_EnvelopeID rec) (env_EnvelopeID env)).

Definition Submit (su : Surroundings) (w : World) (env : option Envelope)
    (req : OrderRequest) : World * option Answer :=
  let fail e := (w, Some (zeroOutcome, Some e)) in
  match env with
  | None => fail (ErrArgument "no envelope")
  | Some env =>
      let t := env_TenantID env in
      let k := env_IdempotencyKey env in
      if String.eqb t "" || String.eqb k "" then
        fail (ErrArgument "tenant and idempotency key are required")
      else if String.eqb (or_ClientOrderID req) "" then
        fail (ErrArgument "client order id is required")
      else match fromCache w t k with
      | Some cached =>
          if claimed_by_other cached env then fail (ErrKeyReused (rc_EnvelopeID cached))
          else (w, Some (replay (rc_Outcome cached), None))
      | None =>
          match st_Claim (su_claim su) (w_store w)
                  (mkRecord t k (env_EnvelopeID env) (or_ClientOrderID req) RecordPending
                     zeroOutcome (su_now su) (su_now su)) with
          | (s, Err e) => (set_store w s, Some (zeroOutcome, Some e))
          | (s, Ok (existing, false)) =>
              let w := set_store w s in
              match existing with
              | Some rec =>
                  if claimed_by_other rec env then
                    (w, Some (zeroOutcome, Some (ErrKeyReused (rc_EnvelopeID rec))))
                  else let '(w, a) := resumeExisting su w existing in (w, Some a)
              | None => let '(w, a) := resumeExisting su w existing in (w, Some a)
              end
          | (s, Ok (_, true)) => submitOnce su (set_store w s) env req
          end
      end
  end.
End Service.
Arguments World S V : clear implicits.

(** * Store laws *)

Class StoreLaws (S : Type) `{IdemStore S} := {
  st_empty : S;
  st_ok : S -> Prop;
  (** the key, and the envelope, are spent: a record or a tombstone holds them *)
  st_knows : S -> string -> string -> Prop;
  st_knows_env : S -> string -> string -> Prop;
  st_find : S -> string -> string -> option IdemRecord;
  (** tenants whose keys the store tells apart *)
  st_tenant_ok : string -> bool;
  sl_empty : st_ok st_empty;
  sl_claim f s rec s' r :
    st_ok s -> st_Claim f s rec = (s', r) -> st_tenant_ok (rc_TenantID rec) = true ->
    st_ok s' /\
    (forall t k, st_knows s t k -> st_knows s' t k) /\
    (forall t e, st_knows_env s t e -> st_knows_env s' t e) /\
    (forall x, r = Ok (x, true) ->
       ~ st_knows s (rc_TenantID rec) (rc_IdempotencyKey rec) /\
       st_knows s' (rc_TenantID rec) (rc_IdempotencyKey rec) /\
       (rc_EnvelopeID rec <> "" ->
        ~ st_knows_env s (rc_TenantID rec) (rc_EnvelopeID rec) /\
        st_knows_env s' (rc_TenantID rec) (rc_EnvelopeID rec)));
  (** a claim of a held key by the envelope that holds it, in working order *)
  sl_claim_held s rec held :
    st_ok s -> st_find s (rc_TenantID rec) (rc_IdempotencyKey rec) = Some held ->
    rc_TenantID rec <> "" -> rc_EnvelopeID rec = rc_EnvelopeID held ->
    st_Claim Fine s rec = (s, Ok (Some held, false));
  sl_claim_failed f s rec s' x :
    f <> Fine -> st_Claim f s rec = (s', Ok x) -> False;
  sl_resolve f s t k o at_ s' r :
    st_ok s -> st_Resolve f s t k o at_ = (s', r) ->
    st_ok s' /\
    (forall t' k', st_knows s t' k' -> st_knows s' t' k') /\
    (forall t' e, st_knows_env s t' e -> st_knows_env s' t' e);
  (** a resolution fails for reasons of its own *)
  sl_resolve_error f s t k o at_ s' e b :
    st_Resolve f s t k o at_ = (s', Err e) -> e <> ErrKeyReused b;
  sl_prune f s t before now s' r :
    st_ok s -> st_Prune f s t before now = (s', r) ->
    st_ok s' /\
    (forall t' k', st_knows s t' k' -> st_knows s' t' k') /\
    (forall t' e, st_knows_env s t' e -> st_knows_env s' t' e)
}.

(** * At most one submission *)

Section AtMostOnce.
Context {S V : Type} `{HS : IdemStore S, HL : !StoreLaws S, HV : Adapter V}.
Implicit Types (w : World S V).

(** What the store has spent only grows. *)
Definition grows (s s' : S) : Prop :=
  st_ok s -> st_ok s' /\
  (forall t k, st_knows s t k -> st_knows s' t k) /\
  (forall t e, st_knows_env s t e -> st_knows_env s' t e).

Lemma grows_refl s : grows s s.
Proof. by intros Hok. Qed.

Lemma grows_trans s1 s2 s3 : grows s1 s2 -> grows s2 s3 -> grows s1 s3.
Proof.
  intros H12 H23 Hok. destruct (H12 Hok) as (H2 & K2 & E2).
  destruct (H23 H2) as (H3 & K3 & E3). split_and!; [done | |]; eauto.
Qed.

(** A step that sends nothing. *)
Definition quiet w w' : Prop :=
  w_sent w' = w_sent w /\ grows (w_store w) (w_store w').

Lemma quiet_refl w : quiet w w.
Proof. split; [done | apply grows_refl]. Qed.

Lemma quiet_same w w' : w_sent w' = w_sent w -> w_store w' = w_store w -> quiet w w'.
Proof. intros Hs Hst. split; [done|]. rewrite Hst. apply grows_refl. Qed.

Lemma resolve_quiet su w t k o w' e : resolve su w t k o = (w', e) -> quiet w w'.
Proof.
  unfold resolve. destruct (st_Resolve _ _ _ _ _ _) as [s r] eqn:E.
  assert (Hg : grows (w_store w) s) by (intros Hok; by eapply sl_resolve).
  destruct r; intros [= <- <-]; done.
Qed.

Lemma reconcile_quiet su w t k id w' a :
  reconcileAndResolve su w t k id = (w', a) -> quiet w w'.
Proof.
  unfold reconcileAndResolve. destruct (ad_Reconcile _ _ _) as [v [order|e]];
    [|intros [= <- <-]; apply quiet_same; reflexivity].
  destruct (outcomeFrom _ _) as [o|]; [|intros [= <- <-]; apply quiet_same; reflexivity].
  destruct (resolve _ _ _ _ _) as [w2 [e|]] eqn:E; apply resolve_quiet in E;
    intros [= <- <-]; exact E.
Qed.

Lemma resume_quiet su w ex w' a : resumeExisting su w ex = (w', a) -> quiet w w'.
Proof.
  unfold resumeExisting. destruct ex as [rec|]; [|intros [= <- <-]; apply quiet_same; reflexivity].
  destruct (rc_State rec); [apply reconcile_quiet | intros [= <- <-]; apply quiet_same; reflexivity].
Qed.

Definition sent_for (env : Envelope) : Sent :=
  mkSent (env_TenantID env) (env_IdempotencyKey env) (env_EnvelopeID env).

Lemma submitOnce_sent su w env req w' a :
  submitOnce su w env req = (w', a) ->
  w_sent w' = w_sent w ++ [sent_for env] /\ grows (w_store w) (w_store w').
Proof.
  unfold submitOnce. destruct (ad_SubmitOrder _ _ _ _) as [v answer].
  destruct (su_crash su); [intros [= <- <-]; split; [done | apply grows_refl]|].
  destruct answer as [order|e]; [destruct (outcomeFrom _ _)|destruct e];
    try (destruct (resolve _ _ _ _ _) as [w2 e2] eqn:E; apply resolve_quiet in E);
    try (destruct (reconcileAndResolve _ _ _ _ _) as [w2 e2] eqn:E;
         apply reconcile_quiet in E);
    intros [= <- <-]; exact E.
Qed.

(** A call that finds the key claimed by another envelope reaches no venue. *)
Lemma resolve_not_reused su w t k o w' e b : resolve su w t k o = (w', Some e) -> e <> ErrKeyReused b.
Proof.
  unfold resolve. destruct (st_Resolve _ _ _ _ _ _) as [s [u|e']] eqn:E; [done|].
  intros [= <- <-]. by eapply sl_resolve_error.
Qed.

Lemma reconcile_not_reused su w t k id w' o e b :
  reconcileAndResolve su w t k id = (w', (o, Some e)) -> e <> ErrKeyReused b.
Proof.
  unfold reconcileAndResolve. destruct (ad_Reconcile _ _ _) as [v [order|x]]; [|by intros [= <- <- <-]].
  destruct (outcomeFrom _ _) as [oc|]; [|by intros [= <- <- <-]].
  destruct (resolve _ _ _ _ _) as [w2 [e2|]] eqn:E; intros [= <- <- <-]. by eapply resolve_not_reused.
Qed.

Lemma submitOnce_not_reused su w env req w' o e b :
  submitOnce su w env req = (w', Some (o, Some e)) -> e <> ErrKeyReused b.
Proof.
  unfold submitOnce. destruct (ad_SubmitOrder _ _ _ _) as [v answer]. destruct (su_crash su); [done|].
  destruct answer as [order|x]; [destruct (outcomeFrom _ _)|destruct x];
    (destruct (resolve _ _ _ _ _) as [w2 e2] eqn:E || destruct (reconcileAndResolve _ _ _ _ _) as [w2 e2] eqn:E);
    intros H; simplify_eq;
    exact (resolve_not_reused _ _ _ _ _ _ _ _ E) || exact (reconcile_not_reused _ _ _ _ _ _ _ _ _ E).
Qed.

Lemma key_reused_sends_nothing su w env req w' o b :
  Submit su w env req = (w', Some (o, Some (ErrKeyReused b))) ->
  w_venue w' = w_venue w /\ w_sent w' = w_sent w.
Proof.
  unfold Submit. destruct env as [env|]; [|done]. destruct (_ || _); [done|]. destruct (String.eqb _ ""); [done|].
  destruct (fromCache _ _ _); [destruct (claimed_by_other _ _); [by intros [= <- _ _] | done]|].
  destruct (st_Claim _ _ _) as [s [[ex [|]]|e]]; [| |by intros [= <- _ _]].
  - intros H. by apply (submitOnce_not_reused _ _ _ _ _ _ _ b) in H.
  - destruct ex as [rec|]; [destruct (claimed_by_other _ _); [by intros [= <- _ _]|]|by intros [= <- _ _]].
    destruct (resumeExisting _ _ _) as [w2 a2] eqn:E. intros [= -> ->]. unfold resumeExisting in E.
    destruct (rc_State rec); [|done]. by apply (reconcile_not_reused _ _ _ _ _ _ _ _ b) in E.
Qed.

(** A call either sends nothing, or sends one order for a key and an envelope
    that were not spent and now are. *)
Lemma Submit_sent su w env req w' a :
  st_ok (w_store w) ->
  (forall e, env = Some e -> st_tenant_ok (env_TenantID e) = true) ->
  Submit su w env req = (w', a) ->
  quiet w w' \/
  exists e, env = Some e /\ w_sent w' = w_sent w ++ [sent_for e] /\
    grows (w_store w) (w_store w') /\
    ~ st_knows (w_store w) (env_TenantID e) (env_IdempotencyKey e) /\
    st_knows (w_store w') (env_TenantID e) (env_IdempotencyKey e) /\
    (env_EnvelopeID e <> "" ->
     ~ st_knows_env (w_store w) (env_TenantID e) (env_EnvelopeID e) /\
     st_knows_env (w_store w') (env_TenantID e) (env_EnvelopeID e)).
Proof.
  intros Hok Ht. unfold Submit.
  destruct env as [env|]; [|intros [= <- <-]; left; apply quiet_refl].
  destruct (_ || _); [intros [= <- <-]; left; apply quiet_refl|].
  destruct (String.eqb _ ""); [intros [= <- <-]; left; apply quiet_refl|].
  destruct (fromCache _ _ _).
  { destruct (claimed_by_other _ _); intros [= <- <-]; left; apply quiet_refl. }
  destruct (st_Claim _ _ _) as [s r] eqn:E.
  pose proof (sl_claim _ _ _ _ _ Hok E (Ht env eq_refl)) as (Hok' & Hk & He & Hnew).
  assert (Hq : quiet w (set_store w s)) by by split.
  destruct r as [[ex [|]]|]; [| |intros [= <- <-]; by left].
  - destruct (Hnew _ eq_refl) as (Hn & Hn' & Hne). intros Hs.
    apply submitOnce_sent in Hs as [Hs Hg]. right. exists env. cbn in *.
    destruct (Hg Hok') as (Hok2 & Hk2 & He2).
    split_and!; [done | done | | done | by apply Hk2 |].
    + eapply grows_trans; [|exact Hg]; by intros _.
    + intros Hnz. destruct (Hne Hnz) as [? ?]. auto.
  - intros Hs. left.
    assert (Hq' : forall w2, quiet (set_store w s) w2 -> quiet w w2).
    { intros w2 [Hs2 Hg2]. destruct Hq as [Hs1 Hg1].
      split; [congruence | by eapply grows_trans]. }
    destruct ex as [rec|]; [destruct (claimed_by_other _ _); [by simplify_eq|]|];
      destruct (resumeExisting _ _ _) as [w2 a2] eqn:Er; apply resume_quiet in Er;
      simplify_eq; by apply Hq'.
Qed.

(** ** Histories *)

Inductive wop :=
| OpSubmit (su : Surroundings) (env : option Envelope) (req : OrderRequest)
| OpPrune (f : Fault) (tenantID : string) (before now : Time)
| OpCacheLost
| OpVenue (v : V).

Definition wstep (w : World S V) (op : wop) : World S V :=
  match op with
  | OpSubmit su env req => fst (Submit su w env req)
  | OpPrune f t before now => set_store w (fst (st_Prune f (w_store w) t before now))
  | OpCacheLost =>
      mkWorld (w_store w) (option_map Memory.Flush (w_cache w)) (w_venue w) (w_sent w)
  | OpVenue v => set_venue w v
  end.

(** The tenant of a submission is one the store tells apart from the others. *)
Definition wop_ok (op : wop) : Prop :=
  match op with
  | OpSubmit _ (Some env) _ => st_tenant_ok (env_TenantID env) = true
  | _ => True
  end.

Definition keys_sent w : list (string * string) :=
  map (fun s => (se_tenant s, se_key s)) (w_sent w).
Definition envelopes_sent w : list (string * string) :=
  map (fun s => (se_tenant s, se_envelope s))
    (List.filter (fun s => str_nonempty (se_envelope s)) (w_sent w)).

Record world_ok w : Prop := {
  wo_store : st_ok (w_store w);
  wo_keys : NoDup (keys_sent w);
  wo_envs : NoDup (envelopes_sent w);
  wo_knows t k : (t, k) ∈ keys_sent w -> st_knows (w_store w) t k;
  wo_knows_env t e : (t, e) ∈ envelopes_sent w -> st_knows_env (w_store w) t e
}.

Lemma quiet_ok w w' : quiet w w' -> world_ok w -> world_ok w'.
Proof.
  intros [Hs Hg] [H1 H2 H3 H4 H5]. destruct (Hg H1) as (H1' & HK & HE).
  unfold keys_sent, envelopes_sent in *.
  split; unfold keys_sent, envelopes_sent; rewrite ?Hs; auto.
Qed.

Lemma NoDup_snoc {A} (l : list A) x : NoDup l -> x ∉ l -> NoDup (l ++ [x]).
Proof.
  intros Hl Hx. apply NoDup_app. split_and!; [done | | apply NoDup_singleton].
  intros y Hy ->%list_elem_of_singleton. done.
Qed.

Lemma wstep_ok w op : wop_ok op -> world_ok w -> world_ok (wstep w op).
Proof.
  intros Hop Hw. destruct op as [su env req|f t before now| |v]; cbn [wstep].
  - destruct (Submit su w env req) as [w' a] eqn:E. cbn.
    assert (Ht : forall e, env = Some e -> st_tenant_ok (env_TenantID e) = true)
      by (intros e0 ->; exact Hop).
    destruct (Submit_sent _ _ _ _ _ _ (wo_store _ Hw) Ht E)
      as [Hq|(e & -> & Hs & Hg & Hk & Hk' & He)]; [by eapply quiet_ok|].
    destruct Hw as [H1 H2 H3 H4 H5]. destruct (Hg H1) as (H1' & HK & HE).
    assert (Hkeys : keys_sent w' = keys_sent w ++ [(env_TenantID e, env_IdempotencyKey e)]).
    { unfold keys_sent. by rewrite Hs, map_app. }
    assert (Henvs : envelopes_sent w' = envelopes_sent w ++
      (if str_nonempty (env_EnvelopeID e) then [(env_TenantID e, env_EnvelopeID e)] else [])).
    { unfold envelopes_sent. rewrite Hs, List.filter_app, map_app. cbn.
      by destruct (str_nonempty (env_EnvelopeID e)). }
    assert (Hne : str_nonempty (env_EnvelopeID e) = true -> env_EnvelopeID e <> "").
    { intros Hn Hz. by rewrite Hz in Hn. }
    split; [done | | | |]; rewrite ?Hkeys, ?Henvs.
    + apply NoDup_snoc; [done|]. intros Hin. by apply Hk, H4.
    + destruct (str_nonempty _); [|by rewrite app_nil_r].
      destruct (He (Hne eq_refl)) as [Hn _].
      apply NoDup_snoc; [done|]. intros Hin. by apply Hn, H5.
    + intros t k Hin. apply elem_of_app in Hin as [Hin|Hin]; [by apply HK, H4|].
      by apply list_elem_of_singleton in Hin as [= -> ->].
    + intros t k Hin. apply elem_of_app in Hin as [Hin|Hin]; [by apply HE, H5|].
      destruct (str_nonempty _); [|by apply not_elem_of_nil in Hin].
      apply list_elem_of_singleton in Hin as [= -> ->]. by apply He, Hne.
  - destruct (st_Prune _ _ _ _ _) as [s r] eqn:E. eapply quiet_ok; [|done].
    split; [done|]. intros Hok. by eapply sl_prune.
  - eapply quiet_ok; [|done]. split; [done | apply grows_refl].
  - eapply quiet_ok; [|done]. split; [done | apply grows_refl].
Qed.

Lemma run_ok ops : forall w,
  Forall wop_ok ops -> world_ok w -> world_ok (run_ops wstep w ops).
Proof.
  induction ops as [|op ops IH]; intros w Hops Hw; [done|].
  inversion Hops; subst. cbn. apply IH; [done|]. by apply wstep_ok.
Qed.
End AtMostOnce.

(** * The in-process store is lawful *)

#[export] Instance memory_store : IdemStore Memory.MemoryStore := {
  st_Claim := Memory.Claim;
  st_Resolve := Memory.Resolve;
  st_Load := Memory.Load;
  st_Prune _ m _ _ _ := (m, Ok 0%nat)
}.

(** Nothing retires keys in process, and every envelope filed has a record. *)
Record memory_ok (m : Memory.MemoryStore) : Prop := {
  mo_keys : Memory.ms_retiredKeys m = ∅;
  mo_envs : Memory.ms_retiredEnvelopes m = ∅;
  mo_held t e held : nul_free t = true ->
    Memory.ms_envelopes m !! Memory.key t e = Some held ->
    is_Some (Memory.ms_records m !! Memory.key t held)
}.

Definition memory_knows (m : Memory.MemoryStore) (t k : string) : Prop :=
  is_Some (Memory.ms_records m !! Memory.key t k).
Definition memory_knows_env (m : Memory.MemoryStore) (t e : string) : Prop :=
  is_Some (Memory.ms_envelopes m !! Memory.key t e).

Lemma memory_claim f m rec m' r :
  memory_ok m -> nul_free (rc_TenantID rec) = true -> Memory.Claim f m rec = (m', r) ->
  m' = m /\ (forall x, r <> Ok (x, true)) \/
  r = Ok (None, true) /\
  Memory.ms_records m !! Memory.key (rc_TenantID rec) (rc_IdempotencyKey rec) = None /\
  Memory.ms_records m' =
    <[Memory.key (rc_TenantID rec) (rc_IdempotencyKey rec) := rec]> (Memory.ms_records m) /\
  Memory.ms_retiredKeys m' = ∅ /\ Memory.ms_retiredEnvelopes m' = ∅ /\
  (rc_EnvelopeID rec = "" /\ Memory.ms_envelopes m' = Memory.ms_envelopes m \/
   rc_EnvelopeID rec <> "" /\
   Memory.ms_envelopes m !! Memory.key (rc_TenantID rec) (rc_EnvelopeID rec) = None /\
   Memory.ms_envelopes m' =
     <[Memory.key (rc_TenantID rec) (rc_EnvelopeID rec) := rc_IdempotencyKey rec]>
       (Memory.ms_envelopes m)).
Proof.
  intros [Hk He Hh] Ht. unfold Memory.Claim. rewrite Hk, He, !lookup_empty, andb_false_r.
  destruct (Memory.failing f); [intros [= <- <-]; left; split; [done|]; congruence|].
  destruct (Memory.ms_records m !! _) eqn:Er; [intros [= <- <-]; left; split; [done|]; congruence|].
  unfold str_nonempty. destruct (String.eqb_spec (rc_EnvelopeID rec) "") as [Hz|Hz]; cbn [negb andb].
  - intros [= <- <-]. right. cbn. split_and!; try done. by left.
  - destruct (Memory.ms_envelopes m !! _) as [held|] eqn:Ee.
    + destruct (String.eqb_spec held (rc_IdempotencyKey rec)) as [->|Hne]; cbn [negb].
      * destruct (Hh _ _ _ Ht Ee) as [x Hx]. congruence.
      * intros [= <- <-]. left. split; [done|]. congruence.
    + intros [= <- <-]. right. cbn. split_and!; try done. by right.
Qed.

Lemma is_Some_insert {A} (m : gmap string A) k v x :
  is_Some (m !! x) -> is_Some (<[k := v]> m !! x).
Proof. rewrite lookup_insert_is_Some'. auto. Qed.

#[export] Instance memory_store_laws : StoreLaws Memory.MemoryStore.
Proof.
  refine {| st_empty := Memory.NewMemoryStore; st_ok := memory_ok; st_knows := memory_knows;
            st_knows_env := memory_knows_env;
            st_find m t k := Memory.ms_records m !! Memory.key t k;
            st_tenant_ok := nul_free |}.
  - split; [done..|]. intros t e held _ H. cbn in H; by rewrite lookup_empty in H.
  - intros f m rec m' r Hok Hc Ht. unfold memory_knows, memory_knows_env.
    destruct (memory_claim _ _ _ _ _ Hok Ht Hc)
      as [[-> Hr]|(-> & Hn & Hrec & Hk & He & Henv)].
    { split_and!; [done..|]. intros x Hx. by destruct (Hr x). }
    split_and!.
    + split; [done..|]. intros t e held Ht'. rewrite Hrec.
      destruct Henv as [[_ ->]|(_ & _ & ->)].
      * intros H. by apply is_Some_insert, (mo_held m Hok t e).
      * destruct (decide (Memory.key (rc_TenantID rec) (rc_EnvelopeID rec) = Memory.key t e))
          as [Heq|Hne].
        -- apply nul_join_inj in Heq as [-> ->]; [|done..]. rewrite lookup_insert_eq.
           intros [= <-]. by rewrite lookup_insert_eq.
        -- rewrite lookup_insert_ne by done. intros H.
           by apply is_Some_insert, (mo_held m Hok t e).
    + intros t k. rewrite Hrec. apply is_Some_insert.
    + intros t e. destruct Henv as [[_ ->]|(_ & _ & ->)]; [done|]. apply is_Some_insert.
    + intros x _. rewrite Hn, Hrec, lookup_insert_eq. split_and!; [by intros [? ?] | by eexists |].
      intros Hz. destruct Henv as [[? _]|(_ & Hen & ->)]; [done|].
      rewrite Hen, lookup_insert_eq. split; [by intros [? ?] | by eexists].
  - intros m rec held [Hk He _] Hf _ _. cbn. unfold Memory.Claim. cbn [Memory.failing].
    by rewrite Hk, He, !lookup_empty, andb_false_r, Hf.
  - intros f m rec m' x Hf. cbn. unfold Memory.Claim. by destruct f.
  - intros f m t k o at_ m' r [Hk He Hh]. cbn. unfold Memory.Resolve, memory_knows.
    destruct (Memory.failing f); [by intros [= <- <-]|].
    destruct (Memory.ms_records m !! _) eqn:E; [|by intros [= <- <-]].
    intros [= <- <-]. unfold memory_knows_env. cbn. split_and!; [split; cbn; [done..|] | | done].
    + intros t' e held Ht' H. apply is_Some_insert. by eapply Hh.
    + intros t' k'. apply is_Some_insert.
  - intros f m t k o at_ m' e b. cbn. unfold Memory.Resolve.
    destruct (Memory.failing f); [by intros [= <- <-]|]. by destruct (_ !! _); intros [= <- <-].
  - intros f m t before now m' r Hok. cbn. by intros [= <- <-].
Defined.

(** * The authoritative store is lawful *)

Lemma tenant_exists_spec {A} (p : string -> A -> bool) (m : gmap (string * string) A) t :
  Postgres.tenant_exists p m t = true <-> exists k a, m !! (t, k) = Some a /\ p k a = true.
Proof.
  unfold Postgres.tenant_exists. rewrite existsb_exists. split.
  - intros ([[t' k] a] & Hin & Hb). apply andb_true_iff in Hb as [Ht Hp].
    apply String.eqb_eq in Ht as ->. apply list_elem_of_In, elem_of_map_to_list in Hin. eauto.
  - intros (k & a & Hk & Hp). exists ((t, k), a). split.
    + by apply list_elem_of_In, elem_of_map_to_list.
    + by rewrite String.eqb_refl.
Qed.

Lemma tenant_exists_false {A} (p : string -> A -> bool) (m : gmap (string * string) A) t :
  Postgres.tenant_exists p m t = false <-> forall k a, m !! (t, k) = Some a -> p k a = false.
Proof.
  rewrite <- not_true_iff_false, tenant_exists_spec. split.
  - intros Hn k a Hk. apply not_true_iff_false. intros Hp. apply Hn. eauto.
  - intros Hf (k & a & Hk & Hp). by rewrite (Hf _ _ Hk) in Hp.
Qed.

(** The unique indexes, and the separation of live and retired identities. *)
Record tables_ok (db : Postgres.Tables) : Prop := {
  to_disjoint x : is_Some (Postgres.tombstones db !! x) -> Postgres.records db !! x = None;
  to_envelopes t k k' r r' :
    Postgres.records db !! (t, k) = Some r -> Postgres.records db !! (t, k') = Some r' ->
    Postgres.r_envelope_id r = Postgres.r_envelope_id r' -> k = k';
  to_retired_env t k k' r tb :
    Postgres.records db !! (t, k) = Some r -> Postgres.tombstones db !! (t, k') = Some tb ->
    Postgres.r_envelope_id r <> Postgres.t_envelope_id tb
}.

Definition pg_knows (db : Postgres.Tables) (t k : string) : Prop :=
  is_Some (Postgres.records db !! (t, k)) \/ is_Some (Postgres.tombstones db !! (t, k)).
Definition pg_knows_env (db : Postgres.Tables) (t e : string) : Prop :=
  (exists k r, Postgres.records db !! (t, k) = Some r /\ Postgres.r_envelope_id r = e) \/
  (exists k tb, Postgres.tombstones db !! (t, k) = Some tb /\ Postgres.t_envelope_id tb = e).

(** A transaction leaves the tables as they were, or as its body made them. *)
Lemma withTenant_cases {A} f db t (fn : Postgres.Tables -> Postgres.Tables * result A ExecError)
    db' r :
  Postgres.withTenant f db t fn = (db', r) ->
  (db' = db /\ is_ok r = false) \/
  (exists a, fn db = (db', Ok a) /\ (r = Ok a \/ r = Err (ErrStore "commit"))).
Proof.
  unfold Postgres.withTenant. destruct (String.eqb t ""); [intros [= <- <-]; by left|].
  destruct f; try (intros [= <- <-]; by left);
    (destruct (fn db) as [db2 [a|e]] eqn:E; intros [= <- <-]; [right|by left]); eauto.
Qed.

(** What the insert of a claim did. *)
Definition claim_row (rec : IdemRecord) : Postgres.Row :=
  Postgres.mkRow (rc_EnvelopeID rec) (rc_ClientOrderID rec) RecordPending None None
    None None (rc_CreatedAt rec) (rc_CreatedAt rec).

Lemma pg_claim f db rec db' r :
  Postgres.Claim f db rec = (db', r) ->
  (db' = db /\ (forall x, r <> Ok (x, true))) \/
  ((r = Ok (None, true) \/ is_ok r = false) /\
   ~ pg_knows db (rc_TenantID rec) (rc_IdempotencyKey rec) /\
   ~ pg_knows_env db (rc_TenantID rec) (rc_EnvelopeID rec) /\
   db' = Postgres.mkTables (<[(rc_TenantID rec, rc_IdempotencyKey rec) := claim_row rec]>
                              (Postgres.records db)) (Postgres.tombstones db)).
Proof.
  intros H. apply withTenant_cases in H as [[-> Hr]|(a & Hfn & Hr)].
  { left. split; [done|]. by intros x ->. }
  cbv zeta in Hfn.
  destruct (Postgres.tenant_exists _ (Postgres.tombstones db) _) eqn:Et.
  { destruct (Postgres.loadInTx db _ _) eqn:El; simplify_eq. left. split; [done|].
    intros x ->. destruct Hr; discriminate. }
  destruct (Postgres.records db !! _) eqn:Er.
  { destruct (Postgres.loadInTx db _ _) eqn:El; simplify_eq. left. split; [done|].
    intros x ->. destruct Hr; discriminate. }
  destruct (Postgres.tenant_exists (fun _ r => String.eqb (Postgres.r_client_order_id r) _) _ _);
    [done|].
  destruct (Postgres.tenant_exists _ (Postgres.records db) _) eqn:Ee; [done|].
  injection Hfn as <- <-. rewrite tenant_exists_false in Et. rewrite tenant_exists_false in Ee.
  right. split_and!; [destruct Hr as [->| ->]; auto | | | done].
  - intros [Hs|[tb Hs]]; [rewrite Er in Hs; by destruct Hs|].
    specialize (Et _ _ Hs). cbn in Et. by rewrite String.eqb_refl in Et.
  - intros [(k & r' & Hk & He)|(k & tb & Hk & He)].
    + specialize (Ee _ _ Hk). cbn in Ee. by rewrite He, String.eqb_refl in Ee.
    + specialize (Et _ _ Hk). cbn in Et. by rewrite He, String.eqb_refl, orb_true_r in Et.
Qed.

Lemma pg_claim_ok db rec :
  tables_ok db -> ~ pg_knows db (rc_TenantID rec) (rc_IdempotencyKey rec) ->
  ~ pg_knows_env db (rc_TenantID rec) (rc_EnvelopeID rec) ->
  tables_ok (Postgres.mkTables (<[(rc_TenantID rec, rc_IdempotencyKey rec) := claim_row rec]>
                                  (Postgres.records db)) (Postgres.tombstones db)).
Proof.
  intros [H1 H2 H3] Hk He. set (x0 := (rc_TenantID rec, rc_IdempotencyKey rec)) in *.
  split; cbn.
  - intros x Hx. destruct (decide (x0 = x)) as [<-|Hne]; [exfalso; apply Hk; by right|].
    rewrite lookup_insert_ne by done. auto.
  - intros t k k' r r'.
    destruct (decide (x0 = (t, k))) as [Hx|Hne];
      [rewrite <- Hx, lookup_insert_eq; intros [= <-]|
       rewrite lookup_insert_ne by done; intros Hr];
    (destruct (decide (x0 = (t, k'))) as [Hx'|Hne'];
      [rewrite <- Hx', lookup_insert_eq; intros [= <-]|
       rewrite lookup_insert_ne by done; intros Hr']); cbn; intros Henv.
    + congruence.
    + injection Hx as Ha Hb. destruct He. rewrite Ha. left. eauto.
    + injection Hx' as Ha Hb. destruct He. rewrite Ha. left. eauto.
    + by eapply H2.
  - intros t k k' r tb. destruct (decide (x0 = (t, k))) as [Hx|Hne].
    + rewrite <- Hx, lookup_insert_eq. intros [= <-] Htb. cbn. intros Henv. apply He. right.
      injection Hx as Ha Hb. rewrite Ha. eauto.
    + rewrite lookup_insert_ne by done. apply H3.
Qed.

(** ** What a pruning pass does *)

Definition tombstone_of (r : Postgres.Row) (now : Time) : Postgres.Tombstone :=
  Postgres.mkTombstone (Postgres.r_envelope_id r) (Postgres.r_client_order_id r)
    (default "UNKNOWN" (Postgres.r_outcome_state r)) now.

Lemma retire_spec now l : forall tombs tombs',
  Postgres.retire tombs now l = Some tombs' ->
  (forall x tb, tombs !! x = Some tb -> tombs' !! x = Some tb) /\
  (forall x r, (x, r) ∈ l -> is_Some (tombs' !! x)) /\
  (forall x tb, tombs' !! x = Some tb ->
     tombs !! x = Some tb \/ exists r, (x, r) ∈ l /\ tb = tombstone_of r now).
Proof.
  induction l as [|[[t k] r] l IH]; cbn [Postgres.retire]; intros tombs tombs'.
  { intros [= <-]. split_and!; [done | | auto]. intros x r H. by apply not_elem_of_nil in H. }
  destruct (tombs !! (t, k)) as [tb0|] eqn:E.
  - intros H. destruct (IH _ _ H) as (H1 & H2 & H3). split_and!; [done | |].
    + intros x r' [[= -> ->]|Hin]%elem_of_cons; [|by eapply H2]. eexists. by apply H1.
    + intros x tb Hx. destruct (H3 _ _ Hx) as [|(r' & Hin & ->)]; [by left|].
      right. exists r'. split; [by apply list_elem_of_further | done].
  - destruct (Postgres.tenant_exists _ _ _); [done|].
    intros H. destruct (IH _ _ H) as (H1 & H2 & H3). split_and!.
    + intros x tb Hx. apply H1. rewrite lookup_insert_ne; [done|]. congruence.
    + intros x r' [[= -> ->]|Hin]%elem_of_cons; [|by eapply H2].
      eexists. apply H1, lookup_insert_eq.
    + intros x tb Hx. destruct (H3 _ _ Hx) as [Hi|(r' & Hin & ->)].
      * destruct (decide ((t, k) = x)) as [<-|Hne].
        -- rewrite lookup_insert_eq in Hi. injection Hi as <-. right. exists r.
           split; [apply list_elem_of_here | done].
        -- rewrite lookup_insert_ne in Hi by done. by left.
      * right. exists r'. split; [by apply list_elem_of_further | done].
Qed.

Lemma delete_keys_lookup l : forall rows x,
  Postgres.delete_keys rows l !! x =
  if decide (x ∈ map fst l) then None else rows !! x.
Proof.
  induction l as [|[y r] l IH]; intros rows x; cbn [Postgres.delete_keys foldl map fst].
  { destruct (decide _) as [H|_]; [by apply not_elem_of_nil in H | done]. }
  fold (Postgres.delete_keys (delete y rows) l). rewrite IH.
  destruct (decide (x ∈ map fst l)) as [Hin|Hnin].
  - rewrite decide_True by by apply list_elem_of_further. done.
  - destruct (decide (y = x)) as [->|Hne].
    + rewrite lookup_delete_eq, decide_True by apply list_elem_of_here. done.
    + rewrite lookup_delete_ne by done. rewrite decide_False; [done|].
      intros [?|?]%elem_of_cons; congruence.
Qed.

Lemma elem_of_doomed db t before x r :
  (x, r) ∈ Postgres.doomed db t before ->
  Postgres.records db !! x = Some r /\ fst x = t /\
  Postgres.r_state r = RecordResolved /\ Postgres.r_updated_at r < before.
Proof.
  unfold Postgres.doomed. intros Hin. apply subseteq_take in Hin.
  rewrite stable_sort_perm in Hin. apply list_elem_of_In, filter_In in Hin as [Hin He].
  apply list_elem_of_In, elem_of_map_to_list in Hin. unfold Postgres.expired in He. cbn in He.
  apply andb_true_iff in He as [Ht He]. apply String.eqb_eq in Ht.
  destruct (Postgres.r_state r); [done|]. apply Z.ltb_lt in He. done.
Qed.

Lemma elem_of_map_fst {A B} (l : list (A * B)) x : x ∈ map fst l <-> exists y, (x, y) ∈ l.
Proof.
  rewrite list_elem_of_In, in_map_iff. split.
  - intros ([x' y] & <- & Hin). exists y. by apply list_elem_of_In.
  - intros (y & Hin). exists (x, y). split; [done | by apply list_elem_of_In].
Qed.

Definition pruned (db : Postgres.Tables) (t : string) (before : Time)
    (tombs : gmap (string * string) Postgres.Tombstone) : Postgres.Tables :=
  Postgres.mkTables (Postgres.delete_keys (Postgres.records db) (Postgres.doomed db t before))
    tombs.

Section Pruned.
Context (db : Postgres.Tables) (t : string) (before now : Time).
Context (tombs : gmap (string * string) Postgres.Tombstone).
Hypothesis Hok : tables_ok db.
Hypothesis Hret : Postgres.retire (Postgres.tombstones db) now
                    (Postgres.doomed db t before) = Some tombs.

Lemma pruned_records x r :
  Postgres.records (pruned db t before tombs) !! x = Some r ->
  Postgres.records db !! x = Some r /\ (x, r) ∉ Postgres.doomed db t before.
Proof.
  cbn. rewrite delete_keys_lookup. destruct (decide _) as [|Hn]; [done|]. intros Hr.
  split; [done|]. intros Hin. apply Hn, elem_of_map_fst. eauto.
Qed.

Lemma pruned_kept x r :
  Postgres.records db !! x = Some r -> (x, r) ∉ Postgres.doomed db t before ->
  Postgres.records (pruned db t before tombs) !! x = Some r.
Proof.
  intros Hr Hn. cbn. rewrite delete_keys_lookup, decide_False; [done|].
  intros (r' & Hin)%elem_of_map_fst. pose proof (elem_of_doomed _ _ _ _ _ Hin) as [Hr' _].
  congruence.
Qed.

(** A pruned record leaves its identity behind. *)
Lemma pruned_retired x r :
  Postgres.records db !! x = Some r -> (x, r) ∈ Postgres.doomed db t before ->
  tombs !! x = Some (tombstone_of r now).
Proof.
  intros Hr Hin. destruct (retire_spec _ _ _ _ Hret) as (H1 & H2 & H3).
  destruct (H2 _ _ Hin) as [tb Htb]. rewrite Htb.
  destruct (H3 _ _ Htb) as [Hold|(r' & Hin' & ->)].
  - assert (Postgres.records db !! x = None) by (apply Hok; eauto). congruence.
  - pose proof (elem_of_doomed _ _ _ _ _ Hin') as [Hr' _]. congruence.
Qed.

Lemma pruned_ok : tables_ok (pruned db t before tombs).
Proof.
  destruct (retire_spec _ _ _ _ Hret) as (H1 & H2 & H3). split.
  - intros x [tb Hx]. cbn in *. rewrite delete_keys_lookup.
    destruct (decide _) as [|Hn]; [done|].
    destruct (H3 _ _ Hx) as [Hold|(r & Hin & _)]; [apply Hok; eauto|].
    exfalso. apply Hn, elem_of_map_fst. eauto.
  - intros t0 k k' r r' Hr Hr'. apply pruned_records in Hr as [Hr _], Hr' as [Hr' _].
    by eapply to_envelopes.
  - intros t0 k k' r tb Hr Htb. apply pruned_records in Hr as [Hr Hn]. cbn in Htb.
    destruct (H3 _ _ Htb) as [Hold|(r' & Hin & ->)]; [by eapply to_retired_env|].
    pose proof (elem_of_doomed _ _ _ _ _ Hin) as [Hr' _]. cbn. intros He.
    assert (k = k') as <- by (by eapply to_envelopes). congruence.
Qed.

Lemma pruned_knows t0 k : pg_knows db t0 k -> pg_knows (pruned db t before tombs) t0 k.
Proof.
  destruct (retire_spec _ _ _ _ Hret) as (H1 & H2 & H3). intros [[r Hr]|[tb Htb]].
  - destruct (decide ((t0, k) ∈ map fst (Postgres.doomed db t before))) as [Hin|Hn].
    + right. apply elem_of_map_fst in Hin as [r' Hin]. by eapply H2.
    + left. exists r. cbn. by rewrite delete_keys_lookup, decide_False.
  - right. eexists. by apply H1.
Qed.

Lemma pruned_knows_env t0 e :
  pg_knows_env db t0 e -> pg_knows_env (pruned db t before tombs) t0 e.
Proof.
  destruct (retire_spec _ _ _ _ Hret) as (H1 & H2 & H3).
  intros [(k & r & Hr & He)|(k & tb & Htb & He)].
  - destruct (decide ((t0, k) ∈ map fst (Postgres.doomed db t before))) as [Hin|Hn].
    + right. apply elem_of_map_fst in Hin as [r' Hin]. exists k, (tombstone_of r now).
      pose proof (elem_of_doomed _ _ _ _ _ Hin) as [Hr' _].
      assert (r' = r) as -> by congruence. split; [by eapply pruned_retired | done].
    + left. exists k, r. cbn. by rewrite delete_keys_lookup, decide_False.
  - right. exists k, tb. split; [by apply H1 | done].
Qed.
End Pruned.

Lemma prune_cases f db t before now db' r :
  Postgres.Prune f db t before now = (db', r) ->
  (db' = db /\ is_ok r = false) \/
  (exists tombs,
     Postgres.retire (Postgres.tombstones db) now (Postgres.doomed db t before) = Some tombs /\
     db' = pruned db t before tombs /\
     (r = Ok (length (Postgres.doomed db t before)) \/ r = Err (ErrStore "commit"))).
Proof.
  intros H. apply withTenant_cases in H as [|(a & Hfn & Hr)]; [by left|]. right.
  cbv zeta in Hfn. destruct (Postgres.retire _ _ _) as [tombs|]; [|done].
  exists tombs. simplify_eq. done.
Qed.

Lemma withTenant_fails {A} f db t (fn : Postgres.Tables -> Postgres.Tables * result A ExecError)
    db' x : f <> Fine -> Postgres.withTenant f db t fn = (db', Ok x) -> False.
Proof.
  unfold Postgres.withTenant. destruct (String.eqb t ""); [done|].
  destruct f; [done | done |]. by destruct (fn db) as [? []].
Qed.

(** ** Resolving writes one pending row, once *)

Lemma pg_resolve num f db t k o at_ db' r :
  Postgres.Resolve num f db t k o at_ = (db', r) ->
  (db' = db /\ is_ok r = false) \/
  (exists row filled, Postgres.records db !! (t, k) = Some row /\
     Postgres.r_state row = RecordPending /\ num (oc_FilledQuantity o) = Some filled /\
     (r = Ok () \/ r = Err (ErrStore "commit")) /\
     db' = Postgres.mkTables
       (<[(t, k) := Postgres.mkRow (Postgres.r_envelope_id row) (Postgres.r_client_order_id row)
                      RecordResolved (Some (oc_State o)) (Postgres.nullIfEmpty (oc_BrokerOrderID o))
                      (Some filled) (Postgres.nullIfEmpty (oc_RejectReason o))
                      (Postgres.r_created_at row) at_]> (Postgres.records db))
       (Postgres.tombstones db)).
Proof.
  intros H. apply withTenant_cases in H as [|(a & Hfn & Hr)]; [by left|]. right.
  destruct (Postgres.records db !! _) as [row|] eqn:E; [|done].
  destruct (Postgres.r_state row) eqn:Es; [|done].
  destruct (num _) as [filled|] eqn:En; [|done]. injection Hfn as <- <-.
  exists row, filled. split_and!; done.
Qed.

(** Replacing a row by one of the same envelope keeps the tables in order. *)
Lemma update_row_ok db t k row row' :
  tables_ok db -> Postgres.records db !! (t, k) = Some row ->
  Postgres.r_envelope_id row' = Postgres.r_envelope_id row ->
  let db' := Postgres.mkTables (<[(t, k) := row']> (Postgres.records db))
               (Postgres.tombstones db) in
  tables_ok db' /\ (forall t0 k0, pg_knows db t0 k0 -> pg_knows db' t0 k0) /\
  (forall t0 e, pg_knows_env db t0 e -> pg_knows_env db' t0 e).
Proof.
  intros [H1 H2 H3] Hr He.
  assert (Hlook : forall t0 k0 r0, <[(t, k) := row']> (Postgres.records db) !! (t0, k0) = Some r0 ->
    exists r1, Postgres.records db !! (t0, k0) = Some r1 /\
      Postgres.r_envelope_id r0 = Postgres.r_envelope_id r1).
  { intros t0 k0 r0. destruct (decide ((t, k) = (t0, k0))) as [Hx|Hne].
    - rewrite <- Hx, lookup_insert_eq. intros [= <-]. eauto.
    - rewrite lookup_insert_ne by done. eauto. }
  assert (Hback : forall t0 k0 r1, Postgres.records db !! (t0, k0) = Some r1 ->
    exists r0, <[(t, k) := row']> (Postgres.records db) !! (t0, k0) = Some r0 /\
      Postgres.r_envelope_id r0 = Postgres.r_envelope_id r1).
  { intros t0 k0 r1 Hr1. destruct (decide ((t, k) = (t0, k0))) as [Hx|Hne].
    - rewrite <- Hx, lookup_insert_eq. rewrite <- Hx, Hr in Hr1. injection Hr1 as <-. eauto.
    - rewrite lookup_insert_ne by done. eauto. }
  cbv zeta. split_and!; [split; cbn| |].
  - intros x Hx. destruct (decide ((t, k) = x)) as [<-|Hne];
      [rewrite (H1 _ Hx) in Hr; done | rewrite lookup_insert_ne by done; auto].
  - intros t0 k1 k2 r1 r2 Hr1 Hr2 Heq. apply Hlook in Hr1 as (? & Ha & ?), Hr2 as (? & Hb & ?).
    eapply H2; [exact Ha | exact Hb | congruence].
  - intros t0 k1 k2 r1 tb Hr1 Htb. apply Hlook in Hr1 as (? & Ha & ->). by eapply H3.
  - intros t0 k0 [[r1 Hr1]|?]; [|by right]. left. apply Hback in Hr1 as (r0 & Hr0 & _).
    by exists r0.
  - intros t0 e [(k0 & r1 & Hr1 & Hre)|?]; [|by right]. left.
    apply Hback in Hr1 as (r0 & Hr0 & Hre0). exists k0, r0. split; [done | congruence].
Qed.

Section PostgresInstance.
Context (num : float64 -> option float64).

#[local] Instance postgres_store_local : IdemStore Postgres.Tables := {
  st_Claim := Postgres.Claim;
  st_Resolve := Postgres.Resolve num;
  st_Load := Postgres.Load;
  st_Prune := Postgres.Prune
}.

Definition pg_find (db : Postgres.Tables) (t k : string) : option IdemRecord :=
  match Postgres.loadInTx db t k with Ok r => Some r | Err _ => None end.

Lemma pg_find_row db t k rec :
  pg_find db t k = Some rec ->
  exists row, Postgres.records db !! (t, k) = Some row /\
    rc_EnvelopeID rec = Postgres.r_envelope_id row /\
    rc_State rec = Postgres.r_state row.
Proof.
  unfold pg_find, Postgres.loadInTx. destruct (Postgres.records db !! _) as [row|]; [|done].
  intros [= <-]. by exists row.
Qed.

#[local] Instance postgres_laws_local : StoreLaws Postgres.Tables.
Proof.
  refine {| st_empty := Postgres.empty_tables; st_ok := tables_ok; st_knows := pg_knows;
            st_knows_env := pg_knows_env; st_find := pg_find; st_tenant_ok _ := true |}.
  - split; cbn.
    + intros x [? H]. by rewrite lookup_empty in H.
    + intros *. by rewrite lookup_empty.
    + intros *. by rewrite lookup_empty.
  - intros f db rec db' r Hok Hc _.
    destruct (pg_claim _ _ _ _ _ Hc) as [[-> Hr]|(Hr & Hk & He & ->)].
    { split_and!; [done..|]. intros x Hx. by destruct (Hr x). }
    split_and!.
    + by apply pg_claim_ok.
    + intros t k [[r0 H]|H]; [left|by right]. exists r0. cbn.
      rewrite lookup_insert_ne; [done|]. intros [= <- <-]. apply Hk. left. eauto.
    + intros t e [(k & r0 & H & Hre)|H]; [left|by right]. exists k, r0. cbn.
      rewrite lookup_insert_ne; [done|]. intros [= <- <-]. apply Hk. left. eauto.
    + intros x _. split_and!; [done | left; cbn; rewrite lookup_insert_eq; by eexists |].
      intros _. split; [done|]. left. exists (rc_IdempotencyKey rec), (claim_row rec). cbn.
      by rewrite lookup_insert_eq.
  - intros db rec held Hok Hf Ht He. cbn. unfold Postgres.Claim, Postgres.withTenant.
    apply String.eqb_neq in Ht. rewrite Ht.
    destruct (pg_find_row _ _ _ _ Hf) as (row & Hrow & Henv & _).
    unfold pg_find in Hf. destruct (Postgres.loadInTx db _ _) as [r|]; [|done].
    injection Hf as ->. cbv zeta. rewrite Hrow.
    destruct (Postgres.tenant_exists _ (Postgres.tombstones db) _); done.
  - intros f db rec db' x Hf. by apply withTenant_fails.
  - intros f db t k o at_ db' r Hok Hr.
    apply pg_resolve in Hr as [[-> _]|(row & filled & Hrow & _ & _ & _ & ->)]; [done|].
    by eapply update_row_ok.
  - intros f db t k o at_ db' e b. cbn. unfold Postgres.Resolve, Postgres.withTenant.
    destruct f; repeat case_match; intros H'; simplify_eq; done.
  - intros f db t before now db' r Hok Hr.
    apply prune_cases in Hr as [[-> _]|(tombs & Hret & -> & _)]; [done|].
    split_and!.
    + by eapply pruned_ok.
    + intros t0 k0. by eapply pruned_knows.
    + intros t0 e0. by eapply pruned_knows_env.
Defined.
End PostgresInstance.

Definition postgres_store : (float64 -> option float64) -> IdemStore Postgres.Tables :=
  postgres_store_local.
Definition postgres_store_laws (num : float64 -> option float64) :
  @StoreLaws Postgres.Tables (postgres_store num) := postgres_laws_local num.

(** * Properties *)

Section Retry.
Context {S V : Type} `{HS : IdemStore S, HL : !StoreLaws S, HV : Adapter V}.
Implicit Types (w : World S V).

Definition fresh_world (c : option Memory.MemoryCache) (v : V) : World S V :=
  mkWorld st_empty c v [].

Lemma fresh_world_ok c v : world_ok (fresh_world c v).
Proof.
  split; cbn; [apply sl_empty | apply NoDup_nil_2 | apply NoDup_nil_2 | |];
    intros t k Hin; by apply not_elem_of_nil in Hin.
Qed.

(** The envelope presents the key it was claimed with, and nothing is cached. *)
Record retry_of (w : World S V) (env : Envelope) (req : OrderRequest) (rec : IdemRecord)
    : Prop := {
  ry_find : st_find (w_store w) (env_TenantID env) (env_IdempotencyKey env) = Some rec;
  ry_envelope : rc_EnvelopeID rec = env_EnvelopeID env;
  ry_cache : fromCache w (env_TenantID env) (env_IdempotencyKey env) = None;
  ry_tenant : env_TenantID env <> "";
  ry_key : env_IdempotencyKey env <> "";
  ry_id : or_ClientOrderID req <> ""
}.

Lemma Submit_retry_resumes su w env req rec :
  st_ok (w_store w) -> retry_of w env req rec -> su_claim su = Fine ->
  Submit su w (Some env) req =
    let '(w', a) := resumeExisting su (set_store w (w_store w)) (Some rec) in (w', Some a).
Proof.
  intros Hok [Hf He Hc Ht Hk Hi] Hsu. unfold Submit.
  apply String.eqb_neq in Ht, Hk, Hi. rewrite Ht, Hk, Hi. cbn [orb]. rewrite Hc, Hsu.
  rewrite (sl_claim_held _ _ rec); [|done|done|by apply String.eqb_neq|by rewrite He].
  unfold claimed_by_other. rewrite He, String.eqb_refl, andb_false_r. done.
Qed.

Lemma reconcile_failed su w t k id v e :
  ad_Reconcile (w_venue w) (su_reconcile_ctx su) id = (v, Err e) ->
  reconcileAndResolve su w t k id =
    (set_venue w v, (unknown id, Some ErrUnresolved)).
Proof. intros H. unfold reconcileAndResolve. by rewrite H. Qed.
End Retry.

(** C3: INV-004, at most one submission.  Starting from an empty store, over any
    history of calls by any tenants with any envelopes and order requests, with
    databases that fail or lose the answer of a commit, venues that time out or
    move on their own, processes that die between the venue's answer and the
    record, caches that disappear and retention that prunes, no idempotency key
    and no envelope id of a tenant is ever sent to a venue twice. *)
Theorem at_most_one_submission {S V : Type}
    `{HS : IdemStore S, HL : !StoreLaws S, HV : Adapter V}
    (c : option Memory.MemoryCache) (v : V) (ops : list (wop (V := V))) :
  Forall wop_ok ops ->
  let w := run_ops wstep (fresh_world c v) ops in
  NoDup (keys_sent w) /\ NoDup (envelopes_sent w).
Proof.
  intros Hops w. destruct (run_ok ops (fresh_world c v) Hops (fresh_world_ok c v)). done.
Qed.

(** A retry never submits.  For a key held by the same envelope, a call sends
    nothing; a resolved record is answered with the recorded outcome and nothing
    changes; a pending one is asked about at the venue under the recorded client
    order id, and if the venue cannot answer, or knows no such order, the outcome
    stays UNKNOWN and unresolved and the record stays as it was. *)
Theorem retry_never_resubmits {S V : Type}
    `{HS : IdemStore S, HL : !StoreLaws S, HV : Adapter V}
    (su : Surroundings) (w : World S V) (env : Envelope) (req : OrderRequest)
    (rec : IdemRecord) :
  st_ok (w_store w) -> retry_of w env req rec -> su_claim su = Fine ->
  let '(w', a) := Submit su w (Some env) req in
  w_sent w' = w_sent w /\
  (rc_State rec = RecordResolved ->
     a = Some (replay (rc_Outcome rec), None) /\
     w_store w' = w_store w /\ w_venue w' = w_venue w) /\
  (rc_State rec = RecordPending ->
     forall v e, ad_Reconcile (w_venue w) (su_reconcile_ctx su) (rc_ClientOrderID rec)
                   = (v, Err e) ->
     a = Some (unknown (rc_ClientOrderID rec), Some ErrUnresolved) /\
     w_store w' = w_store w).
Proof.
  intros Hok Hr Hsu. rewrite (Submit_retry_resumes _ _ _ _ _ Hok Hr Hsu).
  destruct (resumeExisting _ _ _) as [w' a] eqn:E.
  pose proof (resume_quiet _ _ _ _ _ E) as [Hs _]. split; [exact Hs|].
  unfold resumeExisting in E. split.
  - intros Hst. rewrite Hst in E. injection E as <- <-. done.
  - intros Hst v e Hv. rewrite Hst in E.
    rewrite (reconcile_failed _ _ _ _ _ v e) in E by done. injection E as <- <-. done.
Qed.

(** What a recorded or fresh answer is made of. *)
Definition sound_outcome (o : Outcome) : Prop :=
  knownState (oc_State o) = true /\ f64_ltb (oc_FilledQuantity o) f64_zero = false.

Lemma outcomeFrom_sound id order o :
  outcomeFrom id order = Ok o ->
  sound_outcome o /\ oc_ClientOrderID o = id /\ oc_Replayed o = false.
Proof.
  unfold outcomeFrom, sound_outcome.
  destruct (String.eqb_spec (bo_ClientOrderID order) id) as [<-|]; cbn [negb]; [|done].
  destruct (String.eqb _ ""); [done|]. destruct (knownState _) eqn:Ek; cbn [negb]; [|done].
  destruct (f64_ltb _ _) eqn:Ef; [done|]. by intros [= <-].
Qed.

Lemma reconcile_sound {S V : Type} `{HS : IdemStore S, HV : Adapter V}
    su (w : World S V) t k id w' o e :
  reconcileAndResolve su w t k id = (w', (o, e)) ->
  sound_outcome o /\ oc_ClientOrderID o = id /\ oc_Replayed o = false.
Proof.
  unfold reconcileAndResolve. destruct (ad_Reconcile _ _ _) as [v [order|e']].
  - destruct (outcomeFrom _ _) as [o'|] eqn:E.
    + apply outcomeFrom_sound in E as (H1 & H2 & H3).
      destruct (resolve _ _ _ _ _) as [w2 [e2|]]; intros [= <- <- <-]; done.
    + by intros [= <- <- <-].
  - by intros [= <- <- <-].
Qed.

Lemma submitOnce_sound {S V : Type} `{HS : IdemStore S, HV : Adapter V}
    su (w : World S V) env req w' o e :
  submitOnce su w env req = (w', Some (o, e)) ->
  sound_outcome o /\ oc_ClientOrderID o = or_ClientOrderID req /\ oc_Replayed o = false.
Proof.
  unfold submitOnce. destruct (ad_SubmitOrder _ _ _ _) as [v answer].
  destruct (su_crash su); [done|].
  destruct answer as [order|e0]; [destruct (outcomeFrom _ _) eqn:Eo|destruct e0];
    try (destruct (resolve _ _ _ _ _) as [w2 e2] eqn:E; intros [= <- <- <-]);
    try (destruct (reconcileAndResolve _ _ _ _ _) as [w2 [o2 e2]] eqn:E;
         intros [= <- <- <-]; by eapply reconcile_sound);
    [by eapply outcomeFrom_sound | done..].
Qed.

(** INV-012, a venue cannot write nonsense into the record.  Whatever the venue
    answers, an outcome a submission or a reconciliation produces is in one of the
    seven canonical states, has no negative fill, and carries the client order id
    that was asked for; an answer about another order, in an unknown state, or
    with a negative fill becomes UNKNOWN or is asked about again. *)
Theorem outcomes_are_canonical {S V : Type} `{HS : IdemStore S, HV : Adapter V}
    (su : Surroundings) (w : World S V) (env : Envelope) (req : OrderRequest)
    (id : string) (order : BrokerOrder) :
  (forall o, outcomeFrom id order = Ok o <->
     (bo_ClientOrderID order = id /\ knownState (bo_State order) = true /\
      f64_ltb (bo_FilledQuantity order) f64_zero = false /\
      o = mkOutcome (bo_State order) id (bo_BrokerOrderID order) (bo_FilledQuantity order)
            (bo_RejectReason order) false false)) /\
  (forall w' o e, submitOnce su w env req = (w', Some (o, e)) ->
     sound_outcome o /\ oc_ClientOrderID o = or_ClientOrderID req) /\
  (forall w' o e, reconcileAndResolve su w (env_TenantID env) (env_IdempotencyKey env) id
                    = (w', (o, e)) ->
     sound_outcome o /\ oc_ClientOrderID o = id).
Proof.
  split_and!.
  - intros o. unfold outcomeFrom.
    destruct (String.eqb_spec (bo_ClientOrderID order) id) as [<-|]; cbn [negb];
      [|by split; [|intros (? & _)]].
    destruct (String.eqb_spec (bo_State order) "") as [->|];
      [by split; [|intros (_ & ? & _)]|].
    destruct (knownState _); cbn [negb]; [|by split; [|intros (_ & ? & _)]].
    destruct (f64_ltb _ _); [by split; [|intros (_ & _ & ? & _)]|].
    split; [by intros [= <-] | by intros (_ & _ & _ & ->)].
  - intros w' o e H. apply submitOnce_sound in H. tauto.
  - intros w' o e H. apply reconcile_sound in H. tauto.
Qed.

(** ** A concrete history *)

Definition with_identity (e : Envelope) (tenant key envelope : string) : Envelope :=
  mkEnvelope (env_SchemaVersion e) envelope key (env_CorrelationID e) (env_ReceivedAt e) tenant
    (env_Principal e) (env_Agent e) (env_RuntimeClaims e) (env_AuthorityGrantID e)
    (env_Dependencies e) (env_Intent e) (env_ParentIntentID e) (env_StrategyID e)
    (env_PortfolioSnapshotID e) (env_MarketSnapshotID e) (env_Signature e).

Definition with_id (r : OrderRequest) (id tenant : string) : OrderRequest :=
  mkOrderRequest id tenant (or_InstrumentID r) (or_Symbol r) (or_AssetClass r) (or_Side r)
    (or_OrderType r) (or_Quantity r) (or_Notional r) (or_LimitPrice r) (or_StopPrice r)
    (or_TimeInForce r) (or_ExtendedHours r).

Definition calm (now : Time) : Surroundings := mkSurroundings now None None Fine Fine false.
Definition crashing (now : Time) : Surroundings := mkSurroundings now None None Fine Fine true.

Definition demo_env : Envelope := with_identity sample_envelope "tenant-1" "k1" "env-1".

(** A venue that loses its answer for k2 and never finds it again. *)
Definition demo_venue : FakeBroker.Broker :=
  FakeBroker.InjectFault FakeBroker.New "coid-k2" FakeBroker.FaultUnreconcilable.

Definition demo_history : list (wop (V := FakeBroker.Broker)) :=
  [OpSubmit (crashing 10) (Some demo_env) sample_request;
   OpCacheLost;
   OpSubmit (calm 20) (Some demo_env) sample_request;
   OpSubmit (calm 25) (Some (with_identity sample_envelope "tenant-1" "k3" "env-1"))
     (with_id sample_request "coid-k3" "tenant-1");
   OpSubmit (calm 30) (Some (with_identity sample_envelope "tenant-1" "k2" "env-2"))
     (with_id sample_request "coid-k2" "tenant-1");
   OpSubmit (calm 40) (Some (with_identity sample_envelope "tenant-1" "k2" "env-2"))
     (with_id sample_request "coid-k2" "tenant-1");
   OpPrune Fine "tenant-1" 100 100; OpCacheLost;
   OpSubmit (calm 110) (Some demo_env) sample_request].

Definition demo_world : World Postgres.Tables FakeBroker.Broker :=
  run_ops (@wstep _ _ (postgres_store Some) _)
    (@fresh_world _ _ (postgres_store Some) (postgres_store_laws Some)
       (Some Memory.NewMemoryCache) demo_venue)
    demo_history.

Lemma demo_history_ok :
  Forall (@wop_ok _ _ (postgres_store Some) (postgres_store_laws Some)) demo_history.
Proof. repeat constructor. Qed.

Example at_most_one_submission_witness :
  keys_sent demo_world = [("tenant-1", "k1"); ("tenant-1", "k2")] /\
  NoDup (keys_sent demo_world).
Proof.
  split; [vm_compute; reflexivity|].
  exact (proj1 (@at_most_one_submission _ _ (postgres_store Some) (postgres_store_laws Some)
    _ (Some Memory.NewMemoryCache) demo_venue demo_history demo_history_ok)).
Defined.

Definition pending_world : World Memory.MemoryStore FakeBroker.Broker :=
  run_ops wstep (fresh_world None demo_venue)
    [OpSubmit (crashing 10) (Some demo_env) sample_request].

Example retry_never_resubmits_witness :
  let '(w', _) := Submit (calm 20) pending_world (Some demo_env) sample_request in
  w_sent w' = w_sent pending_world /\
  FakeBroker.Submissions (w_venue w') "coid-k1" = 1.
Proof.
  destruct (Submit (calm 20) pending_world (Some demo_env) sample_request) as [w' a] eqn:E.
  assert (Hr : exists rec, retry_of pending_world demo_env sample_request rec).
  { eexists. split; [vm_compute; reflexivity | reflexivity | reflexivity | discriminate..]. }
  destruct Hr as [rec Hr]. split.
  - pose proof (retry_never_resubmits (calm 20) pending_world demo_env sample_request rec) as H.
    rewrite E in H. apply H; [|exact Hr | reflexivity].
    apply run_ok; [repeat constructor | apply fresh_world_ok].
  - change w' with (fst (w', a)). rewrite <- E. vm_compute. reflexivity.
Defined.

(** The guard that keeps an outcome from another request is bypassed by the
    cache.  [resolve] caches a record without its envelope id, and [Submit] refuses
    a cached record only when that id is present: after one envelope's order is
    resolved, a different envelope presenting the same key is answered with the
    first one's outcome, where the store alone refuses it. *)
Theorem cached_outcome_ignores_envelope :
  let other := with_identity sample_envelope "tenant-1" "k1" "env-9" in
  let run c := wstep (fresh_world (S := Memory.MemoryStore) c FakeBroker.New)
                 (OpSubmit (calm 10) (Some demo_env) sample_request) in
  snd (Submit (calm 20) (run None) (Some other) sample_request) =
    Some (zeroOutcome, Some (ErrKeyReused "env-1")) /\
  option_map (fun a => (oc_State (fst a), oc_ClientOrderID (fst a), oc_Replayed (fst a), snd a))
    (snd (Submit (calm 20) (run (Some Memory.NewMemoryCache)) (Some other) sample_request)) =
    Some (StateAccepted, "coid-k1", true, None).
Proof. vm_compute. done. Qed.

(** * Retention spends a key, it never reopens one *)

Section Retention.
Context (num : float64 -> option float64).

Inductive store_op :=
| SClaim (f : Fault) (rec : IdemRecord)
| SResolve (f : Fault) (t k : string) (o : Outcome) (at_ : Time)
| SPrune (f : Fault) (t : string) (before now : Time).

Definition sstep (db : Postgres.Tables) (op : store_op) : Postgres.Tables :=
  match op with
  | SClaim f rec => fst (Postgres.Claim f db rec)
  | SResolve f t k o at_ => fst (Postgres.Resolve num f db t k o at_)
  | SPrune f t before now => fst (Postgres.Prune f db t before now)
  end.

(** The record is there unchanged, or its identity is retired. *)
Definition spent_as (t k : string) (row : Postgres.Row) (db : Postgres.Tables) : Prop :=
  tables_ok db /\
  (Postgres.records db !! (t, k) = Some row \/
   exists now, Postgres.tombstones db !! (t, k) = Some (tombstone_of row now)).

Lemma spent_step t k row db op :
  Postgres.r_state row = RecordResolved -> spent_as t k row db -> spent_as t k row (sstep db op).
Proof.
  intros Hres [Hok Hsp]. destruct op as [f rec|f t0 k0 o at_|f t0 before now]; cbn [sstep].
  - destruct (Postgres.Claim f db rec) as [db' r] eqn:E. cbn.
    apply pg_claim in E as [[-> _]|(_ & Hk & He & ->)]; [done|].
    split; [by apply pg_claim_ok|]. cbn. destruct Hsp as [Hr|Ht]; [left|by right].
    rewrite lookup_insert_ne; [done|]. intros [= <- <-]. apply Hk. left. eauto.
  - destruct (Postgres.Resolve num f db t0 k0 o at_) as [db' r] eqn:E. cbn.
    apply pg_resolve in E as [[-> _]|(row0 & fl & Hr0 & Hst & _ & _ & ->)]; [done|].
    split; [by eapply update_row_ok|]. cbn. destruct Hsp as [Hr|Ht]; [left|by right].
    rewrite lookup_insert_ne; [done|]. intros [= <- <-]. congruence.
  - destruct (Postgres.Prune f db t0 before now) as [db' r] eqn:E. cbn.
    apply prune_cases in E as [[-> _]|(tombs & Hret & -> & _)]; [done|].
    split; [by eapply pruned_ok|]. destruct Hsp as [Hr|[nw Ht]].
    + destruct (decide ((t, k) ∈ map fst (Postgres.doomed db t0 before))) as [Hin|Hn].
      * apply elem_of_map_fst in Hin as [r' Hin].
        pose proof (elem_of_doomed _ _ _ _ _ Hin) as [Hr' _].
        assert (r' = row) as -> by congruence. right. exists now. by eapply pruned_retired.
      * left. apply pruned_kept; [done|]. intros Hin. apply Hn, elem_of_map_fst. eauto.
    + right. exists nw. by apply (proj1 (retire_spec _ _ _ _ Hret)).
Qed.

Lemma spent_run t k row ops : forall db,
  Postgres.r_state row = RecordResolved -> spent_as t k row db ->
  spent_as t k row (run_ops sstep db ops).
Proof.
  induction ops as [|op ops IH]; intros db Hr Hs; [done|]. cbn. apply IH; [done|].
  by apply spent_step.
Qed.
End Retention.

Lemma spent_claim t k row f db rec x :
  spent_as t k row db -> rc_TenantID rec = t ->
  rc_IdempotencyKey rec = k \/ rc_EnvelopeID rec = Postgres.r_envelope_id row ->
  snd (Postgres.Claim f db rec) <> Ok (x, true).
Proof.
  intros [Hok Hsp] <- Hid Hc. destruct (Postgres.Claim f db rec) as [db' r] eqn:E. cbn in Hc.
  apply pg_claim in E as [[_ Hr]|(_ & Hk & He & _)]; [by destruct (Hr x)|].
  destruct Hid as [<-|Henv].
  - apply Hk. destruct Hsp as [?|[? ?]]; [left|right]; eauto.
  - apply He. rewrite Henv. destruct Hsp as [?|[? ?]]; [left|right]; eauto.
Qed.

Lemma retired_claim t k row now db rec :
  tables_ok db -> Postgres.tombstones db !! (t, k) = Some (tombstone_of row now) ->
  rc_TenantID rec = t -> rc_IdempotencyKey rec = k -> t <> "" ->
  Postgres.Claim Fine db rec = (db, Err ErrKeyRetired).
Proof.
  intros Hok Ht <- <- Hne. unfold Postgres.Claim, Postgres.withTenant.
  apply String.eqb_neq in Hne. rewrite Hne. cbv zeta.
  assert (Hex : forall p, p (rc_IdempotencyKey rec) (tombstone_of row now) = true ->
    Postgres.tenant_exists p (Postgres.tombstones db) (rc_TenantID rec) = true).
  { intros p Hp. apply tenant_exists_spec. eauto. }
  rewrite Hex by by rewrite String.eqb_refl.
  unfold Postgres.loadInTx. rewrite (to_disjoint db Hok) by eauto.
  unfold Postgres.retiredInTx. rewrite Hex by apply String.eqb_refl. done.
Qed.

(** C8: A recorded outcome is the answer for its key for good.  Once a record is
    resolved, no sequence of claims, resolutions and pruning passes, whatever fails
    among them, changes it: it is there as written, or its identity is retired with
    its final state, and a claim of its key is then refused as retired.  At no
    point can its key, or its envelope under another key, be claimed again. *)
Theorem resolved_is_forever (num : float64 -> option float64) (db : Postgres.Tables)
    (t k : string) (row : Postgres.Row) (ops : list store_op) :
  tables_ok db -> t <> "" -> Postgres.records db !! (t, k) = Some row ->
  Postgres.r_state row = RecordResolved ->
  let db' := run_ops (sstep num) db ops in
  (Postgres.records db' !! (t, k) = Some row \/
   exists tb, Postgres.tombstones db' !! (t, k) = Some tb /\
     Postgres.t_envelope_id tb = Postgres.r_envelope_id row /\
     Postgres.t_final_state tb = default "UNKNOWN" (Postgres.r_outcome_state row) /\
     forall rec, rc_TenantID rec = t -> rc_IdempotencyKey rec = k ->
       Postgres.Claim Fine db' rec = (db', Err ErrKeyRetired)) /\
  (forall f rec x, rc_TenantID rec = t ->
     rc_IdempotencyKey rec = k \/ rc_EnvelopeID rec = Postgres.r_envelope_id row ->
     snd (Postgres.Claim f db' rec) <> Ok (x, true)).
Proof.
  intros Hok Hne Hr Hst db'.
  assert (Hs : spent_as t k row db') by (apply spent_run; [done | split; auto]).
  split.
  - destruct Hs as [Hok' [?|[now Ht]]]; [by left|right].
    exists (tombstone_of row now). split_and!; try done.
    intros rec Hrt Hrk. by eapply retired_claim.
  - intros f rec x. by apply spent_claim.
Qed.

Definition retired_row : Postgres.Row :=
  Postgres.mkRow "env-1" "coid-k1" RecordResolved (Some "FILLED") None None None 5 6.
Definition one_row : Postgres.Tables := Postgres.mkTables {[("tenant-1", "k1") := retired_row]} ∅.

Lemma one_row_ok : tables_ok one_row.
Proof.
  split; cbn.
  - intros x [? H]. by rewrite lookup_empty in H.
  - intros t k k' r r' [[= <- <-] _]%lookup_singleton_Some [[= <-] _]%lookup_singleton_Some. done.
  - intros t k k' r tb _ H. by rewrite lookup_empty in H.
Qed.

Example resolved_is_forever_witness :
  let db' := run_ops (sstep Some) one_row [SPrune Fine "tenant-1" 100 100] in
  let again := mkRecord "tenant-1" "k9" "env-1" "coid-k9" RecordPending zeroOutcome 200 200 in
  Postgres.Claim Fine db' again = (db', Err ErrEnvelopeReused) /\
  snd (Postgres.Claim Fine db' again) <> Ok (None, true).
Proof.
  cbv zeta. split; [vm_compute; reflexivity|].
  refine (proj2 (resolved_is_forever Some one_row "tenant-1" "k1" retired_row
    [SPrune Fine "tenant-1" 100 100] one_row_ok _ eq_refl eq_refl) Fine
    (mkRecord "tenant-1" "k9" "env-1" "coid-k9" RecordPending zeroOutcome 200 200)
    (None : option IdemRecord) eq_refl (or_intror eq_refl)).
  discriminate.
Defined.

(** ** The sweep ends, and ends clean *)

Lemma retire_succeeds now l : forall tombs,
  NoDup (map (fun x => (fst (fst x), Postgres.r_envelope_id (snd x))) l) ->
  (forall t k r k' tb, ((t, k), r) ∈ l -> tombs !! (t, k') = Some tb ->
     Postgres.r_envelope_id r <> Postgres.t_envelope_id tb) ->
  is_Some (Postgres.retire tombs now l).
Proof.
  induction l as [|[[t k] r] l IH]; cbn [Postgres.retire map]; intros tombs Hnd Hsep; [eauto|].
  inversion Hnd as [|? ? Hnin Hnd']; subst. cbn in Hnin.
  assert (Hsep' : forall t0 k0 r0 k' tb, ((t0, k0), r0) ∈ l -> tombs !! (t0, k') = Some tb ->
     Postgres.r_envelope_id r0 <> Postgres.t_envelope_id tb).
  { intros. eapply Hsep; [by apply list_elem_of_further | done]. }
  destruct (tombs !! (t, k)) eqn:E; [by apply IH|].
  destruct (Postgres.tenant_exists _ _ _) eqn:Et.
  { apply tenant_exists_spec in Et as (k' & tb & Htb & He). apply String.eqb_eq in He.
    exfalso. eapply Hsep; [apply list_elem_of_here | exact Htb | done]. }
  apply IH; [done|]. intros t0 k0 r0 k' tb Hin.
  destruct (decide ((t, k) = (t0, k'))) as [Hx|Hne].
  - rewrite <- Hx, lookup_insert_eq. intros [= <-]. cbn. intros He. apply Hnin.
    injection Hx as Ha Hb. rewrite Ha, <- He. apply list_elem_of_In, in_map_iff.
    exists ((t0, k0), r0). split; [done | by apply list_elem_of_In].
  - rewrite lookup_insert_ne by done. by eapply Hsep'.
Qed.

Lemma NoDup_doomed db t before : NoDup (Postgres.doomed db t before).
Proof.
  unfold Postgres.doomed. eapply sublist_NoDup; [|apply sublist_take].
  rewrite stable_sort_perm. apply NoDup_ListNoDup, List.NoDup_filter, NoDup_ListNoDup.
  apply NoDup_map_to_list.
Qed.

Lemma doomed_retires db t before now :
  tables_ok db ->
  is_Some (Postgres.retire (Postgres.tombstones db) now (Postgres.doomed db t before)).
Proof.
  intros Hok. apply retire_succeeds.
  - apply (NoDup_fmap_2_strong (fun x : (string * string) * Postgres.Row =>
      (fst (fst x), Postgres.r_envelope_id (snd x)))); [|apply NoDup_doomed].
    intros [[t1 k1] r1] [[t2 k2] r2] H1 H2 [= <- He].
    apply elem_of_doomed in H1 as [H1 _], H2 as [H2 _].
    assert (k1 = k2) as <- by (by eapply to_envelopes). congruence.
  - intros t0 k r k' tb Hin. apply elem_of_doomed in Hin as [Hin _].
    by eapply to_retired_env.
Qed.

Lemma Prune_fine db t before now :
  tables_ok db -> t <> "" ->
  exists tombs,
    Postgres.retire (Postgres.tombstones db) now (Postgres.doomed db t before) = Some tombs /\
    Postgres.Prune Fine db t before now =
      (pruned db t before tombs, Ok (length (Postgres.doomed db t before))).
Proof.
  intros Hok Hne. destruct (doomed_retires db t before now Hok) as [tombs Ht].
  exists tombs. split; [done|]. unfold Postgres.Prune, Postgres.withTenant.
  apply String.eqb_neq in Hne. by rewrite Hne, Ht.
Qed.

(** A pass below the batch took every expired record. *)
Lemma short_batch db t before x row :
  (length (Postgres.doomed db t before) < Postgres.PruneBatch)%nat ->
  Postgres.records db !! x = Some row -> Postgres.expired t before (x, row) = true ->
  (x, row) ∈ Postgres.doomed db t before.
Proof.
  unfold Postgres.doomed. set (l := stable_sort _ _). intros Hlen Hr He.
  rewrite length_take in Hlen. rewrite take_ge by lia. subst l.
  rewrite stable_sort_perm. apply list_elem_of_In, filter_In. split; [|done].
  by apply list_elem_of_In, elem_of_map_to_list.
Qed.

Lemma size_delete_keys l : forall rows : gmap (string * string) Postgres.Row,
  (size (Postgres.delete_keys rows l) <= size rows)%nat /\
  (forall x r, (x, r) ∈ l -> is_Some (rows !! x) ->
     (size (Postgres.delete_keys rows l) < size rows)%nat).
Proof.
  induction l as [|[y r] l IH]; intros rows.
  { split; [done|]. intros x r Hin. by apply not_elem_of_nil in Hin. }
  cbn [Postgres.delete_keys foldl fst]. fold (Postgres.delete_keys (delete y rows) l).
  destruct (IH (delete y rows)) as [Hle Hlt].
  assert (Hd : (size (delete y rows) <= size rows)%nat).
  { rewrite map_size_delete. destruct (rows !! y); cbn; lia. }
  split; [lia|]. intros x r' Hin Hx.
  destruct (decide (x = y)) as [->|Hne].
  - destruct Hx as [v Hv]. rewrite map_size_delete, Hv in Hle. cbn in Hle.
    assert (size rows <> 0%nat); [|lia]. intros Hz%map_size_empty_inv. subst.
    by rewrite lookup_empty in Hv.
  - apply elem_of_cons in Hin as [[= -> ->]|Hin]; [done|].
    assert ((size (Postgres.delete_keys (delete y rows) l) < size (delete y rows))%nat); [|lia].
    apply (Hlt x r' Hin). by rewrite lookup_delete_ne.
Qed.

(** What a sweep leaves of a record. *)
Definition swept (t : string) (before now : Time) (db db' : Postgres.Tables) : Prop :=
  forall x row, Postgres.records db !! x = Some row ->
    if Postgres.expired t before (x, row)
    then Postgres.records db' !! x = None /\
         Postgres.tombstones db' !! x = Some (tombstone_of row now)
    else Postgres.records db' !! x = Some row.

Lemma sweep_ends t before now : forall n db total,
  tables_ok db -> t <> "" -> (size (Postgres.records db) < n)%nat ->
  let '(db', _, done) := Postgres.sweep_tenant (replicate n Fine) db t before now total in
  done = true /\ tables_ok db' /\ swept t before now db db' /\
  (forall x tb, Postgres.tombstones db !! x = Some tb -> Postgres.tombstones db' !! x = Some tb).
Proof.
  induction n as [|n IH]; intros db total Hok Hne Hn; [lia|].
  cbn [replicate Postgres.sweep_tenant].
  destruct (Prune_fine db t before now Hok Hne) as (tombs & Hret & ->).
  pose proof (pruned_ok db t before now tombs Hok Hret) as Hok'.
  assert (Hone : forall x row, Postgres.records db !! x = Some row ->
    Postgres.records (pruned db t before tombs) !! x = Some row \/
    (Postgres.expired t before (x, row) = true /\
     Postgres.records (pruned db t before tombs) !! x = None /\
     tombs !! x = Some (tombstone_of row now))).
  { intros x row Hr.
    destruct (decide (x ∈ map fst (Postgres.doomed db t before))) as [Hin|Hn'].
    - apply elem_of_map_fst in Hin as [r' Hin].
      pose proof (elem_of_doomed _ _ _ _ _ Hin) as (Hr' & Ht & Hs & Hb).
      assert (r' = row) as -> by congruence. right. split_and!.
      + unfold Postgres.expired, Before. cbn. rewrite Ht, String.eqb_refl, Hs. cbn.
        by apply Z.ltb_lt.
      + cbn. rewrite delete_keys_lookup, decide_True; [done|]. apply elem_of_map_fst. eauto.
      + exact (pruned_retired db t before now tombs Hok Hret x row Hr Hin).
    - left. apply pruned_kept; [done|]. intros Hin. apply Hn', elem_of_map_fst. eauto. }
  destruct (Nat.ltb_spec (length (Postgres.doomed db t before)) Postgres.PruneBatch) as [Hs|Hs].
  - split_and!; [done | done | |apply (retire_spec _ _ _ _ Hret)].
    intros x row Hr. destruct (Hone x row Hr) as [Hk|(-> & ? & ?)]; [|done].
    destruct (Postgres.expired t before (x, row)) eqn:He; [|done].
    pose proof (short_batch _ _ _ _ _ Hs Hr He) as Hin.
    cbn in Hk. rewrite delete_keys_lookup, decide_True in Hk; [done|].
    apply elem_of_map_fst. eauto.
  - assert (Hsz : (size (Postgres.records (pruned db t before tombs)) < n)%nat).
    { destruct (Postgres.doomed db t before) as [|[x r] l] eqn:El.
      { exfalso. assert (0 < Postgres.PruneBatch)%nat by (vm_compute; lia). cbn in Hs. lia. }
      destruct (size_delete_keys (Postgres.doomed db t before) (Postgres.records db)) as [_ Hlt].
      assert (Hx : (x, r) ∈ Postgres.doomed db t before) by (rewrite El; apply list_elem_of_here).
      pose proof (elem_of_doomed _ _ _ _ _ Hx) as [Hr _].
      specialize (Hlt x r Hx ltac:(eauto)). cbn. lia. }
    specialize (IH (pruned db t before tombs)
      (total + length (Postgres.doomed db t before))%nat Hok' Hne Hsz).
    destruct (Postgres.sweep_tenant _ _ _ _ _ _) as [[db' tot] dn].
    destruct IH as (-> & Hok2 & Hsw & Hmono). split_and!; [done | done | |].
    + intros x row Hr. destruct (Hone x row Hr) as [Hk|(-> & Hgone & Ht)]; [by apply Hsw|].
      split; [apply (to_disjoint _ Hok2); eexists|]; by apply Hmono.
    + intros x tb Hx. apply Hmono. by apply (proj1 (retire_spec _ _ _ _ Hret)).
Qed.

(** C40: The retention sweep of a tenant ends and does exactly what it should.  Given
    a working database and more passes than there are records, it stops by itself;
    afterwards every resolved record older than the cutoff is gone and its identity
    is retired with its final state, and every other record, every PENDING one and
    every other tenant's among them, is untouched. *)
Theorem sweep_prunes_exactly (db : Postgres.Tables) (t : string) (before now : Time)
    (passes : nat) :
  tables_ok db -> t <> "" -> (size (Postgres.records db) < passes)%nat ->
  let '(db', _, done) :=
    Postgres.sweep_tenant (replicate passes Fine) db t before now 0 in
  done = true /\
  forall t0 k row, Postgres.records db !! (t0, k) = Some row ->
    if String.eqb t0 t && bool_decide (Postgres.r_state row = RecordResolved) &&
       (Postgres.r_updated_at row <? before)
    then Postgres.records db' !! (t0, k) = None /\
         Postgres.tombstones db' !! (t0, k) = Some (tombstone_of row now)
    else Postgres.records db' !! (t0, k) = Some row.
Proof.
  intros Hok Hne Hn. pose proof (sweep_ends t before now passes db 0 Hok Hne Hn) as H.
  destruct (Postgres.sweep_tenant _ _ _ _ _ _) as [[db' tot] dn].
  destruct H as (-> & _ & Hsw & _). split; [done|].
  intros t0 k row Hr. specialize (Hsw _ _ Hr). unfold Postgres.expired, Before in Hsw.
  cbn [fst snd] in Hsw. destruct (String.eqb t0 t); [|exact Hsw]. cbn [andb] in *.
  destruct (Postgres.r_state row); exact Hsw.
Qed.

Example sweep_prunes_exactly_witness :
  let '(db', total, _) :=
    Postgres.sweep_tenant (replicate 2 Fine) one_row "tenant-1" 100 100 0 in
  total = 1%nat /\ Postgres.records db' !! ("tenant-1", "k1") = None.
Proof.
  assert (Hn : (size (Postgres.records one_row) < 2)%nat) by (vm_compute; lia).
  pose proof (sweep_prunes_exactly one_row "tenant-1" 100 100 2 one_row_ok
    ltac:(discriminate) Hn) as H.
  destruct (Postgres.sweep_tenant _ _ _ _ _ _) as [[db' tot] dn] eqn:E. split.
  - change tot with (snd (fst (db', tot, dn))). rewrite <- E. vm_compute. reflexivity.
  - apply (proj1 (proj2 H "tenant-1" "k1" retired_row eq_refl)).
Defined.
