(* ===== verification/CanonicalJSON.v ===== *)
(** The canonical form of JSON documents: internal/canonicaljson/canonicaljson.go and
    the envelope's use of it in internal/intent/signature.go.

    A [Doc] is what the decoder produces with UseNumber: numbers are their literal
    text, and an object is a map, given as the list of its members in any order.
    [DOther] stands for a Go value of any other type.  What [encoding/json] writes
    for a string is modelled byte by byte.  Decoding is not modelled. *)

From S2P Require Import Prelude.

Inductive Doc :=
| DNull
| DBool (b : bool)
| DNumber (literal : string)
| DString (s : string)
| DArray (items : list Doc)
| DObject (members : list (string * Doc))
| DOther.

(** * Strings *)

Abbreviation bytes_t := (list nat).

Definition cont (b : nat) : bool := ((128 <=? b) && (b <=? 191))%nat.
Definition between (lo hi b : nat) : bool := ((lo <=? b) && (b <=? hi))%nat.

(** The bytes after the first encoded rune, when the first bytes encode one. *)
Definition after_rune (l : bytes_t) : option bytes_t :=
  match l with
  | [] => None
  | a :: l1 =>
      if (a <? 128)%nat then Some l1
      else match l1 with
      | [] => None
      | b :: l2 =>
          if between 194 223 a then (if cont b then Some l2 else None)
          else match l2 with
          | [] => None
          | c :: l3 =>
              if (Nat.eqb a 224 && between 160 191 b) ||
                 (between 225 236 a && cont b) || (between 238 239 a && cont b) ||
                 (Nat.eqb a 237 && between 128 159 b)
              then (if cont c then Some l3 else None)
              else match l3 with
              | [] => None
              | d :: l4 =>
                  if ((Nat.eqb a 240 && between 144 191 b) ||
                      (between 241 243 a && cont b) ||
                      (Nat.eqb a 244 && between 128 143 b)) && cont c && cont d
                  then Some l4 else None
              end
          end
      end
  end.

(** Every rune takes a byte, so the length is enough fuel. *)
Fixpoint valid_utf8 (fuel : nat) (l : bytes_t) : bool :=
  match l, fuel with
  | [], _ => true
  | _, O => false
  | _, S f => match after_rune l with Some l' => valid_utf8 f l' | None => false end
  end.

Definition ValidString (s : string) : bool := let l := bytes s in valid_utf8 (length l) l.

Definition hex_digit (n : nat) : nat := (if n <? 10 then 48 + n else 87 + n)%nat.

(** [\u00hh] *)
Definition u00 (b : nat) : bytes_t :=
  [92; 117; 48; 48; hex_digit (b / 16); hex_digit (b mod 16)]%nat.

Definition html_special (b : nat) : bool := (Nat.eqb b 60 || Nat.eqb b 62 || Nat.eqb b 38)%nat.

Definition escape_byte (b : nat) : bytes_t :=
  (if Nat.eqb b 34 || Nat.eqb b 92 then [92; b]
   else if Nat.eqb b 8 then [92; 98]
   else if Nat.eqb b 12 then [92; 102]
   else if Nat.eqb b 10 then [92; 110]
   else if Nat.eqb b 13 then [92; 114]
   else if Nat.eqb b 9 then [92; 116]
   else if (b <? 32)%nat || html_special b then u00 b
   else [b])%nat.

(** The body of the encoded string; U+2028 and U+2029 are escaped too. *)
Fixpoint escape (l : bytes_t) : bytes_t :=
  match l with
  | [] => []
  | a :: l1 =>
      match l1 with
      | b :: c :: l' =>
          if (Nat.eqb a 226 && Nat.eqb b 128 && (Nat.eqb c 168 || Nat.eqb c 169))%nat
          then ([92; 117; 50; 48; 50; c - 112] ++ escape l')%nat
          else escape_byte a ++ escape l1
      | _ => escape_byte a ++ escape l1
      end
  end.

Definition writeString (s : string) : option bytes_t :=
  if ValidString s then Some ((34%nat :: escape (bytes s)) ++ [34%nat]) else None.

(** * Documents *)

Definition member_before {A} (x y : string * A) : bool := str_ltb (fst x) (fst y).

Definition sort_members {A} (l : list (string * A)) : list (string * A) :=
  stable_sort member_before l.

Fixpoint join (parts : list (option bytes_t)) : option bytes_t :=
  match parts with
  | [] => Some []
  | [p] => p
  | p :: parts' =>
      match p, join parts' with
      | Some a, Some b => Some (a ++ 44%nat :: b)
      | _, _ => None
      end
  end.

Definition member (x : string * option bytes_t) : option bytes_t :=
  match writeString (fst x), snd x with
  | Some k, Some v => Some (k ++ 58%nat :: v)
  | _, _ => None
  end.

Definition wrap (open close : nat) (body : option bytes_t) : option bytes_t :=
  match body with Some b => Some (open :: b ++ [close]) | None => None end.

Fixpoint write (d : Doc) : option bytes_t :=
  match d with
  | DNull => Some (bytes "null")
  | DBool true => Some (bytes "true")
  | DBool false => Some (bytes "false")
  | DNumber n => Some (bytes n)
  | DString s => writeString s
  | DArray l => wrap 91 93 (join (map write l))
  | DObject l =>
      wrap 123 125 (join (map member (sort_members (map (fun '(k, v) => (k, write v)) l))))
  | DOther => None
  end.

(** A decoded document, canonicalized; [None] is the error. *)
Definition Canonical (d : Doc) : option bytes_t := write d.

Definition CanonicalObject (d : Doc) : option (list (string * Doc)) :=
  match d with DObject l => Some l | _ => None end.

Definition CanonicalizeObject (l : list (string * Doc)) : option bytes_t := write (DObject l).

Definition remove (key : string) (l : list (string * Doc)) : list (string * Doc) :=
  List.filter (fun x => negb (String.eqb (fst x) key)) l.

(** The bytes a signature covers: the document without its own signature. *)
Definition SignedBytes (d : Doc) : option bytes_t :=
  match CanonicalObject d with
  | Some l => CanonicalizeObject (remove "signature" l)
  | None => None
  end.

(** The documents the decoder produces have number literals. *)
Definition number_byte (b : nat) : bool :=
  (between 48 57 b || Nat.eqb b 45 || Nat.eqb b 43 || Nat.eqb b 46 || Nat.eqb b 101 ||
   Nat.eqb b 69)%nat.

Definition number_literal (s : string) : bool :=
  match bytes s with
  | [] => false
  | b :: l => (between 48 57 b || Nat.eqb b 45)%nat && forallb number_byte (b :: l)
  end.

Fixpoint well_formed (d : Doc) : bool :=
  match d with
  | DNumber n => number_literal n
  | DArray l => forallb well_formed l
  | DObject l => forallb (fun '(_, v) => well_formed v) l
  | _ => true
  end.

(** A document with the members of every object in key order. *)
Fixpoint normalize (d : Doc) : Doc :=
  match d with
  | DArray l => DArray (map normalize l)
  | DObject l => DObject (sort_members (map (fun '(k, v) => (k, normalize v)) l))
  | _ => d
  end.

Example write_ex :
  option_map str_of_bytes
    (write (DObject [("z", DObject [("b", DBool true); ("a", DNull)]);
                     ("list", DArray [DNumber "3"; DNumber "1.00"]); ("s", DString "a&b")])) =
  Some (String.concat "" ["{"; String (Ascii.ascii_of_nat 34) "list"; String (Ascii.ascii_of_nat 34)
    ":[3,1.00],"; String (Ascii.ascii_of_nat 34) "s"; String (Ascii.ascii_of_nat 34) ":";
    String (Ascii.ascii_of_nat 34) "a\u0026b"; String (Ascii.ascii_of_nat 34) ",";
    String (Ascii.ascii_of_nat 34) "z"; String (Ascii.ascii_of_nat 34) ":{";
    String (Ascii.ascii_of_nat 34) "a"; String (Ascii.ascii_of_nat 34) ":null,";
    String (Ascii.ascii_of_nat 34) "b"; String (Ascii.ascii_of_nat 34) ":true}}"]).
Proof. vm_compute. reflexivity. Qed.

(** * Reading a canonical string back *)

Definition hex_value (n : nat) : nat := (if n <? 58 then n - 48 else n - 87)%nat.

Definition unescape_byte (b : nat) : nat :=
  (if Nat.eqb b 98 then 8 else if Nat.eqb b 102 then 12 else if Nat.eqb b 110 then 10
   else if Nat.eqb b 114 then 13 else if Nat.eqb b 116 then 9 else b)%nat.

(** One character of the body: what it stands for, and what follows it. *)
Definition read1 (l : bytes_t) : option (bytes_t * bytes_t) :=
  (match l with
   | [] => None
   | a :: l1 =>
       if Nat.eqb a 34 then None
       else if Nat.eqb a 92 then
         match l1 with
         | [] => None
         | b :: l2 =>
             if Nat.eqb b 117 then
               match l2 with
               | p :: _ :: u :: v :: l3 =>
                   if Nat.eqb p 50 then Some ([226; 128; v + 112], l3)
                   else Some ([16 * hex_value u + hex_value v], l3)
               | _ => None
               end
             else Some ([unescape_byte b], l2)
         end
       else Some ([a], l1)
   end)%nat.

Lemma u00_read b : (b < 64)%nat ->
  (16 * hex_value (hex_digit (b / 16)) + hex_value (hex_digit (b mod 16)) = b)%nat.
Proof. intros H. do 64 (destruct b as [|b]; [reflexivity|]). exfalso. lia. Qed.

Lemma escape_byte_read b r : read1 (escape_byte b ++ r) = Some ([b], r).
Proof.
  unfold escape_byte.
  destruct (Nat.eqb b 34 || Nat.eqb b 92) eqn:E1.
  { apply orb_true_iff in E1 as [E|E]; apply Nat.eqb_eq in E as ->; reflexivity. }
  apply orb_false_iff in E1 as [E34 E92].
  destruct (Nat.eqb_spec b 8) as [->|]; [reflexivity|].
  destruct (Nat.eqb_spec b 12) as [->|]; [reflexivity|].
  destruct (Nat.eqb_spec b 10) as [->|]; [reflexivity|].
  destruct (Nat.eqb_spec b 13) as [->|]; [reflexivity|].
  destruct (Nat.eqb_spec b 9) as [->|]; [reflexivity|].
  destruct ((b <? 32)%nat || html_special b) eqn:E.
  - assert (Hb : (b < 64)%nat).
    { apply orb_true_iff in E as [E|E]; [apply Nat.ltb_lt in E; lia|].
      unfold html_special in E. rewrite !orb_true_iff, !Nat.eqb_eq in E. lia. }
    unfold u00. pose proof (u00_read b Hb) as Hr.
    revert Hr. generalize (hex_digit (b / 16)) (hex_digit (b mod 16)). intros u v Hr.
    cbn [app read1 Nat.eqb]. by rewrite Hr.
  - cbn [app]. unfold read1. by rewrite E34, E92.
Qed.

(** The first character of a non-empty string is read back. *)
Lemma escape_split l :
  l <> [] -> exists chunk enc l', l = chunk ++ l' /\ chunk <> [] /\
  escape l = enc ++ escape l' /\ forall r, read1 (enc ++ r) = Some (chunk, r).
Proof.
  intros Hl. destruct l as [|a l1]; [done|].
  assert (Hplain : exists chunk enc l', a :: l1 = chunk ++ l' /\ chunk <> [] /\
    escape_byte a ++ escape l1 = enc ++ escape l' /\
    forall r, read1 (enc ++ r) = Some (chunk, r)).
  { exists [a], (escape_byte a), l1. split_and!; [done..|]. apply escape_byte_read. }
  destruct l1 as [|b [|c l']]; [exact Hplain..|].
  change (escape (a :: b :: c :: l')) with
    (if (Nat.eqb a 226 && Nat.eqb b 128 && (Nat.eqb c 168 || Nat.eqb c 169))%nat
     then ([92; 117; 50; 48; 50; c - 112] ++ escape l')%nat
     else escape_byte a ++ escape (b :: c :: l')).
  destruct (_ && _) eqn:E; [|exact Hplain].
  rewrite !andb_true_iff, orb_true_iff, !Nat.eqb_eq in E. destruct E as [[-> ->] Hc].
  exists [226; 128; c]%nat, [92; 117; 50; 48; 50; c - 112]%nat, l'.
  split_and!; [done..|]. intros r. cbn [app read1 Nat.eqb].
  replace (c - 112 + 112)%nat with c by lia. done.
Qed.

(** The encoded body ends at the first bare quote. *)
Lemma escape_inj_len n : forall l1 l2 r1 r2, (length l1 <= n)%nat ->
  escape l1 ++ 34%nat :: r1 = escape l2 ++ 34%nat :: r2 -> l1 = l2 /\ r1 = r2.
Proof.
  assert (Hquote : forall r, read1 (34%nat :: r) = None) by done.
  induction n as [|n IH]; intros l1 l2 r1 r2 Hlen Heq.
  all: destruct (decide (l1 = [])) as [->|H1]; destruct (decide (l2 = [])) as [->|H2].
  all: try (cbn in Heq; by simplify_eq).
  all: try (destruct (escape_split l2 H2) as (c2 & e2 & l2' & -> & Hc2 & E2 & R2);
            rewrite E2, <- app_assoc in Heq).
  all: try (destruct (escape_split l1 H1) as (c1 & e1 & l1' & -> & Hc1 & E1 & R1);
            rewrite E1, <- app_assoc in Heq).
  all: apply (f_equal read1) in Heq; rewrite ?R1, ?R2 in Heq; cbn [escape app] in Heq;
       rewrite ?Hquote in Heq; try discriminate.
  - destruct c1; [done | cbn in Hlen; lia].
  - injection Heq as -> Heq. rewrite length_app in Hlen.
    destruct (IH l1' l2' r1 r2) as [-> ->]; [|done..].
    destruct c2; [done | cbn in Hlen; lia].
Qed.

Lemma bytes_inj s1 s2 : bytes s1 = bytes s2 -> s1 = s2.
Proof. intros H. by rewrite <- (str_of_bytes_bytes s1), <- (str_of_bytes_bytes s2), H. Qed.

Lemma writeString_inj s1 s2 b1 b2 r1 r2 :
  writeString s1 = Some b1 -> writeString s2 = Some b2 -> b1 ++ r1 = b2 ++ r2 ->
  s1 = s2 /\ r1 = r2.
Proof.
  unfold writeString. intros H1 H2 Heq. inv_all H1. inv_all H2. simplify_eq.
  rewrite <- !app_assoc in Heq. cbn [app] in Heq.
  destruct (escape_inj_len _ _ _ _ _ (le_n _) Heq) as [Hb ->].
  split; [by apply bytes_inj | done].
Qed.

(** * Documents: induction, and writing in the given order *)

Section DocInd.
Context (P : Doc -> Prop).
Hypothesis HNull : P DNull.
Hypothesis HBool : forall b, P (DBool b).
Hypothesis HNumber : forall n, P (DNumber n).
Hypothesis HString : forall s, P (DString s).
Hypothesis HArray : forall l, Forall P l -> P (DArray l).
Hypothesis HObject : forall l, Forall (fun x => P (snd x)) l -> P (DObject l).
Hypothesis HOther : P DOther.

Fixpoint doc_ind (d : Doc) : P d :=
  match d with
  | DNull => HNull
  | DBool b => HBool b
  | DNumber n => HNumber n
  | DString s => HString s
  | DArray l =>
      HArray l ((fix go (l : list Doc) : Forall P l :=
        match l with
        | [] => List.Forall_nil _
        | x :: l' => List.Forall_cons _ x l' (doc_ind x) (go l')
        end) l)
  | DObject l =>
      HObject l ((fix go (l : list (string * Doc)) : Forall (fun x => P (snd x)) l :=
        match l with
        | [] => List.Forall_nil _
        | x :: l' => List.Forall_cons _ x l' (doc_ind (snd x)) (go l')
        end) l)
  | DOther => HOther
  end.
End DocInd.

Definition emit_member (emit : Doc -> option bytes_t) (x : string * Doc) : option bytes_t :=
  member (fst x, emit (snd x)).

Fixpoint emit (d : Doc) : option bytes_t :=
  match d with
  | DNull => Some (bytes "null")
  | DBool true => Some (bytes "true")
  | DBool false => Some (bytes "false")
  | DNumber n => Some (bytes n)
  | DString s => writeString s
  | DArray l => wrap 91 93 (join (map emit l))
  | DObject l => wrap 123 125 (join (map (emit_member emit) l))
  | DOther => None
  end.

(** Sorting looks at the keys only. *)
Lemma sort_members_map {A B} (g : A -> B) l :
  sort_members (map (fun '(k, v) => (k, g v)) l) =
  map (fun '(k, v) => (k, g v)) (sort_members l).
Proof.
  unfold sort_members, stable_sort. induction l as [|[k v] l IH]; cbn; [done|].
  rewrite IH. generalize (foldr (insert_sorted member_before) [] l). clear.
  induction l as [|[k' v'] l IH]; cbn; [done|].
  unfold member_before at 1 3. cbn. destruct (str_ltb k' k); cbn; congruence.
Qed.

Lemma map_pair_ext {A B} (g h : A -> B) (l : list (string * A)) :
  Forall (fun x => g (snd x) = h (snd x)) l ->
  map (fun '(k, v) => (k, g v)) l = map (fun '(k, v) => (k, h v)) l.
Proof. induction 1 as [|[k v] l Hx _ IH]; cbn in *; congruence. Qed.

Lemma write_emit d : write d = emit (normalize d).
Proof.
  induction d as [| b | n | s | l IH | l IH |] using doc_ind; try done.
  - cbn. do 2 f_equal. rewrite map_map. induction IH; cbn; congruence.
  - cbn [write normalize emit]. do 2 f_equal.
    rewrite (map_pair_ext write (fun d => emit (normalize d)) l IH).
    rewrite (sort_members_map (fun d => emit (normalize d))), (sort_members_map normalize).
    rewrite !map_map. apply map_ext. by intros [k v].
Qed.

(** ** The first byte tells the constructor *)

Definition tag (d : Doc) : nat :=
  match d with
  | DNumber _ => 0 | DNull => 110 | DBool true => 116 | DBool false => 102
  | DString _ => 34 | DArray _ => 91 | DObject _ => 123 | DOther => 1
  end%nat.

Definition tag_of_byte (b : nat) : nat :=
  if (between 48 57 b || Nat.eqb b 45)%nat then 0%nat else b.

Lemma emit_tag d s :
  well_formed d = true -> emit d = Some s ->
  exists b s', s = b :: s' /\ tag_of_byte b = tag d.
Proof.
  destruct d as [|[]|n|str|l|l|]; cbn [emit well_formed tag]; intros Hwf H.
  - injection H as <-. by eexists _, _.
  - injection H as <-. by eexists _, _.
  - injection H as <-. by eexists _, _.
  - injection H as <-. unfold number_literal in Hwf. destruct (bytes n) as [|b s']; [done|].
    apply andb_true_iff in Hwf as [Hb _]. exists b, s'. unfold tag_of_byte. by rewrite Hb.
  - unfold writeString in H. inv_all H. simplify_eq. by eexists _, _.
  - unfold wrap in H. inv_all H. simplify_eq. by eexists _, _.
  - unfold wrap in H. inv_all H. simplify_eq. by eexists _, _.
  - done.
Qed.

(** What may follow a number. *)
Definition ends_number (r : bytes_t) : Prop :=
  match r with [] => True | b :: _ => number_byte b = false end.

Lemma number_inj l1 l2 r1 r2 :
  forallb number_byte l1 = true -> forallb number_byte l2 = true ->
  ends_number r1 -> ends_number r2 -> l1 ++ r1 = l2 ++ r2 -> l1 = l2 /\ r1 = r2.
Proof.
  revert l2. induction l1 as [|b l1 IH]; intros [|c l2] H1 H2 E1 E2 Heq; cbn in *.
  - done.
  - subst r1. apply andb_true_iff in H2 as [H2 _]. cbn in E1. congruence.
  - subst r2. apply andb_true_iff in H1 as [H1 _]. cbn in E2. congruence.
  - apply andb_true_iff in H1 as [H1 H1'], H2 as [H2 H2']. injection Heq as -> Heq.
    destruct (IH l2 H1' H2' E1 E2 Heq) as [-> ->]. done.
Qed.

(** ** Sequences of parts *)

Section Sequences.
Context {A : Type} (f : A -> option bytes_t) (ok : A -> Prop) (close : nat).
Hypothesis close_not_comma : close <> 44%nat.
Hypothesis close_ends : number_byte close = false.
Hypothesis head : forall a s, ok a -> f a = Some s -> exists b s', s = b :: s' /\ b <> close.

Definition separates (a1 : A) : Prop :=
  forall a2 s1 s2 r1 r2, ok a1 -> ok a2 -> f a1 = Some s1 -> f a2 = Some s2 ->
  s1 ++ r1 = s2 ++ r2 -> ends_number r1 -> ends_number r2 -> a1 = a2 /\ r1 = r2.

Lemma join_head a l s :
  ok a -> join (map f (a :: l)) = Some s ->
  exists s1 r, f a = Some s1 /\ s = s1 ++ r /\
    ((l = [] /\ r = []) \/ (exists s2, l <> [] /\ r = 44%nat :: s2 /\ join (map f l) = Some s2)).
Proof.
  intros Ha H. cbn in H. destruct l as [|b l]; cbn [map] in H.
  - exists s, []. rewrite app_nil_r. auto.
  - cbn [map] in *. destruct (f a) as [s1|]; [|done].
    destruct (join _) as [s2|] eqn:E; [|done]. injection H as <-. eauto 10.
Qed.

Lemma sequence_inj l1 : forall l2 s1 s2 r1 r2,
  Forall separates l1 -> Forall ok l1 -> Forall ok l2 ->
  join (map f l1) = Some s1 -> join (map f l2) = Some s2 ->
  s1 ++ close :: r1 = s2 ++ close :: r2 -> l1 = l2 /\ r1 = r2.
Proof.
  induction l1 as [|a l1 IH]; intros [|b l2] s1 s2 r1 r2 Hs H1 H2 J1 J2 Heq.
  - cbn in J1, J2. by simplify_eq/=.
  - apply Forall_cons in H2 as [Hb _]. cbn in J1. simplify_eq/=.
    apply (join_head b l2 s2 Hb) in J2 as (s & r & Hf & -> & _).
    destruct (head b s Hb Hf) as (x & s' & -> & Hx). cbn in Heq. congruence.
  - apply Forall_cons in H1 as [Ha _]. cbn in J2. simplify_eq/=.
    apply (join_head a l1 s1 Ha) in J1 as (s & r & Hf & -> & _).
    destruct (head a s Ha Hf) as (x & s' & -> & Hx). cbn in Heq. congruence.
  - apply Forall_cons in Hs as [Hsep Hs], H1 as [Ha H1], H2 as [Hb H2].
    apply (join_head a l1 s1 Ha) in J1 as (sa & ra & Hfa & -> & Ca).
    apply (join_head b l2 s2 Hb) in J2 as (sb & rb & Hfb & -> & Cb).
    rewrite <- !app_assoc in Heq.
    destruct (Hsep b sa sb _ _ Ha Hb Hfa Hfb Heq) as [-> Hr].
    { destruct Ca as [[_ ->]|(? & _ & -> & _)]; [exact close_ends | reflexivity]. }
    { destruct Cb as [[_ ->]|(? & _ & -> & _)]; [exact close_ends | reflexivity]. }
    destruct Ca as [[-> ->]|(sa' & Hl1 & -> & J1)], Cb as [[-> ->]|(sb' & Hl2 & -> & J2)];
      cbn [app] in Hr; injection Hr as Hr; try congruence.
    + by subst.
    + destruct (IH l2 sa' sb' r1 r2) as [-> ->]; done.
Qed.
End Sequences.

(** ** The canonical form determines the document *)

Definition separated (d : Doc) : Prop := separates emit (fun d => well_formed d = true) d.

Lemma tag_close d b close s :
  well_formed d = true -> emit d = Some s -> s = b :: tl s -> close = 93%nat \/ close = 125%nat ->
  b <> close.
Proof.
  intros Hwf H Hs Hc ->. destruct (emit_tag d s Hwf H) as (b' & s' & -> & Ht).
  injection Hs as <-. destruct d as [|[]|n|str|l|l|]; cbn in Ht; destruct Hc as [->| ->]; done.
Qed.

Lemma emit_head close d s :
  close = 93%nat \/ close = 125%nat -> well_formed d = true -> emit d = Some s ->
  exists b s', s = b :: s' /\ b <> close.
Proof.
  intros Hc Hwf H. destruct (emit_tag d s Hwf H) as (b & s' & -> & _).
  exists b, s'. split; [done|]. by eapply tag_close.
Qed.

Lemma member_emit_head x s :
  emit_member emit x = Some s -> exists b s', s = b :: s' /\ b <> 125%nat.
Proof.
  unfold emit_member, member. cbn [fst snd].
  destruct (writeString (fst x)) as [k|] eqn:E; [|done]. destruct (emit (snd x)); [|done].
  intros [= <-]. unfold writeString in E. inv_all E. simplify_eq. by eexists _, _.
Qed.

Lemma forallb_Forall {A} (p : A -> bool) l : forallb p l = true -> Forall (fun x => p x = true) l.
Proof.
  intros H. rewrite forallb_forall in H. apply Forall_forall. intros x Hx.
  by apply H, list_elem_of_In.
Qed.

Lemma same_tag d1 d2 s1 s2 r1 r2 :
  well_formed d1 = true -> well_formed d2 = true -> emit d1 = Some s1 -> emit d2 = Some s2 ->
  s1 ++ r1 = s2 ++ r2 -> tag d1 = tag d2.
Proof.
  intros W1 W2 E1 E2 Heq.
  destruct (emit_tag d1 s1 W1 E1) as (b1 & s1' & -> & <-).
  destruct (emit_tag d2 s2 W2 E2) as (b2 & s2' & -> & <-).
  cbn in Heq. by injection Heq as -> _.
Qed.

Lemma wrap_some open close body s :
  wrap open close body = Some s -> exists b, body = Some b /\ s = open :: b ++ [close].
Proof. unfold wrap. destruct body; intros; simplify_eq; eauto. Qed.

Lemma member_separates x :
  separated (snd x) -> separates (emit_member emit) (fun x => well_formed (snd x) = true) x.
Proof.
  intros Hx [k2 v2] s1 s2 r1 r2 W1 W2 E1 E2 Heq N1 N2. destruct x as [k1 v1].
  unfold emit_member, member in E1, E2. cbn [fst snd] in *.
  destruct (writeString k1) as [a1|] eqn:K1; [|done].
  destruct (emit v1) as [b1|] eqn:V1; [|done].
  destruct (writeString k2) as [a2|] eqn:K2; [|done].
  destruct (emit v2) as [b2|] eqn:V2; [|done].
  injection E1 as <-. injection E2 as <-. rewrite <- !app_assoc in Heq. cbn [app] in Heq.
  destruct (writeString_inj _ _ _ _ _ _ K1 K2 Heq) as [-> Hr]. injection Hr as Hr.
  destruct (Hx v2 b1 b2 r1 r2 W1 W2 V1 V2 Hr N1 N2) as [-> ->]. done.
Qed.

Lemma number_bytes n : number_literal n = true -> forallb number_byte (bytes n) = true.
Proof.
  unfold number_literal. destruct (bytes n); [done|]. by intros [_ ?]%andb_true_iff.
Qed.

Lemma emit_separates d : separated d.
Proof.
  induction d as [| b | n | s | l IH | l IH |] using doc_ind;
    intros d2 s1 s2 r1 r2 W1 W2 E1 E2 Heq N1 N2;
    pose proof (same_tag _ _ _ _ _ _ W1 W2 E1 E2 Heq) as Ht.
  - destruct d2 as [|[]|n2|str2|l2|l2|]; try done. cbn in E1, E2. by simplify_eq/=.
  - destruct b, d2 as [|[]|n2|str2|l2|l2|]; try done; cbn in E1, E2; by simplify_eq/=.
  - destruct d2 as [|[]|n2|str2|l2|l2|]; try done. cbn [emit] in E1, E2. simplify_eq.
    destruct (number_inj _ _ r1 r2 (number_bytes n W1) (number_bytes n2 W2) N1 N2 Heq)
      as [Hb ->]. apply bytes_inj in Hb as ->. done.
  - destruct d2 as [|[]|n2|str2|l2|l2|]; try done. cbn [emit] in E1, E2.
    by destruct (writeString_inj _ _ _ _ _ _ E1 E2 Heq) as [-> ->].
  - destruct d2 as [|[]|n2|str2|l2|l2|]; try done. cbn [emit] in E1, E2.
    apply wrap_some in E1 as (b1 & J1 & ->), E2 as (b2 & J2 & ->).
    cbn [app] in Heq. injection Heq as Heq. rewrite <- !app_assoc in Heq. cbn [app] in Heq.
    destruct (sequence_inj emit (fun d => well_formed d = true) 93 ltac:(done) ltac:(done)
                (fun a s => emit_head 93 a s ltac:(by left)) l l2 b1 b2 r1 r2) as [-> ->]; try done.
    + by apply forallb_Forall.
    + by apply forallb_Forall.
  - destruct d2 as [|[]|n2|str2|l2|l2|]; try done. cbn [emit] in E1, E2.
    apply wrap_some in E1 as (b1 & J1 & ->), E2 as (b2 & J2 & ->).
    cbn [app] in Heq. injection Heq as Heq. rewrite <- !app_assoc in Heq. cbn [app] in Heq.
    destruct (sequence_inj (emit_member emit) (fun x => well_formed (snd x) = true) 125
                ltac:(done) ltac:(done) (fun a s _ => member_emit_head a s) l l2 b1 b2 r1 r2)
      as [-> ->]; try done.
    + eapply Forall_impl; [exact IH|]. apply member_separates.
    + apply forallb_Forall in W1. eapply Forall_impl; [exact W1|]. by intros [].
    + apply forallb_Forall in W2. eapply Forall_impl; [exact W2|]. by intros [].
  - done.
Qed.

Lemma emit_inj d1 d2 s :
  well_formed d1 = true -> well_formed d2 = true -> emit d1 = Some s -> emit d2 = Some s ->
  d1 = d2.
Proof.
  intros W1 W2 E1 E2.
  by destruct (emit_separates d1 d2 s s [] [] W1 W2 E1 E2 eq_refl I I) as [-> _].
Qed.

Lemma forallb_map' {A B} (p : B -> bool) (g : A -> B) l :
  forallb p (map g l) = forallb (fun x => p (g x)) l.
Proof. induction l; cbn; congruence. Qed.

Lemma forallb_perm {A} (p : A -> bool) l1 l2 : l1 ≡ₚ l2 -> forallb p l1 = forallb p l2.
Proof. induction 1; cbn; try congruence. rewrite !andb_assoc. f_equal. apply andb_comm. Qed.

Lemma normalize_wf d : well_formed (normalize d) = well_formed d.
Proof.
  induction d as [| b | n | s | l IH | l IH |] using doc_ind; try done;
    cbn [well_formed normalize].
  - rewrite forallb_map'. induction IH; cbn; congruence.
  - unfold sort_members. rewrite (forallb_perm _ _ _ (stable_sort_perm _ _)), forallb_map'.
    induction IH as [|[k v] l Hx _ IHl]; cbn in *; congruence.
Qed.

(** ** The order of members does not matter *)

Lemma sort_members_perm {A} (l1 l2 : list (string * A)) :
  l1 ≡ₚ l2 -> NoDup (map fst l1) -> sort_members l1 = sort_members l2.
Proof.
  intros HP Hnd. unfold sort_members.
  pose proof (stable_sort_perm member_before l1) as P1.
  pose proof (stable_sort_perm member_before l2) as P2.
  assert (S : forall l : list (string * A),
    StronglySorted (not_after member_before) (stable_sort member_before l)).
  { intros l. apply stable_sort_sorted.
    - intros x y. apply str_ltb_asym.
    - intros x y z. apply str_not_after_trans. }
  pose proof (S l1) as S1. pose proof (S l2) as S2.
  assert (Hkeys : NoDup (map fst (stable_sort member_before l1))).
  { eapply (NoDup_Permutation_proper (map fst l1)); [|exact Hnd]. by rewrite P1. }
  revert S1 S2 Hkeys.
  assert (HPs : stable_sort member_before l1 ≡ₚ stable_sort member_before l2).
  { by rewrite P1, P2. }
  revert HPs. generalize (stable_sort member_before l1) (stable_sort member_before l2).
  clear. intros l. induction l as [|x l IH]; intros l2 HP S1 S2 Hnd.
  - by apply Permutation_nil_l in HP.
  - destruct l2 as [|y l2]; [symmetry in HP; by apply Permutation_nil_cons in HP|].
    assert (Hin : y ∈ x :: l) by (rewrite HP; constructor).
    assert (Hin' : x ∈ y :: l2) by (rewrite <- HP; constructor).
    assert (x = y) as ->.
    { apply elem_of_cons in Hin as [->|Hin]; [done|].
      apply elem_of_cons in Hin' as [->|Hin']; [done|].
      inversion S1 as [|? ? _ F1]; inversion S2 as [|? ? _ F2]; subst.
      rewrite Forall_forall in F1, F2.
      pose proof (str_not_after_antisym _ _ (F1 y Hin) (F2 x Hin')) as Hk.
      inversion Hnd as [|? ? Hno _]; subst. destruct Hno.
      rewrite Hk. apply list_elem_of_fmap. eauto. }
    f_equal. inversion S1; inversion S2; inversion Hnd; subst.
    apply IH; try done. by apply Permutation_cons_inv in HP.
Qed.

(** Texts of one document: the same up to the order of members, at any depth. *)
Inductive same_document : Doc -> Doc -> Prop :=
| same_refl d : same_document d d
| same_sym d1 d2 : same_document d1 d2 -> same_document d2 d1
| same_trans d1 d2 d3 : same_document d1 d2 -> same_document d2 d3 -> same_document d1 d3
| same_item l1 d d' l2 :
    same_document d d' -> same_document (DArray (l1 ++ d :: l2)) (DArray (l1 ++ d' :: l2))
| same_member l1 k d d' l2 :
    same_document d d' ->
    same_document (DObject (l1 ++ (k, d) :: l2)) (DObject (l1 ++ (k, d') :: l2))
| same_order l1 l2 :
    l1 ≡ₚ l2 -> NoDup (map fst l1) -> same_document (DObject l1) (DObject l2).

#[export] Instance same_document_equiv : Equivalence same_document.
Proof. split; [exact same_refl | exact same_sym | exact same_trans]. Qed.

(** Every object is a map: no member twice. *)
Fixpoint unique_keys (d : Doc) : Prop :=
  match d with
  | DArray l => foldr (fun x P => unique_keys x /\ P) True l
  | DObject l => NoDup (map fst l) /\ foldr (fun x P => unique_keys (snd x) /\ P) True l
  | _ => True
  end.

Lemma foldr_Forall {A} (P : A -> Prop) l : foldr (fun x Q => P x /\ Q) True l <-> Forall P l.
Proof. induction l; cbn; [by split; constructor|]. by rewrite Forall_cons, IHl. Qed.

Lemma same_normalize d1 d2 : same_document d1 d2 -> normalize d1 = normalize d2.
Proof.
  induction 1 as [| | |l1 d d' l2 _ IH|l1 k d d' l2 _ IH|l1 l2 HP Hnd];
    cbn [normalize]; try congruence.
  - rewrite !map_app. cbn. by rewrite IH.
  - rewrite !map_app. cbn. by rewrite IH.
  - f_equal. apply sort_members_perm; [by rewrite HP|].
    rewrite map_map. erewrite map_ext; [exact Hnd|]. by intros [].
Qed.

Lemma same_items pre l :
  Forall (fun d => same_document d (normalize d)) l ->
  same_document (DArray (pre ++ l)) (DArray (pre ++ map normalize l)).
Proof.
  intros H. revert pre. induction H as [|d l Hd _ IH]; intros pre; [reflexivity|].
  cbn [map]. etransitivity; [by apply (same_item pre d (normalize d) l)|].
  specialize (IH (pre ++ [normalize d])). by rewrite <- !app_assoc in IH.
Qed.

Lemma same_members pre l :
  Forall (fun x => same_document (snd x) (normalize (snd x))) l ->
  same_document (DObject (pre ++ l)) (DObject (pre ++ map (fun '(k, v) => (k, normalize v)) l)).
Proof.
  intros H. revert pre. induction H as [|[k d] l Hd _ IH]; intros pre; [reflexivity|].
  cbn [map]. etransitivity; [by apply (same_member pre k d (normalize d) l)|].
  specialize (IH (pre ++ [(k, normalize d)])). by rewrite <- !app_assoc in IH.
Qed.

Lemma normalize_same d : unique_keys d -> same_document d (normalize d).
Proof.
  induction d as [| b | n | s | l IH | l IH |] using doc_ind; cbn [unique_keys normalize];
    try reflexivity.
  - rewrite foldr_Forall. intros Hu. apply (same_items []).
    rewrite Forall_forall in *. eauto.
  - rewrite (foldr_Forall (fun x => unique_keys (snd x))). intros [Hnd Hu].
    etransitivity; [apply (same_members [])|].
    + rewrite Forall_forall in *. eauto.
    + apply same_order; [symmetry; apply stable_sort_perm|]. cbn [app].
      rewrite map_map. erewrite map_ext; [exact Hnd|]. by intros [].
Qed.

Lemma Canonical_same d1 d2 : same_document d1 d2 -> Canonical d1 = Canonical d2.
Proof. intros H. unfold Canonical. by rewrite !write_emit, (same_normalize _ _ H). Qed.

Lemma Canonical_inj d1 d2 s :
  well_formed d1 = true -> well_formed d2 = true -> Canonical d1 = Some s ->
  Canonical d2 = Some s -> normalize d1 = normalize d2.
Proof.
  unfold Canonical. rewrite !write_emit. intros W1 W2.
  apply emit_inj; by rewrite normalize_wf.
Qed.

(** C38: One document, one representation, and one representation, one document:
    two documents have the same canonical bytes exactly when they are the same up
    to the order of object members, at every depth; so a signature or a hash over
    the canonical form covers everything in the document. *)
Theorem Canonical_iff_same_document (d1 d2 : Doc) (s : bytes_t) :
  well_formed d1 = true -> well_formed d2 = true -> unique_keys d1 -> unique_keys d2 ->
  Canonical d1 = Some s ->
  Canonical d2 = Some s <-> same_document d1 d2.
Proof.
  intros W1 W2 U1 U2 E1. split.
  - intros E2. rewrite (normalize_same d1 U1), (normalize_same d2 U2).
    by rewrite (Canonical_inj d1 d2 s W1 W2 E1 E2).
  - intros H. by rewrite <- (Canonical_same _ _ H).
Qed.

Definition doc_a : Doc :=
  DObject [("a", DNumber "1200.00"); ("b", DObject [("x", DNull); ("y", DString "s")])].
Definition doc_b : Doc :=
  DObject [("b", DObject [("y", DString "s"); ("x", DNull)]); ("a", DNumber "1200.00")].

Lemma doc_ab : same_document doc_a doc_b.
Proof.
  transitivity (DObject [("a", DNumber "1200.00"); ("b", DObject [("y", DString "s"); ("x", DNull)])]).
  - apply (same_member [("a", DNumber "1200.00")] "b" _ _ []), same_order; [constructor|].
    cbn. repeat constructor; set_solver.
  - apply same_order; [constructor|]. cbn. repeat constructor; set_solver.
Qed.

Example Canonical_iff_same_document_witness :
  exists s, Canonical doc_a = Some s /\ Canonical doc_b = Some s.
Proof.
  eexists. split; [vm_compute; reflexivity|].
  apply (Canonical_iff_same_document doc_a doc_b); try reflexivity.
  - cbn. repeat constructor; set_solver.
  - cbn. repeat constructor; set_solver.
  - exact doc_ab.
Defined.

(** The canonical form escapes more than JSON requires: a string holding [&],
    which JSON allows bare, is written with the escape of encoding/json's HTML
    mode, so its canonical bytes are not the minified text of the document. *)
Theorem canonical_escapes_ampersand :
  writeString "a&b" = Some ([34; 97] ++ [92; 117; 48; 48; 50; 54] ++ [98; 34])%nat /\
  writeString "a&b" <> Some (34%nat :: bytes "a&b" ++ [34%nat]).
Proof. split; [vm_compute; reflexivity | vm_compute; discriminate]. Qed.
