(* ===== verification/Evidence.v ===== *)
(** The evidence record: internal/evidence/event.go, store.go and outbox.go.

    [Tables] is the tables evidence_events and evidence_outbox with their keys,
    checks and row-level-security policies; every method of [Store] is a
    transaction over them.  JSON encoding is a parameter of the module.  Times keep
    their nanoseconds, where the columns keep microseconds.  Rows the SQL leaves unordered
    come in the order of the table's keys.  The publisher's bus is a function that says which messages were acknowledged; the stream
    behind it is in [Backbone], the loops over the outbox in [Outbox]. *)

From Stdlib Require Floats.SpecFloat.
From S2P Require Import Prelude.

(** * Events *)

Abbreviation EventName := string.

Definition IntentReceived : EventName := "agent.intent.received.v1".
Definition IdentityVerified : EventName := "agent.identity.verified.v1".
Definition IdentityFailed : EventName := "agent.identity.failed.v1".
Definition AuthorityEvaluated : EventName := "authority.evaluated.v1".
Definition AuthorityReserved : EventName := "authority.reserved.v1".
Definition AuthorityReservationCommitted : EventName := "authority.reservation.committed.v1".
Definition AuthorityReservationReleased : EventName := "authority.reservation.released.v1".
Definition PolicyEvaluated : EventName := "policy.evaluated.v1".
Definition DecisionCommitted : EventName := "execution.decision.committed.v1".
Definition SubmissionAttempted : EventName := "broker.order.submission_attempted.v1".
Definition OrderUnknown : EventName := "broker.order.unknown.v1".
Definition OrderAccepted : EventName := "broker.order.accepted.v1".
Definition OrderRejected : EventName := "broker.order.rejected.v1".
Definition OrderFilled : EventName := "broker.order.filled.v1".
Definition OrderCancelled : EventName := "broker.order.cancelled.v1".
Definition OrderReconciled : EventName := "broker.order.reconciled.v1".
Definition OrderExpired : EventName := "broker.order.expired.v1".
Definition ControlEnforced : EventName := "control.enforced.v1".
Definition PolicyBundleActivated : EventName := "policy.bundle.activated.v1".
Definition PolicyBundleRolledBack : EventName := "policy.bundle.rolled_back.v1".
Definition EvidenceCorrected : EventName := "evidence.corrected.v1".
Definition IntentReplayed : EventName := "agent.intent.replayed.v1".
Definition AuthorityRevoked : EventName := "authority.grant.revoked.v1".
Definition AuthorityIssued : EventName := "authority.grant.issued.v1".
Definition AgentKeyRegistered : EventName := "agent.signing_key.registered.v1".
Definition AgentKeyRevoked : EventName := "agent.signing_key.revoked.v1".
Definition ActivationKeyRegistered : EventName := "policy.activation_key.registered.v1".
Definition ActivationKeyRevoked : EventName := "policy.activation_key.revoked.v1".
Definition ControlRevoked : EventName := "control.revoked.v1".

Definition catalog : list EventName :=
  [IntentReceived; IdentityVerified; IdentityFailed; AuthorityEvaluated;
   AuthorityRevoked; AuthorityIssued; AgentKeyRegistered; AgentKeyRevoked;
   ActivationKeyRegistered; ActivationKeyRevoked;
   AuthorityReserved; AuthorityReservationCommitted; AuthorityReservationReleased;
   DecisionCommitted; SubmissionAttempted; PolicyEvaluated; "intent.parent.linked.v1";
   "broker.order.submitted.v1"; OrderUnknown; OrderAccepted; OrderRejected; OrderFilled;
   OrderCancelled; OrderReconciled; OrderExpired; "fleet.metric.updated.v1";
   "fleet.cohort.created.v1"; "fleet.anomaly.detected.v1"; "incident.created.v1";
   "incident.updated.v1"; "incident.escalated.v1"; "incident.closed.v1";
   "control.recommended.v1"; "control.applied.v1"; ControlRevoked; ControlEnforced;
   "policy.bundle.created.v1"; PolicyBundleActivated; PolicyBundleRolledBack;
   "simulation.started.v1"; "simulation.completed.v1"; "simulation.failed.v1";
   "simulation.cancelled.v1"; EvidenceCorrected; IntentReplayed].

Definition Known (n : EventName) : bool := contains catalog n.

Definition SchemaVersion : string := "0.1".

(** The dynamic values an event's payload carries. *)
Inductive Value :=
| VString (s : string)
| VBool (b : bool)
| VInt (z : Z)
| VList (l : list string)
| VFloat (f : SpecFloat.spec_float)
(** a money.Amount, written by its MarshalJSON *)
| VAmount (a : Z)
| VArray (l : list Value)
| VObject (l : list (string * Value)).

(** A nil payload is [None]. *)
Abbreviation Payload := (option (list (string * Value))).

Record Event := mkEvent {
  ev_SchemaVersion : string;
  ev_EventID : string;
  ev_EventName : EventName;
  ev_TenantID : string;
  ev_AggregateID : string;
  ev_CorrelationID : string;
  ev_CausationID : string;
  ev_OccurredAt : Time;
  ev_ProducedAt : Time;
  ev_Producer : string;
  ev_Sequence : Z;
  ev_CorrectsEventID : string;
  ev_Payload : Payload
}.

(** The field an event is refused for; the empty string when it is accepted. *)
Definition Validate (e : Event) : string :=
  if String.eqb (ev_SchemaVersion e) "" then "schema_version"
  else if negb (String.eqb (ev_SchemaVersion e) SchemaVersion) then "schema_version"
  else if blank (ev_EventID e) then "event_id"
  else if negb (Known (ev_EventName e)) then "event_name"
  else if blank (ev_TenantID e) then "tenant_id"
  else if blank (ev_AggregateID e) then "aggregate_id"
  else if blank (ev_CorrelationID e) then "correlation_id"
  else if blank (ev_Producer e) then "producer"
  else if IsZero (ev_OccurredAt e) then "occurred_at"
  else if IsZero (ev_ProducedAt e) then "produced_at"
  else if ev_Sequence e <? 0 then "sequence"
  else if String.eqb (ev_EventName e) EvidenceCorrected && blank (ev_CorrectsEventID e) then
    "corrects_event_id"
  else if str_nonempty (ev_CorrectsEventID e) &&
          String.eqb (ev_CorrectsEventID e) (ev_EventID e) then "corrects_event_id"
  else "".

Definition Subject (e : Event) : string :=
  "evidence." +:+ ev_TenantID e +:+ "." +:+ ev_EventName e.

(** * The store *)

Inductive EvidenceError :=
| ErrTenantContextMissing
| ErrNotFound
| ErrInvalid (field : string)
| ErrSerialise
| ErrMixedTenants
| ErrDatabase (what : string).

Record Row := mkRow {
  r_schema_version : string;
  r_event_name : string;
  r_tenant_id : string;
  r_aggregate_id : string;
  r_correlation_id : string;
  r_causation_id : option string;
  r_produced_at : Time;
  r_producer : string;
  r_sequence : Z;
  r_corrects_event_id : option string;
  r_payload : string
}.

Record OutboxRow := mkOutboxRow {
  o_tenant_id : string;
  o_event_id : string;
  o_subject : string;
  o_payload : string;
  o_created_at : Time;
  o_published_at : option Time;
  o_attempt_count : Z;
  o_last_error : option string;
  o_claimed_at : option Time;
  o_claimed_by : option string
}.

(** evidence_events is keyed by (event_id, occurred_at), evidence_outbox by a
    sequence. *)
Record Tables := mkTables {
  events : gmap (string * Time) Row;
  outbox : gmap Z OutboxRow;
  next_outbox_id : Z
}.

Definition empty_tables : Tables := mkTables ∅ ∅ 1.

Definition withTenant {A} (f : TxFault) (db : Tables) (tenantID : string)
    (fn : Tables -> Tables * result A EvidenceError) : Tables * result A EvidenceError :=
  if String.eqb tenantID "" then (db, Err ErrTenantContextMissing)
  else transaction ErrDatabase f db fn.

Definition nullIfEmpty (s : string) : option string :=
  if String.eqb s "" then None else Some s.

Class JSON := {
  marshal_payload : Payload -> option string;
  unmarshal_payload : string -> Payload;
  marshal_event : Event -> option string;
  unmarshal_event : string -> option Event
}.

Section Store.
Context {HJ : JSON}.

(** The row's CHECK constraints and the row-level-security WITH CHECK. *)
Definition row_refused (tenant event_id : string) (r : Row) : option string :=
  if negb (String.eqb (r_tenant_id r) tenant) then Some "row-level security"
  else if r_sequence r <? 0 then Some "evidence_sequence_non_negative"
  else match r_corrects_event_id r with
       | Some c => if String.eqb c event_id then Some "evidence_no_self_correction" else None
       | None => if String.eqb (r_event_name r) EvidenceCorrected
                 then Some "evidence_correction_names_target" else None
       end.

(** INSERT INTO evidence_events ... ON CONFLICT (event_id, occurred_at) DO NOTHING:
    the tables and whether a row was inserted. *)
Definition insert_event (tenant : string) (db : Tables) (e : Event) (corrects : option string)
    (payload : string) : result (Tables * bool) EvidenceError :=
  let r := mkRow (ev_SchemaVersion e) (ev_EventName e) (ev_TenantID e) (ev_AggregateID e)
             (ev_CorrelationID e) (nullIfEmpty (ev_CausationID e)) (ev_ProducedAt e)
             (ev_Producer e) (ev_Sequence e) corrects payload in
  match row_refused tenant (ev_EventID e) r with
  | Some what => Err (ErrDatabase what)
  | None =>
      match events db !! (ev_EventID e, ev_OccurredAt e) with
      | Some _ => Ok (db, false)
      | None => Ok (mkTables (<[(ev_EventID e, ev_OccurredAt e) := r]> (events db)) (outbox db)
                      (next_outbox_id db), true)
      end
  end.

Definition queued (db : Tables) (event_id : string) : bool :=
  existsb (fun '(_, o) => String.eqb (o_event_id o) event_id) (map_to_list (outbox db)).

(** INSERT INTO evidence_outbox ... ON CONFLICT (event_id) DO NOTHING; a sequence
    number is drawn either way. *)
Definition insert_outbox (tenant : string) (dbnow : Time) (db : Tables) (e : Event)
    (payload : string) : result Tables EvidenceError :=
  if negb (String.eqb (ev_TenantID e) tenant) then Err (ErrDatabase "row-level security")
  else if queued db (ev_EventID e) then
    Ok (mkTables (events db) (outbox db) (next_outbox_id db + 1))
  else
    let o := mkOutboxRow (ev_TenantID e) (ev_EventID e) (Subject e) payload dbnow None 0 None
               None None in
    Ok (mkTables (events db) (<[next_outbox_id db := o]> (outbox db)) (next_outbox_id db + 1)).

Fixpoint enqueue (tenant : string) (dbnow : Time) (db : Tables) (es : list Event)
    : result Tables EvidenceError :=
  match es with
  | [] => Ok db
  | e :: es' =>
      match marshal_event e with
      | None => Err ErrSerialise
      | Some payload =>
          let? db' := insert_outbox tenant dbnow db e payload in
          enqueue tenant dbnow db' es'
      end
  end.

(** The payload column: a nil map is stored as an empty object by the store's own
    methods, and as JSON null by [AppendInTx]. *)
Definition payload_column (e : Event) : result string EvidenceError :=
  match marshal_payload (ev_Payload e) with
  | None => Err ErrSerialise
  | Some raw => Ok (match ev_Payload e with None => "{}" | Some _ => raw end)
  end.

Definition in_tx {A} (db : Tables) (r : result (Tables * A) EvidenceError)
    : Tables * result A EvidenceError :=
  match r with Ok (db', a) => (db', Ok a) | Err e => (db, Err e) end.

Definition Append (f : TxFault) (dbnow : Time) (db : Tables) (e : Event)
    : Tables * result bool EvidenceError :=
  if str_nonempty (Validate e) then (db, Err (ErrInvalid (Validate e))) else
  match payload_column e with
  | Err er => (db, Err er)
  | Ok payload =>
      withTenant f db (ev_TenantID e) (fun db =>
        in_tx db
          (let? x := insert_event (ev_TenantID e) db e (nullIfEmpty (ev_CorrectsEventID e))
                       payload in
           let '(db', recorded) := x in
           if negb recorded then Ok (db', false) else
           let? db'' := enqueue (ev_TenantID e) dbnow db' [e] in Ok (db'', true)))
  end.

Definition AppendConsumed (f : TxFault) (db : Tables) (e : Event)
    : Tables * result bool EvidenceError :=
  if str_nonempty (Validate e) then (db, Err (ErrInvalid (Validate e))) else
  match payload_column e with
  | Err er => (db, Err er)
  | Ok payload =>
      withTenant f db (ev_TenantID e) (fun db =>
        in_tx db (insert_event (ev_TenantID e) db e (nullIfEmpty (ev_CorrectsEventID e)) payload))
  end.

(** The rows of a batch, or the first refusal. *)
Fixpoint batch_rows (tenantID : string) (es : list Event)
    : result (list (Event * string)) EvidenceError :=
  match es with
  | [] => Ok []
  | e :: es' =>
      if negb (String.eqb (ev_TenantID e) tenantID) then Err ErrMixedTenants
      else if str_nonempty (Validate e) then Err (ErrInvalid (Validate e))
      else let? payload := payload_column e in
           let? rows := batch_rows tenantID es' in Ok ((e, payload) :: rows)
  end.

Fixpoint insert_batch (tenant : string) (db : Tables) (rows : list (Event * string))
    : result Tables EvidenceError :=
  match rows with
  | [] => Ok db
  | (e, payload) :: rows' =>
      let? x := insert_event tenant db e (nullIfEmpty (ev_CorrectsEventID e)) payload in
      insert_batch tenant (fst x) rows'
  end.

Definition AppendBatch (f : TxFault) (dbnow : Time) (db : Tables) (es : list Event)
    : Tables * result unit EvidenceError :=
  match es with
  | [] => (db, Ok ())
  | e :: _ =>
      match batch_rows (ev_TenantID e) es with
      | Err er => (db, Err er)
      | Ok rows =>
          withTenant f db (ev_TenantID e) (fun db =>
            in_tx db
              (let? db' := insert_batch (ev_TenantID e) db rows in
               let? db'' := enqueue (ev_TenantID e) dbnow db' es in Ok (db'', ())))
      end
  end.

(** Inside a caller's transaction for [tenant]; the corrects_event_id column is
    not written. *)
Definition AppendInTx (tenant : string) (dbnow : Time) (db : Tables) (e : Event)
    : result Tables EvidenceError :=
  if str_nonempty (Validate e) then Err (ErrInvalid (Validate e)) else
  match marshal_payload (ev_Payload e), marshal_event e with
  | Some payload, Some raw =>
      let? x := insert_event tenant db e None payload in
      insert_outbox tenant dbnow (fst x) e raw
  | _, _ => Err ErrSerialise
  end.

(** ** Queries *)

Definition event_of (k : string * Time) (r : Row) : Event :=
  mkEvent (r_schema_version r) (fst k) (r_event_name r) (r_tenant_id r) (r_aggregate_id r)
    (r_correlation_id r) (default "" (r_causation_id r)) (snd k) (r_produced_at r)
    (r_producer r) (r_sequence r) (default "" (r_corrects_event_id r))
    (unmarshal_payload (r_payload r)).

(** ORDER BY occurred_at ASC, sequence ASC, event_id ASC. *)
Definition event_before (a b : Event) : bool :=
  if ev_OccurredAt a =? ev_OccurredAt b then
    if ev_Sequence a =? ev_Sequence b then str_ltb (ev_EventID a) (ev_EventID b)
    else ev_Sequence a <? ev_Sequence b
  else ev_OccurredAt a <? ev_OccurredAt b.

(** A SELECT of one tenant's events under a condition. *)
Definition query (f : TxFault) (db : Tables) (tenantID : string) (cond : Event -> bool)
    : result (list Event) EvidenceError :=
  snd (withTenant f db tenantID (fun db =>
    (db, Ok (stable_sort event_before
               (List.filter (fun e => String.eqb (ev_TenantID e) tenantID && cond e)
                  (map (fun '(k, r) => event_of k r) (map_to_list (events db)))))))).

Definition Chain (f : TxFault) (db : Tables) (tenantID correlationID : string) :=
  query f db tenantID (fun e => String.eqb (ev_CorrelationID e) correlationID).

Definition ByAggregate (f : TxFault) (db : Tables) (tenantID aggregateID : string) :=
  query f db tenantID (fun e => String.eqb (ev_AggregateID e) aggregateID).

Definition ByPeriod (f : TxFault) (db : Tables) (tenantID : string) (from to : Time) :=
  query f db tenantID (fun e => (from <=? ev_OccurredAt e) && (ev_OccurredAt e <? to)).

Definition byID (f : TxFault) (db : Tables) (tenantID eventID : string)
    : result Event EvidenceError :=
  match query f db tenantID (fun e => String.eqb (ev_EventID e) eventID) with
  | Err er => Err er
  | Ok [] => Err ErrNotFound
  | Ok (e :: _) => Ok e
  end.

Definition Correct (f1 f2 : TxFault) (dbnow : Time) (db : Tables) (c : Event)
    (correctsEventID : string) : Tables * result unit EvidenceError :=
  if String.eqb correctsEventID "" then (db, Err (ErrInvalid "corrects_event_id")) else
  match byID f1 db (ev_TenantID c) correctsEventID with
  | Err er => (db, Err er)
  | Ok prior =>
      let c' := mkEvent (ev_SchemaVersion c) (ev_EventID c) EvidenceCorrected (ev_TenantID c)
                  (if String.eqb (ev_AggregateID c) "" then ev_AggregateID prior
                   else ev_AggregateID c)
                  (if String.eqb (ev_CorrelationID c) "" then ev_CorrelationID prior
                   else ev_CorrelationID c)
                  (ev_CausationID c) (ev_OccurredAt c) (ev_ProducedAt c) (ev_Producer c)
                  (ev_Sequence c) correctsEventID (ev_Payload c) in
      let '(db', r) := Append f2 dbnow db c' in
      (db', match r with Ok _ => Ok () | Err er => Err er end)
  end.

(** * The outbox *)

Record OutboxEntry := mkEntry {
  en_OutboxID : Z;
  en_TenantID : string;
  en_EventID : string;
  en_Subject : string;
  en_Payload : string;
  en_Attempts : Z
}.

Definition entry_of (x : Z * OutboxRow) : OutboxEntry :=
  mkEntry (fst x) (o_tenant_id (snd x)) (o_event_id (snd x)) (o_subject (snd x))
    (o_payload (snd x)) (o_attempt_count (snd x)).

Definition clamp_limit (limit : Z) : nat :=
  Z.to_nat (if (limit <=? 0) || (2000 <? limit) then 500 else limit).

Definition oldest_first (a b : Z * OutboxRow) : bool :=
  o_created_at (snd a) <? o_created_at (snd b).

Definition unpublished (x : Z * OutboxRow) : bool :=
  match o_published_at (snd x) with None => true | Some _ => false end.

Definition Unpublished (db : Tables) (limit : Z) : list OutboxEntry :=
  map entry_of (take (clamp_limit limit)
    (stable_sort oldest_first (List.filter unpublished (map_to_list (outbox db))))).

Definition claimable (cutoff : Time) (x : Z * OutboxRow) : bool :=
  unpublished x &&
  match o_claimed_at (snd x) with None => true | Some c => c <? cutoff end.

Definition claimed (at_ : Time) (owner : string) (o : OutboxRow) : OutboxRow :=
  mkOutboxRow (o_tenant_id o) (o_event_id o) (o_subject o) (o_payload o) (o_created_at o)
    (o_published_at o) (o_attempt_count o) (o_last_error o) (Some at_) (Some owner).

(** The sub-select of the claim. *)
Definition to_claim (db : Tables) (limit : Z) (cutoff : Time) : list (Z * OutboxRow) :=
  take (clamp_limit limit)
    (stable_sort oldest_first (List.filter (claimable cutoff) (map_to_list (outbox db)))).

Definition update_rows (g : OutboxRow -> OutboxRow) (ids : list Z) (m : gmap Z OutboxRow)
    : gmap Z OutboxRow :=
  foldl (fun m id => alter g id m) m ids.

Definition set_outbox (db : Tables) (m : gmap Z OutboxRow) : Tables :=
  mkTables (events db) m (next_outbox_id db).

Definition Claim (f : TxFault) (db : Tables) (limit : Z) (owner : string) (at_ : Time)
    (reclaimAfter : Duration) : Tables * result (list OutboxEntry) EvidenceError :=
  transaction ErrDatabase f db (fun db =>
    let rows := to_claim db limit (TimeAdd at_ (- reclaimAfter)) in
    (set_outbox db (update_rows (claimed at_ owner) (map fst rows) (outbox db)),
     Ok (map entry_of rows))).

Definition published (at_ : Time) (o : OutboxRow) : OutboxRow :=
  mkOutboxRow (o_tenant_id o) (o_event_id o) (o_subject o) (o_payload o) (o_created_at o)
    (Some at_) (o_attempt_count o) (o_last_error o) (o_claimed_at o) (o_claimed_by o).

Definition MarkPublishedBatch (f : TxFault) (db : Tables) (ids : list Z) (at_ : Time)
    : Tables * result unit EvidenceError :=
  match ids with
  | [] => (db, Ok ())
  | _ => transaction ErrDatabase f db (fun db =>
           (set_outbox db (update_rows (published at_) ids (outbox db)), Ok ()))
  end.

Definition failed (reason : string) (o : OutboxRow) : OutboxRow :=
  mkOutboxRow (o_tenant_id o) (o_event_id o) (o_subject o) (o_payload o) (o_created_at o)
    (o_published_at o) (o_attempt_count o + 1) (Some reason) (o_claimed_at o) (o_claimed_by o).

Definition MarkFailed (f : TxFault) (db : Tables) (tenantID : string) (outboxID : Z)
    (reason : string) : Tables * result unit EvidenceError :=
  withTenant f db tenantID (fun db =>
    (set_outbox db (update_rows (failed reason) [outboxID] (outbox db)), Ok ())).

Definition delivered (tenantID : string) (before : Time) (x : Z * OutboxRow) : bool :=
  String.eqb (o_tenant_id (snd x)) tenantID &&
  match o_published_at (snd x) with Some p => p <? before | None => false end.

Definition prunable (db : Tables) (tenantID : string) (before : Time) (batch : Z)
    : list (Z * OutboxRow) :=
  take (Z.to_nat (if batch <=? 0 then 5000 else batch))
    (List.filter (delivered tenantID before) (map_to_list (outbox db))).

Definition PrunePublished (f : TxFault) (db : Tables) (tenantID : string) (before : Time)
    (batch : Z) : Tables * result Z EvidenceError :=
  withTenant f db tenantID (fun db =>
    let rows := prunable db tenantID before batch in
    (set_outbox db (foldl (fun m x => delete (fst x) m) (outbox db) rows),
     Ok (Z.of_nat (length rows)))).

Definition DefaultOutboxRetention : Duration := 24 * Hour.

(** One tenant of OutboxSweeper.Sweep; the faults, one per pass, bound it. *)
Fixpoint sweep_tenant (faults : list TxFault) (db : Tables) (tenant : string) (before : Time)
    (batch total : Z) : Tables * Z :=
  match faults with
  | [] => (db, total)
  | f :: faults' =>
      match PrunePublished f db tenant before batch with
      | (db', Err _) => (db', total)
      | (db', Ok deleted) =>
          let total := total + deleted in
          if deleted <? batch then (db', total)
          else sweep_tenant faults' db' tenant before batch total
      end
  end.

Definition Sweep (faults : string -> list TxFault) (db : Tables) (tenants : list string)
    (now : Time) (keep : Duration) (batch : Z) : Tables * Z :=
  let keep := if keep <=? 0 then DefaultOutboxRetention else keep in
  let batch := if batch <=? 0 then 5000 else batch in
  foldl (fun '(db, total) t =>
           sweep_tenant (faults t) db t (TimeAdd now (- keep)) batch total) (db, 0) tenants.

(** The publisher: [bus] is what PublishBatch answers, a failure of the call or a
    result per event, [None] for an acknowledged one. *)
Section Drain.
(** What meets the MarkFailed of a row; its error is dropped. *)
Context (mark_failed : Z -> TxFault).

Fixpoint decode (db : Tables) (entries : list OutboxEntry)
    : Tables * list (Event * OutboxEntry) :=
  match entries with
  | [] => (db, [])
  | en :: entries' =>
      match unmarshal_event (en_Payload en) with
      | None =>
          decode (fst (MarkFailed (mark_failed (en_OutboxID en)) db (en_TenantID en)
                         (en_OutboxID en) "payload is not an event")) entries'
      | Some e => let '(db', l) := decode db entries' in (db', (e, en) :: l)
      end
  end.

Fixpoint acknowledge (db : Tables) (l : list (OutboxEntry * option string))
    : Tables * list Z :=
  match l with
  | [] => (db, [])
  | (en, Some reason) :: l' =>
      acknowledge (fst (MarkFailed (mark_failed (en_OutboxID en)) db (en_TenantID en)
                          (en_OutboxID en) reason)) l'
  | (en, None) :: l' => let '(db', ids) := acknowledge db l' in (db', en_OutboxID en :: ids)
  end.

Definition Drain (claim mark : TxFault) (db : Tables) (batch : Z) (owner : string)
    (at_ marked_at : Time) (reclaimAfter : Duration)
    (bus : list Event -> option (list (option string))) : Tables * Z :=
  let batch := if batch <=? 0 then 500 else batch in
  let owner := if str_nonempty owner then owner else "assurance-gateway" in
  let reclaimAfter := if 0 <? reclaimAfter then reclaimAfter else 2 * Minute in
  match Claim claim db batch owner at_ reclaimAfter with
  | (db1, Err _) => (db1, 0)
  | (db1, Ok entries) =>
      let '(db2, decoded) := decode db1 entries in
      let outcome :=
        match decoded with
        | [] => Some (db2, [])
        | _ => match bus (map fst decoded) with
               | None => None
               | Some results => Some (acknowledge db2 (zip (map snd decoded) results))
               end
        end in
      match outcome with
      | None => (db2, 0)
      | Some (db3, ids) =>
          match MarkPublishedBatch mark db3 ids marked_at with
          | (db4, Err _) => (db4, 0)
          | (db4, Ok _) => (db4, Z.of_nat (length ids))
          end
      end
  end.
End Drain.
End Store.

(** * Histories of the tables *)

Section Histories.
Context {HJ : JSON}.

Inductive eop :=
| OAppend (f : TxFault) (dbnow : Time) (e : Event)
| OConsumed (f : TxFault) (e : Event)
| OBatch (f : TxFault) (dbnow : Time) (es : list Event)
| OInTx (f : TxFault) (tenant : string) (dbnow : Time) (e : Event)
| OCorrect (f1 f2 : TxFault) (dbnow : Time) (c : Event) (id : string)
| OClaim (f : TxFault) (limit : Z) (owner : string) (at_ : Time) (reclaim : Duration)
| OPublished (f : TxFault) (ids : list Z) (at_ : Time)
| OFailed (f : TxFault) (tenant : string) (id : Z) (reason : string)
| OPrune (f : TxFault) (tenant : string) (before : Time) (batch : Z).

Definition estep (db : Tables) (op : eop) : Tables :=
  match op with
  | OAppend f now e => fst (Append f now db e)
  | OConsumed f e => fst (AppendConsumed f db e)
  | OBatch f now es => fst (AppendBatch f now db es)
  | OInTx f t now e => fst (withTenant f db t (fun db =>
      in_tx db (let? db' := AppendInTx t now db e in Ok (db', ()))))
  | OCorrect f1 f2 now c id => fst (Correct f1 f2 now db c id)
  | OClaim f n o a r => fst (Claim f db n o a r)
  | OPublished f ids a => fst (MarkPublishedBatch f db ids a)
  | OFailed f t id r => fst (MarkFailed f db t id r)
  | OPrune f t b n => fst (PrunePublished f db t b n)
  end.

(** What no write takes away: every recorded event, every row still owed to the
    bus, and numbers above every row. *)
Definition numbered (db : Tables) : Prop :=
  forall id o, outbox db !! id = Some o -> id < next_outbox_id db.

Definition same_message (o o' : OutboxRow) : Prop :=
  o_tenant_id o' = o_tenant_id o /\ o_event_id o' = o_event_id o /\
  o_subject o' = o_subject o /\ o_payload o' = o_payload o.

Definition keeps_owed (marked : list Z) (m m' : gmap Z OutboxRow) : Prop :=
  forall id o, m !! id = Some o -> o_published_at o = None -> id ∉ marked ->
  exists o', m' !! id = Some o' /\ o_published_at o' = None /\ same_message o o'.

(** Row [id], if it is still there, was leased at [t]. *)
Definition leased (id : Z) (t : Time) (db : Tables) : Prop :=
  id < next_outbox_id db /\
  (forall o, outbox db !! id = Some o -> o_claimed_at o = Some t).

Section Extends.
Context (lid : Z) (lt : Time).

(** [young]: no claim made meanwhile reclaims a lease taken at [lt]. *)
Record extends (marked : list Z) (young : Prop) (db db' : Tables) : Prop := {
  ex_events : events db ⊆ events db';
  ex_numbered : numbered db -> numbered db';
  ex_owed : numbered db -> keeps_owed marked (outbox db) (outbox db');
  ex_leased : young -> leased lid lt db -> leased lid lt db'
}.

Lemma same_message_refl o : same_message o o.
Proof. done. Qed.

Lemma same_message_trans o1 o2 o3 :
  same_message o1 o2 -> same_message o2 o3 -> same_message o1 o3.
Proof. unfold same_message. intuition congruence. Qed.

Lemma extends_refl marked young db : extends marked young db db.
Proof.
  constructor; [done | done | | done]. intros _ id o Ho Hp _. exists o. by split_and!.
Qed.

Lemma extends_trans marked young db1 db2 db3 :
  extends marked young db1 db2 -> extends marked young db2 db3 -> extends marked young db1 db3.
Proof.
  intros [E1 N1 O1 L1] [E2 N2 O2 L2]. constructor; [by etrans | auto | | auto].
  intros Hn id o Ho Hp Hm. destruct (O1 Hn id o Ho Hp Hm) as (o2 & Ho2 & Hp2 & S2).
  destruct (O2 (N1 Hn) id o2 Ho2 Hp2 Hm) as (o3 & Ho3 & Hp3 & S3).
  exists o3. split_and!; [done..|]. by eapply same_message_trans.
Qed.

Lemma extends_weaken marked marked' (young young' : Prop) db db' :
  (forall id, id ∈ marked -> id ∈ marked') -> (young' -> young) ->
  extends marked young db db' -> extends marked' young' db db'.
Proof.
  intros Hsub Hy [E N O L]. constructor; [done.. | | auto]. intros Hn id o Ho Hp Hm.
  apply (O Hn id o Ho Hp). auto.
Qed.

(** A transaction extends when its body does. *)
Lemma extends_transaction {A} marked young f db (fn : Tables -> Tables * result A EvidenceError) :
  (forall a, snd (fn db) = Ok a -> extends marked young db (fst (fn db))) ->
  extends marked young db (fst (transaction ErrDatabase f db fn)).
Proof.
  intros H. destruct (transaction_state ErrDatabase f db fn) as [->|(a & Ha & ->)];
    [apply extends_refl | eauto].
Qed.

Lemma extends_withTenant {A} marked young f db t (fn : Tables -> Tables * result A EvidenceError) :
  (forall a, snd (fn db) = Ok a -> extends marked young db (fst (fn db))) ->
  extends marked young db (fst (withTenant f db t fn)).
Proof.
  intros H. unfold withTenant. destruct (String.eqb t ""); [apply extends_refl|].
  by apply extends_transaction.
Qed.

Lemma insert_event_extends marked young t db e c p db' b :
  insert_event t db e c p = Ok (db', b) -> extends marked young db db'.
Proof.
  unfold insert_event. intros H. inv_all H; simplify_eq; [apply extends_refl|].
  constructor; cbn; [by apply insert_subseteq | done | | done].
  intros _ id o Ho Hp _. exists o. by split_and!.
Qed.

Lemma insert_outbox_extends marked young t now db e p db' :
  insert_outbox t now db e p = Ok db' -> extends marked young db db'.
Proof.
  unfold insert_outbox. intros H. inv_all H; simplify_eq; constructor; cbn; try done.
  - intros Hn id o Ho. cbn in *. specialize (Hn id o Ho). lia.
  - intros _ id o Ho Hp _. exists o. by split_and!.
  - intros _ [Hlt Hl]. split; cbn; [lia | exact Hl].
  - intros Hn id o. cbn. destruct (decide (next_outbox_id db = id)) as [<-|Hne].
    + intros _. lia.
    + rewrite lookup_insert_ne by done. intros Ho. specialize (Hn id o Ho). lia.
  - intros Hn id o Ho Hp _. exists o. specialize (Hn id o Ho).
    rewrite lookup_insert_ne by lia. by split_and!.
  - intros _ [Hlt Hl]. split; cbn; [lia|]. intros o. rewrite lookup_insert_ne by lia. apply Hl.
Qed.

Lemma enqueue_extends marked young t now es db db' :
  enqueue t now db es = Ok db' -> extends marked young db db'.
Proof.
  revert db. induction es as [|e es IH]; cbn; intros db H; simplify_eq; [apply extends_refl|].
  inv_all H. eapply extends_trans; [by eapply insert_outbox_extends | by apply IH].
Qed.

Lemma insert_batch_extends marked young t rows db db' :
  insert_batch t db rows = Ok db' -> extends marked young db db'.
Proof.
  revert db. induction rows as [|[e p] rows IH]; cbn; intros db H; simplify_eq;
    [apply extends_refl|].
  inv_all H. destruct a as [db1 b]. cbn in H.
  eapply extends_trans; [by eapply insert_event_extends | by apply IH].
Qed.

Lemma Append_extends marked young f now db e : extends marked young db (fst (Append f now db e)).
Proof.
  unfold Append. destruct (str_nonempty _); [apply extends_refl|].
  destruct (payload_column e) as [p|]; [|apply extends_refl].
  apply extends_withTenant. intros a.
  destruct (insert_event _ _ _ _ _) as [[db1 fresh]|er] eqn:E; [|done].
  apply (insert_event_extends marked young) in E.
  destruct fresh; cbn [negb]; [|by intros _].
  destruct (enqueue _ _ _ _) as [db2|] eqn:E2; [|done]. intros _.
  eapply extends_trans; [exact E | by eapply enqueue_extends].
Qed.

Lemma AppendConsumed_extends marked young f db e : extends marked young db (fst (AppendConsumed f db e)).
Proof.
  unfold AppendConsumed. destruct (str_nonempty _); [apply extends_refl|].
  destruct (payload_column e) as [p|]; [|apply extends_refl].
  apply extends_withTenant. intros a.
  destruct (insert_event _ _ _ _ _) as [[db1 fresh]|er] eqn:E; [|done].
  intros _. by eapply insert_event_extends.
Qed.

Lemma AppendBatch_extends marked young f now db es : extends marked young db (fst (AppendBatch f now db es)).
Proof.
  unfold AppendBatch. destruct es as [|e es]; [apply extends_refl|].
  destruct (batch_rows _ _) as [rows|]; [|apply extends_refl].
  apply extends_withTenant. intros a.
  destruct (insert_batch _ _ _) as [db1|] eqn:E1; [|done].
  destruct (enqueue _ _ db1 _) as [db2|] eqn:E2; [|done]. intros _.
  eapply extends_trans; [by eapply insert_batch_extends | by eapply enqueue_extends].
Qed.

Lemma insert_event_recorded t db e c p db' b :
  insert_event t db e c p = Ok (db', b) -> is_Some (events db' !! (ev_EventID e, ev_OccurredAt e)).
Proof.
  unfold insert_event. destruct (row_refused _ _ _); [done|].
  destruct (events db !! _) eqn:E; intros [= <- <-]; [by rewrite E|].
  cbn. rewrite lookup_insert_eq. by eexists.
Qed.

Lemma insert_batch_recorded t rows : forall db db' e p,
  insert_batch t db rows = Ok db' -> (e, p) ∈ rows ->
  is_Some (events db' !! (ev_EventID e, ev_OccurredAt e)).
Proof.
  induction rows as [|[e0 p0] rows IH]; intros db db' e p; cbn [insert_batch].
  { intros _ Hin. by apply not_elem_of_nil in Hin. }
  destruct (insert_event t db e0 _ p0) as [[db1 b]|] eqn:E; [|done].
  intros Hrest [[= <- <-]|Hin]%elem_of_cons; [|by eapply IH].
  destruct (insert_event_recorded _ _ _ _ _ _ _ E) as [r Hr]. exists r.
  eapply lookup_weaken; [exact Hr|].
  by apply (ex_events [] False _ _ (insert_batch_extends [] False _ _ _ _ Hrest)).
Qed.

Lemma batch_rows_members t es : forall rows, batch_rows t es = Ok rows -> map fst rows = es.
Proof.
  induction es as [|e es IH]; intros rows; cbn [batch_rows]; [by intros [= <-]|].
  destruct (negb _); [done|]. destruct (str_nonempty _); [done|].
  destruct (payload_column e); [|done].
  destruct (batch_rows t es) as [l|]; [|done]. intros [= <-]. cbn. by rewrite IH.
Qed.

(** A batch that committed recorded every event of it. *)
Lemma AppendBatch_recorded f now db es db' e :
  AppendBatch f now db es = (db', Ok ()) -> e ∈ es ->
  is_Some (events db' !! (ev_EventID e, ev_OccurredAt e)).
Proof.
  destruct es as [|e0 es0]; [intros _ H; by apply not_elem_of_nil in H|]. unfold AppendBatch.
  set (t := ev_TenantID e0). destruct (batch_rows t (e0 :: es0)) as [rows|] eqn:Er; [|done].
  apply batch_rows_members in Er. intros H Hin.
  assert (exists db1, insert_batch t db rows = Ok db1 /\ enqueue t now db1 (e0 :: es0) = Ok db')
    as (db1 & H1 & H2).
  { revert H. unfold withTenant. destruct (String.eqb t ""); [done|]. unfold transaction, in_tx.
    destruct (insert_batch t db rows) as [db1|]; [|by destruct f].
    destruct (enqueue t now db1 _) as [db2|] eqn:E2; [|by destruct f].
    destruct f; intros [= <-]; eauto. }
  rewrite <- Er in Hin. apply list_elem_of_fmap in Hin as ([e1 p] & -> & Hin).
  destruct (insert_batch_recorded _ _ _ _ _ _ H1 Hin) as [r Hr]. exists r.
  eapply lookup_weaken; [exact Hr|].
  by apply (ex_events [] False _ _ (enqueue_extends [] False _ _ _ _ _ H2)).
Qed.

Lemma AppendInTx_extends marked young t now db e db' :
  AppendInTx t now db e = Ok db' -> extends marked young db db'.
Proof.
  unfold AppendInTx. intros H.
  destruct (str_nonempty _); [done|]. destruct (marshal_payload _); [|done].
  destruct (marshal_event e) as [raw|]; [|done].
  destruct (insert_event _ _ _ _ _) as [[db1 fresh]|er] eqn:E; [|done].
  eapply extends_trans; [by eapply insert_event_extends | by eapply insert_outbox_extends].
Qed.

(** Updating rows in place by a function that keeps the message. *)
Lemma update_rows_cons g i ids m : update_rows g (i :: ids) m = update_rows g ids (alter g i m).
Proof. done. Qed.

Lemma update_rows_lookup g ids m id :
  update_rows g ids m !! id = None <-> m !! id = None.
Proof.
  revert m. induction ids as [|i ids IH]; intros m; [done|].
  rewrite update_rows_cons, IH. destruct (decide (i = id)) as [->|].
  - rewrite lookup_alter_eq. by destruct (m !! id).
  - by rewrite lookup_alter_ne.
Qed.

Lemma update_rows_rel (R : OutboxRow -> OutboxRow -> Prop) g ids m id o :
  (forall o, R o o) -> (forall o1 o2, R o1 o2 -> R o1 (g o2)) ->
  m !! id = Some o -> exists o', update_rows g ids m !! id = Some o' /\ R o o'.
Proof.
  intros Hr Hg Ho. assert (Hgen : forall m o0, R o o0 -> m !! id = Some o0 ->
    exists o', update_rows g ids m !! id = Some o' /\ R o o').
  { clear m Ho. induction ids as [|i ids IH]; intros m o0 HR Ho; [cbn; eauto|].
    rewrite update_rows_cons.
    destruct (decide (i = id)) as [->|Hne].
    - apply (IH _ (g o0)); [auto|]. by rewrite lookup_alter_eq, Ho.
    - apply (IH _ o0); [done|]. by rewrite lookup_alter_ne. }
  by apply (Hgen m o).
Qed.

Lemma update_rows_ne g ids m id : id ∉ ids -> update_rows g ids m !! id = m !! id.
Proof.
  revert m. induction ids as [|i ids IH]; intros m Hin; [done|].
  apply not_elem_of_cons in Hin as [Hne Hin]. rewrite update_rows_cons, IH by done. by rewrite lookup_alter_ne.
Qed.

Lemma update_rows_numbered db g ids :
  numbered db -> numbered (set_outbox db (update_rows g ids (outbox db))).
Proof.
  intros Hn id o Ho. cbn in *. destruct (outbox db !! id) as [o'|] eqn:E; [by eapply Hn|].
  apply (update_rows_lookup g ids) in E. congruence.
Qed.

Lemma update_rows_leased db g ids :
  (forall o, o_claimed_at (g o) = o_claimed_at o) \/ (leased lid lt db -> lid ∉ ids) ->
  leased lid lt db -> leased lid lt (set_outbox db (update_rows g ids (outbox db))).
Proof.
  intros Hg [Hlt Hl]. split; [done|]. intros o Ho. cbn in Ho.
  destruct (outbox db !! lid) as [o0|] eqn:E.
  2:{ apply (update_rows_lookup g ids) in E. congruence. }
  destruct Hg as [Hg|Hg].
  - apply (update_rows_rel (fun o o' => o_claimed_at o' = o_claimed_at o) g ids)
      in E as (o' & Ho' & HR); [|done | intros ? ? <-; apply Hg].
    rewrite Ho in Ho'. injection Ho' as <-. rewrite HR. by apply Hl.
  - rewrite update_rows_ne in Ho; [apply Hl; congruence|].
    apply Hg. split; [done|]. intros o1 Ho1. apply Hl. congruence.
Qed.

(** Claiming and failing keep a row owed; publishing keeps the others. *)
Lemma update_owed_extends marked (young : Prop) db g ids :
  (forall o, same_message o (g o) /\ o_published_at (g o) = o_published_at o) ->
  (young -> leased lid lt db -> leased lid lt (set_outbox db (update_rows g ids (outbox db)))) ->
  extends marked young db (set_outbox db (update_rows g ids (outbox db))).
Proof.
  intros Hg Hlease. constructor; cbn; [done | apply update_rows_numbered | | exact Hlease].
  intros _ id o Ho Hp _.
  apply (update_rows_rel (fun o o' => same_message o o' /\
           o_published_at o' = o_published_at o) g ids) in Ho as (o' & Ho' & S & P).
  - exists o'. by rewrite P.
  - done.
  - intros o1 o2 [S P]. destruct (Hg o2) as [S2 P2].
    split; [by eapply same_message_trans | congruence].
Qed.

Lemma MarkPublished_extends young f db ids at_ :
  extends ids young db (fst (MarkPublishedBatch f db ids at_)).
Proof.
  unfold MarkPublishedBatch. destruct ids as [|i ids]; [apply extends_refl|].
  apply extends_transaction. intros _ _. constructor;
    [done | apply update_rows_numbered | | intros _; apply update_rows_leased; by left].
  intros _ id o Ho Hp Hin. exists o. cbn [fst set_outbox outbox].
  rewrite (update_rows_ne _ _ _ _ Hin). done.
Qed.

Lemma foldl_delete_lookup (rows : list (Z * OutboxRow)) (m : gmap Z OutboxRow) id :
  id ∉ map fst rows -> foldl (fun m x => delete (fst x) m) m rows !! id = m !! id.
Proof.
  revert m. induction rows as [|x rows IH]; intros m Hin; cbn; [done|].
  cbn in Hin. apply not_elem_of_cons in Hin as [Hne Hin]. rewrite IH by done.
  by rewrite lookup_delete_ne.
Qed.

Lemma foldl_delete_Some (rows : list (Z * OutboxRow)) (m : gmap Z OutboxRow) id o :
  foldl (fun m x => delete (fst x) m) m rows !! id = Some o -> m !! id = Some o.
Proof.
  revert m. induction rows as [|x rows IH]; intros m H; cbn in H; [done|].
  apply IH in H. by apply lookup_delete_Some in H as [_ H].
Qed.

Lemma prunable_in db t before batch x :
  x ∈ prunable db t before batch ->
  outbox db !! fst x = Some (snd x) /\ delivered t before x = true.
Proof.
  unfold prunable. intros H. apply elem_of_take in H as (i & Hi & _).
  apply list_elem_of_lookup_2 in Hi. rewrite list_elem_of_In, filter_In, <- list_elem_of_In in Hi.
  destruct Hi as [Hi Hd]. destruct x. split; [by apply elem_of_map_to_list | done].
Qed.

Lemma PrunePublished_extends marked young f db t before batch :
  extends marked young db (fst (PrunePublished f db t before batch)).
Proof.
  apply extends_withTenant. intros _ _. constructor; cbn [fst set_outbox events outbox]; [done | | |].
  - intros Hn id o Ho. cbn in Ho. by apply foldl_delete_Some in Ho; eapply Hn.
  - intros _ id o Ho Hp _. exists o. split_and!; [|done..].
    rewrite foldl_delete_lookup; [done|]. intros (x & -> & Hx)%list_elem_of_fmap.
    apply prunable_in in Hx as [Hx Hd]. rewrite Hx in Ho. injection Ho as Ho.
    unfold delivered in Hd. rewrite Ho, Hp, andb_false_r in Hd. done.
  - intros _ [Hlt Hl]. split; [done|]. cbn. intros o Ho%foldl_delete_Some. by apply Hl.
Qed.

Definition marks (op : eop) : list Z :=
  match op with OPublished _ ids _ => ids | _ => [] end.

(** The claim of [op] does not reclaim leases taken at [lt]. *)
Definition young (op : eop) : Prop :=
  match op with OClaim _ _ _ at_ reclaim => TimeAdd at_ (- reclaim) <= lt | _ => True end.

Lemma to_claim_in db limit cutoff x :
  x ∈ to_claim db limit cutoff ->
  outbox db !! fst x = Some (snd x) /\ claimable cutoff x = true.
Proof.
  unfold to_claim. intros H. apply elem_of_take in H as (i & Hi & _).
  apply list_elem_of_lookup_2 in Hi. rewrite stable_sort_perm in Hi.
  rewrite list_elem_of_In, filter_In, <- list_elem_of_In in Hi.
  destruct Hi as [Hi Hd]. destruct x. split; [by apply elem_of_map_to_list | done].
Qed.

Lemma to_claim_leased db limit cutoff :
  cutoff <= lt -> leased lid lt db -> lid ∉ map fst (to_claim db limit cutoff).
Proof.
  intros Hc [_ Hl] (x & -> & Hx)%list_elem_of_fmap. apply to_claim_in in Hx as [Hx Hcl].
  unfold claimable in Hcl. rewrite (Hl _ Hx) in Hcl. b2p. lia.
Qed.

Lemma estep_extends db op : extends (marks op) (young op) db (estep db op).
Proof.
  destruct op; cbn [estep marks young].
  - apply Append_extends.
  - apply AppendConsumed_extends.
  - apply AppendBatch_extends.
  - apply extends_withTenant. intros a.
    destruct (AppendInTx _ _ _ _) as [db1|] eqn:E; [|done]. intros _.
    by eapply AppendInTx_extends.
  - unfold Correct. destruct (String.eqb id ""); [apply extends_refl|].
    destruct (byID _ _ _ _) as [prior|]; [|apply extends_refl].
    rewrite (surjective_pairing (Append _ _ _ _)). cbn [fst]. apply Append_extends.
  - apply extends_transaction. intros _ _. apply update_owed_extends; [done|].
    intros Hy. apply update_rows_leased. right. by apply to_claim_leased.
  - apply MarkPublished_extends.
  - apply extends_withTenant. intros _ _. apply update_owed_extends; [done|].
    intros _. apply update_rows_leased. by left.
  - apply PrunePublished_extends.
Qed.

Lemma run_extends db ops :
  extends (concat (map marks ops)) (Forall young ops) db (run_ops estep db ops).
Proof.
  revert db. induction ops as [|op ops IH]; intros db; [apply extends_refl|].
  cbn [run_ops foldl map concat]. eapply extends_trans.
  - eapply extends_weaken; [| |apply estep_extends]; [intros id; set_solver|].
    by intros [? ?]%Forall_cons.
  - eapply extends_weaken; [| |apply IH]; [intros id; set_solver|].
    by intros [? ?]%Forall_cons.
Qed.
End Extends.

(** C9: Evidence is append-only: whatever the store's operations do, in any
    order and under any database failure, every recorded event is still there,
    unchanged, and every message owed to the bus is still owed, with its content
    unchanged, unless a publisher marked it published. *)
Theorem evidence_append_only (db : Tables) (ops : list eop) :
  numbered db ->
  events db ⊆ events (run_ops estep db ops) /\
  keeps_owed (concat (map marks ops)) (outbox db) (outbox (run_ops estep db ops)).
Proof.
  intros Hn. destruct (run_extends 0 0 db ops) as [E _ O _]. auto.
Qed.

(** A claim leases every row it returns. *)
Lemma update_rows_eq g ids m id o c :
  id ∈ ids -> (forall o, o_claimed_at (g o) = c) ->
  update_rows g ids m !! id = Some o -> o_claimed_at o = c.
Proof.
  intros Hin Hg. revert m. induction ids as [|i ids IH]; intros m Ho.
  - by apply not_elem_of_nil in Hin.
  - rewrite update_rows_cons in Ho. destruct (decide (id ∈ ids)) as [Hi|Hi]; [eauto|].
    apply elem_of_cons in Hin as [<-|Hin]; [|done].
    rewrite update_rows_ne, lookup_alter_eq in Ho by done.
    destruct (m !! id) as [o0|]; [|done]. injection Ho as <-. apply Hg.
Qed.

Lemma Claim_leases db n owner t r db' es en :
  numbered db -> Claim Fine db n owner t r = (db', Ok es) -> en ∈ es ->
  leased (en_OutboxID en) t db'.
Proof.
  unfold Claim, transaction. intros Hn H Hen. simplify_eq.
  apply list_elem_of_fmap in Hen as (x & -> & Hx).
  pose proof (to_claim_in _ _ _ _ Hx) as [Hl _]. split; [by eapply Hn|].
  cbn. intros o Ho. eapply (update_rows_eq _ _ _ _ _ (Some t)) in Ho; [done| |done].
  apply list_elem_of_fmap. eauto.
Qed.

(** A lease is exclusive: a row one publisher claimed is in no later claim,
    whatever is appended, failed, published, pruned or claimed in between, until
    a claim is made more than its reclaim window after the lease was taken. *)
Theorem leases_are_exclusive (db db1 db2 : Tables) (n1 n2 : Z) (o1 o2 : string)
    (t1 t2 : Time) (r1 r2 : Duration) (es1 es2 : list OutboxEntry) (ops : list eop)
    (f2 : TxFault) :
  numbered db -> Claim Fine db n1 o1 t1 r1 = (db1, Ok es1) ->
  Forall (young t1) ops -> TimeAdd t2 (- r2) <= t1 ->
  Claim f2 (run_ops estep db1 ops) n2 o2 t2 r2 = (db2, Ok es2) ->
  forall e1 e2, e1 ∈ es1 -> e2 ∈ es2 -> en_OutboxID e1 <> en_OutboxID e2.
Proof.
  intros Hn H1 Hy Hc H2 e1 e2 He1 He2 Heq.
  pose proof (Claim_leases _ _ _ _ _ _ _ _ Hn H1 He1) as Hl.
  destruct (run_extends (en_OutboxID e1) t1 db1 ops) as [_ _ _ L]. specialize (L Hy Hl).
  apply transaction_ok in H2 as [_ H2]. cbv beta zeta in H2. injection H2 as _ <-.
  apply list_elem_of_fmap in He2 as (x & -> & Hx).
  pose proof (to_claim_leased _ _ _ n2 _ Hc L) as Hno. apply Hno.
  rewrite Heq. apply list_elem_of_fmap. eauto.
Qed.

(** ** Recording and owing *)

Lemma insert_outbox_queued t now db e p db' :
  insert_outbox t now db e p = Ok db' -> queued db' (ev_EventID e) = true.
Proof.
  unfold insert_outbox. intros H. inv_all H; simplify_eq; [done|].
  unfold queued. apply existsb_exists. exists (next_outbox_id db,
    mkOutboxRow (ev_TenantID e) (ev_EventID e) (Subject e) p now None 0 None None None).
  split; [|apply String.eqb_refl]. apply list_elem_of_In, elem_of_map_to_list. cbn.
  apply lookup_insert_eq.
Qed.

Lemma insert_outbox_events t now db e p db' :
  insert_outbox t now db e p = Ok db' -> events db' = events db.
Proof. unfold insert_outbox. intros H. inv_all H; by simplify_eq. Qed.

(** The row [Append] writes. *)
Definition row_of (e : Event) (payload : string) : Row :=
  mkRow (ev_SchemaVersion e) (ev_EventName e) (ev_TenantID e) (ev_AggregateID e)
    (ev_CorrelationID e) (nullIfEmpty (ev_CausationID e)) (ev_ProducedAt e)
    (ev_Producer e) (ev_Sequence e) (nullIfEmpty (ev_CorrectsEventID e)) payload.

Definition event_key (e : Event) : string * Time := (ev_EventID e, ev_OccurredAt e).

Lemma Append_ok f now db e db' b :
  Append f now db e = (db', Ok b) ->
  Validate e = "" /\ f = Fine /\ ev_TenantID e <> "" /\
  exists payload, payload_column e = Ok payload /\
    row_refused (ev_TenantID e) (ev_EventID e) (row_of e payload) = None /\
    ((b = false /\ db' = db /\ events db !! event_key e <> None) \/
     (b = true /\ events db !! event_key e = None /\
      events db' = <[event_key e := row_of e payload]> (events db) /\
      queued db' (ev_EventID e) = true)).
Proof.
  unfold Append, withTenant, str_nonempty. intros H.
  destruct (String.eqb_spec (Validate e) ""); [|done]. cbn [negb] in H.
  destruct (payload_column e) as [payload|] eqn:Ep; [|done].
  destruct (String.eqb_spec (ev_TenantID e) ""); [done|].
  apply transaction_ok in H as [-> H]. split_and!; [done..|].
  exists payload. split; [done|]. unfold insert_event in H. fold (row_of e payload) in H.
  destruct (row_refused _ _ _); [done|]. split; [done|]. fold (event_key e) in H.
  destruct (events db !! event_key e) eqn:El; cbn [negb in_tx] in H.
  - left. injection H as <- <-. done.
  - right. cbn [enqueue] in H. destruct (marshal_event e) as [raw|]; [|done].
    destruct (insert_outbox _ _ _ _ _) as [db2|] eqn:Eo; [|done]. cbn [in_tx] in H.
    injection H as <- <-. split_and!; [done | done | | by eapply insert_outbox_queued].
    by rewrite (insert_outbox_events _ _ _ _ _ _ Eo).
Qed.

(** A valid event under a new key, with a working database, is recorded. *)
Lemma Append_fresh now db e m payload raw :
  Validate e = "" -> ev_EventName e <> EvidenceCorrected -> ev_CorrectsEventID e = "" -> ev_TenantID e <> "" ->
  0 <= ev_Sequence e -> ev_Payload e = Some m -> marshal_payload (Some m) = Some payload ->
  marshal_event e = Some raw -> events db !! event_key e = None ->
  events (fst (Append Fine now db e)) = <[event_key e := row_of e payload]> (events db).
Proof.
  intros Hv Hn Hc Ht Hs Hp Hm Hr Hf. unfold Append, payload_column, withTenant. rewrite Hv, Hp, Hm. cbn [str_nonempty negb String.eqb].
  apply String.eqb_neq in Ht. rewrite Ht. cbn [transaction]. unfold in_tx, insert_event, row_refused.
  cbn [r_tenant_id r_sequence r_corrects_event_id r_event_name]. rewrite String.eqb_refl, Hc. cbn [negb nullIfEmpty String.eqb].
  destruct (Z.ltb_spec (ev_Sequence e) 0); [lia|]. apply String.eqb_neq in Hn. rewrite Hn.
  unfold event_key in Hf. rewrite Hf. cbn [negb enqueue]. rewrite Hr. unfold insert_outbox. rewrite String.eqb_refl. cbn [negb].
  unfold row_of. rewrite Hc. by destruct (queued _ _).
Qed.

(** Recording is idempotent and owes the bus a message: a successful Append
    reports whether it recorded, and when it did the event's row and its outbox
    row are there together; when it did not, nothing changed; and delivering the
    same event again changes nothing and reports so. *)
Theorem Append_idempotent (f : TxFault) (now now' : Time) (db db' : Tables) (e : Event)
    (b : bool) :
  Append f now db e = (db', Ok b) ->
  (b = true -> exists payload, payload_column e = Ok payload /\
     events db' = <[event_key e := row_of e payload]> (events db) /\
     queued db' (ev_EventID e) = true) /\
  (b = false -> db' = db) /\
  (b = true <-> events db !! event_key e = None) /\
  Append Fine now' db' e = (db', Ok false).
Proof.
  intros H. apply Append_ok in H as (Hv & _ & Ht & payload & Ep & Hr & Hcase).
  assert (Hin : events db' !! event_key e <> None).
  { destruct Hcase as [(_ & -> & Hin)|(_ & _ & -> & _)]; [done|]. by rewrite lookup_insert_eq. }
  split_and!.
  - intros ->. destruct Hcase as [(? & _)|(_ & _ & He & Hq)]; [done|]. eauto.
  - intros ->. by destruct Hcase as [(_ & -> & _)|(? & _)].
  - destruct Hcase as [(-> & _ & ?)|(-> & ? & _)]; done.
  - unfold Append, withTenant. rewrite Hv. cbn [str_nonempty negb String.eqb].
    rewrite Ep. destruct (String.eqb_spec (ev_TenantID e) ""); [done|].
    unfold transaction, insert_event. fold (row_of e payload). rewrite Hr. fold (event_key e).
    by destruct (events db' !! event_key e).
Qed.

(** ** Reading back *)

Lemma event_before_asym a b : event_before a b = true -> event_before b a = false.
Proof.
  unfold event_before.
  destruct (Z.eqb_spec (ev_OccurredAt a) (ev_OccurredAt b)) as [E|E];
    destruct (Z.eqb_spec (ev_OccurredAt b) (ev_OccurredAt a)) as [E'|E']; try congruence.
  - destruct (Z.eqb_spec (ev_Sequence a) (ev_Sequence b));
      destruct (Z.eqb_spec (ev_Sequence b) (ev_Sequence a)); try congruence.
    + apply str_ltb_asym.
    + rewrite Z.ltb_lt, Z.ltb_ge. lia.
  - rewrite Z.ltb_lt, Z.ltb_ge. lia.
Qed.

Lemma event_not_after_trans a b c :
  not_after event_before a b -> not_after event_before b c -> not_after event_before a c.
Proof.
  unfold not_after, event_before.
  repeat match goal with
  | |- context [?x =? ?y] => destruct (Z.eqb_spec x y)
  end; try congruence; rewrite ?Z.ltb_ge; try lia.
  apply str_not_after_trans.
Qed.

Lemma query_spec db t cond :
  t <> "" -> exists l, query Fine db t cond = Ok l /\
  StronglySorted (not_after event_before) l /\
  (forall e, e ∈ l <-> exists k r, events db !! k = Some r /\ e = event_of k r /\
     r_tenant_id r = t /\ cond e = true).
Proof.
  intros Ht. unfold query, withTenant. destruct (String.eqb_spec t ""); [done|].
  cbn [transaction snd]. eexists. split; [reflexivity|]. split.
  - apply stable_sort_sorted; [apply event_before_asym | apply event_not_after_trans].
  - intros e. rewrite stable_sort_perm, list_elem_of_In, filter_In, <- list_elem_of_In.
    rewrite andb_true_iff, String.eqb_eq. split.
    + intros [([k r] & -> & Hk)%list_elem_of_fmap [Hten Hc]].
      apply elem_of_map_to_list in Hk. eauto 6.
    + intros (k & r & Hk & -> & Hten & Hc). split; [|done].
      apply list_elem_of_fmap. exists (k, r). split; [done|]. by apply elem_of_map_to_list.
Qed.

(** What a query selects, before it is put in order. *)
Definition selected (db : Tables) (t : string) (cond : Event -> bool) : list Event :=
  List.filter (fun e => String.eqb (ev_TenantID e) t && cond e)
    (map (fun '(k, r) => event_of k r) (map_to_list (events db))).

Lemma query_selected db t cond :
  t <> "" -> exists l, query Fine db t cond = Ok l /\ l ≡ₚ selected db t cond.
Proof.
  intros Ht. unfold query, withTenant. destruct (String.eqb_spec t ""); [done|]. cbn [transaction snd].
  eexists. split; [reflexivity|]. apply stable_sort_perm.
Qed.

Lemma selected_insert db db' k r t cond :
  events db !! k = None -> events db' = <[k := r]> (events db) ->
  ev_TenantID (event_of k r) = t -> cond (event_of k r) = true ->
  selected db' t cond ≡ₚ event_of k r :: selected db t cond.
Proof.
  intros Hk He Ht Hc. unfold selected. rewrite He.
  assert (HP : map (fun '(k, r) => event_of k r) (map_to_list (<[k := r]> (events db))) ≡ₚ
    event_of k r :: map (fun '(k, r) => event_of k r) (map_to_list (events db)))
    by (by rewrite (map_to_list_insert (events db) k r Hk)).
  rewrite (filter_perm _ _ _ HP). cbn [List.filter]. by rewrite Ht, String.eqb_refl, Hc.
Qed.

(** A chain is complete, ordered and the tenant's own: it holds exactly the
    tenant's recorded events with that correlation id, in the order they happened
    (then by sequence, then by id), so an event once recorded is in its chain in
    every later state. *)
Theorem Chain_complete (db : Tables) (ops : list eop) (tenantID correlationID : string)
    (k : string * Time) (r : Row) :
  numbered db -> tenantID <> "" -> events db !! k = Some r -> r_tenant_id r = tenantID ->
  r_correlation_id r = correlationID ->
  exists l, Chain Fine (run_ops estep db ops) tenantID correlationID = Ok l /\
    StronglySorted (not_after event_before) l /\ event_of k r ∈ l /\
    (forall e, e ∈ l -> ev_TenantID e = tenantID /\ ev_CorrelationID e = correlationID).
Proof.
  intros Hn Ht Hk Hten Hcor.
  destruct (query_spec (run_ops estep db ops) tenantID
              (fun e => String.eqb (ev_CorrelationID e) correlationID) Ht) as (l & Hl & Hs & Hin).
  exists l. split_and!; [done..| |].
  - apply Hin. exists k, r. split_and!; [|done..|].
    + destruct (run_extends 0 0 db ops) as [E _ _ _]. by eapply lookup_weaken.
    + cbn. by rewrite Hcor, String.eqb_refl.
  - intros e (k' & r' & _ & -> & Hr' & Hc)%Hin. apply String.eqb_eq in Hc. done.
Qed.

(** [AppendInTx] does not write the corrects_event_id column: an event that
    corrects another loses the reference, and a correction event is refused by
    the table's own check. *)
Theorem AppendInTx_loses_correction (tenant : string) (now : Time) (db db' : Tables)
    (e : Event) :
  AppendInTx tenant now db e = Ok db' ->
  ev_EventName e <> EvidenceCorrected /\
  (events db !! event_key e = None ->
   exists r, events db' !! event_key e = Some r /\ r_corrects_event_id r = None).
Proof.
  unfold AppendInTx. intros H. destruct (str_nonempty _); [done|].
  destruct (marshal_payload _) as [payload|]; [|done].
  destruct (marshal_event e) as [raw|]; [|done].
  destruct (insert_event _ _ _ _ _) as [[db1 fresh]|er] eqn:E; [|done].
  apply insert_outbox_events in H. cbn [fst] in H. unfold insert_event, row_refused in E.
  cbn [r_tenant_id r_sequence r_corrects_event_id r_event_name] in E.
  destruct (negb _); [done|]. destruct (ev_Sequence e <? 0); [done|].
  destruct (String.eqb_spec (ev_EventName e) EvidenceCorrected); [done|].
  split; [done|]. intros Hnone. unfold event_key in *. rewrite Hnone in E. injection E as <- _.
  rewrite H. cbn. eexists. rewrite lookup_insert_eq. split; [reflexivity | done].
Qed.
End Histories.

(** * Witnesses *)

(** An encoding good enough to run the store: the payload as text, the event by its
    identifier. *)
Definition toy_json : JSON := {|
  marshal_payload := fun p => Some (match p with None => "null" | Some _ => "{...}" end);
  unmarshal_payload := fun _ => None;
  marshal_event := fun e => Some (ev_EventID e);
  unmarshal_event := fun s =>
    Some (mkEvent SchemaVersion s IntentReceived "" "" "" "" 0 0 "" 0 "" None)
|}.

Definition sample_event (id : string) (at_ : Time) : Event :=
  mkEvent "0.1" id IntentReceived "tenant-1" "env-1" "corr-1" "" at_ at_ "gateway" 0 "" None.

Definition sample_history : list eop :=
  [OAppend Fine 10 (sample_event "e-1" 5);
   OAppend LostAck 11 (sample_event "e-2" 6);
   OPrune Fine "tenant-1" 100 0].

Definition sample_tables : Tables := run_ops (estep (HJ := toy_json)) empty_tables sample_history.

Lemma sample_numbered : numbered sample_tables.
Proof.
  eapply (ex_numbered 0 0 _ _ _ _ (run_extends (HJ := toy_json) 0 0 empty_tables sample_history)).
  intros id o Ho. cbn in Ho. by rewrite lookup_empty in Ho.
Qed.

Example evidence_append_only_witness :
  numbered sample_tables /\
  events sample_tables ⊆
    events (run_ops (estep (HJ := toy_json)) sample_tables
              [OClaim Fine 0 "p" 20 60; OPublished Fine [1] 21; OPrune Fine "tenant-1" 50 0]).
Proof.
  split; [exact sample_numbered|].
  exact (proj1 (evidence_append_only (HJ := toy_json) sample_tables _ sample_numbered)).
Defined.

Definition appended_tables : Tables :=
  fst (Append (HJ := toy_json) Fine 12 sample_tables (sample_event "e-3" 7)).

Example Append_idempotent_witness :
  Append (HJ := toy_json) Fine 13 appended_tables (sample_event "e-3" 7) =
    (appended_tables, Ok false).
Proof.
  assert (H : Append (HJ := toy_json) Fine 12 sample_tables (sample_event "e-3" 7) =
              (appended_tables, Ok true)) by (vm_compute; reflexivity).
  exact (proj2 (proj2 (proj2 (Append_idempotent (HJ := toy_json) Fine 12 13 _ _ _ true H)))).
Defined.

Example leases_are_exclusive_witness :
  exists db1 es1 db2 es2,
    Claim Fine sample_tables 1 "p1" 100 60 = (db1, Ok es1) /\
    Claim Fine db1 10 "p2" 130 60 = (db2, Ok es2) /\
    map en_OutboxID es1 = [1] /\ map en_OutboxID es2 = [2] /\
    forall e1 e2, e1 ∈ es1 -> e2 ∈ es2 -> en_OutboxID e1 <> en_OutboxID e2.
Proof.
  do 4 eexists. split; [vm_compute; reflexivity|]. split; [vm_compute; reflexivity|].
  split; [reflexivity|]. split; [reflexivity|].
  match goal with |- forall e1 e2, e1 ∈ ?l1 -> e2 ∈ ?l2 -> _ =>
    eapply (leases_are_exclusive (HJ := toy_json) sample_tables _ _ 1 10 "p1" "p2" 100 130 60 60
              l1 l2 [] Fine sample_numbered) end.
  - vm_compute. reflexivity.
  - constructor.
  - vm_compute. discriminate.
  - vm_compute. reflexivity.
Defined.

Example Chain_complete_witness :
  exists l, Chain (HJ := toy_json) Fine sample_tables "tenant-1" "corr-1" = Ok l /\
    map ev_EventID l = ["e-1"; "e-2"] /\ StronglySorted (not_after event_before) l.
Proof.
  eexists. split; [vm_compute; reflexivity|]. split; [vm_compute; reflexivity|].
  destruct (events sample_tables !! ("e-1", 5)) as [r|] eqn:E;
    [|vm_compute in E; discriminate].
  destruct (Chain_complete (HJ := toy_json) sample_tables [] "tenant-1" "corr-1" ("e-1", 5) r
              sample_numbered ltac:(discriminate) E) as (l & Hl & Hs & _).
  - vm_compute in E. injection E as <-. reflexivity.
  - vm_compute in E. injection E as <-. reflexivity.
  - vm_compute in Hl. injection Hl as <-. exact Hs.
Defined.

Definition correcting_event : Event :=
  mkEvent "0.1" "e-9" OrderFilled "tenant-1" "env-1" "corr-1" "" 9 9 "gateway" 0 "e-1" None.

Definition corrected_tables : Tables :=
  match AppendInTx (HJ := toy_json) "tenant-1" 12 sample_tables correcting_event with
  | Ok db => db | Err _ => sample_tables
  end.

Example AppendInTx_loses_correction_witness :
  ev_CorrectsEventID correcting_event = "e-1" /\
  exists r, events corrected_tables !! ("e-9", 9) = Some r /\ r_corrects_event_id r = None.
Proof.
  split; [reflexivity|].
  assert (H : AppendInTx (HJ := toy_json) "tenant-1" 12 sample_tables correcting_event =
              Ok corrected_tables) by (vm_compute; reflexivity).
  assert (Hn : events sample_tables !! event_key correcting_event = None)
    by (vm_compute; reflexivity).
  exact (proj2 (AppendInTx_loses_correction (HJ := toy_json) _ _ _ _ _ H) Hn).
Defined.
