(* ===== verification/Control.v ===== *)
(** Fleet controls a customer authorized: internal/control.

    control.go gives the decision, store.go the tables fleet_controls and
    fleet_control_usage with their CHECK constraints.  [Tables] keeps the usage rows
    of a control under its tenant and id.  [up = false] is a transaction that cannot
    begin or commit; one that commits and loses its acknowledgement is not a case here.  A [Decision]'s human-readable reason is not modelled. *)

From S2P Require Import Prelude Money Intent.

Abbreviation ControlAction := string.
Definition ControlThrottle : ControlAction := "THROTTLE".
Definition ControlRequireApproval : ControlAction := "REQUIRE_APPROVAL".
Definition ControlIsolateCohort : ControlAction := "ISOLATE_COHORT".
Definition ControlReadOnly : ControlAction := "READ_ONLY".

Record Control := mkControl {
  c_ControlID : string;
  c_TenantID : string;
  c_IncidentID : string;
  c_Action : ControlAction;
  c_CohortID : string;
  c_AgentID : string;
  c_AgentIDs : list string;
  c_AccountID : string;
  c_MaxOrders : Z;
  c_Window : Duration;
  c_AuthorizedBy : string;
  c_PolicyBundleID : string;
  c_Reason : string;
  c_AppliedAt : Time;
  c_ExpiresAt : Time;
  c_RevokedAt : option Time;
  c_RevokedBy : string
}.

(** [Control.InForce]. *)
Definition binds (c : Control) (at_ : Time) : bool :=
  isNil (c_RevokedAt c) && Before at_ (c_ExpiresAt c).

Definition covers (c : Control) (env : Envelope) : bool :=
  if str_nonempty (c_AgentID c) && negb (String.eqb (c_AgentID c) (ag_AgentID (env_Agent env)))
  then false
  else if (0 <? length (c_AgentIDs c))%nat &&
          negb (contains (c_AgentIDs c) (ag_AgentID (env_Agent env))) then false
  else if str_nonempty (c_AccountID c) &&
          negb (String.eqb (c_AccountID c) (pr_AccountID (env_Principal env))) then false
  else true.

Record Decision := mkDecision {
  cd_Allowed : bool;
  cd_Code : string;
  cd_ControlID : string
}.

Definition Allow : Decision := mkDecision true "NO_CONTROL_APPLIES" "".

Definition refusal (c : Control) (code : string) : Decision :=
  mkDecision false code (c_ControlID c).

Fixpoint evaluate_loop (controls : list Control) (env : Envelope) (at_ : Time) : Decision :=
  match controls with
  | [] => Allow
  | c :: rest =>
      if negb (binds c at_) || negb (covers c env) then evaluate_loop rest env at_
      else if String.eqb (c_Action c) ControlReadOnly then refusal c "CONTROL_READ_ONLY"
      else if String.eqb (c_Action c) ControlIsolateCohort then
        refusal c "CONTROL_COHORT_ISOLATED"
      else if String.eqb (c_Action c) ControlThrottle then evaluate_loop rest env at_
      else if String.eqb (c_Action c) ControlRequireApproval then
        refusal c "CONTROL_APPROVAL_REQUIRED"
      else evaluate_loop rest env at_
  end.

Definition Evaluate (controls : list Control) (env : option Envelope) (at_ : Time) : Decision :=
  match env with
  | None => Allow
  | Some env => evaluate_loop controls env at_
  end.

Definition Throttles (controls : list Control) (env : option Envelope) (at_ : Time)
    : list Control :=
  match env with
  | None => []
  | Some env =>
      List.filter (fun c => String.eqb (c_Action c) ControlThrottle && binds c at_ &&
                            covers c env) controls
  end.

Definition Throttled (c : Control) : Decision := refusal c "CONTROL_THROTTLED".

Definition validControl (a : ControlAction) : bool :=
  contains [ControlThrottle; ControlRequireApproval; ControlIsolateCohort; ControlReadOnly] a.

Definition Enforceable (a : ControlAction) : bool := validControl a.

Definition ParseAction (raw : string) : option ControlAction :=
  let a := ToUpper (TrimSpace raw) in if validControl a then Some a else None.

(** * The store *)

Module Store.
Record Tables := mkTables {
  controls : gmap (string * string) Control;
  usage : gmap (string * string) (gmap string Time)
}.

Definition empty_tables : Tables := mkTables ∅ ∅.

Inductive StoreError :=
| ErrTenantContextMissing | ErrControlExists | ErrControlNotFound | ErrUnavailable
| ErrConstraint.

Definition withTenant {A} (up : bool) (db : Tables) (tenantID : string)
    (fn : Tables -> Tables * result A StoreError) : Tables * result A StoreError :=
  if String.eqb tenantID "" then (db, Err ErrTenantContextMissing)
  else if negb up then (db, Err ErrUnavailable)
  else match fn db with
       | (_, Err e) => (db, Err e)
       | (db', Ok a) => (db', Ok a)
       end.

(** [int(c.Window.Seconds())]. *)
Definition window_seconds (w : Duration) : Z := Z.quot w Second.

(** [nullableInt] followed by COALESCE to zero. *)
Definition column_int (n : Z) : Z := if n <=? 0 then 0 else n.

Definition max_int32 : Z := 2 ^ 31 - 1.

Definition b2n (b : bool) : nat := if b then 1%nat else 0%nat.

(** The CHECK constraints of fleet_controls, and the range of its integer columns. *)
Definition constraints (c : Control) : bool :=
  let rate := column_int (c_MaxOrders c) in
  let window := column_int (window_seconds (c_Window c)) in
  validControl (c_Action c) && (c_AppliedAt c <? c_ExpiresAt c) &&
  (if String.eqb (c_Action c) ControlThrottle then (0 <? rate) && (0 <? window)
   else (rate =? 0) && (window =? 0)) &&
  (rate <=? max_int32) && (window <=? max_int32) &&
  (b2n (str_nonempty (c_AgentID c)) + b2n (str_nonempty (c_AccountID c)) +
   b2n (0 <? length (c_AgentIDs c))%nat <=? 1)%nat.

(** The control as a row gives it back: whole seconds, not revoked. *)
Definition stored (c : Control) : Control :=
  mkControl (c_ControlID c) (c_TenantID c) (c_IncidentID c) (c_Action c) (c_CohortID c)
    (c_AgentID c) (c_AgentIDs c) (c_AccountID c) (column_int (c_MaxOrders c))
    (column_int (window_seconds (c_Window c)) * Second) (c_AuthorizedBy c)
    (c_PolicyBundleID c) (c_Reason c) (c_AppliedAt c) (c_ExpiresAt c) None "".

Definition Save (up : bool) (db : Tables) (c : Control) : Tables * result unit StoreError :=
  withTenant up db (c_TenantID c) (fun db =>
    if negb (constraints c) then (db, Err ErrConstraint) else
    match controls db !! (c_TenantID c, c_ControlID c) with
    | Some _ => (db, Err ErrControlExists)
    | None =>
        (mkTables (<[(c_TenantID c, c_ControlID c) := stored c]> (controls db)) (usage db),
         Ok tt)
    end).

(** A tenant's rows, in the order row level security and the query leave them. *)
Definition tenant_controls (db : Tables) (tenantID : string) : list Control :=
  map snd (List.filter (fun x => String.eqb (fst (fst x)) tenantID)
             (map_to_list (controls db))).

Definition InForce (up : bool) (db : Tables) (tenantID : string) (at_ : Time)
    : result (list Control) StoreError :=
  snd (withTenant up db tenantID (fun db =>
    (db, Ok (stable_sort (fun a b => c_AppliedAt a <? c_AppliedAt b)
               (List.filter (fun c => isNil (c_RevokedAt c) && (at_ <? c_ExpiresAt c))
                  (tenant_controls db tenantID)))))).

Definition ListAll (up : bool) (db : Tables) (tenantID : string)
    : result (list Control) StoreError :=
  snd (withTenant up db tenantID (fun db =>
    (db, Ok (stable_sort (fun a b => c_AppliedAt b <? c_AppliedAt a)
               (tenant_controls db tenantID))))).

Definition revoked (c : Control) (revokedBy : string) (at_ : Time) : Control :=
  mkControl (c_ControlID c) (c_TenantID c) (c_IncidentID c) (c_Action c) (c_CohortID c)
    (c_AgentID c) (c_AgentIDs c) (c_AccountID c) (c_MaxOrders c) (c_Window c)
    (c_AuthorizedBy c) (c_PolicyBundleID c) (c_Reason c) (c_AppliedAt c) (c_ExpiresAt c)
    (Some at_) revokedBy.

Definition Revoke (up : bool) (db : Tables) (tenantID controlID revokedBy : string)
    (at_ : Time) : Tables * result bool StoreError :=
  withTenant up db tenantID (fun db =>
    match controls db !! (tenantID, controlID) with
    | None => (db, Err ErrControlNotFound)
    | Some c =>
        match c_RevokedAt c with
        | Some _ => (db, Ok true)
        | None =>
            (mkTables (<[(tenantID, controlID) := revoked c revokedBy at_]> (controls db))
               (usage db), Ok false)
        end
    end).

Definition rows (db : Tables) (tenantID controlID : string) : gmap string Time :=
  default ∅ (usage db !! (tenantID, controlID)).

Definition later_than (y : Time) (s : Time) : Z := if y <? s then 1 else 0.

(** Returns whether the order may go, and how many the window holds. *)
Definition Consume (up : bool) (db : Tables) (tenantID : string) (c : Control)
    (idempotencyKey : string) (at_ : Time) : Tables * result (bool * Z) StoreError :=
  withTenant up db tenantID (fun db =>
    let r := rows db tenantID (c_ControlID c) in
    let replay := negb (isNil (r !! idempotencyKey)) in
    let used := map_sum (later_than (TimeAdd at_ (- c_Window c))) r in
    if replay then (db, Ok (true, used))
    else if c_MaxOrders c <=? used then (db, Ok (false, used))
    else
      let r := <[idempotencyKey := at_]> r in
      let r := filter (fun x => ~ snd x < TimeAdd at_ (- 2 * c_Window c)) r in
      (mkTables (controls db) (<[(tenantID, c_ControlID c) := r]> (usage db)),
       Ok (true, used + 1))).

Definition Forget (up : bool) (db : Tables) (tenantID controlID : string)
    : Tables * result unit StoreError :=
  withTenant up db tenantID (fun db =>
    (mkTables (controls db) (delete (tenantID, controlID) (usage db)), Ok tt)).
End Store.

(** * The decision *)

(** A control that stops this order outright. *)
Definition stops (c : Control) (env : Envelope) (at_ : Time) : bool :=
  binds c at_ && covers c env &&
  contains [ControlReadOnly; ControlIsolateCohort; ControlRequireApproval] (c_Action c).

Definition refusal_code (a : ControlAction) : string :=
  if String.eqb a ControlReadOnly then "CONTROL_READ_ONLY"
  else if String.eqb a ControlIsolateCohort then "CONTROL_COHORT_ISOLATED"
  else "CONTROL_APPROVAL_REQUIRED".

Lemma evaluate_loop_find cs env at_ :
  evaluate_loop cs env at_ =
  match List.find (fun c => stops c env at_) cs with
  | Some c => refusal c (refusal_code (c_Action c))
  | None => Allow
  end.
Proof.
  induction cs as [|c cs IH]; cbn [evaluate_loop List.find]; [done|].
  unfold stops at 1. rewrite IH. clear IH.
  destruct (binds c at_); [|done]. destruct (covers c env); [|done]. cbn [andb orb negb].
  unfold refusal_code. rewrite !contains_cons.
  rewrite (String.eqb_sym ControlReadOnly), (String.eqb_sym ControlIsolateCohort),
    (String.eqb_sym ControlRequireApproval).
  destruct (String.eqb_spec (c_Action c) ControlReadOnly) as [E1|]; [by rewrite E1|].
  destruct (String.eqb_spec (c_Action c) ControlIsolateCohort) as [E2|]; [by rewrite E2|].
  destruct (String.eqb_spec (c_Action c) ControlThrottle) as [E3|]; [by rewrite E3|].
  by destruct (String.eqb_spec (c_Action c) ControlRequireApproval) as [E4|]; [rewrite E4|].
Qed.

(** The control stage allows an order exactly when no control that stops orders
    is in force and covers it; otherwise it names the first such control in the
    list, with the code of its action, whatever throttles stand before it. *)
Theorem Evaluate_first_stop (cs : list Control) (env : Envelope) (at_ : Time) :
  (cd_Allowed (Evaluate cs (Some env) at_) = true <->
     forall c, c ∈ cs -> stops c env at_ = false) /\
  (forall before c after, cs = before ++ c :: after -> stops c env at_ = true ->
     (forall b, b ∈ before -> stops b env at_ = false) ->
     Evaluate cs (Some env) at_ = mkDecision false (refusal_code (c_Action c)) (c_ControlID c)).
Proof.
  cbn [Evaluate]. rewrite evaluate_loop_find. split.
  - destruct (List.find _ cs) as [c|] eqn:E.
    + apply List.find_some in E as [Hin Hs]. split; [done|]. intros H.
      apply list_elem_of_In in Hin. by rewrite (H c Hin) in Hs.
    + split; [|done]. intros _ c Hin. apply list_elem_of_In in Hin.
      exact (List.find_none _ _ E c Hin).
  - intros before c after -> Hs Hb.
    induction before as [|b before IH]; cbn [app List.find].
    + by rewrite Hs.
    + rewrite Hb by apply list_elem_of_here. apply IH. intros b' Hb'.
      apply Hb. by apply list_elem_of_further.
Qed.

(** * Revocation is final *)

Inductive cop :=
| CSave (up : bool) (c : Control)
| CRevoke (up : bool) (t id who : string) (at_ : Time)
| CConsume (up : bool) (t : string) (c : Control) (key : string) (at_ : Time)
| CForget (up : bool) (t id : string).

Definition cstep (db : Store.Tables) (op : cop) : Store.Tables :=
  match op with
  | CSave up c => fst (Store.Save up db c)
  | CRevoke up t id who at_ => fst (Store.Revoke up db t id who at_)
  | CConsume up t c key at_ => fst (Store.Consume up db t c key at_)
  | CForget up t id => fst (Store.Forget up db t id)
  end.

Lemma control_withTenant_cases {A} up db t (fn : Store.Tables -> Store.Tables * result A Store.StoreError)
    db' r :
  Store.withTenant up db t fn = (db', r) ->
  (db' = db /\ is_ok r = false) \/ (exists a, fn db = (db', Ok a) /\ r = Ok a).
Proof.
  unfold Store.withTenant. destruct (String.eqb t ""); [intros [= <- <-]; by left|].
  destruct up; cbn [negb]; [|intros [= <- <-]; by left].
  destruct (fn db) as [db2 [a|e]] eqn:E; intros [= <- <-]; [right; eauto | by left].
Qed.

Lemma Consume_controls up db t c key at_ :
  Store.controls (fst (Store.Consume up db t c key at_)) = Store.controls db.
Proof.
  destruct (Store.Consume up db t c key at_) as [db' r] eqn:E. cbn.
  apply control_withTenant_cases in E as [[-> _]|(a & Hf & _)]; [done|].
  cbv zeta in Hf. repeat inv_match Hf; by simplify_eq.
Qed.

(** Every row is filed under its own tenant and id. *)
Definition filed (db : Store.Tables) : Prop :=
  forall t id c, Store.controls db !! (t, id) = Some c -> c_TenantID c = t /\ c_ControlID c = id.

Lemma controls_step db op t id c :
  Store.controls db !! (t, id) = Some c ->
  exists c', Store.controls (cstep db op) !! (t, id) = Some c' /\
    (c' = c \/ exists who at_, c_RevokedAt c = None /\ c' = Store.revoked c who at_).
Proof.
  intros Hc.
  destruct op as [up c0|up t0 id0 who at_|up t0 c0 key at_|up t0 id0]; cbn [cstep].
  - destruct (Store.Save up db c0) as [db' r] eqn:E. cbn.
    apply control_withTenant_cases in E as [[-> _]|(a & Hf & _)]; [eauto|].
    destruct (negb _); [done|]. destruct (Store.controls db !! _) eqn:Ek in Hf; [done|].
    simplify_eq. cbn. rewrite lookup_insert_ne by congruence. eauto.
  - destruct (Store.Revoke up db t0 id0 who at_) as [db' r] eqn:E. cbn.
    apply control_withTenant_cases in E as [[-> _]|(a & Hf & _)]; [eauto|].
    destruct (Store.controls db !! (t0, id0)) as [c0|] eqn:Ek; [|done].
    destruct (c_RevokedAt c0) eqn:Er; simplify_eq; [eauto|]. cbn.
    destruct (decide ((t0, id0) = (t, id))) as [Hx|Hne].
    + rewrite Hx, lookup_insert_eq. rewrite Hx, Hc in Ek. simplify_eq. eauto 8.
    + rewrite lookup_insert_ne by done. eauto.
  - rewrite Consume_controls. eauto.
  - destruct (Store.Forget up db t0 id0) as [db' r] eqn:E. cbn.
    apply control_withTenant_cases in E as [[-> _]|(a & Hf & _)]; [eauto|]. simplify_eq. cbn. eauto.
Qed.

Lemma revoked_run t id ops : forall db c at_,
  Store.controls db !! (t, id) = Some c -> c_RevokedAt c = Some at_ ->
  Store.controls (run_ops cstep db ops) !! (t, id) = Some c.
Proof.
  induction ops as [|op ops IH]; intros db c at_ Hc Hr; [done|]. cbn.
  destruct (controls_step db op t id c Hc) as (c' & Hc' & [->|(who & a & Hn & _)]);
    [by eapply IH | congruence].
Qed.

Lemma filed_step db op : filed db -> filed (cstep db op).
Proof.
  intros Hf t id c Hc.
  destruct (Store.controls db !! (t, id)) as [c0|] eqn:E.
  - destruct (controls_step db op t id c0 E) as (c' & Hc' & Hor).
    rewrite Hc in Hc'. injection Hc' as <-.
    destruct (Hf _ _ _ E). destruct Hor as [->|(who & a & _ & ->)]; done.
  - destruct op as [up c0|up t0 id0 who at_|up t0 c0 key at_|up t0 id0]; cbn [cstep] in Hc.
    + destruct (Store.Save up db c0) as [db' r] eqn:Es. cbn in Hc.
      apply control_withTenant_cases in Es as [[-> _]|(a & Hfn & _)]; [congruence|].
      destruct (negb _); [done|]. destruct (Store.controls db !! _) eqn:Ek in Hfn; [done|].
      simplify_eq. cbn in Hc.
      destruct (decide ((c_TenantID c0, c_ControlID c0) = (t, id))) as [[= <- <-]|Hne].
      * rewrite lookup_insert_eq in Hc. by injection Hc as <-.
      * rewrite lookup_insert_ne in Hc by done. congruence.
    + destruct (Store.Revoke up db t0 id0 who at_) as [db' r] eqn:Es. cbn in Hc.
      apply control_withTenant_cases in Es as [[-> _]|(a & Hfn & _)]; [congruence|].
      destruct (Store.controls db !! (t0, id0)) as [c0|] eqn:Ek; [|done].
      destruct (c_RevokedAt c0); simplify_eq. cbn in Hc.
      destruct (decide ((t0, id0) = (t, id))) as [Hx|Hne]; [congruence|].
      rewrite lookup_insert_ne in Hc by done. congruence.
    + rewrite Consume_controls in Hc. congruence.
    + destruct (Store.Forget up db t0 id0) as [db' r] eqn:Es. cbn in Hc.
      apply control_withTenant_cases in Es as [[-> _]|(a & Hfn & _)]; [congruence|].
      simplify_eq. cbn in Hc. congruence.
Qed.

Lemma elem_of_tenant_controls db t c :
  c ∈ Store.tenant_controls db t -> exists id, Store.controls db !! (t, id) = Some c.
Proof.
  unfold Store.tenant_controls. intros Hin. apply list_elem_of_In, in_map_iff in Hin.
  destruct Hin as ([[t' id] c'] & <- & Hin). apply filter_In in Hin as [Hin Ht].
  apply String.eqb_eq in Ht. cbn in Ht. subst t'.
  exists id. by apply elem_of_map_to_list, list_elem_of_In.
Qed.

(** A revoked control never binds again.  Once revocation of a tenant's control
    has succeeded, then after any sequence of authorizations, revocations, throttle
    counting and forgetting, revoking it again changes nothing and reports that it
    was already lifted, its id cannot be authorized anew, and no reading of the
    controls in force returns it. *)
Theorem revoked_stays_revoked (db : Store.Tables) (t id who : string) (at_ : Time)
    (ops : list cop) (already : bool) :
  filed db -> snd (Store.Revoke true db t id who at_) = Ok already ->
  let db' := run_ops cstep (fst (Store.Revoke true db t id who at_)) ops in
  (forall who' at', Store.Revoke true db' t id who' at' = (db', Ok true)) /\
  (forall c, c_TenantID c = t -> c_ControlID c = id ->
     is_ok (snd (Store.Save true db' c)) = false /\ fst (Store.Save true db' c) = db') /\
  (forall now cs, Store.InForce true db' t now = Ok cs ->
     forall c, c ∈ cs -> c_ControlID c <> id).
Proof.
  intros Hf Hr. cbv zeta.
  assert (Hfiled0 : filed (fst (Store.Revoke true db t id who at_)))
    by exact (filed_step db (CRevoke true t id who at_) Hf).
  destruct (Store.Revoke true db t id who at_) as [db1 r] eqn:E. cbn [fst snd] in *. subst r.
  assert (Ht : String.eqb t "" = false).
  { unfold Store.Revoke, Store.withTenant in E. by destruct (String.eqb t ""). }
  assert (Hc : exists c a, Store.controls db1 !! (t, id) = Some c /\ c_RevokedAt c = Some a).
  { apply control_withTenant_cases in E as [[_ ?]|(a & Hfn & _)]; [done|].
    destruct (Store.controls db !! (t, id)) as [c|] eqn:Ec; [|done].
    destruct (c_RevokedAt c) as [a0|] eqn:Ea; simplify_eq; [eauto|].
    exists (Store.revoked c who at_), at_. cbn. by rewrite lookup_insert_eq. }
  destruct Hc as (c & a & Hc & Ha).
  pose proof (revoked_run t id ops db1 c a Hc Ha) as Hrun.
  assert (Hfiled : filed (run_ops cstep db1 ops)).
  { apply (run_ops_invariant cstep filed); [intros; by apply filed_step | done]. }
  set (db' := run_ops cstep db1 ops) in *. split_and!.
  - intros who' at'. unfold Store.Revoke, Store.withTenant. by rewrite Ht, Hrun, Ha.
  - intros c' <- <-. unfold Store.Save, Store.withTenant. rewrite Ht. cbn [negb].
    destruct (Store.constraints c'); [|done]. cbn [negb]. by rewrite Hrun.
  - intros now cs Hin c' Hc' Hid. unfold Store.InForce, Store.withTenant in Hin.
    rewrite Ht in Hin. injection Hin as <-.
    rewrite stable_sort_perm in Hc'. apply list_elem_of_In, filter_In in Hc' as [Hc' Hb].
    apply list_elem_of_In, elem_of_tenant_controls in Hc' as [id' Hc'].
    destruct (Hfiled _ _ _ Hc') as [_ Hid']. rewrite Hid in Hid'. subst id'.
    rewrite Hrun in Hc'. injection Hc' as <-. by rewrite Ha in Hb.
Qed.

Definition demo_control : Control :=
  mkControl "ctl-1" "tenant-1" "inc-1" ControlThrottle "cohort-1" "" [] "" 1 (60 * Second)
    "ops" "bundle-1" "slow down" 0 (10 * Hour) None "".
Definition demo_controls : Store.Tables :=
  fst (Store.Save true Store.empty_tables demo_control).

Lemma demo_filed : filed demo_controls.
Proof.
  apply (filed_step Store.empty_tables (CSave true demo_control)).
  intros t id c H. cbn in H. by rewrite lookup_empty in H.
Qed.

Example revoked_stays_revoked_witness :
  let db' := run_ops cstep (fst (Store.Revoke true demo_controls "tenant-1" "ctl-1" "ops" 5))
               [CForget true "tenant-1" "ctl-1"; CSave true demo_control] in
  Store.InForce true demo_controls "tenant-1" 6 = Ok [Store.stored demo_control] /\
  Store.Revoke true db' "tenant-1" "ctl-1" "ops" 9 = (db', Ok true).
Proof.
  cbv zeta. split; [vm_compute; reflexivity|].
  exact (proj1 (revoked_stays_revoked demo_controls "tenant-1" "ctl-1" "ops" 5
    [CForget true "tenant-1" "ctl-1"; CSave true demo_control] false demo_filed
    ltac:(vm_compute; reflexivity)) "ops" 9).
Defined.

(** * The rate *)

Record ConsumeRequest := mkRequest {
  q_up : bool;
  q_tenant : string;
  q_control : Control;
  q_key : string;
  q_at : Time
}.

Section Rate.
Context (T : string) (c : Control).

Definition is_ours (q : ConsumeRequest) : bool :=
  String.eqb (q_tenant q) T && String.eqb (c_ControlID (q_control q)) (c_ControlID c).

(** A slot newly taken in the throttle under study: the order is let through, and
    its key held no slot before. *)
Definition fresh_slot (db : Store.Tables) (q : ConsumeRequest) : bool :=
  is_ours q && isNil (Store.rows db T (c_ControlID c) !! q_key q) &&
  match snd (Store.Consume (q_up q) db (q_tenant q) (q_control q) (q_key q) (q_at q)) with
  | Ok (true, _) => true
  | _ => false
  end.

(** The instants at which slots were newly taken, latest first. *)
Fixpoint slots (db : Store.Tables) (log : list Time) (reqs : list ConsumeRequest)
    : list Time :=
  match reqs with
  | [] => log
  | q :: reqs' =>
      slots (fst (Store.Consume (q_up q) db (q_tenant q) (q_control q) (q_key q) (q_at q)))
        (if fresh_slot db q then q_at q :: log else log) reqs'
  end.

Fixpoint count (f : Time -> Z) (log : list Time) : Z :=
  match log with [] => 0 | t :: log' => f t + count f log' end.

Definition in_window (x t : Time) : Z :=
  if (x - c_Window c <? t) && (t <=? x) then 1 else 0.

(** At each slot, the window that ends with it holds no more than the limit. *)
Fixpoint paced (log : list Time) : Prop :=
  match log with
  | [] => True
  | a :: log' =>
      count (Store.later_than (a - c_Window c)) (a :: log') <= c_MaxOrders c /\ paced log'
  end.

Lemma count_le f g log : (forall t, f t <= g t) -> count f log <= count g log.
Proof. intros H. induction log as [|t log IH]; cbn; [lia|]. specialize (H t). lia. Qed.

Lemma paced_window log x :
  0 <= c_MaxOrders c -> paced log -> count (in_window x) log <= c_MaxOrders c.
Proof.
  intros HM. induction log as [|a log IH]; [done|]. intros [Ha Hp].
  destruct (Z.leb_spec a x) as [Hx|Hx].
  - etransitivity; [apply (count_le _ (Store.later_than (a - c_Window c)))|exact Ha].
    intros t. unfold in_window, Store.later_than.
    destruct (Z.ltb_spec (x - c_Window c) t), (Z.leb_spec t x),
      (Z.ltb_spec (a - c_Window c) t); cbn; lia.
  - cbn [count]. unfold in_window at 1. destruct (Z.leb_spec a x); [lia|].
    rewrite andb_false_r. specialize (IH Hp). lia.
Qed.

(** The table still holds every slot a window can count. *)
Definition remembered (db : Store.Tables) (now : Time) (log : list Time) : Prop :=
  forall y, now - 2 * c_Window c <= y ->
    count (Store.later_than y) log <= map_sum (Store.later_than y)
                                        (Store.rows db T (c_ControlID c)).

Lemma map_sum_filter_zero (P : string * Time -> Prop) `{!forall x, base.Decision (P x)}
    (f : Time -> Z) (m : gmap string Time) :
  (forall k v, m !! k = Some v -> ~ P (k, v) -> f v = 0) ->
  map_sum f (filter P m) = map_sum f m.
Proof.
  induction m as [|k v m Hk IH] using map_ind; intros Hf; [by rewrite map_filter_empty|].
  assert (IH' : map_sum f (filter P m) = map_sum f m).
  { apply IH. intros k' v' Hk'. apply (Hf k'). rewrite lookup_insert_ne; congruence. }
  rewrite map_filter_insert. destruct (decide (P (k, v))) as [Hp|Hp].
  - rewrite !map_sum_insert_new; [lia | done |]. apply map_lookup_filter_None. by left.
  - rewrite map_sum_insert_new by done. rewrite delete_id by done.
    rewrite (Hf k v); [lia | apply lookup_insert_eq | done].
Qed.

Lemma rows_insert db r t id t' id' :
  Store.rows (Store.mkTables (Store.controls db) (<[(t, id) := r]> (Store.usage db))) t' id' =
  if decide ((t, id) = (t', id')) then r else Store.rows db t' id'.
Proof.
  unfold Store.rows. cbn. destruct (decide _) as [<-|Hne].
  - by rewrite lookup_insert_eq.
  - by rewrite lookup_insert_ne.
Qed.

(** One request, for the throttle under study or for another. *)
Lemma consume_rows db q now log :
  (is_ours q = true -> c_Window (q_control q) = c_Window c /\
     c_MaxOrders (q_control q) = c_MaxOrders c) ->
  0 < c_Window c -> now <= q_at q -> remembered db now log -> paced log ->
  let db' := fst (Store.Consume (q_up q) db (q_tenant q) (q_control q) (q_key q) (q_at q)) in
  let log' := if fresh_slot db q then q_at q :: log else log in
  remembered db' (q_at q) log' /\ paced log'.
Proof.
  intros Hsame HW Hnow Hrem Hpac. cbv zeta. unfold fresh_slot.
  assert (Hkeep : remembered db (q_at q) log) by (intros y Hy; apply Hrem; lia).
  destruct (Store.Consume _ _ _ _ _ _) as [db' r] eqn:E. cbn [fst snd].
  apply control_withTenant_cases in E as [[-> Hr]|(a & Hf & ->)].
  { destruct r as [[]|]; [done|]. by rewrite andb_false_r. }
  cbv zeta in Hf. unfold is_ours in *.
  destruct (String.eqb_spec (q_tenant q) T) as [Et|Et];
  destruct (String.eqb_spec (c_ControlID (q_control q)) (c_ControlID c)) as [Ec|Ec];
    cbn [andb] in *;
    try (repeat inv_match Hf; simplify_eq; split; try done; intros y Hy;
         rewrite rows_insert, decide_False by congruence; by apply Hkeep).
  destruct (Hsame eq_refl) as [HWq HMq]. rewrite HWq, HMq, Ec, Et in Hf.
  set (m := Store.rows db T (c_ControlID c)) in *.
  destruct (m !! q_key q) as [s|] eqn:Ek; cbn [isNil negb andb] in *; [by simplify_eq|].
  destruct (Z.leb_spec (c_MaxOrders c)
    (map_sum (Store.later_than (TimeAdd (q_at q) (- c_Window c))) m)); simplify_eq; [done|].
  unfold TimeAdd in *. split.
  - intros y Hy. rewrite rows_insert, decide_True by done. fold m.
    rewrite map_sum_filter_zero, map_sum_insert_new by first [done |
      intros k v _ Hv; cbn in Hv; unfold Store.later_than;
      destruct (Z.ltb_spec y v); [exfalso; apply Hv; lia | done]].
    cbn [count]. specialize (Hkeep y Hy). fold m in Hkeep. lia.
  - split; [|done]. cbn [count]. unfold Store.later_than at 1.
    destruct (Z.ltb_spec (q_at q - c_Window c) (q_at q)); [|lia].
    specialize (Hkeep (q_at q - c_Window c) ltac:(lia)). fold m in Hkeep.
    replace (q_at q + - c_Window c) with (q_at q - c_Window c) in * by lia. lia.
Qed.

(** Requests in the order of the clock. *)
Fixpoint clocked (now : Time) (reqs : list ConsumeRequest) : Prop :=
  match reqs with [] => True | q :: reqs' => now <= q_at q /\ clocked (q_at q) reqs' end.

Lemma slots_paced reqs : forall db now log,
  (forall q, q ∈ reqs -> is_ours q = true ->
     c_Window (q_control q) = c_Window c /\ c_MaxOrders (q_control q) = c_MaxOrders c) ->
  0 < c_Window c -> clocked now reqs -> remembered db now log -> paced log ->
  paced (slots db log reqs).
Proof.
  induction reqs as [|q reqs IH]; intros db now log Hs HW Hc Hr Hp; [done|].
  destruct Hc as [Hc1 Hc2]. cbn [slots].
  destruct (consume_rows db q now log) as [Hr' Hp']; [apply Hs, list_elem_of_here | done..|].
  eapply IH; [|done|exact Hc2|exact Hr'|exact Hp'].
  intros q' Hq'. apply Hs. by apply list_elem_of_further.
Qed.
End Rate.

(** C36: A throttle is a rate.  Over any sequence of orders of any tenants, under any
    throttles, on a clock that does not run backwards and with transactions that
    fail at will, the number of slots newly taken in one throttle during any
    half-open window of its length never exceeds its limit, although the table
    forgets rows two windows old. *)
Theorem throttle_is_a_rate (tenant : string) (c : Control) (reqs : list ConsumeRequest)
    (start x : Time) :
  0 < c_Window c -> 0 < c_MaxOrders c -> clocked start reqs ->
  (forall q, q ∈ reqs -> is_ours tenant c q = true ->
     c_Window (q_control q) = c_Window c /\ c_MaxOrders (q_control q) = c_MaxOrders c) ->
  count (in_window c x) (slots tenant c Store.empty_tables [] reqs) <= c_MaxOrders c.
Proof.
  intros HW HM Hc Hs. apply paced_window; [lia|].
  eapply slots_paced; [done | done | exact Hc | | done].
  intros y _. change (0 <= map_sum (Store.later_than y) (∅ : gmap string Time)).
  by rewrite map_sum_empty.
Qed.

Definition demo_requests : list ConsumeRequest :=
  [mkRequest true "tenant-1" demo_control "k1" 0;
   mkRequest true "tenant-1" demo_control "k2" (30 * Second);
   mkRequest true "tenant-1" demo_control "k2" (90 * Second);
   mkRequest true "tenant-1" demo_control "k1" (95 * Second)].

Example throttle_is_a_rate_witness :
  slots "tenant-1" demo_control Store.empty_tables [] demo_requests = [90 * Second; 0] /\
  count (in_window demo_control (95 * Second))
    (slots "tenant-1" demo_control Store.empty_tables [] demo_requests) <= 1.
Proof.
  split; [vm_compute; reflexivity|].
  apply (throttle_is_a_rate "tenant-1" demo_control demo_requests 0).
  - reflexivity.
  - reflexivity.
  - cbn. unfold Second. lia.
  - intros q Hq _. unfold demo_requests in Hq.
    repeat (apply elem_of_cons in Hq as [->|Hq]; [done|]). by apply not_elem_of_nil in Hq.
Defined.

(** The rate counts slots, not orders let through.  A key that took its slot in an
    earlier window is let through again without one: under a limit of one order a
    minute, a key counted at second 0 and a second one counted at second 90 both
    pass between seconds 90 and 95, so if the first order was refused further down
    the pipeline at second 0, two orders reach the venue in five seconds. *)
Theorem throttle_replay_is_not_counted :
  let at_ s k db := Store.Consume true db "tenant-1" demo_control k (s * Second) in
  let db0 := fst (at_ 0 "k1" Store.empty_tables) in
  let db1 := fst (at_ 90 "k2" db0) in
  snd (at_ 90 "k2" db0) = Ok (true, 1) /\ snd (at_ 95 "k1" db1) = Ok (true, 1) /\
  snd (at_ 95 "k3" db1) = Ok (false, 1) /\ c_MaxOrders demo_control = 1.
Proof. vm_compute. done. Qed.
