(* ===== verification/Policy.v ===== *)
(** Hard policy: internal/policy/authoring.go, compile.go, evaluate.go and the
    compiled rule and bundle types of bundle.go.

    The YAML decoder is not modelled: a [Source] is what it produces.  Compilation
    problems are a constructor per refusal, except the threshold problems, whose
    text is modelled because the compiler sorts it.  A Go map is ranged in an
    unspecified order, which [boundsProblems] takes as a parameter. *)

From S2P Require Import Prelude Money Intent Authority.

(** * Authoring *)

Record SourceWhen := mkWhen {
  sw_AssetClass : string;
  sw_Side : string;
  sw_OrderType : string;
  sw_Instrument : string;
  sw_Instruments : list string;
  sw_NotionalGT : option Amount;
  sw_NotionalGTE : option Amount;
  sw_NotionalLT : option Amount;
  sw_NotionalLTE : option Amount;
  sw_ExtendedHours : option bool
}.

Record SourceReq := mkReq {
  sq_NotionalLTE : option Amount;
  sq_NotionalGTE : option Amount
}.

Record SourceRule := mkSourceRule {
  sr_ID : string;
  sr_When : SourceWhen;
  sr_Require : SourceReq;
  sr_Action : string
}.

Record Source := mkSource {
  so_Version : Z;
  so_Policy : string;
  so_Rules : list SourceRule
}.

Abbreviation Action := string.
Definition ActionAllow : Action := "ALLOW".
Definition ActionObserve : Action := "OBSERVE".
Definition ActionDelay : Action := "DELAY".
Definition ActionThrottle : Action := "THROTTLE".
Definition ActionRequireApproval : Action := "REQUIRE_APPROVAL".
Definition ActionDeny : Action := "DENY".
Definition ActionIsolateCohort : Action := "ISOLATE_COHORT".
Definition ActionReadOnly : Action := "READ_ONLY".

(** The severity map, in increasing order. *)
Definition severity_table : list (Action * Z) :=
  [(ActionAllow, 0); (ActionObserve, 1); (ActionDelay, 2); (ActionThrottle, 3);
   (ActionRequireApproval, 4); (ActionDeny, 5)].

Fixpoint assoc (l : list (string * Z)) (a : string) : option Z :=
  match l with
  | [] => None
  | (k, v) :: l' => if String.eqb k a then Some v else assoc l' a
  end.

(** A missing key of a Go map reads as zero. *)
Definition severity (a : Action) : Z := default 0 (assoc severity_table a).

Definition MoreRestrictive (a b : Action) : bool := severity b <? severity a.

Inductive ActionError := FleetLevel (a : string) | ActionRequired | UnknownAction (raw : string).

Definition orderLevelAction (raw : string) : result Action ActionError :=
  let a := ToUpper (TrimSpace raw) in
  match assoc severity_table a with
  | Some _ => Ok a
  | None =>
      if String.eqb a ActionIsolateCohort || String.eqb a ActionReadOnly then Err (FleetLevel a)
      else if String.eqb a "" then Err ActionRequired
      else Err (UnknownAction raw)
  end.

(** A parsed enumeration, or the empty string of a failed parse. *)
Definition parseAssetClass (raw : string) : option AssetClass :=
  let c := ToUpper (TrimSpace raw) in
  if contains [AssetEquity; AssetETF; AssetOption; AssetCrypto] c then Some c else None.

Definition parseSide (raw : string) : option Side :=
  let s := ToUpper (TrimSpace raw) in
  if contains [SideBuy; SideSell] s then Some s else None.

Definition parseOrderType (raw : string) : option OrderType :=
  let o := ToUpper (TrimSpace raw) in
  if contains [OrderMarket; OrderLimit; OrderStop; OrderStopLimit] o then Some o else None.

(** * Bundles *)

Record CompiledRule := mkRule {
  cr_ID : string;
  cr_Action : Action;
  cr_WhenAssetClass : AssetClass;
  cr_WhenSide : Side;
  cr_WhenOrderType : OrderType;
  cr_WhenInstruments : list string;
  cr_WhenNotionalGT : option Amount;
  cr_WhenNotionalGTE : option Amount;
  cr_WhenNotionalLT : option Amount;
  cr_WhenNotionalLTE : option Amount;
  cr_WhenExtendedHours : option bool;
  cr_RequireNotionalLTE : option Amount;
  cr_RequireNotionalGTE : option Amount;
  cr_NeedsNotional : bool
}.

Abbreviation BundleStatus := string.
Definition StatusDraft : BundleStatus := "DRAFT".
Definition StatusValidated : BundleStatus := "VALIDATE".
Definition StatusCompiled : BundleStatus := "COMPILE".
Definition StatusSigned : BundleStatus := "SIGN".
Definition StatusSimulated : BundleStatus := "SIMULATE".
Definition StatusShadow : BundleStatus := "SHADOW".
Definition StatusCanary : BundleStatus := "CANARY".
Definition StatusActive : BundleStatus := "ACTIVE".
Definition StatusRolledBack : BundleStatus := "ROLLED_BACK".

Record Activation := mkActivation {
  ac_Status : BundleStatus;
  ac_ActivatedAt : option Time;
  ac_ActivatedBy : string;
  ac_RolledBackAt : option Time;
  ac_RolledBackBy : string;
  ac_RollbackReason : string;
  ac_PreviousBundleID : string
}.

Record Bundle := mkBundle {
  b_BundleID : string;
  b_TenantID : string;
  b_Policy : string;
  b_Version : Z;
  b_Rules : list CompiledRule;
  b_ContentHash : string;
  b_Signature : string;
  b_SignedBy : string;
  b_CompiledAt : Time;
  b_Activation : Activation
}.

(** * Compilation *)

Inductive Problem :=
| PNoSource | PNoRules | PTenantRequired | PBundleRequired | PPolicyRequired | PVersion
| PIDRequired (where_ : string)
| PDuplicateID (where_ : string)
| PAction (where_ : string) (e : ActionError)
| PAssetClass (where_ raw : string)
| PSide (where_ raw : string)
| POrderType (where_ raw : string)
| PBounds (text : string).

(** The inner loop of [sortStrings] sinks an element into the sorted prefix, here
    kept in reverse. *)
Fixpoint sink (x : string) (prefix : list string) : list string :=
  match prefix with
  | [] => [x]
  | y :: prefix' => if str_ltb x y then y :: sink x prefix' else x :: prefix
  end.

Definition sortStrings (s : list string) : list string :=
  rev (foldl (fun prefix x => sink x prefix) [] s).

Definition mergeInstruments (single : string) (many : list string) : list string :=
  (if blank single then [] else [single]) ++ List.filter (fun m => negb (blank m)) many.

Definition negative (v : option Amount) : bool :=
  match v with Some v => v <? 0 | None => false end.

Definition both (f : Z -> Z -> bool) (a b : option Amount) : bool :=
  match a, b with Some a, Some b => f a b | _, _ => false end.

(** The six thresholds by name, ranged in any order. *)
Definition thresholds (r : CompiledRule) : list (string * option Amount) :=
  [("when.notional_gt", cr_WhenNotionalGT r); ("when.notional_gte", cr_WhenNotionalGTE r);
   ("when.notional_lt", cr_WhenNotionalLT r); ("when.notional_lte", cr_WhenNotionalLTE r);
   ("require.notional_lte", cr_RequireNotionalLTE r);
   ("require.notional_gte", cr_RequireNotionalGTE r)].

Definition boundsProblems (order : list (string * option Amount)) (where_ : string)
    (r : CompiledRule) : list string :=
  sortStrings
    (map (fun x => where_ +:+ ": " +:+ fst x +:+ " is negative")
       (List.filter (fun x => negative (snd x)) order) ++
     (if both Z.geb (cr_WhenNotionalGT r) (cr_WhenNotionalLT r) then
        [where_ +:+ ": when.notional_gt is not below when.notional_lt, so the rule can never match"]
      else []) ++
     (if both Z.gtb (cr_WhenNotionalGTE r) (cr_WhenNotionalLTE r) then
        [where_ +:+ ": when.notional_gte exceeds when.notional_lte, so the rule can never match"]
      else []) ++
     (if both Z.gtb (cr_RequireNotionalGTE r) (cr_RequireNotionalLTE r) then
        [where_ +:+ ": require bounds are contradictory, so the requirement can never hold"]
      else [])).

Definition present {A} (o : option A) : bool := negb (isNil o).

(** An optional enumeration of the [when] clause. *)
Definition parse_when {A} (raw : string) (parse : string -> option A) (zero : A)
    (problem : Problem) : A * list Problem :=
  if String.eqb raw "" then (zero, [])
  else match parse raw with Some a => (a, []) | None => (zero, [problem]) end.

Definition where_of (i : nat) (r : SourceRule) : string :=
  if str_nonempty (sr_ID r) then "rule " +:+ sr_ID r else "rule " +:+ itoa (Z.of_nat i).

Definition compileRule (i : nat) (seen : list string) (r : SourceRule)
    : CompiledRule * list string * list Problem :=
  let where_ := where_of i r in
  let w := sr_When r in
  let q := sr_Require r in
  let '(seen', p1) :=
    if blank (sr_ID r) then (seen, [PIDRequired where_])
    else if contains seen (sr_ID r) then (seen, [PDuplicateID where_])
    else (sr_ID r :: seen, []) in
  let '(action, p2) := match orderLevelAction (sr_Action r) with
                       | Ok a => (a, []) | Err e => ("", [PAction where_ e]) end in
  let '(ac, p3) := parse_when (sw_AssetClass w) parseAssetClass ""
                     (PAssetClass where_ (sw_AssetClass w)) in
  let '(sd, p4) := parse_when (sw_Side w) parseSide "" (PSide where_ (sw_Side w)) in
  let '(ot, p5) := parse_when (sw_OrderType w) parseOrderType ""
                     (POrderType where_ (sw_OrderType w)) in
  let needs := present (sw_NotionalGT w) || present (sw_NotionalGTE w) ||
               present (sw_NotionalLT w) || present (sw_NotionalLTE w) ||
               present (sq_NotionalLTE q) || present (sq_NotionalGTE q) in
  let compiled :=
    mkRule (sr_ID r) action ac sd ot (mergeInstruments (sw_Instrument w) (sw_Instruments w))
      (sw_NotionalGT w) (sw_NotionalGTE w) (sw_NotionalLT w) (sw_NotionalLTE w)
      (sw_ExtendedHours w) (sq_NotionalLTE q) (sq_NotionalGTE q) needs in
  (compiled, seen',
   p1 ++ p2 ++ p3 ++ p4 ++ p5 ++
   map PBounds (boundsProblems (thresholds compiled) where_ compiled)).

Fixpoint compileLoop (i : nat) (seen : list string) (rules : list SourceRule)
    : list CompiledRule * list Problem :=
  match rules with
  | [] => ([], [])
  | r :: rules' =>
      let '(c, seen', p) := compileRule i seen r in
      let '(out, ps) := compileLoop (S i) seen' rules' in
      (c :: out, p ++ ps)
  end.

Definition compileRules (src : option Source) : result (list CompiledRule) (list Problem) :=
  match src with
  | None => Err [PNoSource]
  | Some src =>
      let '(out, ps) := compileLoop 0 [] (so_Rules src) in
      let problems := (if (length (so_Rules src) =? 0)%nat then [PNoRules] else []) ++ ps in
      match problems with [] => Ok out | _ => Err problems end
  end.

Definition Validate (src : option Source) : option (list Problem) :=
  match compileRules src with Ok _ => None | Err ps => Some ps end.

Definition Compile (src : option Source) (tenantID bundleID : string) (at_ : Time)
    : result Bundle (list Problem) :=
  match src with
  | None => Err [PNoSource]
  | Some s =>
      let problems :=
        (if blank tenantID then [PTenantRequired] else []) ++
        (if blank bundleID then [PBundleRequired] else []) ++
        (if blank (so_Policy s) then [PPolicyRequired] else []) ++
        (if so_Version s <? 1 then [PVersion] else []) in
      let '(rules, problems) :=
        match compileRules src with
        | Ok rules => (rules, problems)
        | Err ps => ([], problems ++ ps)
        end in
      match problems with
      | [] => Ok (mkBundle bundleID tenantID (so_Policy s) (so_Version s) rules "" "" "" at_
                    (mkActivation StatusCompiled None "" None "" "" ""))
      | _ => Err problems
      end
  end.

(** * Evaluation *)

Record RuleOutcome := mkRuleOutcome { ro_RuleID : string; ro_Action : Action }.

Record Decision := mkDecision {
  pd_Action : Action;
  pd_BundleID : string;
  pd_Version : Z;
  pd_ContentHash : string;
  pd_Status : BundleStatus;
  pd_MatchedRules : list RuleOutcome;
  pd_DecidedBy : string;
  pd_Reason : string;
  pd_EvaluatedAt : Time
}.

Definition effectiveNotional (i : Intent) : Amount * bool :=
  match in_Notional i with
  | Some n => (n, true)
  | None =>
      match in_Quantity i with
      | None => (0, false)
      | Some q =>
          if String.eqb (in_OrderType i) OrderLimit || String.eqb (in_OrderType i) OrderStopLimit
          then match in_LimitPrice i with
               | Some p =>
                   let notional := NotionalOf p q in
                   if (notional =? 0) && negb (p =? 0) && negb (q =? 0) then (0, false)
                   else (notional, true)
               | None => (0, false)
               end
          else (0, false)
      end
  end.

(** A threshold that is set and does not hold. *)
Definition fails (bound : option Amount) (holds : Amount -> bool) : bool :=
  match bound with Some v => negb (holds v) | None => false end.

Definition ruleFires (r : CompiledRule) (i : Intent) (notional : Amount) (notionalKnown : bool)
    : bool * string :=
  if cr_NeedsNotional r && negb notionalKnown then
    if String.eqb (cr_Action r) ActionAllow then (false, "")
    else (true,
      "order size cannot be determined without a market price, and this rule depends on it")
  else if str_nonempty (cr_WhenAssetClass r) &&
          negb (String.eqb (in_AssetClass i) (cr_WhenAssetClass r)) then (false, "")
  else if str_nonempty (cr_WhenSide r) && negb (String.eqb (in_Side i) (cr_WhenSide r)) then
    (false, "")
  else if str_nonempty (cr_WhenOrderType r) &&
          negb (String.eqb (in_OrderType i) (cr_WhenOrderType r)) then (false, "")
  else if (0 <? length (cr_WhenInstruments r))%nat &&
          negb (contains (cr_WhenInstruments r) (in_InstrumentID i)) then (false, "")
  else if match cr_WhenExtendedHours r with
          | Some e => negb (Bool.eqb (in_ExtendedHours i) e) | None => false end then (false, "")
  else if fails (cr_WhenNotionalGT r) (fun v => v <? notional) then (false, "")
  else if fails (cr_WhenNotionalGTE r) (fun v => v <=? notional) then (false, "")
  else if fails (cr_WhenNotionalLT r) (fun v => notional <? v) then (false, "")
  else if fails (cr_WhenNotionalLTE r) (fun v => notional <=? v) then (false, "")
  else if fails (cr_RequireNotionalLTE r) (fun v => notional <=? v) then
    (true, "notional exceeds the rule's ceiling")
  else if fails (cr_RequireNotionalGTE r) (fun v => v <=? notional) then
    (true, "notional is below the rule's floor")
  else if present (cr_RequireNotionalLTE r) || present (cr_RequireNotionalGTE r) then (false, "")
  else (true, "matched the rule's conditions").

Definition fires (i : Intent) (r : CompiledRule) : bool :=
  let '(notional, known) := effectiveNotional i in fst (ruleFires r i notional known).

(** One iteration of the loop over the rules. *)
Definition evaluate_rule (i : Intent) (notional : Amount) (known : bool) (d : Decision)
    (rule : CompiledRule) : Decision :=
  let '(fired, reason) := ruleFires rule i notional known in
  if negb fired then d else
  let matched := pd_MatchedRules d ++ [mkRuleOutcome (cr_ID rule) (cr_Action rule)] in
  if (length matched =? 1)%nat || MoreRestrictive (cr_Action rule) (pd_Action d) then
    mkDecision (cr_Action rule) (pd_BundleID d) (pd_Version d) (pd_ContentHash d) (pd_Status d)
      matched (cr_ID rule) reason (pd_EvaluatedAt d)
  else
    mkDecision (pd_Action d) (pd_BundleID d) (pd_Version d) (pd_ContentHash d) (pd_Status d)
      matched (pd_DecidedBy d) (pd_Reason d) (pd_EvaluatedAt d).

Definition Evaluate (b : option Bundle) (env : option Envelope) (now : Time) : Decision :=
  match b with
  | None => mkDecision ActionDeny "" 0 "" "" [] "NO_BUNDLE"
              "no policy bundle is loaded; hard policy unavailable denies" now
  | Some b =>
      let base action by_ reason :=
        mkDecision action (b_BundleID b) (b_Version b) (b_ContentHash b)
          (ac_Status (b_Activation b)) [] by_ reason now in
      match env with
      | None => base ActionDeny "NO_ENVELOPE" "no envelope to evaluate"
      | Some env =>
          let i := env_Intent env in
          let '(notional, known) := effectiveNotional i in
          let d := foldl (evaluate_rule i notional known) (base ActionAllow "" "") (b_Rules b) in
          if (length (pd_MatchedRules d) =? 0)%nat then
            mkDecision (pd_Action d) (pd_BundleID d) (pd_Version d) (pd_ContentHash d)
              (pd_Status d) [] "NO_RULE_MATCHED"
              "no rule matched; the bundle's default is ALLOW" now
          else d
      end
  end.


(** * Properties of evaluation *)

Definition outcome (r : CompiledRule) : RuleOutcome := mkRuleOutcome (cr_ID r) (cr_Action r).

(** The rules of a bundle that fire on an intent, in bundle order. *)
Definition firing (i : Intent) (rules : list CompiledRule) : list CompiledRule :=
  List.filter (fires i) rules.

Definition why (i : Intent) (r : CompiledRule) : string :=
  let '(notional, known) := effectiveNotional i in snd (ruleFires r i notional known).

(** [r] is the first of the most severe of [l]. *)
Definition first_most_severe (r : CompiledRule) (l : list CompiledRule) : Prop :=
  exists pre post, l = pre ++ r :: post /\
    Forall (fun x => severity (cr_Action x) < severity (cr_Action r)) pre /\
    Forall (fun x => severity (cr_Action x) <= severity (cr_Action r)) post.

Lemma first_most_severe_snoc r l x :
  first_most_severe r l ->
  first_most_severe (if MoreRestrictive (cr_Action x) (cr_Action r) then x else r) (l ++ [x]).
Proof.
  intros (pre & post & -> & Hpre & Hpost). unfold MoreRestrictive.
  destruct (Z.ltb_spec (severity (cr_Action r)) (severity (cr_Action x))).
  - exists (pre ++ r :: post), []. split; [done|]. split; [|done].
    apply Forall_app. split; [|constructor; [lia|]];
      (eapply Forall_impl; [eassumption|]); cbn beta; intros; lia.
  - exists pre, (post ++ [x]). rewrite <- app_assoc. split; [done|]. split; [done|].
    apply Forall_app. split; [done|]. by repeat constructor.
Qed.

(** What the loop knows after the rules whose firing ones are [l]. *)
Record Explains (i : Intent) (l : list CompiledRule) (d0 d : Decision) : Prop := {
  ex_matched : pd_MatchedRules d = map outcome l;
  ex_bundle : pd_BundleID d = pd_BundleID d0 /\ pd_Version d = pd_Version d0 /\
    pd_ContentHash d = pd_ContentHash d0 /\ pd_Status d = pd_Status d0 /\
    pd_EvaluatedAt d = pd_EvaluatedAt d0;
  ex_none : l = [] -> d = d0;
  ex_some : l <> [] -> exists r, first_most_severe r l /\
    pd_Action d = cr_Action r /\ pd_DecidedBy d = cr_ID r /\ pd_Reason d = why i r
}.

Lemma evaluate_rule_explains i l d0 d r :
  Explains i l d0 d ->
  Explains i (l ++ firing i [r]) d0
    (evaluate_rule i (fst (effectiveNotional i)) (snd (effectiveNotional i)) d r).
Proof.
  intros [Hm Hb Hn Hs]. unfold firing, evaluate_rule. cbn [List.filter].
  assert (Hf : fires i r = fst (ruleFires r i (fst (effectiveNotional i))
                                  (snd (effectiveNotional i)))).
  { unfold fires. by destruct (effectiveNotional i). }
  assert (Hw : why i r = snd (ruleFires r i (fst (effectiveNotional i))
                                (snd (effectiveNotional i)))).
  { unfold why. by destruct (effectiveNotional i). }
  fold (outcome r). rewrite Hf. destruct (ruleFires r i _ _) as [[] reason]; cbn [fst snd negb] in *.
  2:{ rewrite app_nil_r. by constructor. }
  assert (Hlen : length (pd_MatchedRules d ++ [outcome r]) = S (length l)).
  { rewrite Hm, length_app, length_map. cbn. lia. }
  destruct l as [|x l].
  - rewrite Hlen. cbn [length Nat.eqb orb app]. constructor; cbn; try done.
    + by rewrite Hm.
    + intros _. exists r. split; [|done]. by exists [], [].
  - rewrite Hlen. cbn [length Nat.eqb orb].
    destruct (Hs ltac:(done)) as (c & Hc & Ha & Hi & Hr).
    pose proof (first_most_severe_snoc c (x :: l) r Hc) as Hc'.
    rewrite Ha. destruct (MoreRestrictive _ _); constructor; cbn [pd_MatchedRules];
      try (rewrite Hm, map_app; done); try done.
    + intros _. by exists r.
    + intros _. by exists c.
Qed.

Lemma evaluate_loop_explains i rules l d0 d :
  Explains i l d0 d ->
  Explains i (l ++ firing i rules) d0
    (foldl (evaluate_rule i (fst (effectiveNotional i)) (snd (effectiveNotional i))) d rules).
Proof.
  revert l d. induction rules as [|r rules IH]; intros l d H; cbn [foldl].
  - cbn. by rewrite app_nil_r.
  - replace (l ++ firing i (r :: rules)) with ((l ++ firing i [r]) ++ firing i rules).
    + by apply IH, evaluate_rule_explains.
    + rewrite <- app_assoc. f_equal. unfold firing. cbn [List.filter].
      by destruct (fires i r).
Qed.

Lemma Evaluate_explained b env now :
  let d := Evaluate (Some b) (Some env) now in
  let l := firing (env_Intent env) (b_Rules b) in
  pd_MatchedRules d = map outcome l /\
  (pd_BundleID d, pd_Version d, pd_ContentHash d, pd_Status d, pd_EvaluatedAt d) =
    (b_BundleID b, b_Version b, b_ContentHash b, ac_Status (b_Activation b), now) /\
  (l = [] -> pd_Action d = ActionAllow /\ pd_DecidedBy d = "NO_RULE_MATCHED") /\
  (l <> [] -> exists r, first_most_severe r l /\ pd_Action d = cr_Action r /\
     pd_DecidedBy d = cr_ID r /\ pd_Reason d = why (env_Intent env) r).
Proof.
  cbn zeta. unfold Evaluate. set (i := env_Intent env).
  rewrite (surjective_pairing (effectiveNotional i)).
  set (d0 := mkDecision ActionAllow _ _ _ _ _ _ _ _).
  assert (H : Explains i [] d0 d0) by (by constructor).
  apply (evaluate_loop_explains i (b_Rules b)) in H. cbn [app] in H.
  set (d := foldl _ _ _) in *. destruct H as [Hm (H1 & H2 & H3 & H4 & H5) Hn Hs].
  rewrite Hm, length_map. destruct (firing i (b_Rules b)) as [|x l] eqn:El; cbn [length Nat.eqb].
  - rewrite (Hn eq_refl). by split_and!.
  - rewrite H1, H2, H3, H4, H5, Hm. split_and!; try done. all: intros _; by apply Hs.
Qed.

(** C33: Hard policy is most-restrictive-wins: the decision lists exactly the
    firing rules in bundle order, names the bundle that produced it, and its
    action, rule and reason are those of the first rule among the most severe
    firing ones; when none fires the default is ALLOW. *)
Theorem Evaluate_most_restrictive (b : Bundle) (env : Envelope) (now : Time) :
  let d := Evaluate (Some b) (Some env) now in
  let l := firing (env_Intent env) (b_Rules b) in
  pd_MatchedRules d = map outcome l /\
  (pd_BundleID d, pd_Version d, pd_ContentHash d, pd_Status d, pd_EvaluatedAt d) =
    (b_BundleID b, b_Version b, b_ContentHash b, ac_Status (b_Activation b), now) /\
  (l = [] -> pd_Action d = ActionAllow /\ pd_DecidedBy d = "NO_RULE_MATCHED") /\
  (l <> [] -> exists r, first_most_severe r l /\ pd_Action d = cr_Action r /\
     pd_DecidedBy d = cr_ID r /\ pd_Reason d = why (env_Intent env) r).
Proof. apply Evaluate_explained. Qed.

(** ** Rule order *)

Definition order_level (a : Action) : bool := present (assoc severity_table a).

Lemma severity_inj a b :
  order_level a = true -> order_level b = true -> severity a = severity b -> a = b.
Proof.
  unfold order_level, severity, severity_table. cbn [assoc].
  repeat match goal with
  | |- context [String.eqb ?k ?x] => destruct (String.eqb_spec k x) as [<-|]
  end; cbn; done || lia || congruence.
Qed.

(** The action of a non-empty list of firing rules. *)
Lemma first_most_severe_max r l x :
  first_most_severe r l -> x ∈ l -> severity (cr_Action x) <= severity (cr_Action r).
Proof.
  intros (pre & post & -> & Hpre & Hpost) Hx. rewrite Forall_forall in Hpre, Hpost.
  apply elem_of_app in Hx as [Hx|Hx]; [apply Hpre in Hx; lia|].
  apply elem_of_cons in Hx as [->|Hx]; [lia | by apply Hpost].
Qed.

Lemma first_most_severe_in r l : first_most_severe r l -> r ∈ l.
Proof. intros (pre & post & -> & _). set_solver. Qed.

Lemma firing_perm i l1 l2 : l1 ≡ₚ l2 -> firing i l1 ≡ₚ firing i l2.
Proof.
  intros HP. unfold firing. induction HP; cbn; repeat case_match; try done.
  - by constructor.
  - by constructor.
  - by etrans.
Qed.

Lemma firing_in i l r : r ∈ firing i l <-> r ∈ l /\ fires i r = true.
Proof. unfold firing. rewrite !list_elem_of_In. apply filter_In. Qed.

Definition with_rules (b : Bundle) (rules : list CompiledRule) : Bundle :=
  mkBundle (b_BundleID b) (b_TenantID b) (b_Policy b) (b_Version b) rules (b_ContentHash b)
    (b_Signature b) (b_SignedBy b) (b_CompiledAt b) (b_Activation b).

(** Reordering the rules of a compiled bundle never changes the enforced
    action, and matches the same rules. *)
Theorem Evaluate_order_free (b : Bundle) (rules : list CompiledRule) (env : Envelope)
    (now : Time) :
  b_Rules b ≡ₚ rules -> Forall (fun r => order_level (cr_Action r) = true) (b_Rules b) ->
  pd_Action (Evaluate (Some (with_rules b rules)) (Some env) now) =
    pd_Action (Evaluate (Some b) (Some env) now) /\
  pd_MatchedRules (Evaluate (Some (with_rules b rules)) (Some env) now) ≡ₚ
    pd_MatchedRules (Evaluate (Some b) (Some env) now).
Proof.
  intros HP Hact.
  destruct (Evaluate_explained b env now) as (Hm1 & _ & Hn1 & Hs1).
  destruct (Evaluate_explained (with_rules b rules) env now) as (Hm2 & _ & Hn2 & Hs2).
  cbn [with_rules b_Rules] in *.
  pose proof (firing_perm (env_Intent env) _ _ HP) as HF.
  split; [|by rewrite Hm1, Hm2, HF].
  destruct (firing (env_Intent env) (b_Rules b)) as [|x l] eqn:E1.
  - symmetry in HF. apply Permutation_nil_r in HF. destruct (Hn1 eq_refl), (Hn2 HF). congruence.
  - destruct (Hs1 ltac:(done)) as (r1 & Hr1 & -> & _).
    destruct Hs2 as (r2 & Hr2 & -> & _).
    { intros E2. rewrite E2 in HF. symmetry in HF. by apply Permutation_nil_cons in HF. }
    pose proof (first_most_severe_in _ _ Hr1) as H1.
    pose proof (first_most_severe_in _ _ Hr2) as H2.
    pose proof (first_most_severe_max _ _ r2 Hr1) as M1. rewrite HF in M1.
    pose proof (first_most_severe_max _ _ r1 Hr2) as M2. rewrite <- HF in M2.
    specialize (M1 H2). specialize (M2 H1). rewrite <- E1 in H1. rewrite <- HF, <- E1 in H2.
    apply firing_in in H1 as [H1 _], H2 as [H2 _]. rewrite Forall_forall in Hact.
    apply severity_inj; auto. lia.
Qed.

(** ** The compiler's sort *)

(** Sinking into a reversed sorted prefix keeps it sorted, largest first. *)
Definition not_before (x y : string) : Prop := not_after str_ltb y x.

Lemma sink_perm x l : sink x l ≡ₚ x :: l.
Proof.
  induction l as [|y l IH]; cbn; [done|]. destruct (str_ltb x y); [|done].
  rewrite IH. constructor.
Qed.

Lemma sink_sorted x l : StronglySorted not_before l -> StronglySorted not_before (sink x l).
Proof.
  induction 1 as [|y l Hl IH Hy]; cbn; [by repeat constructor|].
  destruct (str_ltb x y) eqn:E.
  - constructor; [done|]. rewrite sink_perm. constructor; [|done].
    by apply str_ltb_asym.
  - constructor; [by constructor|]. constructor; [done|].
    eapply Forall_impl; [exact Hy|]. intros z Hz. by eapply str_not_after_trans.
Qed.

Lemma foldl_sink l acc :
  StronglySorted not_before acc ->
  StronglySorted not_before (foldl (fun prefix x => sink x prefix) acc l) /\
  foldl (fun prefix x => sink x prefix) acc l ≡ₚ l ++ acc.
Proof.
  revert acc. induction l as [|x l IH]; intros acc Hacc; cbn [foldl]; [done|].
  destruct (IH (sink x acc) (sink_sorted _ _ Hacc)) as [H1 H2]. split; [done|].
  rewrite H2, sink_perm. cbn. by rewrite Permutation_middle.
Qed.

Lemma StronglySorted_rev {A} (R : A -> A -> Prop) l :
  StronglySorted R l -> StronglySorted (fun x y => R y x) (rev l).
Proof.
  induction 1 as [|x l Hl IH Hx]; cbn; [constructor|].
  apply StronglySorted_app. split_and!; [|done | by repeat constructor].
  intros y z Hy Hz%list_elem_of_singleton. subst z.
  rewrite Forall_forall in Hx. apply Hx. rewrite list_elem_of_In in *.
  by apply in_rev.
Qed.

Lemma sortStrings_perm l : sortStrings l ≡ₚ l.
Proof.
  unfold sortStrings. destruct (foldl_sink l [] ltac:(constructor)) as [_ H].
  rewrite <- Permutation_rev, H. by rewrite app_nil_r.
Qed.

(** The hand-written sort is [sort.Strings]. *)
Lemma sortStrings_sorts l : sortStrings l = sort_strings l.
Proof.
  apply (sorted_perm_unique (not_after str_ltb)).
  - apply str_not_after_antisym.
  - unfold sortStrings. destruct (foldl_sink l [] ltac:(constructor)) as [H _].
    apply StronglySorted_rev in H. exact H.
  - apply sort_strings_sorted.
  - rewrite sortStrings_perm. unfold sort_strings. by rewrite stable_sort_perm.
Qed.

(** The threshold problems do not depend on the order in which the runtime
    ranges the map of thresholds: the compiler's own sort (an insertion sort,
    equal to [sort.Strings]) makes its output deterministic. *)
Theorem boundsProblems_deterministic (order : list (string * option Amount)) (where_ : string)
    (r : CompiledRule) :
  order ≡ₚ thresholds r ->
  boundsProblems order where_ r = boundsProblems (thresholds r) where_ r.
Proof.
  intros HP. unfold boundsProblems. rewrite !sortStrings_sorts. apply sort_strings_perm.
  apply Permutation_app; [|done]. by apply Permutation_map, filter_perm.
Qed.

(** ** What compiles *)

Definition nonneg (v : option Amount) : Prop := negative v = false.

Definition parses {A} (raw : string) (parse : string -> option A) : bool :=
  String.eqb raw "" || present (parse raw).

(** A source rule nothing is wrong with. *)
Record source_ok (r : SourceRule) : Prop := {
  so_id : blank (sr_ID r) = false;
  so_action : is_ok (orderLevelAction (sr_Action r)) = true;
  so_class : parses (sw_AssetClass (sr_When r)) parseAssetClass = true;
  so_side : parses (sw_Side (sr_When r)) parseSide = true;
  so_type : parses (sw_OrderType (sr_When r)) parseOrderType = true;
  so_nonneg : Forall nonneg
    [sw_NotionalGT (sr_When r); sw_NotionalGTE (sr_When r); sw_NotionalLT (sr_When r);
     sw_NotionalLTE (sr_When r); sq_NotionalLTE (sr_Require r); sq_NotionalGTE (sr_Require r)];
  so_strict : both Z.geb (sw_NotionalGT (sr_When r)) (sw_NotionalLT (sr_When r)) = false;
  so_weak : both Z.gtb (sw_NotionalGTE (sr_When r)) (sw_NotionalLTE (sr_When r)) = false;
  so_require : both Z.gtb (sq_NotionalGTE (sr_Require r)) (sq_NotionalLTE (sr_Require r)) = false
}.

Lemma app_nil_iff {A} (l1 l2 : list A) : l1 ++ l2 = [] <-> l1 = [] /\ l2 = [].
Proof. destruct l1; cbn; intuition congruence. Qed.

Lemma if_nil_iff {A} (b : bool) (x : A) : (if b then [x] else []) = [] <-> b = false.
Proof. by destruct b. Qed.

Lemma map_nil_iff {A B} (f : A -> B) l : map f l = [] <-> l = [].
Proof. by destruct l. Qed.

Lemma filter_nil_iff {A} (f : A -> bool) l :
  List.filter f l = [] <-> Forall (fun x => f x = false) l.
Proof.
  induction l as [|x l IH]; cbn; [split; auto|]. rewrite Forall_cons, <- IH.
  destruct (f x); intuition congruence.
Qed.

Lemma sortStrings_nil_iff l : sortStrings l = [] <-> l = [].
Proof.
  split; [|by intros ->]. intros H. pose proof (sortStrings_perm l) as HP. rewrite H in HP.
  by apply Permutation_nil_l in HP.
Qed.

Lemma parse_when_clean {A} raw (parse : string -> option A) zero p :
  snd (parse_when raw parse zero p) = [] <-> parses raw parse = true.
Proof.
  unfold parse_when, parses, present. destruct (String.eqb raw ""); cbn; [done|].
  by destruct (parse raw).
Qed.

Lemma boundsProblems_clean where_ r :
  boundsProblems (thresholds r) where_ r = [] <->
  Forall nonneg (map snd (thresholds r)) /\
  both Z.geb (cr_WhenNotionalGT r) (cr_WhenNotionalLT r) = false /\
  both Z.gtb (cr_WhenNotionalGTE r) (cr_WhenNotionalLTE r) = false /\
  both Z.gtb (cr_RequireNotionalGTE r) (cr_RequireNotionalLTE r) = false.
Proof.
  unfold boundsProblems.
  rewrite sortStrings_nil_iff, !app_nil_iff, map_nil_iff, filter_nil_iff, !if_nil_iff.
  rewrite Forall_map. done.
Qed.

Lemma compileRule_clean i seen r :
  snd (compileRule i seen r) = [] <-> source_ok r /\ sr_ID r ∉ seen.
Proof.
  unfold compileRule.
  set (p1 := if blank _ then _ else _). set (p2 := match orderLevelAction (sr_Action r) with
             | Ok a => (a, []) | Err e => ("", [PAction (where_of i r) e]) end).
  assert (H1 : snd p1 = [] <-> blank (sr_ID r) = false /\ sr_ID r ∉ seen).
  { subst p1. destruct (blank (sr_ID r)); cbn; [intuition congruence|].
    rewrite <- contains_spec. destruct (contains seen (sr_ID r)); cbn; intuition congruence. }
  assert (H2 : snd p2 = [] <-> is_ok (orderLevelAction (sr_Action r)) = true).
  { subst p2. by destruct (orderLevelAction _). }
  destruct p1 as [seen' p1], p2 as [action p2]. cbn [snd] in H1, H2.
  set (c3 := parse_when (sw_AssetClass _) _ _ _).
  assert (H3 : snd c3 = [] <-> _) by apply parse_when_clean.
  set (c4 := parse_when (sw_Side _) _ _ _).
  assert (H4 : snd c4 = [] <-> _) by apply parse_when_clean.
  set (c5 := parse_when (sw_OrderType _) _ _ _).
  assert (H5 : snd c5 = [] <-> _) by apply parse_when_clean.
  clearbody c3 c4 c5. destruct c3 as [a3 p3], c4 as [a4 p4], c5 as [a5 p5].
  cbn [snd] in H3, H4, H5 |- *.
  rewrite !app_nil_iff, map_nil_iff, boundsProblems_clean, H1, H2, H3, H4, H5.
  cbn [cr_WhenNotionalGT cr_WhenNotionalGTE cr_WhenNotionalLT
    cr_WhenNotionalLTE cr_RequireNotionalLTE cr_RequireNotionalGTE thresholds map snd].
  split.
  - intros ([? ?] & ? & ? & ? & ? & ? & ? & ? & ?). split; [constructor; assumption | assumption].
  - intros [[] ?]. split_and!; assumption.
Qed.

Lemma compileRule_seen i seen r :
  snd (compileRule i seen r) = [] -> snd (fst (compileRule i seen r)) = sr_ID r :: seen.
Proof.
  intros H. apply compileRule_clean in H as [Hok Hin]. unfold compileRule.
  rewrite (so_id r Hok). rewrite <- contains_spec in Hin. apply not_true_is_false in Hin.
  rewrite Hin. repeat case_match; cbn; congruence.
Qed.

(** The compiled form of a rule depends on the rule alone. *)
Definition compile_one (r : SourceRule) : CompiledRule := fst (fst (compileRule 0 [] r)).

Lemma parse_when_value {A} raw (parse : string -> option A) zero p p' :
  fst (parse_when raw parse zero p) = fst (parse_when raw parse zero p').
Proof. unfold parse_when. repeat case_match; done. Qed.

Lemma compileRule_value i seen r : fst (fst (compileRule i seen r)) = compile_one r.
Proof.
  unfold compile_one, compileRule.
  set (p1 := if blank _ then (seen, _) else _). set (q1 := if blank _ then ([], _) else _).
  destruct p1 as [? ?], q1 as [? ?].
  destruct (orderLevelAction (sr_Action r)).
  all: do 6 match goal with
    |- context [parse_when ?raw ?p ?z ?e] =>
      pose proof (parse_when_value raw p z e (PVersion));
      destruct (parse_when raw p z e) end.
  all: cbn in *; congruence.
Qed.

Lemma compileLoop_value i seen rules :
  fst (compileLoop i seen rules) = map compile_one rules.
Proof.
  revert i seen. induction rules as [|r rules IH]; intros i seen; cbn [compileLoop map]; [done|].
  pose proof (compileRule_value i seen r) as Hv.
  destruct (compileRule i seen r) as [[c seen'] p]. cbn in Hv. subst c.
  specialize (IH (S i) seen'). destruct (compileLoop (S i) seen' rules). cbn in *. congruence.
Qed.

Lemma compileLoop_clean i seen rules :
  snd (compileLoop i seen rules) = [] <->
  Forall source_ok rules /\ NoDup (map sr_ID rules) /\
  Forall (fun r => sr_ID r ∉ seen) rules.
Proof.
  revert i seen. induction rules as [|r rules IH]; intros i seen; cbn [compileLoop map].
  { cbn. split; [|done]. intros _. split_and!; constructor. }
  pose proof (compileRule_clean i seen r) as Hc. pose proof (compileRule_seen i seen r) as Hs.
  destruct (compileRule i seen r) as [[c seen'] p]. cbn [fst snd] in Hc, Hs.
  specialize (IH (S i) seen'). destruct (compileLoop (S i) seen' rules) as [out ps].
  cbn [snd] in IH |- *. rewrite app_nil_iff, Hc, !Forall_cons, NoDup_cons.
  split.
  - intros [[Hr Hin] Hps]. rewrite (Hs ltac:(by apply Hc)) in IH.
    apply IH in Hps as (Hrs & Hnd & Hseen). rewrite Forall_forall in Hseen.
    split_and!; try done.
    + intros (r' & Heq & Hr')%list_elem_of_fmap. apply (Hseen r' Hr'). rewrite Heq. left.
    + apply Forall_forall. intros r' Hr' Hin'. apply (Hseen r' Hr'). by right.
  - intros ([Hr Hrs] & [Hnotin Hnd] & [Hin Hseen]). split; [done|].
    rewrite (Hs ltac:(by apply Hc)) in IH. apply IH. split_and!; [done..|].
    rewrite Forall_forall in Hseen |- *. intros r' Hr' [Heq|Hin']%elem_of_cons.
    + apply Hnotin, list_elem_of_fmap. eauto.
    + by apply (Hseen r').
Qed.

Lemma compileRules_ok_iff s :
  is_ok (compileRules (Some s)) = true <->
  so_Rules s <> [] /\ Forall source_ok (so_Rules s) /\ NoDup (map sr_ID (so_Rules s)).
Proof.
  unfold compileRules. pose proof (compileLoop_clean 0 [] (so_Rules s)) as Hc.
  destruct (compileLoop 0 [] (so_Rules s)) as [out ps]. cbn [snd] in Hc.
  assert (Hno : Forall (fun r => sr_ID r ∉ ([] : list string)) (so_Rules s)).
  { apply Forall_forall. intros r _ H. by apply not_elem_of_nil in H. }
  destruct (so_Rules s) as [|r rules]; cbn [length Nat.eqb app].
  - cbn. split; [done | by intros [? _]].
  - destruct ps; cbn [is_ok]; split; try done.
    + intros _. split; [done|]. destruct Hc as [Hc _]. by destruct (Hc eq_refl) as (? & ? & _).
    + intros (_ & ? & ?). by destruct Hc as [_ Hc]; discriminate Hc.
Qed.

Lemma compileRules_value s rules :
  compileRules (Some s) = Ok rules -> rules = map compile_one (so_Rules s).
Proof.
  unfold compileRules. pose proof (compileLoop_value 0 [] (so_Rules s)) as Hv.
  destruct (compileLoop 0 [] (so_Rules s)) as [out ps]. cbn in Hv.
  destruct (_ ++ ps); [|done]. congruence.
Qed.

Lemma Compile_shape s tenant bundle at_ :
  is_ok (Compile (Some s) tenant bundle at_) = true <->
  (blank tenant = false /\ blank bundle = false /\ blank (so_Policy s) = false /\
   1 <= so_Version s) /\ is_ok (compileRules (Some s)) = true.
Proof.
  unfold Compile. set (ps := _ ++ _).
  assert (H : ps = [] <-> blank tenant = false /\ blank bundle = false /\
                blank (so_Policy s) = false /\ 1 <= so_Version s).
  { subst ps. rewrite !app_nil_iff, !if_nil_iff, Z.ltb_ge. tauto. }
  rewrite <- H. clearbody ps. clear H.
  destruct (compileRules (Some s)) as [rules|more] eqn:E; cbn [is_ok].
  - destruct ps; cbn; intuition congruence.
  - assert (Hne : more <> []).
    { unfold compileRules in E. destruct (compileLoop _ _ _). destruct (_ ++ l0); congruence. }
    destruct (ps ++ more) eqn:Ea; cbn; [|intuition congruence].
    apply app_nil_iff in Ea as [_ ?]. congruence.
Qed.

(** A policy compiles exactly when it names its tenant, bundle and policy,
    has a version of at least 1 and at least one rule, every rule is well
    formed (an identifier, an order-level action, known enumerations,
    non-negative and non-contradictory thresholds) and no two share an
    identifier; otherwise no bundle is produced. *)
Theorem Compile_accepts_iff (s : Source) (tenantID bundleID : string) (at_ : Time) :
  is_ok (Compile (Some s) tenantID bundleID at_) = true <->
  (blank tenantID = false /\ blank bundleID = false /\ blank (so_Policy s) = false /\
   1 <= so_Version s) /\
  so_Rules s <> [] /\ Forall source_ok (so_Rules s) /\ NoDup (map sr_ID (so_Rules s)).
Proof. rewrite Compile_shape, compileRules_ok_iff. done. Qed.

(** The type of a compiled rule. *)
Record rule_ok (r : CompiledRule) : Prop := {
  ro_id : blank (cr_ID r) = false;
  ro_action : order_level (cr_Action r) = true;
  ro_class : cr_WhenAssetClass r = "" \/ validAssetClass (cr_WhenAssetClass r) = true;
  ro_side : cr_WhenSide r = "" \/ contains [SideBuy; SideSell] (cr_WhenSide r) = true;
  ro_type : cr_WhenOrderType r = "" \/
    contains [OrderMarket; OrderLimit; OrderStop; OrderStopLimit] (cr_WhenOrderType r) = true;
  ro_instruments : Forall (fun x => blank x = false) (cr_WhenInstruments r);
  ro_nonneg : Forall nonneg (map snd (thresholds r));
  ro_needs : cr_NeedsNotional r = existsb (fun x => present (snd x)) (thresholds r)
}.

Lemma parse_when_in raw l zero p :
  parses raw (fun raw => let c := ToUpper (TrimSpace raw) in
                         if contains l c then Some c else None) = true ->
  let c := fst (parse_when raw (fun raw => let c := ToUpper (TrimSpace raw) in
                  if contains l c then Some c else None) zero p) in
  c = zero \/ contains l c = true.
Proof.
  unfold parses, parse_when. destruct (String.eqb raw ""); cbn; [auto|].
  destruct (contains l (ToUpper (TrimSpace raw))) eqn:E; cbn; auto.
Qed.

Lemma orderLevelAction_level raw a :
  orderLevelAction raw = Ok a -> order_level a = true.
Proof.
  unfold orderLevelAction, order_level. destruct (assoc _ _) eqn:E.
  - intros [= <-]. by rewrite E.
  - repeat case_match; done.
Qed.

Lemma mergeInstruments_nonblank single many :
  Forall (fun x => blank x = false) (mergeInstruments single many).
Proof.
  unfold mergeInstruments. apply Forall_app. split.
  - destruct (blank single) eqn:E; repeat constructor. done.
  - apply Forall_forall. intros x. rewrite list_elem_of_In, filter_In.
    intros [_ H]. by apply negb_true_iff in H.
Qed.

Lemma existsb_thresholds l : existsb (fun x : string * option Amount => present (snd x)) l =
  foldr orb false (map (fun x => present (snd x)) l).
Proof. induction l; cbn; congruence. Qed.

Lemma compile_one_fields r :
  cr_ID (compile_one r) = sr_ID r /\
  cr_Action (compile_one r) =
    match orderLevelAction (sr_Action r) with Ok a => a | Err _ => "" end /\
  cr_WhenAssetClass (compile_one r) =
    fst (parse_when (sw_AssetClass (sr_When r)) parseAssetClass "" PVersion) /\
  cr_WhenSide (compile_one r) = fst (parse_when (sw_Side (sr_When r)) parseSide "" PVersion) /\
  cr_WhenOrderType (compile_one r) =
    fst (parse_when (sw_OrderType (sr_When r)) parseOrderType "" PVersion) /\
  cr_WhenInstruments (compile_one r) =
    mergeInstruments (sw_Instrument (sr_When r)) (sw_Instruments (sr_When r)) /\
  map snd (thresholds (compile_one r)) =
    [sw_NotionalGT (sr_When r); sw_NotionalGTE (sr_When r); sw_NotionalLT (sr_When r);
     sw_NotionalLTE (sr_When r); sq_NotionalLTE (sr_Require r); sq_NotionalGTE (sr_Require r)] /\
  cr_NeedsNotional (compile_one r) =
    existsb (fun x => present (snd x)) (thresholds (compile_one r)).
Proof.
  unfold compile_one, compileRule.
  set (q1 := if blank _ then ([], _) else _). destruct q1 as [? ?].
  destruct (orderLevelAction (sr_Action r)).
  all: do 3 match goal with
    |- context [parse_when ?raw ?p ?z (?c (where_of ?i ?q) ?w)] =>
      rewrite <- (parse_when_value raw p z (c (where_of i q) w) PVersion);
      destruct (parse_when raw p z (c (where_of i q) w)) end.
  all: cbn [fst snd cr_ID cr_Action cr_WhenAssetClass cr_WhenSide cr_WhenOrderType
    cr_WhenInstruments cr_NeedsNotional thresholds map existsb cr_WhenNotionalGT
    cr_WhenNotionalGTE cr_WhenNotionalLT cr_WhenNotionalLTE cr_RequireNotionalLTE
    cr_RequireNotionalGTE]; rewrite ?orb_false_r, ?orb_assoc; by split_and!.
Qed.

Lemma compile_one_ok r : source_ok r -> rule_ok (compile_one r).
Proof.
  intros [Hid Ha Hc Hs Ht Hn _ _ _].
  destruct (compile_one_fields r) as (F1 & F2 & F3 & F4 & F5 & F6 & F7 & F8).
  constructor.
  - by rewrite F1.
  - rewrite F2. destruct (orderLevelAction (sr_Action r)) eqn:E; [|done].
    by eapply orderLevelAction_level.
  - rewrite F3. by apply (parse_when_in _ [AssetEquity; AssetETF; AssetOption; AssetCrypto]).
  - rewrite F4. by apply (parse_when_in _ [SideBuy; SideSell]).
  - rewrite F5. by apply (parse_when_in _ [OrderMarket; OrderLimit; OrderStop; OrderStopLimit]).
  - rewrite F6. apply mergeInstruments_nonblank.
  - by rewrite F7.
  - exact F8.
Qed.

(** A compiled bundle carries one compiled rule per source rule, in source
    order, each of them well typed; it is in COMPILE status, unsigned, and bears
    the identifiers and version asked for. *)
Theorem Compile_wellformed (s : Source) (tenantID bundleID : string) (at_ : Time) (b : Bundle) :
  Compile (Some s) tenantID bundleID at_ = Ok b ->
  b_Rules b = map compile_one (so_Rules s) /\ Forall rule_ok (b_Rules b) /\
  NoDup (map cr_ID (b_Rules b)) /\ b_Rules b <> [] /\
  (b_TenantID b, b_BundleID b, b_Policy b, b_Version b, b_CompiledAt b) =
    (tenantID, bundleID, so_Policy s, so_Version s, at_) /\ 1 <= b_Version b /\
  ac_Status (b_Activation b) = StatusCompiled /\ b_Signature b = "" /\ b_ContentHash b = "".
Proof.
  intros H. assert (Hok : is_ok (Compile (Some s) tenantID bundleID at_) = true) by by rewrite H.
  apply Compile_shape in Hok as ((_ & _ & _ & Hv) & Hr).
  apply compileRules_ok_iff in Hr as Hr'. destruct Hr' as (Hne & Hall & Hnd).
  unfold Compile in H. destruct (compileRules (Some s)) as [rules|] eqn:E; [|done].
  apply compileRules_value in E. destruct (_ ++ _); [|done]. injection H as <-. cbn.
  subst rules. split_and!; try done.
  - apply Forall_map. eapply Forall_impl; [exact Hall|]. apply compile_one_ok.
  - rewrite map_map. erewrite map_ext; [exact Hnd|].
    intros r. apply (compile_one_fields r).
  - by rewrite map_nil_iff.
Qed.

(** ** When a rule fires *)

(** The [when] clause, as documentation. *)
Record when_matches (r : CompiledRule) (i : Intent) (n : Amount) : Prop := {
  wm_class : cr_WhenAssetClass r <> "" -> in_AssetClass i = cr_WhenAssetClass r;
  wm_side : cr_WhenSide r <> "" -> in_Side i = cr_WhenSide r;
  wm_type : cr_WhenOrderType r <> "" -> in_OrderType i = cr_WhenOrderType r;
  wm_instrument : cr_WhenInstruments r <> [] -> in_InstrumentID i ∈ cr_WhenInstruments r;
  wm_hours : forall e, cr_WhenExtendedHours r = Some e -> in_ExtendedHours i = e;
  wm_gt : forall v, cr_WhenNotionalGT r = Some v -> v < n;
  wm_gte : forall v, cr_WhenNotionalGTE r = Some v -> v <= n;
  wm_lt : forall v, cr_WhenNotionalLT r = Some v -> n < v;
  wm_lte : forall v, cr_WhenNotionalLTE r = Some v -> n <= v
}.

Definition requirement_holds (r : CompiledRule) (n : Amount) : Prop :=
  (forall v, cr_RequireNotionalLTE r = Some v -> n <= v) /\
  (forall v, cr_RequireNotionalGTE r = Some v -> v <= n).

Definition has_requirement (r : CompiledRule) : bool :=
  present (cr_RequireNotionalLTE r) || present (cr_RequireNotionalGTE r).

Lemma guard_eq (w x : string) :
  str_nonempty w && negb (String.eqb x w) = false <-> (w <> "" -> x = w).
Proof.
  unfold str_nonempty. destruct (String.eqb_spec w ""), (String.eqb_spec x w); cbn; split;
    try done; try (intros H; exfalso; auto; done).
Qed.

Lemma fails_iff bound holds (P : Amount -> Prop) :
  (forall v, holds v = true <-> P v) ->
  fails bound holds = false <-> (forall v, bound = Some v -> P v).
Proof.
  intros HP. unfold fails. destruct bound as [v|]; [|split; done].
  rewrite negb_false_iff, HP. split; [by intros ? ? [= <-] | auto].
Qed.

Lemma fails_lt b n : fails b (fun v => v <? n) = false <-> (forall v, b = Some v -> v < n).
Proof. apply fails_iff. intros. apply Z.ltb_lt. Qed.
Lemma fails_le b n : fails b (fun v => v <=? n) = false <-> (forall v, b = Some v -> v <= n).
Proof. apply fails_iff. intros. apply Z.leb_le. Qed.
Lemma fails_gt b n : fails b (fun v => n <? v) = false <-> (forall v, b = Some v -> n < v).
Proof. apply fails_iff. intros. apply Z.ltb_lt. Qed.
Lemma fails_ge b n : fails b (fun v => n <=? v) = false <-> (forall v, b = Some v -> n <= v).
Proof. apply fails_iff. intros. apply Z.leb_le. Qed.

Lemma guard_instruments (l : list string) x :
  (0 <? length l)%nat && negb (contains l x) = false <-> (l <> [] -> x ∈ l).
Proof.
  rewrite <- contains_spec. destruct l; [by cbn|]. cbn [length Nat.ltb Nat.leb andb].
  rewrite negb_false_iff. intuition congruence.
Qed.

Lemma guard_hours (h : option bool) (x : bool) :
  match h with Some e => negb (Bool.eqb x e) | None => false end = false <->
  (forall e, h = Some e -> x = e).
Proof.
  destruct h as [e|]; [|split; done]. rewrite negb_false_iff, eqb_true_iff.
  split; [by intros ? ? [= <-] | auto].
Qed.

(** The first guard that fails stops; the rest of the chain then does not matter. *)
Lemma guard_chain (g : bool) (k : bool * string) :
  fst (if g then (false, "") else k) = true <-> g = false /\ fst k = true.
Proof. destruct g; cbn; intuition congruence. Qed.

Lemma requirement_chain r n :
  fst (if fails (cr_RequireNotionalLTE r) (fun v => n <=? v) then
         (true, "notional exceeds the rule's ceiling")
       else if fails (cr_RequireNotionalGTE r) (fun v => v <=? n) then
         (true, "notional is below the rule's floor")
       else if has_requirement r then (false, "")
       else (true, "matched the rule's conditions")) = true <->
  (has_requirement r = true -> ~ requirement_holds r n).
Proof.
  unfold requirement_holds, has_requirement. rewrite <- fails_ge, <- fails_le.
  destruct (cr_RequireNotionalLTE r), (cr_RequireNotionalGTE r); cbn;
    repeat case_match; cbn; intuition congruence.
Qed.

Lemma ruleFires_known r i n known :
  cr_NeedsNotional r && negb known = false ->
  fst (ruleFires r i n known) = true <->
  when_matches r i n /\ (has_requirement r = true -> ~ requirement_holds r n).
Proof.
  intros Hk. unfold ruleFires. rewrite Hk, !guard_chain.
  pose proof (requirement_chain r n) as Hreq. unfold has_requirement in Hreq at 1.
  rewrite Hreq, !guard_eq, guard_instruments, guard_hours, fails_lt, fails_le, fails_gt, fails_ge.
  split.
  - intros (? & ? & ? & ? & ? & ? & ? & ? & ? & ?). split; [constructor; assumption | assumption].
  - intros [[] ?]. split_and!; assumption.
Qed.

Lemma fires_unfold i r :
  fires i r = fst (ruleFires r i (fst (effectiveNotional i)) (snd (effectiveNotional i))).
Proof. unfold fires. by destruct (effectiveNotional i). Qed.

(** A rule whose question can be answered (the order's size is known, or the
    rule does not ask it) fires exactly when its [when] clause matches and its
    requirement, if it has one, fails. *)
Theorem rule_fires_iff (r : CompiledRule) (i : Intent) :
  cr_NeedsNotional r = false \/ snd (effectiveNotional i) = true ->
  fires i r = true <->
  when_matches r i (fst (effectiveNotional i)) /\
  (has_requirement r = true -> ~ requirement_holds r (fst (effectiveNotional i))).
Proof.
  intros H. rewrite fires_unfold. apply ruleFires_known.
  destruct H as [->| ->]; [done | by rewrite andb_false_r].
Qed.

(** The policy's size of an order is the authority's. *)
Lemma effectiveNotional_authority i : effectiveNotional i = EffectiveNotional i.
Proof. done. Qed.

Lemma fires_unknown r i :
  cr_NeedsNotional r = true -> snd (effectiveNotional i) = false ->
  fires i r = negb (String.eqb (cr_Action r) ActionAllow).
Proof.
  intros Hn Hk. rewrite fires_unfold, Hk. unfold ruleFires. rewrite Hn. cbn.
  by destruct (String.eqb _ _).
Qed.

Lemma severity_le_deny a : severity a <= severity ActionDeny.
Proof.
  unfold severity, severity_table at 1. cbn [assoc].
  repeat match goal with
  | |- context [if ?c then _ else _] => destruct c
  end; vm_compute; discriminate.
Qed.

Lemma denied_by_firing b env now r :
  r ∈ b_Rules b -> fires (env_Intent env) r = true -> cr_Action r = ActionDeny ->
  Forall (fun x => order_level (cr_Action x) = true) (b_Rules b) ->
  pd_Action (Evaluate (Some b) (Some env) now) = ActionDeny.
Proof.
  intros Hr Hf Ha Hall.
  destruct (Evaluate_explained b env now) as (_ & _ & _ & Hs).
  assert (Hin : r ∈ firing (env_Intent env) (b_Rules b)) by by apply firing_in.
  destruct Hs as (w & Hw & -> & _); [intros E; rewrite E in Hin; by apply not_elem_of_nil in Hin|].
  pose proof (first_most_severe_max _ _ _ Hw Hin) as Hmax.
  apply first_most_severe_in, firing_in in Hw as [Hw _]. rewrite Forall_forall in Hall.
  rewrite Ha in Hmax. apply severity_inj; [by apply Hall | done|].
  pose proof (severity_le_deny (cr_Action w)). lia.
Qed.

(** Hard policy fails closed: with no bundle or no envelope the decision is
    DENY, and a size-dependent DENY rule of a compiled bundle denies every order
    whose size cannot be determined, so omitting the notional never evades it. *)
Theorem policy_fails_closed (b : Bundle) (env : Envelope) (r : CompiledRule) (now : Time) :
  pd_Action (Evaluate None (Some env) now) = ActionDeny /\
  pd_Action (Evaluate (Some b) None now) = ActionDeny /\
  (Forall rule_ok (b_Rules b) -> r ∈ b_Rules b -> cr_Action r = ActionDeny ->
   cr_NeedsNotional r = true -> snd (effectiveNotional (env_Intent env)) = false ->
   pd_Action (Evaluate (Some b) (Some env) now) = ActionDeny).
Proof.
  split_and!; [done..|]. intros Hok Hr Ha Hn Hk. apply (denied_by_firing b env now r); try done.
  - rewrite (fires_unknown r _ Hn Hk), Ha. done.
  - eapply Forall_impl; [exact Hok|]. intros x. apply ro_action.
Qed.

(** ** Contradictory thresholds *)

(** The two shapes the compiler reports as "can never match". *)
Definition reported_dead (r : CompiledRule) : bool :=
  both Z.geb (cr_WhenNotionalGT r) (cr_WhenNotionalLT r) ||
  both Z.gtb (cr_WhenNotionalGTE r) (cr_WhenNotionalLTE r).

Lemma reported_dead_never i r n known :
  reported_dead r = true -> cr_NeedsNotional r && negb known = false ->
  fst (ruleFires r i n known) = false.
Proof.
  intros Hd Hk. apply not_true_iff_false. rewrite (ruleFires_known r i n known Hk).
  intros [[_ _ _ _ _ Hgt Hge Hlt Hle] _]. unfold reported_dead, both in Hd.
  destruct (cr_WhenNotionalGT r) as [a|], (cr_WhenNotionalLT r) as [b|],
    (cr_WhenNotionalGTE r) as [c|], (cr_WhenNotionalLTE r) as [d|];
    try done; cbn [orb] in Hd; rewrite ?orb_false_r in Hd; rewrite ?Z.geb_leb, ?Z.gtb_ltb in Hd;
    try specialize (Hgt _ eq_refl); try specialize (Hlt _ eq_refl);
    try specialize (Hge _ eq_refl); try specialize (Hle _ eq_refl);
    try apply orb_true_iff in Hd as [Hd|Hd]; b2p;
    try apply Z.leb_le in Hd; try apply Z.ltb_lt in Hd; lia.
Qed.

(** A rule [when: {notional_gte: 10, notional_lt: 10}], action DENY. *)
Definition dead_source : Source :=
  mkSource 1 "pol"
    [mkSourceRule "dead" (mkWhen "" "" "" "" [] None (Some 100000) (Some 100000) None None)
       (mkReq None None) "DENY"].

Definition dead_rule : CompiledRule :=
  mkRule "dead" ActionDeny "" "" "" [] None (Some 100000) (Some 100000) None None None None true.

Lemma dead_rule_never i n : fst (ruleFires dead_rule i n true) = false.
Proof.
  apply not_true_iff_false. rewrite (ruleFires_known dead_rule i n true eq_refl).
  intros [[_ _ _ _ _ _ Hge Hlt _] _].
  specialize (Hge 100000 eq_refl). specialize (Hlt 100000 eq_refl). lia.
Qed.

(** What the compiler reports as a rule that can never match indeed never
    fires on an order of known size; the converse fails: a rule bounded by
    [notional_gte] and [notional_lt] at the same value compiles without a
    problem, although it never fires on any order of known size. *)
Theorem dead_rules (r : CompiledRule) (i : Intent) :
  snd (effectiveNotional i) = true ->
  (reported_dead r = true -> fires i r = false) /\
  (exists b, Compile (Some dead_source) "tenant-1" "bundle-1" 0 = Ok b /\
     b_Rules b = [dead_rule] /\ fires i dead_rule = false).
Proof.
  intros Hk. split.
  - intros Hd. rewrite fires_unfold, Hk. apply reported_dead_never; [done|]. by rewrite andb_false_r.
  - eexists. split; [vm_compute; reflexivity|]. split; [reflexivity|].
    rewrite fires_unfold, Hk. apply dead_rule_never.
Qed.

(** ** A size-dependent rule outside its own scope *)

(** [when: {asset_class: OPTION, notional_gt: 10}], action DENY. *)
Definition option_rule : CompiledRule :=
  mkRule "options-over-10" ActionDeny AssetOption "" "" [] (Some 100000) None None None None
    None None true.

Definition option_bundle : Bundle :=
  mkBundle "bundle-1" "tenant-1" "pol" 1 [option_rule] "" "" "" 0
    (mkActivation StatusActive None "" None "" "" "").

(** A size-dependent rule fires on every order of unknown size, whatever the
    rest of its [when] clause says: a DENY rule scoped to options denies an
    equity market order sized by quantity, although the rule's [when] clause
    matches that order at no size at all. *)
Theorem unknown_size_ignores_scope (env : Envelope) (q : Quantity) (now : Time) :
  let i := mkIntent AssetEquity "instr_acme" SideBuy OrderMarket None (Some q) None None "DAY"
             false in
  (forall n, ~ when_matches option_rule i n) /\
  fires i option_rule = true /\
  (env_Intent env = i ->
   pd_Action (Evaluate (Some option_bundle) (Some env) now) = ActionDeny /\
   pd_DecidedBy (Evaluate (Some option_bundle) (Some env) now) = "options-over-10").
Proof.
  cbn zeta. split_and!.
  - intros n [Hc _ _ _ _ _ _ _ _]. specialize (Hc ltac:(done)). done.
  - vm_compute. reflexivity.
  - intros He. unfold Evaluate. rewrite He. vm_compute. done.
Qed.

(** ** Witnesses *)

(** [when: {notional_gt: 50}], action REQUIRE_APPROVAL. *)
Definition sample_rule : CompiledRule :=
  mkRule "large-orders" ActionRequireApproval "" "" "" [] (Some 500000) None None None None
    None None true.

Definition sample_bundle : Bundle := with_rules option_bundle [option_rule; sample_rule].

Example Evaluate_most_restrictive_witness :
  let l := firing (env_Intent sample_envelope) (b_Rules sample_bundle) in
  l = [sample_rule] /\
  exists r, first_most_severe r l /\
    pd_Action (Evaluate (Some sample_bundle) (Some sample_envelope) 7) = cr_Action r.
Proof.
  cbn zeta. assert (E : firing (env_Intent sample_envelope) (b_Rules sample_bundle) = [sample_rule])
    by (vm_compute; reflexivity).
  split; [exact E|].
  destruct (Evaluate_most_restrictive sample_bundle sample_envelope 7) as (_ & _ & _ & H).
  destruct H as (r & Hr & Ha & _); [rewrite E; discriminate|]. exists r. split; assumption.
Defined.

Example Evaluate_order_free_witness :
  pd_Action (Evaluate (Some (with_rules sample_bundle [sample_rule; option_rule]))
    (Some sample_envelope) 7) = ActionRequireApproval.
Proof.
  assert (HP : b_Rules sample_bundle ≡ₚ [sample_rule; option_rule]) by apply Permutation_swap.
  assert (HA : Forall (fun r => order_level (cr_Action r) = true) (b_Rules sample_bundle))
    by (repeat constructor).
  destruct (Evaluate_order_free sample_bundle _ sample_envelope 7 HP HA) as [H _].
  etransitivity; [exact H | vm_compute; reflexivity].
Defined.

Example boundsProblems_deterministic_witness :
  boundsProblems (rev (thresholds sample_rule)) "rule r" sample_rule = [].
Proof.
  rewrite (boundsProblems_deterministic (rev (thresholds sample_rule)) "rule r" sample_rule).
  - vm_compute. reflexivity.
  - symmetry. apply Permutation_rev.
Defined.

Example Compile_wellformed_witness :
  exists b, Compile (Some dead_source) "tenant-1" "bundle-1" 0 = Ok b /\
    Forall rule_ok (b_Rules b) /\ b_Version b = 1.
Proof.
  eexists. split; [vm_compute; reflexivity|].
  match goal with |- Forall rule_ok (b_Rules ?b) /\ _ =>
    destruct (Compile_wellformed dead_source "tenant-1" "bundle-1" 0 b
                ltac:(vm_compute; reflexivity)) as (_ & H & _) end.
  split; [exact H | reflexivity].
Defined.

Example rule_fires_iff_witness :
  snd (effectiveNotional sample_intent) = true /\
  when_matches sample_rule sample_intent (fst (effectiveNotional sample_intent)).
Proof.
  split; [vm_compute; reflexivity|].
  apply (rule_fires_iff sample_rule sample_intent (or_intror eq_refl)).
  vm_compute. reflexivity.
Defined.

Definition market_intent : Intent :=
  mkIntent AssetEquity "instr_acme" SideBuy OrderMarket None (Some 1000000) None None "DAY" false.

Definition market_envelope : Envelope :=
  mkEnvelope "0.1" "env-1" "key-1" "" 1000 "tenant-1" (mkPrincipal "p-1" "acct-1")
    (mkAgent "agent-1" "" (mkAttestation "" "" ""))
    (mkRuntimeClaims (mkClaim "" "" "") (mkClaim "" "" "") (mkClaim "m" "DECLARED" ""))
    "grant-1" [] market_intent "" "strat-1" "" "" (mkSignature "Ed25519" "k-1" "00").

Lemma option_rule_ok : rule_ok option_rule.
Proof.
  constructor; [reflexivity | reflexivity | right; reflexivity | left; reflexivity |
    left; reflexivity | constructor | repeat constructor | reflexivity].
Qed.

Example policy_fails_closed_witness :
  pd_Action (Evaluate (Some option_bundle) (Some market_envelope) 7) = ActionDeny.
Proof.
  destruct (policy_fails_closed option_bundle market_envelope option_rule 7) as (_ & _ & H).
  apply H; [constructor; [exact option_rule_ok | constructor] | left | reflexivity..].
Defined.

Example dead_rules_witness :
  snd (effectiveNotional sample_intent) = true /\ fires sample_intent dead_rule = false.
Proof.
  split; [vm_compute; reflexivity|].
  destruct (dead_rules dead_rule sample_intent eq_refl) as [_ (b & _ & _ & H)]. exact H.
Defined.

Example unknown_size_ignores_scope_witness :
  env_Intent market_envelope = market_intent /\
  pd_DecidedBy (Evaluate (Some option_bundle) (Some market_envelope) 7) = "options-over-10".
Proof.
  split; [reflexivity|].
  destruct (unknown_size_ignores_scope market_envelope 1000000 7) as (_ & _ & H).
  exact (proj2 (H eq_refl)).
Defined.
