(* ===== verification/Crypto.v ===== *)
(** Hexadecimal text (encoding/hex) and the cryptography the program calls.

    Ed25519 and SHA-256 are parameters, an instance of [Crypto]; [CryptoLaws] states
    what the code relies on, that a signature made with a key verifies against its
    public half, and nothing of forgeries.  [toy_crypto] is an instance for
    witnesses. *)

From S2P Require Import Prelude CanonicalJSON.

(** * Hexadecimal *)

Fixpoint hex_encode (l : bytes_t) : bytes_t :=
  match l with
  | [] => []
  | b :: l' => hex_digit (b / 16) :: hex_digit (b mod 16) :: hex_encode l'
  end%nat.

Definition hex_nibble (c : nat) : option nat :=
  (if between 48 57 c then Some (c - 48)
   else if between 97 102 c then Some (c - 87)
   else if between 65 70 c then Some (c - 55) else None)%nat.

Fixpoint hex_decode (l : bytes_t) : option bytes_t :=
  match l with
  | [] => Some []
  | a :: b :: l' =>
      match hex_nibble a, hex_nibble b, hex_decode l' with
      | Some x, Some y, Some r => Some ((16 * x + y)%nat :: r)
      | _, _, _ => None
      end
  | [_] => None
  end.

Definition EncodeToString (l : bytes_t) : string := str_of_bytes (hex_encode l).
Definition DecodeString (s : string) : option bytes_t := hex_decode (bytes s).

Definition is_byte (b : nat) : Prop := (b < 256)%nat.

(** * Cryptography *)

Class Crypto := {
  PrivateKey : Type;
  public : PrivateKey -> bytes_t;
  sign : PrivateKey -> bytes_t -> bytes_t;
  verify : bytes_t -> bytes_t -> bytes_t -> bool;
  sha256 : bytes_t -> bytes_t
}.

(** The correctness of the signature scheme; nothing is assumed of forgeries. *)
Class CryptoLaws `{Crypto} := {
  verify_sign k m : verify (public k) m (sign k m) = true;
  sign_bytes k m : Forall is_byte (sign k m);
  sign_nonempty k m : sign k m <> [];
  sha256_bytes m : Forall is_byte (sha256 m);
  sha256_nonempty m : sha256 m <> []
}.

(** * Lemmas *)

Lemma bytes_str_of_bytes l : Forall is_byte l -> bytes (str_of_bytes l) = l.
Proof.
  unfold bytes, is_byte. induction 1 as [|b l Hb _ IH]; cbn; [done|].
  unfold byte_of. rewrite Ascii.nat_ascii_embedding by done. by f_equal.
Qed.

Lemma hex_digit_byte n : (n < 16)%nat -> is_byte (hex_digit n) /\ hex_nibble (hex_digit n) = Some n.
Proof. intros H. unfold is_byte. do 16 (destruct n as [|n]; [vm_compute; split; [lia | done]|]). lia. Qed.

Lemma hex_roundtrip l : Forall is_byte l -> hex_decode (hex_encode l) = Some l.
Proof.
  induction 1 as [|b l Hb _ IH]; cbn [hex_encode hex_decode]; [done|]. unfold is_byte in Hb.
  assert (Hd : (b / 16 < 16)%nat) by (apply Nat.Div0.div_lt_upper_bound; lia).
  assert (Hm : (b mod 16 < 16)%nat) by (apply Nat.mod_upper_bound; lia).
  rewrite (proj2 (hex_digit_byte _ Hd)), (proj2 (hex_digit_byte _ Hm)), IH.
  do 2 f_equal. pose proof (Nat.div_mod_eq b 16). lia.
Qed.

Lemma hex_encode_bytes l : Forall is_byte l -> Forall is_byte (hex_encode l).
Proof.
  induction 1 as [|b l Hb _ IH]; cbn [hex_encode]; [constructor|]. unfold is_byte in Hb.
  assert (Hd : (b / 16 < 16)%nat) by (apply Nat.Div0.div_lt_upper_bound; lia).
  assert (Hm : (b mod 16 < 16)%nat) by (apply Nat.mod_upper_bound; lia).
  constructor; [by apply hex_digit_byte|]. constructor; [by apply hex_digit_byte | done].
Qed.

Lemma DecodeString_encode l : Forall is_byte l -> DecodeString (EncodeToString l) = Some l.
Proof.
  intros H. unfold DecodeString, EncodeToString.
  rewrite bytes_str_of_bytes by by apply hex_encode_bytes. by apply hex_roundtrip.
Qed.

Lemma EncodeToString_nonempty l : l <> [] -> EncodeToString l <> "".
Proof. by destruct l. Qed.

(** * An instance *)

(** A scheme that satisfies the laws (and is of course no protection). *)
Definition toy_crypto : Crypto := {|
  PrivateKey := nat;
  public := fun k => repeat (k mod 256)%nat 32;
  sign := fun k m => [((k + length m) mod 256)%nat; (k mod 256)%nat];
  verify := fun pub m sig =>
    match sig with
    | [a; b] => bool_decide (pub = repeat b 32) && (a =? (b + length m) mod 256)%nat
    | _ => false
    end;
  sha256 := fun m => [(foldr Nat.add 0 m mod 256)%nat]
|}.

Lemma mod_byte n : is_byte (n mod 256).
Proof. apply Nat.mod_upper_bound. lia. Qed.

Lemma toy_laws : @CryptoLaws toy_crypto.
Proof.
  constructor; cbn [verify public sign sha256 toy_crypto].
  - intros k m. apply andb_true_iff. split; [by apply bool_decide_eq_true|].
    apply Nat.eqb_eq. by rewrite Nat.Div0.add_mod_idemp_l.
  - intros k m. constructor; [apply mod_byte|]. constructor; [apply mod_byte | constructor].
  - done.
  - intros m. constructor; [apply mod_byte | constructor].
  - done.
Qed.
