(* ===== verification/Identity.v ===== *)
(** Who is calling: internal/identity (spiffeid.go, workloads.go, svid.go,
    attestation.go, credentials.go, agentkeys.go, keystore.go).

    A URL is what net/url's accessors give for it, and [url.Parse] is a parameter; so
    is the chain verification of crypto/x509, as a function of the roots, the
    intermediates, the leaf and the time.  Texts of errors are reduced to the stable
    code where there is one. *)

From S2P Require Import Prelude Intent CanonicalJSON Crypto Strings.
From S2P Require Evidence.

(** * SPIFFE identifiers *)

Record SPIFFEID := mkSPIFFEID { TrustDomain : string; Path : string }.

#[global] Instance SPIFFEID_eq_dec : EqDecision SPIFFEID.
Proof. solve_decision. Defined.

Definition zeroID : SPIFFEID := mkSPIFFEID "" "".

Definition ID_String (s : SPIFFEID) : string :=
  if String.eqb (TrustDomain s) "" then "" else "spiffe://" +:+ TrustDomain s +:+ Path s.

Definition ID_IsZero (s : SPIFFEID) : bool := String.eqb (TrustDomain s) "".

Definition MemberOf (s : SPIFFEID) (trustDomain : string) : bool :=
  str_nonempty (TrustDomain s) && String.eqb (TrustDomain s) (ToLower trustDomain).

Record URL := mkURL {
  u_Scheme : string;
  u_HasUser : bool;
  u_RawQuery : string;
  u_Fragment : string;
  u_Port : string;
  u_Hostname : string;
  u_Path : string
}.

Definition relative_segment (s : string) : bool := contains [""; "."; ".."] s.

Definition spiffeIDFromURL (u : URL) : result SPIFFEID string :=
  if negb (EqualFold (u_Scheme u) "spiffe") then Err "scheme"
  else if u_HasUser u then Err "userinfo"
  else if str_nonempty (u_RawQuery u) || str_nonempty (u_Fragment u) then Err "query or fragment"
  else if str_nonempty (u_Port u) then Err "port"
  else
    let td := ToLower (u_Hostname u) in
    if String.eqb td "" then Err "empty trust domain" else
    let path := u_Path u in
    if String.eqb path "" then Err "no workload path"
    else if negb (HasPrefix path "/") then Err "path must be absolute"
    else if HasSuffix path "/"%char then Err "path must not end in a separator"
    else if existsb relative_segment (Split "/"%char (TrimPrefix path "/")) then
      Err "path segment"
    else Ok (mkSPIFFEID td path).

(** * Workloads *)

Definition identifier_byte (c : Ascii.ascii) : bool :=
  let n := Ascii.nat_of_ascii c in
  ((97 <=? n) && (n <=? 122) || (65 <=? n) && (n <=? 90) || (48 <=? n) && (n <=? 57) ||
   (n =? 95) || (n =? 45) || (n =? 46))%nat.

Definition identifierShaped (s : string) : bool :=
  str_nonempty s && (String.length s <=? 128)%nat &&
  forallb identifier_byte (String.list_ascii_of_string s).

Record Workloads := mkWorkloads {
  w_exact : gmap string string;
  w_prefixes : list (string * string)
}.

(** The order of the [sort.Slice]: the longer path first. *)
Definition longer (a b : string * string) : bool :=
  (String.length (fst b) <? String.length (fst a))%nat.

Fixpoint first_prefix (full : string) (l : list (string * string)) : option string :=
  match l with
  | [] => None
  | (path, tenant) :: l' =>
      if HasPrefix (full +:+ "/") path then Some tenant else first_prefix full l'
  end.

(** [None] is the nil registry, and as a result the tenant that was not found. *)
Definition TenantFor (w : option Workloads) (id : SPIFFEID) : option string :=
  match w with
  | None => None
  | Some w =>
      if ID_IsZero id then None else
      let full := ID_String id in
      match w_exact w !! full with
      | Some tenant => Some tenant
      | None => first_prefix full (w_prefixes w)
      end
  end.

Section Parsing.
Context (url_parse : string -> option URL).

Definition ParseSPIFFEID (raw : string) : result SPIFFEID string :=
  match url_parse raw with
  | None => Err "unparseable"
  | Some u => spiffeIDFromURL u
  end.

Fixpoint parse_workloads (entries : list string) (w : Workloads) (seen : list string)
    : result Workloads string :=
  match entries with
  | [] => Ok w
  | raw :: rest =>
      let entry := TrimSpace raw in
      if String.eqb entry "" then parse_workloads rest w seen else
      let '(id, tenant, ok) :=
        match Cut "="%char entry with
        | Some (a, b) => (TrimSpace a, TrimSpace b, true)
        | None => (TrimSpace entry, "", false)
        end in
      if negb ok || String.eqb id "" || String.eqb tenant "" then Err "malformed workload entry"
      else if negb (identifierShaped tenant) then Err "tenant must be identifier-shaped"
      else if negb (HasPrefix id "spiffe://") then Err "not a SPIFFE ID"
      else match ParseSPIFFEID (TrimSuffix id "/"%char) with
      | Err e => Err e
      | Ok _ =>
          if contains seen id then Err "mapped twice"
          else if HasSuffix id "/"%char then
            parse_workloads rest (mkWorkloads (w_exact w) (w_prefixes w ++ [(id, tenant)]))
              (id :: seen)
          else
            parse_workloads rest (mkWorkloads (<[id := tenant]> (w_exact w)) (w_prefixes w))
              (id :: seen)
      end
  end.

Definition ParseWorkloads (raw : string) : result Workloads string :=
  match parse_workloads (Split ","%char raw) (mkWorkloads ∅ []) [] with
  | Err e => Err e
  | Ok w =>
      if bool_decide (w_exact w = ∅) && bool_decide (w_prefixes w = []) then
        Err "no workloads configured"
      else Ok (mkWorkloads (w_exact w) (stable_sort longer (w_prefixes w)))
  end.
End Parsing.

(** * Verification of an SVID *)

Record Certificate := mkCertificate {
  ct_URIs : list URL;
  ct_NotBefore : Time;
  ct_NotAfter : Time;
  ct_SerialHex : string
}.

Inductive X509Error := X509Expired | X509UnknownAuthority | X509Other.

Record VerifiedIdentity := mkVerified {
  vi_ID : SPIFFEID;
  vi_Method : string;
  vi_NotAfter : Time;
  vi_VerifiedAt : Time;
  vi_SerialHex : string
}.

Definition methodX509SVID : string := "SPIFFE_X509_SVID".

(** A [VerificationFailure] is its code. *)
Definition svidURI (leaf : Certificate) : result SPIFFEID string :=
  match omap (fun u => match spiffeIDFromURL u with Ok id => Some id | Err _ => None end)
          (ct_URIs leaf) with
  | [] => Err "SVID_WITHOUT_SPIFFE_ID"
  | [id] => Ok id
  | _ => Err "SVID_MULTIPLE_SPIFFE_IDS"
  end.

Definition classifyVerifyError (err : X509Error) (leaf : Certificate) (now : Time) : string :=
  match err with
  | X509Expired => if After now (ct_NotAfter leaf) then "SVID_EXPIRED" else "SVID_NOT_YET_VALID"
  | X509UnknownAuthority => "SVID_UNTRUSTED_ISSUER"
  | X509Other => "SVID_INVALID"
  end.

(** What a caller showed up with, and what was established. *)
Record Presented := mkPresented {
  p_SVID : option Certificate;
  p_Intermediates : list Certificate;
  p_APIIdentity : string;
  p_TenantID : string;
  p_MayIssueAuthority : bool;
  p_MayRegisterKeys : bool;
  p_MayRegisterActivationKeys : bool
}.

Record Attested := mkAttested {
  a_Level : AttestationLevel;
  a_SpiffeID : SPIFFEID;
  a_APIIdentity : string;
  a_TenantID : string;
  a_MayIssueAuthority : bool;
  a_MayRegisterKeys : bool;
  a_MayRegisterActivationKeys : bool;
  a_Method : string;
  a_VerifiedAt : Time;
  a_SerialHex : string;
  a_Downgrade : option string
}.

Section Verification.
Context {Pool : Type} (chain : Pool -> list Certificate -> Certificate -> Time -> option X509Error).

Record Verifier := mkVerifier {
  v_TrustDomain : string;
  v_Bundle : option Pool;
  v_Workloads : option Workloads
}.

Definition Verify (v : Verifier) (now : Time) (leaf : option Certificate)
    (intermediates : list Certificate) : result VerifiedIdentity string :=
  match leaf, v_Bundle v with
  | None, _ => Err "SVID_ABSENT"
  | _, None => Err "TRUST_BUNDLE_UNAVAILABLE"
  | Some leaf, Some roots =>
      if String.eqb (v_TrustDomain v) "" then Err "TRUST_DOMAIN_UNCONFIGURED" else
      match svidURI leaf with
      | Err e => Err e
      | Ok id =>
          if negb (MemberOf id (v_TrustDomain v)) then Err "TRUST_DOMAIN_MISMATCH" else
          match chain roots intermediates leaf now with
          | Some err => Err (classifyVerifyError err leaf now)
          | None => Ok (mkVerified id methodX509SVID (ct_NotAfter leaf) now (ct_SerialHex leaf))
          end
      end
  end.

Definition degraded (p : Presented) (now : Time) (failure : option string) : Attested :=
  if str_nonempty (p_APIIdentity p) then
    mkAttested AttestationA1 zeroID (p_APIIdentity p) (p_TenantID p) (p_MayIssueAuthority p)
      (p_MayRegisterKeys p) (p_MayRegisterActivationKeys p) "AUTHENTICATED_API_IDENTITY" now ""
      failure
  else mkAttested AttestationA0 zeroID "" "" false false false "NONE" now "" failure.

(** The clock is read once here ([now]) and once in [Verify] ([now']). *)
Definition Resolve (v : Verifier) (now now' : Time) (p : Presented) : Attested :=
  match p_SVID p with
  | Some leaf =>
      match Verify v now' (Some leaf) (p_Intermediates p) with
      | Ok verified =>
          let tenant := default "" (TenantFor (v_Workloads v) (vi_ID verified)) in
          mkAttested AttestationA2 (vi_ID verified) (p_APIIdentity p) tenant false false false
            (vi_Method verified) (vi_VerifiedAt verified) (vi_SerialHex verified) None
      | Err failure => degraded p now (Some failure)
      end
  | None => degraded p now None
  end.
End Verification.

Arguments mkVerifier {Pool}.
Arguments v_Workloads {Pool}.

(** ** Claims *)

Definition levelRank (l : AttestationLevel) : Z :=
  if String.eqb l AttestationA0 then 0
  else if String.eqb l AttestationA1 then 1
  else if String.eqb l AttestationA2 then 2
  else if String.eqb l AttestationA3 then 3 else -1.

(** The code of a [ClaimError], or [None] when the claim stands. *)
Definition CheckClaim (claimed : AttestationLevel) (established : Attested) : option string :=
  if levelRank claimed <? 0 then Some "ATTESTATION_LEVEL_INVALID"
  else if levelRank (a_Level established) <? levelRank claimed then
    Some "ATTESTATION_CLAIM_EXCEEDS_EVIDENCE"
  else None.

Definition RequireExecutable (a : Attested) : option string :=
  if levelRank (a_Level a) <? levelRank AttestationA1 then Some "UNAUTHENTICATED_WORKLOAD"
  else None.

Definition ModelClaims (_ : Attested) (claims : RuntimeClaims) : RuntimeClaims := claims.

Inductive TenantError :=
| NoTenantClaimed | WorkloadNotMapped | NoTenantEstablished | TenantMismatch.

Definition RequireTenant (a : Attested) (claimed : string) : option TenantError :=
  if String.eqb claimed "" then Some NoTenantClaimed
  else if String.eqb (a_TenantID a) "" then
    if negb (ID_IsZero (a_SpiffeID a)) then Some WorkloadNotMapped else Some NoTenantEstablished
  else if negb (String.eqb (a_TenantID a) claimed) then Some TenantMismatch
  else None.

(** * Credentials *)

Record Caller := mkCaller {
  cr_Identity : string;
  cr_TenantID : string;
  cr_MayIssueAuthority : bool;
  cr_MayRegisterKeys : bool;
  cr_MayRegisterActivationKeys : bool
}.

Abbreviation Credentials := (gmap string Caller).

(** The names of a comma-separated list, without the blank ones. *)
Definition names (raw : string) : list string :=
  List.filter str_nonempty (map TrimSpace (Split ","%char raw)).

Definition mark (raw : string) (set : Caller -> Caller) (c : Credentials) : Credentials :=
  (fun caller => if contains (names raw) (cr_Identity caller) then set caller else caller) <$> c.

Definition AllowIssuers (raw : string) (c : Credentials) : Credentials :=
  mark raw (fun k => mkCaller (cr_Identity k) (cr_TenantID k) true (cr_MayRegisterKeys k)
                       (cr_MayRegisterActivationKeys k)) c.

Definition AllowKeyRegistrars (raw : string) (c : Credentials) : Credentials :=
  mark raw (fun k => mkCaller (cr_Identity k) (cr_TenantID k) (cr_MayIssueAuthority k) true
                       (cr_MayRegisterActivationKeys k)) c.

Definition AllowActivationKeyRegistrars (raw : string) (c : Credentials) : Credentials :=
  mark raw (fun k => mkCaller (cr_Identity k) (cr_TenantID k) (cr_MayIssueAuthority k)
                       (cr_MayRegisterKeys k) true) c.

(** [None] is the nil registry, here and in [Identify]. *)
Definition Tenants (c : option Credentials) : list string :=
  match c with
  | None => []
  | Some c => sort_strings (remove_dups (map cr_TenantID (map snd (map_to_list c))))
  end.

Fixpoint parse_credentials (pairs : list string) (c : Credentials) : result Credentials string :=
  match pairs with
  | [] => Ok c
  | raw :: rest =>
      let pair := TrimSpace raw in
      if String.eqb pair "" then parse_credentials rest c else
      match Cut "="%char pair with
      | None => Err "malformed credential entry"
      | Some (who, token) =>
          if String.eqb token "" then Err "malformed credential entry" else
          match Cut "@"%char (TrimSpace who) with
          | None => Err "credential names no tenant"
          | Some (name, tenant) =>
              if negb (identifierShaped name) || negb (identifierShaped tenant) then
                Err "identity and tenant must be identifier-shaped"
              else if (String.length token <? 32)%nat then Err "shorter than 32 characters"
              else parse_credentials rest
                     (<[token := mkCaller name tenant false false false]> c)
          end
      end
  end.

Definition ParseCredentials (raw : string) : result Credentials string :=
  match parse_credentials (Split ","%char raw) ∅ with
  | Err e => Err e
  | Ok c => if bool_decide (c = ∅) then Err "no credentials configured" else Ok c
  end.

(** Every configured token is compared; the last match is kept. *)
Definition Identify (c : option Credentials) (token : string) : option Caller :=
  match c with
  | None => None
  | Some c =>
      if String.eqb token "" then None
      else foldl (fun matched '(candidate, caller) =>
                    if String.eqb candidate token then Some caller else matched)
             None (map_to_list c)
  end.

Definition FromTransport (authorization : string) (peerCertificates : list Certificate)
    (creds : option Credentials) : Presented :=
  let svid := head peerCertificates in
  let intermediates := tail peerCertificates in
  let caller :=
    match CutPrefix authorization "Bearer " with
    | Some token => Identify creds (TrimSpace token)
    | None => None
    end in
  match caller with
  | Some k => mkPresented svid intermediates (cr_Identity k) (cr_TenantID k)
                (cr_MayIssueAuthority k) (cr_MayRegisterKeys k) (cr_MayRegisterActivationKeys k)
  | None => mkPresented svid intermediates "" "" false false false
  end.

(** * Agent signing keys *)

Definition AlgorithmEd25519 : string := "Ed25519".
Definition PublicKeySize : nat := 32.

Record AgentKey := mkAgentKey {
  k_TenantID : string;
  k_AgentID : string;
  k_KeyID : string;
  k_Algorithm : string;
  k_PublicKey : bytes_t;
  k_Status : string;
  k_ValidFrom : Time;
  k_ValidUntil : Time;
  k_RevokedAt : option Time
}.

(** The code of the refusal, or [None] when the key may verify. *)
Definition KeyInForce (k : AgentKey) (at_ : Time) : option string :=
  if match k_RevokedAt k with Some r => negb (Before at_ r) | None => false end then
    Some "SIGNATURE_KEY_REVOKED"
  else if str_nonempty (k_Status k) && negb (String.eqb (k_Status k) "ACTIVE") then
    Some "SIGNATURE_KEY_REVOKED"
  else if negb (IsZero (k_ValidFrom k)) && Before at_ (k_ValidFrom k) then
    Some "SIGNATURE_KEY_UNKNOWN"
  else if negb (IsZero (k_ValidUntil k)) && negb (Before at_ (k_ValidUntil k)) then
    Some "SIGNATURE_KEY_EXPIRED"
  else None.

(** What the gateway needs of a key registry: a lookup by tenant, agent and key id. *)
Class KeySource (K : Type) := {
  lookup_key : K -> string -> string -> string -> result (option AgentKey) string
}.

(** The registry's promise: a key it returns is the one registered under exactly
    those three names. *)
Class KeyLaws (K : Type) `{KeySource K} := {
  registry_ok : K -> Prop;
  lookup_bound s tenant agent key k :
    registry_ok s -> lookup_key s tenant agent key = Ok (Some k) ->
    k_TenantID k = tenant /\ k_AgentID k = agent /\ k_KeyID k = key
}.

(** The code of a [SignatureError].  [raw] is the decoded request; a body that is not
    an object, [DOther] for one that does not decode, has no signed bytes. *)
Definition VerifyEnvelopeSignature {C : Crypto} {K : Type} `{KeySource K} (keys : option K)
    (raw : Doc) (env : option Envelope) (at_ : Time) : option string :=
  match env, keys with
  | None, _ => Some "SIGNATURE_MISSING"
  | _, None => Some "SIGNATURE_KEY_UNKNOWN"
  | Some env, Some keys =>
      let s := env_Signature env in
      if String.eqb (sig_Value s) "" || String.eqb (sig_KeyID s) "" then Some "SIGNATURE_MISSING"
      else if negb (String.eqb (sig_Algorithm s) AlgorithmEd25519) then
        Some "SIGNATURE_ALGORITHM_UNSUPPORTED"
      else match lookup_key keys (env_TenantID env) (ag_AgentID (env_Agent env)) (sig_KeyID s) with
      | Err _ | Ok None => Some "SIGNATURE_KEY_UNKNOWN"
      | Ok (Some key) =>
          match KeyInForce key at_ with
          | Some code => Some code
          | None =>
              if negb (length (k_PublicKey key) =? PublicKeySize)%nat then
                Some "SIGNATURE_KEY_UNKNOWN"
              else match DecodeString (sig_Value s), SignedBytes raw with
              | None, _ | _, None => Some "SIGNATURE_INVALID"
              | Some value, Some canonical =>
                  if verify (k_PublicKey key) canonical value then None
                  else Some "SIGNATURE_INVALID"
              end
          end
      end
  end.

Definition SignEnvelope {C : Crypto} (raw : Doc) (priv : PrivateKey) : option string :=
  match SignedBytes raw with
  | None => None
  | Some canonical => Some (EncodeToString (sign priv canonical))
  end.

(** ** The in-process registry *)

Module Memory.
Definition MemoryKeys : Type := gmap string AgentKey.

Definition key (tenantID agentID keyID : string) : string :=
  nul_join tenantID (nul_join agentID keyID).

Definition Add (m : MemoryKeys) (k : AgentKey) : MemoryKeys :=
  <[key (k_TenantID k) (k_AgentID k) (k_KeyID k) := k]> m.

Definition AgentKeyOf (m : MemoryKeys) (tenantID agentID keyID : string)
    : result (option AgentKey) string := Ok (m !! key tenantID agentID keyID).
End Memory.

(** ** The PostgreSQL registry *)

Module Store.
Record KeyRow := mkKeyRow {
  r_algorithm : string;
  r_public_key : bytes_t;
  r_status : string;
  r_valid_from : Time;
  r_valid_until : option Time;
  r_revoked_at : option Time;
  r_revoked_by : option string
}.

Record Tables := mkTables {
  agent_keys : gmap (string * string * string) KeyRow;
  evidence : Evidence.Tables
}.

Definition empty_tables : Tables := mkTables ∅ Evidence.empty_tables.

Inductive StoreError := ErrNoTenant | ErrEvidence (e : Evidence.EvidenceError) | ErrDatabase (what : string).

Definition withTenant {A} (f : TxFault) (db : Tables) (tenantID : string)
    (fn : Tables -> Tables * result A StoreError) : Tables * result A StoreError :=
  if String.eqb tenantID "" then (db, Err ErrNoTenant) else transaction ErrDatabase f db fn.

Definition set_keys (db : Tables) m : Tables := mkTables m (evidence db).

Definition key_of (n : string * string * string) (r : KeyRow) : AgentKey :=
  mkAgentKey (fst (fst n)) (snd (fst n)) (snd n) (r_algorithm r) (r_public_key r) (r_status r)
    (r_valid_from r) (default 0 (r_valid_until r)) (r_revoked_at r).

(** The lookup fails when the database does ([up] is false). *)
Definition AgentKeyOf (up : bool) (db : Tables) (tenantID agentID keyID : string)
    : result (option AgentKey) StoreError :=
  snd (withTenant (if up then Fine else Fails) db tenantID (fun db =>
    (db, Ok (key_of (tenantID, agentID, keyID) <$> agent_keys db !! (tenantID, agentID, keyID))))).

(** INSERT ... ON CONFLICT (tenant_id, agent_id, key_id) DO NOTHING, with the checks
    of the table; the boolean is [RowsAffected() == 1]. *)
Definition insert_key (db : Tables) (k : AgentKey) : result (Tables * bool) StoreError :=
  let status := if String.eqb (k_Status k) "" then "ACTIVE" else k_Status k in
  let until := if IsZero (k_ValidUntil k) then None else Some (k_ValidUntil k) in
  if negb (String.eqb (k_Algorithm k) AlgorithmEd25519) then
    Err (ErrDatabase "agent_signing_keys_algorithm")
  else if negb (contains ["ACTIVE"; "REVOKED"] status) then
    Err (ErrDatabase "agent_signing_keys_status")
  else if negb (length (k_PublicKey k) =? PublicKeySize)%nat then
    Err (ErrDatabase "agent_signing_keys_ed25519_size")
  else
    let n := (k_TenantID k, k_AgentID k, k_KeyID k) in
    match agent_keys db !! n with
    | Some _ => Ok (db, false)
    | None =>
        let r := mkKeyRow (k_Algorithm k) (k_PublicKey k) status (k_ValidFrom k) until None None in
        Ok (set_keys db (<[n := r]> (agent_keys db)), true)
    end.

Definition Register (f : TxFault) (db : Tables) (k : AgentKey) : Tables * result bool StoreError :=
  withTenant f db (k_TenantID k) (fun db =>
    match insert_key db k with
    | Err e => (db, Err e)
    | Ok (db', registered) => (db', Ok registered)
    end).

Definition RegisterWithEvidence {HJ : Evidence.JSON} (f : TxFault) (dbnow : Time) (db : Tables)
    (k : AgentKey) (event : Evidence.Event) : Tables * result bool StoreError :=
  withTenant f db (k_TenantID k) (fun db =>
    match insert_key db k with
    | Err e => (db, Err e)
    | Ok (db', false) => (db', Ok false)
    | Ok (db', true) =>
        match Evidence.AppendInTx (k_TenantID k) dbnow (evidence db') event with
        | Err e => (db, Err (ErrEvidence e))
        | Ok ev => (mkTables (agent_keys db') ev, Ok true)
        end
    end).

Definition revoke_row (r : KeyRow) (at_ : Time) (by_ : string) : KeyRow :=
  mkKeyRow (r_algorithm r) (r_public_key r) "REVOKED" (r_valid_from r) (r_valid_until r)
    (Some at_) (Some by_).

Definition Revoke (f : TxFault) (db : Tables) (tenantID agentID keyID revokedBy : string)
    (at_ : Time) : Tables * result bool StoreError :=
  withTenant f db tenantID (fun db =>
    let n := (tenantID, agentID, keyID) in
    match agent_keys db !! n with
    | Some r =>
        if String.eqb (r_status r) "REVOKED" then (db, Ok false)
        else (set_keys db (<[n := revoke_row r at_ revokedBy]> (agent_keys db)), Ok true)
    | None => (db, Ok false)
    end).

Definition Exists (f : TxFault) (db : Tables) (tenantID agentID keyID : string)
    : result bool StoreError :=
  snd (withTenant f db tenantID (fun db =>
    (db, Ok (bool_decide (is_Some (agent_keys db !! (tenantID, agentID, keyID))))))).
End Store.

(** * What identity establishes *)

Section Established.
Context {Pool : Type} (chain : Pool -> list Certificate -> Certificate -> Time -> option X509Error).
Implicit Types (v : Verifier (Pool := Pool)) (p : Presented).

(** The presented certificate verifies as workload [vid]. *)
Definition svid_verifies v now p (vid : VerifiedIdentity) : Prop :=
  exists leaf, p_SVID p = Some leaf /\ Verify chain v now (Some leaf) (p_Intermediates p) = Ok vid.

Lemma Verify_spec v now leaf inter vid :
  Verify chain v now (Some leaf) inter = Ok vid <->
  exists roots id, v_Bundle v = Some roots /\ v_TrustDomain v <> "" /\ svidURI leaf = Ok id /\
    MemberOf id (v_TrustDomain v) = true /\ chain roots inter leaf now = None /\
    vid = mkVerified id methodX509SVID (ct_NotAfter leaf) now (ct_SerialHex leaf).
Proof.
  unfold Verify. split.
  - intros H. destruct (v_Bundle v) as [roots|]; [|done].
    destruct (String.eqb_spec (v_TrustDomain v) ""); [done|].
    destruct (svidURI leaf) as [id|]; [|done].
    destruct (MemberOf id (v_TrustDomain v)) eqn:Em; [|done]. simpl in H.
    destruct (chain roots inter leaf now) eqn:Ec; [done|]. injection H as <-.
    by exists roots, id.
  - intros (roots & id & -> & Htd & -> & Hm & Hc & ->).
    destruct (String.eqb_spec (v_TrustDomain v) ""); [done|]. by rewrite Hm, Hc.
Qed.

Lemma Resolve_cases v now now' p :
  (exists vid, svid_verifies v now' p vid /\
     Resolve chain v now now' p =
       mkAttested AttestationA2 (vi_ID vid) (p_APIIdentity p)
         (default "" (TenantFor (v_Workloads v) (vi_ID vid))) false false false (vi_Method vid)
         (vi_VerifiedAt vid) (vi_SerialHex vid) None) \/
  ((forall vid, ~ svid_verifies v now' p vid) /\
   exists failure, Resolve chain v now now' p = degraded p now failure).
Proof.
  unfold Resolve, svid_verifies. destruct (p_SVID p) as [leaf|].
  - destruct (Verify chain v now' (Some leaf) (p_Intermediates p)) as [vid|e] eqn:E.
    + left. exists vid. eauto.
    + right. split; [|by eexists]. intros vid (l & [= <-] & H). congruence.
  - right. split; [|by eexists]. by intros vid (l & H & _).
Qed.

(** An unauthenticated workload never acts, and identity is never inferred upward.
    The established level is A2 exactly when the presented certificate verifies, A1
    exactly when it does not but an API identity authenticated, A0 otherwise and never
    A3; a caller is executable exactly in the first two cases; and a claim stands
    exactly when it is a known level not above the established one. *)
Theorem executable_needs_evidence v now now' p :
  let a := Resolve chain v now now' p in
  let verified := exists vid, svid_verifies v now' p vid in
  (a_Level a = AttestationA2 <-> verified) /\
  (a_Level a = AttestationA1 <-> ~ verified /\ p_APIIdentity p <> "") /\
  (a_Level a = AttestationA0 <-> ~ verified /\ p_APIIdentity p = "") /\
  (RequireExecutable a = None <-> verified \/ p_APIIdentity p <> "") /\
  (forall claimed, CheckClaim claimed a = None <-> 0 <= levelRank claimed <= levelRank (a_Level a)) /\
  CheckClaim AttestationA3 a <> None.
Proof.
  cbn zeta. set (a := Resolve chain v now now' p).
  assert (Hc : forall claimed, CheckClaim claimed a = None <->
            0 <= levelRank claimed <= levelRank (a_Level a)).
  { intros c. unfold CheckClaim. destruct (levelRank c <? 0) eqn:E0; b2p; [split; [done|lia]|].
    destruct (levelRank (a_Level a) <? levelRank c) eqn:E1; b2p; (split; [done || lia | done || lia]). }
  assert (H3 : levelRank (a_Level a) <= 2 -> CheckClaim AttestationA3 a <> None).
  { intros Hle H. apply Hc in H. change (levelRank AttestationA3) with 3 in H. lia. }
  destruct (Resolve_cases v now now' p) as [(vid & Hv & E)|(Hn & failure & E)];
    fold a in E; rewrite E in *; clear E.
  - cbn [a_Level] in *.
    assert (Hyes : exists vid, svid_verifies v now' p vid) by eauto.
    split_and!; try done; try (by apply H3); (split; [done || (by left) | try tauto; done]).
  - assert (Hv : ~ exists vid, svid_verifies v now' p vid) by (by intros [vid H]; apply (Hn vid)).
    unfold degraded in *. destruct (str_nonempty (p_APIIdentity p)) eqn:En;
      unfold str_nonempty in En; b2p; cbn [a_Level] in *;
      split_and!; try done; try (by apply H3); (split; [try tauto; done | try tauto; done]).
Qed.

(** ** Where a tenant comes from *)

Lemma RequireTenant_iff a claimed :
  RequireTenant a claimed = None <-> claimed <> "" /\ a_TenantID a = claimed.
Proof.
  unfold RequireTenant. destruct (String.eqb_spec claimed "") as [->|Hc]; [split; [done|by intros []]|].
  destruct (String.eqb_spec (a_TenantID a) "") as [E|Ht].
  - rewrite E. destruct (negb _); (split; [done | intros [_ <-]; done]).
  - destruct (String.eqb_spec (a_TenantID a) claimed); split; try done. by intros [_ ?].
Qed.

Lemma identify_fold token (l : list (string * Caller)) acc :
  NoDup (map fst l) ->
  foldl (fun matched '(candidate, caller) =>
           if String.eqb candidate token then Some caller else matched) acc l =
  match list_to_map (M := gmap string Caller) l !! token with Some k => Some k | None => acc end.
Proof.
  revert acc. induction l as [|[c k] l IH]; intros acc Hnd; [done|].
  inversion Hnd as [|? ? Hc Hl]; subst. cbn [foldl list_to_map foldr fst snd]. rewrite IH by done.
  destruct (String.eqb_spec c token) as [->|Hne].
  - rewrite lookup_insert_eq.
    destruct (list_to_map l !! token) eqn:E; [|done].
    apply elem_of_list_to_map_2 in E. exfalso. apply Hc.
    apply list_elem_of_In, in_map_iff. exists (token, c). split; [done | by apply list_elem_of_In].
  - by rewrite lookup_insert_ne by done.
Qed.

Lemma Identify_lookup (c : Credentials) token :
  Identify (Some c) token = if String.eqb token "" then None else c !! token.
Proof.
  unfold Identify. destruct (String.eqb token ""); [done|].
  rewrite identify_fold by apply NoDup_fst_map_to_list.
  rewrite list_to_map_to_list. by destruct (c !! token).
Qed.

(** The bearer token of a request, trimmed as it is compared. *)
Definition bearer (authorization : string) (token : string) : Prop :=
  exists rest, authorization = "Bearer " +:+ rest /\ token = TrimSpace rest.

Lemma FromTransport_cases auth certs (creds : Credentials) :
  let p := FromTransport auth certs (Some creds) in
  p_SVID p = head certs /\ p_Intermediates p = tail certs /\
  ((exists token k, bearer auth token /\ token <> "" /\ creds !! token = Some k /\
      p = mkPresented (head certs) (tail certs) (cr_Identity k) (cr_TenantID k)
            (cr_MayIssueAuthority k) (cr_MayRegisterKeys k) (cr_MayRegisterActivationKeys k)) \/
   p = mkPresented (head certs) (tail certs) "" "" false false false).
Proof.
  cbn zeta. unfold FromTransport. destruct (CutPrefix auth "Bearer ") as [rest|] eqn:E; [|by eauto].
  rewrite Identify_lookup. destruct (String.eqb_spec (TrimSpace rest) "") as [|Ht]; [by eauto|].
  destruct (creds !! TrimSpace rest) as [k|] eqn:Ek; [|by eauto].
  cbn. split_and!; [done..|]. left. exists (TrimSpace rest), k. split_and!; try done.
  exists rest. split; [by apply CutPrefix_spec | done].
Qed.

(** C20: A tenant is established by a registry and never by the request.  Whatever a
    request presents, it acts for the tenant it claims only if either its certificate
    verifies and the workload registry maps that workload to that tenant, with no
    operator privilege; or no certificate verifies and its bearer token is a
    configured one issued to that tenant, with exactly that credential's privileges. *)
Theorem tenant_is_established v now now' auth certs (creds : Credentials) claimed :
  let p := FromTransport auth certs (Some creds) in
  let a := Resolve chain v now now' p in
  RequireTenant a claimed = None ->
  (exists vid, svid_verifies v now' p vid /\ TenantFor (v_Workloads v) (vi_ID vid) = Some claimed /\
     a_MayIssueAuthority a = false /\ a_MayRegisterKeys a = false /\
     a_MayRegisterActivationKeys a = false) \/
  ((forall vid, ~ svid_verifies v now' p vid) /\
   exists token k, bearer auth token /\ creds !! token = Some k /\ cr_TenantID k = claimed /\
     (a_APIIdentity a, a_MayIssueAuthority a, a_MayRegisterKeys a, a_MayRegisterActivationKeys a) =
     (cr_Identity k, cr_MayIssueAuthority k, cr_MayRegisterKeys k, cr_MayRegisterActivationKeys k)).
Proof.
  cbn zeta. set (p := FromTransport auth certs (Some creds)). intros H.
  apply RequireTenant_iff in H as [Hne Ht].
  destruct (Resolve_cases v now now' p) as [(vid & Hv & E)|(Hn & failure & E)]; rewrite E in *; clear E.
  - left. exists vid. cbn in *. split_and!; try done.
    destruct (TenantFor (v_Workloads v) (vi_ID vid)); simpl in Ht; congruence.
  - right. split; [done|].
    destruct (FromTransport_cases auth certs creds) as (_ & _ & [(token & k & Hb & _ & Hk & Hp)|Hp]);
      fold p in Hp; rewrite Hp in *.
    + exists token, k. unfold degraded in *. cbn in *.
      destruct (str_nonempty (cr_Identity k)); cbn in *; [|congruence]. split_and!; done.
    + unfold degraded in Ht. cbn in Ht. congruence.
Qed.
End Established.

(** * The workload registry *)

Definition within (full : string) (e : string * string) : Prop :=
  HasPrefix (full +:+ "/") (fst e) = true.

(** [e] is the most specific entry of [l] above [full]. *)
Definition most_specific (full : string) (l : list (string * string)) (e : string * string) : Prop :=
  e ∈ l /\ within full e /\
  forall e', e' ∈ l -> within full e' -> (String.length (fst e') <= String.length (fst e))%nat.

Lemma within_same_length full e e' :
  within full e -> within full e' -> String.length (fst e) = String.length (fst e') ->
  fst e = fst e'.
Proof.
  unfold within. intros [r Hr]%HasPrefix_spec [r' Hr']%HasPrefix_spec Hl.
  apply (app_prefix_eq _ _ r r'); congruence.
Qed.

Lemma first_prefix_spec full l t :
  NoDup (map fst l) -> StronglySorted (not_after longer) l ->
  first_prefix full l = Some t <-> exists path, most_specific full l (path, t).
Proof.
  intros Hnd Hs. induction Hs as [|[p u] l Hs IH Hall].
  { split; [done|]. intros (path & Hin & _). by apply not_elem_of_nil in Hin. }
  inversion Hnd as [|? ? Hp Hl]; subst. cbn [first_prefix fst].
  assert (Hlen : forall e, e ∈ l -> (String.length (fst e) <= String.length p)%nat).
  { intros e He. rewrite Forall_forall in Hall. specialize (Hall e He).
    unfold not_after, longer in Hall. b2p. done. }
  destruct (HasPrefix (full +:+ "/") p) eqn:E.
  - split.
    + intros [= ->]. exists p. split_and!; [by left | done|].
      intros e He _. apply elem_of_cons in He as [->|He]; [done | by apply Hlen].
    + intros (path & Hin & Hw & Hmax). apply elem_of_cons in Hin as [[= _ ->]|Hin]; [done|].
      exfalso. pose proof (Hmax (p, u) ltac:(by left) E) as H1. pose proof (Hlen _ Hin) as H2.
      cbn in H1, H2. apply Hp.
      assert (Hpp : p = path) by (apply (within_same_length full (p, u) (path, t)); cbn; [done.. | lia]).
      rewrite Hpp. change path with (fst (path, t)). apply list_elem_of_In, in_map, list_elem_of_In, Hin.
  - rewrite IH by done. split; intros (path & Hin & Hw & Hmax).
    + exists path. split_and!; [by right | done|]. intros e He Hwe.
      apply elem_of_cons in He as [->|He]; [unfold within in Hwe; simpl in Hwe; congruence | auto].
    + apply elem_of_cons in Hin as [[= -> ->]|Hin]; [unfold within in Hw; simpl in Hw; congruence|].
      exists path. split_and!; [done..|]. intros e He. apply Hmax. by right.
Qed.

Lemma longer_asym x y : longer x y = true -> longer y x = false.
Proof. unfold longer. intros H. b2p. apply Nat.ltb_ge. lia. Qed.

Lemma longer_trans x y z :
  not_after longer x y -> not_after longer y z -> not_after longer x z.
Proof. unfold not_after, longer. intros H1 H2. b2p. apply Nat.ltb_ge. lia. Qed.

Lemma parse_workloads_nodup url_parse entries w seen w' :
  NoDup (map fst (w_prefixes w)) -> (forall x, x ∈ map fst (w_prefixes w) -> x ∈ seen) ->
  parse_workloads url_parse entries w seen = Ok w' -> NoDup (map fst (w_prefixes w')).
Proof.
  revert w seen. induction entries as [|e entries IH]; intros w seen Hnd Hseen; cbn [parse_workloads].
  { by intros [= <-]. }
  destruct (String.eqb (TrimSpace e) ""); [by apply IH|].
  destruct (match Cut _ _ with Some (a, b) => _ | None => _ end) as [[id tenant] ok].
  destruct (negb ok || _ || _); [done|]. destruct (negb (identifierShaped tenant)); [done|].
  destruct (negb (HasPrefix id "spiffe://")); [done|].
  destruct (ParseSPIFFEID _ _); [|done]. destruct (contains seen id) eqn:Ec; [done|].
  assert (Hid : id ∉ seen) by (rewrite <- contains_spec, Ec; done).
  destruct (HasSuffix id _).
  - apply IH; cbn [w_prefixes]; rewrite map_app; cbn [map fst].
    + apply NoDup_app. split_and!; [done | | apply NoDup_singleton].
      intros x Hx ->%list_elem_of_singleton. by apply Hid, Hseen.
    + intros x [Hx| ->%list_elem_of_singleton]%elem_of_app; [right; auto | by left].
  - apply IH; cbn [w_prefixes]; [done|]. intros x Hx. right. auto.
Qed.

Lemma ParseWorkloads_ok url_parse raw w :
  ParseWorkloads url_parse raw = Ok w ->
  NoDup (map fst (w_prefixes w)) /\ StronglySorted (not_after longer) (w_prefixes w).
Proof.
  unfold ParseWorkloads. destruct (parse_workloads _ _ _ _) as [w0|] eqn:E; [|done].
  destruct (_ && _); [done|]. intros [= <-]. cbn [w_prefixes]. split.
  - apply parse_workloads_nodup in E; [|constructor | intros x Hx; by apply not_elem_of_nil in Hx].
    by rewrite stable_sort_perm.
  - apply stable_sort_sorted; [apply longer_asym | apply longer_trans].
Qed.

(** Which tenant a workload acts for does not depend on chance.  In a parsed
    registry an exact entry decides first; otherwise exactly the most specific prefix
    above the workload does, and none means no tenant; and since [sort.Slice] may leave
    prefixes of equal length in any order, every such order gives the same answer. *)
Theorem TenantFor_most_specific url_parse raw w id :
  ParseWorkloads url_parse raw = Ok w -> ID_IsZero id = false ->
  let full := ID_String id in
  (forall t, w_exact w !! full = Some t -> TenantFor (Some w) id = Some t) /\
  (w_exact w !! full = None -> forall t,
     TenantFor (Some w) id = Some t <-> exists path, most_specific full (w_prefixes w) (path, t)) /\
  (forall l, l ≡ₚ w_prefixes w -> StronglySorted (not_after longer) l ->
     TenantFor (Some (mkWorkloads (w_exact w) l)) id = TenantFor (Some w) id).
Proof.
  intros Hw Hid. apply ParseWorkloads_ok in Hw as [Hnd Hs]. cbn zeta. unfold TenantFor. rewrite Hid.
  cbn [w_exact w_prefixes]. split_and!.
  - by intros t ->.
  - intros -> t. by apply first_prefix_spec.
  - intros l Hl Hsl. destruct (w_exact w !! ID_String id); [done|].
    assert (Hndl : NoDup (map fst l)) by by rewrite Hl.
    apply option_eq. intros t. rewrite !first_prefix_spec by done.
    unfold most_specific. by setoid_rewrite Hl.
Qed.

(** * Credentials *)

(** The entries an operator writes. *)
Definition entry_text (e : string * string * string) : string :=
  let '(name, tenant, token) := e in name +:+ "@" +:+ tenant +:+ "=" +:+ token.

Definition token_byte (b : nat) : bool := word_byte b && negb (b =? 44)%nat.

Definition good_entry (e : string * string * string) : Prop :=
  let '(name, tenant, token) := e in
  identifierShaped name = true /\ identifierShaped tenant = true /\
  (32 <= String.length token)%nat /\ forallb token_byte (bytes token) = true.

Definition issued (e : string * string * string) : string * Caller :=
  let '(name, tenant, token) := e in (token, mkCaller name tenant false false false).

Lemma ident_free s c :
  identifierShaped s = true -> identifier_byte c = false -> str_mem c s = false.
Proof.
  unfold identifierShaped. intros [_ H]%andb_true_iff Hc.
  induction s as [|d s IH]; cbn in *; [done|]. apply andb_true_iff in H as [Hd H].
  destruct (Ascii.eqb_spec d c) as [->|]; [congruence | by apply IH].
Qed.

Lemma identifier_word c : identifier_byte c = true -> word_byte (Ascii.nat_of_ascii c) = true.
Proof. destruct c as [[] [] [] [] [] [] [] []]; vm_compute; done. Qed.

Lemma ident_words s : identifierShaped s = true -> forallb word_byte (bytes s) = true.
Proof.
  unfold identifierShaped. intros [_ H]%andb_true_iff. unfold bytes.
  induction s as [|d s IH]; cbn in *; [done|]. apply andb_true_iff in H as [Hd H].
  by rewrite identifier_word, IH.
Qed.

Lemma token_words s : forallb token_byte (bytes s) = true -> forallb word_byte (bytes s) = true.
Proof.
  intros H. apply forallb_forall. intros b Hb. rewrite forallb_forall in H.
  specialize (H b Hb). by apply andb_true_iff in H as [? _].
Qed.

Lemma token_free s : forallb token_byte (bytes s) = true -> str_mem ","%char s = false.
Proof.
  unfold bytes. induction s as [|d s IH]; cbn; [done|]. intros [Hd H]%andb_true_iff.
  destruct (Ascii.eqb_spec d ","%char) as [->|]; [done | by apply IH].
Qed.

Lemma bytes_cons c s : bytes (String c s) = Ascii.nat_of_ascii c :: bytes s.
Proof. done. Qed.

Lemma entry_words e : good_entry e -> forallb word_byte (bytes (entry_text e)) = true.
Proof.
  destruct e as [[name tenant] token]. intros (Hn & Ht & _ & Hk). cbn [entry_text].
  rewrite !bytes_app, !forallb_app.
  by rewrite (ident_words name), (ident_words tenant), (token_words token).
Qed.

Lemma entry_free e : good_entry e -> str_mem ","%char (entry_text e) = false.
Proof.
  destruct e as [[name tenant] token]. intros (Hn & Ht & _ & Hk). cbn [entry_text].
  rewrite !str_mem_app.
  by rewrite (ident_free name), (ident_free tenant), (token_free token).
Qed.

(** What one good entry adds. *)
Lemma parse_entry e rest c :
  good_entry e ->
  parse_credentials (entry_text e :: rest) c = parse_credentials rest (<[(issued e).1 := (issued e).2]> c).
Proof.
  intros Hg. cbn [parse_credentials]. rewrite (TrimSpace_word (entry_text e)) by by apply entry_words.
  destruct e as [[name tenant] token]. destruct Hg as (Hn & Ht & Hk & Hw). cbn [entry_text issued fst snd].
  destruct (String.eqb_spec (name +:+ "@" +:+ tenant +:+ "=" +:+ token) "") as [E|_].
  { exfalso. destruct name; done. }
  assert (Hcut : Cut "="%char (name +:+ "@" +:+ tenant +:+ "=" +:+ token) =
                 Some (name +:+ "@" +:+ tenant, token)).
  { transitivity (Cut "="%char ((name +:+ "@" +:+ tenant) +:+ String "=" token)).
    - f_equal. by rewrite <- (str_app_assoc name), <- (str_app_assoc "@").
    - apply Cut_app. rewrite !str_mem_app. by rewrite (ident_free name), (ident_free tenant). }
  rewrite Hcut. destruct (String.eqb_spec token "") as [->|_]; [cbn in Hk; lia|].
  rewrite TrimSpace_word by (rewrite !bytes_app, !forallb_app;
    by rewrite (ident_words name), (ident_words tenant)).
  change (name +:+ "@" +:+ tenant) with (name +:+ String "@" tenant).
  rewrite Cut_app by by apply ident_free. rewrite Hn, Ht. cbn [negb orb].
  destruct (String.length token <? 32)%nat eqn:E; [b2p; lia | done].
Qed.

Lemma parse_entries_good es c :
  Forall good_entry es ->
  parse_credentials (map entry_text es) c =
  Ok (foldl (fun m e => <[(issued e).1 := (issued e).2]> m) c es).
Proof.
  intros H. revert c. induction H as [|e es He Hes IH]; intros c; [done|].
  cbn [map]. by rewrite parse_entry, IH.
Qed.

Lemma issued_lookup es (c : Credentials) token :
  NoDup (map (fun e => (issued e).1) es) ->
  (foldl (fun m e => <[(issued e).1 := (issued e).2]> m) c es : Credentials) !! token =
  match List.find (fun e => String.eqb (issued e).1 token) es with
  | Some e => Some (issued e).2
  | None => c !! token
  end.
Proof.
  revert c. induction es as [|e es IH]; intros c Hnd; [done|].
  inversion Hnd as [|? ? He Hes]; subst. cbn [foldl List.find]. rewrite IH by done.
  destruct (String.eqb_spec (issued e).1 token) as [E|E].
  - destruct (List.find _ es) as [e'|] eqn:Ef.
    + apply List.find_some in Ef as [Hin Heq]. b2p. exfalso. apply He. rewrite E, <- Heq.
      by apply list_elem_of_In, (in_map (fun e => (issued e).1)).
    + rewrite <- E. by rewrite lookup_insert_eq.
  - destruct (List.find _ es); [done|]. by rewrite lookup_insert_ne.
Qed.

Lemma mark_lookup raw set (c : Credentials) token :
  mark raw set c !! token =
  (fun k => if contains (names raw) (cr_Identity k) then set k else k) <$> (c !! token).
Proof. unfold mark. by rewrite lookup_fmap. Qed.

Ltac three_lists name :=
  cbn; repeat (destruct (contains (names _) name); cbn); reflexivity.

(** Credentials read back as they were written, with least privilege.  A list of
    well-formed entries with distinct tokens parses; and once the three privilege lists
    are applied, a token authenticates exactly the identity and tenant of its entry,
    holding each privilege exactly when that identity is named in that privilege's own
    list. *)
Theorem credentials_least_privilege es issuers registrars activators :
  es <> [] -> Forall good_entry es -> NoDup (map (fun e => (issued e).1) es) ->
  exists c, ParseCredentials (Join ","%char (map entry_text es)) = Ok c /\
    forall token k,
      Identify (Some (AllowIssuers issuers (AllowKeyRegistrars registrars
                        (AllowActivationKeyRegistrars activators c)))) token = Some k <->
      exists name tenant, (name, tenant, token) ∈ es /\
        k = mkCaller name tenant (contains (names issuers) name)
              (contains (names registrars) name) (contains (names activators) name).
Proof.
  intros Hne Hg Hnd.
  set (c := foldl (fun m e => <[(issued e).1 := (issued e).2]> m) (∅ : Credentials) es).
  assert (Hc : forall token, c !! token =
            match List.find (fun e => String.eqb (issued e).1 token) es with
            | Some e => Some (issued e).2 | None => None end).
  { intros token. unfold c. rewrite issued_lookup by done. by destruct (List.find _ es). }
  exists c. split.
  - unfold ParseCredentials. rewrite Split_Join; cycle 1.
    { by destruct es. }
    { apply Forall_map. eapply Forall_impl; [exact Hg | apply entry_free]. }
    rewrite parse_entries_good by done. fold c.
    destruct (bool_decide_reflect (c = ∅)) as [E|]; [|done]. exfalso.
    destruct es as [|e es]; [done|]. specialize (Hc (issued e).1). rewrite E, lookup_empty in Hc.
    cbn [List.find] in Hc. by rewrite String.eqb_refl in Hc.
  - intros token k. rewrite Identify_lookup. unfold AllowIssuers, AllowKeyRegistrars,
      AllowActivationKeyRegistrars. rewrite !mark_lookup, Hc.
    destruct (String.eqb_spec token "") as [->|Ht].
    { split; [done|]. intros (name & tenant & Hin & _). rewrite Forall_forall in Hg.
      specialize (Hg _ Hin) as (_ & _ & Hl & _). cbn in Hl. lia. }
    destruct (List.find _ es) as [[[name tenant] token']|] eqn:Ef.
    + apply List.find_some in Ef as [Hin Heq]. cbn [issued fst] in Heq. b2p. subst token'.
      apply list_elem_of_In in Hin. cbn [issued snd].
      split.
      * intros [= <-]. exists name, tenant. split; [done|]. three_lists name.
      * intros (name' & tenant' & Hin' & ->).
        assert (Heq : (name', tenant', token) = (name, tenant, token)).
        { by apply (nodup_map_eq (fun e => (issued e).1) es). }
        injection Heq as -> ->. three_lists name.
    + split; [done|]. intros (name & tenant & Hin & _). exfalso.
      apply list_elem_of_In in Hin. pose proof (List.find_none _ _ Ef _ Hin) as Hn.
      cbn in Hn. by rewrite String.eqb_refl in Hn.
Qed.

(** * Signatures bind an envelope to one agent's key *)

Section Signatures.
Context {C : Crypto} {K : Type} `{HK : KeySource K, HL : !KeyLaws K}.

(** C31: An envelope is accepted as signed exactly when it carries an Ed25519 signature
    whose key is registered to the very tenant and agent the envelope claims under the
    id it names, is in force, and verifies the canonical bytes of everything in the
    request but the signature; with no registry nothing is. *)
Theorem signature_accepts_iff (keys : K) raw env at_ :
  registry_ok keys ->
  let s := env_Signature env in
  (VerifyEnvelopeSignature (Some keys) raw (Some env) at_ = None <->
   sig_Value s <> "" /\ sig_KeyID s <> "" /\ sig_Algorithm s = AlgorithmEd25519 /\
   exists key value canonical,
     lookup_key keys (env_TenantID env) (ag_AgentID (env_Agent env)) (sig_KeyID s) = Ok (Some key) /\
     (k_TenantID key, k_AgentID key, k_KeyID key) =
       (env_TenantID env, ag_AgentID (env_Agent env), sig_KeyID s) /\
     KeyInForce key at_ = None /\ length (k_PublicKey key) = PublicKeySize /\
     DecodeString (sig_Value s) = Some value /\ SignedBytes raw = Some canonical /\
     verify (k_PublicKey key) canonical value = true) /\
  VerifyEnvelopeSignature (K := K) None raw (Some env) at_ <> None.
Proof.
  intros Hok. cbn zeta. split; [|done]. unfold VerifyEnvelopeSignature.
  destruct (String.eqb_spec (sig_Value (env_Signature env)) "") as [|Hv];
    [split; [done | by intros [? _]]|].
  destruct (String.eqb_spec (sig_KeyID (env_Signature env)) "") as [|Hid];
    [split; [done | by intros (_ & ? & _)]|]. cbn [orb].
  destruct (String.eqb_spec (sig_Algorithm (env_Signature env)) AlgorithmEd25519) as [Ha|];
    [|split; [done | by intros (_ & _ & ? & _)]]. cbn [negb].
  destruct (lookup_key _ _ _ _) as [[key|]|e] eqn:El;
    [|split; [done | by intros (_ & _ & _ & ? & ? & ? & ? & _)]..].
  destruct (lookup_bound _ _ _ _ _ Hok El) as (H1 & H2 & H3).
  destruct (KeyInForce key at_) eqn:Ef.
  { split; [done|]. intros (_ & _ & _ & key' & ? & ? & ? & ? & ? & _). congruence. }
  destruct (length (k_PublicKey key) =? PublicKeySize)%nat eqn:Es; b2p; cycle 1.
  { split; [done|]. intros (_ & _ & _ & key' & ? & ? & ? & ? & ? & ? & _). congruence. }
  cbn [negb]. destruct (DecodeString _) as [value|] eqn:Ed; cycle 1.
  { split; [done|]. intros (_ & _ & _ & key' & ? & ? & ? & ? & ? & ? & ? & _). congruence. }
  destruct (SignedBytes raw) as [canonical|] eqn:Ec; cycle 1.
  { split; [done|]. intros (_ & _ & _ & key' & ? & ? & ? & ? & ? & ? & ? & ? & _). congruence. }
  destruct (verify _ canonical value) eqn:Ev.
  - split; [|done]. intros _. split_and!; [done..|]. exists key, value, canonical.
    split_and!; congruence.
  - split; [done|]. intros (_ & _ & _ & key' & v & c & ? & ? & ? & ? & ? & ? & ?). congruence.
Qed.

Lemma remove_signature members d :
  Forall (fun m => fst m <> "signature") members ->
  remove "signature" (members ++ [("signature", d)]) = remove "signature" members.
Proof.
  intros H. unfold remove. rewrite List.filter_app. cbn. by rewrite app_nil_r.
Qed.

(** What an agent signs verifies: the signature made over a document, carried in
    that document's own signature member in any form, is accepted at every moment the
    agent's registered key is in force. *)
Theorem signed_envelope_verifies {CL : CryptoLaws} (keys : K) members d env at_ priv s key :
  Forall (fun m => fst m <> "signature") members ->
  SignEnvelope (DObject members) priv = Some s ->
  env_Signature env = mkSignature AlgorithmEd25519 (k_KeyID key) s -> k_KeyID key <> "" ->
  lookup_key keys (env_TenantID env) (ag_AgentID (env_Agent env)) (k_KeyID key) = Ok (Some key) ->
  k_PublicKey key = public priv -> length (k_PublicKey key) = PublicKeySize ->
  KeyInForce key at_ = None ->
  VerifyEnvelopeSignature (Some keys) (DObject (members ++ [("signature", d)])) (Some env) at_ = None.
Proof.
  intros Hm Hs Henv Hid Hl Hp Hlen Hf.
  unfold SignEnvelope, SignedBytes in Hs. cbn [CanonicalObject] in Hs.
  destruct (CanonicalizeObject _) as [canonical|] eqn:Ec; [|done]. injection Hs as <-.
  unfold VerifyEnvelopeSignature, SignedBytes. rewrite Henv.
  cbn [sig_Value sig_KeyID sig_Algorithm CanonicalObject].
  destruct (String.eqb_spec (EncodeToString (sign priv canonical)) "") as [E|_].
  { exfalso. revert E. apply EncodeToString_nonempty, sign_nonempty. }
  destruct (String.eqb_spec (k_KeyID key) ""); [done|]. rewrite String.eqb_refl. cbn [orb negb].
  rewrite Hl, Hf, Hlen, Nat.eqb_refl. cbn [negb].
  rewrite DecodeString_encode by apply sign_bytes. rewrite remove_signature, Ec by done.
  by rewrite Hp, verify_sign.
Qed.
End Signatures.

(** ** Both registries keep the binding *)

#[export] Instance memory_keys : KeySource Memory.MemoryKeys := {| lookup_key := Memory.AgentKeyOf |}.

(** The in-process registry joins the names with NUL bytes, so it keeps the binding
    for names that have none. *)
Definition memory_registry (m : Memory.MemoryKeys) : Prop :=
  forall n k, m !! n = Some k ->
    n = Memory.key (k_TenantID k) (k_AgentID k) (k_KeyID k) /\
    nul_free (k_TenantID k) = true /\ nul_free (k_AgentID k) = true.

Lemma memory_registry_add (m : Memory.MemoryKeys) k :
  memory_registry m -> nul_free (k_TenantID k) = true -> nul_free (k_AgentID k) = true ->
  memory_registry (Memory.Add m k).
Proof.
  intros H Ht Ha n k' Hk. unfold Memory.Add, Memory.MemoryKeys in *.
  destruct (decide (n = Memory.key (k_TenantID k) (k_AgentID k) (k_KeyID k))) as [->|Hne].
  - rewrite lookup_insert_eq in Hk. by injection Hk as <-.
  - rewrite lookup_insert_ne in Hk by done. by apply H.
Qed.

Lemma memory_lookup_bound (m : Memory.MemoryKeys) t a i k :
  memory_registry m -> nul_free t = true -> nul_free a = true ->
  Memory.AgentKeyOf m t a i = Ok (Some k) -> k_TenantID k = t /\ k_AgentID k = a /\ k_KeyID k = i.
Proof.
  intros Hm Ht Ha [= Hk]. destruct (Hm _ _ Hk) as (Heq & Hkt & Hka). unfold Memory.key in Heq.
  apply nul_join_inj in Heq as [-> Heq]; [|done..]. by apply nul_join_inj in Heq as [-> ->].
Qed.

#[export] Instance postgres_keys : KeySource Store.Tables := {|
  lookup_key db tenant agent key :=
    match Store.AgentKeyOf true db tenant agent key with
    | Ok k => Ok k
    | Err _ => Err "the registry could not be read"
    end
|}.

#[export] Instance postgres_keys_laws : KeyLaws Store.Tables.
Proof.
  refine {| registry_ok _ := True |}. intros db t a k key _. cbn [lookup_key postgres_keys].
  unfold Store.AgentKeyOf, Store.withTenant. destruct (String.eqb t ""); [done|]. cbn.
  intros [= H]. destruct (Store.agent_keys db !! (t, a, k)); [|done]. injection H as <-. done.
Defined.

(** ** The life of a registered key *)

Section KeyLife.
Context {HJ : Evidence.JSON}.
Import Store.

Inductive kop :=
| KRegister (f : TxFault) (k : AgentKey)
| KRegisterWithEvidence (f : TxFault) (dbnow : Time) (k : AgentKey) (e : Evidence.Event)
| KRevoke (f : TxFault) (tenant agent key by_ : string) (at_ : Time).

Definition kstep (db : Tables) (op : kop) : Tables :=
  match op with
  | KRegister f k => fst (Register f db k)
  | KRegisterWithEvidence f now k e => fst (RegisterWithEvidence f now db k e)
  | KRevoke f t a k by_ at_ => fst (Revoke f db t a k by_ at_)
  end.

(** What may still become of a row: nothing, or its revocation. *)
Definition row_succ (r r' : KeyRow) : Prop :=
  r' = r \/ (r_status r <> "REVOKED" /\ exists at_ by_, r' = revoke_row r at_ by_).

Definition rows_kept (m m' : gmap (string * string * string) KeyRow) : Prop :=
  forall n r, m !! n = Some r -> exists r', m' !! n = Some r' /\ row_succ r r'.

Lemma row_succ_trans r1 r2 r3 : row_succ r1 r2 -> row_succ r2 r3 -> row_succ r1 r3.
Proof.
  intros [->|(H1 & a1 & b1 & ->)] [->|(H2 & a2 & b2 & ->)]; unfold row_succ; eauto.
Qed.

Lemma rows_kept_refl m : rows_kept m m.
Proof. intros n r H. exists r. split; [done | by left]. Qed.

Lemma rows_kept_trans m1 m2 m3 : rows_kept m1 m2 -> rows_kept m2 m3 -> rows_kept m1 m3.
Proof.
  intros H12 H23 n r H. destruct (H12 n r H) as (r2 & H2 & S2).
  destruct (H23 n r2 H2) as (r3 & H3 & S3). exists r3. split; [done | by eapply row_succ_trans].
Qed.

Lemma insert_agent_key_ok db k db' b :
  insert_key db k = Ok (db', b) ->
  evidence db' = evidence db /\ rows_kept (agent_keys db) (agent_keys db') /\
  (b = true -> agent_keys db !! (k_TenantID k, k_AgentID k, k_KeyID k) = None /\
     exists r, agent_keys db' !! (k_TenantID k, k_AgentID k, k_KeyID k) = Some r /\
       r_public_key r = k_PublicKey k).
Proof.
  unfold insert_key. intros H.
  destruct (negb (String.eqb _ _)); [done|]. destruct (negb (contains _ _)); [done|].
  destruct (negb (Nat.eqb _ _)); [done|].
  destruct (agent_keys db !! _) eqn:E; injection H as <- <-; cbn.
  - split_and!; [done | apply rows_kept_refl | done].
  - split_and!; [done | | intros _; rewrite lookup_insert_eq; eauto].
    intros n r Hn. rewrite lookup_insert_ne by congruence. exists r. split; [done | by left].
Qed.

Lemma withTenant_body {A} f db t (fn : Tables -> Tables * result A StoreError) :
  fst (withTenant f db t fn) = db \/ fst (withTenant f db t fn) = fst (fn db).
Proof.
  unfold withTenant. destruct (String.eqb t ""); [by left|].
  destruct (transaction_state ErrDatabase f db fn) as [H|(a & _ & H)]; auto.
Qed.

Lemma kstep_kept db op : rows_kept (agent_keys db) (agent_keys (kstep db op)).
Proof.
  destruct op; cbn [kstep]; unfold Register, RegisterWithEvidence, Revoke;
    match goal with
    | |- rows_kept _ (agent_keys (fst (withTenant ?f ?db ?t ?fn))) =>
        destruct (withTenant_body f db t fn) as [H|H]; rewrite H; [apply rows_kept_refl|]
    end.
  - destruct (insert_key db k) as [[db' b]|] eqn:E; [|apply rows_kept_refl].
    by apply insert_agent_key_ok in E as (_ & Hk & _).
  - destruct (insert_key db k) as [[db' []]|] eqn:E; [| |apply rows_kept_refl];
      apply insert_agent_key_ok in E as (_ & Hk & _); [|done].
    destruct (Evidence.AppendInTx _ _ _ _); [done | apply rows_kept_refl].
  - destruct (agent_keys db !! (tenant, agent, key)) as [r|] eqn:E; [|apply rows_kept_refl].
    destruct (String.eqb_spec (r_status r) "REVOKED") as [|Hnr]; [apply rows_kept_refl|].
    intros n r0 Hn. cbn. destruct (decide (n = (tenant, agent, key))) as [->|Hne].
    + rewrite lookup_insert_eq. assert (r0 = r) as -> by congruence.
      exists (revoke_row r at_ by_). split; [done | right; eauto].
    + rewrite lookup_insert_ne by done. exists r0. split; [done | by left].
Qed.

Lemma run_kept ops db : rows_kept (agent_keys db) (agent_keys (run_ops kstep db ops)).
Proof.
  revert db. induction ops as [|op ops IH]; intros db; [apply rows_kept_refl|].
  eapply rows_kept_trans; [apply (kstep_kept db op) | apply IH].
Qed.

(** A key registered to an agent is registered for good.  Registering with evidence
    happens only under a fresh id and records its evidence in the same commit; whatever
    is registered or revoked afterwards, under any failures, the row keeps its
    algorithm, public key and validity; and once revoked it stays exactly as revoked
    and no envelope naming it is ever accepted again. *)
Theorem registered_key_is_forever {C : Crypto} f now db db' k e ops :
  RegisterWithEvidence f now db k e = (db', Ok true) ->
  let n := (k_TenantID k, k_AgentID k, k_KeyID k) in
  let later := run_ops kstep db' ops in
  agent_keys db !! n = None /\
  (exists ev, Evidence.AppendInTx (k_TenantID k) now (evidence db) e = Ok ev /\ evidence db' = ev) /\
  exists r, agent_keys later !! n = Some r /\ r_public_key r = k_PublicKey k /\
    (r_status r = "REVOKED" -> forall ops' at_ raw env,
       let db2 := run_ops kstep later ops' in
       agent_keys db2 !! n = Some r /\
       (env_TenantID env = k_TenantID k -> ag_AgentID (env_Agent env) = k_AgentID k ->
        sig_KeyID (env_Signature env) = k_KeyID k ->
        VerifyEnvelopeSignature (Some db2) raw (Some env) at_ <> None)).
Proof.
  unfold RegisterWithEvidence, withTenant.
  destruct (String.eqb_spec (k_TenantID k) "") as [|Ht]; [done|].
  intros H. apply transaction_ok in H as [_ H]. cbn zeta.
  destruct (insert_key db k) as [[db1 []]|] eqn:E; [|done|done].
  apply insert_agent_key_ok in E as (He & _ & Hb). destruct (Hb eq_refl) as (Hnone & r0 & Hr0 & Hpk).
  destruct (Evidence.AppendInTx _ _ _ _) as [ev|] eqn:Ev; [|done]. injection H as <-.
  rewrite He in Ev. split_and!; [done | by exists ev|].
  destruct (run_kept ops (mkTables (agent_keys db1) ev) _ r0 Hr0) as (r & Hr & Hs).
  exists r. split_and!; [done | |].
  { destruct Hs as [->|(_ & a & b & ->)]; done. }
  intros Hrev ops' at_ raw env.
  destruct (run_kept ops' _ _ _ Hr) as (r' & Hr' & [->|(Hn & _)]); [|done].
  split; [done|]. intros Et Ea Ek. unfold VerifyEnvelopeSignature. rewrite Et, Ea, Ek.
  destruct (_ || _); [done|]. destruct (negb _); [done|].
  cbn [lookup_key postgres_keys]. unfold AgentKeyOf, withTenant.
  destruct (String.eqb_spec (k_TenantID k) ""); [done|]. cbn [transaction snd fmap option_fmap option_map].
  rewrite Hr'. cbn [fmap option_fmap option_map].
  assert (Hf : KeyInForce (key_of (k_TenantID k, k_AgentID k, k_KeyID k) r) at_ <> None).
  { unfold KeyInForce, key_of. cbn. rewrite Hrev. destruct (r_revoked_at r) as [t|]; [|done].
    by destruct (negb (Before at_ t)). }
  by destruct (KeyInForce _ at_).
Qed.
End KeyLife.

(** * Witnesses *)

(** A parser of one URL, enough for the entries below. *)
Definition toy_parse (raw : string) : option URL :=
  match CutPrefix raw "spiffe://acme.example" with
  | Some path => Some (mkURL "spiffe" false "" "" "" "acme.example" path)
  | None => None
  end.

Definition workload_entries : string :=
  "spiffe://acme.example/ns/=tenant-1, spiffe://acme.example/ns/prod/=tenant-2,spiffe://acme.example/ns/prod/admin=tenant-3".

Definition workload_registry : Workloads :=
  mkWorkloads {[ "spiffe://acme.example/ns/prod/admin" := "tenant-3" ]}
    [("spiffe://acme.example/ns/prod/", "tenant-2"); ("spiffe://acme.example/ns/", "tenant-1")].

Definition momentum : SPIFFEID := mkSPIFFEID "acme.example" "/ns/prod/momentum".

Lemma workload_registry_parsed : ParseWorkloads toy_parse workload_entries = Ok workload_registry.
Proof. vm_compute. reflexivity. Qed.

Example TenantFor_most_specific_witness :
  TenantFor (Some workload_registry) momentum = Some "tenant-2" /\
  exists path, most_specific (ID_String momentum) (w_prefixes workload_registry) (path, "tenant-2").
Proof.
  split; [vm_compute; reflexivity|].
  apply (TenantFor_most_specific toy_parse workload_entries workload_registry momentum);
    [exact workload_registry_parsed | reflexivity | vm_compute; reflexivity | vm_compute; reflexivity].
Defined.

Definition long_token : string := "0123456789abcdef0123456789abcdef".
Definition credential_entries : list (string * string * string) :=
  [("svc_a", "tenant-1", long_token); ("issuer", "tenant-1", long_token +:+ "2")].

Example credentials_least_privilege_witness :
  exists c, ParseCredentials (Join ","%char (map entry_text credential_entries)) = Ok c /\
    Identify (Some (AllowIssuers "issuer, other" (AllowKeyRegistrars ""
                      (AllowActivationKeyRegistrars "" c)))) (long_token +:+ "2") =
      Some (mkCaller "issuer" "tenant-1" true false false).
Proof.
  destruct (credentials_least_privilege credential_entries "issuer, other" "" "") as (c & Hc & Hk);
    [done | | |].
  - repeat (constructor; [vm_compute; split_and!; (done || lia)|]). constructor.
  - apply (bool_decide_unpack (NoDup _)). vm_compute. exact I.
  - exists c. split; [exact Hc|]. apply Hk. exists "issuer", "tenant-1".
    split; [by right; left | vm_compute; reflexivity].
Defined.

Definition demo_credentials : Credentials :=
  {[ long_token := mkCaller "svc_a" "tenant-1" false false false ]}.

Definition any_chain (_ : unit) (_ : list Certificate) (_ : Certificate) (_ : Time) : option X509Error :=
  None.

Definition demo_leaf : Certificate :=
  mkCertificate [mkURL "spiffe" false "" "" "" "ACME.example" "/ns/prod/momentum"] 0 100 "2a".

Definition demo_verifier : Verifier := mkVerifier "acme.example" (Some ()) (Some workload_registry).

(** A verified workload, and a bearer token of another tenant that does not count. *)
Example tenant_is_established_witness :
  let p := FromTransport ("Bearer " +:+ long_token) [demo_leaf] (Some demo_credentials) in
  RequireTenant (Resolve any_chain demo_verifier 50 50 p) "tenant-2" = None /\
  ((exists vid, svid_verifies any_chain demo_verifier 50 p vid /\
      TenantFor (v_Workloads demo_verifier) (vi_ID vid) = Some "tenant-2" /\
      a_MayIssueAuthority (Resolve any_chain demo_verifier 50 50 p) = false /\
      a_MayRegisterKeys (Resolve any_chain demo_verifier 50 50 p) = false /\
      a_MayRegisterActivationKeys (Resolve any_chain demo_verifier 50 50 p) = false) \/
   ((forall vid, ~ svid_verifies any_chain demo_verifier 50 p vid) /\
    exists token k, bearer ("Bearer " +:+ long_token) token /\ demo_credentials !! token = Some k /\
      cr_TenantID k = "tenant-2" /\
      (a_APIIdentity (Resolve any_chain demo_verifier 50 50 p),
       a_MayIssueAuthority (Resolve any_chain demo_verifier 50 50 p),
       a_MayRegisterKeys (Resolve any_chain demo_verifier 50 50 p),
       a_MayRegisterActivationKeys (Resolve any_chain demo_verifier 50 50 p)) =
      (cr_Identity k, cr_MayIssueAuthority k, cr_MayRegisterKeys k, cr_MayRegisterActivationKeys k))).
Proof.
  cbv zeta. split; [vm_compute; reflexivity|].
  apply (tenant_is_established any_chain demo_verifier 50 50 ("Bearer " +:+ long_token) [demo_leaf]
           demo_credentials "tenant-2"). vm_compute. reflexivity.
Defined.

(** A key of agent "momentum", and an envelope it signed. *)
Definition demo_priv : nat := 7%nat.

Definition demo_key : AgentKey :=
  mkAgentKey "tenant-1" "momentum" "k1" AlgorithmEd25519 (repeat 7%nat 32) "ACTIVE" 10 1000 None.

Definition demo_registry : Store.Tables :=
  fst (Store.Register Fine Store.empty_tables demo_key).

Definition demo_members : list (string * Doc) :=
  [("envelope_id", DString "env-1"); ("tenant_id", DString "tenant-1")].

Definition demo_signature : string :=
  default "" (SignEnvelope (C := toy_crypto) (DObject demo_members) demo_priv).

Definition signed_env : Envelope :=
  let e := sample_envelope in
  mkEnvelope (env_SchemaVersion e) "env-1" (env_IdempotencyKey e) (env_CorrelationID e)
    (env_ReceivedAt e) "tenant-1" (env_Principal e)
    (mkAgent "momentum" "" (ag_Attestation (env_Agent e))) (env_RuntimeClaims e)
    (env_AuthorityGrantID e) (env_Dependencies e) (env_Intent e) (env_ParentIntentID e)
    (env_StrategyID e) (env_PortfolioSnapshotID e) (env_MarketSnapshotID e)
    (mkSignature AlgorithmEd25519 "k1" demo_signature).

Definition signed_doc : Doc :=
  DObject (demo_members ++ [("signature", DObject [("value", DString demo_signature)])]).

Example signed_envelope_verifies_witness :
  VerifyEnvelopeSignature (C := toy_crypto) (Some demo_registry) signed_doc (Some signed_env) 50 = None.
Proof.
  apply (signed_envelope_verifies (C := toy_crypto) (CL := toy_laws) demo_registry demo_members
           (DObject [("value", DString demo_signature)]) signed_env 50 demo_priv demo_signature demo_key).
  - repeat (constructor; [done|]). constructor.
  - vm_compute. reflexivity.
  - reflexivity.
  - done.
  - vm_compute. reflexivity.
  - reflexivity.
  - reflexivity.
  - vm_compute. reflexivity.
Defined.

Example signature_accepts_iff_witness :
  VerifyEnvelopeSignature (C := toy_crypto) (Some demo_registry) signed_doc (Some signed_env) 50 = None /\
  VerifyEnvelopeSignature (C := toy_crypto) (K := Store.Tables) None signed_doc (Some signed_env) 50 <> None.
Proof.
  destruct (signature_accepts_iff (C := toy_crypto) (HL := postgres_keys_laws) demo_registry signed_doc signed_env 50 I) as [Hiff Hnone].
  split; [|exact Hnone]. apply Hiff. split_and!; [vm_compute; discriminate | done | done |].
  exists demo_key, (default [] (DecodeString demo_signature)), (default [] (SignedBytes signed_doc)).
  split_and!; vm_compute; reflexivity.
Defined.

Definition key_event : Evidence.Event :=
  Evidence.mkEvent "0.1" "key-event-1" "agent.signing_key.registered.v1" "tenant-1" "momentum"
    "momentum" "" 20 20 "assurance-gateway" 1 "" None.

Definition key_registered : Store.Tables :=
  fst (Store.RegisterWithEvidence (HJ := Evidence.toy_json) Fine 20 Store.empty_tables demo_key key_event).

Definition key_history : list kop := [KRevoke Fine "tenant-1" "momentum" "k1" "operator" 60; KRegister Fine demo_key].

Example registered_key_is_forever_witness :
  exists r, Store.agent_keys (run_ops (kstep (HJ := Evidence.toy_json)) key_registered key_history)
              !! ("tenant-1", "momentum", "k1") = Some r /\
    Store.r_public_key r = k_PublicKey demo_key /\ Store.r_status r = "REVOKED" /\
    VerifyEnvelopeSignature (C := toy_crypto)
      (Some (run_ops (kstep (HJ := Evidence.toy_json))
               (run_ops (kstep (HJ := Evidence.toy_json)) key_registered key_history) key_history))
      signed_doc (Some signed_env) 70 <> None.
Proof.
  assert (H : Store.RegisterWithEvidence (HJ := Evidence.toy_json) Fine 20 Store.empty_tables demo_key
                key_event = (key_registered, Ok true)) by (vm_compute; reflexivity).
  destruct (registered_key_is_forever (C := toy_crypto) _ _ _ _ _ _ key_history H)
    as (_ & _ & r & Hr & Hp & Hrev).
  cbv [k_TenantID k_AgentID k_KeyID demo_key] in Hr.
  exists r. split_and!; [exact Hr | exact Hp | |].
  - assert (Hs : option_map Store.r_status (Store.agent_keys (run_ops (kstep (HJ := Evidence.toy_json))
               key_registered key_history) !! ("tenant-1", "momentum", "k1")) = Some "REVOKED")
      by (vm_compute; reflexivity).
    rewrite Hr in Hs. by injection Hs.
  - apply Hrev; try reflexivity.
    assert (Hs : option_map Store.r_status (Store.agent_keys (run_ops (kstep (HJ := Evidence.toy_json))
               key_registered key_history) !! ("tenant-1", "momentum", "k1")) = Some "REVOKED")
      by (vm_compute; reflexivity).
    rewrite Hr in Hs. by injection Hs.
Defined.
