(* ===== verification/ParentIntent.v ===== *)
(** Parent intents: internal/intent/parent.go and internal/gateway/parent.go.

    A set of envelopes is grouped by tenant, principal, account, instrument and side;
    a group is cut wherever two consecutive envelopes are further apart than a window;
    what is left of at least two envelopes is reported as one economic intent.  The
    RFC 3339 text of an instant is a parameter, and SHA-256 comes from [Crypto]. *)

From S2P Require Import Prelude Money Intent Authority Broker CanonicalJSON Crypto Strings.

Abbreviation Signal := string.
Definition SignalSameTenant : Signal := "SAME_TENANT".
Definition SignalSamePrincipal : Signal := "SAME_PRINCIPAL".
Definition SignalSameInstrument : Signal := "SAME_INSTRUMENT".
Definition SignalSameSide : Signal := "SAME_SIDE".
Definition SignalTemporalProximity : Signal := "TEMPORAL_PROXIMITY".
Definition SignalSameAgent : Signal := "SAME_AGENT".
Definition SignalSameStrategy : Signal := "SAME_STRATEGY".
Definition SignalSameGrant : Signal := "SAME_AUTHORITY_GRANT".
Definition SignalSameMarketContext : Signal := "SAME_MARKET_CONTEXT".

Definition consideredSignals : list Signal :=
  [SignalSameTenant; SignalSamePrincipal; SignalSameInstrument; SignalSameSide;
   SignalTemporalProximity; SignalSameAgent; SignalSameStrategy; SignalSameGrant;
   SignalSameMarketContext].

Record ParentIntent := mkParent {
  pi_ParentIntentID : string;
  pi_TenantID : string;
  pi_PrincipalID : string;
  pi_AccountID : string;
  pi_InstrumentID : string;
  pi_Side : Side;
  pi_ChildEnvelopeIDs : list string;
  pi_ChildCount : Z;
  pi_AgentIDs : list string;
  pi_AgentCount : Z;
  pi_GrossNotional : Amount;
  pi_NetNotional : Amount;
  pi_IndeterminateChildren : Z;
  pi_FirstSeen : Time;
  pi_LastSeen : Time;
  pi_TimeSpan : Duration;
  pi_Signals : list Signal;
  pi_Confidence : float64
}.

Record ClusterConfig := mkClusterConfig { cc_Window : Duration; cc_MinChildren : Z }.

Definition DefaultClusterConfig : ClusterConfig := mkClusterConfig (60 * Second) 2.

(** ** The grouping key *)

Record GroupKey := mkKey {
  gk_tenant : string;
  gk_principal : string;
  gk_account : string;
  gk_instrument : string;
  gk_side : Side
}.

#[global] Instance GroupKey_eq_dec : EqDecision GroupKey.
Proof. solve_decision. Defined.

Definition key_of (e : Envelope) : GroupKey :=
  mkKey (env_TenantID e) (pr_PrincipalID (env_Principal e)) (pr_AccountID (env_Principal e))
    (in_InstrumentID (env_Intent e)) (in_Side (env_Intent e)).

(** The fields compared one after the other. *)
Fixpoint lex_ltb (a b : list string) : bool :=
  match a, b with
  | x :: a', y :: b' => if negb (String.eqb x y) then str_ltb x y else lex_ltb a' b'
  | _, _ => false
  end.

Definition key_fields (k : GroupKey) : list string :=
  [gk_tenant k; gk_principal k; gk_account k; gk_instrument k; gk_side k].

Definition key_before (a b : GroupKey) : bool := lex_ltb (key_fields a) (key_fields b).

(** The order inside a group. *)
Definition seen_before (a b : Envelope) : bool :=
  if TimeEqual (env_ReceivedAt a) (env_ReceivedAt b) then
    str_ltb (env_EnvelopeID a) (env_EnvelopeID b)
  else Before (env_ReceivedAt a) (env_ReceivedAt b).

(** [current] is the cluster being built, in order, and [last] its last element. *)
Fixpoint split_from (current : list Envelope) (last : Envelope) (group : list Envelope)
    (window : Duration) : list (list Envelope) :=
  match group with
  | [] => [current]
  | e :: rest =>
      if window <? TimeSub (env_ReceivedAt e) (env_ReceivedAt last) then
        current :: split_from [e] e rest window
      else split_from (current ++ [e]) e rest window
  end.

Definition splitByGap (group : list Envelope) (window : Duration) : list (list Envelope) :=
  match group with
  | [] => []
  | e :: rest => split_from [e] e rest window
  end.

(** ** What one cluster says *)

Definition ClusterNotional (i : Intent) : Amount * bool :=
  match in_Notional i with
  | Some n => (n, true)
  | None =>
      match in_Quantity i with
      | None => (0, false)
      | Some q =>
          if String.eqb (in_OrderType i) OrderLimit ||
             String.eqb (in_OrderType i) OrderStopLimit then
            match in_LimitPrice i with
            | Some p =>
                let notional := NotionalOf p q in
                if (notional =? 0) && negb (p =? 0) && negb (q =? 0) then (0, false)
                else (notional, true)
            | None => (0, false)
            end
          else (0, false)
      end
  end.

Definition corroborating (agents strategies markets grants : Z) (span : Duration) : list Signal :=
  [SignalSameTenant; SignalSamePrincipal; SignalSameInstrument; SignalSameSide] ++
  (if span <=? cc_Window DefaultClusterConfig / 2 then [SignalTemporalProximity] else []) ++
  (if agents =? 1 then [SignalSameAgent] else []) ++
  (if strategies =? 1 then [SignalSameStrategy] else []) ++
  (if grants =? 1 then [SignalSameGrant] else []) ++
  (if markets =? 1 then [SignalSameMarketContext] else []).

Definition distinct (l : list string) : Z := Z.of_nat (length (remove_dups l)).

(** The totals of the loop over the children: gross, net, indeterminate. *)
Definition tally (acc : Amount * Amount * Z) (e : Envelope) : Amount * Amount * Z :=
  let '(gross, net, unknown) := acc in
  match ClusterNotional (env_Intent e) with
  | (n, true) =>
      (Amount_Add gross n,
       (if String.eqb (in_Side (env_Intent e)) SideSell then Amount_Sub net n
        else Amount_Add net n), unknown)
  | (_, false) => (gross, net, unknown + 1)
  end.

Section Reconstruction.
Context {C : Crypto} (rfc3339nano : Time -> string).

Definition parentID (p : ParentIntent) : string :=
  let text :=
    pi_TenantID p +:+ "|" +:+ pi_PrincipalID p +:+ "|" +:+ pi_AccountID p +:+ "|" +:+
    pi_InstrumentID p +:+ "|" +:+ pi_Side p +:+ "|" +:+ itoa (pi_ChildCount p) +:+ "|" +:+
    rfc3339nano (pi_FirstSeen p) +:+
    foldr (fun id s => "|" +:+ id +:+ s) "" (pi_ChildEnvelopeIDs p) in
  "pi_" +:+ str_of_bytes (take 24 (hex_encode (sha256 (bytes text)))).

Definition with_id (p : ParentIntent) (id : string) : ParentIntent :=
  mkParent id (pi_TenantID p) (pi_PrincipalID p) (pi_AccountID p) (pi_InstrumentID p) (pi_Side p)
    (pi_ChildEnvelopeIDs p) (pi_ChildCount p) (pi_AgentIDs p) (pi_AgentCount p)
    (pi_GrossNotional p) (pi_NetNotional p) (pi_IndeterminateChildren p) (pi_FirstSeen p)
    (pi_LastSeen p) (pi_TimeSpan p) (pi_Signals p) (pi_Confidence p).

(** The cluster is [first :: rest]. *)
Definition summarize (first : Envelope) (rest : list Envelope) : ParentIntent :=
  let cluster := first :: rest in
  let last_ := List.last cluster first in
  let span := TimeSub (env_ReceivedAt last_) (env_ReceivedAt first) in
  let agents := map (fun e => ag_AgentID (env_Agent e)) cluster in
  let strategies := distinct (map env_StrategyID cluster) in
  let grants := distinct (map env_AuthorityGrantID cluster) in
  let markets := distinct (map env_MarketSnapshotID cluster) in
  let '(gross, net, unknown) := foldl tally (0, 0, 0) cluster in
  let signals := corroborating (distinct agents) strategies markets grants span in
  let p := mkParent "" (env_TenantID first) (pr_PrincipalID (env_Principal first))
    (pr_AccountID (env_Principal first)) (in_InstrumentID (env_Intent first))
    (in_Side (env_Intent first)) (map env_EnvelopeID cluster) (Z.of_nat (length cluster))
    (sort_strings (remove_dups agents)) (distinct agents) gross net unknown
    (env_ReceivedAt first) (env_ReceivedAt last_) span signals
    (f64_div (f64_of_Z (Z.of_nat (length signals)))
       (f64_of_Z (Z.of_nat (length consideredSignals)))) in
  with_id p (parentID p).

(** The clusters of a list of envelopes, in the order they are reported. *)
Definition group (envelopes : list Envelope) (k : GroupKey) : list Envelope :=
  stable_sort seen_before (List.filter (fun e => bool_decide (key_of e = k)) envelopes).

Definition keys (envelopes : list Envelope) : list GroupKey :=
  stable_sort key_before (remove_dups (map key_of envelopes)).

Definition clusters (envelopes : list Envelope) (window : Duration) : list (list Envelope) :=
  concat (map (fun k => splitByGap (group envelopes k) window) (keys envelopes)).

(** [None] is a nil envelope, which is skipped. *)
Definition Reconstruct (envelopes : list (option Envelope)) (cfg : ClusterConfig)
    : list ParentIntent :=
  let window := if cc_Window cfg <=? 0 then cc_Window DefaultClusterConfig else cc_Window cfg in
  let minimum := if cc_MinChildren cfg <? 2 then cc_MinChildren DefaultClusterConfig
                 else cc_MinChildren cfg in
  omap (fun cluster =>
          match cluster with
          | first :: rest =>
              if Z.of_nat (length cluster) <? minimum then None else Some (summarize first rest)
          | [] => None
          end)
       (clusters (omap id envelopes) window).

Definition Fragmented (p : ParentIntent) (perOrderLimit : Amount) : bool :=
  if (perOrderLimit <=? 0) || (pi_ChildCount p <? 2) then false
  else perOrderLimit <? pi_GrossNotional p.

Definition CrossAgent (p : ParentIntent) : bool := 1 <? pi_AgentCount p.

Definition ExposureComplete (p : ParentIntent) : bool := pi_IndeterminateChildren p =? 0.

(** ** The gateway's window of recent envelopes *)

Record ParentTracker := mkTracker {
  pt_Config : ClusterConfig;
  pt_Window : Duration;
  pt_MaxKeep : nat;
  pt_recent : gmap string (list Envelope)
}.

Definition NewParentTracker (cfg : ClusterConfig) : ParentTracker :=
  mkTracker cfg (10 * Minute) 500 ∅.

Definition prune (window : Duration) (envs : list Envelope) (now : Time) : list Envelope :=
  List.filter (fun e => After (env_ReceivedAt e) (TimeAdd now (- window))) envs.

Definition Observe (t : ParentTracker) (env : Envelope) : ParentTracker * option ParentIntent :=
  let kept := prune (pt_Window t) (default [] (pt_recent t !! env_TenantID env))
                (env_ReceivedAt env) ++ [env] in
  let kept := drop (length kept - pt_MaxKeep t) kept in
  (mkTracker (pt_Config t) (pt_Window t) (pt_MaxKeep t) (<[env_TenantID env := kept]> (pt_recent t)),
   List.find (fun p => contains (pi_ChildEnvelopeIDs p) (env_EnvelopeID env))
     (Reconstruct (map Some kept) (pt_Config t))).
End Reconstruction.

(** * What a reconstruction is *)

(** Consecutive envelopes no further apart than the window. *)
Definition close (window : Duration) (a b : Envelope) : Prop :=
  TimeSub (env_ReceivedAt b) (env_ReceivedAt a) <= window.

(** The end of one cluster and the beginning of the next, further apart. *)
Definition apart (window : Duration) (c1 c2 : list Envelope) : Prop :=
  exists pre a b post, c1 = pre ++ [a] /\ c2 = b :: post /\
    window < TimeSub (env_ReceivedAt b) (env_ReceivedAt a).

Lemma Sorted_snoc {A} (R : A -> A -> Prop) l a b :
  Sorted R (l ++ [a]) -> R a b -> Sorted R ((l ++ [a]) ++ [b]).
Proof.
  induction l as [|x l IH]; cbn [app]; intros H Hab.
  - repeat constructor. exact Hab.
  - inversion H as [|? ? Hs Hh]; subst. constructor; [by apply IH|].
    destruct l; cbn in *; inversion Hh; subst; by constructor.
Qed.

Lemma split_from_spec window rest pre last_ :
  Sorted (close window) (pre ++ [last_]) ->
  let r := split_from (pre ++ [last_]) last_ rest window in
  concat r = (pre ++ [last_]) ++ rest /\
  Forall (fun c => c <> [] /\ Sorted (close window) c) r /\
  Sorted (apart window) r /\
  exists post r', r = ((pre ++ [last_]) ++ post) :: r'.
Proof.
  revert pre last_. induction rest as [|e rest IH]; intros pre last_ Hs; cbn zeta.
  - cbn [split_from concat]. split_and!; [done | | by repeat constructor | by exists [], []; rewrite app_nil_r].
    constructor; [|done]. split; [by destruct pre | done].
  - cbn [split_from]. destruct (window <? _) eqn:E; b2p.
    + destruct (IH [] e) as (H1 & H2 & H3 & post & r' & H4); [by repeat constructor|].
      cbn [app] in *. cbn [concat]. rewrite H1. split_and!; [done | | | by eexists [], _; rewrite app_nil_r].
      * constructor; [|done]. split; [by destruct pre | done].
      * constructor; [done|]. rewrite H4. constructor. exists pre, last_, e, post. done.
    + destruct (IH (pre ++ [last_]) e) as (H1 & H2 & H3 & post & r' & H4).
      { by apply Sorted_snoc. }
      rewrite H1. split_and!; [by rewrite <- !app_assoc | done | done|].
      rewrite H4. exists ([e] ++ post), r'. by rewrite <- !app_assoc.
Qed.

Lemma splitByGap_spec window l :
  concat (splitByGap l window) = l /\
  Forall (fun c => c <> [] /\ Sorted (close window) c) (splitByGap l window) /\
  Sorted (apart window) (splitByGap l window).
Proof.
  destruct l as [|e rest]; [by repeat constructor|].
  destruct (split_from_spec window rest [] e) as (H1 & H2 & H3 & _); [by repeat constructor|].
  split_and!; done.
Qed.

Lemma group_perm l k : group l k ≡ₚ List.filter (fun e => bool_decide (key_of e = k)) l.
Proof. apply stable_sort_perm. Qed.

Lemma in_group l k e : e ∈ group l k <-> e ∈ l /\ key_of e = k.
Proof.
  rewrite group_perm, list_elem_of_In, filter_In, <- list_elem_of_In.
  by rewrite bool_decide_eq_true.
Qed.

Lemma concat_splits l window ks :
  concat (concat (map (fun k => splitByGap (group l k) window) ks)) =
  concat (map (group l) ks).
Proof.
  induction ks as [|k ks IH]; [done|]. cbn [map concat]. rewrite concat_app, IH.
  by rewrite (proj1 (splitByGap_spec window (group l k))).
Qed.

Lemma filter_split {A} (p : A -> bool) l :
  List.filter p l ++ List.filter (fun x => negb (p x)) l ≡ₚ l.
Proof.
  induction l as [|x l IH]; [done|]. cbn. destruct (p x); cbn; [by rewrite IH|].
  by rewrite <- Permutation_middle, IH.
Qed.

Lemma groups_cover l ks :
  NoDup ks -> (forall e, e ∈ l -> key_of e ∈ ks) -> concat (map (group l) ks) ≡ₚ l.
Proof.
  revert l. induction ks as [|k ks IH]; intros l Hnd Hall.
  - destruct l as [|e l]; [done|]. exfalso. by apply (not_elem_of_nil (key_of e)), Hall; left.
  - inversion Hnd as [|? ? Hk Hks]; subst. cbn [map concat].
    set (l' := List.filter (fun e => negb (bool_decide (key_of e = k))) l).
    assert (Hl' : forall e, e ∈ l' <-> e ∈ l /\ key_of e <> k).
    { intros e. unfold l'. rewrite list_elem_of_In, filter_In, <- list_elem_of_In, negb_true_iff.
      by rewrite bool_decide_eq_false. }
    assert (Hgroups : map (group l) ks = map (group l') ks).
    { apply map_ext_in. intros k' Hk'. unfold group. f_equal. unfold l'. clear - Hk Hk'.
      induction l as [|e l IHl]; [done|]. cbn.
      destruct (bool_decide_reflect (key_of e = k)) as [Ek|Ek]; cbn;
        destruct (bool_decide_reflect (key_of e = k')) as [Ek'|Ek']; rewrite <- ?IHl; try done.
      exfalso. apply Hk. rewrite <- Ek, Ek'. by apply list_elem_of_In. }
    assert (HIH : concat (map (group l') ks) ≡ₚ l').
    { apply IH; [done|]. intros e [He Hne]%Hl'. specialize (Hall e He).
      apply elem_of_cons in Hall as [|]; done. }
    rewrite Hgroups, HIH, group_perm. apply filter_split.
Qed.

Lemma keys_perm l : keys l ≡ₚ remove_dups (map key_of l).
Proof. apply stable_sort_perm. Qed.

Lemma keys_cover l e : e ∈ l -> key_of e ∈ keys l.
Proof.
  intros He. rewrite keys_perm, elem_of_remove_dups.
  apply list_elem_of_In, in_map. by apply list_elem_of_In.
Qed.

(** The reconstruction accounts for every envelope once.  The clusters of a set of
    envelopes are a partition of it; within one, all envelopes have the same tenant,
    principal, account, instrument and side, and consecutive ones are no further apart
    than the window; and the clusters of one group are maximal: the next begins further
    than the window after the previous one ends. *)
Theorem clusters_partition (l : list Envelope) (window : Duration) :
  concat (clusters l window) ≡ₚ l /\
  (forall c, c ∈ clusters l window -> c <> [] /\ Sorted (close window) c /\
     exists k, forall e, e ∈ c -> e ∈ l /\ key_of e = k) /\
  (forall k, Sorted (apart window) (splitByGap (group l k) window)).
Proof.
  split_and!.
  - unfold clusters. rewrite concat_splits. apply groups_cover.
    + rewrite keys_perm. apply NoDup_remove_dups.
    + apply keys_cover.
  - intros c Hc. unfold clusters in Hc. apply list_elem_of_In, in_concat in Hc as (cs & Hcs & Hc).
    apply in_map_iff in Hcs as (k & <- & _).
    destruct (splitByGap_spec window (group l k)) as (Hcat & Hall & _).
    rewrite List.Forall_forall in Hall. destruct (Hall c Hc) as [Hne Hs].
    split_and!; [done..|]. exists k. intros e He. apply in_group. rewrite <- Hcat.
    apply list_elem_of_In, in_concat. exists c. split; [done | by apply list_elem_of_In].
  - intros k. apply splitByGap_spec.
Qed.

(** ** The order of the input does not matter *)

Lemma lex_asym a b : lex_ltb a b = true -> lex_ltb b a = false.
Proof.
  revert b. induction a as [|x a IH]; intros [|y b]; cbn; try done.
  destruct (String.eqb_spec x y) as [->|Hne].
  - rewrite String.eqb_refl. cbn. apply IH.
  - destruct (String.eqb_spec y x); [congruence|]. cbn. apply str_ltb_asym.
Qed.

Lemma lex_trans n a b c :
  length a = n -> length b = n -> length c = n ->
  not_after lex_ltb a b -> not_after lex_ltb b c -> not_after lex_ltb a c.
Proof.
  unfold not_after. revert a b c.
  induction n as [|n IH]; intros [|x a] [|y b] [|z c]; cbn; intros Ha Hb Hc; try done.
  destruct (String.eqb_spec y x) as [E1|E1], (String.eqb_spec z y) as [E2|E2],
    (String.eqb_spec z x) as [E3|E3]; cbn; intros H1 H2; subst; try done.
  - apply (IH a b c); congruence.
  - exfalso. apply E1. by apply str_not_after_antisym.
  - by apply (str_not_after_trans x y z).
Qed.

Lemma lex_antisym n a b :
  length a = n -> length b = n ->
  not_after lex_ltb a b -> not_after lex_ltb b a -> a = b.
Proof.
  unfold not_after. revert a b. induction n as [|n IH]; intros [|x a] [|y b]; cbn; intros Ha Hb; try done.
  destruct (String.eqb_spec y x) as [->|Hyx].
  - rewrite String.eqb_refl. cbn. intros H1 H2. f_equal. apply IH; congruence.
  - destruct (String.eqb_spec x y); [congruence|]. cbn. intros H1 H2. exfalso. apply Hyx.
    by apply str_not_after_antisym.
Qed.

Lemma keys_order_free l l' : l ≡ₚ l' -> keys l = keys l'.
Proof.
  intros HP. unfold keys. apply stable_sort_unique.
  - intros x y. apply lex_asym.
  - intros x y z. by apply (lex_trans 5).
  - intros [] [] _ _ H1 H2. apply (lex_antisym 5) in H1; [|done..]. by injection H1 as -> -> -> -> ->.
  - apply NoDup_Permutation; [apply NoDup_remove_dups..|]. intros k.
    rewrite !elem_of_remove_dups. by rewrite HP.
Qed.

Lemma seen_asym a b : seen_before a b = true -> seen_before b a = false.
Proof.
  unfold seen_before, TimeEqual, Before.
  destruct (Z.eqb_spec (env_ReceivedAt a) (env_ReceivedAt b)) as [E|E].
  - rewrite E, Z.eqb_refl. apply str_ltb_asym.
  - destruct (Z.eqb_spec (env_ReceivedAt b) (env_ReceivedAt a)); [lia|].
    rewrite Z.ltb_lt, Z.ltb_ge. lia.
Qed.

Lemma seen_trans a b c :
  not_after seen_before a b -> not_after seen_before b c -> not_after seen_before a c.
Proof.
  unfold not_after, seen_before, TimeEqual, Before.
  destruct (Z.eqb_spec (env_ReceivedAt b) (env_ReceivedAt a)) as [E1|E1],
    (Z.eqb_spec (env_ReceivedAt c) (env_ReceivedAt b)) as [E2|E2],
    (Z.eqb_spec (env_ReceivedAt c) (env_ReceivedAt a)) as [E3|E3]; rewrite ?Z.ltb_ge; try lia.
  apply str_not_after_trans.
Qed.

(** When and under which identity an envelope was received. *)
Definition arrival (e : Envelope) : Time * string := (env_ReceivedAt e, env_EnvelopeID e).

Lemma group_order_free l l' k :
  (forall x y, x ∈ l -> y ∈ l -> arrival x = arrival y -> x = y) -> l ≡ₚ l' ->
  group l k = group l' k.
Proof.
  intros Hinj HP. unfold group. apply stable_sort_unique; [apply seen_asym | apply seen_trans | |].
  - intros x y Hx Hy. rewrite list_elem_of_In, filter_In, <- list_elem_of_In in Hx, Hy.
    destruct Hx as [Hx _], Hy as [Hy _]. unfold not_after, seen_before, TimeEqual, Before.
    destruct (Z.eqb_spec (env_ReceivedAt y) (env_ReceivedAt x)) as [E|E].
    + rewrite E, Z.eqb_refl. intros H1 H2. apply Hinj; [done..|]. unfold arrival. rewrite E. f_equal.
      by apply str_not_after_antisym.
    + destruct (Z.eqb_spec (env_ReceivedAt x) (env_ReceivedAt y)); [lia|]. rewrite !Z.ltb_ge. lia.
  - clear Hinj. induction HP as [|x m m1 HP IH|x y m|m1 m2 m3 HP1 IH1 HP2 IH2]; cbn; [done | | |].
    + by destruct (bool_decide _); [constructor|].
    + destruct (bool_decide (key_of x = k)), (bool_decide (key_of y = k)); try done. constructor.
    + by etransitivity.
Qed.

(** A reconstruction depends on what was observed and not on the order it was
    observed in: for envelopes told apart by arrival time and id, any two orders of the
    same envelopes give the same parent intents, in the same order, with the same ids. *)
Theorem Reconstruct_order_free {C : Crypto} rfc3339nano (l l' : list Envelope) cfg :
  NoDup (map arrival l) -> l ≡ₚ l' ->
  Reconstruct rfc3339nano (map Some l) cfg = Reconstruct rfc3339nano (map Some l') cfg.
Proof.
  intros Hnd HP. unfold Reconstruct.
  assert (Hid : forall m : list Envelope, omap id (map Some m) = m).
  { intros m. induction m as [|e m IH]; [done|]. cbn. by f_equal. }
  rewrite !Hid. f_equal. unfold clusters. rewrite (keys_order_free l l') by done. f_equal.
  apply map_ext. intros k. f_equal. apply group_order_free; [|done].
  intros x y Hx Hy. by apply (nodup_map_eq arrival l).
Qed.

(** * Exposure *)

(** The size of a child is what authority and policy take it to be. *)
Lemma ClusterNotional_authority i : ClusterNotional i = EffectiveNotional i.
Proof. reflexivity. Qed.

Definition exposure (e : Envelope) : Z :=
  if snd (EffectiveNotional (env_Intent e)) then fst (EffectiveNotional (env_Intent e)) else 0.

Definition total_exposure (l : list Envelope) : Z := foldr (fun e z => exposure e + z) 0 l.

Definition indeterminate (l : list Envelope) : nat :=
  length (List.filter (fun e => negb (snd (EffectiveNotional (env_Intent e)))) l).

Lemma tally_spec l gross net unknown :
  in_int64 gross ->
  exists net', foldl tally (gross, net, unknown) l =
    (wrap64 (gross + total_exposure l), net', unknown + Z.of_nat (indeterminate l)).
Proof.
  revert gross net unknown. induction l as [|e l IH]; intros gross net unknown Hg; cbn [foldl].
  - exists net. unfold total_exposure, indeterminate. cbn. by rewrite !Z.add_0_r, wrap64_id.
  - unfold tally at 2. rewrite ClusterNotional_authority.
    assert (Hx : exposure e = if snd (EffectiveNotional (env_Intent e))
                              then fst (EffectiveNotional (env_Intent e)) else 0) by done.
    unfold indeterminate in *. unfold total_exposure in *. cbn [foldr List.filter].
    destruct (EffectiveNotional (env_Intent e)) as [n []]; cbn [snd fst negb] in *.
    + destruct (IH (Amount_Add gross n)
        (if String.eqb (in_Side (env_Intent e)) SideSell then Amount_Sub net n else Amount_Add net n)
        unknown) as [net' H].
      { apply wrap64_range. }
      exists net'. rewrite H. do 2 f_equal. rewrite Hx. unfold Amount_Add, add64.
      rewrite wrap64_add. f_equal. lia.
    + destruct (IH gross net (unknown + 1)) as [net' H]; [done|].
      exists net'. rewrite H, Hx. cbn [length]. rewrite Z.add_0_l. apply (f_equal2 pair); [done | lia].
Qed.

(** A parent intent's exposure is exact while it fits: its gross notional is the sum
    of its children's determinable sizes, wrapped to 64 bits; every child of unknown
    size is counted, so the exposure is complete exactly when all are known; and while
    the sum fits, the intent is reported as fragmented exactly when at least two
    children together exceed the limit. *)
Theorem exposure_accounts {C : Crypto} rfc3339nano first rest :
  let cluster := first :: rest in
  let p := summarize rfc3339nano first rest in
  pi_GrossNotional p = wrap64 (total_exposure cluster) /\
  pi_IndeterminateChildren p = Z.of_nat (indeterminate cluster) /\
  (ExposureComplete p = true <->
   forall e, e ∈ cluster -> snd (EffectiveNotional (env_Intent e)) = true) /\
  (forall limit, in_int64 (total_exposure cluster) -> 0 < limit ->
     Fragmented p limit = true <-> rest <> [] /\ limit < total_exposure cluster).
Proof.
  cbn zeta. unfold summarize.
  destruct (tally_spec (first :: rest) 0 0 0) as [net' H]; [vm_compute; split; discriminate|].
  rewrite !Z.add_0_l in H. rewrite H. unfold ExposureComplete, Fragmented.
  cbn [with_id pi_GrossNotional pi_IndeterminateChildren pi_ChildCount].
  split_and!; [done..| |].
  - rewrite Z.eqb_eq. unfold indeterminate. split.
    + intros Hn e He. destruct (snd (EffectiveNotional (env_Intent e))) eqn:E; [done|].
      exfalso. assert (Hz : length (List.filter (fun e => negb (snd (EffectiveNotional (env_Intent e))))
        (first :: rest)) = 0%nat) by lia.
      apply nil_length_inv in Hz. apply (not_elem_of_nil e). rewrite <- Hz.
      apply list_elem_of_In, filter_In. split; [by apply list_elem_of_In | by rewrite E].
    + intros Hall. destruct (List.filter _ (first :: rest)) as [|e l] eqn:E; [done|].
      assert (He : In e (e :: l)) by by left. rewrite <- E in He. apply filter_In in He as [Hin Hb].
      rewrite Hall in Hb by by apply list_elem_of_In. done.
  - intros limit Hin Hl. rewrite wrap64_id by done. destruct (limit <=? 0) eqn:E; b2p; [lia|].
    cbn [orb]. destruct rest as [|e l].
    + split; [done | by intros []].
    + destruct (Z.of_nat (length (first :: e :: l)) <? 2) eqn:E2; b2p; [cbn in E2; lia|].
      rewrite Z.ltb_lt. split; [by split | by intros []].
Qed.

(** The tracker is bounded and honest about its window: observing an envelope keeps
    at most [MaxKeep] of its tenant's envelopes, all of them received inside the window
    or the observed one itself, leaves every other tenant alone, and reports only a
    parent intent that contains the observed envelope. *)
Theorem Observe_bounded {C : Crypto} rfc3339nano (t : ParentTracker) (env : Envelope) :
  let '(t', found) := Observe rfc3339nano t env in
  let kept := default [] (pt_recent t' !! env_TenantID env) in
  (length kept <= pt_MaxKeep t')%nat /\
  (forall e, e ∈ kept -> e = env \/
     (e ∈ default [] (pt_recent t !! env_TenantID env) /\
      env_ReceivedAt env - pt_Window t < env_ReceivedAt e)) /\
  (forall tenant, tenant <> env_TenantID env -> pt_recent t' !! tenant = pt_recent t !! tenant) /\
  (forall p, found = Some p -> env_EnvelopeID env ∈ pi_ChildEnvelopeIDs p).
Proof.
  unfold Observe. cbn [pt_recent pt_MaxKeep].
  set (kept := prune _ _ _ ++ [env]). cbn zeta. rewrite lookup_insert_eq.
  change (default [] (Some (drop (length kept - pt_MaxKeep t) kept)))
    with (drop (length kept - pt_MaxKeep t) kept). split_and!.
  - rewrite length_drop. lia.
  - intros e He. assert (Hk : e ∈ kept).
    { rewrite <- (take_drop (length kept - pt_MaxKeep t) kept). apply elem_of_app. by right. }
    unfold kept in Hk. apply elem_of_app in Hk as [Hk| ->%list_elem_of_singleton]; [right|by left].
    unfold prune in Hk. apply list_elem_of_In, filter_In in Hk as [Hk Ha].
    split; [by apply list_elem_of_In|]. unfold After, TimeAdd in Ha. b2p. lia.
  - intros tenant Hne. by rewrite lookup_insert_ne.
  - intros p Hp. apply List.find_some in Hp as [_ Hp]. by apply contains_spec.
Qed.

(** * Witnesses *)

Definition child (id : string) (at_ : Time) (notional : Amount) : Envelope :=
  let e := sample_envelope in
  mkEnvelope (env_SchemaVersion e) id (env_IdempotencyKey e) (env_CorrelationID e) at_
    (env_TenantID e) (env_Principal e) (env_Agent e) (env_RuntimeClaims e)
    (env_AuthorityGrantID e) (env_Dependencies e)
    (mkIntent AssetEquity "instr_acme" SideBuy OrderMarket (Some notional) None None None "DAY" false)
    (env_ParentIntentID e) (env_StrategyID e) (env_PortfolioSnapshotID e) (env_MarketSnapshotID e)
    (env_Signature e).

(** The gross notional is a Go int64: two orders of 500 trillion together read as a
    negative total, below every limit. *)
Theorem parent_gross_wraps {C : Crypto} rfc3339nano :
  let first := child "env-1" 0 (5 * 10 ^ 18) in
  let rest := [child "env-2" Second (5 * 10 ^ 18)] in
  let p := summarize rfc3339nano first rest in
  total_exposure (first :: rest) = 10 ^ 19 /\ pi_GrossNotional p < 0 /\
  (forall limit, Fragmented p limit = false).
Proof.
  cbn zeta.
  destruct (tally_spec [child "env-1" 0 (5 * 10 ^ 18); child "env-2" Second (5 * 10 ^ 18)] 0 0 0)
    as [net' H]; [vm_compute; split; discriminate|].
  unfold summarize, Fragmented. rewrite H. cbn [with_id pi_GrossNotional pi_ChildCount].
  assert (Hw : wrap64 (0 + total_exposure [child "env-1" 0 (5 * 10 ^ 18);
                 child "env-2" Second (5 * 10 ^ 18)]) = - 8446744073709551616) by (vm_compute; reflexivity).
  rewrite Hw. split_and!; [vm_compute; reflexivity | lia|].
  intros limit. destruct (limit <=? 0) eqn:E; [done|]. b2p. cbn [orb].
  destruct (Z.of_nat _ <? 2); [done|]. apply Z.ltb_ge. lia.
Qed.

Definition three_children : list Envelope :=
  [child "env-1" 0 10; child "env-2" Second 20; child "env-3" (90 * Second) 30].

Example Reconstruct_order_free_witness :
  Reconstruct (C := toy_crypto) fmt_d (map Some three_children) DefaultClusterConfig =
  Reconstruct (C := toy_crypto) fmt_d (map Some (rev three_children)) DefaultClusterConfig /\
  map pi_ChildEnvelopeIDs
    (Reconstruct (C := toy_crypto) fmt_d (map Some three_children) DefaultClusterConfig) =
    [["env-1"; "env-2"]].
Proof.
  split; [|vm_compute; reflexivity].
  apply (Reconstruct_order_free (C := toy_crypto)).
  - apply (bool_decide_unpack (NoDup _)). vm_compute. exact I.
  - apply Permutation_rev.
Defined.
