(* ===== verification/Fleet.v ===== *)
(** Fleet intelligence: internal/fleet cohort.go, measure.go, baseline.go, vector.go and
    shadow.go.

    The measurements are floating-point computations ([Float64]); the order in which Go
    ranges over a map is a parameter.  The market-data source, which the repository only
    declares, is a function ([MarketData] is an adapter for it).  The stored rows and the
    producer are in [FleetStore], the client of ClickHouse in [Clickhouse], the HTTP surface
    in [Reads]. *)

From Stdlib Require Import SpecFloat.
From S2P Require Import Prelude Strings Money Intent Broker Float64.
From S2P Require ParentIntent.

(** * Cohorts *)

Record Predicate := mkPredicate { Field : string; Value : string }.

#[global] Instance Predicate_eq_dec : EqDecision Predicate.
Proof. solve_decision. Defined.

Record Cohort := mkCohort { co_TenantID : string; co_Predicates : list Predicate }.

Definition FieldInstrument : string := "instrument_id".
Definition FieldSide : string := "side".
Definition FieldStrategy : string := "strategy_id".
Definition FieldModelFamily : string := "model_family".
Definition FieldFeed : string := "market_data_feed".
Definition FieldPrincipal : string := "principal_id".
Definition FieldAgent : string := "agent_id".
Definition FieldAssetClass : string := "asset_class".
Definition FieldAttestation : string := "attestation_level".

Definition knownFields : list string :=
  [FieldInstrument; FieldSide; FieldStrategy; FieldModelFamily; FieldFeed; FieldPrincipal;
   FieldAgent; FieldAssetClass; FieldAttestation].

Definition predicate_before (a b : Predicate) : bool :=
  if negb (String.eqb (Field a) (Field b)) then str_ltb (Field a) (Field b)
  else str_ltb (Value a) (Value b).

Definition first_refused (predicates : list Predicate) : option string :=
  match List.find (fun p => negb (contains knownFields (Field p)) || blank (Value p)) predicates with
  | None => None
  | Some p => Some (if negb (contains knownFields (Field p)) then "unknown cohort field" else "predicate has no value")
  end.

Definition NewCohort (tenantID : string) (predicates : list Predicate) : result Cohort string :=
  if String.eqb tenantID "" then Err "a cohort belongs to exactly one tenant"
  else if (length predicates =? 0)%nat then Err "a cohort with no predicates is every intent"
  else match first_refused predicates with
       | Some e => Err e
       | None => Ok (mkCohort tenantID (stable_sort predicate_before predicates))
       end.

Definition predicate_text (p : Predicate) : string := Field p +:+ "=" +:+ Value p.

(** [strings.Join]. *)
Fixpoint join_with (sep : string) (l : list string) : string :=
  match l with
  | [] => ""
  | [x] => x
  | x :: l' => x +:+ sep +:+ join_with sep l'
  end.

Definition Expression (c : Cohort) : string :=
  match co_Predicates c with
  | [] => "all"
  | l => join_with " AND " (map predicate_text l)
  end.

(** The replacer of spaces and equal signs. *)
Fixpoint replace_marks (s : string) : string :=
  match s with
  | "" => ""
  | String c s' =>
      String (if Ascii.eqb c " "%char then "_"%char else if Ascii.eqb c "="%char then "-"%char else c)
        (replace_marks s')
  end.

Definition CohortID (c : Cohort) : string := "cohort_" +:+ replace_marks (Expression c).

Definition DependencyMarketData : string := "MARKET_DATA".

Definition firstDependency (e : Envelope) (t : string) : string :=
  match List.find (fun d => String.eqb (dep_Type d) t) (env_Dependencies e) with
  | Some d => dep_ID d
  | None => ""
  end.

Definition fieldValue (e : Envelope) (field : string) : string :=
  if String.eqb field FieldInstrument then in_InstrumentID (env_Intent e)
  else if String.eqb field FieldSide then in_Side (env_Intent e)
  else if String.eqb field FieldStrategy then env_StrategyID e
  else if String.eqb field FieldModelFamily then cl_Value (rc_ModelFamily (env_RuntimeClaims e))
  else if String.eqb field FieldFeed then firstDependency e DependencyMarketData
  else if String.eqb field FieldPrincipal then pr_PrincipalID (env_Principal e)
  else if String.eqb field FieldAgent then ag_AgentID (env_Agent e)
  else if String.eqb field FieldAssetClass then in_AssetClass (env_Intent e)
  else if String.eqb field FieldAttestation then at_Level (ag_Attestation (env_Agent e))
  else "".

Definition Matches (c : Cohort) (e : option Envelope) : bool :=
  match e with
  | None => false
  | Some e =>
      String.eqb (env_TenantID e) (co_TenantID c) &&
      forallb (fun p => String.eqb (fieldValue e (Field p)) (Value p)) (co_Predicates c)
  end.

(** * Windows *)

Record Window := mkWindow { Start : Time; End_ : Time }.

Definition Contains (w : Window) (t : Time) : bool := negb (Before t (Start w)) && Before t (End_ w).
Definition WindowDuration (w : Window) : Duration := TimeSub (End_ w) (Start w).

(** The loop, at most [fuel] windows. *)
Fixpoint windows_from (fuel : nat) (start to : Time) (size : Duration) : list Window :=
  match fuel with
  | O => []
  | S fuel =>
      if Before start to then
        let e := TimeAdd start size in
        mkWindow start (if After e to then to else e) :: windows_from fuel (TimeAdd start size) to size
      else []
  end.

Definition RollingWindows (from to : Time) (size : Duration) : list Window :=
  if (size <=? 0) || negb (Before from to) then []
  else windows_from (Z.to_nat ((to - from) / size + 1)) from to size.

(** * Measurement *)

Record Coverage := mkCoverage {
  cv_Observed : float64; cv_Verified : float64; cv_Declared : float64; cv_Unknown : float64
}.
Definition no_coverage : Coverage := mkCoverage f64_zero f64_zero f64_zero f64_zero.

Record Measurement := mkMeasurement {
  ms_TenantID : string;
  ms_Cohort : Cohort;
  ms_Window : Window;
  ms_IntentCount : Z;
  ms_AgentCount : Z;
  ms_AuthorizedIntents : Z;
  ms_RefusedIntents : Z;
  ms_GrossNotional : float64;
  ms_NetNotional : float64;
  ms_IndeterminateIntents : Z;
  ms_DirectionalImbalance : float64;
  ms_ModelCoverage : float64;
  ms_FeedCoverage : Coverage
}.

Record Observed := mkObserved { ob_Envelope : option Envelope; ob_Authorized : bool }.

(** What the loop over the observed intents accumulates: the four feed counters are
    total, verified, declared and unknown. *)
Record Tally := mkTally {
  ta_intents : Z; ta_authorized : Z; ta_refused : Z; ta_agents : list string;
  ta_models : Z; ta_feeds : Z * Z * Z * Z; ta_indeterminate : Z;
  ta_gross : float64; ta_net : float64; ta_signed : float64; ta_abs : float64
}.

Definition no_tally : Tally := mkTally 0 0 0 [] 0 (0, 0, 0, 0) 0 f64_zero f64_zero f64_zero f64_zero.

Definition countFeeds (e : Envelope) (n : Z * Z * Z * Z) : Z * Z * Z * Z :=
  let '(total, verified, declared, unknown) := n in
  match List.find (fun d => String.eqb (dep_Type d) DependencyMarketData) (env_Dependencies e) with
  | Some d =>
      if String.eqb (dep_Verification d) VerificationVerified then (total + 1, verified + 1, declared, unknown)
      else if String.eqb (dep_Verification d) VerificationDeclared then (total + 1, verified, declared + 1, unknown)
      else (total + 1, verified, declared, unknown + 1)
  | None => (total, verified, declared, unknown + 1)
  end.

(** One intent of the cohort and window. *)
Definition count_intent (t : Tally) (e : Envelope) (authorized : bool) : Tally :=
  let models := if str_nonempty (cl_Value (rc_ModelFamily (env_RuntimeClaims e))) then ta_models t + 1
                else ta_models t in
  let a := if authorized then ta_authorized t + 1 else ta_authorized t in
  let r := if authorized then ta_refused t else ta_refused t + 1 in
  let agents := ag_AgentID (env_Agent e) :: ta_agents t in
  let feeds := countFeeds e (ta_feeds t) in
  match ParentIntent.ClusterNotional (env_Intent e) with
  | (_, false) =>
      mkTally (ta_intents t + 1) a r agents models feeds (ta_indeterminate t + 1) (ta_gross t) (ta_net t)
        (ta_signed t) (ta_abs t)
  | (notional, true) =>
      let sign := if String.eqb (in_Side (env_Intent e)) SideSell then f64_of_Z (-1) else f64_of_Z 1 in
      let value := Amount_Float notional in
      mkTally (ta_intents t + 1) a r agents models feeds (ta_indeterminate t) (f64_add (ta_gross t) value)
        (f64_add (ta_net t) (f64_mul sign value)) (f64_add (ta_signed t) (f64_mul sign value))
        (f64_add (ta_abs t) value)
  end.

Definition selected (c : Cohort) (w : Window) (o : Observed) : bool :=
  match ob_Envelope o with
  | Some e => Matches c (Some e) && Contains w (env_ReceivedAt e)
  | None => false
  end.

Definition count_observed (c : Cohort) (w : Window) (t : Tally) (o : Observed) : Tally :=
  match ob_Envelope o with
  | Some e => if selected c w o then count_intent t e (ob_Authorized o) else t
  | None => t
  end.

Definition MeasureObserved (c : Cohort) (w : Window) (observed : list Observed) : Measurement :=
  let t := foldl (count_observed c w) no_tally observed in
  let '(total, verified, declared, unknown) := ta_feeds t in
  let over (n : Z) := if 0 <? ta_intents t then f64_ratio n (ta_intents t) else f64_zero in
  mkMeasurement (co_TenantID c) c w (ta_intents t) (Z.of_nat (length (remove_dups (ta_agents t))))
    (ta_authorized t) (ta_refused t) (ta_gross t) (ta_net t) (ta_indeterminate t)
    (if f64_ltb f64_zero (ta_abs t) then f64_div (f64_abs (ta_signed t)) (ta_abs t) else f64_zero)
    (over (ta_models t))
    (mkCoverage (over total) (over verified) (over declared) (over unknown)).

Definition Measure (c : Cohort) (w : Window) (envelopes : list (option Envelope)) : Measurement :=
  MeasureObserved c w (map (fun e => mkObserved e true) envelopes).

(** ** Concentration

    [counts] comes in the order Go ranges over the map of counts. *)

Definition HHI (counts : list Z) (population : Z) : float64 * float64 :=
  if population <=? 0 then (f64_zero, f64_zero) else
  let observed := foldr Z.add 0 counts in
  if observed =? 0 then (f64_zero, f64_zero) else
  (foldl (fun index n => let share := f64_ratio n observed in f64_add index (f64_mul share share)) f64_zero counts,
   f64_ratio observed population).

Definition count_value (m : gmap string Z) (v : string) : gmap string Z :=
  if str_nonempty v then <[v := default 0 (m !! v) + 1]> m else m.

Section Concentration.
(** The order in which a map's values are ranged over. *)
Context (range : gmap string Z -> list Z).

Definition concentration_of (value : Envelope -> string) (envelopes : list (option Envelope))
    : float64 * float64 :=
  let present := omap id envelopes in
  HHI (range (foldl (fun m e => count_value m (value e)) ∅ present)) (Z.of_nat (length present)).

Definition ModelConcentration := concentration_of (fun e => cl_Value (rc_ModelFamily (env_RuntimeClaims e))).
Definition FeedConcentration := concentration_of (fun e => firstDependency e DependencyMarketData).
Definition strategyConcentration := concentration_of env_StrategyID.
End Concentration.

(** * Baselines *)

Definition median_of_sorted (sorted : list float64) : float64 :=
  let mid := (length sorted / 2)%nat in
  if (length sorted mod 2 =? 1)%nat then nth mid sorted f64_zero
  else f64_div (f64_add (nth (mid - 1) sorted f64_zero) (nth mid sorted f64_zero)) (f64_of_Z 2).

Definition Median (values : list float64) : float64 :=
  match values with
  | [] => f64_zero
  | _ => median_of_sorted (stable_sort f64_before values)
  end.

Definition MAD (values : list float64) : float64 :=
  match values with
  | [] => f64_zero
  | _ => let m := Median values in Median (map (fun v => f64_abs (f64_sub v m)) values)
  end.

Definition madToSigma : float64 := f64_lit 14826 10000.

Definition minOf (x : float64) (values : list float64) : float64 :=
  foldl (fun m v => if f64_ltb v m then v else m) x values.
Definition maxOf (x : float64) (values : list float64) : float64 :=
  foldl (fun m v => if f64_ltb m v then v else m) x values.

Definition Quantile (values : list float64) (p : float64) : float64 :=
  match values with
  | [] => f64_zero
  | x :: _ =>
      if f64_leb p f64_zero then minOf x values
      else if f64_leb (f64_of_Z 1) p then maxOf x values
      else
        let sorted := stable_sort f64_before values in
        let pos := f64_mul p (f64_of_Z (Z.of_nat (length sorted) - 1)) in
        let lower := floor_pos pos in
        let upper := ceil_pos pos in
        let at_ i := nth (Z.to_nat i) sorted f64_zero in
        if lower =? upper then at_ lower
        else
          let weight := f64_sub pos (f64_of_Z lower) in
          f64_add (f64_mul (at_ lower) (f64_sub (f64_of_Z 1) weight)) (f64_mul (at_ upper) weight)
  end.

Definition PercentileOf (values : list float64) (x : float64) : float64 :=
  match values with
  | [] => f64_zero
  | _ => f64_ratio (Z.of_nat (length (List.filter (fun v => f64_leb v x) values))) (Z.of_nat (length values))
  end.

Record EWMA := mkEWMA { ew_Alpha : float64; ew_value : float64; ew_ready : bool }.

Definition NewEWMA (alpha : float64) : EWMA :=
  mkEWMA (if f64_leb alpha f64_zero || f64_ltb (f64_of_Z 1) alpha then f64_lit 2 10 else alpha) f64_zero false.

Definition EWMA_Observe (e : EWMA) (x : float64) : EWMA :=
  if negb (ew_ready e) then mkEWMA (ew_Alpha e) x true
  else mkEWMA (ew_Alpha e)
         (f64_add (f64_mul (ew_Alpha e) x) (f64_mul (f64_sub (f64_of_Z 1) (ew_Alpha e)) (ew_value e))) true.

Definition EWMA_Value (e : EWMA) : float64 * bool := (ew_value e, ew_ready e).

Record Baseline := mkBaseline { bl_Observations : list float64; bl_MinObservations : Z }.

Definition NewBaseline : Baseline := mkBaseline [] 30.

Definition Baseline_Observe (b : Baseline) (ratePerSecond : float64) : Baseline :=
  mkBaseline (bl_Observations b ++ [ratePerSecond]) (bl_MinObservations b).

Record Deviation := mkDeviation {
  dv_Observed : float64;
  dv_BaselineMedian : float64;
  dv_MAD : float64;
  dv_RobustScore : float64;
  dv_Percentile : float64;
  dv_SampleSize : Z;
  dv_SufficientData : bool;
  dv_Explanation : string
}.

Definition ftoa (f : float64) : string :=
  let whole := f64_to_int f in
  let frac := f64_to_int (f64_mul (f64_abs (f64_sub f (f64_of_Z whole))) (f64_of_Z 100)) in
  fmt_d whole +:+ "." +:+ fmt_d frac.

Definition Compare (b : Baseline) (observed : float64) : Deviation :=
  let size := Z.of_nat (length (bl_Observations b)) in
  let sufficient := bl_MinObservations b <=? size in
  match bl_Observations b with
  | [] => mkDeviation observed f64_zero f64_zero f64_zero f64_zero size sufficient
            "no baseline observations; nothing to compare against"
  | _ =>
      let median := Median (bl_Observations b) in
      let mad := MAD (bl_Observations b) in
      let percentile := PercentileOf (bl_Observations b) observed in
      let '(score, explanation) :=
        if f64_ltb f64_zero mad then
          (f64_div (f64_sub observed median) (f64_mul madToSigma mad),
           "(observed - median) / (1.4826 * MAD), over " +:+ fmt_d size +:+ " observations")
        else if f64_eqb observed median then
          (f64_zero, "the baseline has no spread and the observation equals its median")
        else
          (f64_zero, "the baseline has zero spread, so no scaled deviation can be computed; the raw difference is "
                     +:+ ftoa (f64_sub observed median)) in
      mkDeviation observed median mad score percentile size sufficient
        (if sufficient then explanation
         else explanation +:+ "; sample of " +:+ fmt_d size +:+ " is below the " +:+
              fmt_d (bl_MinObservations b) +:+ " needed for confidence")
  end.

(** [time.Duration.Seconds]. *)
Definition Seconds (d : Duration) : float64 :=
  f64_add (f64_of_Z (Z.quot d Second)) (f64_div (f64_of_Z (Z.rem d Second)) (f64_of_Z Second)).

Definition RateOf (intentCount : Z) (w : Window) : float64 :=
  let seconds := Seconds (WindowDuration w) in
  if f64_leb seconds f64_zero then f64_zero else f64_div (f64_of_Z intentCount) seconds.

Definition SessionOf (t : Time) : string :=
  let h := (t mod Day) / Hour in
  if (13 <=? h) && (h <? 14) then "US_OPEN"
  else if (14 <=? h) && (h <? 20) then "US_REGULAR"
  else if (20 <=? h) && (h <? 21) then "US_CLOSE"
  else if (8 <=? h) && (h <? 13) then "US_PREMARKET"
  else "US_OVERNIGHT".

(** * The risk vector *)

Record Component := mkComponent {
  cp_Name : string;
  cp_Value : float64;
  cp_Known : bool;
  cp_Coverage : float64;
  cp_Explanation : string
}.

Definition not_measured (name explanation : string) : Component :=
  mkComponent name f64_zero false f64_zero explanation.

Record RiskVector := mkVector {
  rv_TenantID : string;
  rv_Cohort : Cohort;
  rv_Window : Window;
  rv_D : Component;
  rv_B : Component;
  rv_Cm : Component;
  rv_Cs : Component;
  rv_Cf : Component;
  rv_P : Component;
  rv_A : Component;
  rv_Q : Component;
  rv_Burst : Deviation
}.

Definition Components (r : RiskVector) : list Component :=
  [rv_D r; rv_B r; rv_Cm r; rv_Cs r; rv_Cf r; rv_P r; rv_A r; rv_Q r].

Definition KnownCount (r : RiskVector) : Z := Z.of_nat (length (List.filter cp_Known (Components r))).

Definition directional (m : Measurement) : Component :=
  let sized := ms_IntentCount m - ms_IndeterminateIntents m in
  if sized =? 0 then
    not_measured "D_directional_imbalance"
      "no intent in the window had a determinable notional, so no flow could be measured"
  else mkComponent "D_directional_imbalance" (ms_DirectionalImbalance m) true
         (f64_ratio sized (ms_IntentCount m))
         "|sum(side * notional)| / sum(notional); 0 is balanced, 1 is fully one-directional".

Definition burst (m : Measurement) (w : Window) (baseline : option Baseline) : Component * Deviation :=
  let observed := RateOf (ms_IntentCount m) w in
  match baseline with
  | None =>
      (not_measured "B_temporal_burst"
         "no baseline for this context; spec section 24 forbids a fixed global threshold, so no burst score is produced",
       mkDeviation observed f64_zero f64_zero f64_zero f64_zero 0 false "")
  | Some baseline =>
      let d := Compare baseline observed in
      if negb (dv_SufficientData d) || f64_eqb (dv_MAD d) f64_zero then
        (not_measured "B_temporal_burst" (dv_Explanation d), d)
      else (mkComponent "B_temporal_burst" (dv_RobustScore d) true (f64_of_Z 1) (dv_Explanation d), d)
  end.

Definition concentration (name : string) (index coverage : float64) : Component :=
  if f64_eqb coverage f64_zero then
    not_measured name
      "nothing was declared, so there is no concentration to measure; this is zero coverage, not zero concentration"
  else mkComponent name index true coverage
         "Herfindahl-Hirschman index over declared values; unknowns are excluded from the index and reflected in coverage".

(** The market-data source: traded notional, or nothing. *)
Abbreviation MarketData := (option (string -> Window -> option float64)).

Definition participation (c : Cohort) (w : Window) (m : Measurement) (md : MarketData) : Component :=
  let name := "P_market_participation" in
  match md with
  | None =>
      not_measured name
        "no market data source is configured; participation is UNKNOWN and is never estimated from our own flow (ADR-019)"
  | Some volume_of =>
      let instrument :=
        foldl (fun i p => if String.eqb (Field p) FieldInstrument then Value p else i) "" (co_Predicates c) in
      if String.eqb instrument "" then
        not_measured name "the cohort is not scoped to one instrument, so participation has no denominator"
      else match volume_of instrument w with
           | Some volume =>
               if f64_leb volume f64_zero then
                 not_measured name "the market data source has no volume for this instrument and window"
               else mkComponent name (f64_div (ms_GrossNotional m) volume) true (f64_of_Z 1)
                      "cohort gross notional / venue traded notional in the same window"
           | None => not_measured name "the market data source has no volume for this instrument and window"
           end
  end.

Definition abnormalConsensus (d : Component) (burst : Deviation) : Component :=
  let name := "A_abnormal_consensus" in
  if negb (cp_Known d) then
    not_measured name "directional imbalance is unknown, so consensus cannot be assessed"
  else if negb (dv_SufficientData burst) || f64_eqb (dv_MAD burst) f64_zero then
    not_measured name
      "consensus was observed but there is no baseline to say whether it is expected here; high agreement during a real event is ordinary (scenario S12)"
  else
    let expected := f64_min (f64_of_Z 1) (f64_max f64_zero (f64_div (dv_RobustScore burst) (f64_of_Z 10))) in
    mkComponent name (f64_max f64_zero (f64_sub (cp_Value d) expected)) true (cp_Coverage d)
      "observed directional imbalance minus the agreement the burst level already explains; agreement during a real event is expected, not abnormal".

Definition quality (m : Measurement) (measurable : list Component) : Component :=
  let known := Z.of_nat (length (List.filter cp_Known measurable)) in
  let sized := ms_IntentCount m - ms_IndeterminateIntents m in
  mkComponent "Q_quality" (f64_ratio known (Z.of_nat (length measurable))) true
    (if 0 <? ms_IntentCount m then f64_ratio sized (ms_IntentCount m) else f64_zero)
    (fmt_d known +:+ " of " +:+ fmt_d (Z.of_nat (length measurable)) +:+ " components measured; " +:+
     fmt_d sized +:+ " of " +:+ fmt_d (ms_IntentCount m) +:+ " intents had a determinable notional").

Section Vector.
Context (range : gmap string Z -> list Z).

Definition ComputeVector (c : Cohort) (w : Window) (envelopes : list (option Envelope))
    (baseline : option Baseline) (md : MarketData) : RiskVector :=
  let inWindow := List.filter (fun e => selected c w (mkObserved e true)) envelopes in
  let m := Measure c w envelopes in
  let d := directional m in
  let '(b, deviation) := burst m w baseline in
  let '(modelIndex, modelCoverage) := ModelConcentration range inWindow in
  let cm := concentration "Cm_model_concentration" modelIndex modelCoverage in
  let '(strategyIndex, strategyCoverage) := strategyConcentration range inWindow in
  let cs := concentration "Cs_strategy_concentration" strategyIndex strategyCoverage in
  let '(feedIndex, feedCoverage) := FeedConcentration range inWindow in
  let cf := concentration "Cf_feed_concentration" feedIndex feedCoverage in
  let p := participation c w m md in
  let a := abnormalConsensus d deviation in
  mkVector (co_TenantID c) c w d b cm cs cf p a (quality m [d; b; cm; cs; cf; p; a]) deviation.
End Vector.

(** * Shadow mode *)

Abbreviation ControlAction := string.
Definition shadowControls : list ControlAction := ["THROTTLE"; "REQUIRE_APPROVAL"; "ISOLATE_COHORT"; "READ_ONLY"].
Definition validControl (a : ControlAction) : bool := contains shadowControls a.

Record Recommendation := mkRecommendation {
  rm_RecommendationID : string;
  rm_TenantID : string;
  rm_CohortID : string;
  rm_CohortPredicate : string;
  rm_WouldHave : ControlAction;
  rm_Reason : string;
  rm_Window : Window;
  rm_GeneratedAt : Time
}.

Record Authorization := mkAuthorization {
  au_AuthorizedBy : string;
  au_PolicyBundleID : string;
  au_Reason : string;
  au_At : Time
}.

Definition NewAuthorization (authorizedBy policyBundleID reason : string) (at_ : Time)
    : result Authorization string :=
  if String.eqb authorizedBy "" then Err "an authorization with no author cannot be audited"
  else if String.eqb policyBundleID "" then Err "an authorization must name the customer policy that permits it"
  else if String.eqb reason "" then Err "an authorization with no reason cannot be reviewed later"
  else Ok (mkAuthorization authorizedBy policyBundleID reason at_).

Record FleetControl := mkFleetControl {
  fc_Recommendation : Recommendation;
  fc_Authorization : Authorization;
  fc_AppliedAt : Time
}.

Definition Authorize (r : Recommendation) (a : Authorization) (at_ : Time) : result FleetControl string :=
  if String.eqb (au_AuthorizedBy a) "" || String.eqb (au_PolicyBundleID a) "" then
    Err "a fleet control requires a customer authorization"
  else if negb (validControl (rm_WouldHave r)) then Err "unknown control action"
  else Ok (mkFleetControl r a at_).

Abbreviation Verdict := string.
Definition VerdictUnreviewed : Verdict := "UNREVIEWED".
Definition VerdictHarmful : Verdict := "HARMFUL".
Definition VerdictBenign : Verdict := "BENIGN".

Record LedgerEntry := mkLedgerEntry {
  le_Recommendation : Recommendation;
  le_Verdict : Verdict;
  le_ReviewedBy : string;
  le_ReviewedAt : Time;
  le_Control : option FleetControl
}.

Abbreviation ShadowLedger := (list LedgerEntry).

Definition Record_ (l : ShadowLedger) (r : Recommendation) : ShadowLedger :=
  l ++ [mkLedgerEntry r VerdictUnreviewed "" 0 None].

(** The first entry of an identifier. *)
Fixpoint Apply (l : ShadowLedger) (recommendationID : string) (a : Authorization) (at_ : Time)
    : ShadowLedger * option string :=
  match l with
  | [] => ([], Some "no such recommendation in the ledger")
  | e :: rest =>
      if String.eqb (rm_RecommendationID (le_Recommendation e)) recommendationID then
        match Authorize (le_Recommendation e) a at_ with
        | Err er => (l, Some er)
        | Ok control =>
            (mkLedgerEntry (le_Recommendation e) (le_Verdict e) (le_ReviewedBy e) (le_ReviewedAt e)
               (Some control) :: rest, None)
        end
      else let '(rest, er) := Apply rest recommendationID a at_ in (e :: rest, er)
  end.

Fixpoint set_verdict (l : ShadowLedger) (recommendationID : string) (v : Verdict) (by_ : string)
    (at_ : Time) : ShadowLedger * option string :=
  match l with
  | [] => ([], Some "no such recommendation in the ledger")
  | e :: rest =>
      if String.eqb (rm_RecommendationID (le_Recommendation e)) recommendationID then
        (mkLedgerEntry (le_Recommendation e) v by_ at_ (le_Control e) :: rest, None)
      else let '(rest, er) := set_verdict rest recommendationID v by_ at_ in (e :: rest, er)
  end.

Definition Review (l : ShadowLedger) (recommendationID : string) (v : Verdict) (by_ : string)
    (at_ : Time) : ShadowLedger * option string :=
  if negb (String.eqb v VerdictHarmful) && negb (String.eqb v VerdictBenign) then
    (l, Some "a review must conclude HARMFUL or BENIGN")
  else if String.eqb by_ "" then (l, Some "an unattributed review cannot be weighed later")
  else set_verdict l recommendationID v by_ at_.

Definition Entries (l : ShadowLedger) : list LedgerEntry :=
  stable_sort (fun a b => Before (rm_GeneratedAt (le_Recommendation a)) (rm_GeneratedAt (le_Recommendation b))) l.

Record Report := mkReport {
  rp_Total : Z;
  rp_Reviewed : Z;
  rp_Harmful : Z;
  rp_Benign : Z;
  rp_Authorized : Z;
  rp_ByAction : gmap ControlAction Z;
  rp_Precision : float64;
  rp_FalsePositive : float64;
  rp_Known : bool;
  rp_ReviewCoverage : float64
}.

Definition count_if {A} (p : A -> bool) (l : list A) : Z := Z.of_nat (length (List.filter p l)).

Definition ReportOf (l : ShadowLedger) : Report :=
  let harmful := count_if (fun e => String.eqb (le_Verdict e) VerdictHarmful) l in
  let benign := count_if (fun e => String.eqb (le_Verdict e) VerdictBenign) l in
  let total := Z.of_nat (length l) in
  let reviewed := harmful + benign in
  mkReport total reviewed harmful benign (count_if (fun e => negb (isNil (le_Control e))) l)
    (foldl (fun m e => <[rm_WouldHave (le_Recommendation e) :=
                          default 0 (m !! rm_WouldHave (le_Recommendation e)) + 1]> m) ∅ l)
    (if 0 <? reviewed then f64_ratio harmful reviewed else f64_zero)
    (if 0 <? reviewed then f64_ratio benign reviewed else f64_zero)
    (0 <? reviewed)
    (if 0 <? total then f64_ratio reviewed total else f64_zero).

(** * Windows partition the range *)

Lemma count_if_cons {A} (p : A -> bool) x l : count_if p (x :: l) = (if p x then 1 else 0) + count_if p l.
Proof. unfold count_if. cbn. destruct (p x); cbn [length]; lia. Qed.

Lemma count_if_nil {A} (p : A -> bool) : count_if p [] = 0.
Proof. reflexivity. Qed.

Lemma count_if_nonneg {A} (p : A -> bool) l : 0 <= count_if p l.
Proof. unfold count_if. lia. Qed.

#[export] Hint Rewrite @count_if_cons : golib.

(** The membership tests of a window as inequalities. *)
Lemma Contains_iff w t : Contains w t = true <-> Start w <= t < End_ w.
Proof. unfold Contains, Before. rewrite andb_true_iff, negb_true_iff, Z.ltb_ge, Z.ltb_lt. done. Qed.

Definition within (from to t : Time) : Z := if Contains (mkWindow from to) t then 1 else 0.

Lemma within_split from mid to t : from <= mid <= to -> within from to t = within from mid t + within mid to t.
Proof.
  intros. unfold within, Contains, Before. cbn.
  destruct (Z.ltb_spec t from), (Z.ltb_spec t to), (Z.ltb_spec t mid); cbn; lia.
Qed.

Lemma within_empty from to t : to <= from -> within from to t = 0.
Proof. intros. unfold within, Contains, Before. cbn. destruct (Z.ltb_spec t from), (Z.ltb_spec t to); cbn; lia. Qed.

(** The loop covers what is left of the range, once there is fuel for it. *)
Lemma windows_from_count fuel start to size t :
  0 < size -> to - start <= Z.of_nat fuel * size ->
  count_if (fun w => Contains w t) (windows_from fuel start to size) = within start to t.
Proof.
  intros Hs. revert start. induction fuel as [|fuel IH]; intros start Hf; cbn [windows_from].
  - rewrite within_empty by lia. done.
  - unfold Before, After, TimeAdd. destruct (Z.ltb_spec start to) as [H|H].
    + rewrite count_if_cons, IH by lia.
      change (if Contains (mkWindow start ?e) t then 1 else 0) with (within start e t).
      destruct (Z.ltb_spec to (start + size)) as [H'|H'].
      * rewrite (within_empty (start + size) to) by lia. lia.
      * rewrite (within_split start (start + size) to) by lia. lia.
    + by rewrite within_empty by lia.
Qed.

Lemma RollingWindows_count from to size t :
  0 < size ->
  count_if (fun w => Contains w t) (RollingWindows from to size) = within from to t.
Proof.
  intros Hs. unfold RollingWindows, Before. destruct (Z.leb_spec size 0); [lia|]. cbn [orb].
  destruct (Z.ltb_spec from to) as [Hft|Hft]; cbn [negb].
  - apply windows_from_count; [done|].
    pose proof (Z.div_pos (to - from) size ltac:(lia) Hs).
    rewrite Z2Nat.id by lia. pose proof (Z.mul_succ_div_gt (to - from) size Hs). lia.
  - by rewrite within_empty by lia.
Qed.

(** * Cohorts *)

Lemma predicate_before_asym a b : predicate_before a b = true -> predicate_before b a = false.
Proof.
  unfold predicate_before. rewrite (String.eqb_sym (Field b)).
  destruct (String.eqb (Field a) (Field b)); cbn; apply str_ltb_asym.
Qed.

Lemma predicate_not_after_trans a b c :
  not_after predicate_before a b -> not_after predicate_before b c -> not_after predicate_before a c.
Proof.
  unfold not_after, predicate_before.
  destruct (String.eqb_spec (Field b) (Field a)) as [E1|N1], (String.eqb_spec (Field c) (Field b)) as [E2|N2]; cbn.
  - rewrite E2, E1, String.eqb_refl. cbn. apply str_not_after_trans.
  - rewrite <- E1. destruct (String.eqb_spec (Field c) (Field b)); [done|]. done.
  - rewrite E2. destruct (String.eqb_spec (Field b) (Field a)); [done|]. done.
  - intros H1 H2. pose proof (str_not_after_trans _ _ _ H1 H2) as H3. unfold not_after in H3.
    destruct (String.eqb_spec (Field c) (Field a)) as [E|N]; cbn; [|done].
    exfalso. apply N1. rewrite E in H2. apply (str_not_after_antisym _ _ H2 H1).
Qed.

Lemma predicate_not_after_antisym a b :
  not_after predicate_before a b -> not_after predicate_before b a -> a = b.
Proof.
  unfold not_after, predicate_before. rewrite (String.eqb_sym (Field b)).
  destruct a as [f v], b as [f' v']; cbn. destruct (String.eqb_spec f f') as [->|N]; cbn; intros H1 H2.
  - f_equal. by apply str_not_after_antisym.
  - destruct N. by apply str_not_after_antisym.
Qed.

Lemma sorted_predicates_perm l1 l2 :
  l1 ≡ₚ l2 -> stable_sort predicate_before l1 = stable_sort predicate_before l2.
Proof.
  intros HP. apply (sorted_perm_unique (not_after predicate_before)).
  - intros x y. apply predicate_not_after_antisym.
  - apply stable_sort_sorted; [apply predicate_before_asym | apply predicate_not_after_trans].
  - apply stable_sort_sorted; [apply predicate_before_asym | apply predicate_not_after_trans].
  - by rewrite !stable_sort_perm.
Qed.

Definition predicate_ok (p : Predicate) : bool := contains knownFields (Field p) && negb (blank (Value p)).

Lemma first_refused_none ps : first_refused ps = None <-> forallb predicate_ok ps = true.
Proof.
  unfold first_refused. induction ps as [|p ps IH]; [done|]. cbn. unfold predicate_ok at 1.
  destruct (contains knownFields (Field p)); cbn; [|done]. destruct (blank (Value p)); cbn; done.
Qed.

Lemma NewCohort_ok tenant ps c :
  NewCohort tenant ps = Ok c <->
  tenant <> "" /\ ps <> [] /\ forallb predicate_ok ps = true /\ c = mkCohort tenant (stable_sort predicate_before ps).
Proof.
  unfold NewCohort. rewrite <- first_refused_none.
  destruct (String.eqb_spec tenant ""); [split; [done | by intros (? & _)]|].
  destruct ps as [|p ps]; [split; [done | by intros (_ & ? & _)]|]. cbn [length Nat.eqb].
  destruct (first_refused (p :: ps)); split; try (by intros (_ & _ & ? & _)); try done; [naive_solver..].
Qed.

Lemma forallb_Permutation {A} (f : A -> bool) l1 l2 : l1 ≡ₚ l2 -> forallb f l1 = forallb f l2.
Proof.
  induction 1; cbn; [done | congruence | | congruence].
  destruct (f x), (f y); done.
Qed.

(** A cohort is its set of conditions: the order in which they are written changes
    neither its identity nor its members, and its members are exactly the intents of its
    tenant that satisfy every condition written. *)
Theorem cohort_is_its_predicates tenant ps qs c :
  ps ≡ₚ qs -> NewCohort tenant ps = Ok c ->
  NewCohort tenant qs = Ok c /\
  (forall e, Matches c (Some e) =
             String.eqb (env_TenantID e) tenant &&
             forallb (fun p => String.eqb (fieldValue e (Field p)) (Value p)) qs) /\
  Forall (fun p => Field p ∈ knownFields /\ blank (Value p) = false) (co_Predicates c).
Proof.
  intros HP (Ht & Hn & Hok & ->)%NewCohort_ok. split; [|split].
  - apply NewCohort_ok. repeat split; [done| | |].
    + intros ->. symmetry in HP. apply Permutation_nil_l in HP. done.
    + by rewrite <- (forallb_Permutation _ _ _ HP).
    + by rewrite (sorted_predicates_perm _ _ HP).
  - intros e. cbn. f_equal. apply forallb_Permutation. by rewrite stable_sort_perm.
  - cbn. rewrite Forall_forall. intros p Hp. rewrite stable_sort_perm in Hp.
    rewrite forallb_forall in Hok. specialize (Hok p (proj1 (list_elem_of_In _ _) Hp)).
    apply andb_true_iff in Hok as [H1 H2]. apply contains_spec in H1. by apply negb_true_iff in H2.
Qed.

(** Two cohorts that never share an intent can have one identifier: the identifier
    replaces spaces and equal signs, so a value that contains an underscore or a dash and
    one that contains what they replaced are the same text. *)
Definition spaced_cohort : Cohort := mkCohort "t1" [mkPredicate FieldStrategy "mean reversion"].
Definition underscored_cohort : Cohort := mkCohort "t1" [mkPredicate FieldStrategy "mean_reversion"].

Theorem cohort_ids_collide :
  NewCohort "t1" (co_Predicates spaced_cohort) = Ok spaced_cohort /\
  NewCohort "t1" (co_Predicates underscored_cohort) = Ok underscored_cohort /\
  CohortID spaced_cohort = CohortID underscored_cohort /\
  (forall e, Matches spaced_cohort e && Matches underscored_cohort e = false).
Proof.
  repeat split; try (vm_compute; reflexivity).
  intros [e|]; [|done]. cbn. destruct (String.eqb (env_TenantID e) "t1"); cbn; [|done].
  unfold fieldValue, FieldStrategy. cbn.
  destruct (String.eqb_spec (env_StrategyID e) "mean reversion") as [->|]; done.
Qed.

(** * What a measurement counts *)

Definition tally (c : Cohort) (w : Window) (l : list Observed) : Tally := foldl (count_observed c w) no_tally l.

Definition feeds_sum (n : Z * Z * Z * Z) : Z := let '(_, v, d, u) := n in v + d + u.
Definition feeds_ok (n : Z * Z * Z * Z) : Prop :=
  let '(t, v, d, u) := n in 0 <= v /\ 0 <= d /\ 0 <= t /\ v + d <= t <= v + d + u.

Lemma countFeeds_sum e n : feeds_sum (countFeeds e n) = feeds_sum n + 1.
Proof. destruct n as [[[t v] d] u]. unfold countFeeds. repeat case_match; cbn; lia. Qed.

Lemma countFeeds_ok e n : feeds_ok n -> feeds_ok (countFeeds e n).
Proof. destruct n as [[[t v] d] u]. unfold countFeeds. cbn. intros. repeat case_match; cbn; lia. Qed.

Record tally_ok (t : Tally) : Prop := {
  to_split : ta_intents t = ta_authorized t + ta_refused t;
  to_feeds : feeds_sum (ta_feeds t) = ta_intents t;
  to_feeds_ok : feeds_ok (ta_feeds t);
  to_agents : Z.of_nat (length (ta_agents t)) = ta_intents t;
  to_models : 0 <= ta_models t <= ta_intents t;
  to_indet : 0 <= ta_indeterminate t <= ta_intents t;
  to_auth : 0 <= ta_authorized t;
  to_refused : 0 <= ta_refused t
}.

Lemma count_intent_intents t e a : ta_intents (count_intent t e a) = ta_intents t + 1.
Proof. unfold count_intent. by destruct (ParentIntent.ClusterNotional (env_Intent e)) as [n []]. Qed.

Lemma count_intent_ok t e a : tally_ok t -> tally_ok (count_intent t e a).
Proof.
  intros [H1 H2 H3 H4 H5 H6 H7 H8]. pose proof (countFeeds_sum e (ta_feeds t)).
  pose proof (countFeeds_ok e _ H3).
  unfold count_intent. destruct (ParentIntent.ClusterNotional (env_Intent e)) as [n []];
    (split; cbn [ta_intents ta_authorized ta_refused ta_feeds ta_agents ta_models ta_indeterminate length];
     [destruct a; lia | lia | done | lia | case_match; lia | lia | destruct a; lia | destruct a; lia]).
Qed.

Lemma count_observed_cases c w t o :
  (selected c w o = false /\ count_observed c w t o = t) \/
  (selected c w o = true /\ exists e, ob_Envelope o = Some e /\ count_observed c w t o = count_intent t e (ob_Authorized o)).
Proof.
  unfold count_observed, selected. destruct (ob_Envelope o) as [e|]; [|by left].
  destruct (Matches c (Some e) && Contains w (env_ReceivedAt e)); [right | left]; eauto.
Qed.

Lemma tally_fold c w l t :
  tally_ok t ->
  tally_ok (foldl (count_observed c w) t l) /\
  ta_intents (foldl (count_observed c w) t l) = ta_intents t + count_if (selected c w) l.
Proof.
  revert t. induction l as [|o l IH]; intros t Ht; cbn [foldl]; [split; [done | unfold count_if; cbn; lia]|].
  rewrite count_if_cons. destruct (count_observed_cases c w t o) as [[Hs ->]|[Hs (e & _ & ->)]]; rewrite Hs.
  - destruct (IH t Ht). split; [done | lia].
  - destruct (IH _ (count_intent_ok t e (ob_Authorized o) Ht)) as [? Hc]. split; [done|].
    rewrite Hc, count_intent_intents. lia.
Qed.

Lemma tally_is_ok c w l : tally_ok (tally c w l) /\ ta_intents (tally c w l) = count_if (selected c w) l.
Proof. unfold tally. apply (tally_fold c w l no_tally). split; cbn; lia. Qed.

Lemma tally_selected c w l : tally c w (List.filter (selected c w) l) = tally c w l.
Proof.
  unfold tally. generalize no_tally. induction l as [|o l IH]; intros t; cbn [foldl List.filter]; [done|].
  destruct (count_observed_cases c w t o) as [[Hs Ho]|[Hs _]]; rewrite Hs; cbn [foldl]; [|done].
  by rewrite Ho.
Qed.

Lemma MeasureObserved_tally c w l :
  ms_IntentCount (MeasureObserved c w l) = ta_intents (tally c w l) /\
  ms_AuthorizedIntents (MeasureObserved c w l) = ta_authorized (tally c w l) /\
  ms_RefusedIntents (MeasureObserved c w l) = ta_refused (tally c w l) /\
  ms_IndeterminateIntents (MeasureObserved c w l) = ta_indeterminate (tally c w l) /\
  ms_AgentCount (MeasureObserved c w l) = Z.of_nat (length (remove_dups (ta_agents (tally c w l)))).
Proof. unfold MeasureObserved. fold (tally c w l). by destruct (ta_feeds (tally c w l)) as [[[? ?] ?] ?]. Qed.

Lemma remove_dups_length {A} `{EqDecision A} (l : list A) : (length (remove_dups l) <= length l)%nat.
Proof. induction l as [|x l IH]; cbn; [lia|]. case_decide; cbn; lia. Qed.

Definition authorized_in (c : Cohort) (w : Window) (o : Observed) : bool := selected c w o && ob_Authorized o.

Lemma tally_authorized c w l : ta_authorized (tally c w l) = count_if (authorized_in c w) l.
Proof.
  unfold tally. enough (H : forall t, ta_authorized (foldl (count_observed c w) t l) =
                                 ta_authorized t + count_if (authorized_in c w) l) by apply (H no_tally).
  induction l as [|o l IH]; intros t; cbn [foldl]; [unfold count_if; cbn; lia|].
  rewrite count_if_cons. unfold authorized_in at 1.
  destruct (count_observed_cases c w t o) as [[Hs ->]|[Hs (e & _ & ->)]]; rewrite Hs, IH; cbn [andb]; [lia|].
  unfold count_intent. destruct (ParentIntent.ClusterNotional (env_Intent e)) as [n []];
    cbn [ta_authorized]; destruct (ob_Authorized o); lia.
Qed.

Lemma measurement_parts c w l :
  ms_IntentCount (MeasureObserved c w l) = count_if (selected c w) l /\
  0 <= ms_IndeterminateIntents (MeasureObserved c w l) /\
  ms_IndeterminateIntents (MeasureObserved c w l) <= ms_IntentCount (MeasureObserved c w l).
Proof.
  destruct (MeasureObserved_tally c w l) as (-> & _ & _ & -> & _).
  destruct (tally_is_ok c w l) as [[? ? ? ? ? ? ? ?] Hc]. lia.
Qed.

(** A measurement accounts for every intent of its cohort in its window, and for no
    other: the count is theirs, split exactly into authorized and refused, the
    indeterminate ones and the distinct agents are among them, and an intent of another
    cohort, tenant or window changes nothing. *)
Theorem measurement_accounts c w l :
  let m := MeasureObserved c w l in
  ms_IntentCount m = count_if (selected c w) l /\
  ms_AuthorizedIntents m = count_if (authorized_in c w) l /\
  ms_AuthorizedIntents m + ms_RefusedIntents m = ms_IntentCount m /\
  0 <= ms_RefusedIntents m /\
  0 <= ms_IndeterminateIntents m <= ms_IntentCount m /\
  0 <= ms_AgentCount m <= ms_IntentCount m /\
  MeasureObserved c w (List.filter (selected c w) l) = m.
Proof.
  destruct (MeasureObserved_tally c w l) as (H1 & H2 & H3 & H4 & H5).
  destruct (tally_is_ok c w l) as [[? ? ? ? ? ? ? ?] Hc]. cbv zeta.
  rewrite H1, H2, H3, H4, H5. repeat split; try lia; [by rewrite tally_authorized | |].
  - pose proof (remove_dups_length (ta_agents (tally c w l))). lia.
  - unfold MeasureObserved. fold (tally c w l). fold (tally c w (List.filter (selected c w) l)).
    by rewrite tally_selected.
Qed.

(** ** Consecutive windows together measure the range *)

Fixpoint zsum (l : list Z) : Z := match l with [] => 0 | x :: l' => x + zsum l' end.

Lemma zsum_map_add {A} (f g : A -> Z) l : zsum (map (fun x => f x + g x) l) = zsum (map f l) + zsum (map g l).
Proof. induction l as [|x l IH]; cbn; [done|]. rewrite IH. lia. Qed.

Lemma zsum_map_mul {A} k (f : A -> Z) l : zsum (map (fun x => k * f x) l) = k * zsum (map f l).
Proof. induction l as [|x l IH]; cbn; [lia|]. rewrite IH. ring. Qed.

Lemma zsum_map_ext {A} (f g : A -> Z) l : (forall x, f x = g x) -> zsum (map f l) = zsum (map g l).
Proof. intros H. induction l as [|x l IH]; cbn; [done|]. by rewrite H, IH. Qed.

Lemma zsum_zero {A} (l : list A) : zsum (map (fun _ => 0) l) = 0.
Proof. induction l as [|x l IH]; [done|]. apply IH. Qed.

Lemma count_if_as_sum {A} (p : A -> bool) l : count_if p l = zsum (map (fun x => if p x then 1 else 0) l).
Proof. induction l as [|x l IH]; [done|]. rewrite count_if_cons. cbn. by rewrite IH. Qed.

Lemma selected_within c w o e :
  ob_Envelope o = Some e ->
  (if selected c w o then 1 else 0) =
  (if Matches c (Some e) then 1 else 0) * (if Contains w (env_ReceivedAt e) then 1 else 0).
Proof. intros He. unfold selected. rewrite He. by destruct (Matches c (Some e)), (Contains w (env_ReceivedAt e)). Qed.

(** The observed intents counted window by window. *)
Lemma windows_count c from to size (p : Observed -> bool) l :
  0 < size ->
  zsum (map (fun w => count_if (fun o => selected c w o && p o) l) (RollingWindows from to size)) =
  count_if (fun o => selected c (mkWindow from to) o && p o) l.
Proof.
  intros Hs. induction l as [|o l IH].
  - rewrite (zsum_map_ext _ (fun _ => 0)) by done. apply zsum_zero.
  - rewrite count_if_cons, <- IH.
    rewrite (zsum_map_ext _ (fun w => (if selected c w o && p o then 1 else 0) +
                                      count_if (fun o => selected c w o && p o) l))
      by (intros w; apply (count_if_cons (fun o => selected c w o && p o))).
    rewrite zsum_map_add. f_equal.
    destruct (p o); [|rewrite (zsum_map_ext _ (fun _ => 0)) by (intros; by rewrite andb_false_r);
                      rewrite andb_false_r; apply zsum_zero].
    rewrite (zsum_map_ext _ (fun w => if selected c w o then 1 else 0)) by (intros; by rewrite andb_true_r).
    rewrite andb_true_r. destruct (ob_Envelope o) as [e|] eqn:He.
    + rewrite (selected_within c _ o e He).
      rewrite (zsum_map_ext _ _ _ (fun w => selected_within c w o e He)).
      change (if Contains (mkWindow from to) (env_ReceivedAt e) then 1 else 0) with (within from to (env_ReceivedAt e)).
      rewrite <- (RollingWindows_count from to size) by done. rewrite count_if_as_sum.
      apply zsum_map_mul.
    + assert (Hn : forall w, selected c w o = false) by (intros; unfold selected; by rewrite He).
      rewrite Hn, (zsum_map_ext _ (fun _ => 0)) by (intros; by rewrite Hn). apply zsum_zero.
Qed.

(** Consecutive windows neither overlap nor drop an intent: whatever the window size, the
    windows of a range together count every intent of the cohort received in the range
    once, authorized and refused alike. *)
Theorem windows_lose_nothing c from to size l :
  0 < size ->
  let over (f : Measurement -> Z) := zsum (map (fun w => f (MeasureObserved c w l)) (RollingWindows from to size)) in
  let whole := MeasureObserved c (mkWindow from to) l in
  over ms_IntentCount = ms_IntentCount whole /\
  over ms_AuthorizedIntents = ms_AuthorizedIntents whole /\
  over ms_RefusedIntents = ms_RefusedIntents whole.
Proof.
  intros Hs over whole.
  assert (Hi : over ms_IntentCount = ms_IntentCount whole).
  { unfold over, whole. rewrite (proj1 (MeasureObserved_tally c _ l)), (proj2 (tally_is_ok c _ l)).
    rewrite (zsum_map_ext _ (fun w => count_if (fun o => selected c w o && true) l)).
    - rewrite (windows_count c from to size (fun _ => true) l Hs).
      unfold count_if. f_equal. f_equal. apply List.filter_ext. intros. apply andb_true_r.
    - intros w. rewrite (proj1 (MeasureObserved_tally c w l)), (proj2 (tally_is_ok c w l)).
      unfold count_if. f_equal. f_equal. apply List.filter_ext. intros. by rewrite andb_true_r. }
  assert (Ha : over ms_AuthorizedIntents = ms_AuthorizedIntents whole).
  { unfold over, whole. rewrite (proj1 (proj2 (MeasureObserved_tally c _ l))), tally_authorized.
    change (count_if (authorized_in c ?w) l) with (count_if (fun o => selected c w o && ob_Authorized o) l).
    rewrite <- (windows_count c from to size ob_Authorized l Hs). apply zsum_map_ext.
    intros w. by rewrite (proj1 (proj2 (MeasureObserved_tally c w l))), tally_authorized. }
  split; [done|]. split; [done|].
  assert (Hr : forall w, ms_RefusedIntents (MeasureObserved c w l) =
                    ms_IntentCount (MeasureObserved c w l) + -1 * ms_AuthorizedIntents (MeasureObserved c w l)).
  { intros w. destruct (MeasureObserved_tally c w l) as (-> & -> & -> & _).
    destruct (proj1 (tally_is_ok c w l)). lia. }
  enough (over ms_RefusedIntents = over ms_IntentCount + -1 * over ms_AuthorizedIntents) as ->
    by (unfold whole in *; rewrite Hi, Ha, Hr; lia).
  unfold over. rewrite (zsum_map_ext _ _ _ Hr), zsum_map_add, zsum_map_mul. done.
Qed.

(** * Where the numbers are not what the comments say *)

(** The feed levels are counted over all intents, an intent that names no feed being
    unknown, and so together exceed the share of intents that named one, which they are
    said to partition. *)
Theorem feed_levels_exceed_observed c w l :
  let '(total, verified, declared, unknown) := ta_feeds (tally c w l) in
  verified + declared + unknown = count_if (selected c w) l /\
  0 <= verified /\ 0 <= declared /\ verified + declared <= total <= count_if (selected c w) l /\
  ms_FeedCoverage (MeasureObserved (mkCohort "tenant-1" []) (mkWindow 0 Minute)
                     [mkObserved (Some sample_envelope) true]) =
    mkCoverage f64_zero f64_zero f64_zero (f64_of_Z 1).
Proof.
  destruct (tally_is_ok c w l) as [[_ Hf Ho _ _ _ _ _] Hc].
  destruct (ta_feeds (tally c w l)) as [[[t v] d] u]. cbn in Hf, Ho. rewrite <- Hc.
  split_and!; try lia. vm_compute. reflexivity.
Qed.

(** The same intents give different indices: the index is a floating-point sum in the
    order the map is ranged over, which Go leaves open. *)
Definition with_family (family : string) : Envelope :=
  let e := sample_envelope in
  mkEnvelope (env_SchemaVersion e) (env_EnvelopeID e) (env_IdempotencyKey e) (env_CorrelationID e)
    (env_ReceivedAt e) (env_TenantID e) (env_Principal e) (env_Agent e)
    (mkRuntimeClaims (rc_ModelProvider (env_RuntimeClaims e)) (mkClaim family "DECLARED" "")
       (rc_ModelVersion (env_RuntimeClaims e)))
    (env_AuthorityGrantID e) (env_Dependencies e) (env_Intent e) (env_ParentIntentID e)
    (env_StrategyID e) (env_PortfolioSnapshotID e) (env_MarketSnapshotID e) (env_Signature e).

Definition ascending (m : gmap string Z) : list Z := stable_sort Z.ltb (map snd (map_to_list m)).
Definition descending (m : gmap string Z) : list Z := rev (ascending m).
Definition five_intents : list (option Envelope) :=
  [Some (with_family "a"); Some (with_family "b"); Some (with_family "c"); Some (with_family "c");
   Some (with_family "c")].

Theorem concentration_depends_on_map_order :
  (forall m, ascending m ≡ₚ map snd (map_to_list m)) /\
  (forall m, descending m ≡ₚ map snd (map_to_list m)) /\
  f64_ltb (fst (ModelConcentration descending five_intents)) (fst (ModelConcentration ascending five_intents)) ||
  f64_ltb (fst (ModelConcentration ascending five_intents)) (fst (ModelConcentration descending five_intents)) = true.
Proof.
  split; [intros; apply stable_sort_perm|]. split.
  - intros. unfold descending. rewrite <- Permutation_rev. apply stable_sort_perm.
  - vm_compute. reflexivity.
Qed.

(** The raw difference of a zero-spread baseline is printed without the leading zeros of
    its fraction and without the sign of a number between -1 and 0: 1.05 reads as one and a
    half hundredth less than 1.5, and a fall by a half reads as a rise by a half. *)
Theorem ftoa_misprints :
  ftoa (f64_lit 33 32) = "1.3" /\ ftoa (f64_lit 21 16) = "1.31" /\
  ftoa (f64_lit (-1) 2) = ftoa (f64_lit 1 2).
Proof. repeat split; vm_compute; reflexivity. Qed.

(** * The risk vector is well formed *)

(** A component has its name and an explanation, and a number only if it was measured. *)
Record component_ok (name : string) (c : Component) : Prop := {
  co_name : cp_Name c = name;
  co_explained : cp_Explanation c <> "";
  co_unmeasured : if cp_Known c then True else cp_Value c = f64_zero /\ cp_Coverage c = f64_zero
}.

Lemma not_measured_ok name text : text <> "" -> component_ok name (not_measured name text).
Proof. by split. Qed.

Lemma mkComponent_ok name v cov text : text <> "" -> component_ok name (mkComponent name v true cov text).
Proof. by split. Qed.

#[export] Hint Resolve not_measured_ok mkComponent_ok : golib.

Lemma directional_ok m : component_ok "D_directional_imbalance" (directional m).
Proof. unfold directional. case_match; auto with golib. Qed.

Lemma append_nonempty_l s t : s <> "" -> s +:+ t <> "".
Proof. destruct s; done. Qed.

Lemma append_empty_iff s t : s +:+ t = "" <-> s = "" /\ t = "".
Proof. destruct s; cbn; naive_solver. Qed.

#[export] Hint Resolve append_nonempty_l : golib.

Lemma Compare_explained b x : dv_Explanation (Compare b x) <> "".
Proof.
  unfold Compare. destruct (bl_Observations b) as [|v l]; [done|].
  destruct (f64_ltb f64_zero (MAD (v :: l))), (f64_eqb x (Median (v :: l))),
    (bl_MinObservations b <=? Z.of_nat (length (v :: l))); cbn [dv_Explanation];
    repeat apply append_nonempty_l; done.
Qed.

Lemma burst_ok m w bl : component_ok "B_temporal_burst" (fst (burst m w bl)).
Proof.
  unfold burst. destruct bl as [b|]; [|by apply not_measured_ok].
  case_match; cbn [fst]; [apply not_measured_ok | apply mkComponent_ok]; apply Compare_explained.
Qed.

Lemma concentration_ok name i cov : component_ok name (concentration name i cov).
Proof. unfold concentration. case_match; auto with golib. Qed.

Lemma participation_ok c w m md : component_ok "P_market_participation" (participation c w m md).
Proof.
  unfold participation. destruct md as [f|]; [|by apply not_measured_ok].
  case_match; [by apply not_measured_ok|]. case_match; [|by apply not_measured_ok].
  case_match; [by apply not_measured_ok | by apply mkComponent_ok].
Qed.

Lemma abnormalConsensus_ok d b : component_ok "A_abnormal_consensus" (abnormalConsensus d b).
Proof. unfold abnormalConsensus. repeat case_match; auto with golib; by apply mkComponent_ok. Qed.

Lemma known_but_last d b cm cs cf p a q :
  cp_Known q = true ->
  count_if cp_Known [d; b; cm; cs; cf; p; a; q] - 1 = count_if cp_Known [d; b; cm; cs; cf; p; a].
Proof. intros Hq. rewrite !count_if_cons, Hq. unfold count_if. cbn. lia. Qed.

Lemma quality_ok m l : component_ok "Q_quality" (quality m l).
Proof. apply mkComponent_ok. intros H%append_empty_iff. by destruct H. Qed.

Definition component_names : list string :=
  ["D_directional_imbalance"; "B_temporal_burst"; "Cm_model_concentration"; "Cs_strategy_concentration";
   "Cf_feed_concentration"; "P_market_participation"; "A_abnormal_consensus"; "Q_quality"].

Definition observed_of (e : option Envelope) : Observed := mkObserved e true.

Lemma count_if_map {A B} (p : B -> bool) (f : A -> B) l : count_if p (map f l) = count_if (fun x => p (f x)) l.
Proof. induction l as [|x l IH]; [done|]. cbn [map]. by rewrite !count_if_cons, IH. Qed.

(** ** What was measured *)

(** The intents of a cohort received in a window. *)
Definition intents_in (c : Cohort) (w : Window) (envelopes : list (option Envelope)) : list Envelope :=
  omap id (List.filter (fun e => selected c w (observed_of e)) envelopes).

(** An intent with a determinable notional. *)
Definition sized (e : Envelope) : bool := snd (ParentIntent.ClusterNotional (env_Intent e)).

(** The instrument a cohort is scoped to. *)
Definition scoped_to (c : Cohort) : string :=
  default "" (last (map Value (List.filter (fun p => String.eqb (Field p) FieldInstrument) (co_Predicates c)))).

(** A baseline of enough observations, and not all alike. *)
Definition comparable (b : Baseline) : Prop :=
  bl_MinObservations b <= Z.of_nat (length (bl_Observations b)) /\ f64_eqb (MAD (bl_Observations b)) f64_zero = false.

(** A concentration over the intents that declare a value, their share its coverage. *)
Definition over_declared (value : Envelope -> string) (here : list Envelope) (x : Component) : Prop :=
  let declared := count_if (fun e => str_nonempty (value e)) here in
  let share := f64_ratio declared (Z.of_nat (length here)) in
  cp_Known x = (0 <? declared) && negb (f64_eqb share f64_zero) /\
  (cp_Known x = true -> cp_Coverage x = share).

Lemma intents_in_selected c w envelopes :
  count_if (selected c w) (map observed_of envelopes) = Z.of_nat (length (intents_in c w envelopes)).
Proof.
  unfold intents_in. rewrite count_if_map. induction envelopes as [|e l IH]; [done|].
  rewrite count_if_cons. cbn [List.filter]. destruct (selected c w (observed_of e)) eqn:Es; [|done].
  destruct e as [e|]; [|done]. cbn. unfold intents_in in IH. rewrite IH. lia.
Qed.

Lemma unsized_fold c w envelopes : forall t,
  ta_intents t - ta_indeterminate t + count_if sized (intents_in c w envelopes) =
  ta_intents (foldl (count_observed c w) t (map observed_of envelopes)) -
  ta_indeterminate (foldl (count_observed c w) t (map observed_of envelopes)).
Proof.
  unfold intents_in. induction envelopes as [|e l IH]; intros t; cbn [map foldl List.filter]; [unfold count_if; cbn; lia|].
  rewrite <- IH. destruct (count_observed_cases c w t (observed_of e)) as [[Hs ->]|[Hs (e' & He & ->)]]; rewrite Hs; [done|].
  destruct e as [e|]; [|done]. injection He as <-. cbn [omap list_omap id]. rewrite count_if_cons. unfold sized at 1.
  unfold count_intent. destruct (ParentIntent.ClusterNotional (env_Intent e)) as [n []]; cbn [snd ta_intents ta_indeterminate]; lia.
Qed.

Lemma Measure_sized c w envelopes :
  ms_IntentCount (Measure c w envelopes) - ms_IndeterminateIntents (Measure c w envelopes) =
  count_if sized (intents_in c w envelopes).
Proof.
  unfold Measure. destruct (MeasureObserved_tally c w (map (fun e => mkObserved e true) envelopes)) as (-> & _ & _ & -> & _).
  symmetry. apply (unsized_fold c w envelopes no_tally).
Qed.

Lemma count_if_exists {A} (p : A -> bool) l : 0 < count_if p l <-> Exists (fun x => p x = true) l.
Proof.
  induction l as [|x l IH]; [split; [done | by intros ?%Exists_nil]|].
  rewrite count_if_cons, Exists_cons, <- IH. pose proof (count_if_nonneg p l). destruct (p x); naive_solver lia.
Qed.

Lemma directional_measured c w envelopes :
  let x := directional (Measure c w envelopes) in
  let here := intents_in c w envelopes in
  (cp_Known x = true <-> Exists (fun e => sized e = true) here) /\
  (cp_Known x = true -> cp_Value x = ms_DirectionalImbalance (Measure c w envelopes) /\
     cp_Coverage x = f64_ratio (count_if sized here) (Z.of_nat (length here))).
Proof.
  cbn zeta. unfold directional. rewrite Measure_sized, <- count_if_exists.
  pose proof (count_if_nonneg sized (intents_in c w envelopes)).
  destruct (Z.eqb_spec (count_if sized (intents_in c w envelopes)) 0); (split; [cbn; split; done || lia | try done]).
  intros _. split; [done|]. cbn [cp_Coverage]. f_equal.
  unfold Measure. change (fun e => mkObserved e true) with observed_of.
  by rewrite (proj1 (measurement_parts c w (map observed_of envelopes))), intents_in_selected.
Qed.

Lemma Compare_parts b x :
  dv_SufficientData (Compare b x) = (bl_MinObservations b <=? Z.of_nat (length (bl_Observations b))) /\
  dv_MAD (Compare b x) = MAD (bl_Observations b).
Proof.
  unfold Compare. destruct (bl_Observations b) as [|v l]; [done|].
  by destruct (f64_ltb f64_zero (MAD (v :: l))), (f64_eqb x (Median (v :: l))).
Qed.

Lemma comparable_spec b x :
  negb (dv_SufficientData (Compare b x)) || f64_eqb (dv_MAD (Compare b x)) f64_zero = false <-> comparable b.
Proof.
  destruct (Compare_parts b x) as [-> ->]. rewrite orb_false_iff, negb_false_iff, Z.leb_le. done.
Qed.

Lemma burst_measured m w baseline d :
  let '(x, deviation) := burst m w baseline in
  (cp_Known x = true <-> exists b, baseline = Some b /\ comparable b) /\
  (forall b, baseline = Some b -> cp_Known x = true -> cp_Value x = dv_RobustScore (Compare b (RateOf (ms_IntentCount m) w))) /\
  (cp_Known (abnormalConsensus d deviation) = true <-> cp_Known d = true /\ cp_Known x = true).
Proof.
  unfold burst, abnormalConsensus. destruct baseline as [b|].
  2:{ split_and!; [split; [done | naive_solver] | done |]. destruct (cp_Known d); cbn; naive_solver. }
  pose proof (comparable_spec b (RateOf (ms_IntentCount m) w)) as Hc.
  destruct (negb (dv_SufficientData (Compare b _)) || _) eqn:E.
  - split_and!; [split; [done|] | done |].
    + intros (b' & [= <-] & Hb). by apply Hc in Hb.
    + rewrite E. destruct (cp_Known d); cbn; naive_solver.
  - split_and!; [split; [|done] | by intros b' [= <-] |].
    + intros _. exists b. split; [done|]. by apply Hc.
    + rewrite E. destruct (cp_Known d); cbn; naive_solver.
Qed.

Lemma scoped_to_foldl c :
  foldl (fun i p => if String.eqb (Field p) FieldInstrument then Value p else i) "" (co_Predicates c) = scoped_to c.
Proof.
  unfold scoped_to. induction (co_Predicates c) as [|p l IH] using rev_ind; [done|].
  rewrite foldl_app, List.filter_app, map_app. cbn [foldl List.filter].
  destruct (String.eqb (Field p) FieldInstrument); [cbn; by rewrite last_snoc | by rewrite app_nil_r].
Qed.

Lemma participation_measured c w m md :
  let x := participation c w m md in
  (cp_Known x = true <->
     exists source volume, md = Some source /\ scoped_to c <> "" /\ source (scoped_to c) w = Some volume /\
       f64_leb volume f64_zero = false /\ cp_Value x = f64_div (ms_GrossNotional m) volume).
Proof.
  cbn zeta. unfold participation. destruct md as [source|]; [|naive_solver]. rewrite scoped_to_foldl.
  destruct (String.eqb_spec (scoped_to c) ""); [naive_solver|].
  destruct (source (scoped_to c) w) as [volume|] eqn:Ev; [|naive_solver].
  destruct (f64_leb volume f64_zero) eqn:El; [naive_solver|]. split; [|done]. intros _. by exists source, volume.
Qed.

(** *** Counting by value *)

Definition total (m : gmap string Z) : Z := foldr Z.add 0 (map snd (map_to_list m)).

Lemma foldr_add_perm l1 l2 : l1 ≡ₚ l2 -> foldr Z.add 0 l1 = foldr Z.add 0 l2.
Proof. induction 1; cbn; lia. Qed.

Lemma total_insert m v n : m !! v = None -> total (<[v := n]> m) = n + total m.
Proof. intros H. unfold total. by rewrite (foldr_add_perm _ _ (Permutation_map snd (map_to_list_insert m v n H))). Qed.

Lemma total_count_value m v : total (count_value m v) = total m + (if str_nonempty v then 1 else 0).
Proof.
  unfold count_value. destruct (str_nonempty v); [|lia]. destruct (m !! v) as [n|] eqn:E; cbn [default].
  - rewrite <- (insert_delete_eq m), total_insert by apply lookup_delete_eq.
    rewrite <- (insert_delete_id m v n E) at 2. rewrite total_insert by apply lookup_delete_eq. cbn. lia.
  - rewrite total_insert by done. cbn. lia.
Qed.

Lemma total_counts (value : Envelope -> string) here : forall m,
  total (foldl (fun m e => count_value m (value e)) m here) = total m + count_if (fun e => str_nonempty (value e)) here.
Proof.
  induction here as [|e l IH]; intros m; cbn [foldl]; [unfold count_if; cbn; lia|].
  rewrite IH, total_count_value, count_if_cons. lia.
Qed.

Lemma concentration_measured range name value c w envelopes :
  (forall m, range m ≡ₚ map snd (map_to_list m)) ->
  let '(index, coverage) := concentration_of range value (List.filter (fun e => selected c w (mkObserved e true)) envelopes) in
  over_declared value (intents_in c w envelopes) (concentration name index coverage).
Proof.
  intros Hr. unfold concentration_of. cbn zeta.
  change (omap id (List.filter _ envelopes)) with (intents_in c w envelopes).
  set (here := intents_in c w envelopes).
  unfold HHI, over_declared. set (m := foldl (fun m e => count_value m (value e)) ∅ here).
  assert (foldr Z.add 0 (range m) = count_if (fun e => str_nonempty (value e)) here) as ->.
  { rewrite (foldr_add_perm _ _ (Hr m)). fold (total m). unfold m. by rewrite total_counts. }
  pose proof (count_if_nonneg (fun e => str_nonempty (value e)) here) as H0. cbn zeta.
  destruct (Z.leb_spec (Z.of_nat (length here)) 0) as [Hl|Hl].
  { destruct here; [|cbn in Hl; lia]. by vm_compute. }
  destruct (Z.eqb_spec (count_if (fun e => str_nonempty (value e)) here) 0) as [Hz|Hz].
  { rewrite Hz. unfold concentration. change (f64_eqb f64_zero f64_zero) with true. done. }
  rewrite (proj2 (Z.ltb_lt _ _)) by lia. cbn [andb]. unfold concentration.
  by destruct (f64_eqb (f64_ratio _ _) f64_zero).
Qed.

Lemma vector_parts range c w envelopes baseline md :
  Forall2 component_ok component_names (Components (ComputeVector range c w envelopes baseline md)) /\
  rv_TenantID (ComputeVector range c w envelopes baseline md) = co_TenantID c /\
  rv_Cohort (ComputeVector range c w envelopes baseline md) = c /\
  rv_Window (ComputeVector range c w envelopes baseline md) = w.
Proof.
  unfold ComputeVector. set (m := Measure c w envelopes).
  pose proof (burst_ok m w baseline) as Hb. destruct (burst m w baseline) as [b deviation].
  destruct (ModelConcentration range _) as [mi mc], (strategyConcentration range _) as [si sc],
    (FeedConcentration range _) as [fi fc].
  unfold Components, component_names. cbn [rv_D rv_B rv_Cm rv_Cs rv_Cf rv_P rv_A rv_Q].
  split; [|done].
  repeat (constructor; [first [apply directional_ok | exact Hb | apply concentration_ok |
    apply participation_ok | apply abnormalConsensus_ok | apply quality_ok]|]). constructor.
Qed.


(** * Shadow mode: recommendations bind only by a customer's authorization *)

Inductive ledger_op :=
| OpRecord (r : Recommendation)
| OpApply (recommendationID : string) (a : Authorization) (at_ : Time)
| OpReview (recommendationID : string) (v : Verdict) (by_ : string) (at_ : Time).

Definition ledger_step (l : ShadowLedger) (o : ledger_op) : ShadowLedger :=
  match o with
  | OpRecord r => Record_ l r
  | OpApply id a at_ => fst (Apply l id a at_)
  | OpReview id v by_ at_ => fst (Review l id v by_ at_)
  end.

Definition recorded (ops : list ledger_op) : list Recommendation :=
  omap (fun o => match o with OpRecord r => Some r | _ => None end) ops.

(** A control in the ledger is the one its entry's recommendation was authorized for, by
    an operation of the history. *)
Definition control_authorized (ops : list ledger_op) (e : LedgerEntry) : Prop :=
  match le_Control e with
  | None => True
  | Some k =>
      fc_Recommendation k = le_Recommendation e /\
      validControl (rm_WouldHave (le_Recommendation e)) = true /\
      au_AuthorizedBy (fc_Authorization k) <> "" /\ au_PolicyBundleID (fc_Authorization k) <> "" /\
      OpApply (rm_RecommendationID (le_Recommendation e)) (fc_Authorization k) (fc_AppliedAt k) ∈ ops
  end.

(** A verdict is a reviewer's. *)
Definition verdict_attributed (ops : list ledger_op) (e : LedgerEntry) : Prop :=
  (le_Verdict e = VerdictUnreviewed /\ le_ReviewedBy e = "") \/
  (le_Verdict e ∈ [VerdictHarmful; VerdictBenign] /\ le_ReviewedBy e <> "" /\
   OpReview (rm_RecommendationID (le_Recommendation e)) (le_Verdict e) (le_ReviewedBy e) (le_ReviewedAt e) ∈ ops).

Definition entry_ok (ops : list ledger_op) (e : LedgerEntry) : Prop :=
  control_authorized ops e /\ verdict_attributed ops e.

Lemma entry_ok_weaken ops o e : entry_ok ops e -> entry_ok (ops ++ [o]) e.
Proof.
  intros [Hc Hv]. split.
  - unfold control_authorized in *. destruct (le_Control e) as [k|]; [|done].
    rewrite elem_of_app. naive_solver.
  - unfold verdict_attributed in *. rewrite elem_of_app. naive_solver.
Qed.

Lemma Authorize_ok r a at_ k :
  Authorize r a at_ = Ok k ->
  k = mkFleetControl r a at_ /\ au_AuthorizedBy a <> "" /\ au_PolicyBundleID a <> "" /\
  validControl (rm_WouldHave r) = true.
Proof.
  unfold Authorize.
  destruct (String.eqb_spec (au_AuthorizedBy a) ""), (String.eqb_spec (au_PolicyBundleID a) ""); cbn; try done.
  destruct (validControl (rm_WouldHave r)); cbn; [|done]. by intros [= <-].
Qed.

Lemma Apply_ok ops l id a at_ :
  Forall (entry_ok ops) l ->
  Forall (entry_ok (ops ++ [OpApply id a at_])) (fst (Apply l id a at_)) /\
  map le_Recommendation (fst (Apply l id a at_)) = map le_Recommendation l.
Proof.
  induction 1 as [|e l [Hc Hv] Hl IH]; cbn; [done|].
  assert (Hrest : Forall (entry_ok (ops ++ [OpApply id a at_])) l)
    by (apply (Forall_impl _ _ _ Hl); intros; by apply entry_ok_weaken).
  assert (He : entry_ok (ops ++ [OpApply id a at_]) e) by (apply entry_ok_weaken; by split).
  destruct (String.eqb_spec (rm_RecommendationID (le_Recommendation e)) id) as [Hid|Hid].
  - destruct (Authorize (le_Recommendation e) a at_) as [k|er] eqn:Ea; cbn; [|by split; [constructor|]].
    apply Authorize_ok in Ea as (-> & H1 & H2 & H3). split; [|done]. constructor; [|done].
    split; [|apply He]. unfold control_authorized. cbn. rewrite Hid. split_and!; try done. set_solver.
  - destruct (Apply l id a at_) as [rest er]. cbn in *. destruct IH as [? ->]. split; [by constructor | done].
Qed.

Lemma set_verdict_ok ops l id v by_ at_ :
  v ∈ [VerdictHarmful; VerdictBenign] -> by_ <> "" -> Forall (entry_ok ops) l ->
  Forall (entry_ok (ops ++ [OpReview id v by_ at_])) (fst (set_verdict l id v by_ at_)) /\
  map le_Recommendation (fst (set_verdict l id v by_ at_)) = map le_Recommendation l.
Proof.
  intros Hv Hby. induction 1 as [|e l [Hc Hw] Hl IH]; cbn; [done|].
  assert (Hrest : Forall (entry_ok (ops ++ [OpReview id v by_ at_])) l)
    by (apply (Forall_impl _ _ _ Hl); intros; by apply entry_ok_weaken).
  assert (He : entry_ok (ops ++ [OpReview id v by_ at_]) e) by (apply entry_ok_weaken; by split).
  destruct (String.eqb_spec (rm_RecommendationID (le_Recommendation e)) id) as [Hid|Hid]; cbn.
  - split; [|done]. constructor; [|done]. split; [apply He|].
    right. cbn. rewrite Hid. split_and!; try done. set_solver.
  - destruct (set_verdict l id v by_ at_) as [rest er]. cbn in *. destruct IH as [? ->].
    split; [by constructor | done].
Qed.

Lemma Review_ok ops l id v by_ at_ :
  Forall (entry_ok ops) l ->
  Forall (entry_ok (ops ++ [OpReview id v by_ at_])) (fst (Review l id v by_ at_)) /\
  map le_Recommendation (fst (Review l id v by_ at_)) = map le_Recommendation l.
Proof.
  intros Hl. assert (Hsame : Forall (entry_ok (ops ++ [OpReview id v by_ at_])) l)
    by (apply (Forall_impl _ _ _ Hl); intros; by apply entry_ok_weaken).
  unfold Review. destruct (String.eqb_spec by_ "") as [|Hby]; [by repeat case_match|].
  destruct (String.eqb_spec v VerdictHarmful), (String.eqb_spec v VerdictBenign); cbn [negb andb]; try done;
    apply set_verdict_ok; try done; set_solver.
Qed.

Lemma ledger_history_ok ops :
  Forall (entry_ok ops) (run_ops ledger_step [] ops) /\
  map le_Recommendation (run_ops ledger_step [] ops) = recorded ops.
Proof.
  induction ops as [|o ops IH] using rev_ind; [by split|].
  rewrite run_ops_app. unfold run_ops at 1 3. cbn [foldl]. unfold recorded. rewrite omap_app.
  fold (recorded ops). destruct IH as [Hok <-]. set (l := run_ops ledger_step [] ops) in *.
  destruct o as [r|id a at_|id v by_ at_]; cbn [ledger_step].
  - unfold Record_. split; [|by rewrite map_app].
    apply Forall_app. split; [apply (Forall_impl _ _ _ Hok); intros; by apply entry_ok_weaken|].
    constructor; [|done]. split; [done|]. by left.
  - cbn. rewrite app_nil_r. by apply Apply_ok.
  - cbn. rewrite app_nil_r. by apply Review_ok.
Qed.

(** Fleet intelligence recommends, the customer authorizes: whatever is recorded, applied
    and reviewed, in any order, the ledger holds exactly the recommendations recorded, in
    order and unaltered; a control exists only where an authorization that names its author
    and policy bundle was applied to that recommendation's identifier, for an action a
    fleet control may take; and a verdict exists only where a named reviewer gave it. *)
Theorem fleet_only_recommends ops :
  let ledger := run_ops ledger_step [] ops in
  map le_Recommendation ledger = recorded ops /\
  Forall (control_authorized ops) ledger /\
  Forall (verdict_attributed ops) ledger.
Proof.
  destruct (ledger_history_ok ops) as [Hok Hrec]. cbn zeta. split; [done|].
  split; apply (Forall_impl _ _ _ Hok); by intros e [].
Qed.

(** ** The report *)

Lemma ByAction_total (l : ShadowLedger) m :
  map_sum id (foldl (fun m e => <[rm_WouldHave (le_Recommendation e) :=
                          default 0 (m !! rm_WouldHave (le_Recommendation e)) + 1]> m) m l)
  = map_sum id m + Z.of_nat (length l).
Proof.
  revert m. induction l as [|e l IH]; intros m; cbn [foldl length]; [lia|].
  rewrite IH. destruct (m !! rm_WouldHave (le_Recommendation e)) as [n|] eqn:E.
  - rewrite (map_sum_update _ _ _ _ _ E). cbn. unfold id. lia.
  - rewrite map_sum_insert_new by done. cbn. unfold id. lia.
Qed.

(** The report's figures add up over any history: the actions count every hypothetical,
    the reviewed ones are the harmful and the benign, and precision is unknown exactly
    when nothing was reviewed. *)
Theorem report_adds_up ops :
  let l := run_ops ledger_step [] ops in
  let r := ReportOf l in
  map_sum id (rp_ByAction r) = rp_Total r /\
  rp_Total r = Z.of_nat (length (recorded ops)) /\
  rp_Reviewed r = rp_Harmful r + rp_Benign r /\
  rp_Reviewed r + count_if (fun e => String.eqb (le_Verdict e) VerdictUnreviewed) l = rp_Total r /\
  (rp_Known r = false <-> rp_Reviewed r = 0).
Proof.
  destruct (ledger_history_ok ops) as [Hok Hrec]. cbn zeta.
  set (l := run_ops ledger_step [] ops) in *. unfold ReportOf.
  cbn [rp_ByAction rp_Total rp_Reviewed rp_Harmful rp_Benign rp_Known].
  split_and!.
  - rewrite ByAction_total, map_sum_empty. lia.
  - by rewrite <- Hrec, length_map.
  - done.
  - clear Hrec. induction Hok as [|e l' [_ Hv] Hl IH]; [done|]. rewrite !count_if_cons.
    cbn [length]. destruct Hv as [[-> _]|[Hv _]]; [cbn; lia|].
    apply elem_of_cons in Hv as [->|Hv]; [cbn; lia|]. apply list_elem_of_singleton in Hv as ->. cbn. lia.
  - rewrite Z.ltb_ge. pose proof (count_if_nonneg (fun e => String.eqb (le_Verdict e) VerdictHarmful) l).
    pose proof (count_if_nonneg (fun e => String.eqb (le_Verdict e) VerdictBenign) l). lia.
Qed.

(** * Witnesses *)

Example windows_lose_nothing_witness :
  0 < Minute /\
  map (fun w => ms_IntentCount (MeasureObserved (mkCohort "tenant-1" []) w
                                  (map observed_of (map Some ParentIntent.three_children))))
    (RollingWindows 0 (2 * Minute) Minute) = [2; 1] /\
  zsum (map (fun w => ms_IntentCount (MeasureObserved (mkCohort "tenant-1" []) w
                                  (map observed_of (map Some ParentIntent.three_children))))
    (RollingWindows 0 (2 * Minute) Minute)) =
  ms_IntentCount (MeasureObserved (mkCohort "tenant-1" []) (mkWindow 0 (2 * Minute))
                    (map observed_of (map Some ParentIntent.three_children))).
Proof.
  split; [vm_compute; reflexivity|]. split; [vm_compute; reflexivity|].
  apply (windows_lose_nothing (mkCohort "tenant-1" []) 0 (2 * Minute) Minute). vm_compute. reflexivity.
Defined.

Definition sellers : list Predicate := [mkPredicate FieldSide "SELL"; mkPredicate FieldInstrument "instr_acme"].

Example cohort_is_its_predicates_witness :
  sellers ≡ₚ rev sellers /\
  NewCohort "tenant-1" sellers = Ok (mkCohort "tenant-1" (rev sellers)) /\
  NewCohort "tenant-1" (rev sellers) = Ok (mkCohort "tenant-1" (rev sellers)).
Proof.
  assert (HP : sellers ≡ₚ rev sellers) by apply Permutation_rev.
  assert (Hc : NewCohort "tenant-1" sellers = Ok (mkCohort "tenant-1" (rev sellers))) by (vm_compute; reflexivity).
  split; [exact HP|]. split; [exact Hc|].
  exact (proj1 (cohort_is_its_predicates _ _ _ _ HP Hc)).
Defined.

(** A cohort of one instrument whose intents name no feed, a baseline with some spread, and
    a market. *)
Definition scoped_cohort : Cohort := mkCohort "tenant-1" [mkPredicate FieldInstrument (in_InstrumentID (env_Intent sample_envelope))].
Definition uneven : Baseline := mkBaseline (map f64_of_Z [1; 2; 4]) 3.
Definition small_market (instrument : string) (_ : Window) : option float64 :=
  if String.eqb instrument "" then None else Some (f64_of_Z 1000000).
Definition measured_vector : RiskVector :=
  ComputeVector ascending scoped_cohort (mkWindow 0 Minute) five_intents (Some uneven) (Some small_market).

