(* ===== verification/Incident.v ===== *)
(** Incidents: internal/incident incident.go, detector.go, timeline.go, store.go.

    A risk vector ([Fleet]) is turned into anomalies and an incident; operators act on the
    incident; its evidence events go to the [Evidence] store and the timeline is rebuilt
    from them.  Formatting a time is a parameter, and so is the JSON of the three document
    columns ([IncidentJSON]).  The HTTP surface of the package is in [Reads], and what
    the timeline gives back of a recorded incident in [Replay]. *)

From Stdlib Require Import SpecFloat.
From S2P Require Import Prelude Strings Money Intent Broker Float64.
From S2P Require Evidence Fleet.
Import Fleet (Component, cp_Name, cp_Value, cp_Known, cp_Coverage, cp_Explanation, RiskVector).

(** * Detection *)

Abbreviation Severity := string.
Definition SeverityInfo : Severity := "INFO".
Definition SeverityLow : Severity := "LOW".
Definition SeverityMedium : Severity := "MEDIUM".
Definition SeverityHigh : Severity := "HIGH".

Abbreviation Status := string.
Definition StatusOpen : Status := "OPEN".
Definition StatusAcknowledged : Status := "ACKNOWLEDGED".
Definition StatusEscalated : Status := "ESCALATED".
Definition StatusClosed : Status := "CLOSED".

Record Anomaly := mkAnomaly {
  an_Component : Component;
  an_Rule : string;
  an_Observation : string;
  an_DetectedAt : Time
}.

Record DetectionRules := mkRules {
  ru_BurstRobustScore : float64;
  ru_DirectionalImbalance : float64;
  ru_Concentration : float64;
  ru_MinCoverage : float64;
  ru_AbnormalConsensus : float64;
  ru_MinAgents : Z
}.

Definition DefaultRules : DetectionRules :=
  mkRules (f64_of_Z 4) (f64_lit 9 10) (f64_lit 7 10) (f64_lit 5 10) (f64_lit 2 10) 3.

Definition percent (x : float64) : string := fmt_fixed 0 (f64_mul x (f64_of_Z 100)) +:+ "%".

Definition detect_burst (r : RiskVector) (rules : DetectionRules) (at_ : Time) : list Anomaly :=
  let b := Fleet.rv_B r in
  let d := Fleet.rv_Burst r in
  if cp_Known b && f64_leb (ru_BurstRobustScore rules) (cp_Value b) then
    [mkAnomaly b ("B >= " +:+ fmt_fixed 1 (ru_BurstRobustScore rules))
       ("intent rate " +:+ fmt_fixed 2 (Fleet.dv_Observed d) +:+ " is " +:+ fmt_fixed 1 (cp_Value b) +:+
        " robust deviations above a baseline median of " +:+ fmt_fixed 2 (Fleet.dv_BaselineMedian d) +:+
        " over " +:+ fmt_d (Fleet.dv_SampleSize d) +:+ " observations")
       at_]
  else [].

Definition detect_direction (r : RiskVector) (rules : DetectionRules) (at_ : Time) : list Anomaly :=
  let d := Fleet.rv_D r in
  let a := Fleet.rv_A r in
  let explained := cp_Known a && f64_ltb (cp_Value a) (ru_AbnormalConsensus rules) in
  if cp_Known d && f64_leb (ru_DirectionalImbalance rules) (cp_Value d) && negb explained then
    [mkAnomaly d
       ("D >= " +:+ fmt_fixed 2 (ru_DirectionalImbalance rules) +:+ " and A >= " +:+
        fmt_fixed 2 (ru_AbnormalConsensus rules))
       ("flow is " +:+ percent (cp_Value d) +:+ " one-directional" +:+
        (if negb (cp_Known a)
         then "; there is no baseline for this context, so whether that is abnormal here cannot be said"
         else "; " +:+ fmt_fixed 2 (cp_Value a) +:+ " more than the activity level explains"))
       at_]
  else [].

Definition detect_concentration (rules : DetectionRules) (at_ : Time) (c : Component) : list Anomaly :=
  if negb (cp_Known c) || f64_ltb (cp_Coverage c) (ru_MinCoverage rules) ||
     f64_ltb (cp_Value c) (ru_Concentration rules) then []
  else
    [mkAnomaly c
       (cp_Name c +:+ " >= " +:+ fmt_fixed 2 (ru_Concentration rules) +:+ " with coverage >= " +:+
        fmt_fixed 2 (ru_MinCoverage rules))
       ("concentration " +:+ fmt_fixed 2 (cp_Value c) +:+ " over " +:+ percent (cp_Coverage c) +:+ " coverage")
       at_].

Definition concentrations (r : RiskVector) : list Component := [Fleet.rv_Cm r; Fleet.rv_Cs r; Fleet.rv_Cf r].

Definition Detect (r : RiskVector) (rules : DetectionRules) (at_ : Time) : list Anomaly :=
  detect_burst r rules at_ ++ detect_direction r rules at_ ++
  List.concat (map (detect_concentration rules at_) (concentrations r)).

(** * Incidents *)

Record HumanAction := mkHumanAction {
  ha_Actor : string;
  ha_Action : string;
  ha_Reason : string;
  ha_At : Time
}.

Record Incident := mkIncident {
  ic_IncidentID : string;
  ic_TenantID : string;
  ic_CorrelationID : string;
  ic_Cohort : Fleet.Cohort;
  ic_Window : Fleet.Window;
  ic_Severity : Severity;
  ic_Status : Status;
  ic_Anomalies : list Anomaly;
  ic_SharedDependencies : list string;
  ic_Recommended : string;
  ic_HumanActions : list HumanAction;
  ic_OpenedAt : Time;
  ic_ClosedAt : option Time;
  ic_SeverityRule : string
}.

Definition ActionAcknowledge : string := "ACKNOWLEDGE".
Definition ActionEscalate : string := "ESCALATE".
Definition ActionClose : string := "CLOSE".

(** The seconds since 1970 of an instant. *)
Definition Unix (t : Time) : Z := t / Second - 62135596800.

(** What the loop over the anomalies finds: a burst, a direction, concentrations. *)
Definition count_anomaly (acc : bool * bool * Z) (a : Anomaly) : bool * bool * Z :=
  let '(burst, directional, concentration) := acc in
  let name := cp_Name (an_Component a) in
  if HasPrefix name "B_" then (true, directional, concentration)
  else if HasPrefix name "D_" then (burst, true, concentration)
  else if HasPrefix name "C" then (burst, directional, concentration + 1)
  else (burst, directional, concentration).

Definition severityOf (anomalies : list Anomaly) : Severity * string :=
  let '(burst, directional, concentration) := foldl count_anomaly (false, false, 0) anomalies in
  if burst && directional && (0 <? concentration) then
    (SeverityHigh, "a burst, one-directional flow and a concentrated dependency together")
  else if burst && directional then (SeverityMedium, "a burst and one-directional flow together")
  else if 1 <? concentration then (SeverityMedium, "more than one concentrated dependency")
  else if burst || directional || (0 <? concentration) then (SeverityLow, "a single anomalous component")
  else (SeverityInfo, "anomalies present but none of the named combinations").

Definition recommend (anomalies : list Anomaly) : string :=
  if (3 <=? length anomalies)%nat then "would recommend THROTTLE for this cohort, pending customer policy"
  else if (length anomalies =? 2)%nat then
    "would recommend REQUIRE_APPROVAL for this cohort, pending customer policy"
  else "would recommend OBSERVE; no intervention suggested".

Definition sharedDependencies (r : RiskVector) : list string :=
  sort_strings
    (map (fun c => cp_Name c +:+ " concentration " +:+ fmt_fixed 2 (cp_Value c) +:+ " over " +:+
                   percent (cp_Coverage c) +:+ " coverage")
       (List.filter (fun c => cp_Known c && f64_leb (f64_lit 1 2) (cp_Value c)) (concentrations r))).

Definition deriveID (tenantID : string) (cohort : Fleet.Cohort) (w : Fleet.Window) : string :=
  "inc_" +:+ tenantID +:+ "_" +:+ Fleet.CohortID cohort +:+ "_" +:+ fmt_d (Unix (Fleet.Start w)).

Definition Open (r : RiskVector) (anomalies : list Anomaly) (correlationID : string) (at_ : Time)
    : option Incident :=
  match anomalies with
  | [] => None
  | _ =>
      let '(severity, rule) := severityOf anomalies in
      Some (mkIncident (deriveID (Fleet.rv_TenantID r) (Fleet.rv_Cohort r) (Fleet.rv_Window r))
              (Fleet.rv_TenantID r) correlationID (Fleet.rv_Cohort r) (Fleet.rv_Window r) severity
              StatusOpen anomalies (sharedDependencies r) (recommend anomalies) [] at_ None rule)
  end.

(** ** What operators do *)

Definition with_actions (i : Incident) (status : Status) (actions : list HumanAction)
    (closedAt : option Time) : Incident :=
  mkIncident (ic_IncidentID i) (ic_TenantID i) (ic_CorrelationID i) (ic_Cohort i) (ic_Window i)
    (ic_Severity i) status (ic_Anomalies i) (ic_SharedDependencies i) (ic_Recommended i) actions
    (ic_OpenedAt i) closedAt (ic_SeverityRule i).

Definition RecordAction (i : Incident) (action actor reason : string) (at_ : Time)
    : Incident * option string :=
  if String.eqb actor "" then
    (i, Some "an unattributed human action is a gap in the account of what happened")
  else if String.eqb reason "" then
    (i, Some "a human action without a reason cannot be reviewed later")
  else
    (with_actions i (ic_Status i) (ic_HumanActions i ++ [mkHumanAction actor action reason at_])
       (ic_ClosedAt i), None).

Definition act (i : Incident) (status : Status) (action actor reason : string) (at_ : Time)
    : Incident * option string :=
  if String.eqb (ic_Status i) StatusClosed then (i, Some "reopening is a new incident")
  else match RecordAction i action actor reason at_ with
       | (i', None) => (with_actions i' status (ic_HumanActions i') (ic_ClosedAt i'), None)
       | failed => failed
       end.

Definition Acknowledge (i : Incident) := act i StatusAcknowledged ActionAcknowledge.
Definition Escalate (i : Incident) := act i StatusEscalated ActionEscalate.

Definition Close (i : Incident) (actor reason : string) (at_ : Time) : Incident * option string :=
  match act i StatusClosed ActionClose actor reason at_ with
  | (i', None) => (with_actions i' (ic_Status i') (ic_HumanActions i') (Some at_), None)
  | failed => failed
  end.

(** * Evidence of an incident *)

Definition IncidentCreated : Evidence.EventName := "incident.created.v1".
Definition IncidentUpdated : Evidence.EventName := "incident.updated.v1".
Definition IncidentEscalated : Evidence.EventName := "incident.escalated.v1".
Definition IncidentClosed : Evidence.EventName := "incident.closed.v1".
Definition ControlRecommended : Evidence.EventName := "control.recommended.v1".
Definition ControlApplied : Evidence.EventName := "control.applied.v1".

Definition action_event (a : HumanAction) : Evidence.EventName :=
  if String.eqb (ha_Action a) ActionEscalate then IncidentEscalated
  else if String.eqb (ha_Action a) ActionClose then IncidentClosed
  else IncidentUpdated.

Definition anomaly_payload (a : Anomaly) : Evidence.Value :=
  let c := an_Component a in
  Evidence.VObject
    [("component", Evidence.VString (cp_Name c)); ("value", Evidence.VFloat (cp_Value c));
     ("coverage", Evidence.VFloat (cp_Coverage c)); ("rule", Evidence.VString (an_Rule a));
     ("observation", Evidence.VString (an_Observation a));
     ("explanation", Evidence.VString (cp_Explanation c))].

Section Events.
(** [time.RFC3339]. *)
Context (rfc3339 : Time -> string).

Definition incident_event (i : Incident) (producer : string) (seq : Z) (name : Evidence.EventName)
    (at_ : Time) (payload : list (string * Evidence.Value)) : Evidence.Event :=
  Evidence.mkEvent Evidence.SchemaVersion
    (ic_IncidentID i +:+ "_" +:+ name +:+ "_" +:+ fmt_d seq) name (ic_TenantID i) (ic_IncidentID i)
    (ic_CorrelationID i) "" at_ at_ producer seq "" (Some payload).

Definition created_event (i : Incident) (producer : string) (seq : Z) : Evidence.Event :=
  incident_event i producer seq IncidentCreated (ic_OpenedAt i)
    [("severity", Evidence.VString (ic_Severity i));
     ("severity_rule", Evidence.VString (ic_SeverityRule i));
     ("cohort", Evidence.VString (Fleet.Expression (ic_Cohort i)));
     ("window_start", Evidence.VString (rfc3339 (Fleet.Start (ic_Window i))));
     ("window_end", Evidence.VString (rfc3339 (Fleet.End_ (ic_Window i))));
     ("anomalies", Evidence.VArray (map anomaly_payload (ic_Anomalies i)));
     ("shared_dependencies", Evidence.VList (ic_SharedDependencies i))].

Definition recommended_event (i : Incident) (producer : string) (seq : Z) : Evidence.Event :=
  incident_event i producer seq ControlRecommended (ic_OpenedAt i)
    [("recommendation", Evidence.VString (ic_Recommended i)); ("enforced", Evidence.VBool false);
     ("note", Evidence.VString "shadow mode: fleet intelligence recommends, customer policy authorizes (INV-009)")].

Definition action_evidence (i : Incident) (producer : string) (seq : Z) (a : HumanAction) : Evidence.Event :=
  incident_event i producer seq (action_event a) (ha_At a)
    [("actor", Evidence.VString (ha_Actor a)); ("action", Evidence.VString (ha_Action a));
     ("reason", Evidence.VString (ha_Reason a))].

Fixpoint actions_evidence (i : Incident) (producer : string) (seq : Z) (l : list HumanAction)
    : list Evidence.Event :=
  match l with
  | [] => []
  | a :: l' => action_evidence i producer seq a :: actions_evidence i producer (seq + 1) l'
  end.

Definition EventsFor (i : Incident) (producer : string) (sequenceBase : Z) : list Evidence.Event :=
  created_event i producer sequenceBase :: recommended_event i producer (sequenceBase + 1) ::
  actions_evidence i producer (sequenceBase + 2) (ic_HumanActions i).
End Events.

(** * The timeline *)

Record TimelineEntry := mkEntry {
  te_At : Time;
  te_EventName : Evidence.EventName;
  te_Producer : string;
  te_Description : string;
  te_Enforced : bool;
  te_Actor : string
}.

Record Timeline := mkTimeline {
  tl_IncidentID : string;
  tl_TenantID : string;
  tl_Entries : list TimelineEntry;
  tl_Recommended : list string;
  tl_Applied : list string
}.

Definition payload_get (p : Evidence.Payload) (key : string) : option Evidence.Value :=
  snd <$> List.find (fun '(k, _) => String.eqb k key) (default [] p).

(** [x, _ := e.Payload[key].(string)]. *)
Definition payload_string (p : Evidence.Payload) (key : string) : string :=
  match payload_get p key with Some (Evidence.VString s) => s | _ => "" end.

Definition payload_array (p : Evidence.Payload) (key : string) : list Evidence.Value :=
  match payload_get p key with Some (Evidence.VArray l) => l | _ => [] end.

Definition anomaly_observation (v : Evidence.Value) : option string :=
  match v with
  | Evidence.VObject m => Some (payload_string (Some m) "observation")
  | _ => None
  end.

Definition string_value (v : Evidence.Value) : option string :=
  match v with Evidence.VString s => Some s | _ => None end.

Definition describeCreation (e : Evidence.Event) : string :=
  let p := Evidence.ev_Payload e in
  let reasons := omap anomaly_observation (payload_array p "anomalies") in
  let deps := omap string_value (payload_array p "shared_dependencies") in
  payload_string p "severity" +:+ " incident opened for cohort " +:+ payload_string p "cohort" +:+
  ", because " +:+ Fleet.join_with "; " reasons +:+ " (rule: " +:+ payload_string p "severity_rule" +:+ ")" +:+
  match deps with [] => "" | _ => "; shared dependencies: " +:+ Fleet.join_with ", " deps end.

Definition is_event (e : Evidence.Event) (n : Evidence.EventName) : bool :=
  String.eqb (Evidence.ev_EventName e) n.

Definition human_event (e : Evidence.Event) : bool :=
  is_event e IncidentUpdated || is_event e IncidentEscalated || is_event e IncidentClosed.

Definition entry_of (e : Evidence.Event) : TimelineEntry :=
  let p := Evidence.ev_Payload e in
  let entry := mkEntry (Evidence.ev_OccurredAt e) (Evidence.ev_EventName e) (Evidence.ev_Producer e) in
  if is_event e IncidentCreated then entry (describeCreation e) false ""
  else if is_event e ControlRecommended then entry ("recommended: " +:+ payload_string p "recommendation") false ""
  else if is_event e Evidence.ControlEnforced then entry ("enforced: " +:+ payload_string p "control") true ""
  else if is_event e ControlApplied then
    entry ("applied: " +:+ payload_string p "control") true (payload_string p "actor")
  else if human_event e then
    entry (payload_string p "action" +:+ " by " +:+ payload_string p "actor" +:+ ": " +:+ payload_string p "reason")
      false (payload_string p "actor")
  else entry (Evidence.ev_EventName e) false "".

(** One event of the loop: a line, and what it recommended or applied. *)
Definition reconstruct_event (t : Timeline) (e : Evidence.Event) : Timeline :=
  let p := Evidence.ev_Payload e in
  mkTimeline (tl_IncidentID t) (tl_TenantID t) (tl_Entries t ++ [entry_of e])
    (if is_event e ControlRecommended then tl_Recommended t ++ [payload_string p "recommendation"]
     else tl_Recommended t)
    (if is_event e ControlApplied then tl_Applied t ++ [payload_string p "control"] else tl_Applied t).

Definition occurred_before (a b : Evidence.Event) : bool :=
  if TimeEqual (Evidence.ev_OccurredAt a) (Evidence.ev_OccurredAt b)
  then Evidence.ev_Sequence a <? Evidence.ev_Sequence b
  else Before (Evidence.ev_OccurredAt a) (Evidence.ev_OccurredAt b).

Definition Reconstruct (events : list Evidence.Event) : result Timeline string :=
  match stable_sort occurred_before events with
  | [] => Err "no evidence: nothing to reconstruct"
  | (first :: _) as ordered =>
      Ok (foldl reconstruct_event
            (mkTimeline (Evidence.ev_AggregateID first) (Evidence.ev_TenantID first) [] [] []) ordered)
  end.

Record Answers := mkAnswers {
  what_happened : bool;
  when_ : bool;
  which_cohort : bool;
  which_dependencies : bool;
  what_evidence : bool;
  what_was_recommended : bool;
  what_the_customer_did : bool
}.

Definition answer (a : Answers) (e : TimelineEntry) : Answers :=
  let created := String.eqb (te_EventName e) IncidentCreated in
  let recommended := String.eqb (te_EventName e) ControlRecommended in
  let d := te_Description e in
  mkAnswers (created || what_happened a) (negb (IsZero (te_At e)) || when_ a)
    (if created then Contains d "cohort" else which_cohort a)
    (if created then Contains d "dependenc" else which_dependencies a)
    (if created then Contains d "because" else what_evidence a)
    (recommended || what_was_recommended a) (str_nonempty (te_Actor e) || what_the_customer_did a).

Definition AnsweredQuestions (t : Timeline) : Answers :=
  foldl answer (mkAnswers false false false false false false false) (tl_Entries t).

(** * The store *)

Record IncidentRow := mkIncidentRow {
  ir_correlation_id : string;
  ir_cohort_id : string;
  ir_window_start : Time;
  ir_window_end : Time;
  ir_severity : string;
  ir_status : string;
  ir_anomalies : string;
  ir_shared_dependencies : string;
  ir_recommended : string;
  ir_severity_rule : string;
  ir_human_actions : string;
  ir_opened_at : Time;
  ir_closed_at : option Time
}.

(** incidents, keyed by (tenant_id, incident_id). *)
Abbreviation Incidents := (gmap (string * string) IncidentRow).

Class IncidentJSON := {
  marshal_anomalies : list Anomaly -> option string;
  unmarshal_anomalies : string -> option (list Anomaly);
  marshal_strings : list string -> option string;
  unmarshal_strings : string -> option (list string);
  marshal_actions : list HumanAction -> option string;
  unmarshal_actions : string -> option (list HumanAction)
}.

Abbreviation IncidentError := string.

Section Store.
Context {HJ : IncidentJSON}.

Definition withTenant {A : Type} (f : TxFault) (db : Incidents) (tenantID : string)
    (fn : Incidents -> Incidents * result A IncidentError) : Incidents * result A IncidentError :=
  if String.eqb tenantID "" then (db, Err "a tenant is required")
  else transaction id f db fn.

(** The CHECK constraints of the table. *)
Definition row_refused (r : IncidentRow) : option string :=
  if negb (contains ["LOW"; "MEDIUM"; "HIGH"; "CRITICAL"] (ir_severity r)) then Some "incidents_severity_valid"
  else if negb (contains ["OPEN"; "ACKNOWLEDGED"; "CLOSED"] (ir_status r)) then Some "incidents_status_valid"
  else if String.eqb (ir_status r) "CLOSED" && isNil (ir_closed_at r) then Some "incidents_closed_has_a_time"
  else if negb (After (ir_window_end r) (ir_window_start r)) then Some "incidents_window_ordered"
  else None.

(** The unique index on the cohort and the window's start. *)
Definition same_window (tenant : string) (r : IncidentRow) (kr : string * string * IncidentRow) : bool :=
  String.eqb (fst (fst kr)) tenant && String.eqb (ir_cohort_id (snd kr)) (ir_cohort_id r) &&
  TimeEqual (ir_window_start (snd kr)) (ir_window_start r).

Definition insert_incident (db : Incidents) (tenant id : string) (r : IncidentRow)
    : Incidents * result bool IncidentError :=
  match row_refused r with
  | Some what => (db, Err what)
  | None =>
      if existsb (same_window tenant r) (map_to_list db) then (db, Ok false)
      else match db !! (tenant, id) with
           | Some _ => (db, Err "incidents_pkey")
           | None => (<[(tenant, id) := r]> db, Ok true)
           end
  end.

Definition Store_Open (f : TxFault) (db : Incidents) (inc : Incident) : Incidents * result bool IncidentError :=
  match marshal_anomalies (ic_Anomalies inc), marshal_strings (ic_SharedDependencies inc),
        marshal_actions (ic_HumanActions inc) with
  | None, _, _ => (db, Err "encode anomalies")
  | _, None, _ => (db, Err "encode shared dependencies")
  | _, _, None => (db, Err "encode human actions")
  | Some anomalies, Some deps, Some actions =>
      withTenant f db (ic_TenantID inc) (fun db =>
        insert_incident db (ic_TenantID inc) (ic_IncidentID inc)
          (mkIncidentRow (ic_CorrelationID inc) (Fleet.CohortID (ic_Cohort inc))
             (Fleet.Start (ic_Window inc)) (Fleet.End_ (ic_Window inc)) (ic_Severity inc) (ic_Status inc)
             anomalies deps (ic_Recommended inc) (ic_SeverityRule inc) actions (ic_OpenedAt inc) None))
  end.

Definition scanIncident (tenant id : string) (r : IncidentRow) : result Incident IncidentError :=
  match unmarshal_anomalies (ir_anomalies r), unmarshal_strings (ir_shared_dependencies r),
        unmarshal_actions (ir_human_actions r) with
  | None, _, _ => Err "unreadable anomalies"
  | _, None, _ => Err "unreadable dependencies"
  | _, _, None => Err "unreadable actions"
  | Some anomalies, Some deps, Some actions =>
      Ok (mkIncident id tenant (ir_correlation_id r) (Fleet.mkCohort tenant [])
            (Fleet.mkWindow (ir_window_start r) (ir_window_end r)) (ir_severity r) (ir_status r) anomalies
            deps (ir_recommended r) actions (ir_opened_at r) (ir_closed_at r) (ir_severity_rule r))
  end.

Fixpoint scan_all (rows : list (string * string * IncidentRow)) : result (list Incident) IncidentError :=
  match rows with
  | [] => Ok []
  | (k, r) :: rows' =>
      let? i := scanIncident (fst k) (snd k) r in
      let? rest := scan_all rows' in
      Ok (i :: rest)
  end.

Definition List_ (f : TxFault) (db : Incidents) (tenantID : string) (limit : Z) : result (list Incident) IncidentError :=
  let limit := if (limit <=? 0) || (200 <? limit) then 50 else limit in
  snd (withTenant f db tenantID (fun db =>
    (db, scan_all
           (firstn (Z.to_nat limit)
              (stable_sort (fun a b => After (ir_opened_at (snd a)) (ir_opened_at (snd b)))
                 (List.filter (fun kr => String.eqb (fst (fst kr)) tenantID) (map_to_list db))))))).

Definition Load (f : TxFault) (db : Incidents) (tenantID incidentID : string)
    : result (option Incident) IncidentError :=
  snd (withTenant f db tenantID (fun db =>
    (db, match db !! (tenantID, incidentID) with
         | None => Ok None
         | Some r => let? i := scanIncident tenantID incidentID r in Ok (Some i)
         end))).

Definition StoredCohortID (f : TxFault) (db : Incidents) (tenantID incidentID : string)
    : result string IncidentError :=
  snd (withTenant f db tenantID (fun db =>
    (db, Ok (match db !! (tenantID, incidentID) with Some r => ir_cohort_id r | None => "" end)))).
End Store.

(** * The detector *)

Record DetectorState := mkDetectorState { ds_incidents : Incidents; ds_evidence : Evidence.Tables }.

Section Detector.
Context {HJ : IncidentJSON} {HE : Evidence.JSON} (rfc3339 : Time -> string).

(** One append per event; a failed append is logged and the next is tried. *)
Fixpoint record_events (faults : nat -> TxFault) (n : nat) (dbnow : Time) (ev : Evidence.Tables)
    (l : list Evidence.Event) : Evidence.Tables :=
  match l with
  | [] => ev
  | e :: l' => record_events faults (S n) dbnow (fst (Evidence.Append (faults n) dbnow ev e)) l'
  end.

Definition correlation_of (r : RiskVector) : string :=
  "incident_" +:+ Fleet.rv_TenantID r +:+ "_" +:+ Fleet.CohortID (Fleet.rv_Cohort r) +:+ "_" +:+
  fmt_d (Unix (Fleet.Start (Fleet.rv_Window r))).

(** The incident of a window, if it has one. *)
Definition incident_of (rules : DetectionRules) (r : RiskVector) (at_ : Time) : option Incident :=
  Open r (Detect r rules at_) (correlation_of r) at_.

Definition Observe (rules : DetectionRules) (f : TxFault) (faults : nat -> TxFault) (at_ : Time)
    (s : DetectorState) (r : RiskVector) : DetectorState :=
  match incident_of rules r at_ with
  | None => s
  | Some inc =>
      match Store_Open f (ds_incidents s) inc with
      | (incidents, Ok true) =>
          mkDetectorState incidents
            (record_events faults 0 at_ (ds_evidence s) (EventsFor rfc3339 inc "fleet-engine" 1))
      | (incidents, _) => mkDetectorState incidents (ds_evidence s)
      end
  end.
End Detector.

(** * Detection reports only what was measured *)

Definition anomaly_of (components : list Component) (at_ : Time) (a : Anomaly) : Prop :=
  an_Component a ∈ components /\ cp_Known (an_Component a) = true /\ an_DetectedAt a = at_.

Lemma detect_burst_cases r rules at_ :
  detect_burst r rules at_ = [] \/
  exists a, detect_burst r rules at_ = [a] /\ an_Component a = Fleet.rv_B r /\ anomaly_of [Fleet.rv_B r] at_ a.
Proof.
  unfold detect_burst. destruct (cp_Known (Fleet.rv_B r)) eqn:Ek; cbn [andb]; [|by left].
  case_match; [right | by left]. eexists. split; [done|]. split; [done|].
  split_and!; [constructor | exact Ek | done].
Qed.

Lemma detect_direction_cases r rules at_ :
  detect_direction r rules at_ = [] \/
  exists a, detect_direction r rules at_ = [a] /\ an_Component a = Fleet.rv_D r /\ anomaly_of [Fleet.rv_D r] at_ a.
Proof.
  unfold detect_direction. destruct (cp_Known (Fleet.rv_D r)) eqn:Ek; cbn [andb]; [|by left].
  case_match; [right | by left]. eexists. split; [done|]. split; [done|].
  split_and!; [constructor | exact Ek | done].
Qed.

Lemma detect_concentration_cases rules at_ c :
  detect_concentration rules at_ c = [] \/
  exists a, detect_concentration rules at_ c = [a] /\ an_Component a = c /\ anomaly_of [c] at_ a.
Proof.
  unfold detect_concentration. destruct (cp_Known c) eqn:Ek; cbn [negb orb]; [|by left].
  case_match; [by left | right]. eexists. split; [done|]. split; [done|].
  split_and!; [constructor | exact Ek | done].
Qed.

Lemma anomaly_of_incl l l' at_ a : anomaly_of l at_ a -> (forall c, c ∈ l -> c ∈ l') -> anomaly_of l' at_ a.
Proof. intros (? & ? & ?) Hl. split_and!; auto. Qed.

(** Membership in the list of the vector's components. *)
Ltac in_components := apply list_elem_of_In; unfold Fleet.Components; cbn in *; intuition (subst; auto 10).

Lemma Detect_parts r rules at_ :
  Forall (anomaly_of (Fleet.Components r) at_) (Detect r rules at_).
Proof.
  unfold Detect. apply Forall_app_2; [|apply Forall_app_2].
  - destruct (detect_burst_cases r rules at_) as [->|(a & -> & _ & Ha)]; [constructor | constructor; [|constructor]].
    apply (anomaly_of_incl _ _ _ _ Ha). intros c ->%list_elem_of_singleton. in_components.
  - destruct (detect_direction_cases r rules at_) as [->|(a & -> & _ & Ha)]; [constructor | constructor; [|constructor]].
    apply (anomaly_of_incl _ _ _ _ Ha). intros c ->%list_elem_of_singleton. in_components.
  - apply Forall_forall. intros a Hin%list_elem_of_In. apply in_concat in Hin as (l & Hl & Ha%list_elem_of_In).
    apply in_map_iff in Hl as (c & <- & Hc%list_elem_of_In).
    destruct (detect_concentration_cases rules at_ c) as [E|(a' & E & _ & Ha')]; rewrite E in Ha;
      [by apply elem_of_nil in Ha|].
    apply list_elem_of_singleton in Ha as ->. apply (anomaly_of_incl _ _ _ _ Ha').
    intros c' ->%list_elem_of_singleton. apply list_elem_of_In in Hc. in_components.
Qed.

(** ** Severity *)

Definition is_burst (a : Anomaly) : bool := HasPrefix (cp_Name (an_Component a)) "B_".
Definition is_directional (a : Anomaly) : bool :=
  negb (is_burst a) && HasPrefix (cp_Name (an_Component a)) "D_".
Definition is_concentration (a : Anomaly) : bool :=
  negb (is_burst a) && negb (HasPrefix (cp_Name (an_Component a)) "D_") && HasPrefix (cp_Name (an_Component a)) "C".

Lemma count_anomaly_step b d n a :
  count_anomaly (b, d, n) a =
  (b || is_burst a, d || is_directional a, n + if is_concentration a then 1 else 0).
Proof.
  unfold count_anomaly, is_directional, is_concentration, is_burst.
  destruct (HasPrefix _ "B_"), (HasPrefix _ "D_"), (HasPrefix _ "C"); cbn [negb andb];
    rewrite ?orb_true_r, ?orb_false_r, ?Z.add_0_r; done.
Qed.

Lemma count_anomalies l b d n :
  foldl count_anomaly (b, d, n) l =
  (b || existsb is_burst l, d || existsb is_directional l, n + Fleet.count_if is_concentration l).
Proof.
  revert b d n. induction l as [|a l IH]; intros b d n; cbn [foldl existsb].
  - by rewrite !orb_false_r, Fleet.count_if_nil, Z.add_0_r.
  - by rewrite Fleet.count_if_cons, count_anomaly_step, IH, !orb_assoc, Z.add_assoc.
Qed.

Definition severity_level (s : Severity) : Z :=
  if String.eqb s SeverityHigh then 3 else if String.eqb s SeverityMedium then 2
  else if String.eqb s SeverityLow then 1 else 0.

(** The level of a burst, a direction and a number of concentrations. *)
Definition level_of (b d : bool) (n : Z) : Z :=
  if b && d && (0 <? n) then 3 else if (b && d) || (1 <? n) then 2 else if b || d || (0 <? n) then 1 else 0.

Lemma severity_level_of l :
  severity_level (fst (severityOf l)) =
  level_of (existsb is_burst l) (existsb is_directional l) (Fleet.count_if is_concentration l).
Proof.
  unfold severityOf. rewrite count_anomalies, Z.add_0_l, !orb_false_l. unfold level_of.
  destruct (existsb is_burst l), (existsb is_directional l), (0 <? Fleet.count_if is_concentration l),
    (1 <? Fleet.count_if is_concentration l); done.
Qed.

Lemma existsb_submseteq {A} (p : A -> bool) l l' : l ⊆+ l' -> existsb p l = true -> existsb p l' = true.
Proof.
  intros Hl. rewrite !existsb_exists. intros (x & Hx & Hp). exists x. split; [|done].
  apply list_elem_of_In. apply list_elem_of_In in Hx. by apply (elem_of_submseteq l l').
Qed.

Lemma count_if_submseteq {A} (p : A -> bool) l l' : l ⊆+ l' -> Fleet.count_if p l <= Fleet.count_if p l'.
Proof.
  induction 1; rewrite ?Fleet.count_if_nil, ?Fleet.count_if_cons; try lia; try done.
  destruct (p x); lia.
Qed.

(** Severity is a property of which components are anomalous, never of how they are
    listed: more anomalies, in whatever order, never lower it. *)
Theorem severity_monotone l l' :
  l ⊆+ l' -> severity_level (fst (severityOf l)) <= severity_level (fst (severityOf l')).
Proof.
  intros Hl. rewrite !severity_level_of.
  pose proof (existsb_submseteq is_burst l l' Hl). pose proof (existsb_submseteq is_directional l l' Hl).
  pose proof (count_if_submseteq is_concentration l l' Hl). unfold level_of.
  destruct (existsb is_burst l), (existsb is_burst l'); try (by destruct H); 
  destruct (existsb is_directional l), (existsb is_directional l'); try (by destruct H0); cbn [andb orb];
    destruct (Z.ltb_spec 0 (Fleet.count_if is_concentration l)), (Z.ltb_spec 0 (Fleet.count_if is_concentration l')),
      (Z.ltb_spec 1 (Fleet.count_if is_concentration l)), (Z.ltb_spec 1 (Fleet.count_if is_concentration l')); cbn; lia.
Qed.

(** ** The severity of a measured window *)

Definition fires (l : list Anomaly) : bool := negb (length l =? 0)%nat.

Definition concentrated (r : RiskVector) (rules : DetectionRules) (at_ : Time) : Z :=
  Fleet.count_if (fun c => fires (detect_concentration rules at_ c)) (concentrations r).

(** What a list of at most one anomaly, of a component of a known name, counts as. *)
Lemma kinds_of (l : list Anomaly) c (P : Anomaly -> Prop) name :
  l = [] \/ (exists a, l = [a] /\ an_Component a = c /\ P a) -> cp_Name c = name ->
  existsb is_burst l = fires l && HasPrefix name "B_" /\
  existsb is_directional l = fires l && (negb (HasPrefix name "B_") && HasPrefix name "D_") /\
  Fleet.count_if is_concentration l =
    if fires l && (negb (HasPrefix name "B_") && negb (HasPrefix name "D_") && HasPrefix name "C") then 1 else 0.
Proof.
  intros [->|(a & -> & Ha & _)] Hn; [done|]. cbn [existsb fires length Nat.eqb negb andb].
  rewrite Fleet.count_if_cons, Fleet.count_if_nil, !orb_false_r, Z.add_0_r.
  unfold is_directional, is_concentration, is_burst. by rewrite Ha, Hn.
Qed.

Lemma count_if_app {A} (p : A -> bool) l1 l2 :
  Fleet.count_if p (l1 ++ l2) = Fleet.count_if p l1 + Fleet.count_if p l2.
Proof. unfold Fleet.count_if. rewrite List.filter_app, length_app. lia. Qed.

Lemma detect_names r rules at_ :
  Forall2 Fleet.component_ok Fleet.component_names (Fleet.Components r) ->
  existsb is_burst (Detect r rules at_) = fires (detect_burst r rules at_) /\
  existsb is_directional (Detect r rules at_) = fires (detect_direction r rules at_) /\
  Fleet.count_if is_concentration (Detect r rules at_) = concentrated r rules at_.
Proof.
  unfold Fleet.component_names, Fleet.Components. intros H.
  apply Forall2_cons_1 in H as [[Nd _ _] H]. apply Forall2_cons_1 in H as [[Nb _ _] H].
  apply Forall2_cons_1 in H as [[Nm _ _] H]. apply Forall2_cons_1 in H as [[Ns _ _] H].
  apply Forall2_cons_1 in H as [[Nf _ _] _].
  destruct (kinds_of _ _ _ _ (detect_burst_cases r rules at_) Nb) as (B1 & B2 & B3).
  destruct (kinds_of _ _ _ _ (detect_direction_cases r rules at_) Nd) as (D1 & D2 & D3).
  destruct (kinds_of _ _ _ _ (detect_concentration_cases rules at_ _) Nm) as (M1 & M2 & M3).
  destruct (kinds_of _ _ _ _ (detect_concentration_cases rules at_ _) Ns) as (S1 & S2 & S3).
  destruct (kinds_of _ _ _ _ (detect_concentration_cases rules at_ _) Nf) as (F1 & F2 & F3).
  unfold Detect, concentrated, concentrations. cbn [map List.concat].
  rewrite !existsb_app, !count_if_app, !Fleet.count_if_cons, !Fleet.count_if_nil,
    B1, B2, B3, D1, D2, D3, M1, M2, M3, S1, S2, S3, F1, F2, F3. cbn.
  rewrite !andb_false_r, !andb_true_r, !orb_false_r. done.
Qed.

Lemma fires_false l : fires l = false <-> l = [].
Proof. by destruct l. Qed.

Lemma concentrated_nonneg r rules at_ : 0 <= concentrated r rules at_.
Proof. apply Fleet.count_if_nonneg. Qed.

Lemma level_zero b d n : 0 <= n -> level_of b d n = 0 -> b = false /\ d = false /\ n = 0.
Proof.
  intros Hn. unfold level_of. destruct b, d, (Z.ltb_spec 0 n), (Z.ltb_spec 1 n); cbn; try done; lia.
Qed.

Lemma Detect_level r rules at_ :
  level_of (fires (detect_burst r rules at_)) (fires (detect_direction r rules at_)) (concentrated r rules at_) = 0 ->
  Detect r rules at_ = [].
Proof.
  intros (Hb%fires_false & Hd%fires_false & Hc)%level_zero; [|apply concentrated_nonneg].
  unfold concentrated, concentrations in Hc. rewrite !Fleet.count_if_cons, Fleet.count_if_nil in Hc.
  unfold Detect. rewrite Hb, Hd. unfold concentrations. cbn.
  destruct (detect_concentration rules at_ (Fleet.rv_Cm r)), (detect_concentration rules at_ (Fleet.rv_Cs r)),
    (detect_concentration rules at_ (Fleet.rv_Cf r)); cbn in *; done || lia.
Qed.

(** The severity of a measured window follows the rule it is recorded with: HIGH exactly
    when a burst, one-directional flow and a concentrated dependency were all found, and
    never INFO; nothing found opens nothing. *)
Theorem measured_severity range c w envelopes baseline md rules corr at_ :
  let r := Fleet.ComputeVector range c w envelopes baseline md in
  let burst := fires (detect_burst r rules at_) in
  let directional := fires (detect_direction r rules at_) in
  let n := concentrated r rules at_ in
  match Open r (Detect r rules at_) corr at_ with
  | None => Detect r rules at_ = [] /\ level_of burst directional n = 0
  | Some inc =>
      severity_level (ic_Severity inc) = level_of burst directional n /\ ic_Severity inc <> SeverityInfo /\
      ic_TenantID inc = Fleet.co_TenantID c /\ ic_Status inc = StatusOpen /\
      Forall (anomaly_of (Fleet.Components r) at_) (ic_Anomalies inc)
  end.
Proof.
  intros r burst directional n.
  pose proof (proj1 (Fleet.vector_parts range c w envelopes baseline md)) as Hnames.
  fold r in Hnames. pose proof (detect_names r rules at_ Hnames) as (Hb & Hd & Hn).
  assert (Ht : Fleet.rv_TenantID r = Fleet.co_TenantID c) by apply Fleet.vector_parts.
  pose proof (Detect_parts r rules at_) as Hparts.
  pose proof (severity_level_of (Detect r rules at_)) as Hs. rewrite Hb, Hd, Hn in Hs.
  fold burst directional n in Hs. unfold Open.
  destruct (Detect r rules at_) as [|a l] eqn:El.
  - split; [done|]. subst burst directional n. by rewrite <- Hb, <- Hd, <- Hn.
  - destruct (severityOf (a :: l)) as [sev rule] eqn:Es. cbn [ic_Severity ic_TenantID ic_Status ic_Anomalies].
    cbn [fst] in Hs. split_and!; try done. intros ->.
    symmetry in Hs. apply (Detect_level r rules at_) in Hs. by rewrite El in Hs.
Qed.

(** * What operators can do to an incident *)

Inductive incident_op :=
| OpAcknowledge (actor reason : string) (at_ : Time)
| OpEscalate (actor reason : string) (at_ : Time)
| OpClose (actor reason : string) (at_ : Time)
| OpRecord (action actor reason : string) (at_ : Time).

Definition incident_step (i : Incident) (o : incident_op) : Incident :=
  fst match o with
      | OpAcknowledge actor reason at_ => Acknowledge i actor reason at_
      | OpEscalate actor reason at_ => Escalate i actor reason at_
      | OpClose actor reason at_ => Close i actor reason at_
      | OpRecord action actor reason at_ => RecordAction i action actor reason at_
      end.

(** The account of what was observed: everything but what people did about it. *)
Definition account (i : Incident) :=
  (ic_IncidentID i, ic_TenantID i, ic_CorrelationID i, ic_Cohort i, ic_Window i,
   (ic_Severity i, ic_SeverityRule i, ic_Anomalies i, ic_SharedDependencies i, ic_Recommended i, ic_OpenedAt i)).

Definition attributed (a : HumanAction) : Prop := ha_Actor a <> "" /\ ha_Reason a <> "".

(** What one operation may change. *)
Record evolves (i i' : Incident) : Prop := {
  ev_account : account i' = account i;
  ev_actions : exists more, ic_HumanActions i' = ic_HumanActions i ++ more /\ Forall attributed more;
  ev_terminal : ic_Status i = StatusClosed -> ic_Status i' = StatusClosed /\ ic_ClosedAt i' = ic_ClosedAt i
}.

Lemma evolves_refl i : evolves i i.
Proof. split; [done | exists []; by rewrite app_nil_r | done]. Qed.

Lemma evolves_trans i1 i2 i3 : evolves i1 i2 -> evolves i2 i3 -> evolves i1 i3.
Proof.
  intros [A1 (m1 & E1 & F1) T1] [A2 (m2 & E2 & F2) T2]. split.
  - by rewrite A2.
  - exists (m1 ++ m2). rewrite E2, E1, app_assoc. split; [done | by apply Forall_app_2].
  - intros H. destruct (T1 H) as [H1 H1']. destruct (T2 H1) as [-> ->]. done.
Qed.

#[export] Instance evolves_preorder : PreOrder evolves.
Proof. split; [exact evolves_refl | exact evolves_trans]. Qed.

Lemma RecordAction_cases i action actor reason at_ :
  (exists e, RecordAction i action actor reason at_ = (i, Some e)) \/
  (actor <> "" /\ reason <> "" /\
   RecordAction i action actor reason at_ =
     (with_actions i (ic_Status i) (ic_HumanActions i ++ [mkHumanAction actor action reason at_]) (ic_ClosedAt i), None)).
Proof.
  unfold RecordAction. destruct (String.eqb_spec actor ""); [left; eauto|].
  destruct (String.eqb_spec reason ""); [left; eauto | by right].
Qed.

Lemma act_cases i status action actor reason at_ :
  (exists e, act i status action actor reason at_ = (i, Some e)) \/
  (ic_Status i <> StatusClosed /\ actor <> "" /\ reason <> "" /\
   act i status action actor reason at_ =
     (with_actions i status (ic_HumanActions i ++ [mkHumanAction actor action reason at_]) (ic_ClosedAt i), None)).
Proof.
  unfold act. destruct (String.eqb_spec (ic_Status i) StatusClosed); [left; eauto|].
  destruct (RecordAction_cases i action actor reason at_) as [[e ->]|(? & ? & ->)]; [left; eauto | by right].
Qed.

Lemma evolves_with_actions i status actor action reason at_ closed :
  actor <> "" -> reason <> "" -> (ic_Status i = StatusClosed -> status = StatusClosed /\ closed = ic_ClosedAt i) ->
  evolves i (with_actions i status (ic_HumanActions i ++ [mkHumanAction actor action reason at_]) closed).
Proof. intros ? ? H. split; [done | eexists; split; [done | by repeat constructor] | exact H]. Qed.

Lemma step_evolves i o : evolves i (incident_step i o).
Proof.
  destruct o as [actor reason at_|actor reason at_|actor reason at_|action actor reason at_];
    unfold incident_step, Acknowledge, Escalate, Close.
  - destruct (act_cases i StatusAcknowledged ActionAcknowledge actor reason at_)
      as [[e ->]|(? & ? & ? & ->)]; [done | by apply evolves_with_actions].
  - destruct (act_cases i StatusEscalated ActionEscalate actor reason at_)
      as [[e ->]|(? & ? & ? & ->)]; [done | by apply evolves_with_actions].
  - destruct (act_cases i StatusClosed ActionClose actor reason at_)
      as [[e ->]|(? & ? & ? & ->)]; [done | by apply (evolves_with_actions i StatusClosed actor _ reason at_ (Some at_))].
  - destruct (RecordAction_cases i action actor reason at_) as [[e ->]|(? & ? & ->)];
      [done | by apply evolves_with_actions].
Qed.

Lemma run_evolves i ops : evolves i (run_ops incident_step i ops).
Proof.
  revert i. induction ops as [|o ops IH]; intros i; [done|]. cbn.
  etrans; [apply step_evolves | apply IH].
Qed.

(** Closing stamps the time, and only closing does. *)
Definition close_stamped (i : Incident) : Prop := ic_Status i = StatusClosed <-> ic_ClosedAt i <> None.

Lemma step_close_stamped i o : close_stamped i -> close_stamped (incident_step i o).
Proof.
  unfold close_stamped. intros H.
  destruct o as [actor reason at_|actor reason at_|actor reason at_|action actor reason at_];
    unfold incident_step, Acknowledge, Escalate, Close.
  - destruct (act_cases i StatusAcknowledged ActionAcknowledge actor reason at_)
      as [[e ->]|(? & ? & ? & ->)]; cbn; [done|]. rewrite <- H. by split.
  - destruct (act_cases i StatusEscalated ActionEscalate actor reason at_)
      as [[e ->]|(? & ? & ? & ->)]; cbn; [done|]. rewrite <- H. by split.
  - destruct (act_cases i StatusClosed ActionClose actor reason at_)
      as [[e ->]|(? & ? & ? & ->)]; cbn; [exact H | by split].
  - by destruct (RecordAction_cases i action actor reason at_) as [[e ->]|(? & ? & ->)].
Qed.

Lemma run_close_stamped i ops : close_stamped i -> close_stamped (run_ops incident_step i ops).
Proof. apply run_ops_invariant. intros. by apply step_close_stamped. Qed.

(** The evidence of an incident. *)
Lemma actions_evidence_app i p n l l' :
  actions_evidence i p n (l ++ l') =
  actions_evidence i p n l ++ actions_evidence i p (n + Z.of_nat (length l)) l'.
Proof.
  revert n. induction l as [|a l IH]; intros n; cbn [app actions_evidence length]; [by rewrite Z.add_0_r|].
  rewrite IH. do 3 f_equal. lia.
Qed.

Lemma actions_evidence_account i i' p n l :
  account i' = account i -> actions_evidence i' p n l = actions_evidence i p n l.
Proof.
  intros H. injection H as H1 H2 H3 H4 H5 H6 H7 H8 H9 H10 H11. revert n.
  induction l as [|a l IH]; intros n; cbn; [done|]. rewrite IH. f_equal.
  unfold action_evidence, incident_event. by rewrite H1, H2, H3.
Qed.

Lemma EventsFor_extends rfc3339 i i' p n :
  evolves i i' -> exists more, EventsFor rfc3339 i' p n = EventsFor rfc3339 i p n ++ more.
Proof.
  intros [A (l & E & _) _]. unfold EventsFor. rewrite E, actions_evidence_app.
  rewrite !(actions_evidence_account i i' p _ _ A).
  injection A as H1 H2 H3 H4 H5 H6 H7 H8 H9 H10 H11.
  unfold created_event, recommended_event, incident_event. rewrite H1, H2, H3, H4, H5, H6, H7, H8, H9, H10, H11.
  eexists. cbn. done.
Qed.

(** What happens to an incident once opened: operators only ever add actions, each with a
    name and a reason, and never touch what was observed, its severity or what was
    recommended; closing is final and alone carries a time; and its evidence only grows, so
    what was appended for it earlier stays its prefix. *)
Theorem incident_lifecycle rfc3339 r anomalies corr at_ ops ops' producer seq :
  match Open r anomalies corr at_ with
  | None => anomalies = []
  | Some opened =>
      let i := run_ops incident_step opened ops in
      let i' := run_ops incident_step i ops' in
      account i = account opened /\ Forall attributed (ic_HumanActions i) /\
      (ic_Status i = StatusClosed <-> ic_ClosedAt i <> None) /\
      (if String.eqb (ic_Status i) StatusClosed
       then ic_Status i' = StatusClosed /\ ic_ClosedAt i' = ic_ClosedAt i else True) /\
      ic_HumanActions i `prefix_of` ic_HumanActions i' /\
      EventsFor rfc3339 i producer seq `prefix_of` EventsFor rfc3339 i' producer seq
  end.
Proof.
  unfold Open. destruct anomalies as [|a l]; [done|]. destruct (severityOf (a :: l)) as [sev rule].
  set (opened := mkIncident _ _ _ _ _ _ _ _ _ _ _ _ _ _). cbv iota beta zeta.
  set (i := run_ops incident_step opened ops). set (i' := run_ops incident_step i ops').
  assert (Hs : close_stamped opened) by (unfold close_stamped; cbn; split; [discriminate | congruence]).
  pose proof (run_evolves opened ops) as H1. pose proof (run_evolves i ops') as H2.
  fold i in H1. fold i' in H2. split; [apply H1|]. split.
  { destruct H1 as [_ (more & E & Hm) _]. rewrite E. by apply Forall_app_2. }
  split; [apply (run_close_stamped opened ops Hs)|]. split.
  { destruct (String.eqb_spec (ic_Status i) StatusClosed); [by apply H2 | done]. }
  destruct H2 as [A (more & E & Hm) T]. split; [by exists more|].
  apply EventsFor_extends. split; eauto.
Qed.

(** * The evidence of an incident is a replayable record *)

Definition arrival (e : Evidence.Event) : Time * Z := (Evidence.ev_OccurredAt e, Evidence.ev_Sequence e).

Lemma occurred_before_asym a b : occurred_before a b = true -> occurred_before b a = false.
Proof.
  unfold occurred_before, TimeEqual, Before. rewrite (Z.eqb_sym (Evidence.ev_OccurredAt b)).
  destruct (Z.eqb_spec (Evidence.ev_OccurredAt a) (Evidence.ev_OccurredAt b)); intros; b2p; apply Z.ltb_ge; lia.
Qed.

Lemma occurred_not_after_iff a b :
  not_after occurred_before a b <->
  (Evidence.ev_OccurredAt a < Evidence.ev_OccurredAt b \/
   (Evidence.ev_OccurredAt a = Evidence.ev_OccurredAt b /\ Evidence.ev_Sequence a <= Evidence.ev_Sequence b)).
Proof.
  unfold not_after, occurred_before, TimeEqual, Before.
  destruct (Z.eqb_spec (Evidence.ev_OccurredAt b) (Evidence.ev_OccurredAt a)); rewrite Z.ltb_ge; lia.
Qed.

Lemma occurred_not_after_trans a b c :
  not_after occurred_before a b -> not_after occurred_before b c -> not_after occurred_before a c.
Proof. rewrite !occurred_not_after_iff. lia. Qed.

Lemma occurred_sort_order_free l l' :
  NoDup (map arrival l) -> l ≡ₚ l' -> stable_sort occurred_before l = stable_sort occurred_before l'.
Proof.
  intros Hnd HP. apply stable_sort_unique.
  - apply occurred_before_asym.
  - apply occurred_not_after_trans.
  - intros x y Hx Hy H1 H2. apply (nodup_map_eq arrival l x y Hnd Hx Hy).
    apply occurred_not_after_iff in H1, H2. unfold arrival. f_equal; lia.
  - done.
Qed.

(** The events of an incident are numbered in the order they are made. *)
Lemma actions_numbered i p n l :
  map Evidence.ev_Sequence (actions_evidence i p n l) = seqZ n (Z.of_nat (length l)).
Proof.
  revert n. induction l as [|a l IH]; intros n; cbn [actions_evidence map length]; [done|].
  rewrite IH, (seqZ_cons n (Z.of_nat (S (length l)))) by lia. cbn. do 2 f_equal; lia.
Qed.

Lemma EventsFor_numbered rfc3339 i p n :
  map Evidence.ev_Sequence (EventsFor rfc3339 i p n) = seqZ n (2 + Z.of_nat (length (ic_HumanActions i))).
Proof.
  unfold EventsFor. cbn [map]. rewrite actions_numbered, (seqZ_cons n) by lia.
  rewrite (seqZ_cons (Z.succ n)) by lia. cbn. do 3 f_equal; lia.
Qed.

Lemma NoDup_by {A B C} (f : A -> B) (g : B -> C) l : NoDup (map (fun x => g (f x)) l) -> NoDup (map f l).
Proof. rewrite <- (map_map f g). apply NoDup_fmap_1. Qed.

Lemma EventsFor_arrivals rfc3339 i p n : NoDup (map arrival (EventsFor rfc3339 i p n)).
Proof.
  apply (NoDup_by arrival snd).
  change (NoDup (map Evidence.ev_Sequence (EventsFor rfc3339 i p n))). rewrite EventsFor_numbered. apply NoDup_seqZ.
Qed.

(** *** Identifiers *)

Definition incident_events : list Evidence.EventName :=
  [IncidentCreated; ControlRecommended; IncidentUpdated; IncidentEscalated; IncidentClosed].

Definition made_for (i : Incident) (p : string) (e : Evidence.Event) : Prop :=
  exists name at_ payload, name ∈ incident_events /\
    (at_ = ic_OpenedAt i \/ at_ ∈ map ha_At (ic_HumanActions i)) /\
    e = incident_event i p (Evidence.ev_Sequence e) name at_ payload.

Lemma action_event_known a : action_event a ∈ incident_events.
Proof. unfold action_event. apply list_elem_of_In. cbn. repeat case_match; auto 10. Qed.

Lemma actions_made_for i p n l :
  (forall a, a ∈ l -> a ∈ ic_HumanActions i) -> Forall (made_for i p) (actions_evidence i p n l).
Proof.
  revert n. induction l as [|a l IH]; intros n H; cbn; constructor.
  - eexists _, _, _. split; [apply action_event_known|]. split; [|reflexivity].
    right. apply list_elem_of_In, in_map, list_elem_of_In, H. by left.
  - apply IH. intros b Hb. apply H. by right.
Qed.

Lemma EventsFor_made_for rfc3339 i p n : Forall (made_for i p) (EventsFor rfc3339 i p n).
Proof.
  unfold EventsFor. constructor; [|constructor; [|by apply actions_made_for]].
  - exists IncidentCreated. eexists _, _. split; [apply list_elem_of_In; cbn; auto 10 | split; [by left | reflexivity]].
  - exists ControlRecommended. eexists _, _. split; [apply list_elem_of_In; cbn; auto 10 | split; [by left | reflexivity]].
Qed.

Lemma name_word name : name ∈ incident_events -> str_mem "_"%char name = false /\ Evidence.Known name = true /\
  String.eqb name Evidence.EvidenceCorrected = false.
Proof.
  intros H%list_elem_of_In. cbn in H.
  repeat match goal with H : _ \/ _ |- _ => destruct H as [<-|H] end; [by vm_compute..|done].
Qed.

Lemma str_app_cancel a b c : a +:+ b = a +:+ c -> b = c.
Proof. induction a as [|x a IH]; cbn; [done|]. intros [= H]. by apply IH. Qed.

Lemma event_id_sequence i p n n' name name' at_ at' payload payload' :
  name ∈ incident_events -> name' ∈ incident_events -> 0 <= n -> 0 <= n' ->
  Evidence.ev_EventID (incident_event i p n name at_ payload) =
  Evidence.ev_EventID (incident_event i p n' name' at' payload') -> n = n'.
Proof.
  intros (H1 & _)%name_word (H2 & _)%name_word Hn Hn'. cbn. intros H%str_app_cancel.
  injection H as H. apply (f_equal (Cut "_"%char)) in H.
  rewrite (Cut_app _ _ (fmt_d n)), (Cut_app _ _ (fmt_d n')) in H by done.
  injection H as _ H. by apply fmt_d_inj.
Qed.

Lemma NoDup_map_inj {A B} (f : A -> B) l :
  NoDup l -> (forall x y, x ∈ l -> y ∈ l -> f x = f y -> x = y) -> NoDup (map f l).
Proof.
  induction 1 as [|x l Hx Hl IH]; intros H; cbn; constructor.
  - intros Hin. apply list_elem_of_In, in_map_iff in Hin as (y & Hy & Hin%list_elem_of_In).
    apply Hx. rewrite (H x y); [done | by left | by right | done].
  - apply IH. intros y z Hy Hz. apply H; by right.
Qed.

Lemma EventsFor_ids rfc3339 i p n :
  0 <= n -> NoDup (map Evidence.ev_EventID (EventsFor rfc3339 i p n)).
Proof.
  intros Hn. pose proof (EventsFor_numbered rfc3339 i p n) as Hs.
  assert (Hnd : NoDup (map Evidence.ev_Sequence (EventsFor rfc3339 i p n))) by (rewrite Hs; apply NoDup_seqZ).
  assert (Hge : forall e, e ∈ EventsFor rfc3339 i p n -> 0 <= Evidence.ev_Sequence e).
  { intros e He. assert (Hin : Evidence.ev_Sequence e ∈ map Evidence.ev_Sequence (EventsFor rfc3339 i p n))
      by (by apply list_elem_of_In, in_map, list_elem_of_In).
    rewrite Hs in Hin. apply elem_of_seqZ in Hin. lia. }
  pose proof (EventsFor_made_for rfc3339 i p n) as Hm. rewrite Forall_forall in Hm.
  apply NoDup_map_inj; [by apply (NoDup_fmap_1 Evidence.ev_Sequence)|].
  intros x y Hx Hy Hxy. apply (nodup_map_eq Evidence.ev_Sequence _ x y Hnd Hx Hy).
  pose proof (Hge x Hx) as Gx. pose proof (Hge y Hy) as Gy.
  destruct (Hm x Hx) as (nx & ax & px & Nx & _ & Ex). destruct (Hm y Hy) as (ny & ay & py & Ny & _ & Ey).
  rewrite Ex, Ey in Hxy. by apply (event_id_sequence _ _ _ _ _ _ _ _ _ _ Nx Ny Gx Gy) in Hxy.
Qed.

Lemma underscore_not_blank a b : blank (a +:+ "_" +:+ b) = false.
Proof.
  apply (mem_not_blank 95); [vm_compute; done|]. rewrite !bytes_app, !elem_of_app. right. left.
  vm_compute. constructor.
Qed.

Lemma made_for_valid i p e :
  blank (ic_IncidentID i) = false -> blank (ic_TenantID i) = false -> blank (ic_CorrelationID i) = false ->
  blank p = false -> ic_OpenedAt i <> 0 -> Forall (fun a => ha_At a <> 0) (ic_HumanActions i) ->
  0 <= Evidence.ev_Sequence e -> made_for i p e -> Evidence.Validate e = "".
Proof.
  intros Hi Ht Hc Hp Ho Ha Hs (name & at_ & payload & Hn & Hat & ->).
  assert (Hz : at_ <> 0).
  { destruct Hat as [->|Hat]; [done|]. apply list_elem_of_In, in_map_iff in Hat as (a & <- & Hin).
    rewrite Forall_forall in Ha. by apply Ha, list_elem_of_In. }
  apply name_word in Hn as (_ & Hk & Hcor). unfold incident_event in *. cbn in Hs.
  unfold Evidence.Validate. cbn -[blank Evidence.Known String.append].
  rewrite underscore_not_blank, Hk, Ht, Hi, Hc, Hp, Hcor. unfold IsZero. cbn -[blank].
  destruct (Z.eqb_spec at_ 0); [done|]. destruct (Z.ltb_spec (Evidence.ev_Sequence e) 0); [lia | done].
Qed.

(** *** The timeline *)

Lemma reconstruct_fold t l :
  foldl reconstruct_event t l =
  mkTimeline (tl_IncidentID t) (tl_TenantID t) (tl_Entries t ++ map entry_of l)
    (tl_Recommended t ++ map (fun e => payload_string (Evidence.ev_Payload e) "recommendation")
                           (List.filter (fun e => is_event e ControlRecommended) l))
    (tl_Applied t ++ map (fun e => payload_string (Evidence.ev_Payload e) "control")
                       (List.filter (fun e => is_event e ControlApplied) l)).
Proof.
  revert t. induction l as [|e l IH]; intros t; cbn [foldl].
  - cbn. rewrite !app_nil_r. by destruct t.
  - rewrite IH. unfold reconstruct_event. cbn [tl_IncidentID tl_TenantID tl_Entries tl_Recommended tl_Applied map List.filter].
    rewrite <- app_assoc. destruct (is_event e ControlRecommended), (is_event e ControlApplied); cbn [map];
      rewrite <- ?app_assoc; done.
Qed.

Lemma action_is_human i p n a : human_event (action_evidence i p n a) = true /\
  is_event (action_evidence i p n a) ControlRecommended = false /\
  is_event (action_evidence i p n a) ControlApplied = false /\
  is_event (action_evidence i p n a) Evidence.ControlEnforced = false /\
  is_event (action_evidence i p n a) IncidentCreated = false.
Proof. unfold human_event, is_event. cbn. unfold action_event. repeat case_match; done. Qed.

Lemma entry_of_action i p n a :
  entry_of (action_evidence i p n a) =
  mkEntry (ha_At a) (action_event a) p
    (ha_Action a +:+ " by " +:+ ha_Actor a +:+ ": " +:+ ha_Reason a) false (ha_Actor a).
Proof.
  destruct (action_is_human i p n a) as (H1 & H2 & H3 & H4 & H5).
  unfold entry_of. by rewrite H1, H2, H3, H4, H5.
Qed.

Definition action_entry (p : string) (a : HumanAction) : TimelineEntry :=
  mkEntry (ha_At a) (action_event a) p (ha_Action a +:+ " by " +:+ ha_Actor a +:+ ": " +:+ ha_Reason a) false
    (ha_Actor a).

Lemma entries_of_actions i p n l :
  map entry_of (actions_evidence i p n l) = map (action_entry p) l /\
  List.filter (fun e => is_event e ControlRecommended) (actions_evidence i p n l) = [] /\
  List.filter (fun e => is_event e ControlApplied) (actions_evidence i p n l) = [].
Proof.
  revert n. induction l as [|a l IH]; intros n; [done|]. cbn [actions_evidence map List.filter].
  destruct (action_is_human i p n a) as (_ & -> & -> & _). destruct (IH (n + 1)) as (-> & -> & ->).
  by rewrite entry_of_action.
Qed.

Lemma EventsFor_sorted rfc3339 i p n :
  StronglySorted Z.le (ic_OpenedAt i :: map ha_At (ic_HumanActions i)) ->
  StronglySorted (not_after occurred_before) (EventsFor rfc3339 i p n).
Proof.
  assert (Ha : forall l m, StronglySorted Z.le (map ha_At l) ->
            StronglySorted (not_after occurred_before) (actions_evidence i p m l) /\
            (forall e, e ∈ actions_evidence i p m l ->
               Evidence.ev_OccurredAt e ∈ map ha_At l /\ m <= Evidence.ev_Sequence e)).
  { induction l as [|a l IH]; intros m Hs; [split; [constructor | by intros e ?%elem_of_nil]|].
    inversion Hs as [|? ? Hs1 Hs2]; subst. destruct (IH (m + 1) Hs1) as [H1 H2]. rewrite Forall_forall in Hs2.
    split; cbn.
    - constructor; [done|]. rewrite Forall_forall. intros e He. destruct (H2 e He) as [Hin Hseq].
      apply occurred_not_after_iff. specialize (Hs2 _ Hin). cbn. lia.
    - intros e [->|He]%elem_of_cons; cbn; [split; [by left | lia]|]. destruct (H2 e He).
      split; [by right | lia]. }
  intros Hs. inversion Hs as [|? ? Hs1 Hs2]; subst. destruct (Ha _ (n + 2) Hs1) as [H1 H2].
  rewrite Forall_forall in Hs2.
  assert (Hlate : forall e0 e, Evidence.ev_OccurredAt e0 = ic_OpenedAt i -> Evidence.ev_Sequence e0 < n + 2 ->
            e ∈ actions_evidence i p (n + 2) (ic_HumanActions i) -> not_after occurred_before e0 e).
  { intros e0 e Ht Hq He. destruct (H2 e He) as [Hin Hseq]. apply occurred_not_after_iff.
    specialize (Hs2 _ Hin). lia. }
  unfold EventsFor. constructor; [constructor; [done|]|].
  - rewrite Forall_forall. intros e He. apply Hlate; [done | cbn; lia | done].
  - rewrite Forall_forall. intros e [->|He]%elem_of_cons; [|apply Hlate; [done | cbn; lia | done]].
    apply occurred_not_after_iff. cbn. lia.
Qed.

(** * The store keeps one incident per cohort and window *)

Section StoreLemmas.
Context {HJ : IncidentJSON}.

(** The unique index. *)
Definition windows_unique (db : Incidents) : Prop :=
  forall k1 k2 r1 r2, db !! k1 = Some r1 -> db !! k2 = Some r2 -> fst k1 = fst k2 ->
    ir_cohort_id r1 = ir_cohort_id r2 -> ir_window_start r1 = ir_window_start r2 -> k1 = k2.

Definition row_of (inc : Incident) (r : IncidentRow) : Prop :=
  ir_cohort_id r = Fleet.CohortID (ic_Cohort inc) /\ ir_window_start r = Fleet.Start (ic_Window inc) /\
  ir_correlation_id r = ic_CorrelationID inc.

(** The cohort and window already have an incident. *)
Definition has_incident (db : Incidents) (inc : Incident) : Prop :=
  exists id r, db !! (ic_TenantID inc, id) = Some r /\
    ir_cohort_id r = Fleet.CohortID (ic_Cohort inc) /\ ir_window_start r = Fleet.Start (ic_Window inc).

Lemma same_window_spec (tenant : string) (r : IncidentRow) (db : Incidents) :
  existsb (same_window tenant r) (map_to_list db) = true <->
  exists id r', db !! (tenant, id) = Some r' /\ ir_cohort_id r' = ir_cohort_id r /\
                ir_window_start r' = ir_window_start r.
Proof.
  rewrite existsb_exists. unfold same_window, TimeEqual. split.
  - intros ([[t id] r'] & Hin & H). apply list_elem_of_In, elem_of_map_to_list in Hin.
    apply andb_true_iff in H as [H ?]. apply andb_true_iff in H as [H ?]. cbn in *. b2p. subst. eauto.
  - intros (id & r' & Hl & H1 & H2). exists ((tenant, id), r'). split.
    + by apply list_elem_of_In, elem_of_map_to_list.
    + cbn. by rewrite String.eqb_refl, H1, H2, String.eqb_refl, Z.eqb_refl.
Qed.

Lemma insert_incident_cases (db : Incidents) (tenant id : string) (r : IncidentRow) :
  (exists res, insert_incident db tenant id r = (db, res) /\ res <> Ok true) \/
  (row_refused r = None /\ existsb (same_window tenant r) (map_to_list db) = false /\ db !! (tenant, id) = None /\
   insert_incident db tenant id r = (<[(tenant, id) := r]> db, Ok true)).
Proof.
  unfold insert_incident. destruct (row_refused r); [left; by eexists|].
  destruct (existsb _ _); [left; by eexists|].
  destruct (db !! (tenant, id)); [left; by eexists | by right].
Qed.

Lemma Store_Open_cases (f : TxFault) (db : Incidents) (inc : Incident) :
  fst (Store_Open f db inc) = db /\ snd (Store_Open f db inc) <> Ok true \/
  exists r, fst (Store_Open f db inc) = <[(ic_TenantID inc, ic_IncidentID inc) := r]> db /\
    row_of inc r /\ db !! (ic_TenantID inc, ic_IncidentID inc) = None /\ ~ has_incident db inc.
Proof.
  unfold Store_Open.
  destruct (marshal_anomalies (ic_Anomalies inc)) as [a|], (marshal_strings (ic_SharedDependencies inc)) as [d|],
    (marshal_actions (ic_HumanActions inc)) as [h|]; try by left.
  unfold withTenant. destruct (String.eqb (ic_TenantID inc) ""); [by left|].
  set (r := mkIncidentRow _ _ _ _ _ _ _ _ _ _ _ _ _).
  unfold transaction. destruct (insert_incident_cases db (ic_TenantID inc) (ic_IncidentID inc) r)
    as [(res & -> & Hr)|(_ & Hw & Hn & ->)].
  - left. destruct f, res as [[]|]; done.
  - destruct f; [right | by left | right]; (exists r; split; [done|]; split; [done|]; split; [done|];
      intros (id & r' & H & H1 & H2); apply not_true_iff_false in Hw; apply Hw, same_window_spec; eauto).
Qed.

Lemma Store_Open_unique f db inc : windows_unique db -> windows_unique (fst (Store_Open f db inc)).
Proof.
  intros Hu. destruct (Store_Open_cases f db inc) as [[-> _]|(r & -> & (Hc & Hs & _) & Hn & Hno)]; [done|].
  intros k1 k2 r1 r2 H1 H2 Ht Hcc Hss.
  apply lookup_insert_Some in H1 as [[<- <-]|[N1 H1]], H2 as [[<- <-]|[N2 H2]].
  - done.
  - exfalso. apply Hno. destruct k2 as [t2 id2]. cbn in Ht. subst t2. exists id2, r2.
    by rewrite <- Hcc, <- Hss, Hc, Hs.
  - exfalso. apply Hno. destruct k1 as [t1 id1]. cbn in Ht. subst t1. exists id1, r1.
    by rewrite Hcc, Hss, Hc, Hs.
  - by apply (Hu k1 k2 r1 r2).
Qed.

Lemma Store_Open_subseteq f db inc : db ⊆ fst (Store_Open f db inc).
Proof.
  destruct (Store_Open_cases f db inc) as [[-> _]|(r & -> & _ & Hn & _)]; [done | by apply insert_subseteq].
Qed.

Lemma Store_Open_settled f db inc :
  has_incident db inc -> fst (Store_Open f db inc) = db /\ snd (Store_Open f db inc) <> Ok true.
Proof.
  intros H. destruct (Store_Open_cases f db inc) as [?|(r & _ & _ & _ & Hno)]; [done|]. by destruct Hno.
Qed.
End StoreLemmas.

(** ** The detector *)

Section DetectorLemmas.
Context {HJ : IncidentJSON} {HE : Evidence.JSON} (rfc3339 : Time -> string) (rules : DetectionRules).

(** One window measured, and the database's mood at the time. *)
Record observation := mkObservation {
  on_fault : TxFault; on_faults : nat -> TxFault; on_at : Time; on_vector : RiskVector
}.

Definition observe (s : DetectorState) (o : observation) : DetectorState :=
  Observe rfc3339 rules (on_fault o) (on_faults o) (on_at o) s (on_vector o).

Lemma record_events_subseteq faults n now ev l :
  Evidence.events ev ⊆ Evidence.events (record_events faults n now ev l).
Proof.
  revert n ev. induction l as [|e l IH]; intros n ev; cbn; [done|].
  etrans; [|apply IH]. apply (Evidence.ex_events 0 0 [] False _ _ (Evidence.Append_extends 0 0 [] False _ _ _ _)).
Qed.

Lemma incident_of_subject r at_ inc :
  incident_of rules r at_ = Some inc ->
  ic_TenantID inc = Fleet.rv_TenantID r /\ ic_Cohort inc = Fleet.rv_Cohort r /\ ic_Window inc = Fleet.rv_Window r /\
  ic_IncidentID inc = deriveID (Fleet.rv_TenantID r) (Fleet.rv_Cohort r) (Fleet.rv_Window r).
Proof.
  unfold incident_of, Open. destruct (Detect r rules at_); [done|]. destruct (severityOf _). by intros [= <-].
Qed.

Lemma observe_incidents s o :
  exists f inc, ds_incidents (observe s o) = fst (Store_Open f (ds_incidents s) inc) \/ observe s o = s.
Proof.
  unfold observe, Observe. destruct (incident_of rules (on_vector o) (on_at o)) as [inc|] eqn:Ei.
  - exists (on_fault o), inc. left. destruct (Store_Open _ _ _) as [db [[]|]]; done.
  - eexists Fine, (mkIncident "" "" "" (Fleet.mkCohort "" []) (Fleet.mkWindow 0 0) "" "" [] [] "" [] 0 None "").
    by right.
Qed.

Lemma observe_events s o : Evidence.events (ds_evidence s) ⊆ Evidence.events (ds_evidence (observe s o)).
Proof.
  unfold observe, Observe. destruct (incident_of rules (on_vector o) (on_at o)) as [inc|]; [|done].
  destruct (Store_Open _ _ _) as [db [[]|]]; cbn [ds_evidence]; [apply record_events_subseteq | done | done].
Qed.

(** The detector opens at most one incident for a cohort and a window start, over any
    sequence of measurements and database failures, and what it has recorded, incident or
    evidence, it never rewrites or drops. *)
Theorem one_incident_per_window s ops :
  windows_unique (ds_incidents s) ->
  windows_unique (ds_incidents (run_ops observe s ops)) /\
  ds_incidents s ⊆ ds_incidents (run_ops observe s ops) /\
  Evidence.events (ds_evidence s) ⊆ Evidence.events (ds_evidence (run_ops observe s ops)).
Proof.
  revert s. induction ops as [|o ops IH]; intros s Hu; [done|]. cbn.
  assert (Hstep : windows_unique (ds_incidents (observe s o)) /\ ds_incidents s ⊆ ds_incidents (observe s o)).
  { destruct (observe_incidents s o) as (f & inc & [E | E]); rewrite E; [|done].
    split; [by apply Store_Open_unique | apply Store_Open_subseteq]. }
  destruct Hstep as [Hu' Hs]. destruct (IH _ Hu') as (H1 & H2 & H3). split_and!; [done | by etrans|].
  etrans; [apply observe_events | exact H3].
Qed.

(** A cohort and window that have their incident are settled: measuring them again, with
    whatever result and at whatever time, changes nothing and records nothing. *)
Theorem settled_window_stays_settled s o id row :
  ds_incidents s !! (Fleet.rv_TenantID (on_vector o), id) = Some row ->
  ir_cohort_id row = Fleet.CohortID (Fleet.rv_Cohort (on_vector o)) ->
  ir_window_start row = Fleet.Start (Fleet.rv_Window (on_vector o)) ->
  observe s o = s.
Proof.
  intros Hl Hc Hw. unfold observe, Observe.
  destruct (incident_of rules (on_vector o) (on_at o)) as [inc|] eqn:Ei; [|done].
  apply incident_of_subject in Ei as (Ht & Hco & Hwi & _).
  assert (Hh : has_incident (ds_incidents s) inc) by (exists id, row; by rewrite Ht, Hco, Hwi).
  destruct (Store_Open_settled (on_fault o) _ _ Hh) as [H1 H2].
  destruct (Store_Open (on_fault o) (ds_incidents s) inc) as [db [[]|]]; cbn in *; subst; by destruct s.
Qed.

(** ** A detected incident can be read back *)

Lemma Append_records now ev e :
  Evidence.Validate e = "" -> Evidence.ev_EventName e <> Evidence.EvidenceCorrected ->
  Evidence.ev_CorrectsEventID e = "" -> Evidence.ev_TenantID e <> "" -> 0 <= Evidence.ev_Sequence e ->
  is_Some (Evidence.marshal_payload (Evidence.ev_Payload e)) -> is_Some (Evidence.marshal_event e) ->
  is_Some (Evidence.events (fst (Evidence.Append Fine now ev e)) !! (Evidence.ev_EventID e, Evidence.ev_OccurredAt e)).
Proof.
  intros Hv Hn Hc Ht Hs [p Hp] [m Hm]. unfold Evidence.Append. rewrite Hv. cbn [str_nonempty String.eqb negb].
  unfold Evidence.payload_column. rewrite Hp.
  unfold Evidence.withTenant. destruct (String.eqb_spec (Evidence.ev_TenantID e) ""); [done|].
  cbn [transaction]. rewrite Hc. cbn [Evidence.nullIfEmpty String.eqb].
  destruct (Evidence.insert_event _ _ _ _ _) as [[db1 fresh]|er] eqn:E.
  - pose proof (Evidence.insert_event_recorded _ _ _ _ _ _ _ E) as [r Hr].
    destruct fresh; cbn [negb]; [|by exists r].
    cbn [Evidence.enqueue]. rewrite Hm. unfold Evidence.insert_outbox. rewrite String.eqb_refl. cbn [negb].
    destruct (Evidence.queued db1 (Evidence.ev_EventID e)); cbn; by exists r.
  - exfalso. revert E. unfold Evidence.insert_event, Evidence.row_refused. cbn. rewrite String.eqb_refl. cbn.
    destruct (Z.ltb_spec (Evidence.ev_Sequence e) 0); [lia|].
    destruct (String.eqb_spec (Evidence.ev_EventName e) Evidence.EvidenceCorrected); [done|].
    by destruct (Evidence.events ev !! _).
Qed.

Lemma record_events_records now l ev n faults :
  (forall k, faults k = Fine) ->
  Forall (fun e => Evidence.Validate e = "" /\ Evidence.ev_EventName e <> Evidence.EvidenceCorrected /\
    Evidence.ev_CorrectsEventID e = "" /\ Evidence.ev_TenantID e <> "" /\ 0 <= Evidence.ev_Sequence e /\
    is_Some (Evidence.marshal_payload (Evidence.ev_Payload e)) /\ is_Some (Evidence.marshal_event e)) l ->
  Forall (fun e => is_Some (Evidence.events (record_events faults n now ev l)
                             !! (Evidence.ev_EventID e, Evidence.ev_OccurredAt e))) l.
Proof.
  intros Hf Hl. revert n ev. induction Hl as [|e l (H1 & H2 & H3 & H4 & H5 & H6 & H7) Hl IH]; intros n ev; [done|].
  cbn [record_events]. rewrite Hf. constructor; [|apply IH].
  destruct (Append_records now ev e H1 H2 H3 H4 H5 H6 H7) as [r Hr]. exists r.
  eapply lookup_weaken; [exact Hr | apply record_events_subseteq].
Qed.

(** The incident as it is read back: everything but the cohort's predicates. *)
Definition stored_incident (inc : Incident) : Incident :=
  mkIncident (ic_IncidentID inc) (ic_TenantID inc) (ic_CorrelationID inc) (Fleet.mkCohort (ic_TenantID inc) [])
    (ic_Window inc) (ic_Severity inc) (ic_Status inc) (ic_Anomalies inc) (ic_SharedDependencies inc)
    (ic_Recommended inc) (ic_HumanActions inc) (ic_OpenedAt inc) None (ic_SeverityRule inc).

(** The documents of the three JSON columns survive their encoding. *)
Definition encodes (inc : Incident) : Prop :=
  (exists a, marshal_anomalies (ic_Anomalies inc) = Some a /\ unmarshal_anomalies a = Some (ic_Anomalies inc)) /\
  (exists d, marshal_strings (ic_SharedDependencies inc) = Some d /\
             unmarshal_strings d = Some (ic_SharedDependencies inc)) /\
  (exists h, marshal_actions (ic_HumanActions inc) = Some h /\ unmarshal_actions h = Some (ic_HumanActions inc)).

Lemma incident_of_opened r at_ inc :
  incident_of rules r at_ = Some inc ->
  ic_Status inc = StatusOpen /\ ic_HumanActions inc = [] /\ ic_OpenedAt inc = at_ /\
  ic_CorrelationID inc = correlation_of r /\
  (ic_Severity inc = SeverityInfo \/ ic_Severity inc ∈ [SeverityLow; SeverityMedium; SeverityHigh]).
Proof.
  unfold incident_of, Open. destruct (Detect r rules at_) as [|a l]; [done|].
  destruct (severityOf (a :: l)) as [sev rule] eqn:Es. intros [= <-]. cbn. split_and!; try done.
  revert Es. unfold severityOf. destruct (foldl _ _ _) as [[b d] n].
  repeat case_match; intros [= <- <-]; try (by left); right; apply list_elem_of_In; cbn; auto.
Qed.

Lemma Store_Open_inserts db inc :
  encodes inc -> ic_TenantID inc <> "" -> ic_Status inc = StatusOpen ->
  ic_Severity inc ∈ [SeverityLow; SeverityMedium; SeverityHigh] ->
  Fleet.Start (ic_Window inc) < Fleet.End_ (ic_Window inc) ->
  ~ has_incident db inc -> db !! (ic_TenantID inc, ic_IncidentID inc) = None ->
  exists db', Store_Open Fine db inc = (db', Ok true) /\
    Load Fine db' (ic_TenantID inc) (ic_IncidentID inc) = Ok (Some (stored_incident inc)).
Proof.
  intros ((a & Ma & Ua) & (d & Md & Ud) & (h & Mh & Uh)) Ht Hst Hsev Hw Hno Hn.
  unfold Store_Open. rewrite Ma, Md, Mh. unfold withTenant.
  destruct (String.eqb_spec (ic_TenantID inc) ""); [done|]. cbn [transaction].
  set (r := mkIncidentRow _ _ _ _ _ _ _ _ _ _ _ _ _).
  assert (Hok : row_refused r = None).
  { unfold row_refused, r. cbn [ir_severity ir_status ir_closed_at ir_window_start ir_window_end]. rewrite Hst.
    assert (Hc : contains ["LOW"; "MEDIUM"; "HIGH"; "CRITICAL"] (ic_Severity inc) = true).
    { apply contains_spec. apply list_elem_of_In in Hsev. apply list_elem_of_In. cbn in *. tauto. }
    rewrite Hc. cbn. unfold After. destruct (Z.ltb_spec (Fleet.Start (ic_Window inc)) (Fleet.End_ (ic_Window inc))); [done | lia]. }
  assert (Hs : existsb (same_window (ic_TenantID inc) r) (map_to_list db) = false).
  { apply not_true_iff_false. rewrite same_window_spec. intros (id & r' & H & H1 & H2). apply Hno. by exists id, r'. }
  unfold insert_incident. rewrite Hok, Hs, Hn. eexists. split; [reflexivity|].
  unfold Load, withTenant. destruct (String.eqb_spec (ic_TenantID inc) ""); [done|]. cbn.
  rewrite lookup_insert_eq. unfold scanIncident. cbn. rewrite Ua, Ud, Uh. cbn. rewrite Hst.
  by destruct inc as [? ? ? ? [? ?] ? ? ? ? ? ? ? ? ?]; cbn in *; subst.
Qed.

Lemma opened_names r at_ inc :
  incident_of rules r at_ = Some inc -> blank (ic_IncidentID inc) = false /\ blank (ic_CorrelationID inc) = false.
Proof.
  intros H. apply incident_of_subject in H as Hs. destruct Hs as (_ & _ & _ & ->).
  apply incident_of_opened in H as (_ & _ & _ & -> & _).
  split; (apply (mem_not_blank 95); [vm_compute; done|]); unfold deriveID, correlation_of;
    rewrite bytes_app, elem_of_app; left; by apply list_elem_of_In; vm_compute; auto 20.
Qed.

(** A window that warrants an incident gets it on record.  When the databases work and the
    window has none yet, what the detector stores is read back as the incident it opened,
    save for the cohort's predicates, and every event of it is in the evidence store. *)
Theorem detected_incident_is_recorded s o inc :
  incident_of rules (on_vector o) (on_at o) = Some inc -> ic_Severity inc <> SeverityInfo ->
  encodes inc -> blank (ic_TenantID inc) = false -> 0 < on_at o ->
  Fleet.Start (ic_Window inc) < Fleet.End_ (ic_Window inc) ->
  ~ has_incident (ds_incidents s) inc -> ds_incidents s !! (ic_TenantID inc, ic_IncidentID inc) = None ->
  on_fault o = Fine -> (forall k, on_faults o k = Fine) ->
  (forall p, is_Some (Evidence.marshal_payload p)) -> (forall e, is_Some (Evidence.marshal_event e)) ->
  Load Fine (ds_incidents (observe s o)) (ic_TenantID inc) (ic_IncidentID inc) = Ok (Some (stored_incident inc)) /\
  Forall (fun e => is_Some (Evidence.events (ds_evidence (observe s o))
                             !! (Evidence.ev_EventID e, Evidence.ev_OccurredAt e)))
    (EventsFor rfc3339 inc "fleet-engine" 1).
Proof.
  intros Hi Hsev Henc Ht Hat Hw Hno Hn Hf Hfs Hp He.
  pose proof (incident_of_opened _ _ _ Hi) as (Hst & Hact & Hop & _ & Hsevs).
  pose proof (opened_names _ _ _ Hi) as (Hid & Hcorr).
  destruct (Store_Open_inserts (ds_incidents s) inc) as (db' & Ho & Hl); try done.
  { by apply nonblank_nonempty. }
  { by destruct Hsevs. }
  unfold observe, Observe. rewrite Hi, Hf, Ho. cbn [ds_incidents ds_evidence]. split; [done|].
  apply record_events_records; [done|]. pose proof (EventsFor_made_for rfc3339 inc "fleet-engine" 1) as Hm.
  rewrite Forall_forall in Hm |- *. intros e Hin.
  assert (Hseq : 0 <= Evidence.ev_Sequence e).
  { assert (H : Evidence.ev_Sequence e ∈ map Evidence.ev_Sequence (EventsFor rfc3339 inc "fleet-engine" 1))
      by (by apply list_elem_of_In, in_map, list_elem_of_In).
    rewrite EventsFor_numbered in H. apply elem_of_seqZ in H. lia. }
  specialize (Hm e Hin). split.
  { apply (made_for_valid inc "fleet-engine"); try done; [rewrite Hop; lia | by rewrite Hact]. }
  destruct Hm as (name & at_ & payload & Hname & _ & ->). apply name_word in Hname as (_ & _ & Hcor).
  apply String.eqb_neq in Hcor. cbn. split_and!; try done; by apply nonblank_nonempty.
Qed.
End DetectorLemmas.

(** * A desk of agents *)

Definition with_strategy (strategy : string) (at_ : Time) : Envelope :=
  let e := sample_envelope in
  mkEnvelope (env_SchemaVersion e) (env_EnvelopeID e) (env_IdempotencyKey e) (env_CorrelationID e) at_
    "t1" (env_Principal e) (env_Agent e) (env_RuntimeClaims e) (env_AuthorityGrantID e) (env_Dependencies e)
    (env_Intent e) (env_ParentIntentID e) strategy (env_PortfolioSnapshotID e) (env_MarketSnapshotID e)
    (env_Signature e).

Definition desk : list (option Envelope) :=
  [Some (with_strategy "mean reversion" 10); Some (with_strategy "mean_reversion" 20);
   Some (with_strategy "mean reversion" 30); Some (with_strategy "mean reversion" (90 * Second))].

Definition first_minute : Fleet.Window := Fleet.mkWindow 0 Minute.
Definition second_minute : Fleet.Window := Fleet.mkWindow Minute (2 * Minute).

Definition desk_vector (c : Fleet.Cohort) (w : Fleet.Window) : RiskVector :=
  Fleet.ComputeVector Fleet.ascending c w desk None None.

Definition spaced_vector : RiskVector := desk_vector Fleet.spaced_cohort first_minute.
Definition spaced_incident : option Incident := incident_of DefaultRules spaced_vector 100.

#[local] Instance desk_json : IncidentJSON := {|
  marshal_anomalies := fun l => Some (Fleet.join_with ";" (map an_Rule l));
  unmarshal_anomalies := fun s =>
    let l := Detect spaced_vector DefaultRules 100 in
    if String.eqb s (Fleet.join_with ";" (map an_Rule l)) then Some l else None;
  marshal_strings := fun l => Some (Fleet.join_with ";" l);
  unmarshal_strings := fun s =>
    let l := sharedDependencies spaced_vector in
    if String.eqb s (Fleet.join_with ";" l) then Some l else None;
  marshal_actions := fun l => Some (match l with [] => "[]" | _ => "[...]" end);
  unmarshal_actions := fun _ => Some []
|}.

Definition fresh_state : DetectorState := mkDetectorState ∅ Evidence.empty_tables.
Definition seen (at_ : Time) (r : RiskVector) : observation := mkObservation Fine (fun _ => Fine) at_ r.
Definition desk_run (ops : list observation) : DetectorState :=
  run_ops (observe (HE := Evidence.toy_json) fmt_d DefaultRules) fresh_state ops.

Definition opened_count (s : DetectorState) : nat := length (map_to_list (ds_incidents s)).

(** ** What the code does that its comments do not say *)

(** A situation that persists across windows is one incident per window, not one: the key
    is the window's start, and consecutive windows have different ones. *)
Theorem each_window_opens_an_incident :
  let first := seen 100 spaced_vector in
  let next := seen 200 (desk_vector Fleet.spaced_cohort second_minute) in
  opened_count (desk_run [first]) = 1%nat /\ opened_count (desk_run [first; next]) = 2%nat.
Proof. split; vm_compute; reflexivity. Qed.

(** A cohort whose identifier another cohort shares gets no incident in a window in which
    the other has one, however anomalous it is, and nothing of it is recorded. *)
Theorem colliding_cohort_is_never_reported :
  let first := seen 100 spaced_vector in
  let other := seen 100 (desk_vector Fleet.underscored_cohort first_minute) in
  isNil (incident_of DefaultRules (on_vector other) 100) = false /\
  (forall e, Fleet.Matches Fleet.spaced_cohort e && Fleet.Matches Fleet.underscored_cohort e = false) /\
  opened_count (desk_run [first; other]) = 1%nat /\
  length (map_to_list (Evidence.events (ds_evidence (desk_run [first; other])))) =
  length (map_to_list (Evidence.events (ds_evidence (desk_run [first])))).
Proof.
  split; [vm_compute; reflexivity|]. split; [|split; vm_compute; reflexivity].
  intros [e|]; [|done]. cbn. destruct (String.eqb (env_TenantID e) "t1"); cbn; [|done].
  unfold Fleet.fieldValue, Fleet.FieldStrategy. cbn.
  destruct (String.eqb_spec (env_StrategyID e) "mean reversion") as [->|]; done.
Qed.

(** Two windows that start within one second have one incident identifier: the second
    window's incident is refused by the primary key, not skipped. *)
Theorem subsecond_windows_share_an_identifier :
  let early := Fleet.mkWindow 0 15 in
  let late := Fleet.mkWindow 15 Minute in
  match incident_of DefaultRules (desk_vector Fleet.spaced_cohort early) 100,
        incident_of DefaultRules (desk_vector Fleet.spaced_cohort late) 100 with
  | Some first, Some second =>
      snd (Store_Open Fine (fst (Store_Open Fine ∅ first)) second) = Err "incidents_pkey"
  | _, _ => False
  end.
Proof. vm_compute. reflexivity. Qed.

(** The smallest cohort that is reported is one agent with one order, whatever the rules'
    minimum number of agents; and the rule recorded for its one-directional flow claims a
    test of abnormal consensus that was not measured. *)
Theorem one_agent_is_reported :
  let c := Fleet.mkCohort "t1" [Fleet.mkPredicate Fleet.FieldStrategy "mean_reversion"] in
  let r := desk_vector c first_minute in
  Fleet.ms_AgentCount (Fleet.Measure c first_minute desk) = 1 /\ 1 < ru_MinAgents DefaultRules /\
  cp_Known (Fleet.rv_A r) = false /\
  match Detect r DefaultRules 100 with
  | a :: _ => an_Component a = Fleet.rv_D r /\ an_Rule a = "D >= 0.90 and A >= 0.20"
  | [] => False
  end.
Proof. split_and!; vm_compute; try reflexivity. split; reflexivity. Qed.

(** The number of agents below which nothing should be reported is read nowhere. *)
Theorem min_agents_is_ignored b d a k m n r at_ corr :
  let rules x := mkRules b d k m a x in
  Open r (Detect r (rules n) at_) corr at_ = Open r (Detect r (rules 0) at_) corr at_.
Proof. reflexivity. Qed.

(** Two of the seven questions are answered by the wording of the line itself: a creation
    event that says nothing counts as naming its cohort and its evidence. *)
Theorem empty_evidence_answers_questions id tenant at_ :
  match Reconstruct [Evidence.mkEvent "0.1" id IncidentCreated tenant "inc" "corr" "" at_ at_ "p" 0 "" None] with
  | Ok t => which_cohort (AnsweredQuestions t) = true /\ what_evidence (AnsweredQuestions t) = true /\
            which_dependencies (AnsweredQuestions t) = false
  | Err _ => False
  end.
Proof. vm_compute. done. Qed.

(** Dependencies read straight from an incident's events, before they have been through
    the store, are lost: the payload holds strings where the timeline looks for values. *)
Theorem timeline_of_fresh_events_omits_dependencies rfc3339 i p n :
  describeCreation (created_event rfc3339 i p n) =
  describeCreation (created_event rfc3339
    (mkIncident (ic_IncidentID i) (ic_TenantID i) (ic_CorrelationID i) (ic_Cohort i) (ic_Window i) (ic_Severity i)
       (ic_Status i) (ic_Anomalies i) [] (ic_Recommended i) (ic_HumanActions i) (ic_OpenedAt i) (ic_ClosedAt i)
       (ic_SeverityRule i)) p n).
Proof. reflexivity. Qed.

(** An action recorded under the name of a closing closes nothing but leaves the evidence of
    a closing. *)
Theorem closed_event_without_closing actor reason at_ i :
  match RecordAction i ActionClose actor reason at_ with
  | (i', None) =>
      ic_Status i' = ic_Status i /\ ic_ClosedAt i' = ic_ClosedAt i /\
      exists e, last (EventsFor fmt_d i' "operator" 1) = Some e /\ Evidence.ev_EventName e = IncidentClosed
  | (i', Some _) => i' = i
  end.
Proof.
  destruct (RecordAction_cases i ActionClose actor reason at_) as [[e ->]|(_ & _ & ->)]; [done|].
  split; [done|]. split; [done|]. unfold EventsFor. cbn [ic_HumanActions with_actions].
  rewrite actions_evidence_app. cbn [actions_evidence]. eexists. rewrite !last_cons, last_snoc. done.
Qed.

(** The lifecycle has a state its table refuses: an escalated incident cannot be stored. *)
Theorem escalated_incident_cannot_be_stored (f : TxFault) (db : Incidents) (inc : Incident) actions closed :
  snd (Store_Open f db (with_actions inc StatusEscalated actions closed)) <> Ok true.
Proof.
  unfold Store_Open, withTenant, insert_incident, row_refused. cbn.
  destruct (String.eqb (ic_TenantID inc) ""); [done|].
  destruct (contains _ (ic_Severity inc)); cbn; by destruct f.
Qed.

(** * Witnesses *)

Lemma spaced_names : Fleet.CohortID Fleet.spaced_cohort = "cohort_strategy_id-mean_reversion".
Proof. vm_compute. reflexivity. Qed.

Example one_incident_per_window_witness :
  windows_unique (ds_incidents fresh_state) /\
  windows_unique (ds_incidents (desk_run [seen 100 spaced_vector; seen 150 spaced_vector])) /\
  opened_count (desk_run [seen 100 spaced_vector; seen 150 spaced_vector]) = 1%nat.
Proof.
  assert (H : windows_unique (ds_incidents fresh_state)).
  { intros k1 k2 r1 r2 H1. change (ds_incidents fresh_state) with (∅ : Incidents) in H1.
    by rewrite lookup_empty in H1. }
  split; [exact H|]. split; [|vm_compute; reflexivity].
  exact (proj1 (one_incident_per_window (HE := Evidence.toy_json) fmt_d DefaultRules fresh_state _ H)).
Defined.

Definition the_row : IncidentRow :=
  mkIncidentRow "incident_t1_cohort_strategy_id-mean_reversion_-62135596800" "cohort_strategy_id-mean_reversion"
    0 Minute "LOW" "OPEN" (Fleet.join_with ";" (map an_Rule (Detect spaced_vector DefaultRules 100)))
    (Fleet.join_with ";" (sharedDependencies spaced_vector)) (recommend (Detect spaced_vector DefaultRules 100))
    "a single anomalous component" "[]" 100 None.

Definition the_state : DetectorState :=
  mkDetectorState {[("t1", "inc_t1_cohort_strategy_id-mean_reversion_-62135596800") := the_row]} Evidence.empty_tables.

Example settled_window_stays_settled_witness :
  observe (HE := Evidence.toy_json) fmt_d DefaultRules the_state (seen 900 spaced_vector) = the_state.
Proof.
  apply (settled_window_stays_settled (HE := Evidence.toy_json) fmt_d DefaultRules the_state (seen 900 spaced_vector)
           "inc_t1_cohort_strategy_id-mean_reversion_-62135596800" the_row); vm_compute; reflexivity.
Defined.

Definition the_incident : Incident :=
  match spaced_incident with Some i => i | None => mkIncident "" "" "" (Fleet.mkCohort "" []) first_minute "" "" [] [] "" [] 0 None "" end.

Example detected_incident_is_recorded_witness :
  spaced_incident = Some the_incident /\
  Load Fine (ds_incidents (desk_run [seen 100 spaced_vector])) "t1" (ic_IncidentID the_incident) =
    Ok (Some (stored_incident the_incident)).
Proof.
  assert (Hi : spaced_incident = Some the_incident) by (vm_compute; reflexivity).
  split; [exact Hi|].
  refine (proj1 (detected_incident_is_recorded (HE := Evidence.toy_json) fmt_d DefaultRules fresh_state
                  (seen 100 spaced_vector) the_incident Hi _ _ _ _ _ _ _ _ _ _ _)).
  - vm_compute. discriminate.
  - repeat split; eexists; (split; [vm_compute; reflexivity | vm_compute; reflexivity]).
  - vm_compute. reflexivity.
  - vm_compute. reflexivity.
  - vm_compute. reflexivity.
  - intros (id & r & H & _). change (ds_incidents fresh_state) with (∅ : Incidents) in H. by rewrite lookup_empty in H.
  - vm_compute. reflexivity.
  - reflexivity.
  - reflexivity.
  - intros [p|]; eexists; reflexivity.
  - intros e. eexists. reflexivity.
Defined.

Definition handled_incident : Incident :=
  run_ops incident_step the_incident [OpAcknowledge "ana" "looking" 150; OpClose "ana" "explained" 200].

Example severity_monotone_witness :
  rev (Detect spaced_vector DefaultRules 100) ⊆+ Detect spaced_vector DefaultRules 100 /\
  severity_level (fst (severityOf (rev (Detect spaced_vector DefaultRules 100)))) <=
  severity_level (fst (severityOf (Detect spaced_vector DefaultRules 100))).
Proof.
  assert (H : rev (Detect spaced_vector DefaultRules 100) ⊆+ Detect spaced_vector DefaultRules 100).
  { apply Permutation_submseteq. symmetry. apply Permutation_rev. }
  split; [exact H | exact (severity_monotone _ _ H)].
Defined.
