(* ===== verification/Replay.v ===== *)
(** Replaying an incident: what [Detector.record] of internal/incident/detector.go puts in
    the evidence store, read back by its correlation identifier and rebuilt into a timeline
    by timeline.go, over [Evidence] and [Incident].

    encoding/json is a parameter; what the replay relies on is that a payload comes back as
    [decoded] says, which is asked of the payloads of the incident at hand. *)

From S2P Require Import Prelude Strings Money Incident.
From S2P Require Evidence Fleet.
Import Evidence (Value, VString, VBool, VInt, VList, VFloat, VAmount, VArray, VObject).

(** * What JSON makes of a payload *)

(** A member of an object, the first of its name. *)
Definition member (m : list (string * Value)) (key : string) : option Value :=
  snd <$> List.find (fun '(k, _) => String.eqb k key) m.

(** What a value is once it has been written and read: strings, truth values and floats are
    themselves, a list of strings is a list of values, the members of an object may be in
    any order, and an integer and an amount are some number.  A list that is nil is written
    as null, which no reader tells from an absent member. *)
Inductive decoded : Value -> Value -> Prop :=
| dc_string s : decoded (VString s) (VString s)
| dc_bool b : decoded (VBool b) (VBool b)
| dc_float x : decoded (VFloat x) (VFloat x)
| dc_int z x : decoded (VInt z) (VFloat x)
| dc_amount a x : decoded (VAmount a) x
| dc_list l : decoded (VList l) (VArray (map VString l))
| dc_array l l' : Forall2 decoded l l' -> decoded (VArray l) (VArray l')
| dc_object m m' :
    (forall key v, member m key = Some v ->
       (v = VList [] /\ member m' key = None) \/ exists v', member m' key = Some v' /\ decoded v v') ->
    decoded (VObject m) (VObject m').

Section Replay.
Context {HE : Evidence.JSON}.

(** The event can be written, and its payload comes back. *)
Definition carried (e : Evidence.Event) : Prop :=
  exists m m' raw, Evidence.ev_Payload e = Some m /\ Evidence.marshal_payload (Some m) = Some raw /\
    Evidence.unmarshal_payload raw = Some m' /\ decoded (VObject m) (VObject m') /\
    is_Some (Evidence.marshal_event e).

Definition with_payload (e : Evidence.Event) (p : Evidence.Payload) : Evidence.Event :=
  Evidence.mkEvent (Evidence.ev_SchemaVersion e) (Evidence.ev_EventID e) (Evidence.ev_EventName e)
    (Evidence.ev_TenantID e) (Evidence.ev_AggregateID e) (Evidence.ev_CorrelationID e) (Evidence.ev_CausationID e)
    (Evidence.ev_OccurredAt e) (Evidence.ev_ProducedAt e) (Evidence.ev_Producer e) (Evidence.ev_Sequence e)
    (Evidence.ev_CorrectsEventID e) p.

(** The event as the store gives it back. *)
Definition read_back (e : Evidence.Event) : Evidence.Event :=
  with_payload e (Evidence.unmarshal_payload (default "" (Evidence.marshal_payload (Evidence.ev_Payload e)))).

Lemma default_nullIfEmpty s : default "" (Evidence.nullIfEmpty s) = s.
Proof. unfold Evidence.nullIfEmpty. by destruct (String.eqb_spec s ""). Qed.

Lemma stored_event e m raw :
  Evidence.ev_Payload e = Some m -> Evidence.marshal_payload (Some m) = Some raw ->
  Evidence.event_of (Evidence.event_key e) (Evidence.row_of e raw) = read_back e.
Proof.
  intros Hp Hm. unfold read_back, with_payload, Evidence.event_of, Evidence.row_of. cbn.
  by rewrite Hp, Hm, !default_nullIfEmpty.
Qed.

(** * Recording *)

(** What the store asks of an event of tenant [t] and chain [c]. *)
Definition acceptable (t c : string) (e : Evidence.Event) : Prop :=
  Evidence.Validate e = "" /\ Evidence.ev_EventName e <> Evidence.EvidenceCorrected /\
  Evidence.ev_CorrectsEventID e = "" /\ Evidence.ev_TenantID e = t /\ Evidence.ev_CorrelationID e = c /\
  0 <= Evidence.ev_Sequence e /\ carried e.

Definition of_chain (c : string) (e : Evidence.Event) : bool := String.eqb (Evidence.ev_CorrelationID e) c.

Lemma record_selected t c now l : forall n db,
  t <> "" -> Forall (acceptable t c) l -> NoDup (map Evidence.event_key l) ->
  (forall e, e ∈ l -> Evidence.events db !! Evidence.event_key e = None) ->
  Evidence.selected (record_events (fun _ => Fine) n now db l) t (of_chain c) ≡ₚ
    map read_back l ++ Evidence.selected db t (of_chain c).
Proof.
  induction l as [|e l IH]; intros n db Ht Hl Hd Hf; [done|]. cbn [record_events map app].
  apply Forall_cons in Hl as [(Hv & Hn & Hc & He & Hcor & Hs & m & m' & raw & Hp & Hm & Hu & _ & [x Hx]) Hl].
  apply NoDup_cons in Hd as [Hk Hd]. pose proof (Hf e ltac:(by left)) as Hfe.
  assert (Ha : Evidence.events (fst (Evidence.Append Fine now db e)) =
    <[Evidence.event_key e := Evidence.row_of e raw]> (Evidence.events db))
    by (eapply Evidence.Append_fresh; [done..| by rewrite He | done | done | done | done | done]).
  rewrite IH; [|done..|].
  - rewrite (Evidence.selected_insert db _ (Evidence.event_key e) (Evidence.row_of e raw) t _ Hfe Ha).
    + rewrite (stored_event e m raw Hp Hm). by rewrite <- Permutation_middle.
    + done.
    + unfold of_chain. cbn. by rewrite Hcor, String.eqb_refl.
  - intros e' He'. rewrite Ha, lookup_insert_ne; [apply Hf; by right|].
    intros Heq. apply Hk. rewrite Heq. by apply list_elem_of_fmap_2.
Qed.

(** * The account of an incident *)

(** What the timeline says of the opening: severity, cohort, what was observed, the rule
    and the dependencies its orders share. *)
Definition told (i : Incident) : string :=
  ic_Severity i +:+ " incident opened for cohort " +:+ Fleet.Expression (ic_Cohort i) +:+
  ", because " +:+ Fleet.join_with "; " (map an_Observation (ic_Anomalies i)) +:+
  " (rule: " +:+ ic_SeverityRule i +:+ ")" +:+
  match ic_SharedDependencies i with
  | [] => ""
  | ds => "; shared dependencies: " +:+ Fleet.join_with ", " ds
  end.

Definition account (i : Incident) (producer : string) : list TimelineEntry :=
  mkEntry (ic_OpenedAt i) IncidentCreated producer (told i) false "" ::
  mkEntry (ic_OpenedAt i) ControlRecommended producer ("recommended: " +:+ ic_Recommended i) false "" ::
  map (action_entry producer) (ic_HumanActions i).

Lemma decoded_member m m' key v :
  decoded (VObject m) (VObject m') -> member m key = Some v ->
  (v = VList [] /\ member m' key = None) \/ exists v', member m' key = Some v' /\ decoded v v'.
Proof. intros H. inversion H as [| | | | | | |? ? Hm]; subst. apply Hm. Qed.

(** The members may be looked at one by one. *)
Lemma decoded_members m m' :
  Forall (fun p => exists v', member m' (fst p) = Some v' /\ decoded (snd p) v') m -> decoded (VObject m) (VObject m').
Proof.
  intros H. constructor. intros key v Hm. right. rewrite Forall_forall in H.
  unfold member in Hm. destruct (List.find _ m) as [[k v0]|] eqn:E; [|done]. injection Hm as ->.
  apply List.find_some in E as [Hin Hk]. apply String.eqb_eq in Hk as ->.
  apply list_elem_of_In in Hin. exact (H _ Hin).
Qed.

Lemma payload_member m key : payload_get (Some m) key = member m key.
Proof. reflexivity. Qed.

Lemma decoded_string m m' key s :
  decoded (VObject m) (VObject m') -> member m key = Some (VString s) -> payload_string (Some m') key = s.
Proof.
  intros Hd Hm. destruct (decoded_member m m' key _ Hd Hm) as [[? _]|(v' & Hv & H)]; [done|]. inversion H; subst.
  unfold payload_string. by rewrite payload_member, Hv.
Qed.

Lemma string_values l : omap string_value (map VString l) = l.
Proof. induction l as [|s l IH]; [done|]. cbn. by rewrite IH. Qed.

Lemma decoded_list m m' key l :
  decoded (VObject m) (VObject m') -> member m key = Some (VList l) ->
  omap string_value (payload_array (Some m') key) = l.
Proof.
  intros Hd Hm. unfold payload_array. rewrite payload_member.
  destruct (decoded_member m m' key _ Hd Hm) as [[[= ->] ->]|(v' & -> & H)]; [done|].
  inversion H; subst. apply string_values.
Qed.

Lemma decoded_observations l v :
  decoded (VArray (map anomaly_payload l)) v ->
  exists l', v = VArray l' /\ omap anomaly_observation l' = map an_Observation l.
Proof.
  intros H. inversion H as [| | | | | |? l' Hl|]; subst. exists l'. split; [done|]. clear H.
  revert l' Hl. induction l as [|a l IH]; intros l' Hl; inversion Hl as [|? v ? l2 Hv Hl2]; subst; [done|].
  inversion Hv as [| | | | | | |? m Hm]; subst. cbn [omap list_omap anomaly_observation map].
  rewrite (decoded_string _ m "observation" (an_Observation a) Hv eq_refl). f_equal. by apply IH.
Qed.

Section Incident.
Context (rfc3339 : Time -> string) (i : Incident) (producer : string).

Lemma created_told n m m' :
  Evidence.ev_Payload (created_event rfc3339 i producer n) = Some m -> decoded (VObject m) (VObject m') ->
  describeCreation (with_payload (created_event rfc3339 i producer n) (Some m')) = told i.
Proof.
  intros [= <-] Hd. unfold describeCreation, told. cbn [Evidence.ev_Payload with_payload].
  rewrite (decoded_string _ m' "severity" (ic_Severity i) Hd eq_refl),
    (decoded_string _ m' "cohort" (Fleet.Expression (ic_Cohort i)) Hd eq_refl),
    (decoded_string _ m' "severity_rule" (ic_SeverityRule i) Hd eq_refl).
  rewrite (decoded_list _ m' "shared_dependencies" (ic_SharedDependencies i) Hd eq_refl).
  destruct (decoded_member _ m' "anomalies" _ Hd eq_refl) as [[? _]|(v & Hv & Ha)]; [done|].
  apply decoded_observations in Ha as (l & -> & Hl).
  unfold payload_array. rewrite payload_member, Hv, Hl. by destruct (ic_SharedDependencies i).
Qed.

Lemma created_entry n :
  carried (created_event rfc3339 i producer n) ->
  entry_of (read_back (created_event rfc3339 i producer n)) =
    mkEntry (ic_OpenedAt i) IncidentCreated producer (told i) false "".
Proof.
  intros (m & m' & raw & Hp & Hm & Hu & Hd & _). unfold read_back. rewrite Hp, Hm. cbn [default from_option id].
  rewrite Hu, <- (created_told n m m' Hp Hd). reflexivity.
Qed.

Lemma recommended_entry n :
  carried (recommended_event i producer n) ->
  payload_string (Evidence.ev_Payload (read_back (recommended_event i producer n))) "recommendation" = ic_Recommended i.
Proof.
  intros (m & m' & raw & Hp & Hm & Hu & Hd & _). unfold read_back. rewrite Hp, Hm. cbn [default from_option id].
  rewrite Hu. cbn [Evidence.ev_Payload with_payload]. injection Hp as <-.
  exact (decoded_string _ m' "recommendation" (ic_Recommended i) Hd eq_refl).
Qed.

Lemma read_back_is e name : is_event (read_back e) name = is_event e name.
Proof. reflexivity. Qed.

Lemma action_read_back n a :
  carried (action_evidence i producer n a) -> entry_of (read_back (action_evidence i producer n a)) = action_entry producer a.
Proof.
  intros (m & m' & raw & Hp & Hm & Hu & Hd & _).
  destruct (action_is_human i producer n a) as (H1 & H2 & H3 & H4 & H5).
  unfold entry_of, human_event. rewrite !read_back_is. unfold human_event in H1. rewrite H1, H2, H3, H4, H5.
  unfold read_back. rewrite Hp, Hm. cbn [default from_option id]. rewrite Hu.
  cbn [Evidence.ev_Payload with_payload]. injection Hp as <-.
  rewrite (decoded_string _ m' "action" (ha_Action a) Hd eq_refl),
    (decoded_string _ m' "actor" (ha_Actor a) Hd eq_refl), (decoded_string _ m' "reason" (ha_Reason a) Hd eq_refl).
  reflexivity.
Qed.

Lemma actions_read_back l : forall n,
  (forall e, e ∈ actions_evidence i producer n l -> carried e) ->
  map entry_of (map read_back (actions_evidence i producer n l)) = map (action_entry producer) l /\
  List.filter (fun e => is_event e ControlRecommended) (map read_back (actions_evidence i producer n l)) = [] /\
  List.filter (fun e => is_event e ControlApplied) (map read_back (actions_evidence i producer n l)) = [].
Proof.
  induction l as [|a l IH]; intros n H; [done|]. cbn [actions_evidence map List.filter].
  destruct (IH (n + 1)) as (H1 & H2 & H3); [intros e He; apply H; by right|].
  rewrite !read_back_is. destruct (action_is_human i producer n a) as (_ & -> & -> & _).
  rewrite action_read_back by (apply H; by left). by rewrite H1, H2, H3.
Qed.

(** The sort is by what the store keeps. *)
Lemma sorted_read_back l :
  StronglySorted (not_after occurred_before) l -> StronglySorted (not_after occurred_before) (map read_back l).
Proof.
  induction 1 as [|e l Hl IH He]; cbn; [constructor|]. constructor; [done|].
  rewrite Forall_map. exact He.
Qed.

Lemma arrivals_read_back l : map arrival (map read_back l) = map arrival l.
Proof. rewrite map_map. by apply map_ext. Qed.

(** From the events of an incident as the store gives them back, in any order. *)
Lemma Reconstruct_read_back seq read :
  StronglySorted Z.le (ic_OpenedAt i :: map ha_At (ic_HumanActions i)) ->
  (forall e, e ∈ EventsFor rfc3339 i producer seq -> carried e) ->
  read ≡ₚ map read_back (EventsFor rfc3339 i producer seq) ->
  Reconstruct read = Ok (mkTimeline (ic_IncidentID i) (ic_TenantID i) (account i producer) [ic_Recommended i] []).
Proof.
  intros Hs Hc HP. unfold Reconstruct.
  rewrite <- (occurred_sort_order_free (map read_back (EventsFor rfc3339 i producer seq)) read);
    [|rewrite arrivals_read_back; apply EventsFor_arrivals | by symmetry].
  rewrite (stable_sort_id _ _ (sorted_read_back _ (EventsFor_sorted rfc3339 i producer seq Hs))).
  unfold EventsFor in *. cbn [map]. rewrite reconstruct_fold. cbn [map List.filter].
  destruct (actions_read_back (ic_HumanActions i) (seq + 2)) as (H1 & H2 & H3);
    [intros e He; apply Hc; by do 2 right|].
  rewrite !read_back_is, H1, H2, H3, created_entry by (apply Hc; by left).
  change (is_event (created_event rfc3339 i producer seq) ControlRecommended) with false.
  change (is_event (recommended_event i producer (seq + 1)) ControlRecommended) with true.
  change (is_event (created_event rfc3339 i producer seq) ControlApplied) with false.
  change (is_event (recommended_event i producer (seq + 1)) ControlApplied) with false.
  cbn [map]. rewrite recommended_entry by (apply Hc; right; by left).
  unfold entry_of at 1. rewrite !read_back_is.
  change (is_event (recommended_event i producer (seq + 1)) IncidentCreated) with false.
  change (is_event (recommended_event i producer (seq + 1)) ControlRecommended) with true.
  cbv iota. rewrite recommended_entry by (apply Hc; right; by left). reflexivity.
Qed.

Lemma events_acceptable seq :
  blank (ic_IncidentID i) = false -> blank (ic_TenantID i) = false -> blank (ic_CorrelationID i) = false ->
  blank producer = false -> 0 < ic_OpenedAt i -> 0 <= seq ->
  StronglySorted Z.le (ic_OpenedAt i :: map ha_At (ic_HumanActions i)) ->
  (forall e, e ∈ EventsFor rfc3339 i producer seq -> carried e) ->
  Forall (acceptable (ic_TenantID i) (ic_CorrelationID i)) (EventsFor rfc3339 i producer seq).
Proof.
  intros Hi Ht Hc Hp Ho Hq Hs Hcar. pose proof (EventsFor_made_for rfc3339 i producer seq) as Hm.
  rewrite Forall_forall in Hm |- *. intros e He.
  assert (Hseq : 0 <= Evidence.ev_Sequence e).
  { assert (Hin : Evidence.ev_Sequence e ∈ map Evidence.ev_Sequence (EventsFor rfc3339 i producer seq))
      by (by apply list_elem_of_In, in_map, list_elem_of_In).
    rewrite EventsFor_numbered in Hin. apply elem_of_seqZ in Hin. lia. }
  specialize (Hm e He). split_and!; [|destruct Hm as (name & at_ & payload & Hn & _ & ->);
    apply name_word in Hn as (_ & _ & Hn); by apply String.eqb_neq in Hn|
    by destruct Hm as (name & at_ & payload & _ & _ & ->)..| done | by apply Hcar].
  apply (made_for_valid i producer); try done; [lia|].
  inversion Hs as [|? ? _ Hs2]; subst. rewrite Forall_map in Hs2. apply (Forall_impl _ _ _ Hs2). intros; lia.
Qed.

(** C35: An incident can be replayed from evidence.  When the detector records it in a working
    store that has nothing under its correlation and none of its event identifiers, the
    store takes every event; the chain of the correlation is then exactly these; and from
    it, in whatever order it is read, the timeline gives the incident back: when it was
    opened and with which severity, for which cohort, on which observations, by which rule
    and with which shared dependencies, its one recommendation, and every operator's action
    under the operator's name, with nothing counted as applied or enforced. *)
Theorem incident_replays_from_evidence seq now db :
  blank (ic_IncidentID i) = false -> blank (ic_TenantID i) = false -> blank (ic_CorrelationID i) = false ->
  blank producer = false -> 0 < ic_OpenedAt i -> 0 <= seq ->
  StronglySorted Z.le (ic_OpenedAt i :: map ha_At (ic_HumanActions i)) ->
  (forall e, e ∈ EventsFor rfc3339 i producer seq -> carried e) ->
  (forall e, e ∈ EventsFor rfc3339 i producer seq -> Evidence.events db !! Evidence.event_key e = None) ->
  Evidence.Chain Fine db (ic_TenantID i) (ic_CorrelationID i) = Ok [] ->
  let db' := record_events (fun _ => Fine) 0 now db (EventsFor rfc3339 i producer seq) in
  exists chain, Evidence.Chain Fine db' (ic_TenantID i) (ic_CorrelationID i) = Ok chain /\
    chain ≡ₚ map read_back (EventsFor rfc3339 i producer seq) /\
    NoDup (map Evidence.ev_EventID chain) /\
    forall read, read ≡ₚ chain ->
      Reconstruct read = Ok (mkTimeline (ic_IncidentID i) (ic_TenantID i) (account i producer) [ic_Recommended i] []).
Proof.
  intros Hi Ht Hc Hp Ho Hq Hs Hcar Hf He db'.
  assert (ic_TenantID i <> "") as Hne by by apply nonblank_nonempty.
  assert (Hids : NoDup (map Evidence.ev_EventID (EventsFor rfc3339 i producer seq))) by by apply EventsFor_ids.
  destruct (Evidence.query_selected db (ic_TenantID i) (of_chain (ic_CorrelationID i)) Hne) as (l0 & H0 & P0).
  unfold Evidence.Chain in He. unfold of_chain in H0, P0. rewrite H0 in He. injection He as ->.
  apply Permutation_nil in P0.
  destruct (Evidence.query_selected db' (ic_TenantID i) (of_chain (ic_CorrelationID i)) Hne) as (chain & Hq' & HP).
  unfold db' in HP. rewrite record_selected in HP; [|done| by apply events_acceptable | | done].
  2:{ apply (NoDup_by Evidence.event_key fst). exact Hids. }
  unfold of_chain in HP. rewrite P0, app_nil_r in HP. exists chain. split_and!; [exact Hq' | exact HP | |].
  - rewrite HP, map_map. exact Hids.
  - intros read Hr. apply (Reconstruct_read_back seq); [done..|]. by rewrite Hr, HP.
Qed.
End Incident.
End Replay.

(** * An incident, detected, handled and replayed *)

(** What encoding/json makes of a value, over payloads it can be asked for: lists become
    arrays, and the members come back in the opposite order. *)
Fixpoint through_json (v : Value) : Value :=
  match v with
  | VList l => VArray (map VString l)
  | VArray l => VArray (map through_json l)
  | VObject m => VObject (rev (map (fun '(k, v) => (k, through_json v)) m))
  | _ => v
  end.

Definition handled_events : list Evidence.Event := EventsFor fmt_d handled_incident "fleet-engine" 1.

Definition payload_tag (p : Evidence.Payload) : string :=
  payload_string p "severity" +:+ "/" +:+ payload_string p "recommendation" +:+ "/" +:+ payload_string p "action".

(** An encoding of the payloads of these events, and of no others. *)
Definition replay_json : Evidence.JSON := {|
  Evidence.marshal_payload p := Some (payload_tag p);
  Evidence.unmarshal_payload s :=
    match List.find (fun e => String.eqb (payload_tag (Evidence.ev_Payload e)) s) handled_events with
    | Some e =>
        match Evidence.ev_Payload e with
        | Some m => match through_json (VObject m) with VObject m' => Some m' | _ => None end
        | None => None
        end
    | None => None
    end;
  Evidence.marshal_event e := Some (Evidence.ev_EventID e);
  Evidence.unmarshal_event s := None
|}.

Ltac read_value :=
  first [ apply dc_string | apply dc_bool | apply dc_float | apply dc_list
        | apply dc_array; repeat (apply Forall2_cons; split; [read_value|]); apply Forall2_nil; done
        | apply decoded_members;
          repeat (apply Forall_cons; split; [eexists; split; [vm_compute; reflexivity | read_value]|]);
          apply Forall_nil; done ].

Lemma handled_events_carried e : e ∈ handled_events -> carried (HE := replay_json) e.
Proof.
  intros He. assert (Hall : Forall (carried (HE := replay_json)) handled_events); [|by apply (proj1 (Forall_forall _ _) Hall)].
  let l := eval vm_compute in handled_events in change handled_events with l.
  repeat (apply Forall_cons; split;
    [do 3 eexists; split; [reflexivity|]; split; [reflexivity|]; split; [vm_compute; reflexivity|];
     split; [read_value | by eexists]|]).
  by apply Forall_nil.
Qed.

Example incident_replays_from_evidence_witness :
  let db := record_events (HE := replay_json) (fun _ => Fine) 0 300 Evidence.empty_tables handled_events in
  ic_SharedDependencies handled_incident <> [] /\ length (ic_HumanActions handled_incident) = 2%nat /\
  exists chain, Evidence.Chain (HJ := replay_json) Fine db "t1" (ic_CorrelationID handled_incident) = Ok chain /\
    Reconstruct (rev chain) =
      Ok (mkTimeline (ic_IncidentID handled_incident) "t1" (account handled_incident "fleet-engine")
            [ic_Recommended handled_incident] []).
Proof.
  intros db. split; [vm_compute; discriminate|]. split; [vm_compute; reflexivity|].
  destruct (incident_replays_from_evidence (HE := replay_json) fmt_d handled_incident "fleet-engine" 1 300
              Evidence.empty_tables) as (chain & Hc & _ & _ & Hr).
  - vm_compute. reflexivity.
  - vm_compute. reflexivity.
  - vm_compute. reflexivity.
  - vm_compute. reflexivity.
  - vm_compute. reflexivity.
  - lia.
  - vm_compute. repeat constructor; discriminate.
  - apply handled_events_carried.
  - intros e _. apply lookup_empty.
  - vm_compute. reflexivity.
  - exists chain. split; [exact Hc|]. apply Hr. symmetry. apply Permutation_rev.
Defined.
