(* ===== verification/FleetStore.v ===== *)
(** The analytical store and the measurement producer: internal/fleet clickhouse.go,
    hydrate.go, producer.go.

    The three tables are lists, as MergeTree keeps every row inserted; DateTime64(3)
    columns keep milliseconds.  An insert works, fails, or is stored and its answer lost
    ([TxFault]).  How ClickHouse prints a Float64 is a parameter, as is the order in which
    Go ranges over the tenants.  The HTTP client with its limit on an
    answer is in [Clickhouse]; the SQL text is not modelled. *)

From Stdlib Require Import SpecFloat.
From S2P Require Import Prelude Strings Money Intent Broker Float64 Fleet.
From S2P Require ParentIntent.

(** * Rows *)

Definition Millisecond : Duration := 1000000.

(** What a DateTime64(3) column keeps of an instant. *)
Definition millis (t : Time) : Time := t - t mod Millisecond.

Record IntentRow := mkIntentRow {
  xr_TenantID : string;
  xr_EnvelopeID : string;
  xr_CorrelationID : string;
  xr_PrincipalID : string;
  xr_AccountID : string;
  xr_AgentID : string;
  xr_InstrumentID : string;
  xr_AssetClass : string;
  xr_Side : string;
  xr_OrderType : string;
  xr_Notional : option float64;
  xr_Quantity : option float64;
  xr_NotionalDeterminable : bool;
  xr_StrategyID : string;
  xr_AuthorityGrantID : string;
  xr_AttestationLevel : string;
  xr_ModelFamily : string;
  xr_ModelID : string;
  xr_AuthorityDecision : string;
  xr_PolicyAction : string;
  xr_ControlDecision : string;
  xr_ControlID : string;
  xr_PolicyBundleID : string;
  xr_ReceivedAt : Time
}.

Record Decision := mkDecision {
  de_AuthorityDecision : string;
  de_PolicyAction : string;
  de_PolicyBundleID : string;
  de_ControlDecision : string;
  de_ControlID : string
}.

Definition no_decision : Decision := mkDecision "" "" "" "" "".

Record DependencyRow := mkDependencyRow {
  xd_TenantID : string;
  xd_EnvelopeID : string;
  xd_AgentID : string;
  xd_DependencyType : string;
  xd_DependencyID : string;
  xd_Verification : string;
  xd_ObservedAt : Time
}.

Record MeasurementRow := mkMeasurementRow {
  xm_TenantID : string;
  xm_CohortID : string;
  xm_CohortPredicate : string;
  xm_WindowStart : Time;
  xm_WindowEnd : Time;
  xm_IntentCount : Z;
  xm_AuthorizedIntents : Z;
  xm_RefusedIntents : Z;
  xm_AgentCount : Z;
  xm_GrossNotional : float64;
  xm_NetNotional : float64;
  xm_DirectionalImbalance : float64;
  xm_Coverage : Coverage
}.

Record Analytics := mkAnalytics {
  intents : list IntentRow;
  dependency_observations : list DependencyRow;
  fleet_measurements : list MeasurementRow
}.

Definition no_analytics : Analytics := mkAnalytics [] [] [].

(** * Writing *)

Definition exec {A} (f : TxFault) (table rows : list A) : list A * option string :=
  match f with
  | Fine => (table ++ rows, None)
  | Fails => (table, Some "clickhouse unreachable")
  | LostAck => (table ++ rows, Some "clickhouse unreachable")
  end.

Definition intent_row (decisions : gmap string Decision) (e : Envelope) : IntentRow :=
  let i := env_Intent e in
  let d := default no_decision (decisions !! env_EnvelopeID e) in
  let '(notional, determinable) := ParentIntent.ClusterNotional i in
  mkIntentRow (env_TenantID e) (env_EnvelopeID e) (env_CorrelationID e) (pr_PrincipalID (env_Principal e))
    (pr_AccountID (env_Principal e)) (ag_AgentID (env_Agent e)) (in_InstrumentID i) (in_AssetClass i)
    (in_Side i) (in_OrderType i) (if determinable then Some (Amount_Float notional) else None)
    (Quantity_Float <$> in_Quantity i) determinable (env_StrategyID e) (env_AuthorityGrantID e)
    (at_Level (ag_Attestation (env_Agent e))) (cl_Value (rc_ModelFamily (env_RuntimeClaims e)))
    (cl_Value (rc_ModelVersion (env_RuntimeClaims e))) (de_AuthorityDecision d) (de_PolicyAction d)
    (de_ControlDecision d) (de_ControlID d) (de_PolicyBundleID d) (millis (env_ReceivedAt e)).

Definition InsertIntents (f : TxFault) (db : Analytics) (envelopes : list (option Envelope))
    (decisions : gmap string Decision) : Analytics * option string :=
  match envelopes with
  | [] => (db, None)
  | _ =>
      let '(table, err) := exec f (intents db) (map (intent_row decisions) (omap id envelopes)) in
      (mkAnalytics table (dependency_observations db) (fleet_measurements db), err)
  end.

Definition dependency_row (e : Envelope) (d : Dependency) : DependencyRow :=
  mkDependencyRow (env_TenantID e) (env_EnvelopeID e) (ag_AgentID (env_Agent e)) (dep_Type d) (dep_ID d)
    (if String.eqb (dep_Verification d) "" then VerificationUnknown else dep_Verification d)
    (millis (dep_ObservedAt d)).

Definition dependency_rows (envelopes : list (option Envelope)) : list DependencyRow :=
  List.concat (map (fun e => map (dependency_row e) (env_Dependencies e)) (omap id envelopes)).

Definition InsertDependencies (f : TxFault) (db : Analytics) (envelopes : list (option Envelope))
    : Analytics * option string :=
  match dependency_rows envelopes with
  | [] => (db, None)
  | rows =>
      let '(table, err) := exec f (dependency_observations db) rows in
      (mkAnalytics (intents db) table (fleet_measurements db), err)
  end.

Definition measurement_row (m : Measurement) : MeasurementRow :=
  mkMeasurementRow (ms_TenantID m) (CohortID (ms_Cohort m)) (Expression (ms_Cohort m))
    (millis (Start (ms_Window m))) (millis (End_ (ms_Window m))) (ms_IntentCount m) (ms_AuthorizedIntents m)
    (ms_RefusedIntents m) (ms_AgentCount m) (ms_GrossNotional m) (ms_NetNotional m)
    (ms_DirectionalImbalance m) (ms_FeedCoverage m).

Definition InsertMeasurements (f : TxFault) (db : Analytics) (ms : list Measurement)
    : Analytics * option string :=
  match ms with
  | [] => (db, None)
  | _ =>
      let '(table, err) := exec f (fleet_measurements db) (map measurement_row ms) in
      (mkAnalytics (intents db) (dependency_observations db) table, err)
  end.

(** * Reading a window back *)

Definition safe_byte (c : Ascii.ascii) : bool :=
  is_alnum c || Ascii.eqb c "_"%char || Ascii.eqb c "-"%char || Ascii.eqb c "."%char || Ascii.eqb c ":"%char.

Definition safeLiteral (s : string) : bool :=
  str_nonempty s && (String.length s <=? 128)%nat && str_forall safe_byte s.

Definition allowingAction (action : string) : bool := String.eqb action "ALLOW" || String.eqb action "OBSERVE".

(** [x >= from AND x < to] on bounds printed to the millisecond. *)
Definition in_bounds (w : Window) (t : Time) : bool :=
  negb (Before t (millis (Start w))) && Before t (millis (End_ w)).

Definition stored_dependency (r : DependencyRow) : Dependency :=
  mkDependency (xd_DependencyType r) (xd_DependencyID r) (xd_Verification r) 0 "".

Definition loadDependencies (db : Analytics) (tenantID : string) (w : Window) (envelopeID : string)
    : list Dependency :=
  map stored_dependency
    (List.filter (fun r => String.eqb (xd_TenantID r) tenantID && in_bounds w (xd_ObservedAt r) &&
                           String.eqb (xd_EnvelopeID r) envelopeID)
       (dependency_observations db)).

Section Load.
(** ClickHouse's [toString] of a Float64. *)
Context (float_text : float64 -> string).

Definition no_claim : Claim := mkClaim "" "" "".

Definition stored_notional (row : IntentRow) : option Amount :=
  match xr_NotionalDeterminable row, xr_Notional row with
  | true, Some n => match Parse (float_text n) with Ok a => Some a | Err _ => None end
  | _, _ => None
  end.

Definition stored_envelope (tenantID : string) (deps : string -> list Dependency) (row : IntentRow) : Envelope :=
  mkEnvelope "" (xr_EnvelopeID row) "" "" (xr_ReceivedAt row) tenantID
    (mkPrincipal (xr_PrincipalID row) (xr_AccountID row))
    (mkAgent (xr_AgentID row) "" (mkAttestation "" "" ""))
    (mkRuntimeClaims no_claim
       (if str_nonempty (xr_ModelFamily row) then mkClaim (xr_ModelFamily row) "" "" else no_claim)
       (if str_nonempty (xr_ModelID row) then mkClaim (xr_ModelID row) "" "" else no_claim))
    "" (deps (xr_EnvelopeID row))
    (mkIntent (xr_AssetClass row) (xr_InstrumentID row) (xr_Side row) (xr_OrderType row) (stored_notional row)
       None None None "" false)
    "" (xr_StrategyID row) "" "" (mkSignature "" "" "").

Definition observed_row (tenantID : string) (deps : string -> list Dependency) (row : IntentRow) : Observed :=
  mkObserved (Some (stored_envelope tenantID deps row))
    (String.eqb (xr_AuthorityDecision row) "AUTHORITY_OK" && allowingAction (xr_PolicyAction row)).

Definition LoadWindow (f : TxFault) (db : Analytics) (tenantID : string) (w : Window)
    : result (list Observed) string :=
  if negb (safeLiteral tenantID) then Err "tenant id is not a safe literal" else
  match f with
  | Fine =>
      Ok (map (observed_row tenantID (loadDependencies db tenantID w))
            (stable_sort (fun a b => Before (xr_ReceivedAt a) (xr_ReceivedAt b))
               (List.filter (fun r => String.eqb (xr_TenantID r) tenantID && in_bounds w (xr_ReceivedAt r))
                  (intents db))))
  | _ => Err "read intents"
  end.
End Load.

(** * The producer *)

Record ProducerConfig := mkProducerConfig {
  pc_Cohorts : list Cohort;
  pc_Interval : Duration;
  pc_Lag : Duration
}.

(** [t.Truncate(d)], from the zero time. *)
Definition Truncate (t : Time) (d : Duration) : Time := if d <=? 0 then t else t - t mod d.

Definition window (p : ProducerConfig) (at_ : Time) : Window :=
  let e := Truncate (TimeAdd at_ (- pc_Lag p)) (pc_Interval p) in
  mkWindow (TimeAdd e (- pc_Interval p)) e.

(** What happens to the store while one tenant is measured. *)
Record TickFaults := mkTickFaults { tf_load : TxFault; tf_insert : TxFault }.

(** The vector sink, as the producer needs it. *)
Class VectorSink (D : Type) := { sink_observe : D -> RiskVector -> D }.

Section Producer.
Context {D : Type} {HS : VectorSink D} (float_text : float64 -> string)
  (range : gmap string Z -> list Z) (order : list string -> list string) (p : ProducerConfig).

Record ProducerState := mkProducerState {
  ps_store : Analytics;
  ps_lastMeasured : gmap string Time;
  ps_detector : option D
}.

Definition tenant_cohorts (tenant : string) : list Cohort :=
  List.filter (fun c => String.eqb (co_TenantID c) tenant) (pc_Cohorts p).

Definition tenants : list string := order (remove_dups (map co_TenantID (pc_Cohorts p))).

Definition detect_all (detector : option D) (w : Window) (observed : list Observed) (cohorts : list Cohort)
    : option D :=
  let envelopes := map ob_Envelope observed in
  match detector with
  | None => None
  | Some d => Some (foldl (fun d c => sink_observe d (ComputeVector range c w envelopes None None)) d cohorts)
  end.

(** One tenant of a tick: its state, what it wrote, and an error that ends the tick. *)
Definition measure_tenant (w : Window) (f : TickFaults) (s : ProducerState) (tenant : string)
    : ProducerState * result (list Measurement) string :=
  let measured := match ps_lastMeasured s !! tenant with Some l => negb (After (End_ w) l) | None => false end in
  if measured then (s, Ok []) else
  match LoadWindow float_text (tf_load f) (ps_store s) tenant w with
  | Err e => (s, Err e)
  | Ok observed =>
      let cohorts := tenant_cohorts tenant in
      let measurements := map (fun c => MeasureObserved c w observed) cohorts in
      let detector := detect_all (ps_detector s) w observed cohorts in
      match InsertMeasurements (tf_insert f) (ps_store s) measurements with
      | (db, Some e) => (mkProducerState db (ps_lastMeasured s) detector, Err e)
      | (db, None) => (mkProducerState db (<[tenant := End_ w]> (ps_lastMeasured s)) detector, Ok measurements)
      end
  end.

Fixpoint measure_tenants (w : Window) (faults : string -> TickFaults) (s : ProducerState)
    (written : list Measurement) (l : list string) : ProducerState * list Measurement * option string :=
  match l with
  | [] => (s, written, None)
  | tenant :: l' =>
      match measure_tenant w (faults tenant) s tenant with
      | (s', Err e) => (s', written, Some e)
      | (s', Ok ms) => measure_tenants w faults s' (written ++ ms) l'
      end
  end.

Definition RunOnce (now : Time) (faults : string -> TickFaults) (s : ProducerState)
    : ProducerState * list Measurement * option string :=
  match pc_Cohorts p with
  | [] => (s, [], None)
  | _ => measure_tenants (window p now) faults s [] tenants
  end.
End Producer.
Arguments ProducerState D : clear implicits.
Arguments mkProducerState {D} _ _ _.

(** * A measurement survives the round trip *)

(** Two envelopes that a measurement cannot tell apart. *)
Record reads_alike (e e' : Envelope) : Prop := {
  ra_tenant : env_TenantID e' = env_TenantID e;
  ra_received : env_ReceivedAt e' = env_ReceivedAt e;
  ra_agent : ag_AgentID (env_Agent e') = ag_AgentID (env_Agent e);
  ra_family : cl_Value (rc_ModelFamily (env_RuntimeClaims e')) = cl_Value (rc_ModelFamily (env_RuntimeClaims e));
  ra_feeds : forall n, countFeeds e' n = countFeeds e n;
  ra_notional : ParentIntent.ClusterNotional (env_Intent e') = ParentIntent.ClusterNotional (env_Intent e);
  ra_side : in_Side (env_Intent e') = in_Side (env_Intent e);
  ra_fields : forall field, field <> FieldAttestation -> fieldValue e' field = fieldValue e field
}.

Lemma count_intent_alike e e' t a : reads_alike e e' -> count_intent t e' a = count_intent t e a.
Proof.
  intros [_ _ Ha Hf Hn Hc Hs _]. unfold count_intent.
  by rewrite Ha, Hf, Hn, Hc, Hs.
Qed.

(** A cohort that does not ask for an attestation level. *)
Definition no_attestation (c : Cohort) : bool :=
  forallb (fun p => negb (String.eqb (Field p) FieldAttestation)) (co_Predicates c).

Lemma Matches_alike c e e' : reads_alike e e' -> no_attestation c = true -> Matches c (Some e') = Matches c (Some e).
Proof.
  intros H Hc. cbn. rewrite (ra_tenant _ _ H). f_equal. unfold no_attestation in Hc.
  induction (co_Predicates c) as [|p ps IH]; [done|]. cbn in *. apply andb_true_iff in Hc as [Hp Hc].
  apply negb_true_iff, String.eqb_neq in Hp. rewrite (ra_fields _ _ H _ Hp). by rewrite IH.
Qed.

Lemma find_map {A B} (p : B -> bool) (f : A -> B) l :
  List.find p (map f l) = f <$> List.find (fun x => p (f x)) l.
Proof. induction l as [|x l IH]; [done|]. cbn. by destruct (p (f x)). Qed.

(** The dependencies read back are those declared, an empty level made explicit. *)
Definition read_dependency (d : Dependency) : Dependency :=
  mkDependency (dep_Type d) (dep_ID d)
    (if String.eqb (dep_Verification d) "" then VerificationUnknown else dep_Verification d) 0 "".

Lemma stored_dependency_row e d : stored_dependency (dependency_row e d) = read_dependency d.
Proof. reflexivity. Qed.

Lemma find_read_dependency t l :
  List.find (fun d => String.eqb (dep_Type d) t) (map read_dependency l) =
  read_dependency <$> List.find (fun d => String.eqb (dep_Type d) t) l.
Proof. apply find_map. Qed.

Section RoundTrip.
Context (float_text : float64 -> string) (decisions : gmap string Decision).

(** The amount of an intent survives being a Float64 and its text. *)
Definition amount_survives (e : Envelope) : Prop :=
  let '(n, determinable) := ParentIntent.ClusterNotional (env_Intent e) in
  if determinable then Parse (float_text (Amount_Float n)) = Ok n else True.

Definition hydrated (deps : string -> list Dependency) (e : Envelope) : Envelope :=
  stored_envelope float_text (env_TenantID e) deps (intent_row decisions e).

Lemma stored_notional_row e :
  amount_survives e ->
  stored_notional float_text (intent_row decisions e) =
  let '(n, determinable) := ParentIntent.ClusterNotional (env_Intent e) in if determinable then Some n else None.
Proof.
  unfold amount_survives, stored_notional, intent_row.
  destruct (ParentIntent.ClusterNotional (env_Intent e)) as [n []]; cbn; [|done]. by intros ->.
Qed.

Lemma ClusterNotional_none c i s o : ParentIntent.ClusterNotional (mkIntent c i s o None None None None "" false) = (0, false).
Proof. reflexivity. Qed.

Lemma ClusterNotional_undetermined i n : ParentIntent.ClusterNotional i = (n, false) -> n = 0.
Proof.
  unfold ParentIntent.ClusterNotional. repeat case_match; congruence.
Qed.

Lemma row_fields e :
  xr_ReceivedAt (intent_row decisions e) = millis (env_ReceivedAt e) /\
  xr_TenantID (intent_row decisions e) = env_TenantID e /\
  xr_EnvelopeID (intent_row decisions e) = env_EnvelopeID e.
Proof. unfold intent_row. by destruct (ParentIntent.ClusterNotional (env_Intent e)). Qed.

Lemma claim_value (s : string) : cl_Value (if str_nonempty s then mkClaim s "" "" else no_claim) = s.
Proof. unfold str_nonempty. by destruct (String.eqb_spec s "") as [->|]. Qed.

Lemma hydrated_alike deps e :
  amount_survives e -> millis (env_ReceivedAt e) = env_ReceivedAt e ->
  deps (env_EnvelopeID e) = map read_dependency (env_Dependencies e) ->
  reads_alike e (hydrated deps e).
Proof.
  intros Ha Ht Hd. pose proof (stored_notional_row e Ha) as Hn.
  unfold hydrated, stored_envelope. rewrite Hn. clear Hn Ha. unfold intent_row.
  destruct (ParentIntent.ClusterNotional (env_Intent e)) as [n b] eqn:Ec.
  cbn [xr_ReceivedAt xr_EnvelopeID xr_PrincipalID xr_AccountID xr_AgentID xr_InstrumentID xr_AssetClass xr_Side
       xr_OrderType xr_StrategyID xr_ModelFamily xr_ModelID].
  rewrite Hd. split; cbn [env_TenantID env_ReceivedAt env_Agent ag_AgentID env_RuntimeClaims rc_ModelFamily
    env_Intent in_Side]; try done.
  - apply claim_value.
  - intros [[[t v] de] u]. unfold countFeeds. cbn [env_Dependencies]. rewrite find_read_dependency.
    destruct (List.find _ (env_Dependencies e)) as [d|]; [|done]. cbn [fmap option_fmap option_map read_dependency dep_Verification].
    destruct (String.eqb_spec (dep_Verification d) "") as [->|]; done.
  - destruct b; [by rewrite Ec|]. rewrite Ec. by rewrite (ClusterNotional_undetermined _ _ Ec).
  - intros field Hf. unfold fieldValue. cbn [env_Intent in_InstrumentID in_Side env_StrategyID env_RuntimeClaims
      rc_ModelFamily env_Principal pr_PrincipalID env_Agent ag_AgentID in_AssetClass ag_Attestation].
    rewrite claim_value.
    assert (Hdep : forall e', env_Dependencies e' = map read_dependency (env_Dependencies e) ->
              firstDependency e' DependencyMarketData = firstDependency e DependencyMarketData).
    { intros e' He'. unfold firstDependency. rewrite He', find_read_dependency.
      by destruct (List.find _ (env_Dependencies e)). }
    destruct (String.eqb_spec field FieldAttestation) as [|_]; [done|].
    match goal with |- context [firstDependency ?e' _] => rewrite (Hdep e') by done end. done.
Qed.

Definition decided (e : Envelope) : Observed :=
  let d := default no_decision (decisions !! env_EnvelopeID e) in
  mkObserved (Some e) (String.eqb (de_AuthorityDecision d) "AUTHORITY_OK" && allowingAction (de_PolicyAction d)).

Lemma observed_row_decided deps e :
  observed_row float_text (env_TenantID e) deps (intent_row decisions e) =
  mkObserved (Some (hydrated deps e)) (ob_Authorized (decided e)).
Proof. unfold observed_row, decided, hydrated, intent_row. by destruct (ParentIntent.ClusterNotional (env_Intent e)). Qed.

(** ** A population of a tenant, and a window on it *)

Record population (tenant : string) (w : Window) (envs : list Envelope) : Prop := {
  po_tenant : Forall (fun e => env_TenantID e = tenant) envs;
  po_ids : NoDup (map env_EnvelopeID envs);
  po_received : Forall (fun e => millis (env_ReceivedAt e) = env_ReceivedAt e) envs;
  po_order : StronglySorted Z.le (map env_ReceivedAt envs);
  po_amounts : Forall amount_survives envs;
  po_feeds : Forall (fun e => Forall (fun d => in_bounds w (millis (dep_ObservedAt d)) = true) (env_Dependencies e)) envs
}.

Lemma in_bounds_contains w t : millis (Start w) = Start w -> millis (End_ w) = End_ w -> in_bounds w t = Contains w t.
Proof. intros H1 H2. unfold in_bounds, Contains. by rewrite H1, H2. Qed.

Lemma filter_none {A} (p : A -> bool) l : Forall (fun x => p x = false) l -> List.filter p l = [].
Proof. induction 1 as [|x l Hx Hl IH]; [done|]. cbn. by rewrite Hx. Qed.

Lemma filter_every {A} (p : A -> bool) l : Forall (fun x => p x = true) l -> List.filter p l = l.
Proof. induction 1 as [|x l Hx Hl IH]; [done|]. cbn. by rewrite Hx, IH. Qed.

Definition dep_wanted (tenant : string) (w : Window) (id : string) (r : DependencyRow) : bool :=
  String.eqb (xd_TenantID r) tenant && in_bounds w (xd_ObservedAt r) && String.eqb (xd_EnvelopeID r) id.

Lemma dep_rows_of tenant w e id :
  env_TenantID e = tenant ->
  Forall (fun d => in_bounds w (millis (dep_ObservedAt d)) = true) (env_Dependencies e) ->
  List.filter (dep_wanted tenant w id) (map (dependency_row e) (env_Dependencies e)) =
  if String.eqb (env_EnvelopeID e) id then map (dependency_row e) (env_Dependencies e) else [].
Proof.
  intros Ht Hd. unfold dep_wanted. destruct (String.eqb_spec (env_EnvelopeID e) id) as [Hi|Hi].
  - apply filter_every. rewrite Forall_map. apply (Forall_impl _ _ _ Hd). intros d H.
    cbn. by rewrite Ht, Hi, !String.eqb_refl, H.
  - apply filter_none. rewrite Forall_map. apply Forall_true. intros d. cbn.
    destruct (String.eqb_spec (env_EnvelopeID e) id); [done|]. by rewrite andb_false_r.
Qed.

(** The dependencies read for an envelope of the population are its own. *)
Lemma dependencies_read tenant w envs e db :
  population tenant w envs -> e ∈ envs -> dependency_observations db = dependency_rows (map Some envs) ->
  loadDependencies db tenant w (env_EnvelopeID e) = map read_dependency (env_Dependencies e).
Proof.
  intros [Ht Hids _ _ _ Hd] He Hdb. unfold loadDependencies. rewrite Hdb.
  fold (dep_wanted tenant w (env_EnvelopeID e)).
  change (fun r => String.eqb (xd_TenantID r) tenant && in_bounds w (xd_ObservedAt r) && String.eqb (xd_EnvelopeID r) (env_EnvelopeID e))
    with (dep_wanted tenant w (env_EnvelopeID e)).
  unfold dependency_rows. replace (omap id (map Some envs)) with envs
    by (clear; induction envs as [|x l IH]; [done | cbn; by rewrite <- IH]).
  clear Hdb. revert Hids Ht Hd He. induction envs as [|x l IH]; intros Hids Ht Hd He; [by apply elem_of_nil in He|].
  apply NoDup_cons in Hids as [Hx Hids]. apply Forall_cons in Ht as [Hxt Ht]. apply Forall_cons in Hd as [Hxd Hd].
  cbn [map List.concat]. rewrite List.filter_app, (dep_rows_of tenant w x _ Hxt Hxd).
  destruct (String.eqb_spec (env_EnvelopeID x) (env_EnvelopeID e)) as [Hi|Hi].
  - assert (x = e) as ->.
    { apply elem_of_cons in He as [->|He]; [done|]. exfalso. apply Hx. rewrite Hi.
      by apply list_elem_of_In, in_map, list_elem_of_In. }
    rewrite filter_none; [by rewrite app_nil_r, map_map|].
    apply Forall_forall. intros r Hr%list_elem_of_In. apply in_concat in Hr as (rs & Hrs & Hr).
    apply in_map_iff in Hrs as (y & <- & Hy). apply in_map_iff in Hr as (d & <- & _).
    unfold dep_wanted. cbn. destruct (String.eqb_spec (env_EnvelopeID y) (env_EnvelopeID e)) as [E|]; [|by rewrite andb_false_r].
    exfalso. apply Hx. rewrite <- E. by apply list_elem_of_In, in_map.
  - apply elem_of_cons in He as [->|He]; [done|]. by apply IH.
Qed.

Lemma filter_map_swap {A B} (p : B -> bool) (f : A -> B) l :
  List.filter p (map f l) = map f (List.filter (fun x => p (f x)) l).
Proof. induction l as [|x l IH]; [done|]. cbn. rewrite IH. by destruct (p (f x)). Qed.

Lemma sorted_filter (l : list Envelope) p :
  StronglySorted Z.le (map env_ReceivedAt l) -> StronglySorted Z.le (map env_ReceivedAt (List.filter p l)).
Proof.
  induction l as [|x l IH]; [done|]. cbn. intros Hs. inversion Hs as [|? ? Hs1 Hs2]; subst.
  destruct (p x); [|by apply IH]. cbn. constructor; [by apply IH|].
  rewrite Forall_forall in Hs2 |- *. intros t Ht. apply Hs2.
  apply list_elem_of_In, in_map_iff in Ht as (y & <- & Hy). apply filter_In in Hy as [Hy _].
  by apply list_elem_of_In, in_map.
Qed.

(** What is read of a window: its envelopes, in order, as stored. *)
Lemma LoadWindow_rows tenant w envs db :
  safeLiteral tenant = true -> population tenant w envs ->
  intents db = map (intent_row decisions) envs ->
  LoadWindow float_text Fine db tenant w =
  Ok (map (fun e => mkObserved (Some (hydrated (loadDependencies db tenant w) e)) (ob_Authorized (decided e)))
        (List.filter (fun e => in_bounds w (env_ReceivedAt e)) envs)).
Proof.
  intros Hsafe [Ht _ Hr Ho _ _] Hdb. unfold LoadWindow. rewrite Hsafe, Hdb. cbn [negb]. f_equal.
  rewrite filter_map_swap.
  assert (Hin : List.filter (fun e => String.eqb (xr_TenantID (intent_row decisions e)) tenant &&
                                      in_bounds w (xr_ReceivedAt (intent_row decisions e))) envs =
                List.filter (fun e => in_bounds w (env_ReceivedAt e)) envs).
  { apply List.filter_ext_in. intros e He%list_elem_of_In.
    destruct (row_fields e) as (-> & -> & _).
    rewrite Forall_forall in Ht, Hr. by rewrite (Ht e He), String.eqb_refl, (Hr e He). }
  rewrite Hin. set (l := List.filter _ envs).
  assert (Hl : forall e, e ∈ l -> e ∈ envs) by (intros e He%list_elem_of_In; apply filter_In in He as [? _]; by apply list_elem_of_In).
  assert (Hs : StronglySorted Z.le (map env_ReceivedAt l)) by (by apply sorted_filter).
  rewrite stable_sort_id.
  - rewrite map_map. apply map_ext_in. intros e He%list_elem_of_In%Hl. rewrite Forall_forall in Ht.
    rewrite <- (Ht e He) at 1. by rewrite observed_row_decided.
  - assert (Hrl : Forall (fun e => millis (env_ReceivedAt e) = env_ReceivedAt e) l)
      by (rewrite Forall_forall in Hr |- *; auto).
    clear - Hs Hrl. induction l as [|x l IH]; cbn; [constructor|].
    inversion Hs as [|? ? Hs1 Hs2]; subst. apply Forall_cons in Hrl as [Hx Hrl]. constructor; [by apply IH|].
    rewrite Forall_map in Hs2 |- *. rewrite Forall_forall in Hs2, Hrl |- *. intros y Hy.
    unfold not_after, Before. destruct (row_fields x) as (-> & _), (row_fields y) as (-> & _).
    rewrite (Hrl y Hy), Hx. apply Z.ltb_ge. by apply Hs2.
Qed.

(** Measures agree when what is selected of one list reads like what is selected of the
    other. *)
Lemma tally_hydrated c w (deps : string -> list Dependency) envs t :
  no_attestation c = true -> millis (Start w) = Start w -> millis (End_ w) = End_ w ->
  (forall e, e ∈ envs -> reads_alike e (hydrated deps e)) ->
  foldl (count_observed c w) t
    (map (fun e => mkObserved (Some (hydrated deps e)) (ob_Authorized (decided e)))
       (List.filter (fun e => in_bounds w (env_ReceivedAt e)) envs)) =
  foldl (count_observed c w) t (map (decided) envs).
Proof.
  intros Hc H1 H2. revert t. induction envs as [|e envs IH]; intros t Ha; [done|]. cbn [List.filter map foldl].
  assert (Hrest : forall e', e' ∈ envs -> reads_alike e' (hydrated deps e')) by (intros; apply Ha; by right).
  pose proof (Ha e ltac:(by left)) as He. rewrite (in_bounds_contains w _ H1 H2).
  destruct (Contains w (env_ReceivedAt e)) eqn:Ew.
  - cbn [map foldl]. rewrite IH by done. f_equal. unfold count_observed, decided. cbn [ob_Envelope ob_Authorized].
    unfold selected. cbn [ob_Envelope]. rewrite (Matches_alike c _ _ He Hc), (ra_received _ _ He).
    case_match; [by apply count_intent_alike | done].
  - rewrite IH by done. f_equal. unfold count_observed, decided, selected. cbn [ob_Envelope].
    by rewrite Ew, andb_false_r.
Qed.
End RoundTrip.

(** A historical measurement is the measurement that would have been made: what a tenant's
    stored intents of a window give, hydrated from the analytical store, is what the
    envelopes themselves and their decisions give, for every cohort that does not ask for
    an attestation level, provided instants are whole milliseconds, every amount survives
    the store's float column and every dependency was observed inside the window. *)
Theorem measurement_survives_the_round_trip float_text decisions tenant w envs :
  safeLiteral tenant = true -> population float_text tenant w envs ->
  millis (Start w) = Start w -> millis (End_ w) = End_ w ->
  let written := fst (InsertDependencies Fine (fst (InsertIntents Fine no_analytics (map Some envs) decisions)) (map Some envs)) in
  exists observed, LoadWindow float_text Fine written tenant w = Ok observed /\
    forall c, no_attestation c = true ->
      MeasureObserved c w observed = MeasureObserved c w (map (decided decisions) envs).
Proof.
  intros Hsafe Hp H1 H2 written.
  assert (Hsome : omap id (map Some envs) = envs) by (clear; induction envs as [|x l IH]; [done | cbn; by rewrite IH]).
  assert (Hi : intents written = map (intent_row decisions) envs).
  { rewrite <- Hsome at 1. unfold written, InsertDependencies, InsertIntents.
    destruct (dependency_rows _), envs; done. }
  assert (Hd : dependency_observations written = dependency_rows (map Some envs)).
  { unfold written, InsertDependencies, InsertIntents. destruct (dependency_rows (map Some envs)) eqn:E;
      by destruct envs. }
  eexists. split; [by apply LoadWindow_rows|]. intros c Hc. unfold MeasureObserved.
  rewrite tally_hydrated; [done..|]. intros e He. pose proof (po_amounts _ _ _ _ Hp) as Ha. pose proof (po_received _ _ _ _ Hp) as Hr.
  rewrite Forall_forall in Ha, Hr. apply hydrated_alike; [by apply Ha | by apply Hr|].
  by apply (dependencies_read float_text tenant w envs).
Qed.

(** * Each window is measured once *)

Section ProducerLemmas.
Context {D : Type} {HS : VectorSink D} (float_text : float64 -> string)
  (range : gmap string Z -> list Z) (order : list string -> list string) (p : ProducerConfig).

Record tick := mkTick { tk_now : Time; tk_faults : string -> TickFaults }.

Definition tick_step (s : ProducerState D) (t : tick) : ProducerState D :=
  fst (fst (RunOnce float_text range order p (tk_now t) (tk_faults t) s)).

(** No insert is stored with its answer lost. *)
Definition acknowledged (t : tick) : Prop := forall tenant, tf_insert (tk_faults t tenant) <> LostAck.

Definition rows_of (tenant : string) (e : Time) (rows : list MeasurementRow) : list MeasurementRow :=
  List.filter (fun r => String.eqb (xm_TenantID r) tenant && (xm_WindowEnd r =? e)) rows.

Definition aligned (r : MeasurementRow) : Prop :=
  xm_WindowEnd r mod pc_Interval p = 0 /\ xm_WindowStart r = xm_WindowEnd r - pc_Interval p.

(** One row per cohort of the tenant, or none yet. *)
Definition measured_once (tenant : string) (e : Time) (rows : list MeasurementRow) : Prop :=
  map xm_CohortID (rows_of tenant e rows) = [] \/
  map xm_CohortID (rows_of tenant e rows) = map CohortID (tenant_cohorts p tenant).

Record producer_ok (s : ProducerState D) : Prop := {
  ok_aligned : Forall aligned (fleet_measurements (ps_store s));
  ok_once : forall tenant e,
    measured_once tenant e (fleet_measurements (ps_store s)) /\
    match ps_lastMeasured s !! tenant with
    | Some l => l < e -> rows_of tenant e (fleet_measurements (ps_store s)) = []
    | None => rows_of tenant e (fleet_measurements (ps_store s)) = []
    end
}.

Context (Hpos : 0 < pc_Interval p) (Hms : pc_Interval p mod Millisecond = 0).

Lemma window_end_aligned now : End_ (window p now) mod pc_Interval p = 0.
Proof.
  unfold window, Truncate, TimeAdd. cbn. destruct (Z.leb_spec (pc_Interval p) 0); [lia|].
  rewrite Zminus_mod_idemp_r, Z.sub_diag. by apply Z.mod_0_l; lia.
Qed.

Lemma millis_aligned t : t mod pc_Interval p = 0 -> millis t = t.
Proof.
  intros H. unfold millis. apply Z.mod_divide in H as [k ->]; [|lia].
  apply Z.mod_divide in Hms as [j Hj]; [|done]. rewrite Hj.
  replace (k * (j * Millisecond)) with (k * j * Millisecond) by lia. rewrite Z.mod_mul by done. lia.
Qed.

Lemma measurement_row_aligned c now observed :
  aligned (measurement_row (MeasureObserved c (window p now) observed)) /\
  xm_WindowEnd (measurement_row (MeasureObserved c (window p now) observed)) = End_ (window p now).
Proof.
  pose proof (window_end_aligned now) as He. unfold aligned, measurement_row. cbn [xm_WindowEnd xm_WindowStart].
  assert (Hw : ms_Window (MeasureObserved c (window p now) observed) = window p now).
  { unfold MeasureObserved. by destruct (ta_feeds _) as [[[? ?] ?] ?]. }
  rewrite Hw, (millis_aligned _ He).
  assert (Hs : Start (window p now) = End_ (window p now) - pc_Interval p) by (unfold window, TimeAdd; cbn; lia).
  rewrite Hs, millis_aligned; [done|].
  rewrite Zminus_mod, He, Z_mod_same_full, Zminus_0_r. by apply Z.mod_0_l; lia.
Qed.

Lemma new_rows now observed tenant t e :
  rows_of t e (map measurement_row (map (fun c => MeasureObserved c (window p now) observed) (tenant_cohorts p tenant))) =
  if String.eqb tenant t && (End_ (window p now) =? e)
  then map measurement_row (map (fun c => MeasureObserved c (window p now) observed) (tenant_cohorts p tenant)) else [].
Proof.
  assert (Hall : Forall (fun r => xm_TenantID r = tenant /\ xm_WindowEnd r = End_ (window p now))
            (map measurement_row (map (fun c => MeasureObserved c (window p now) observed) (tenant_cohorts p tenant)))).
  { rewrite map_map, Forall_map, Forall_forall. intros c Hc%list_elem_of_In.
    apply filter_In in Hc as [_ Hc]. b2p. split; [|apply measurement_row_aligned].
    unfold measurement_row, MeasureObserved. by destruct (ta_feeds _) as [[[? ?] ?] ?]. }
  unfold rows_of. destruct (String.eqb_spec tenant t) as [->|Ht], (Z.eqb_spec (End_ (window p now)) e) as [<-|He]; cbn [andb].
  - apply filter_every. apply (Forall_impl _ _ _ Hall). intros r [-> ->]. by rewrite String.eqb_refl, Z.eqb_refl.
  - apply filter_none. apply (Forall_impl _ _ _ Hall). intros r [-> ->].
    destruct (Z.eqb_spec (End_ (window p now)) e); [done|]. by rewrite andb_false_r.
  - apply filter_none. apply (Forall_impl _ _ _ Hall). intros r [-> _].
    by destruct (String.eqb_spec tenant t).
  - apply filter_none. apply (Forall_impl _ _ _ Hall). intros r [-> _].
    by destruct (String.eqb_spec tenant t).
Qed.

Lemma cohort_ids now observed l :
  map xm_CohortID (map measurement_row (map (fun c => MeasureObserved c (window p now) observed) l)) = map CohortID l.
Proof.
  rewrite !map_map. apply map_ext. intros c. unfold measurement_row, MeasureObserved.
  by destruct (ta_feeds _) as [[[? ?] ?] ?].
Qed.

Lemma InsertMeasurements_table f db ms :
  f <> LostAck ->
  (snd (InsertMeasurements f db ms) <> None /\ fst (InsertMeasurements f db ms) = db) \/
  (snd (InsertMeasurements f db ms) = None /\
   fleet_measurements (fst (InsertMeasurements f db ms)) = fleet_measurements db ++ map measurement_row ms).
Proof.
  intros Hf. unfold InsertMeasurements. destruct ms as [|m ms]; [right; by rewrite app_nil_r|].
  destruct f; cbn; [by right | left; by destruct db | done].
Qed.

Lemma rows_of_app t e l1 l2 : rows_of t e (l1 ++ l2) = rows_of t e l1 ++ rows_of t e l2.
Proof. apply List.filter_app. Qed.

Lemma measure_tenant_ok now f s tenant :
  tf_insert f <> LostAck -> producer_ok s ->
  producer_ok (fst (measure_tenant float_text range p (window p now) f s tenant)).
Proof.
  intros Hf [Ha Ho]. unfold measure_tenant.
  destruct (match ps_lastMeasured s !! tenant with Some l => _ | None => false end) eqn:Em; [done|].
  destruct (LoadWindow _ _ _ _ _) as [observed|]; [|done]. cbv zeta.
  set (cohorts := tenant_cohorts p tenant).
  set (ms := map (fun c => MeasureObserved c (window p now) observed) cohorts).
  destruct (InsertMeasurements_table (tf_insert f) (ps_store s) ms Hf) as [[He Hdb]|[He Hdb]];
    destruct (InsertMeasurements (tf_insert f) (ps_store s) ms) as [db [er|]]; cbn [fst snd] in *; try done.
  { subst db. by split. }
  assert (Hempty : rows_of tenant (End_ (window p now)) (fleet_measurements (ps_store s)) = []).
  { destruct (Ho tenant (End_ (window p now))) as [_ Hl]. destruct (ps_lastMeasured s !! tenant) as [l|]; [|done].
    apply Hl. unfold After in Em. b2p. done. }
  split; cbn [ps_store ps_lastMeasured]; rewrite Hdb.
  - apply Forall_app_2; [done|]. subst ms. rewrite map_map, Forall_map. apply Forall_true.
    intros c. apply measurement_row_aligned.
  - intros t e. unfold measured_once. rewrite rows_of_app. subst ms cohorts. rewrite new_rows.
    destruct (Ho t e) as [H1 H2]. destruct (String.eqb_spec tenant t) as [->|Ht].
    + rewrite lookup_insert_eq. destruct (Z.eqb_spec (End_ (window p now)) e) as [<-|Hne]; cbn [andb].
      * rewrite Hempty, app_nil_l, cohort_ids. split; [by right | lia].
      * rewrite app_nil_r. split; [done|]. intros Hl. destruct (ps_lastMeasured s !! t) as [l|]; [|done].
        apply H2. unfold After in Em. b2p. lia.
    + rewrite lookup_insert_ne by done. cbn [andb]. by rewrite app_nil_r.
Qed.

Lemma measure_tenants_ok now faults s written l :
  (forall tenant, tf_insert (faults tenant) <> LostAck) -> producer_ok s ->
  producer_ok (fst (fst (measure_tenants float_text range p (window p now) faults s written l))).
Proof.
  intros Hf. revert s written. induction l as [|tenant l IH]; intros s written Hs; [done|]. cbn.
  pose proof (measure_tenant_ok now (faults tenant) s tenant (Hf tenant) Hs) as H.
  destruct (measure_tenant _ _ _ _ _ _ _) as [s' [ms|e]]; [by apply IH | done].
Qed.

Lemma tick_step_ok s t : acknowledged t -> producer_ok s -> producer_ok (tick_step s t).
Proof.
  intros Hf Hs. unfold tick_step, RunOnce. destruct (pc_Cohorts p); [done|]. by apply measure_tenants_ok.
Qed.

Lemma run_ticks_ok s ticks : Forall acknowledged ticks -> producer_ok s -> producer_ok (run_ops tick_step s ticks).
Proof.
  intros H. revert s. induction H as [|t ticks Ht Hts IH]; intros s Hs; [done|]. cbn. by apply IH, tick_step_ok.
Qed.

Definition fresh (detector : option D) : ProducerState D := mkProducerState no_analytics ∅ detector.

Lemma fresh_ok detector : producer_ok (fresh detector).
Proof. split; [constructor|]. intros tenant e. by split; [left|]. Qed.

(** However the ticks fall, late, early, repeated, with reads and writes failing, each
    window of each tenant is measured at most once, for all its cohorts at once, and the
    windows are the aligned intervals, so that no two of them overlap. *)
Theorem each_window_measured_once detector ticks :
  Forall acknowledged ticks ->
  let rows := fleet_measurements (ps_store (run_ops tick_step (fresh detector) ticks)) in
  (forall tenant e, measured_once tenant e rows) /\
  (forall r1 r2, r1 ∈ rows -> r2 ∈ rows ->
     xm_WindowEnd r1 = xm_WindowEnd r2 \/ xm_WindowEnd r1 <= xm_WindowStart r2 \/ xm_WindowEnd r2 <= xm_WindowStart r1).
Proof.
  intros Ht rows. destruct (run_ticks_ok (fresh detector) ticks Ht (fresh_ok detector)) as [Ha Ho].
  split; [intros; apply Ho|]. intros r1 r2 H1 H2. rewrite Forall_forall in Ha.
  destruct (Ha r1 H1) as [A1 ->], (Ha r2 H2) as [A2 ->].
  apply Z.mod_divide in A1 as [k1 ->]; [|lia]. apply Z.mod_divide in A2 as [k2 ->]; [|lia].
  destruct (Z.lt_trichotomy k1 k2) as [?|[->|?]]; [right; left; nia | by left | right; right; nia].
Qed.
End ProducerLemmas.

(** * A desk and its windows *)

Definition reader_of (strategy : string) (at_ : Time) (level : string) (feed_at : Time) : Envelope :=
  let e := sample_envelope in
  mkEnvelope (env_SchemaVersion e) ("env-" +:+ fmt_d at_) (env_IdempotencyKey e) (env_CorrelationID e) at_
    (env_TenantID e) (env_Principal e)
    (mkAgent (ag_AgentID (env_Agent e)) (ag_SpiffeID (env_Agent e)) (mkAttestation level "" ""))
    (env_RuntimeClaims e) (env_AuthorityGrantID e) [mkDependency DependencyMarketData "feed-1" "DECLARED" feed_at ""]
    (env_Intent e) (env_ParentIntentID e) strategy (env_PortfolioSnapshotID e) (env_MarketSnapshotID e)
    (env_Signature e).

Definition minute_of (k : Z) : Window := mkWindow (k * Minute) ((k + 1) * Minute).

(** The text of the amounts of the desk. *)
Definition desk_text (x : float64) : string := fmt_fixed 4 x.

Definition desk_envelopes : list Envelope :=
  [reader_of "mean" (60 * Second) "A2" (61 * Second); reader_of "mean" (70 * Second) "A2" (71 * Second)].

Definition stored_desk (l : list Envelope) : Analytics :=
  fst (InsertDependencies Fine (fst (InsertIntents Fine no_analytics (map Some l) ∅)) (map Some l)).

Definition measured (c : Cohort) (l : list Envelope) : option Measurement :=
  match LoadWindow desk_text Fine (stored_desk l) "tenant-1" (minute_of 1) with
  | Ok observed => Some (MeasureObserved c (minute_of 1) observed)
  | Err _ => None
  end.

(** ** What the code does that its comments do not say *)

(** The projection is said to carry exactly the fields a measurement reads; a cohort may be
    defined by attestation level, which it does not carry, so that such a cohort has no
    members once its intents are stored. *)
Theorem attestation_cohort_is_empty_once_stored :
  match NewCohort "tenant-1" [mkPredicate FieldAttestation "A2"] with
  | Ok c => ms_IntentCount (Measure c (minute_of 1) (map Some desk_envelopes)) = 2 /\
            (ms_IntentCount <$> measured c desk_envelopes) = Some 0
  | Err _ => False
  end.
Proof. vm_compute. done. Qed.

(** A dependency observed before the window is not read back with the intent that declared
    it: the coverage of a declared feed becomes unknown. *)
Theorem early_dependency_is_lost :
  let c := mkCohort "tenant-1" [] in
  let l := [reader_of "mean" (60 * Second) "A2" (59 * Second)] in
  cv_Declared (ms_FeedCoverage (Measure c (minute_of 1) (map Some l))) = f64_of_Z 1 /\
  ((fun m => (cv_Declared (ms_FeedCoverage m), cv_Unknown (ms_FeedCoverage m))) <$> measured c l) =
    Some (f64_zero, f64_of_Z 1).
Proof. split; vm_compute; reflexivity. Qed.

#[local] Instance quiet_sink : VectorSink unit := {| sink_observe d _ := d |}.

Definition one_cohort : ProducerConfig := mkProducerConfig [mkCohort "tenant-1" []] Minute 0.
Definition works : string -> TickFaults := fun _ => mkTickFaults Fine Fine.
Definition down : string -> TickFaults := fun _ => mkTickFaults Fails Fails.
Definition loses : string -> TickFaults := fun _ => mkTickFaults Fine LostAck.

Definition producer_step : ProducerState unit -> tick -> ProducerState unit :=
  tick_step desk_text ascending (fun l => l) one_cohort.
Definition run_producer (ticks : list tick) : ProducerState unit :=
  run_ops producer_step (fresh (Some ())) ticks.
Definition window_ends (s : ProducerState unit) : list Time :=
  map xm_WindowEnd (fleet_measurements (ps_store s)).

(** A window the store was down for is never measured: the next tick measures only the
    newest one, the gap that the loop is said to prevent. *)
Theorem outage_leaves_a_gap :
  window_ends (run_producer [mkTick (2 * Minute) works; mkTick (3 * Minute) down; mkTick (4 * Minute) works])
  = [2 * Minute; 4 * Minute].
Proof. vm_compute. reflexivity. Qed.

(** What is already measured is remembered by the process alone, and only once the insert
    is acknowledged: a restart, a second replica or a lost answer writes the window twice
    into a store that keeps both. *)
Theorem window_measured_twice :
  let first := run_producer [mkTick (2 * Minute) works] in
  let restarted := mkProducerState (ps_store first) ∅ (ps_detector first) in
  window_ends (producer_step restarted (mkTick (2 * Minute) works)) = [2 * Minute; 2 * Minute] /\
  window_ends (run_producer [mkTick (2 * Minute) loses; mkTick (2 * Minute) works]) = [2 * Minute; 2 * Minute].
Proof. split; vm_compute; reflexivity. Qed.

(** * Witnesses *)

Example each_window_measured_once_witness :
  let ticks := [mkTick (2 * Minute) works; mkTick (2 * Minute + Second) works; mkTick (4 * Minute) down] in
  window_ends (run_producer ticks) = [2 * Minute] /\
  measured_once one_cohort "tenant-1" (2 * Minute) (fleet_measurements (ps_store (run_producer ticks))).
Proof.
  split; [vm_compute; reflexivity|].
  refine (proj1 (each_window_measured_once desk_text ascending (fun l => l) one_cohort _ _ (Some ()) _ _) _ _).
  - vm_compute. reflexivity.
  - vm_compute. reflexivity.
  - repeat constructor; intros tenant; discriminate.
Defined.

Lemma desk_population : population desk_text "tenant-1" (minute_of 1) desk_envelopes.
Proof.
  split.
  - repeat constructor.
  - apply (bool_decide_unpack (NoDup _)). vm_compute. exact I.
  - repeat constructor.
  - repeat constructor; vm_compute; discriminate.
  - repeat constructor; vm_compute; reflexivity.
  - repeat constructor; vm_compute; reflexivity.
Qed.

Example measurement_survives_the_round_trip_witness :
  exists observed, LoadWindow desk_text Fine (stored_desk desk_envelopes) "tenant-1" (minute_of 1) = Ok observed /\
    MeasureObserved (mkCohort "tenant-1" []) (minute_of 1) observed =
    MeasureObserved (mkCohort "tenant-1" []) (minute_of 1) (map (decided ∅) desk_envelopes).
Proof.
  destruct (measurement_survives_the_round_trip desk_text ∅ "tenant-1" (minute_of 1) desk_envelopes
              ltac:(vm_compute; reflexivity) desk_population ltac:(vm_compute; reflexivity) ltac:(vm_compute; reflexivity))
    as (observed & H1 & H2).
  exists observed. split; [exact H1|]. apply H2. vm_compute. reflexivity.
Defined.
