(* ===== verification/Pipeline.v ===== *)
(** The enforcement pipeline: internal/gateway/pipeline.go.

    [Submit] is [Pipeline.Submit]: it composes the components of the other files and
    decides nothing of its own.  A [Gateway] is the state a submission can change: the
    reservation ledger, the execution service's [World], the throttles, the evidence
    store, the tracker of parent intents and the sequence of evidence events.  A
    [Moment] is what a submission meets: the clock, what the providers answer, and what
    the database does to each of its transactions.  Stages are functions of a small
    state monad whose answers end the submission; [Died] is a process that stopped
    inside the execution service.

    Texts written for people are reduced to the code they carry.  Telemetry, which
    receives a copy of the decision and returns nothing, is left out. *)

From S2P Require Import Prelude Money Intent Broker Execution CanonicalJSON Crypto Identity.
From S2P Require Import ParentIntent.
From S2P Require Authority Usage Evidence Control Policy.

(** * The stages *)

Definition StageValidation : string := "VALIDATION".
Definition StageIdentity : string := "IDENTITY".
Definition StageSignature : string := "SIGNATURE".
Definition StageIdempotency : string := "IDEMPOTENCY".
Definition StageAuthority : string := "AUTHORITY".
Definition StageControl : string := "CONTROL".
Definition StagePolicy : string := "POLICY".
Definition StageExecution : string := "EXECUTION".

Definition IntentParentLinked : Evidence.EventName := "intent.parent.linked.v1".

Record Result := mkResult {
  rs_Accepted : bool;
  rs_Stage : string;
  rs_Code : string;
  rs_Details : list string;
  rs_EnvelopeID : string;
  rs_CorrelationID : string;
  rs_Attested : option Attested;
  rs_Authority : option Authority.Decision;
  rs_Policy : option Policy.Decision;
  rs_Outcome : option Outcome;
  rs_ControlID : string;
  rs_Replayed : bool;
  rs_DecidedAt : Time
}.

(** ** Updates of a result under construction *)

Definition set_Attested (r : Result) (a : Attested) : Result :=
  mkResult (rs_Accepted r) (rs_Stage r) (rs_Code r) (rs_Details r) (rs_EnvelopeID r)
    (rs_CorrelationID r) (Some a) (rs_Authority r) (rs_Policy r) (rs_Outcome r) (rs_ControlID r)
    (rs_Replayed r) (rs_DecidedAt r).
Definition set_Authority (r : Result) (d : Authority.Decision) : Result :=
  mkResult (rs_Accepted r) (rs_Stage r) (rs_Code r) (rs_Details r) (rs_EnvelopeID r)
    (rs_CorrelationID r) (rs_Attested r) (Some d) (rs_Policy r) (rs_Outcome r) (rs_ControlID r)
    (rs_Replayed r) (rs_DecidedAt r).
Definition set_Policy (r : Result) (d : Policy.Decision) : Result :=
  mkResult (rs_Accepted r) (rs_Stage r) (rs_Code r) (rs_Details r) (rs_EnvelopeID r)
    (rs_CorrelationID r) (rs_Attested r) (rs_Authority r) (Some d) (rs_Outcome r) (rs_ControlID r)
    (rs_Replayed r) (rs_DecidedAt r).
Definition set_ControlID (r : Result) (id : string) : Result :=
  mkResult (rs_Accepted r) (rs_Stage r) (rs_Code r) (rs_Details r) (rs_EnvelopeID r)
    (rs_CorrelationID r) (rs_Attested r) (rs_Authority r) (rs_Policy r) (rs_Outcome r) id
    (rs_Replayed r) (rs_DecidedAt r).
Definition set_Outcome (r : Result) (o : Outcome) : Result :=
  mkResult (rs_Accepted r) (rs_Stage r) (rs_Code r) (rs_Details r) (rs_EnvelopeID r)
    (rs_CorrelationID r) (rs_Attested r) (rs_Authority r) (rs_Policy r) (Some o) (rs_ControlID r)
    (oc_Replayed o) (rs_DecidedAt r).
Definition set_verdict (r : Result) (accepted : bool) (stage code : string) : Result :=
  mkResult accepted stage code (rs_Details r) (rs_EnvelopeID r) (rs_CorrelationID r)
    (rs_Attested r) (rs_Authority r) (rs_Policy r) (rs_Outcome r) (rs_ControlID r)
    (rs_Replayed r) (rs_DecidedAt r).

(** * State, surroundings and the monad *)

Section Pipeline.
Context {C : Crypto} {HJ : Evidence.JSON}.
Context {K L S V Pool : Type} `{HK : KeySource K, HU : Usage.Reserver L, HS : IdemStore S, HV : Adapter V}.
Context (chain : Pool -> list Certificate -> Certificate -> Time -> option X509Error).
Context (unmarshal : Doc -> result Envelope string).
Context (rfc3339nano duration_text : Z -> string).

(** What the pipeline was built with; an absent optional component is [false] or
    [None]. *)
Record Config := mkConfig {
  p_Identity : Verifier (Pool := Pool);
  p_Usage : bool;
  p_Reserve : bool;
  p_Symbols : string -> option string;
  p_Controls : bool;
  p_Evidence : bool
}.

Record Gateway := mkGateway {
  gw_ledger : L;
  gw_world : World S V;
  gw_controls : Control.Store.Tables;
  gw_evidence : Evidence.Tables;
  gw_parent : option ParentTracker;
  gw_sequence : Z
}.

Record Moment := mkMoment {
  m_now : Time;
  (** the clock when identity reads it, twice *)
  m_identity_now : Time;
  m_verify_now : Time;
  m_keys : option K;
  m_grants : string -> string -> result (option Authority.Grant) string;
  m_policies : string -> result (option Policy.Bundle) string;
  m_load1 : TxFault;
  m_load2 : TxFault;
  m_usage : bool;
  m_controls : bool;
  m_consume : nat -> bool;
  m_reserve : bool;
  m_receipt : TxFault;
  m_execution : Surroundings;
  m_release : TxFault;
  m_settle : TxFault;
  m_flush : TxFault;
  m_dbnow : Time
}.

(** A submission in progress: the gateway, the buffered evidence and how much of it
    has been written. *)
Record Call := mkCall {
  ca_gw : Gateway;
  ca_events : list Evidence.Event;
  ca_flushed : nat
}.

Inductive step (A : Type) :=
| Go (a : A)
| Answer (r : Result)
| Died.
Arguments Go {A}.
Arguments Answer {A}.
Arguments Died {A}.

Definition M (A : Type) : Type := Call -> Call * step A.

Definition ret {A} (a : A) : M A := fun c => (c, Go a).
Definition answer {A} (r : Result) : M A := fun c => (c, Answer r).
Definition died {A} : M A := fun c => (c, Died).

Definition bind {A B} (m : M A) (k : A -> M B) : M B := fun c =>
  match m c with
  | (c', Go a) => k a c'
  | (c', Answer r) => (c', Answer r)
  | (c', Died) => (c', Died)
  end.

Local Notation "'let!' x ':=' m 'in' k" := (bind m (fun x => k))
  (at level 10, x name, m at level 100, k at level 200).
Local Notation "m ;; k" := (bind m (fun _ => k)) (at level 100, right associativity).

(** Reading and changing the gateway. *)
Definition gets {A} (f : Gateway -> A) : M A := fun c => (c, Go (f (ca_gw c))).
Definition modify (f : Gateway -> Gateway) : M unit := fun c =>
  (mkCall (f (ca_gw c)) (ca_events c) (ca_flushed c), Go ()).

Definition set_ledger (l : L) (g : Gateway) : Gateway :=
  mkGateway l (gw_world g) (gw_controls g) (gw_evidence g) (gw_parent g) (gw_sequence g).
Definition set_world (w : World S V) (g : Gateway) : Gateway :=
  mkGateway (gw_ledger g) w (gw_controls g) (gw_evidence g) (gw_parent g) (gw_sequence g).
Definition set_controls (t : Control.Store.Tables) (g : Gateway) : Gateway :=
  mkGateway (gw_ledger g) (gw_world g) t (gw_evidence g) (gw_parent g) (gw_sequence g).
Definition set_evidence (t : Evidence.Tables) (g : Gateway) : Gateway :=
  mkGateway (gw_ledger g) (gw_world g) (gw_controls g) t (gw_parent g) (gw_sequence g).
Definition set_parent (t : option ParentTracker) (g : Gateway) : Gateway :=
  mkGateway (gw_ledger g) (gw_world g) (gw_controls g) (gw_evidence g) t (gw_sequence g).
Definition set_sequence (n : Z) (g : Gateway) : Gateway :=
  mkGateway (gw_ledger g) (gw_world g) (gw_controls g) (gw_evidence g) (gw_parent g) n.

(** ** Evidence *)

Definition correlationOf (env : Envelope) : string :=
  if str_nonempty (env_CorrelationID env) then env_CorrelationID env else env_EnvelopeID env.

(** The event [record] builds, given the last one of the buffer. *)
Definition event_for (env : Envelope) (name : Evidence.EventName) (at_ : Time)
    (payload : list (string * Evidence.Value)) (seq : Z) (before : option Evidence.Event)
    : Evidence.Event :=
  Evidence.mkEvent Evidence.SchemaVersion
    (env_EnvelopeID env +:+ "_" +:+ name +:+ "_" +:+ fmt_d seq) name (env_TenantID env)
    (env_EnvelopeID env) (correlationOf env)
    (match before with Some e => Evidence.ev_EventID e | None => "" end)
    at_ at_ "assurance-gateway" seq "" (Some payload).

Definition record (cfg : Config) (env : Envelope) (name : Evidence.EventName) (at_ : Time)
    (payload : list (string * Evidence.Value)) : M unit := fun c =>
  if negb (p_Evidence cfg) then (c, Go ()) else
  let seq := add64 (gw_sequence (ca_gw c)) 1 in
  let e := event_for env name at_ payload seq (last (ca_events c)) in
  (mkCall (set_sequence seq (ca_gw c)) (ca_events c ++ [e]) (ca_flushed c), Go ()).

(** Writes what has not been written yet; the boolean is whether it committed. *)
Definition write_evidence (cfg : Config) (f : TxFault) (dbnow : Time) : M bool := fun c =>
  if negb (p_Evidence cfg) || (length (ca_events c) <=? ca_flushed c)%nat then (c, Go true) else
  match Evidence.AppendBatch f dbnow (gw_evidence (ca_gw c)) (drop (ca_flushed c) (ca_events c)) with
  | (db, Ok _) => (mkCall (set_evidence db (ca_gw c)) (ca_events c) (length (ca_events c)), Go true)
  | (db, Err _) => (mkCall (set_evidence db (ca_gw c)) (ca_events c) (ca_flushed c), Go false)
  end.

Definition receipt (cfg : Config) (m : Moment) : M bool :=
  write_evidence cfg (m_receipt m) (m_dbnow m).

Definition flush (cfg : Config) (m : Moment) : M unit :=
  let! _ := write_evidence cfg (m_flush m) (m_dbnow m) in ret ().

Definition deny {A} (r : Result) (stage code : string) : M A := answer (set_verdict r false stage code).

(** * The stages of a submission *)

(** [intent.Decode]: the envelope, or the codes of its validation errors. *)
Definition Decode (raw : Doc) : result Envelope ValidationErrors :=
  match unmarshal raw with
  | Err code => Err [mkVE "" code]
  | Ok env =>
      match Validate env with
      | (env, []) => Ok env
      | (_, errs) => Err errs
      end
  end.

Definition refuse (stage code : string) (errs : ValidationErrors) (at_ : Time) : Result :=
  mkResult false stage code (Codes errs) "" "" None None None None "" false at_.

Definition begin_result (env : Envelope) (at_ : Time) : Result :=
  mkResult false "" "" [] (env_EnvelopeID env) (env_CorrelationID env) None None None None "" false
    at_.

(** ** 4. Identity, tenant, signature *)

Definition check_identity (cfg : Config) (env : Envelope) (a : Attested) (at_ : Time) (r : Result)
    : M unit :=
  match CheckClaim (at_Level (ag_Attestation (env_Agent env))) a with
  | Some reason =>
      record cfg env Evidence.IdentityFailed at_
        [("claimed", Evidence.VString (at_Level (ag_Attestation (env_Agent env))));
         ("established", Evidence.VString (a_Level a)); ("reason", Evidence.VString reason)] ;;
      deny r StageIdentity "ATTESTATION_CLAIM_EXCEEDS_EVIDENCE"
  | None =>
  match RequireExecutable a with
  | Some reason =>
      record cfg env Evidence.IdentityFailed at_
        [("established", Evidence.VString (a_Level a)); ("reason", Evidence.VString reason)] ;;
      deny r StageIdentity "UNAUTHENTICATED_WORKLOAD"
  | None =>
  match RequireTenant a (env_TenantID env) with
  | Some _ =>
      record cfg env Evidence.IdentityFailed at_
        [("claimed_tenant", Evidence.VString (env_TenantID env));
         ("reason", Evidence.VString "TENANT_NOT_AUTHENTICATED")] ;;
      deny r StageIdentity "TENANT_NOT_AUTHENTICATED"
  | None => ret ()
  end end end.

Definition check_signature (cfg : Config) (m : Moment) (raw : Doc) (env : Envelope) (at_ : Time)
    (r : Result) : M unit :=
  match VerifyEnvelopeSignature (m_keys m) raw (Some env) at_ with
  | Some code =>
      record cfg env Evidence.IdentityFailed at_
        [("code", Evidence.VString code);
         ("key_id", Evidence.VString (sig_KeyID (env_Signature env)));
         ("reason", Evidence.VString code)] ;;
      deny r StageSignature code
  | None => ret ()
  end.

Definition record_received (cfg : Config) (env : Envelope) (a : Attested) (at_ : Time) : M unit :=
  record cfg env Evidence.IntentReceived at_
    [("instrument_id", Evidence.VString (in_InstrumentID (env_Intent env)));
     ("side", Evidence.VString (in_Side (env_Intent env)));
     ("order_type", Evidence.VString (in_OrderType (env_Intent env)));
     ("signing_key_id", Evidence.VString (sig_KeyID (env_Signature env)))] ;;
  record cfg env Evidence.IdentityVerified at_
    [("level", Evidence.VString (a_Level a)); ("method", Evidence.VString (a_Method a));
     ("spiffe_id", Evidence.VString (ID_String (a_SpiffeID a)));
     ("api_identity", Evidence.VString (a_APIIdentity a));
     ("tenant_id", Evidence.VString (a_TenantID a))].

(** ** 5. Idempotency *)

Definition keyClaimedByAnother (m : Moment) (env : Envelope) : M (option string) := fun c =>
  (c, Go (match st_Load (m_load1 m) (w_store (gw_world (ca_gw c))) (env_TenantID env)
                  (env_IdempotencyKey env) with
          | Err _ => None
          | Ok rec => if claimed_by_other rec env then Some (rc_EnvelopeID rec) else None
          end)).

Definition priorOutcome (m : Moment) (env : Envelope) : M (option Outcome) := fun c =>
  (c, Go (match st_Load (m_load2 m) (w_store (gw_world (ca_gw c))) (env_TenantID env)
                  (env_IdempotencyKey env) with
          | Err _ => None
          | Ok rec => match rc_State rec with
                      | RecordResolved => Some (replay (rc_Outcome rec))
                      | RecordPending => None
                      end
          end)).

Definition replay_prior (cfg : Config) (m : Moment) (env : Envelope) (at_ : Time) (r : Result)
    : M unit :=
  let! prior := priorOutcome m env in
  match prior with
  | Some prior =>
      record cfg env Evidence.IntentReplayed at_
        [("idempotency_key", Evidence.VString (env_IdempotencyKey env));
         ("client_order_id", Evidence.VString (oc_ClientOrderID prior));
         ("broker_order_id", Evidence.VString (oc_BrokerOrderID prior));
         ("state", Evidence.VString (oc_State prior))] ;;
      answer (set_verdict (set_Outcome r prior)
                (negb (String.eqb (oc_State prior) StateRejected)) StageIdempotency "DUPLICATE")
  | None => ret ()
  end.

Definition check_idempotency (cfg : Config) (m : Moment) (env : Envelope) (at_ : Time) (r : Result)
    : M unit :=
  let! reused := keyClaimedByAnother m env in
  match reused with
  | Some by_ =>
      record cfg env Evidence.IdentityFailed at_
        [("idempotency_key", Evidence.VString (env_IdempotencyKey env));
         ("claimed_by", Evidence.VString by_);
         ("reason", Evidence.VString "the idempotency key belongs to a different envelope")] ;;
      deny r StageIdempotency "IDEMPOTENCY_KEY_REUSED"
  | None => replay_prior cfg m env at_ r
  end.

(** ** 6. Authority *)

Definition authorize (cfg : Config) (m : Moment) (env : Envelope) (at_ : Time) (r : Result)
    : M (Result * option Authority.Grant) :=
  match m_grants m (env_TenantID env) (env_AuthorityGrantID env) with
  | Err _ => deny r StageAuthority "GRANT_UNAVAILABLE"
  | Ok grant =>
      let! l := gets gw_ledger in
      let usage := if p_Usage cfg then Some (Usage.rv_usage (m_usage m) l) else None in
      let d := Authority.Evaluate (Some env) grant usage at_ in
      let r := set_Authority r d in
      record cfg env Evidence.AuthorityEvaluated at_
        [("allowed", Evidence.VBool (Authority.d_Allowed d));
         ("code", Evidence.VString (Authority.d_Code d));
         ("grant_id", Evidence.VString (Authority.d_GrantID d))] ;;
      if negb (Authority.d_Allowed d) then deny r StageAuthority (Authority.d_Code d)
      else ret (r, grant)
  end.

(** ** 6b. Fleet controls *)

(** The throttles are consumed in order; [m_consume] says which of the transactions
    the database answers. *)
Fixpoint consume (cfg : Config) (m : Moment) (env : Envelope) (at_ : Time) (r : Result) (i : nat)
    (throttles : list Control.Control) : M unit :=
  match throttles with
  | [] => ret ()
  | t :: rest => fun c =>
      match Control.Store.Consume (m_consume m i) (gw_controls (ca_gw c)) (env_TenantID env) t
              (env_IdempotencyKey env) at_ with
      | (_, Err _) => deny r StageControl "CONTROL_UNAVAILABLE" c
      | (db, Ok (allowed, used)) =>
          (modify (set_controls db) ;;
           if allowed then consume cfg m env at_ r (1 + i)%nat rest
           else
             let d := Control.Throttled t in
             record cfg env Evidence.ControlEnforced at_
               [("control", Evidence.VString (Control.cd_Code d));
                ("control_id", Evidence.VString (Control.cd_ControlID d));
                ("reason", Evidence.VString (Control.cd_Code d)); ("used", Evidence.VInt used);
                ("max_orders", Evidence.VInt (Control.c_MaxOrders t));
                ("window", Evidence.VString (duration_text (Control.c_Window t)))] ;;
             deny (set_ControlID r (Control.cd_ControlID d)) StageControl (Control.cd_Code d)) c
      end
  end.

Definition check_controls (cfg : Config) (m : Moment) (env : Envelope) (at_ : Time) (r : Result)
    : M unit :=
  if negb (p_Controls cfg) then ret () else
  let! tables := gets gw_controls in
  match Control.Store.InForce (m_controls m) tables (env_TenantID env) at_ with
  | Err _ => deny r StageControl "CONTROL_UNAVAILABLE"
  | Ok inForce =>
      let d := Control.Evaluate inForce (Some env) at_ in
      if negb (Control.cd_Allowed d) then
        record cfg env Evidence.ControlEnforced at_
          [("control", Evidence.VString (Control.cd_Code d));
           ("control_id", Evidence.VString (Control.cd_ControlID d));
           ("reason", Evidence.VString (Control.cd_Code d))] ;;
        deny (set_ControlID r (Control.cd_ControlID d)) StageControl (Control.cd_Code d)
      else consume cfg m env at_ r 0 (Control.Throttles inForce (Some env) at_)
  end.

(** ** 7. Parent intent *)

Definition observe_parent (cfg : Config) (env : Envelope) (at_ : Time) : M unit :=
  let! tracker := gets gw_parent in
  match tracker with
  | None => ret ()
  | Some t =>
      let '(t, parent) := Observe rfc3339nano t env in
      modify (set_parent (Some t)) ;;
      match parent with
      | None => ret ()
      | Some p =>
          record cfg env IntentParentLinked at_
            [("parent_intent_id", Evidence.VString (pi_ParentIntentID p));
             ("child_count", Evidence.VInt (pi_ChildCount p));
             ("agent_count", Evidence.VInt (pi_AgentCount p));
             ("gross_notional", Evidence.VAmount (pi_GrossNotional p));
             ("confidence", Evidence.VFloat (pi_Confidence p));
             ("exposure_complete", Evidence.VBool (ExposureComplete p))]
      end
  end.

(** ** 8. Hard policy *)

Definition check_policy (cfg : Config) (m : Moment) (env : Envelope) (at_ : Time) (r : Result)
    : M Result :=
  match m_policies m (env_TenantID env) with
  | Err _ => deny r StagePolicy "POLICY_UNAVAILABLE"
  | Ok bundle =>
      let d := Policy.Evaluate bundle (Some env) at_ in
      let r := set_Policy r d in
      record cfg env Evidence.PolicyEvaluated at_
        [("action", Evidence.VString (Policy.pd_Action d));
         ("decided_by", Evidence.VString (Policy.pd_DecidedBy d));
         ("bundle_id", Evidence.VString (Policy.pd_BundleID d));
         ("bundle_hash", Evidence.VString (Policy.pd_ContentHash d));
         ("bundle_state", Evidence.VString (Policy.pd_Status d))] ;;
      if negb (String.eqb (Policy.pd_Action d) Policy.ActionAllow) &&
         negb (String.eqb (Policy.pd_Action d) Policy.ActionObserve)
      then deny r StagePolicy (Policy.pd_Action d)
      else ret r
  end.

(** ** 9. The order, its reservation and the receipt *)

Definition orderRequest (cfg : Config) (env : Envelope) : option OrderRequest :=
  let i := env_Intent env in
  match p_Symbols cfg (in_InstrumentID i) with
  | None => None
  | Some symbol =>
      Some (mkOrderRequest ("coid-" +:+ env_IdempotencyKey env) (env_TenantID env)
              (in_InstrumentID i) symbol (in_AssetClass i) (in_Side i) (in_OrderType i)
              (in_Quantity i) (in_Notional i) (in_LimitPrice i) (in_StopPrice i)
              (in_TimeInForce i) (in_ExtendedHours i))
  end.

(** A transaction on the ledger: what is left of it, and whether the caller saw it
    commit. *)
Definition ledger_tx (f : TxFault) (change : L -> L) : M bool := fun c =>
  match f with
  | Fine => (mkCall (set_ledger (change (gw_ledger (ca_gw c))) (ca_gw c)) (ca_events c)
               (ca_flushed c), Go true)
  | Fails => (c, Go false)
  | LostAck => (mkCall (set_ledger (change (gw_ledger (ca_gw c))) (ca_gw c)) (ca_events c)
                  (ca_flushed c), Go false)
  end.

Definition releaseReservation (cfg : Config) (m : Moment) (env : Envelope) (at_ : Time) : M unit :=
  if negb (p_Reserve cfg) then ret () else
  let! released := ledger_tx (m_release m)
      (fun l => Usage.rv_release l (env_TenantID env) (env_IdempotencyKey env)) in
  if (released : bool) then
    record cfg env Evidence.AuthorityReservationReleased at_
      [("idempotency_key", Evidence.VString (env_IdempotencyKey env));
       ("reason", Evidence.VString "no order was sent")]
  else
    record cfg env Evidence.OrderUnknown at_
      [("reservation_not_released", Evidence.VString "the transaction failed")].

Definition hold (cfg : Config) (m : Moment) (env : Envelope) (grant : option Authority.Grant)
    (at_ : Time) (r : Result) : M unit :=
  if negb (p_Reserve cfg) then ret () else
  let '(notional, determinable) := Authority.EffectiveNotional (env_Intent env) in
  if negb determinable || isNil grant then ret () else
  fun c =>
  match Usage.rv_reserve (m_reserve m) (gw_ledger (ca_gw c)) grant (env_IdempotencyKey env) notional
          (Authority.mkIdentity (env_EnvelopeID env) (pr_PrincipalID (env_Principal env))
             (pr_AccountID (env_Principal env))) at_ with
  | (l, Err _) => (modify (set_ledger l) ;; deny r StageAuthority "USAGE_UNAVAILABLE") c
  | (l, Ok d) =>
      (modify (set_ledger l) ;;
       if Authority.d_Allowed d then
         record cfg env Evidence.AuthorityReserved at_
           [("grant_id", Evidence.VString (env_AuthorityGrantID env));
            ("idempotency_key", Evidence.VString (env_IdempotencyKey env));
            ("envelope_id", Evidence.VString (env_EnvelopeID env));
            ("reserved_notional", Evidence.VString (Amount_String notional))]
       else
         record cfg env Evidence.AuthorityEvaluated at_
           [("allowed", Evidence.VBool false); ("code", Evidence.VString (Authority.d_Code d));
            ("grant_id", Evidence.VString (Authority.d_GrantID d));
            ("stage", Evidence.VString "reservation")] ;;
         deny (set_Authority r d) StageAuthority (Authority.d_Code d)) c
  end.

Definition commit_decision (cfg : Config) (m : Moment) (env : Envelope) (req : OrderRequest)
    (at_ : Time) (r : Result) : M unit :=
  record cfg env Evidence.DecisionCommitted at_
    [("client_order_id", Evidence.VString (or_ClientOrderID req));
     ("authorized", Evidence.VBool true)] ;;
  let! recorded := receipt cfg m in
  if (recorded : bool) then ret ()
  else releaseReservation cfg m env at_ ;; deny r StageExecution "EVIDENCE_UNAVAILABLE".

(** ** 10. Submission and settlement *)

Definition outcomeEvent (state : ExecutionState) : Evidence.EventName :=
  if String.eqb state StateFilled then Evidence.OrderFilled
  else if String.eqb state StateRejected then Evidence.OrderRejected
  else if String.eqb state StateCancelled then Evidence.OrderCancelled
  else if String.eqb state StateExpired then Evidence.OrderExpired
  else if String.eqb state StateUnknown then Evidence.OrderUnknown
  else if String.eqb state StateAccepted || String.eqb state StatePartiallyFilled then
    Evidence.OrderAccepted
  else Evidence.OrderUnknown.

Definition settle (cfg : Config) (m : Moment) (env : Envelope) (o : Outcome) (at_ : Time) : M unit :=
  if negb (p_Reserve cfg) || oc_Replayed o then ret () else
  let state := if String.eqb (oc_State o) StateRejected then Authority.StateReleased
               else Authority.StateCommitted in
  let open := negb (Terminal (oc_State o)) in
  let! settled := ledger_tx (m_settle m)
      (fun l => Usage.rv_settle l (env_TenantID env) (env_IdempotencyKey env) state open at_) in
  if (settled : bool) then
    record cfg env
      (if bool_decide (state = Authority.StateReleased) then Evidence.AuthorityReservationReleased
       else Evidence.AuthorityReservationCommitted) at_
      [("idempotency_key", Evidence.VString (env_IdempotencyKey env));
       ("outcome", Evidence.VString (oc_State o)); ("open", Evidence.VBool open)]
  else
    record cfg env Evidence.OrderUnknown at_
      [("reservation_not_settled", Evidence.VString "the transaction failed")].

(** The claim refused before the venue. *)
Definition refused_claim (e : option ExecError) : bool :=
  match e with
  | Some ErrEnvelopeReused | Some (ErrKeyReused _) | Some ErrKeyRetired => true
  | _ => false
  end.

Definition run_execution (m : Moment) (env : Envelope) (req : OrderRequest) : M Execution.Answer := fun c =>
  match Execution.Submit (m_execution m) (gw_world (ca_gw c)) (Some env) req with
  | (w, answer) =>
      (modify (set_world w) ;; match answer with Some a => ret a | None => died end) c
  end.

(** Not for a refused claim, a replay or a reconciliation. *)
Definition note_attempt (cfg : Config) (env : Envelope) (req : OrderRequest) (at_ : Time)
    (o : Outcome) (err : option ExecError) : M unit :=
  if negb (oc_Replayed o) && negb (oc_Reconciled o) && negb (refused_claim err) then
    record cfg env Evidence.SubmissionAttempted at_
      [("client_order_id", Evidence.VString (or_ClientOrderID req))]
  else ret ().

Definition execute (cfg : Config) (m : Moment) (env : Envelope) (req : OrderRequest) (at_ : Time)
    (r : Result) : M Result :=
  let! a := run_execution m env req in
  let '(o, err) := (a : Execution.Answer) in
  let r := set_Outcome r o in
  note_attempt cfg env req at_ o err ;;
  (if refused_claim err then releaseReservation cfg m env at_ else ret ()) ;;
  match err with
  | Some ErrKeyRetired => deny r StageExecution "IDEMPOTENCY_KEY_RETIRED"
  | Some ErrEnvelopeReused => deny r StageExecution "ENVELOPE_REUSED"
  | Some _ =>
      record cfg env Evidence.OrderUnknown at_
        [("client_order_id", Evidence.VString (or_ClientOrderID req));
         ("reason", Evidence.VString "outcome unresolved")] ;;
      deny r StageExecution "OUTCOME_UNKNOWN"
  | None =>
      settle cfg m env o at_ ;;
      record cfg env (outcomeEvent (oc_State o)) at_
        [("client_order_id", Evidence.VString (oc_ClientOrderID o));
         ("broker_order_id", Evidence.VString (oc_BrokerOrderID o));
         ("state", Evidence.VString (oc_State o));
         ("filled_quantity", Evidence.VFloat (oc_FilledQuantity o))] ;;
      ret (set_verdict r (negb (String.eqb (oc_State o) StateRejected)) (rs_Stage r) (oc_State o))
  end.

(** ** The composition *)

Definition decide_after_identity (cfg : Config) (m : Moment) (env : Envelope) (at_ : Time)
    (r : Result) : M Result :=
  check_idempotency cfg m env at_ r ;;
  let! x := authorize cfg m env at_ r in
  let '(r, grant) := (x : Result * option Authority.Grant) in
  check_controls cfg m env at_ r ;;
  observe_parent cfg env at_ ;;
  let! r := check_policy cfg m env at_ r in
  match orderRequest cfg env with
  | None => deny r StageExecution "UNSUPPORTED_ORDER"
  | Some req =>
      hold cfg m env grant at_ r ;;
      commit_decision cfg m env req at_ r ;;
      execute cfg m env req at_ r
  end.

Definition run (cfg : Config) (m : Moment) (raw : Doc) (presented : Presented) : M Result :=
  let at_ := m_now m in
  match Decode raw with
  | Err errs => answer (refuse StageValidation "ENVELOPE_INVALID" errs at_)
  | Ok env =>
      let a := Resolve chain (p_Identity cfg) (m_identity_now m) (m_verify_now m) presented in
      let r := set_Attested (begin_result env at_) a in
      check_identity cfg env a at_ r ;;
      check_signature cfg m raw env at_ r ;;
      record_received cfg env a at_ ;;
      decide_after_identity cfg m env at_ r
  end.

(** [None] is a process that died before it could answer, its buffered evidence with
    it; every other path flushes. *)
Definition Submit (cfg : Config) (g : Gateway) (m : Moment) (raw : Doc) (presented : Presented)
    : Gateway * option Result :=
  match run cfg m raw presented (mkCall g [] 0) with
  | (c, Died) => (ca_gw c, None)
  | (c, Answer r) | (c, Go r) => (ca_gw (fst (flush cfg m c)), Some r)
  end.

(** * What a stage leaves alone

    [steps R x]: every run of [x] is a step of [R].  The relations are preorders, so a
    sequence of such stages is such a stage. *)

Definition steps (R : relation Call) {A} (x : M A) : Prop := forall c, R c (fst (x c)).

Section Steps.
Context (R : relation Call) `{HR : !PreOrder R}.

Lemma steps_ret {A} (a : A) : steps R (ret a).
Proof using HR. intros c. reflexivity. Qed.
Lemma steps_deny {A} r stage code : steps R (deny (A := A) r stage code).
Proof using HR. intros c. reflexivity. Qed.
Lemma steps_answer {A} r : steps R (answer (A := A) r).
Proof using HR. intros c. reflexivity. Qed.
Lemma steps_gets {A} (f : Gateway -> A) : steps R (gets f).
Proof using HR. intros c. reflexivity. Qed.
Lemma steps_bind {A B} (x : M A) (k : A -> M B) :
  steps R x -> (forall a, steps R (k a)) -> steps R (bind x k).
Proof using HR.
  intros Hx Hk c. unfold bind. specialize (Hx c). destruct (x c) as [c1 [a| |]]; cbn in *; [|done..].
  etransitivity; [exact Hx | apply Hk].
Qed.
End Steps.

(** The execution world and the three tables a stage may leave alone, and evidence
    that is only added to. *)
Definition same {B} (f : Gateway -> B) : relation Call := fun c c' => f (ca_gw c') = f (ca_gw c).
Definition more_evidence : relation Call := fun c c' =>
  Evidence.events (gw_evidence (ca_gw c)) ⊆ Evidence.events (gw_evidence (ca_gw c')).

#[local] Instance same_preorder {B} (f : Gateway -> B) : PreOrder (same f).
Proof. split; [done|]. intros x y z. unfold same. congruence. Qed.
#[local] Instance more_evidence_preorder : PreOrder more_evidence.
Proof. split; [intros x | intros x y z]; unfold more_evidence; [reflexivity | etransitivity; eassumption]. Qed.

(** What [record] may touch, and what [write_evidence] may. *)
Class Blind {B} (f : Gateway -> B) : Prop := {
  blind_sequence n g : f (set_sequence n g) = f g;
  blind_parent t g : f (set_parent t g) = f g;
  blind_evidence t g : f (set_evidence t g) = f g
}.
#[local] Instance blind_world : Blind gw_world.
Proof. by split. Qed.
#[local] Instance blind_ledger : Blind gw_ledger.
Proof. by split. Qed.
#[local] Instance blind_controls : Blind gw_controls.
Proof. by split. Qed.

Lemma record_same {B} (f : Gateway -> B) `{!Blind f} cfg env name at_ p :
  steps (same f) (record cfg env name at_ p).
Proof. intros c. unfold record. destruct (negb _); [done|]. apply blind_sequence. Qed.

Lemma record_more cfg env name at_ p : steps more_evidence (record cfg env name at_ p).
Proof. intros c. unfold record, more_evidence. destruct (negb _); cbn; reflexivity. Qed.

Lemma write_same {B} (f : Gateway -> B) `{!Blind f} cfg x now : steps (same f) (write_evidence cfg x now).
Proof.
  intros c. unfold write_evidence. destruct (_ || _); [done|].
  destruct (Evidence.AppendBatch _ _ _ _) as [db [u|e]]; apply blind_evidence.
Qed.

Lemma write_more cfg x now : steps more_evidence (write_evidence cfg x now).
Proof.
  intros c. unfold write_evidence, more_evidence. destruct (_ || _); [reflexivity|].
  pose proof (Evidence.ex_events 0 0 [] False _ _
    (Evidence.AppendBatch_extends 0 0 [] False x now (gw_evidence (ca_gw c)) (drop (ca_flushed c) (ca_events c)))).
  destruct (Evidence.AppendBatch _ _ _ _) as [db [u|e]]; done.
Qed.

Lemma modify_same {B} (f : Gateway -> B) (h : Gateway -> Gateway) :
  (forall g, f (h g) = f g) -> steps (same f) (modify h).
Proof. intros H c. apply H. Qed.

Lemma modify_more (h : Gateway -> Gateway) :
  (forall g, gw_evidence (h g) = gw_evidence g) -> steps more_evidence (modify h).
Proof. intros H c. unfold more_evidence. cbn. rewrite H. reflexivity. Qed.

Lemma ledger_tx_same {B} (f : Gateway -> B) x change :
  (forall l g, f (set_ledger l g) = f g) -> steps (same f) (ledger_tx x change).
Proof. intros H c. unfold ledger_tx. destruct x; [apply H | done | apply H]. Qed.

Lemma ledger_tx_more x change : steps more_evidence (ledger_tx x change).
Proof. intros c. unfold more_evidence. destruct x; cbn; reflexivity. Qed.

(** The stages before execution, by the relations they are steps of. *)
Create HintDb stages.
#[local] Hint Resolve steps_ret steps_deny steps_answer steps_gets record_same record_more write_same
  write_more ledger_tx_more : stages.
#[local] Hint Extern 2 (steps (same _) (modify _)) => apply modify_same; done : stages.
#[local] Hint Extern 2 (steps more_evidence (modify _)) => apply modify_more; done : stages.
#[local] Hint Extern 2 (steps (same _) (ledger_tx _ _)) => apply ledger_tx_same; done : stages.

Ltac stages :=
  repeat first
    [ solve [eauto with stages typeclass_instances]
    | apply steps_bind; [typeclasses eauto | | intros ?]
    | case_match ].

Section Framed.
Context (R : relation Call) `{HR : !PreOrder R}.
Context (HRrec : forall cfg env name at_ p, steps R (record cfg env name at_ p)).

Lemma check_identity_steps cfg env a at_ r : steps R (check_identity cfg env a at_ r).
Proof using HR HRrec. unfold check_identity. stages. Qed.

Lemma check_signature_steps cfg m raw env at_ r : steps R (check_signature cfg m raw env at_ r).
Proof using HR HRrec. unfold check_signature. stages. Qed.

Lemma record_received_steps cfg env a at_ : steps R (record_received cfg env a at_).
Proof using HR HRrec. unfold record_received. stages. Qed.

Lemma check_idempotency_steps cfg m env at_ r : steps R (check_idempotency cfg m env at_ r).
Proof using HR HRrec.
  unfold check_idempotency, replay_prior. stages; intros c; reflexivity.
Qed.

Lemma authorize_steps cfg m env at_ r : steps R (authorize cfg m env at_ r).
Proof using HR HRrec. unfold authorize. stages. Qed.

Lemma check_policy_steps cfg m env at_ r : steps R (check_policy cfg m env at_ r).
Proof using HR HRrec. unfold check_policy. stages. Qed.

Lemma observe_parent_steps cfg env at_ :
  (forall t, steps R (modify (set_parent t))) -> steps R (observe_parent cfg env at_).
Proof using HR HRrec. intros Hp. unfold observe_parent. stages. Qed.

Lemma consume_steps cfg m env at_ r throttles :
  (forall t, steps R (modify (set_controls t))) ->
  forall i, steps R (consume cfg m env at_ r i throttles).
Proof using HR HRrec.
  intros Hc. induction throttles as [|t rest IH]; intros i; cbn [consume]; [by apply steps_ret|].
  intros c. destruct (Control.Store.Consume _ _ _ _ _ _) as [db [[allowed used]|e]];
    [|by apply steps_deny].
  revert c. apply steps_bind; [done | apply Hc |]. intros _. destruct allowed; [apply IH|]. stages.
Qed.

Lemma check_controls_steps cfg m env at_ r :
  (forall t, steps R (modify (set_controls t))) -> steps R (check_controls cfg m env at_ r).
Proof using HR HRrec.
  intros Hc. unfold check_controls. stages. by apply consume_steps.
Qed.

Lemma releaseReservation_steps cfg m env at_ :
  (forall x h, steps R (ledger_tx x h)) -> steps R (releaseReservation cfg m env at_).
Proof using HR HRrec. intros Hl. unfold releaseReservation. stages. Qed.

Lemma hold_steps cfg m env grant at_ r :
  (forall l, steps R (modify (set_ledger l))) -> steps R (hold cfg m env grant at_ r).
Proof using HR HRrec.
  intros Hl. unfold hold. destruct (negb _); [by apply steps_ret|].
  destruct (Authority.EffectiveNotional _) as [n det]. destruct (_ || _); [by apply steps_ret|].
  intros c. destruct (Usage.rv_reserve _ _ _ _ _ _ _) as [l [d|e]]; revert c; stages; apply Hl.
Qed.

Lemma commit_decision_steps cfg m env req at_ r :
  (forall x h, steps R (ledger_tx x h)) -> (forall x now, steps R (write_evidence cfg x now)) ->
  steps R (commit_decision cfg m env req at_ r).
Proof using HR HRrec.
  intros Hl Hw. unfold commit_decision, receipt. stages. by apply releaseReservation_steps.
Qed.

Lemma settle_steps cfg m env o at_ :
  (forall x h, steps R (ledger_tx x h)) -> steps R (settle cfg m env o at_).
Proof using HR HRrec. intros Hl. unfold settle. stages. Qed.

Lemma execute_steps cfg m env req at_ r :
  (forall x h, steps R (ledger_tx x h)) -> (forall w, steps R (modify (set_world w))) ->
  steps R (execute cfg m env req at_ r).
Proof using HR HRrec.
  intros Hl Hw. unfold execute, note_attempt. apply steps_bind; [done | | intros [o err]].
  { intros c. unfold run_execution. destruct (Execution.Submit _ _ _ _) as [w [a|]]; revert c;
      (apply steps_bind; [done | apply Hw | intros _]; [by apply steps_ret || (intros c; reflexivity)]). }
  stages; (by apply releaseReservation_steps) || (by apply settle_steps).
Qed.
End Framed.

(** * What a stage that lets a submission through has established *)

Lemma bind_go {A B} (x : M A) (k : A -> M B) c c' b :
  bind x k c = (c', Go b) -> exists c1 a, x c = (c1, Go a) /\ k a c1 = (c', Go b).
Proof. unfold bind. destruct (x c) as [c1 [a| |]]; [|done..]. eauto. Qed.

Lemma deny_go {A} r stage code c c' (a : A) : deny r stage code c = (c', Go a) -> False.
Proof. done. Qed.

Lemma check_identity_go cfg env a at_ r c c' u :
  check_identity cfg env a at_ r c = (c', Go u) ->
  c' = c /\ CheckClaim (at_Level (ag_Attestation (env_Agent env))) a = None /\
  RequireExecutable a = None /\ RequireTenant a (env_TenantID env) = None.
Proof.
  unfold check_identity.
  destruct (CheckClaim _ _); [by intros (c1 & x & _ & ?%deny_go)%bind_go|].
  destruct (RequireExecutable _); [by intros (c1 & x & _ & ?%deny_go)%bind_go|].
  destruct (RequireTenant _ _); [by intros (c1 & x & _ & ?%deny_go)%bind_go|].
  by intros [= -> _].
Qed.

Lemma check_signature_go cfg m raw env at_ r c c' u :
  check_signature cfg m raw env at_ r c = (c', Go u) ->
  c' = c /\ VerifyEnvelopeSignature (m_keys m) raw (Some env) at_ = None.
Proof.
  unfold check_signature. destruct (VerifyEnvelopeSignature _ _ _ _);
    [by intros (c1 & x & _ & ?%deny_go)%bind_go|]. by intros [= -> _].
Qed.

Lemma replay_prior_go cfg m env at_ r c c' u :
  replay_prior cfg m env at_ r c = (c', Go u) ->
  c' = c /\
  forall rec, st_Load (m_load2 m) (w_store (gw_world (ca_gw c))) (env_TenantID env)
                (env_IdempotencyKey env) = Ok rec -> rc_State rec = RecordPending.
Proof.
  unfold replay_prior. intros H. apply bind_go in H as (c2 & prior & H2 & H).
  unfold priorOutcome in H2. injection H2 as <- <-.
  destruct (st_Load _ _ _ _) as [rec|e]; [|by injection H as <-].
  destruct (rc_State rec) eqn:E; [|by apply bind_go in H as (? & ? & _ & H)].
  injection H as <-. split; [done|]. by intros ? [= <-].
Qed.

Lemma check_idempotency_go cfg m env at_ r c c' u :
  check_idempotency cfg m env at_ r c = (c', Go u) ->
  let s := w_store (gw_world (ca_gw c)) in
  c' = c /\
  (forall rec, st_Load (m_load1 m) s (env_TenantID env) (env_IdempotencyKey env) = Ok rec ->
     claimed_by_other rec env = false) /\
  (forall rec, st_Load (m_load2 m) s (env_TenantID env) (env_IdempotencyKey env) = Ok rec ->
     rc_State rec = RecordPending).
Proof.
  intros H. apply bind_go in H as (c1 & by_ & H1 & H).
  unfold keyClaimedByAnother in H1. injection H1 as <- <-. cbv zeta.
  destruct (st_Load (m_load1 m) _ _ _) as [rec|e].
  - destruct (claimed_by_other rec env) eqn:E;
      [by apply bind_go in H as (? & ? & _ & ?%deny_go)|].
    apply replay_prior_go in H as [-> H]. split_and!; [done | | done]. by intros ? [= <-].
  - apply replay_prior_go in H as [-> H]. by split_and!.
Qed.

(** The authority stage read this grant and this usage, and they allowed. *)
Definition authorized (cfg : Config) (m : Moment) (l : L) (env : Envelope) (at_ : Time)
    (grant : option Authority.Grant) : Prop :=
  m_grants m (env_TenantID env) (env_AuthorityGrantID env) = Ok grant /\
  Authority.d_Allowed
    (Authority.Evaluate (Some env) grant
       (if p_Usage cfg then Some (Usage.rv_usage (m_usage m) l) else None) at_) = true.

Lemma authorize_go cfg m env at_ r c c' r' grant :
  authorize cfg m env at_ r c = (c', Go (r', grant)) ->
  authorized cfg m (gw_ledger (ca_gw c)) env at_ grant.
Proof.
  unfold authorize. destruct (m_grants _ _ _) as [gr|e] eqn:Eg; [|by intros ?%deny_go].
  intros (c1 & l & H1 & H)%bind_go. injection H1 as <- <-. cbv zeta in H.
  apply bind_go in H as (c2 & u & _ & H).
  destruct (Authority.d_Allowed _) eqn:Ed; [|by apply deny_go in H].
  injection H as <- <- <-. done.
Qed.

(** Every throttle of the list had room, and one slot of it was taken. *)
Definition slots_taken (env : Envelope) (at_ : Time) (throttles : list Control.Control) : Prop :=
  Forall (fun t => exists up db db' used,
    Control.Store.Consume up db (env_TenantID env) t (env_IdempotencyKey env) at_ =
      (db', Ok (true, used))) throttles.

Lemma consume_go cfg m env at_ r throttles : forall i c c' u,
  consume cfg m env at_ r i throttles c = (c', Go u) -> slots_taken env at_ throttles.
Proof.
  unfold slots_taken. induction throttles as [|t rest IH]; intros i c c' u; cbn [consume]; [done|].
  destruct (Control.Store.Consume _ _ _ _ _ _) as [db [[allowed used]|e]] eqn:E;
    [|by intros ?%deny_go].
  intros (c1 & x & _ & H)%bind_go. destruct allowed.
  - constructor; [eauto | by eapply IH].
  - cbv zeta in H. by apply bind_go in H as (? & ? & _ & ?%deny_go).
Qed.

Definition controls_pass (m : Moment) (t : Control.Store.Tables) (env : Envelope) (at_ : Time) : Prop :=
  exists inForce, Control.Store.InForce (m_controls m) t (env_TenantID env) at_ = Ok inForce /\
    Control.cd_Allowed (Control.Evaluate inForce (Some env) at_) = true /\
    slots_taken env at_ (Control.Throttles inForce (Some env) at_).

Lemma check_controls_go cfg m env at_ r c c' u :
  check_controls cfg m env at_ r c = (c', Go u) ->
  p_Controls cfg = true -> controls_pass m (gw_controls (ca_gw c)) env at_.
Proof.
  unfold check_controls. intros H Hp. rewrite Hp in H. cbn [negb] in H.
  apply bind_go in H as (c1 & t & H1 & H). injection H1 as <- <-.
  destruct (Control.Store.InForce _ _ _ _) as [l|e] eqn:El; [|by apply deny_go in H].
  cbv zeta in H. destruct (Control.cd_Allowed _) eqn:Ed; cbn [negb] in H;
    [|by apply bind_go in H as (? & ? & _ & ?%deny_go)].
  exists l. split_and!; [done..|]. by eapply consume_go.
Qed.

Definition policy_permits (m : Moment) (env : Envelope) (at_ : Time) : Prop :=
  exists bundle, m_policies m (env_TenantID env) = Ok bundle /\
    Policy.pd_Action (Policy.Evaluate bundle (Some env) at_) ∈ [Policy.ActionAllow; Policy.ActionObserve].

Lemma check_policy_go cfg m env at_ r c c' r' :
  check_policy cfg m env at_ r c = (c', Go r') -> policy_permits m env at_.
Proof.
  unfold check_policy. destruct (m_policies _ _) as [b|e] eqn:Eb; [|by intros ?%deny_go].
  cbv zeta. intros (c1 & u & _ & H)%bind_go. exists b. split; [done|].
  destruct (String.eqb_spec (Policy.pd_Action (Policy.Evaluate b (Some env) at_)) Policy.ActionAllow) as [->|_];
    [by left|].
  destruct (String.eqb_spec (Policy.pd_Action (Policy.Evaluate b (Some env) at_)) Policy.ActionObserve) as [->|_];
    [by right; left | by apply deny_go in H].
Qed.

(** The ledger took the order's notional, in one transaction that allowed it. *)
Definition held (cfg : Config) (m : Moment) (l : L) (env : Envelope) (grant : option Authority.Grant)
    (at_ : Time) (l' : L) : Prop :=
  let '(n, determinable) := Authority.EffectiveNotional (env_Intent env) in
  if p_Reserve cfg && determinable && negb (isNil grant) then
    exists d, Usage.rv_reserve (m_reserve m) l grant (env_IdempotencyKey env) n
       (Authority.mkIdentity (env_EnvelopeID env) (pr_PrincipalID (env_Principal env))
          (pr_AccountID (env_Principal env))) at_ = (l', Ok d) /\ Authority.d_Allowed d = true
  else l' = l.

Lemma hold_go cfg m env grant at_ r c c' u :
  hold cfg m env grant at_ r c = (c', Go u) ->
  held cfg m (gw_ledger (ca_gw c)) env grant at_ (gw_ledger (ca_gw c')).
Proof.
  unfold hold, held. destruct (Authority.EffectiveNotional _) as [n det].
  destruct (p_Reserve cfg); cbn [negb andb]; [|by intros [= ->]].
  destruct det; cbn [negb andb orb]; [|by intros [= ->]].
  destruct (isNil grant); cbn [negb]; [by intros [= ->]|].
  destruct (Usage.rv_reserve _ _ _ _ _ _ _) as [l [d|e]]; intros H;
    apply bind_go in H as (c1 & x & H1 & H); [|done]. injection H1 as <- _.
  destruct (Authority.d_Allowed d) eqn:Ed; [|by apply bind_go in H as (? & ? & _ & ?%deny_go)].
  exists d. split; [|done].
  pose proof (record_same gw_ledger cfg env Evidence.AuthorityReserved at_
    [("grant_id", Evidence.VString (env_AuthorityGrantID env));
     ("idempotency_key", Evidence.VString (env_IdempotencyKey env));
     ("envelope_id", Evidence.VString (env_EnvelopeID env));
     ("reserved_notional", Evidence.VString (Amount_String n))]
    (mkCall (set_ledger l (ca_gw c)) (ca_events c) (ca_flushed c))) as Hs.
  rewrite H in Hs. unfold same in Hs. cbn in Hs. by rewrite Hs.
Qed.

(** How much of the buffer has reached the store. *)
Definition unflushed : relation Call := fun c c' => ca_flushed c' = ca_flushed c.
#[local] Instance unflushed_preorder : PreOrder unflushed.
Proof. split; [done|]. intros x y z. unfold unflushed. congruence. Qed.

Lemma record_unflushed cfg env name at_ p : steps unflushed (record cfg env name at_ p).
Proof. intros c. unfold record. by destruct (negb _). Qed.

(** The decision is in the store, under an id that names it. *)
Definition decision_recorded (g : Gateway) (env : Envelope) (at_ : Time) : Prop :=
  exists n, is_Some (Evidence.events (gw_evidence g)
    !! (env_EnvelopeID env +:+ "_" +:+ Evidence.DecisionCommitted +:+ "_" +:+ fmt_d n, at_)).

Lemma commit_decision_go cfg m env req at_ r c c' u :
  ca_flushed c = 0%nat -> p_Evidence cfg = true ->
  commit_decision cfg m env req at_ r c = (c', Go u) -> decision_recorded (ca_gw c') env at_.
Proof.
  intros Hf Hp H. unfold commit_decision in H. apply bind_go in H as (c1 & x & H1 & H).
  apply bind_go in H as (c2 & ok & H2 & H).
  assert (ok = true /\ c' = c2) as [-> ->].
  { destruct ok; [by injection H as <-|]. by apply bind_go in H as (? & ? & _ & ?%deny_go). }
  unfold record in H1. rewrite Hp in H1. cbn [negb] in H1. injection H1 as <- _.
  unfold receipt, write_evidence in H2. cbn [ca_gw ca_events ca_flushed] in H2.
  rewrite Hp, Hf, length_app, Nat.add_1_r, drop_0 in H2. cbn [negb orb Nat.leb] in H2.
  set (seq := add64 (gw_sequence (ca_gw c)) 1) in *.
  set (e := event_for env Evidence.DecisionCommitted at_ _ seq _) in *.
  destruct (Evidence.AppendBatch _ _ _ _) as [db [[]|er]] eqn:E; [|by injection H2].
  injection H2 as <-. exists seq. cbn [ca_gw].
  apply (Evidence.AppendBatch_recorded 0 0 _ _ _ _ _ e E).
  apply elem_of_app. right. by left.
Qed.

Lemma run_execution_world m env req c :
  gw_world (ca_gw (fst (run_execution m env req c))) =
  fst (Execution.Submit (m_execution m) (gw_world (ca_gw c)) (Some env) req).
Proof.
  unfold run_execution. by destruct (Execution.Submit _ _ _ _) as [w [a|]].
Qed.

Lemma execute_world cfg m env req at_ r c :
  gw_world (ca_gw (fst (execute cfg m env req at_ r c))) =
  fst (Execution.Submit (m_execution m) (gw_world (ca_gw c)) (Some env) req).
Proof.
  rewrite <- run_execution_world. unfold execute, note_attempt, bind at 1.
  destruct (run_execution m env req c) as [c1 [[o err]| |]]; [|done..]. cbn [fst].
  assert (Hs : forall (x : M Result), steps (same gw_world) x ->
                 gw_world (ca_gw (fst (x c1))) = gw_world (ca_gw c1)) by (intros x Hx; apply Hx).
  apply Hs. stages;
    (apply releaseReservation_steps || apply settle_steps); stages.
Qed.

(** * Complete mediation *)

(** Everything that stood between a request and the execution service said yes, of the
    envelope the request decodes to, and the decision is on record. *)
Record Mediated (cfg : Config) (g : Gateway) (m : Moment) (raw : Doc) (presented : Presented)
    (env : Envelope) (req : OrderRequest) (g' : Gateway) : Prop := {
  md_decoded : Decode raw = Ok env;
  md_identity : let a := Resolve chain (p_Identity cfg) (m_identity_now m) (m_verify_now m) presented in
    CheckClaim (at_Level (ag_Attestation (env_Agent env))) a = None /\
    RequireExecutable a = None /\ RequireTenant a (env_TenantID env) = None;
  md_signed : VerifyEnvelopeSignature (m_keys m) raw (Some env) (m_now m) = None;
  md_owner rec : st_Load (m_load1 m) (w_store (gw_world g)) (env_TenantID env)
                   (env_IdempotencyKey env) = Ok rec -> claimed_by_other rec env = false;
  md_unresolved rec : st_Load (m_load2 m) (w_store (gw_world g)) (env_TenantID env)
                        (env_IdempotencyKey env) = Ok rec -> rc_State rec = RecordPending;
  md_authorized : exists grant l', authorized cfg m (gw_ledger g) env (m_now m) grant /\
    held cfg m (gw_ledger g) env grant (m_now m) l';
  md_controls : p_Controls cfg = true -> controls_pass m (gw_controls g) env (m_now m);
  md_policy : policy_permits m env (m_now m);
  md_order : orderRequest cfg env = Some req;
  md_recorded : p_Evidence cfg = true -> decision_recorded g' env (m_now m);
  md_world : gw_world g' = fst (Execution.Submit (m_execution m) (gw_world g) (Some env) req)
}.

Lemma steps_run {A} (R : relation Call) (x : M A) c c' s : steps R x -> x c = (c', s) -> R c c'.
Proof. intros Hx H. specialize (Hx c). by rewrite H in Hx. Qed.

Lemma moved_bind {A B} (Q : Call -> Prop) (x : M A) (k : A -> M B) c :
  steps (same gw_world) x ->
  (forall c1 a, x c = (c1, Go a) -> same gw_world c c1 ->
     same gw_world c (fst (k a c1)) \/ Q (fst (k a c1))) ->
  same gw_world c (fst (bind x k c)) \/ Q (fst (bind x k c)).
Proof.
  intros Hx Hk. unfold bind. pose proof (Hx c) as H1.
  destruct (x c) as [c1 [a| |]]; cbn in *; [by apply Hk | by left..].
Qed.

(** Steps that leave everything a decision rests on: the execution world, the ledger,
    the throttles, the boundary of the receipt. *)
Definition both (R R' : relation Call) : relation Call := fun c c' => R c c' /\ R' c c'.
Definition unsent : relation Call := both (same gw_world) unflushed.
Definition nearly : relation Call := both unsent (same gw_ledger).
Definition still : relation Call := both nearly (same gw_controls).

#[local] Instance both_preorder R R' : PreOrder R -> PreOrder R' -> PreOrder (both R R').
Proof. split; [by split|]. intros x y z [? ?] [? ?]. split; by etransitivity. Qed.
#[local] Instance unsent_preorder : PreOrder unsent := _.
#[local] Instance nearly_preorder : PreOrder nearly := _.
#[local] Instance still_preorder : PreOrder still := _.

Lemma steps_both R R' {A} (x : M A) : steps R x -> steps R' x -> steps (both R R') x.
Proof. intros H H' c. by split. Qed.

Lemma record_unsent cfg env name at_ p : steps unsent (record cfg env name at_ p).
Proof. apply steps_both; [apply (record_same _) | apply record_unflushed]. Qed.
Lemma record_nearly cfg env name at_ p : steps nearly (record cfg env name at_ p).
Proof. apply steps_both; [apply record_unsent | apply (record_same _)]. Qed.
Lemma record_still cfg env name at_ p : steps still (record cfg env name at_ p).
Proof. apply steps_both; [apply record_nearly | apply (record_same _)]. Qed.
#[local] Hint Resolve record_unsent record_nearly record_still : stages.

Lemma stepped {A B} (R : relation Call) (Q : Call -> Prop) (x : M A) (k : A -> M B) c0 c :
  PreOrder R -> (forall a b, R a b -> same gw_world a b) ->
  steps R x -> R c0 c ->
  (forall c1 a, x c = (c1, Go a) -> R c0 c1 ->
     same gw_world c0 (fst (k a c1)) \/ Q (fst (k a c1))) ->
  same gw_world c0 (fst (bind x k c)) \/ Q (fst (bind x k c)).
Proof.
  intros HR Hw Hx H0 Hk. unfold bind. pose proof (Hx c) as H1.
  destruct (x c) as [c1 [a| |]]; cbn in *; [apply Hk; [done | by etransitivity] | left; apply Hw; by etransitivity ..].
Qed.

Lemma unsent_world a b : unsent a b -> same gw_world a b.
Proof. by intros [? _]. Qed.
Lemma nearly_world a b : nearly a b -> same gw_world a b.
Proof. by intros [[? _] _]. Qed.
Lemma still_world a b : still a b -> same gw_world a b.
Proof. by intros [[[? _] _] _]. Qed.

(** From the reservation on. *)
Lemma send_mediated cfg m env grant req at_ r c0 c (Q : Call -> Prop) :
  nearly c0 c -> ca_flushed c0 = 0%nat ->
  (forall c', (exists l', held cfg m (gw_ledger (ca_gw c0)) env grant at_ l') ->
     (p_Evidence cfg = true -> decision_recorded (ca_gw c') env at_) ->
     gw_world (ca_gw c') = fst (Execution.Submit (m_execution m) (gw_world (ca_gw c0)) (Some env) req) ->
     Q c') ->
  let x := bind (hold cfg m env grant at_ r) (fun _ =>
           bind (commit_decision cfg m env req at_ r) (fun _ => execute cfg m env req at_ r)) in
  same gw_world c0 (fst (x c)) \/ Q (fst (x c)).
Proof.
  intros [Hu Hl] H0 HQ. cbv zeta.
  apply (stepped unsent); [apply _ | apply unsent_world | | done |].
  { apply hold_steps; [apply _ | stages |]. intros l c1. by repeat split. }
  intros c1 u Hh [Hw1 Hf1]. apply hold_go in Hh. unfold same in Hl. rewrite Hl in Hh.
  apply (stepped (same gw_world)); [apply _ | done | | done |].
  { apply commit_decision_steps; stages. }
  intros c2 u2 Hc Hw2. right. apply HQ.
  - eauto.
  - intros Hp. unfold unflushed in Hf1.
    apply commit_decision_go in Hc as [n Hn]; [|congruence|done]. exists n.
    assert (Hm : steps more_evidence (execute cfg m env req at_ r)).
    { apply execute_steps; stages. }
    destruct Hn as [row Hrow]. exists row. eapply lookup_weaken; [exact Hrow | apply Hm].
  - rewrite execute_world. unfold same in Hw2. by rewrite Hw2.
Qed.

Lemma observe_parent_nearly cfg env at_ : steps nearly (observe_parent cfg env at_).
Proof. apply observe_parent_steps; [apply _ | stages |]. intros t c. by repeat split. Qed.

Lemma check_controls_nearly cfg m env at_ r : steps nearly (check_controls cfg m env at_ r).
Proof. apply check_controls_steps; [apply _ | stages |]. intros t c. by repeat split. Qed.

(** After identity: what the remaining stages establish of an envelope. *)
Lemma decide_mediated cfg m env at_ r c0 c (Q : Call -> Prop) :
  still c0 c -> ca_flushed c0 = 0%nat ->
  (forall c' req,
     let s := w_store (gw_world (ca_gw c0)) in
     (forall rec, st_Load (m_load1 m) s (env_TenantID env) (env_IdempotencyKey env) = Ok rec ->
        claimed_by_other rec env = false) ->
     (forall rec, st_Load (m_load2 m) s (env_TenantID env) (env_IdempotencyKey env) = Ok rec ->
        rc_State rec = RecordPending) ->
     (exists grant l', authorized cfg m (gw_ledger (ca_gw c0)) env at_ grant /\
        held cfg m (gw_ledger (ca_gw c0)) env grant at_ l') ->
     (p_Controls cfg = true -> controls_pass m (gw_controls (ca_gw c0)) env at_) ->
     policy_permits m env at_ -> orderRequest cfg env = Some req ->
     (p_Evidence cfg = true -> decision_recorded (ca_gw c') env at_) ->
     gw_world (ca_gw c') = fst (Execution.Submit (m_execution m) (gw_world (ca_gw c0)) (Some env) req) ->
     Q c') ->
  let x := decide_after_identity cfg m env at_ r in
  same gw_world c0 (fst (x c)) \/ Q (fst (x c)).
Proof.
  intros Hs H0 HQ. cbv zeta. unfold decide_after_identity.
  apply (stepped still); [apply _ | apply still_world | | done |].
  { apply check_idempotency_steps; [apply _ | stages]. }
  intros c1 u1 Hi H1. apply check_idempotency_go in Hi as (-> & Hown & Hres).
  pose proof (still_world _ _ H1) as Hw1. unfold same in Hw1. rewrite Hw1 in Hown, Hres.
  apply (stepped still); [apply _ | apply still_world | | done |].
  { apply authorize_steps; [apply _ | stages]. }
  intros c2 [r2 grant] Ha H2. apply authorize_go in Ha.
  assert (Hl1 : gw_ledger (ca_gw c) = gw_ledger (ca_gw c0)) by apply H1. rewrite Hl1 in Ha.
  apply (stepped nearly); [apply _ | apply nearly_world | apply check_controls_nearly | apply H2 |].
  intros c3 u3 Hc H3. pose proof (check_controls_go _ _ _ _ _ _ _ _ Hc) as Hpass.
  assert (Hc2 : gw_controls (ca_gw c2) = gw_controls (ca_gw c0)) by apply H2. rewrite Hc2 in Hpass.
  apply (stepped nearly); [apply _ | apply nearly_world | apply observe_parent_nearly | done |].
  intros c4 u4 _ H4.
  apply (stepped nearly); [apply _ | apply nearly_world | | done |].
  { apply check_policy_steps; [apply _ | stages]. }
  intros c5 r5 Hp H5. apply check_policy_go in Hp.
  destruct (orderRequest cfg env) as [req|] eqn:Eo; [|left; by apply nearly_world].
  apply send_mediated; [done..|]. intros c' [l' Hh] Hrec Hw. eapply HQ; eauto.
Qed.

Lemma run_mediated cfg m raw presented g :
  let c' := fst (run cfg m raw presented (mkCall g [] 0)) in
  gw_world (ca_gw c') = gw_world g \/
  exists env req, Mediated cfg g m raw presented env req (ca_gw c').
Proof.
  cbv zeta. set (c0 := mkCall g [] 0).
  set (Q := fun c' : Call => exists env req, Mediated cfg g m raw presented env req (ca_gw c')).
  change (same gw_world c0 (fst (run cfg m raw presented c0)) \/ Q (fst (run cfg m raw presented c0))).
  unfold run.
  destruct (Decode raw) as [env|errs] eqn:Ed; [|by left]. cbv zeta.
  apply (stepped still); [apply _ | apply still_world | | done |].
  { apply check_identity_steps; [apply _ | stages]. }
  intros c1 u1 Hi H1. apply check_identity_go in Hi as (-> & Hid).
  apply (stepped still); [apply _ | apply still_world | | done |].
  { apply check_signature_steps; [apply _ | stages]. }
  intros c2 u2 Hsig H2. apply check_signature_go in Hsig as (-> & Hsig).
  apply (stepped still); [apply _ | apply still_world | | done |].
  { apply record_received_steps; [apply _ | stages]. }
  intros c3 u3 _ H3.
  apply decide_mediated; [done..|]. intros c' req. cbv zeta. intros.
  exists env, req. by split.
Qed.

(** A submission moves the execution world only when everything before it agreed. *)
Lemma Submit_mediated cfg g m raw presented :
  let g' := fst (Submit cfg g m raw presented) in
  gw_world g' = gw_world g \/ exists env req, Mediated cfg g m raw presented env req g'.
Proof.
  unfold Submit. cbv zeta. pose proof (run_mediated cfg m raw presented g) as H. cbv zeta in H.
  assert (Hf : forall c, gw_world (ca_gw (fst (flush cfg m c))) = gw_world (ca_gw c) /\
                         more_evidence c (fst (flush cfg m c))).
  { intros c. unfold flush. split; revert c; [change (steps (same gw_world) (bind (write_evidence cfg (m_flush m) (m_dbnow m)) (fun _ => ret ()))) |
      change (steps more_evidence (bind (write_evidence cfg (m_flush m) (m_dbnow m)) (fun _ => ret ())))]; stages. }
  assert (Hend : forall c, (gw_world (ca_gw c) = gw_world g \/
       exists env req, Mediated cfg g m raw presented env req (ca_gw c)) ->
     gw_world (ca_gw (fst (flush cfg m c))) = gw_world g \/
     exists env req, Mediated cfg g m raw presented env req (ca_gw (fst (flush cfg m c)))).
  { intros c. destruct (Hf c) as [Hw He]. intros [Hs|(env & req & [])]; [left; congruence|].
    right. exists env, req. split; try done; [|congruence].
    intros Hp. destruct (md_recorded0 Hp) as [n [row Hr]]. exists n, row. by eapply lookup_weaken. }
  destruct (run cfg m raw presented (mkCall g [] 0)) as [c [r|r|]]; cbn [fst] in *; [by apply Hend..|done].
Qed.

(** ** A submission counts throttles and changes no control *)

Definition control_rows (g : Gateway) : gmap (string * string) Control.Control :=
  Control.Store.controls (gw_controls g).
#[local] Instance blind_rows : Blind control_rows.
Proof. by split. Qed.

Lemma consume_control_rows cfg m env at_ r throttles :
  forall i, steps (same control_rows) (consume cfg m env at_ r i throttles).
Proof.
  induction throttles as [|t rest IH]; intros i; cbn [consume]; [by apply steps_ret; typeclasses eauto|].
  intros c. pose proof (Control.Consume_controls (m_consume m i) (gw_controls (ca_gw c))
    (env_TenantID env) t (env_IdempotencyKey env) at_) as Hc.
  destruct (Control.Store.Consume _ _ _ _ _ _) as [db [[allowed used]|e]];
    [|apply steps_deny; typeclasses eauto].
  unfold bind at 1, modify. cbn [fst].
  set (c1 := mkCall (set_controls db (ca_gw c)) (ca_events c) (ca_flushed c)).
  transitivity c1; [exact Hc|]. clearbody c1. clear Hc. revert c1.
  destruct allowed; [apply IH|]. apply steps_bind; [typeclasses eauto | apply record_same; typeclasses eauto|].
  intros _. apply steps_deny. typeclasses eauto.
Qed.

Lemma check_controls_rows cfg m env at_ r : steps (same control_rows) (check_controls cfg m env at_ r).
Proof. unfold check_controls. stages. apply consume_control_rows. Qed.

Lemma Submit_control_rows cfg g m raw presented :
  control_rows (fst (Submit cfg g m raw presented)) = control_rows g.
Proof.
  assert (Hw : forall x now, steps (same control_rows) (write_evidence cfg x now)).
  { intros. apply write_same. typeclasses eauto. }
  assert (Hl : forall x h, steps (same control_rows) (ledger_tx x h)) by (intros; by apply ledger_tx_same).
  assert (Hrun : steps (same control_rows) (run cfg m raw presented)).
  { unfold run. destruct (Decode raw) as [env|]; [|stages]. cbv zeta.
    apply steps_bind; [apply _ | by apply check_identity_steps; stages | intros _].
    apply steps_bind; [apply _ | by apply check_signature_steps; stages | intros _].
    apply steps_bind; [apply _ | by apply record_received_steps; stages | intros _].
    unfold decide_after_identity.
    apply steps_bind; [apply _ | by apply check_idempotency_steps; stages | intros _].
    apply steps_bind; [apply _ | by apply authorize_steps; stages | intros [r grant]].
    apply steps_bind; [apply _ | apply check_controls_rows | intros _].
    apply steps_bind; [apply _ | apply observe_parent_steps; by stages | intros _].
    apply steps_bind; [apply _ | by apply check_policy_steps; stages | intros r1].
    destruct (orderRequest cfg env); [|stages].
    apply steps_bind; [apply _ | apply hold_steps; by stages | intros _].
    apply steps_bind; [apply _ | apply commit_decision_steps; by stages | intros _].
    apply execute_steps; by stages. }
  assert (Hf : steps (same control_rows) (flush cfg m)) by (unfold flush; stages).
  unfold Submit. pose proof (Hrun (mkCall g [] 0)) as H.
  destruct (run _ _ _ _ _) as [c [r|r|]]; cbn [fst] in *; [etransitivity; [apply Hf | exact H]..|exact H].
Qed.

(** * What a stage answers *)

(** [yields G P x]: [x] goes on with a value of [G], or answers with a result of [P]; it
    does not die. *)
Definition yields {A} (G : A -> Prop) (P : Result -> Prop) (x : M A) : Prop := forall c,
  match snd (x c) with Go a => G a | Answer r => P r | Died => False end.

Lemma yields_bind {A B} (G : A -> Prop) (G' : B -> Prop) P (x : M A) (k : A -> M B) :
  yields G P x -> (forall a, G a -> yields G' P (k a)) -> yields G' P (bind x k).
Proof.
  intros Hx Hk c. specialize (Hx c). unfold bind.
  destruct (x c) as [c1 [a| |]]; cbn in *; [by apply Hk | done..].
Qed.

Definition any {A} (_ : A) : Prop := True.

Lemma yields_record P cfg env name at_ p : yields any P (record cfg env name at_ p).
Proof. intros c. unfold record. by destruct (negb _). Qed.
Lemma yields_ret {A} (G : A -> Prop) P a : G a -> yields G P (ret a).
Proof. by intros H c. Qed.
Lemma yields_gets {A} P (f : Gateway -> A) : yields any P (gets f).
Proof. by intros c. Qed.
Lemma yields_deny {A} (G : A -> Prop) (P : Result -> Prop) r stage code :
  P (set_verdict r false stage code) -> yields G P (deny r stage code).
Proof. by intros H c. Qed.
Lemma yields_write P cfg x now : yields any P (write_evidence cfg x now).
Proof.
  intros c. unfold write_evidence. destruct (_ || _); [done|].
  by destruct (Evidence.AppendBatch _ _ _ _) as [db [u|e]].
Qed.
Lemma yields_ledger P x h : yields any P (ledger_tx x h).
Proof. intros c. by destruct x. Qed.
Lemma yields_modify P h : yields any P (modify h).
Proof. by intros c. Qed.

#[local] Hint Resolve yields_record yields_gets yields_write yields_ledger yields_modify : stages.

Ltac answers :=
  repeat first
    [ solve [eauto with stages]
    | apply yields_ret; done
    | apply yields_deny
    | eapply yields_bind; [ | intros ? _]
    | case_match ].

(** Refusals name one of these stages. *)
Definition refused_at (stages : list string) (r : Result) : Prop :=
  rs_Accepted r = false /\ rs_Stage r ∈ stages.

Lemma refused_deny r stage code l : stage ∈ l -> refused_at l (set_verdict r false stage code).
Proof. by split. Qed.

Definition early_stages : list string :=
  [StageValidation; StageIdentity; StageSignature; StageAuthority; StageControl; StagePolicy].

Definition replayed_prior (r : Result) : Prop :=
  rs_Stage r = StageIdempotency /\ rs_Code r = "DUPLICATE" /\ rs_Replayed r = true /\
  exists o, rs_Outcome r = Some o /\ rs_Accepted r = negb (String.eqb (oc_State o) StateRejected).

(** What a stage before execution may answer. *)
Definition early (r : Result) : Prop :=
  refused_at early_stages r \/ refused_at [StageIdempotency] r \/ replayed_prior r.

Lemma early_deny r stage code : stage ∈ early_stages -> early (set_verdict r false stage code).
Proof. intros H. left. by apply refused_deny. Qed.
#[local] Hint Extern 1 (early (set_verdict _ false _ _)) => apply early_deny, (bool_decide_unpack _); exact I : stages.

Lemma check_identity_yields cfg env a at_ r : yields any early (check_identity cfg env a at_ r).
Proof. unfold check_identity. answers. Qed.

Lemma check_signature_yields cfg m raw env at_ r : yields any early (check_signature cfg m raw env at_ r).
Proof. unfold check_signature. answers. Qed.

Lemma record_received_yields P cfg env a at_ : yields any P (record_received cfg env a at_).
Proof. unfold record_received. answers. Qed.

Lemma check_idempotency_yields cfg m env at_ r : yields any early (check_idempotency cfg m env at_ r).
Proof.
  unfold check_idempotency, replay_prior. eapply yields_bind; [by instantiate (1 := any); intros c|].
  intros [by_|] _.
  - answers. right; left. by apply refused_deny; left.
  - eapply yields_bind; [|intros [o|] Ho; [|by apply yields_ret]].
    { intros c. unfold priorOutcome. cbn.
      instantiate (1 := fun o => match o with Some o => oc_Replayed o = true | None => True end).
      destruct (st_Load _ _ _ _) as [rec|]; [|done]. by destruct (rc_State rec). }
    eapply yields_bind; [apply yields_record | intros ? _ c]. right; right.
    repeat split; [done | by exists o].
Qed.

Lemma authorize_yields cfg m env at_ r :
  yields (fun x => rs_Stage (fst x) = rs_Stage r) early (authorize cfg m env at_ r).
Proof. unfold authorize. answers. Qed.

Lemma consume_yields cfg m env at_ r throttles : forall i,
  yields any early (consume cfg m env at_ r i throttles).
Proof.
  induction throttles as [|t rest IH]; intros i; cbn [consume]; [by apply yields_ret|].
  intros c. destruct (Control.Store.Consume _ _ _ _ _ _) as [db [[allowed used]|e]];
    revert c; answers.
Qed.

Lemma check_controls_yields cfg m env at_ r : yields any early (check_controls cfg m env at_ r).
Proof.
  unfold check_controls. pose proof (consume_yields cfg m env at_ r). answers.
Qed.

Lemma observe_parent_yields P cfg env at_ : yields any P (observe_parent cfg env at_).
Proof.
  unfold observe_parent. eapply yields_bind; [apply yields_gets | intros [t|] _; [|by apply yields_ret]].
  destruct (Observe rfc3339nano t env) as [t' [p|]]; answers.
Qed.

Lemma check_policy_yields cfg m env at_ r :
  yields (fun r' => rs_Stage r' = rs_Stage r) early (check_policy cfg m env at_ r).
Proof. unfold check_policy. answers. Qed.

Lemma hold_yields cfg m env grant at_ r : yields any early (hold cfg m env grant at_ r).
Proof.
  unfold hold. destruct (negb _); [by apply yields_ret|].
  destruct (Authority.EffectiveNotional _) as [n det]. destruct (_ || _); [by apply yields_ret|].
  intros c. destruct (Usage.rv_reserve _ _ _ _ _ _ _) as [l [d|e]]; revert c; answers.
Qed.

Lemma releaseReservation_yields P cfg m env at_ : yields any P (releaseReservation cfg m env at_).
Proof. unfold releaseReservation. answers. Qed.

Lemma settle_yields P cfg m env o at_ : yields any P (settle cfg m env o at_).
Proof. unfold settle. answers. Qed.
#[local] Hint Resolve releaseReservation_yields settle_yields : stages.

Lemma commit_decision_yields cfg m env req at_ r :
  yields any (refused_at [StageExecution]) (commit_decision cfg m env req at_ r).
Proof. unfold commit_decision, receipt. answers. by apply refused_deny; left. Qed.

(** What the caller of a submission is told. *)
Record ResultOk (r : Result) : Prop := {
  (** acceptance comes with an outcome that is not a rejection, of this call or of the
      one it repeats *)
  ro_accepted : rs_Accepted r = true ->
    (exists o, rs_Outcome r = Some o /\ oc_State o <> StateRejected) /\
    (rs_Stage r = "" \/ replayed_prior r);
  (** anything else names the stage that refused, or is the venue's rejection, which comes
      with no stage *)
  ro_refused : rs_Accepted r = false ->
    rs_Stage r ∈ StageIdempotency :: StageExecution :: early_stages \/
    (rs_Stage r = "" /\ rs_Code r = StateRejected /\
     exists o, rs_Outcome r = Some o /\ oc_State o = StateRejected)
}.

Lemma early_ok r : early r -> ResultOk r.
Proof.
  intros [[Ha Hs]|[[Ha Hs]|Hr]].
  - split; [congruence|]. left. by do 2 right.
  - split; [congruence|]. left. apply list_elem_of_singleton in Hs. rewrite Hs. by left.
  - pose proof Hr as (Hs & _ & _ & o & Ho & Ha). split.
    + intros Ht. split; [|by right]. exists o. split; [done|]. intros Hrej.
      rewrite Ht, Hrej in Ha. discriminate.
    + intros _. left. rewrite Hs. by left.
Qed.

Lemma refused_execution_ok r : refused_at [StageExecution] r -> ResultOk r.
Proof.
  intros [Ha Hs%list_elem_of_singleton]. split; [congruence|]. left. rewrite Hs. right. by left.
Qed.

Lemma verdict_ok r o stage :
  rs_Outcome r = Some o -> stage = "" ->
  ResultOk (set_verdict r (negb (String.eqb (oc_State o) StateRejected)) stage (oc_State o)).
Proof.
  intros Ho ->. split; cbn.
  - intros Ha. split; [|by left]. exists o. split; [done|]. by destruct (String.eqb_spec (oc_State o) StateRejected).
  - intros Ha. right. destruct (String.eqb_spec (oc_State o) StateRejected); [|done]. split_and!; [done..|].
    by exists o.
Qed.

Lemma yields_weaken {A} (G G' : A -> Prop) (P P' : Result -> Prop) (x : M A) :
  yields G P x -> (forall a, G a -> G' a) -> (forall r, P r -> P' r) -> yields G' P' x.
Proof. intros Hx HG HP c. specialize (Hx c). destruct (snd (x c)); auto. Qed.

Lemma Submit_crash su (w : World S V) env req :
  snd (Execution.Submit su w env req) = None -> su_crash su = true.
Proof.
  unfold Execution.Submit. destruct env as [env|]; [|done].
  destruct (_ || _); [done|]. destruct (String.eqb _ ""); [done|].
  destruct (fromCache _ _ _); [by destruct (claimed_by_other _ _)|].
  destruct (st_Claim _ _ _) as [s [[ex [|]]|e]]; [| |done].
  - unfold submitOnce. destruct (ad_SubmitOrder _ _ _ _) as [v [order|e]];
      (destruct (su_crash su); [done|]); [destruct (outcomeFrom _ _)|destruct e];
      by (destruct (resolve _ _ _ _ _) || destruct (reconcileAndResolve _ _ _ _ _)).
  - destruct ex as [rec|]; [destruct (claimed_by_other _ _); [done|]|]; by destruct (resumeExisting _ _ _).
Qed.

Lemma execute_yields cfg m env req at_ r :
  su_crash (m_execution m) = false -> rs_Stage r = "" ->
  yields ResultOk (refused_at [StageExecution]) (execute cfg m env req at_ r).
Proof.
  intros Hc Hs. unfold execute, note_attempt. eapply yields_bind.
  { intros c. unfold run_execution.
    pose proof (Submit_crash (m_execution m) (gw_world (ca_gw c)) (Some env) req) as Hn.
    instantiate (1 := any).
    destruct (Execution.Submit _ _ _ _) as [w [a|]]; [done|]. cbn in Hn. rewrite Hn in Hc; done. }
  intros [o err] _. assert (He : forall code, refused_at [StageExecution] (set_verdict (set_Outcome r o) false StageExecution code))
    by (intros code; apply refused_deny; by left).
  eapply yields_bind; [by instantiate (1 := any); answers | intros ? _].
  eapply yields_bind; [by instantiate (1 := any); answers | intros ? _].
  destruct err as [[]|]; answers. apply yields_ret. by apply verdict_ok.
Qed.

Lemma run_yields cfg m raw presented :
  su_crash (m_execution m) = false -> yields ResultOk ResultOk (run cfg m raw presented).
Proof.
  intros Hc. unfold run. destruct (Decode raw) as [env|errs].
  2:{ intros c. apply early_ok. left. split; [done | by left]. }
  cbv zeta. set (r := set_Attested _ _). assert (Hr : rs_Stage r = "") by done. clearbody r.
  assert (Hearly : forall A (G : A -> Prop) x, yields G early x -> yields G ResultOk x).
  { intros A G x Hx. by eapply yields_weaken; [exact Hx | | apply early_ok]. }
  assert (Hexec : forall A (G : A -> Prop) x, yields G (refused_at [StageExecution]) x -> yields G ResultOk x).
  { intros A G x Hx. by eapply yields_weaken; [exact Hx | | apply refused_execution_ok]. }
  eapply yields_bind; [apply Hearly, check_identity_yields | intros ? _].
  eapply yields_bind; [apply Hearly, check_signature_yields | intros ? _].
  eapply yields_bind; [apply record_received_yields | intros ? _]. unfold decide_after_identity.
  eapply yields_bind; [apply Hearly, check_idempotency_yields | intros ? _].
  eapply yields_bind; [apply Hearly, authorize_yields | intros [r1 grant] H1]. cbn in H1.
  eapply yields_bind; [apply Hearly, check_controls_yields | intros ? _].
  eapply yields_bind; [apply observe_parent_yields | intros ? _].
  eapply yields_bind; [apply Hearly, check_policy_yields | intros r2 H2].
  destruct (orderRequest cfg env) as [req|].
  2:{ apply Hexec, yields_deny, refused_deny. by left. }
  eapply yields_bind; [apply Hearly, hold_yields | intros ? _].
  eapply yields_bind; [apply Hexec, commit_decision_yields | intros ? _].
  apply Hexec, execute_yields; congruence.
Qed.

(** C34: Every submission is answered.  Unless the process dies inside the execution
    service, the caller gets a result, whatever the providers and the databases do:
    acceptance comes with an outcome that is not a rejection, the one of this call or the
    recorded one of the call it repeats; every other result names the stage that refused,
    except the venue's own rejection, which carries the rejected outcome and the code
    REJECTED under an empty stage. *)
Theorem every_submission_answered cfg g m raw presented :
  su_crash (m_execution m) = false ->
  exists r, snd (Submit cfg g m raw presented) = Some r /\ ResultOk r.
Proof.
  intros Hc. pose proof (run_yields cfg m raw presented Hc (mkCall g [] 0)) as H. unfold Submit.
  destruct (run cfg m raw presented _) as [c [r|r|]]; [by exists r..|done].
Qed.

(** * Histories of a gateway *)

(** Submissions interleaved with retention, a lost cache, a venue that moves on its own,
    and anything that changes the rest of the gateway: another gateway's reservations,
    controls, evidence, a restart. *)
Inductive gop :=
| GSubmit (cfg : Config) (m : Moment) (raw : Doc) (presented : Presented)
| GPrune (f : TxFault) (tenantID : string) (before now : Time)
| GCacheLost
| GVenue (v : V)
| GElse (g : Gateway).

Definition gstep (g : Gateway) (op : gop) : Gateway :=
  match op with
  | GSubmit cfg m raw presented => fst (Submit cfg g m raw presented)
  | GPrune f t before now => set_world (wstep (gw_world g) (OpPrune f t before now)) g
  | GCacheLost => set_world (wstep (gw_world g) OpCacheLost) g
  | GVenue v => set_world (wstep (gw_world g) (OpVenue v)) g
  | GElse g' => set_world (gw_world g) g'
  end.

Section Histories.
Context {HL : StoreLaws S}.

(** A request that decodes names a tenant the store tells apart from the others. *)
Hypothesis tenants_apart : forall raw env, Decode raw = Ok env -> st_tenant_ok (env_TenantID env) = true.

(** The order [s] was sent by a submission of this history that was decided. *)
Definition decided (g0 : Gateway) (ops : list gop) (s : Sent) : Prop :=
  exists ops1 ops2 cfg m raw presented env req,
    ops = ops1 ++ GSubmit cfg m raw presented :: ops2 /\ s = sent_for env /\
    let g := run_ops gstep g0 ops1 in
    Mediated cfg g m raw presented env req (gstep g (GSubmit cfg m raw presented)).

Lemma decided_later g0 ops op s : decided g0 ops s -> decided g0 (ops ++ [op]) s.
Proof.
  intros (o1 & o2 & cfg & m & raw & p & env & req & -> & H). exists o1, (o2 ++ [op]), cfg, m, raw, p, env, req.
  split; [by rewrite <- app_assoc | done].
Qed.

Lemma history_decided g0 ops :
  world_ok (gw_world g0) -> w_sent (gw_world g0) = [] ->
  let w := gw_world (run_ops gstep g0 ops) in
  world_ok w /\ forall s, s ∈ w_sent w -> decided g0 ops s.
Proof using HL tenants_apart.
  intros H0 Hnil. cbv zeta. induction ops as [|op ops [IHw IHs]] using rev_ind.
  { split; [done|]. cbn. rewrite Hnil. by intros s ?%not_elem_of_nil. }
  rewrite run_ops_app. cbn. set (g := run_ops gstep g0 ops) in *.
  assert (Hsame : forall g', gw_world g' = gw_world g ->
    world_ok (gw_world g') /\ forall s, s ∈ w_sent (gw_world g') -> decided g0 (ops ++ [op]) s).
  { intros g' ->. split; [done|]. intros s Hs. by apply decided_later, IHs. }
  assert (Hquiet : forall wop, wop_ok wop -> w_sent (wstep (gw_world g) wop) = w_sent (gw_world g) ->
    world_ok (wstep (gw_world g) wop) /\
    forall s, s ∈ w_sent (wstep (gw_world g) wop) -> decided g0 (ops ++ [op]) s).
  { intros wop Hok Hsent. split; [by apply wstep_ok|]. rewrite Hsent. intros s Hs. by apply decided_later, IHs. }
  destruct op as [cfg m raw presented|f t before now| |v|g']; cbn [gstep];
    [|by apply Hquiet..|by apply Hsame].
  pose proof (Submit_mediated cfg g m raw presented) as [Hw|(env & req & Hm)]; [by apply Hsame|].
  pose proof (tenants_apart _ _ (md_decoded _ _ _ _ _ _ _ _ Hm)) as Ht.
  pose proof (md_world _ _ _ _ _ _ _ _ Hm) as Hw. split.
  { rewrite Hw. by apply (wstep_ok (gw_world g) (OpSubmit (m_execution m) (Some env) req)). }
  rewrite Hw. destruct (Execution.Submit _ _ _ _) as [w' a] eqn:E. cbn [fst] in *.
  apply Submit_sent in E; [|by destruct IHw | by intros e [= <-]].
  destruct E as [[Hs _]|(e & [= <-] & Hs & _)]; rewrite Hs; intros s Hin.
  { by apply decided_later, IHs. }
  apply elem_of_app in Hin as [Hin| ->%list_elem_of_singleton]; [by apply decided_later, IHs|].
  exists ops, [], cfg, m, raw, presented, env, req. split_and!; [done..|]. exact Hm.
Qed.
End Histories.

(** Complete mediation.  A submission leaves the execution service, the venue and
    the idempotency store exactly as they were, unless the request decoded to a valid
    envelope, the caller's evidence supported its attestation and tenant, the signature
    verified, no other envelope held the key and no outcome was known for it, the grant
    allowed it, the ledger took its notional, every control and throttle passed, policy
    said ALLOW or OBSERVE, the decision was committed to evidence, and then it is what
    the execution service does with that envelope's own order. *)
Theorem nothing_sent_undecided cfg g m raw presented :
  let '(g', r) := Submit cfg g m raw presented in
  gw_world g' = gw_world g \/ exists env req, Mediated cfg g m raw presented env req g'.
Proof.
  pose proof (Submit_mediated cfg g m raw presented) as H. cbv zeta in H.
  by destruct (Submit cfg g m raw presented).
Qed.

(** C2: Over any history of a gateway, with any configurations, providers that fail,
    databases that roll back or lose an answer, processes that die, retention and restarts
    between submissions, no idempotency key and no envelope of a tenant reaches the venue
    twice, and every order the venue was ever sent belongs to a submission of the history
    that every stage decided and whose decision was on record. *)
Theorem every_sent_order_was_decided `{HL : !StoreLaws S} (g0 : Gateway) (ops : list gop)
    (c : option Memory.MemoryCache) (v : V) :
  (forall raw env, Decode raw = Ok env -> st_tenant_ok (env_TenantID env) = true) ->
  gw_world g0 = fresh_world c v ->
  let w := gw_world (run_ops gstep g0 ops) in
  NoDup (keys_sent w) /\ NoDup (envelopes_sent w) /\ forall s, s ∈ w_sent w -> decided g0 ops s.
Proof.
  intros Ht H0 w. destruct (history_decided Ht g0 ops) as [[] Hd];
    [rewrite H0; apply fresh_world_ok | by rewrite H0 | done].
Qed.

(** * Capacity and unknown outcomes *)

Definition is_result (s : step Result) (r : Result) : Prop := s = Go r \/ s = Answer r.

(** A stage that does not answer [r] was passed. *)
Lemma through {A} (R : relation Call) (G : A -> Prop) (P : Result -> Prop) (x : M A) (k : A -> M Result)
    c0 c c' s r :
  PreOrder R -> steps R x -> yields G P x -> R c0 c -> is_result s r -> ~ P r ->
  bind x k c = (c', s) -> exists c1 a, x c = (c1, Go a) /\ R c0 c1 /\ G a /\ k a c1 = (c', s).
Proof.
  intros HR Hx Hy H0 Hs HP H. unfold bind in H. pose proof (Hx c) as H1. pose proof (Hy c) as H2.
  destruct (x c) as [c1 [a|r'|]]; cbn in *; [|exfalso|done].
  - exists c1, a. split_and!; [done | by etransitivity | done..].
  - injection H as -> <-. destruct Hs as [Hs|Hs]; [done|]. by injection Hs as ->.
Qed.

Definition outcome_unknown (r : Result) : Prop :=
  rs_Stage r = StageExecution /\ rs_Code r = "OUTCOME_UNKNOWN".

Lemma unknown_not_early r : outcome_unknown r -> ~ early r.
Proof.
  intros [Hs _] [[_ H]|[[_ H]|(H & _)]]; rewrite Hs in H; [| |done].
  - by apply (bool_decide_pack _) in H.
  - by apply (bool_decide_pack _) in H.
Qed.

Lemma commit_decision_keeps cfg m env req at_ r c c' u :
  commit_decision cfg m env req at_ r c = (c', Go u) -> same gw_ledger c c'.
Proof.
  intros H. unfold commit_decision in H. apply bind_go in H as (c1 & x & H1 & H).
  apply bind_go in H as (c2 & ok & H2 & H).
  apply (steps_run _ _ _ _ _ (record_same gw_ledger _ _ _ _ _)) in H1.
  apply (steps_run _ _ _ _ _ (write_same gw_ledger _ _ _)) in H2.
  destruct ok; [injection H as <-; by etransitivity|]. by apply bind_go in H as (? & ? & _ & ?%deny_go).
Qed.

Lemma commit_decision_code cfg m env req at_ r :
  yields any (fun r => rs_Code r = "EVIDENCE_UNAVAILABLE") (commit_decision cfg m env req at_ r).
Proof. unfold commit_decision, receipt. answers. Qed.

Lemma run_execution_go m env req c c1 o err :
  run_execution m env req c = (c1, Go (o, err)) ->
  same gw_ledger c c1 /\ snd (Execution.Submit (m_execution m) (gw_world (ca_gw c)) (Some env) req) = Some (o, err).
Proof.
  unfold run_execution. destruct (Execution.Submit _ _ _ _) as [w [a|]]; [|done].
  intros H. apply bind_go in H as (c2 & u & H2 & H). injection H2 as <- _. by injection H as <- ->.
Qed.

(** A denial after a stage that only notes something. *)
Lemma ends_in {A} (R : relation Call) (x : M A) r2 stage code c c' s r :
  steps R x -> yields any (fun _ => False) x -> is_result s r ->
  bind x (fun _ => deny r2 stage code) c = (c', s) ->
  R c c' /\ r = set_verdict r2 false stage code.
Proof.
  intros Hx Hy Hs H. unfold bind in H. pose proof (Hx c) as H1. pose proof (Hy c) as H2.
  destruct (x c) as [c1 [a|r1|]]; cbn in *; [|done..]. injection H as <- <-. split; [done|].
  by destruct Hs as [?|[= <-]].
Qed.

Lemma execute_unknown cfg m env req at_ r0 c c' s r :
  rs_Stage r0 = "" -> execute cfg m env req at_ r0 c = (c', s) -> is_result s r -> outcome_unknown r ->
  exists o err,
    Execution.Submit (m_execution m) (gw_world (ca_gw c)) (Some env) req =
      (gw_world (ca_gw c'), Some (o, Some err)) /\
    rs_Outcome r = Some o /\ (same gw_ledger c c' \/ exists by_, err = ErrKeyReused by_).
Proof.
  intros Hr0 H Hs Hu. pose proof (execute_world cfg m env req at_ r0 c) as Hw. rewrite H in Hw. cbn [fst] in Hw.
  unfold execute in H. unfold bind at 1 in H.
  destruct (run_execution m env req c) as [c1 [[o err]|r1|]] eqn:E.
  2:{ exfalso. clear -E. unfold run_execution in E. by destruct (Execution.Submit _ _ _ _) as [w [a|]]. }
  2:{ injection H as _ <-. by destruct Hs. }
  apply run_execution_go in E as [Hl Ho].
  cbv zeta in H. apply (through (same gw_ledger) any (fun _ => False) _ _ c c1 _ _ r) in H;
    [|apply _|unfold note_attempt; stages|unfold note_attempt; answers|done|done|by intros []].
  destruct H as (c2 & [] & _ & H2 & _ & H).
  destruct err as [err|].
  - exists o, err. split; [by rewrite Hw, <- Ho, <- surjective_pairing|].
    destruct (refused_claim (Some err)) eqn:Erc.
    + apply (through (same gw_world) any (fun _ => False) _ _ c2 c2 _ _ r) in H;
        [|apply _|apply releaseReservation_steps; stages|apply releaseReservation_yields|done|done|by intros []].
      destruct H as (c3 & u & _ & _ & _ & H). destruct err as [by_| | | | | | |]; try done.
      * apply (ends_in (same gw_world) _ _ _ _ _ _ _ r) in H as [_ ->]; [|stages|apply yields_record|done].
        split; [done|]. right. by exists by_.
      * injection H as _ <-. destruct Hs as [?|[= <-]]; [done|]. by destruct Hu.
      * injection H as _ <-. destruct Hs as [?|[= <-]]; [done|]. by destruct Hu.
    + unfold bind at 1 in H. cbn [ret] in H.
      assert (He : bind (record cfg env Evidence.OrderUnknown at_
          [("client_order_id", Evidence.VString (or_ClientOrderID req));
           ("reason", Evidence.VString "outcome unresolved")])
        (fun _ => deny (set_Outcome r0 o) StageExecution "OUTCOME_UNKNOWN") c2 = (c', s)) by by destruct err.
      apply (ends_in (same gw_ledger) _ _ _ _ _ _ _ r) in He as [H3 ->]; [|stages|apply yields_record|done].
      split; [done|]. left. by etransitivity.
  - exfalso. apply (through (same gw_ledger) any (fun _ => False) _ _ c2 c2 _ _ r) in H;
      [|apply _|intros c3; reflexivity|by apply yields_ret|reflexivity|done|by intros []].
    destruct H as (c3 & u & _ & _ & _ & H). unfold bind at 1 in H.
    pose proof (settle_yields (fun _ => False) cfg m env o at_ c3) as Hy.
    destruct (settle cfg m env o at_ c3) as [c4 [?|?|]]; [|done..].
    unfold bind at 1, record in H. destruct (negb (p_Evidence cfg)); injection H as _ <-;
      (destruct Hs as [[= <-]|?]; [|done]); destruct Hu as [Hu _]; cbn in Hu; by rewrite Hr0 in Hu.
Qed.

(** What [c] did of a submission whose outcome is unknown: the ledger as the reservation
    made it, and the call of execution. *)
Definition went_unknown (cfg : Config) (m : Moment) (env : Envelope) (grant : option Authority.Grant)
    (req : OrderRequest) (at_ : Time) (g g' : Gateway) (r : Result) : Prop :=
  exists l' o err,
    held cfg m (gw_ledger g) env grant at_ l' /\
    Execution.Submit (m_execution m) (gw_world g) (Some env) req = (gw_world g', Some (o, Some err)) /\
    rs_Outcome r = Some o /\ (gw_ledger g' = l' \/ exists by_, err = ErrKeyReused by_).

(** From the reservation on. *)
Lemma send_unknown cfg m env grant req at_ r0 c c' s r :
  rs_Stage r0 = "" -> is_result s r -> outcome_unknown r ->
  bind (hold cfg m env grant at_ r0) (fun _ =>
    bind (commit_decision cfg m env req at_ r0) (fun _ => execute cfg m env req at_ r0)) c = (c', s) ->
  went_unknown cfg m env grant req at_ (ca_gw c) (ca_gw c') r.
Proof.
  intros Hr0 Hs Hu H. pose proof (unknown_not_early r Hu) as Hne.
  apply (through (same gw_world) any early _ _ c c _ _ r) in H;
    [|apply _|apply hold_steps; [apply _|stages|by intros ? ?]|apply hold_yields|reflexivity|done..].
  destruct H as (c1 & ? & Hh & Hw1 & _ & H). apply hold_go in Hh.
  apply (through (same gw_world) any (fun r => rs_Code r = "EVIDENCE_UNAVAILABLE") _ _ c1 c1 _ _ r) in H;
    [|apply _|apply commit_decision_steps; stages|apply commit_decision_code|reflexivity|done|].
  2:{ destruct Hu as [_ Hu]. by rewrite Hu. }
  destruct H as (c2 & ? & Hc & Hw2 & _ & H). apply commit_decision_keeps in Hc.
  apply (execute_unknown _ _ _ _ _ _ _ _ _ r) in H; [|done..].
  destruct H as (o & err & Ho & Hro & Hk). unfold same in *. exists (gw_ledger (ca_gw c1)), o, err.
  rewrite Hw2, Hw1 in Ho. split_and!; [done..|]. destruct Hk as [Hk|Hk]; [left; congruence | by right].
Qed.

Lemma went_unknown_from cfg m env grant req at_ g0 g g' r :
  gw_ledger g = gw_ledger g0 -> gw_world g = gw_world g0 ->
  went_unknown cfg m env grant req at_ g g' r -> went_unknown cfg m env grant req at_ g0 g' r.
Proof. unfold went_unknown. by intros -> ->. Qed.

Lemma decide_unknown cfg m env at_ r0 c c' s r :
  rs_Stage r0 = "" -> decide_after_identity cfg m env at_ r0 c = (c', s) -> is_result s r ->
  outcome_unknown r ->
  exists req grant, authorized cfg m (gw_ledger (ca_gw c)) env at_ grant /\
    went_unknown cfg m env grant req at_ (ca_gw c) (ca_gw c') r.
Proof.
  intros Hr0 H Hs Hu. pose proof (unknown_not_early r Hu) as Hne. unfold decide_after_identity in H.
  apply (through still any early _ _ c c _ _ r) in H;
    [|apply _|apply check_idempotency_steps; [apply _|stages]|apply check_idempotency_yields|reflexivity|done..].
  destruct H as (c4 & ? & _ & H4 & _ & H).
  apply (through still (fun x => rs_Stage (fst x) = rs_Stage r0) early _ _ c c4 _ _ r) in H;
    [|apply _|apply authorize_steps; [apply _|stages]|apply authorize_yields|done..].
  destruct H as (c5 & [r5 grant] & Ha & H5 & Hr5 & H). cbn [fst] in Hr5. apply authorize_go in Ha.
  assert (Hl4 : gw_ledger (ca_gw c4) = gw_ledger (ca_gw c)) by apply H4. rewrite Hl4 in Ha.
  apply (through nearly any early _ _ c c5 _ _ r) in H;
    [|apply _|apply check_controls_nearly|apply check_controls_yields|apply H5|done..].
  destruct H as (c6 & ? & _ & H6 & _ & H).
  apply (through nearly any early _ _ c c6 _ _ r) in H;
    [|apply _|apply observe_parent_nearly|apply observe_parent_yields|done..].
  destruct H as (c7 & ? & _ & H7 & _ & H).
  apply (through nearly (fun r' => rs_Stage r' = rs_Stage r5) early _ _ c c7 _ _ r) in H;
    [|apply _|apply check_policy_steps; [apply _|stages]|apply check_policy_yields|done..].
  destruct H as (c8 & r8 & _ & H8 & Hr8 & H).
  destruct (orderRequest cfg env) as [req|].
  2:{ injection H as _ <-. destruct Hs as [?|[= <-]]; [done|]. by destruct Hu. }
  apply (send_unknown _ _ _ _ _ _ _ _ _ _ r) in H; [|congruence|done..].
  exists req, grant. split; [done|]. by eapply went_unknown_from; [apply H8 | apply H8 |].
Qed.

(** An unknown outcome was reached through the reservation, and nothing after the
    reservation touched the ledger. *)
Lemma run_unknown cfg m raw presented g c' s r :
  run cfg m raw presented (mkCall g [] 0) = (c', s) -> is_result s r -> outcome_unknown r ->
  exists env req grant, Decode raw = Ok env /\ authorized cfg m (gw_ledger g) env (m_now m) grant /\
    went_unknown cfg m env grant req (m_now m) g (ca_gw c') r.
Proof.
  intros H Hs Hu. set (c0 := mkCall g [] 0) in *. pose proof (unknown_not_early r Hu) as Hne.
  unfold run in H. destruct (Decode raw) as [env|errs] eqn:Ed.
  2:{ injection H as _ <-. destruct Hs as [?|[= <-]]; [done|]. by destruct Hu. }
  cbv zeta in H. set (r0 := set_Attested _ _) in *. assert (Hr0 : rs_Stage r0 = "") by done. clearbody r0.
  apply (through still any early _ _ c0 c0 _ _ r) in H;
    [|apply _|apply check_identity_steps; [apply _|stages]|apply check_identity_yields|reflexivity|done|done].
  destruct H as (c1 & ? & _ & H1 & _ & H).
  apply (through still any early _ _ c0 c1 _ _ r) in H;
    [|apply _|apply check_signature_steps; [apply _|stages]|apply check_signature_yields|done..].
  destruct H as (c2 & ? & _ & H2 & _ & H).
  apply (through still any early _ _ c0 c2 _ _ r) in H;
    [|apply _|apply record_received_steps; [apply _|stages]|apply record_received_yields|done..].
  destruct H as (c3 & ? & _ & H3 & _ & H).
  apply (decide_unknown _ _ _ _ _ _ _ _ r) in H; [|done..].
  assert (Hl3 : gw_ledger (ca_gw c3) = gw_ledger g) by apply H3. rewrite Hl3 in H.
  assert (Hw3 : gw_world (ca_gw c3) = gw_world g) by apply H3.
  destruct H as (req & grant & Ha & Hk). exists env, req, grant. split_and!; [done..|].
  by eapply went_unknown_from.
Qed.

(** C16: INV-004 at the ledger.  When a submission ends with its outcome unknown, a grant
    had allowed it and the ledger held its notional; execution, called in the world the
    submission found and leaving the one it ends in, returned the outcome reported and an
    error; and the ledger is left exactly as the reservation made it: capacity an order may
    be using is not returned.  The one exception is a key that another envelope claimed in
    between, and then no order was sent and the venue was not asked. *)
Theorem unknown_outcome_keeps_capacity `{HL : !StoreLaws S} cfg g m raw presented g' r :
  Submit cfg g m raw presented = (g', Some r) -> outcome_unknown r ->
  exists env req grant l' o err,
    Decode raw = Ok env /\ authorized cfg m (gw_ledger g) env (m_now m) grant /\
    held cfg m (gw_ledger g) env grant (m_now m) l' /\
    Execution.Submit (m_execution m) (gw_world g) (Some env) req = (gw_world g', Some (o, Some err)) /\
    rs_Outcome r = Some o /\
    (gw_ledger g' = l' \/
     (exists by_, err = ErrKeyReused by_) /\ w_sent (gw_world g') = w_sent (gw_world g) /\
     w_venue (gw_world g') = w_venue (gw_world g)).
Proof.
  intros H Hu. unfold Submit in H. destruct (run _ _ _ _ _) as [c s] eqn:E.
  assert (Hf : same gw_ledger c (fst (flush cfg m c)) /\ same gw_world c (fst (flush cfg m c))).
  { assert (steps (same gw_ledger) (flush cfg m)) as Hst by (unfold flush; stages).
    assert (steps (same gw_world) (flush cfg m)) as Hst' by (unfold flush; stages). split; [apply Hst | apply Hst']. }
  assert (Hr : g' = ca_gw (fst (flush cfg m c)) /\ is_result s r).
  { destruct s as [r'|r'|]; [| |done]; injection H as <- <-; (split; [done|]); [by left | by right]. }
  destruct Hr as [-> Hs]. destruct Hf as [-> ->].
  destruct (run_unknown _ _ _ _ _ _ _ r E Hs Hu) as (env & req & grant & Hd & Ha & l' & o & err & Hh & Hx & Ho & Hk).
  exists env, req, grant, l', o, err. split_and!; [done..|]. destruct Hk as [Hk|[by_ ->]]; [by left|right].
  apply key_reused_sends_nothing in Hx as [Hv Hn]. split_and!; [by exists by_ | done..].
Qed.

(** * Which answers come after the venue *)

Definition late (r : Result) : Prop := rs_Stage r ∈ [""; StageExecution].

Definition unsent_or_late (c0 : Call) (x : Call * step Result) : Prop :=
  same gw_world c0 (fst x) \/ match snd x with Go r | Answer r => late r | Died => True end.

Lemma stage_before {A} (G : A -> Prop) (P : Result -> Prop) (x : M A) (k : A -> M Result) c0 c :
  steps (same gw_world) x -> yields G P x -> same gw_world c0 c ->
  (forall a c1, G a -> same gw_world c0 c1 -> unsent_or_late c0 (k a c1)) ->
  unsent_or_late c0 (bind x k c).
Proof.
  intros Hx Hy H0 Hk. unfold bind. pose proof (Hx c) as H1. pose proof (Hy c) as H2.
  destruct (x c) as [c1 [a|r|]]; cbn [fst snd] in *.
  - apply Hk; [done | by etransitivity].
  - left. by etransitivity.
  - done.
Qed.

Lemma execute_late cfg m env req at_ r c0 c :
  rs_Stage r = "" -> unsent_or_late c0 (execute cfg m env req at_ r c).
Proof.
  intros Hr. right. unfold execute, bind at 1.
  destruct (run_execution m env req c) as [c1 [[o err]|r1|]] eqn:E; cbn [snd]; [|exfalso|done].
  2:{ clear -E. unfold run_execution in E. by destruct (Execution.Submit _ _ _ _) as [w [a|]]. }
  match goal with |- match snd (?k c1) with _ => _ end => assert (H : yields late late k) end;
    [|specialize (H c1); destruct (snd _); done].
  assert (Hex : late (set_verdict (set_Outcome r o) false StageExecution "")) by (right; left).
  eapply yields_bind; [instantiate (1 := any); unfold note_attempt; answers|intros ? _].
  eapply yields_bind; [instantiate (1 := any); answers; apply releaseReservation_yields|intros ? _].
  destruct err as [[]|]; try (apply yields_deny; exact Hex);
    try (eapply yields_bind; [apply yields_record|intros ? _]; apply yields_deny; exact Hex).
  eapply yields_bind; [apply settle_yields|intros ? _].
  eapply yields_bind; [apply yields_record|intros ? _]. apply yields_ret. cbn. rewrite Hr. by left.
Qed.

Lemma run_late cfg m raw presented c :
  unsent_or_late c (run cfg m raw presented c).
Proof.
  unfold run. destruct (Decode raw) as [env|errs]; [|by left]. cbv zeta.
  set (r0 := set_Attested _ _). assert (Hr0 : rs_Stage r0 = "") by done. clearbody r0.
  eapply stage_before; [apply check_identity_steps; [apply _|stages]|apply check_identity_yields|done|intros ? c1 _ H1].
  eapply stage_before; [apply check_signature_steps; [apply _|stages]|apply check_signature_yields|done|intros ? c2 _ H2].
  eapply stage_before; [apply record_received_steps; [apply _|stages]|apply (record_received_yields early)|done|intros ? c3 _ H3].
  unfold decide_after_identity.
  eapply stage_before; [apply check_idempotency_steps; [apply _|stages]|apply check_idempotency_yields|done|intros ? c4 _ H4].
  eapply stage_before; [apply authorize_steps; [apply _|stages]|apply authorize_yields|done|intros [r5 grant] c5 Hr5 H5].
  cbn [fst] in Hr5.
  eapply stage_before; [apply check_controls_steps; [apply _|stages|by intros ? ?]|apply check_controls_yields|done|intros ? c6 _ H6].
  eapply stage_before; [apply observe_parent_steps; [apply _|stages|by intros ? ?]|apply (observe_parent_yields early)|done|intros ? c7 _ H7].
  eapply stage_before; [apply check_policy_steps; [apply _|stages]|apply check_policy_yields|done|intros r8 c8 Hr8 H8].
  cbn in Hr8.
  destruct (orderRequest cfg env) as [req|]; [|by left].
  eapply stage_before; [apply hold_steps; [apply _|stages|by intros ? ?]|apply hold_yields|done|intros ? c9 _ H9].
  eapply stage_before; [apply commit_decision_steps; stages|apply commit_decision_code|done|intros ? c10 _ H10].
  apply execute_late. congruence.
Qed.

(** A submission answered with any other stage left the execution world alone. *)
Lemma Submit_late cfg g m raw presented g' r :
  Submit cfg g m raw presented = (g', Some r) -> gw_world g' = gw_world g \/ late r.
Proof.
  pose proof (run_late cfg m raw presented (mkCall g [] 0)) as H. unfold Submit.
  destruct (run _ _ _ _ _) as [c s].
  assert (Hf : gw_world (ca_gw (fst (flush cfg m c))) = gw_world (ca_gw c)).
  { change (same gw_world c (fst (flush cfg m c))).
    assert (steps (same gw_world) (flush cfg m)) as Hst by (unfold flush; stages). apply Hst. }
  destruct H as [H|H]; destruct s as [r'|r'|]; intros E; simplify_eq; rewrite ?Hf; first [by left | by right].
Qed.

(** * A key that was used before *)

(** The caller was identified, speaks for the envelope's tenant, and signed it. *)
Definition authentic (cfg : Config) (m : Moment) (raw : Doc) (presented : Presented) (env : Envelope) : Prop :=
  let a := Resolve chain (p_Identity cfg) (m_identity_now m) (m_verify_now m) presented in
  Decode raw = Ok env /\ CheckClaim (at_Level (ag_Attestation (env_Agent env))) a = None /\
  RequireExecutable a = None /\ RequireTenant a (env_TenantID env) = None /\
  VerifyEnvelopeSignature (m_keys m) raw (Some env) (m_now m) = None.

Lemma run_authentic cfg m raw presented env c :
  authentic cfg m raw presented env ->
  exists c1 r, still c c1 /\ rs_Accepted r = false /\ rs_Authority r = None /\ rs_Policy r = None /\
    rs_Outcome r = None /\ gw_parent (ca_gw c1) = gw_parent (ca_gw c) /\
    run cfg m raw presented c = decide_after_identity cfg m env (m_now m) r c1.
Proof.
  intros (Hd & H1 & H2 & H3 & H4). unfold run. rewrite Hd. cbv zeta.
  set (a := Resolve _ _ _ _ _) in *. set (r := set_Attested (begin_result env (m_now m)) a).
  unfold bind at 1. unfold check_identity at 1. rewrite H1, H2, H3. cbn [ret].
  unfold bind at 1. unfold check_signature at 1. rewrite H4. cbn [ret]. unfold bind at 1.
  pose proof (record_received_yields (fun _ => False) cfg env a (m_now m) c) as Hy.
  pose proof (record_received_steps still record_still cfg env a (m_now m) c) as Hs.
  assert (Hp : gw_parent (ca_gw (fst (record_received cfg env a (m_now m) c))) = gw_parent (ca_gw c)).
  { unfold record_received, record, bind. by destruct (p_Evidence cfg). }
  destruct (record_received _ _ _ _ c) as [c1 [u|?|]]; [|done..].
  exists c1, r. by split_and!.
Qed.

(** The reply to a key that already has a record. *)
Definition reply_of (env : Envelope) (rec : IdemRecord) (r : Result) : Prop :=
  rs_Stage r = StageIdempotency /\ rs_Authority r = None /\ rs_Policy r = None /\
  if claimed_by_other rec env then
    rs_Accepted r = false /\ rs_Code r = "IDEMPOTENCY_KEY_REUSED" /\ rs_Outcome r = None
  else
    rs_Code r = "DUPLICATE" /\ rs_Outcome r = Some (replay (rc_Outcome rec)) /\
    rs_Accepted r = negb (String.eqb (oc_State (rc_Outcome rec)) StateRejected).

Lemma check_idempotency_reply cfg m env at_ r c rec :
  rs_Accepted r = false -> rs_Authority r = None -> rs_Policy r = None -> rs_Outcome r = None ->
  let s := w_store (gw_world (ca_gw c)) in
  st_Load (m_load1 m) s (env_TenantID env) (env_IdempotencyKey env) = Ok rec ->
  st_Load (m_load2 m) s (env_TenantID env) (env_IdempotencyKey env) = Ok rec ->
  claimed_by_other rec env = true \/ rc_State rec = RecordResolved ->
  exists c1 r', check_idempotency cfg m env at_ r c = (c1, Answer r') /\ still c c1 /\
    gw_parent (ca_gw c1) = gw_parent (ca_gw c) /\ reply_of env rec r'.
Proof.
  cbv zeta. intros Hacc Ha Hp Ho H1 H2 Hc.
  assert (Hrec : forall name p, exists c1, record cfg env name at_ p c = (c1, Go ()) /\ still c c1 /\
            gw_parent (ca_gw c1) = gw_parent (ca_gw c)).
  { intros name p. pose proof (record_still cfg env name at_ p c) as Hs. revert Hs.
    unfold record. destruct (negb (p_Evidence cfg)); cbn [fst]; intros Hs; eauto. }
  unfold reply_of, check_idempotency, bind at 1, keyClaimedByAnother. rewrite H1.
  destruct (claimed_by_other rec env) eqn:E.
  - match goal with |- context [record cfg env ?n at_ ?p] => destruct (Hrec n p) as (c1 & Hr & Hs & Hpar) end.
    exists c1. unfold bind. rewrite Hr. eexists. split; [reflexivity|]. by split_and!.
  - destruct Hc as [Hc|Hc]; [done|]. unfold replay_prior, bind at 1, priorOutcome. rewrite H2, Hc.
    match goal with |- context [record cfg env ?n at_ ?p] => destruct (Hrec n p) as (c1 & Hr & Hs & Hpar) end.
    exists c1. unfold bind. rewrite Hr. eexists. split; [reflexivity|]. by split_and!.
Qed.

(** A duplicate is answered from the record and changes nothing.  Once an authentic
    request's key has a record, a resolved one or one of another envelope, the answer
    depends on that record alone: the recorded outcome for the same envelope, a refusal
    that discloses no outcome for another; authority and policy are not consulted, and
    the ledger, the throttles, the venue and the records stay as they were, whatever the
    grant and the policy have become since. *)
Theorem duplicate_returns_prior_outcome cfg g m raw presented env rec :
  authentic cfg m raw presented env ->
  let s := w_store (gw_world g) in
  st_Load (m_load1 m) s (env_TenantID env) (env_IdempotencyKey env) = Ok rec ->
  st_Load (m_load2 m) s (env_TenantID env) (env_IdempotencyKey env) = Ok rec ->
  claimed_by_other rec env = true \/ rc_State rec = RecordResolved ->
  exists g' r, Submit cfg g m raw presented = (g', Some r) /\ reply_of env rec r /\
    gw_world g' = gw_world g /\ gw_ledger g' = gw_ledger g /\ gw_controls g' = gw_controls g /\
    gw_parent g' = gw_parent g.
Proof.
  cbv zeta. intros Hauth H1 H2 Hc.
  destruct (run_authentic _ _ _ _ _ (mkCall g [] 0) Hauth) as (c1 & r0 & Hs & Hacc & Ha & Hp & Ho & Hpar & Hrun).
  assert (Hw : gw_world (ca_gw c1) = gw_world g) by apply Hs.
  rewrite <- Hw in H1, H2.
  destruct (check_idempotency_reply cfg m env (m_now m) r0 c1 rec Hacc Ha Hp Ho H1 H2 Hc)
    as (c2 & r & Hck & Hs2 & Hpar2 & Hr).
  unfold Submit. rewrite Hrun. unfold decide_after_identity, bind at 1. rewrite Hck.
  assert (Hf : forall B (f : Gateway -> B), Blind f -> f (ca_gw (fst (flush cfg m c2))) = f (ca_gw c2)).
  { intros B f Hb. assert (Hst : steps (same f) (flush cfg m)) by (unfold flush; stages). apply Hst. }
  exists (ca_gw (fst (flush cfg m c2))), r. split_and!; [done..| | | |].
  - rewrite (Hf _ gw_world _). rewrite <- Hw. apply Hs2.
  - rewrite (Hf _ gw_ledger _). etransitivity; [apply Hs2 | apply Hs].
  - rewrite (Hf _ gw_controls _). etransitivity; [apply Hs2 | apply Hs].
  - cbn in Hpar. unfold flush, bind, write_evidence. destruct (_ || _); [cbn; congruence|].
    destruct (Evidence.AppendBatch _ _ _ _) as [db [u|e]]; cbn; congruence.
Qed.
End Pipeline.
