(* ===== verification/Scenarios.v ===== *)
(** Runs of the enforcement pipeline on concrete gateways.

    A gateway with the in-process ledger and idempotency store, the deterministic venue
    and toy encodings, on which the pipeline's theorems are applied and on which the
    behaviours reported as findings are computed. *)

From S2P Require Import Prelude Money Intent Broker Execution CanonicalJSON Crypto Identity.
From S2P Require Import ParentIntent Pipeline.
From S2P Require Authority Usage Evidence Control Policy.

#[local] Existing Instance toy_crypto.
#[local] Existing Instance Evidence.toy_json.
#[local] Existing Instance Usage.memory_reserver.
#[local] Existing Instance Usage.memory_laws.

(** * A gateway *)

(** Two tenants with one agent each, whose keys are on record. *)
Definition desk_keys : Store.Tables :=
  fst (Store.Register Fine demo_registry
         (mkAgentKey "tenant-2" "value" "k2" AlgorithmEd25519 (repeat 9%nat 32) "ACTIVE" 10 1000 None)).

Definition envelope_of (tenant agent key : string) (priv : nat) (id idem : string) (i : Intent) : Envelope :=
  let e := sample_envelope in
  mkEnvelope (env_SchemaVersion e) id idem "" (env_ReceivedAt e) tenant (env_Principal e)
    (mkAgent agent "" (ag_Attestation (env_Agent e))) (env_RuntimeClaims e)
    (env_AuthorityGrantID e) (env_Dependencies e) i "" "" "" ""
    (mkSignature AlgorithmEd25519 key
       (default "" (SignEnvelope (DObject [("tenant_id", DString tenant)]) priv))).

Definition body_of (env : Envelope) : Doc :=
  DObject [("tenant_id", DString (env_TenantID env));
           ("signature", DObject [("value", DString (sig_Value (env_Signature env)))])].

Definition first_order : Envelope :=
  envelope_of "tenant-1" "momentum" "k1" 7 "env-1" "key-1" sample_intent.

(** Another tenant's order, for another instrument, under the same idempotency key. *)
Definition other_order : Envelope :=
  envelope_of "tenant-2" "value" "k2" 9 "env-9" "key-1"
    (mkIntent AssetEquity "instr_other" SideSell OrderLimit None (Some 300000000) (Some 500000)
       None "DAY" false).

(** The decoder, as far as these two bodies go. *)
Definition decode_desk (raw : Doc) : result Envelope string :=
  match raw with
  | DObject ((_, DString t) :: _) =>
      if String.eqb t "tenant-1" then Ok first_order
      else if String.eqb t "tenant-2" then Ok other_order else Err "ENVELOPE_MALFORMED"
  | _ => Err "ENVELOPE_MALFORMED"
  end.

Definition text_of (z : Z) : string := fmt_d z.

(** A grant of either tenant for either agent, with a ceiling for any hour. *)
Definition desk_grant (rolling : Amount) (tenant agent : string) : Authority.Grant :=
  Authority.mkGrant "grant-1" tenant "p-1" "acct-1" agent 0 0 1000000 [SideBuy; SideSell]
    [AssetEquity] [] [] (Authority.mkLimits 0 rolling 0 0) Authority.StatusActive None "".

Definition desk_bundle : Policy.Bundle :=
  Policy.with_rules Policy.option_bundle
    [Policy.mkRule "small-orders" Policy.ActionAllow "" "" "" [] None None None None None None None false].

Definition desk : Config (Pool := unit) :=
  mkConfig demo_verifier true true (fun i => if String.eqb i "instr_acme" then Some "ACME" else Some "OTHR")
    true true.

Definition caller (tenant : string) : Presented := mkPresented None [] "svc" tenant false false false.

Abbreviation Desk := (Gateway (L := Usage.Memory.Ledger) (S := Memory.MemoryStore) (V := FakeBroker.Broker)).
Abbreviation DeskMoment := (Moment (K := Store.Tables)).

Definition desk_gateway (v : FakeBroker.Broker) : Desk :=
  mkGateway (∅ : Usage.Memory.Ledger) (fresh_world None v) Control.Store.empty_tables Evidence.empty_tables
    (Some (NewParentTracker DefaultClusterConfig)) 0.

(** A submission at [now] under a grant that allows [rolling] an hour: the receipt's
    transaction and the claim's meet [receipt] and [claim]. *)
Definition moment (rolling : Amount) (receipt claim : TxFault) (now : Time) : DeskMoment :=
  mkMoment now now now (Some desk_keys)
    (fun t _ => Ok (Some (desk_grant rolling t (if String.eqb t "tenant-1" then "momentum" else "value"))))
    (fun _ => Ok (Some desk_bundle)) Fine Fine true true (fun _ => true) true receipt
    (mkSurroundings now None None claim Fine false) Fine Fine Fine now.

Definition submit (g : Desk) (m : DeskMoment) (env : Envelope) : Desk * option Result :=
  Submit any_chain decode_desk text_of text_of desk g m (body_of env) (caller (env_TenantID env)).

Definition verdict (r : option Result) : option (bool * string * string) :=
  option_map (fun r => (rs_Accepted r, rs_Stage r, rs_Code r)) r.

Definition outcome_of (r : option Result) : option Outcome :=
  match r with Some r => rs_Outcome r | None => None end.

Definition recorded (g : Desk) (id : string) (at_ : Time) : Prop :=
  is_Some (Evidence.events (gw_evidence g) !! (id, at_)).

Definition orders_at (g : Desk) (id : string) : option (ExecutionState * string) :=
  option_map (fun o => (bo_State o, bo_BrokerOrderID o)) (FakeBroker.fb_orders (w_venue (gw_world g)) !! id).

(** * Runs *)

(** A venue that took the order and answers nothing about it, and the same venue once
    it answers again. *)
Definition lost_venue : FakeBroker.Broker :=
  FakeBroker.InjectFault FakeBroker.New "coid-key-1" FakeBroker.FaultUnreconcilable.

Definition healed (g : Desk) : Desk :=
  set_world (set_venue (gw_world g)
    (FakeBroker.InjectFault (w_venue (gw_world g)) "coid-key-1" FakeBroker.FaultNone)) g.

(** An order of 1,000 under a ceiling of 1,500 an hour, or of 15,000. *)
Definition tight : Amount := 15000000.
Definition roomy : Amount := 150000000.

Definition accepted_run := submit (desk_gateway FakeBroker.New) (moment tight Fine Fine 50) first_order.
Definition unknown_run := submit (desk_gateway lost_venue) (moment tight Fine Fine 50) first_order.
Definition retry_run := submit (healed (fst unknown_run)) (moment tight Fine Fine 60) first_order.
Definition roomy_run := submit (desk_gateway lost_venue) (moment roomy Fine Fine 50) first_order.
Definition unrecorded_run := submit (fst roomy_run) (moment roomy Fails Fine 60) first_order.
Definition unclaimed_run := submit (desk_gateway FakeBroker.New) (moment roomy Fine Fails 50) first_order.
Definition other_run := submit (fst accepted_run) (moment roomy Fine Fine 60) other_order.

(** The pipeline's pre-check counts the capacity a retry already holds.  The venue took
    an order of 1,000 and its outcome is unknown; the grant allows 1,500 an hour.  The
    retry that would reconcile it is refused at AUTHORITY for want of room, although
    the ledger's own rule is that a retry keeps what it holds, so the venue, which
    answers now, is never asked and the record stays pending. *)
Theorem retry_refused_for_its_own_reservation :
  verdict (snd unknown_run) = Some (false, StageExecution, "OUTCOME_UNKNOWN") /\
  orders_at (fst retry_run) "coid-key-1" = Some (StateAccepted, "fake-000001") /\
  verdict (snd retry_run) = Some (false, StageAuthority, "ROLLING_LIMIT_EXCEEDED") /\
  (exists d l, Usage.rv_reserve true (gw_ledger (fst unknown_run))
     (Some (desk_grant tight "tenant-1" "momentum")) "key-1" 10000000
     (Authority.mkIdentity "env-1" "p-1" "acct-1") 60 = (l, Ok d) /\ Authority.d_Allowed d = true) /\
  gw_world (fst retry_run) = gw_world (healed (fst unknown_run)).
Proof.
  split_and!; [vm_compute; reflexivity.. | | vm_compute; reflexivity].
  eexists _, _. split; [vm_compute; reflexivity | reflexivity].
Qed.

(** A receipt that fails on a retry returns capacity that may be in use: the first call
    left an order working at the venue with its outcome unknown and its notional held,
    and the retry, which could not record its decision, released it. *)
Theorem failed_receipt_releases_live_reservation :
  verdict (snd roomy_run) = Some (false, StageExecution, "OUTCOME_UNKNOWN") /\
  orders_at (fst roomy_run) "coid-key-1" = Some (StateAccepted, "fake-000001") /\
  Usage.rl_find (gw_ledger (fst roomy_run)) "tenant-1" "key-1" <> None /\
  verdict (snd unrecorded_run) = Some (false, StageExecution, "EVIDENCE_UNAVAILABLE") /\
  Usage.rl_find (gw_ledger (fst unrecorded_run)) "tenant-1" "key-1" = None /\
  orders_at (fst unrecorded_run) "coid-key-1" = Some (StateAccepted, "fake-000001").
Proof. split_and!; vm_compute; (reflexivity || discriminate). Qed.

(** Evidence can state an attempt on a venue that was never made: the idempotency claim
    failed, nothing was sent, and the chain has the attempt. *)
Theorem attempt_recorded_without_a_claim :
  w_sent (gw_world (fst unclaimed_run)) = [] /\
  verdict (snd unclaimed_run) = Some (false, StageExecution, "OUTCOME_UNKNOWN") /\
  recorded (fst unclaimed_run) "env-1_broker.order.submission_attempted.v1_7" 50.
Proof.
  split_and!; [vm_compute; reflexivity..|]. unfold recorded. apply (bool_decide_unpack _). vm_compute. exact I.
Qed.

(** The client order id does not name the tenant: a second tenant's sale of another
    instrument, under an idempotency key the first tenant also used, is answered as
    accepted with the first tenant's order. *)
Theorem client_order_id_crosses_tenants :
  in_InstrumentID (env_Intent first_order) <> in_InstrumentID (env_Intent other_order) /\
  verdict (snd other_run) = Some (true, "", StateAccepted) /\
  outcome_of (snd other_run) = outcome_of (snd accepted_run) /\
  size (FakeBroker.fb_orders (w_venue (gw_world (fst other_run)))) = 1%nat.
Proof. split_and!; vm_compute; (reflexivity || discriminate). Qed.

(** * Witnesses *)

Example every_submission_answered_witness :
  exists r, snd unknown_run = Some r /\ ResultOk r.
Proof.
  apply (every_submission_answered any_chain decode_desk text_of text_of desk (desk_gateway lost_venue)
           (moment tight Fine Fine 50) (body_of first_order) (caller "tenant-1")). reflexivity.
Defined.

Definition desk_history : list (gop (K := Store.Tables) (L := Usage.Memory.Ledger) (S := Memory.MemoryStore)
    (V := FakeBroker.Broker) (Pool := unit)) :=
  [GSubmit desk (moment tight Fine Fine 50) (body_of first_order) (caller "tenant-1");
   GPrune Fine "tenant-1" 90 100;
   GSubmit desk (moment tight Fine Fine 120) (body_of first_order) (caller "tenant-1")].

Lemma decode_desk_cases raw :
  decode_desk raw = Ok first_order \/ decode_desk raw = Ok other_order \/ is_ok (decode_desk raw) = false.
Proof.
  destruct raw as [| | | | |l|]; try (right; right; reflexivity). destruct l as [|[? []] ?]; try (right; right; reflexivity).
  cbn [decode_desk]. destruct (String.eqb _ "tenant-1"); [by left|].
  destruct (String.eqb _ "tenant-2"); [right; by left | by right; right].
Qed.

Lemma Validate_tenant e : env_TenantID (fst (Validate e)) = env_TenantID e.
Proof.
  unfold Validate. by destruct (validateAttestation _), (validateRuntimeClaims _), (validateDependencies _ _).
Qed.

Lemma decode_desk_env raw env :
  Decode decode_desk raw = Ok env -> env_TenantID env = "tenant-1" \/ env_TenantID env = "tenant-2".
Proof.
  assert (H : forall e, decode_desk raw = Ok e -> Decode decode_desk raw = Ok env -> env_TenantID env = env_TenantID e).
  { intros e He. unfold Decode. rewrite He. pose proof (Validate_tenant e) as Ht. revert Ht.
    destruct (Validate e) as [e' [|]]; [|done]. cbn. by intros <- [= <-]. }
  destruct (decode_desk_cases raw) as [E|[E|E]].
  - intros Hd. left. by rewrite (H _ E Hd).
  - intros Hd. right. by rewrite (H _ E Hd).
  - unfold Decode. by destruct (decode_desk raw).
Qed.

Example every_sent_order_was_decided_witness :
  let w := gw_world (run_ops (gstep any_chain decode_desk text_of text_of) (desk_gateway FakeBroker.New) desk_history) in
  w_sent w = [sent_for first_order] /\ NoDup (keys_sent w) /\
  decided any_chain decode_desk text_of text_of (desk_gateway FakeBroker.New) desk_history (sent_for first_order).
Proof.
  cbv zeta. assert (Hs : w_sent (gw_world (run_ops (gstep any_chain decode_desk text_of text_of)
     (desk_gateway FakeBroker.New) desk_history)) = [sent_for first_order]) by (vm_compute; reflexivity).
  destruct (every_sent_order_was_decided any_chain decode_desk text_of text_of
              (desk_gateway FakeBroker.New) desk_history None FakeBroker.New) as (H1 & _ & H2).
  - intros raw env [-> | ->]%decode_desk_env; reflexivity.
  - reflexivity.
  - split_and!; [exact Hs | exact H1 |]. apply H2. rewrite Hs. by left.
Defined.

Example unknown_outcome_keeps_capacity_witness :
  exists l', gw_ledger (fst unknown_run) = l' /\ Usage.rl_find l' "tenant-1" "key-1" <> None /\
  exists env req grant l o err,
    Decode decode_desk (body_of first_order) = Ok env /\
    authorized desk (moment tight Fine Fine 50) ∅ env 50 grant /\
    held desk (moment tight Fine Fine 50) ∅ env grant 50 l /\
    Execution.Submit (S := Memory.MemoryStore) (V := FakeBroker.Broker)
      (m_execution (moment tight Fine Fine 50)) (gw_world (desk_gateway lost_venue)) (Some env) req =
      (gw_world (fst unknown_run), Some (o, Some err)) /\
    option_map rs_Outcome (snd unknown_run) = Some (Some o) /\
    (l' = l \/ (exists by_, err = ErrKeyReused by_) /\
      w_sent (gw_world (fst unknown_run)) = w_sent (gw_world (desk_gateway lost_venue)) /\
      w_venue (gw_world (fst unknown_run)) = w_venue (gw_world (desk_gateway lost_venue))).
Proof.
  eexists. split; [reflexivity|]. split; [vm_compute; discriminate|].
  destruct (snd unknown_run) as [r|] eqn:E; [|vm_compute in E; discriminate].
  destruct (unknown_outcome_keeps_capacity any_chain decode_desk text_of text_of desk (desk_gateway lost_venue)
           (moment tight Fine Fine 50) (body_of first_order) (caller "tenant-1") (fst unknown_run) r)
    as (env & req & grant & l & o & err & H1 & H2 & H3 & H4 & H5 & H6).
  - rewrite <- E. apply surjective_pairing.
  - assert (Hv : verdict (Some r) = Some (false, StageExecution, "OUTCOME_UNKNOWN")) by (rewrite <- E; vm_compute; reflexivity).
    injection Hv as _ H1 H2. by split.
  - exists env, req, grant, l, o, err. split_and!; [exact H1 | exact H2 | exact H3 | exact H4 | | exact H6].
    cbn [option_map]. by rewrite H5.
Defined.

(** The retry after the outcome is known. *)
Example duplicate_returns_prior_outcome_witness :
  exists rec g' r,
    st_Load Fine (w_store (gw_world (fst accepted_run))) "tenant-1" "key-1" = Ok rec /\
    Submit any_chain decode_desk text_of text_of desk (fst accepted_run) (moment tight Fine Fine 60)
      (body_of first_order) (caller "tenant-1") = (g', Some r) /\ reply_of first_order rec r.
Proof.
  destruct (st_Load Fine (w_store (gw_world (fst accepted_run))) "tenant-1" "key-1") as [rec|] eqn:E;
    [|vm_compute in E; discriminate].
  assert (Hs : rc_State rec = RecordResolved).
  { assert (option_map rc_State (match st_Load Fine (w_store (gw_world (fst accepted_run))) "tenant-1" "key-1" with
             Ok r => Some r | Err _ => None end) = Some RecordResolved) as H by (vm_compute; reflexivity).
    rewrite E in H. by injection H. }
  destruct (duplicate_returns_prior_outcome any_chain decode_desk text_of text_of desk (fst accepted_run)
              (moment tight Fine Fine 60) (body_of first_order) (caller "tenant-1")
              (fst (Validate first_order)) rec) as (g' & r & Hr & Hreply & _).
  - unfold authentic. split_and!; vm_compute; reflexivity.
  - exact E.
  - exact E.
  - by right.
  - exists rec, g', r. split_and!; [reflexivity | exact Hr | exact Hreply].
Defined.
