(* ===== verification/Activation.v ===== *)
(** Policy activation: internal/policy/bundle.go, activation.go and
    activation_key_authorization.go.

    Ed25519 and SHA-256 are parameters ([Crypto]), and so is the RFC 3339 text of an
    instant; hexadecimal and the JSON text that is hashed or signed are modelled, on
    the documents of [CanonicalJSON].  The rules of a bundle are a list, and the nil slice of a
    stored bundle without rules, which would be hashed as null, is not told from the empty
    one: the compiler makes neither, and neither passes [readyForProduction]. *)

From S2P Require Import Prelude Money Intent Policy CanonicalJSON Crypto.

(** * What is hashed and signed *)

(** encoding/json replaces the bytes of a string that are not UTF-8. *)
Fixpoint scrub_bytes (fuel : nat) (l : bytes_t) : bytes_t :=
  match l, fuel with
  | [], _ | _, O => []
  | b :: l1, S f =>
      match after_rune l with
      | Some l' => take (length l - length l') l ++ scrub_bytes f l'
      | None => [239; 191; 189]%nat ++ scrub_bytes f l1
      end
  end.

Definition scrub (s : string) : string :=
  let l := bytes s in str_of_bytes (scrub_bytes (length l) l).

Definition text (s : string) : Doc := DString (scrub s).

(** [omitempty] of a string, a pointer and a slice. *)
Definition omit (k s : string) : list (string * Doc) :=
  if String.eqb s "" then [] else [(k, text s)].

Definition omit_ptr {A} (k : string) (o : option A) (doc : A -> Doc) : list (string * Doc) :=
  match o with None => [] | Some a => [(k, doc a)] end.

Definition omit_list (k : string) (l : list string) : list (string * Doc) :=
  match l with [] => [] | _ => [(k, DArray (map text l))] end.

(** The text of the least amount is not a number, which encoding/json refuses. *)
Definition amount_doc (a : Amount) : Doc :=
  if a =? min_int64 then DOther else DNumber (Amount_String a).

Definition rule_doc (r : CompiledRule) : Doc :=
  DObject ([("id", text (cr_ID r)); ("action", text (cr_Action r))] ++
    omit "when_asset_class" (cr_WhenAssetClass r) ++ omit "when_side" (cr_WhenSide r) ++
    omit "when_order_type" (cr_WhenOrderType r) ++
    omit_list "when_instruments" (cr_WhenInstruments r) ++
    omit_ptr "when_notional_gt" (cr_WhenNotionalGT r) amount_doc ++
    omit_ptr "when_notional_gte" (cr_WhenNotionalGTE r) amount_doc ++
    omit_ptr "when_notional_lt" (cr_WhenNotionalLT r) amount_doc ++
    omit_ptr "when_notional_lte" (cr_WhenNotionalLTE r) amount_doc ++
    omit_ptr "when_extended_hours" (cr_WhenExtendedHours r) DBool ++
    omit_ptr "require_notional_lte" (cr_RequireNotionalLTE r) amount_doc ++
    omit_ptr "require_notional_gte" (cr_RequireNotionalGTE r) amount_doc ++
    [("needs_notional", DBool (cr_NeedsNotional r))]).

Definition hashable_doc (b : Bundle) : Doc :=
  DObject [("bundle_id", text (b_BundleID b)); ("tenant_id", text (b_TenantID b));
           ("policy", text (b_Policy b)); ("version", DNumber (fmt_d (b_Version b)));
           ("rules", DArray (map rule_doc (b_Rules b)))].

(** json.Marshal writes struct fields in declaration order. *)
Definition canonicalBytes (b : Bundle) : option bytes_t := emit (hashable_doc b).

Section Lifecycle.
Context {C : Crypto}.

Definition ComputeHash (b : Bundle) : option string :=
  match canonicalBytes b with
  | None => None
  | Some raw => Some (EncodeToString (sha256 raw))
  end.

Inductive BundleError :=
| ErrCannotSign (s : BundleStatus)
| ErrMarshal
| ErrHashMismatch
| ErrSignatureHex
| ErrSignatureInvalid
| ErrIllegalTransition (from to : BundleStatus)
| ErrNotReady (what : string)
| ErrReasonRequired.

Definition with_activation (b : Bundle) (a : Activation) : Bundle :=
  mkBundle (b_BundleID b) (b_TenantID b) (b_Policy b) (b_Version b) (b_Rules b)
    (b_ContentHash b) (b_Signature b) (b_SignedBy b) (b_CompiledAt b) a.

Definition with_status (a : Activation) (s : BundleStatus) : Activation :=
  mkActivation s (ac_ActivatedAt a) (ac_ActivatedBy a) (ac_RolledBackAt a)
    (ac_RolledBackBy a) (ac_RollbackReason a) (ac_PreviousBundleID a).

Definition Sign (b : Bundle) (key : PrivateKey) (signedBy : string)
    : result Bundle BundleError :=
  let status := ac_Status (b_Activation b) in
  if negb (String.eqb status StatusCompiled) then Err (ErrCannotSign status) else
  match ComputeHash b with
  | None => Err ErrMarshal
  | Some hash =>
      Ok (mkBundle (b_BundleID b) (b_TenantID b) (b_Policy b) (b_Version b) (b_Rules b) hash
            (EncodeToString (sign key (bytes hash))) signedBy (b_CompiledAt b)
            (with_status (b_Activation b) StatusSigned))
  end.

(** [None] is a signature that verifies. *)
Definition VerifySignature (b : Bundle) (pub : bytes_t) : option BundleError :=
  match ComputeHash b with
  | None => Some ErrMarshal
  | Some recomputed =>
      if negb (String.eqb recomputed (b_ContentHash b)) then Some ErrHashMismatch else
      match DecodeString (b_Signature b) with
      | None => Some ErrSignatureHex
      | Some sig => if verify pub (bytes recomputed) sig then None else Some ErrSignatureInvalid
      end
  end.

Definition allowedTransitions (from : BundleStatus) : list BundleStatus :=
  if String.eqb from StatusDraft then [StatusValidated]
  else if String.eqb from StatusValidated then [StatusCompiled]
  else if String.eqb from StatusCompiled then [StatusSigned]
  else if String.eqb from StatusSigned then [StatusSimulated; StatusRolledBack]
  else if String.eqb from StatusSimulated then [StatusShadow; StatusRolledBack]
  else if String.eqb from StatusShadow then [StatusCanary; StatusRolledBack]
  else if String.eqb from StatusCanary then [StatusActive; StatusRolledBack]
  else if String.eqb from StatusActive then [StatusRolledBack]
  else [].

Definition readyForProduction (b : Bundle) : option BundleError :=
  if b_Version b <? 1 then Some (ErrNotReady "version")
  else if String.eqb (b_ContentHash b) "" then Some (ErrNotReady "content hash")
  else if String.eqb (b_Signature b) "" then Some (ErrNotReady "signature")
  else if (length (b_Rules b) =? 0)%nat then Some (ErrNotReady "rules")
  else None.

Definition Transition (b : Bundle) (to : BundleStatus) (at_ : Time) (actor : string)
    : result Bundle BundleError :=
  let a := b_Activation b in
  let from := ac_Status a in
  if negb (contains (allowedTransitions from) to) then Err (ErrIllegalTransition from to) else
  if String.eqb to StatusActive then
    match readyForProduction b with
    | Some e => Err e
    | None =>
        Ok (with_activation b
              (mkActivation to (Some at_) actor (ac_RolledBackAt a) (ac_RolledBackBy a)
                 (ac_RollbackReason a) (ac_PreviousBundleID a)))
    end
  else if String.eqb to StatusRolledBack then
    Ok (with_activation b
          (mkActivation to (ac_ActivatedAt a) (ac_ActivatedBy a) (Some at_) actor
             (ac_RollbackReason a) (ac_PreviousBundleID a)))
  else Ok (with_activation b (with_status a to)).

Definition Rollback (b : Bundle) (at_ : Time) (actor reason : string)
    : result Bundle BundleError :=
  if String.eqb reason "" then Err ErrReasonRequired else
  match Transition b StatusRolledBack at_ actor with
  | Err e => Err e
  | Ok b' =>
      let a := b_Activation b' in
      Ok (with_activation b'
            (mkActivation (ac_Status a) (ac_ActivatedAt a) (ac_ActivatedBy a)
               (ac_RolledBackAt a) (ac_RolledBackBy a) reason (ac_PreviousBundleID a)))
  end.

Definition Enforcing (b : Bundle) : bool := String.eqb (ac_Status (b_Activation b)) StatusActive.
End Lifecycle.

(** * Authorizations *)

Abbreviation ActivationAction := string.
Definition ActionActivate : ActivationAction := "ACTIVATE".
Definition ActionRollback : ActivationAction := "ROLLBACK".
Definition AuthorizationSchemaVersion : string := "v0.1".
Definition AlgorithmEd25519 : string := "Ed25519".

Record Authorization := mkAuthorization {
  az_SchemaVersion : string;
  az_TenantID : string;
  az_BundleID : string;
  az_BundleContentHash : string;
  az_PriorBundleID : string;
  az_PriorBundleContentHash : string;
  az_Action : ActivationAction;
  az_Actor : string;
  az_Reason : string;
  az_AuthorizedAt : Time;
  az_Nonce : string;
  az_Signature : Signature
}.

Definition signature_doc (s : Signature) : Doc :=
  DObject [("algorithm", text (sig_Algorithm s)); ("key_id", text (sig_KeyID s));
           ("value", text (sig_Value s))].

Section Authorizing.
Context {C : Crypto}.
(** The RFC 3339 text of an instant, or a refusal outside its years. *)
Context (rfc3339 : Time -> option string).

Definition time_doc (t : Time) : Doc :=
  match rfc3339 t with Some s => DString s | None => DOther end.

Definition authorization_doc (a : Authorization) : Doc :=
  DObject ([("schema_version", text (az_SchemaVersion a)); ("tenant_id", text (az_TenantID a));
            ("bundle_id", text (az_BundleID a));
            ("bundle_content_hash", text (az_BundleContentHash a))] ++
    omit "prior_bundle_id" (az_PriorBundleID a) ++
    omit "prior_bundle_content_hash" (az_PriorBundleContentHash a) ++
    [("action", text (az_Action a)); ("actor", text (az_Actor a))] ++
    omit "reason" (az_Reason a) ++
    [("authorized_at", time_doc (az_AuthorizedAt a)); ("nonce", text (az_Nonce a));
     ("signature", signature_doc (az_Signature a))]).

Definition Canonical (a : Authorization) : option bytes_t := SignedBytes (authorization_doc a).

(** The stable codes of [ActivationError]; the empty code is no error. *)
Definition Validate (a : Authorization) : string :=
  if negb (String.eqb (az_SchemaVersion a) AuthorizationSchemaVersion) then
    "ACTIVATION_SCHEMA_UNSUPPORTED"
  else if blank (az_TenantID a) then "ACTIVATION_TENANT_MISSING"
  else if blank (az_BundleID a) then "ACTIVATION_BUNDLE_MISSING"
  else if blank (az_BundleContentHash a) then "ACTIVATION_HASH_MISSING"
  else if negb (String.eqb (az_Action a) ActionActivate) &&
          negb (String.eqb (az_Action a) ActionRollback) then "ACTIVATION_ACTION_INVALID"
  else if blank (az_Actor a) then "ACTIVATION_ACTOR_MISSING"
  else if IsZero (az_AuthorizedAt a) then "ACTIVATION_TIME_MISSING"
  else if blank (az_Nonce a) then "ACTIVATION_NONCE_MISSING"
  else if String.eqb (az_Action a) ActionRollback && blank (az_PriorBundleID a) then
    "ACTIVATION_PRIOR_MISSING"
  else if negb (String.eqb (sig_Algorithm (az_Signature a)) AlgorithmEd25519) then
    "ACTIVATION_ALGORITHM_UNSUPPORTED"
  else if blank (sig_KeyID (az_Signature a)) then "ACTIVATION_KEY_ID_MISSING"
  else if blank (sig_Value (az_Signature a)) then "ACTIVATION_SIGNATURE_MISSING"
  else "".

(** Checking a signature over canonical bytes. *)
Definition check_signature (pub : bytes_t) (canonical : option bytes_t) (value : string)
    : string :=
  match DecodeString value with
  | None => "ACTIVATION_SIGNATURE_MALFORMED"
  | Some sig =>
      match canonical with
      | None => "ACTIVATION_CANONICAL_FAILED"
      | Some m => if verify pub m sig then "" else "ACTIVATION_SIGNATURE_INVALID"
      end
  end.

Definition Verify (a : Authorization) (pub : bytes_t) : string :=
  if str_nonempty (Validate a) then Validate a
  else check_signature pub (Canonical a) (sig_Value (az_Signature a)).

Definition Authorizes (a : Authorization) (b : option Bundle) : string :=
  match b with
  | None => "ACTIVATION_NO_BUNDLE"
  | Some b =>
      if negb (String.eqb (az_TenantID a) (b_TenantID b)) then "ACTIVATION_TENANT_MISMATCH"
      else if negb (String.eqb (az_BundleID a) (b_BundleID b)) then "ACTIVATION_BUNDLE_MISMATCH"
      else if negb (String.eqb (az_BundleContentHash a) (b_ContentHash b)) then
        "ACTIVATION_CONTENT_MISMATCH"
      else ""
  end.

(** * Key authorizations *)

Definition ActionRegisterKey : string := "REGISTER_ACTIVATION_KEY".

Record KeyAuthorization := mkKeyAuthorization {
  ka_SchemaVersion : string;
  ka_TenantID : string;
  ka_Action : string;
  ka_SubjectKeyID : string;
  ka_SubjectPublicKey : string;
  ka_SubjectHolder : string;
  ka_SubjectValidFrom : option Time;
  ka_SubjectValidUntil : option Time;
  ka_Actor : string;
  ka_Reason : string;
  ka_AuthorizedAt : Time;
  ka_Nonce : string;
  ka_Signature : Signature
}.

Definition key_authorization_doc (a : KeyAuthorization) : Doc :=
  DObject ([("schema_version", text (ka_SchemaVersion a)); ("tenant_id", text (ka_TenantID a));
            ("action", text (ka_Action a)); ("subject_key_id", text (ka_SubjectKeyID a));
            ("subject_public_key", text (ka_SubjectPublicKey a));
            ("subject_holder", text (ka_SubjectHolder a))] ++
    omit_ptr "subject_valid_from" (ka_SubjectValidFrom a) time_doc ++
    omit_ptr "subject_valid_until" (ka_SubjectValidUntil a) time_doc ++
    [("actor", text (ka_Actor a))] ++ omit "reason" (ka_Reason a) ++
    [("authorized_at", time_doc (ka_AuthorizedAt a)); ("nonce", text (ka_Nonce a));
     ("signature", signature_doc (ka_Signature a))]).

Definition KeyCanonical (a : KeyAuthorization) : option bytes_t :=
  SignedBytes (key_authorization_doc a).

Definition PublicKeySize : nat := 32.
Definition PrivateKeySize : nat := 64.

Definition PublicKey (a : KeyAuthorization) : result bytes_t string :=
  match DecodeString (TrimSpace (ka_SubjectPublicKey a)) with
  | None => Err "ACTIVATION_KEY_MALFORMED"
  | Some k =>
      if (length k =? PrivateKeySize)%nat then Err "ACTIVATION_KEY_IS_PRIVATE"
      else if negb (length k =? PublicKeySize)%nat then Err "ACTIVATION_KEY_MALFORMED"
      else Ok k
  end.

Definition KeyValidate (a : KeyAuthorization) : string :=
  if negb (String.eqb (ka_SchemaVersion a) "v0.1") then "ACTIVATION_SCHEMA_UNSUPPORTED"
  else if blank (ka_TenantID a) then "ACTIVATION_TENANT_MISSING"
  else if negb (String.eqb (ka_Action a) ActionRegisterKey) then "ACTIVATION_ACTION_INVALID"
  else if blank (ka_SubjectKeyID a) then "ACTIVATION_KEY_ID_MISSING"
  else if blank (ka_SubjectHolder a) then "ACTIVATION_HOLDER_MISSING"
  else if blank (ka_Actor a) then "ACTIVATION_ACTOR_MISSING"
  else if IsZero (ka_AuthorizedAt a) then "ACTIVATION_TIME_MISSING"
  else if blank (ka_Nonce a) then "ACTIVATION_NONCE_MISSING"
  else if negb (String.eqb (sig_Algorithm (ka_Signature a)) AlgorithmEd25519) then
    "ACTIVATION_ALGORITHM_UNSUPPORTED"
  else if blank (sig_KeyID (ka_Signature a)) then "ACTIVATION_KEY_ID_MISSING"
  else if blank (sig_Value (ka_Signature a)) then "ACTIVATION_SIGNATURE_MISSING"
  else if match ka_SubjectValidFrom a, ka_SubjectValidUntil a with
          | Some from, Some until => negb (After until from) | _, _ => false end then
    "ACTIVATION_WINDOW_EMPTY"
  else if String.eqb (sig_KeyID (ka_Signature a)) (TrimSpace (ka_SubjectKeyID a)) then
    "ACTIVATION_KEY_SELF_SIGNED"
  else match PublicKey a with Err e => e | Ok _ => "" end.

Definition KeyVerify (a : KeyAuthorization) (pub : bytes_t) : string :=
  if str_nonempty (KeyValidate a) then KeyValidate a
  else check_signature pub (KeyCanonical a) (sig_Value (ka_Signature a)).
End Authorizing.

(** * Facts about the texts *)

(** ** Valid strings are kept *)

Definition utf8 (s : string) : Prop := ValidString s = true.

Lemma after_rune_suffix l l' : after_rune l = Some l' -> exists p, p <> [] /\ l = p ++ l'.
Proof.
  unfold after_rune. intros H. inv_all H; simplify_eq.
  all: match goal with
  | |- exists p, _ /\ ?a :: ?b :: ?c :: ?d :: ?l = p ++ ?l => by exists [a; b; c; d]
  | |- exists p, _ /\ ?a :: ?b :: ?c :: ?l = p ++ ?l => by exists [a; b; c]
  | |- exists p, _ /\ ?a :: ?b :: ?l = p ++ ?l => by exists [a; b]
  | |- exists p, _ /\ ?a :: ?l = p ++ ?l => by exists [a]
  end.
Qed.

Lemma scrub_valid fuel l : valid_utf8 fuel l = true -> scrub_bytes fuel l = l.
Proof.
  revert l. induction fuel as [|f IH]; intros [|b l1]; cbn [valid_utf8 scrub_bytes]; try done.
  destruct (after_rune (b :: l1)) as [l'|] eqn:E; [|done]. intros H.
  destruct (after_rune_suffix _ _ E) as (p & _ & Hp). rewrite (IH _ H), Hp.
  rewrite length_app. replace (length p + length l' - length l')%nat with (length p) by lia.
  by rewrite take_app_length.
Qed.

Lemma scrub_utf8 s : utf8 s -> scrub s = s.
Proof.
  intros H. unfold scrub. rewrite scrub_valid by exact H. apply str_of_bytes_bytes.
Qed.

(** ** Number texts *)

Lemma bytes_forall (p : Ascii.ascii -> bool) (q : nat -> bool) s :
  (forall c, p c = true -> q (Ascii.nat_of_ascii c) = true) ->
  str_forall p s = true -> forallb q (bytes s) = true.
Proof.
  intros Hpq. induction s as [|c s IH]; cbn; [done|]. intros H.
  apply andb_true_iff in H as [Hc Hs]. rewrite (Hpq c Hc). by apply IH.
Qed.

Lemma digit_between c : is_digit c = true -> between 48 57 (Ascii.nat_of_ascii c) = true.
Proof. done. Qed.

Lemma literal_number_byte c :
  literal_byte c = true -> number_byte (Ascii.nat_of_ascii c) = true.
Proof.
  unfold literal_byte, number_byte. intros H. apply orb_true_iff in H as [H|H].
  - apply orb_true_iff in H as [H|H]; [by rewrite (digit_between c H)|].
    apply Ascii.eqb_eq in H as ->. reflexivity.
  - apply Ascii.eqb_eq in H as ->. reflexivity.
Qed.

Lemma number_literal_intro c s :
  is_digit c = true \/ c = "-"%char -> str_forall literal_byte (String c s) = true ->
  number_literal (String c s) = true.
Proof.
  intros Hc Hs. pose proof (bytes_forall literal_byte number_byte _ literal_number_byte Hs) as Hb.
  unfold number_literal. change (bytes (String c s)) with (Ascii.nat_of_ascii c :: bytes s) in *.
  cbv beta iota. rewrite Hb, andb_true_r. destruct Hc as [Hc| ->]; [by rewrite (digit_between c Hc) | reflexivity].
Qed.

Lemma literal_number negative w f has :
  w <> "" -> str_forall is_digit w = true -> (has = true -> str_forall is_digit f = true) ->
  number_literal (literal negative w f has) = true.
Proof.
  intros Hne Hw Hf. pose proof (literal_bytes negative w f has Hw Hf) as Hl.
  unfold literal in *. destruct negative; cbn [sign_text] in *.
  - by apply number_literal_intro; [right|].
  - destruct w as [|c w]; [done|]. apply number_literal_intro; [left | done].
    cbn in Hw. by apply andb_true_iff in Hw as [? _].
Qed.

Lemma Amount_number a : - max_int64 <= a <= max_int64 -> number_literal (Amount_String a) = true.
Proof.
  intros Ha. rewrite (Amount_String_literal a Ha).
  destruct (itoa_spec (Z.abs a / 10000)) as (Hd & _ & Hne); [apply Z.div_pos; lia|].
  apply literal_number; [done..|]. intros _. apply pad_left_digits.
  apply itoa_spec. apply Z.mod_pos_bound. lia.
Qed.

Lemma fmt_d_number n : 0 <= n -> number_literal (fmt_d n) = true.
Proof.
  intros Hn. rewrite fmt_d_nonneg by done. destruct (itoa_spec n Hn) as (Hd & _ & Hne).
  pose proof (literal_number false (itoa n) "" false Hne Hd ltac:(done)) as H.
  unfold literal in H. cbn [sign_text] in H. by rewrite append_nil_r in H.
Qed.

(** ** Amounts whose text is exact *)

Definition printable (a : Amount) : Prop := Z.abs a < parse_limit Scale.

Lemma printable_range a : printable a -> - max_int64 <= a <= max_int64 /\ a <> min_int64.
Proof.
  unfold printable. change (parse_limit Scale) with 4611686018427390000. intros.
  unfold max_int64, min_int64. lia.
Qed.

Lemma amount_doc_spec a : printable a ->
  amount_doc a = DNumber (Amount_String a) /\ well_formed (amount_doc a) = true.
Proof.
  intros H. apply printable_range in H as [Hr Hne]. unfold amount_doc.
  destruct (Z.eqb_spec a min_int64); [done|]. split; [done|]. by apply Amount_number.
Qed.

Lemma amount_doc_inj a b : printable a -> printable b -> amount_doc a = amount_doc b -> a = b.
Proof.
  intros Ha Hb H. rewrite (proj1 (amount_doc_spec a Ha)), (proj1 (amount_doc_spec b Hb)) in H.
  injection H as H. pose proof (Amount_roundtrip' a Ha) as H1.
  pose proof (Amount_roundtrip' b Hb) as H2. rewrite H, H2 in H1. congruence.
Qed.

(** ** Members by key *)

Fixpoint field (k : string) (l : list (string * Doc)) : option Doc :=
  match l with
  | [] => None
  | (k', d) :: l' => if String.eqb k' k then Some d else field k l'
  end.

Lemma field_app k l1 l2 :
  field k (l1 ++ l2) = match field k l1 with Some d => Some d | None => field k l2 end.
Proof.
  induction l1 as [|[k' d] l1 IH]; cbn [field app]; [done|]. by destruct (String.eqb k' k).
Qed.

Definition opt_text (s : string) : option Doc :=
  if String.eqb s "" then None else Some (text s).

Lemma field_omit k k' s :
  field k (omit k' s) = if String.eqb k' k then opt_text s else None.
Proof.
  unfold omit, opt_text. destruct (String.eqb s ""); cbn [field]; by destruct (String.eqb k' k).
Qed.

Lemma field_omit_ptr {A} k k' (o : option A) doc :
  field k (omit_ptr k' o doc) = if String.eqb k' k then option_map doc o else None.
Proof. destruct o; cbn [omit_ptr field option_map]; by destruct (String.eqb k' k). Qed.

Definition opt_list (l : list string) : option Doc :=
  match l with [] => None | _ => Some (DArray (map text l)) end.

Lemma field_omit_list k k' l :
  field k (omit_list k' l) = if String.eqb k' k then opt_list l else None.
Proof. destruct l; cbn [omit_list field opt_list]; by destruct (String.eqb k' k). Qed.

Lemma match_id {A} (o : option A) : match o with Some d => Some d | None => None end = o.
Proof. by destruct o. Qed.

(** Compute one member of a document given as pieces. *)
Ltac field_of k H :=
  let F := fresh "F" in
  pose proof (f_equal (field k) H) as F;
  rewrite ?field_app, ?field_omit, ?field_omit_ptr, ?field_omit_list in F;
  cbn [field String.eqb Ascii.eqb Bool.eqb] in F; rewrite ?match_id in F.

Lemma text_inj s1 s2 : utf8 s1 -> utf8 s2 -> text s1 = text s2 -> s1 = s2.
Proof. intros H1 H2 H. injection H as H. by rewrite !scrub_utf8 in H. Qed.

Lemma opt_text_inj s1 s2 : utf8 s1 -> utf8 s2 -> opt_text s1 = opt_text s2 -> s1 = s2.
Proof.
  unfold opt_text. intros H1 H2.
  destruct (String.eqb_spec s1 ""), (String.eqb_spec s2 ""); intros H; try congruence.
  injection H as H. rewrite !scrub_utf8 in H; done.
Qed.

Lemma texts_inj l1 l2 :
  Forall utf8 l1 -> Forall utf8 l2 -> map text l1 = map text l2 -> l1 = l2.
Proof.
  intros H1. revert l2. induction H1 as [|s l Hs _ IH]; intros [|s2 l2] H2 Heq; try done.
  apply Forall_cons in H2 as [Hs2 H2]. cbn in Heq. injection Heq as Hd Heq.
  rewrite !scrub_utf8 in Hd by done. subst. f_equal. by apply IH.
Qed.

Lemma opt_list_inj l1 l2 : Forall utf8 l1 -> Forall utf8 l2 -> opt_list l1 = opt_list l2 -> l1 = l2.
Proof.
  intros H1 H2 H. apply texts_inj; [done..|]. destruct l1, l2; try done.
  unfold opt_list in H. congruence.
Qed.

Definition opt_printable (o : option Amount) : Prop := forall a, o = Some a -> printable a.

Lemma opt_amount_inj o1 o2 : opt_printable o1 -> opt_printable o2 ->
  option_map amount_doc o1 = option_map amount_doc o2 -> o1 = o2.
Proof.
  intros H1 H2. destruct o1, o2; cbn; intros H; try done. injection H as H.
  apply amount_doc_inj in H; [by subst | by apply H1 | by apply H2].
Qed.

Lemma opt_bool_inj (o1 o2 : option bool) : option_map DBool o1 = option_map DBool o2 -> o1 = o2.
Proof. destruct o1, o2; cbn; congruence. Qed.

(** * The content hash covers what is enforced *)

Record rule_printable (r : CompiledRule) : Prop := {
  rp_text : Forall utf8 [cr_ID r; cr_Action r; cr_WhenAssetClass r; cr_WhenSide r;
                         cr_WhenOrderType r];
  rp_instruments : Forall utf8 (cr_WhenInstruments r);
  rp_amounts : Forall opt_printable (map snd (thresholds r))
}.

Record bundle_printable (b : Bundle) : Prop := {
  bp_text : Forall utf8 [b_BundleID b; b_TenantID b; b_Policy b];
  bp_version : 0 <= b_Version b;
  bp_rules : Forall rule_printable (b_Rules b)
}.

Definition members (d : Doc) : list (string * Doc) :=
  match d with DObject l => l | _ => [] end.

Lemma some_text_inj s1 s2 : utf8 s1 -> utf8 s2 -> Some (text s1) = Some (text s2) -> s1 = s2.
Proof. intros H1 H2 H. injection H as H. by rewrite !scrub_utf8 in H. Qed.

Lemma some_bool_inj b1 b2 : Some (DBool b1) = Some (DBool b2) -> b1 = b2.
Proof. congruence. Qed.

Ltac split_all := repeat match goal with
  | H : Forall _ (_ :: _) |- _ => apply Forall_cons in H as [? H]
  end.

Ltac by_field k H :=
  field_of k H;
  match goal with F : _ = _ |- _ =>
    first [ refine (some_text_inj _ _ _ _ F); assumption
          | refine (opt_text_inj _ _ _ _ F); assumption
          | refine (opt_amount_inj _ _ _ _ F); assumption
          | refine (opt_list_inj _ _ _ _ F); assumption
          | exact (opt_bool_inj _ _ F) | exact (some_bool_inj _ _ F) ]
  end.

Lemma rule_ext r1 r2 :
  cr_ID r1 = cr_ID r2 ->
  cr_Action r1 = cr_Action r2 ->
  cr_WhenAssetClass r1 = cr_WhenAssetClass r2 ->
  cr_WhenSide r1 = cr_WhenSide r2 ->
  cr_WhenOrderType r1 = cr_WhenOrderType r2 ->
  cr_WhenInstruments r1 = cr_WhenInstruments r2 ->
  cr_WhenNotionalGT r1 = cr_WhenNotionalGT r2 ->
  cr_WhenNotionalGTE r1 = cr_WhenNotionalGTE r2 ->
  cr_WhenNotionalLT r1 = cr_WhenNotionalLT r2 ->
  cr_WhenNotionalLTE r1 = cr_WhenNotionalLTE r2 ->
  cr_WhenExtendedHours r1 = cr_WhenExtendedHours r2 ->
  cr_RequireNotionalLTE r1 = cr_RequireNotionalLTE r2 ->
  cr_RequireNotionalGTE r1 = cr_RequireNotionalGTE r2 ->
  cr_NeedsNotional r1 = cr_NeedsNotional r2 ->
  r1 = r2.
Proof. destruct r1, r2. cbn. intros. subst. reflexivity. Qed.

Lemma rule_doc_inj r1 r2 :
  rule_printable r1 -> rule_printable r2 -> rule_doc r1 = rule_doc r2 -> r1 = r2.
Proof.
  intros [T1 I1 A1] [T2 I2 A2] H. unfold thresholds in A1, A2. cbn [map snd] in A1, A2.
  split_all. apply (f_equal members) in H. unfold rule_doc, members in H.
  apply rule_ext.
  - by_field "id" H.
  - by_field "action" H.
  - by_field "when_asset_class" H.
  - by_field "when_side" H.
  - by_field "when_order_type" H.
  - by_field "when_instruments" H.
  - by_field "when_notional_gt" H.
  - by_field "when_notional_gte" H.
  - by_field "when_notional_lt" H.
  - by_field "when_notional_lte" H.
  - by_field "when_extended_hours" H.
  - by_field "require_notional_lte" H.
  - by_field "require_notional_gte" H.
  - by_field "needs_notional" H.
Qed.

Lemma rules_inj l1 l2 :
  Forall rule_printable l1 -> Forall rule_printable l2 -> map rule_doc l1 = map rule_doc l2 ->
  l1 = l2.
Proof.
  intros H1. revert l2. induction H1 as [|r l Hr _ IH]; intros [|r2 l2] H2 Heq; try done.
  apply Forall_cons in H2 as [Hr2 H2]. cbn [map] in Heq.
  assert (Hd : rule_doc r = rule_doc r2) by congruence.
  assert (Hl : map rule_doc l = map rule_doc l2) by congruence.
  f_equal; [by apply rule_doc_inj | by apply IH].
Qed.

Lemma forallb_app' {A} (p : A -> bool) l1 l2 :
  forallb p (l1 ++ l2) = forallb p l1 && forallb p l2.
Proof. induction l1; cbn; [done|]. by rewrite IHl1, andb_assoc. Qed.

Definition member_wf (x : string * Doc) : bool := well_formed (snd x).

Lemma well_formed_object l : well_formed (DObject l) = forallb member_wf l.
Proof. cbn. induction l as [|[k d] l IH]; cbn; [done|]. by rewrite IH. Qed.

Lemma omit_wf k s : forallb member_wf (omit k s) = true.
Proof. unfold omit. by destruct (String.eqb s ""). Qed.

Lemma omit_list_wf k l : forallb member_wf (omit_list k l) = true.
Proof.
  destruct l as [|s l]; [done|]. cbn. rewrite andb_true_r. by induction l.
Qed.

Lemma omit_amount_wf k o : opt_printable o -> forallb member_wf (omit_ptr k o amount_doc) = true.
Proof.
  destruct o as [a|]; [|done]. intros H. cbn [omit_ptr forallb]. unfold member_wf. cbn [snd].
  rewrite (proj2 (amount_doc_spec a (H a eq_refl))). done.
Qed.

Lemma rule_doc_wf r : rule_printable r -> well_formed (rule_doc r) = true.
Proof.
  intros [_ _ A]. unfold thresholds in A. cbn [map snd] in A. split_all. unfold rule_doc.
  rewrite well_formed_object, !forallb_app', !omit_wf, omit_list_wf, !omit_amount_wf by done.
  cbn. by destruct (cr_WhenExtendedHours r).
Qed.

Lemma hashable_doc_wf b : bundle_printable b -> well_formed (hashable_doc b) = true.
Proof.
  intros [_ Hv Hr]. unfold hashable_doc. rewrite well_formed_object. unfold member_wf.
  cbn [forallb snd well_formed text]. rewrite (fmt_d_number _ Hv). cbn [andb].
  rewrite andb_true_r. rewrite forallb_map'. induction Hr as [|r l Hr _ IH]; cbn [forallb]; [done|].
  by rewrite (rule_doc_wf r Hr).
Qed.

(** What a bundle enforces, and under what name. *)
Definition content (b : Bundle) : string * string * string * Z * list CompiledRule :=
  (b_BundleID b, b_TenantID b, b_Policy b, b_Version b, b_Rules b).

Lemma canonicalBytes_inj b1 b2 raw :
  bundle_printable b1 -> bundle_printable b2 ->
  canonicalBytes b1 = Some raw -> canonicalBytes b2 = Some raw -> content b1 = content b2.
Proof.
  intros P1 P2 H1 H2.
  pose proof (emit_inj _ _ raw (hashable_doc_wf b1 P1) (hashable_doc_wf b2 P2) H1 H2) as H.
  destruct P1 as [T1 V1 R1], P2 as [T2 V2 R2]. split_all.
  apply (f_equal members) in H. unfold hashable_doc, members in H. unfold content.
  assert (b_BundleID b1 = b_BundleID b2) as -> by by_field "bundle_id" H.
  assert (b_TenantID b1 = b_TenantID b2) as -> by by_field "tenant_id" H.
  assert (b_Policy b1 = b_Policy b2) as -> by by_field "policy" H.
  field_of "version" H. injection F as F. apply fmt_d_inj in F as ->; [|done..].
  field_of "rules" H. injection F as F. apply rules_inj in F as ->; done.
Qed.

Lemma canonicalBytes_content b1 b2 :
  content b1 = content b2 -> canonicalBytes b1 = canonicalBytes b2.
Proof. intros H. unfold content in H. unfold canonicalBytes, hashable_doc. congruence. Qed.

(** The hashed bytes cover exactly what a bundle enforces: two bundles have the
    same canonical bytes exactly when they agree on identifier, tenant, policy,
    version and rules; promotion, signature and activation metadata are outside
    it, so moving a bundle along its lifecycle never changes its identity. *)
Theorem canonicalBytes_covers_content (b1 b2 : Bundle) (raw : bytes_t) :
  bundle_printable b1 -> bundle_printable b2 -> canonicalBytes b1 = Some raw ->
  canonicalBytes b2 = Some raw <-> content b1 = content b2.
Proof.
  intros P1 P2 H1. split; [by apply canonicalBytes_inj|].
  intros H. by rewrite <- (canonicalBytes_content _ _ H).
Qed.

(** * The lifecycle *)

Section LifecycleFacts.
Context {C : Crypto} {CL : CryptoLaws}.

Inductive bop :=
| BSign (key : PrivateKey) (signedBy : string)
| BTransition (to : BundleStatus) (at_ : Time) (actor : string)
| BRollback (at_ : Time) (actor reason : string).

(** A refused operation leaves the bundle alone. *)
Definition bstep (b : Bundle) (op : bop) : Bundle :=
  match (match op with
         | BSign key by_ => Sign b key by_
         | BTransition to at_ actor => Transition b to at_ actor
         | BRollback at_ actor reason => Rollback b at_ actor reason
         end) with
  | Ok b' => b'
  | Err _ => b
  end.

Definition status (b : Bundle) : BundleStatus := ac_Status (b_Activation b).

(** Not signed yet, or signed by a key of the history over the content. *)
Definition signed_by (keys : list PrivateKey) (b : Bundle) : Prop :=
  (b_ContentHash b = "" /\ b_Signature b = "") \/
  (exists key hash, In key keys /\ ComputeHash b = Some hash /\ b_ContentHash b = hash /\
     b_Signature b = EncodeToString (sign key (bytes hash))).

Definition step_keys (op : bop) : list PrivateKey :=
  match op with BSign key _ => [key] | _ => [] end.

Lemma ComputeHash_content b1 b2 : content b1 = content b2 -> ComputeHash b1 = ComputeHash b2.
Proof. intros H. unfold ComputeHash. by rewrite (canonicalBytes_content _ _ H). Qed.

(** What one step does. *)
Record bstep_effect (b b' : Bundle) (keys : list PrivateKey) : Prop := {
  be_content : content b' = content b;
  be_status : status b' = status b \/ In (status b') (allowedTransitions (status b));
  be_sealed : (b_ContentHash b' = b_ContentHash b /\ b_Signature b' = b_Signature b) \/
    signed_by keys b';
  be_ready : status b' = StatusActive -> status b <> StatusActive -> readyForProduction b = None
}.

Lemma Transition_effect b to at_ actor b' :
  Transition b to at_ actor = Ok b' ->
  content b' = content b /\ status b' = to /\ In to (allowedTransitions (status b)) /\
  b_ContentHash b' = b_ContentHash b /\ b_Signature b' = b_Signature b /\
  (to = StatusActive -> readyForProduction b = None).
Proof.
  unfold Transition. fold (status b). destruct (contains _ to) eqn:Ec; [|done]. cbn [negb].
  apply contains_spec, list_elem_of_In in Ec.
  destruct (String.eqb_spec to StatusActive) as [->|Hna].
  - destruct (readyForProduction b) eqn:Er; [done|]. intros [= <-]. by split_and!.
  - destruct (String.eqb_spec to StatusRolledBack) as [->|Hnr]; intros [= <-]; by split_and!.
Qed.

Lemma bstep_effects b op : bstep_effect b (bstep b op) (step_keys op).
Proof.
  assert (Hid : forall keys, bstep_effect b b keys).
  { intros. constructor; [done | by left | by left | by intros ? []]. }
  assert (Htr : forall to at_ actor b' keys, Transition b to at_ actor = Ok b' ->
            bstep_effect b b' keys).
  { intros to at_ actor b' keys H. apply Transition_effect in H as (Hc & Hs & Hin & Hh & Hg & Hr).
    constructor; [done | right; by rewrite Hs | by left |]. rewrite Hs. auto. }
  destruct op as [key by_|to at_ actor|at_ actor reason]; unfold bstep; cbn [step_keys].
  - unfold Sign. fold (status b).
    destruct (String.eqb_spec (status b) StatusCompiled) as [Hs|]; [|apply Hid]. cbn [negb].
    destruct (ComputeHash b) as [hash|] eqn:Eh; [|apply Hid].
    assert (Hc : ComputeHash (mkBundle (b_BundleID b) (b_TenantID b) (b_Policy b) (b_Version b)
      (b_Rules b) hash (EncodeToString (sign key (bytes hash))) by_ (b_CompiledAt b)
      (with_status (b_Activation b) StatusSigned)) = Some hash).
    { rewrite <- Eh. by apply ComputeHash_content. }
    constructor; [done | right; rewrite Hs; by left | | done].
    right. right. exists key, hash. split_and!; [by left | done..].
  - destruct (Transition b to at_ actor) eqn:E; [by eapply Htr | apply Hid].
  - unfold Rollback. destruct (String.eqb reason ""); [apply Hid|].
    destruct (Transition b StatusRolledBack at_ actor) as [b1|] eqn:E; [|apply Hid].
    apply (Htr _ _ _ _ []) in E as [E1 E2 E3 E4]. constructor; [exact E1 | exact E2 | | exact E4].
    destruct E3 as [E3|[E3|(k & h & [] & _)]]; [by left|]. right. by left.
Qed.

(** The pipeline, and how far along it a status is. *)
Definition pipeline : list BundleStatus :=
  [StatusCompiled; StatusSigned; StatusSimulated; StatusShadow; StatusCanary; StatusActive].

Lemma allowed_next from to :
  In from (StatusRolledBack :: pipeline) -> In to (allowedTransitions from) ->
  to = StatusRolledBack \/
  exists pre post, pipeline = pre ++ from :: to :: post.
Proof.
  cbn [pipeline In]. intros H Hto.
  destruct H as [<-|[<-|[<-|[<-|[<-|[<-|[<-|[]]]]]]]]; cbn in Hto;
    repeat (destruct Hto as [<-|Hto]); try done; try (by left); right.
  - by exists [], [StatusSimulated; StatusShadow; StatusCanary; StatusActive].
  - by exists [StatusCompiled], [StatusShadow; StatusCanary; StatusActive].
  - by exists [StatusCompiled; StatusSigned], [StatusCanary; StatusActive].
  - by exists [StatusCompiled; StatusSigned; StatusSimulated], [StatusActive].
  - by exists [StatusCompiled; StatusSigned; StatusSimulated; StatusShadow], [].
Qed.

(** The bundle had status [s] at some point of the history. *)
Definition visited (b0 : Bundle) (ops : list bop) (s : BundleStatus) : Prop :=
  exists ops1 ops2, ops = ops1 ++ ops2 /\ status (run_ops bstep b0 ops1) = s.

Lemma visited_snoc b0 ops op s : visited b0 ops s -> visited b0 (ops ++ [op]) s.
Proof. intros (o1 & o2 & -> & H). exists o1, (o2 ++ [op]). by rewrite app_assoc. Qed.

Record lifecycle_ok (b0 : Bundle) (ops : list bop) (b : Bundle) : Prop := {
  lo_content : content b = content b0;
  lo_signed : signed_by (concat (map step_keys ops)) b;
  lo_place : status b = StatusRolledBack \/
    exists pre post, pipeline = pre ++ status b :: post /\ Forall (visited b0 ops) pre;
  lo_ready : status b = StatusActive -> readyForProduction b = None
}.

Lemma nodup_split {A} (s : A) p p' q q' :
  NoDup (p ++ s :: q) -> p ++ s :: q = p' ++ s :: q' -> p = p' /\ q = q'.
Proof.
  revert p'. induction p as [|a p IH]; intros [|b p']; cbn; intros Hnd Heq.
  - split; congruence.
  - injection Heq as <- ->. inversion Hnd as [|? ? Hno _]. set_solver.
  - injection Heq as -> <-. inversion Hnd as [|? ? Hno _]. set_solver.
  - injection Heq as -> Heq. inversion Hnd as [|? ? _ Hnd']; subst.
    destruct (IH p' Hnd' Heq) as [-> ->]. done.
Qed.

Lemma pipeline_nodup : NoDup pipeline.
Proof. repeat constructor; set_solver. Qed.

Lemma pipeline_in s pre post : pipeline = pre ++ s :: post -> In s (StatusRolledBack :: pipeline).
Proof. intros H. right. rewrite H. apply in_or_app. right. by left. Qed.

Lemma signed_by_mono keys keys' b b' :
  content b' = content b -> b_ContentHash b' = b_ContentHash b -> b_Signature b' = b_Signature b ->
  signed_by keys b -> signed_by (keys ++ keys') b'.
Proof.
  intros Hc Hh Hs [[H1 H2]|(k & h & Hin & H1 & H2 & H3)].
  - left. by rewrite Hh, Hs.
  - right. exists k, h. rewrite Hh, Hs, (ComputeHash_content _ _ Hc).
    split_and!; try done. apply in_or_app. by left.
Qed.

Lemma readyForProduction_same b b' :
  content b' = content b -> b_ContentHash b' = b_ContentHash b -> b_Signature b' = b_Signature b ->
  readyForProduction b' = readyForProduction b.
Proof.
  unfold content, readyForProduction. intros H Hh Hg. injection H as _ _ _ Hv Hr.
  by rewrite Hv, Hr, Hh, Hg.
Qed.

Lemma lifecycle_step b0 ops op b :
  b = run_ops bstep b0 ops -> lifecycle_ok b0 ops b ->
  lifecycle_ok b0 (ops ++ [op]) (bstep b op).
Proof.
  intros Hb [Lc Ls Lp Lr]. destruct (bstep_effects b op) as [Ec Es Eh Er].
  assert (Hpos : status b = StatusRolledBack \/
    exists pre post, pipeline = pre ++ status b :: post /\
      Forall (visited b0 (ops ++ [op])) (pre ++ [status b])).
  { destruct Lp as [|(pre & post & Hp & Hv)]; [by left|]. right. exists pre, post.
    split; [done|]. apply Forall_app. split.
    - eapply Forall_impl; [exact Hv|]. apply visited_snoc.
    - repeat constructor. exists ops, [op]. by rewrite <- Hb. }
  constructor.
  - congruence.
  - rewrite map_app, concat_app. cbn [map concat]. rewrite app_nil_r.
    destruct Eh as [[Hh Hg]|Hsig].
    + by eapply signed_by_mono.
    + destruct Hsig as [H|(k & h & Hin & H)]; [by left|]. right. exists k, h.
      split; [|done]. apply in_or_app. by right.
  - destruct Es as [->|Hin].
    { destruct Hpos as [|(pre & post & Hp & Hv)]; [by left|]. right. exists pre, post.
      split; [done|]. by apply Forall_app in Hv as [? _]. }
    destruct Hpos as [Hrb|(pre & post & Hp & Hv)]; [by rewrite Hrb in Hin|].
    destruct (allowed_next _ _ (pipeline_in _ _ _ Hp) Hin) as [->|(pre' & post' & Hp')];
      [by left|]. right.
    destruct (nodup_split (status b) pre pre' post (status (bstep b op) :: post')) as [<- ->].
    { rewrite <- Hp. apply pipeline_nodup. }
    { by rewrite <- Hp, <- Hp'. }
    exists (pre ++ [status b]), post'. split; [|done]. by rewrite <- app_assoc.
  - intros Hact. destruct (String.eqb_spec (status b) StatusActive) as [Ha|Hna].
    + assert (Hsame : b_ContentHash (bstep b op) = b_ContentHash b /\
                      b_Signature (bstep b op) = b_Signature b).
      { destruct Eh as [|Hsig]; [done|]. destruct op; unfold bstep, Sign in *.
        - fold (status b) in *. rewrite Ha in *. done.
        - destruct (Transition b to at_ actor) eqn:E; [|done].
          apply Transition_effect in E. tauto.
        - unfold Rollback in *. destruct (String.eqb reason ""); [done|].
          destruct (Transition b StatusRolledBack at_ actor) eqn:E; [|done].
          apply Transition_effect in E. cbn in *. tauto. }
      rewrite (readyForProduction_same b (bstep b op)); [by apply Lr | done | tauto..].
    + pose proof (Er Hact Hna) as Hr. destruct Eh as [[Hh Hg]|Hsig].
      * by rewrite (readyForProduction_same b (bstep b op)).
      * (* Only Sign reseals, and it does not activate. *)
        destruct op; unfold bstep, Sign in *.
        -- fold (status b) in *. destruct (String.eqb (status b) StatusCompiled); [|done].
           destruct (ComputeHash b); done.
        -- destruct (Transition b to at_ actor) eqn:E; [|done].
           apply Transition_effect in E as (Hc & _ & _ & Hh & Hg & _).
           by rewrite (readyForProduction_same b a).
        -- unfold Rollback in *. destruct (String.eqb reason ""); [done|].
           destruct (Transition b StatusRolledBack at_ actor) eqn:E; [|done].
           apply Transition_effect in E as (Hc & Hst & _ & Hh & Hg & _). cbn in Hact.
           unfold status in Hst. rewrite Hst in Hact. done.
Qed.

Lemma lifecycle_run b0 ops :
  status b0 = StatusCompiled -> b_ContentHash b0 = "" -> b_Signature b0 = "" ->
  lifecycle_ok b0 ops (run_ops bstep b0 ops).
Proof.
  intros Hs Hh Hg. induction ops as [|op ops IH] using rev_ind.
  - change (run_ops bstep b0 []) with b0.
    constructor; [done | by left | | by rewrite Hs]. right. rewrite Hs.
    exists [], [StatusSigned; StatusSimulated; StatusShadow; StatusCanary; StatusActive].
    split; [done | constructor].
  - rewrite run_ops_app. by apply lifecycle_step.
Qed.

Lemma VerifySignature_signed keys b :
  readyForProduction b = None -> signed_by keys b ->
  exists key, In key keys /\ VerifySignature b (public key) = None.
Proof.
  intros Hr [[Hh _]|(key & hash & Hin & Hc & Hh & Hsig)].
  - unfold readyForProduction in Hr. rewrite Hh in Hr. cbn in Hr.
    by destruct (b_Version b <? 1).
  - exists key. split; [done|]. unfold VerifySignature.
    rewrite Hc, Hh, String.eqb_refl. cbn [negb].
    rewrite Hsig, (DecodeString_encode _ (sign_bytes key _)). by rewrite verify_sign.
Qed.

(** A bundle enforces only at the end of the pipeline: whatever is tried on a
    compiled bundle, in any order, if it ends ACTIVE then it passed through
    COMPILE, SIGN, SIMULATE, SHADOW and CANARY, its content is unchanged, it has a
    version and rules, and its signature verifies against the key that signed it. *)
Theorem active_went_through_pipeline (b0 : Bundle) (ops : list bop) :
  status b0 = StatusCompiled -> b_ContentHash b0 = "" -> b_Signature b0 = "" ->
  Enforcing (run_ops bstep b0 ops) = true ->
  Forall (visited b0 ops)
    [StatusCompiled; StatusSigned; StatusSimulated; StatusShadow; StatusCanary] /\
  content (run_ops bstep b0 ops) = content b0 /\
  1 <= b_Version b0 /\ b_Rules b0 <> [] /\
  exists key, In key (concat (map step_keys ops)) /\
    VerifySignature (run_ops bstep b0 ops) (public key) = None.
Proof.
  intros Hs Hh Hg Hact. apply String.eqb_eq in Hact. fold (status (run_ops bstep b0 ops)) in Hact.
  destruct (lifecycle_run b0 ops Hs Hh Hg) as [Lc Ls Lp Lr]. specialize (Lr Hact).
  split_and!.
  - destruct Lp as [Hrb|(pre & post & Hp & Hv)]; [by rewrite Hact in Hrb|]. rewrite Hact in Hp.
    destruct (nodup_split StatusActive
      [StatusCompiled; StatusSigned; StatusSimulated; StatusShadow; StatusCanary] pre [] post)
      as [Hpre _]; [apply pipeline_nodup | exact Hp |]. by rewrite Hpre.
  - done.
  - unfold content in Lc. unfold readyForProduction in Lr. inv_all Lr. b2p.
    injection Lc as _ _ _ <- _. lia.
  - unfold content in Lc. unfold readyForProduction in Lr. inv_all Lr. b2p.
    injection Lc as _ _ _ _ <-. intros Hnil. rewrite Hnil in *. done.
  - by apply VerifySignature_signed.
Qed.

Lemma rolled_back_step b op : status b = StatusRolledBack -> bstep b op = b.
Proof.
  intros Hs. unfold status in Hs.
  destruct op; unfold bstep, Sign, Rollback, Transition; rewrite Hs; [done..|].
  by destruct (String.eqb reason "").
Qed.

(** ROLLED_BACK is terminal: no operation changes a rolled-back bundle, so a
    retired policy is never resurrected. *)
Theorem rolled_back_is_terminal (b : Bundle) (ops : list bop) :
  status b = StatusRolledBack -> run_ops bstep b ops = b.
Proof.
  intros Hs. induction ops as [|op ops IH]; [done|]. cbn [run_ops foldl] in *.
  by rewrite rolled_back_step.
Qed.
End LifecycleFacts.

(** * What an authorization's signature covers *)

Section Coverage.
Context (rfc3339 : Time -> option string).
Hypothesis rfc3339_inj : forall t1 t2 s, rfc3339 t1 = Some s -> rfc3339 t2 = Some s -> t1 = t2.

Lemma field_in k l d : field k l = Some d -> In (k, d) l.
Proof.
  induction l as [|[k' d'] l IH]; cbn [field]; [done|].
  destruct (String.eqb_spec k' k) as [->|]; [intros [= ->]; by left | right; auto].
Qed.

Lemma field_nodup k l d : NoDup (map fst l) -> In (k, d) l -> field k l = Some d.
Proof.
  induction l as [|[k' d'] l IH]; cbn [field map fst]; [done|]. intros Hnd [Heq|Hin].
  - injection Heq as -> ->. by rewrite String.eqb_refl.
  - inversion Hnd as [|? ? Hno Hnd']; subst. destruct (String.eqb_spec k' k) as [->|]; [|auto].
    destruct Hno. apply list_elem_of_fmap. exists (k, d). split; [done|].
    by apply list_elem_of_In.
Qed.

Lemma field_perm k l1 l2 : l1 ≡ₚ l2 -> NoDup (map fst l1) -> field k l1 = field k l2.
Proof.
  intros HP Hnd. assert (Hnd2 : NoDup (map fst l2)) by by rewrite <- HP.
  destruct (field k l1) as [d|] eqn:E1.
  - symmetry. apply field_nodup; [done|]. apply field_in in E1.
    by eapply Permutation_in.
  - destruct (field k l2) as [d|] eqn:E2; [|done]. apply field_in in E2.
    rewrite <- HP in E2. apply (field_nodup k l1 d Hnd) in E2. congruence.
Qed.

Lemma field_normalize k l :
  field k (map (fun '(k, v) => (k, normalize v)) l) = option_map normalize (field k l).
Proof.
  induction l as [|[k' d] l IH]; cbn [map field option_map]; [done|].
  by destruct (String.eqb k' k).
Qed.

(** Signed objects with the same bytes have the same members. *)
Lemma write_object_fields l1 l2 s k :
  forallb member_wf l1 = true -> forallb member_wf l2 = true ->
  NoDup (map fst l1) -> NoDup (map fst l2) ->
  write (DObject l1) = Some s -> write (DObject l2) = Some s ->
  option_map normalize (field k l1) = option_map normalize (field k l2).
Proof.
  intros W1 W2 N1 N2 H1 H2. rewrite <- well_formed_object in W1, W2.
  pose proof (CanonicalJSON.Canonical_inj _ _ s W1 W2 H1 H2) as H.
  cbn [normalize] in H. apply (f_equal members) in H. cbn [members] in H.
  rewrite <- !field_normalize.
  assert (Hs : forall l, NoDup (map fst l) ->
    field k (map (fun '(k, v) => (k, normalize v)) l) =
    field k (sort_members (map (fun '(k, v) => (k, normalize v)) l))).
  { intros l Hnd. symmetry. apply field_perm; [apply stable_sort_perm|].
    unfold sort_members. rewrite (stable_sort_perm member_before).
    rewrite map_map. erewrite map_ext; [exact Hnd|]. by intros []. }
  by rewrite (Hs l1 N1), (Hs l2 N2), H.
Qed.

Lemma remove_app k l1 l2 : remove k (l1 ++ l2) = remove k l1 ++ remove k l2.
Proof. unfold remove. apply List.filter_app. Qed.

Lemma remove_omit k k' s : k <> k' -> remove k (omit k' s) = omit k' s.
Proof.
  intros H. unfold omit. destruct (String.eqb s ""); [done|]. cbn.
  by destruct (String.eqb_spec k' k); [congruence|].
Qed.

(** The members a signature covers. *)
Definition signed_members (a : Authorization) : list (string * Doc) :=
  [("schema_version", text (az_SchemaVersion a)); ("tenant_id", text (az_TenantID a));
   ("bundle_id", text (az_BundleID a));
   ("bundle_content_hash", text (az_BundleContentHash a))] ++
  omit "prior_bundle_id" (az_PriorBundleID a) ++
  omit "prior_bundle_content_hash" (az_PriorBundleContentHash a) ++
  [("action", text (az_Action a)); ("actor", text (az_Actor a))] ++
  omit "reason" (az_Reason a) ++
  [("authorized_at", time_doc rfc3339 (az_AuthorizedAt a)); ("nonce", text (az_Nonce a))].

Lemma Canonical_members a : Canonical rfc3339 a = write (DObject (signed_members a)).
Proof.
  unfold Canonical, SignedBytes, authorization_doc, CanonicalObject, CanonicalizeObject.
  do 2 f_equal. rewrite !remove_app, !remove_omit by done. reflexivity.
Qed.

Lemma signed_members_ok a :
  forallb member_wf (signed_members a) = true /\ NoDup (map fst (signed_members a)).
Proof.
  split.
  - unfold signed_members. rewrite !forallb_app', !omit_wf. cbn. unfold time_doc, member_wf.
    cbn. by destruct (rfc3339 (az_AuthorizedAt a)).
  - unfold signed_members, omit.
    destruct (String.eqb (az_PriorBundleID a) ""), (String.eqb (az_PriorBundleContentHash a) ""),
      (String.eqb (az_Reason a) ""); cbn [app map fst];
      apply (bool_decide_eq_true_1 _); vm_compute; reflexivity.
Qed.

Definition authorization_text (a : Authorization) : Prop :=
  Forall utf8 [az_SchemaVersion a; az_TenantID a; az_BundleID a; az_BundleContentHash a;
               az_PriorBundleID a; az_PriorBundleContentHash a; az_Action a; az_Actor a;
               az_Reason a; az_Nonce a].

Definition unsigned (a : Authorization) : Authorization :=
  mkAuthorization (az_SchemaVersion a) (az_TenantID a) (az_BundleID a) (az_BundleContentHash a)
    (az_PriorBundleID a) (az_PriorBundleContentHash a) (az_Action a) (az_Actor a) (az_Reason a)
    (az_AuthorizedAt a) (az_Nonce a) (mkSignature "" "" "").

Lemma unsigned_ext a1 a2 :
  az_SchemaVersion a1 = az_SchemaVersion a2 -> az_TenantID a1 = az_TenantID a2 ->
  az_BundleID a1 = az_BundleID a2 -> az_BundleContentHash a1 = az_BundleContentHash a2 ->
  az_PriorBundleID a1 = az_PriorBundleID a2 ->
  az_PriorBundleContentHash a1 = az_PriorBundleContentHash a2 ->
  az_Action a1 = az_Action a2 -> az_Actor a1 = az_Actor a2 -> az_Reason a1 = az_Reason a2 ->
  az_AuthorizedAt a1 = az_AuthorizedAt a2 -> az_Nonce a1 = az_Nonce a2 ->
  unsigned a1 = unsigned a2.
Proof. unfold unsigned. congruence. Qed.

Lemma normalize_text_inj s1 s2 : utf8 s1 -> utf8 s2 ->
  option_map normalize (Some (text s1)) = option_map normalize (Some (text s2)) -> s1 = s2.
Proof. intros H1 H2 H. by apply some_text_inj. Qed.

Lemma normalize_opt_text_inj s1 s2 : utf8 s1 -> utf8 s2 ->
  option_map normalize (opt_text s1) = option_map normalize (opt_text s2) -> s1 = s2.
Proof.
  intros H1 H2 H. apply opt_text_inj; [done..|]. revert H. unfold opt_text.
  destruct (String.eqb s1 ""), (String.eqb s2 ""); done.
Qed.

Lemma join_some parts s : join parts = Some s -> Forall (fun p => p <> None) parts.
Proof.
  revert s. induction parts as [|p parts IH]; intros s H; [constructor|].
  cbn [join] in H. destruct parts as [|q parts].
  - constructor; [congruence | constructor].
  - destruct p; [|done]. destruct (join (q :: parts)) as [b|]; [|done].
    constructor; [done | by apply (IH b)].
Qed.

Lemma write_object_members l s k d :
  write (DObject l) = Some s -> In (k, d) l -> write d <> None.
Proof.
  cbn [write]. unfold wrap. destruct (join _) as [b|] eqn:E; [|done]. intros _ Hin Hd.
  apply join_some in E. rewrite Forall_map in E.
  unfold sort_members in E. rewrite (stable_sort_perm member_before) in E.
  rewrite Forall_map, Forall_forall in E. apply list_elem_of_In in Hin.
  apply (E _ Hin). unfold member. cbn [fst snd]. rewrite Hd.
  by destruct (writeString k).
Qed.

Lemma write_some_time a s : write (DObject (signed_members a)) = Some s ->
  exists t, rfc3339 (az_AuthorizedAt a) = Some t /\
    time_doc rfc3339 (az_AuthorizedAt a) = DString t.
Proof.
  intros H. apply (write_object_members _ _ "authorized_at"
    (time_doc rfc3339 (az_AuthorizedAt a))) in H.
  - unfold time_doc in *. destruct (rfc3339 (az_AuthorizedAt a)); [eauto | done].
  - unfold signed_members. rewrite !in_app_iff. do 4 right. right. by left.
Qed.

Ltac member_of k HF :=
  let F := fresh "F" in
  pose proof (HF k) as F; rewrite ?field_app, ?field_omit in F;
  cbn [field String.eqb Ascii.eqb Bool.eqb] in F; rewrite ?match_id in F; clear HF;
  first [ refine (normalize_text_inj _ _ _ _ F); assumption
        | refine (normalize_opt_text_inj _ _ _ _ F); assumption | idtac ].

Lemma Canonical_covers a1 a2 s :
  authorization_text a1 -> authorization_text a2 ->
  Canonical rfc3339 a1 = Some s -> Canonical rfc3339 a2 = Some s -> unsigned a1 = unsigned a2.
Proof.
  rewrite !Canonical_members. intros T1 T2 H1 H2.
  destruct (signed_members_ok a1) as [W1 N1], (signed_members_ok a2) as [W2 N2].
  assert (HF : forall k, option_map normalize (field k (signed_members a1)) =
                         option_map normalize (field k (signed_members a2))).
  { intros k. by apply (write_object_fields _ _ s). }
  destruct (write_some_time a1 s H1) as (t1 & E1 & D1).
  destruct (write_some_time a2 s H2) as (t2 & E2 & D2).
  clear H1 H2 W1 W2 N1 N2. unfold authorization_text in T1, T2. split_all.
  unfold signed_members in HF.
  apply unsigned_ext.
  - member_of "schema_version" HF.
  - member_of "tenant_id" HF.
  - member_of "bundle_id" HF.
  - member_of "bundle_content_hash" HF.
  - member_of "prior_bundle_id" HF.
  - member_of "prior_bundle_content_hash" HF.
  - member_of "action" HF.
  - member_of "actor" HF.
  - member_of "reason" HF.
  - member_of "authorized_at" HF. rewrite D1, D2 in F. cbn in F. injection F as ->.
    by eapply rfc3339_inj.
  - member_of "nonce" HF.
Qed.

(** An activation signature covers the whole authorization: two authorizations
    with the same signed bytes say the same thing in every field but the
    signature itself (tenant, bundle, content hash, predecessor, action, actor,
    reason, time and nonce). *)
Theorem authorization_fully_signed (a1 a2 : Authorization) (s : bytes_t) :
  authorization_text a1 -> authorization_text a2 ->
  Canonical rfc3339 a1 = Some s -> Canonical rfc3339 a2 = Some s -> unsigned a1 = unsigned a2.
Proof. apply Canonical_covers. Qed.
End Coverage.

(** * Witnesses *)

Definition compiled_bundle : Bundle :=
  mkBundle "bundle-1" "tenant-1" "pol" 1 [option_rule] "" "" "" 0
    (mkActivation StatusCompiled None "" None "" "" "").

Definition promotion : list (bop (C := toy_crypto)) :=
  [BSign (C := toy_crypto) 7%nat "signer"; BTransition StatusActive 1 "eager";
   BTransition StatusSimulated 1 "op"; BTransition StatusShadow 2 "op";
   BTransition StatusCanary 3 "op"; BTransition StatusActive 4 "op"].

Definition promoted_bundle : Bundle :=
  run_ops (bstep (C := toy_crypto)) compiled_bundle promotion.

Example active_went_through_pipeline_witness :
  Enforcing promoted_bundle = true /\
  Forall (visited (C := toy_crypto) compiled_bundle promotion)
    [StatusCompiled; StatusSigned; StatusSimulated; StatusShadow; StatusCanary] /\
  exists key, VerifySignature (C := toy_crypto) promoted_bundle (public (Crypto := toy_crypto) key)
              = None.
Proof.
  assert (H : Enforcing promoted_bundle = true) by (vm_compute; reflexivity).
  split; [exact H|].
  destruct (active_went_through_pipeline (C := toy_crypto) (CL := toy_laws) compiled_bundle promotion
              eq_refl eq_refl eq_refl H) as (H1 & _ & _ & _ & key & _ & H2).
  split; [exact H1 | exists key; exact H2].
Defined.

Example rolled_back_is_terminal_witness :
  let b := run_ops (bstep (C := toy_crypto)) promoted_bundle
             [BRollback (C := toy_crypto) 5 "op" "incident"] in
  status b = StatusRolledBack /\ run_ops (bstep (C := toy_crypto)) b promotion = b.
Proof.
  cbn zeta. split; [vm_compute; reflexivity|].
  apply (rolled_back_is_terminal (C := toy_crypto)). vm_compute. reflexivity.
Defined.

Lemma compiled_printable : bundle_printable compiled_bundle.
Proof.
  constructor; [repeat constructor | cbn; lia |]. constructor; [|constructor].
  constructor; [repeat constructor | constructor |].
  repeat constructor; intros a Ha; try discriminate. injection Ha as <-.
  vm_compute. reflexivity.
Qed.

Lemma promoted_content : content promoted_bundle = content compiled_bundle.
Proof. vm_compute. reflexivity. Qed.

Lemma printable_content b b' :
  content b = content b' -> bundle_printable b' -> bundle_printable b.
Proof.
  unfold content. intros H [T V R]. injection H as H1 H2 H3 H4 H5.
  constructor; rewrite ?H1, ?H2, ?H3, ?H4, ?H5; assumption.
Qed.

Lemma promoted_printable : bundle_printable promoted_bundle.
Proof. exact (printable_content _ _ promoted_content compiled_printable). Qed.

Definition compiled_raw : bytes_t :=
  match canonicalBytes compiled_bundle with Some raw => raw | None => [] end.

Example canonicalBytes_covers_content_witness :
  canonicalBytes promoted_bundle = Some compiled_raw.
Proof.
  assert (H : canonicalBytes compiled_bundle = Some compiled_raw) by (vm_compute; reflexivity).
  exact (proj2 (canonicalBytes_covers_content compiled_bundle promoted_bundle compiled_raw
                  compiled_printable promoted_printable H) (eq_sym promoted_content)).
Defined.

(** An injective text of instants, for want of a calendar. *)
Definition toy_rfc3339 (t : Time) : option string := if t <? 0 then None else Some (fmt_d t).

Lemma toy_rfc3339_inj t1 t2 s : toy_rfc3339 t1 = Some s -> toy_rfc3339 t2 = Some s -> t1 = t2.
Proof.
  unfold toy_rfc3339. destruct (Z.ltb_spec t1 0), (Z.ltb_spec t2 0); try done.
  intros [= <-] [= E]. symmetry. by apply fmt_d_inj.
Qed.

Definition sample_authorization (value : string) : Authorization :=
  mkAuthorization "v0.1" "tenant-1" "bundle-1" "aa" "" "" ActionActivate "risk-officer" "" 3 "n-1"
    (mkSignature "Ed25519" "k-1" value).

Lemma sample_text v : authorization_text (sample_authorization v).
Proof. repeat constructor. Qed.

Definition sample_signed : bytes_t :=
  match write (DObject (signed_members toy_rfc3339 (sample_authorization "00"))) with
  | Some s => s | None => []
  end.

Example authorization_fully_signed_witness :
  unsigned (sample_authorization "00") = unsigned (sample_authorization "ff").
Proof.
  assert (H : forall v, Canonical toy_rfc3339 (sample_authorization v) =
    write (DObject (signed_members toy_rfc3339 (sample_authorization "00")))).
  { intros v. rewrite Canonical_members. reflexivity. }
  assert (E : write (DObject (signed_members toy_rfc3339 (sample_authorization "00"))) =
              Some sample_signed) by (vm_compute; reflexivity).
  exact (authorization_fully_signed toy_rfc3339 toy_rfc3339_inj (sample_authorization "00")
           (sample_authorization "ff") sample_signed (sample_text "00") (sample_text "ff")
           (eq_trans (H "00") E) (eq_trans (H "ff") E)).
Defined.
