(* ===== verification/ActivationStore.v ===== *)
(** The durable half of policy activation: internal/policy/activation_store.go.

    [Store.Tables] is the tables policy_activation_keys, policy_activation_key_grants,
    policy_activations and policy_current with their keys, unique indexes and
    checks, and the evidence tables the same transactions write.  Accept holds an
    advisory lock, so its transactions are serial; [RevokeKey] takes no lock, and its
    two statements are also modelled apart. *)

From S2P Require Import Prelude Money Intent Policy CanonicalJSON Crypto Activation.
From S2P Require Evidence.

(** * The store *)

Module Store.
Record KeyRow := mkKeyRow {
  k_public_key : bytes_t;
  k_holder : string;
  k_status : string;
  k_valid_from : Time;
  k_valid_until : option Time;
  k_revoked_at : option Time;
  k_revoked_by : option string
}.

Record GrantRow := mkGrantRow {
  gr_action : string;
  gr_subject_key_id : string;
  gr_actor : string;
  gr_signed_by_key_id : option string;
  gr_authorized_at : Time;
  gr_accepted_at : Time
}.

Record ActivationRow := mkActivationRow {
  a_bundle_id : string;
  a_bundle_content_hash : string;
  a_prior_bundle_id : option string;
  a_prior_bundle_content_hash : option string;
  a_action : string;
  a_actor : string;
  a_reason : option string;
  a_key_id : string;
  a_authorized_at : Time;
  a_accepted_at : Time;
  a_transition_seq : Z
}.

Record CurrentRow := mkCurrentRow {
  c_nonce : string;
  c_bundle_id : string;
  c_bundle_content_hash : string;
  c_transition_seq : Z;
  c_accepted_at : Time
}.

(** policy_activation_keys by (tenant, key id); the grants and the activations by
    (tenant, nonce); policy_current by tenant. *)
Record Tables := mkTables {
  keys : gmap (string * string) KeyRow;
  grants : gmap (string * string) GrantRow;
  activations : gmap (string * string) ActivationRow;
  current : gmap string CurrentRow;
  evidence : Evidence.Tables
}.

Definition empty_tables : Tables := mkTables ∅ ∅ ∅ ∅ Evidence.empty_tables.

Inductive StoreError :=
| ErrTenant
| ErrKeySize
| ErrCode (code : string)
| ErrStalePredecessor (code : string)
| ErrNoTransition
| ErrReplayed
| ErrBootstrapSpent
| ErrKeyExists
| ErrEvidence (e : Evidence.EvidenceError)
| ErrDatabase (what : string).

Definition withTenant {A} (f : TxFault) (db : Tables) (tenantID : string)
    (fn : Tables -> Tables * result A StoreError) : Tables * result A StoreError :=
  if String.eqb tenantID "" then (db, Err ErrTenant) else transaction ErrDatabase f db fn.

Definition nullIfEmpty (s : string) : option string := if String.eqb s "" then None else Some s.
Definition nonEmpty (s fallback : string) : string := if String.eqb s "" then fallback else s.

Record ActivationKey := mkActivationKey {
  ak_TenantID : string;
  ak_KeyID : string;
  ak_PublicKey : bytes_t;
  ak_Holder : string;
  ak_Status : string;
  ak_ValidFrom : Time;
  ak_ValidUntil : option Time;
  ak_RevokedAt : option Time;
  ak_RevokedBy : string
}.

Definition Usable (k : ActivationKey) (at_ : Time) : string :=
  if negb (String.eqb (ak_Status k) "ACTIVE") || present (ak_RevokedAt k) then
    "ACTIVATION_KEY_REVOKED"
  else if Before at_ (ak_ValidFrom k) then "ACTIVATION_KEY_NOT_YET_VALID"
  else match ak_ValidUntil k with
       | Some until => if negb (Before at_ until) then "ACTIVATION_KEY_EXPIRED" else ""
       | None => ""
       end.

Definition set_keys (db : Tables) m := mkTables m (grants db) (activations db) (current db) (evidence db).
Definition set_grants (db : Tables) m := mkTables (keys db) m (activations db) (current db) (evidence db).
Definition set_evidence (db : Tables) m := mkTables (keys db) (grants db) (activations db) (current db) m.

(** INSERT INTO policy_activation_keys ... ON CONFLICT (tenant_id, key_id) DO
    NOTHING, with the table's checks. *)
Definition insert_key (db : Tables) (k : ActivationKey) : result (Tables * bool) StoreError :=
  let st := nonEmpty (ak_Status k) "ACTIVE" in
  if negb (contains ["ACTIVE"; "REVOKED"] st) then
    Err (ErrDatabase "policy_activation_keys_status")
  else if negb (length (ak_PublicKey k) =? 32)%nat then
    Err (ErrDatabase "policy_activation_keys_ed25519_size")
  else match keys db !! (ak_TenantID k, ak_KeyID k) with
  | Some _ => Ok (db, false)
  | None =>
      let r := mkKeyRow (ak_PublicKey k) (ak_Holder k) st (ak_ValidFrom k) (ak_ValidUntil k)
                 None None in
      Ok (set_keys db (<[(ak_TenantID k, ak_KeyID k) := r]> (keys db)), true)
  end.

Definition RegisterKey (f : TxFault) (db : Tables) (k : ActivationKey)
    : Tables * result bool StoreError :=
  if negb (length (ak_PublicKey k) =? PublicKeySize)%nat then (db, Err ErrKeySize) else
  withTenant f db (ak_TenantID k) (fun db =>
    match insert_key db k with
    | Err e => (db, Err e)
    | Ok (db', registered) => (db', Ok registered)
    end).

Definition tenant_rows {A} (m : gmap (string * string) A) (t : string) : list (string * A) :=
  omap (fun '((t', k), r) => if String.eqb t' t then Some (k, r) else None) (map_to_list m).

Definition BootstrapAction : string := "BOOTSTRAP_ACTIVATION_KEY".

Definition has_bootstrap (db : Tables) (t : string) : bool :=
  existsb (fun '(_, g) => String.eqb (gr_action g) BootstrapAction) (tenant_rows (grants db) t).

Definition Bootstrapped (f : TxFault) (db : Tables) (tenantID : string)
    : result bool StoreError :=
  snd (withTenant f db tenantID (fun db =>
    (db, Ok (has_bootstrap db tenantID ||
             (0 <? length (tenant_rows (keys db) tenantID))%nat)))).

(** The signer, read again inside the transaction. *)
Definition signer_refused (db : Tables) (tenant signedBy : string) (at_ : Time)
    : option StoreError :=
  match keys db !! (tenant, signedBy) with
  | None => Some (ErrCode "ACTIVATION_KEY_UNKNOWN")
  | Some r =>
      let k := mkActivationKey "" signedBy [] "" (k_status r) (k_valid_from r)
                 (k_valid_until r) (k_revoked_at r) "" in
      if str_nonempty (Usable k at_) then Some (ErrCode (Usable k at_)) else None
  end.

(** INSERT INTO policy_activation_key_grants ... ON CONFLICT (tenant_id, nonce) DO
    NOTHING; the second bootstrap of a tenant violates a unique index. *)
Definition insert_grant (db : Tables) (t nonce : string) (g : GrantRow)
    : result Tables StoreError :=
  if negb (contains [ActionRegisterKey; BootstrapAction] (gr_action g)) then
    Err (ErrDatabase "policy_activation_key_grants_action")
  else match grants db !! (t, nonce) with
  | Some _ => Err ErrReplayed
  | None =>
      if String.eqb (gr_action g) BootstrapAction && has_bootstrap db t then
        Err ErrBootstrapSpent
      else Ok (set_grants db (<[(t, nonce) := g]> (grants db)))
  end.

Section WithEvidence.
Context {HJ : Evidence.JSON}.

Definition appendEventTx (tenant : string) (dbnow : Time) (db : Tables) (e : Evidence.Event)
    : result Tables StoreError :=
  match Evidence.AppendInTx tenant dbnow (evidence db) e with
  | Err er => Err (ErrEvidence er)
  | Ok ev => Ok (set_evidence db ev)
  end.

Definition register_authorized_body (dbnow : Time) (k : ActivationKey)
    (nonce action actor signedBy : string) (authorizedAt : Time) (event : Evidence.Event)
    (at_ : Time) (db : Tables) : result Tables StoreError :=
  let t := ak_TenantID k in
  let refused :=
    if String.eqb signedBy "" then
      if (0 <? length (tenant_rows (keys db) t))%nat then Some ErrBootstrapSpent else None
    else signer_refused db t signedBy at_ in
  match refused with
  | Some e => Err e
  | None =>
      let? db1 := insert_grant db t nonce
        (mkGrantRow action (ak_KeyID k) actor (nullIfEmpty signedBy) authorizedAt at_) in
      let? x := insert_key db1 k in
      let '(db2, inserted) := x in
      if inserted then appendEventTx t dbnow db2 event else Err ErrKeyExists
  end.

Definition RegisterKeyAuthorized (f : TxFault) (dbnow : Time) (db : Tables)
    (k : ActivationKey) (nonce action actor signedBy : string) (authorizedAt : Time)
    (event : Evidence.Event) (at_ : Time) : Tables * result bool StoreError :=
  if negb (length (ak_PublicKey k) =? PublicKeySize)%nat then (db, Err ErrKeySize) else
  match withTenant f db (ak_TenantID k) (fun db =>
          match register_authorized_body dbnow k nonce action actor signedBy authorizedAt event
                  at_ db with
          | Ok db' => (db', Ok true)
          | Err e => (db, Err e)
          end) with
  | (db', Err ErrKeyExists) => (db', Ok false)
  | r => r
  end.

(** ** Revocation *)

Definition usable_row (dbnow : Time) (r : KeyRow) : bool :=
  String.eqb (k_status r) "ACTIVE" && negb (present (k_revoked_at r)) &&
  (k_valid_from r <=? dbnow) &&
  match k_valid_until r with None => true | Some u => dbnow <? u end.

(** The first statement: the count. *)
Definition count_usable (db : Tables) (t : string) (dbnow : Time) : nat :=
  length (List.filter (fun '(_, r) => usable_row dbnow r) (tenant_rows (keys db) t)).

(** The rest of the transaction, given the count. *)
Definition revoke_counted (usable : nat) (db : Tables) (t keyID by_ : string) (at_ : Time)
    : Tables * result bool StoreError :=
  if (usable <=? 1)%nat then (db, Err (ErrCode "ACTIVATION_KEY_LAST_USABLE")) else
  match keys db !! (t, keyID) with
  | Some r =>
      if String.eqb (k_status r) "ACTIVE" then
        let r' := mkKeyRow (k_public_key r) (k_holder r) "REVOKED" (k_valid_from r)
                    (k_valid_until r) (Some at_) (Some by_) in
        (set_keys db (<[(t, keyID) := r']> (keys db)), Ok true)
      else (db, Ok false)
  | None => (db, Ok false)
  end.

Definition RevokeKey (f : TxFault) (dbnow : Time) (db : Tables) (tenantID keyID by_ : string)
    (at_ : Time) : Tables * result bool StoreError :=
  withTenant f db tenantID (fun db =>
    revoke_counted (count_usable db tenantID dbnow) db tenantID keyID by_ at_).

Definition Key (f : TxFault) (db : Tables) (tenantID keyID : string)
    : result ActivationKey StoreError :=
  snd (withTenant f db tenantID (fun db =>
    (db, match keys db !! (tenantID, keyID) with
         | None => Err (ErrCode "ACTIVATION_KEY_UNKNOWN")
         | Some r => Ok (mkActivationKey tenantID keyID (k_public_key r) (k_holder r)
                           (k_status r) (k_valid_from r) (k_valid_until r) (k_revoked_at r)
                           (default "" (k_revoked_by r)))
         end))).

(** ** Transitions *)

Record Transition := mkTransition {
  tr_TenantID : string;
  tr_Nonce : string;
  tr_BundleID : string;
  tr_BundleContentHash : string;
  tr_PriorBundleID : string;
  tr_Action : string;
  tr_Actor : string;
  tr_Reason : string;
  tr_KeyID : string;
  tr_AuthorizedAt : Time;
  tr_AcceptedAt : Time
}.

Definition transitionInTx (db : Tables) (t nonce : string) : result Transition StoreError :=
  match activations db !! (t, nonce) with
  | None => Err ErrNoTransition
  | Some r => Ok (mkTransition t nonce (a_bundle_id r) (a_bundle_content_hash r)
                    (default "" (a_prior_bundle_id r)) (a_action r) (a_actor r)
                    (default "" (a_reason r)) (a_key_id r) (a_authorized_at r)
                    (a_accepted_at r))
  end.

Definition Current (f : TxFault) (db : Tables) (tenantID : string)
    : result Transition StoreError :=
  snd (withTenant f db tenantID (fun db =>
    (db, match current db !! tenantID with
         | None => Err ErrNoTransition
         | Some c => transitionInTx db tenantID (c_nonce c)
         end))).

Definition checkPredecessor (a : Authorization) (cur : option CurrentRow) : option StoreError :=
  match cur with
  | None =>
      if str_nonempty (az_PriorBundleID a) || str_nonempty (az_PriorBundleContentHash a) then
        Some (ErrStalePredecessor "ACTIVATION_STALE_PREDECESSOR")
      else None
  | Some c =>
      if String.eqb (az_PriorBundleID a) "" || String.eqb (az_PriorBundleContentHash a) "" then
        Some (ErrStalePredecessor "ACTIVATION_PREDECESSOR_MISSING")
      else if negb (String.eqb (az_PriorBundleID a) (c_bundle_id c)) ||
              negb (String.eqb (az_PriorBundleContentHash a) (c_bundle_content_hash c)) then
        Some (ErrStalePredecessor "ACTIVATION_STALE_PREDECESSOR")
      else None
  end.

Definition accept_body (dbnow : Time) (a : Authorization) (event : Evidence.Event) (at_ : Time)
    (db : Tables) : result (Tables * Transition) StoreError :=
  let t := az_TenantID a in
  let cur := current db !! t in
  let seq := match cur with Some c => c_transition_seq c | None => 0 end in
  let currentHash := match cur with Some c => c_bundle_content_hash c | None => "" end in
  let prior := match cur with Some c => c_bundle_id c | None => "" end in
  match checkPredecessor a cur with
  | Some e => Err e
  | None =>
      if negb (contains [ActionActivate; ActionRollback] (az_Action a)) then
        Err (ErrDatabase "policy_activations_action")
      else match activations db !! (t, az_Nonce a) with
      | Some _ => Err ErrReplayed
      | None =>
          if existsb (fun '(_, r) => a_transition_seq r =? seq + 1) (tenant_rows (activations db) t)
          then Err (ErrDatabase "policy_activations_seq_idx") else
          let r := mkActivationRow (az_BundleID a) (az_BundleContentHash a) (nullIfEmpty prior)
                     (nullIfEmpty currentHash) (az_Action a) (az_Actor a)
                     (nullIfEmpty (az_Reason a)) (sig_KeyID (az_Signature a))
                     (az_AuthorizedAt a) at_ (seq + 1) in
          let db1 := mkTables (keys db) (grants db) (<[(t, az_Nonce a) := r]> (activations db))
                       (current db) (evidence db) in
          let? db2 := appendEventTx t dbnow db1 event in
          let c := mkCurrentRow (az_Nonce a) (az_BundleID a) (az_BundleContentHash a) (seq + 1)
                     at_ in
          Ok (mkTables (keys db2) (grants db2) (activations db2) (<[t := c]> (current db2))
                (evidence db2),
              mkTransition t (az_Nonce a) (az_BundleID a) (az_BundleContentHash a) prior
                (az_Action a) (az_Actor a) (az_Reason a) (sig_KeyID (az_Signature a))
                (az_AuthorizedAt a) at_)
      end
  end.

Definition Accept (f : TxFault) (dbnow : Time) (db : Tables) (a : Authorization)
    (event : Evidence.Event) (at_ : Time) : Tables * result Transition StoreError :=
  withTenant f db (az_TenantID a) (fun db =>
    match accept_body dbnow a event at_ db with
    | Ok (db', t) => (db', Ok t)
    | Err e => (db, Err e)
    end).
End WithEvidence.
End Store.

(** * Properties of the store *)

Section StoreFacts.
Context {HJ : Evidence.JSON}.
Import Store.

Inductive sop :=
| SRegister (f : TxFault) (k : ActivationKey)
| SRegisterAuthorized (f : TxFault) (now : Time) (k : ActivationKey)
    (nonce action actor signedBy : string) (authorizedAt : Time) (event : Evidence.Event)
    (at_ : Time)
| SRevoke (f : TxFault) (now : Time) (t keyID by_ : string) (at_ : Time)
| SAccept (f : TxFault) (now : Time) (a : Authorization) (event : Evidence.Event) (at_ : Time).

Definition sstep (db : Tables) (op : sop) : Tables :=
  match op with
  | SRegister f k => fst (RegisterKey f db k)
  | SRegisterAuthorized f now k n ac who by_ aat e at_ =>
      fst (RegisterKeyAuthorized f now db k n ac who by_ aat e at_)
  | SRevoke f now t k by_ at_ => fst (RevokeKey f now db t k by_ at_)
  | SAccept f now a e at_ => fst (Accept f now db a e at_)
  end.

(** A key row after any later operation: never another key under the same id, and
    never usable again once revoked. *)
Definition key_succ (r r' : KeyRow) : Prop :=
  k_public_key r' = k_public_key r /\ k_holder r' = k_holder r /\
  k_valid_from r' = k_valid_from r /\ k_valid_until r' = k_valid_until r /\
  (r' = r \/ (k_status r' = "REVOKED" /\ k_status r = "ACTIVE")).

Definition height (db : Tables) (t : string) : Z :=
  match current db !! t with Some c => c_transition_seq c | None => 0 end.

(** What an accepted transition changes, for one tenant. *)
Definition accepted (a : Authorization) (at_ : Time) (db : Tables) : ActivationRow :=
  let cur := current db !! az_TenantID a in
  mkActivationRow (az_BundleID a) (az_BundleContentHash a)
    (match cur with Some c => nullIfEmpty (c_bundle_id c) | None => None end)
    (match cur with Some c => nullIfEmpty (c_bundle_content_hash c) | None => None end)
    (az_Action a) (az_Actor a) (nullIfEmpty (az_Reason a)) (sig_KeyID (az_Signature a))
    (az_AuthorizedAt a) at_ (height db (az_TenantID a) + 1).

Lemma appendEventTx_ok t now db e db' :
  appendEventTx t now db e = Ok db' ->
  exists ev, Evidence.AppendInTx t now (evidence db) e = Ok ev /\ db' = set_evidence db ev.
Proof. unfold appendEventTx. destruct (Evidence.AppendInTx _ _ _ _); intros; simplify_eq; eauto. Qed.

Lemma accept_body_ok now a e at_ db db' tr :
  accept_body now a e at_ db = Ok (db', tr) ->
  let t := az_TenantID a in
  checkPredecessor a (current db !! t) = None /\
  activations db !! (t, az_Nonce a) = None /\
  keys db' = keys db /\ grants db' = grants db /\
  activations db' = <[(t, az_Nonce a) := accepted a at_ db]> (activations db) /\
  current db' = <[t := mkCurrentRow (az_Nonce a) (az_BundleID a) (az_BundleContentHash a)
                         (height db t + 1) at_]> (current db) /\
  (exists ev, Evidence.AppendInTx t now (evidence db) e = Ok ev /\ evidence db' = ev) /\
  (forall n r, activations db !! (t, n) = Some r -> a_transition_seq r <> height db t + 1).
Proof.
  cbn zeta. unfold accept_body. intros H.
  destruct (checkPredecessor _ _) eqn:Ep; [done|]. destruct (negb _); [done|].
  destruct (activations db !! (az_TenantID a, az_Nonce a)) eqn:Ea; [done|].
  destruct (existsb _ _) eqn:Ex; [done|].
  destruct (appendEventTx _ _ _ _) as [db2|] eqn:Ee; [|done].
  apply appendEventTx_ok in Ee as (ev & Hev & ->). injection H as <- _. cbn.
  split_and!; try done; try (by eexists).
  { unfold accepted, height. by destruct (current db !! az_TenantID a). }
  intros n r Hr Hseq. apply not_true_iff_false in Ex. apply Ex. apply existsb_exists.
    exists (n, r). split.
    + apply list_elem_of_In, list_elem_of_omap. exists ((az_TenantID a, n), r).
      split; [by apply elem_of_map_to_list|]. by rewrite String.eqb_refl.
    + apply Z.eqb_eq. unfold height in Hseq. by destruct (current db !! az_TenantID a).
Qed.

(** The answer is the stored row. *)
Lemma accept_body_transition now a e at_ db db' tr :
  accept_body now a e at_ db = Ok (db', tr) ->
  let r := accepted a at_ db in
  tr = mkTransition (az_TenantID a) (az_Nonce a) (a_bundle_id r) (a_bundle_content_hash r)
         (default "" (a_prior_bundle_id r)) (a_action r) (a_actor r) (default "" (a_reason r))
         (a_key_id r) (a_authorized_at r) (a_accepted_at r).
Proof.
  cbn zeta. unfold accept_body. intros H.
  destruct (checkPredecessor _ _); [done|]. destruct (negb _); [done|].
  destruct (activations db !! (az_TenantID a, az_Nonce a)); [done|].
  destruct (existsb _ _); [done|]. destruct (appendEventTx _ _ _ _) as [db2|]; [|done].
  injection H as _ <-. unfold accepted. cbn.
  assert (Hd : forall s, default "" (nullIfEmpty s) = s).
  { intros s. unfold nullIfEmpty. by destruct (String.eqb_spec s ""). }
  destruct (current db !! az_TenantID a); by rewrite !Hd.
Qed.

Lemma store_tx {A} f db t (fn : Tables -> Tables * result A StoreError) :
  fst (withTenant f db t fn) = db \/
  (exists a, snd (fn db) = Ok a /\ fst (withTenant f db t fn) = fst (fn db)).
Proof.
  unfold withTenant. destruct (String.eqb t ""); [by left | apply transaction_state].
Qed.

Lemma Accept_state f now db a e at_ :
  fst (Accept f now db a e at_) = db \/
  exists db' tr, accept_body now a e at_ db = Ok (db', tr) /\
    fst (Accept f now db a e at_) = db'.
Proof.
  unfold Accept. destruct (store_tx f db (az_TenantID a)
    (fun db => match accept_body now a e at_ db with
               | Ok (db', t) => (db', Ok t) | Err e => (db, Err e) end))
    as [->|(tr & Hok & ->)]; [by left|]. right.
  destruct (accept_body now a e at_ db) as [[db' tr']|]; [|done]. eauto.
Qed.

(** The other operations leave the history alone. *)
Lemma other_history db op :
  match op with SAccept _ _ _ _ _ => False | _ => True end ->
  activations (sstep db op) = activations db /\ current (sstep db op) = current db.
Proof.
  destruct op as [f k|f now k n ac who by_ aat e at_|f now t k by_ at_|]; intros Hop; [| | |done];
    cbn [sstep].
  - unfold RegisterKey. destruct (negb _); [done|].
    match goal with |- context [withTenant f db ?t ?fn] =>
      destruct (store_tx f db t fn) as [->|(a & Ha & ->)]; [done|] end.
    revert Ha. unfold insert_key. repeat case_match; simplify_eq/=; done.
  - unfold RegisterKeyAuthorized. destruct (negb _); [done|].
    match goal with |- context [withTenant f db ?t ?fn] =>
      destruct (store_tx f db t fn) as [Hdb|(a & Ha & Hdb)];
      destruct (withTenant f db t fn) as [db' r]; cbn [fst] in Hdb; subst db' end.
    { destruct r as [|[]]; done. }
    destruct (register_authorized_body _ _ _ _ _ _ _ _ _ _) as [db'|] eqn:E; [|done].
    assert (H : activations db' = activations db /\ current db' = current db).
    { unfold register_authorized_body, insert_grant, insert_key in E.
      destruct (if String.eqb by_ "" then _ else _); [done|].
      repeat (case_match; simplify_eq/=); try done.
      all: match goal with H : appendEventTx _ _ _ _ = Ok _ |- _ =>
        apply appendEventTx_ok in H as (ev & _ & ->) end; done. }
    destruct r as [|[]]; exact H.
  - unfold RevokeKey.
    match goal with |- context [withTenant f db ?t ?fn] =>
      destruct (store_tx f db t fn) as [->|(a & Ha & ->)]; [done|] end.
    unfold revoke_counted. repeat case_match; done.
Qed.

(** ** The history of a tenant is one chain *)

Record chain_ok (db : Tables) (t : string) : Prop := {
  co_current : forall c, current db !! t = Some c ->
    1 <= c_transition_seq c /\
    exists r, activations db !! (t, c_nonce c) = Some r /\
      a_transition_seq r = c_transition_seq c /\ a_bundle_id r = c_bundle_id c /\
      a_bundle_content_hash r = c_bundle_content_hash c;
  co_range : forall n r, activations db !! (t, n) = Some r ->
    1 <= a_transition_seq r <= height db t;
  co_unique : forall n1 r1 n2 r2,
    activations db !! (t, n1) = Some r1 -> activations db !! (t, n2) = Some r2 ->
    a_transition_seq r1 = a_transition_seq r2 -> n1 = n2;
  co_first : forall n r, activations db !! (t, n) = Some r -> a_transition_seq r = 1 ->
    a_prior_bundle_id r = None /\ a_prior_bundle_content_hash r = None;
  co_linked : forall n r, activations db !! (t, n) = Some r -> 1 < a_transition_seq r ->
    exists n' r', activations db !! (t, n') = Some r' /\
      a_transition_seq r' = a_transition_seq r - 1 /\
      a_prior_bundle_id r = Some (a_bundle_id r') /\
      a_prior_bundle_content_hash r = Some (a_bundle_content_hash r')
}.

Lemma chain_ok_same db db' t :
  activations db' = activations db -> current db' = current db -> chain_ok db t -> chain_ok db' t.
Proof.
  intros Ha Hc [H1 H2 H3 H4 H5].
  constructor; unfold height in *; rewrite ?Ha, ?Hc; assumption.
Qed.

Lemma checkPredecessor_some a c :
  checkPredecessor a (Some c) = None ->
  az_PriorBundleID a = c_bundle_id c /\ az_PriorBundleContentHash a = c_bundle_content_hash c /\
  c_bundle_id c <> "" /\ c_bundle_content_hash c <> "".
Proof.
  cbn [checkPredecessor]. intros H.
  destruct (String.eqb_spec (az_PriorBundleID a) ""); [done|].
  destruct (String.eqb_spec (az_PriorBundleContentHash a) ""); [done|]. cbn [orb] in H.
  destruct (String.eqb_spec (az_PriorBundleID a) (c_bundle_id c)) as [E1|]; [|done].
  destruct (String.eqb_spec (az_PriorBundleContentHash a) (c_bundle_content_hash c)) as [E2|];
    [|done].
  rewrite <- E1, <- E2. done.
Qed.

Lemma nullIfEmpty_some s : s <> "" -> nullIfEmpty s = Some s.
Proof. unfold nullIfEmpty. by destruct (String.eqb_spec s ""). Qed.

Lemma height_nonneg db t : chain_ok db t -> 0 <= height db t.
Proof.
  intros [H _ _ _ _]. unfold height. destruct (current db !! t) eqn:E; [|lia].
  destruct (H _ eq_refl). lia.
Qed.

(** Without a current transition there is no history. *)
Lemma chain_start db t n :
  chain_ok db t -> current db !! t = None -> activations db !! (t, n) = None.
Proof.
  intros H Hc. destruct (activations db !! (t, n)) eqn:E; [|done].
  apply (co_range _ _ H) in E. unfold height in E. rewrite Hc in E. lia.
Qed.

Lemma accept_other_tenant now a e at_ db db' tr t :
  accept_body now a e at_ db = Ok (db', tr) -> t <> az_TenantID a -> chain_ok db t ->
  chain_ok db' t.
Proof.
  intros H Hne [H1 H2 H3 H4 H5].
  apply accept_body_ok in H as (_ & _ & _ & _ & Ha & Hc & _ & _).
  assert (La : forall n, activations db' !! (t, n) = activations db !! (t, n)).
  { intros n. rewrite Ha, lookup_insert_ne; congruence. }
  assert (Lc : current db' !! t = current db !! t) by (rewrite Hc, lookup_insert_ne; congruence).
  constructor; unfold height in *; rewrite ?Lc.
  - intros c Hcc. destruct (H1 c Hcc) as (? & r & ?). split; [done|]. exists r. by rewrite La.
  - intros n r. rewrite La. apply H2.
  - intros n1 r1 n2 r2. rewrite !La. apply H3.
  - intros n r. rewrite La. apply H4.
  - intros n r. rewrite La. intros Hr Hs. destruct (H5 n r Hr Hs) as (n' & r' & ?).
    exists n', r'. by rewrite La.
Qed.

Lemma accept_same_tenant now a e at_ db db' tr :
  accept_body now a e at_ db = Ok (db', tr) -> chain_ok db (az_TenantID a) ->
  chain_ok db' (az_TenantID a).
Proof.
  intros H HC. pose proof (height_nonneg _ _ HC) as Hh.
  apply accept_body_ok in H as (Hp & Hn & _ & _ & Ha & Hc & _ & _). cbn zeta in *.
  set (t := az_TenantID a) in *. set (row := accepted a at_ db) in *.
  assert (Hseq : a_transition_seq row = height db t + 1) by done.
  assert (Hheight : height db' t = height db t + 1).
  { unfold height at 1. by rewrite Hc, lookup_insert_eq. }
  assert (L : forall n r, activations db' !! (t, n) = Some r ->
    (n = az_Nonce a /\ r = row) \/ (n <> az_Nonce a /\ activations db !! (t, n) = Some r)).
  { intros n r. rewrite Ha. destruct (decide (az_Nonce a = n)) as [<-|Hne].
    - rewrite lookup_insert_eq. intros [= <-]. by left.
    - rewrite lookup_insert_ne by congruence. by right. }
  assert (L' : forall n r, activations db !! (t, n) = Some r -> activations db' !! (t, n) = Some r).
  { intros n r Hr. rewrite Ha, lookup_insert_ne; [done|]. congruence. }
  constructor.
  - intros c. rewrite Hc, lookup_insert_eq. intros [= <-]. cbn. split; [lia|].
    exists row. rewrite Ha, lookup_insert_eq. by split_and!.
  - intros n r Hr. rewrite Hheight. apply L in Hr as [[_ ->]|[_ Hr]]; [lia|].
    apply (co_range _ _ HC) in Hr. lia.
  - intros n1 r1 n2 r2 Hr1 Hr2 Heq.
    apply L in Hr1 as [[-> ->]|[N1 Hr1]]; apply L in Hr2 as [[-> ->]|[N2 Hr2]]; [done | | |].
    + apply (co_range _ _ HC) in Hr2. lia.
    + apply (co_range _ _ HC) in Hr1. lia.
    + by eapply (co_unique _ _ HC).
  - intros n r Hr H1. apply L in Hr as [[_ ->]|[_ Hr]]; [|by eapply (co_first _ _ HC)].
    assert (H0 : height db t = 0) by lia. unfold row, accepted.
    fold t. destruct (current db !! t) as [c|] eqn:Ec; [|done].
    destruct (co_current _ _ HC c Ec) as [Hge _]. unfold height in H0. rewrite Ec in H0. lia.
  - intros n r Hr H1. apply L in Hr as [[_ ->]|[_ Hr]].
    + unfold row, accepted. fold t. cbn [a_prior_bundle_id a_prior_bundle_content_hash].
      destruct (current db !! t) as [c|] eqn:Ec.
      * apply checkPredecessor_some in Hp as (_ & _ & N1 & N2).
        destruct (co_current _ _ HC c Ec) as (_ & r & Hr & Hs & Hi & Hb).
        exists (c_nonce c), r. rewrite !nullIfEmpty_some, Hi, Hb by done.
        split_and!; [by apply L' | | done..].
        rewrite Hs. cbn. unfold height. rewrite Ec. lia.
      * unfold height in Hseq. rewrite Ec in Hseq. lia.
    + destruct (co_linked _ _ HC n r Hr H1) as (n' & r' & Hr' & ?).
      exists n', r'. split; [by apply L' | done].
Qed.

Lemma sstep_chain db op t : chain_ok db t -> chain_ok (sstep db op) t.
Proof.
  intros H. destruct op as [| | |f now a e at_].
  1-3: match goal with |- chain_ok (sstep ?d ?op) _ =>
         destruct (other_history d op I) as [Ha Hc]; by eapply chain_ok_same end.
  cbn [sstep]. destruct (Accept_state f now db a e at_) as [->|(db' & tr & Hb & ->)]; [done|].
  destruct (String.eqb_spec t (az_TenantID a)) as [->|Hne].
  - by eapply accept_same_tenant.
  - by eapply accept_other_tenant.
Qed.

Lemma empty_chain t : chain_ok empty_tables t.
Proof.
  constructor; cbn; intros *; intros; repeat match goal with
  | H : ∅ !! _ = Some _ |- _ => by rewrite lookup_empty in H
  end.
Qed.

(** C15: A tenant's policy history is one chain: in every reachable state the
    transitions are numbered 1, 2, ... without a repeat, the first has no
    predecessor, each later one names as its predecessor exactly the bundle and
    content hash of the transition before it, and the current pointer is the last;
    so no replica and no replayed or stale authorization ever branches it. *)
Theorem policy_history_is_linear (ops : list sop) (t : string) :
  chain_ok (run_ops sstep empty_tables ops) t.
Proof.
  apply (run_ops_invariant sstep (fun db => chain_ok db t)).
  - intros db op. apply sstep_chain.
  - apply empty_chain.
Qed.

(** ** An accepted authorization *)

Lemma sstep_activations db op : activations db ⊆ activations (sstep db op).
Proof.
  destruct op as [| | |f now a e at_].
  1-3: match goal with |- _ ⊆ activations (sstep ?d ?op) =>
         destruct (other_history d op I) as [-> _]; done end.
  cbn [sstep]. destruct (Accept_state f now db a e at_) as [->|(db' & tr & Hb & ->)]; [done|].
  apply accept_body_ok in Hb as (_ & Hn & _ & _ & -> & _). by apply insert_subseteq.
Qed.

Lemma run_activations db ops : activations db ⊆ activations (run_ops sstep db ops).
Proof.
  apply (run_ops_invariant sstep (fun db' => activations db ⊆ activations db')); [|done].
  intros db' op H. etransitivity; [exact H | apply sstep_activations].
Qed.

Lemma replay_refused f now db a e at_ r :
  activations db !! (az_TenantID a, az_Nonce a) = Some r ->
  is_ok (snd (Accept f now db a e at_)) = false /\ fst (Accept f now db a e at_) = db.
Proof.
  intros Hr. assert (H : exists e', accept_body now a e at_ db = Err e').
  { unfold accept_body. destruct (checkPredecessor _ _); [eauto|]. destruct (negb _); [eauto|].
    rewrite Hr. eauto. }
  destruct H as [e' H]. unfold Accept, withTenant. destruct (String.eqb _ ""); [done|].
  unfold transaction. rewrite H. by destruct f.
Qed.

(** Accepting is a checked transition, once: an authorization is accepted only
    when the predecessor it names is the policy in force (bundle and content), its
    evidence is recorded in the same commit, and it becomes the current
    transition; presented again in any later state, it is refused and changes
    nothing. *)
Theorem Accept_is_a_checked_transition (f f' : TxFault) (now now' : Time) (db db' : Tables)
    (a : Authorization) (e e' : Evidence.Event) (at_ at' : Time) (tr : Transition)
    (ops : list sop) :
  Accept f now db a e at_ = (db', Ok tr) ->
  match current db !! az_TenantID a with
  | Some c => az_PriorBundleID a = c_bundle_id c /\
              az_PriorBundleContentHash a = c_bundle_content_hash c
  | None => az_PriorBundleID a = "" /\ az_PriorBundleContentHash a = ""
  end /\
  (exists ev, Evidence.AppendInTx (az_TenantID a) now (evidence db) e = Ok ev /\
     evidence db' = ev) /\
  Current Fine db' (az_TenantID a) = Ok tr /\
  (forall a', az_TenantID a' = az_TenantID a -> az_Nonce a' = az_Nonce a ->
     let db2 := run_ops sstep db' ops in
     is_ok (snd (Accept f' now' db2 a' e' at')) = false /\
     fst (Accept f' now' db2 a' e' at') = db2).
Proof.
  unfold Accept at 1, withTenant. destruct (String.eqb_spec (az_TenantID a) "") as [|Ht]; [done|].
  intros H. apply transaction_ok in H as [_ H].
  destruct (accept_body now a e at_ db) as [[db1 tr1]|] eqn:E; [|done]. injection H as <- <-.
  pose proof (accept_body_ok _ _ _ _ _ _ _ E) as (Hp & _ & _ & _ & Ha & Hc & Hev & _).
  cbn zeta in *. split_and!.
  - destruct (current db !! az_TenantID a) as [c|].
    + by apply checkPredecessor_some in Hp as (? & ? & _).
    + cbn in Hp. unfold str_nonempty in Hp.
      destruct (String.eqb_spec (az_PriorBundleID a) ""), (String.eqb_spec
        (az_PriorBundleContentHash a) ""); done.
  - done.
  - unfold Current, withTenant. destruct (String.eqb_spec (az_TenantID a) ""); [done|].
    cbn [transaction snd]. rewrite Hc, lookup_insert_eq. cbn [c_nonce].
    unfold transitionInTx. rewrite Ha, lookup_insert_eq.
    by rewrite <- (accept_body_transition _ _ _ _ _ _ _ E).
  - intros a' Ht' Hn'.
    destruct (activations (run_ops sstep db1 ops) !! (az_TenantID a', az_Nonce a')) as [r|] eqn:Er.
    + by eapply replay_refused.
    + exfalso. assert (Hin : activations db1 !! (az_TenantID a', az_Nonce a') =
                             Some (accepted a at_ db)).
      { by rewrite Ht', Hn', Ha, lookup_insert_eq. }
      pose proof (lookup_weaken _ _ _ _ Hin (run_activations db1 ops)). congruence.
Qed.

(** ** Keys *)

Lemma key_succ_refl r : key_succ r r.
Proof. unfold key_succ. auto 10. Qed.

Lemma key_succ_trans r1 r2 r3 : key_succ r1 r2 -> key_succ r2 r3 -> key_succ r1 r3.
Proof.
  intros (A1 & A2 & A3 & A4 & A5) (B1 & B2 & B3 & B4 & B5).
  split_and!; try congruence. destruct A5 as [->|[A5 A6]]; [done|].
  destruct B5 as [->|[B5 B6]]; [auto | congruence].
Qed.

(** Every key row is still there, as a successor of itself. *)
Definition keys_kept (db db' : Tables) : Prop :=
  forall k r, keys db !! k = Some r -> exists r', keys db' !! k = Some r' /\ key_succ r r'.

Lemma keys_kept_refl db : keys_kept db db.
Proof. intros k r H. exists r. split; [done | apply key_succ_refl]. Qed.

Lemma insert_key_ok db k db' b :
  insert_key db k = Ok (db', b) ->
  grants db' = grants db /\ evidence db' = evidence db /\
  ((b = false /\ db' = db /\ keys db !! (ak_TenantID k, ak_KeyID k) <> None) \/
   (b = true /\ keys db !! (ak_TenantID k, ak_KeyID k) = None /\
    keys db' = <[(ak_TenantID k, ak_KeyID k) :=
      mkKeyRow (ak_PublicKey k) (ak_Holder k) (nonEmpty (ak_Status k) "ACTIVE")
        (ak_ValidFrom k) (ak_ValidUntil k) None None]> (keys db))).
Proof.
  unfold insert_key. destruct (negb _); [done|]. destruct (negb _); [done|].
  destruct (keys db !! _) eqn:E; intros [= <- <-]; split_and!; try done; [left | right]; done.
Qed.

Lemma keys_kept_insert db k db' b : insert_key db k = Ok (db', b) -> keys_kept db db'.
Proof.
  intros H. apply insert_key_ok in H as (_ & _ & [(_ & -> & _)|(_ & Hn & Hk)]);
    [apply keys_kept_refl|].
  intros k' r Hr. exists r. split; [|apply key_succ_refl].
  rewrite Hk, lookup_insert_ne; [done | congruence].
Qed.

Lemma insert_grant_ok db t n g db' :
  insert_grant db t n g = Ok db' ->
  keys db' = keys db /\ evidence db' = evidence db /\ grants db !! (t, n) = None /\
  grants db' = <[(t, n) := g]> (grants db) /\
  (gr_action g = BootstrapAction -> has_bootstrap db t = false).
Proof.
  unfold insert_grant. destruct (negb _); [done|]. destruct (grants db !! (t, n)); [done|].
  destruct (String.eqb_spec (gr_action g) BootstrapAction) as [E|E];
    destruct (has_bootstrap db t) eqn:Eb; cbn [andb]; try done; intros [= <-]; by split_and!.
Qed.

(** The whole effect of an authorized registration. *)
Lemma register_authorized_ok now k nonce action actor signedBy aat e at_ db db' :
  register_authorized_body now k nonce action actor signedBy aat e at_ db = Ok db' ->
  let t := ak_TenantID k in
  (if String.eqb signedBy "" then tenant_rows (keys db) t = []
   else signer_refused db t signedBy at_ = None) /\
  grants db !! (t, nonce) = None /\
  grants db' = <[(t, nonce) := mkGrantRow action (ak_KeyID k) actor (nullIfEmpty signedBy)
                                 aat at_]> (grants db) /\
  keys db !! (t, ak_KeyID k) = None /\
  keys db' = <[(t, ak_KeyID k) :=
      mkKeyRow (ak_PublicKey k) (ak_Holder k) (nonEmpty (ak_Status k) "ACTIVE")
        (ak_ValidFrom k) (ak_ValidUntil k) None None]> (keys db) /\
  exists ev, Evidence.AppendInTx t now (evidence db) e = Ok ev /\ evidence db' = ev.
Proof.
  cbn zeta. unfold register_authorized_body. intros H.
  match type of H with match ?x with _ => _ end = _ => destruct x eqn:Er; [done|] end.
  destruct (insert_grant _ _ _ _) as [db1|] eqn:Eg; [|done].
  destruct (insert_key db1 k) as [[db2 b]|] eqn:Ek; [|done].
  destruct b; [|done]. apply appendEventTx_ok in H as (ev & Hev & ->).
  apply insert_grant_ok in Eg as (G1 & G2 & G3 & G4 & _).
  apply insert_key_ok in Ek as (K1 & K2 & [(? & _)|(_ & K3 & K4)]); [done|].
  rewrite G1 in K3, K4. rewrite K2, G2 in Hev. cbn. rewrite K1, K4.
  split_and!; try done; [|by exists ev].
  destruct (String.eqb signedBy ""); [|done].
  by destruct (tenant_rows (keys db) (ak_TenantID k)).
Qed.

Lemma RegisterKeyAuthorized_cases f now db k nonce action actor signedBy aat e at_ :
  let r := RegisterKeyAuthorized f now db k nonce action actor signedBy aat e at_ in
  (fst r = db /\ snd r <> Ok true) \/
  (ak_TenantID k <> "" /\
   register_authorized_body now k nonce action actor signedBy aat e at_ db = Ok (fst r)).
Proof.
  cbn zeta. unfold RegisterKeyAuthorized, withTenant. destruct (negb _); [by left|].
  destruct (String.eqb_spec (ak_TenantID k) ""); [by left|]. unfold transaction.
  destruct f; [|by left|]; destruct (register_authorized_body _ _ _ _ _ _ _ _ _ _) as [db'|er];
    cbn; try (by right); left; by destruct er.
Qed.

Lemma revoke_counted_keys n db t kid by_ at_ :
  fst (revoke_counted n db t kid by_ at_) = db \/
  exists r, keys db !! (t, kid) = Some r /\ k_status r = "ACTIVE" /\
    fst (revoke_counted n db t kid by_ at_) =
      set_keys db (<[(t, kid) := mkKeyRow (k_public_key r) (k_holder r) "REVOKED"
        (k_valid_from r) (k_valid_until r) (Some at_) (Some by_)]> (keys db)).
Proof.
  unfold revoke_counted. destruct (n <=? 1)%nat; [by left|].
  destruct (keys db !! (t, kid)) as [r|]; [|by left].
  destruct (String.eqb_spec (k_status r) "ACTIVE"); [|by left]. right. by exists r.
Qed.

Lemma sstep_keys db op : keys_kept db (sstep db op).
Proof.
  destruct op as [f k|f now k n ac who by_ aat e at_|f now t kid by_ at_|f now a e at_];
    cbn [sstep].
  - unfold RegisterKey. destruct (negb _); [apply keys_kept_refl|].
    match goal with |- context [withTenant f db ?t ?fn] =>
      destruct (store_tx f db t fn) as [->|(b & Hb & ->)]; [apply keys_kept_refl|] end.
    destruct (insert_key db k) as [[db' b']|] eqn:E; [|done]. by eapply keys_kept_insert.
  - destruct (RegisterKeyAuthorized_cases f now db k n ac who by_ aat e at_)
      as [[-> _]|[_ Hb]]; [apply keys_kept_refl|].
    apply register_authorized_ok in Hb as (_ & _ & _ & Hn & Hk & _).
    intros k' r Hr. exists r. split; [|apply key_succ_refl].
    rewrite Hk, lookup_insert_ne; [done | congruence].
  - unfold RevokeKey.
    match goal with |- context [withTenant f db ?t ?fn] =>
      destruct (store_tx f db t fn) as [->|(b & Hb & ->)]; [apply keys_kept_refl|] end.
    destruct (revoke_counted_keys (count_usable db t now) db t kid by_ at_)
      as [->|(r & Hr & Hs & ->)]; [apply keys_kept_refl|].
    intros k' r' Hr'. cbn. destruct (decide ((t, kid) = k')) as [<-|Hne].
    + rewrite lookup_insert_eq. eexists. split; [done|]. assert (r' = r) as -> by congruence.
      unfold key_succ. cbn. auto 10.
    + rewrite lookup_insert_ne by done. exists r'. split; [done | apply key_succ_refl].
  - destruct (Accept_state f now db a e at_) as [->|(db' & tr & Hb & ->)]; [apply keys_kept_refl|].
    apply accept_body_ok in Hb as (_ & _ & Hk & _). intros k r Hr. exists r.
    split; [by rewrite Hk | apply key_succ_refl].
Qed.

Lemma run_keys db ops : keys_kept db (run_ops sstep db ops).
Proof.
  apply (run_ops_invariant sstep (fun db' => keys_kept db db')); [|apply keys_kept_refl].
  intros db' op H k r Hr. destruct (H k r Hr) as (r1 & Hr1 & S1).
  destruct (sstep_keys db' op k r1 Hr1) as (r2 & Hr2 & S2).
  exists r2. split; [done | by eapply key_succ_trans].
Qed.

Lemma tenant_rows_in {A} (m : gmap (string * string) A) t k r :
  (k, r) ∈ tenant_rows m t <-> m !! (t, k) = Some r.
Proof.
  unfold tenant_rows. rewrite list_elem_of_omap. split.
  - intros ([[t' k'] r'] & Hin & H). apply elem_of_map_to_list in Hin.
    destruct (String.eqb_spec t' t) as [->|]; [|done]. by injection H as -> ->.
  - intros H. exists ((t, k), r). split; [by apply elem_of_map_to_list|].
    by rewrite String.eqb_refl.
Qed.

(** Authority over policy is granted once by bootstrap and afterwards only by
    itself: a key is registered with its grant and its evidence in one commit,
    either as the bootstrap of a tenant that holds no key, after which no
    bootstrap ever succeeds again for that tenant, or on the word of a
    registered key that is usable at that moment; and no later operation
    replaces its public key or revives it once revoked. *)
Theorem key_authority_extends_itself (f f' : TxFault) (now now' : Time) (db db' : Tables)
    (k k' : ActivationKey) (nonce nonce' action action' actor actor' signedBy : string)
    (aat aat' at_ at' : Time) (e e' : Evidence.Event) (ops : list sop) :
  RegisterKeyAuthorized f now db k nonce action actor signedBy aat e at_ = (db', Ok true) ->
  let t := ak_TenantID k in
  (if String.eqb signedBy "" then
     tenant_rows (keys db) t = []
   else signer_refused db t signedBy at_ = None) /\
  grants db' !! (t, nonce) =
    Some (mkGrantRow action (ak_KeyID k) actor (nullIfEmpty signedBy) aat at_) /\
  (exists ev, Evidence.AppendInTx t now (evidence db) e = Ok ev /\ evidence db' = ev) /\
  (exists r r', keys db' !! (t, ak_KeyID k) = Some r /\ k_public_key r = ak_PublicKey k /\
     keys (run_ops sstep db' ops) !! (t, ak_KeyID k) = Some r' /\ key_succ r r') /\
  (ak_TenantID k' = t ->
   snd (RegisterKeyAuthorized f' now' (run_ops sstep db' ops) k' nonce' action' actor' "" aat'
          e' at') <> Ok true).
Proof.
  cbn zeta. intros H.
  destruct (RegisterKeyAuthorized_cases f now db k nonce action actor signedBy aat e at_)
    as [[_ Hno]|[_ Hb]]; [by rewrite H in Hno|]. rewrite H in Hb. cbn [fst] in Hb.
  apply register_authorized_ok in Hb as (Hs & _ & Hg & Hn & Hk & Hev). cbn zeta in *.
  assert (Hin : keys db' !! (ak_TenantID k, ak_KeyID k) =
    Some (mkKeyRow (ak_PublicKey k) (ak_Holder k) (nonEmpty (ak_Status k) "ACTIVE")
            (ak_ValidFrom k) (ak_ValidUntil k) None None)) by by rewrite Hk, lookup_insert_eq.
  destruct (run_keys db' ops _ _ Hin) as (r' & Hr' & Hsucc).
  split_and!; try done.
  - by rewrite Hg, lookup_insert_eq.
  - by eexists _, r'.
  - intros Ht' Hok.
    destruct (RegisterKeyAuthorized_cases f' now' (run_ops sstep db' ops) k' nonce' action' actor'
                "" aat' e' at') as [[_ Hno]|[_ Hb']]; [done|].
    apply register_authorized_ok in Hb' as (Hnil & _). cbn [String.eqb] in Hnil.
    rewrite Ht' in Hnil. apply tenant_rows_in in Hr'. rewrite Hnil in Hr'.
    by apply not_elem_of_nil in Hr'.
Qed.
End StoreFacts.

(** * Revocation and the last usable key *)

Import Store.

(** The usable keys of a tenant, as a count over its rows. *)
Definition counted (t : string) (now : Time) (x : (string * string) * KeyRow) : bool :=
  String.eqb (fst (fst x)) t && usable_row now (snd x).

Lemma count_usable_rows db t now :
  count_usable db t now = length (List.filter (counted t now) (map_to_list (keys db))).
Proof.
  unfold count_usable, tenant_rows. induction (map_to_list (keys db)) as [|[[t' k] r] l IH]; [done|].
  cbn [omap list_omap List.filter]. unfold counted at 1. cbn [fst snd].
  destruct (String.eqb t' t); cbn [andb]; [|exact IH].
  cbn [List.filter]. destruct (usable_row now r); cbn [length]; [by rewrite <- IH | exact IH].
Qed.

Definition one (b : bool) : nat := if b then 1%nat else 0%nat.

Lemma count_insert m t now k r r' :
  m !! k = Some r ->
  (length (List.filter (counted t now) (map_to_list (<[k := r']> m))) + one (counted t now (k, r)) =
   length (List.filter (counted t now) (map_to_list m)) + one (counted t now (k, r')))%nat.
Proof.
  intros Hk. rewrite <- (insert_delete_id m k r Hk) at 2. rewrite <- insert_delete_eq.
  assert (Hd : delete k m !! k = None) by apply lookup_delete_eq.
  rewrite (Permutation_length (filter_perm _ _ _ (map_to_list_insert _ k r' Hd))).
  rewrite (Permutation_length (filter_perm _ _ _ (map_to_list_insert _ k r Hd))).
  cbn [List.filter]. destruct (counted t now (k, r)), (counted t now (k, r')); cbn; lia.
Qed.

(** Revoking one key removes at most one usable key. *)
Lemma count_revoked db t now kid r at_ by_ :
  keys db !! (t, kid) = Some r ->
  let r' := mkKeyRow (k_public_key r) (k_holder r) "REVOKED" (k_valid_from r)
              (k_valid_until r) (Some at_) (Some by_) in
  (count_usable (set_keys db (<[(t, kid) := r']> (keys db))) t now + one (usable_row now r) =
   count_usable db t now)%nat.
Proof.
  cbn zeta. intros Hr. rewrite !count_usable_rows. cbn [keys set_keys].
  pose proof (count_insert (keys db) t now (t, kid) r
    (mkKeyRow (k_public_key r) (k_holder r) "REVOKED" (k_valid_from r) (k_valid_until r)
       (Some at_) (Some by_)) Hr) as H.
  unfold counted at 2 4 in H. cbn [fst snd] in H. rewrite String.eqb_refl in H.
  unfold usable_row at 2 in H. cbn [k_status] in H. cbn [String.eqb Ascii.eqb Bool.eqb andb one] in H.
  lia.
Qed.

Lemma revoke_counted_leaves n db t kid by_ at_ now db' b :
  n = count_usable db t now -> revoke_counted n db t kid by_ at_ = (db', Ok b) ->
  (2 <= count_usable db t now)%nat /\ (count_usable db t now <= 1 + count_usable db' t now)%nat.
Proof.
  intros -> H. unfold revoke_counted in H.
  destruct (Nat.leb_spec (count_usable db t now) 1) as [|Hn]; [done|]. split; [lia|].
  destruct (keys db !! (t, kid)) as [r|] eqn:Er; [|injection H as <- _; lia].
  destruct (String.eqb (k_status r) "ACTIVE"); [|injection H as <- _; lia].
  injection H as <- _. pose proof (count_revoked db t now kid r at_ by_ Er) as Hc.
  cbn zeta in Hc. unfold one in Hc. destruct (usable_row now r); lia.
Qed.

(** Revocation, one at a time, never takes the last usable key: after a
    successful RevokeKey the tenant still has a key able to authorize at that
    moment; a refusal changes nothing. *)
Theorem RevokeKey_keeps_one (f : TxFault) (now : Time) (db db' : Tables)
    (t keyID by_ : string) (at_ : Time) :
  (forall b, RevokeKey f now db t keyID by_ at_ = (db', Ok b) ->
     (1 <= count_usable db' t now)%nat) /\
  (RevokeKey f now db t keyID by_ at_ = (db', Err (ErrCode "ACTIVATION_KEY_LAST_USABLE")) ->
     db' = db).
Proof.
  unfold RevokeKey, withTenant. destruct (String.eqb t ""); [by split; intros; simplify_eq|].
  split.
  - intros b H. apply transaction_ok in H as [_ H].
    destruct (revoke_counted_leaves _ _ _ _ _ _ now _ _ eq_refl H). lia.
  - unfold transaction. destruct f; try done;
      destruct (revoke_counted _ _ _ _ _ _) as [db1 [b|er]]; intros; by simplify_eq.
Qed.

(** Revocation takes no lock, so two at once can take every key: when a tenant
    has exactly two usable keys, two revocations that both count before either
    updates leave it with none, although one after the other the second would be
    refused. *)
Theorem concurrent_revocations_leave_none (db : Tables) (t k1 k2 by1 by2 : string)
    (r1 r2 : KeyRow) (now at1 at2 : Time) :
  k1 <> k2 -> keys db !! (t, k1) = Some r1 -> keys db !! (t, k2) = Some r2 ->
  usable_row now r1 = true -> usable_row now r2 = true -> count_usable db t now = 2%nat ->
  let n1 := count_usable db t now in
  let n2 := count_usable db t now in
  let db1 := fst (revoke_counted n1 db t k1 by1 at1) in
  let db2 := fst (revoke_counted n2 db1 t k2 by2 at2) in
  count_usable db2 t now = 0%nat /\
  snd (revoke_counted (count_usable db1 t now) db1 t k2 by2 at2) =
    Err (ErrCode "ACTIVATION_KEY_LAST_USABLE").
Proof.
  intros Hne H1 H2 U1 U2 Hc. cbn zeta. rewrite Hc.
  assert (A : forall r, usable_row now r = true -> k_status r = "ACTIVE").
  { intros r. unfold usable_row. destruct (String.eqb_spec (k_status r) "ACTIVE"); done. }
  pose proof (count_revoked db t now k1 r1 at1 by1 H1) as C1. cbn zeta in C1.
  rewrite U1, Hc in C1. cbn [one] in C1.
  assert (Hdb1 : fst (revoke_counted 2 db t k1 by1 at1) =
    set_keys db (<[(t, k1) := mkKeyRow (k_public_key r1) (k_holder r1) "REVOKED"
      (k_valid_from r1) (k_valid_until r1) (Some at1) (Some by1)]> (keys db))).
  { unfold revoke_counted. cbn [Nat.leb]. by rewrite H1, (A r1 U1). }
  rewrite !Hdb1. set (db1 := set_keys db _) in *.
  assert (H2' : keys db1 !! (t, k2) = Some r2).
  { cbn. rewrite lookup_insert_ne; [done|congruence]. }
  pose proof (count_revoked db1 t now k2 r2 at2 by2 H2') as C2. cbn zeta in C2.
  rewrite U2 in C2. cbn [one] in C2. split.
  - unfold revoke_counted. cbn [Nat.leb]. rewrite H2', (A r2 U2).
    cbn [String.eqb Ascii.eqb Bool.eqb fst]. lia.
  - unfold revoke_counted. destruct (Nat.leb_spec (count_usable db1 t now) 1); [done | lia].
Qed.

(** * Witnesses *)

Definition toy_key (id : string) (b : nat) : ActivationKey :=
  mkActivationKey "tenant-1" id (repeat b 32) "holder" "" 0 None None "".

Definition toy_event (id : string) (name : string) : Evidence.Event :=
  Evidence.mkEvent "0.1" id name "tenant-1" "bundle-1" "bundle-1" "" 5 5 "assurance-gateway" 0
    "" None.

Definition toy_authorization (nonce bundle hash prior prior_hash : string) : Authorization :=
  mkAuthorization "v0.1" "tenant-1" bundle hash prior prior_hash ActionActivate "risk-officer" ""
    3 nonce (mkSignature "Ed25519" "k-1" "00").

#[local] Instance toy_json : Evidence.JSON := Evidence.toy_json.

Definition one_key : Tables :=
  fst (RegisterKeyAuthorized Fine 1 empty_tables (toy_key "k-1" 1) "n-0" BootstrapAction "op" ""
         1 (toy_event "tenant-1_n-0" "policy.activation_key.registered.v1") 1).

Example key_authority_extends_itself_witness :
  tenant_rows (keys empty_tables) "tenant-1" = [] /\
  snd (RegisterKeyAuthorized Fine 9 (run_ops sstep one_key []) (toy_key "k-9" 9) "n-9"
         BootstrapAction "op" "" 9 (toy_event "e-9" "policy.activation_key.registered.v1") 9)
    <> Ok true.
Proof.
  assert (H : RegisterKeyAuthorized Fine 1 empty_tables (toy_key "k-1" 1) "n-0" BootstrapAction
    "op" "" 1 (toy_event "tenant-1_n-0" "policy.activation_key.registered.v1") 1 =
    (one_key, Ok true)) by (vm_compute; reflexivity).
  destruct (key_authority_extends_itself Fine Fine 1 9 empty_tables one_key (toy_key "k-1" 1)
    (toy_key "k-9" 9) "n-0" "n-9" BootstrapAction BootstrapAction "op" "op" "" 1 9 1 9
    (toy_event "tenant-1_n-0" "policy.activation_key.registered.v1")
    (toy_event "e-9" "policy.activation_key.registered.v1") [] H) as (H1 & _ & _ & _ & H5).
  split; [exact H1 | exact (H5 eq_refl)].
Defined.

Definition first_authorization : Authorization := toy_authorization "n-1" "bundle-1" "h-1" "" "".

Definition activated : Tables :=
  fst (Accept Fine 2 one_key first_authorization (toy_event "tenant-1_n-1" Evidence.PolicyBundleActivated) 2).

Definition first_transition : Transition :=
  mkTransition "tenant-1" "n-1" "bundle-1" "h-1" "" ActionActivate "risk-officer" "" "k-1" 3 2.

Example Accept_is_a_checked_transition_witness :
  Current Fine activated "tenant-1" = Ok first_transition /\
  is_ok (snd (Accept Fine 9 (run_ops sstep activated []) first_authorization
    (toy_event "e-9" Evidence.PolicyBundleActivated) 9)) = false.
Proof.
  assert (H : Accept Fine 2 one_key first_authorization
    (toy_event "tenant-1_n-1" Evidence.PolicyBundleActivated) 2 = (activated, Ok first_transition))
    by (vm_compute; reflexivity).
  destruct (Accept_is_a_checked_transition Fine Fine 2 9 one_key activated first_authorization
    (toy_event "tenant-1_n-1" Evidence.PolicyBundleActivated)
    (toy_event "e-9" Evidence.PolicyBundleActivated) 2 9 first_transition [] H)
    as (_ & _ & H3 & H4).
  split; [exact H3 | exact (proj1 (H4 first_authorization eq_refl eq_refl))].
Defined.

Definition two_keys : Tables := fst (RegisterKey Fine one_key (toy_key "k-2" 2)).

Example RevokeKey_keeps_one_witness :
  (1 <= count_usable (fst (RevokeKey Fine 5 two_keys "tenant-1" "k-1" "op" 5)) "tenant-1" 5)%nat.
Proof.
  destruct (RevokeKey_keeps_one Fine 5 two_keys
    (fst (RevokeKey Fine 5 two_keys "tenant-1" "k-1" "op" 5)) "tenant-1" "k-1" "op" 5) as [H _].
  apply (H true). vm_compute. reflexivity.
Defined.

Example concurrent_revocations_leave_none_witness :
  count_usable two_keys "tenant-1" 5 = 2%nat /\
  let db1 := fst (revoke_counted (count_usable two_keys "tenant-1" 5) two_keys "tenant-1" "k-1" "a" 5) in
  count_usable (fst (revoke_counted (count_usable two_keys "tenant-1" 5) db1 "tenant-1" "k-2" "b" 5))
    "tenant-1" 5 = 0%nat.
Proof.
  split; [vm_compute; reflexivity|].
  refine (proj1 (concurrent_revocations_leave_none two_keys "tenant-1" "k-1" "k-2" "a" "b"
    (mkKeyRow (repeat 1%nat 32) "holder" "ACTIVE" 0 None None None)
    (mkKeyRow (repeat 2%nat 32) "holder" "ACTIVE" 0 None None None) 5 5 5 _ _ _ _ _ _));
    [discriminate | vm_compute; reflexivity..].
Defined.
