(* ===== verification/Http.v ===== *)
(** What the gateway's handlers share: internal/gateway/http.go.

    A [Request] is the part of an HTTP request the handlers read, a [Response] the
    status and the body they write; texts written for people are reduced to a few words.
    [callerTenant] decides whose data a request may touch and [privileged] whether its
    caller holds one of the separate privileges.  A handler resolves the caller once for
    each, so the clock is read anew each time: [clock] numbers its readings. *)

From S2P Require Import Prelude Strings Identity.
From S2P Require Evidence.

Definition MaxEnvelopeBytes : nat := 256 * 1024.

Record Request := mkRequest {
  rq_Authorization : string;
  rq_TenantHeader : string;
  (** nil without TLS *)
  rq_PeerCertificates : list Certificate;
  (** [None] is a body that could not be read *)
  rq_Body : option string;
  rq_PathID : string
}.

Inductive Body :=
| BError (what : string)
| BProblems (details : list string)
| BFields (fields : list (string * Evidence.Value)).

Record Response := mkResponse { rp_Status : Z; rp_Body : Body }.

Definition StatusOK : Z := 200.
Definition StatusCreated : Z := 201.
Definition StatusAccepted : Z := 202.
Definition StatusBadRequest : Z := 400.
Definition StatusUnauthorized : Z := 401.
Definition StatusForbidden : Z := 403.
Definition StatusNotFound : Z := 404.
Definition StatusConflict : Z := 409.
Definition StatusRequestEntityTooLarge : Z := 413.
Definition StatusUnprocessableEntity : Z := 422.
Definition StatusInternalServerError : Z := 500.
Definition StatusServiceUnavailable : Z := 503.

Definition errorBody (status : Z) (what : string) : Response := mkResponse status (BError what).

(** [io.ReadAll(io.LimitReader(r.Body, MaxEnvelopeBytes+1))] and the length check. *)
Definition readBody (r : Request) : option string :=
  match rq_Body r with
  | Some raw => if (MaxEnvelopeBytes <? String.length raw)%nat then None else Some raw
  | None => None
  end.

Definition presentedFrom (r : Request) (creds : option Credentials) : Presented :=
  FromTransport (rq_Authorization r) (rq_PeerCertificates r) creds.

(** The problems of a request body, as its [validate] collects them. *)
Definition require (value name : string) : list string := if blank value then [name] else [].
Definition problem (bad : bool) (what : string) : list string := if bad then [what] else [].

Lemma require_nil value name : require value name = [] <-> blank value = false.
Proof. unfold require. by destruct (blank value). Qed.

Lemma problem_nil bad what : problem bad what = [] <-> bad = false.
Proof. unfold problem. by destruct bad. Qed.

(** The privileges that are separate from submitting. *)
Inductive Privilege := IssueAuthority | RegisterKeys | RegisterActivationKeys.

Definition of_caller (pr : Privilege) (c : Caller) : bool :=
  match pr with
  | IssueAuthority => cr_MayIssueAuthority c
  | RegisterKeys => cr_MayRegisterKeys c
  | RegisterActivationKeys => cr_MayRegisterActivationKeys c
  end.

Definition of_presented (pr : Privilege) (p : Presented) : bool :=
  match pr with
  | IssueAuthority => p_MayIssueAuthority p
  | RegisterKeys => p_MayRegisterKeys p
  | RegisterActivationKeys => p_MayRegisterActivationKeys p
  end.

Definition of_attested (pr : Privilege) (a : Attested) : bool :=
  match pr with
  | IssueAuthority => a_MayIssueAuthority a
  | RegisterKeys => a_MayRegisterKeys a
  | RegisterActivationKeys => a_MayRegisterActivationKeys a
  end.

Section Callers.
Context {Pool : Type} (chain : Pool -> list Certificate -> Certificate -> Time -> option X509Error).

(** The credentials and the verifier a handler was built with; a nil verifier is the
    empty one. *)
Record Server := mkServer {
  sv_creds : option Credentials;
  sv_verifier : option (Verifier (Pool := Pool))
}.

Definition verifier_of (sv : Server) : Verifier :=
  default (mkVerifier "" None None) (sv_verifier sv).

Definition resolve (sv : Server) (clock : nat -> Time) (n : nat) (r : Request) : Attested :=
  Resolve chain (verifier_of sv) (clock n) (clock (S n)) (presentedFrom r (sv_creds sv)).

Definition callerTenant (sv : Server) (clock : nat -> Time) (r : Request) : result string Response :=
  let attested := resolve sv clock 0 r in
  match RequireExecutable attested with
  | Some _ => Err (errorBody StatusUnauthorized "the caller is not authenticated")
  | None =>
      let claimed := TrimSpace (rq_TenantHeader r) in
      if String.eqb (a_TenantID attested) "" then
        Err (errorBody StatusUnauthorized "no tenant is established")
      else if str_nonempty claimed && negb (String.eqb claimed (a_TenantID attested)) then
        Err (errorBody StatusForbidden "the request names another tenant")
      else Ok (a_TenantID attested)
  end.

(** The second resolution, for a privilege. *)
Definition privileged (pr : Privilege) (sv : Server) (clock : nat -> Time) (r : Request) : bool :=
  of_attested pr (resolve sv clock 2 r).

(** [registrar] of agentkeys.go and [activationRegistrar] of activationkeys.go: the
    tenant and the identity of a caller that holds the privilege. *)
Definition registrar (pr : Privilege) (sv : Server) (clock : nat -> Time) (r : Request)
    : result (string * string) Response :=
  match callerTenant sv clock r with
  | Err answer => Err answer
  | Ok tenant =>
      if privileged pr sv clock r then Ok (tenant, a_APIIdentity (resolve sv clock 2 r))
      else Err (errorBody StatusForbidden "this credential may not")
  end.

(** * Properties *)

Lemma registrar_ok pr sv clock r t who :
  registrar pr sv clock r = Ok (t, who) ->
  callerTenant sv clock r = Ok t /\ privileged pr sv clock r = true.
Proof.
  unfold registrar. destruct (callerTenant _ _ _); [|done].
  destruct (privileged _ _ _ _) eqn:E; [|done]. by intros [= <- _].
Qed.

Lemma callerTenant_ok sv clock r t :
  callerTenant sv clock r = Ok t ->
  a_TenantID (resolve sv clock 0 r) = t /\ t <> "" /\
  RequireExecutable (resolve sv clock 0 r) = None /\
  (TrimSpace (rq_TenantHeader r) = "" \/ TrimSpace (rq_TenantHeader r) = t).
Proof.
  unfold callerTenant, str_nonempty. destruct (RequireExecutable _); [done|].
  destruct (String.eqb_spec (a_TenantID (resolve sv clock 0 r)) ""); [done|].
  destruct (String.eqb_spec (TrimSpace (rq_TenantHeader r)) ""); cbn [negb andb].
  { intros [= <-]. auto. }
  destruct (String.eqb_spec (TrimSpace (rq_TenantHeader r)) (a_TenantID (resolve sv clock 0 r))); [|done].
  intros [= <-]. auto.
Qed.

Lemma callerTenant_refuses sv clock r answer :
  callerTenant sv clock r = Err answer ->
  rp_Status answer = StatusUnauthorized \/ rp_Status answer = StatusForbidden.
Proof.
  unfold callerTenant. destruct (RequireExecutable _); [intros [= <-]; by left|].
  destruct (String.eqb _ ""); [intros [= <-]; by left|].
  destruct (_ && _); [intros [= <-]; by right | done].
Qed.

Lemma registrar_refuses pr sv clock r answer :
  registrar pr sv clock r = Err answer ->
  rp_Status answer = StatusUnauthorized \/ rp_Status answer = StatusForbidden.
Proof.
  unfold registrar. destruct (callerTenant _ _ _) eqn:E.
  - destruct (privileged _ _ _ _); [done|]. intros [= <-]. by right.
  - intros [= <-]. by apply callerTenant_refuses in E.
Qed.

(** The request presents a known credential with the privilege. *)
Definition presents (pr : Privilege) (creds : option Credentials) (r : Request) (caller : Caller)
    : Prop :=
  exists token, CutPrefix (rq_Authorization r) "Bearer " = Some token /\
    Identify creds (TrimSpace token) = Some caller /\ of_caller pr caller = true.

Lemma presented_by_token pr r creds :
  of_presented pr (presentedFrom r creds) = true ->
  exists caller, presents pr creds r caller /\
    p_TenantID (presentedFrom r creds) = cr_TenantID caller.
Proof.
  unfold presentedFrom, FromTransport, presents. intros H.
  destruct (CutPrefix _ _) as [token|] eqn:Ec; [|by destruct pr].
  destruct (Identify _ _) as [caller|] eqn:Ei; [|by destruct pr].
  exists caller. split; [|done]. exists token. split_and!; [done..|]. by destruct pr.
Qed.

(** A workload certificate never carries a privilege: only a credential does. *)
Lemma Resolve_privilege pr (v : Verifier) now now' p :
  of_attested pr (Resolve chain v now now' p) = true -> of_presented pr p = true.
Proof.
  unfold Resolve, degraded. destruct (p_SVID p); [destruct (Verify _ _ _ _ _)|];
    try destruct (str_nonempty _); destruct pr; cbn; done.
Qed.

Lemma resolve_tenant_by_token sv clock n r :
  rq_PeerCertificates r = [] -> a_TenantID (resolve sv clock n r) <> "" ->
  a_TenantID (resolve sv clock n r) = p_TenantID (presentedFrom r (sv_creds sv)).
Proof.
  intros Hc. unfold resolve, Resolve.
  assert (E : p_SVID (presentedFrom r (sv_creds sv)) = None).
  { unfold presentedFrom, FromTransport. rewrite Hc.
    destruct (CutPrefix _ _); [destruct (Identify _ _)|]; done. }
  rewrite E. unfold degraded. by destruct (str_nonempty _).
Qed.

(** What a handler that asked for both knows of its caller: it presented a credential
    with the privilege, and without a client certificate that credential is the
    tenant's own. *)
Lemma privileged_caller pr sv clock r t :
  callerTenant sv clock r = Ok t -> privileged pr sv clock r = true ->
  exists caller, presents pr (sv_creds sv) r caller /\
    (rq_PeerCertificates r = [] -> cr_TenantID caller = t).
Proof.
  intros Ht Hp. apply callerTenant_ok in Ht as (Ht & Hne & _).
  unfold privileged, resolve in Hp. apply Resolve_privilege in Hp.
  apply presented_by_token in Hp as (caller & Hp & Hten). exists caller. split; [done|].
  intros Hc. rewrite <- Hten, <- Ht. symmetry. apply resolve_tenant_by_token; [done|].
  by rewrite Ht.
Qed.
(** A handler resolves its caller twice and takes the tenant from the first
    resolution and the privilege from the second.  When the client certificate expires
    between them, the request acts for the tenant of the certificate with the privilege
    of the credential beside it, whatever tenant that credential belongs to. *)
Theorem expiring_certificate_splits_a_request (pr : Privilege) (sv : Server)
    (clock : nat -> Time) (r : Request) (caller : Caller) (leaf : Certificate)
    (rest : list Certificate) (v : VerifiedIdentity) (t e : string) :
  presents pr (sv_creds sv) r caller -> cr_Identity caller <> "" ->
  rq_PeerCertificates r = leaf :: rest -> TrimSpace (rq_TenantHeader r) = "" ->
  Verify chain (verifier_of sv) (clock 1%nat) (Some leaf) rest = Ok v ->
  TenantFor (v_Workloads (verifier_of sv)) (vi_ID v) = Some t -> t <> "" ->
  Verify chain (verifier_of sv) (clock 3%nat) (Some leaf) rest = Err e ->
  callerTenant sv clock r = Ok t /\ privileged pr sv clock r = true.
Proof.
  intros (token & Hc & Hi & Hp) Hid Hcert Hh Hv Ht Hne He.
  assert (E : presentedFrom r (sv_creds sv) = mkPresented (Some leaf) rest (cr_Identity caller)
    (cr_TenantID caller) (cr_MayIssueAuthority caller) (cr_MayRegisterKeys caller)
    (cr_MayRegisterActivationKeys caller)).
  { unfold presentedFrom, FromTransport. by rewrite Hc, Hi, Hcert. }
  unfold callerTenant, privileged, resolve. rewrite E. unfold Resolve. cbn [p_SVID p_Intermediates].
  rewrite Hv, He, Ht. cbn [default a_TenantID]. rewrite Hh. split.
  - change (RequireExecutable _) with (@None string). cbn.
    destruct (String.eqb_spec t ""); [done | reflexivity].
  - unfold degraded, str_nonempty. cbn [p_APIIdentity].
    destruct (String.eqb_spec (cr_Identity caller) ""); [done|]. by destruct pr.
Qed.
End Callers.

Arguments mkServer {Pool}.

(** * Witness *)

Definition demo_expiring (_ : unit) (_ : list Certificate) (leaf : Certificate) (now : Time)
    : option X509Error := if ct_NotAfter leaf <? now then Some X509Expired else None.
Definition other_tenants_issuer : Caller := mkCaller "mallory" "tenant-9" true false false.
Definition split_server : Server (Pool := unit) :=
  mkServer (Some {[ "token-2" := other_tenants_issuer ]}) (Some demo_verifier).
Definition split_request : Request := mkRequest "Bearer token-2" "" [demo_leaf] None "".
Definition past_expiry (n : nat) : Time :=
  if (n <? 2)%nat then ct_NotAfter demo_leaf else ct_NotAfter demo_leaf + 1.

Example expiring_certificate_splits_a_request_witness :
  callerTenant demo_expiring split_server past_expiry split_request = Ok "tenant-2" /\
  privileged demo_expiring IssueAuthority split_server past_expiry split_request = true.
Proof.
  assert (Hv : exists v, Verify demo_expiring (verifier_of split_server) (past_expiry 1)
      (Some demo_leaf) [] = Ok v /\
      TenantFor (v_Workloads (verifier_of split_server)) (vi_ID v) = Some "tenant-2")
    by (eexists; split; vm_compute; reflexivity).
  assert (He : exists e, Verify demo_expiring (verifier_of split_server) (past_expiry 3)
      (Some demo_leaf) [] = Err e) by (eexists; vm_compute; reflexivity).
  destruct Hv as (v & Hv & Ht), He as (e & He).
  apply (expiring_certificate_splits_a_request demo_expiring IssueAuthority split_server past_expiry
    split_request other_tenants_issuer demo_leaf [] v "tenant-2" e); try assumption; try reflexivity.
  - exists "token-2". split; [reflexivity|]. split; [vm_compute; reflexivity | reflexivity].
  - discriminate.
  - discriminate.
Defined.
