(* ===== verification/Grants.v ===== *)
(** Authority grants over their life: internal/authority/store.go and the handlers of
    internal/gateway/grants.go and intents.go that issue and revoke them.

    [Store] is the table authority_grants by (tenant, grant id) with its checks.  A
    handler is the composition of what it reads ([..._checked]) and what it then writes
    ([..._commit]), two transactions with nothing held between them, so two requests
    can interleave there.  [Admin] is the state both handlers change. *)

From S2P Require Import Prelude Strings Money Intent Identity Authority Http.
From S2P Require Evidence.

(** * The store *)

Module Store.
(** A row is the grant it scans to: empty and null lists, and null and empty reasons,
    read back alike. *)
Abbreviation Tables := (gmap (string * string) Grant).

Inductive StoreError := ErrGrantNotFound | ErrTenantContextMissing | ErrDatabase (what : string).

Definition withTenant {A : Type} (f : TxFault) (db : Tables) (tenantID : string)
    (fn : Tables -> Tables * result A StoreError) : Tables * result A StoreError :=
  if String.eqb tenantID "" then (db, Err ErrTenantContextMissing)
  else transaction ErrDatabase f db fn.

(** The checks of the table, and the range of its integer column. *)
Definition constraint_violated (g : Grant) : option string :=
  if negb (contains [StatusActive; StatusRevoked] (g_Status g)) then
    Some "authority_grants_status_valid"
  else if negb (Bool.eqb (String.eqb (g_Status g) StatusRevoked) (negb (isNil (g_RevokedAt g)))) then
    Some "authority_grants_revocation_complete"
  else if negb (After (g_ValidUntil g) (g_ValidFrom g)) then Some "authority_grants_window_ordered"
  else if negb ((- 2 ^ 31 <=? MaxOpenOrders (g_Limits g)) && (MaxOpenOrders (g_Limits g) <? 2 ^ 31))
  then Some "integer out of range"
  else None.

(** ON CONFLICT DO UPDATE SET: what an upsert changes of an existing row. *)
Definition updated (old new : Grant) : Grant :=
  mkGrant (g_GrantID old) (g_TenantID old) (g_PrincipalID old) (g_AccountID old) (g_AgentID old)
    (g_IssuedAt old) (g_ValidFrom old) (g_ValidUntil new) (g_AllowedOperations new)
    (g_AllowedAssetClasses new) (g_AllowedInstruments new) (g_DeniedInstruments new) (g_Limits new)
    (g_Status new) (g_RevokedAt new) (g_RevocationReason new).

Definition Load (f : TxFault) (db : Tables) (tenantID grantID : string) : result Grant StoreError :=
  snd (withTenant f db tenantID (fun db =>
    (db, match db !! (tenantID, grantID) with
         | None => Err ErrGrantNotFound
         | Some g => Ok g
         end))).

Definition Save (f : TxFault) (db : Tables) (g : Grant) : Tables * result unit StoreError :=
  withTenant f db (g_TenantID g) (fun db =>
    match constraint_violated g with
    | Some c => (db, Err (ErrDatabase c))
    | None =>
        let row := match db !! (g_TenantID g, g_GrantID g) with
                   | None => g
                   | Some old => updated old g
                   end in
        match constraint_violated row with
        | Some c => (db, Err (ErrDatabase c))
        | None => (<[(g_TenantID g, g_GrantID g) := row]> db, Ok tt)
        end
    end).

Definition Revoke (f : TxFault) (db : Tables) (tenantID grantID : string) (at_ : Time)
    (reason : string) : Tables * result unit StoreError :=
  withTenant f db tenantID (fun db =>
    match db !! (tenantID, grantID) with
    | Some g =>
        if String.eqb (g_Status g) StatusActive then
          (<[(tenantID, grantID) := Authority.Revoke g at_ reason]> db, Ok tt)
        else (db, Err ErrGrantNotFound)
    | None => (db, Err ErrGrantNotFound)
    end).
End Store.

(** [StoreGrants.Load]: the provider of the pipeline; [None] is no store. *)
Definition StoreGrants_Load (f : TxFault) (store : option Store.Tables) (tenantID grantID : string)
    : result (option Grant) string :=
  match store with
  | None => Err "no authority store is configured"
  | Some db =>
      match Store.Load f db tenantID grantID with
      | Ok g => Ok (Some g)
      | Err Store.ErrGrantNotFound => Err "authority grant not found"
      | Err Store.ErrTenantContextMissing => Err "no tenant in context"
      | Err (Store.ErrDatabase what) => Err what
      end
  end.

(** * Issuing *)

Record grantRequest := mkGrantRequest {
  gq_GrantID : string;
  gq_PrincipalID : string;
  gq_AccountID : string;
  gq_AgentID : string;
  gq_IssuedBy : string;
  gq_ValidFrom : Time;
  gq_ValidUntil : Time;
  gq_AllowedOperations : list string;
  gq_AllowedAssetClasses : list string;
  gq_AllowedInstruments : list string;
  gq_DeniedInstruments : list string;
  gq_PerOrderNotional : Amount;
  gq_Rolling1hNotional : Amount;
  gq_DailyNotional : Amount;
  gq_MaxOpenOrders : Z;
  gq_MarginAllowed : option bool;
  gq_ShortingAllowed : option bool
}.

Definition grant_problems (g : grantRequest) : list string :=
  require (gq_GrantID g) "grant_id" ++ require (gq_PrincipalID g) "principal_id" ++
  require (gq_AccountID g) "account_id" ++ require (gq_AgentID g) "agent_id" ++
  require (gq_IssuedBy g) "issued_by" ++
  (if IsZero (gq_ValidUntil g) then ["valid_until is required"]
   else problem (negb (IsZero (gq_ValidFrom g)) && negb (After (gq_ValidUntil g) (gq_ValidFrom g)))
          "valid_until must be after valid_from") ++
  problem (length (gq_AllowedOperations g) =? 0)%nat "allowed_operations is required" ++
  problem (length (gq_AllowedAssetClasses g) =? 0)%nat "allowed_asset_classes is required" ++
  problem (gq_PerOrderNotional g <=? 0) "per_order_notional must be positive" ++
  problem (negb (isNil (gq_MarginAllowed g))) "margin_allowed" ++
  problem (negb (isNil (gq_ShortingAllowed g))) "shorting_allowed".

Definition word (s : string) : string := ToUpper (TrimSpace s).

Definition toGrant (g : grantRequest) (tenantID : string) (at_ : Time) : Grant :=
  mkGrant (TrimSpace (gq_GrantID g)) tenantID (TrimSpace (gq_PrincipalID g))
    (TrimSpace (gq_AccountID g)) (TrimSpace (gq_AgentID g)) at_
    (if IsZero (gq_ValidFrom g) then at_ else gq_ValidFrom g) (gq_ValidUntil g)
    (map word (gq_AllowedOperations g)) (map word (gq_AllowedAssetClasses g))
    (gq_AllowedInstruments g) (gq_DeniedInstruments g)
    (mkLimits (gq_PerOrderNotional g) (gq_Rolling1hNotional g) (gq_DailyNotional g)
       (gq_MaxOpenOrders g))
    StatusActive None "".

Record Admin := mkAdmin {
  ad_grants : Store.Tables;
  ad_evidence : Evidence.Tables;
  ad_sequence : Z
}.

(** What a request meets: the clock, the database's faults, what is configured. *)
Record Moment := mkMoment {
  mo_clock : nat -> Time;
  mo_dbnow : Time;
  mo_load : TxFault;
  mo_write : TxFault;
  mo_append : TxFault;
  mo_store : bool;
  mo_evidence : bool
}.

Record revokeRequest := mkRevokeRequest { rv_RevokedBy : string; rv_Reason : string }.

Section Handlers.
Context {HJ : Evidence.JSON}.
Context {Pool : Type} (chain : Pool -> list Certificate -> Certificate -> Time -> option X509Error).
(** json.Decoder with unknown fields refused *)
Context (decode_grant : string -> result grantRequest string).
Context (decode_revocation : string -> result revokeRequest string).
(** Time.Format(time.RFC3339Nano) *)
Context (rfc3339nano : Time -> string).
Context (sv : Server (Pool := Pool)).

(** An append whose answer is ignored. *)
Definition best_effort (m : Moment) (st : Admin) (e : Z -> Evidence.Event) : Admin :=
  if negb (mo_evidence m) then st else
  let seq := add64 (ad_sequence st) 1 in
  mkAdmin (ad_grants st) (fst (Evidence.Append (mo_append m) (mo_dbnow m) (ad_evidence st) (e seq)))
    seq.

Definition issue_event (g : Grant) (issuedBy : string) (at_ : Time) (seq : Z) : Evidence.Event :=
  Evidence.mkEvent Evidence.SchemaVersion (g_GrantID g +:+ "_issued_" +:+ fmt_d at_)
    Evidence.AuthorityIssued (g_TenantID g) (g_GrantID g) (g_GrantID g) "" at_ at_
    "assurance-gateway" seq ""
    (Some [("grant_id", Evidence.VString (g_GrantID g)); ("agent_id", Evidence.VString (g_AgentID g));
           ("principal_id", Evidence.VString (g_PrincipalID g));
           ("account_id", Evidence.VString (g_AccountID g));
           ("issued_by", Evidence.VString issuedBy);
           ("valid_until", Evidence.VString (rfc3339nano (g_ValidUntil g)));
           ("per_order_notional", Evidence.VAmount (PerOrderNotional (g_Limits g)));
           ("rolling_1h_notional", Evidence.VAmount (Rolling1hNotional (g_Limits g)));
           ("daily_notional", Evidence.VAmount (DailyNotional (g_Limits g)));
           ("max_open_orders", Evidence.VInt (MaxOpenOrders (g_Limits g)))]).

(** The handler up to its read: the tenant and the request, or an answer. *)
Definition issue_checked (m : Moment) (st : Admin) (r : Request)
    : result (string * grantRequest) Response :=
  match callerTenant chain sv (mo_clock m) r with
  | Err answer => Err answer
  | Ok tenant =>
      if negb (mo_store m) then Err (errorBody StatusServiceUnavailable "no authority store") else
      if negb (privileged chain IssueAuthority sv (mo_clock m) r) then
        Err (errorBody StatusForbidden "this credential may not issue authority") else
      match readBody r with
      | None => Err (errorBody StatusBadRequest "the request body could not be read")
      | Some raw =>
      match decode_grant raw with
      | Err e => Err (errorBody StatusBadRequest e)
      | Ok req =>
          match grant_problems req with
          | _ :: _ => Err (mkResponse StatusBadRequest (BProblems (grant_problems req)))
          | [] =>
              match Store.Load (mo_load m) (ad_grants st) tenant (TrimSpace (gq_GrantID req)) with
              | Ok _ => Err (errorBody StatusConflict "a grant with this id already exists")
              | Err Store.ErrGrantNotFound => Ok (tenant, req)
              | Err _ => Err (errorBody StatusInternalServerError "the grant could not be read")
              end
          end
      end end
  end.

(** The rest, from the next reading of the clock. *)
Definition issue_commit (m : Moment) (st : Admin) (x : string * grantRequest) : Admin * Response :=
  let '(tenant, req) := x in
  let at_ := mo_clock m 4 in
  let grant := toGrant req tenant at_ in
  match Store.Save (mo_write m) (ad_grants st) grant with
  | (db, Err _) =>
      (mkAdmin db (ad_evidence st) (ad_sequence st),
       errorBody StatusInternalServerError "the grant could not be issued")
  | (db, Ok _) =>
      (best_effort m (mkAdmin db (ad_evidence st) (ad_sequence st))
         (issue_event grant (TrimSpace (gq_IssuedBy req)) at_),
       mkResponse StatusCreated (BFields
         [("grant_id", Evidence.VString (g_GrantID grant));
          ("tenant_id", Evidence.VString (g_TenantID grant));
          ("agent_id", Evidence.VString (g_AgentID grant));
          ("issued_at", Evidence.VString (rfc3339nano (g_IssuedAt grant)));
          ("issued_by", Evidence.VString (TrimSpace (gq_IssuedBy req)));
          ("valid_until", Evidence.VString (rfc3339nano (g_ValidUntil grant)));
          ("status", Evidence.VString (g_Status grant))]))
  end.

Definition IssueGrantHandler (m : Moment) (st : Admin) (r : Request) : Admin * Response :=
  match issue_checked m st r with
  | Err answer => (st, answer)
  | Ok x => issue_commit m st x
  end.

(** * Revoking *)

Definition revocation_event (tenant grantID agentID by_ reason : string) (at_ : Time) (seq : Z)
    : Evidence.Event :=
  Evidence.mkEvent Evidence.SchemaVersion (grantID +:+ "_revoked_" +:+ rfc3339nano at_)
    Evidence.AuthorityRevoked tenant grantID grantID "" at_ at_ "assurance-gateway" seq ""
    (Some [("grant_id", Evidence.VString grantID); ("agent_id", Evidence.VString agentID);
           ("revoked_by", Evidence.VString by_); ("reason", Evidence.VString reason)]).

(** An empty body is an empty request. *)
Definition revocation_of (raw : string) : result revokeRequest string :=
  if String.eqb raw "" then Ok (mkRevokeRequest "" "") else decode_revocation raw.

Definition revoke_checked (m : Moment) (st : Admin) (r : Request)
    : result (string * string * revokeRequest * Grant) Response :=
  match callerTenant chain sv (mo_clock m) r with
  | Err answer => Err answer
  | Ok tenant =>
      if negb (mo_store m) then Err (errorBody StatusServiceUnavailable "no authority store") else
      if negb (privileged chain IssueAuthority sv (mo_clock m) r) then
        Err (errorBody StatusForbidden "this credential may not revoke authority") else
      let grantID := TrimSpace (rq_PathID r) in
      if String.eqb grantID "" then Err (errorBody StatusBadRequest "a grant id is required") else
      match readBody r with
      | None => Err (errorBody StatusBadRequest "the request body could not be read")
      | Some raw =>
      match revocation_of raw with
      | Err e => Err (errorBody StatusBadRequest e)
      | Ok req =>
          if blank (rv_RevokedBy req) then Err (errorBody StatusBadRequest "revoked_by is required")
          else if blank (rv_Reason req) then Err (errorBody StatusBadRequest "reason is required")
          else match Store.Load (mo_load m) (ad_grants st) tenant grantID with
               | Err _ => Err (errorBody StatusInternalServerError "the grant could not be read")
               | Ok existing =>
                   if String.eqb (g_Status existing) StatusRevoked then
                     Err (mkResponse StatusOK (BFields
                       [("grant_id", Evidence.VString grantID);
                        ("status", Evidence.VString StatusRevoked); ("already", Evidence.VBool true);
                        ("revoked_at", Evidence.VString
                           (match g_RevokedAt existing with Some t => rfc3339nano t | None => "" end));
                        ("revoked_note", Evidence.VString (g_RevocationReason existing))]))
                   else Ok (tenant, grantID, req, existing)
               end
      end end
  end.

Definition revoke_commit (m : Moment) (st : Admin) (x : string * string * revokeRequest * Grant)
    : Admin * Response :=
  let '(tenant, grantID, req, existing) := x in
  let at_ := mo_clock m 4 in
  match Store.Revoke (mo_write m) (ad_grants st) tenant grantID at_ (TrimSpace (rv_Reason req)) with
  | (db, Err _) =>
      (mkAdmin db (ad_evidence st) (ad_sequence st),
       errorBody StatusInternalServerError "the grant could not be revoked")
  | (db, Ok _) =>
      (best_effort m (mkAdmin db (ad_evidence st) (ad_sequence st))
         (revocation_event tenant grantID (g_AgentID existing) (TrimSpace (rv_RevokedBy req))
            (TrimSpace (rv_Reason req)) at_),
       mkResponse StatusOK (BFields
         [("grant_id", Evidence.VString grantID); ("status", Evidence.VString StatusRevoked);
          ("revoked_at", Evidence.VString (rfc3339nano at_));
          ("revoked_by", Evidence.VString (TrimSpace (rv_RevokedBy req)));
          ("reason", Evidence.VString (TrimSpace (rv_Reason req)))]))
  end.

Definition RevokeGrantHandler (m : Moment) (st : Admin) (r : Request) : Admin * Response :=
  match revoke_checked m st r with
  | Err answer => (st, answer)
  | Ok x => revoke_commit m st x
  end.

(** * Histories *)

(** Requests that run to the end before the next begins, and a restart of the
    process's counter. *)
Inductive admin_op :=
| OIssue (m : Moment) (r : Request)
| ORevoke (m : Moment) (r : Request).

Definition admin_step (st : Admin) (op : admin_op) : Admin :=
  match op with
  | OIssue m r => fst (IssueGrantHandler m st r)
  | ORevoke m r => fst (RevokeGrantHandler m st r)
  end.
End Handlers.

(** * The life of a grant *)

(** What a grant can become: itself, or itself revoked. *)
Definition grant_succ (g g' : Grant) : Prop :=
  g' = g \/ (g_Status g = StatusActive /\ exists at_ reason, g' = Authority.Revoke g at_ reason).

Lemma grant_succ_trans g1 g2 g3 : grant_succ g1 g2 -> grant_succ g2 g3 -> grant_succ g1 g3.
Proof.
  intros [->|[Ha (at1 & w1 & ->)]] [->|[Hb (at2 & w2 & ->)]]; unfold grant_succ; auto; [eauto 6..|].
  by cbn in Hb.
Qed.

Section Life.
Context {HJ : Evidence.JSON}.
Context {Pool : Type} (chain : Pool -> list Certificate -> Certificate -> Time -> option X509Error).
Context (decode_grant : string -> result grantRequest string).
Context (decode_revocation : string -> result revokeRequest string).
Context (rfc3339nano : Time -> string).
Context (sv : Server (Pool := Pool)).
Local Abbreviation IssueGrantHandler := (IssueGrantHandler chain decode_grant rfc3339nano sv).
Local Abbreviation issue_checked := (issue_checked chain decode_grant sv).
Local Abbreviation issue_commit := (issue_commit rfc3339nano).
Local Abbreviation RevokeGrantHandler := (RevokeGrantHandler chain decode_revocation rfc3339nano sv).
Local Abbreviation revoke_checked := (revoke_checked chain decode_revocation rfc3339nano sv).
Local Abbreviation revoke_commit := (revoke_commit rfc3339nano).
Local Abbreviation admin_step := (admin_step chain decode_grant decode_revocation rfc3339nano sv).

Lemma best_effort_grants m st e : ad_grants (best_effort m st e) = ad_grants st.
Proof. unfold best_effort. by destruct (negb _). Qed.

Lemma tx_state {A : Type} (f : TxFault) (db : Store.Tables) (t : string) (fn : Store.Tables -> Store.Tables * result A Store.StoreError) :
  fst (Store.withTenant f db t fn) = db \/
  (t <> "" /\ exists a, snd (fn db) = Ok a /\ fst (Store.withTenant f db t fn) = fst (fn db)).
Proof.
  unfold Store.withTenant. destruct (String.eqb_spec t ""); [by left|].
  destruct (transaction_state Store.ErrDatabase f db fn) as [->|H]; auto.
Qed.

Lemma Load_fine (f : TxFault) (db : Store.Tables) (t id : string) (g : Grant) :
  Store.Load f db t id = Ok g -> db !! (t, id) = Some g /\ t <> "".
Proof.
  unfold Store.Load, Store.withTenant. destruct (String.eqb_spec t ""); [done|].
  unfold transaction. destruct f; cbn; [|done|]; by destruct (db !! (t, id)); intros [= <-].
Qed.

Lemma Load_absent (f : TxFault) (db : Store.Tables) (t id : string) :
  Store.Load f db t id = Err Store.ErrGrantNotFound -> db !! (t, id) = None.
Proof.
  unfold Store.Load, Store.withTenant. destruct (String.eqb_spec t ""); [done|].
  unfold transaction. destruct f; cbn; [|done|]; by destruct (db !! (t, id)).
Qed.

Lemma Save_state (f : TxFault) (db : Store.Tables) (g : Grant) :
  db !! (g_TenantID g, g_GrantID g) = None ->
  fst (Store.Save f db g) = db \/
  (Store.constraint_violated g = None /\
   fst (Store.Save f db g) = <[(g_TenantID g, g_GrantID g) := g]> db).
Proof.
  intros Hn. unfold Store.Save. match goal with |- context [Store.withTenant f db ?t ?fn] =>
    destruct (tx_state f db t fn) as [->|(_ & a & Ha & ->)]; [by left|] end.
  revert Ha. rewrite Hn. cbn. destruct (Store.constraint_violated g) eqn:E; [done|]. by right.
Qed.

Lemma Revoke_state (f : TxFault) (db : Store.Tables) (t id : string) (at_ : Time) (reason : string) :
  fst (Store.Revoke f db t id at_ reason) = db \/
  (exists g, db !! (t, id) = Some g /\ g_Status g = StatusActive /\
   fst (Store.Revoke f db t id at_ reason) = <[(t, id) := Authority.Revoke g at_ reason]> db).
Proof.
  unfold Store.Revoke. match goal with |- context [Store.withTenant f db ?t ?fn] =>
    destruct (tx_state f db t fn) as [->|(_ & a & Ha & ->)]; [by left|] end.
  revert Ha. destruct (db !! (t, id)) as [g|]; [|done].
  destruct (String.eqb_spec (g_Status g) StatusActive); [|done]. right. by exists g.
Qed.

Lemma issue_checked_ok m st r t req :
  issue_checked m st r = Ok (t, req) ->
  callerTenant chain sv (mo_clock m) r = Ok t /\ mo_store m = true /\
  privileged chain IssueAuthority sv (mo_clock m) r = true /\
  (exists raw, readBody r = Some raw /\ decode_grant raw = Ok req) /\
  grant_problems req = [] /\
  Store.Load (mo_load m) (ad_grants st) t (TrimSpace (gq_GrantID req)) = Err Store.ErrGrantNotFound.
Proof.
  unfold Grants.issue_checked. destruct (callerTenant _ _ _ _) as [t'|]; [|done].
  destruct (mo_store m); [|done]. destruct (privileged _ _ _ _ _) eqn:Ep; [|done]. cbn [negb].
  destruct (readBody r) as [raw|]; [|done]. destruct (decode_grant raw) as [q|] eqn:Ed; [|done].
  destruct (grant_problems q) eqn:Eg; [|done].
  destruct (Store.Load _ _ _ _) as [|[]] eqn:El; try done. intros [= <- <-]. split_and!; eauto.
Qed.

Lemma revoke_checked_ok m st r t id req g :
  revoke_checked m st r = Ok (t, id, req, g) ->
  callerTenant chain sv (mo_clock m) r = Ok t /\
  privileged chain IssueAuthority sv (mo_clock m) r = true /\
  id = TrimSpace (rq_PathID r) /\ id <> "" /\ blank (rv_RevokedBy req) = false /\
  blank (rv_Reason req) = false /\ ad_grants st !! (t, id) = Some g /\ g_Status g <> StatusRevoked.
Proof.
  unfold Grants.revoke_checked. destruct (callerTenant _ _ _ _) as [t'|]; [|done].
  destruct (mo_store m); [|done]. destruct (privileged _ _ _ _ _) eqn:Ep; [|done]. cbn [negb].
  destruct (String.eqb_spec (TrimSpace (rq_PathID r)) ""); [done|].
  destruct (readBody r) as [raw|]; [|done]. destruct (revocation_of _ raw) as [q|] eqn:Ed; [|done].
  destruct (blank (rv_RevokedBy q)) eqn:E1; [done|]. destruct (blank (rv_Reason q)) eqn:E2; [done|].
  destruct (Store.Load _ _ _ _) as [g'|] eqn:El; [|done]. apply Load_fine in El as [El _].
  destruct (String.eqb_spec (g_Status g') StatusRevoked); [done|]. by intros [= <- <- <- <-].
Qed.

(** Everything a request can do to the table. *)
Inductive grant_change (op : admin_op) (db db' : Store.Tables) : Prop :=
| GCSame : db' = db -> grant_change op db db'
| GCIssued m r t req g :
    op = OIssue m r -> callerTenant chain sv (mo_clock m) r = Ok t ->
    privileged chain IssueAuthority sv (mo_clock m) r = true ->
    (exists raw, readBody r = Some raw /\ decode_grant raw = Ok req) -> grant_problems req = [] ->
    g = toGrant req t (mo_clock m 4) -> Store.constraint_violated g = None ->
    db !! (t, g_GrantID g) = None -> db' = <[(t, g_GrantID g) := g]> db -> grant_change op db db'
| GCRevoked m r t id g reason :
    op = ORevoke m r -> callerTenant chain sv (mo_clock m) r = Ok t ->
    privileged chain IssueAuthority sv (mo_clock m) r = true -> id = TrimSpace (rq_PathID r) ->
    db !! (t, id) = Some g -> g_Status g = StatusActive -> reason <> "" ->
    db' = <[(t, id) := Authority.Revoke g (mo_clock m 4) reason]> db -> grant_change op db db'.

Lemma admin_step_change st op :
  grant_change op (ad_grants st) (ad_grants (admin_step st op)).
Proof.
  destruct op as [m r|m r]; cbn [Grants.admin_step].
  - unfold Grants.IssueGrantHandler. destruct (issue_checked m st r) as [[t req]|] eqn:E; [|by apply GCSame].
    apply issue_checked_ok in E as (Ht & _ & Hp & Hb & Hg & Hl). apply Load_absent in Hl.
    unfold Grants.issue_commit. cbv zeta. set (g := toGrant req t (mo_clock m 4)).
    pose proof (Save_state (mo_write m) (ad_grants st) g Hl) as HS.
    destruct (Store.Save _ _ _) as [db [u|e]]; cbn [fst] in *; rewrite ?best_effort_grants; cbn;
      (destruct HS as [->|[Hc ->]]; [by apply GCSame | by eapply GCIssued]).
  - unfold Grants.RevokeGrantHandler. destruct (revoke_checked m st r) as [[[[t id] req] g]|] eqn:E; [|by apply GCSame].
    apply revoke_checked_ok in E as (Ht & Hp & Hid & _ & _ & Hr & Hg & _).
    unfold Grants.revoke_commit. cbv zeta.
    pose proof (Revoke_state (mo_write m) (ad_grants st) t id (mo_clock m 4) (TrimSpace (rv_Reason req))) as HS.
    assert (Hne : TrimSpace (rv_Reason req) <> "").
    { unfold blank in Hr. by destruct (String.eqb_spec (TrimSpace (rv_Reason req)) ""). }
    destruct (Store.Revoke _ _ _ _ _ _) as [db [u|e]]; cbn [fst] in *; rewrite ?best_effort_grants; cbn;
      (destruct HS as [->|(g' & Hg' & Ha & ->)]; [by apply GCSame | by eapply GCRevoked]).
Qed.

Lemma admin_step_succ st op k g :
  ad_grants st !! k = Some g ->
  exists g', ad_grants (admin_step st op) !! k = Some g' /\ grant_succ g g'.
Proof.
  intros Hg. destruct (admin_step_change st op) as [->|m r t req g0 _ _ _ _ _ _ _ Hn ->|
    m r t id g0 reason _ _ _ _ Hg0 Ha _ ->].
  - exists g. split; [done | by left].
  - exists g. split; [|by left]. rewrite lookup_insert_ne; [done|]. intros <-. congruence.
  - destruct (decide ((t, id) = k)) as [<-|Hne].
    + rewrite lookup_insert_eq. eexists. split; [done|]. right.
      assert (g0 = g) as -> by congruence. eauto.
    + rewrite lookup_insert_ne by done. exists g. split; [done | by left].
Qed.

Lemma run_succ ops st k g :
  ad_grants st !! k = Some g ->
  exists g', ad_grants (run_ops admin_step st ops) !! k = Some g' /\ grant_succ g g'.
Proof.
  intros Hg. apply (run_ops_invariant admin_step
    (fun st' => exists g', ad_grants st' !! k = Some g' /\ grant_succ g g')).
  - intros st' op (g1 & H1 & S1). destruct (admin_step_succ st' op k g1 H1) as (g2 & H2 & S2).
    exists g2. split; [done | by eapply grant_succ_trans].
  - exists g. split; [done | by left].
Qed.

(** Grant [g] was issued by a request of this history, of a caller that may issue. *)
Definition issued_in (ops : list admin_op) (t : string) (g : Grant) : Prop :=
  exists ops1 m r ops2 req raw caller,
    ops = ops1 ++ OIssue m r :: ops2 /\ callerTenant chain sv (mo_clock m) r = Ok t /\
    presents IssueAuthority (sv_creds sv) r caller /\
    (rq_PeerCertificates r = [] -> cr_TenantID caller = t) /\
    readBody r = Some raw /\ decode_grant raw = Ok req /\ grant_problems req = [] /\
    g = toGrant req t (mo_clock m 4).

Lemma issued_later ops op t g : issued_in ops t g -> issued_in (ops ++ [op]) t g.
Proof.
  intros (ops1 & m & r & ops2 & req & raw & caller & -> & H).
  exists ops1, m, r, (ops2 ++ [op]), req, raw, caller. split; [by rewrite <- app_assoc | done].
Qed.

Lemma grant_origin (st : Admin) (ops : list admin_op) : forall t id g',
  ad_grants (run_ops admin_step st ops) !! (t, id) = Some g' ->
  exists g, grant_succ g g' /\ (ad_grants st !! (t, id) = Some g \/ issued_in ops t g).
Proof.
  induction ops as [|op ops IH] using rev_ind; intros t id g' Hg'.
  { exists g'. split; [by left | by left]. }
  rewrite run_ops_app in Hg'. cbn [run_ops foldl] in Hg'.
  assert (Hold : forall g1, ad_grants (run_ops admin_step st ops) !! (t, id) = Some g1 ->
    grant_succ g1 g' ->
    exists g, grant_succ g g' /\ (ad_grants st !! (t, id) = Some g \/ issued_in (ops ++ [op]) t g)).
  { intros g1 H1 S1. destruct (IH t id g1 H1) as (g & Sg & Hg). exists g.
    split; [by eapply grant_succ_trans|]. destruct Hg; [by left | right; by apply issued_later]. }
  destruct (admin_step_change (run_ops admin_step st ops) op) as [E|m r t1 req g0 Hop Ht Hp Hb Hpr Hg0 _ Hn E|
    m r t1 id1 g0 reason Hop Ht Hp Hid Hg0 Ha _ E];
    unfold run_ops in *; rewrite E in Hg'.
  - apply (Hold g' Hg'). by left.
  - destruct (decide ((t1, g_GrantID g0) = (t, id))) as [[= -> <-]|Hne].
    + rewrite lookup_insert_eq in Hg'. injection Hg' as <-. exists g0. split; [by left|]. right.
      destruct (privileged_caller _ _ _ _ _ _ Ht Hp) as (caller & Hc & Hct).
      destruct Hb as (raw & Hraw & Hdec).
      exists ops, m, r, [], req, raw, caller. rewrite Hop. by split_and!.
    + rewrite lookup_insert_ne in Hg' by done. apply (Hold g' Hg'). by left.
  - destruct (decide ((t1, id1) = (t, id))) as [[= -> ->]|Hne].
    + rewrite lookup_insert_eq in Hg'. injection Hg' as <-. apply (Hold g0 Hg0). right. eauto.
    + rewrite lookup_insert_ne in Hg' by done. apply (Hold g' Hg'). by left.
Qed.

(** Authority is granted and withdrawn, never edited.  While requests run one after
    another, a grant that exists stays exactly as it was issued until it is revoked, a
    revoked grant stays as it was revoked, and every grant that was not there at the
    start was issued by a request of a caller whose credential may issue authority for
    that tenant, with exactly the limits that request states. *)
Theorem authority_is_never_edited (st : Admin) (ops : list admin_op) :
  let st' := run_ops admin_step st ops in
  (forall k g, ad_grants st !! k = Some g ->
     exists g', ad_grants st' !! k = Some g' /\ grant_succ g g') /\
  (forall t id g', ad_grants st' !! (t, id) = Some g' ->
     exists g, grant_succ g g' /\ (ad_grants st !! (t, id) = Some g \/ issued_in ops t g)).
Proof. intros st'. split; [intros k g; apply run_succ | apply grant_origin]. Qed.

Lemma revoked_refuses (g : Grant) env usage now :
  g_Status g = StatusRevoked -> d_Allowed (Authority.Evaluate env (Some g) usage now) = false.
Proof.
  intros Hs. unfold Authority.Evaluate. destruct env as [env|]; [|done].
  destruct (negb _); [done|]. destruct (negb _); [done|]. by rewrite Hs.
Qed.

Lemma succ_revoked g g' : grant_succ g g' -> g_Status g = StatusRevoked -> g' = g.
Proof. intros [->|[Ha _]] Hr; [done|]. by rewrite Ha in Hr. Qed.

Lemma revoke_commit_ok m st t id req g :
  ad_grants st !! (t, id) = Some g ->
  rp_Status (snd (revoke_commit m st (t, id, req, g))) = StatusOK ->
  exists g', ad_grants (fst (revoke_commit m st (t, id, req, g))) !! (t, id) = Some g' /\
    g_Status g' = StatusRevoked.
Proof.
  intros Hg. unfold Grants.revoke_commit. cbv zeta.
  destruct (Store.Revoke _ _ _ _ _ _) as [db [u|e]] eqn:E; [|done]. intros _. cbn [fst].
  rewrite best_effort_grants. cbn [ad_grants].
  unfold Store.Revoke, Store.withTenant in E. destruct (String.eqb t ""); [done|].
  apply transaction_ok in E as [_ E]. rewrite Hg in E. destruct (String.eqb _ _); [|done].
  injection E as <- _. rewrite lookup_insert_eq. by eexists.
Qed.

(** C13: Revocation is final.  Once the emergency lever answers that a grant is revoked,
    the grant is REVOKED in the store and stays so whatever requests follow one after
    another, and the authority check allows nothing under it. *)
Theorem revocation_is_final (m : Moment) (st : Admin) (r : Request) (t : string)
    (ops : list admin_op) :
  callerTenant chain sv (mo_clock m) r = Ok t ->
  rp_Status (snd (RevokeGrantHandler m st r)) = StatusOK ->
  exists g, ad_grants (run_ops admin_step (fst (RevokeGrantHandler m st r)) ops) !!
              (t, TrimSpace (rq_PathID r)) = Some g /\
    g_Status g = StatusRevoked /\
    forall env usage now, d_Allowed (Authority.Evaluate env (Some g) usage now) = false.
Proof.
  intros Ht Hs.
  assert (H : exists g, ad_grants (fst (RevokeGrantHandler m st r)) !! (t, TrimSpace (rq_PathID r)) =
      Some g /\ g_Status g = StatusRevoked).
  { unfold Grants.RevokeGrantHandler in *. destruct (revoke_checked m st r) as [[[[t' id] req] g]|resp] eqn:E.
    - apply revoke_checked_ok in E as (Ht' & _ & -> & _ & _ & _ & Hg & _).
      assert (t' = t) as -> by congruence. by apply revoke_commit_ok.
    - cbn [fst snd] in *. revert E. unfold Grants.revoke_checked. rewrite Ht.
      destruct (mo_store m); [|by intros [= <-]]. destruct (privileged _ _ _ _ _); [|by intros [= <-]].
      cbn [negb]. destruct (String.eqb _ ""); [by intros [= <-]|].
      destruct (readBody r) as [raw|]; [|by intros [= <-]].
      destruct (revocation_of _ raw) as [q|]; [|by intros [= <-]].
      destruct (blank (rv_RevokedBy q)); [by intros [= <-]|].
      destruct (blank (rv_Reason q)); [by intros [= <-]|].
      destruct (Store.Load _ _ _ _) as [g|] eqn:El; [|by intros [= <-]].
      apply Load_fine in El as [El _].
      destruct (String.eqb_spec (g_Status g) StatusRevoked); [|done]. intros _. by exists g. }
  destruct H as (g & Hg & Hr). destruct (run_succ ops _ _ _ Hg) as (g' & Hg' & Hsucc).
  exists g'. rewrite (succ_revoked _ _ Hsucc Hr) in *. split_and!; [done..|].
  intros env usage now. by apply revoked_refuses.
Qed.

(** ** The answer of an issue *)

(** Without faults a grant is issued exactly when the caller's tenant is
    established, its credential may issue, the body decodes to a request without
    problems, no grant of the tenant has its identifier and the row satisfies the
    table's checks; the pipeline's provider then finds exactly the grant asked for. *)
Theorem issue_created_iff (m : Moment) (st : Admin) (r : Request) :
  mo_load m = Fine -> mo_write m = Fine ->
  rp_Status (snd (IssueGrantHandler m st r)) = StatusCreated <->
  exists t raw req, callerTenant chain sv (mo_clock m) r = Ok t /\ mo_store m = true /\
    privileged chain IssueAuthority sv (mo_clock m) r = true /\
    readBody r = Some raw /\ decode_grant raw = Ok req /\ grant_problems req = [] /\
    ad_grants st !! (t, TrimSpace (gq_GrantID req)) = None /\
    Store.constraint_violated (toGrant req t (mo_clock m 4)) = None /\
    StoreGrants_Load Fine (Some (ad_grants (fst (IssueGrantHandler m st r)))) t
      (TrimSpace (gq_GrantID req)) = Ok (Some (toGrant req t (mo_clock m 4))).
Proof.
  intros Hf Hw. unfold Grants.IssueGrantHandler. split.
  - destruct (issue_checked m st r) as [[t req]|resp] eqn:E.
    2: { unfold Grants.issue_checked in E. cbn [snd].
         destruct (callerTenant _ _ _ _) as [t|a] eqn:Ea.
         - repeat case_match; by simplify_eq.
         - injection E as <-. by apply callerTenant_refuses in Ea as [-> | ->]. }
    apply issue_checked_ok in E as (Ht & Hst & Hp & (raw & Hraw & Hdec) & Hg & Hl).
    apply Load_absent in Hl. pose proof (callerTenant_ok _ _ _ _ _ Ht) as (_ & Hne & _).
    intros Hs. exists t, raw, req. do 7 (split; [done|]). revert Hs.
    unfold Grants.issue_commit. cbv zeta. set (g := toGrant req t (mo_clock m 4)).
    rewrite Hw. unfold Store.Save, Store.withTenant.
    change (g_TenantID g) with t. change (g_GrantID g) with (TrimSpace (gq_GrantID req)).
    destruct (String.eqb_spec t ""); [done|]. cbn [transaction]. rewrite Hl.
    destruct (Store.constraint_violated g) eqn:Ec; [done|]. intros _. split; [done|].
    cbn [fst]. rewrite best_effort_grants. cbn [ad_grants].
    unfold StoreGrants_Load, Store.Load, Store.withTenant.
    destruct (String.eqb_spec t ""); [done|]. cbn. by rewrite lookup_insert_eq.
  - intros (t & raw & req & Ht & Hst & Hp & Hraw & Hdec & Hg & Hn & Hc & _).
    assert (E : issue_checked m st r = Ok (t, req)).
    { unfold Grants.issue_checked. rewrite Ht, Hst, Hp, Hraw, Hdec, Hg, Hf. cbn [negb].
      pose proof (callerTenant_ok _ _ _ _ _ Ht) as (_ & Hne & _).
      unfold Store.Load, Store.withTenant. destruct (String.eqb_spec t ""); [done|]. cbn. by rewrite Hn. }
    rewrite E. pose proof (callerTenant_ok _ _ _ _ _ Ht) as (_ & Hne & _).
    unfold Grants.issue_commit. cbv zeta. rewrite Hw. unfold Store.Save, Store.withTenant.
    cbn [toGrant g_TenantID g_GrantID]. destruct (String.eqb_spec t ""); [done|]. cbn [transaction].
    fold (toGrant req t (mo_clock m 4)). rewrite Hc, Hn, Hc. done.
Qed.

(** * Where the code departs from what it says *)

(** The check for an existing grant and the write are two transactions, and the write
    is an upsert: a request that was checked before another one issued the same
    identifier overwrites it, answers Created, makes a grant ACTIVE again that was
    revoked in between, with its own limits, under the agent of the first. *)
Theorem late_issue_revives_a_revoked_grant (m : Moment) (st : Admin) (t : string)
    (req : grantRequest) (old : Grant) :
  mo_write m = Fine -> t <> "" -> ad_grants st !! (t, TrimSpace (gq_GrantID req)) = Some old ->
  let new := toGrant req t (mo_clock m 4) in
  Store.constraint_violated new = None -> Store.constraint_violated (Store.updated old new) = None ->
  rp_Status (snd (issue_commit m st (t, req))) = StatusCreated /\
  ad_grants (fst (issue_commit m st (t, req))) !! (t, TrimSpace (gq_GrantID req)) =
    Some (Store.updated old new) /\
  g_Status (Store.updated old new) = StatusActive /\
  g_Limits (Store.updated old new) = g_Limits new /\
  g_AgentID (Store.updated old new) = g_AgentID old.
Proof.
  intros Hw Ht Hold new Hc Hc'. unfold Grants.issue_commit. cbv zeta. fold new.
  rewrite Hw. unfold Store.Save, Store.withTenant.
  change (g_TenantID new) with t. change (g_GrantID new) with (TrimSpace (gq_GrantID req)).
  destruct (String.eqb_spec t ""); [done|]. cbn [transaction]. rewrite Hc, Hold, Hc'. cbn [fst snd].
  rewrite best_effort_grants. cbn [ad_grants]. by rewrite lookup_insert_eq.
Qed.

(** A revocation of a grant that does not exist is answered as a server error: the
    store reports an absent grant as an error, so the handler's branch for one that is
    not found never runs. *)
Theorem unknown_grant_is_a_server_error (m : Moment) (st : Admin) (r : Request) :
  rp_Status (snd (RevokeGrantHandler m st r)) <> StatusNotFound /\
  (forall t raw req, callerTenant chain sv (mo_clock m) r = Ok t -> mo_store m = true ->
     privileged chain IssueAuthority sv (mo_clock m) r = true -> TrimSpace (rq_PathID r) <> "" ->
     readBody r = Some raw -> revocation_of decode_revocation raw = Ok req ->
     blank (rv_RevokedBy req) = false -> blank (rv_Reason req) = false ->
     ad_grants st !! (t, TrimSpace (rq_PathID r)) = None ->
     rp_Status (snd (RevokeGrantHandler m st r)) = StatusInternalServerError).
Proof.
  unfold Grants.RevokeGrantHandler. split.
  - destruct (revoke_checked m st r) as [[[[t id] req] g]|resp] eqn:E.
    + unfold Grants.revoke_commit. cbv zeta. by destruct (Store.Revoke _ _ _ _ _ _) as [db [u|e]].
    + unfold Grants.revoke_checked in E. cbn [snd].
      destruct (callerTenant _ _ _ _) as [t|a] eqn:Ea.
      * repeat case_match; by simplify_eq.
      * injection E as <-. by apply callerTenant_refuses in Ea as [-> | ->].
  - intros t raw req Ht Hst Hp Hid Hraw Hdec Hb Hre Hn. unfold Grants.revoke_checked.
    rewrite Ht, Hst, Hp. cbn [negb]. destruct (String.eqb_spec (TrimSpace (rq_PathID r)) ""); [done|].
    rewrite Hraw, Hdec, Hb, Hre. destruct (Store.Load _ _ _ _) as [g|] eqn:El; [|done].
    apply Load_fine in El as [El _]. congruence.
Qed.
End Life.

(** A request whose expiry has passed and that names no start is valid for the
    handler, and refused by the table: the answer is a server error. *)
Theorem past_expiry_is_not_a_problem (req : grantRequest) (t : string) (at_ : Time) :
  grant_problems req = [] -> gq_ValidFrom req = 0 -> gq_ValidUntil req <= at_ ->
  (- 2 ^ 31 <= gq_MaxOpenOrders req < 2 ^ 31) ->
  Store.constraint_violated (toGrant req t at_) = Some "authority_grants_window_ordered".
Proof.
  intros _ Hf Hu Hm. unfold Store.constraint_violated, toGrant. cbn.
  unfold After. rewrite Hf. cbn. destruct (Z.ltb_spec at_ (gq_ValidUntil req)); [lia | done].
Qed.

Definition with_ceilings (req : grantRequest) (rolling daily : Amount) (open : Z) : grantRequest :=
  mkGrantRequest (gq_GrantID req) (gq_PrincipalID req) (gq_AccountID req) (gq_AgentID req)
    (gq_IssuedBy req) (gq_ValidFrom req) (gq_ValidUntil req) (gq_AllowedOperations req)
    (gq_AllowedAssetClasses req) (gq_AllowedInstruments req) (gq_DeniedInstruments req)
    (gq_PerOrderNotional req) rolling daily open (gq_MarginAllowed req) (gq_ShortingAllowed req).

(** A negative rolling, daily or open-order ceiling is accepted as written and
    constrains nothing: below the per-order ceiling every order passes, whatever was
    used before. *)
Theorem negative_ceiling_is_no_ceiling (req : grantRequest) (rolling daily : Amount) (open : Z)
    (t : string) (at_ : Time) (used : Snapshot) (notional : Amount) :
  grant_problems req = [] -> rolling < 0 -> daily < 0 -> open < 0 ->
  notional <= gq_PerOrderNotional req ->
  let req' := with_ceilings req rolling daily open in
  grant_problems req' = [] /\ checkLimits (g_Limits (toGrant req' t at_)) used notional = "".
Proof.
  intros Hp Hr Hd Ho Hn req'. split; [exact Hp|]. unfold checkLimits. cbn.
  destruct (Z.ltb_spec (gq_PerOrderNotional req) notional); [lia|]. rewrite andb_false_r.
  destruct (Z.ltb_spec 0 rolling); [lia|]. destruct (Z.ltb_spec 0 daily); [lia|].
  by destruct (Z.ltb_spec 0 open); [lia|].
Qed.

(** * Witnesses *)

#[local] Instance demo_json : Evidence.JSON := Evidence.toy_json.

Definition issuer_server : Server (Pool := unit) :=
  mkServer (Some {[ "token-1" := mkCaller "officer" "tenant-1" true false false ]}) None.

Definition demo_request (limit : Z) (agent : string) : grantRequest :=
  mkGrantRequest "g-1" "p-1" "acc-1" agent "officer" 0 1000 ["buy "] ["equity"] [] [] limit 0 0 0
    None None.

(** Two requests by body: one for the agent alpha, one for the agent beta. *)
Definition demo_decode_grant (raw : string) : result grantRequest string :=
  if String.eqb raw "alpha" then Ok (demo_request 100 "alpha")
  else if String.eqb raw "beta" then Ok (demo_request 900000 "beta") else Err "syntax".
Definition demo_decode_revocation (raw : string) : result revokeRequest string :=
  Ok (mkRevokeRequest "officer" raw).

Definition demo_chain (_ : unit) (_ : list Certificate) (_ : Certificate) (_ : Time) : option X509Error := None.
Definition post (body : string) : Request := mkRequest "Bearer token-1" "" [] (Some body) "g-1".
Definition at_noon (n : Z) : Moment := mkMoment (fun _ => n) n Fine Fine Fine true true.
Definition no_admin : Admin := mkAdmin ∅ Evidence.empty_tables 0.

Local Abbreviation demo_issue := (IssueGrantHandler demo_chain demo_decode_grant fmt_d issuer_server).
Local Abbreviation demo_revoke := (RevokeGrantHandler demo_chain demo_decode_revocation fmt_d issuer_server).
Local Abbreviation demo_step := (admin_step demo_chain demo_decode_grant demo_decode_revocation fmt_d issuer_server).

Definition alpha_issued : Admin := fst (demo_issue (at_noon 10) no_admin (post "alpha")).
Definition alpha_revoked : Admin := fst (demo_revoke (at_noon 20) alpha_issued (post "stolen laptop")).

Example issue_created_iff_witness :
  rp_Status (snd (demo_issue (at_noon 10) no_admin (post "alpha"))) = StatusCreated /\
  exists t req, StoreGrants_Load Fine (Some (ad_grants alpha_issued)) t "g-1" =
    Ok (Some (toGrant req t 10)) /\ g_AgentID (toGrant req t 10) = "alpha".
Proof.
  assert (H : rp_Status (snd (demo_issue (at_noon 10) no_admin (post "alpha"))) = StatusCreated)
    by (vm_compute; reflexivity).
  split; [exact H|].
  destruct (proj1 (issue_created_iff demo_chain demo_decode_grant fmt_d issuer_server (at_noon 10)
    no_admin (post "alpha") eq_refl eq_refl) H) as (t & raw & req & _ & _ & _ & Hraw & Hdec & _ & _ & _ & Hl).
  injection Hraw as <-. injection Hdec as <-. exists t, (demo_request 100 "alpha"). split; [exact Hl | reflexivity].
Defined.

Example revocation_is_final_witness :
  exists g, ad_grants (run_ops demo_step alpha_revoked [OIssue (at_noon 30) (post "beta")]) !!
    ("tenant-1", "g-1") = Some g /\ g_Status g = StatusRevoked.
Proof.
  destruct (revocation_is_final demo_chain demo_decode_grant demo_decode_revocation fmt_d
    issuer_server (at_noon 20) alpha_issued (post "stolen laptop") "tenant-1"
    [OIssue (at_noon 30) (post "beta")]) as (g & Hg & Hr & _).
  - vm_compute. reflexivity.
  - vm_compute. reflexivity.
  - exists g. exact (conj Hg Hr).
Defined.

(** The request for beta is checked while the table is empty, alpha's grant is issued
    and revoked, and then beta's is written. *)
Definition beta_checked : result (string * grantRequest) Response :=
  issue_checked demo_chain demo_decode_grant issuer_server (at_noon 5) no_admin (post "beta").

Example late_issue_revives_a_revoked_grant_witness :
  beta_checked = Ok ("tenant-1", demo_request 900000 "beta") /\
  option_map g_Status (ad_grants alpha_revoked !! ("tenant-1", "g-1")) = Some StatusRevoked /\
  exists g, ad_grants (fst (issue_commit fmt_d (at_noon 30) alpha_revoked
      ("tenant-1", demo_request 900000 "beta"))) !! ("tenant-1", "g-1") = Some g /\
    g_Status g = StatusActive /\ g_AgentID g = "alpha" /\ PerOrderNotional (g_Limits g) = 900000.
Proof.
  split; [vm_compute; reflexivity|]. split; [vm_compute; reflexivity|].
  assert (Hold : exists old, ad_grants alpha_revoked !! ("tenant-1", "g-1") = Some old /\
    g_AgentID old = "alpha" /\ g_ValidFrom old = 10) by (eexists; vm_compute; split_and!; reflexivity).
  destruct Hold as (old & Hold & Ha & Hv).
  destruct (late_issue_revives_a_revoked_grant fmt_d (at_noon 30) alpha_revoked "tenant-1"
    (demo_request 900000 "beta") old eq_refl) as (_ & H1 & H2 & H3 & H4).
  - discriminate.
  - exact Hold.
  - vm_compute. reflexivity.
  - unfold Store.constraint_violated, Store.updated. cbn. rewrite Hv. reflexivity.
  - eexists. split; [exact H1|]. split; [exact H2|]. split; [by rewrite H4 | by rewrite H3].
Defined.

Example past_expiry_is_not_a_problem_witness :
  Store.constraint_violated (toGrant (demo_request 100 "alpha") "tenant-1" 2000) =
  Some "authority_grants_window_ordered".
Proof.
  apply past_expiry_is_not_a_problem; [vm_compute; reflexivity | reflexivity | cbn; lia | cbn; lia].
Defined.

Example negative_ceiling_is_no_ceiling_witness :
  let req := with_ceilings (demo_request 100 "alpha") (-1) (-1) (-1) in
  grant_problems req = [] /\
  checkLimits (g_Limits (toGrant req "tenant-1" 10)) (mkSnapshot 1000000 1000000 50) 100 = "".
Proof.
  apply (negative_ceiling_is_no_ceiling (demo_request 100 "alpha") (-1) (-1) (-1) "tenant-1" 10
    (mkSnapshot 1000000 1000000 50) 100); [vm_compute; reflexivity | cbn; lia..].
Defined.
