(* ===== verification/AgentKeys.v ===== *)
(** Registering and revoking the keys that are agents: internal/gateway/agentkeys.go.

    The handlers work on the registry of [Identity.Store], whose tables include the
    evidence a registration commits with.  A revocation commits alone and records
    its evidence afterwards, best effort. *)

From S2P Require Import Prelude Strings Money CanonicalJSON Crypto Identity Http.
From S2P Require Evidence.

Record agentKeyRequest := mkAgentKeyRequest {
  kq_AgentID : string;
  kq_KeyID : string;
  kq_Algorithm : string;
  kq_PublicKey : string;
  kq_RegisteredBy : string;
  kq_ValidFrom : option Time;
  kq_ValidUntil : option Time
}.

Definition PrivateKeySize : nat := 64.

(** The cases of the public key, in the order of the switch. *)
Definition public_key_problems (text : string) : list string :=
  if blank text then ["public_key is required"]
  else match DecodeString (TrimSpace text) with
       | None => ["public_key is not hex"]
       | Some k => if (length k =? PrivateKeySize)%nat then ["public_key is a private key"]
                   else problem (negb (length k =? PublicKeySize)%nat) "public_key has another length"
       end.

Definition agent_key_problems (k : agentKeyRequest) : list string :=
  require (kq_AgentID k) "agent_id is required" ++
  require (kq_KeyID k) "key_id is required" ++
  require (kq_RegisteredBy k) "registered_by is required" ++
  problem (str_nonempty (kq_Algorithm k) && negb (String.eqb (kq_Algorithm k) AlgorithmEd25519))
    "algorithm is not supported" ++
  public_key_problems (kq_PublicKey k) ++
  problem (match kq_ValidFrom k, kq_ValidUntil k with
           | Some from, Some until => negb (After until from) | _, _ => false end)
    "valid_until must be after valid_from".

(** [validate]: the decoded key, or the problems. *)
Definition validate (k : agentKeyRequest) : result bytes_t (list string) :=
  match agent_key_problems k with
  | [] => Ok (default [] (DecodeString (TrimSpace (kq_PublicKey k))))
  | ps => Err ps
  end.

Definition fingerprint (public : bytes_t) : string :=
  if (length public <? 8)%nat then "" else EncodeToString (firstn 8 public).

Record revokeKeyRequest := mkRevokeKeyRequest {
  rk_AgentID : string;
  rk_KeyID : string;
  rk_RevokedBy : string;
  rk_Reason : string
}.

Definition revocation_problems (q : revokeKeyRequest) : list string :=
  require (rk_AgentID q) "agent_id is required" ++
  require (rk_KeyID q) "key_id is required" ++
  require (rk_RevokedBy q) "revoked_by is required".

Record Keys := mkKeys { ks_registry : Store.Tables; ks_sequence : Z }.

(** What a request meets. *)
Record Moment := mkMoment {
  mo_clock : nat -> Time;
  mo_dbnow : Time;
  mo_write : TxFault;
  mo_exists : TxFault;
  mo_append : TxFault;
  mo_store : bool;
  mo_evidence : bool
}.

Section Handlers.
Context {HJ : Evidence.JSON}.
Context {Pool : Type} (chain : Pool -> list Certificate -> Certificate -> Time -> option X509Error).
Context (decode_key : string -> result agentKeyRequest string).
Context (decode_revocation : string -> result revokeKeyRequest string).
Context (rfc3339nano : Time -> string).
Context (sv : Server (Pool := Pool)).

Definition agentKeyEvent (name : Evidence.EventName) (tenant agent key : string) (at_ : Time)
    (payload : list (string * Evidence.Value)) (seq : Z) : Evidence.Event :=
  Evidence.mkEvent Evidence.SchemaVersion
    (agent +:+ "_" +:+ key +:+ "_" +:+ name +:+ "_" +:+ fmt_d at_) name tenant agent agent ""
    at_ at_ "assurance-gateway" seq ""
    (Some (payload ++ [("agent_id", Evidence.VString agent); ("key_id", Evidence.VString key)])).

Definition agent_key (q : agentKeyRequest) (tenant : string) (public : bytes_t) (at_ : Time)
    : AgentKey :=
  mkAgentKey tenant (TrimSpace (kq_AgentID q)) (TrimSpace (kq_KeyID q)) AlgorithmEd25519 public
    "ACTIVE" (default at_ (kq_ValidFrom q)) (default 0 (kq_ValidUntil q)) None.

(** The body of a registration: a decoded request without problems, or the answer. *)
Definition read_key (r : Request) : result (agentKeyRequest * bytes_t) Response :=
  match readBody r with
  | None => Err (errorBody StatusBadRequest "the request body could not be read")
  | Some raw =>
  match decode_key raw with
  | Err e => Err (errorBody StatusBadRequest e)
  | Ok req =>
      match validate req with
      | Err ps => Err (mkResponse StatusBadRequest (BProblems ps))
      | Ok public => Ok (req, public)
      end
  end end.

Definition RegisterAgentKeyHandler (m : Moment) (st : Keys) (r : Request) : Keys * Response :=
  match registrar chain RegisterKeys sv (mo_clock m) r with
  | Err answer => (st, answer)
  | Ok (tenant, caller) =>
      if negb (mo_store m) then (st, errorBody StatusServiceUnavailable "no key store") else
      match read_key r with
      | Err answer => (st, answer)
      | Ok (req, public) =>
          let at_ := mo_clock m 4 in
          let key := agent_key req tenant public at_ in
          let seq := add64 (ks_sequence st) 1 in
          let event := agentKeyEvent Evidence.AgentKeyRegistered tenant (k_AgentID key) (k_KeyID key)
            at_ [("registered_by", Evidence.VString (TrimSpace (kq_RegisteredBy req)));
                 ("authorized_by", Evidence.VString caller);
                 ("public_key_fingerprint", Evidence.VString (fingerprint public));
                 ("valid_from", Evidence.VString (rfc3339nano (k_ValidFrom key)))] seq in
          match Store.RegisterWithEvidence (mo_write m) (mo_dbnow m) (ks_registry st) key event with
          | (db, Err _) =>
              (mkKeys db seq, errorBody StatusServiceUnavailable "the key could not be recorded")
          | (db, Ok false) =>
              (mkKeys db seq, errorBody StatusConflict "the agent already has this key")
          | (db, Ok true) =>
              (mkKeys db seq, mkResponse StatusCreated (BFields
                 [("agent_id", Evidence.VString (k_AgentID key));
                  ("key_id", Evidence.VString (k_KeyID key));
                  ("algorithm", Evidence.VString (k_Algorithm key));
                  ("public_key_fingerprint", Evidence.VString (fingerprint public));
                  ("valid_from", Evidence.VString (rfc3339nano (k_ValidFrom key)));
                  ("registered_at", Evidence.VString (rfc3339nano at_))]))
          end
      end
  end.

(** Best effort: the revocation stands whatever the append answers. *)
Definition recordAgentKeyEvent (m : Moment) (st : Keys) (e : Z -> Evidence.Event) : Keys :=
  if negb (mo_evidence m) then st else
  let seq := add64 (ks_sequence st) 1 in
  let db := ks_registry st in
  mkKeys (Store.mkTables (Store.agent_keys db)
            (fst (Evidence.Append (mo_append m) (mo_dbnow m) (Store.evidence db) (e seq)))) seq.

Definition read_revocation (r : Request) : result revokeKeyRequest Response :=
  match readBody r with
  | None => Err (errorBody StatusBadRequest "the request body could not be read")
  | Some raw =>
  match decode_revocation raw with
  | Err e => Err (errorBody StatusBadRequest e)
  | Ok req =>
      match revocation_problems req with
      | [] => Ok req
      | ps => Err (mkResponse StatusBadRequest (BProblems ps))
      end
  end end.

Definition RevokeAgentKeyHandler (m : Moment) (st : Keys) (r : Request) : Keys * Response :=
  match registrar chain RegisterKeys sv (mo_clock m) r with
  | Err answer => (st, answer)
  | Ok (tenant, caller) =>
      if negb (mo_store m) then (st, errorBody StatusServiceUnavailable "no key store") else
      match read_revocation r with
      | Err answer => (st, answer)
      | Ok req =>
          let at_ := mo_clock m 4 in
          let agent := TrimSpace (rk_AgentID req) in
          let key := TrimSpace (rk_KeyID req) in
          let by_ := TrimSpace (rk_RevokedBy req) in
          match Store.Revoke (mo_write m) (ks_registry st) tenant agent key by_ at_ with
          | (db, Err _) =>
              (mkKeys db (ks_sequence st),
               errorBody StatusServiceUnavailable "the revocation could not be recorded")
          | (db, Ok false) =>
              (mkKeys db (ks_sequence st),
               match Store.Exists (mo_exists m) db tenant agent key with
               | Err _ => errorBody StatusServiceUnavailable "the key's state could not be read"
               | Ok false => errorBody StatusNotFound "no signing key is registered"
               | Ok true => mkResponse StatusOK (BFields
                   [("agent_id", Evidence.VString agent); ("key_id", Evidence.VString key);
                    ("revoked", Evidence.VBool false)])
               end)
          | (db, Ok true) =>
              (recordAgentKeyEvent m (mkKeys db (ks_sequence st))
                 (agentKeyEvent Evidence.AgentKeyRevoked tenant agent key at_
                    [("revoked_by", Evidence.VString by_); ("authorized_by", Evidence.VString caller);
                     ("reason", Evidence.VString (TrimSpace (rk_Reason req)))]),
               mkResponse StatusOK (BFields
                 [("agent_id", Evidence.VString agent); ("key_id", Evidence.VString key);
                  ("revoked", Evidence.VBool true); ("revoked_at", Evidence.VString (rfc3339nano at_))]))
          end
      end
  end.

Inductive key_op :=
| ORegisterKey (m : Moment) (r : Request)
| ORevokeKey (m : Moment) (r : Request).

Definition key_step (st : Keys) (op : key_op) : Keys :=
  match op with
  | ORegisterKey m r => fst (RegisterAgentKeyHandler m st r)
  | ORevokeKey m r => fst (RevokeAgentKeyHandler m st r)
  end.
End Handlers.

(** * Properties *)

Section Properties.
Context {HJ : Evidence.JSON}.
Context {Pool : Type} (chain : Pool -> list Certificate -> Certificate -> Time -> option X509Error).
Context (decode_key : string -> result agentKeyRequest string).
Context (decode_revocation : string -> result revokeKeyRequest string).
Context (rfc3339nano : Time -> string).
Context (sv : Server (Pool := Pool)).
Local Abbreviation RegisterAgentKeyHandler := (RegisterAgentKeyHandler chain decode_key rfc3339nano sv).
Local Abbreviation RevokeAgentKeyHandler := (RevokeAgentKeyHandler chain decode_revocation rfc3339nano sv).
Local Abbreviation key_step := (key_step chain decode_key decode_revocation rfc3339nano sv).
Local Abbreviation rows st := (Store.agent_keys (ks_registry st)).

(** The row a registration writes. *)
Definition key_row (k : AgentKey) : Store.KeyRow :=
  Store.mkKeyRow (k_Algorithm k) (k_PublicKey k) (k_Status k) (k_ValidFrom k)
    (if IsZero (k_ValidUntil k) then None else Some (k_ValidUntil k)) None None.

Lemma insert_agent_key_row q t public at_ (db db' : Store.Tables) :
  let k := agent_key q t public at_ in
  Store.insert_key db k = Ok (db', true) ->
  length public = PublicKeySize /\
  Store.agent_keys db !! (t, k_AgentID k, k_KeyID k) = None /\
  Store.evidence db' = Store.evidence db /\
  Store.agent_keys db' = <[(t, k_AgentID k, k_KeyID k) := key_row k]> (Store.agent_keys db).
Proof.
  cbv zeta. unfold Store.insert_key. cbn [agent_key k_Algorithm k_Status k_PublicKey].
  cbn [String.eqb Ascii.eqb Bool.eqb negb contains existsb orb AlgorithmEd25519].
  destruct (Nat.eqb_spec (length public) PublicKeySize); cbn [negb]; [|done].
  cbn [k_TenantID k_AgentID k_KeyID]. destruct (Store.agent_keys db !! _) eqn:E; [done|].
  intros [= <-]. by split_and!.
Qed.

(** What one request can do to the registry. *)
Inductive key_change (op : key_op) (st st' : Keys) : Prop :=
| KCSame : rows st' = rows st -> key_change op st st'
| KCRegistered m r t who req public event :
    op = ORegisterKey m r -> registrar chain RegisterKeys sv (mo_clock m) r = Ok (t, who) ->
    read_key decode_key r = Ok (req, public) -> length public = PublicKeySize ->
    let k := agent_key req t public (mo_clock m 4) in
    rows st !! (t, k_AgentID k, k_KeyID k) = None ->
    rows st' = <[(t, k_AgentID k, k_KeyID k) := key_row k]> (rows st) ->
    Evidence.ev_EventName event = Evidence.AgentKeyRegistered ->
    Evidence.AppendInTx t (mo_dbnow m) (Store.evidence (ks_registry st)) event =
      Ok (Store.evidence (ks_registry st')) ->
    key_change op st st'
| KCRevoked m r t who agent key row by_ :
    op = ORevokeKey m r -> registrar chain RegisterKeys sv (mo_clock m) r = Ok (t, who) ->
    rows st !! (t, agent, key) = Some row -> Store.r_status row <> "REVOKED" -> by_ <> "" ->
    rows st' = <[(t, agent, key) := Store.revoke_row row (mo_clock m 4) by_]> (rows st) ->
    key_change op st st'.

Lemma registry_tx {A : Type} f (db : Store.Tables) t (fn : Store.Tables -> Store.Tables * result A Store.StoreError) :
  fst (Store.withTenant f db t fn) = db \/
  (exists a, snd (fn db) = Ok a /\ fst (Store.withTenant f db t fn) = fst (fn db)).
Proof.
  unfold Store.withTenant. destruct (String.eqb t ""); [by left | apply transaction_state].
Qed.

Lemma register_state f now (db : Store.Tables) q t public at_ e :
  let k := agent_key q t public at_ in
  let db' := fst (Store.RegisterWithEvidence f now db k e) in
  db' = db \/ (length public = PublicKeySize /\
    Store.agent_keys db !! (t, k_AgentID k, k_KeyID k) = None /\
    Store.agent_keys db' = <[(t, k_AgentID k, k_KeyID k) := key_row k]> (Store.agent_keys db) /\
    Evidence.AppendInTx t now (Store.evidence db) e = Ok (Store.evidence db')).
Proof.
  cbv zeta. unfold Store.RegisterWithEvidence. match goal with |- context [Store.withTenant f db ?t ?fn] =>
    destruct (registry_tx f db t fn) as [->|(a & Ha & ->)]; [by left|] end.
  revert Ha. destruct (Store.insert_key db _) as [[db1 [|]]|] eqn:E; [| |done].
  - apply insert_agent_key_row in E as (Hl & Hn & He & Hr). rewrite He.
    cbn [agent_key k_TenantID] in *. destruct (Evidence.AppendInTx _ _ _ _) as [ev|]; [|done].
    intros _. right. cbn. by split_and!.
  - intros _. left. revert E. unfold Store.insert_key.
    destruct (negb (String.eqb _ _)); [done|]. destruct (negb (contains _ _)); [done|].
    destruct (negb (Nat.eqb _ _)); [done|]. destruct (_ !! _); [by intros [= <-] | done].
Qed.

Lemma read_revocation_ok r q :
  read_revocation decode_revocation r = Ok q ->
  blank (rk_AgentID q) = false /\ blank (rk_KeyID q) = false /\ blank (rk_RevokedBy q) = false.
Proof.
  unfold read_revocation. destruct (readBody r) as [raw|]; [|done].
  destruct (decode_revocation raw) as [q'|]; [|done].
  destruct (revocation_problems q') eqn:E; [|done]. intros [= <-].
  unfold revocation_problems in E. apply app_eq_nil in E as [E1 E]. apply app_eq_nil in E as [E2 E3].
  by rewrite !require_nil in *.
Qed.

Lemma revoke_state f (db : Store.Tables) t agent key by_ at_ :
  let db' := fst (Store.Revoke f db t agent key by_ at_) in
  db' = db \/ exists row, Store.agent_keys db !! (t, agent, key) = Some row /\
    Store.r_status row <> "REVOKED" /\
    Store.agent_keys db' = <[(t, agent, key) := Store.revoke_row row at_ by_]> (Store.agent_keys db).
Proof.
  cbv zeta. unfold Store.Revoke. match goal with |- context [Store.withTenant f db ?t ?fn] =>
    destruct (registry_tx f db t fn) as [->|(a & Ha & ->)]; [by left|] end.
  destruct (Store.agent_keys db !! (t, agent, key)) as [row|] eqn:E; [|by left].
  destruct (String.eqb_spec (Store.r_status row) "REVOKED"); [by left|]. right. by exists row.
Qed.

Lemma key_step_change st op : key_change op st (key_step st op).
Proof.
  destruct op as [m r|m r]; cbn [AgentKeys.key_step].
  - unfold AgentKeys.RegisterAgentKeyHandler.
    destruct (registrar _ _ _ _ _) as [[t who]|] eqn:Er; [|by apply KCSame].
    destruct (negb _); [by apply KCSame|].
    destruct (read_key _ r) as [[req public]|] eqn:Ek; [|by apply KCSame]. cbv zeta.
    match goal with |- context [Store.RegisterWithEvidence ?f ?now ?db ?k ?e] =>
      pose proof (register_state f now db req t public (mo_clock m 4) e) as H;
      cbv zeta in H; destruct (Store.RegisterWithEvidence f now db k e) as [db' [[|]|]] eqn:E end;
    cbn [fst] in *;
    (destruct H as [->|(Hl & Hn & Hr & He)];
      [by apply KCSame | eapply KCRegistered;
        [done | exact Er | exact Ek | exact Hl | exact Hn | exact Hr | | exact He]; done]).
  - unfold AgentKeys.RevokeAgentKeyHandler.
    destruct (registrar _ _ _ _ _) as [[t who]|] eqn:Er; [|by apply KCSame].
    destruct (negb _); [by apply KCSame|].
    destruct (read_revocation _ r) as [req|] eqn:Ek; [|by apply KCSame]. cbv zeta.
    apply read_revocation_ok in Ek as (_ & _ & Hby%blank_false).
    match goal with |- context [Store.Revoke ?f ?db ?t ?a ?k ?b ?at_] =>
      pose proof (revoke_state f db t a k b at_) as H; cbv zeta in H;
      destruct (Store.Revoke f db t a k b at_) as [db' [[|]|]] eqn:E end; cbn [fst] in *;
    unfold recordAgentKeyEvent; try destruct (negb (mo_evidence m)); cbn [fst];
    (destruct H as [->|(row & Hrow & Hs & Hr)]; [by apply KCSame | by eapply KCRevoked]).
Qed.

Lemma key_step_kept st op : rows_kept (rows st) (rows (key_step st op)).
Proof.
  destruct (key_step_change st op) as [->|m r t who req public event _ _ _ _ k Hn -> _ _|
    m r t who agent key row by_ _ _ Hrow Hs _ ->]; [apply rows_kept_refl | |]; intros n r0 H0.
  - exists r0. split; [|by left]. rewrite lookup_insert_ne; [done|]. intros <-. congruence.
  - destruct (decide ((t, agent, key) = n)) as [<-|Hne].
    + rewrite lookup_insert_eq. eexists. split; [done|]. right.
      assert (r0 = row) as -> by congruence. eauto.
    + rewrite lookup_insert_ne by done. exists r0. split; [done | by left].
Qed.

(** The row was bound to agent [a] by a request of this history, with its evidence. *)
Definition bound_in (st : Keys) (ops : list key_op) (t a kid : string) (row : Store.KeyRow) : Prop :=
  exists ops1 m r ops2 req public caller event,
    ops = ops1 ++ ORegisterKey m r :: ops2 /\
    callerTenant chain sv (mo_clock m) r = Ok t /\
    presents RegisterKeys (sv_creds sv) r caller /\
    (rq_PeerCertificates r = [] -> cr_TenantID caller = t) /\
    read_key decode_key r = Ok (req, public) /\ length public = PublicKeySize /\
    a = TrimSpace (kq_AgentID req) /\ kid = TrimSpace (kq_KeyID req) /\
    row = key_row (agent_key req t public (mo_clock m 4)) /\
    Evidence.ev_EventName event = Evidence.AgentKeyRegistered /\
    Evidence.AppendInTx t (mo_dbnow m) (Store.evidence (ks_registry (run_ops key_step st ops1))) event =
      Ok (Store.evidence (ks_registry (run_ops key_step st (ops1 ++ [ORegisterKey m r])))).

Lemma bound_later st ops op t a kid row :
  bound_in st ops t a kid row -> bound_in st (ops ++ [op]) t a kid row.
Proof.
  intros (ops1 & m & r & ops2 & req & public & caller & event & -> & H).
  exists ops1, m, r, (ops2 ++ [op]), req, public, caller, event.
  split; [by rewrite <- app_assoc | done].
Qed.

Lemma key_origin (st : Keys) (ops : list key_op) : forall t a kid row',
  rows (run_ops key_step st ops) !! (t, a, kid) = Some row' ->
  exists row, row_succ row row' /\
    (rows st !! (t, a, kid) = Some row \/ bound_in st ops t a kid row).
Proof.
  induction ops as [|op ops IH] using rev_ind; intros t a kid row' Hr'.
  { exists row'. split; [by left | by left]. }
  rewrite run_ops_app in Hr'. cbn [run_ops foldl] in Hr'.
  assert (Hold : forall r1, rows (run_ops key_step st ops) !! (t, a, kid) = Some r1 ->
    row_succ r1 row' -> exists row, row_succ row row' /\
      (rows st !! (t, a, kid) = Some row \/ bound_in st (ops ++ [op]) t a kid row)).
  { intros r1 H1 S1. destruct (IH t a kid r1 H1) as (row & Sr & Hr). exists row.
    split; [by eapply row_succ_trans|]. destruct Hr; [by left | right; by apply bound_later]. }
  unfold run_ops in *. set (s1 := foldl key_step st ops) in *.
  destruct (key_step_change s1 op) as [E|m r t1 who req public event Hop Hreg Hread Hlen k Hn E Hname Hev|
    m r t1 who agent key row by_ Hop Hreg Hrow Hs _ E]; rewrite E in Hr'.
  - apply (Hold row' Hr'). by left.
  - destruct (decide ((t1, k_AgentID k, k_KeyID k) = (t, a, kid))) as [[= -> <- <-]|Hne].
    + rewrite lookup_insert_eq in Hr'. injection Hr' as <-.
      exists (key_row k). split; [by left|]. right. apply registrar_ok in Hreg as [Ht Hp].
      destruct (privileged_caller _ _ _ _ _ _ Ht Hp) as (caller & Hc & Hct).
      exists ops, m, r, [], req, public, caller, event. rewrite Hop. split_and!; try done.
      unfold run_ops. rewrite foldl_app. cbn [foldl]. fold s1. by rewrite <- Hop.
    + rewrite lookup_insert_ne in Hr' by done. apply (Hold row' Hr'). by left.
  - destruct (decide ((t1, agent, key) = (t, a, kid))) as [[= -> -> ->]|Hne].
    + rewrite lookup_insert_eq in Hr'. injection Hr' as <-. apply (Hold row Hrow). right. eauto.
    + rewrite lookup_insert_ne in Hr' by done. apply (Hold row' Hr'). by left.
Qed.

(** Only a registrar says which key is an agent.  Over any history of requests, under
    any faults, a key that is bound stays bound with the same public key and window
    until it is revoked and as it was revoked afterwards, and every key that was not
    there at the start was bound by a request whose credential may register keys of that
    tenant, as the request states it, in one commit with its evidence. *)
Theorem agent_keys_come_from_registrars (st : Keys) (ops : list key_op) :
  let st' := run_ops key_step st ops in
  rows_kept (rows st) (rows st') /\
  (forall t a kid row', rows st' !! (t, a, kid) = Some row' ->
     exists row, row_succ row row' /\
       (rows st !! (t, a, kid) = Some row \/ bound_in st ops t a kid row)).
Proof.
  intros st'. split.
  { unfold st'. apply (run_ops_invariant key_step (fun s => rows_kept (rows st) (rows s)));
      [|apply rows_kept_refl]. intros s op H. eapply rows_kept_trans; [exact H | apply key_step_kept]. }
  apply key_origin.
Qed.

(** The answer to a revocation is true: 200 means that the key is revoked in the
    store, or was already, and 404 that no such key is registered; the key stays revoked
    whatever requests follow. *)
Theorem revocation_answer_is_true (m : Moment) (st : Keys) (r : Request) (t : string)
    (q : revokeKeyRequest) (ops : list key_op) :
  callerTenant chain sv (mo_clock m) r = Ok t -> read_revocation decode_revocation r = Ok q ->
  let n := (t, TrimSpace (rk_AgentID q), TrimSpace (rk_KeyID q)) in
  let '(st', answer) := RevokeAgentKeyHandler m st r in
  (rp_Status answer = StatusOK -> exists row,
     rows (run_ops key_step st' ops) !! n = Some row /\ Store.r_status row = "REVOKED") /\
  (rp_Status answer = StatusNotFound -> rows st' !! n = None).
Proof.
  intros Ht Hq n. unfold AgentKeys.RevokeAgentKeyHandler.
  destruct (registrar _ _ _ _ _) as [[t' who]|answer] eqn:Er.
  2: { apply registrar_refuses in Er as [-> | ->]; by split. }
  apply registrar_ok in Er as [Ht' _]. assert (t' = t) as -> by congruence. clear Ht'.
  destruct (negb (mo_store m)); [by split|]. rewrite Hq. cbv zeta.
  assert (Hlater : forall s row, rows s !! n = Some row -> Store.r_status row = "REVOKED" ->
    exists row, rows (run_ops key_step s ops) !! n = Some row /\ Store.r_status row = "REVOKED").
  { intros s row Hrow Hs.
    assert (HK : rows_kept (rows s) (rows (run_ops key_step s ops))).
    { apply (run_ops_invariant key_step (fun s' => rows_kept (rows s) (rows s')));
        [|apply rows_kept_refl]. intros s' op H. eapply rows_kept_trans; [exact H | apply key_step_kept]. }
    destruct (HK n row Hrow) as (row' & Hrow' & [->|(Hn & _)]); [|done]. by exists row. }
  destruct (Store.Revoke _ _ _ _ _ _ _) as [db [[|]|]] eqn:E; [| |by split].
  - split; [|done]. intros _. unfold Store.Revoke, Store.withTenant in E.
    destruct (String.eqb t ""); [done|]. apply transaction_ok in E as [_ E]. fold n in E.
    destruct (Store.agent_keys (ks_registry st) !! n) as [row|] eqn:En; [|done].
    destruct (String.eqb (Store.r_status row) "REVOKED"); [done|]. injection E as <-.
    eapply Hlater.
    + unfold recordAgentKeyEvent. destruct (negb (mo_evidence m)); cbn; by rewrite lookup_insert_eq.
    + done.
  - unfold Store.Revoke, Store.withTenant in E.
    destruct (String.eqb_spec t "") as [|Hne]; [done|]. apply transaction_ok in E as [_ E]. fold n in E.
    assert (Hdb : db = ks_registry st /\ forall row, Store.agent_keys db !! n = Some row ->
              Store.r_status row = "REVOKED").
    { destruct (Store.agent_keys (ks_registry st) !! n) as [row|] eqn:En.
      - destruct (String.eqb_spec (Store.r_status row) "REVOKED"); [|done]. injection E as <-.
        split; [done|]. intros row' Hr'. by rewrite En in Hr'; injection Hr' as <-.
      - injection E as <-. split; [done|]. intros row' Hr'. congruence. }
    destruct Hdb as [-> Hrev]. unfold Store.Exists, Store.withTenant.
    destruct (String.eqb_spec t ""); [done|]. unfold transaction. destruct (mo_exists m); cbn; try by split.
    fold n. destruct (Store.agent_keys (ks_registry st) !! n) as [row|] eqn:En; cbn.
    + split; [|done]. intros _. eapply Hlater; [exact En | by apply Hrev].
    + by split.
Qed.
End Properties.

(** A request that names no start and an expiry already past is accepted: the key is
    registered and answered as such although it verifies nothing, which is what the
    check on the window means to refuse. *)
Theorem expired_key_is_registered (q : agentKeyRequest) (t : string) (public : bytes_t)
    (at_ later u : Time) :
  kq_ValidFrom q = None -> kq_ValidUntil q = Some u -> u <> 0 -> u <= at_ -> at_ <= later ->
  (forall v, validate (mkAgentKeyRequest (kq_AgentID q) (kq_KeyID q) (kq_Algorithm q)
      (kq_PublicKey q) (kq_RegisteredBy q) None v) = validate q) /\
  KeyInForce (agent_key q t public at_) later <> None.
Proof.
  intros Hf Hu Hu0 Hle Hl. split.
  - intros v. unfold validate, agent_key_problems. cbn. by rewrite Hf.
  - unfold KeyInForce, agent_key. cbn. rewrite Hf, Hu. cbn.
    destruct (_ && Before later at_); [done|]. unfold IsZero, Before.
    destruct (Z.eqb_spec u 0); [lia|]. destruct (Z.ltb_spec later u); [lia | done].
Qed.

(** * Witnesses *)

#[local] Instance demo_json : Evidence.JSON := Evidence.toy_json.

Definition registrar_server : Server (Pool := unit) :=
  mkServer (Some {[ "token-1" := mkCaller "registrar" "tenant-1" false true false ]}) None.
Definition hex_key : string := EncodeToString (repeat 7%nat 32).
Definition demo_decode_key (raw : string) : result agentKeyRequest string :=
  Ok (mkAgentKeyRequest "momentum" raw "Ed25519" hex_key "operator" None None).
Definition demo_decode_revocation (raw : string) : result revokeKeyRequest string :=
  Ok (mkRevokeKeyRequest "momentum" raw "operator" "compromised").
Definition demo_chain (_ : unit) (_ : list Certificate) (_ : Certificate) (_ : Time) : option X509Error := None.
Definition post (body : string) : Request := mkRequest "Bearer token-1" "" [] (Some body) "".
Definition at_noon (n : Z) : Moment := mkMoment (fun _ => n) n Fine Fine Fine true true.
Definition no_keys : Keys := mkKeys Store.empty_tables 0.

Definition key_bound : Keys :=
  fst (RegisterAgentKeyHandler demo_chain demo_decode_key fmt_d registrar_server (at_noon 10) no_keys
         (post "k1")).

Example key_bound_status :
  rp_Status (snd (RegisterAgentKeyHandler demo_chain demo_decode_key fmt_d registrar_server
    (at_noon 10) no_keys (post "k1"))) = StatusCreated.
Proof. vm_compute. reflexivity. Qed.

Example revocation_answer_is_true_witness :
  exists row, Store.agent_keys (ks_registry (run_ops (key_step demo_chain demo_decode_key
      demo_decode_revocation fmt_d registrar_server)
      (fst (RevokeAgentKeyHandler demo_chain demo_decode_revocation fmt_d registrar_server
         (at_noon 20) key_bound (post "k1"))) [ORegisterKey (at_noon 30) (post "k1")])) !!
      ("tenant-1", "momentum", "k1") = Some row /\ Store.r_status row = "REVOKED".
Proof.
  pose proof (revocation_answer_is_true demo_chain demo_decode_key demo_decode_revocation fmt_d
    registrar_server (at_noon 20) key_bound (post "k1") "tenant-1"
    (mkRevokeKeyRequest "momentum" "k1" "operator" "compromised")
    [ORegisterKey (at_noon 30) (post "k1")]) as T.
  assert (H1 : callerTenant demo_chain registrar_server (mo_clock (at_noon 20)) (post "k1") =
    Ok "tenant-1") by (vm_compute; reflexivity).
  assert (H2 : read_revocation demo_decode_revocation (post "k1") =
    Ok (mkRevokeKeyRequest "momentum" "k1" "operator" "compromised")) by (vm_compute; reflexivity).
  specialize (T H1 H2).
  destruct (RevokeAgentKeyHandler demo_chain demo_decode_revocation fmt_d registrar_server
    (at_noon 20) key_bound (post "k1")) as [st' answer] eqn:E.
  destruct T as [T _]. cbn [fst]. apply T.
  change answer with (snd (st', answer)). rewrite <- E. vm_compute. reflexivity.
Defined.

Example expired_key_is_registered_witness :
  is_ok (validate (mkAgentKeyRequest "momentum" "k1" "" hex_key "operator" None (Some 5))) = true /\
  KeyInForce (agent_key (mkAgentKeyRequest "momentum" "k1" "" hex_key "operator" None (Some 5))
    "tenant-1" (repeat 7%nat 32) 10) 10 <> None.
Proof.
  split; [vm_compute; reflexivity|].
  apply (expired_key_is_registered (mkAgentKeyRequest "momentum" "k1" "" hex_key "operator" None (Some 5))
    "tenant-1" (repeat 7%nat 32) 10 10 5); [reflexivity | reflexivity | lia..].
Defined.
