(* ===== verification/ActivationKeys.v ===== *)
(** Registering and revoking the keys that decide policy:
    internal/gateway/activationkeys.go over the store of [ActivationStore].

    A registration is the bootstrap of a tenant that holds no key, or a document signed
    by a key the tenant holds; what it reads before it writes are transactions of
    their own, and [mo_others] is what other processes commit between them. *)

From S2P Require Import Prelude Strings Money Intent Policy CanonicalJSON Crypto Identity Activation Http.
From S2P Require Evidence ActivationStore.
Import ActivationStore.Store.

Record activationKeyRequest := mkActivationKeyRequest {
  aq_KeyID : string;
  aq_PublicKey : string;
  aq_Holder : string;
  aq_Actor : string;
  aq_Reason : string;
  aq_ValidUntil : option Time;
  aq_Authorization : option KeyAuthorization
}.

(** [bootstrapKey]. *)
Definition bootstrap_problems (q : activationKeyRequest) : list string :=
  require (aq_KeyID q) "key_id is required" ++ require (aq_Holder q) "holder is required" ++
  require (aq_Actor q) "actor is required" ++
  (if blank (aq_PublicKey q) then ["public_key is required"]
   else match DecodeString (TrimSpace (aq_PublicKey q)) with
        | None => ["public_key is not hex"]
        | Some k => if (length k =? PrivateKeySize)%nat then ["public_key is a private key"]
                    else problem (negb (length k =? PublicKeySize)%nat) "public_key has another length"
        end).

Definition bootstrapKey (q : activationKeyRequest) : result bytes_t (list string) :=
  match bootstrap_problems q with
  | [] => Ok (default [] (DecodeString (TrimSpace (aq_PublicKey q))))
  | ps => Err ps
  end.

Record revokeActivationKeyRequest := mkRevokeActivationKeyRequest {
  ra_KeyID : string;
  ra_RevokedBy : string;
  ra_Reason : string
}.

(** What [RegisterKeyAuthorized] is given. *)
Record Registration := mkRegistration {
  rg_key : ActivationKey;
  rg_nonce : string;
  rg_action : string;
  rg_actor : string;
  rg_signedBy : string;
  rg_authorizedAt : Time
}.

Record Authority := mkAuthority { au_tables : Tables; au_sequence : Z }.

Record Moment := mkMoment {
  mo_clock : nat -> Time;
  mo_dbnow : Time;
  mo_bootstrapped : TxFault;
  mo_key : TxFault;
  mo_write : TxFault;
  mo_append : TxFault;
  mo_store : bool;
  mo_evidence : bool;
  (** what others commit before the write *)
  mo_others : list ActivationStore.sop
}.

(** A refusal of the document or of its signer is Forbidden, another one a bad request. *)
Definition key_error_status (code : string) : Z :=
  if contains ["ACTIVATION_KEY_UNKNOWN"; "ACTIVATION_KEY_REVOKED"; "ACTIVATION_KEY_EXPIRED";
               "ACTIVATION_KEY_NOT_YET_VALID"; "ACTIVATION_SIGNATURE_INVALID"] code
  then StatusForbidden else StatusBadRequest.

(** [writeActivationKeyError] for an [ActivationError]. *)
Definition refuseActivationKey (code : string) : Response := errorBody (key_error_status code) code.

Section Handlers.
Context {C : Crypto} {HJ : Evidence.JSON}.
Context {Pool : Type} (chain : Pool -> list Certificate -> Certificate -> Time -> option X509Error).
Context (rfc3339 : Time -> option string).
Context (decode_key : string -> result activationKeyRequest string).
Context (decode_revocation : string -> result revokeActivationKeyRequest string).
Context (rfc3339nano : Time -> string).
Context (sv : Server (Pool := Pool)).

Definition activationKeyEvent (name : Evidence.EventName) (tenant key : string) (at_ : Time)
    (payload : list (string * Evidence.Value)) (seq : Z) : Evidence.Event :=
  Evidence.mkEvent Evidence.SchemaVersion ("actkey_" +:+ key +:+ "_" +:+ name +:+ "_" +:+ fmt_d at_)
    name tenant key key "" at_ at_ "assurance-gateway" seq ""
    (Some (payload ++ [("key_id", Evidence.VString key)])).

(** The bootstrap form: operator-supplied and unsigned. *)
Definition bootstrap_registration (q : activationKeyRequest) (tenant : string) (at_ : Time)
    : result Registration Response :=
  match aq_Authorization q with
  | Some _ => Err (errorBody StatusBadRequest "send the bootstrap form")
  | None =>
      match bootstrapKey q with
      | Err ps => Err (mkResponse StatusBadRequest (BProblems ps))
      | Ok public =>
          let id := TrimSpace (aq_KeyID q) in
          Ok (mkRegistration
                (mkActivationKey tenant id public (TrimSpace (aq_Holder q)) "ACTIVE" at_
                   (aq_ValidUntil q) None "")
                ("bootstrap_" +:+ id) BootstrapAction (TrimSpace (aq_Actor q)) "" at_)
      end
  end.

(** The signer of an authorization, as it is read before the write. *)
Definition check_signer (a : KeyAuthorization) (signer : result ActivationKey StoreError) (at_ : Time)
    : option Response :=
  match signer with
  | Err (ErrCode code) => Some (refuseActivationKey code)
  | Err _ => Some (errorBody StatusServiceUnavailable "the authorizing key could not be read")
  | Ok signer =>
      if str_nonempty (Usable signer at_) then Some (refuseActivationKey (Usable signer at_))
      else if str_nonempty (KeyVerify rfc3339 a (ak_PublicKey signer)) then
        Some (refuseActivationKey (KeyVerify rfc3339 a (ak_PublicKey signer)))
      else None
  end.

(** The signed form: the document and nothing else. *)
Definition signed_registration (m : Moment) (db : Tables) (q : activationKeyRequest)
    (tenant : string) (at_ : Time) : result Registration Response :=
  match aq_Authorization q with
  | None => Err (errorBody StatusBadRequest "send a signed authorization")
  | Some a =>
      if negb (String.eqb (ka_TenantID a) tenant) then
        Err (errorBody StatusForbidden "the authorization names a different tenant")
      else if str_nonempty (KeyValidate a) then Err (refuseActivationKey (KeyValidate a))
      else match check_signer a (Key (mo_key m) db tenant (sig_KeyID (ka_Signature a))) at_ with
           | Some answer => Err answer
           | None =>
               match PublicKey a with
               | Err code => Err (refuseActivationKey code)
               | Ok public =>
                   if present (aq_ValidUntil q) || str_nonempty (aq_KeyID q) ||
                      str_nonempty (aq_PublicKey q) || str_nonempty (aq_Holder q) ||
                      str_nonempty (aq_Actor q) then
                     Err (errorBody StatusBadRequest "the signed authorization and nothing else")
                   else Ok (mkRegistration
                     (mkActivationKey tenant (TrimSpace (ka_SubjectKeyID a)) public
                        (TrimSpace (ka_SubjectHolder a)) "ACTIVE"
                        (default at_ (ka_SubjectValidFrom a)) (ka_SubjectValidUntil a) None "")
                     (ka_Nonce a) (ka_Action a) (ka_Actor a) (sig_KeyID (ka_Signature a))
                     (ka_AuthorizedAt a))
               end
           end
  end.

Definition registration (m : Moment) (db : Tables) (q : activationKeyRequest) (tenant : string)
    (at_ : Time) : result Registration Response :=
  match Bootstrapped (mo_bootstrapped m) db tenant with
  | Err _ => Err (errorBody StatusServiceUnavailable "the activation authority could not be read")
  | Ok false => bootstrap_registration q tenant at_
  | Ok true => signed_registration m db q tenant at_
  end.

(** [decodeActivationKeyBody]. *)
Definition decodeBody {A : Type} (decode : string -> result A string) (r : Request) : result A Response :=
  match readBody r with
  | None => Err (errorBody StatusBadRequest "the request body could not be read")
  | Some raw => match decode raw with Ok q => Ok q | Err e => Err (errorBody StatusBadRequest e) end
  end.

Definition registered_answer (g : Registration) (at_ : Time) (r : result bool StoreError) : Response :=
  match r with
  | Err ErrBootstrapSpent => errorBody StatusConflict "already bootstrapped"
  | Err ErrReplayed => errorBody StatusConflict "this authorization has already been accepted"
  | Err _ => errorBody StatusServiceUnavailable "the key could not be recorded"
  | Ok false => errorBody StatusConflict "the activation key already exists"
  | Ok true => mkResponse StatusCreated (BFields
      [("key_id", Evidence.VString (ak_KeyID (rg_key g)));
       ("algorithm", Evidence.VString AlgorithmEd25519);
       ("holder", Evidence.VString (ak_Holder (rg_key g)));
       ("public_key_fingerprint", Evidence.VString (EncodeToString (firstn 8 (ak_PublicKey (rg_key g)))));
       ("bootstrap", Evidence.VBool (String.eqb (rg_signedBy g) ""));
       ("authorized_by_key_id", Evidence.VString (rg_signedBy g));
       ("registered_at", Evidence.VString (rfc3339nano at_))])
  end.

Definition RegisterActivationKeyHandler (m : Moment) (st : Authority) (r : Request)
    : Authority * Response :=
  match registrar chain RegisterActivationKeys sv (mo_clock m) r with
  | Err answer => (st, answer)
  | Ok (tenant, caller) =>
      if negb (mo_store m) then (st, errorBody StatusServiceUnavailable "no activation key store") else
      match decodeBody decode_key r with
      | Err answer => (st, answer)
      | Ok q =>
          let at_ := mo_clock m 4 in
          match registration m (au_tables st) q tenant at_ with
          | Err answer => (st, answer)
          | Ok g =>
              let seq := add64 (au_sequence st) 1 in
              let event := activationKeyEvent Evidence.ActivationKeyRegistered tenant
                (ak_KeyID (rg_key g)) at_
                [("holder", Evidence.VString (ak_Holder (rg_key g)));
                 ("actor", Evidence.VString (rg_actor g));
                 ("authorized_by_key_id", Evidence.VString (rg_signedBy g));
                 ("bootstrap", Evidence.VBool (String.eqb (rg_signedBy g) ""));
                 ("api_identity", Evidence.VString caller);
                 ("public_key_fingerprint",
                  Evidence.VString (EncodeToString (firstn 8 (ak_PublicKey (rg_key g)))))] seq in
              let db := run_ops ActivationStore.sstep (au_tables st) (mo_others m) in
              let '(db, answer) := RegisterKeyAuthorized (mo_write m) (mo_dbnow m) db (rg_key g)
                (rg_nonce g) (rg_action g) (rg_actor g) (rg_signedBy g) (rg_authorizedAt g) event at_ in
              (mkAuthority db seq, registered_answer g at_ answer)
          end
      end
  end.

(** * Revocation *)

Definition revocation_problems (q : revokeActivationKeyRequest) : list string :=
  require (ra_KeyID q) "key_id is required" ++ require (ra_RevokedBy q) "revoked_by is required".

Definition RevokeActivationKeyHandler (m : Moment) (st : Authority) (r : Request)
    : Authority * Response :=
  match registrar chain RegisterActivationKeys sv (mo_clock m) r with
  | Err answer => (st, answer)
  | Ok (tenant, caller) =>
      if negb (mo_store m) then (st, errorBody StatusServiceUnavailable "no activation key store") else
      match decodeBody decode_revocation r with
      | Err answer => (st, answer)
      | Ok q =>
          match revocation_problems q with
          | _ :: _ => (st, mkResponse StatusBadRequest (BProblems (revocation_problems q)))
          | [] =>
              let at_ := mo_clock m 4 in
              let id := TrimSpace (ra_KeyID q) in
              let by_ := TrimSpace (ra_RevokedBy q) in
              match RevokeKey (mo_write m) (mo_dbnow m) (au_tables st) tenant id by_ at_ with
              | (db, Err (ErrCode code)) => (mkAuthority db (au_sequence st), errorBody StatusConflict code)
              | (db, Err _) =>
                  (mkAuthority db (au_sequence st),
                   errorBody StatusServiceUnavailable "the revocation could not be recorded")
              | (db, Ok false) =>
                  (mkAuthority db (au_sequence st), errorBody StatusNotFound "no active activation key")
              | (db, Ok true) =>
                  let seq := add64 (au_sequence st) 1 in
                  let event := activationKeyEvent Evidence.ActivationKeyRevoked tenant id at_
                    [("revoked_by", Evidence.VString by_); ("api_identity", Evidence.VString caller);
                     ("reason", Evidence.VString (TrimSpace (ra_Reason q)))] seq in
                  (if negb (mo_evidence m) then mkAuthority db (au_sequence st)
                   else mkAuthority (set_evidence db (fst (Evidence.Append (mo_append m) (mo_dbnow m)
                                       (evidence db) event))) seq,
                   mkResponse StatusOK (BFields
                     [("key_id", Evidence.VString id); ("revoked_at", Evidence.VString (rfc3339nano at_))]))
              end
          end
      end
  end.
End Handlers.

(** * Properties *)

Import ActivationStore.

Section Properties.
Context {C : Crypto} {HJ : Evidence.JSON}.
Context {Pool : Type} (chain : Pool -> list Certificate -> Certificate -> Time -> option X509Error).
Context (rfc3339 : Time -> option string).
Context (decode_key : string -> result activationKeyRequest string).
Context (decode_revocation : string -> result revokeActivationKeyRequest string).
Context (rfc3339nano : Time -> string).
Context (sv : Server (Pool := Pool)).
Local Abbreviation RegisterActivationKeyHandler :=
  (RegisterActivationKeyHandler chain rfc3339 decode_key rfc3339nano sv).
Local Abbreviation RevokeActivationKeyHandler :=
  (RevokeActivationKeyHandler chain decode_revocation rfc3339nano sv).
Local Abbreviation signed_registration := (signed_registration rfc3339).

(** The row a registration asks for. *)
Definition key_row (k : ActivationKey) : KeyRow :=
  mkKeyRow (ak_PublicKey k) (ak_Holder k) (ak_Status k) (ak_ValidFrom k) (ak_ValidUntil k) None None.

(** The operator's form, for a tenant that holds no key. *)
Definition bootstrapped_by (q : activationKeyRequest) (t : string) (at_ : Time) (g : Registration)
    : Prop :=
  aq_Authorization q = None /\ rg_signedBy g = "" /\ rg_action g = BootstrapAction /\
  bootstrapKey q = Ok (ak_PublicKey (rg_key g)) /\
  rg_key g = mkActivationKey t (TrimSpace (aq_KeyID q)) (ak_PublicKey (rg_key g))
               (TrimSpace (aq_Holder q)) "ACTIVE" at_ (aq_ValidUntil q) None "".

(** The document [a], and what it says of the key, and nothing that it does not say. *)
Definition stated_by (a : KeyAuthorization) (q : activationKeyRequest) (t : string) (at_ : Time)
    (g : Registration) : Prop :=
  aq_Authorization q = Some a /\ ka_TenantID a = t /\ PublicKey a = Ok (ak_PublicKey (rg_key g)) /\
  rg_key g = mkActivationKey t (TrimSpace (ka_SubjectKeyID a)) (ak_PublicKey (rg_key g))
               (TrimSpace (ka_SubjectHolder a)) "ACTIVE" (default at_ (ka_SubjectValidFrom a))
               (ka_SubjectValidUntil a) None "" /\
  rg_nonce g = ka_Nonce a /\ rg_actor g = ka_Actor a /\
  rg_signedBy g = sig_KeyID (ka_Signature a) /\ rg_signedBy g <> "".

Lemma bootstrap_registration_ok q t at_ g :
  bootstrap_registration q t at_ = Ok g -> bootstrapped_by q t at_ g.
Proof.
  unfold bootstrap_registration. destruct (aq_Authorization q) eqn:Ea; [done|].
  destruct (bootstrapKey q) as [public|] eqn:Eb; [|done]. intros [= <-]. by split_and!.
Qed.

Lemma KeyValidate_signer a : KeyValidate a = "" -> sig_KeyID (ka_Signature a) <> "".
Proof.
  unfold KeyValidate. intros H E. rewrite E in H.
  repeat match type of H with (if ?b then _ else _) = _ => destruct b eqn:?; [done|] end. done.
Qed.

Lemma check_signer_none a r at_ :
  check_signer rfc3339 a r at_ = None ->
  exists k, r = Ok k /\ Usable k at_ = "" /\ KeyVerify rfc3339 a (ak_PublicKey k) = "".
Proof.
  unfold check_signer. destruct r as [k|[]]; try done.
  destruct (str_nonempty (Usable k at_)) eqn:E1; [done|].
  destruct (str_nonempty (KeyVerify rfc3339 a (ak_PublicKey k))) eqn:E2; [done|]. intros _.
  rewrite !str_nonempty_false in *. by exists k.
Qed.

Lemma signed_registration_ok m db q t at_ g :
  signed_registration m db q t at_ = Ok g ->
  exists a k, stated_by a q t at_ g /\
    Key (mo_key m) db t (sig_KeyID (ka_Signature a)) = Ok k /\ Usable k at_ = "" /\
    KeyVerify rfc3339 a (ak_PublicKey k) = "".
Proof.
  unfold ActivationKeys.signed_registration. destruct (aq_Authorization q) as [a|] eqn:Ea; [|done].
  destruct (String.eqb_spec (ka_TenantID a) t) as [Ht|]; cbn [negb]; [|done].
  destruct (str_nonempty (KeyValidate a)) eqn:Ev; [done|]. apply str_nonempty_false in Ev.
  destruct (check_signer _ _ _ _) eqn:Ec; [done|]. apply check_signer_none in Ec as (k & Hk & Hu & Hv).
  destruct (PublicKey a) as [public|] eqn:Ep; [|done]. destruct (_ || _); [done|]. intros [= <-].
  exists a, k. split_and!; try done. unfold stated_by. cbn. split_and!; try done.
  by apply KeyValidate_signer.
Qed.

Lemma Key_row f db t kid k :
  Key f db t kid = Ok k -> exists r, keys db !! (t, kid) = Some r /\ k_public_key r = ak_PublicKey k.
Proof.
  unfold Key, withTenant. destruct (String.eqb t ""); [done|].
  unfold transaction. destruct f; cbn; [|done|]; destruct (keys db !! (t, kid)) as [r|]; try done;
    intros [= <-]; by exists r.
Qed.

(** Why a key may be in the table of [db'] that was not in that of [db]. *)
Definition granted (m : Moment) (q : activationKeyRequest) (t : string) (db db' : Tables)
    (g : Registration) : Prop :=
  keys db !! (t, ak_KeyID (rg_key g)) = None /\
  keys db' = <[(t, ak_KeyID (rg_key g)) := key_row (rg_key g)]> (keys db) /\
  (exists e, Evidence.ev_EventName e = Evidence.ActivationKeyRegistered /\
     Evidence.AppendInTx t (mo_dbnow m) (evidence db) e = Ok (evidence db')) /\
  (bootstrapped_by q t (mo_clock m 4) g /\ tenant_rows (keys db) t = [] \/
   exists a signer, stated_by a q t (mo_clock m 4) g /\
     keys db !! (t, sig_KeyID (ka_Signature a)) = Some signer /\
     KeyVerify rfc3339 a (k_public_key signer) = "" /\
     signer_refused db t (sig_KeyID (ka_Signature a)) (mo_clock m 4) = None).

Lemma registration_granted m db q t g :
  registration rfc3339 m db q t (mo_clock m 4) = Ok g ->
  ak_TenantID (rg_key g) = t /\ ak_Status (rg_key g) = "ACTIVE" /\
  ((bootstrapped_by q t (mo_clock m 4) g) \/
   exists a signer, stated_by a q t (mo_clock m 4) g /\
     keys db !! (t, sig_KeyID (ka_Signature a)) = Some signer /\
     KeyVerify rfc3339 a (k_public_key signer) = "").
Proof.
  unfold registration. destruct (Bootstrapped _ _ _) as [[|]|]; [| |done]; intros H.
  - apply signed_registration_ok in H as (a & k & Hs & Hk & _ & Hv).
    pose proof Hs as (_ & _ & _ & Hg & _). rewrite Hg. split_and!; [done..|]. right.
    apply Key_row in Hk as (row & Hr & Hp). exists a, row. by rewrite Hp.
  - apply bootstrap_registration_ok in H. pose proof H as (_ & _ & _ & _ & Hg).
    rewrite Hg. split_and!; [done..|]. by left.
Qed.

(** Writing a registration that was read from an earlier state of the store. *)
Lemma write_granted m (db0 db : Tables) q t g e :
  keys_kept db0 db -> registration rfc3339 m db0 q t (mo_clock m 4) = Ok g ->
  Evidence.ev_EventName e = Evidence.ActivationKeyRegistered ->
  let '(db', r) := RegisterKeyAuthorized (mo_write m) (mo_dbnow m) db (rg_key g) (rg_nonce g)
                     (rg_action g) (rg_actor g) (rg_signedBy g) (rg_authorizedAt g) e (mo_clock m 4) in
  (db' = db /\ r <> Ok true) \/ granted m q t db db' g.
Proof.
  intros HK Hg Hname. apply registration_granted in Hg as (Ht & Hs & Hwhy).
  pose proof (RegisterKeyAuthorized_cases (mo_write m) (mo_dbnow m) db (rg_key g) (rg_nonce g)
    (rg_action g) (rg_actor g) (rg_signedBy g) (rg_authorizedAt g) e (mo_clock m 4)) as H.
  cbv zeta in H. destruct (RegisterKeyAuthorized _ _ _ _ _ _ _ _ _ _ _) as [db' r]. cbn [fst snd] in H.
  destruct H as [H|[_ H]]; [by left | right]. apply register_authorized_ok in H. cbv zeta in H.
  rewrite Ht, Hs in H. destruct H as (Hsig & _ & _ & Hn & Hk & ev & Hev & He).
  unfold granted. split_and!; [done | | exists e; by rewrite He |].
  { rewrite Hk. unfold key_row. by rewrite Hs. }
  destruct Hwhy as [Hb|(a & row & Hst & Hrow & Hv)].
  - left. split; [done|]. destruct Hb as (_ & Hb & _). by rewrite Hb in Hsig.
  - right. destruct (HK _ _ Hrow) as (row' & Hrow' & Hsucc). exists a, row'.
    pose proof Hst as (_ & _ & _ & _ & _ & _ & Hsb & Hne).
    destruct Hsucc as (Hpk & _). rewrite Hpk. split_and!; try done.
    destruct (String.eqb_spec (rg_signedBy g) ""); [done|]. by rewrite <- Hsb.
Qed.

(** Everything a registration request does. *)
Lemma policy_key_effect (m : Moment) (st : Authority) (r : Request) :
  let '(st', answer) := RegisterActivationKeyHandler m st r in
  let after := run_ops sstep (au_tables st) (mo_others m) in
  ((au_tables st' = au_tables st \/ au_tables st' = after) /\ rp_Status answer <> StatusCreated) \/
  exists t caller q g,
    callerTenant chain sv (mo_clock m) r = Ok t /\
    presents RegisterActivationKeys (sv_creds sv) r caller /\
    (rq_PeerCertificates r = [] -> cr_TenantID caller = t) /\
    decodeBody decode_key r = Ok q /\ granted m q t after (au_tables st') g.
Proof.
  unfold ActivationKeys.RegisterActivationKeyHandler.
  destruct (registrar _ _ _ _ _) as [[t who]|answer] eqn:Er.
  2: { left. split; [by left|]. by apply registrar_refuses in Er as [-> | ->]. }
  apply registrar_ok in Er as [Ht Hp].
  destruct (negb (mo_store m)); [by left; split; [left|]|].
  destruct (decodeBody decode_key r) as [q|answer] eqn:Eq.
  2: { left. split; [by left|]. unfold decodeBody in Eq.
       repeat case_match; by simplify_eq. }
  cbv zeta. destruct (registration _ _ _ _ _ _) as [g|answer] eqn:Eg.
  2: { left. split; [by left|]. unfold registration, bootstrap_registration,
         ActivationKeys.signed_registration, check_signer, refuseActivationKey, key_error_status in Eg.
       repeat case_match; by simplify_eq. }
  match goal with |- context [RegisterKeyAuthorized _ _ _ _ _ _ _ _ _ ?e _] =>
    pose proof (write_granted m (au_tables st) (run_ops sstep (au_tables st) (mo_others m)) q t g e
      (run_keys _ _) Eg eq_refl) as H end.
  destruct (RegisterKeyAuthorized _ _ _ _ _ _ _ _ _ _ _) as [db' res].
  destruct H as [[-> Hres]|H].
  - left. split; [by right|]. destruct res as [[]|[]]; done.
  - right. destruct (privileged_caller _ _ _ _ _ _ Ht Hp) as (caller & Hc & Hct).
    by exists t, caller, q, g.
Qed.

(** C18: The API never mints policy authority.  Whatever other processes commit meanwhile,
    a request changes the activation keys only when its caller's credential may register
    them for the tenant, and then by one new row, in one commit with its evidence: the
    operator's form for a tenant that holds no key at that moment, or exactly the key,
    holder and window that a document states which verifies under a key the tenant holds
    and that is usable when it commits.  Only then is it answered as created. *)
Theorem policy_key_is_bootstrap_or_signed (m : Moment) (st : Authority) (r : Request) :
  let '(st', answer) := RegisterActivationKeyHandler m st r in
  let after := run_ops sstep (au_tables st) (mo_others m) in
  ((au_tables st' = au_tables st \/ au_tables st' = after) /\ rp_Status answer <> StatusCreated) \/
  exists t caller q g,
    callerTenant chain sv (mo_clock m) r = Ok t /\
    presents RegisterActivationKeys (sv_creds sv) r caller /\
    (rq_PeerCertificates r = [] -> cr_TenantID caller = t) /\
    decodeBody decode_key r = Ok q /\ granted m q t after (au_tables st') g.
Proof. apply policy_key_effect. Qed.

(** ** A bootstrap can lock the tenant out *)

(** No key of the tenant is usable from [u] on. *)
Definition all_expired (db : Tables) (t : string) (u : Time) : Prop :=
  tenant_rows (keys db) t <> [] /\
  forall kid r, keys db !! (t, kid) = Some r -> exists until, k_valid_until r = Some until /\ until <= u.

Lemma expired_refused db t u signedBy at_ :
  all_expired db t u -> u <= at_ -> signer_refused db t signedBy at_ <> None.
Proof.
  intros [_ Hall] Hle. unfold signer_refused.
  destruct (keys db !! (t, signedBy)) as [r|] eqn:Er; [|done].
  destruct (Hall _ _ Er) as (until & Hu & Hun). unfold Usable. cbn. rewrite Hu.
  destruct (_ || _); [done|]. destruct (Before _ _); [done|].
  unfold Before. by destruct (Z.ltb_spec at_ until); [lia|].
Qed.

Lemma expired_stays (db db' : Tables) t u :
  keys_kept db db' -> all_expired db t u ->
  (forall kid, keys db !! (t, kid) = None -> keys db' !! (t, kid) = None) -> all_expired db' t u.
Proof.
  intros HK [Hne Hall] Hnew. split.
  - intros Hnil. destruct (tenant_rows (keys db) t) as [|[kid r] l] eqn:E; [done|].
    assert (Hin : keys db !! (t, kid) = Some r) by (apply tenant_rows_in; rewrite E; left).
    destruct (HK _ _ Hin) as (r' & Hr' & _). apply tenant_rows_in in Hr'. rewrite Hnil in Hr'.
    by apply not_elem_of_nil in Hr'.
  - intros kid r' Hr'. destruct (keys db !! (t, kid)) as [r|] eqn:E.
    + destruct (HK _ _ E) as (r2 & Hr2 & _ & _ & _ & Hu & _). destruct (Hall _ _ E) as (until & H1 & H2).
      exists until. assert (r2 = r') as -> by congruence. by rewrite Hu.
    + by rewrite (Hnew _ E) in Hr'.
Qed.

(** Requests one after another. *)
Inductive api_op :=
| ARegister (m : Moment) (r : Request)
| ARevoke (m : Moment) (r : Request).

Definition op_moment (op : api_op) : Moment := match op with ARegister m _ | ARevoke m _ => m end.

Definition api_step (st : Authority) (op : api_op) : Authority :=
  match op with
  | ARegister m r => fst (RegisterActivationKeyHandler m st r)
  | ARevoke m r => fst (RevokeActivationKeyHandler m st r)
  end.

Lemma revoke_handler_keys m st r :
  keys_kept (au_tables st) (au_tables (fst (RevokeActivationKeyHandler m st r))) /\
  forall k, keys (au_tables st) !! k = None ->
    keys (au_tables (fst (RevokeActivationKeyHandler m st r))) !! k = None.
Proof.
  unfold ActivationKeys.RevokeActivationKeyHandler.
  assert (Hsame : keys_kept (au_tables st) (au_tables st)) by apply keys_kept_refl.
  destruct (registrar _ _ _ _ _) as [[t who]|]; [|done].
  destruct (negb (mo_store m)); [done|]. destruct (decodeBody _ r) as [q|]; [|done].
  destruct (revocation_problems q); [|done]. cbv zeta.
  match goal with |- context [RevokeKey ?f ?n ?d ?t ?k ?b ?at_] =>
    assert (HK : keys_kept d (fst (RevokeKey f n d t k b at_)) /\
      forall x, keys d !! x = None -> keys (fst (RevokeKey f n d t k b at_)) !! x = None)
  end.
  { split; [apply (sstep_keys (au_tables st) (SRevoke _ _ _ _ _ _))|]. intros x Hx.
    unfold RevokeKey. match goal with |- context [withTenant ?f ?d ?t ?fn] =>
      destruct (store_tx f d t fn) as [->|(a & _ & ->)]; [done|];
      match fn with (fun db => revoke_counted (@?n db) db ?t ?k ?b ?at_) =>
        destruct (revoke_counted_keys (n d) d t k b at_) as [->|(row & Hrow & _ & ->)]; [done|] end end.
    cbn. rewrite lookup_insert_ne; [done|]. intros <-. congruence. }
  destruct (RevokeKey _ _ _ _ _ _ _) as [db [[|]|[]]]; cbn [fst] in HK; try exact HK.
  by destruct (negb (mo_evidence m)).
Qed.

Lemma expired_step st op t u :
  mo_others (op_moment op) = [] -> u <= mo_clock (op_moment op) 4 ->
  all_expired (au_tables st) t u -> all_expired (au_tables (api_step st op)) t u.
Proof.
  intros Ho Hu Hex. destruct op as [m r|m r]; cbn [op_moment api_step] in *.
  - pose proof (policy_key_effect m st r) as H.
    destruct (RegisterActivationKeyHandler m st r) as [st' answer]. cbv zeta in H. rewrite Ho in H.
    cbn [run_ops foldl fst] in *.
    destruct H as [[[->| ->] _]|(t' & caller & q & g & _ & _ & _ & _ & Hn & Hk & _ & Hwhy)]; [done..|].
    destruct (decide (t' = t)) as [->|Hne].
    + exfalso. destruct Hwhy as [[_ Hnil]|(a & signer & _ & _ & _ & Hs)].
      * by destruct Hex as [Hne _].
      * by apply (expired_refused _ _ _ _ _ Hex Hu) in Hs.
    + apply (expired_stays (au_tables st)); [|done|].
      * intros k row Hrow. exists row. rewrite Hk. split; [|apply key_succ_refl].
        rewrite lookup_insert_ne; [done|]. intros <-. congruence.
      * intros kid Hnone. rewrite Hk, lookup_insert_ne; [done | congruence].
  - destruct (revoke_handler_keys m st r) as [HK Hn].
    apply (expired_stays (au_tables st)); [done..|]. intros kid. apply Hn.
Qed.

(** A bootstrap is accepted with an expiry that is already past, and locks its tenant
    out: no request, however signed, ever registers a key for that tenant again. *)
Theorem expired_bootstrap_locks_the_tenant_out (m : Moment) (db : Tables) (q : activationKeyRequest)
    (t : string) (g : Registration) (u : Time) (seq : Z) (e : Evidence.Event) (db' : Tables)
    (ops : list api_op) (m' : Moment) (r' : Request) :
  bootstrap_registration q t (mo_clock m 4) = Ok g -> aq_ValidUntil q = Some u ->
  u <= mo_clock m 4 ->
  RegisterKeyAuthorized (mo_write m) (mo_dbnow m) db (rg_key g) (rg_nonce g) (rg_action g)
    (rg_actor g) (rg_signedBy g) (rg_authorizedAt g) e (mo_clock m 4) = (db', Ok true) ->
  (forall op, op ∈ ops -> mo_others (op_moment op) = [] /\ u <= mo_clock (op_moment op) 4) ->
  mo_others m' = [] -> u <= mo_clock m' 4 ->
  callerTenant chain sv (mo_clock m') r' = Ok t ->
  let st := run_ops api_step (mkAuthority db' seq) ops in
  rp_Status (snd (RegisterActivationKeyHandler m' st r')) <> StatusCreated.
Proof.
  intros Hg Hu Hle Hw Hops Ho Hle' Ht st. apply bootstrap_registration_ok in Hg.
  destruct Hg as (_ & Hs & _ & _ & Hkey).
  assert (Hex : all_expired db' t u).
  { pose proof (RegisterKeyAuthorized_cases (mo_write m) (mo_dbnow m) db (rg_key g) (rg_nonce g)
      (rg_action g) (rg_actor g) (rg_signedBy g) (rg_authorizedAt g) e (mo_clock m 4)) as H.
    cbv zeta in H. rewrite Hw in H. destruct H as [[_ H]|[_ H]]; [done|].
    apply register_authorized_ok in H. cbv zeta in H. destruct H as (Hnil & _ & _ & _ & Hk & _).
    rewrite Hs in Hnil. cbn [String.eqb] in Hnil. cbn [fst] in Hk.
    rewrite Hkey in Hk, Hnil. cbn in Hk, Hnil. split.
    - intros E. assert (Hin : (TrimSpace (aq_KeyID q),
        mkKeyRow (ak_PublicKey (rg_key g)) (TrimSpace (aq_Holder q)) "ACTIVE" (mo_clock m 4)
          (aq_ValidUntil q) None None) ∈ tenant_rows (keys db') t).
      { apply tenant_rows_in. by rewrite Hk, lookup_insert_eq. }
      rewrite E in Hin. by apply not_elem_of_nil in Hin.
    - intros kid row Hrow. rewrite Hk in Hrow.
      destruct (decide ((t, TrimSpace (aq_KeyID q)) = (t, kid))) as [E|Hne].
      + rewrite E, lookup_insert_eq in Hrow. injection Hrow as <-. cbn. by exists u.
      + rewrite lookup_insert_ne in Hrow by done. apply tenant_rows_in in Hrow.
        rewrite Hnil in Hrow. by apply not_elem_of_nil in Hrow. }
  assert (Hst : all_expired (au_tables st) t u).
  { unfold st. clear st. change db' with (au_tables (mkAuthority db' seq)) in Hex.
    revert Hex. generalize (mkAuthority db' seq). induction ops as [|op ops IH]; intros s Hex; [done|].
    apply IH.
    - intros op' Hop'. apply Hops. by right.
    - destruct (Hops op) as [H1 H2]; [by left|]. by apply expired_step. }
  pose proof (policy_key_effect m' st r') as H.
  destruct (RegisterActivationKeyHandler m' st r') as [st' answer]. cbv zeta in H. rewrite Ho in H.
  cbn [run_ops foldl snd] in *.
  destruct H as [[_ H]|(t' & caller & q' & g' & Ht' & _ & _ & _ & _ & _ & _ & Hwhy)]; [done|].
  assert (t' = t) as -> by congruence. exfalso.
  destruct Hwhy as [[_ Hnil]|(a & signer & _ & _ & _ & Hsig)].
  - by destruct Hst as [Hne _].
  - by apply (expired_refused _ _ _ _ _ Hst Hle') in Hsig.
Qed.
End Properties.

(** * Witnesses *)

#[local] Instance demo_crypto : Crypto := toy_crypto.
#[local] Instance demo_json : Evidence.JSON := Evidence.toy_json.

Definition registrar_server : Server (Pool := unit) :=
  mkServer (Some {[ "token-1" := mkCaller "registrar" "tenant-1" false false true ]}) None.
Definition demo_chain (_ : unit) (_ : list Certificate) (_ : Certificate) (_ : Time) : option X509Error := None.
Definition post (body : string) : Request := mkRequest "Bearer token-1" "" [] (Some body) "".
Definition at_noon (n : Z) : Moment := mkMoment (fun _ => n) n Fine Fine Fine Fine true true [].
Definition no_authority : Authority := mkAuthority empty_tables 0.

Definition bootstrap_form (until : option Time) : activationKeyRequest :=
  mkActivationKeyRequest "k-1" (EncodeToString (repeat 1%nat 32)) "risk" "operator" "" until None.
Definition second_key (value : string) : KeyAuthorization :=
  mkKeyAuthorization "v0.1" "tenant-1" ActionRegisterKey "k-2" (EncodeToString (repeat 2%nat 32))
    "risk" None (Some 900) "risk-officer" "" 3 "n-2" (mkSignature "Ed25519" "k-1" value).
Definition second_signed : KeyAuthorization :=
  second_key (EncodeToString (sign (Crypto := toy_crypto) 1%nat
                                (default [] (KeyCanonical toy_rfc3339 (second_key ""))))).
Definition demo_decode_key (raw : string) : result activationKeyRequest string :=
  if String.eqb raw "bootstrap" then Ok (bootstrap_form None)
  else if String.eqb raw "signed" then
    Ok (mkActivationKeyRequest "" "" "" "" "" None (Some second_signed))
  else Err "syntax".

Local Abbreviation demo_register :=
  (RegisterActivationKeyHandler demo_chain toy_rfc3339 demo_decode_key fmt_d registrar_server).

Definition bootstrapped : Authority := fst (demo_register (at_noon 10) no_authority (post "bootstrap")).

Example policy_key_is_bootstrap_or_signed_witness :
  rp_Status (snd (demo_register (at_noon 20) bootstrapped (post "signed"))) = StatusCreated /\
  exists t q g, granted toy_rfc3339 (at_noon 20) q t (au_tables bootstrapped)
    (au_tables (fst (demo_register (at_noon 20) bootstrapped (post "signed")))) g.
Proof.
  assert (H : rp_Status (snd (demo_register (at_noon 20) bootstrapped (post "signed"))) = StatusCreated)
    by (vm_compute; reflexivity).
  split; [exact H|].
  pose proof (policy_key_is_bootstrap_or_signed demo_chain toy_rfc3339 demo_decode_key fmt_d
    registrar_server (at_noon 20) bootstrapped (post "signed")) as T.
  destruct (demo_register (at_noon 20) bootstrapped (post "signed")) as [st' answer].
  cbn [fst snd] in *. cbv zeta in T.
  destruct T as [[_ T]|(t & caller & q & g & _ & _ & _ & _ & T)]; [contradiction|].
  exists t, q, g. exact T.
Defined.

Definition late_bootstrap : Registration :=
  mkRegistration (mkActivationKey "tenant-1" "k-1" (repeat 1%nat 32) "risk" "ACTIVE" 10 (Some 5) None "")
    "bootstrap_k-1" BootstrapAction "operator" "" 10.
Definition late_event : Evidence.Event :=
  activationKeyEvent Evidence.ActivationKeyRegistered "tenant-1" "k-1" 10 [] 1.
Definition locked_out : Tables :=
  fst (RegisterKeyAuthorized Fine 10 empty_tables (rg_key late_bootstrap) (rg_nonce late_bootstrap)
         BootstrapAction "operator" "" 10 late_event 10).

Example expired_bootstrap_locks_the_tenant_out_witness :
  rp_Status (snd (demo_register (at_noon 30) (mkAuthority locked_out 1) (post "signed"))) <> StatusCreated.
Proof.
  apply (expired_bootstrap_locks_the_tenant_out demo_chain toy_rfc3339 demo_decode_key
    (fun raw => Ok (mkRevokeActivationKeyRequest raw "operator" "")) fmt_d registrar_server
    (at_noon 10) empty_tables (bootstrap_form (Some 5)) "tenant-1" late_bootstrap 5 1 late_event
    locked_out [] (at_noon 30) (post "signed")).
  - vm_compute. reflexivity.
  - reflexivity.
  - cbn. lia.
  - vm_compute. reflexivity.
  - intros op Hop. inversion Hop.
  - reflexivity.
  - cbn. lia.
  - vm_compute. reflexivity.
Defined.
