(* ===== verification/Bundles.v ===== *)
(** The gateway's source of policy: [FileBundles] of internal/gateway/http.go.

    A replica serves each tenant's bundle from a directory and caches what it
    verified; whether a changed file may take effect is decided by a customer's
    authorization, checked here and accepted in the store of [ActivationStore].
    [Active] is one call by one replica.  [Surroundings] is what it meets: the
    directory at the three moments it looks, the clock, the fault of each of its
    transactions, and what other processes commit between them ([ostep]).  [reload] is
    the part that runs under the mutex, so calls of one replica interleave as [BReload]
    with any earlier stamp. *)

From S2P Require Import Prelude Strings Money Intent Policy CanonicalJSON Crypto Activation ActivationStore.
From S2P Require Evidence.
Import Store.

(** * Files *)

Record File := mkFile {
  f_Size : Z;
  f_ModTime : Time;
  (** [None] is a file that cannot be read *)
  f_Data : option string
}.

(** The directory [Dir], by file name. *)
Abbreviation Directory := (gmap string File).

Definition bundleStamp (d : Directory) (name : string) : string :=
  match d !! name with
  | None => "absent"
  | Some f => fmt_d (f_Size f) +:+ ":" +:+ fmt_d (f_ModTime f)
  end.

Definition ReadFile (d : Directory) (name : string) : option string :=
  match d !! name with Some f => f_Data f | None => None end.

Definition bundle_path (tenantID : string) : string := tenantID +:+ ".json".
Definition activation_path (tenantID : string) : string := tenantID +:+ ".activation.json".

Definition stamp_of (d : Directory) (tenantID : string) : string :=
  bundleStamp d (bundle_path tenantID) +:+ "|" +:+ bundleStamp d (activation_path tenantID).

(** A slash or a backslash. *)
Definition separator (b : nat) : bool := ((b =? 47) || (b =? 92))%nat.

Fixpoint has_dots (l : list nat) : bool :=
  match l with
  | [] => false
  | b :: l' => (match l' with c :: _ => (b =? 46) && (c =? 46) | [] => false end)%nat || has_dots l'
  end.

(** The tenant is a path element. *)
Definition invalid_tenant (tenantID : string) : bool :=
  String.eqb tenantID "" || String.eqb tenantID "." || String.eqb tenantID ".." ||
  existsb separator (bytes tenantID) || has_dots (bytes tenantID).

(** * The replica *)

Inductive ActiveError :=
| ErrInvalidTenant
| ErrNoBundle
| ErrBundleUnreadable (what : string)
| ErrBundleSignature (e : BundleError)
| ErrBundleTenant
| ErrNotActive (status : BundleStatus)
| ErrNoActivationStore
| ErrNoAuthorization
| ErrAuthorizationUnreadable (what : string)
| ErrAuthorizationTenant
(** an [ActivationError] of the authorization or of its key *)
| ErrActivation (code : string)
| ErrKeyLookup (e : StoreError)
| ErrCurrentUnread (e : StoreError)
| ErrStale (code : string)
| ErrAlreadyAccepted (nonce : string)
| ErrNotRecorded (e : StoreError).

(** [cached] and [stamps] are the two maps; [Activations] is whether a store is
    configured; [sequence] is the process's counter of evidence events; [reports] is
    what the callback [Report] has been given. *)
Record FileBundles := mkFileBundles {
  fb_PublicKey : bytes_t;
  fb_Activations : bool;
  fb_cached : gmap string Bundle;
  fb_stamps : gmap string string;
  fb_sequence : Z;
  fb_reports : list (string * ActiveError)
}.

Definition fresh (pub : bytes_t) (activations : bool) : FileBundles :=
  mkFileBundles pub activations ∅ ∅ 0 [].

Definition NewFileBundles (publicKeyHex : string) (activations : bool) : option FileBundles :=
  match DecodeString (TrimSpace publicKeyHex) with
  | Some key => if (length key =? PublicKeySize)%nat then Some (fresh key activations) else None
  | None => None
  end.

Definition remember (fb : FileBundles) (tenantID : string) (b : Bundle) (stamp : string)
    : FileBundles :=
  mkFileBundles (fb_PublicKey fb) (fb_Activations fb) (<[tenantID := b]> (fb_cached fb))
    (<[tenantID := stamp]> (fb_stamps fb)) (fb_sequence fb) (fb_reports fb).

Definition report (fb : FileBundles) (tenantID : string) (e : ActiveError) : FileBundles :=
  mkFileBundles (fb_PublicKey fb) (fb_Activations fb) (fb_cached fb) (fb_stamps fb)
    (fb_sequence fb) (fb_reports fb ++ [(tenantID, e)]).

Definition next_sequence (fb : FileBundles) : FileBundles :=
  mkFileBundles (fb_PublicKey fb) (fb_Activations fb) (fb_cached fb) (fb_stamps fb)
    (add64 (fb_sequence fb) 1) (fb_reports fb).

(** What the read lock shows: the bundle, if it was read from these files. *)
Definition unchanged (fb : FileBundles) (tenantID stamp : string) : option Bundle :=
  match fb_cached fb !! tenantID with
  | Some b => if String.eqb stamp (default "" (fb_stamps fb !! tenantID)) then Some b else None
  | None => None
  end.

Definition keepOnFailedReload (fb : FileBundles) (tenantID : string) (cached : option Bundle)
    (err : ActiveError) : FileBundles * result Bundle ActiveError :=
  (report fb tenantID err, match cached with None => Err err | Some b => Ok b end).

(** * One call *)

Record Surroundings := mkSurroundings {
  su_stat : Directory;
  su_bundle : Directory;
  su_authorization : Directory;
  su_now : Time;
  su_dbnow : Time;
  (** the five transactions: current, key, prior, accept, current again *)
  su_fault : nat -> TxFault;
  (** what others commit just before each of them *)
  su_others : nat -> list sop
}.

Section Serving.
Context {C : Crypto} {HJ : Evidence.JSON}.
Context (rfc3339 : Time -> option string).
(** Time.Format(time.RFC3339) of a UTC instant *)
Context (format_rfc3339 : Time -> string).
Context (unmarshal_bundle : string -> result Bundle string).
Context (unmarshal_authorization : string -> result Authorization string).

(** The moment [at_] lies in the window the key was registered with. *)
Definition in_window (r : KeyRow) (at_ : Time) : bool :=
  negb (Before at_ (k_valid_from r)) &&
  match k_valid_until r with Some until => Before at_ until | None => true end.

(** Another process: it registers and revokes keys, and accepts an authorization only
    after it verified it against the registered key inside the key's window, as
    [authorize] below does; the key may have been revoked since. *)
Definition ostep (db : Tables) (op : sop) : Tables :=
  match op with
  | SAccept _ _ a _ at_ =>
      match keys db !! (az_TenantID a, sig_KeyID (az_Signature a)) with
      | Some r => if String.eqb (Verify rfc3339 a (k_public_key r)) "" && in_window r at_
                  then sstep db op else db
      | None => db
      end
  | _ => sstep db op
  end.

Definition meanwhile (s : Surroundings) (n : nat) (db : Tables) : Tables :=
  run_ops ostep db (su_others s n).

Definition activationEvent (a : Authorization) (b : Bundle) (prior : option Transition)
    (at_ : Time) (seq : Z) : Evidence.Event :=
  Evidence.mkEvent Evidence.SchemaVersion (b_TenantID b +:+ "_" +:+ az_Nonce a)
    (if String.eqb (az_Action a) ActionRollback then Evidence.PolicyBundleRolledBack
     else Evidence.PolicyBundleActivated)
    (b_TenantID b) (b_BundleID b) (b_BundleID b) "" at_ at_ "assurance-gateway" seq ""
    (Some ([("bundle_id", Evidence.VString (b_BundleID b));
            ("policy", Evidence.VString (b_Policy b)); ("version", Evidence.VInt (b_Version b));
            ("content_hash", Evidence.VString (b_ContentHash b));
            ("signed_by", Evidence.VString (b_SignedBy b));
            ("action", Evidence.VString (az_Action a)); ("actor", Evidence.VString (az_Actor a));
            ("reason", Evidence.VString (az_Reason a));
            ("key_id", Evidence.VString (sig_KeyID (az_Signature a)));
            ("nonce", Evidence.VString (az_Nonce a));
            ("authorized_at", Evidence.VString (format_rfc3339 (az_AuthorizedAt a)));
            ("rules", Evidence.VInt (Z.of_nat (length (b_Rules b))))] ++
           match prior with
           | Some p => [("previous_bundle_id", Evidence.VString (tr_BundleID p));
                        ("previous_content_hash", Evidence.VString (tr_BundleContentHash p))]
           | None => []
           end)).

(** The checks of [authorize] before the key is looked up. *)
Definition readAuthorization (s : Surroundings) (tenantID : string) (b : Bundle)
    : result Authorization ActiveError :=
  match ReadFile (su_authorization s) (activation_path tenantID) with
  | None => Err ErrNoAuthorization
  | Some raw =>
  match unmarshal_authorization raw with
  | Err e => Err (ErrAuthorizationUnreadable e)
  | Ok a =>
      if str_nonempty (Validate a) then Err (ErrActivation (Validate a))
      else if negb (String.eqb (az_TenantID a) tenantID) then Err ErrAuthorizationTenant
      else if str_nonempty (Authorizes a (Some b)) then Err (ErrActivation (Authorizes a (Some b)))
      else Ok a
  end end.

(** The key's checks. *)
Definition checkKey (a : Authorization) (key : result ActivationKey StoreError) (at_ : Time)
    : option ActiveError :=
  match key with
  | Err (ErrCode code) => Some (ErrActivation code)
  | Err e => Some (ErrKeyLookup e)
  | Ok k =>
      if str_nonempty (Usable k at_) then Some (ErrActivation (Usable k at_))
      else if str_nonempty (Verify rfc3339 a (ak_PublicKey k)) then
        Some (ErrActivation (Verify rfc3339 a (ak_PublicKey k)))
      else None
  end.

Definition readPrior (r : result Transition StoreError) : result (option Transition) ActiveError :=
  match r with
  | Ok p => Ok (Some p)
  | Err ErrNoTransition => Ok None
  | Err e => Err (ErrCurrentUnread e)
  end.

(** The transition, recorded; [current] is asked only about a replay. *)
Definition settle (a : Authorization) (b : Bundle) (r : result Transition StoreError)
    (current : result Transition StoreError) : result Bundle ActiveError :=
  match r with
  | Ok _ => Ok b
  | Err (ErrStalePredecessor code) => Err (ErrStale code)
  | Err ErrReplayed =>
      match current with
      | Ok c => if String.eqb (tr_BundleContentHash c) (b_ContentHash b) then Ok b
                else Err (ErrAlreadyAccepted (az_Nonce a))
      | Err _ => Err (ErrAlreadyAccepted (az_Nonce a))
      end
  | Err e => Err (ErrNotRecorded e)
  end.

Definition authorize (s : Surroundings) (fb : FileBundles) (db : Tables) (tenantID : string)
    (b : Bundle) : FileBundles * Tables * result Bundle ActiveError :=
  if negb (fb_Activations fb) then (fb, db, Err ErrNoActivationStore) else
  match readAuthorization s tenantID b with
  | Err e => (fb, db, Err e)
  | Ok a =>
      let db := meanwhile s 1 db in
      match checkKey a (Key (su_fault s 1) db tenantID (sig_KeyID (az_Signature a))) (su_now s) with
      | Some e => (fb, db, Err e)
      | None =>
          let db := meanwhile s 2 db in
          match readPrior (Current (su_fault s 2) db tenantID) with
          | Err e => (fb, db, Err e)
          | Ok prior =>
              let fb := next_sequence fb in
              let event := activationEvent a b prior (su_now s) (fb_sequence fb) in
              let '(db, r) := Accept (su_fault s 3) (su_dbnow s) (meanwhile s 3 db) a event (su_now s) in
              match r with
              | Err ErrReplayed =>
                  let db := meanwhile s 4 db in
                  (fb, db, settle a b r (Current (su_fault s 4) db tenantID))
              | _ => (fb, db, settle a b r (Err ErrNoTransition))
              end
          end
      end
  end.

(** The checks on the candidate file. *)
Definition readBundle (s : Surroundings) (fb : FileBundles) (tenantID raw : string)
    : result Bundle ActiveError :=
  match unmarshal_bundle raw with
  | Err e => Err (ErrBundleUnreadable e)
  | Ok b =>
      match VerifySignature b (fb_PublicKey fb) with
      | Some e => Err (ErrBundleSignature e)
      | None =>
          if negb (String.eqb (b_TenantID b) tenantID) then Err ErrBundleTenant
          else if negb (Enforcing b) then Err (ErrNotActive (ac_Status (b_Activation b)))
          else Ok b
      end
  end.

(** Already in force under an accepted transition. *)
Definition in_force (s : Surroundings) (fb : FileBundles) (db : Tables) (tenantID : string)
    (b : Bundle) : bool :=
  fb_Activations fb &&
  match Current (su_fault s 0) db tenantID with
  | Ok c => String.eqb (tr_BundleContentHash c) (b_ContentHash b)
  | Err _ => false
  end.

Definition reload (s : Surroundings) (fb : FileBundles) (db : Tables) (tenantID stamp : string)
    : FileBundles * Tables * result Bundle ActiveError :=
  match unchanged fb tenantID stamp with
  | Some b => (fb, db, Ok b)
  | None =>
  let cached := fb_cached fb !! tenantID in
  match ReadFile (su_bundle s) (bundle_path tenantID) with
  | None => (fb, db, match cached with Some b => Ok b | None => Err ErrNoBundle end)
  | Some raw =>
  match readBundle s fb tenantID raw with
  | Err e => let '(fb, r) := keepOnFailedReload fb tenantID cached e in (fb, db, r)
  | Ok b =>
      let db := meanwhile s 0 db in
      if in_force s fb db tenantID b then (remember fb tenantID b stamp, db, Ok b) else
      match authorize s fb db tenantID b with
      | (fb, db, Err e) => let '(fb, r) := keepOnFailedReload fb tenantID cached e in (fb, db, r)
      | (fb, db, Ok b) => (remember fb tenantID b stamp, db, Ok b)
      end
  end end end.

Definition Active (s : Surroundings) (fb : FileBundles) (db : Tables) (tenantID : string)
    : FileBundles * Tables * result Bundle ActiveError :=
  if invalid_tenant tenantID then (fb, db, Err ErrInvalidTenant) else
  let stamp := stamp_of (su_stat s) tenantID in
  match unchanged fb tenantID stamp with
  | Some b => (fb, db, Ok b)
  | None => reload s fb db tenantID stamp
  end.

(** * Histories of one replica *)

Inductive bundle_op :=
(** a call of [Active] *)
| BActive (tenantID : string) (s : Surroundings)
(** a call that found a change earlier, at [stamp], and has now taken the mutex *)
| BReload (tenantID : string) (s : Surroundings) (stamp : string)
| BOther (op : sop).

Definition bundle_step (w : FileBundles * Tables) (op : bundle_op) : FileBundles * Tables :=
  match op with
  | BActive t s => fst (Active s (fst w) (snd w) t)
  | BReload t s stamp => fst (reload s (fst w) (snd w) t stamp)
  | BOther op => (fst w, ostep (snd w) op)
  end.
End Serving.

(** * What is enforced was authorized *)

Section Authorized.
Context {C : Crypto} {HJ : Evidence.JSON}.
Context (rfc3339 : Time -> option string).
Context (format_rfc3339 : Time -> string).
Context (unmarshal_bundle : string -> result Bundle string).
Context (unmarshal_authorization : string -> result Authorization string).
Local Abbreviation Active := (Active rfc3339 format_rfc3339 unmarshal_bundle unmarshal_authorization).
Local Abbreviation reload := (reload rfc3339 format_rfc3339 unmarshal_bundle unmarshal_authorization).
Local Abbreviation authorize := (authorize rfc3339 format_rfc3339 unmarshal_authorization).
Local Abbreviation bundle_step :=
  (bundle_step rfc3339 format_rfc3339 unmarshal_bundle unmarshal_authorization).
Local Abbreviation ostep := (ostep rfc3339).
Local Abbreviation meanwhile := (meanwhile rfc3339).

(** An accepted row and the signed document that authorized it: it names the row's
    bundle and content hash, verifies under the public key the tenant registered with
    that identifier, and was accepted inside that key's window. *)
Definition authorized_by (db : Tables) (t nonce : string) (r : ActivationRow) : Prop :=
  exists a k, keys db !! (t, a_key_id r) = Some k /\
    Verify rfc3339 a (k_public_key k) = "" /\ in_window k (a_accepted_at r) = true /\
    az_TenantID a = t /\ az_Nonce a = nonce /\ az_BundleID a = a_bundle_id r /\
    az_BundleContentHash a = a_bundle_content_hash r /\ az_Action a = a_action r /\
    az_Actor a = a_actor r /\ sig_KeyID (az_Signature a) = a_key_id r.

(** Every accepted row that [base] did not hold already was authorized. *)
Definition attributed (base db : Tables) : Prop :=
  forall t n r, activations db !! (t, n) = Some r ->
    activations base !! (t, n) = Some r \/ authorized_by db t n r.

Lemma attributed_base base : attributed base base.
Proof. intros t n r Hr. by left. Qed.

Definition accepted_hash (db : Tables) (t hash : string) : Prop :=
  exists n r, activations db !! (t, n) = Some r /\ a_bundle_content_hash r = hash.

(** What a bundle must be to constrain the orders of tenant [t]. *)
Record enforceable (pub : bytes_t) (db : Tables) (t : string) (b : Bundle) : Prop := {
  en_signed : VerifySignature b pub = None;
  en_tenant : b_TenantID b = t;
  en_active : Enforcing b = true;
  en_accepted : accepted_hash db t (b_ContentHash b)
}.

(** A store only grows. *)
Definition grows (db db' : Tables) : Prop :=
  keys_kept db db' /\ activations db ⊆ activations db'.

#[local] Instance grows_preorder : PreOrder grows.
Proof.
  split.
  - intros db. split; [apply keys_kept_refl | done].
  - intros db1 db2 db3 [K1 A1] [K2 A2]. split; [|by etransitivity].
    intros k r Hr. destruct (K1 k r Hr) as (r2 & Hr2 & S1).
    destruct (K2 k r2 Hr2) as (r3 & Hr3 & S2). exists r3.
    split; [done | by eapply key_succ_trans].
Qed.

Lemma in_window_succ r r' at_ : key_succ r r' -> in_window r' at_ = in_window r at_.
Proof. intros (_ & _ & Hf & Hu & _). unfold in_window. by rewrite Hf, Hu. Qed.

Lemma authorized_by_grows db db' t n r :
  grows db db' -> authorized_by db t n r -> authorized_by db' t n r.
Proof.
  intros [HK _] (a & k & Hk & Hv & Hw & Hrest). destruct (HK _ _ Hk) as (k' & Hk' & Hs).
  exists a, k'. split_and!; [done| |by rewrite (in_window_succ k) |apply Hrest..].
  by destruct Hs as (-> & _).
Qed.

Lemma accepted_hash_grows db db' t h : grows db db' -> accepted_hash db t h -> accepted_hash db' t h.
Proof. intros [_ HA] (n & r & Hr & Hh). exists n, r. split; [by eapply lookup_weaken | done]. Qed.

Lemma enforceable_grows pub db db' t b :
  grows db db' -> enforceable pub db t b -> enforceable pub db' t b.
Proof. intros HG []. split; try done. by eapply accepted_hash_grows. Qed.

Lemma sstep_grows db op : grows db (sstep db op).
Proof. split; [apply sstep_keys | apply sstep_activations]. Qed.

Lemma attributed_grown base db db' t n r :
  grows db db' -> attributed base db -> activations db !! (t, n) = Some r ->
  activations base !! (t, n) = Some r \/ authorized_by db' t n r.
Proof.
  intros HG Hat Hr. destruct (Hat t n r Hr) as [H|H]; [by left | right]. by eapply authorized_by_grows.
Qed.

(** Accepting a verified authorization keeps every row attributed. *)
Lemma accept_attributed base f now db a e at_ k :
  keys db !! (az_TenantID a, sig_KeyID (az_Signature a)) = Some k ->
  Verify rfc3339 a (k_public_key k) = "" -> in_window k at_ = true ->
  attributed base db -> attributed base (fst (Accept f now db a e at_)).
Proof.
  intros Hk Hv Hw Hat.
  pose proof (sstep_grows db (SAccept f now a e at_)) as HG. cbn [sstep] in HG.
  destruct (Accept_state f now db a e at_) as [->|(db' & tr & Hb & Hdb)]; [done|].
  rewrite Hdb in *. apply accept_body_ok in Hb as (_ & _ & Hkeys & _ & Ha & _). cbn zeta in *.
  intros t n r Hr. rewrite Ha in Hr.
  destruct (decide ((az_TenantID a, az_Nonce a) = (t, n))) as [[= <- <-]|Hne].
  - rewrite lookup_insert_eq in Hr. injection Hr as <-. right. exists a, k. rewrite Hkeys. by split_and!.
  - rewrite lookup_insert_ne in Hr by done. by eapply attributed_grown.
Qed.

Lemma ostep_grows db op : grows db (ostep db op).
Proof.
  unfold Bundles.ostep. destruct op; try apply sstep_grows.
  destruct (keys db !! _); [|done]. destruct (_ && _); [apply sstep_grows | done].
Qed.

Lemma ostep_attributed base db op : attributed base db -> attributed base (ostep db op).
Proof.
  intros Hat.
  assert (Hother : activations (ostep db op) = activations db -> attributed base (ostep db op)).
  { intros E t n r. rewrite E. intros Hr. eapply attributed_grown; [apply ostep_grows | done..]. }
  destruct op as [f k|f now k n ac who by_ aat e at_|f now t k by_ at_|f now a e at_];
    try (apply Hother; cbn [Bundles.ostep];
         match goal with |- activations (sstep ?d ?op) = _ => exact (proj1 (other_history d op I)) end).
  clear Hother. cbn [Bundles.ostep].
  destruct (keys db !! _) as [k|] eqn:Ek; [|done].
  destruct (String.eqb_spec (Verify rfc3339 a (k_public_key k)) ""); cbn [andb]; [|done].
  destruct (in_window k at_) eqn:Ew; [|done]. cbn [sstep]. by eapply accept_attributed.
Qed.

Lemma meanwhile_keeps base s n db :
  grows db (meanwhile s n db) /\ (attributed base db -> attributed base (meanwhile s n db)).
Proof.
  unfold Bundles.meanwhile. split; [|intros Hat].
  - apply (run_ops_invariant ostep (grows db)); [|done].
    intros db' op H. etransitivity; [exact H | apply ostep_grows].
  - apply run_ops_invariant; [apply ostep_attributed | done].
Qed.

(** ** The reads *)

Lemma Key_found f db t kid k :
  Key f db t kid = Ok k ->
  exists r, keys db !! (t, kid) = Some r /\ ak_PublicKey k = k_public_key r /\
    ak_ValidFrom k = k_valid_from r /\ ak_ValidUntil k = k_valid_until r.
Proof.
  unfold Key, withTenant. destruct (String.eqb t ""); [done|].
  unfold transaction. destruct f; cbn; [|done|]; destruct (keys db !! (t, kid)) as [r|]; try done.
  intros [= <-]. by exists r.
Qed.

Lemma Current_found f db t c :
  Current f db t = Ok c -> accepted_hash db t (tr_BundleContentHash c).
Proof.
  unfold Current, withTenant. destruct (String.eqb t ""); [done|].
  unfold transaction, transitionInTx. destruct f; cbn; [|done|]; destruct (current db !! t) as [p|]; try done;
    destruct (activations db !! (t, c_nonce p)) as [r|] eqn:E; try done.
  intros [= <-]. by exists (c_nonce p), r.
Qed.

Lemma Usable_window k r at_ :
  ak_ValidFrom k = k_valid_from r -> ak_ValidUntil k = k_valid_until r ->
  Usable k at_ = "" -> in_window r at_ = true.
Proof.
  unfold Usable, in_window. intros -> ->. destruct (_ || _); [done|].
  destruct (Before at_ (k_valid_from r)); [done|].
  destruct (k_valid_until r) as [u|]; [|done]. by destruct (Before at_ u).
Qed.

Lemma checkKey_passed a f db t at_ :
  checkKey rfc3339 a (Key f db t (sig_KeyID (az_Signature a))) at_ = None ->
  exists r, keys db !! (t, sig_KeyID (az_Signature a)) = Some r /\
    Verify rfc3339 a (k_public_key r) = "" /\ in_window r at_ = true.
Proof.
  unfold checkKey. destruct (Key _ _ _ _) as [k|[]] eqn:Ek; try done.
  destruct (str_nonempty (Usable k at_)) eqn:Eu; [done|].
  destruct (str_nonempty (Verify rfc3339 a (ak_PublicKey k))) eqn:Ev; [done|]. intros _.
  apply Key_found in Ek as (r & Hr & Hpk & Hf & Hu). exists r.
  split_and!; [done | rewrite <- Hpk; by apply str_nonempty_false |].
  eapply Usable_window; [done..|]. by apply str_nonempty_false.
Qed.

Lemma readAuthorization_ok s t b a :
  readAuthorization unmarshal_authorization s t b = Ok a ->
  az_TenantID a = t /\ Validate a = "" /\ Authorizes a (Some b) = "" /\
  az_BundleContentHash a = b_ContentHash b.
Proof.
  unfold readAuthorization. destruct (ReadFile _ _); [|done].
  destruct (unmarshal_authorization _) as [a'|]; [|done].
  destruct (str_nonempty (Validate a')) eqn:Ev; [done|].
  destruct (String.eqb_spec (az_TenantID a') t) as [Ht|]; cbn [negb]; [|done].
  destruct (str_nonempty (Authorizes a' (Some b))) eqn:Ea; [done|]. intros [= <-].
  apply str_nonempty_false in Ev, Ea. split_and!; try done. revert Ea. unfold Authorizes.
  destruct (negb (String.eqb (az_TenantID a') _)); [done|].
  destruct (negb (String.eqb (az_BundleID a') _)); [done|].
  by destruct (String.eqb_spec (az_BundleContentHash a') (b_ContentHash b)).
Qed.

Lemma readBundle_ok s fb t raw b :
  readBundle unmarshal_bundle s fb t raw = Ok b ->
  unmarshal_bundle raw = Ok b /\
  VerifySignature b (fb_PublicKey fb) = None /\ b_TenantID b = t /\ Enforcing b = true.
Proof.
  unfold readBundle. destruct (unmarshal_bundle raw) as [b'|]; [|done].
  destruct (VerifySignature b' _) eqn:Ev; [done|].
  destruct (String.eqb_spec (b_TenantID b') t); cbn [negb]; [|done].
  destruct (Enforcing b') eqn:Ee; cbn [negb]; [|done]. by intros [= <-].
Qed.

Lemma Accept_recorded f now db a e at_ db' tr :
  Accept f now db a e at_ = (db', Ok tr) ->
  accepted_hash db' (az_TenantID a) (az_BundleContentHash a).
Proof.
  unfold Accept, withTenant. destruct (String.eqb _ ""); [done|].
  intros [_ H]%transaction_ok. destruct (accept_body _ _ _ _ _) as [[db1 tr1]|] eqn:E; [|done].
  injection H as -> _. apply accept_body_ok in E as (_ & _ & _ & _ & Ha & _). cbn zeta in Ha.
  exists (az_Nonce a), (accepted a at_ db). by rewrite Ha, lookup_insert_eq.
Qed.

(** The parts of a replica a call may not touch before the end. *)
Definition same_cache (fb fb' : FileBundles) : Prop :=
  fb_PublicKey fb' = fb_PublicKey fb /\ fb_Activations fb' = fb_Activations fb /\
  fb_cached fb' = fb_cached fb /\ fb_stamps fb' = fb_stamps fb.

Lemma same_cache_refl fb : same_cache fb fb.
Proof. done. Qed.

(** Accepting through [authorize]: from the state the key was read in to the state the
    store is left in. *)
Lemma accept_keeps base f now db db1 a e at_ k :
  keys db !! (az_TenantID a, sig_KeyID (az_Signature a)) = Some k ->
  Verify rfc3339 a (k_public_key k) = "" -> in_window k at_ = true ->
  grows db db1 -> attributed base db1 ->
  grows db (fst (Accept f now db1 a e at_)) /\ attributed base (fst (Accept f now db1 a e at_)).
Proof.
  intros Hk Hv Hw HG Hat. split.
  - etransitivity; [exact HG | apply (sstep_grows db1 (SAccept f now a e at_))].
  - destruct (proj1 HG _ _ Hk) as (k' & Hk' & Hs). apply (accept_attributed _ _ _ _ _ _ _ k'); try done.
    + by destruct Hs as (-> & _).
    + by rewrite (in_window_succ k).
Qed.

Lemma authorize_keeps base s fb db t b fb' db' r :
  authorize s fb db t b = (fb', db', r) -> attributed base db ->
  same_cache fb fb' /\ grows db db' /\ attributed base db' /\
  (forall b', r = Ok b' -> b' = b /\ accepted_hash db' t (b_ContentHash b)).
Proof.
  intros H Hat. unfold Bundles.authorize in H. destruct (negb _); [by simplify_eq|].
  destruct (readAuthorization _ _ _ _) as [a|] eqn:Ea; [|by simplify_eq].
  apply readAuthorization_ok in Ea as (Ht & _ & _ & Hh).
  destruct (meanwhile_keeps base s 1 db) as [G1 A1]. specialize (A1 Hat).
  set (db1 := meanwhile s 1 db) in *. cbv zeta in H.
  destruct (checkKey _ _ _ _) eqn:Ek; [by simplify_eq|].
  apply checkKey_passed in Ek as (k & Hk & Hv & Hw).
  destruct (meanwhile_keeps base s 2 db1) as [G2 A2]. specialize (A2 A1).
  set (db2 := meanwhile s 2 db1) in *.
  destruct (readPrior _) as [prior|] eqn:Ep; [|simplify_eq; split_and!; try done; by etransitivity].
  destruct (meanwhile_keeps base s 3 db2) as [G3 A3]. specialize (A3 A2).
  set (db3 := meanwhile s 3 db2) in *. rewrite <- Ht in Hk.
  match type of H with context [Accept ?f ?n ?d ?a ?e ?at_] =>
    destruct (accept_keeps base f n db1 d a e at_ k Hk Hv Hw) as [GA AA];
      [by etransitivity | done |];
    pose proof (Accept_recorded f n d a e at_) as Hrec;
    destruct (Accept f n d a e at_) as [db4 [tr|er]] end; cbn [fst] in GA, AA.
  { simplify_eq. split_and!; [done | by etransitivity | done |]. intros b' [= <-].
    split; [done|]. rewrite <- Hh. by eapply Hrec. }
  assert (Hfail : forall er', settle a b (Err er') (Err ErrNoTransition) = r -> forall b', r <> Ok b').
  { intros er' <- b'. by destruct er'. }
  destruct er; try (simplify_eq; split_and!; [done | by etransitivity | done |];
    intros b' Hb'; by destruct (Hfail _ eq_refl b')).
  destruct (meanwhile_keeps base s 4 db4) as [G4 A4]. simplify_eq.
  split_and!; [done | exact (transitivity G1 (transitivity GA G4)) | by apply A4 |].
  intros b'. cbn [settle]. destruct (Current (su_fault s 4) _ _) as [c|] eqn:Ec; [|done].
  destruct (String.eqb_spec (tr_BundleContentHash c) (b_ContentHash b)) as [<-|]; [|done].
  intros [= <-]. split; [done | by eapply Current_found].
Qed.

Definition serves (pub : bytes_t) (fb : FileBundles) (db : Tables) : Prop :=
  fb_PublicKey fb = pub /\
  forall t b, fb_cached fb !! t = Some b -> enforceable pub db t b.

Lemma serves_grows pub fb fb' db db' :
  grows db db' -> same_cache fb fb' -> serves pub fb db -> serves pub fb' db'.
Proof.
  intros HG (Hp & _ & Hc & _) [<- HS]. split; [done|]. intros t b. rewrite Hc. intros Hb.
  eapply enforceable_grows; [done | by apply HS].
Qed.

Lemma serves_remember pub fb db t b stamp :
  serves pub fb db -> enforceable pub db t b -> serves pub (remember fb t b stamp) db.
Proof.
  intros [Hp HS] Hb. split; [done|]. intros t' b'. cbn [remember fb_cached].
  destruct (decide (t = t')) as [<-|Hne]; [rewrite lookup_insert_eq; congruence|].
  rewrite lookup_insert_ne by done. apply HS.
Qed.

(** What a call leaves, and what it answers. *)
Definition call_ok (base : Tables) (pub : bytes_t) (db : Tables) (t : string)
    (x : FileBundles * Tables * result Bundle ActiveError) : Prop :=
  let '(fb', db', r) := x in
  grows db db' /\ attributed base db' /\ serves pub fb' db' /\
  forall b, r = Ok b -> enforceable pub db' t b.

Lemma kept_ok base pub fb fb' db db' t e :
  grows db db' -> attributed base db' -> serves pub fb db -> same_cache fb fb' ->
  call_ok base pub db t (let '(fb2, r) := keepOnFailedReload fb' t (fb_cached fb !! t) e in (fb2, db', r)).
Proof.
  intros HG HA HS HC. cbn. assert (HS' : serves pub fb' db') by by eapply serves_grows.
  split_and!; [done..|]. intros b. destruct (fb_cached fb !! t) as [b'|] eqn:E; [|done].
  intros [= <-]. apply HS'. destruct HC as (_ & _ & -> & _). done.
Qed.

Lemma reload_ok base pub s fb db t stamp :
  attributed base db -> serves pub fb db -> call_ok base pub db t (reload s fb db t stamp).
Proof.
  intros Hat HS. unfold Bundles.reload.
  destruct (unchanged fb t stamp) as [b|] eqn:Eu.
  { split_and!; [done..|]. intros b' [= <-]. apply HS. revert Eu. unfold unchanged.
    destruct (fb_cached fb !! t); [|done]. by destruct (String.eqb _ _). }
  destruct (ReadFile _ _) as [raw|].
  2: { split_and!; [done..|]. intros b. destruct (fb_cached fb !! t) as [b'|] eqn:E; [|done].
       intros [= <-]. by apply HS. }
  destruct (readBundle _ _ _ _ _) as [b|e] eqn:Eb; [|by apply kept_ok].
  apply readBundle_ok in Eb as (_ & Hsig & Hten & Hact).
  destruct (meanwhile_keeps base s 0 db) as [G0 A0]. specialize (A0 Hat).
  set (db0 := meanwhile s 0 db) in *. cbv zeta.
  assert (HS0 : serves pub fb db0) by by eapply serves_grows.
  assert (Hen : forall db', accepted_hash db' t (b_ContentHash b) -> enforceable pub db' t b).
  { intros db' Hacc. constructor; try done. by rewrite <- (proj1 HS). }
  destruct (in_force s fb db0 t b) eqn:Ef.
  - unfold in_force in Ef. apply andb_true_iff in Ef as [_ Ef].
    destruct (Current _ _ _) as [c|] eqn:Ec; [|done]. apply String.eqb_eq in Ef.
    apply Current_found in Ec. rewrite Ef in Ec.
    split_and!; [done | done | apply serves_remember; [done | by apply Hen] |].
    intros b' [= <-]. by apply Hen.
  - destruct (authorize s fb db0 t b) as [[fb1 db1] [b1|e]] eqn:Ea;
      apply (authorize_keeps base) in Ea as (HC & G1 & A1 & Hr); try done.
    + destruct (Hr b1 eq_refl) as [-> Hacc].
      split_and!; [by etransitivity | done | |].
      * apply serves_remember; [by eapply serves_grows | by apply Hen].
      * intros b' [= <-]. by apply Hen.
    + apply kept_ok; try done. by etransitivity.
Qed.

Lemma Active_ok base pub s fb db t :
  attributed base db -> serves pub fb db -> call_ok base pub db t (Active s fb db t).
Proof.
  intros Hat HS. unfold Bundles.Active. destruct (invalid_tenant t); [by split_and!|]. cbv zeta.
  destruct (unchanged fb t _) as [b|] eqn:Eu; [|by apply reload_ok].
  pose proof (reload_ok base pub s fb db t (stamp_of (su_stat s) t) Hat HS) as H.
  unfold Bundles.reload in H. by rewrite Eu in H.
Qed.

Lemma bundle_step_ok base pub w op :
  attributed base (snd w) /\ serves pub (fst w) (snd w) ->
  attributed base (snd (bundle_step w op)) /\ serves pub (fst (bundle_step w op)) (snd (bundle_step w op)).
Proof.
  destruct w as [fb db]. cbn [fst snd]. intros [Hat HS]. destruct op as [t s|t s stamp|op]; cbn.
  - pose proof (Active_ok base pub s fb db t Hat HS) as H.
    destruct (Active s fb db t) as [[fb' db'] r]. by destruct H as (_ & ? & ? & _).
  - pose proof (reload_ok base pub s fb db t stamp Hat HS) as H.
    destruct (reload s fb db t stamp) as [[fb' db'] r]. by destruct H as (_ & ? & ? & _).
  - split; [by apply ostep_attributed|]. eapply serves_grows; [apply ostep_grows | done..].
Qed.

Lemma served_was_authorized (pub : bytes_t) (activations_on : bool) (db0 : Tables)
    (ops : list bundle_op) (t : string) (s : Surroundings) (fb' : FileBundles) (db' : Tables)
    (b : Bundle) :
  let w := run_ops bundle_step (fresh pub activations_on, db0) ops in
  Active s (fst w) (snd w) t = (fb', db', Ok b) ->
  b_TenantID b = t /\ Enforcing b = true /\ VerifySignature b pub = None /\
  accepted_hash db' t (b_ContentHash b) /\ attributed db0 db'.
Proof.
  intros w H.
  assert (HI : attributed db0 (snd w) /\ serves pub (fst w) (snd w)).
  { unfold w. apply (run_ops_invariant bundle_step (fun w => attributed db0 (snd w) /\ serves pub (fst w) (snd w))).
    - intros w' op. apply bundle_step_ok.
    - split; [apply attributed_base|]. split; [done|]. intros t' b'. cbn. by rewrite lookup_empty. }
  destruct HI as [HA HS]. pose proof (Active_ok db0 pub s (fst w) (snd w) t HA HS) as HC.
  rewrite H in HC. destruct HC as (_ & Hat' & _ & Hb). by destruct (Hb b eq_refl).
Qed.

(** C11: Whatever the files held, whatever failed and whatever other replicas did in
    between, from any database, a bundle a replica returns for a tenant is ACTIVE, belongs
    to that tenant, hashes to its content hash under the publisher's signature, and its
    content hash is that of an accepted transition; and every transition of any tenant that
    was accepted since, by this replica or another, activation or rollback, was authorized
    by a document that names its bundle, content hash, action and actor and verifies under a
    key the tenant registered, inside that key's window. *)
Theorem enforced_policy_was_authorized (pub : bytes_t) (activations_on : bool) (db0 : Tables)
    (ops : list bundle_op) (t : string) (s : Surroundings) (fb' : FileBundles) (db' : Tables)
    (b : Bundle) :
  let w := run_ops bundle_step (fresh pub activations_on, db0) ops in
  Active s (fst w) (snd w) t = (fb', db', Ok b) ->
  b_TenantID b = t /\ Enforcing b = true /\ VerifySignature b pub = None /\
  (exists n r, activations db' !! (t, n) = Some r /\ a_bundle_content_hash r = b_ContentHash b) /\
  (forall t' n r, activations db' !! (t', n) = Some r ->
     activations db0 !! (t', n) = Some r \/ authorized_by db' t' n r).
Proof. apply served_was_authorized. Qed.
End Authorized.

(** * When a change takes effect *)

(** No transaction fails and nobody else commits. *)
Definition quiet (s : Surroundings) : Prop :=
  (forall n, su_fault s n = Fine) /\ (forall n, su_others s n = []).

Section Changes.
Context {C : Crypto} {HJ : Evidence.JSON}.
Context (rfc3339 : Time -> option string).
Context (format_rfc3339 : Time -> string).
Context (unmarshal_bundle : string -> result Bundle string).
Context (unmarshal_authorization : string -> result Authorization string).
Local Abbreviation Active := (Active rfc3339 format_rfc3339 unmarshal_bundle unmarshal_authorization).
Local Abbreviation reload := (reload rfc3339 format_rfc3339 unmarshal_bundle unmarshal_authorization).
Local Abbreviation authorize := (authorize rfc3339 format_rfc3339 unmarshal_authorization).

(** The candidate file, as the customer's publisher signed it. *)
Definition candidate (s : Surroundings) (fb : FileBundles) (t : string) (b : Bundle) : Prop :=
  exists raw, ReadFile (su_bundle s) (bundle_path t) = Some raw /\ unmarshal_bundle raw = Ok b /\
    VerifySignature b (fb_PublicKey fb) = None /\ b_TenantID b = t /\ Enforcing b = true.

(** The content hash the store says is in force. *)
Definition hash_in_force (db : Tables) (t hash : string) : Prop :=
  exists c, Current Fine db t = Ok c /\ tr_BundleContentHash c = hash.

(** The authorization beside it, its key and the store agree. *)
Definition authorizable (s : Surroundings) (fb : FileBundles) (db : Tables) (t : string) (b : Bundle)
    (a : Authorization) : Prop :=
  readAuthorization unmarshal_authorization s t b = Ok a /\
  (exists k, Key Fine db t (sig_KeyID (az_Signature a)) = Ok k /\ Usable k (su_now s) = "" /\
     Verify rfc3339 a (ak_PublicKey k) = "") /\
  (exists prior, readPrior (Current Fine db t) = Ok prior /\
     is_ok (snd (Accept Fine (su_dbnow s) db a
       (activationEvent format_rfc3339 a b prior (su_now s) (add64 (fb_sequence fb) 1)) (su_now s)))
     = true).

Lemma readBundle_iff s fb t raw b :
  readBundle unmarshal_bundle s fb t raw = Ok b <->
  unmarshal_bundle raw = Ok b /\ VerifySignature b (fb_PublicKey fb) = None /\ b_TenantID b = t /\
  Enforcing b = true.
Proof.
  split; [apply readBundle_ok|]. intros (Hu & Hv & Ht & He). unfold readBundle.
  by rewrite Hu, Hv, Ht, String.eqb_refl, He.
Qed.

Lemma in_force_iff s fb db t b :
  quiet s -> in_force s fb db t b = true <->
    fb_Activations fb = true /\ hash_in_force db t (b_ContentHash b).
Proof.
  intros [Hf _]. unfold in_force, hash_in_force. rewrite Hf, andb_true_iff. split.
  - intros [Ha H]. split; [done|]. destruct (Current _ _ _) as [c|]; [|done].
    exists c. split; [done | by apply String.eqb_eq].
  - intros [Ha (c & -> & <-)]. by rewrite String.eqb_refl.
Qed.

Lemma checkKey_iff a (r : result ActivationKey StoreError) at_ :
  checkKey rfc3339 a r at_ = None <->
  exists k, r = Ok k /\ Usable k at_ = "" /\ Verify rfc3339 a (ak_PublicKey k) = "".
Proof.
  unfold checkKey, str_nonempty. split.
  - destruct r as [k|[]]; try done. destruct (String.eqb_spec (Usable k at_) ""); [|done].
    destruct (String.eqb_spec (Verify rfc3339 a (ak_PublicKey k)) ""); [|done]. eauto.
  - intros (k & -> & -> & ->). done.
Qed.

Lemma Current_again f now db a e at_ t c :
  snd (Accept f now db a e at_) = Err ErrReplayed -> az_TenantID a = t ->
  current (fst (Accept f now db a e at_)) = current db /\
  (Current Fine (fst (Accept f now db a e at_)) t = Ok c ->
   current db !! t <> None /\ Current Fine db t = Ok c).
Proof.
  intros Hr Ht. assert (E : fst (Accept f now db a e at_) = db).
  { revert Hr. unfold Accept, withTenant. destruct (String.eqb _ ""); [done|].
    unfold transaction. destruct (accept_body now a e at_ db) as [[? ?]|], f; done. }
  rewrite E. split; [done|]. intros H. split; [|done]. revert H. unfold Current, withTenant.
  destruct (String.eqb t ""); [done|]. cbn. by destruct (current db !! t).
Qed.

(** Without interference the branch for replays admits nothing that was not in force
    already. *)
Lemma authorize_quiet s fb db t b :
  quiet s -> ~ hash_in_force db t (b_ContentHash b) ->
  is_ok (snd (authorize s fb db t b)) = true <->
  fb_Activations fb = true /\ exists a, authorizable s fb db t b a.
Proof.
  intros [Hf Ho] Hno. unfold Bundles.authorize, authorizable.
  assert (Hm : forall n db, meanwhile rfc3339 s n db = db)
    by (intros n db1; unfold meanwhile; by rewrite Ho).
  destruct (fb_Activations fb); cbn [negb]; [|by split; [|intros [? _]]].
  destruct (readAuthorization _ s t b) as [a|] eqn:Ea.
  2: { split; [done|]. by intros (_ & a & ? & _). }
  apply readAuthorization_ok in Ea as Ha. destruct Ha as (Ht & _ & _ & Hh).
  cbv zeta. rewrite !Hm, !Hf.
  destruct (checkKey _ _ _ _) eqn:Ek.
  { split; [done|]. intros (_ & a' & [= <-] & Hk & _). apply checkKey_iff in Hk. congruence. }
  apply checkKey_iff in Ek.
  destruct (readPrior (Current Fine db t)) as [prior|] eqn:Ep.
  2: { split; [done|]. by intros (_ & a' & [= <-] & _ & prior & ? & _). }
  cbn [next_sequence fb_sequence].
  set (e := activationEvent _ _ _ _ _ _).
  destruct (Accept Fine (su_dbnow s) db a e (su_now s)) as [db' [tr|er]] eqn:EA.
  { split; [|done]. intros _. split; [done|]. exists a. split_and!; [done..|].
    exists prior. split; [done|]. fold e. by rewrite EA. }
  split.
  - destruct er; try done. rewrite Hm. cbn [snd settle].
    destruct (Current Fine db' t) as [c|] eqn:Ec; [|done].
    destruct (String.eqb_spec (tr_BundleContentHash c) (b_ContentHash b)) as [Hc|]; [|done].
    intros _. destruct Hno. pose proof (Current_again Fine (su_dbnow s) db a e (su_now s) t c) as H.
    rewrite EA in H. destruct (H eq_refl Ht) as [_ H2]. destruct (H2 Ec) as [_ Hc2]. by exists c.
  - intros (_ & a' & [= <-] & _ & prior' & [= <-] & H). fold e in H. by rewrite EA in H.
Qed.

Lemma authorize_bundle s fb db t b b' :
  snd (authorize s fb db t b) = Ok b' -> b' = b.
Proof.
  unfold Bundles.authorize. repeat case_match; cbn; intros; simplify_eq; try done;
    unfold settle in *; repeat case_match; by simplify_eq.
Qed.

Lemma authorize_cache s fb db t b :
  fb_cached (fst (fst (authorize s fb db t b))) = fb_cached fb /\
  fb_stamps (fst (fst (authorize s fb db t b))) = fb_stamps fb.
Proof. unfold Bundles.authorize. repeat case_match; done. Qed.

Lemma stamp_nonempty d t : stamp_of d t <> "".
Proof. unfold stamp_of. by destruct (bundleStamp d (bundle_path t)). Qed.

Lemma unchanged_other fb t stamp :
  stamp <> "" -> fb_stamps fb !! t <> Some stamp -> unchanged fb t stamp = None.
Proof.
  intros Hs Hne. unfold unchanged. destruct (fb_cached fb !! t); [|done].
  destruct (String.eqb_spec stamp (default "" (fb_stamps fb !! t))) as [E|]; [|done].
  exfalso. destruct (fb_stamps fb !! t); cbn in E; congruence.
Qed.

(** The answer when nothing new takes effect. *)
Definition keeps (fb : FileBundles) (t : string)
    (x : FileBundles * Tables * result Bundle ActiveError) : Prop :=
  let '(fb', _, r) := x in
  fb_cached fb' = fb_cached fb /\ fb_stamps fb' = fb_stamps fb /\
  match fb_cached fb !! t with Some b => r = Ok b | None => is_ok r = false end.

Definition takes (fb : FileBundles) (t stamp : string) (b : Bundle)
    (x : FileBundles * Tables * result Bundle ActiveError) : Prop :=
  let '(fb', _, r) := x in
  r = Ok b /\ fb_cached fb' = <[t := b]> (fb_cached fb) /\
  fb_stamps fb' = <[t := stamp]> (fb_stamps fb).

Definition change_authorized (s : Surroundings) (fb : FileBundles) (db : Tables) (t : string)
    (b : Bundle) : Prop :=
  candidate s fb t b /\ fb_Activations fb = true /\
  (hash_in_force db t (b_ContentHash b) \/ exists a, authorizable s fb db t b a).

(** A changed directory is decided one way or the other. *)
Lemma reload_decides s fb db t stamp :
  quiet s -> unchanged fb t stamp = None ->
  (exists b, takes fb t stamp b (reload s fb db t stamp) /\ change_authorized s fb db t b) \/
  (keeps fb t (reload s fb db t stamp) /\ forall b, ~ change_authorized s fb db t b).
Proof.
  intros Hq Hu. unfold Bundles.reload. rewrite Hu. cbv zeta.
  destruct (ReadFile _ _) as [raw|] eqn:Er.
  2: { right. split; [|intros b ((raw & Hr & _) & _); congruence]. cbn.
       destruct (fb_cached fb !! t) eqn:Ec; by rewrite ?Ec. }
  assert (Hcand : forall b, candidate s fb t b <-> readBundle unmarshal_bundle s fb t raw = Ok b).
  { intros b. rewrite readBundle_iff. unfold candidate. rewrite Er. split.
    - by intros (raw' & [= <-] & H).
    - intros H. by exists raw. }
  destruct (readBundle _ _ _ _ _) as [b|e] eqn:Eb.
  2: { right. split; [|intros b [Hc _]; by apply Hcand in Hc]. cbn.
       destruct (fb_cached fb !! t) eqn:Ec; by rewrite ?Ec. }
  assert (Hm : meanwhile rfc3339 s 0 db = db) by (unfold meanwhile; by rewrite (proj2 Hq)).
  rewrite Hm. pose proof (in_force_iff s fb db t b Hq) as Hin.
  destruct (in_force s fb db t b) eqn:Ef.
  - left. exists b. split; [done|]. destruct (proj1 Hin eq_refl) as [Ha Hh].
    split_and!; [by apply Hcand | done | by left].
  - assert (Hauth : is_ok (snd (authorize s fb db t b)) = true <->
        fb_Activations fb = true /\
        (hash_in_force db t (b_ContentHash b) \/ exists a, authorizable s fb db t b a)).
    { destruct (fb_Activations fb) eqn:Ea.
      - rewrite authorize_quiet; [|done|]; [rewrite Ea; split; [intuition|] |].
        + intros [_ [Hh|Hh]]; [|done]. assert (false = true) by by apply Hin. done.
        + intros Hh. assert (false = true) by by apply Hin. done.
      - split; [|by intros []]. unfold Bundles.authorize. by rewrite Ea. }
    destruct (authorize_cache s fb db t b) as [Hc Hs].
    pose proof (authorize_bundle s fb db t b) as Hb.
    destruct (authorize s fb db t b) as [[fb1 db1] [b1|e]]; cbn [fst snd is_ok] in *.
    + left. exists b. destruct (proj1 Hauth eq_refl) as [Ha Hh]. rewrite (Hb b1 eq_refl).
      cbn. rewrite Hc, Hs. split; [done|]. split_and!; [by apply Hcand | done..].
    + right. split.
      * cbn. rewrite Hc, Hs. destruct (fb_cached fb !! t) eqn:Ec; by rewrite ?Ec.
      * intros b' (Hb' & Ha & Hh). apply Hcand in Hb'. injection Hb' as <-.
        assert (false = true) by (by apply Hauth). done.
Qed.

(** Without faults or interference, a changed directory takes effect exactly when it
    holds a bundle that verifies, belongs to the tenant and is ACTIVE, an activation
    store is configured, and that bundle is in force already or the authorization
    beside it names it, verifies under a usable registered key and is accepted as a
    transition from the policy in force.  Otherwise the replica keeps, and answers
    with, what it enforced before. *)
Theorem change_takes_effect_iff (s : Surroundings) (fb : FileBundles) (db : Tables) (t : string)
    (b : Bundle) :
  quiet s -> invalid_tenant t = false ->
  let stamp := stamp_of (su_stat s) t in
  fb_stamps fb !! t <> Some stamp ->
  (takes fb t stamp b (Active s fb db t) <-> change_authorized s fb db t b) /\
  ((forall b', ~ change_authorized s fb db t b') -> keeps fb t (Active s fb db t)).
Proof.
  intros Hq Ht stamp Hne. unfold Bundles.Active. rewrite Ht. cbv zeta.
  assert (Hu : unchanged fb t stamp = None) by (apply unchanged_other; [apply stamp_nonempty | done]).
  fold stamp. rewrite Hu. destruct (reload_decides s fb db t stamp Hq Hu) as [(b1 & H1 & H2)|[H1 H2]].
  - split; [|intros Hnone; by destruct (Hnone b1)]. split.
    + intros Hb. destruct (reload s fb db t stamp) as [[fb' db'] r].
      destruct H1 as [E _], Hb as [E' _]. rewrite E in E'. by injection E' as ->.
    + intros [(raw & Hr & Hun & _) _]. pose proof H2 as [(raw' & Hr' & Hun' & _) _].
      replace b with b1 by congruence. done.
  - split; [|done]. split; [|by intros []%H2]. intros Hb. exfalso.
    destruct (reload s fb db t stamp) as [[fb' db'] r]. destruct H1 as (_ & Hs & _), Hb as (_ & _ & Hs').
    apply Hne. by rewrite <- Hs, Hs', lookup_insert_eq.
Qed.

(** ** A refused candidate *)

Lemma reload_refused s fb db t stamp raw e :
  unchanged fb t stamp = None -> ReadFile (su_bundle s) (bundle_path t) = Some raw ->
  readBundle unmarshal_bundle s fb t raw = Err e ->
  reload s fb db t stamp =
    (report fb t e, db, match fb_cached fb !! t with Some b => Ok b | None => Err e end).
Proof. intros Hu Hr Hb. unfold Bundles.reload. rewrite Hu, Hr, Hb. cbn. by destruct (_ !! _). Qed.

(** One call after another, each finding the same candidate; the answers are not kept. *)
Definition calls (t : string) (l : list Surroundings) (w : FileBundles * Tables)
    : FileBundles * Tables :=
  run_ops (bundle_step rfc3339 format_rfc3339 unmarshal_bundle unmarshal_authorization) w
    (map (BActive t) l).

(** A refused candidate leaves no trace in the replica: its stamp is not remembered,
    so while the file stays, every single call takes the mutex, reads and verifies it
    again and reports it again, instead of once per change of the file. *)
Theorem refused_candidate_is_read_on_every_call (fb : FileBundles) (db : Tables) (t raw : string)
    (e : ActiveError) (l : list Surroundings) :
  invalid_tenant t = false ->
  (forall s, s ∈ l -> ReadFile (su_bundle s) (bundle_path t) = Some raw /\
     fb_stamps fb !! t <> Some (stamp_of (su_stat s) t) /\
     readBundle unmarshal_bundle s fb t raw = Err e) ->
  let '(fb', db') := calls t l (fb, db) in
  fb_reports fb' = fb_reports fb ++ repeat (t, e) (length l) /\
  fb_stamps fb' = fb_stamps fb /\ fb_cached fb' = fb_cached fb /\ db' = db.
Proof.
  intros Ht. revert fb. induction l as [|s l IH]; intros fb Hl; cbn; [by rewrite app_nil_r|].
  destruct (Hl s) as (Hr & Hst & Hb); [by left|].
  assert (E : Active s fb db t =
    (report fb t e, db, match fb_cached fb !! t with Some b => Ok b | None => Err e end)).
  { unfold Bundles.Active. rewrite Ht. cbv zeta.
    rewrite unchanged_other by (apply stamp_nonempty || done).
    apply (reload_refused s fb db t _ raw e); [|done..].
    apply unchanged_other; [apply stamp_nonempty | done]. }
  rewrite E. cbn [fst]. specialize (IH (report fb t e)).
  unfold calls, run_ops in IH.
  destruct (foldl _ _ _) as [fb' db'] eqn:Ef in IH; rewrite Ef.
  destruct IH as (H1 & H2 & H3 & H4).
  { intros s' Hs'. apply (Hl s'). by right. }
  split_and!; [|done..]. rewrite H1. cbn. by rewrite <- app_assoc.
Qed.

(** ** Two replicas, one authorization *)

Lemma Accept_taken f now db a e at_ r :
  activations db !! (az_TenantID a, az_Nonce a) = Some r ->
  fst (Accept f now db a e at_) = db /\ is_ok (snd (Accept f now db a e at_)) = false /\
  (snd (Accept f now db a e at_) = Err ErrReplayed ->
   checkPredecessor a (current db !! az_TenantID a) = None).
Proof.
  intros Hr. destruct (replay_refused f now db a e at_ r Hr) as [H1 H2]. split_and!; [done..|].
  unfold Accept, withTenant. destruct (String.eqb _ ""); [done|].
  assert (Hp : checkPredecessor a (current db !! az_TenantID a) <> Some ErrReplayed)
    by (unfold checkPredecessor; repeat case_match; done).
  unfold transaction, accept_body.
  destruct (checkPredecessor a _) as [e1|]; [|done]. destruct f; cbn; congruence.
Qed.

Lemma current_hash db t c :
  chain_ok db t -> Current Fine db t = Ok c ->
  exists p, current db !! t = Some p /\ c_bundle_content_hash p = tr_BundleContentHash c.
Proof.
  intros HC. unfold Current, withTenant. destruct (String.eqb t ""); [done|]. cbn.
  destruct (current db !! t) as [p|] eqn:Ep; [|done].
  destruct (co_current _ _ HC p Ep) as (_ & r & Hr & _ & _ & Hh).
  unfold transitionInTx. rewrite Hr. intros [= <-]. exists p. by rewrite Hh.
Qed.

(** Of two replicas that present the same authorization, the second is refused: once
    the first has committed it, the predecessor check fails before the nonce is looked
    at, so the branch that would recognise the policy as already in force is reached
    only by an authorization whose predecessor has the very content it activates. *)
Theorem second_replica_is_refused (s : Surroundings) (fb : FileBundles) (db : Tables) (t : string)
    (b : Bundle) (a : Authorization) (r : ActivationRow) :
  readAuthorization unmarshal_authorization s t b = Ok a ->
  let db3 := meanwhile rfc3339 s 3 (meanwhile rfc3339 s 2 (meanwhile rfc3339 s 1 db)) in
  chain_ok db3 t -> activations db3 !! (t, az_Nonce a) = Some r ->
  su_others s 4 = [] -> su_fault s 4 = Fine ->
  az_PriorBundleContentHash a <> b_ContentHash b ->
  is_ok (snd (authorize s fb db t b)) = false.
Proof.
  intros Ha db3 HC Hr Ho Hf Hne. unfold Bundles.authorize.
  destruct (fb_Activations fb); cbn [negb]; [|done]. rewrite Ha. cbv zeta.
  apply readAuthorization_ok in Ha as (Ht & _). rewrite <- Ht in Hr.
  destruct (checkKey _ _ _ _); [done|]. destruct (readPrior _) as [prior|]; [|done]. fold db3.
  match goal with |- context [Accept ?f ?n ?d ?a ?e ?at_] =>
    destruct (Accept_taken f n d a e at_ r Hr) as (H1 & H2 & H3);
    destruct (Accept f n d a e at_) as [db4 [tr|er]] end; [done|]. cbn [fst snd] in *. subst db4.
  destruct er; try done. specialize (H3 eq_refl). cbn [snd settle].
  unfold meanwhile. rewrite Ho, Hf. cbn.
  destruct (Current Fine db3 t) as [c|] eqn:Ec; [|done].
  apply (current_hash _ _ _ HC) in Ec as (p & Hp & Hh).
  rewrite Ht, Hp in H3. apply checkPredecessor_some in H3 as (_ & Hpr & _).
  destruct (String.eqb_spec (tr_BundleContentHash c) (b_ContentHash b)); [congruence | done].
Qed.
End Changes.

(** ** One file, two tenants *)

(** The authorization of a tenant is read from the file that serves as the bundle of
    the tenant named with [.activation] added, which the path check admits. *)
Theorem activation_file_is_another_tenants_bundle (t : string) :
  activation_path t = bundle_path (t +:+ ".activation") /\
  invalid_tenant "acme.activation" = false.
Proof.
  split; [|reflexivity]. unfold activation_path, bundle_path. by rewrite <- str_app_assoc.
Qed.

(** * Witnesses *)

#[local] Instance demo_crypto : Crypto := toy_crypto.
#[local] Instance demo_json : Evidence.JSON := Evidence.toy_json.

Definition demo_publisher : bytes_t := repeat 7%nat 32.

Definition with_value (value : string) : Authorization :=
  mkAuthorization "v0.1" "tenant-1" "bundle-1" (b_ContentHash promoted_bundle) "" ""
    ActionActivate "risk-officer" "" 3 "n-1" (mkSignature "Ed25519" "k-1" value).

Definition demo_authorization : Authorization :=
  with_value (EncodeToString (sign (Crypto := toy_crypto) 1%nat (default [] (Canonical toy_rfc3339 (with_value ""))))).

Definition demo_unmarshal_bundle (raw : string) : result Bundle string :=
  if String.eqb raw "bundle" then Ok promoted_bundle else Err "syntax".
Definition demo_unmarshal_authorization (raw : string) : result Authorization string :=
  if String.eqb raw "authorization" then Ok demo_authorization else Err "syntax".

Definition demo_directory : Directory :=
  {[ "tenant-1.json" := mkFile 100 1 (Some "bundle");
     "tenant-1.activation.json" := mkFile 50 1 (Some "authorization") ]}.
Definition demo_surroundings (others : nat -> list sop) : Surroundings :=
  mkSurroundings demo_directory demo_directory demo_directory 4 4 (fun _ => Fine) others.
Definition nobody (_ : nat) : list sop := [].

Local Abbreviation demo_Active :=
  (Active toy_rfc3339 fmt_d demo_unmarshal_bundle demo_unmarshal_authorization).

Definition demo_replica : FileBundles := fresh demo_publisher true.
Definition demo_activated : FileBundles * Tables * result Bundle ActiveError :=
  demo_Active (demo_surroundings nobody) demo_replica one_key "tenant-1".

Example enforced_policy_was_authorized_witness :
  snd demo_activated = Ok promoted_bundle /\
  exists n r, activations (snd (fst demo_activated)) !! ("tenant-1", n) = Some r /\
    a_bundle_content_hash r = b_ContentHash promoted_bundle /\
    authorized_by toy_rfc3339 (snd (fst demo_activated)) "tenant-1" n r.
Proof.
  assert (Hr : snd demo_activated = Ok promoted_bundle) by (vm_compute; reflexivity).
  split; [exact Hr|]. destruct demo_activated as [[fb db] r] eqn:E. cbn [fst snd] in *. subst r.
  pose proof (enforced_policy_was_authorized toy_rfc3339 fmt_d demo_unmarshal_bundle
    demo_unmarshal_authorization demo_publisher true one_key [] "tenant-1" (demo_surroundings nobody)
    fb db promoted_bundle) as T.
  unfold run_ops in T. cbn [foldl fst snd] in T. unfold demo_activated, demo_replica in E.
  destruct (T E) as (_ & _ & _ & (n & r & Hn & Hh) & Hall). exists n, r.
  split_and!; [exact Hn | exact Hh |]. destruct (Hall _ _ _ Hn) as [H0|H]; [|exact H].
  replace (activations one_key) with (∅ : gmap (string * string) ActivationRow) in H0
    by (vm_compute; reflexivity). by rewrite lookup_empty in H0.
Defined.

(** Another replica commits the same authorization after this one looked, and before
    its own Accept. *)
Definition winner : sop :=
  SAccept Fine 4 demo_authorization
    (activationEvent fmt_d demo_authorization promoted_bundle None 4 1) 4.
Definition racing (n : nat) : list sop := if (n =? 3)%nat then [winner] else [].
Definition raced : FileBundles * Tables * result Bundle ActiveError :=
  demo_Active (demo_surroundings racing) demo_replica one_key "tenant-1".

Example raced_is_refused :
  snd raced = Err (ErrStale "ACTIVATION_PREDECESSOR_MISSING") /\
  (exists c, Current Fine (snd (fst raced)) "tenant-1" = Ok c /\
     tr_BundleContentHash c = b_ContentHash promoted_bundle) /\
  snd (demo_Active (demo_surroundings nobody) (fst (fst raced)) (snd (fst raced)) "tenant-1") =
    Ok promoted_bundle.
Proof. split_and!; [vm_compute; reflexivity | eexists; split; vm_compute; reflexivity | vm_compute; reflexivity]. Qed.

Definition stored_by_winner : Tables := ostep toy_rfc3339 one_key winner.

Example second_replica_is_refused_witness :
  is_ok (snd (authorize toy_rfc3339 fmt_d demo_unmarshal_authorization (demo_surroundings racing)
    demo_replica one_key "tenant-1" promoted_bundle)) = false.
Proof.
  assert (Hdb : meanwhile toy_rfc3339 (demo_surroundings racing) 3 (meanwhile toy_rfc3339
    (demo_surroundings racing) 2 (meanwhile toy_rfc3339 (demo_surroundings racing) 1 one_key)) =
    stored_by_winner) by reflexivity.
  assert (Hr : exists r, activations stored_by_winner !! ("tenant-1", az_Nonce demo_authorization) = Some r)
    by (eexists; vm_compute; reflexivity).
  destruct Hr as [r Hr].
  apply (second_replica_is_refused toy_rfc3339 fmt_d demo_unmarshal_authorization
    (demo_surroundings racing) demo_replica one_key "tenant-1" promoted_bundle demo_authorization r).
  - vm_compute. reflexivity.
  - rewrite Hdb.
    assert (Hrun : stored_by_winner = run_ops sstep empty_tables
      [SRegisterAuthorized Fine 1 (toy_key "k-1" 1) "n-0" BootstrapAction "op" "" 1
         (toy_event "tenant-1_n-0" "policy.activation_key.registered.v1") 1; winner])
      by (vm_compute; reflexivity).
    rewrite Hrun. apply (run_ops_invariant sstep (fun db => chain_ok db "tenant-1")).
    + intros db op. apply sstep_chain.
    + apply empty_chain.
  - rewrite Hdb. exact Hr.
  - reflexivity.
  - reflexivity.
  - vm_compute. discriminate.
Defined.

Lemma demo_quiet : quiet (demo_surroundings nobody).
Proof. split; reflexivity. Qed.

Example change_takes_effect_iff_witness :
  takes demo_replica "tenant-1" (stamp_of (su_stat (demo_surroundings nobody)) "tenant-1")
    promoted_bundle demo_activated /\
  change_authorized toy_rfc3339 fmt_d demo_unmarshal_bundle demo_unmarshal_authorization
    (demo_surroundings nobody) demo_replica one_key "tenant-1" promoted_bundle.
Proof.
  assert (H : takes demo_replica "tenant-1" (stamp_of (su_stat (demo_surroundings nobody)) "tenant-1")
    promoted_bundle demo_activated) by (vm_compute; split_and!; reflexivity).
  split; [exact H|]. unfold demo_activated in H.
  assert (Hst : fb_stamps demo_replica !! "tenant-1" <>
    Some (stamp_of (su_stat (demo_surroundings nobody)) "tenant-1")) by (vm_compute; discriminate).
  pose proof (change_takes_effect_iff toy_rfc3339 fmt_d demo_unmarshal_bundle
    demo_unmarshal_authorization (demo_surroundings nobody) demo_replica one_key "tenant-1"
    promoted_bundle demo_quiet eq_refl Hst) as [T _].
  exact (proj1 T H).
Defined.

Definition mistyped : Surroundings :=
  let d := <["tenant-1.json" := mkFile 101 2 (Some "bundel")]> demo_directory in
  mkSurroundings d d d 5 5 (fun _ => Fine) nobody.

Example refused_candidate_is_read_on_every_call_witness :
  let fb := fst (calls toy_rfc3339 fmt_d demo_unmarshal_bundle demo_unmarshal_authorization
    "tenant-1" (repeat mistyped 3) (fst demo_activated)) in
  fb_reports fb = repeat ("tenant-1", ErrBundleUnreadable "syntax") 3.
Proof.
  pose proof (refused_candidate_is_read_on_every_call toy_rfc3339 fmt_d demo_unmarshal_bundle
    demo_unmarshal_authorization (fst (fst demo_activated)) (snd (fst demo_activated)) "tenant-1"
    "bundel" (ErrBundleUnreadable "syntax") (repeat mistyped 3) eq_refl) as H.
  assert (Hl : forall s, s ∈ repeat mistyped 3 -> ReadFile (su_bundle s) (bundle_path "tenant-1") =
      Some "bundel" /\
    fb_stamps (fst (fst demo_activated)) !! "tenant-1" <> Some (stamp_of (su_stat s) "tenant-1") /\
    readBundle demo_unmarshal_bundle s (fst (fst demo_activated)) "tenant-1" "bundel" =
      Err (ErrBundleUnreadable "syntax")).
  { intros s Hs. assert (s = mistyped) as ->.
    { apply list_elem_of_In, repeat_spec in Hs. exact Hs. }
    split_and!; [reflexivity | vm_compute; discriminate | reflexivity]. }
  specialize (H Hl). destruct (calls _ _ _ _ _ _ (_, _)) as [fb' db'] eqn:E in H.
  destruct H as [H _]. cbv zeta. rewrite <- surjective_pairing in E. rewrite E. cbn [fst].
  rewrite H. vm_compute. reflexivity.
Defined.
