(* ===== verification/ControlHandlers.v ===== *)
(** Authorizing, lifting and listing fleet controls: internal/gateway/controls.go and
    controls_lifecycle.go.

    A control binds only through [IssueControlHandler]: it reads the recommendation back
    from the incident's evidence, passes it through [Fleet.Authorize] and saves it in
    [Control.Store].  [Plane] is the state the handlers change. *)

From S2P Require Import Prelude Strings Money Intent Control Identity Http.
From S2P Require Evidence Fleet Incident.

Record controlRequest := mkControlRequest {
  cq_ControlID : string;
  cq_IncidentID : string;
  cq_Action : string;
  cq_AgentID : string;
  cq_AgentIDs : list string;
  cq_AccountID : string;
  cq_Scope : string;
  cq_AuthorizedBy : string;
  cq_PolicyBundleID : string;
  cq_Reason : string;
  cq_ExpiresAt : Time;
  cq_MaxOrders : Z;
  cq_WindowSeconds : Z
}.

Definition scope_of (c : controlRequest) : string := ToLower (TrimSpace (cq_Scope c)).

Definition scope_problems (c : controlRequest) : list string :=
  if String.eqb (scope_of c) "tenant" then
    problem (str_nonempty (cq_AgentID c) || str_nonempty (cq_AccountID c) ||
             (0 <? length (cq_AgentIDs c))%nat) "scope tenant names no agent or account"
  else if String.eqb (scope_of c) "agent" then require (cq_AgentID c) "agent_id is required"
  else if String.eqb (scope_of c) "agents" then
    problem (length (cq_AgentIDs c) =? 0)%nat "scope agents requires agent_ids" ++
    problem (existsb blank (cq_AgentIDs c)) "agent_ids contains an empty id"
  else if String.eqb (scope_of c) "account" then require (cq_AccountID c) "account_id is required"
  else ["scope must be tenant, agent, agents or account"].

Definition named_scopes (c : controlRequest) : nat :=
  (Control.Store.b2n (str_nonempty (cq_AgentID c)) + Control.Store.b2n (str_nonempty (cq_AccountID c)) +
   Control.Store.b2n (0 <? length (cq_AgentIDs c))%nat)%nat.

Definition action_problems (c : controlRequest) : list string :=
  match ParseAction (cq_Action c) with
  | None => ["action is not one of section 16"]
  | Some a =>
      if String.eqb a ControlThrottle then
        problem ((cq_MaxOrders c <=? 0) || (cq_WindowSeconds c <=? 0)) "a THROTTLE needs a rate"
      else problem (negb (cq_MaxOrders c =? 0) || negb (cq_WindowSeconds c =? 0))
             "max_orders and window_seconds belong to a THROTTLE"
  end.

Definition control_problems (c : controlRequest) : list string :=
  require (cq_ControlID c) "control_id is required" ++
  require (cq_IncidentID c) "incident_id is required" ++
  require (cq_AuthorizedBy c) "authorized_by is required" ++
  require (cq_PolicyBundleID c) "policy_bundle_id is required" ++
  require (cq_Reason c) "reason is required" ++
  problem (IsZero (cq_ExpiresAt c)) "expires_at is required" ++
  scope_problems c ++
  problem (1 <? named_scopes c)%nat "a control names one kind of scope" ++
  action_problems c.

(** * The recommendation *)

Inductive RecommendationError := EvidenceUnavailable | NoIncident | NothingRecommended.

(** One event of the incident: the recommendation so far, and whether one was found. *)
Definition read_recommendation (x : Fleet.Recommendation * bool) (e : Evidence.Event)
    : Fleet.Recommendation * bool :=
  let '(rec, found) := x in
  if String.eqb (Evidence.ev_EventName e) Incident.IncidentCreated then
    let cohort := Incident.payload_string (Evidence.ev_Payload e) "cohort" in
    (Fleet.mkRecommendation (Fleet.rm_RecommendationID rec) (Fleet.rm_TenantID rec) cohort cohort
       (Fleet.rm_WouldHave rec) (Fleet.rm_Reason rec) (Fleet.rm_Window rec)
       (Fleet.rm_GeneratedAt rec), found)
  else if String.eqb (Evidence.ev_EventName e) Incident.ControlRecommended then
    (Fleet.mkRecommendation (Fleet.rm_RecommendationID rec) (Fleet.rm_TenantID rec)
       (Fleet.rm_CohortID rec) (Fleet.rm_CohortPredicate rec) (Fleet.rm_WouldHave rec)
       (Incident.payload_string (Evidence.ev_Payload e) "recommendation") (Fleet.rm_Window rec)
       (Evidence.ev_OccurredAt e), true)
  else (rec, found).

Definition zero_window : Fleet.Window := Fleet.mkWindow 0 0.

Definition recommendationFor (events : result (list Evidence.Event) Evidence.EvidenceError)
    (incidentID : string) : result Fleet.Recommendation RecommendationError :=
  match events with
  | Err _ => Err EvidenceUnavailable
  | Ok [] => Err NoIncident
  | Ok l =>
      let '(rec, found) := foldl read_recommendation
        (Fleet.mkRecommendation incidentID "" "" "" "" "" zero_window 0, false) l in
      if found then Ok rec else Err NothingRecommended
  end.

(** * The handlers *)

Record Plane := mkPlane {
  pl_controls : Control.Store.Tables;
  pl_evidence : Evidence.Tables;
  pl_sequence : Z
}.

Record Moment := mkMoment {
  mo_clock : nat -> Time;
  mo_dbnow : Time;
  mo_read : TxFault;
  mo_up : bool;
  mo_forget : bool;
  mo_append : TxFault;
  mo_store : bool;
  mo_evidence : bool
}.

Record liftRequest := mkLiftRequest { lq_RevokedBy : string; lq_Reason : string }.

(** What the request and the recommendation make of a control. *)
Definition authorized_control (q : controlRequest) (tenant : string) (action : ControlAction)
    (rec : Fleet.Recommendation) (a : Fleet.Authorization) (at_ : Time) : Control :=
  mkControl (TrimSpace (cq_ControlID q)) tenant (TrimSpace (cq_IncidentID q)) action
    (Fleet.rm_CohortID rec) (TrimSpace (cq_AgentID q)) (map TrimSpace (cq_AgentIDs q))
    (TrimSpace (cq_AccountID q)) (cq_MaxOrders q) (wrap64 (cq_WindowSeconds q * Second))
    (Fleet.au_AuthorizedBy a) (Fleet.au_PolicyBundleID a) (Fleet.au_Reason a) at_
    (cq_ExpiresAt q) None "".

(** The recommendation that is authorized: the action and the tenant are the request's. *)
Definition with_action (rec : Fleet.Recommendation) (tenant : string) (action : ControlAction)
    : Fleet.Recommendation :=
  Fleet.mkRecommendation (Fleet.rm_RecommendationID rec) tenant (Fleet.rm_CohortID rec)
    (Fleet.rm_CohortPredicate rec) action (Fleet.rm_Reason rec) (Fleet.rm_Window rec)
    (Fleet.rm_GeneratedAt rec).

Definition Recommendation_String (r : Fleet.Recommendation) : string :=
  "would have " +:+ Fleet.rm_WouldHave r +:+ " cohort " +:+ Fleet.rm_CohortPredicate r +:+ ": " +:+
  Fleet.rm_Reason r.

Section Handlers.
Context {HJ : Evidence.JSON}.
Context {Pool : Type} (chain : Pool -> list Certificate -> Certificate -> Time -> option X509Error).
Context (decode_control : string -> result controlRequest string).
(** json.Unmarshal, which ignores unknown fields *)
Context (unmarshal_lift : string -> result liftRequest string).
Context (rfc3339nano : Time -> string).
Context (sv : Server (Pool := Pool)).

Definition best_effort (m : Moment) (st : Plane) (e : Z -> Evidence.Event) : Plane :=
  if negb (mo_evidence m) then st else
  let seq := add64 (pl_sequence st) 1 in
  mkPlane (pl_controls st)
    (fst (Evidence.Append (mo_append m) (mo_dbnow m) (pl_evidence st) (e seq))) seq.

Definition control_event (c : Control) (at_ : Time) (seq : Z) : Evidence.Event :=
  Evidence.mkEvent Evidence.SchemaVersion (c_ControlID c +:+ "_applied_" +:+ fmt_d at_)
    Incident.ControlApplied (c_TenantID c) (c_IncidentID c) (c_IncidentID c) "" at_ at_
    "assurance-gateway" seq ""
    (Some [("control", Evidence.VString (c_Action c)); ("control_id", Evidence.VString (c_ControlID c));
           ("actor", Evidence.VString (c_AuthorizedBy c));
           ("policy_bundle_id", Evidence.VString (c_PolicyBundleID c));
           ("reason", Evidence.VString (c_Reason c)); ("agent_id", Evidence.VString (c_AgentID c));
           ("account_id", Evidence.VString (c_AccountID c));
           ("expires_at", Evidence.VString (rfc3339nano (c_ExpiresAt c)));
           ("enforced", Evidence.VBool true)]).

(** The decoded request of a caller that may authorize. *)
Definition control_request (m : Moment) (r : Request) : result (string * controlRequest) Response :=
  match callerTenant chain sv (mo_clock m) r with
  | Err answer => Err answer
  | Ok tenant =>
      if negb (mo_store m) then Err (errorBody StatusServiceUnavailable "no control store") else
      if negb (privileged chain IssueAuthority sv (mo_clock m) r) then
        Err (errorBody StatusForbidden "this credential may not authorize fleet controls") else
      match readBody r with
      | None => Err (errorBody StatusBadRequest "the request body could not be read")
      | Some raw =>
      match decode_control raw with
      | Err e => Err (errorBody StatusBadRequest e)
      | Ok q =>
          match control_problems q with
          | [] => Ok (tenant, q)
          | ps => Err (mkResponse StatusBadRequest (BProblems ps))
          end
      end end
  end.

(** Through [Fleet.NewAuthorization] and [Fleet.Authorize]. *)
Definition authorize (q : controlRequest) (tenant : string) (rec : Fleet.Recommendation) (at_ : Time)
    : result (Fleet.FleetControl * Control) Response :=
  let action := default "" (ParseAction (cq_Action q)) in
  let rec := with_action rec tenant action in
  match Fleet.NewAuthorization (TrimSpace (cq_AuthorizedBy q)) (TrimSpace (cq_PolicyBundleID q))
          (TrimSpace (cq_Reason q)) at_ with
  | Err e => Err (errorBody StatusBadRequest e)
  | Ok a =>
  match Fleet.Authorize rec a at_ with
  | Err e => Err (errorBody StatusBadRequest e)
  | Ok fc =>
      if negb (Before (Fleet.fc_AppliedAt fc) (cq_ExpiresAt q)) then
        Err (errorBody StatusBadRequest "expires_at is not in the future")
      else Ok (fc, authorized_control q tenant action (Fleet.fc_Recommendation fc) a
                     (Fleet.fc_AppliedAt fc))
  end end.

Definition IssueControlHandler (m : Moment) (st : Plane) (r : Request) : Plane * Response :=
  match control_request m r with
  | Err answer => (st, answer)
  | Ok (tenant, q) =>
      let incident := TrimSpace (cq_IncidentID q) in
      match recommendationFor (Evidence.ByAggregate (mo_read m) (pl_evidence st) tenant incident)
              incident with
      | Err EvidenceUnavailable => (st, errorBody StatusServiceUnavailable "evidence unavailable")
      | Err _ => (st, errorBody StatusNotFound "nothing to authorize")
      | Ok rec =>
          let at_ := mo_clock m 4 in
          match authorize q tenant rec at_ with
          | Err answer => (st, answer)
          | Ok (fc, c) =>
              match Control.Store.Save (mo_up m) (pl_controls st) c with
              | (db, Err Control.Store.ErrControlExists) =>
                  (mkPlane db (pl_evidence st) (pl_sequence st),
                   errorBody StatusConflict "a control with this id already exists")
              | (db, Err _) =>
                  (mkPlane db (pl_evidence st) (pl_sequence st),
                   errorBody StatusInternalServerError "the control could not be stored")
              | (db, Ok _) =>
                  (best_effort m (mkPlane db (pl_evidence st) (pl_sequence st)) (control_event c at_),
                   mkResponse StatusCreated (BFields
                     [("control_id", Evidence.VString (c_ControlID c));
                      ("incident_id", Evidence.VString (c_IncidentID c));
                      ("action", Evidence.VString (c_Action c));
                      ("cohort_id", Evidence.VString (c_CohortID c));
                      ("agent_id", Evidence.VString (c_AgentID c));
                      ("agent_ids", Evidence.VList (c_AgentIDs c));
                      ("account_id", Evidence.VString (c_AccountID c));
                      ("authorized_by", Evidence.VString (c_AuthorizedBy c));
                      ("max_orders", Evidence.VInt (c_MaxOrders c));
                      ("window_seconds", Evidence.VInt (Control.Store.window_seconds (c_Window c)));
                      ("applied_at", Evidence.VString (rfc3339nano (c_AppliedAt c)));
                      ("expires_at", Evidence.VString (rfc3339nano (c_ExpiresAt c)));
                      ("enforced", Evidence.VBool true);
                      ("recommendation",
                       Evidence.VString (Recommendation_String (Fleet.fc_Recommendation fc)));
                      ("policy_bundle_id", Evidence.VString (c_PolicyBundleID c))]))
              end
          end
      end
  end.

(** ** Lifting *)

(** The body is cut at the limit, not refused. *)
Definition readTruncated (r : Request) : option string :=
  match rq_Body r with
  | Some raw => Some (String.substring 0 (S MaxEnvelopeBytes) raw)
  | None => None
  end.

Definition lift_event (tenant id by_ reason : string) (at_ : Time) (seq : Z) : Evidence.Event :=
  Evidence.mkEvent Evidence.SchemaVersion (id +:+ "_revoked_" +:+ fmt_d at_) Evidence.ControlRevoked
    tenant id id "" at_ at_ "assurance-gateway" seq ""
    (Some [("control_id", Evidence.VString id); ("actor", Evidence.VString by_);
           ("reason", Evidence.VString reason)]).

Definition lift_request (m : Moment) (r : Request) : result (string * liftRequest) Response :=
  match callerTenant chain sv (mo_clock m) r with
  | Err answer => Err answer
  | Ok tenant =>
      if negb (mo_store m) then Err (errorBody StatusServiceUnavailable "no control store") else
      if negb (privileged chain IssueAuthority sv (mo_clock m) r) then
        Err (errorBody StatusForbidden "this credential may not change fleet controls") else
      match readTruncated r with
      | None => Err (errorBody StatusBadRequest "the request body could not be read")
      | Some raw =>
      match unmarshal_lift raw with
      | Err e => Err (errorBody StatusBadRequest e)
      | Ok q => if blank (lq_RevokedBy q) || blank (lq_Reason q) then
                  Err (errorBody StatusBadRequest "revoked_by and reason are required")
                else Ok (tenant, q)
      end end
  end.

Definition RevokeControlHandler (m : Moment) (st : Plane) (r : Request) : Plane * Response :=
  match lift_request m r with
  | Err answer => (st, answer)
  | Ok (tenant, q) =>
      let id := rq_PathID r in
      let at_ := mo_clock m 4 in
      let by_ := TrimSpace (lq_RevokedBy q) in
      let answer already := mkResponse StatusOK (BFields
        [("control_id", Evidence.VString id); ("revoked_at", Evidence.VString (rfc3339nano at_));
         ("revoked_by", Evidence.VString by_); ("already", Evidence.VBool already)]) in
      match Control.Store.Revoke (mo_up m) (pl_controls st) tenant id by_ at_ with
      | (db, Err Control.Store.ErrControlNotFound) =>
          (mkPlane db (pl_evidence st) (pl_sequence st), errorBody StatusNotFound "no control by that id")
      | (db, Err _) =>
          (mkPlane db (pl_evidence st) (pl_sequence st),
           errorBody StatusInternalServerError "the control could not be revoked")
      | (db, Ok true) => (mkPlane db (pl_evidence st) (pl_sequence st), answer true)
      | (db, Ok false) =>
          let db := fst (Control.Store.Forget (mo_forget m) db tenant id) in
          (best_effort m (mkPlane db (pl_evidence st) (pl_sequence st))
             (lift_event tenant id by_ (TrimSpace (lq_Reason q)) at_), answer false)
      end
  end.

(** ** Listing *)

Definition control_entry (at_ : Time) (c : Control) : Evidence.Value :=
  Evidence.VObject
    ([("control_id", Evidence.VString (c_ControlID c));
      ("incident_id", Evidence.VString (c_IncidentID c)); ("action", Evidence.VString (c_Action c));
      ("cohort_id", Evidence.VString (c_CohortID c)); ("agent_id", Evidence.VString (c_AgentID c));
      ("agent_ids", Evidence.VList (c_AgentIDs c)); ("account_id", Evidence.VString (c_AccountID c));
      ("authorized_by", Evidence.VString (c_AuthorizedBy c));
      ("reason", Evidence.VString (c_Reason c));
      ("applied_at", Evidence.VString (rfc3339nano (c_AppliedAt c)));
      ("expires_at", Evidence.VString (rfc3339nano (c_ExpiresAt c)));
      ("max_orders", Evidence.VInt (c_MaxOrders c));
      ("window_seconds", Evidence.VInt (Control.Store.window_seconds (c_Window c)));
      ("in_force", Evidence.VBool (binds c at_))] ++
     match c_RevokedAt c with
     | Some t => [("revoked_at", Evidence.VString (rfc3339nano t));
                  ("revoked_by", Evidence.VString (c_RevokedBy c))]
     | None => []
     end).

Definition ListControlsHandler (m : Moment) (st : Plane) (r : Request) : Response :=
  match callerTenant chain sv (mo_clock m) r with
  | Err answer => answer
  | Ok tenant =>
      if negb (mo_store m) then errorBody StatusServiceUnavailable "no control store" else
      match Control.Store.ListAll (mo_up m) (pl_controls st) tenant with
      | Err _ => errorBody StatusInternalServerError "the controls could not be read"
      | Ok l => mkResponse StatusOK (BFields
          [("controls", Evidence.VArray (map (control_entry (mo_clock m 4)) l));
           ("as_of", Evidence.VString (rfc3339nano (mo_clock m 4)))])
      end
  end.

Inductive plane_op :=
| OIssueControl (m : Moment) (r : Request)
| OLiftControl (m : Moment) (r : Request).

Definition plane_step (st : Plane) (op : plane_op) : Plane :=
  match op with
  | OIssueControl m r => fst (IssueControlHandler m st r)
  | OLiftControl m r => fst (RevokeControlHandler m st r)
  end.
End Handlers.


(** * The life of a control *)

(** What a control can become: itself, or itself lifted. *)
Definition control_succ (c c' : Control) : Prop :=
  c' = c \/ (c_RevokedAt c = None /\ exists who at_, c' = Control.Store.revoked c who at_).

Lemma control_succ_trans c1 c2 c3 : control_succ c1 c2 -> control_succ c2 c3 -> control_succ c1 c3.
Proof.
  intros [->|[Ha (w1 & a1 & ->)]] [->|[Hb (w2 & a2 & ->)]]; unfold control_succ; auto; [eauto 6..|].
  by cbn in Hb.
Qed.

(** The tenant's evidence holds a recommendation for the incident. *)
Definition recommended (ev : Evidence.Tables) (HJ : Evidence.JSON) (t incident : string) : Prop :=
  exists k row, Evidence.events ev !! k = Some row /\ Evidence.r_tenant_id row = t /\
    Evidence.r_aggregate_id row = incident /\
    Evidence.r_event_name row = Incident.ControlRecommended.

Lemma ByAggregate_in (HJ : Evidence.JSON) (f : TxFault) (db : Evidence.Tables) (t id : string)
    (l : list Evidence.Event) (e : Evidence.Event) :
  Evidence.ByAggregate f db t id = Ok l -> e ∈ l ->
  exists k row, Evidence.events db !! k = Some row /\ e = Evidence.event_of k row /\
    Evidence.r_tenant_id row = t /\ Evidence.r_aggregate_id row = id.
Proof.
  unfold Evidence.ByAggregate, Evidence.query, Evidence.withTenant.
  destruct (String.eqb t ""); [done|]. unfold transaction. destruct f; cbn; [|done..].
  intros [= <-] He. rewrite stable_sort_perm in He.
  apply list_elem_of_In, filter_In in He as [He Hc].
  apply in_map_iff in He as ([k row] & <- & Hin).
  apply list_elem_of_In, elem_of_map_to_list in Hin.
  apply andb_true_iff in Hc as [H1%String.eqb_eq H2%String.eqb_eq]. by exists k, row.
Qed.

Lemma read_recommendation_found l : forall rec found rec',
  foldl read_recommendation (rec, found) l = (rec', true) ->
  found = true \/ exists e, e ∈ l /\ Evidence.ev_EventName e = Incident.ControlRecommended.
Proof.
  induction l as [|e l IH]; cbn [foldl]; intros rec found rec'; [intros [= _ ->]; by left|].
  unfold read_recommendation at 2.
  destruct (String.eqb _ Incident.IncidentCreated);
    [|destruct (String.eqb_spec (Evidence.ev_EventName e) Incident.ControlRecommended)];
    intros H; apply IH in H as [H|(e' & He & Hn)]; eauto using list_elem_of_here, list_elem_of_further.
Qed.

Lemma recommendationFor_ok (HJ : Evidence.JSON) (f : TxFault) (ev : Evidence.Tables)
    (t incident : string) (rec : Fleet.Recommendation) :
  recommendationFor (Evidence.ByAggregate f ev t incident) incident = Ok rec ->
  recommended ev HJ t incident.
Proof.
  destruct (Evidence.ByAggregate f ev t incident) as [l|] eqn:E; [|done]. unfold recommendationFor.
  destruct l as [|e0 l]; [done|]. destruct (foldl _ _ _) as [rec' found] eqn:Ef.
  destruct found; [|done]. intros _. apply read_recommendation_found in Ef as [|(e & He & Hn)]; [done|].
  destruct (ByAggregate_in _ _ _ _ _ _ _ E He) as (k & row & Hr & -> & Ht & Ha).
  exists k, row. by split_and!.
Qed.

(** The control a request asks for, with the cohort of the recommendation. *)
Definition asked_control (q : controlRequest) (t cohort : string) (at_ : Time) : Control :=
  mkControl (TrimSpace (cq_ControlID q)) t (TrimSpace (cq_IncidentID q))
    (default "" (ParseAction (cq_Action q))) cohort (TrimSpace (cq_AgentID q))
    (map TrimSpace (cq_AgentIDs q)) (TrimSpace (cq_AccountID q)) (cq_MaxOrders q)
    (wrap64 (cq_WindowSeconds q * Second)) (TrimSpace (cq_AuthorizedBy q))
    (TrimSpace (cq_PolicyBundleID q)) (TrimSpace (cq_Reason q)) at_ (cq_ExpiresAt q) None "".

Lemma authorize_ok q t rec at_ fc c :
  authorize q t rec at_ = Ok (fc, c) ->
  c = asked_control q t (Fleet.rm_CohortID rec) at_ /\ Before at_ (cq_ExpiresAt q) = true /\
  Fleet.fc_Recommendation fc = with_action rec t (c_Action c).
Proof.
  unfold authorize, Fleet.NewAuthorization. cbv zeta.
  destruct (String.eqb (TrimSpace (cq_AuthorizedBy q)) "") eqn:E1; [done|].
  destruct (String.eqb (TrimSpace (cq_PolicyBundleID q)) "") eqn:E2; [done|].
  destruct (String.eqb (TrimSpace (cq_Reason q)) "") eqn:E3; [done|].
  unfold Fleet.Authorize. cbn [Fleet.au_AuthorizedBy Fleet.au_PolicyBundleID]. rewrite E1, E2.
  cbn [orb]. destruct (negb (Fleet.validControl _)); [done|]. cbn [Fleet.fc_AppliedAt].
  destruct (Before at_ (cq_ExpiresAt q)); [|done]. by intros [= <- <-].
Qed.

Section Life.
Context {HJ : Evidence.JSON}.
Context {Pool : Type} (chain : Pool -> list Certificate -> Certificate -> Time -> option X509Error).
Context (decode_control : string -> result controlRequest string).
Context (unmarshal_lift : string -> result liftRequest string).
Context (rfc3339nano : Time -> string).
Context (sv : Server (Pool := Pool)).
Local Abbreviation control_request := (control_request chain decode_control sv).
Local Abbreviation IssueControlHandler := (IssueControlHandler chain decode_control rfc3339nano sv).
Local Abbreviation lift_request := (lift_request chain unmarshal_lift sv).
Local Abbreviation RevokeControlHandler := (RevokeControlHandler chain unmarshal_lift rfc3339nano sv).
Local Abbreviation plane_step := (plane_step chain decode_control unmarshal_lift rfc3339nano sv).

Lemma best_effort_controls m st e : pl_controls (best_effort m st e) = pl_controls st.
Proof. unfold best_effort. by destruct (negb _). Qed.

Lemma control_request_ok m r t q :
  control_request m r = Ok (t, q) ->
  callerTenant chain sv (mo_clock m) r = Ok t /\
  privileged chain IssueAuthority sv (mo_clock m) r = true /\
  (exists raw, readBody r = Some raw /\ decode_control raw = Ok q) /\ control_problems q = [].
Proof.
  unfold ControlHandlers.control_request. destruct (callerTenant _ _ _ _) as [t'|]; [|done].
  destruct (mo_store m); [|done]. destruct (privileged _ _ _ _ _) eqn:Ep; [|done]. cbn [negb].
  destruct (readBody r) as [raw|]; [|done]. destruct (decode_control raw) as [q'|] eqn:Ed; [|done].
  destruct (control_problems q') eqn:Eg; [|done]. intros [= <- <-]. split_and!; eauto.
Qed.

Lemma lift_request_ok m r t q :
  lift_request m r = Ok (t, q) ->
  callerTenant chain sv (mo_clock m) r = Ok t /\
  privileged chain IssueAuthority sv (mo_clock m) r = true /\
  blank (lq_RevokedBy q) = false /\ blank (lq_Reason q) = false.
Proof.
  unfold ControlHandlers.lift_request. destruct (callerTenant _ _ _ _) as [t'|]; [|done].
  destruct (mo_store m); [|done]. destruct (privileged _ _ _ _ _) eqn:Ep; [|done]. cbn [negb].
  destruct (readTruncated r) as [raw|]; [|done]. destruct (unmarshal_lift raw) as [q'|] eqn:Ed; [|done].
  destruct (blank (lq_RevokedBy q')) eqn:E1; [done|]. destruct (blank (lq_Reason q')) eqn:E2; [done|].
  by intros [= <- <-].
Qed.

Lemma control_request_refuses m r answer :
  control_request m r = Err answer -> rp_Status answer <> StatusCreated.
Proof.
  unfold ControlHandlers.control_request.
  destruct (callerTenant _ _ _ _) as [t|a] eqn:Ea.
  - intros H. repeat case_match; by simplify_eq.
  - intros [= <-]. by apply callerTenant_refuses in Ea as [-> | ->].
Qed.

Lemma lift_request_refuses m r answer :
  lift_request m r = Err answer -> rp_Status answer <> StatusOK.
Proof.
  unfold ControlHandlers.lift_request.
  destruct (callerTenant _ _ _ _) as [t|a] eqn:Ea.
  - intros H. repeat case_match; by simplify_eq.
  - intros [= <-]. by apply callerTenant_refuses in Ea as [-> | ->].
Qed.

(** A control was authorized by this request: by a caller whose credential may issue
    authority for the tenant, for an incident the evidence holds a recommendation for. *)
Definition authorized_by (m : Moment) (r : Request) (st : Plane) (t : string) (q : controlRequest)
    (c : Control) : Prop :=
  exists caller raw cohort, callerTenant chain sv (mo_clock m) r = Ok t /\
    presents IssueAuthority (sv_creds sv) r caller /\
    (rq_PeerCertificates r = [] -> cr_TenantID caller = t) /\
    readBody r = Some raw /\ decode_control raw = Ok q /\ control_problems q = [] /\
    recommended (pl_evidence st) HJ t (TrimSpace (cq_IncidentID q)) /\
    Before (mo_clock m 4) (cq_ExpiresAt q) = true /\
    c = Control.Store.stored (asked_control q t cohort (mo_clock m 4)).

(** Everything a request can do to the controls. *)
Inductive control_change (st : Plane) (op : plane_op) (db' : Control.Store.Tables) : Prop :=
| CCSame : db' = pl_controls st -> control_change st op db'
| CCIssued m r t q c :
    op = OIssueControl m r -> authorized_by m r st t q c ->
    rp_Status (snd (IssueControlHandler m st r)) = StatusCreated ->
    Control.Store.controls (pl_controls st) !! (t, c_ControlID c) = None ->
    Control.Store.controls db' = <[(t, c_ControlID c) := c]> (Control.Store.controls (pl_controls st)) ->
    control_change st op db'
| CCLifted m r t q c caller :
    op = OLiftControl m r -> callerTenant chain sv (mo_clock m) r = Ok t ->
    presents IssueAuthority (sv_creds sv) r caller ->
    (rq_PeerCertificates r = [] -> cr_TenantID caller = t) ->
    blank (lq_RevokedBy q) = false -> blank (lq_Reason q) = false ->
    rp_Status (snd (RevokeControlHandler m st r)) = StatusOK ->
    Control.Store.controls (pl_controls st) !! (t, rq_PathID r) = Some c -> c_RevokedAt c = None ->
    Control.Store.controls db' =
      <[(t, rq_PathID r) := Control.Store.revoked c (TrimSpace (lq_RevokedBy q)) (mo_clock m 4)]>
        (Control.Store.controls (pl_controls st)) ->
    control_change st op db'.

Lemma Save_control_state (up : bool) (db : Control.Store.Tables) (c : Control) :
  (fst (Control.Store.Save up db c) = db /\ is_ok (snd (Control.Store.Save up db c)) = false) \/
  (snd (Control.Store.Save up db c) = Ok tt /\
   Control.Store.controls db !! (c_TenantID c, c_ControlID c) = None /\
   Control.Store.controls (fst (Control.Store.Save up db c)) =
     <[(c_TenantID c, c_ControlID c) := Control.Store.stored c]> (Control.Store.controls db)).
Proof.
  destruct (Control.Store.Save up db c) as [db' x] eqn:E.
  apply control_withTenant_cases in E as [[-> H]|(a & Hf & ->)]; [by left|]. right.
  destruct (negb _); [done|].
  destruct (Control.Store.controls db !! _) eqn:Ek in Hf; [done|]. by simplify_eq.
Qed.

Lemma Revoke_control_state (up : bool) (db : Control.Store.Tables) (t id who : string) (at_ : Time) :
  (fst (Control.Store.Revoke up db t id who at_) = db /\
   snd (Control.Store.Revoke up db t id who at_) <> Ok false) \/
  (exists c, Control.Store.controls db !! (t, id) = Some c /\ c_RevokedAt c = None /\
   snd (Control.Store.Revoke up db t id who at_) = Ok false /\
   Control.Store.controls (fst (Control.Store.Revoke up db t id who at_)) =
     <[(t, id) := Control.Store.revoked c who at_]> (Control.Store.controls db)).
Proof.
  destruct (Control.Store.Revoke up db t id who at_) as [db' x] eqn:E.
  apply control_withTenant_cases in E as [[-> H]|(a & Hf & ->)]; [left; by destruct x|].
  destruct (Control.Store.controls db !! (t, id)) as [c|] eqn:Ek; [|done].
  destruct (c_RevokedAt c) eqn:Er; simplify_eq; [by left|]. right. by exists c.
Qed.

Lemma Forget_controls (up : bool) (db : Control.Store.Tables) (t id : string) :
  Control.Store.controls (fst (Control.Store.Forget up db t id)) = Control.Store.controls db.
Proof.
  destruct (Control.Store.Forget up db t id) as [db' r] eqn:E. cbn.
  apply control_withTenant_cases in E as [[-> _]|(a & Hf & _)]; [done|]. by simplify_eq.
Qed.

Lemma issue_change m st r :
  control_change st (OIssueControl m r) (pl_controls (fst (IssueControlHandler m st r))).
Proof.
  destruct (control_request m r) as [[t q]|a] eqn:E;
    [|apply CCSame; unfold ControlHandlers.IssueControlHandler; by rewrite E].
  pose proof E as E'. apply control_request_ok in E' as (Ht & Hp & (raw & Hraw & Hdec) & Hq).
  destruct (privileged_caller _ _ _ _ _ _ Ht Hp) as (caller & Hc & Hct).
  unfold ControlHandlers.IssueControlHandler at 1. rewrite E. cbv zeta.
  destruct (recommendationFor _ _) as [rec|[]] eqn:Er; try by apply CCSame.
  destruct (authorize q t rec (mo_clock m 4)) as [[fc c]|a] eqn:Ea; [|by apply CCSame].
  pose proof Ea as Ea'. apply authorize_ok in Ea' as (-> & Hb & _).
  apply recommendationFor_ok in Er as Hr.
  set (c := asked_control q t (Fleet.rm_CohortID rec) (mo_clock m 4)) in *.
  pose proof (Save_control_state (mo_up m) (pl_controls st) c) as HS.
  destruct (Control.Store.Save (mo_up m) (pl_controls st) c) as [db x] eqn:Es. cbn [fst snd] in HS.
  destruct HS as [[-> Hx]|(-> & Hn & Hdb)].
  { destruct x as [|[]]; [done|..]; by apply CCSame. }
  cbn [fst]. rewrite best_effort_controls. cbn [pl_controls].
  eapply (CCIssued _ _ _ m r t q (Control.Store.stored c)); [done| | |exact Hn|exact Hdb].
  - exists caller, raw, (Fleet.rm_CohortID rec). by split_and!.
  - unfold ControlHandlers.IssueControlHandler. rewrite E. cbv zeta. rewrite Er, Ea, Es. done.
Qed.

Lemma lift_change m st r :
  control_change st (OLiftControl m r) (pl_controls (fst (RevokeControlHandler m st r))).
Proof.
  destruct (lift_request m r) as [[t q]|a] eqn:E;
    [|apply CCSame; unfold ControlHandlers.RevokeControlHandler; by rewrite E].
  pose proof E as E'. apply lift_request_ok in E' as (Ht & Hp & Hby & Hre).
  destruct (privileged_caller _ _ _ _ _ _ Ht Hp) as (caller & Hc & Hct).
  unfold ControlHandlers.RevokeControlHandler at 1. rewrite E. cbv zeta.
  pose proof (Revoke_control_state (mo_up m) (pl_controls st) t (rq_PathID r) (TrimSpace (lq_RevokedBy q))
    (mo_clock m 4)) as HS.
  destruct (Control.Store.Revoke _ _ _ _ _ _) as [db x] eqn:Es. cbn [fst snd] in HS.
  destruct HS as [[-> Hx]|(c & Hk & Hn & -> & Hdb)].
  { destruct x as [[]|[]]; by apply CCSame. }
  cbn [fst]. rewrite best_effort_controls. cbn [pl_controls].
  eapply (CCLifted _ _ _ m r t q c caller); try done.
  - unfold ControlHandlers.RevokeControlHandler. rewrite E. cbv zeta. rewrite Es. done.
  - by rewrite Forget_controls.
Qed.

Lemma plane_step_change st op : control_change st op (pl_controls (plane_step st op)).
Proof. destruct op; [apply issue_change | apply lift_change]. Qed.

Lemma plane_step_succ st op k c :
  Control.Store.controls (pl_controls st) !! k = Some c ->
  exists c', Control.Store.controls (pl_controls (plane_step st op)) !! k = Some c' /\
    control_succ c c'.
Proof.
  intros Hc. destruct (plane_step_change st op) as [->|m r t q c0 _ _ _ Hn ->|
    m r t q c0 caller _ _ _ _ _ _ _ Hk Ha ->].
  - exists c. split; [done | by left].
  - exists c. split; [|by left]. rewrite lookup_insert_ne; [done|]. intros <-. congruence.
  - destruct (decide ((t, rq_PathID r) = k)) as [<-|Hne].
    + rewrite lookup_insert_eq. eexists. split; [done|]. right.
      assert (c0 = c) as -> by congruence. eauto.
    + rewrite lookup_insert_ne by done. exists c. split; [done | by left].
Qed.

Lemma plane_run_succ ops st k c :
  Control.Store.controls (pl_controls st) !! k = Some c ->
  exists c', Control.Store.controls (pl_controls (run_ops plane_step st ops)) !! k = Some c' /\
    control_succ c c'.
Proof.
  intros Hc. apply (run_ops_invariant plane_step
    (fun st' => exists c', Control.Store.controls (pl_controls st') !! k = Some c' /\ control_succ c c')).
  - intros st' op (c1 & H1 & S1). destruct (plane_step_succ st' op k c1 H1) as (c2 & H2 & S2).
    exists c2. split; [done | by eapply control_succ_trans].
  - exists c. split; [done | by left].
Qed.

(** Control [c] was authorized by a request of this history. *)
Definition authorized_in (st : Plane) (ops : list plane_op) (t : string) (c : Control) : Prop :=
  exists ops1 m r ops2 q, ops = ops1 ++ OIssueControl m r :: ops2 /\
    authorized_by m r (run_ops plane_step st ops1) t q c.

Lemma authorized_later st ops op t c :
  authorized_in st ops t c -> authorized_in st (ops ++ [op]) t c.
Proof.
  intros (ops1 & m & r & ops2 & q & -> & H). exists ops1, m, r, (ops2 ++ [op]), q.
  split; [by rewrite <- app_assoc | done].
Qed.

(** C19: Fleet intelligence recommends, the customer authorizes.  While requests run one
    after another, a control that exists stays exactly as authorized until it is lifted,
    a lifted one stays as it was lifted, and every control that was not there at the
    start was authorized by a request of a caller whose credential may issue authority
    for that tenant, named an author, a policy, a reason and a future expiry, and cites an
    incident of the same tenant whose evidence then held a recommendation. *)
Theorem controls_are_authorized (st : Plane) (ops : list plane_op) :
  let st' := run_ops plane_step st ops in
  (forall k c, Control.Store.controls (pl_controls st) !! k = Some c ->
     exists c', Control.Store.controls (pl_controls st') !! k = Some c' /\ control_succ c c') /\
  (forall t id c', Control.Store.controls (pl_controls st') !! (t, id) = Some c' ->
     exists c, control_succ c c' /\
       (Control.Store.controls (pl_controls st) !! (t, id) = Some c \/
        authorized_in st ops t c /\ c_ControlID c = id)).
Proof.
  intros st'. split; [intros k c; apply plane_run_succ|]. unfold st'. clear st'.
  induction ops as [|op ops IH] using rev_ind; intros t id c' Hc'.
  { exists c'. split; [by left | by left]. }
  rewrite run_ops_app in Hc'. cbn [run_ops foldl] in Hc'.
  assert (Hold : forall c1, Control.Store.controls (pl_controls (run_ops plane_step st ops)) !! (t, id) = Some c1 ->
    control_succ c1 c' -> exists c, control_succ c c' /\
      (Control.Store.controls (pl_controls st) !! (t, id) = Some c \/
       authorized_in st (ops ++ [op]) t c /\ c_ControlID c = id)).
  { intros c1 H1 S1. destruct (IH t id c1 H1) as (c & Sc & Hc). exists c.
    split; [by eapply control_succ_trans|].
    destruct Hc as [|[]]; [by left | right; by eauto using authorized_later]. }
  destruct (plane_step_change (run_ops plane_step st ops) op) as [E|m r t1 q c0 Hop Ha _ Hn E|
    m r t1 q c0 caller _ _ _ _ _ _ _ Hk Ha E]; unfold run_ops in *; rewrite E in Hc'.
  - apply (Hold c' Hc'). by left.
  - destruct (decide ((t1, c_ControlID c0) = (t, id))) as [[= -> <-]|Hne].
    + rewrite lookup_insert_eq in Hc'. injection Hc' as <-. exists c0. split; [by left|]. right.
      split; [|done]. exists ops, m, r, [], q. by rewrite Hop.
    + rewrite lookup_insert_ne in Hc' by done. apply (Hold c' Hc'). by left.
  - destruct (decide ((t1, rq_PathID r) = (t, id))) as [[= -> <-]|Hne].
    + rewrite lookup_insert_eq in Hc'. injection Hc' as <-. apply (Hold c0 Hk). right. eauto.
    + rewrite lookup_insert_ne in Hc' by done. apply (Hold c' Hc'). by left.
Qed.

(** ** A control binds until it is lifted *)

(** A request lifts the control or leaves its row alone. *)
Definition lifts (st : Plane) (op : plane_op) (t id : string) : Prop :=
  exists m r caller, op = OLiftControl m r /\ rq_PathID r = id /\
    callerTenant chain sv (mo_clock m) r = Ok t /\ presents IssueAuthority (sv_creds sv) r caller /\
    rp_Status (snd (RevokeControlHandler m st r)) = StatusOK.

Lemma unlifted_step st op t id c :
  Control.Store.controls (pl_controls st) !! (t, id) = Some c ->
  lifts st op t id \/ Control.Store.controls (pl_controls (plane_step st op)) !! (t, id) = Some c.
Proof.
  intros Hc. destruct (plane_step_change st op) as [->|m r t1 q c0 _ _ _ Hn ->|
    m r t1 q c0 caller -> Ht Hp _ _ _ Hs Hk Ha ->].
  - by right.
  - right. rewrite lookup_insert_ne; [done|]. intros Hx. rewrite Hx in Hn. congruence.
  - destruct (decide ((t1, rq_PathID r) = (t, id))) as [[= -> <-]|Hne].
    + left. by exists m, r, caller.
    + right. by rewrite lookup_insert_ne.
Qed.

Lemma issue_created m st r :
  rp_Status (snd (IssueControlHandler m st r)) = StatusCreated ->
  exists t q c, callerTenant chain sv (mo_clock m) r = Ok t /\
    authorized_by m r st t q c /\
    Control.Store.controls (pl_controls (fst (IssueControlHandler m st r))) !! (t, c_ControlID c) = Some c.
Proof.
  destruct (issue_change m st r) as [E|m' r' t q c [= <- <-] Ha _ Hn E|]; [| |done].
  2: { intros _. exists t, q, c. pose proof Ha as (caller & raw & cohort & Ht & _).
       split_and!; [done..|]. by rewrite E, lookup_insert_eq. }
  revert E. unfold ControlHandlers.IssueControlHandler.
  destruct (control_request m r) as [[t q]|a] eqn:Er; [|intros _ H; by apply control_request_refuses in Er].
  cbv zeta. destruct (recommendationFor _ _) as [rec|[]]; try done.
  destruct (authorize q t rec (mo_clock m 4)) as [[fc c]|a] eqn:Ea.
  - destruct (Save_control_state (mo_up m) (pl_controls st) c) as [[_ Hx]|(Hx & Hn & Hdb)].
    { destruct (Control.Store.Save _ _ _) as [db [x|[]]]; done. }
    destruct (Control.Store.Save _ _ _) as [db x]. cbn [fst snd] in *. subst x.
    cbn [fst]. rewrite best_effort_controls. cbn [pl_controls]. intros ->.
    rewrite Hdb in Hn at 1. by rewrite lookup_insert_eq in Hn.
  - intros _. unfold authorize in Ea. cbv zeta in Ea. repeat case_match; by simplify_eq.
Qed.
End Life.

(** * What a control on record does *)

Lemma InForce_ok (db : Control.Store.Tables) (t : string) (now : Time) :
  t <> "" -> exists cs, Control.Store.InForce true db t now = Ok cs /\
    forall id c, Control.Store.controls db !! (t, id) = Some c -> binds c now = true -> c ∈ cs.
Proof.
  intros Ht. unfold Control.Store.InForce, Control.Store.withTenant.
  destruct (String.eqb_spec t ""); [done|]. cbn. eexists. split; [done|].
  intros id c Hc Hb. rewrite stable_sort_perm. apply list_elem_of_In, filter_In. split; [|exact Hb].
  unfold Control.Store.tenant_controls. apply in_map_iff. exists ((t, id), c). split; [done|].
  apply filter_In. split; [|apply String.eqb_refl].
  by apply list_elem_of_In, elem_of_map_to_list.
Qed.

Lemma Evaluate_refuses cs c env now :
  c ∈ cs -> stops c env now = true -> cd_Allowed (Evaluate cs (Some env) now) = false.
Proof.
  intros Hin Hs. cbn [Evaluate]. rewrite evaluate_loop_find.
  destruct (List.find _ cs) as [c'|] eqn:E; [done|].
  apply list_elem_of_In in Hin. pose proof (List.find_none _ _ E c Hin) as Hf.
  cbv beta in Hf. congruence.
Qed.

Lemma asked_action q t cohort at_ :
  control_problems q = [] ->
  c_Action (asked_control q t cohort at_) <> ControlThrottle ->
  contains [ControlReadOnly; ControlIsolateCohort; ControlRequireApproval]
    (c_Action (asked_control q t cohort at_)) = true.
Proof.
  unfold control_problems. intros Hq. apply app_nil in Hq as [_ Hq].
  do 6 apply app_nil in Hq as [_ Hq]. apply app_nil in Hq as [_ Hq].
  unfold action_problems in Hq. cbn. unfold ParseAction in *. cbv zeta in *.
  destruct (validControl (ToUpper (TrimSpace (cq_Action q)))) eqn:E; [|done]. cbn [default].
  apply contains_spec in E. intros Hne. apply contains_spec. set_solver.
Qed.

(** What a control that is on record does to the orders in its scope. *)
Lemma row_binds (db : Control.Store.Tables) t q cohort at_ now env :
  let c := Control.Store.stored (asked_control q t cohort at_) in
  t <> "" -> control_problems q = [] -> Control.Store.controls db !! (t, c_ControlID c) = Some c ->
  Before now (cq_ExpiresAt q) = true -> covers c env = true ->
  exists cs, Control.Store.InForce true db t now = Ok cs /\
    if String.eqb (c_Action c) ControlThrottle then c ∈ Throttles cs (Some env) now
    else cd_Allowed (Evaluate cs (Some env) now) = false.
Proof.
  intros c Hne Hq Hc Hnow Hcov. assert (Hb : binds c now = true) by exact Hnow.
  destruct (InForce_ok db t now Hne) as (cs & Hcs & Hin).
  exists cs. split; [done|]. specialize (Hin _ _ Hc Hb).
  destruct (String.eqb (c_Action c) ControlThrottle) eqn:Et.
  - cbn [Throttles]. apply list_elem_of_In, filter_In. rewrite Et, Hb, Hcov. split; [|done].
    by apply list_elem_of_In.
  - apply (Evaluate_refuses cs c); [done|]. unfold stops. rewrite Hb, Hcov.
    apply String.eqb_neq in Et. exact (asked_action q t cohort _ Hq Et).
Qed.

(** * The scope of a control *)

(** An order of no agent and no account. *)
Definition unnamed (e : Envelope) : Envelope :=
  mkEnvelope (env_SchemaVersion e) (env_EnvelopeID e) (env_IdempotencyKey e) (env_CorrelationID e)
    (env_ReceivedAt e) (env_TenantID e) (mkPrincipal (pr_PrincipalID (env_Principal e)) "")
    (mkAgent "" (ag_SpiffeID (env_Agent e)) (ag_Attestation (env_Agent e)))
    (env_RuntimeClaims e) (env_AuthorityGrantID e) (env_Dependencies e) (env_Intent e)
    (env_ParentIntentID e) (env_StrategyID e) (env_PortfolioSnapshotID e) (env_MarketSnapshotID e)
    (env_Signature e).

Lemma trimmed_member (l : list string) :
  existsb blank l = false -> contains (map TrimSpace l) "" = false.
Proof.
  intros H. destruct (contains _ _) eqn:E; [|done]. apply contains_spec in E.
  apply list_elem_of_In, in_map_iff in E as (x & Hx & Hin).
  assert (existsb blank l = true) as Ht; [|congruence].
  apply existsb_exists. exists x. split; [done|]. unfold blank. by rewrite Hx.
Qed.

(** The four scopes, by what an accepted request names. *)
Lemma scope_cases q :
  control_problems q = [] ->
  (scope_of q = "tenant" /\ cq_AgentID q = "" /\ cq_AgentIDs q = [] /\ cq_AccountID q = "") \/
  (scope_of q = "agent" /\ blank (cq_AgentID q) = false /\ cq_AgentIDs q = [] /\ cq_AccountID q = "") \/
  (scope_of q = "agents" /\ cq_AgentID q = "" /\ cq_AgentIDs q <> [] /\
   existsb blank (cq_AgentIDs q) = false /\ cq_AccountID q = "") \/
  (scope_of q = "account" /\ cq_AgentID q = "" /\ cq_AgentIDs q = [] /\ blank (cq_AccountID q) = false).
Proof.
  unfold control_problems. intros Hq. do 6 apply app_nil in Hq as [_ Hq].
  apply app_nil in Hq as [Hs Hq]. apply app_nil in Hq as [Hn _]. apply problem_nil in Hn.
  revert Hs Hn. unfold scope_problems, named_scopes, str_nonempty.
  destruct (String.eqb_spec (scope_of q) "tenant") as [->|_];
    [|destruct (String.eqb_spec (scope_of q) "agent") as [->|_];
      [|destruct (String.eqb_spec (scope_of q) "agents") as [->|_];
        [|destruct (String.eqb_spec (scope_of q) "account") as [->|_]; [|done]]]].
  - rewrite problem_nil. destruct (String.eqb_spec (cq_AgentID q) ""); [|done].
    destruct (String.eqb_spec (cq_AccountID q) ""); [|done]. destruct (cq_AgentIDs q); [|done]. intros _. eauto 10.
  - rewrite require_nil. intros Hb. pose proof (nonblank_nonempty _ Hb).
    destruct (String.eqb_spec (cq_AgentID q) ""); [done|].
    destruct (String.eqb_spec (cq_AccountID q) ""); [|done]. destruct (cq_AgentIDs q); [|done]. intros _. eauto 10.
  - intros [H1 H2]%app_nil. apply problem_nil in H1, H2.
    destruct (cq_AgentIDs q) as [|x l]; [done|].
    destruct (String.eqb_spec (cq_AgentID q) ""); [|by destruct (String.eqb _ _)].
    destruct (String.eqb_spec (cq_AccountID q) ""); [|done]. intros _. right. right. left. by split_and!.
  - rewrite require_nil. intros Hb. pose proof (nonblank_nonempty _ Hb).
    destruct (String.eqb_spec (cq_AccountID q) ""); [done|].
    destruct (String.eqb_spec (cq_AgentID q) ""); [|done]. destruct (cq_AgentIDs q); [|done]. intros _. eauto 10.
Qed.

Lemma str_nonempty_trim s : blank s = false -> str_nonempty (TrimSpace s) = true.
Proof. unfold str_nonempty, blank. by intros ->. Qed.

Definition scope_choice (s : string) (agent agents account : Prop) : Prop :=
  s = "tenant" \/ (s = "agent" /\ agent) \/ (s = "agents" /\ agents) \/ (s = "account" /\ account).

Lemma scope_chosen (A B C : Prop) :
  (scope_choice "tenant" A B C <-> True) /\ (scope_choice "agent" A B C <-> A) /\
  (scope_choice "agents" A B C <-> B) /\ (scope_choice "account" A B C <-> C).
Proof.
  unfold scope_choice. split_and!; (split; [|intros; auto 6]); intros [?|[[]|[[]|[]]]]; done.
Qed.

(** The widest control is never arrived at by leaving a field out: the control an
    accepted request asks for covers every order of the tenant exactly when the request
    states the scope tenant, and otherwise covers exactly the orders of the agent, the
    agents or the account it names. *)
Theorem whole_tenant_is_stated (q : controlRequest) (t cohort : string) (at_ : Time) :
  control_problems q = [] ->
  let c := Control.Store.stored (asked_control q t cohort at_) in
  ((forall env, covers c env = true) <-> scope_of q = "tenant") /\
  (forall env, covers c env = true <->
     scope_choice (scope_of q) (ag_AgentID (env_Agent env) = TrimSpace (cq_AgentID q))
       (ag_AgentID (env_Agent env) ∈ map TrimSpace (cq_AgentIDs q))
       (pr_AccountID (env_Principal env) = TrimSpace (cq_AccountID q))).
Proof.
  intros Hq c.
  assert (H : forall env, covers c env = true <->
     scope_choice (scope_of q) (ag_AgentID (env_Agent env) = TrimSpace (cq_AgentID q))
       (ag_AgentID (env_Agent env) ∈ map TrimSpace (cq_AgentIDs q))
       (pr_AccountID (env_Principal env) = TrimSpace (cq_AccountID q))).
  { intros env. unfold covers. cbn.
    destruct (scope_cases q Hq) as [(Hs & -> & -> & ->)|[(Hs & Hb & -> & ->)|[(Hs & -> & Hne & Hb & ->)|
      (Hs & -> & -> & Hb)]]]; rewrite Hs;
      match goal with |- _ <-> scope_choice _ ?A ?B ?C =>
        destruct (scope_chosen A B C) as (S1 & S2 & S3 & S4) end;
      change (TrimSpace "") with "" in *; change (str_nonempty "") with false;
      cbn [map length Nat.ltb Nat.leb andb] in *.
    - by rewrite S1.
    - rewrite S2, (str_nonempty_trim _ Hb), (String.eqb_sym (TrimSpace _)). cbn [andb].
      by destruct (String.eqb_spec (ag_AgentID (env_Agent env)) (TrimSpace (cq_AgentID q))).
    - rewrite S3, <- contains_spec. destruct (cq_AgentIDs q); [done|]. cbn [map length Nat.ltb Nat.leb].
      by destruct (contains _ _).
    - rewrite S4, (str_nonempty_trim _ Hb), (String.eqb_sym (TrimSpace _)). cbn [andb].
      by destruct (String.eqb_spec (pr_AccountID (env_Principal env)) (TrimSpace (cq_AccountID q))). }
  split; [|exact H]. split; [|intros Hs env; apply H; by left].
  intros Hall. specialize (Hall (unnamed sample_envelope)). apply H in Hall. cbn in Hall.
  destruct (scope_cases q Hq) as [(Hs & _)|[(Hs & Hb & _)|[(Hs & _ & _ & Hb & _)|(Hs & _ & _ & Hb)]]];
    [done|..]; exfalso; rewrite Hs in Hall; apply scope_chosen in Hall.
  - by apply blank_false in Hb.
  - apply trimmed_member in Hb. apply contains_spec in Hall. congruence.
  - by apply blank_false in Hb.
Qed.

(** * Where the code departs from what it says *)

Definition with_request_action (q : controlRequest) (a : ControlAction) : controlRequest :=
  mkControlRequest (cq_ControlID q) (cq_IncidentID q) a (cq_AgentID q) (cq_AgentIDs q)
    (cq_AccountID q) (cq_Scope q) (cq_AuthorizedBy q) (cq_PolicyBundleID q) (cq_Reason q)
    (cq_ExpiresAt q) (cq_MaxOrders q) (cq_WindowSeconds q).

(** The recommendation is said to be read from evidence and not taken from the request;
    its action is the request's.  Whatever the platform recommended, any of the four
    actions is authorized, and the record says the platform would have taken that one. *)
Theorem any_action_is_authorized (q : controlRequest) (t : string) (rec : Fleet.Recommendation)
    (at_ : Time) (fc : Fleet.FleetControl) (c : Control) (a : ControlAction) :
  authorize q t rec at_ = Ok (fc, c) -> validControl a = true ->
  exists fc' c', authorize (with_request_action q a) t rec at_ = Ok (fc', c') /\
    c_Action c' = a /\ Fleet.rm_WouldHave (Fleet.fc_Recommendation fc') = a.
Proof.
  intros H Ha. assert (Hp : ParseAction a = Some a).
  { apply contains_spec in Ha. repeat (apply elem_of_cons in Ha as [->|Ha]; [reflexivity|]).
    by apply elem_of_nil in Ha. }
  assert (Hv : Fleet.validControl a = true).
  { apply contains_spec in Ha. repeat (apply elem_of_cons in Ha as [->|Ha]; [reflexivity|]).
    by apply elem_of_nil in Ha. }
  revert H. unfold authorize. cbv zeta.
  cbn [with_request_action cq_Action cq_AuthorizedBy cq_PolicyBundleID cq_Reason cq_ExpiresAt].
  rewrite Hp. cbn [default]. unfold Fleet.NewAuthorization, Fleet.Authorize.
  destruct (String.eqb (TrimSpace (cq_AuthorizedBy q)) "") eqn:E1; [done|].
  destruct (String.eqb (TrimSpace (cq_PolicyBundleID q)) "") eqn:E2; [done|].
  destruct (String.eqb (TrimSpace (cq_Reason q)) "") eqn:E3; [done|].
  cbn [Fleet.au_AuthorizedBy Fleet.au_PolicyBundleID with_action Fleet.rm_WouldHave].
  rewrite E1, E2; change (id a) with a. rewrite Hv. cbn [orb negb Fleet.fc_AppliedAt].
  destruct (negb (Fleet.validControl _)); [done|]. cbn [Fleet.fc_AppliedAt].
  destruct (Before at_ (cq_ExpiresAt q)); [|done]. intros _. cbn [negb]. do 2 eexists.
  by split.
Qed.

(** The seconds of a throttle's window are multiplied in 64 bits: a window of some 585
    years is accepted and stored as one second. *)
Theorem throttle_window_wraps (q : controlRequest) (t cohort : string) (at_ : Time) :
  action_problems q = [] -> cq_WindowSeconds q = 18446744075 ->
  c_Action (asked_control q t cohort at_) = ControlThrottle /\
  c_Window (Control.Store.stored (asked_control q t cohort at_)) = Second.
Proof.
  intros Hq Hw. cbn. rewrite Hw. split; [|vm_compute; reflexivity].
  unfold action_problems in Hq. destruct (ParseAction (cq_Action q)) as [a|]; [|done]. cbn.
  destruct (String.eqb_spec a ControlThrottle); [done|]. apply problem_nil in Hq.
  rewrite Hw in Hq. by rewrite orb_true_r in Hq.
Qed.

(** * Witnesses *)

#[local] Instance demo_json : Evidence.JSON := Evidence.toy_json.

Definition officer_server : Server (Pool := unit) :=
  mkServer (Some {[ "token-1" := mkCaller "officer" "tenant-1" true false false ]}) None.
Definition no_chain (_ : unit) (_ : list Certificate) (_ : Certificate) (_ : Time) : option X509Error := None.

Definition halt_request : controlRequest :=
  mkControlRequest "ctl-1" "inc-1" "read_only" "agent-1" [] "" " Agent" "officer" "bundle-1"
    "herding" 1000 0 0.
Definition throttle_request (window : Z) : controlRequest :=
  mkControlRequest "ctl-1" "inc-1" "throttle" "" [] "" "tenant" "officer" "bundle-1"
    "herding" 1000 5 window.

Definition demo_decode_control (raw : string) : result controlRequest string :=
  if String.eqb raw "halt" then Ok halt_request else Ok (throttle_request 60).
Definition demo_unmarshal_lift (raw : string) : result liftRequest string :=
  Ok (mkLiftRequest "officer" raw).

Definition recommendation_event : Evidence.Event :=
  Evidence.mkEvent "0.1" "rec-1" Incident.ControlRecommended "tenant-1" "inc-1" "inc-1" "" 5 5
    "fleet" 0 "" None.
Definition recommended_plane : Plane :=
  mkPlane Control.Store.empty_tables
    (fst (Evidence.Append Fine 6 Evidence.empty_tables recommendation_event)) 0.
Definition moment (n : Z) : Moment := mkMoment (fun _ => n) n Fine true true Fine true true.
Definition post (body id : string) : Request := mkRequest "Bearer token-1" "" [] (Some body) id.

Local Abbreviation demo_issue := (IssueControlHandler no_chain demo_decode_control fmt_d officer_server).

Definition halted : Plane := fst (demo_issue (moment 10) recommended_plane (post "halt" "")).

Example halted_created :
  rp_Status (snd (demo_issue (moment 10) recommended_plane (post "halt" ""))) = StatusCreated.
Proof. vm_compute. reflexivity. Qed.

Example whole_tenant_is_stated_witness :
  let c := Control.Store.stored (asked_control (throttle_request 60) "tenant-1" "" 10) in
  covers c sample_envelope = true /\ ~ (forall env, covers (Control.Store.stored
    (asked_control halt_request "tenant-1" "" 10)) env = true).
Proof.
  assert (H1 : control_problems (throttle_request 60) = []) by (vm_compute; reflexivity).
  assert (H2 : control_problems halt_request = []) by (vm_compute; reflexivity).
  assert (S1 : scope_of (throttle_request 60) = "tenant") by (vm_compute; reflexivity).
  assert (S2 : scope_of halt_request = "agent") by (vm_compute; reflexivity).
  pose proof (proj1 (whole_tenant_is_stated (throttle_request 60) "tenant-1" "" 10 H1)) as W1.
  pose proof (proj1 (whole_tenant_is_stated halt_request "tenant-1" "" 10 H2)) as W2.
  split; [exact (proj2 W1 S1 sample_envelope)|].
  intros H. pose proof (proj1 W2 H) as E. rewrite S2 in E. discriminate E.
Defined.

Example any_action_is_authorized_witness :
  exists fc c, authorize (with_request_action halt_request ControlIsolateCohort) "tenant-1"
    (Fleet.mkRecommendation "inc-1" "" "" "" "" "would have THROTTLE" zero_window 5) 10 = Ok (fc, c) /\
    Fleet.rm_WouldHave (Fleet.fc_Recommendation fc) = ControlIsolateCohort.
Proof.
  assert (H : exists fc c, authorize halt_request "tenant-1"
    (Fleet.mkRecommendation "inc-1" "" "" "" "" "would have THROTTLE" zero_window 5) 10 = Ok (fc, c))
    by (do 2 eexists; vm_compute; reflexivity).
  destruct H as (fc & c & H).
  destruct (any_action_is_authorized _ _ _ _ fc c ControlIsolateCohort H eq_refl) as (fc' & c' & H' & _ & Hw).
  exists fc', c'. exact (conj H' Hw).
Defined.

Example throttle_window_wraps_witness :
  let c := asked_control (throttle_request 18446744075) "tenant-1" "" 10 in
  snd (Control.Store.Save true Control.Store.empty_tables c) = Ok tt /\
  c_Window (Control.Store.stored c) = Second.
Proof.
  split; [vm_compute; reflexivity|].
  exact (proj2 (throttle_window_wraps (throttle_request 18446744075) "tenant-1" "" 10
    ltac:(vm_compute; reflexivity) eq_refl)).
Defined.
