(* ===== verification/Enforcement.v ===== *)
(** The gateway put together: cmd/assurance-gateway/main.go's wiring of the pipeline.

    A [Deployment] is one gateway process with the tables its surfaces share: the grants
    that operators issue and revoke, the agent keys that registrars bind, the controls
    that officers authorize and lift, the policy files and their accepted activations.
    [served] hands the pipeline what those tables and the replica answer at the moment of
    a submission; [dstep] is one request, run to its end.  The theorems say what every
    order that reaches the venue owes to the people behind those tables, and what a
    control stops. *)

From S2P Require Import Prelude Strings Money Intent Execution Broker CanonicalJSON Crypto Identity Http Pipeline.
From S2P Require Authority Usage Evidence Control Policy ActivationStore Bundles Grants AgentKeys ControlHandlers Scenarios.

Section Deployment.
Context {C : Crypto} {HJ : Evidence.JSON}.
Context {L S V Pool : Type} `{HU : Usage.Reserver L, HS : IdemStore S, HV : Adapter V}.
Context (chain : Pool -> list Certificate -> Certificate -> Time -> option X509Error).
Context (unmarshal : Doc -> result Envelope string).
Context (rfc3339nano duration_text : Z -> string).
Context (rfc3339 : Time -> option string) (format_rfc3339 : Time -> string).
Context (decode_grant : string -> result Grants.grantRequest string).
Context (decode_grant_revocation : string -> result Grants.revokeRequest string).
Context (decode_key : string -> result AgentKeys.agentKeyRequest string).
Context (decode_key_revocation : string -> result AgentKeys.revokeKeyRequest string).
Context (decode_control : string -> result ControlHandlers.controlRequest string).
Context (unmarshal_lift : string -> result ControlHandlers.liftRequest string).
Context (unmarshal_bundle : string -> result Policy.Bundle string).
Context (unmarshal_authorization : string -> result Activation.Authorization string).
(** The credentials, and the verifier of the operators' surfaces *)
Context (sv : Server (Pool := Pool)).
Context (cfg : Config (Pool := Pool)).

Record Deployment := mkDeployment {
  dp_gateway : Gateway (L := L) (S := S) (V := V);
  dp_grants : Grants.Admin;
  dp_keys : AgentKeys.Keys;
  dp_plane : ControlHandlers.Plane;
  dp_replica : Bundles.FileBundles;
  dp_policies : ActivationStore.Store.Tables
}.

(** Before any person has acted: no grant, key, control or accepted policy. *)
Definition install (g : Gateway) (publisher : bytes_t) (activations : bool) : Deployment :=
  mkDeployment g (Grants.mkAdmin ∅ Evidence.empty_tables 0) (AgentKeys.mkKeys Store.empty_tables 0)
    (ControlHandlers.mkPlane Control.Store.empty_tables Evidence.empty_tables 0)
    (Bundles.fresh publisher activations) ActivationStore.Store.empty_tables.

Local Abbreviation Active :=
  (Bundles.Active rfc3339 format_rfc3339 unmarshal_bundle unmarshal_authorization).

(** What the replica answers a submission of tenant [t]. *)
Definition policy_of (d : Deployment) (s : Bundles.Surroundings) (t : string) :=
  Active s (dp_replica d) (dp_policies d) t.

(** The moment of a submission: keys, grants and policy are the deployment's. *)
Definition served (d : Deployment) (m : Moment (K := Store.Tables)) (gf : TxFault)
    (s : Bundles.Surroundings) : Moment (K := Store.Tables) :=
  mkMoment (m_now m) (m_identity_now m) (m_verify_now m)
    (Some (AgentKeys.ks_registry (dp_keys d)))
    (Grants.StoreGrants_Load gf (Some (Grants.ad_grants (dp_grants d))))
    (fun t => match snd (policy_of d s t) with
              | Ok b => Ok (Some b)
              | Err _ => Err "no bundle can be enforced"
              end)
    (m_load1 m) (m_load2 m) (m_usage m) (m_controls m) (m_consume m) (m_reserve m) (m_receipt m)
    (m_execution m) (m_release m) (m_settle m) (m_flush m) (m_dbnow m).

(** The policy stage asked the replica. *)
Definition asked_policy (answer : option Result) : bool :=
  match answer with
  | None => true
  | Some r => negb (isNil (rs_Policy r)) || String.eqb (rs_Stage r) StagePolicy
  end.

Definition submit (d : Deployment) (m : Moment (K := Store.Tables)) (gf : TxFault)
    (s : Bundles.Surroundings) (raw : Doc) (presented : Presented) : Deployment * option Result :=
  let g := set_controls (ControlHandlers.pl_controls (dp_plane d)) (dp_gateway d) in
  let '(g', answer) := Submit chain unmarshal rfc3339nano duration_text cfg g (served d m gf s) raw presented in
  let plane := ControlHandlers.mkPlane (gw_controls g') (ControlHandlers.pl_evidence (dp_plane d))
                 (ControlHandlers.pl_sequence (dp_plane d)) in
  let '(fb, db) := match Decode unmarshal raw with
                   | Ok env => if asked_policy answer then fst (policy_of d s (env_TenantID env))
                               else (dp_replica d, dp_policies d)
                   | Err _ => (dp_replica d, dp_policies d)
                   end in
  (mkDeployment g' (dp_grants d) (dp_keys d) plane fb db, answer).

Inductive dop :=
| DSubmit (m : Moment (K := Store.Tables)) (gf : TxFault) (s : Bundles.Surroundings) (raw : Doc)
    (presented : Presented)
| DGrant (op : Grants.admin_op)
| DKey (op : AgentKeys.key_op)
| DControl (op : ControlHandlers.plane_op)
| DPolicy (op : Bundles.bundle_op).

Local Abbreviation admin_step :=
  (Grants.admin_step chain decode_grant decode_grant_revocation rfc3339nano sv).
Local Abbreviation key_step := (AgentKeys.key_step chain decode_key decode_key_revocation rfc3339nano sv).
Local Abbreviation plane_step :=
  (ControlHandlers.plane_step chain decode_control unmarshal_lift rfc3339nano sv).
Local Abbreviation bundle_step :=
  (Bundles.bundle_step rfc3339 format_rfc3339 unmarshal_bundle unmarshal_authorization).

Definition dstep (d : Deployment) (op : dop) : Deployment :=
  match op with
  | DSubmit m gf s raw presented => fst (submit d m gf s raw presented)
  | DGrant op => mkDeployment (dp_gateway d) (admin_step (dp_grants d) op) (dp_keys d) (dp_plane d)
                   (dp_replica d) (dp_policies d)
  | DKey op => mkDeployment (dp_gateway d) (dp_grants d) (key_step (dp_keys d) op) (dp_plane d)
                 (dp_replica d) (dp_policies d)
  | DControl op => mkDeployment (dp_gateway d) (dp_grants d) (dp_keys d) (plane_step (dp_plane d) op)
                     (dp_replica d) (dp_policies d)
  | DPolicy op => let '(fb, db) := bundle_step (dp_replica d, dp_policies d) op in
                  mkDeployment (dp_gateway d) (dp_grants d) (dp_keys d) (dp_plane d) fb db
  end.

(** The requests of a history that reached one surface. *)
Definition grant_requests (ops : list dop) : list Grants.admin_op :=
  omap (fun op => match op with DGrant o => Some o | _ => None end) ops.
Definition key_requests (ops : list dop) : list AgentKeys.key_op :=
  omap (fun op => match op with DKey o => Some o | _ => None end) ops.

(** * Projections of a history *)

Lemma submit_gateway d m gf s raw presented :
  let g := set_controls (ControlHandlers.pl_controls (dp_plane d)) (dp_gateway d) in
  let g' := fst (Submit chain unmarshal rfc3339nano duration_text cfg g (served d m gf s) raw presented) in
  dp_gateway (fst (submit d m gf s raw presented)) = g' /\
  ControlHandlers.pl_controls (dp_plane (fst (submit d m gf s raw presented))) = gw_controls g'.
Proof.
  unfold submit. cbv zeta. destruct (Submit _ _ _ _ _ _ _ _ _) as [g' answer].
  destruct (match Decode unmarshal raw with Ok _ => _ | Err _ => _ end). done.
Qed.

Lemma submit_keeps d m gf s raw presented :
  let d' := fst (submit d m gf s raw presented) in
  dp_grants d' = dp_grants d /\ dp_keys d' = dp_keys d.
Proof.
  unfold submit. destruct (Submit _ _ _ _ _ _ _ _ _) as [g' answer].
  destruct (Decode _ _); [destruct (asked_policy _); [destruct (policy_of d s _) as [[fb db] r]|]|]; done.
Qed.

Lemma run_grants ops d :
  dp_grants (run_ops dstep d ops) = run_ops admin_step (dp_grants d) (grant_requests ops).
Proof.
  revert d. induction ops as [|op ops IH]; intros d; [done|]. cbn [run_ops foldl]. unfold run_ops in IH.
  rewrite IH. destruct op as [m gf s raw presented|op|op|op|op]; cbn [dstep grant_requests omap].
  - by rewrite (proj1 (submit_keeps _ _ _ _ _ _)).
  - done.
  - done.
  - done.
  - by destruct (bundle_step _ _).
Qed.

Lemma run_key_steps ops d :
  dp_keys (run_ops dstep d ops) = run_ops key_step (dp_keys d) (key_requests ops).
Proof.
  revert d. induction ops as [|op ops IH]; intros d; [done|]. cbn [run_ops foldl]. unfold run_ops in IH.
  rewrite IH. destruct op as [m gf s raw presented|op|op|op|op]; cbn [dstep key_requests omap].
  - by rewrite (proj2 (submit_keeps _ _ _ _ _ _)).
  - done.
  - done.
  - done.
  - by destruct (bundle_step _ _).
Qed.

(** The policies stay attributed and the cached bundles enforceable. *)
Definition policies_ok (publisher : bytes_t) (d : Deployment) : Prop :=
  Bundles.attributed rfc3339 ActivationStore.Store.empty_tables (dp_policies d) /\
  Bundles.serves publisher (dp_replica d) (dp_policies d).

Lemma policies_step publisher d op : policies_ok publisher d -> policies_ok publisher (dstep d op).
Proof.
  unfold policies_ok. intros [Ha Hs]. destruct op as [m gf s raw presented|op|op|op|op]; cbn [dstep]; [|done..|].
  - unfold submit. destruct (Submit _ _ _ _ _ _ _ _ _) as [g' answer].
    destruct (Decode _ _) as [env|]; [destruct (asked_policy _)|]; [|done..].
    pose proof (Bundles.Active_ok rfc3339 format_rfc3339 unmarshal_bundle unmarshal_authorization
      ActivationStore.Store.empty_tables publisher s (dp_replica d) (dp_policies d) (env_TenantID env) Ha Hs) as H.
    unfold policy_of. destruct (Active _ _ _ _) as [[fb db] r]. by destruct H as (_ & ? & ? & _).
  - pose proof (Bundles.bundle_step_ok rfc3339 format_rfc3339 unmarshal_bundle unmarshal_authorization
      ActivationStore.Store.empty_tables publisher (dp_replica d, dp_policies d) op (conj Ha Hs)) as H.
    by destruct (bundle_step _ _) as [fb db].
Qed.

Lemma policies_run g publisher activations ops :
  policies_ok publisher (run_ops dstep (install g publisher activations) ops).
Proof.
  apply (run_ops_invariant dstep (policies_ok publisher)); [intros; by apply policies_step|].
  split.
  - apply Bundles.attributed_base.
  - split; [done|]. intros t b. cbn. by rewrite lookup_empty.
Qed.

(** ** What stood behind an order *)

Lemma allowed_as_issued g0 g env usage now :
  Grants.grant_succ g0 g -> Authority.d_Allowed (Authority.Evaluate (Some env) (Some g) usage now) = true ->
  g = g0.
Proof.
  intros [->|[_ (at_ & reason & ->)]]; [done|]. rewrite Grants.revoked_refuses; done.
Qed.

Lemma verified_key (db : Store.Tables) raw env at_ :
  VerifyEnvelopeSignature (Some db) raw (Some env) at_ = None ->
  exists row value canonical,
    Store.agent_keys db !! (env_TenantID env, ag_AgentID (env_Agent env), sig_KeyID (env_Signature env)) = Some row /\
    Store.r_status row <> "REVOKED" /\
    DecodeString (sig_Value (env_Signature env)) = Some value /\ SignedBytes raw = Some canonical /\
    verify (Store.r_public_key row) canonical value = true.
Proof.
  unfold VerifyEnvelopeSignature. destruct (_ || _); [done|]. destruct (negb _); [done|].
  destruct (lookup_key _ _ _ _) as [[k|]|] eqn:El; [|done..].
  destruct (KeyInForce k at_) eqn:Ef; [done|]. destruct (negb _); [done|].
  destruct (DecodeString _) as [value|]; [|done]. destruct (SignedBytes raw) as [canonical|]; [|done].
  destruct (verify _ _ _) eqn:Ev; [|done]. intros _.
  cbn [lookup_key postgres_keys] in El. unfold Store.AgentKeyOf, Store.withTenant in El.
  destruct (String.eqb _ ""); [done|]. cbn in El.
  destruct (Store.agent_keys db !! _) as [row|] eqn:Er; [|done]. injection El as <-.
  exists row, value, canonical. split_and!; try done. intros Hrev. unfold KeyInForce in Ef. cbn in Ef.
  rewrite Hrev in Ef. by destruct (match Store.r_revoked_at row with Some _ => _ | None => _ end).
Qed.

(** The people behind an order: the officer whose grant allows it, as issued; the
    customer whose signed authorization put the bundle that permits it in force; the
    registrar who bound the key that signed it. *)
Record Accountable (d : Deployment) (ops : list dop) (publisher : bytes_t) (m : Moment (K := Store.Tables))
    (s : Bundles.Surroundings) (raw : Doc) (env : Envelope) : Prop := {
  ac_grant : exists grant usage,
    Grants.issued_in chain decode_grant sv (grant_requests ops) (env_TenantID env) grant /\
    Authority.d_Allowed (Authority.Evaluate (Some env) (Some grant) usage (m_now m)) = true;
  ac_policy : exists bundle fb db n r, policy_of d s (env_TenantID env) = (fb, db, Ok bundle) /\
    Policy.pd_Action (Policy.Evaluate (Some bundle) (Some env) (m_now m)) ∈
      [Policy.ActionAllow; Policy.ActionObserve] /\
    Activation.VerifySignature bundle publisher = None /\ Policy.b_TenantID bundle = env_TenantID env /\
    ActivationStore.Store.activations db !! (env_TenantID env, n) = Some r /\
    ActivationStore.Store.a_bundle_content_hash r = Policy.b_ContentHash bundle /\
    Bundles.authorized_by rfc3339 db (env_TenantID env) n r;
  ac_key : exists row value canonical,
    AgentKeys.bound_in chain decode_key decode_key_revocation rfc3339nano sv
      (AgentKeys.mkKeys Store.empty_tables 0) (key_requests ops) (env_TenantID env)
      (ag_AgentID (env_Agent env)) (sig_KeyID (env_Signature env)) row /\
    DecodeString (sig_Value (env_Signature env)) = Some value /\ SignedBytes raw = Some canonical /\
    verify (Store.r_public_key row) canonical value = true
}.

Lemma mediated_accountable g0 publisher activations ops m gf s raw presented g env req g' :
  let d := run_ops dstep (install g0 publisher activations) ops in
  Mediated chain unmarshal cfg g (served d m gf s) raw presented env req g' ->
  Accountable d ops publisher m s raw env.
Proof.
  intros d [_ _ Hsig _ _ (grant & l' & [Hload Hal] & _) _ Hpol _ _ _].
  pose proof (policies_run g0 publisher activations ops) as [Hat Hserves]. fold d in Hat, Hserves.
  constructor.
  - cbn [served m_grants m_now] in Hload, Hal. unfold Grants.StoreGrants_Load in Hload.
    destruct (Grants.Store.Load _ _ _ _) as [g1|[]] eqn:El; [|done..]. injection Hload as <-.
    apply Grants.Load_fine in El as [El _]. unfold d in El. rewrite run_grants in El.
    apply Grants.grant_origin in El as (g2 & Hs & [Ho|Hi]); [cbn in Ho; by rewrite lookup_empty in Ho|].
    pose proof (allowed_as_issued _ _ _ _ _ Hs Hal) as ->. eauto.
  - destruct Hpol as (bundle & Hb & Hact). cbn [served m_policies m_now] in Hb, Hact.
    destruct (policy_of d s (env_TenantID env)) as [[fb db] [b|e]] eqn:Ep; [|done].
    cbn [snd] in Hb. injection Hb as <-.
    pose proof (Bundles.Active_ok rfc3339 format_rfc3339 unmarshal_bundle unmarshal_authorization
      ActivationStore.Store.empty_tables publisher s (dp_replica d) (dp_policies d) (env_TenantID env) Hat Hserves) as H.
    unfold policy_of in Ep. rewrite Ep in H. destruct H as (_ & Hat' & _ & Hb).
    destruct (Hb b eq_refl) as [Hsg Ht _ (n & r & Hr & Hh)].
    exists b, fb, db, n, r. split_and!; try done.
    destruct (Hat' _ _ _ Hr) as [H0|H]; [cbn in H0; by rewrite lookup_empty in H0 | exact H].
  - cbn [served m_keys m_now] in Hsig.
    apply verified_key in Hsig as (row & value & canonical & Hrow & Hst & Hv & Hc & Hver).
    unfold d in Hrow. rewrite run_key_steps in Hrow.
    apply AgentKeys.key_origin in Hrow as (row0 & Hsucc & [Ho|Hb]);
      [cbn in Ho; by rewrite lookup_empty in Ho|].
    assert (row = row0) as -> by (destruct Hsucc as [|(_ & at_ & by_ & ->)]; done).
    by exists row0, value, canonical.
Qed.

(** C1: Every order has people behind it.  Over any history of a gateway that starts with
    no grant, no key and no accepted policy, a submission changes the execution world,
    and so reaches the venue, only when the envelope it decodes to is allowed by a grant
    exactly as an officer whose credential may issue authority for that tenant issued
    it; is permitted by a bundle of that tenant, signed by the publisher, that a document
    signed with a key the tenant registered put in force; and is signed with a key that
    a registrar of the tenant bound to that agent. *)
Theorem every_order_has_people_behind_it (g : Gateway) (publisher : bytes_t) (activations : bool)
    (ops : list dop) (m : Moment (K := Store.Tables)) (gf : TxFault) (s : Bundles.Surroundings)
    (raw : Doc) (presented : Presented) :
  let d := run_ops dstep (install g publisher activations) ops in
  gw_world (dp_gateway (dstep d (DSubmit m gf s raw presented))) = gw_world (dp_gateway d) \/
  exists env, Decode unmarshal raw = Ok env /\ Accountable d ops publisher m s raw env.
Proof.
  intros d. cbn [dstep]. destruct (submit_gateway d m gf s raw presented) as [-> _].
  destruct (Submit_mediated chain unmarshal rfc3339nano duration_text cfg
    (set_controls (ControlHandlers.pl_controls (dp_plane d)) (dp_gateway d)) (served d m gf s) raw presented)
    as [H|(env & req & HM)]; [by left|]. right.
  exists env. split; [by destruct HM|]. by eapply mediated_accountable.
Qed.

(** * A control stops the orders in its scope *)

(** A caller that may issue authority for the tenant lifted the control. *)
Definition lifted (d : Deployment) (ops : list dop) (t id : string) : Prop :=
  exists ops1 op ops2, ops = ops1 ++ DControl op :: ops2 /\
    ControlHandlers.lifts chain unmarshal_lift rfc3339nano sv (dp_plane (run_ops dstep d ops1)) op t id.

Definition control_at (d : Deployment) (t id : string) : option Control.Control :=
  Control.Store.controls (ControlHandlers.pl_controls (dp_plane d)) !! (t, id).

Lemma control_kept d ops t id c :
  control_at d t id = Some c ->
  lifted d ops t id \/ control_at (run_ops dstep d ops) t id = Some c.
Proof.
  intros Hc. induction ops as [|op ops IH] using rev_ind; [by right|].
  destruct IH as [(ops1 & o & ops2 & -> & H)|IH].
  { left. exists ops1, o, (ops2 ++ [op]). split; [by rewrite <- app_assoc | done]. }
  rewrite run_ops_app. cbn [run_ops foldl]. fold (run_ops dstep d ops).
  set (d1 := run_ops dstep d ops) in *. unfold control_at in *.
  destruct op as [m gf s raw presented|op|op|op|op]; cbn [dstep dp_plane]; try by right.
  - right. destruct (submit_gateway d1 m gf s raw presented) as [_ ->].
    pose proof (Submit_control_rows chain unmarshal rfc3339nano duration_text cfg
      (set_controls (ControlHandlers.pl_controls (dp_plane d1)) (dp_gateway d1)) (served d1 m gf s) raw
      presented) as H. unfold control_rows in H. by rewrite H.
  - destruct (ControlHandlers.unlifted_step chain decode_control unmarshal_lift rfc3339nano sv
      (dp_plane d1) op t id c IH) as [H|H]; [|by right].
    left. exists ops, op, []. split; [done|]. exact H.
  - right. by destruct (bundle_step _ _).
Qed.

(** C6: A control stops the orders in its scope.  Once the authorization of a control that
    is no throttle is answered Created, then whatever requests, submissions and failures
    follow, either a caller that may issue authority for the tenant lifted it, or before
    its expiry no submission of an order in its scope changes the execution world. *)
Theorem a_control_stops_the_venue (d : Deployment) (mo : ControlHandlers.Moment) (r : Request)
    (ops : list dop) :
  p_Controls cfg = true ->
  rp_Status (snd (ControlHandlers.IssueControlHandler chain decode_control rfc3339nano sv mo
    (dp_plane d) r)) = StatusCreated ->
  let d1 := dstep d (DControl (ControlHandlers.OIssueControl mo r)) in
  let d2 := run_ops dstep d1 ops in
  exists t q c, callerTenant chain sv (ControlHandlers.mo_clock mo) r = Ok t /\
    ControlHandlers.authorized_by chain decode_control sv mo r (dp_plane d) t q c /\
    (lifted d1 ops t (Control.c_ControlID c) \/
     forall m gf s raw presented env,
       Decode unmarshal raw = Ok env -> env_TenantID env = t -> Control.covers c env = true ->
       Control.c_Action c <> Control.ControlThrottle ->
       Before (m_now m) (ControlHandlers.cq_ExpiresAt q) = true ->
       gw_world (dp_gateway (dstep d2 (DSubmit m gf s raw presented))) = gw_world (dp_gateway d2)).
Proof.
  intros Hcfg Hs d1 d2.
  destruct (ControlHandlers.issue_created chain decode_control unmarshal_lift rfc3339nano sv mo (dp_plane d) r Hs)
    as (t & q & c & Ht & Ha & Hk).
  exists t, q, c. split_and!; [done..|].
  destruct (control_kept d1 ops t (Control.c_ControlID c) c Hk) as [Hl|Hc]; [by left|]. right.
  intros m gf s raw presented env Hdec Hten Hcov Hact Hnow. cbn [dstep].
  destruct (submit_gateway d2 m gf s raw presented) as [-> _].
  destruct (Submit_mediated chain unmarshal rfc3339nano duration_text cfg
    (set_controls (ControlHandlers.pl_controls (dp_plane d2)) (dp_gateway d2)) (served d2 m gf s) raw presented)
    as [H|(env' & req & HM)]; [done|]. exfalso.
  destruct HM as [Hdec' _ _ _ _ _ Hctl _ _ _ _]. rewrite Hdec in Hdec'. injection Hdec' as <-.
  destruct (Hctl Hcfg) as (inForce & Hin & Hal & _). cbn [served m_controls m_now set_controls gw_controls] in Hin, Hal.
  destruct Ha as (caller & raw' & cohort & _ & _ & _ & _ & _ & Hq & _ & _ & ->).
  apply callerTenant_ok in Ht as (_ & Hne & _).
  destruct (ControlHandlers.row_binds _ t q cohort (ControlHandlers.mo_clock mo 4%nat) (m_now m) env Hne Hq Hc
    Hnow Hcov) as (cs & Hcs & Hstop).
  apply String.eqb_neq in Hact. rewrite Hact in Hstop. rewrite Hten in Hin.
  destruct (m_controls m); [fold d2 in Hcs; rewrite Hcs in Hin; injection Hin as <-; congruence|].
  unfold Control.Store.InForce, Control.Store.withTenant in Hin.
  by destruct (String.eqb_spec t "").
Qed.
End Deployment.

(** * A deployment *)

#[local] Instance demo_crypto : Crypto := toy_crypto.
#[local] Instance demo_json : Evidence.JSON := Evidence.toy_json.
#[local] Existing Instance Usage.memory_reserver.

Definition operators : Server (Pool := unit) :=
  mkServer (Some {[ "token-1" := mkCaller "officer" "tenant-1" true true true ]}) None.
Definition post (body : string) : Request := mkRequest "Bearer token-1" "" [] (Some body) "".

Definition demo_decode_grant (_ : string) : result Grants.grantRequest string :=
  Ok (Grants.mkGrantRequest "grant-1" "p-1" "acct-1" "momentum" "officer" 0 1000000 ["buy"; "sell"]
        ["equity"] [] [] 150000000 150000000 0 0 None None).

(** READ_ONLY for the agent momentum, until 1000. *)
Definition demo_decode_halt (_ : string) : result ControlHandlers.controlRequest string :=
  Ok (ControlHandlers.mkControlRequest "ctl-1" "inc-1" "READ_ONLY" "momentum" [] "" "agent" "officer"
        "bundle-1" "herding" 1000 0 0).

Local Abbreviation demo_dstep := (dstep any_chain Scenarios.decode_desk Scenarios.text_of Scenarios.text_of
  Activation.toy_rfc3339 fmt_d demo_decode_grant Grants.demo_decode_revocation
  AgentKeys.demo_decode_key AgentKeys.demo_decode_revocation demo_decode_halt
  ControlHandlers.demo_unmarshal_lift Bundles.demo_unmarshal_bundle Bundles.demo_unmarshal_authorization
  operators Scenarios.desk).

Definition empty_desk : Deployment :=
  install (Scenarios.desk_gateway FakeBroker.New) Bundles.demo_publisher true.

(** An officer issues a grant, a registrar binds the agent's key, and the customer's
    first activation key is on record. *)
Definition opening : list dop :=
  [DGrant (Grants.OIssue (Grants.at_noon 10) (post "grant"));
   DKey (AgentKeys.ORegisterKey (AgentKeys.at_noon 10) (post "k1"));
   DPolicy (Bundles.BOther (ActivationStore.SRegisterAuthorized Fine 1
     (ActivationStore.toy_key "k-1" 1) "n-0" ActivationStore.Store.BootstrapAction "op" "" 1
     (ActivationStore.toy_event "tenant-1_n-0" "policy.activation_key.registered.v1") 1))].

Definition opened := run_ops demo_dstep empty_desk opening.

Definition at_fifty := Scenarios.moment Scenarios.roomy Fine Fine 50.
Definition policy_files := Bundles.demo_surroundings Bundles.nobody.
Definition first_submission : dop :=
  DSubmit at_fifty Fine policy_files (Scenarios.body_of Scenarios.first_order) (Scenarios.caller "tenant-1").

Example opened_desk_trades :
  Scenarios.orders_at (dp_gateway opened) "coid-key-1" = None /\
  Scenarios.orders_at (dp_gateway (demo_dstep opened first_submission)) "coid-key-1" =
    Some (StateAccepted, "fake-000001").
Proof. split; vm_compute; reflexivity. Qed.

Example every_order_has_people_behind_it_witness :
  exists env, Decode Scenarios.decode_desk (Scenarios.body_of Scenarios.first_order) = Ok env /\
    Accountable any_chain Scenarios.text_of Activation.toy_rfc3339 fmt_d demo_decode_grant
      AgentKeys.demo_decode_key AgentKeys.demo_decode_revocation Bundles.demo_unmarshal_bundle
      Bundles.demo_unmarshal_authorization operators opened opening Bundles.demo_publisher at_fifty
      policy_files (Scenarios.body_of Scenarios.first_order) env.
Proof.
  destruct (every_order_has_people_behind_it any_chain Scenarios.decode_desk Scenarios.text_of
    Scenarios.text_of Activation.toy_rfc3339 fmt_d demo_decode_grant Grants.demo_decode_revocation
    AgentKeys.demo_decode_key AgentKeys.demo_decode_revocation demo_decode_halt
    ControlHandlers.demo_unmarshal_lift Bundles.demo_unmarshal_bundle
    Bundles.demo_unmarshal_authorization operators Scenarios.desk
    (Scenarios.desk_gateway FakeBroker.New) Bundles.demo_publisher true opening at_fifty Fine policy_files
    (Scenarios.body_of Scenarios.first_order) (Scenarios.caller "tenant-1")) as [H|H]; [|exact H].
  exfalso. apply (f_equal (fun w => FakeBroker.fb_orders (w_venue w) !! "coid-key-1")) in H.
  vm_compute in H. discriminate H.
Defined.

(** The same desk, with an incident for which the fleet engine recommended a control. *)
Definition warned : Deployment :=
  mkDeployment (dp_gateway opened) (dp_grants opened) (dp_keys opened) ControlHandlers.recommended_plane
    (dp_replica opened) (dp_policies opened).
Definition halt : dop := DControl (ControlHandlers.OIssueControl (ControlHandlers.moment 40) (post "halt")).

Example a_control_stops_the_venue_witness :
  gw_world (dp_gateway (demo_dstep (demo_dstep warned halt) first_submission)) =
  gw_world (dp_gateway (demo_dstep warned halt)).
Proof.
  destruct (a_control_stops_the_venue any_chain Scenarios.decode_desk Scenarios.text_of
    Scenarios.text_of Activation.toy_rfc3339 fmt_d demo_decode_grant Grants.demo_decode_revocation
    AgentKeys.demo_decode_key AgentKeys.demo_decode_revocation demo_decode_halt
    ControlHandlers.demo_unmarshal_lift Bundles.demo_unmarshal_bundle
    Bundles.demo_unmarshal_authorization operators Scenarios.desk warned (ControlHandlers.moment 40)
    (post "halt") [] eq_refl ltac:(vm_compute; reflexivity))
    as (t & q & c & Ht & (caller & raw & cohort & _ & _ & _ & _ & Hdec & _ & _ & _ & Hc) & [Hl|Hstop]).
  { exfalso. destruct Hl as ([|] & op & ops2 & H & _); discriminate H. }
  assert (Ht' : callerTenant any_chain operators (ControlHandlers.mo_clock (ControlHandlers.moment 40))
    (post "halt") = Ok "tenant-1") by (vm_compute; reflexivity).
  rewrite Ht' in Ht. injection Ht as <-. injection Hdec as <-.
  destruct (Decode Scenarios.decode_desk (Scenarios.body_of Scenarios.first_order)) as [env|e] eqn:Ed;
    [|vm_compute in Ed; discriminate Ed].
  assert (Henv : option_map (fun e => (env_TenantID e, ag_AgentID (env_Agent e)))
    (match Decode Scenarios.decode_desk (Scenarios.body_of Scenarios.first_order) with
     | Ok e => Some e | Err _ => None end) = Some ("tenant-1", "momentum")) by (vm_compute; reflexivity).
  rewrite Ed in Henv. injection Henv as H1 H2.
  apply (Hstop at_fifty Fine policy_files _ (Scenarios.caller "tenant-1") env Ed H1).
  - rewrite Hc. unfold Control.covers. cbn [Control.Store.stored ControlHandlers.asked_control
      Control.c_AgentID Control.c_AgentIDs Control.c_AccountID ControlHandlers.cq_AgentID
      ControlHandlers.cq_AgentIDs ControlHandlers.cq_AccountID]. rewrite H2. vm_compute. reflexivity.
  - rewrite Hc. vm_compute. discriminate.
  - vm_compute. reflexivity.
Defined.
