(* ===== verification/Submission.v ===== *)
(** Submitting an intent and asking about it: internal/gateway/http.go ([SubmitHandler],
    [statusFor], [submitBody]), intents.go ([IntentStatusHandler], [refusalFor]) and
    intent_list.go, over [RecentAggregates] of internal/evidence/store.go.

    The handlers put the pipeline's result into a status and a body, look an intent's
    outcome up in the execution store, and fold a tenant's recent evidence into one
    entry per intent.  Texts written for people are left out of the bodies. *)

From S2P Require Import Prelude Strings Money Intent Execution Broker CanonicalJSON Crypto Identity Http Pipeline.
From S2P Require Authority Usage Evidence Control Policy Incident Scenarios.

(** * The answer to a submission *)

Definition statusFor (r : Result) : Z :=
  if rs_Accepted r then StatusOK
  else if String.eqb (rs_Code r) "OUTCOME_UNKNOWN" then StatusAccepted
  else if String.eqb (rs_Stage r) StageValidation then StatusBadRequest
  else if String.eqb (rs_Stage r) StageIdentity then StatusUnauthorized
  else if String.eqb (rs_Stage r) StageExecution then StatusUnprocessableEntity
  else StatusForbidden.

Section Bodies.
Context (rfc3339nano : Time -> string).

Definition matched_rule (o : Policy.RuleOutcome) : Evidence.Value :=
  Evidence.VObject [("RuleID", Evidence.VString (Policy.ro_RuleID o));
                    ("Action", Evidence.VString (Policy.ro_Action o))].

Definition submitBody (r : Result) : list (string * Evidence.Value) :=
  [("accepted", Evidence.VBool (rs_Accepted r)); ("stage", Evidence.VString (rs_Stage r));
   ("code", Evidence.VString (rs_Code r)); ("envelope_id", Evidence.VString (rs_EnvelopeID r));
   ("correlation_id", Evidence.VString (rs_CorrelationID r));
   ("replayed", Evidence.VBool (rs_Replayed r));
   ("decided_at", Evidence.VString (rfc3339nano (rs_DecidedAt r)))] ++
  (if (0 <? length (rs_Details r))%nat then [("details", Evidence.VList (rs_Details r))] else []) ++
  match rs_Attested r with
  | Some a => if str_nonempty (a_Level a) then [("attestation_level", Evidence.VString (a_Level a))] else []
  | None => []
  end ++
  match rs_Policy r with
  | Some d => [("policy", Evidence.VObject
      [("action", Evidence.VString (Policy.pd_Action d)); ("bundle_id", Evidence.VString (Policy.pd_BundleID d));
       ("bundle_hash", Evidence.VString (Policy.pd_ContentHash d));
       ("decided_by", Evidence.VString (Policy.pd_DecidedBy d));
       ("matched_rules", Evidence.VArray (map matched_rule (Policy.pd_MatchedRules d)))])]
  | None => []
  end ++
  match rs_Authority r with
  | Some d => [("authority", Evidence.VObject
      [("allowed", Evidence.VBool (Authority.d_Allowed d)); ("grant_id", Evidence.VString (Authority.d_GrantID d));
       ("code", Evidence.VString (Authority.d_Code d))])]
  | None => []
  end ++
  match rs_Outcome r with
  | Some o => [("order", Evidence.VObject
      [("state", Evidence.VString (oc_State o)); ("client_order_id", Evidence.VString (oc_ClientOrderID o));
       ("broker_order_id", Evidence.VString (oc_BrokerOrderID o));
       ("filled_quantity", Evidence.VFloat (oc_FilledQuantity o));
       ("reject_reason", Evidence.VString (oc_RejectReason o))])]
  | None => []
  end.
End Bodies.

Section Submitting.
Context {C : Crypto} {HJ : Evidence.JSON}.
Context {K L S V Pool : Type} `{HK : KeySource K, HU : Usage.Reserver L, HS : IdemStore S, HV : Adapter V}.
Context (chain : Pool -> list Certificate -> Certificate -> Time -> option X509Error).
(** The body's text as a document, and as an envelope *)
Context (parse : string -> option Doc).
Context (unmarshal : Doc -> Prelude.result Envelope string).
Context (rfc3339nano duration_text : Z -> string).

(** [Pipeline.Submit] of a text; one that is not JSON is refused by [intent.Decode]. *)
Definition SubmitText (cfg : Config (Pool := Pool)) (g : Gateway (L := L) (S := S) (V := V))
    (m : Moment (K := K)) (text : string) (presented : Presented)
    : Gateway (L := L) (S := S) (V := V) * option Result :=
  match parse text with
  | Some raw => Submit chain unmarshal rfc3339nano duration_text cfg g m raw presented
  | None => (g, Some (refuse StageValidation "ENVELOPE_INVALID" [mkVE "" "ENVELOPE_MALFORMED"] (m_now m)))
  end.

(** [None] is a process that died before it could answer. *)
Definition SubmitHandler (cfg : Config (Pool := Pool)) (creds : option Credentials)
    (g : Gateway (L := L) (S := S) (V := V)) (m : Moment (K := K)) (r : Request)
    : Gateway (L := L) (S := S) (V := V) * option Response :=
  match rq_Body r with
  | None => (g, Some (errorBody StatusBadRequest "the request body could not be read"))
  | Some body =>
      if (MaxEnvelopeBytes <? String.length body)%nat then
        (g, Some (errorBody StatusRequestEntityTooLarge "the envelope exceeds the maximum accepted size"))
      else
        let '(g, result) := SubmitText cfg g m body (presentedFrom r creds) in
        (g, (fun x => mkResponse (statusFor x) (BFields (submitBody rfc3339nano x))) <$> result)
  end.

(** ** What the status says *)

Lemma SubmitText_late cfg g m text presented g' r :
  SubmitText cfg g m text presented = (g', Some r) -> gw_world g' = gw_world g \/ late r.
Proof.
  unfold SubmitText. destruct (parse text); [apply Submit_late|]. intros [= <- _]. by left.
Qed.

Lemma SubmitText_ok cfg g m text presented g' r :
  su_crash (m_execution m) = false ->
  SubmitText cfg g m text presented = (g', Some r) -> ResultOk r.
Proof.
  intros Hc. unfold SubmitText. destruct (parse text) as [raw|].
  - intros H. pose proof (run_yields chain unmarshal rfc3339nano duration_text cfg m raw presented Hc
      (mkCall g [] 0)) as Hy. unfold Submit in H.
    destruct (run _ _ _ _ _ _ _ _ _) as [c [x|x|]]; simplify_eq; done.
  - intros H. simplify_eq. constructor; [done|]. intros _. left. by apply (bool_decide_unpack _).
Qed.

(** C25: The status carries the decision.  Unless the process dies inside the execution
    service a request is answered, with one of seven statuses.  200 comes with an outcome
    that is not a rejection; after 400, 401 and 413 the execution world, and so the venue,
    is as it was; and so it is after 403 unless the answer carries the venue's own
    rejection. *)
Theorem status_carries_the_decision (cfg : Config) (creds : option Credentials) (g : Gateway)
    (m : Moment) (r : Request) :
  su_crash (m_execution m) = false ->
  exists answer, snd (SubmitHandler cfg creds g m r) = Some answer /\
    let g' := fst (SubmitHandler cfg creds g m r) in
    let carries (P : Result -> Outcome -> Prop) := exists x o,
      rp_Body answer = BFields (submitBody rfc3339nano x) /\ rs_Outcome x = Some o /\ P x o in
    rp_Status answer ∈ [StatusOK; StatusAccepted; StatusBadRequest; StatusUnauthorized; StatusForbidden;
                        StatusRequestEntityTooLarge; StatusUnprocessableEntity] /\
    (rp_Status answer = StatusOK ->
       carries (fun x o => rs_Accepted x = true /\ oc_State o <> StateRejected)) /\
    (rp_Status answer ∈ [StatusBadRequest; StatusUnauthorized; StatusRequestEntityTooLarge] ->
       gw_world g' = gw_world g) /\
    (rp_Status answer = StatusForbidden ->
       gw_world g' = gw_world g \/ carries (fun _ o => oc_State o = StateRejected)).
Proof.
  intros Hc. unfold SubmitHandler.
  destruct (rq_Body r) as [body|]; [|eexists; split; [done|]; by split_and!; [set_solver|..]].
  destruct (_ <? _)%nat; [eexists; split; [done|]; by split_and!; [set_solver|..]|].
  pose proof (fun g' x => SubmitText_late cfg g m body (presentedFrom r creds) g' x) as Hl.
  pose proof (fun g' x => SubmitText_ok cfg g m body (presentedFrom r creds) g' x Hc) as Hok.
  assert (Hn : snd (SubmitText cfg g m body (presentedFrom r creds)) <> None).
  { unfold SubmitText. destruct (parse body) as [raw|]; [|done].
    pose proof (run_yields chain unmarshal rfc3339nano duration_text cfg m raw (presentedFrom r creds) Hc
      (mkCall g [] 0)) as Hy. unfold Submit. by destruct (run _ _ _ _ _ _ _ _ _) as [c [x|x|]]. }
  destruct (SubmitText cfg g m body (presentedFrom r creds)) as [g' [x|]]; [|done].
  specialize (Hl g' x eq_refl). specialize (Hok g' x eq_refl). clear Hn. cbn [snd fst].
  eexists. split; [reflexivity|]. cbn [rp_Status rp_Body]. unfold statusFor.
  destruct (rs_Accepted x) eqn:Ea.
  { split_and!; [set_solver| |set_solver|done]. intros _.
    destruct (ro_accepted _ Hok Ea) as [(o & Ho & Hs) _]. by exists x, o. }
  destruct (String.eqb_spec (rs_Code x) "OUTCOME_UNKNOWN"); [split_and!; [set_solver|done|set_solver|done]|].
  assert (Hw : rs_Stage x <> "" -> rs_Stage x <> StageExecution -> gw_world g' = gw_world g).
  { intros H1 H2. destruct Hl as [|Hl]; [done|]. unfold late in Hl. set_solver. }
  destruct (String.eqb_spec (rs_Stage x) StageValidation) as [Es|]; [rewrite Es in Hw; split_and!; [set_solver|done| |done]; intros _; by apply Hw|].
  destruct (String.eqb_spec (rs_Stage x) StageIdentity) as [Es|]; [rewrite Es in Hw; split_and!; [set_solver|done| |done]; intros _; by apply Hw|].
  destruct (String.eqb_spec (rs_Stage x) StageExecution) as [Es|Hne]; [split_and!; [set_solver|done|set_solver|done]|].
  split_and!; [set_solver|done|set_solver|]. intros _.
  destruct (String.eqb_spec (rs_Stage x) "") as [Es|]; [right|left; by apply Hw].
  destruct (ro_refused _ Hok Ea) as [Hst|(_ & _ & o & Ho & Hr)]; [|by exists x, o].
  rewrite Es in Hst. by apply (bool_decide_pack _) in Hst.
Qed.
End Submitting.

(** * One intent *)

Section Reading.
Context {HJ : Evidence.JSON}.
Context {Pool : Type} (chain : Pool -> list Certificate -> Certificate -> Time -> option X509Error).
Context (rfc3339nano : Time -> string).
Context (sv : Server (Pool := Pool)).

Record Moment := mkMoment {
  mo_clock : nat -> Time;
  mo_load : TxFault;
  mo_read : TxFault;
  mo_store : bool;
  mo_decisions : bool
}.

(** One event of the chain a refusal reports. *)
Definition refusal_entry (e : Evidence.Event) : Evidence.Value :=
  Evidence.VObject
    ([("event_name", Evidence.VString (Evidence.ev_EventName e));
      ("occurred_at", Evidence.VString (rfc3339nano (Evidence.ev_OccurredAt e)))] ++
     omap (fun k => pair k <$> Incident.payload_get (Evidence.ev_Payload e) k)
       ["code"; "reason"; "action"; "control"; "established"]).

Definition refusalFor (m : Moment) (ev : Evidence.Tables) (tenantID envelopeID : string)
    : option (list (string * Evidence.Value)) :=
  if negb (mo_decisions m) then None else
  match Evidence.ByAggregate (mo_read m) ev tenantID envelopeID with
  | Err _ | Ok [] => None
  | Ok events => Some
      [("envelope_id", Evidence.VString envelopeID); ("tenant_id", Evidence.VString tenantID);
       ("state", Evidence.VString "NOT_EXECUTED"); ("executed", Evidence.VBool false);
       ("chain", Evidence.VArray (map refusal_entry events))]
  end.

Definition state_text (s : RecordState) : string :=
  match s with RecordPending => "PENDING" | RecordResolved => "RESOLVED" end.

Definition record_body (rec : IdemRecord) : list (string * Evidence.Value) :=
  [("envelope_id", Evidence.VString (rc_EnvelopeID rec)); ("tenant_id", Evidence.VString (rc_TenantID rec));
   ("idempotency_key", Evidence.VString (rc_IdempotencyKey rec));
   ("client_order_id", Evidence.VString (rc_ClientOrderID rec));
   ("state", Evidence.VString (state_text (rc_State rec)));
   ("created_at", Evidence.VString (rfc3339nano (rc_CreatedAt rec)));
   ("updated_at", Evidence.VString (rfc3339nano (rc_UpdatedAt rec)))] ++
  match rc_State rec with
  | RecordResolved => [("outcome", Evidence.VObject
      [("state", Evidence.VString (oc_State (rc_Outcome rec)));
       ("broker_order_id", Evidence.VString (oc_BrokerOrderID (rc_Outcome rec)));
       ("filled_quantity", Evidence.VFloat (oc_FilledQuantity (rc_Outcome rec)));
       ("reject_reason", Evidence.VString (oc_RejectReason (rc_Outcome rec)))])]
  | RecordPending => []
  end.

Definition IntentStatusHandler (m : Moment) (db : Postgres.Tables) (ev : Evidence.Tables) (r : Request)
    : Response :=
  match callerTenant chain sv (mo_clock m) r with
  | Err answer => answer
  | Ok tenant =>
      let id := TrimSpace (rq_PathID r) in
      if String.eqb id "" then errorBody StatusBadRequest "an envelope id is required" else
      if negb (mo_store m) then errorBody StatusServiceUnavailable "no execution store" else
      match Postgres.LoadByEnvelope (mo_load m) db tenant id with
      | Err _ => errorBody StatusInternalServerError "the intent could not be read"
      | Ok (Some rec) => mkResponse StatusOK (BFields (record_body rec))
      | Ok None =>
          match refusalFor m ev tenant id with
          | Some refusal => mkResponse StatusOK (BFields refusal)
          | None => errorBody StatusNotFound "no such intent"
          end
      end
  end.

(** * The recent intents *)

Definition is_received (tenantID : string) (since : Time) (e : Evidence.Event) : bool :=
  String.eqb (Evidence.ev_TenantID e) tenantID &&
  String.eqb (Evidence.ev_EventName e) Evidence.IntentReceived && (since <=? Evidence.ev_OccurredAt e).

Definition effective_limit (limit : Z) : nat :=
  Z.to_nat (if (limit <=? 0) || (200 <? limit) then 50 else limit).

(** ORDER BY v.received_at DESC, e.occurred_at ASC, e.sequence ASC, e.event_id ASC. *)
Definition recent_before (a b : Time * Evidence.Event) : bool :=
  if fst a =? fst b then Evidence.event_before (snd a) (snd b) else fst b <? fst a.

(** The join of the newest receipts with the events of their aggregates. *)
Definition recent (rows : list Evidence.Event) (tenantID : string) (since : Time) (limit : Z)
    : list Evidence.Event :=
  let envelopes := take (effective_limit limit)
    (stable_sort (fun a b => Evidence.ev_OccurredAt b <? Evidence.ev_OccurredAt a)
       (List.filter (is_received tenantID since) rows)) in
  let joined := flat_map (fun v =>
    map (pair (Evidence.ev_OccurredAt v))
      (List.filter (fun e => String.eqb (Evidence.ev_TenantID e) tenantID &&
                             String.eqb (Evidence.ev_AggregateID e) (Evidence.ev_AggregateID v)) rows))
    envelopes in
  map snd (stable_sort recent_before joined).

Definition RecentAggregates (f : TxFault) (db : Evidence.Tables) (tenantID : string) (since : Time)
    (limit : Z) : Prelude.result (list Evidence.Event) Evidence.EvidenceError :=
  snd (Evidence.withTenant f db tenantID (fun db =>
    (db, Ok (recent (map (fun '(k, r) => Evidence.event_of k r) (map_to_list (Evidence.events db)))
               tenantID since limit)))).

(** One entry of the list. *)
Record Entry := mkEntry {
  en_EnvelopeID : string;
  en_CorrelationID : string;
  en_ReceivedAt : Time;
  en_Events : list string;
  en_LastEvent : string;
  en_LastAt : Time;
  en_Copied : gmap string Evidence.Value
}.

Definition fresh_entry (e : Evidence.Event) : Entry :=
  mkEntry (Evidence.ev_AggregateID e) (Evidence.ev_CorrelationID e) (Evidence.ev_OccurredAt e) [] "" 0 ∅.

Definition empty_text (v : Evidence.Value) : bool :=
  match v with Evidence.VString s => String.eqb s "" | _ => false end.

Definition copyPayload (e : Evidence.Event) (keys : list string) (m : gmap string Evidence.Value)
    : gmap string Evidence.Value :=
  foldl (fun m k => match Incident.payload_get (Evidence.ev_Payload e) k with
                    | Some v => if empty_text v then m else <[k := v]> m
                    | None => m
                    end) m keys.

(** The fields an event adds. *)
Definition copied_keys (name : Evidence.EventName) : list string :=
  if String.eqb name Evidence.IntentReceived then ["instrument_id"; "side"; "order_type"]
  else if String.eqb name Evidence.AuthorityEvaluated then ["code"; "grant_id"]
  else if String.eqb name Evidence.PolicyEvaluated then ["action"; "decided_by"]
  else if String.eqb name Evidence.ControlEnforced then ["control"; "control_id"]
  else if contains ["broker.order.submitted.v1"; Evidence.OrderAccepted; Evidence.OrderFilled;
                    Evidence.OrderRejected; Evidence.OrderUnknown] name
  then ["broker_order_id"; "state"; "reason"]
  else [].

Definition add_event (en : Entry) (e : Evidence.Event) : Entry :=
  mkEntry (en_EnvelopeID en) (en_CorrelationID en) (en_ReceivedAt en)
    (en_Events en ++ [Evidence.ev_EventName e]) (Evidence.ev_EventName e) (Evidence.ev_OccurredAt e)
    (copyPayload e (copied_keys (Evidence.ev_EventName e)) (en_Copied en)).

(** [order] and [byEnvelope]. *)
Definition summarise_event (x : list string * gmap string Entry) (e : Evidence.Event)
    : list string * gmap string Entry :=
  let '(order, byEnvelope) := x in
  let id := Evidence.ev_AggregateID e in
  match byEnvelope !! id with
  | Some en => (order, <[id := add_event en e]> byEnvelope)
  | None => (order ++ [id], <[id := add_event (fresh_entry e) e]> byEnvelope)
  end.

Definition summariseIntents (chain : list Evidence.Event) : list Entry :=
  let '(order, byEnvelope) := foldl summarise_event ([], ∅) chain in
  omap (fun id => byEnvelope !! id) order.

Definition Atoi (s : string) : option Z :=
  let '(negative, digits) := parse_sign s in
  if String.eqb digits "" || negb (str_forall is_digit digits) then None
  else let v := digits_val 0 digits in
       if negative then (if v <=? - min_int64 then Some (- v) else None) else ParseInt digits.

(** A positive number, or what stands without one. *)
Definition positive_or (text : string) (fallback : Z) (unit : Z) : Z :=
  match Atoi text with
  | Some n => if 0 <? n then wrap64 (n * unit) else fallback
  | None => fallback
  end.

(** [limit] and [hours] are the query's; the answer is the instant the list starts at and
    the entries. *)
Definition IntentListHandler (m : Moment) (ev : Evidence.Tables) (r : Request) (limit hours : string)
    : Prelude.result (Time * list Entry) Response :=
  match callerTenant chain sv (mo_clock m) r with
  | Err answer => Err answer
  | Ok tenant =>
      if negb (mo_store m) then Err (errorBody StatusServiceUnavailable "no evidence store") else
      let since := TimeAdd (mo_clock m 4%nat) (wrap64 (- positive_or hours (24 * Hour) Hour)) in
      match RecentAggregates (mo_read m) ev tenant since (positive_or limit 50 1) with
      | Err _ => Err (errorBody StatusInternalServerError "the intents could not be read")
      | Ok events => Ok (since, summariseIntents events)
      end
  end.
End Reading.

(** ** The list, as a grouping *)

(** The identifiers in the order they first occur. *)
Definition first_seen (ids : list string) : list string := reverse (remove_dups (reverse ids)).

Definition events_of (chain : list Evidence.Event) (id : string) : list Evidence.Event :=
  List.filter (fun e => String.eqb (Evidence.ev_AggregateID e) id) chain.

(** The entry of an intent, from its own events alone. *)
Definition summary (id : string) (own : list Evidence.Event) : Entry :=
  mkEntry id (from_option Evidence.ev_CorrelationID "" (head own))
    (from_option Evidence.ev_OccurredAt 0 (head own)) (map Evidence.ev_EventName own)
    (from_option Evidence.ev_EventName "" (last own)) (from_option Evidence.ev_OccurredAt 0 (last own))
    (foldl (fun m e => copyPayload e (copied_keys (Evidence.ev_EventName e)) m) ∅ own).

Lemma first_seen_snoc ids id :
  first_seen (ids ++ [id]) = if decide (id ∈ ids) then first_seen ids else first_seen ids ++ [id].
Proof.
  unfold first_seen. rewrite reverse_snoc. cbn [remove_dups].
  destruct (decide_rel _ id (reverse ids)) as [H|H]; rewrite elem_of_reverse in H;
    destruct (decide (id ∈ ids)); try done. by rewrite reverse_cons.
Qed.

Lemma first_seen_in ids id : id ∈ first_seen ids <-> id ∈ ids.
Proof. unfold first_seen. by rewrite elem_of_reverse, elem_of_remove_dups, elem_of_reverse. Qed.

Lemma events_of_snoc chain e id :
  events_of (chain ++ [e]) id =
  events_of chain id ++ if String.eqb (Evidence.ev_AggregateID e) id then [e] else [].
Proof. unfold events_of. rewrite List.filter_app. cbn. by destruct (String.eqb _ _). Qed.

Lemma events_of_nil chain id : events_of chain id = [] <-> id ∉ map Evidence.ev_AggregateID chain.
Proof.
  unfold events_of. induction chain as [|e chain IH]; cbn; [split; [intros _; apply not_elem_of_nil|done]|].
  rewrite not_elem_of_cons. destruct (String.eqb_spec (Evidence.ev_AggregateID e) id) as [<-|Hne].
  - split; [done | by intros []].
  - rewrite IH. split; [by split | by intros []].
Qed.

Lemma add_event_summary id own e :
  own <> [] -> add_event (summary id own) e = summary id (own ++ [e]).
Proof.
  intros Hne. unfold add_event, summary. cbn.
  rewrite map_app, last_snoc, foldl_app. destruct own; [done|]. reflexivity.
Qed.

Lemma summarised chain :
  let '(order, byEnvelope) := foldl summarise_event ([], ∅) chain in
  order = first_seen (map Evidence.ev_AggregateID chain) /\
  forall id, byEnvelope !! id =
    if decide (id ∈ map Evidence.ev_AggregateID chain) then Some (summary id (events_of chain id)) else None.
Proof.
  induction chain as [|e chain IH] using rev_ind; [split; [done|]; intros id; by rewrite lookup_empty|].
  rewrite foldl_app. destruct (foldl summarise_event ([], ∅) chain) as [order byEnvelope].
  destruct IH as [-> Hm]. cbn [foldl summarise_event]. set (a := Evidence.ev_AggregateID e).
  rewrite map_app. cbn [map]. fold a. rewrite first_seen_snoc. pose proof (Hm a) as Ha.
  assert (Hother : forall x id, id <> a ->
    (<[a := x]> byEnvelope) !! id =
    if decide (id ∈ map Evidence.ev_AggregateID chain ++ [a])
    then Some (summary id (events_of (chain ++ [e]) id)) else None).
  { intros x id Hne. rewrite lookup_insert_ne by done. rewrite Hm, events_of_snoc.
    destruct (String.eqb_spec (Evidence.ev_AggregateID e) id); [exfalso; by apply Hne|]. rewrite app_nil_r.
    repeat case_decide; set_solver. }
  assert (Hin : a ∈ map Evidence.ev_AggregateID chain ++ [a]) by (apply elem_of_app; right; by left).
  destruct (decide (a ∈ map Evidence.ev_AggregateID chain)) as [Hseen|Hnew]; rewrite Ha;
    (split; [done|]; intros id; destruct (decide (id = a)) as [->|Hne]; [|by apply Hother];
     rewrite lookup_insert_eq; rewrite decide_True by done; f_equal; rewrite events_of_snoc;
     fold a; rewrite String.eqb_refl).
  - apply add_event_summary. by intros H%events_of_nil.
  - apply events_of_nil in Hnew. by rewrite Hnew.
Qed.

(** The list of intents summarises nothing away: it has one entry for each intent of
    the events it is given, in the order in which the first event of each comes, and the
    entry is made of that intent's own events alone: all their names in order, when the
    first arrived, what the last was, and the fields each of them carries. *)
Theorem summariseIntents_groups (chain : list Evidence.Event) :
  summariseIntents chain =
  map (fun id => summary id (events_of chain id)) (first_seen (map Evidence.ev_AggregateID chain)).
Proof.
  unfold summariseIntents. pose proof (summarised chain) as H.
  destruct (foldl _ _ _) as [order byEnvelope]. destruct H as [-> Hm].
  assert (Hall : forall id, id ∈ first_seen (map Evidence.ev_AggregateID chain) ->
    byEnvelope !! id = Some (summary id (events_of chain id))).
  { intros id Hid. rewrite first_seen_in in Hid. rewrite Hm. by destruct (decide _). }
  revert Hall. generalize (first_seen (map Evidence.ev_AggregateID chain)). clear. intros l Hall.
  induction l as [|id l IH]; [done|]. cbn. rewrite Hall by by left.
  f_equal. apply IH. intros id' Hid'. apply Hall. by right.
Qed.

(** * Where the code departs from what it says *)

Section Divergences.
Context {HJ : Evidence.JSON}.
Context {Pool : Type} (chain : Pool -> list Certificate -> Certificate -> Time -> option X509Error).
Context (rfc3339nano : Time -> string).
Context (sv : Server (Pool := Pool)).

(** An intent whose idempotency record retention has pruned is reported as one that never
    reached a venue, whatever its evidence says: the order may have been filled. *)
Theorem pruned_order_is_reported_not_executed (m : Moment) (db : Postgres.Tables)
    (ev : Evidence.Tables) (r : Request) (t : string) (events : list Evidence.Event) :
  callerTenant chain sv (mo_clock m) r = Ok t -> TrimSpace (rq_PathID r) <> "" ->
  mo_store m = true -> mo_decisions m = true ->
  Postgres.LoadByEnvelope (mo_load m) db t (TrimSpace (rq_PathID r)) = Ok None ->
  Evidence.ByAggregate (mo_read m) ev t (TrimSpace (rq_PathID r)) = Ok events ->
  (exists e, e ∈ events /\ Evidence.ev_EventName e = Evidence.OrderFilled) ->
  exists fields, IntentStatusHandler chain rfc3339nano sv m db ev r = mkResponse StatusOK (BFields fields) /\
    ("executed", Evidence.VBool false) ∈ fields /\ ("state", Evidence.VString "NOT_EXECUTED") ∈ fields.
Proof.
  intros Ht Hid Hs Hd Hl He (e & Hin & _). unfold IntentStatusHandler. rewrite Ht, Hs.
  destruct (String.eqb_spec (TrimSpace (rq_PathID r)) ""); [done|]. cbn [negb].
  rewrite Hl. unfold refusalFor. rewrite Hd, He. cbn [negb].
  destruct events as [|e0 events]; [by apply elem_of_nil in Hin|].
  eexists. split; [reflexivity|]. split; set_solver.
Qed.

(** When the evidence cannot be read, an intent that was refused is reported as one that
    does not exist. *)
Theorem unread_evidence_is_no_intent (m : Moment) (db : Postgres.Tables) (ev : Evidence.Tables)
    (r : Request) (t : string) (e : Evidence.EvidenceError) :
  callerTenant chain sv (mo_clock m) r = Ok t -> TrimSpace (rq_PathID r) <> "" ->
  mo_store m = true ->
  Postgres.LoadByEnvelope (mo_load m) db t (TrimSpace (rq_PathID r)) = Ok None ->
  Evidence.ByAggregate (mo_read m) ev t (TrimSpace (rq_PathID r)) = Err e ->
  rp_Status (IntentStatusHandler chain rfc3339nano sv m db ev r) = StatusNotFound.
Proof.
  intros Ht Hid Hs Hl He. unfold IntentStatusHandler. rewrite Ht, Hs.
  destruct (String.eqb_spec (TrimSpace (rq_PathID r)) ""); [done|]. cbn [negb].
  rewrite Hl. unfold refusalFor. rewrite He. by destruct (negb _).
Qed.
End Divergences.

(** The hours of the window are multiplied in 64 bits: a window of some 292 years starts
    as far in the future, and the list is of what has not happened yet. *)
Theorem hours_window_wraps :
  Atoi "2562048" = Some 2562048 /\
  forall at_, 0 < wrap64 (- positive_or "2562048" (24 * Hour) Hour) /\
    at_ < TimeAdd at_ (wrap64 (- positive_or "2562048" (24 * Hour) Hour)).
Proof.
  split; [vm_compute; reflexivity|]. intros at_.
  assert (H : 0 < wrap64 (- positive_or "2562048" (24 * Hour) Hour)) by (vm_compute; reflexivity).
  split; [exact H|]. unfold TimeAdd. lia.
Qed.

(** ** On concrete gateways *)

#[local] Existing Instance toy_crypto.
#[local] Existing Instance Evidence.toy_json.
#[local] Existing Instance Usage.memory_reserver.

Definition rejecting_venue : FakeBroker.Broker :=
  FakeBroker.InjectFault FakeBroker.New "coid-key-1" FakeBroker.FaultReject.
Definition rejected_run :=
  Scenarios.submit (Scenarios.desk_gateway rejecting_venue)
    (Scenarios.moment Scenarios.roomy Fine Fine 50) Scenarios.first_order.

(** 403 is documented as a refusal of the platform whose stage is named.  An order that
    reached the venue and was rejected there is answered 403 with no stage. *)
Theorem venue_rejection_is_forbidden :
  exists r, snd rejected_run = Some r /\ statusFor r = StatusForbidden /\ rs_Stage r = "" /\
    Scenarios.orders_at (fst rejected_run) "coid-key-1" = Some (StateRejected, "fake-000001").
Proof.
  destruct (snd rejected_run) as [r|] eqn:E; [|vm_compute in E; discriminate]. exists r.
  assert (H : option_map (fun r => (statusFor r, rs_Stage r)) (snd rejected_run) = Some (StatusForbidden, ""))
    by (vm_compute; reflexivity).
  rewrite E in H. injection H as H1 H2. split_and!; [done..|]. vm_compute. reflexivity.
Qed.

(** The same order again, under its own key: answered from the record. *)
Definition replayed_run :=
  Scenarios.submit (fst Scenarios.accepted_run) (Scenarios.moment Scenarios.roomy Fine Fine 60)
    Scenarios.first_order.

Definition listed (g : Scenarios.Desk) : list (string * nat) :=
  match RecentAggregates Fine (gw_evidence g) "tenant-1" 0 50 with
  | Ok events => map (fun en => (en_EnvelopeID en, length (en_Events en))) (summariseIntents events)
  | Err _ => []
  end.

(** Every intake of an intent is evidence, a repeated one too, and the list joins receipts
    with the events of their intent: after a retry that was answered from the record each
    event of the intent is listed twice. *)
Theorem replayed_intent_is_doubled :
  Scenarios.outcome_of (snd replayed_run) <> None /\ listed (fst Scenarios.accepted_run) = [("env-1", 9%nat)] /\
  size (Evidence.events (gw_evidence (fst replayed_run))) = 12%nat /\
  listed (fst replayed_run) = [("env-1", 24%nat)].
Proof. split_and!; [vm_compute; discriminate | vm_compute; reflexivity..]. Qed.

(** * Witnesses *)

Definition desk_server : Server (Pool := unit) :=
  mkServer (Some {[ "token-1" := mkCaller "svc" "tenant-1" false false false ]}) None.
Definition desk_parse (text : string) : option Doc :=
  if String.eqb text "order" then Some (Scenarios.body_of Scenarios.first_order) else None.
Definition ask (id : string) : Request := mkRequest "Bearer token-1" "" [] (Some "order") id.
Definition asked_at (n : Z) : Moment := mkMoment (fun _ => n) Fine Fine true true.

Definition handled (venue : FakeBroker.Broker) :=
  SubmitHandler any_chain desk_parse Scenarios.decode_desk Scenarios.text_of Scenarios.text_of
    Scenarios.desk (sv_creds desk_server) (Scenarios.desk_gateway venue)
    (Scenarios.moment Scenarios.roomy Fine Fine 50) (ask "").

Example status_carries_the_decision_witness :
  exists answer x o, snd (handled FakeBroker.New) = Some answer /\ rp_Status answer = StatusOK /\
    rp_Body answer = BFields (submitBody Scenarios.text_of x) /\ rs_Outcome x = Some o /\
    oc_State o <> StateRejected.
Proof.
  destruct (status_carries_the_decision any_chain desk_parse Scenarios.decode_desk Scenarios.text_of
    Scenarios.text_of Scenarios.desk (sv_creds desk_server) (Scenarios.desk_gateway FakeBroker.New)
    (Scenarios.moment Scenarios.roomy Fine Fine 50) (ask "") eq_refl)
    as (answer & Ha & _ & Hok & _).
  assert (Hs : option_map rp_Status (snd (handled FakeBroker.New)) = Some StatusOK) by (vm_compute; reflexivity).
  unfold handled in Hs. rewrite Ha in Hs. injection Hs as Hs.
  destruct (Hok Hs) as (x & o & Hb & Ho & _ & Hr).
  exists answer, x, o. exact (conj Ha (conj Hs (conj Hb (conj Ho Hr)))).
Defined.

(** A filled order, its evidence, and the record's pruning after its retention. *)
Definition claimed_record : IdemRecord :=
  mkRecord "tenant-1" "key-1" "env-1" "coid-key-1" RecordPending zeroOutcome 10 10.
Definition filled_tables : Postgres.Tables :=
  fst (Postgres.Resolve Some Fine (fst (Postgres.Claim Fine Postgres.empty_tables claimed_record))
         "tenant-1" "key-1" (mkOutcome StateFilled "coid-key-1" "b-1" f64_zero "" false false) 11).
Definition pruned_tables : Postgres.Tables := fst (Postgres.Prune Fine filled_tables "tenant-1" 100 200).
Definition filled_evidence : Evidence.Tables :=
  fst (Evidence.Append Fine 12 Evidence.empty_tables
         (Evidence.mkEvent "0.1" "env-1_filled" Evidence.OrderFilled "tenant-1" "env-1" "env-1" "" 11 11
            "assurance-gateway" 1 "" None)).

Example pruned_order_is_reported_not_executed_witness :
  (exists fields, IntentStatusHandler any_chain fmt_d desk_server (asked_at 300) filled_tables
     filled_evidence (ask "env-1") = mkResponse StatusOK (BFields fields) /\
     ("state", Evidence.VString "RESOLVED") ∈ fields) /\
  (exists fields, IntentStatusHandler any_chain fmt_d desk_server (asked_at 300) pruned_tables
     filled_evidence (ask "env-1") = mkResponse StatusOK (BFields fields) /\
     ("executed", Evidence.VBool false) ∈ fields).
Proof.
  split.
  - eexists. split; [vm_compute; reflexivity|]. apply list_elem_of_In. vm_compute. tauto.
  - destruct (Evidence.ByAggregate Fine filled_evidence "tenant-1" "env-1") as [events|e] eqn:E;
      [|vm_compute in E; discriminate E].
    destruct (pruned_order_is_reported_not_executed any_chain fmt_d desk_server (asked_at 300)
      pruned_tables filled_evidence (ask "env-1") "tenant-1" events) as (fields & H & Hin & _).
    + vm_compute. reflexivity.
    + vm_compute. discriminate.
    + reflexivity.
    + reflexivity.
    + vm_compute. reflexivity.
    + exact E.
    + vm_compute in E. injection E as <-. eexists. split; [by left | reflexivity].
    + exists fields. exact (conj H Hin).
Defined.

Example unread_evidence_is_no_intent_witness :
  rp_Status (IntentStatusHandler any_chain fmt_d desk_server (mkMoment (fun _ => 300) Fine Fails true true)
    Postgres.empty_tables filled_evidence (ask "env-1")) = StatusNotFound.
Proof.
  destruct (Evidence.ByAggregate Fails filled_evidence "tenant-1" "env-1") as [events|e] eqn:E;
    [vm_compute in E; discriminate E|].
  apply (unread_evidence_is_no_intent any_chain fmt_d desk_server (mkMoment (fun _ => 300) Fine Fails true true)
    Postgres.empty_tables filled_evidence (ask "env-1") "tenant-1" e).
  - vm_compute. reflexivity.
  - vm_compute. discriminate.
  - reflexivity.
  - vm_compute. reflexivity.
  - exact E.
Defined.
