(* ===== verification/Retention.v ===== *)
(** Retention: internal/retention retention.go, export.go, store.go.

    The rules of a retention policy ([Decide]), the hash chain over archived events,
    the export of a period into an object store and its restoration ([Export],
    [Restore]), the gate before a deletion ([Destroy]), and the tables of manifests and
    legal holds ([Store]).  SHA-256 is the parameter of [Crypto]; the object store is a
    map whose contents the theorems let anybody rewrite; the streaming decoder of
    encoding/json and the formatting of times are parameters, with the laws that a
    theorem needs in [ArchiveLaws].  Nothing is ever deleted by this package. *)

From S2P Require Import Prelude Strings Money CanonicalJSON Crypto.
From S2P Require Evidence.
Import Evidence (Event, ev_SchemaVersion, ev_EventID, ev_EventName, ev_TenantID, ev_AggregateID,
  ev_CorrelationID, ev_CausationID, ev_OccurredAt, ev_ProducedAt, ev_Producer, ev_Sequence,
  ev_CorrectsEventID, ev_Payload).

(** * Policies *)

Abbreviation Class_ := string.
Definition ClassOrderEvidence : Class_ := "ORDER_ASSURANCE_EVIDENCE".
Definition ClassAuthorityGrant : Class_ := "AUTHORITY_GRANT".
Definition ClassPolicyDecision : Class_ := "POLICY_DECISION".
Definition ClassHumanControlAction : Class_ := "HUMAN_CONTROL_ACTION".
Definition ClassSecurityAttestation : Class_ := "SECURITY_ATTESTATION".
Definition ClassSimulationRecord : Class_ := "SIMULATION_RECORD".
Definition ClassAnalyticalTelemetry : Class_ := "ANALYTICAL_TELEMETRY".

Definition ClassOf (name : string) : Class_ :=
  if contains ["authority.evaluated.v1"; "authority.grant.issued.v1"; "authority.grant.revoked.v1"] name
  then ClassAuthorityGrant
  else if contains ["policy.evaluated.v1"; "policy.bundle.activated.v1"; "policy.bundle.created.v1";
                    "policy.bundle.rolled_back.v1"] name
  then ClassPolicyDecision
  else if contains ["control.applied.v1"; "control.revoked.v1"; "incident.escalated.v1";
                    "incident.closed.v1"; "incident.updated.v1"] name
  then ClassHumanControlAction
  else if contains ["agent.identity.verified.v1"; "agent.identity.failed.v1"] name
  then ClassSecurityAttestation
  else if contains ["simulation.started.v1"; "simulation.completed.v1"; "simulation.failed.v1";
                    "simulation.cancelled.v1"] name
  then ClassSimulationRecord
  else if contains ["fleet.metric.updated.v1"; "fleet.cohort.created.v1"; "fleet.anomaly.detected.v1"] name
  then ClassAnalyticalTelemetry
  else ClassOrderEvidence.

Definition DeletionNone : string := "NONE".
Definition DeletionAuthorized : string := "AUTHORIZED".

Record Policy := mkPolicy {
  po_TenantID : string;
  po_Class : Class_;
  po_HotDays : Z;
  po_ArchiveDays : Z;
  po_Destination : string;
  po_DeletionMode : string;
  po_UpdatedBy : string;
  po_UpdatedAt : Time
}.

Definition VerdictKeep : string := "KEEP".
Definition VerdictArchive : string := "ARCHIVE".
Definition VerdictDestroy : string := "DESTROY".

(** The verdict and its reason; days are Go [int]s. *)
Definition Decide (policy : Policy) (ageDays : Z) (held archived authorized : bool)
    : string * string :=
  if held then
    (VerdictKeep, "a legal hold is active for this tenant; holds outrank every policy")
  else if po_HotDays policy <=? 0 then
    (VerdictKeep, "no retention policy is configured for this class")
  else if ageDays <? po_HotDays policy then
    (VerdictKeep, "inside the hot window (" +:+ fmt_d ageDays +:+ " of " +:+
                  fmt_d (po_HotDays policy) +:+ " days)")
  else if negb archived then
    (VerdictArchive, "past the hot window (" +:+ fmt_d ageDays +:+ " of " +:+
                     fmt_d (po_HotDays policy) +:+ " days) and not yet archived")
  else if negb (String.eqb (po_DeletionMode policy) DeletionAuthorized) then
    (VerdictKeep, "archived; deletion is not authorized for this class")
  else if po_ArchiveDays policy <=? 0 then
    (VerdictKeep, "archived; this class is kept indefinitely")
  else if ageDays <? add64 (po_HotDays policy) (po_ArchiveDays policy) then
    (VerdictKeep, "inside the archive window (" +:+ fmt_d ageDays +:+ " of " +:+
                  fmt_d (add64 (po_HotDays policy) (po_ArchiveDays policy)) +:+ " days)")
  else if negb authorized then
    (VerdictKeep, "past every window, and no approved deletion authorization exists")
  else
    (VerdictDestroy, "past every window (" +:+ fmt_d ageDays +:+
                     " days) with an approved authorization").

(** * Holds and manifests *)

Record Hold := mkHold {
  ho_TenantID : string;
  ho_HoldID : string;
  ho_CorrelationID : string;
  ho_Reason : string;
  ho_PlacedBy : string;
  ho_PlacedAt : Time;
  ho_ReleasedAt : option Time;
  ho_ReleasedBy : string
}.

Definition Hold_Active (h : Hold) : bool :=
  match ho_ReleasedAt h with None => true | Some _ => false end.

Record Manifest := mkManifest {
  mf_TenantID : string;
  mf_ManifestID : string;
  mf_Partition : string;
  mf_PeriodStart : Time;
  mf_PeriodEnd : Time;
  mf_EventCount : Z;
  mf_ChainHead : string;
  mf_Destination : string;
  mf_ExportedBy : string;
  mf_ExportedAt : Time;
  mf_VerifiedAt : option Time;
  mf_VerifiedBy : string
}.

Inductive RetentionError :=
| ErrTenantContextMissing
| ErrNoManifest
| ErrEmptyPeriod
| ErrTampered (what : string)
| ErrTruncated
| ErrHeld (what : string)
| ErrReadPeriod (e : Evidence.EvidenceError)
| ErrEncode
| ErrHash
| ErrUpload
| ErrReadArchive
| ErrRecordManifest (e : RetentionError)
| ErrNoStandIn (e : RetentionError)
| ErrDatabase (what : string).

(** * The tables *)

Module Store.
Record HoldRow := mkHoldRow {
  h_correlation_id : option string;
  h_reason : string;
  h_placed_by : string;
  h_placed_at : Time;
  h_released_at : option Time;
  h_released_by : option string
}.

(** archive_manifests keyed by (tenant_id, manifest_id), legal_holds by
    (tenant_id, hold_id). *)
Record Tables := mkTables {
  manifests : gmap (string * string) Manifest;
  holds : gmap (string * string) HoldRow
}.
Definition empty_tables : Tables := mkTables ∅ ∅.

Definition withTenant {A} (f : TxFault) (db : Tables) (tenantID : string)
    (fn : Tables -> Tables * result A RetentionError) : Tables * result A RetentionError :=
  if String.eqb tenantID "" then (db, Err ErrTenantContextMissing)
  else transaction ErrDatabase f db fn.

(** The CHECK constraints of archive_manifests. *)
Definition manifest_refused (m : Manifest) : option string :=
  if mf_PeriodEnd m <=? mf_PeriodStart m then Some "archive_period_ordered"
  else if mf_EventCount m <? 0 then Some "archive_event_count_non_negative"
  else None.

(** A re-export replaces the row and is unverified. *)
Definition unverified (m : Manifest) : Manifest :=
  mkManifest (mf_TenantID m) (mf_ManifestID m) (mf_Partition m) (mf_PeriodStart m) (mf_PeriodEnd m)
    (mf_EventCount m) (mf_ChainHead m) (mf_Destination m) (mf_ExportedBy m) (mf_ExportedAt m)
    None "".

Definition SaveManifest (f : TxFault) (db : Tables) (m : Manifest)
    : Tables * result unit RetentionError :=
  withTenant f db (mf_TenantID m) (fun db =>
    match manifest_refused m with
    | Some what => (db, Err (ErrDatabase what))
    | None =>
        (mkTables (<[(mf_TenantID m, mf_ManifestID m) := unverified m]> (manifests db)) (holds db),
         Ok ())
    end).

(** ORDER BY exported_at DESC LIMIT 1. *)
Definition exported_later (a b : Manifest) : bool := mf_ExportedAt b <? mf_ExportedAt a.

Definition Manifest_ (f : TxFault) (db : Tables) (tenantID partition : string)
    : result Manifest RetentionError :=
  snd (withTenant f db tenantID (fun db =>
    (db, match stable_sort exported_later
           (List.filter (fun m => String.eqb (mf_Partition m) partition)
              (map snd (List.filter (fun '(k, _) => String.eqb (fst k) tenantID)
                 (map_to_list (manifests db))))) with
         | m :: _ => Ok m
         | [] => Err ErrNoManifest
         end))).

Definition verified (by_ : string) (at_ : Time) (m : Manifest) : Manifest :=
  mkManifest (mf_TenantID m) (mf_ManifestID m) (mf_Partition m) (mf_PeriodStart m) (mf_PeriodEnd m)
    (mf_EventCount m) (mf_ChainHead m) (mf_Destination m) (mf_ExportedBy m) (mf_ExportedAt m)
    (Some at_) by_.

Definition MarkVerified (f : TxFault) (db : Tables) (tenantID manifestID by_ : string) (at_ : Time)
    : Tables * result unit RetentionError :=
  withTenant f db tenantID (fun db =>
    (mkTables (alter (verified by_ at_) (tenantID, manifestID) (manifests db)) (holds db), Ok ())).

Definition nullable (s : string) : option string := if String.eqb s "" then None else Some s.

(** ON CONFLICT (tenant_id, hold_id) DO NOTHING. *)
Definition PlaceHold (f : TxFault) (db : Tables) (h : Hold) : Tables * result unit RetentionError :=
  withTenant f db (ho_TenantID h) (fun db =>
    match holds db !! (ho_TenantID h, ho_HoldID h) with
    | Some _ => (db, Ok ())
    | None =>
        (mkTables (manifests db)
           (<[(ho_TenantID h, ho_HoldID h) :=
                mkHoldRow (nullable (ho_CorrelationID h)) (ho_Reason h) (ho_PlacedBy h)
                  (ho_PlacedAt h) None None]> (holds db)), Ok ())
    end).

Definition released (by_ : string) (at_ : Time) (r : HoldRow) : HoldRow :=
  match h_released_at r with
  | None => mkHoldRow (h_correlation_id r) (h_reason r) (h_placed_by r) (h_placed_at r) (Some at_) (Some by_)
  | Some _ => r
  end.

(** The row's CHECK (released_at IS NULL OR released_by IS NOT NULL) holds of what the
    statement writes, whatever name it is given. *)
Definition ReleaseHold (f : TxFault) (db : Tables) (tenantID holdID by_ : string) (at_ : Time)
    : Tables * result unit RetentionError :=
  withTenant f db tenantID (fun db =>
    (mkTables (manifests db) (alter (released by_ at_) (tenantID, holdID) (holds db)), Ok ())).

Definition hold_of (k : string * string) (r : HoldRow) : Hold :=
  mkHold (fst k) (snd k) (default "" (h_correlation_id r)) (h_reason r) (h_placed_by r) (h_placed_at r)
    None "".

Definition placed_before (a b : Hold) : bool := ho_PlacedAt a <? ho_PlacedAt b.

Definition ActiveHolds (f : TxFault) (db : Tables) (tenantID : string)
    : result (list Hold) RetentionError :=
  snd (withTenant f db tenantID (fun db =>
    (db, Ok (stable_sort placed_before
       (map (fun '(k, r) => hold_of k r)
          (List.filter (fun '(k, r) => String.eqb (fst k) tenantID &&
                          match h_released_at r with None => true | Some _ => false end)
             (map_to_list (holds db)))))))).
End Store.

(** * The hash chain *)

(** What [json.Decoder] finds next in an archive: [More] is false, the text does not
    decode, or an event and what follows it. *)
Inductive ArchiveRead :=
| NoMore
| Unreadable
| NextEvent (e : Event) (rest : string).

Section Retention.
Context {HJ : Evidence.JSON} {C : Crypto}.
(** [json.Decoder] with UseNumber, of a payload's text *)
Context (decode_doc : string -> Doc).
(** [t.UTC().Format(time.RFC3339Nano)] *)
Context (rfc3339nano : Time -> string).
Context (next_event : string -> ArchiveRead).

Definition canonicalPayload (p : Evidence.Payload) : option bytes_t :=
  match p with
  | None | Some [] => Some (bytes "{}")
  | Some (_ :: _) =>
      match Evidence.marshal_payload p with
      | None => None
      | Some raw => Canonical (decode_doc raw)
      end
  end.

(** [fmt.Fprintf(sum, "%d:%s", len(field), field)] *)
Definition field (l : bytes_t) : bytes_t := bytes (fmt_d (Z.of_nat (length l))) ++ 58%nat :: l.

Definition content_fields (e : Event) (payload : bytes_t) : list bytes_t :=
  [bytes (ev_SchemaVersion e); bytes (ev_EventID e); bytes (ev_EventName e); bytes (ev_TenantID e);
   bytes (ev_AggregateID e); bytes (ev_CorrelationID e); bytes (ev_CausationID e);
   bytes (ev_Producer e); bytes (ev_CorrectsEventID e); bytes (rfc3339nano (ev_OccurredAt e));
   bytes (rfc3339nano (ev_ProducedAt e)); bytes (fmt_d (ev_Sequence e)); payload].

(** The bytes hashed for an event, and for a link of the chain. *)
Definition content_input (e : Event) : option bytes_t :=
  match canonicalPayload (ev_Payload e) with
  | None => None
  | Some payload => Some (flat_map field (content_fields e payload))
  end.

Definition ContentHash (e : Event) : option string :=
  match content_input e with
  | None => None
  | Some i => Some (EncodeToString (sha256 i))
  end.

Definition chain_input (previous content : string) : bytes_t :=
  field (bytes previous) ++ field (bytes content).

Definition ChainHash (previous : string) (e : Event) : option string :=
  match ContentHash e with
  | None => None
  | Some content => Some (EncodeToString (sha256 (chain_input previous content)))
  end.

Fixpoint chain_from (head : string) (events : list Event) : option string :=
  match events with
  | [] => Some head
  | e :: events' =>
      match ChainHash head e with
      | None => None
      | Some next => chain_from next events'
      end
  end.

Definition ChainOver (events : list Event) : option string := chain_from "" events.

(** The index and the error, if any; -1 when the chain matches. *)
Fixpoint verify_from (i : Z) (head : string) (events : list Event) (expectedHead : string)
    : Z * option RetentionError :=
  match events with
  | [] =>
      if negb (String.eqb head expectedHead) then
        (i, Some (ErrTampered "the archive does not match its manifest"))
      else (-1, None)
  | e :: events' =>
      match ChainHash head e with
      | None => (i, Some ErrHash)
      | Some next => verify_from (i + 1) next events' expectedHead
      end
  end.

Definition Verify (events : list Event) (expectedHead : string) : Z * option RetentionError :=
  verify_from 0 "" events expectedHead.

(** * Export, restore, destroy *)

Definition ObjectKey (tenantID partition : string) : string :=
  "evidence/" +:+ tenantID +:+ "/" +:+ partition +:+ ".jsonl".

Definition newline : string := String (byte_of 10) "".

Fixpoint encodeArchive (events : list Event) : option string :=
  match events with
  | [] => Some ""
  | e :: events' =>
      match Evidence.marshal_event e, encodeArchive events' with
      | Some raw, Some rest => Some (raw +:+ newline +:+ rest)
      | _, _ => None
      end
  end.

(** Every event takes a byte, so the length of the text is enough fuel. *)
Fixpoint decode_events (fuel : nat) (body : string) : option (list Event) :=
  match next_event body with
  | NoMore => Some []
  | Unreadable => None
  | NextEvent e rest =>
      match fuel with
      | O => None
      | S f => option_map (cons e) (decode_events f rest)
      end
  end.

Definition decodeArchive (body : string) : option (list Event) :=
  decode_events (String.length body) body.

(** The object store: a write is done, refused with nothing changed, or done with its
    answer lost. *)
Inductive PutFault := PutDone | PutRefused | PutLost.

Record World := mkWorld {
  objects : gmap string string;
  tables : Store.Tables
}.

Record Surroundings := mkSurroundings {
  su_read : TxFault;
  su_put : PutFault;
  (** whether a manifest store is configured *)
  su_manifests : bool;
  su_save : TxFault;
  su_now : Time
}.

Definition manifest_of (tenantID partition : string) (from to : Time) (by_ head : string)
    (events : list Event) (at_ : Time) : Manifest :=
  mkManifest tenantID ("man_" +:+ tenantID +:+ "_" +:+ partition) partition from to
    (Z.of_nat (length events)) head (ObjectKey tenantID partition) by_ at_ None "".

Definition put_ok (f : PutFault) : bool := match f with PutDone => true | _ => false end.

Definition Put (f : PutFault) (o : gmap string string) (key body : string) : gmap string string :=
  match f with PutRefused => o | _ => <[key := body]> o end.

Definition Export (s : Surroundings) (ev : Evidence.Tables) (w : World) (tenantID partition : string)
    (from to : Time) (by_ : string) : World * result Manifest RetentionError :=
  match Evidence.ByPeriod (su_read s) ev tenantID from to with
  | Err e => (w, Err (ErrReadPeriod e))
  | Ok [] => (w, Err ErrEmptyPeriod)
  | Ok events =>
      match encodeArchive events with
      | None => (w, Err ErrEncode)
      | Some body =>
          match ChainOver events with
          | None => (w, Err ErrHash)
          | Some head =>
              let key := ObjectKey tenantID partition in
              let o := Put (su_put s) (objects w) key body in
              if negb (put_ok (su_put s)) then (mkWorld o (tables w), Err ErrUpload)
              else
                let m := manifest_of tenantID partition from to by_ head events (su_now s) in
                if su_manifests s then
                  match Store.SaveManifest (su_save s) (tables w) m with
                  | (db, Err e) => (mkWorld o db, Err (ErrRecordManifest e))
                  | (db, Ok _) => (mkWorld o db, Ok m)
                  end
                else (mkWorld o (tables w), Ok m)
          end
      end
  end.

(** [got] is what the object store answers for the manifest's destination. *)
Definition restore_body (m : Manifest) (got : option string) : result (list Event) RetentionError :=
  match got with
  | None => Err ErrReadArchive
  | Some body =>
      match decodeArchive body with
      | None => Err (ErrTampered "the archive does not decode")
      | Some events =>
          let n := Z.of_nat (length events) in
          if negb (n =? mf_EventCount m) then
            if n <? mf_EventCount m then Err ErrTruncated
            else Err (ErrTampered "more events than the manifest counted")
          else
            match Verify events (mf_ChainHead m) with
            | (_, Some _) => Err (ErrTampered "the chain does not match")
            | (_, None) => Ok events
            end
      end
  end.

(** [up] is whether the object store answers at all. *)
Definition Get (up : bool) (o : gmap string string) (key : string) : option string :=
  if up then o !! key else None.

Definition Restore (up : bool) (w : World) (m : Manifest) : result (list Event) RetentionError :=
  restore_body m (Get up (objects w) (mf_Destination m)).

(** The answer of the gate: [None] permits. *)
Definition Destroy (f : TxFault) (up : bool) (w : World) (m : Manifest) : option RetentionError :=
  match Store.ActiveHolds f (tables w) (mf_TenantID m) with
  | Err _ => Some (ErrHeld "the holds on this tenant could not be read")
  | Ok active =>
      match List.find Hold_Active active with
      | Some h => Some (ErrHeld (ho_HoldID h))
      | None =>
          match Restore up w m with
          | Err e => Some (ErrNoStandIn e)
          | Ok _ => None
          end
      end
  end.

(** * What an archived event says *)

(** The document of a payload, an absent one being empty. *)
Definition payload_doc (p : Evidence.Payload) : option Doc :=
  match p with
  | None | Some [] => Some (DObject [])
  | Some (_ :: _) => option_map decode_doc (Evidence.marshal_payload p)
  end.

(** Two events that agree on every field, their payloads up to the order of members. *)
Definition same_record (e e' : Event) : Prop :=
  (ev_SchemaVersion e = ev_SchemaVersion e' /\ ev_EventID e = ev_EventID e' /\
   ev_EventName e = ev_EventName e' /\ ev_TenantID e = ev_TenantID e' /\
   ev_AggregateID e = ev_AggregateID e' /\ ev_CorrelationID e = ev_CorrelationID e' /\
   ev_CausationID e = ev_CausationID e') /\
  (ev_Producer e = ev_Producer e' /\ ev_CorrectsEventID e = ev_CorrectsEventID e' /\
   ev_OccurredAt e = ev_OccurredAt e' /\ ev_ProducedAt e = ev_ProducedAt e' /\
   ev_Sequence e = ev_Sequence e') /\
  exists d d', payload_doc (ev_Payload e) = Some d /\ payload_doc (ev_Payload e') = Some d' /\
    same_document d d'.

(** The byte strings hashed to chain [events] after [head]. *)
Fixpoint hashed (head : string) (events : list Event) : list bytes_t :=
  match events with
  | [] => []
  | e :: events' =>
      match content_input e with
      | None => []
      | Some i =>
          let link := chain_input head (EncodeToString (sha256 i)) in
          i :: link :: hashed (EncodeToString (sha256 link)) events'
      end
  end.

Definition no_collision (l : list bytes_t) : Prop :=
  forall x y, x ∈ l -> y ∈ l -> sha256 x = sha256 y -> x = y.

(** What decoding leaves of an event that was read from the database: an empty payload
    is omitted by the encoder. *)
Definition stored_form (e : Event) : Event :=
  Evidence.mkEvent (ev_SchemaVersion e) (ev_EventID e) (ev_EventName e) (ev_TenantID e)
    (ev_AggregateID e) (ev_CorrelationID e) (ev_CausationID e) (ev_OccurredAt e) (ev_ProducedAt e)
    (ev_Producer e) (ev_Sequence e) (ev_CorrectsEventID e)
    (match ev_Payload e with Some [] => None | p => p end).

(** encoding/json and the formatting of times: a decoded document has number literals
    and no member twice; the format tells instants apart; a decoder reads back what an
    encoder wrote of an event whose payload was itself decoded. *)
Class ArchiveLaws : Prop := {
  decoded_wf s : well_formed (decode_doc s) = true;
  decoded_keys s : unique_keys (decode_doc s);
  rfc3339nano_inj a b : rfc3339nano a = rfc3339nano b -> a = b;
  next_nothing : next_event "" = NoMore;
  next_written e raw rest :
    (exists column, ev_Payload e = Evidence.unmarshal_payload column) ->
    Evidence.marshal_event e = Some raw ->
    next_event (raw +:+ newline +:+ rest) = NextEvent (stored_form e) rest
}.

(** ** Injectivity of what is hashed *)

Lemma no_colon s : str_forall is_digit s = true -> 58%nat ∉ bytes s.
Proof.
  induction s as [|c s IH]; cbn; [intros _ H; by apply elem_of_nil in H|].
  intros [Hc Hs]%andb_true_iff [Heq|H]%elem_of_cons; [|by apply IH].
  unfold is_digit in Hc. rewrite <- Heq in Hc. done.
Qed.

Lemma itoa_inj n m : 0 <= n -> 0 <= m -> itoa n = itoa m -> n = m.
Proof.
  intros Hn Hm H. destruct (itoa_spec n Hn) as (_ & <- & _).
  destruct (itoa_spec m Hm) as (_ & <- & _). by rewrite H.
Qed.

Lemma decimal_inj n m : fmt_d n = fmt_d m -> n = m.
Proof.
  unfold fmt_d. destruct (n <? 0) eqn:En, (m <? 0) eqn:Em; b2p.
  - intros [=H]. apply itoa_inj in H; lia.
  - intros H. destruct (itoa_spec m Em) as (Hd & _). by rewrite <- H in Hd.
  - intros H. destruct (itoa_spec n En) as (Hd & _). by rewrite H in Hd.
  - apply itoa_inj; lia.
Qed.

Lemma field_inj a b r1 r2 : field a ++ r1 = field b ++ r2 -> a = b /\ r1 = r2.
Proof.
  unfold field, fmt_d.
  destruct (Z.of_nat (length a) <? 0) eqn:Ea; b2p; [lia|].
  destruct (Z.of_nat (length b) <? 0) eqn:Eb; b2p; [lia|].
  destruct (itoa_spec _ Ea) as (Ha & _). destruct (itoa_spec _ Eb) as (Hb & _).
  rewrite <- !app_assoc. cbn. intros H.
  apply split_first in H as [Hn H]; [|by apply no_colon..].
  apply bytes_inj, itoa_inj, Nat2Z.inj in Hn; [|done..]. by apply app_inj_1.
Qed.

Lemma fields_inj l1 : forall l2, length l1 = length l2 -> flat_map field l1 = flat_map field l2 -> l1 = l2.
Proof.
  induction l1 as [|a l1 IH]; intros [|b l2] Hl H; try done. cbn in *.
  apply field_inj in H as [-> H]. f_equal. apply IH; [lia | done].
Qed.

Lemma chain_input_inj p1 c1 p2 c2 : chain_input p1 c1 = chain_input p2 c2 -> p1 = p2 /\ c1 = c2.
Proof.
  unfold chain_input. intros [Hp H]%field_inj. apply bytes_inj in Hp.
  rewrite <- (app_nil_r (field (bytes c1))), <- (app_nil_r (field (bytes c2))) in H.
  apply field_inj in H as [Hc _]. by apply bytes_inj in Hc.
Qed.

Lemma canonicalPayload_doc p : canonicalPayload p = d ← payload_doc p; Canonical d.
Proof. destruct p as [[|x l]|]; cbn; try done. by destruct (Evidence.marshal_payload _). Qed.

Section Laws.
Context {CL : CryptoLaws} {AL : ArchiveLaws}.

Lemma payload_doc_wf p d : payload_doc p = Some d -> well_formed d = true /\ unique_keys d.
Proof.
  destruct p as [[|x l]|]; cbn; intros H.
  - injection H as <-. repeat split. constructor.
  - destruct (Evidence.marshal_payload _) as [raw|]; [|done]. injection H as <-.
    split; [apply decoded_wf | apply decoded_keys].
  - injection H as <-. repeat split. constructor.
Qed.

Lemma content_input_inj e1 e2 i :
  content_input e1 = Some i -> content_input e2 = Some i -> same_record e1 e2.
Proof.
  unfold content_input. rewrite !canonicalPayload_doc.
  destruct (payload_doc (ev_Payload e1)) as [d1|] eqn:D1; cbn; [|done].
  destruct (payload_doc (ev_Payload e2)) as [d2|] eqn:D2; cbn; [|done].
  destruct (Canonical d1) as [p1|] eqn:C1; [|done].
  destruct (Canonical d2) as [p2|] eqn:C2; [|done]. intros [= H1] [= H2].
  rewrite <- H2 in H1. apply (fields_inj (content_fields e1 p1) (content_fields e2 p2)) in H1; [|done].
  unfold content_fields in H1. simplify_eq.
  repeat match goal with H : bytes _ = bytes _ |- _ => apply bytes_inj in H end.
  repeat match goal with H : rfc3339nano _ = rfc3339nano _ |- _ => apply rfc3339nano_inj in H end.
  match goal with H : fmt_d _ = fmt_d _ |- _ => apply decimal_inj in H end.
  destruct (payload_doc_wf _ _ D1), (payload_doc_wf _ _ D2).
  split; [done|]. split; [done|]. exists d1, d2. split; [done|]. split; [done|].
  by apply (Canonical_iff_same_document d1 d2 p2).
Qed.

Lemma digest_inj x y : EncodeToString (sha256 x) = EncodeToString (sha256 y) -> sha256 x = sha256 y.
Proof.
  intros H. pose proof (DecodeString_encode _ (sha256_bytes x)) as Hx.
  rewrite H, DecodeString_encode in Hx by apply sha256_bytes. congruence.
Qed.

(** Two chains that do not collide: the first inputs, and the rest. *)
Lemma no_collision_links a b c d l1 l2 :
  no_collision ((a :: b :: l1) ++ c :: d :: l2) ->
  (sha256 a = sha256 c -> a = c) /\ (sha256 b = sha256 d -> b = d) /\ no_collision (l1 ++ l2).
Proof.
  intros H. split; [|split]; [apply H; set_solver | apply H; set_solver |].
  intros x y Hx Hy. apply H; set_solver.
Qed.

(** ** The chain *)

Lemma verify_from_ok events : forall i head expected,
  snd (verify_from i head events expected) = None <-> chain_from head events = Some expected.
Proof.
  induction events as [|e events IH]; intros i head expected; cbn.
  - destruct (String.eqb_spec head expected); cbn; naive_solver.
  - destruct (ChainHash head e); cbn; [apply IH | done].
Qed.

Lemma ChainHash_hashed head e next :
  ChainHash head e = Some next -> exists i, content_input e = Some i /\
    next = EncodeToString (sha256 (chain_input head (EncodeToString (sha256 i)))).
Proof.
  unfold ChainHash, ContentHash. destruct (content_input e) as [i|]; [|done].
  intros [= <-]. by exists i.
Qed.

Lemma hashed_cons head e i events :
  content_input e = Some i ->
  let link := chain_input head (EncodeToString (sha256 i)) in
  hashed head (e :: events) = i :: link :: hashed (EncodeToString (sha256 link)) events.
Proof. cbn. by intros ->. Qed.

(** Without collisions among what is hashed a chain determines its events. *)
Lemma chain_inj es1 : forall es2 h1 h2 head, length es1 = length es2 ->
  no_collision (hashed h1 es1 ++ hashed h2 es2) ->
  chain_from h1 es1 = Some head -> chain_from h2 es2 = Some head ->
  h1 = h2 /\ Forall2 same_record es1 es2.
Proof.
  induction es1 as [|e1 es1 IH]; intros [|e2 es2] h1 h2 head Hl Hc; try done.
  { cbn. intros. split; [congruence | constructor]. }
  cbn [chain_from].
  destruct (ChainHash h1 e1) as [n1|] eqn:E1; [|done].
  destruct (ChainHash h2 e2) as [n2|] eqn:E2; [|done]. intros H1 H2.
  apply ChainHash_hashed in E1 as (i1 & Hi1 & Hn1). apply ChainHash_hashed in E2 as (i2 & Hi2 & Hn2).
  rewrite (hashed_cons _ _ _ _ Hi1), (hashed_cons _ _ _ _ Hi2), <- Hn1, <- Hn2 in Hc.
  apply no_collision_links in Hc as (Hi & Hlink & Hc).
  destruct (IH es2 n1 n2 head) as [Hn HF]; [by injection Hl | done | done | done |].
  rewrite Hn in Hn1. rewrite Hn1 in Hn2. apply digest_inj, Hlink in Hn2.
  apply chain_input_inj in Hn2 as [-> Hd]. apply digest_inj, Hi in Hd. subst i2.
  split; [done|]. constructor; [by eapply content_input_inj | done].
Qed.

(** ** Export and restore *)

Lemma Export_ok s ev w t p from to by_ w1 m es :
  Evidence.ByPeriod (su_read s) ev t from to = Ok es ->
  Export s ev w t p from to by_ = (w1, Ok m) ->
  exists body head, encodeArchive es = Some body /\ ChainOver es = Some head /\ es <> [] /\
    m = manifest_of t p from to by_ head es (su_now s) /\
    objects w1 = <[ObjectKey t p := body]> (objects w) /\
    (su_manifests s = true -> t <> "" /\
       tables w1 = Store.mkTables (<[(t, mf_ManifestID m) := m]> (Store.manifests (tables w)))
                     (Store.holds (tables w))) /\
    (su_manifests s = false -> tables w1 = tables w).
Proof.
  unfold Export. intros ->. destruct es as [|e es]; [done|].
  destruct (encodeArchive (e :: es)) as [body|]; [|done].
  destruct (ChainOver (e :: es)) as [head|]; [|done].
  destruct (su_put s); cbn; try done. intros H. exists body, head.
  do 3 (split; [done|]). destruct (su_manifests s).
  - destruct (Store.SaveManifest _ _ _) as [db [[]|er]] eqn:E; [|done]. injection H as <- <-.
    do 2 (split; [done|]). split; [|done]. intros _.
    unfold Store.SaveManifest, Store.withTenant in E. cbn [mf_TenantID manifest_of] in E.
    destruct (String.eqb_spec t ""); [done|]. split; [done|].
    apply transaction_ok in E as [_ E]. destruct (Store.manifest_refused _); [done|].
    injection E as <-. done.
  - injection H as <- <-. done.
Qed.

Lemma Restore_ok up w m es :
  Restore up w m = Ok es -> Z.of_nat (length es) = mf_EventCount m /\
    ChainOver es = Some (mf_ChainHead m).
Proof.
  unfold Restore, restore_body. destruct (Get _ _ _) as [body|]; [|done].
  destruct (decodeArchive body) as [es'|]; [|done].
  destruct (Z.eqb_spec (Z.of_nat (length es')) (mf_EventCount m)) as [Hn|]; cbn.
  - destruct (Verify es' (mf_ChainHead m)) as [i [er|]] eqn:E; [done|]. intros [= ->].
    split; [done|]. apply (verify_from_ok _ 0). unfold Verify in E. by rewrite E.
  - by destruct (_ <? _).
Qed.

(** C21: An archive that restores is the one that was exported. Whatever has been done to the
    object store since, and whoever did it, when the restoration of a manifest succeeds it
    returns the exported events, as many, in the same order, each equal in every field and
    its payload equal up to the order of members, unless two of the byte strings hashed for
    the two archives collide. *)
Theorem restored_is_what_was_exported (s : Surroundings) (ev : Evidence.Tables) (w w1 w2 : World)
    (t p : string) (from to : Time) (by_ : string) (m : Manifest) (up : bool) (es es' : list Event) :
  Evidence.ByPeriod (su_read s) ev t from to = Ok es ->
  Export s ev w t p from to by_ = (w1, Ok m) ->
  Restore up w2 m = Ok es' ->
  no_collision (hashed "" es ++ hashed "" es') ->
  Forall2 same_record es es'.
Proof.
  intros Hp He Hr Hc. destruct (Export_ok _ _ _ _ _ _ _ _ _ _ _ Hp He) as (body & head & _ & Hh & _ & -> & _).
  apply Restore_ok in Hr as [Hn Hh']. cbn in Hn, Hh'.
  eapply chain_inj; [| exact Hc | exact Hh | exact Hh']. lia.
Qed.

Lemma stored_form_hash e : ContentHash (stored_form e) = ContentHash e.
Proof.
  unfold ContentHash, content_input, stored_form. cbn. by destruct (ev_Payload e) as [[|]|] eqn:E; rewrite ?E.
Qed.

Lemma chain_from_stored es : forall h, chain_from h (map stored_form es) = chain_from h es.
Proof.
  induction es as [|e es IH]; intros h; cbn; [done|].
  unfold ChainHash. rewrite stored_form_hash. destruct (ContentHash e); [apply IH | done].
Qed.

Lemma decode_written es : forall body fuel,
  (forall e, e ∈ es -> exists column, ev_Payload e = Evidence.unmarshal_payload column) ->
  encodeArchive es = Some body -> (String.length body <= fuel)%nat ->
  decode_events fuel body = Some (map stored_form es).
Proof.
  induction es as [|e es IH]; intros body fuel Hd; cbn [encodeArchive].
  - intros [= <-] _. destruct fuel; cbn; by rewrite next_nothing.
  - destruct (Evidence.marshal_event e) as [raw|] eqn:E; [|done].
    destruct (encodeArchive es) as [rest|] eqn:Er; [|done]. intros <-%(inj Some) Hf.
    rewrite !length_append in Hf. cbn [String.length newline] in Hf. destruct fuel as [|fuel]; [lia|]. cbn [decode_events].
    rewrite (next_written e raw rest (Hd e ltac:(by constructor)) E).
    rewrite (IH rest fuel); [done | | done | lia]. intros e' He'. apply Hd. by constructor.
Qed.

Lemma ByPeriod_decoded f ev t from to es e :
  Evidence.ByPeriod f ev t from to = Ok es -> e ∈ es ->
  exists column, ev_Payload e = Evidence.unmarshal_payload column.
Proof.
  unfold Evidence.ByPeriod, Evidence.query, Evidence.withTenant.
  destruct (String.eqb t ""); [done|]. destruct f; cbn; try done. intros [= <-] He.
  rewrite (stable_sort_perm _ _) in He. apply list_elem_of_In, filter_In in He as [He _].
  apply in_map_iff in He as ([k r] & <- & _). by exists (Evidence.r_payload r).
Qed.

Lemma same_stored e i : content_input e = Some i -> same_record e (stored_form e).
Proof.
  intros H. eapply content_input_inj; [exact H|].
  unfold content_input, stored_form in *. cbn. by destruct (ev_Payload e) as [[|]|].
Qed.

Lemma chain_inputs es : forall h head e, chain_from h es = Some head -> e ∈ es ->
  exists i, content_input e = Some i.
Proof.
  induction es as [|a es IH]; intros h head e H He; [by apply elem_of_nil in He|]. cbn in H.
  destruct (ChainHash h a) as [n|] eqn:E; [|done]. apply elem_of_cons in He as [->|He]; [|by eapply IH].
  apply ChainHash_hashed in E as (i & Hi & _). by exists i.
Qed.

(** What is exported can be read back. The archive an export has written restores
    at once to the exported events, and so stands in for the source until somebody
    rewrites it or exports the period again. *)
Theorem export_restores (s : Surroundings) (ev : Evidence.Tables) (w w1 w2 : World) (t p : string)
    (from to : Time) (by_ : string) (m : Manifest) (es : list Event) :
  Evidence.ByPeriod (su_read s) ev t from to = Ok es ->
  Export s ev w t p from to by_ = (w1, Ok m) ->
  objects w2 !! mf_Destination m = objects w1 !! mf_Destination m ->
  Restore true w2 m = Ok (map stored_form es) /\ Forall2 same_record es (map stored_form es).
Proof.
  intros Hp He Hw. destruct (Export_ok _ _ _ _ _ _ _ _ _ _ _ Hp He)
    as (body & head & Hb & Hh & _ & -> & Ho & _). split.
  - unfold Restore, restore_body, Get. rewrite Hw, Ho. cbn [mf_Destination manifest_of].
    rewrite lookup_insert_eq. unfold decodeArchive. rewrite (decode_written es body) by
      (eauto using ByPeriod_decoded). cbn [mf_EventCount mf_ChainHead manifest_of].
    rewrite length_map, Z.eqb_refl. cbn [negb].
    pose proof (proj2 (verify_from_ok (map stored_form es) 0 "" head)) as Hv.
    rewrite chain_from_stored in Hv. specialize (Hv Hh). unfold Verify.
    by destruct (verify_from _ _ _ _) as [i [er|]].
  - rewrite Forall2_fmap_r. apply Forall_Forall2_diag, Forall_forall. intros e Hin.
    destruct (chain_inputs es "" head e Hh Hin) as [i Hi]. by apply (same_stored e i).
Qed.

(** An export whose manifest could not be recorded has replaced the archive all the
    same: the manifest recorded before no longer restores, though nobody tampered with
    anything, as soon as the period has gained an event. *)
Theorem unrecorded_export_spoils_the_archive (s : Surroundings) (ev : Evidence.Tables)
    (w w1 : World) (t p : string) (from to : Time) (by_ : string) (e : RetentionError) (m0 : Manifest)
    (es : list Event) :
  Evidence.ByPeriod (su_read s) ev t from to = Ok es ->
  Export s ev w t p from to by_ = (w1, Err (ErrRecordManifest e)) -> su_save s = Fails ->
  mf_Destination m0 = ObjectKey t p -> mf_EventCount m0 < Z.of_nat (length es) ->
  tables w1 = tables w /\
  exists what, Restore true w1 m0 = Err (ErrTampered what).
Proof.
  intros Hp He Hf Hd Hn. unfold Export in He. rewrite Hp in He. destruct es as [|e0 es]; [done|].
  destruct (encodeArchive (e0 :: es)) as [body|] eqn:Hb; [|done].
  destruct (ChainOver (e0 :: es)) as [head|]; [|done].
  destruct (su_put s); cbn [put_ok negb Put] in He; try done. destruct (su_manifests s); [|done].
  rewrite Hf in He. unfold Store.SaveManifest, Store.withTenant in He.
  assert (w1 = mkWorld (<[ObjectKey t p := body]> (objects w)) (tables w)) as ->
    by (destruct (String.eqb _ ""); cbn [transaction] in He; congruence).
  split; [done|]. unfold Restore, restore_body, Get. cbn [objects]. rewrite Hd, lookup_insert_eq.
  unfold decodeArchive. rewrite (decode_written (e0 :: es) body) by (eauto using ByPeriod_decoded).
  rewrite length_map. destruct (Z.eqb_spec (Z.of_nat (length (e0 :: es))) (mf_EventCount m0)); [lia|].
  cbn [negb]. destruct (_ <? _) eqn:E; b2p; [lia|]. eauto.
Qed.
End Laws.

(** ** Holds *)

Definition binds (db : Store.Tables) (t id : string) : Prop :=
  exists r, Store.holds db !! (t, id) = Some r /\ Store.h_released_at r = None.

Lemma ActiveHolds_fine db t : t <> "" ->
  exists l, Store.ActiveHolds Fine db t = Ok l /\
    forall h, h ∈ l <-> exists id r, Store.holds db !! (t, id) = Some r /\
      Store.h_released_at r = None /\ h = Store.hold_of (t, id) r.
Proof.
  intros Ht. unfold Store.ActiveHolds, Store.withTenant.
  destruct (String.eqb_spec t ""); [done|]. cbn. eexists. split; [reflexivity|]. intros h.
  rewrite (stable_sort_perm _ _), list_elem_of_fmap. split.
  - intros ([[t' id] r] & -> & Hin). apply list_elem_of_In, filter_In in Hin as [Hin Hc].
    apply list_elem_of_In, elem_of_map_to_list in Hin. cbn in Hc.
    apply andb_true_iff in Hc as [->%String.eqb_eq Hr]. exists id, r.
    split; [done|]. split; [by destruct (Store.h_released_at r) | done].
  - intros (id & r & Hl & Hr & ->). exists ((t, id), r). split; [done|].
    apply list_elem_of_In, filter_In. rewrite <- list_elem_of_In, elem_of_map_to_list. split; [done|].
    cbn. by rewrite String.eqb_refl, Hr.
Qed.

Lemma hold_refuses f up w m id :
  binds (tables w) (mf_TenantID m) id -> exists what, Destroy f up w m = Some (ErrHeld what).
Proof.
  intros (r & Hl & Hr). unfold Destroy.
  destruct (Store.ActiveHolds f (tables w) (mf_TenantID m)) as [l|e] eqn:E; [|by eauto].
  assert (Hne : mf_TenantID m <> "").
  { intros Hx. unfold Store.ActiveHolds, Store.withTenant in E. by rewrite Hx in E. }
  assert (f = Fine) as ->.
  { unfold Store.ActiveHolds, Store.withTenant in E.
    destruct (String.eqb_spec (mf_TenantID m) ""); [done|]. by destruct f. }
  destruct (ActiveHolds_fine (tables w) _ Hne) as (l' & El & Hin). rewrite El in E. injection E as ->.
  destruct (List.find Hold_Active l) as [h|] eqn:Ef; [by eauto|].
  apply find_none with (x := Store.hold_of (mf_TenantID m, id) r) in Ef; [done|].
  apply list_elem_of_In, Hin. eauto.
Qed.

(** The gate of a deletion opens exactly when the holds of the manifest's tenant can
    be read and none binds, and the archive restores. *)
Theorem Destroy_permits_iff (f : TxFault) (up : bool) (w : World) (m : Manifest) :
  Destroy f up w m = None <->
  f = Fine /\ mf_TenantID m <> "" /\ (forall id, ~ binds (tables w) (mf_TenantID m) id) /\
  exists es, Restore up w m = Ok es.
Proof.
  split.
  - intros H. assert (Hb : forall id, ~ binds (tables w) (mf_TenantID m) id).
    { intros id Hb. destruct (hold_refuses f up w m id Hb) as [? Hx]. congruence. }
    unfold Destroy, Store.ActiveHolds, Store.withTenant in H.
    destruct (String.eqb_spec (mf_TenantID m) "") as [|Hne]; [done|]. destruct f; cbn in H; try done.
    destruct (List.find _ _); [done|]. destruct (Restore up w m) as [es|]; [by eauto 6 | done].
  - intros (-> & Hne & Hb & es & Hr). unfold Destroy.
    destruct (ActiveHolds_fine (tables w) _ Hne) as (l & -> & Hin).
    destruct (List.find Hold_Active l) as [h|] eqn:Ef; [|by rewrite Hr].
    apply find_some in Ef as [Hl _]. apply list_elem_of_In, Hin in Hl as (id & r & Hl & Hu & _).
    destruct (Hb id). by exists r.
Qed.

(** Everything that happens to the tables and the object store. *)
Inductive retention_op :=
| OExport (s : Surroundings) (ev : Evidence.Tables) (t p : string) (from to : Time) (by_ : string)
| OSave (f : TxFault) (m : Manifest)
| OVerified (f : TxFault) (t id by_ : string) (at_ : Time)
| OPlace (f : TxFault) (h : Hold)
| ORelease (f : TxFault) (t id by_ : string) (at_ : Time)
| ORewrite (o : gmap string string).

Definition retention_step (w : World) (op : retention_op) : World :=
  match op with
  | OExport s ev t p from to by_ => fst (Export s ev w t p from to by_)
  | OSave f m => mkWorld (objects w) (fst (Store.SaveManifest f (tables w) m))
  | OVerified f t id by_ at_ => mkWorld (objects w) (fst (Store.MarkVerified f (tables w) t id by_ at_))
  | OPlace f h => mkWorld (objects w) (fst (Store.PlaceHold f (tables w) h))
  | ORelease f t id by_ at_ => mkWorld (objects w) (fst (Store.ReleaseHold f (tables w) t id by_ at_))
  | ORewrite o => mkWorld o (tables w)
  end.

Definition releases (t id : string) (op : retention_op) : Prop :=
  exists f by_ at_, op = ORelease f t id by_ at_.

Lemma withTenant_state {A} f db t (fn : Store.Tables -> Store.Tables * result A RetentionError) :
  fst (Store.withTenant f db t fn) = db \/ fst (Store.withTenant f db t fn) = fst (fn db).
Proof.
  unfold Store.withTenant. destruct (String.eqb t ""); [by left|].
  destruct (transaction_state ErrDatabase f db fn) as [->|(a & _ & ->)]; auto.
Qed.

Lemma SaveManifest_holds f db m : Store.holds (fst (Store.SaveManifest f db m)) = Store.holds db.
Proof.
  unfold Store.SaveManifest.
  destruct (withTenant_state f db (mf_TenantID m) (fun db =>
    match Store.manifest_refused m with
    | Some what => (db, Err (ErrDatabase what))
    | None => (Store.mkTables (<[(mf_TenantID m, mf_ManifestID m) := Store.unverified m]>
                 (Store.manifests db)) (Store.holds db), Ok ())
    end)) as [->| ->]; [done|]. by destruct (Store.manifest_refused m).
Qed.

Lemma Export_holds s ev w t p from to by_ :
  Store.holds (tables (fst (Export s ev w t p from to by_))) = Store.holds (tables w).
Proof.
  unfold Export. destruct (Evidence.ByPeriod _ _ _ _ _) as [[|e es]|]; [done| |done].
  destruct (encodeArchive _); [|done]. destruct (ChainOver _); [|done].
  destruct (negb _); [done|]. destruct (su_manifests s); [|done].
  match goal with |- context [Store.SaveManifest ?f ?db ?m] =>
    pose proof (SaveManifest_holds f db m) as Hs; destruct (Store.SaveManifest f db m) as [db' [|]] end;
  exact Hs.
Qed.

Lemma step_binds w op t id :
  binds (tables w) t id -> binds (tables (retention_step w op)) t id \/ releases t id op.
Proof.
  intros Hb. destruct op as [s ev t' p from to by_|f m|f t' id' by_ at_|f h|f t' id' by_ at_|o];
    cbn [retention_step tables].
  - left. unfold binds. by rewrite Export_holds.
  - left. unfold binds. by rewrite SaveManifest_holds.
  - left. unfold Store.MarkVerified. by destruct (withTenant_state f (tables w) t' (fun db =>
      (Store.mkTables (alter (Store.verified by_ at_) (t', id') (Store.manifests db)) (Store.holds db),
       Ok ()))) as [->| ->].
  - left. unfold Store.PlaceHold. match goal with |- context [Store.withTenant f ?db ?t0 ?fn] =>
      destruct (withTenant_state f db t0 fn) as [->| ->] end; [done|].
    destruct (Store.holds (tables w) !! (ho_TenantID h, ho_HoldID h)) eqn:E; cbn; [done|].
    destruct Hb as (r & Hl & Hr). exists r. split; [|done]. cbn.
    rewrite lookup_insert_ne; [done|]. intros Hx. rewrite Hx in E. congruence.
  - destruct (decide ((t', id') = (t, id))) as [Heq|Hne].
    + right. injection Heq as -> ->. by exists f, by_, at_.
    + left. unfold Store.ReleaseHold. match goal with |- context [Store.withTenant f ?db ?t0 ?fn] =>
        destruct (withTenant_state f db t0 fn) as [->| ->] end; [done|].
      destruct Hb as (r & Hl & Hr). exists r. cbn. by rewrite lookup_alter_ne.
  - by left.
Qed.

(** C17: A legal hold outranks everything. From the moment a hold is placed under a fresh
    identifier no deletion of that tenant's evidence is permitted, whatever is exported,
    verified, placed, rewritten or lost in between and whatever manifest is presented,
    until that very hold is released. *)
Theorem hold_outranks_everything (w : World) (fault : TxFault) (h : Hold) (db : Store.Tables)
    (ops : list retention_op) :
  Store.holds (tables w) !! (ho_TenantID h, ho_HoldID h) = None ->
  Store.PlaceHold fault (tables w) h = (db, Ok ()) ->
  let w' := run_ops retention_step (mkWorld (objects w) db) ops in
  (exists op, op ∈ ops /\ releases (ho_TenantID h) (ho_HoldID h) op) \/
  forall f up m, mf_TenantID m = ho_TenantID h -> exists what, Destroy f up w' m = Some (ErrHeld what).
Proof.
  intros Hn Hp w'.
  assert (Hb : binds (tables (mkWorld (objects w) db)) (ho_TenantID h) (ho_HoldID h)).
  { unfold Store.PlaceHold, Store.withTenant in Hp. destruct (String.eqb _ ""); [done|].
    apply transaction_ok in Hp as [_ Hp]. rewrite Hn in Hp. injection Hp as <-.
    eexists. cbn. by rewrite lookup_insert_eq. }
  assert (Hr : binds (tables w') (ho_TenantID h) (ho_HoldID h) \/
               exists op, op ∈ ops /\ releases (ho_TenantID h) (ho_HoldID h) op).
  { subst w'. clear Hp. revert Hb. generalize (mkWorld (objects w) db). clear w Hn.
    induction ops as [|op ops IH]; intros w Hb; [by left|].
    destruct (step_binds w op _ _ Hb) as [Hb'|Hr]; [|right; exists op; split; [by constructor | done]].
    destruct (IH _ Hb') as [?|(op' & ? & ?)]; [by left|]. right. exists op'. split; [by constructor | done]. }
  destruct Hr as [Hr|Hr]; [right | by left]. intros f up m Hm. apply (hold_refuses f up w' m (ho_HoldID h)).
  by rewrite Hm.
Qed.
End Retention.

(** * The rules *)

(** A partition is destroyed only past every window: the verdict is DESTROY exactly
    when no hold binds, a policy exists, the partition is archived, its class permits
    deletion and has an archive window, both windows have passed, and an approved
    authorization exists; with the day counts that the table can hold, the windows do
    not wrap. *)
Theorem Decide_destroys_iff (p : Policy) (ageDays : Z) (held archived authorized : bool) :
  po_HotDays p < 2 ^ 31 -> po_ArchiveDays p < 2 ^ 31 ->
  fst (Decide p ageDays held archived authorized) = VerdictDestroy <->
  held = false /\ archived = true /\ authorized = true /\
  po_DeletionMode p = DeletionAuthorized /\ 0 < po_HotDays p /\ 0 < po_ArchiveDays p /\
  po_HotDays p + po_ArchiveDays p <= ageDays.
Proof.
  intros Hh Ha. unfold Decide. destruct held; [by split; [|intros (? & _)]|].
  destruct (po_HotDays p <=? 0) eqn:E1; b2p; [split; [done | intros; lia]|].
  destruct (ageDays <? po_HotDays p) eqn:E2; b2p.
  { split; [done | intros (_ & _ & _ & _ & _ & ? & ?); lia]. }
  destruct archived; [|by split; [|intros (_ & ? & _)]]. cbn [negb].
  destruct (String.eqb_spec (po_DeletionMode p) DeletionAuthorized) as [E3|E3]; cbn [negb];
    [|by split; [|intros (_ & _ & _ & ? & _)]].
  destruct (po_ArchiveDays p <=? 0) eqn:E4; b2p; [split; [done | intros; lia]|].
  rewrite add64_exact by int64_lia.
  destruct (ageDays <? _) eqn:E5; b2p; [split; [done | intros; lia]|].
  destruct authorized; cbn [negb]; [|by split; [|intros (_ & _ & ? & _)]].
  split; [intros _ | done]. split_and!; try done; lia.
Qed.

(** * Divergences *)

Section Divergences.
Context {HJ : Evidence.JSON} {C : Crypto}.
Context (decode_doc : string -> Doc) (rfc3339nano : Time -> string).

(** [Verify] is documented to report where the archive stopped matching: the index it
    reports for an archive that does not match its manifest is always the number of
    events, wherever the edit. *)
Theorem Verify_never_locates (events : list Event) (head what : string) (i : Z) :
  Verify decode_doc rfc3339nano events head = (i, Some (ErrTampered what)) ->
  i = Z.of_nat (length events).
Proof.
  assert (G : forall es h j, verify_from decode_doc rfc3339nano j h es head = (i, Some (ErrTampered what)) ->
    i = j + Z.of_nat (length es)); [|intros H; by apply G in H].
  induction es as [|e es IH]; intros h j; cbn.
  - destruct (negb _); [|done]. intros [= -> _]. lia.
  - destruct (ChainHash _ _ h e); [|done]. intros H%IH. lia.
Qed.
End Divergences.

(** Placing a hold again under the identifier of a released one is answered as done and
    binds nothing. *)
Theorem released_hold_is_not_placed_again (db : Store.Tables) (h : Hold) (r : Store.HoldRow) :
  ho_TenantID h <> "" -> Store.holds db !! (ho_TenantID h, ho_HoldID h) = Some r ->
  Store.h_released_at r <> None ->
  Store.PlaceHold Fine db h = (db, Ok ()) /\ ~ binds db (ho_TenantID h) (ho_HoldID h).
Proof.
  intros Ht Hl Hr. unfold Store.PlaceHold, Store.withTenant.
  destruct (String.eqb_spec (ho_TenantID h) ""); [done|]. cbn. rewrite Hl. split; [done|].
  intros (r' & Hl' & ?). congruence.
Qed.

(** A release that names nobody passes the constraint that is said to refuse it: the
    empty name is not NULL. *)
Theorem hold_released_by_nobody (db : Store.Tables) (t id : string) (at_ : Time) (r : Store.HoldRow) :
  t <> "" -> Store.holds db !! (t, id) = Some r -> Store.h_released_at r = None ->
  exists db', Store.ReleaseHold Fine db t id "" at_ = (db', Ok ()) /\ ~ binds db' t id.
Proof.
  intros Ht Hl Hr. unfold Store.ReleaseHold, Store.withTenant.
  destruct (String.eqb_spec t ""); [done|]. eexists. split; [reflexivity|].
  intros (r' & Hl' & Hu). cbn in Hl'. rewrite lookup_alter_eq, Hl in Hl'. cbn in Hl'.
  injection Hl' as <-. unfold Store.released in Hu. by rewrite Hr in Hu.
Qed.

(** A verification is recorded by the identifier that a re-export reuses, so an archive
    exported after the one that was read back is marked verified. *)
Theorem verification_moves_to_a_re_export (db : Store.Tables) (m : Manifest) (by_ : string)
    (at_ : Time) :
  mf_TenantID m <> "" -> Store.manifest_refused m = None ->
  let saved := fst (Store.SaveManifest Fine db m) in
  Store.manifests (fst (Store.MarkVerified Fine saved (mf_TenantID m) (mf_ManifestID m) by_ at_)) !!
    (mf_TenantID m, mf_ManifestID m) = Some (Store.verified by_ at_ m).
Proof.
  intros Ht Hm. unfold Store.SaveManifest, Store.MarkVerified, Store.withTenant.
  destruct (String.eqb_spec (mf_TenantID m) ""); [done|]. cbn. rewrite Hm. cbn.
  by rewrite lookup_alter_eq, lookup_insert_eq.
Qed.

(** * Witnesses *)

(** A digest that is its own input. *)
Definition plain_crypto : Crypto := {|
  PrivateKey := nat;
  public := fun k => [(k mod 256)%nat];
  sign := fun k m => [(k mod 256)%nat];
  verify := fun pub m sig => bool_decide (pub = sig);
  sha256 := fun m => 1%nat :: map (fun b => b mod 256)%nat m
|}.

Lemma plain_laws : @CryptoLaws plain_crypto.
Proof.
  constructor; cbn [verify public sign sha256 plain_crypto].
  - intros. by apply bool_decide_eq_true.
  - intros. constructor; [apply mod_byte | constructor].
  - done.
  - intros m. constructor; [unfold is_byte; lia|]. apply Forall_fmap, Forall_forall. intros. apply mod_byte.
  - done.
Qed.

(** An event without payload as a line of bits. *)
Fixpoint bits (p : positive) : string :=
  match p with
  | xH => "."
  | xO p' => String "0"%char (bits p')
  | xI p' => String "1"%char (bits p')
  end.

Fixpoint of_bits (s : string) : option positive :=
  match s with
  | "" => None
  | String c s' =>
      if Ascii.eqb c "."%char then Some xH
      else p ← of_bits s'; Some (if Ascii.eqb c "0"%char then xO p else xI p)
  end.

Definition event_code (e : Event) : list positive :=
  map encode [ev_SchemaVersion e; ev_EventID e; ev_EventName e; ev_TenantID e; ev_AggregateID e;
              ev_CorrelationID e; ev_CausationID e; ev_Producer e; ev_CorrectsEventID e] ++
  map encode [ev_OccurredAt e; ev_ProducedAt e; ev_Sequence e].

Definition text (p : positive) : string := default "" (decode p).
Definition number (p : positive) : Z := default 0 (decode p).

Definition event_decode (l : list positive) : option Event :=
  match l with
  | [a; b; c; d; e; f; g; h; i; j; k; n] =>
      Some (Evidence.mkEvent (text a) (text b) (text c) (text d) (text e) (text f) (text g)
              (number j) (number k) (text h) (number n) (text i) None)
  | _ => None
  end.

Definition line_json : Evidence.JSON := {|
  Evidence.marshal_payload := fun _ => Some "{}";
  Evidence.unmarshal_payload := fun _ => None;
  Evidence.marshal_event := fun e => Some (bits (encode (event_code e)));
  Evidence.unmarshal_event := fun _ => None
|}.

Definition next_line (s : string) : ArchiveRead :=
  match Cut (byte_of 10) s with
  | None => if String.eqb s "" then NoMore else Unreadable
  | Some (line, rest) =>
      match p ← of_bits line; l ← decode p; event_decode l with
      | Some e => NextEvent e rest
      | None => Unreadable
      end
  end.

Lemma of_bits_bits p : of_bits (bits p) = Some p /\ str_mem (byte_of 10) (bits p) = false.
Proof. induction p as [p [IH1 IH2]|p [IH1 IH2]|]; cbn; rewrite ?IH1; done. Qed.

Lemma event_decode_code e :
  ev_Payload e = None -> event_decode (event_code e) = Some (stored_form e).
Proof.
  intros Hp. unfold event_code, event_decode, stored_form, text, number. cbn [map app].
  by rewrite !decode_encode, Hp.
Qed.

Lemma line_laws : ArchiveLaws (HJ := line_json) (fun _ => DObject []) fmt_d next_line.
Proof.
  constructor.
  - done.
  - intros s. split; [constructor | done].
  - exact decimal_inj.
  - done.
  - intros e raw rest [column Hp] [= <-]. unfold next_line.
    destruct (of_bits_bits (encode (event_code e))) as [Hb Hn].
    unfold newline. cbn [String.append]. rewrite Cut_app by exact Hn. rewrite Hb.
    change (match l ← decode (encode (event_code e)); event_decode l with
            | Some e => NextEvent e rest
            | None => Unreadable
            end = NextEvent (stored_form e) rest).
    rewrite decode_encode. change (match event_decode (event_code e) with
            | Some e => NextEvent e rest
            | None => Unreadable
            end = NextEvent (stored_form e) rest).
    by rewrite event_decode_code.
Qed.

Definition archived_evidence : Evidence.Tables :=
  fst (Evidence.Append (HJ := line_json) Fine 10
         (fst (Evidence.Append (HJ := line_json) Fine 9 Evidence.empty_tables
                 (Evidence.sample_event "e-1" 5))) (Evidence.sample_event "e-2" 6)).

Definition fine_export (now : Time) : Surroundings := mkSurroundings Fine PutDone true Fine now.
Definition no_archive : World := mkWorld ∅ Store.empty_tables.

Local Abbreviation demo_export s ev w :=
  (Export (HJ := line_json) (C := plain_crypto) (fun _ => DObject []) fmt_d s ev w "tenant-1" "p1" 1 9 "ops").
Local Abbreviation demo_restore :=
  (Restore (HJ := line_json) (C := plain_crypto) (fun _ => DObject []) fmt_d next_line true).

Definition archived : World := fst (demo_export (fine_export 20) archived_evidence no_archive).

Definition demo_manifest : Manifest :=
  match snd (demo_export (fine_export 20) archived_evidence no_archive) with
  | Ok m => m
  | Err _ => mkManifest "" "" "" 0 0 0 "" "" "" 0 None ""
  end.

Definition period : list Event := [Evidence.sample_event "e-1" 5; Evidence.sample_event "e-2" 6].

Lemma archived_run :
  Evidence.ByPeriod (HJ := line_json) Fine archived_evidence "tenant-1" 1 9 = Ok period /\
  demo_export (fine_export 20) archived_evidence no_archive = (archived, Ok demo_manifest) /\
  demo_restore archived demo_manifest = Ok period.
Proof. split_and!; vm_compute; reflexivity. Qed.

Definition no_collisionb {C : Crypto} (l : list bytes_t) : bool :=
  forallb (fun x => forallb (fun y => implb (bool_decide (sha256 x = sha256 y)) (bool_decide (x = y))) l) l.

Lemma no_collision_dec {C : Crypto} l : no_collisionb l = true -> no_collision l.
Proof.
  unfold no_collisionb. rewrite forallb_forall. intros H x y Hx Hy He.
  apply list_elem_of_In in Hx, Hy. specialize (H x Hx). rewrite forallb_forall in H.
  specialize (H y Hy). rewrite bool_decide_eq_true_2 in H by done. by apply bool_decide_eq_true in H.
Qed.

Example restored_is_what_was_exported_witness :
  exists es es', length es = 2%nat /\
    Forall2 (same_record (HJ := line_json) (fun _ => DObject [])) es es'.
Proof.
  exists period, period. split; [reflexivity|]. destruct archived_run as (Hp & He & Hr).
  eapply (restored_is_what_was_exported (HJ := line_json) (C := plain_crypto) (fun _ => DObject []) fmt_d
            next_line (CL := plain_laws) (AL := line_laws) (fine_export 20) _ _ _ archived).
  - exact Hp.
  - exact He.
  - exact Hr.
  - apply no_collision_dec. vm_compute. reflexivity.
Defined.

Example export_restores_witness :
  exists es, length es = 2%nat /\ demo_restore archived demo_manifest = Ok (map stored_form es).
Proof.
  exists period. split; [reflexivity|]. destruct archived_run as (Hp & He & _).
  exact (proj1 (export_restores (HJ := line_json) (C := plain_crypto) (fun _ => DObject []) fmt_d
            next_line (AL := line_laws) (fine_export 20) _ _ _ archived _ _ _ _ _ _ _
            Hp He eq_refl)).
Defined.

(** A third event arrives, the export is repeated, and its manifest is lost. *)
Definition grown_evidence : Evidence.Tables :=
  fst (Evidence.Append (HJ := line_json) Fine 11 archived_evidence (Evidence.sample_event "e-3" 7)).

Definition spoiled : World * result Manifest RetentionError :=
  demo_export (mkSurroundings Fine PutDone true Fails 30) grown_evidence archived.

Example unrecorded_export_spoils_the_archive_witness :
  is_ok (demo_restore archived demo_manifest) = true /\
  exists what, demo_restore (fst spoiled) demo_manifest = Err (ErrTampered what).
Proof.
  split; [vm_compute; reflexivity|].
  refine (proj2 (unrecorded_export_spoils_the_archive (HJ := line_json) (C := plain_crypto)
    (fun _ => DObject []) fmt_d next_line (AL := line_laws) (mkSurroundings Fine PutDone true Fails 30)
    grown_evidence archived (fst spoiled) "tenant-1" "p1" 1 9 "ops" (ErrDatabase "begin") demo_manifest
    (period ++ [Evidence.sample_event "e-3" 7]) _ _ eq_refl _ _)); vm_compute; reflexivity.
Defined.

Definition lawsuit : Hold := mkHold "tenant-1" "h-1" "" "lawsuit" "counsel" 25 None "".
Definition held_tables : Store.Tables := fst (Store.PlaceHold Fine (tables archived) lawsuit).

Local Abbreviation demo_destroy :=
  (Destroy (HJ := line_json) (C := plain_crypto) (fun _ => DObject []) fmt_d next_line Fine true).

Example hold_outranks_everything_witness :
  demo_destroy archived demo_manifest = None /\
  exists what, demo_destroy
    (run_ops (retention_step (HJ := line_json) (C := plain_crypto) (fun _ => DObject []) fmt_d)
       (mkWorld (objects archived) held_tables)
       [OVerified Fine "tenant-1" (mf_ManifestID demo_manifest) "auditor" 26;
        ORelease Fine "tenant-1" "h-2" "counsel" 27]) demo_manifest = Some (ErrHeld what).
Proof.
  split; [vm_compute; reflexivity|].
  destruct (hold_outranks_everything (HJ := line_json) (C := plain_crypto) (fun _ => DObject []) fmt_d
    next_line archived Fine lawsuit held_tables
    [OVerified Fine "tenant-1" (mf_ManifestID demo_manifest) "auditor" 26;
     ORelease Fine "tenant-1" "h-2" "counsel" 27])
    as [(op & Hin & (f & by_ & at_ & ->))|H].
  - vm_compute. reflexivity.
  - vm_compute. reflexivity.
  - apply list_elem_of_In in Hin as [Hx|[Hx|[]]]; discriminate Hx.
  - apply H. reflexivity.
Defined.

Definition week_policy : Policy :=
  mkPolicy "tenant-1" ClassSimulationRecord 7 30 "s3" DeletionAuthorized "officer" 1.

Example Decide_destroys_iff_witness :
  fst (Decide week_policy 37 false true true) = VerdictDestroy /\
  fst (Decide week_policy 36 false true true) = VerdictKeep.
Proof.
  split; [|reflexivity].
  apply (Decide_destroys_iff week_policy 37 false true true); [reflexivity..|].
  split_and!; try reflexivity; vm_compute; discriminate.
Defined.

Example Verify_never_locates_witness :
  exists i, Verify (HJ := line_json) (C := plain_crypto) (fun _ => DObject []) fmt_d
    [Evidence.sample_event "edited" 5; Evidence.sample_event "e-2" 6] (mf_ChainHead demo_manifest) =
    (i, Some (ErrTampered "the archive does not match its manifest")) /\ i = 2.
Proof.
  assert (H : Verify (HJ := line_json) (C := plain_crypto) (fun _ => DObject []) fmt_d
    [Evidence.sample_event "edited" 5; Evidence.sample_event "e-2" 6] (mf_ChainHead demo_manifest) =
    (2, Some (ErrTampered "the archive does not match its manifest"))) by (vm_compute; reflexivity).
  exists 2. split; [exact H | exact (Verify_never_locates (HJ := line_json) (C := plain_crypto) _ _ _ _ _ _ H)].
Defined.

Definition released_tables : Store.Tables :=
  fst (Store.ReleaseHold Fine held_tables "tenant-1" "h-1" "counsel" 40).

Example released_hold_is_not_placed_again_witness :
  Store.PlaceHold Fine released_tables lawsuit = (released_tables, Ok ()) /\
  Store.ActiveHolds Fine released_tables "tenant-1" = Ok [].
Proof.
  split; [|vm_compute; reflexivity].
  destruct (Store.holds released_tables !! ("tenant-1", "h-1")) as [r|] eqn:E;
    [|vm_compute in E; discriminate].
  refine (proj1 (released_hold_is_not_placed_again released_tables lawsuit r _ E _)); [discriminate|].
  vm_compute in E. injection E as <-. discriminate.
Defined.

Example hold_released_by_nobody_witness :
  exists db', Store.ReleaseHold Fine held_tables "tenant-1" "h-1" "" 40 = (db', Ok ()).
Proof.
  destruct (Store.holds held_tables !! ("tenant-1", "h-1")) as [r|] eqn:E;
    [|vm_compute in E; discriminate].
  destruct (hold_released_by_nobody held_tables "tenant-1" "h-1" 40 r ltac:(discriminate) E) as (db' & H & _).
  - vm_compute in E. injection E as <-. reflexivity.
  - exists db'. exact H.
Defined.

Definition re_exported : Manifest :=
  mkManifest "tenant-1" "man_tenant-1_p1" "p1" 1 9 3 "other" "evidence/tenant-1/p1.jsonl" "ops" 30 None "".

Example verification_moves_to_a_re_export_witness :
  Store.manifests (fst (Store.MarkVerified Fine (fst (Store.SaveManifest Fine Store.empty_tables re_exported))
    "tenant-1" "man_tenant-1_p1" "auditor" 50)) !! ("tenant-1", "man_tenant-1_p1") =
    Some (Store.verified "auditor" 50 re_exported).
Proof.
  exact (verification_moves_to_a_re_export Store.empty_tables re_exported "auditor" 50
           ltac:(discriminate) eq_refl).
Defined.
