(* ===== verification/Simulation.v ===== *)
(** Simulation runs: internal/simulation run.go, store.go, runner.go, evidence.go, api.go.

    A caller asks for a run of the digital twin; it is recorded as QUEUED, waits for one of
    a few slots, and an engine process runs it while a watchdog polls its row.  [Store] is
    the table of runs; the goroutines of one replica are tasks, and [sim_step] is the
    relation of their atomic actions, interleaved with requests, with the death of the
    process, and with the same actions of other replicas on the shared table.  The engine
    is a parameter of the step that ends it: whatever it printed.  Parsing its output and
    the requests' bodies are parameters.  Recording a run and registering its cancel
    function are one action, and so are a queued task's look at its context and its start; a
    cancellation that fell between them would find the row and not the task, which is what
    a cancellation by another replica does, and that is a step. *)

From stdpp Require Import relations.
From S2P Require Import Prelude Strings Money CanonicalJSON Identity Http.
From S2P Require Evidence Submission Crypto.

(** * Runs and requests (run.go) *)

Abbreviation Status := string.
Definition StatusQueued : Status := "QUEUED".
Definition StatusRunning : Status := "RUNNING".
Definition StatusCompleted : Status := "COMPLETED".
Definition StatusFailed : Status := "FAILED".
Definition StatusCancelled : Status := "CANCELLED".

Definition Terminal (s : Status) : bool :=
  String.eqb s StatusCompleted || String.eqb s StatusFailed || String.eqb s StatusCancelled.

(** The engine's record, a decoded JSON object. *)
Abbreviation EngineRecord := (list (string * Doc)).

Record SimRequest := mkSimRequest {
  sq_TenantID : string;
  sq_Scenario : string;
  sq_Seed : option Z;
  sq_RequestedBy : string;
  sq_SubmittedBy : string
}.

Inductive ScenarioError := ScenarioEmpty | ScenarioLong | ScenarioCharacter.

Definition name_byte (b : nat) : bool :=
  ((97 <=? b) && (b <=? 122) || (65 <=? b) && (b <=? 90) || (48 <=? b) && (b <=? 57) ||
   (b =? 95) || (b =? 45))%nat.

(** The runes of a name are single bytes when every byte is a name byte, and a rune of
    more bytes has none. *)
Definition ValidateScenarioName (name : string) : result string ScenarioError :=
  let name := TrimSpace name in
  if String.eqb name "" then Err ScenarioEmpty
  else if (64 <? String.length name)%nat then Err ScenarioLong
  else if String.eqb name "demo" then Ok name
  else if forallb name_byte (bytes name) then Ok name
  else Err ScenarioCharacter.

(** The problems of a request, in the order they are reported. *)
Definition Validate (r : SimRequest) : list string :=
  problem (blank (sq_TenantID r)) "tenant is required" ++
  problem (match sq_Seed r with None => true | Some _ => false end) "seed is required" ++
  problem (blank (sq_RequestedBy r)) "requested_by is required" ++
  problem (negb (is_ok (ValidateScenarioName (sq_Scenario r)))) "scenario is not a scenario name".

Record Run := mkRun {
  ru_RunID : string;
  ru_TenantID : string;
  ru_Scenario : string;
  ru_Seed : Z;
  ru_RequestedBy : string;
  ru_Status : Status;
  ru_RequestedAt : Time;
  ru_StartedAt : option Time;
  ru_CompletedAt : option Time;
  ru_ExperimentID : string;
  ru_ResultFingerprint : string;
  ru_ScenarioSourceHash : string;
  ru_Record : option EngineRecord;
  ru_Error : string;
  ru_SubmittedBy : string;
  ru_CancelledAt : option Time;
  ru_CancelledBy : string;
  ru_CancelledByIdentity : string
}.

Definition Run_Duration (r : Run) : Duration :=
  match ru_StartedAt r, ru_CompletedAt r with
  | Some s, Some c => TimeSub c s
  | _, _ => 0
  end.

(** * The table (store.go) *)

Inductive SimError :=
| ErrTenantRequired
| ErrNoActor
| ErrNoSuchRun
| ErrNotCancellable
| ErrUnreadableRecord
| ErrDatabase (what : string).

Module Store.
Record Row := mkRow {
  r_scenario : string;
  r_seed : Z;
  r_requested_by : string;
  r_status : Status;
  r_requested_at : Time;
  r_started_at : option Time;
  r_completed_at : option Time;
  r_experiment_id : option string;
  r_result_fingerprint : option string;
  r_scenario_source_hash : option string;
  r_record : option string;
  r_error : option string;
  r_cancelled_at : option Time;
  r_cancelled_by : option string;
  r_submitted_by : option string;
  r_cancelled_by_identity : option string
}.

(** simulation_runs, keyed by (tenant_id, run_id). *)
Abbreviation Tables := (gmap (string * string) Row).

Definition withTenant {A : Type} (f : TxFault) (db : Tables) (tenantID : string)
    (fn : Tables -> Tables * result A SimError) : Tables * result A SimError :=
  if String.eqb tenantID "" then (db, Err ErrTenantRequired) else transaction ErrDatabase f db fn.

Definition is_null {A : Type} (o : option A) : bool := match o with None => true | Some _ => false end.

(** The CHECK constraints. *)
Definition row_refused (r : Row) : option string :=
  if negb (contains [StatusQueued; StatusRunning; StatusCompleted; StatusFailed; StatusCancelled]
             (r_status r)) then Some "simulation_status_valid"
  else if String.eqb (r_status r) StatusCompleted &&
          (is_null (r_result_fingerprint r) || is_null (r_record r))
       then Some "simulation_completed_is_reproducible"
  else if String.eqb (r_status r) StatusFailed && is_null (r_error r)
       then Some "simulation_failed_says_why"
  else if String.eqb (r_status r) StatusCancelled &&
          (is_null (r_cancelled_at r) || is_null (r_cancelled_by r))
       then Some "simulation_cancelled_has_an_actor"
  else None.

(** An UPDATE of one row under a condition: whether a row changed. *)
Definition update (db : Tables) (k : string * string) (cond : Row -> bool) (set : Row -> Row)
    : Tables * result bool SimError :=
  match db !! k with
  | Some r =>
      if cond r then
        match row_refused (set r) with
        | Some what => (db, Err (ErrDatabase what))
        | None => (<[k := set r]> db, Ok true)
        end
      else (db, Ok false)
  | None => (db, Ok false)
  end.

Definition nullIfEmpty (s : string) : option string := if String.eqb s "" then None else Some s.

Definition in_progress (r : Row) : bool := contains [StatusQueued; StatusRunning] (r_status r).

Definition set_cancelled (at_ : Time) (by_ byIdentity : string) (r : Row) : Row :=
  mkRow (r_scenario r) (r_seed r) (r_requested_by r) StatusCancelled (r_requested_at r)
    (r_started_at r) (match r_completed_at r with Some c => Some c | None => Some at_ end)
    (r_experiment_id r) (r_result_fingerprint r) (r_scenario_source_hash r) (r_record r) (r_error r)
    (Some at_) (Some by_) (r_submitted_by r) (nullIfEmpty byIdentity).

Definition Cancel (f : TxFault) (db : Tables) (tenantID runID : string) (at_ : Time)
    (by_ byIdentity : string) : Tables * result bool SimError :=
  if String.eqb by_ "" then (db, Err ErrNoActor)
  else withTenant f db tenantID (fun db =>
    update db (tenantID, runID) in_progress (set_cancelled at_ by_ byIdentity)).

Definition Status_ (f : TxFault) (db : Tables) (tenantID runID : string) : result Status SimError :=
  snd (withTenant f db tenantID (fun db =>
    (db, match db !! (tenantID, runID) with
         | Some r => Ok (r_status r)
         | None => Err ErrNoSuchRun
         end))).

Definition created (run : Run) : Row :=
  mkRow (ru_Scenario run) (ru_Seed run) (ru_RequestedBy run) (ru_Status run) (ru_RequestedAt run)
    None None None None None None None None None (nullIfEmpty (ru_SubmittedBy run)) None.

(** A plain INSERT: the primary key refuses a second row. *)
Definition Create (f : TxFault) (db : Tables) (run : Run) : Tables * result unit SimError :=
  withTenant f db (ru_TenantID run) (fun db =>
    match db !! (ru_TenantID run, ru_RunID run) with
    | Some _ => (db, Err (ErrDatabase "simulation_runs_pkey"))
    | None =>
        match row_refused (created run) with
        | Some what => (db, Err (ErrDatabase what))
        | None => (<[(ru_TenantID run, ru_RunID run) := created run]> db, Ok ())
        end
    end).

Definition ignore {A : Type} (x : Tables * result A SimError) : Tables * result unit SimError :=
  match x with (db, Ok _) => (db, Ok ()) | (db, Err e) => (db, Err e) end.

Definition set_running (at_ : Time) (r : Row) : Row :=
  mkRow (r_scenario r) (r_seed r) (r_requested_by r) StatusRunning (r_requested_at r)
    (Some at_) (r_completed_at r) (r_experiment_id r) (r_result_fingerprint r)
    (r_scenario_source_hash r) (r_record r) (r_error r) (r_cancelled_at r) (r_cancelled_by r)
    (r_submitted_by r) (r_cancelled_by_identity r).

Definition Start (f : TxFault) (db : Tables) (tenantID runID : string) (at_ : Time)
    : Tables * result unit SimError :=
  withTenant f db tenantID (fun db =>
    ignore (update db (tenantID, runID) (fun r => String.eqb (r_status r) StatusQueued)
              (set_running at_))).

(** [status NOT IN ('COMPLETED', 'CANCELLED')] *)
Definition unsettled (r : Row) : bool := negb (contains [StatusCompleted; StatusCancelled] (r_status r)).

Definition set_completed (at_ : Time) (run : Run) (encoded : string) (r : Row) : Row :=
  mkRow (r_scenario r) (r_seed r) (r_requested_by r) StatusCompleted (r_requested_at r)
    (r_started_at r) (Some at_) (nullIfEmpty (ru_ExperimentID run))
    (nullIfEmpty (ru_ResultFingerprint run)) (nullIfEmpty (ru_ScenarioSourceHash run))
    (Some encoded) (r_error r) (r_cancelled_at r) (r_cancelled_by r) (r_submitted_by r)
    (r_cancelled_by_identity r).

Definition set_failed (at_ : Time) (reason : string) (r : Row) : Row :=
  mkRow (r_scenario r) (r_seed r) (r_requested_by r) StatusFailed (r_requested_at r)
    (r_started_at r) (Some at_) (r_experiment_id r) (r_result_fingerprint r)
    (r_scenario_source_hash r) (r_record r) (Some reason) (r_cancelled_at r) (r_cancelled_by r)
    (r_submitted_by r) (r_cancelled_by_identity r).

Definition Fail (f : TxFault) (db : Tables) (tenantID runID : string) (at_ : Time) (reason : string)
    : Tables * result unit SimError :=
  let reason := if String.eqb reason "" then "the engine failed without saying why" else reason in
  withTenant f db tenantID (fun db =>
    ignore (update db (tenantID, runID) unsettled (set_failed at_ reason))).

Section Records.
(** The record column, written by json.Marshal and read by json.Unmarshal. *)
Context (marshal_record : option EngineRecord -> string).
Context (unmarshal_record : string -> option (option EngineRecord)).

Definition Complete (f : TxFault) (db : Tables) (run : Run) (at_ : Time)
    : Tables * result unit SimError :=
  withTenant f db (ru_TenantID run) (fun db =>
    ignore (update db (ru_TenantID run, ru_RunID run) unsettled
              (set_completed at_ run (marshal_record (ru_Record run))))).

Definition scanRun (k : string * string) (r : Row) : result Run SimError :=
  let run record :=
    mkRun (snd k) (fst k) (r_scenario r) (r_seed r) (r_requested_by r) (r_status r)
      (r_requested_at r) (r_started_at r) (r_completed_at r) (default "" (r_experiment_id r))
      (default "" (r_result_fingerprint r)) (default "" (r_scenario_source_hash r)) record
      (default "" (r_error r)) (default "" (r_submitted_by r)) (r_cancelled_at r)
      (default "" (r_cancelled_by r)) (default "" (r_cancelled_by_identity r)) in
  match r_record r with
  | None | Some "" => Ok (run None)
  | Some encoded =>
      match unmarshal_record encoded with
      | Some record => Ok (run record)
      | None => Err ErrUnreadableRecord
      end
  end.

(** [None] is the nil run of a tenant that has none by that name. *)
Definition Load (f : TxFault) (db : Tables) (tenantID runID : string) : result (option Run) SimError :=
  snd (withTenant f db tenantID (fun db =>
    (db, match db !! (tenantID, runID) with
         | None => Ok None
         | Some r => match scanRun (tenantID, runID) r with
                     | Ok run => Ok (Some run)
                     | Err e => Err e
                     end
         end))).

Definition without_record (r : Run) : Run :=
  mkRun (ru_RunID r) (ru_TenantID r) (ru_Scenario r) (ru_Seed r) (ru_RequestedBy r) (ru_Status r)
    (ru_RequestedAt r) (ru_StartedAt r) (ru_CompletedAt r) (ru_ExperimentID r)
    (ru_ResultFingerprint r) (ru_ScenarioSourceHash r) None (ru_Error r) (ru_SubmittedBy r)
    (ru_CancelledAt r) (ru_CancelledBy r) (ru_CancelledByIdentity r).

Definition newer (a b : (string * string) * Row) : bool :=
  r_requested_at (snd b) <? r_requested_at (snd a).

Fixpoint scan_all (l : list ((string * string) * Row)) : result (list Run) SimError :=
  match l with
  | [] => Ok []
  | (k, r) :: l' =>
      let? run := scanRun k r in
      let? runs := scan_all l' in Ok (without_record run :: runs)
  end.

Definition List (f : TxFault) (db : Tables) (tenantID : string) (limit : Z) : result (list Run) SimError :=
  let limit := if (limit <=? 0) || (200 <? limit) then 50 else limit in
  snd (withTenant f db tenantID (fun db =>
    (db, scan_all (take (Z.to_nat limit)
           (stable_sort newer
              (filter (fun x => fst (fst x) = tenantID) (map_to_list db))))))).
End Records.
End Store.

(** * The runner (runner.go, evidence.go) *)

Inductive SubmitError :=
| ErrProblems (what : list string)
| ErrUnsafeScenario
| ErrNoScenario (name : string)
| ErrNotRecorded (e : SimError).

(** What the engine process did: printed something, refused with a text on its standard
    error, or did not finish in time. *)
Inductive EngineOutcome :=
| Printed (stdout : string)
| Refused (stderr err : string)
| TimedOut.

Inductive TaskState :=
| Waiting
| HasSlot
| Engine.

(** The goroutine of an accepted run and whether its context is cancelled. *)
Record Task := mkTask {
  tk_run : Run;
  tk_state : TaskState;
  tk_cancelled : bool
}.

(** A replica: the shared tables, its goroutines, the cancel functions it holds by
    [inFlightKey], and the evidence. *)
Record Replica := mkReplica {
  rp_runs : Store.Tables;
  rp_tasks : gmap (string * string) Task;
  rp_inFlight : gmap string (string * string);
  rp_evidence : Evidence.Tables;
  rp_sequence : Z
}.

Definition inFlightKey (tenantID runID : string) : string := tenantID +:+ "/" +:+ runID.

Definition with_runs (rp : Replica) (db : Store.Tables) : Replica :=
  mkReplica db (rp_tasks rp) (rp_inFlight rp) (rp_evidence rp) (rp_sequence rp).

Definition unixNanoEpoch : Z := 62135596800 * Second.
Definition UnixNano (t : Time) : Z := wrap64 (t - unixNanoEpoch).

Definition limit_bytes (n : nat) (s : string) : string := String.substring 0 n s.

Section Runner.
Context {HJ : Evidence.JSON}.
Context (marshal_record : option EngineRecord -> string).
Context (unmarshal_record : string -> option (option EngineRecord)).
(** json.Unmarshal of the engine's output into a map; null gives a nil map *)
Context (unmarshal_output : string -> result EngineRecord string).
(** the scenario directory, made absolute *)
Context (dir : string).
Context (concurrency : nat).

(** What surrounds an append of evidence: whether a store is configured, the clock when
    the event is made and in the database, and the fault. *)
Record EvidenceMoment := mkEvidenceMoment {
  em_store : bool;
  em_at : Time;
  em_dbnow : Time;
  em_fault : TxFault
}.

(** [Events.append]: a failure to record never fails a run. *)
Definition append (em : EvidenceMoment) (rp : Replica) (run : Run) (name : Evidence.EventName)
    (payload : list (string * Evidence.Value)) : Replica :=
  if negb (em_store em) then rp else
  let seq := add64 (rp_sequence rp) 1 in
  let e := Evidence.mkEvent Evidence.SchemaVersion
             (ru_RunID run +:+ "_" +:+ name +:+ "_" +:+ fmt_d seq) name (ru_TenantID run)
             (ru_RunID run) (ru_RunID run) "" (em_at em) (em_at em) "fleet-engine" seq ""
             (Some payload) in
  mkReplica (rp_runs rp) (rp_tasks rp) (rp_inFlight rp)
    (fst (Evidence.Append (em_fault em) (em_dbnow em) (rp_evidence rp) e)) seq.

Definition SimulationStarted : Evidence.EventName := "simulation.started.v1".
Definition SimulationCompleted : Evidence.EventName := "simulation.completed.v1".
Definition SimulationFailed : Evidence.EventName := "simulation.failed.v1".
Definition SimulationCancelled : Evidence.EventName := "simulation.cancelled.v1".

Definition Started (em : EvidenceMoment) (rp : Replica) (run : Run) : Replica :=
  append em rp run SimulationStarted
    [("scenario", Evidence.VString (ru_Scenario run)); ("seed", Evidence.VInt (ru_Seed run));
     ("requested_by", Evidence.VString (ru_RequestedBy run))].

Definition Completed (em : EvidenceMoment) (rp : Replica) (run : Run) : Replica :=
  append em rp run SimulationCompleted
    [("scenario", Evidence.VString (ru_Scenario run)); ("seed", Evidence.VInt (ru_Seed run));
     ("experiment_id", Evidence.VString (ru_ExperimentID run));
     ("result_fingerprint", Evidence.VString (ru_ResultFingerprint run));
     ("scenario_source_hash", Evidence.VString (ru_ScenarioSourceHash run));
     ("duration_ms", Evidence.VInt (Z.quot (Run_Duration run) 1000000))].

Definition Cancelled (em : EvidenceMoment) (rp : Replica) (run : Run) : Replica :=
  append em rp run SimulationCancelled
    [("scenario", Evidence.VString (ru_Scenario run)); ("seed", Evidence.VInt (ru_Seed run));
     ("requested_by", Evidence.VString (ru_RequestedBy run));
     ("cancelled_by", Evidence.VString (ru_CancelledBy run))].

Definition Failed (em : EvidenceMoment) (rp : Replica) (run : Run) : Replica :=
  append em rp run SimulationFailed
    [("scenario", Evidence.VString (ru_Scenario run)); ("seed", Evidence.VInt (ru_Seed run));
     ("error", Evidence.VString (ru_Error run))].

(** [filepath.Join] and [filepath.Rel] of a clean absolute directory and a name without
    separators or dots. *)
Definition Join_dir (elem : string) : string :=
  if String.eqb dir "/" then dir +:+ elem else dir +:+ "/" +:+ elem.
Definition Rel_dir (path : string) : option string :=
  if String.eqb dir "/" then CutPrefix path dir else CutPrefix path (dir +:+ "/").

(** [is_file] is [os.Stat]: a file, not a directory, at a path. *)
Definition ResolveScenario (is_file : string -> bool) (name : string) : result string SubmitError :=
  match ValidateScenarioName name with
  | Err _ => Err ErrUnsafeScenario
  | Ok name =>
      if String.eqb name "demo" then Ok "demo"
      else
        let path := Join_dir (name +:+ ".json") in
        if negb (bool_decide (Rel_dir path = Some (name +:+ ".json"))) then Err ErrUnsafeScenario
        else if is_file path then Ok path else Err (ErrNoScenario name)
  end.

Definition queued_run (at_ : Time) (req : SimRequest) (seed : Z) : Run :=
  mkRun ("sim_" +:+ fmt_d (UnixNano at_) +:+ "_" +:+ sq_Scenario req) (sq_TenantID req)
    (sq_Scenario req) seed (sq_RequestedBy req) StatusQueued at_ None None "" "" "" None ""
    (sq_SubmittedBy req) None "" "".

Definition run_key (run : Run) : string * string := (ru_TenantID run, ru_RunID run).

Definition register (rp : Replica) (db : Store.Tables) (run : Run) : Replica :=
  mkReplica db (<[run_key run := mkTask run Waiting false]> (rp_tasks rp))
    (<[inFlightKey (ru_TenantID run) (ru_RunID run) := run_key run]> (rp_inFlight rp))
    (rp_evidence rp) (rp_sequence rp).

(** [Submit]: the run is durable, registered, and its goroutine started. *)
Definition Submit (is_file : string -> bool) (f : TxFault) (at_ : Time) (rp : Replica) (req : SimRequest)
    : Replica * result Run SubmitError :=
  match Validate req, sq_Seed req with
  | _ :: _ as problems, _ => (rp, Err (ErrProblems problems))
  | [], None => (rp, Err (ErrProblems []))
  | [], Some seed =>
      match ResolveScenario is_file (sq_Scenario req) with
      | Err e => (rp, Err e)
      | Ok _ =>
          let run := queued_run at_ req seed in
          match Store.Create f (rp_runs rp) run with
          | (db, Err e) => (with_runs rp db, Err (ErrNotRecorded e))
          | (db, Ok _) => (register rp db run, Ok run)
          end
      end
  end.

Definition cancel_task (rp : Replica) (k : string * string) : Replica :=
  mkReplica (rp_runs rp)
    (alter (fun t => mkTask (tk_run t) (tk_state t) true) k (rp_tasks rp))
    (rp_inFlight rp) (rp_evidence rp) (rp_sequence rp).

Definition cancelled_run (r : Run) (at_ : Time) (by_ byIdentity : string) : Run :=
  mkRun (ru_RunID r) (ru_TenantID r) (ru_Scenario r) (ru_Seed r) (ru_RequestedBy r)
    StatusCancelled (ru_RequestedAt r) (ru_StartedAt r) (ru_CompletedAt r) (ru_ExperimentID r)
    (ru_ResultFingerprint r) (ru_ScenarioSourceHash r) (ru_Record r) (ru_Error r)
    (ru_SubmittedBy r) (Some at_) by_ byIdentity.

Record CancelMoment := mkCancelMoment {
  cm_load : TxFault;
  cm_write : TxFault;
  cm_now : Time;
  cm_evidence : EvidenceMoment
}.

(** [Cancel]: the store settles it, then this replica's engine is stopped if it holds it. *)
Definition Cancel (m : CancelMoment) (rp : Replica) (tenantID runID by_ byIdentity : string)
    : Replica * result bool SimError :=
  match Store.Load unmarshal_record (cm_load m) (rp_runs rp) tenantID runID with
  | Err e => (rp, Err e)
  | Ok None => (rp, Err ErrNoSuchRun)
  | Ok (Some existing) =>
      match Store.Cancel (cm_write m) (rp_runs rp) tenantID runID (cm_now m) by_ byIdentity with
      | (db, Err e) => (with_runs rp db, Err e)
      | (db, Ok false) => (with_runs rp db, Err ErrNotCancellable)
      | (db, Ok true) =>
          let rp1 := with_runs rp db in
          let held := rp_inFlight rp !! inFlightKey tenantID runID in
          let rp2 := match held with Some k => cancel_task rp1 k | None => rp1 end in
          (Cancelled (cm_evidence m) rp2 (cancelled_run existing (em_at (cm_evidence m)) by_ byIdentity),
           Ok (match held with Some _ => true | None => false end))
      end
  end.

(** ** The goroutine of a run: [execute] *)

(** The deferred calls: the slot is given back and the run unregistered. *)
Definition leave (rp : Replica) (k : string * string) : Replica :=
  mkReplica (rp_runs rp) (delete k (rp_tasks rp))
    (delete (inFlightKey (fst k) (snd k)) (rp_inFlight rp)) (rp_evidence rp) (rp_sequence rp).

Definition set_task (rp : Replica) (k : string * string) (t : Task) : Replica :=
  mkReplica (rp_runs rp) (<[k := t]> (rp_tasks rp)) (rp_inFlight rp) (rp_evidence rp)
    (rp_sequence rp).

Definition has_slot (t : Task) : bool := match tk_state t with Waiting => false | _ => true end.

(** The slots that are taken. *)
Definition busy (rp : Replica) : nat := size (filter (fun x => has_slot (snd x) = true) (rp_tasks rp)).

Definition started_run (run : Run) (at_ : Time) : Run :=
  mkRun (ru_RunID run) (ru_TenantID run) (ru_Scenario run) (ru_Seed run) (ru_RequestedBy run)
    StatusRunning (ru_RequestedAt run) (Some at_) (ru_CompletedAt run) (ru_ExperimentID run)
    (ru_ResultFingerprint run) (ru_ScenarioSourceHash run) (ru_Record run) (ru_Error run)
    (ru_SubmittedBy run) (ru_CancelledAt run) (ru_CancelledBy run) (ru_CancelledByIdentity run).

(** From the slot to the engine: [Start] is recorded as far as it can be. *)
Definition begin_engine (f : TxFault) (at_ : Time) (em : EvidenceMoment) (rp : Replica)
    (k : string * string) (t : Task) : Replica :=
  if tk_cancelled t then leave rp k
  else
    let run := started_run (tk_run t) at_ in
    let db := fst (Store.Start f (rp_runs rp) (ru_TenantID run) (ru_RunID run) at_) in
    Started em (set_task (with_runs rp db) k (mkTask run Engine false)) run.

(** One round of the watchdog; an unreadable row is no reason to stop. *)
Definition watch_tick (f : TxFault) (rp : Replica) (k : string * string) : Replica :=
  match Store.Status_ f (rp_runs rp) (fst k) (snd k) with
  | Ok s => if String.eqb s StatusCancelled then cancel_task rp k else rp
  | Err _ => rp
  end.

Definition lookup_string (record : EngineRecord) (key : string) : option string :=
  match find (fun x => String.eqb (fst x) key) record with
  | Some (_, DString s) => Some s
  | _ => None
  end.

(** [invoke]: the record, or why there is none. *)
Definition invoke (is_file : string -> bool) (run : Run) (outcome : EngineOutcome) : result EngineRecord string :=
  match ResolveScenario is_file (ru_Scenario run) with
  | Err _ => Err "the scenario does not resolve"
  | Ok _ =>
      match outcome with
      | TimedOut => Err "the engine did not finish in time"
      | Refused stderr err =>
          let detail := limit_bytes (8 * 1024) stderr in
          Err ("the engine refused or failed: " +:+ (if String.eqb detail "" then err else detail))
      | Printed stdout =>
          match unmarshal_output stdout with
          | Err e => Err ("the engine's output is not a record: " +:+ e)
          | Ok record =>
              match lookup_string record "result_fingerprint" with
              | None => Err "the engine returned a record with no result_fingerprint"
              | Some _ => Ok record
              end
          end
      end
  end.

Definition failed_run (run : Run) (at_ : Time) (why : string) : Run :=
  mkRun (ru_RunID run) (ru_TenantID run) (ru_Scenario run) (ru_Seed run) (ru_RequestedBy run)
    StatusFailed (ru_RequestedAt run) (ru_StartedAt run) (Some at_) (ru_ExperimentID run)
    (ru_ResultFingerprint run) (ru_ScenarioSourceHash run) (ru_Record run) why
    (ru_SubmittedBy run) (ru_CancelledAt run) (ru_CancelledBy run) (ru_CancelledByIdentity run).

Definition completed_run (run : Run) (at_ : Time) (record : EngineRecord) : Run :=
  mkRun (ru_RunID run) (ru_TenantID run) (ru_Scenario run) (ru_Seed run) (ru_RequestedBy run)
    StatusCompleted (ru_RequestedAt run) (ru_StartedAt run) (Some at_)
    (default "" (lookup_string record "experiment_id"))
    (default "" (lookup_string record "result_fingerprint"))
    (default "" (lookup_string record "scenario_source_hash")) (Some record) (ru_Error run)
    (ru_SubmittedBy run) (ru_CancelledAt run) (ru_CancelledBy run) (ru_CancelledByIdentity run).

(** After the engine: the outcome is recorded as far as it can be, and the goroutine
    leaves. *)
Definition finish (is_file : string -> bool) (f : TxFault) (at_ : Time) (em : EvidenceMoment) (rp : Replica)
    (k : string * string) (t : Task) (outcome : EngineOutcome) : Replica :=
  let run := tk_run t in
  match invoke is_file run outcome with
  | Err why =>
      if tk_cancelled t then leave rp k
      else
        let db := fst (Store.Fail f (rp_runs rp) (ru_TenantID run) (ru_RunID run) at_ why) in
        leave (Failed em (with_runs rp db) (failed_run run at_ why)) k
  | Ok record =>
      let run := completed_run run at_ record in
      let db := fst (Store.Complete marshal_record f (rp_runs rp) run at_) in
      leave (Completed em (with_runs rp db) run) k
  end.

(** What another replica does to the shared table. *)
Inductive Elsewhere :=
| ECreate (at_ : Time) (req : SimRequest) (seed : Z)
| EStart (t id : string) (at_ : Time)
| EComplete (run : Run) (at_ : Time)
| EFail (t id : string) (at_ : Time) (why : string)
| ECancel (t id : string) (at_ : Time) (by_ who : string).

Definition elsewhere (f : TxFault) (db : Store.Tables) (e : Elsewhere) : Store.Tables :=
  match e with
  | ECreate at_ req seed =>
      match Validate req with [] => fst (Store.Create f db (queued_run at_ req seed)) | _ => db end
  | EStart t id at_ => fst (Store.Start f db t id at_)
  | EComplete run at_ => fst (Store.Complete marshal_record f db run at_)
  | EFail t id at_ why => fst (Store.Fail f db t id at_ why)
  | ECancel t id at_ by_ who => fst (Store.Cancel f db t id at_ by_ who)
  end.

(** The atomic actions of a replica. The select of [execute] may take a slot although
    the context is cancelled; a process that dies keeps nothing but the tables. *)
Inductive sim_step : Replica -> Replica -> Prop :=
| step_submit is_file f at_ rp req : sim_step rp (fst (Submit is_file f at_ rp req))
| step_cancel m rp t id by_ who : sim_step rp (fst (Cancel m rp t id by_ who))
| step_slot rp k task :
    rp_tasks rp !! k = Some task -> tk_state task = Waiting -> (busy rp < concurrency)%nat ->
    sim_step rp (set_task rp k (mkTask (tk_run task) HasSlot (tk_cancelled task)))
| step_give_up rp k task :
    rp_tasks rp !! k = Some task -> tk_state task = Waiting -> tk_cancelled task = true ->
    sim_step rp (leave rp k)
| step_begin f at_ em rp k task :
    rp_tasks rp !! k = Some task -> tk_state task = HasSlot ->
    sim_step rp (begin_engine f at_ em rp k task)
| step_watch f rp k task :
    rp_tasks rp !! k = Some task -> tk_state task = Engine -> sim_step rp (watch_tick f rp k)
| step_finish is_file f at_ em rp k task outcome :
    rp_tasks rp !! k = Some task -> tk_state task = Engine ->
    sim_step rp (finish is_file f at_ em rp k task outcome)
| step_elsewhere f e rp : sim_step rp (with_runs rp (elsewhere f (rp_runs rp) e))
| step_crash rp : sim_step rp (mkReplica (rp_runs rp) ∅ ∅ (rp_evidence rp) 0).

(** * The HTTP surface (api.go) *)

Definition MaxRequestBytes : nat := 8 * 1024.

(** The strings of a decoded body. *)
Record cancelRequest := mkCancelRequest { cq_CancelledBy : string }.
Record submitRequest := mkSubmitRequest {
  bq_Scenario : string;
  bq_Seed : option Z;
  bq_RequestedBy : string
}.

Inductive SimBody :=
| SError (what : string)
| SRun (run : Run)
| SRuns (tenant : string) (runs : list Run)
| SCancelled (runID : string)
| SStopped (run : Run) (stopped : bool).

Record Answer := mkAnswer { an_Status : Z; an_Body : SimBody }.
Definition writeError (status : Z) (what : string) : Answer := mkAnswer status (SError what).

Section API.
Context {Pool : Type} (chain : Pool -> list Certificate -> Certificate -> Time -> option X509Error).
Context (sv : Server (Pool := Pool)).
Context (decode_submit : string -> result submitRequest string).
Context (decode_cancel : string -> result cancelRequest string).

(** What surrounds a request: whether a store and an engine are configured, the clock,
    the file system, and the faults. *)
Record ApiMoment := mkApiMoment {
  am_store : bool;
  am_runner : bool;
  am_clock : nat -> Time;
  am_is_file : string -> bool;
  am_create : TxFault;
  am_cancel : CancelMoment;
  am_load : TxFault
}.

(** The tenant and the identity of the caller, from one resolution. *)
Definition requireCaller (m : ApiMoment) (r : Request) : result (string * string) Answer :=
  if negb (am_store m) then Err (writeError StatusServiceUnavailable "no simulation store is configured") else
  let attested := resolve chain sv (am_clock m) 0 r in
  match RequireExecutable attested with
  | Some _ => Err (writeError StatusUnauthorized "the caller is not authenticated")
  | None =>
      let claimed := TrimSpace (rq_TenantHeader r) in
      if String.eqb (a_TenantID attested) "" then
        Err (writeError StatusUnauthorized "no tenant is established")
      else if str_nonempty claimed && negb (String.eqb claimed (a_TenantID attested)) then
        Err (writeError StatusForbidden "the request names another tenant")
      else Ok (a_TenantID attested, a_APIIdentity attested)
  end.

Definition submit_status (e : SubmitError) : Z :=
  match e with ErrNoScenario _ => StatusNotFound | _ => StatusBadRequest end.

Definition submit (m : ApiMoment) (rp : Replica) (r : Request) : Replica * Answer :=
  match requireCaller m r with
  | Err answer => (rp, answer)
  | Ok (tenant, who) =>
      if negb (am_runner m) then
        (rp, writeError StatusServiceUnavailable "no simulation engine is configured") else
      match rq_Body r with
      | None => (rp, writeError StatusBadRequest "the request body could not be read")
      | Some body =>
          if (MaxRequestBytes <? String.length body)%nat then
            (rp, writeError StatusRequestEntityTooLarge "the request is too large") else
          match decode_submit body with
          | Err e => (rp, writeError StatusBadRequest e)
          | Ok q =>
              let req := mkSimRequest tenant (bq_Scenario q) (bq_Seed q) (bq_RequestedBy q) who in
              match Submit (am_is_file m) (am_create m) (am_clock m 2%nat) rp req with
              | (rp, Err e) => (rp, writeError (submit_status e) "the run was not accepted")
              | (rp, Ok run) => (rp, mkAnswer StatusAccepted (SRun run))
              end
          end
      end
  end.

Definition cancel (m : ApiMoment) (rp : Replica) (r : Request) : Replica * Answer :=
  match requireCaller m r with
  | Err answer => (rp, answer)
  | Ok (tenant, who) =>
      if negb (am_runner m) then
        (rp, writeError StatusServiceUnavailable "no simulation engine is configured") else
      let runID := TrimSpace (rq_PathID r) in
      if String.eqb runID "" then (rp, writeError StatusBadRequest "a run id is required") else
      match rq_Body r with
      | None => (rp, writeError StatusBadRequest "the request body could not be read")
      | Some body =>
          if (MaxRequestBytes <? String.length body)%nat then
            (rp, writeError StatusBadRequest "the request body could not be read") else
          match (if String.eqb body "" then Ok (mkCancelRequest "") else decode_cancel body) with
          | Err e => (rp, writeError StatusBadRequest e)
          | Ok q =>
              if blank (cq_CancelledBy q) then (rp, writeError StatusBadRequest "cancelled_by is required")
              else
                match Cancel (am_cancel m) rp tenant runID (TrimSpace (cq_CancelledBy q)) who with
                | (rp, Err ErrNoSuchRun) => (rp, writeError StatusNotFound "no such simulation run")
                | (rp, Err ErrNotCancellable) => (rp, writeError StatusConflict "the run has already finished")
                | (rp, Err _) => (rp, writeError StatusInternalServerError "the run could not be cancelled")
                | (rp, Ok owned) =>
                    match Store.Load unmarshal_record (am_load m) (rp_runs rp) tenant runID with
                    | Ok (Some run) => (rp, mkAnswer StatusOK (SStopped run owned))
                    | _ => (rp, mkAnswer StatusOK (SCancelled runID))
                    end
                end
          end
      end
  end.

Definition get (m : ApiMoment) (rp : Replica) (r : Request) : Answer :=
  match requireCaller m r with
  | Err answer => answer
  | Ok (tenant, _) =>
      let runID := TrimSpace (rq_PathID r) in
      if String.eqb runID "" then writeError StatusBadRequest "a run id is required" else
      match Store.Load unmarshal_record (am_load m) (rp_runs rp) tenant runID with
      | Err _ => writeError StatusInternalServerError "the run could not be read"
      | Ok None => writeError StatusNotFound "no such simulation run"
      | Ok (Some run) => mkAnswer StatusOK (SRun run)
      end
  end.

(** [limit] is the query's. *)
Definition list_runs (m : ApiMoment) (rp : Replica) (r : Request) (limit : string) : Answer :=
  match requireCaller m r with
  | Err answer => answer
  | Ok (tenant, _) =>
      let limit := match Submission.Atoi limit with Some n => n | None => 50 end in
      match Store.List unmarshal_record (am_load m) (rp_runs rp) tenant limit with
      | Err _ => writeError StatusInternalServerError "the runs could not be read"
      | Ok runs => mkAnswer StatusOK (SRuns tenant runs)
      end
  end.
End API.

(** * The table over time *)

Definition settled (r : Store.Row) : Prop :=
  Store.r_status r = StatusCompleted \/ Store.r_status r = StatusCancelled.

(** What becomes of a row: who asked for what does not change, and a settled row does not
    change at all. *)
Definition row_succ (r r' : Store.Row) : Prop :=
  (Store.r_scenario r' = Store.r_scenario r /\ Store.r_seed r' = Store.r_seed r /\
   Store.r_requested_by r' = Store.r_requested_by r /\
   Store.r_requested_at r' = Store.r_requested_at r /\
   Store.r_submitted_by r' = Store.r_submitted_by r) /\
  (settled r -> r' = r).

Definition rows_kept (db db' : Store.Tables) : Prop :=
  forall k r, db !! k = Some r -> exists r', db' !! k = Some r' /\ row_succ r r'.

#[export] Instance row_succ_preorder : PreOrder row_succ.
Proof.
  split.
  - by split.
  - intros a b c [(? & ? & ? & ? & ?) Hab] [(? & ? & ? & ? & ?) Hbc]. split; [split_and!; congruence|].
    intros Hs. rewrite (Hab Hs) in Hbc. auto.
Qed.

#[export] Instance rows_kept_preorder : PreOrder rows_kept.
Proof.
  split.
  - intros db k r H. exists r. split; [done | reflexivity].
  - intros a b c H1 H2 k r (r1 & Hr1 & S1)%H1. apply H2 in Hr1 as (r2 & Hr2 & S2).
    exists r2. split; [done | by transitivity r1].
Qed.

Definition rows_valid (db : Store.Tables) : Prop :=
  map_Forall (fun _ r => Store.row_refused r = None) db.

Lemma sim_tenant_cases {A : Type} (f : TxFault) (db : Store.Tables) (t : string) (fn : Store.Tables -> Store.Tables * result A SimError) :
  fst (Store.withTenant f db t fn) = db \/
  (t <> "" /\ exists a, fn db = (fst (Store.withTenant f db t fn), Ok a)).
Proof.
  unfold Store.withTenant. destruct (String.eqb_spec t ""); [by left|].
  destruct (transaction_state ErrDatabase f db fn) as [->|(a & H & ->)]; [by left|].
  right. split; [done|]. exists a. by destruct (fn db); simpl in *; subst.
Qed.

(** What an UPDATE can do to the table, and an INSERT. *)
Inductive table_change (db : Store.Tables) : Store.Tables -> Prop :=
| no_change : table_change db db
| updated k r r' : db !! k = Some r -> row_succ r r' -> ~ settled r -> fst k <> "" ->
    Store.row_refused r' = None -> table_change db (<[k := r']> db)
| inserted k r : db !! k = None -> fst k <> "" -> Store.row_refused r = None ->
    table_change db (<[k := r]> db).

Lemma change_kept db db' : table_change db db' -> rows_kept db db' /\ (rows_valid db -> rows_valid db').
Proof.
  intros [|k r r' Hl Hs Hn _ Hv|k r Hl _ Hv]; [by split | | ]; split.
  - intros k0 r0 H0. destruct (decide (k = k0)) as [<-|].
    + rewrite lookup_insert_eq. exists r'. split; [done|]. congruence.
    + rewrite lookup_insert_ne by done. exists r0. by split.
  - intros Ha. by apply map_Forall_insert_2.
  - intros k0 r0 H0. rewrite lookup_insert_ne by congruence. exists r0. by split.
  - intros Ha. by apply map_Forall_insert_2.
Qed.

Lemma update_change (db : Store.Tables) (k : string * string) (cond : Store.Row -> bool)
    (set : Store.Row -> Store.Row) (db' : Store.Tables) (b : bool) :
  fst k <> "" -> (forall r, cond r = true -> row_succ r (set r) /\ ~ settled r) ->
  Store.update db k cond set = (db', Ok b) -> table_change db db'.
Proof.
  intros Hk Hc. unfold Store.update. destruct (db !! k) as [r|] eqn:E; [|intros [= <- _]; constructor].
  destruct (cond r) eqn:Ec; [|intros [= <- _]; constructor].
  destruct (Store.row_refused (set r)) eqn:Er; intros [= <- _]. apply Hc in Ec as [? ?].
  by eapply updated.
Qed.

Lemma in_progress_unsettled r : Store.in_progress r = true -> ~ settled r.
Proof.
  unfold Store.in_progress. rewrite contains_spec. intros H [Hs|Hs]; rewrite Hs in H;
    repeat (apply elem_of_cons in H as [H|H]; [done|]); by apply elem_of_nil in H.
Qed.

Lemma unsettled_spec r : Store.unsettled r = true <-> ~ settled r.
Proof.
  unfold Store.unsettled, settled. rewrite negb_true_iff, <- not_true_iff_false, contains_spec.
  rewrite !elem_of_cons, elem_of_nil. naive_solver.
Qed.

Lemma unsettled_succ r r' :
  Store.r_scenario r' = Store.r_scenario r -> Store.r_seed r' = Store.r_seed r ->
  Store.r_requested_by r' = Store.r_requested_by r ->
  Store.r_requested_at r' = Store.r_requested_at r ->
  Store.r_submitted_by r' = Store.r_submitted_by r -> ~ settled r -> row_succ r r' /\ ~ settled r.
Proof. intros. split; [by split|done]. Qed.

Lemma tenant_change {A : Type} (f : TxFault) (db : Store.Tables) (t : string) (fn : Store.Tables -> Store.Tables * result A SimError) :
  (forall db' a, t <> "" -> fn db = (db', Ok a) -> table_change db db') ->
  table_change db (fst (Store.withTenant f db t fn)).
Proof.
  intros H. destruct (sim_tenant_cases f db t fn) as [->|(Ht & a & Ha)]; [constructor|]. by eapply H.
Qed.

Lemma ignore_ok {A : Type} (x : Store.Tables * result A SimError) (db' : Store.Tables) (a : unit) :
  Store.ignore x = (db', Ok a) -> exists b, x = (db', Ok b).
Proof. destruct x as [? [b|]]; simpl; [|done]. intros [= <- _]. by exists b. Qed.

Lemma Cancel_change (f : TxFault) (db : Store.Tables) (t id : string) (at_ : Time) (by_ who : string) : table_change db (fst (Store.Cancel f db t id at_ by_ who)).
Proof.
  unfold Store.Cancel. destruct (String.eqb by_ ""); [constructor|].
  apply tenant_change. intros db' a Ht H. eapply update_change; [| |exact H]; [done|].
  intros r Hr. apply unsettled_succ; try done. by apply in_progress_unsettled.
Qed.

Lemma Start_change (f : TxFault) (db : Store.Tables) (t id : string) (at_ : Time) : table_change db (fst (Store.Start f db t id at_)).
Proof.
  apply tenant_change. intros db' a Ht (b & H)%ignore_ok. eapply update_change; [| |exact H]; [done|].
  intros r Hr%String.eqb_eq. apply unsettled_succ; try done.
  unfold settled. rewrite Hr. by intros [?|?].
Qed.

Lemma Complete_change (f : TxFault) (db : Store.Tables) (run : Run) (at_ : Time) : table_change db (fst (Store.Complete marshal_record f db run at_)).
Proof.
  apply tenant_change. intros db' a Ht (b & H)%ignore_ok. eapply update_change; [| |exact H]; [done|].
  intros r Hr. apply unsettled_succ; try done. by apply unsettled_spec.
Qed.

Lemma Fail_change (f : TxFault) (db : Store.Tables) (t id : string) (at_ : Time) (why : string) : table_change db (fst (Store.Fail f db t id at_ why)).
Proof.
  apply tenant_change. intros db' a Ht (b & H)%ignore_ok. eapply update_change; [| |exact H]; [done|].
  intros r Hr. apply unsettled_succ; try done. by apply unsettled_spec.
Qed.

Lemma Create_change (f : TxFault) (db : Store.Tables) (run : Run) : table_change db (fst (Store.Create f db run)).
Proof.
  apply tenant_change. intros db' a Ht H.
  destruct (db !! (ru_TenantID run, ru_RunID run)) eqn:E; [done|].
  destruct (Store.row_refused (Store.created run)) eqn:Er; [done|]. injection H as <- _.
  by apply inserted.
Qed.

Lemma append_rows em rp run name payload :
  rp_runs (append em rp run name payload) = rp_runs rp /\
  rp_tasks (append em rp run name payload) = rp_tasks rp /\
  rp_inFlight (append em rp run name payload) = rp_inFlight rp.
Proof. unfold append. by destruct (negb _). Qed.

Lemma elsewhere_change f db e : table_change db (elsewhere f db e).
Proof.
  destruct e as [at_ req seed| | | |]; [cbn; destruct (Validate req); [apply Create_change | constructor] | apply Start_change | apply Complete_change | apply Fail_change
    | apply Cancel_change].
Qed.

Lemma Submit_runs is_file f at_ rp req :
  table_change (rp_runs rp) (rp_runs (fst (Submit is_file f at_ rp req))).
Proof.
  unfold Submit. destruct (Validate req), (sq_Seed req); try constructor.
  destruct (ResolveScenario is_file (sq_Scenario req)); [|constructor].
  match goal with |- context [Store.Create f ?db ?run] =>
    pose proof (Create_change f db run) as H; destruct (Store.Create f db run) as [db' []] end; exact H.
Qed.

Lemma Cancel_runs m rp t id by_ who :
  table_change (rp_runs rp) (rp_runs (fst (Cancel m rp t id by_ who))).
Proof.
  unfold Cancel. destruct (Store.Load _ _ _ _ _) as [[existing|]|]; try constructor.
  match goal with |- context [Store.Cancel ?f ?db ?a ?b ?c ?d ?e] =>
    pose proof (Cancel_change f db a b c d e) as H;
    destruct (Store.Cancel f db a b c d e) as [db' [[]|]] end; [|exact H|exact H].
  cbn [fst]. unfold Cancelled. rewrite (proj1 (append_rows _ _ _ _ _)). by destruct (rp_inFlight rp !! _).
Qed.

Lemma begin_runs f at_ em rp k task :
  table_change (rp_runs rp) (rp_runs (begin_engine f at_ em rp k task)).
Proof.
  unfold begin_engine. destruct (tk_cancelled task); [constructor|].
  unfold Started. rewrite (proj1 (append_rows _ _ _ _ _)). apply Start_change.
Qed.

Lemma finish_runs is_file f at_ em rp k task outcome :
  table_change (rp_runs rp) (rp_runs (finish is_file f at_ em rp k task outcome)).
Proof.
  unfold finish. destruct (invoke _ _ _) as [record|why].
  - cbn [leave rp_runs]. unfold Completed. rewrite (proj1 (append_rows _ _ _ _ _)). apply Complete_change.
  - destruct (tk_cancelled task); [constructor|]. cbn [leave rp_runs]. unfold Failed.
    rewrite (proj1 (append_rows _ _ _ _ _)). apply Fail_change.
Qed.

Lemma step_change rp rp' : sim_step rp rp' -> table_change (rp_runs rp) (rp_runs rp').
Proof.
  intros [is_file f at_ rp0 req|m rp0 t id by_ who|rp0 k task _ _ _|rp0 k task _ _ _|f at_ em rp0 k task _ _
    |f rp0 k task _ _|is_file f at_ em rp0 k task outcome _ _|f e rp0|rp0]; cbn; try constructor.
  - apply Submit_runs.
  - apply Cancel_runs.
  - apply begin_runs.
  - unfold watch_tick. destruct (Store.Status_ _ _ _ _); [|constructor]. destruct (String.eqb _ _); constructor.
  - apply finish_runs.
  - apply elsewhere_change.
Qed.

Lemma steps_kept rp rp' :
  rtc sim_step rp rp' ->
  rows_kept (rp_runs rp) (rp_runs rp') /\ (rows_valid (rp_runs rp) -> rows_valid (rp_runs rp')).
Proof.
  induction 1 as [rp|rp1 rp2 rp3 H _ [IH1 IH2]]; [by split|].
  apply step_change, change_kept in H as [H1 H2].
  split; [by transitivity (rp_runs rp2) | auto].
Qed.

(** The record of a run is kept. However requests, engines, watchdogs, deaths of the
    process and other replicas interleave and whatever the database does, no run
    disappears, who asked for what never changes, a completed or cancelled run never
    changes again, and every row satisfies the table's checks. *)
Theorem run_record_is_kept (rp rp' : Replica) :
  rtc sim_step rp rp' ->
  rows_kept (rp_runs rp) (rp_runs rp') /\ (rows_valid (rp_runs rp) -> rows_valid (rp_runs rp')).
Proof. exact (steps_kept rp rp'). Qed.

(** * Slots *)

Definition slots (rp : Replica) : gset (string * string) :=
  dom (filter (fun x => has_slot (snd x) = true) (rp_tasks rp)).

Lemma busy_slots (rp : Replica) : busy rp = size (slots rp).
Proof. unfold busy, slots. by rewrite size_dom. Qed.

Lemma elem_of_slots (rp : Replica) (k : string * string) :
  k ∈ slots rp <-> exists task, rp_tasks rp !! k = Some task /\ has_slot task = true.
Proof.
  unfold slots. rewrite elem_of_dom. unfold is_Some.
  setoid_rewrite map_lookup_filter_Some. cbn. done.
Qed.

Lemma busy_subset (rp rp' : Replica) : slots rp' ⊆ slots rp -> (busy rp' <= busy rp)%nat.
Proof. rewrite !busy_slots. apply subseteq_size. Qed.

(** Every task of [rp'] that has a slot had one in [rp], or its key is [k]. *)
Lemma slots_within (rp rp' : Replica) (X : gset (string * string)) :
  (forall k task, rp_tasks rp' !! k = Some task -> has_slot task = true -> k ∈ X \/ k ∈ slots rp) ->
  slots rp' ⊆ X ∪ slots rp.
Proof. intros H k (task & Ht & Hs)%elem_of_slots. destruct (H k task Ht Hs); set_solver. Qed.

Lemma fewer_slots (rp rp' : Replica) :
  (forall k task, rp_tasks rp' !! k = Some task -> has_slot task = true -> k ∈ slots rp) ->
  (busy rp' <= busy rp)%nat.
Proof. intros H. apply busy_subset. intros k (task & Ht & Hs)%elem_of_slots. eauto. Qed.

Lemma same_tasks_busy (rp rp' : Replica) : rp_tasks rp' = rp_tasks rp -> (busy rp' <= busy rp)%nat.
Proof. intros H. unfold busy. by rewrite H. Qed.

Lemma cancel_task_busy (rp : Replica) (k : string * string) : (busy (cancel_task rp k) <= busy rp)%nat.
Proof.
  apply fewer_slots. intros k' task Ht Hs. cbn in Ht. apply elem_of_slots.
  destruct (decide (k = k')) as [<-|].
  - rewrite lookup_alter_eq in Ht. destruct (rp_tasks rp !! k) as [old|]; [|done].
    injection Ht as <-. by exists old.
  - rewrite lookup_alter_ne in Ht by done. by exists task.
Qed.

Lemma leave_busy (rp : Replica) (k : string * string) : (busy (leave rp k) <= busy rp)%nat.
Proof.
  apply fewer_slots. intros k' task Ht Hs. cbn in Ht. apply lookup_delete_Some in Ht as [_ Ht].
  apply elem_of_slots. by exists task.
Qed.

Lemma set_task_busy (rp : Replica) (k : string * string) (task : Task) :
  (busy (set_task rp k task) <= S (busy rp))%nat /\
  (k ∈ slots rp \/ has_slot task = false -> (busy (set_task rp k task) <= busy rp)%nat).
Proof.
  split.
  - rewrite !busy_slots. etransitivity; [apply subseteq_size, (slots_within rp _ {[k]})|].
    + intros k' task' Ht Hs. cbn in Ht. destruct (decide (k = k')) as [<-|]; [set_solver|].
      rewrite lookup_insert_ne in Ht by done. right. apply elem_of_slots. by exists task'.
    + rewrite size_union_alt, size_singleton.
      pose proof (subseteq_size (slots rp ∖ {[k]}) (slots rp) ltac:(set_solver)). lia.
  - intros Hk. apply fewer_slots. intros k' task' Ht Hs. cbn in Ht.
    destruct (decide (k = k')) as [<-|].
    + rewrite lookup_insert_eq in Ht. injection Ht as <-. destruct Hk; [done | congruence].
    + rewrite lookup_insert_ne in Ht by done. apply elem_of_slots. by exists task'.
Qed.

Lemma append_busy em rp run name payload : (busy (append em rp run name payload) <= busy rp)%nat.
Proof. apply same_tasks_busy. by rewrite (proj1 (proj2 (append_rows em rp run name payload))). Qed.

Lemma Submit_busy is_file f at_ rp req : (busy (fst (Submit is_file f at_ rp req)) <= busy rp)%nat.
Proof.
  unfold Submit. destruct (Validate req), (sq_Seed req); try done.
  destruct (ResolveScenario is_file (sq_Scenario req)); [|done].
  destruct (Store.Create _ _ _) as [db' []]; [|done]. cbn [fst].
  etransitivity; [|exact (proj2 (set_task_busy rp (run_key (queued_run at_ req z))
    (mkTask (queued_run at_ req z) Waiting false)) ltac:(by right))]. done.
Qed.

Lemma Cancel_busy m rp t id by_ who : (busy (fst (Cancel m rp t id by_ who)) <= busy rp)%nat.
Proof.
  unfold Cancel. destruct (Store.Load _ _ _ _ _) as [[existing|]|]; try done.
  destruct (Store.Cancel _ _ _ _ _ _ _) as [db' [[]|]]; try done. cbn [fst].
  etransitivity; [apply append_busy|].
  destruct (rp_inFlight rp !! _); [|done]. etransitivity; [apply cancel_task_busy | done].
Qed.

Lemma begin_busy f at_ em rp k task :
  rp_tasks rp !! k = Some task -> tk_state task = HasSlot ->
  (busy (begin_engine f at_ em rp k task) <= busy rp)%nat.
Proof.
  intros Ht Hs. unfold begin_engine. destruct (tk_cancelled task); [apply leave_busy|].
  etransitivity; [apply append_busy|].
  etransitivity; [apply (proj2 (set_task_busy (with_runs rp _) k _))|done].
  left. apply elem_of_slots. exists task. split; [done|]. unfold has_slot. by rewrite Hs.
Qed.

Lemma finish_busy is_file f at_ em rp k task outcome :
  (busy (finish is_file f at_ em rp k task outcome) <= busy rp)%nat.
Proof.
  unfold finish. destruct (invoke _ _ _) as [record|why].
  - etransitivity; [apply leave_busy|]. by etransitivity; [apply append_busy|].
  - destruct (tk_cancelled task); [apply leave_busy|].
    etransitivity; [apply leave_busy|]. by etransitivity; [apply append_busy|].
Qed.

Lemma step_busy (rp rp' : Replica) :
  sim_step rp rp' -> (busy rp <= concurrency)%nat -> (busy rp' <= concurrency)%nat.
Proof.
  intros [is_file f at_ rp0 req|m rp0 t id by_ who|rp0 k task Ht Hs Hc|rp0 k task _ _ _|f at_ em rp0 k task Ht Hs
    |f rp0 k task _ _|is_file f at_ em rp0 k task outcome _ _|f e rp0|rp0] Hb.
  - by etransitivity; [apply Submit_busy|].
  - by etransitivity; [apply Cancel_busy|].
  - pose proof (proj1 (set_task_busy rp0 k (mkTask (tk_run task) HasSlot (tk_cancelled task)))). lia.
  - by etransitivity; [apply leave_busy|].
  - by etransitivity; [apply begin_busy|].
  - unfold watch_tick. destruct (Store.Status_ _ _ _ _); [|done].
    destruct (String.eqb _ _); [|done]. by etransitivity; [apply cancel_task_busy|].
  - by etransitivity; [apply finish_busy|].
  - done.
  - unfold busy. cbn. rewrite map_filter_empty, map_size_empty. lia.
Qed.

(** The engines are bounded. However requests, goroutines and deaths of the process
    interleave, no more runs have a slot, and so no more engines run, than the replica's
    concurrency. *)
Theorem engines_bounded (rp rp' : Replica) :
  rtc sim_step rp rp' -> rp_tasks rp = ∅ -> (busy rp' <= concurrency)%nat.
Proof.
  intros H Ht. assert (Hb : (busy rp <= concurrency)%nat).
  { unfold busy. rewrite Ht, map_filter_empty, map_size_empty. lia. }
  clear Ht. induction H as [|rp1 rp2 rp3 H _ IH]; [done|]. apply IH. by eapply step_busy.
Qed.

(** * Tasks and rows *)

(** The identifiers of runs contain no slash, so a cancel function belongs to one run. *)
Definition plain_id (id : string) : Prop := 47%nat ∉ bytes id.

Lemma inFlightKey_inj t id t' id' :
  plain_id id -> plain_id id' -> inFlightKey t id = inFlightKey t' id' -> t = t' /\ id = id'.
Proof.
  unfold inFlightKey. intros H1 H2 H. apply (f_equal bytes) in H. rewrite !bytes_app in H.
  apply (split_last 47%nat (bytes t) (bytes t') (bytes id) (bytes id')) in H as [Ht Hi]; [|done..].
  split; by apply bytes_inj.
Qed.

Lemma itoa_no_slash n : 0 <= n -> 47%nat ∉ bytes (itoa n).
Proof.
  intros Hn. destruct (itoa_spec n Hn) as (Hd & _). revert Hd. generalize (itoa n).
  induction s as [|c s IH]; cbn; [intros _ H; by apply elem_of_nil in H|].
  intros [Hc Hs]%andb_true_iff [Heq|H]%elem_of_cons; [|by apply IH].
  unfold is_digit in Hc. by rewrite <- Heq in Hc.
Qed.

Lemma fmt_d_no_slash n : 47%nat ∉ bytes (fmt_d n).
Proof.
  unfold fmt_d. destruct (n <? 0) eqn:E; b2p; [|by apply itoa_no_slash].
  rewrite bytes_app. rewrite elem_of_app. intros [H|H]; [|by eapply itoa_no_slash; [|exact H]; lia].
  by apply elem_of_cons in H as [H|H%elem_of_nil].
Qed.

Lemma ValidateScenarioName_ok name n :
  ValidateScenarioName name = Ok n ->
  n = TrimSpace name /\ n <> "" /\ (String.length n <= 64)%nat /\ forallb name_byte (bytes n) = true.
Proof.
  unfold ValidateScenarioName. destruct (String.eqb_spec (TrimSpace name) ""); [done|].
  destruct (64 <? _)%nat eqn:El; [done|]. b2p.
  destruct (String.eqb_spec (TrimSpace name) "demo") as [E|].
  - intros [= <-]. split_and!; [done | done | lia | by rewrite E].
  - destruct (forallb _ _) eqn:Ef; [|done]. intros [= <-]. split_and!; done || lia.
Qed.

Lemma scenario_no_slash name n : ValidateScenarioName name = Ok n -> 47%nat ∉ bytes name.
Proof.
  intros (-> & _ & _ & Hf)%ValidateScenarioName_ok Hin. rewrite forallb_forall in Hf.
  apply (trim_mem 47) in Hin; [|done]. unfold TrimSpace in Hf.
  assert (Hb : forall l, bytes (str_of_bytes l) = map (fun b => Ascii.nat_of_ascii (byte_of b)) l)
    by (unfold bytes; induction l as [|c l IH]; simpl; [done | by rewrite IH]).
  rewrite Hb in Hf. apply list_elem_of_In, (in_map (fun b => Ascii.nat_of_ascii (byte_of b))), Hf in Hin.
  done.
Qed.

Lemma queued_plain at_ req seed n :
  ValidateScenarioName (sq_Scenario req) = Ok n -> plain_id (ru_RunID (queued_run at_ req seed)).
Proof.
  intros H. unfold plain_id. cbn [ru_RunID queued_run]. rewrite !bytes_app, !elem_of_app.
  intros [Hin|[Hin|[Hin|Hin]]].
  - repeat (apply elem_of_cons in Hin as [Hin|Hin]; [done|]). by apply elem_of_nil in Hin.
  - by apply fmt_d_no_slash in Hin.
  - apply elem_of_cons in Hin as [Hin|Hin]; [done | by apply elem_of_nil in Hin].
  - by apply (scenario_no_slash _ _ H) in Hin.
Qed.

Lemma Validate_nil req : Validate req = [] ->
  blank (sq_TenantID req) = false /\ sq_Seed req <> None /\ blank (sq_RequestedBy req) = false /\
  exists n, ValidateScenarioName (sq_Scenario req) = Ok n.
Proof.
  unfold Validate. intros H. apply app_eq_nil in H as [H1 H]. apply app_eq_nil in H as [H2 H].
  apply app_eq_nil in H as [H3 H4]. rewrite problem_nil in *.
  split; [done|]. split; [by destruct (sq_Seed req)|]. split; [done|].
  destruct (ValidateScenarioName _) as [n|]; [by exists n | done].
Qed.

(** A task is the goroutine of one recorded run; when its context is cancelled the run's row
    says so; and the cancel functions are those of the tasks. *)
Record Coherent (rp : Replica) : Prop := {
  co_task k task : rp_tasks rp !! k = Some task ->
    run_key (tk_run task) = k /\ fst k <> "" /\
    exists r, rp_runs rp !! k = Some r /\
      (tk_cancelled task = true -> Store.r_status r = StatusCancelled);
  co_inFlight s k : rp_inFlight rp !! s = Some k <->
    s = inFlightKey (fst k) (snd k) /\ is_Some (rp_tasks rp !! k);
  co_plain k r : rp_runs rp !! k = Some r -> plain_id (snd k)
}.

(** A change of the table that invents no identifier with a slash. *)
Definition plain_change (db db' : Store.Tables) : Prop :=
  table_change db db' /\ forall k, is_Some (db' !! k) -> is_Some (db !! k) \/ plain_id (snd k).

Lemma coherent_runs rp db :
  Coherent rp -> plain_change (rp_runs rp) db -> Coherent (with_runs rp db).
Proof.
  intros [H1 H2 H3] [Hc Hp]. destruct (change_kept _ _ Hc) as [Hk _].
  constructor; cbn; [| done |].
  - intros k task Ht. destruct (H1 k task Ht) as (Hr & Hn & r & Hl & Hs). do 2 (split; [done|]).
    destruct (Hk k r Hl) as (r' & Hl' & Hsucc). exists r'. split; [done|].
    intros Hx. specialize (Hs Hx). rewrite (proj2 Hsucc); [done | by right].
  - intros k r Hl. destruct (Hp k (mk_is_Some _ _ Hl)) as [[r0 H]|]; [by eapply H3 | done].
Qed.

Lemma coherent_same rp rp' :
  rp_runs rp' = rp_runs rp -> rp_tasks rp' = rp_tasks rp -> rp_inFlight rp' = rp_inFlight rp ->
  Coherent rp -> Coherent rp'.
Proof. intros Hr Ht Hi [H1 H2 H3]. constructor; rewrite ?Hr, ?Ht, ?Hi; done. Qed.

Lemma coherent_append em rp run name payload : Coherent rp -> Coherent (append em rp run name payload).
Proof. apply coherent_same; apply append_rows. Qed.

Lemma coherent_cancel_task rp k r :
  Coherent rp -> rp_runs rp !! k = Some r -> Store.r_status r = StatusCancelled ->
  Coherent (cancel_task rp k).
Proof.
  intros [H1 H2 H3] Hl Hs. constructor; cbn; [| |done].
  - intros k' task Ht. destruct (decide (k = k')) as [<-|Hne].
    + rewrite lookup_alter_eq in Ht. destruct (rp_tasks rp !! k) as [old|] eqn:E; [|done].
      injection Ht as <-. destruct (H1 k old E) as (? & ? & _). split; [done|]. split; [done|].
      by exists r.
    + rewrite lookup_alter_ne in Ht by done. by apply H1.
  - intros s k'. rewrite H2, lookup_alter. destruct (decide (k = k')) as [->|]; [|done].
    by rewrite fmap_is_Some.
Qed.

Lemma task_plain rp k task : Coherent rp -> rp_tasks rp !! k = Some task -> plain_id (snd k).
Proof.
  intros HC Ht. destruct (co_task _ HC k task Ht) as (_ & _ & r & Hr & _). by eapply co_plain.
Qed.

Lemma coherent_leave rp k task :
  rp_tasks rp !! k = Some task -> Coherent rp -> Coherent (leave rp k).
Proof.
  intros Hk HC. pose proof HC as [H1 H2 H3]. constructor; cbn; [| |done].
  - intros k' task' [_ Ht]%lookup_delete_Some. by apply H1.
  - intros s k'. rewrite lookup_delete_Some, H2. unfold is_Some. setoid_rewrite lookup_delete_Some.
    split; [intros (Hne & -> & task' & Ht); split; [done|]; exists task'; split; [naive_solver | done]|].
    intros (-> & task' & Hne & Ht). split; [|by eauto]. intros Heq.
    apply inFlightKey_inj in Heq as [? ?]; [|by eapply task_plain..].
    destruct k, k'; cbn in *; congruence.
Qed.

Lemma coherent_set_task rp k old task :
  rp_tasks rp !! k = Some old -> run_key (tk_run task) = k ->
  (tk_cancelled task = true -> tk_cancelled old = true) -> Coherent rp -> Coherent (set_task rp k task).
Proof.
  intros Hk Hr Hc [H1 H2 H3]. constructor; cbn; [| |done].
  - intros k' task' Ht. destruct (decide (k = k')) as [<-|Hne].
    + rewrite lookup_insert_eq in Ht. injection Ht as <-.
      destruct (H1 k old Hk) as (_ & Hn & r & Hl & Hs). do 2 (split; [done|]). exists r. split; auto.
    + rewrite lookup_insert_ne in Ht by done. by apply H1.
  - intros s k'. rewrite H2. destruct (decide (k = k')) as [<-|Hne].
    + rewrite lookup_insert_eq, Hk. by split; intros [? _]; split.
    + by rewrite lookup_insert_ne.
Qed.

Lemma coherent_register rp db run :
  db !! run_key run = Some (Store.created run) -> plain_id (ru_RunID run) -> ru_TenantID run <> "" ->
  Coherent (with_runs rp db) -> Coherent (register rp db run).
Proof.
  intros Hl Hp Ht HC. pose proof HC as [H1 H2 H3]. cbn in H1, H2, H3. constructor; cbn; [| |done].
  - intros k task Hk. destruct (decide (run_key run = k)) as [<-|Hne].
    + rewrite lookup_insert_eq in Hk. injection Hk as <-. do 2 (split; [done|]). by exists (Store.created run).
    + rewrite lookup_insert_ne in Hk by done. by apply H1.
  - intros s k. destruct (decide (inFlightKey (ru_TenantID run) (ru_RunID run) = s)) as [<-|Hs].
    + rewrite lookup_insert_eq. split.
      * intros [= <-]. split; [done|]. by rewrite lookup_insert_eq.
      * intros [Heq [task Hk]]. f_equal. destruct (decide (run_key run = k)) as [|Hne]; [done|].
        rewrite lookup_insert_ne in Hk by done.
        apply inFlightKey_inj in Heq as [H4 H5]; [by destruct k; cbn in *; subst | done |].
        by apply (task_plain (with_runs rp db) k task HC).
    + rewrite lookup_insert_ne by done. rewrite H2. split; intros [-> Hk]; (split; [done|]).
      * rewrite lookup_insert_ne; [done|]. intros <-. by apply Hs.
      * by rewrite lookup_insert_ne in Hk by (intros <-; by apply Hs).
Qed.

Lemma update_dom (db : Store.Tables) (k : string * string) (cond : Store.Row -> bool)
    (set : Store.Row -> Store.Row) (db' : Store.Tables) (b : bool) k0 :
  Store.update db k cond set = (db', Ok b) -> is_Some (db' !! k0) -> is_Some (db !! k0).
Proof.
  unfold Store.update. destruct (db !! k) as [r|] eqn:E; [|by intros [= <- _]].
  destruct (cond r); [|by intros [= <- _]]. destruct (Store.row_refused _); [done|]. intros [= <- _].
  destruct (decide (k = k0)) as [<-|]; [by rewrite E | by rewrite lookup_insert_ne].
Qed.

Lemma updates_plain {A : Type} (f : TxFault) (db : Store.Tables) (t : string)
    (fn : Store.Tables -> Store.Tables * result A SimError) :
  (forall db' a k, fn db = (db', Ok a) -> is_Some (db' !! k) -> is_Some (db !! k)) ->
  forall k, is_Some (fst (Store.withTenant f db t fn) !! k) -> is_Some (db !! k) \/ plain_id (snd k).
Proof.
  intros H k. destruct (sim_tenant_cases f db t fn) as [->|(_ & a & Ha)]; [by left|]. left. by eapply H.
Qed.

Ltac updates := intros db' a k0 H; try (apply ignore_ok in H as [? H]); revert H; apply update_dom.

Lemma Cancel_plain (f : TxFault) (db : Store.Tables) (t id : string) (at_ : Time) (by_ who : string) :
  plain_change db (fst (Store.Cancel f db t id at_ by_ who)).
Proof.
  split; [apply Cancel_change|]. unfold Store.Cancel. destruct (String.eqb by_ ""); [by left|].
  apply updates_plain. updates.
Qed.

Lemma Start_plain (f : TxFault) (db : Store.Tables) (t id : string) (at_ : Time) :
  plain_change db (fst (Store.Start f db t id at_)).
Proof. split; [apply Start_change|]. apply updates_plain. updates. Qed.

Lemma Complete_plain (f : TxFault) (db : Store.Tables) (run : Run) (at_ : Time) :
  plain_change db (fst (Store.Complete marshal_record f db run at_)).
Proof. split; [apply Complete_change|]. apply updates_plain. updates. Qed.

Lemma Fail_plain (f : TxFault) (db : Store.Tables) (t id : string) (at_ : Time) (why : string) :
  plain_change db (fst (Store.Fail f db t id at_ why)).
Proof. split; [apply Fail_change|]. apply updates_plain. updates. Qed.

Lemma Create_cases (f : TxFault) (db : Store.Tables) (run : Run) :
  fst (Store.Create f db run) = db \/
  (ru_TenantID run <> "" /\ fst (Store.Create f db run) = <[run_key run := Store.created run]> db).
Proof.
  unfold Store.Create. match goal with |- context [Store.withTenant f db ?t ?fn] =>
    destruct (sim_tenant_cases f db t fn) as [H|(Ht & a & H)] end; [by left|]. right. split; [done|].
  revert H. destruct (db !! _); [done|]. destruct (Store.row_refused _); [done|].
  intros H. injection H as H _. by rewrite <- H.
Qed.

Lemma Create_plain (f : TxFault) (db : Store.Tables) (run : Run) :
  plain_id (ru_RunID run) -> plain_change db (fst (Store.Create f db run)).
Proof.
  intros Hp. split; [apply Create_change|]. intros k.
  destruct (Create_cases f db run) as [->|[_ ->]]; [by left|].
  destruct (decide (run_key run = k)) as [<-|]; [by right | rewrite lookup_insert_ne by done; by left].
Qed.

Lemma Submit_cases is_file f at_ rp req :
  (exists e, Submit is_file f at_ rp req = (rp, Err e)) \/
  exists seed n, Validate req = [] /\ sq_Seed req = Some seed /\
    ValidateScenarioName (sq_Scenario req) = Ok n /\
    let run := queued_run at_ req seed in
    let x := Store.Create f (rp_runs rp) run in
    Submit is_file f at_ rp req =
      match snd x with
      | Ok _ => (register rp (fst x) run, Ok run)
      | Err e => (with_runs rp (fst x), Err (ErrNotRecorded e))
      end.
Proof.
  unfold Submit. destruct (Validate req) eqn:Ev, (sq_Seed req) as [seed|] eqn:Es; try (left; by eauto).
  destruct (ResolveScenario is_file (sq_Scenario req)) eqn:Er; [|left; by eauto]. right.
  destruct (Validate_nil req Ev) as (_ & _ & _ & n & Hn). exists seed, n. split_and!; try done.
  cbn. by destruct (Store.Create _ _ _) as [db []].
Qed.

Lemma Create_ok (f : TxFault) (db : Store.Tables) (run : Run) a :
  snd (Store.Create f db run) = Ok a ->
  fst (Store.Create f db run) !! run_key run = Some (Store.created run) /\ ru_TenantID run <> "".
Proof.
  unfold Store.Create, Store.withTenant. destruct (String.eqb_spec (ru_TenantID run) ""); [done|].
  intros H. split; [|done]. match goal with |- context [transaction ?l ?f ?db ?fn] =>
    destruct (transaction l f db fn) as [db' r] eqn:E end. cbn in *. subst r.
  apply transaction_ok in E as [_ E]. destruct (db !! _); [done|].
  destruct (Store.row_refused _); [done|]. injection E as <- _. apply lookup_insert_eq.
Qed.

Lemma Submit_coherent is_file f at_ rp req :
  Coherent rp -> Coherent (fst (Submit is_file f at_ rp req)).
Proof.
  intros HC. destruct (Submit_cases is_file f at_ rp req) as [[e ->]|(seed & n & _ & _ & Hn & ->)]; [done|].
  pose proof (queued_plain at_ req seed n Hn) as Hp.
  assert (Hw : Coherent (with_runs rp (fst (Store.Create f (rp_runs rp) (queued_run at_ req seed)))))
    by (apply coherent_runs; [done | by apply Create_plain]).
  destruct (snd (Store.Create f (rp_runs rp) (queued_run at_ req seed))) eqn:E; [|exact Hw].
  apply Create_ok in E as [Hl Ht]. by apply coherent_register.
Qed.

(** ** Cancelling *)

Lemma Load_cases (f : TxFault) (db : Store.Tables) (t id : string) run :
  Store.Load unmarshal_record f db t id = Ok run ->
  t <> "" /\ (run = None <-> db !! (t, id) = None) /\
  forall r, run = Some r -> run_key r = (t, id).
Proof.
  unfold Store.Load, Store.withTenant. destruct (String.eqb_spec t ""); [done|]. intros H.
  match type of H with snd (transaction ?l ?f ?db ?fn) = _ =>
    destruct (transaction l f db fn) as [db' x] eqn:E end. cbn in H. subst x.
  apply transaction_ok in E as [_ E]. injection E as _ E. revert E.
  destruct (db !! (t, id)) as [row|]; cbn.
  - unfold Store.scanRun. destruct (Store.r_record row) as [[|c s]|]; cbn.
    + intros [= <-]. split_and!; [done | done | by intros r [= <-]].
    + destruct (unmarshal_record (String c s)); cbn; [|done]. intros [= <-].
      split_and!; [done | done | by intros r [= <-]].
    + intros [= <-]. split_and!; [done | done | by intros r [= <-]].
  - intros [= <-]. by split_and!.
Qed.

Lemma Cancel_row (f : TxFault) (db : Store.Tables) (t id : string) (at_ : Time) (by_ who : string) db' b :
  Store.Cancel f db t id at_ by_ who = (db', Ok b) ->
  if b then exists r, db !! (t, id) = Some r /\ Store.in_progress r = true /\
       db' = <[(t, id) := Store.set_cancelled at_ by_ who r]> db
  else db' = db /\ forall r, db !! (t, id) = Some r -> Store.in_progress r = false.
Proof.
  unfold Store.Cancel, Store.withTenant. destruct (String.eqb by_ ""); [done|].
  destruct (String.eqb t ""); [done|]. intros [_ H]%transaction_ok. unfold Store.update in H.
  destruct (db !! (t, id)) as [r|] eqn:E; [|by injection H as <- <-].
  destruct (Store.in_progress r) eqn:Ep; [|injection H as <- <-; split; [done|]; congruence].
  destruct (Store.row_refused _); [done|]. injection H as <- <-. by exists r.
Qed.

Definition of_store (e : SimError) : Prop := e <> ErrNotCancellable /\ e <> ErrNoSuchRun.

Lemma Cancel_error (f : TxFault) (db : Store.Tables) (t id : string) (at_ : Time) (by_ who : string) db' e :
  Store.Cancel f db t id at_ by_ who = (db', Err e) -> of_store e.
Proof.
  unfold Store.Cancel, Store.withTenant, transaction, Store.update, of_store. intros H.
  repeat case_match; by simplify_eq.
Qed.

Lemma Load_error (f : TxFault) (db : Store.Tables) (t id : string) e :
  Store.Load unmarshal_record f db t id = Err e -> of_store e.
Proof.
  unfold Store.Load, Store.withTenant, transaction, Store.scanRun, of_store. intros H.
  repeat case_match; by simplify_eq/=.
Qed.

(** The cancel function found for a recorded run is that run's, and there is one exactly
    when its goroutine is here. *)
Lemma held_is_own rp t id r :
  Coherent rp -> rp_runs rp !! (t, id) = Some r ->
  match rp_inFlight rp !! inFlightKey t id with
  | Some k => k = (t, id) /\ is_Some (rp_tasks rp !! (t, id))
  | None => rp_tasks rp !! (t, id) = None
  end.
Proof.
  intros HC Hr. destruct (rp_inFlight rp !! inFlightKey t id) as [k|] eqn:Ei.
  - apply (co_inFlight _ HC) in Ei as [Hk [task Htask]].
    apply inFlightKey_inj in Hk as [-> ->];
      [|by apply (co_plain _ HC (t, id) r) | by apply (task_plain rp k task HC)].
    destruct k as [t id]. split; [done|]. by exists task.
  - destruct (rp_tasks rp !! (t, id)) as [task|] eqn:Et; [|done].
    assert (Hs : rp_inFlight rp !! inFlightKey t id = Some (t, id)).
    { apply (co_inFlight _ HC). split; [done|]. by exists task. }
    congruence.
Qed.

(** What a cancellation answers, and what it does to the rows, the goroutines and the
    cancel functions. *)
Lemma Cancel_effect m rp t id by_ who rp' answer :
  Coherent rp -> Cancel m rp t id by_ who = (rp', answer) ->
  rp_inFlight rp' = rp_inFlight rp /\
  match answer with
  | Ok owned => exists r, rp_runs rp !! (t, id) = Some r /\ Store.in_progress r = true /\
      rp_runs rp' = <[(t, id) := Store.set_cancelled (cm_now m) by_ who r]> (rp_runs rp) /\
      rp_tasks rp' = alter (fun x => mkTask (tk_run x) (tk_state x) true) (t, id) (rp_tasks rp) /\
      (owned = true <-> is_Some (rp_tasks rp !! (t, id)))
  | Err e => rp_tasks rp' = rp_tasks rp /\
      (e = ErrNotCancellable -> rp_runs rp' = rp_runs rp /\
         exists r, rp_runs rp !! (t, id) = Some r /\ Store.in_progress r = false) /\
      (e = ErrNoSuchRun -> rp_runs rp' = rp_runs rp /\ rp_runs rp !! (t, id) = None)
  end.
Proof.
  intros HC. unfold Cancel. destruct (Store.Load _ _ _ _ _) as [[existing|]|e] eqn:El.
  2:{ intros [= <- <-]. split; [done|]. split; [done|]. split; [done|]. intros _. split; [done|].
      destruct (Load_cases _ _ _ _ _ El) as (_ & Hn & _). by apply Hn. }
  2:{ intros [= <- <-]. apply Load_error in El as [? ?]. by split_and!. }
  destruct (Load_cases _ _ _ _ _ El) as (Ht & [_ Hn] & _).
  destruct (rp_runs rp !! (t, id)) as [r|] eqn:Hr; [clear Hn | by specialize (Hn eq_refl)].
  destruct (Store.Cancel _ _ _ _ _ _ _) as [db [[|]|e]] eqn:E; intros [= <- <-].
  - apply Cancel_row in E as (r' & Hr' & Hp & ->). assert (r' = r) as -> by congruence. clear Hr'.
    unfold Cancelled. rewrite !(proj1 (append_rows _ _ _ _ _)), !(proj1 (proj2 (append_rows _ _ _ _ _))),
      !(proj2 (proj2 (append_rows _ _ _ _ _))).
    pose proof (held_is_own rp t id r HC Hr) as Hheld.
    destruct (rp_inFlight rp !! inFlightKey t id) as [k|].
    + destruct Hheld as [-> Hs]. split; [done|]. by exists r.
    + split; [done|]. exists r. split_and!; try done.
      * symmetry. apply alter_id. cbn. intros x Hx. by rewrite Hheld in Hx.
      * rewrite Hheld. split; [done | by intros []].
  - apply Cancel_row in E as [-> Hp]. split; [done|]. split; [done|]. split; [|done]. intros _.
    split; [done|]. exists r. auto.
  - apply Cancel_error in E as [? ?]. by split_and!.
Qed.

Lemma Cancel_coherent m rp t id by_ who : Coherent rp -> Coherent (fst (Cancel m rp t id by_ who)).
Proof.
  intros HC. destruct (Cancel m rp t id by_ who) as [rp' answer] eqn:E. cbn.
  assert (Hp : plain_change (rp_runs rp) (rp_runs rp')).
  { revert E. unfold Cancel. destruct (Store.Load _ _ _ _ _) as [[existing|]|];
      try (intros [= <- <-]; split; [constructor | by left]).
    match goal with |- context [Store.Cancel ?f ?db ?a ?b ?c ?d ?e] =>
      pose proof (Cancel_plain f db a b c d e) as H;
      destruct (Store.Cancel f db a b c d e) as [db' [[]|]] end; intros [= <- <-]; try exact H.
    unfold Cancelled. rewrite (proj1 (append_rows _ _ _ _ _)). by destruct (rp_inFlight rp !! _). }
  pose proof (coherent_runs rp _ HC Hp) as HC'.
  destruct (Cancel_effect _ _ _ _ _ _ _ _ HC E) as [Hf H]. destruct answer as [owned|e].
  - destruct H as (r & Hr & _ & Hrows & Htasks & _).
    eapply (coherent_same (cancel_task (with_runs rp (rp_runs rp')) (t, id))); try done.
    eapply coherent_cancel_task; [done | |].
    + cbn. rewrite Hrows. apply lookup_insert_eq.
    + done.
  - destruct H as [Htasks _]. by eapply (coherent_same (with_runs rp (rp_runs rp'))).
Qed.

(** ** The goroutine *)

Lemma coherent_started rp k task run db :
  Coherent rp -> rp_tasks rp !! k = Some task -> run_key run = k -> plain_change (rp_runs rp) db ->
  Coherent (set_task (with_runs rp db) k (mkTask run Engine false)).
Proof. intros HC Ht Hr Hp. eapply coherent_set_task; [exact Ht | done | done | by apply coherent_runs]. Qed.

Lemma begin_coherent f at_ em rp k task :
  Coherent rp -> rp_tasks rp !! k = Some task -> Coherent (begin_engine f at_ em rp k task).
Proof.
  intros HC Ht. unfold begin_engine. destruct (tk_cancelled task); [by eapply coherent_leave|].
  apply coherent_append. eapply coherent_started; [done | done | | apply Start_plain].
  by destruct (co_task _ HC k task Ht).
Qed.

Lemma finish_coherent is_file f at_ em rp k task outcome :
  Coherent rp -> rp_tasks rp !! k = Some task -> Coherent (finish is_file f at_ em rp k task outcome).
Proof.
  intros HC Ht. unfold finish. destruct (invoke _ _ _) as [record|why].
  - eapply coherent_leave.
    + unfold Completed. rewrite (proj1 (proj2 (append_rows _ _ _ _ _))). exact Ht.
    + apply coherent_append, coherent_runs; [done | apply Complete_plain].
  - destruct (tk_cancelled task); [by eapply coherent_leave|]. eapply coherent_leave.
    + unfold Failed. rewrite (proj1 (proj2 (append_rows _ _ _ _ _))). exact Ht.
    + apply coherent_append, coherent_runs; [done | apply Fail_plain].
Qed.

Lemma watch_coherent f rp k : Coherent rp -> Coherent (watch_tick f rp k).
Proof.
  intros HC. unfold watch_tick. destruct (Store.Status_ f (rp_runs rp) (fst k) (snd k)) as [s|] eqn:E; [|done].
  destruct (String.eqb_spec s StatusCancelled) as [->|]; [|done].
  unfold Store.Status_, Store.withTenant, transaction in E.
  destruct k as [t id]; cbn [fst snd] in E. destruct (rp_runs rp !! (t, id)) as [r|] eqn:Er.
  - eapply coherent_cancel_task; [done | exact Er |]. repeat case_match; by simplify_eq/=.
  - repeat case_match; by simplify_eq/=.
Qed.

Lemma step_coherent rp rp' : sim_step rp rp' -> Coherent rp -> Coherent rp'.
Proof.
  intros [is_file f at_ rp0 req|m rp0 t id by_ who|rp0 k task Ht Hs Hc|rp0 k task Ht _ _|f at_ em rp0 k task Ht Hs
    |f rp0 k task _ _|is_file f at_ em rp0 k task outcome Ht _|f e rp0|rp0] HC.
  - by apply Submit_coherent.
  - by apply Cancel_coherent.
  - eapply coherent_set_task; [exact Ht | by destruct (co_task _ HC k task Ht) | done | done].
  - by eapply coherent_leave.
  - by apply begin_coherent.
  - by apply watch_coherent.
  - by apply finish_coherent.
  - apply coherent_runs; [done|]. destruct e as [at_ req seed|t id at_|run at_|t id at_ why|t id at_ by_ who]; cbn.
    + destruct (Validate req) eqn:Ev; [|by split; [constructor|left]].
      destruct (Validate_nil req Ev) as (_ & _ & _ & n & Hn). apply Create_plain. by eapply queued_plain.
    + apply Start_plain.
    + apply Complete_plain.
    + apply Fail_plain.
    + apply Cancel_plain.
  - destruct HC as [_ _ H3]. constructor; cbn; [| |done].
    + intros k task Hk. by rewrite lookup_empty in Hk.
    + intros s k. rewrite lookup_empty. split; [done|]. intros [_ []]. by rewrite lookup_empty in *.
Qed.

(** A replica that has just started on a table of well-named runs, and what it becomes. *)
Definition boots (rp : Replica) : Prop :=
  rp_tasks rp = ∅ /\ rp_inFlight rp = ∅ /\ map_Forall (fun k _ => plain_id (snd k)) (rp_runs rp).

Lemma reachable_coherent rp rp' : boots rp -> rtc sim_step rp rp' -> Coherent rp'.
Proof.
  intros (Ht & Hf & Hp) H. assert (HC : Coherent rp).
  { constructor.
    - intros k task Hk. by rewrite Ht, lookup_empty in Hk.
    - intros s k. rewrite Hf, Ht, !lookup_empty. split; [done|]. by intros [_ []].
    - intros k r Hk. exact (Hp k r Hk). }
  clear Ht Hf Hp. induction H as [|rp1 rp2 rp3 H _ IH]; [done|]. by eapply IH, step_coherent.
Qed.

(** * What requests promise *)

(** C23: A cancellation is answered truly. In every reachable state: when it succeeds, that
    run, which was queued or running, is CANCELLED in the name of the caller, exactly that
    run's goroutine and no other is stopped, and the caller is told whether it was here;
    when it is answered as finished the run had finished and nothing changed, and when it is
    answered as unknown the tenant has no such run. A cancelled run stays exactly as it was
    cancelled whatever happens next. *)
Theorem cancellation_is_true (rp0 rp : Replica) (m : CancelMoment) (t id by_ who : string) :
  boots rp0 -> rtc sim_step rp0 rp ->
  let '(rp', answer) := Cancel m rp t id by_ who in
  match answer with
  | Ok owned => exists r, rp_runs rp !! (t, id) = Some r /\ Store.in_progress r = true /\
      (owned = true <-> is_Some (rp_tasks rp !! (t, id))) /\
      rp_tasks rp' = alter (fun x => mkTask (tk_run x) (tk_state x) true) (t, id) (rp_tasks rp) /\
      (forall later, rtc sim_step rp' later ->
         rp_runs later !! (t, id) = Some (Store.set_cancelled (cm_now m) by_ who r))
  | Err ErrNotCancellable => rp_runs rp' = rp_runs rp /\ rp_tasks rp' = rp_tasks rp /\
      exists r, rp_runs rp !! (t, id) = Some r /\ Store.in_progress r = false
  | Err ErrNoSuchRun => rp_runs rp' = rp_runs rp /\ rp_tasks rp' = rp_tasks rp /\
      rp_runs rp !! (t, id) = None
  | Err _ => rp_tasks rp' = rp_tasks rp
  end.
Proof.
  intros Hb Hr. pose proof (reachable_coherent _ _ Hb Hr) as HC.
  destruct (Cancel m rp t id by_ who) as [rp' answer] eqn:E.
  destruct (Cancel_effect _ _ _ _ _ _ _ _ HC E) as [Hf H]. destruct answer as [owned|e].
  - destruct H as (r & Hl & Hp & Hrows & Htasks & Ho). exists r. do 4 (split; [done|]).
    intros later Hlater.
    destruct (proj1 (steps_kept _ _ Hlater) (t, id) (Store.set_cancelled (cm_now m) by_ who r)) as (r' & Hr' & Hs).
    { rewrite Hrows. apply lookup_insert_eq. }
    rewrite Hr'. f_equal. apply Hs. by right.
  - destruct H as (Ht & H1 & H2). destruct e; try done.
    + by destruct (H2 eq_refl).
    + destruct (H1 eq_refl) as [? ?]. by split_and!.
Qed.

Lemma submit_other is_file f at_ rp req k :
  fst k <> sq_TenantID req ->
  let rp' := fst (Submit is_file f at_ rp req) in
  rp_runs rp' !! k = rp_runs rp !! k /\ rp_tasks rp' !! k = rp_tasks rp !! k.
Proof.
  intros Hk. destruct (Submit_cases is_file f at_ rp req) as [[e ->]|(seed & n & _ & _ & _ & ->)]; [done|].
  cbn zeta. assert (Hne : run_key (queued_run at_ req seed) <> k) by (intros <-; done).
  assert (Hc : fst (Store.Create f (rp_runs rp) (queued_run at_ req seed)) !! k = rp_runs rp !! k).
  { destruct (Create_cases f (rp_runs rp) (queued_run at_ req seed)) as [->|[_ ->]]; [done|].
    by rewrite lookup_insert_ne. }
  destruct (snd (Store.Create _ _ _)); cbn; [|done]. split; [done|]. by rewrite lookup_insert_ne.
Qed.

Lemma update_other (db : Store.Tables) (k : string * string) (cond : Store.Row -> bool)
    (set : Store.Row -> Store.Row) (db' : Store.Tables) (b : bool) k0 :
  k <> k0 -> Store.update db k cond set = (db', Ok b) -> db' !! k0 = db !! k0.
Proof.
  intros Hne. unfold Store.update. destruct (db !! k) as [r|]; [|by intros [= <- _]].
  destruct (cond r); [|by intros [= <- _]]. destruct (Store.row_refused _); [done|]. intros [= <- _].
  by rewrite lookup_insert_ne.
Qed.

Lemma Cancel_other_row (f : TxFault) (db : Store.Tables) (t id : string) (at_ : Time) (by_ who : string) k :
  (t, id) <> k -> fst (Store.Cancel f db t id at_ by_ who) !! k = db !! k.
Proof.
  intros Hne. unfold Store.Cancel. destruct (String.eqb by_ ""); [done|].
  pose proof (sim_tenant_cases f db t (fun db =>
    Store.update db (t, id) Store.in_progress (Store.set_cancelled at_ by_ who))) as [H|(_ & a & H)].
  - by rewrite H.
  - by eapply update_other.
Qed.

Lemma cancel_other m rp t id by_ who k :
  Coherent rp -> fst k <> t ->
  let rp' := fst (Cancel m rp t id by_ who) in
  rp_runs rp' !! k = rp_runs rp !! k /\ rp_tasks rp' !! k = rp_tasks rp !! k.
Proof.
  intros HC Hk. assert (Hne : (t, id) <> k) by (intros <-; done). split.
  - unfold Cancel. destruct (Store.Load _ _ _ _ _) as [[existing|]|]; try done.
    assert (Hc : fst (Store.Cancel (cm_write m) (rp_runs rp) t id (cm_now m) by_ who) !! k = rp_runs rp !! k).
    { by apply Cancel_other_row. }
    destruct (Store.Cancel _ _ _ _ _ _ _) as [db [[|]|]]; cbn in Hc |- *; try exact Hc.
    unfold Cancelled. rewrite (proj1 (append_rows _ _ _ _ _)). by destruct (rp_inFlight rp !! _).
  - destruct (Cancel m rp t id by_ who) as [rp' answer] eqn:E. cbn.
    destruct (Cancel_effect _ _ _ _ _ _ _ _ HC E) as [_ H]. destruct answer as [owned|e].
    + destruct H as (r & _ & _ & _ & -> & _). by rewrite lookup_alter_ne.
    + by destruct H as [-> _].
Qed.

Lemma scan_all_tenant l runs : Store.scan_all unmarshal_record l = Ok runs ->
  forall run, run ∈ runs -> exists k r, (k, r) ∈ l /\ run_key run = k.
Proof.
  revert runs. induction l as [|[k r] l IH]; intros runs; cbn; [intros [= <-] run H; by apply elem_of_nil in H|].
  destruct (Store.scanRun _ k r) as [x|] eqn:E; [|done].
  destruct (Store.scan_all _ l) as [xs|]; [|done]. intros [= <-] run [->|H]%elem_of_cons.
  - exists k, r. split; [by left|]. unfold Store.scanRun in E. destruct k.
    repeat case_match; by simplify_eq/=.
  - destruct (IH xs eq_refl run H) as (k' & r' & Hin & Hk). exists k', r'. split; [by right | done].
Qed.

Section Isolation.
Context {Pool : Type} (chain : Pool -> list Certificate -> Certificate -> Time -> option X509Error).
Context (sv : Server (Pool := Pool)).
Context (decode_submit : string -> result submitRequest string).
Context (decode_cancel : string -> result cancelRequest string).

Lemma requireCaller_ok m r t who : requireCaller chain sv m r = Ok (t, who) ->
  a_TenantID (resolve chain sv (am_clock m) 0 r) = t /\
  RequireExecutable (resolve chain sv (am_clock m) 0 r) = None.
Proof.
  unfold requireCaller. destruct (negb (am_store m)); [done|].
  destruct (RequireExecutable _); [done|]. destruct (String.eqb _ _); [done|].
  destruct (_ && _); [done|]. by intros [= <- _].
Qed.

Lemma get_own m rp r run : get chain sv m rp r = mkAnswer StatusOK (SRun run) ->
  requireCaller chain sv m r = Ok (ru_TenantID run, a_APIIdentity (resolve chain sv (am_clock m) 0 r)).
Proof.
  unfold get. destruct (requireCaller chain sv m r) as [[t who]|answer] eqn:E; cbn.
  - destruct (String.eqb _ _); [done|]. destruct (Store.Load _ _ _ _ _) as [[x|]|] eqn:El; [|done..].
    intros [= ->]. destruct (Load_cases _ _ _ _ _ El) as (_ & _ & Hk). specialize (Hk run eq_refl).
    injection Hk as -> _. unfold requireCaller in E. repeat case_match; by simplify_eq.
  - unfold requireCaller in E. intros ->. repeat case_match; by simplify_eq.
Qed.

Lemma list_own m rp r limit t runs : list_runs chain sv m rp r limit = mkAnswer StatusOK (SRuns t runs) ->
  (exists who, requireCaller chain sv m r = Ok (t, who)) /\ forall run, run ∈ runs -> ru_TenantID run = t.
Proof.
  unfold list_runs. destruct (requireCaller chain sv m r) as [[t' who]|answer] eqn:E; cbn.
  2:{ unfold requireCaller in E. intros ->. repeat case_match; by simplify_eq. }
  destruct (Store.List _ _ _ _ _) as [l|] eqn:El; [|done]. intros [= -> ->]. split; [by exists who|].
  intros run Hin. unfold Store.List, Store.withTenant in El.
  assert (exists n, Store.scan_all unmarshal_record (take n (stable_sort Store.newer
    (filter (fun x => fst (fst x) = t) (map_to_list (rp_runs rp))))) = Ok runs) as [n Hs].
  { unfold transaction in El. repeat case_match; simplify_eq/=; eauto. }
  destruct (scan_all_tenant _ _ Hs run Hin) as (k & row & Hk & <-).
  apply elem_of_take in Hk as (i & Hk & _). apply list_elem_of_lookup_2 in Hk.
  rewrite (stable_sort_perm _ _) in Hk. by apply list_elem_of_filter in Hk as [<- _].
Qed.

(** C24: One tenant's simulations are closed to every other. A request acts for the tenant its
    caller is authenticated for; whatever it asks for, no run and no goroutine of another
    tenant is changed by submitting or cancelling, and what is read is that tenant's. *)
Theorem simulations_are_isolated (rp0 rp : Replica) (m : ApiMoment) (r : Request) (limit : string)
    (k : string * string) :
  boots rp0 -> rtc sim_step rp0 rp ->
  let caller := resolve chain sv (am_clock m) 0 r in
  (fst k <> a_TenantID caller ->
   forall rp', rp' = fst (submit chain sv decode_submit m rp r) \/
               rp' = fst (cancel chain sv decode_cancel m rp r) ->
     rp_runs rp' !! k = rp_runs rp !! k /\ rp_tasks rp' !! k = rp_tasks rp !! k) /\
  (forall run, get chain sv m rp r = mkAnswer StatusOK (SRun run) ->
     ru_TenantID run = a_TenantID caller) /\
  (forall t runs run, list_runs chain sv m rp r limit = mkAnswer StatusOK (SRuns t runs) ->
     run ∈ runs -> ru_TenantID run = a_TenantID caller).
Proof.
  intros Hb Hr. pose proof (reachable_coherent _ _ Hb Hr) as HC. cbn zeta. split_and!.
  - intros Hk rp' [->| ->].
    + unfold submit. destruct (requireCaller chain sv m r) as [[t who]|] eqn:E; [|done].
      apply requireCaller_ok in E as [Ht _]. rewrite Ht in Hk. clear Ht. repeat (case_match; try done).
      all: match goal with H : Submit ?i ?f ?a ?p ?q = (?x, _) |- _ =>
        pose proof (submit_other i f a p q k Hk) as Hs; rewrite H in Hs; exact Hs end.
    + unfold cancel. destruct (requireCaller chain sv m r) as [[t who]|] eqn:E; [|done].
      apply requireCaller_ok in E as [Ht _]. rewrite Ht in Hk. clear Ht. repeat (case_match; try done).
      all: match goal with H : Cancel ?c ?p ?t ?i ?b ?w = (?x, _) |- _ =>
        pose proof (cancel_other c p t i b w k HC Hk) as Hs; rewrite H in Hs; exact Hs end.
  - intros run Hg. apply get_own, requireCaller_ok in Hg as [-> _]. done.
  - intros t runs run Hl Hin. apply list_own in Hl as [[who Hq] Ho].
    apply requireCaller_ok in Hq as [-> _]. by apply Ho.
Qed.
End Isolation.

(** * Every engine's run is settled *)

Lemma update_settles (db : Store.Tables) (k : string * string) (set : Store.Row -> Store.Row) r :
  db !! k = Some r -> Terminal (Store.r_status (set r)) = true -> Store.row_refused (set r) = None ->
  exists r' b, fst (Store.update db k Store.unsettled set) !! k = Some r' /\
    snd (Store.update db k Store.unsettled set) = Ok b /\ Terminal (Store.r_status r') = true.
Proof.
  intros Hl Ht Hr. unfold Store.update. rewrite Hl. destruct (Store.unsettled r) eqn:E.
  - rewrite Hr. exists (set r), true. cbn. by rewrite lookup_insert_eq.
  - exists r, false. split; [done|]. split; [done|].
    apply not_true_iff_false in E. rewrite unsettled_spec in E.
    destruct (decide (Store.r_status r = StatusCompleted)) as [Hs|Hs]; [by rewrite Hs|].
    destruct (decide (Store.r_status r = StatusCancelled)) as [Hs'|Hs']; [by rewrite Hs'|].
    exfalso. apply E. intros [?|?]; done.
Qed.

Lemma ignored_fine (db : Store.Tables) (t : string) (x : Store.Tables -> Store.Tables * result bool SimError) b :
  t <> "" -> snd (x db) = Ok b ->
  fst (Store.withTenant Fine db t (fun db => Store.ignore (x db))) = fst (x db).
Proof.
  intros Ht Hx. unfold Store.withTenant. destruct (String.eqb_spec t ""); [done|].
  cbn. destruct (x db) as [db' y]. cbn in Hx. by rewrite Hx.
Qed.

Lemma invoke_ok is_file run outcome record : invoke is_file run outcome = Ok record ->
  exists s, lookup_string record "result_fingerprint" = Some s.
Proof.
  unfold invoke. destruct (ResolveScenario _ _); [|done]. destruct outcome; try done.
  destruct (unmarshal_output stdout) as [l|]; [|done].
  destruct (lookup_string l "result_fingerprint") eqn:E; [|done]. intros [= <-]. by exists s.
Qed.

(** A run ends when its engine does. In every reachable state, when the engine of a run
    has ended, however it ended, and the database takes the result, the run is COMPLETED,
    FAILED or CANCELLED and its slot is free, unless the engine printed an empty
    fingerprint. *)
Theorem ended_run_is_settled (rp0 rp : Replica) (is_file : string -> bool) (at_ : Time)
    (em : EvidenceMoment) (k : string * string) (task : Task) (outcome : EngineOutcome) :
  boots rp0 -> rtc sim_step rp0 rp ->
  rp_tasks rp !! k = Some task ->
  (forall record, invoke is_file (tk_run task) outcome = Ok record ->
     lookup_string record "result_fingerprint" <> Some "") ->
  let rp' := finish is_file Fine at_ em rp k task outcome in
  rp_tasks rp' !! k = None /\
  exists r, rp_runs rp' !! k = Some r /\ Terminal (Store.r_status r) = true.
Proof.
  intros Hb Hr Ht Hf. pose proof (reachable_coherent _ _ Hb Hr) as HC.
  destruct (co_task _ HC k task Ht) as (Hk & Hn & r & Hl & Hc). cbn zeta. unfold finish.
  destruct (invoke is_file (tk_run task) outcome) as [record|why] eqn:E.
  - destruct (invoke_ok _ _ _ _ E) as [s Hs]. specialize (Hf record eq_refl).
    split; [apply lookup_delete_eq|]. cbn [leave rp_runs]. unfold Completed.
    rewrite (proj1 (append_rows _ _ _ _ _)). cbn [with_runs rp_runs].
    set (run := completed_run (tk_run task) at_ record).
    assert (Hrun : (ru_TenantID run, ru_RunID run) = k) by done.
    destruct (update_settles (rp_runs rp) k
      (Store.set_completed at_ run (marshal_record (ru_Record run))) r Hl eq_refl) as (r' & b & Hr' & Hb' & Hterm).
    { unfold run, Store.row_refused, Store.set_completed, Store.nullIfEmpty.
      cbn [Store.r_status Store.r_result_fingerprint Store.r_record ru_ResultFingerprint completed_run].
      rewrite Hs in Hf |- *. cbn. destruct (String.eqb_spec s ""); [congruence | done]. }
    exists r'. split; [|done]. unfold Store.Complete. rewrite Hrun.
    rewrite (ignored_fine (rp_runs rp) _ (fun db => Store.update db k Store.unsettled
      (Store.set_completed at_ run (marshal_record (ru_Record run)))) b); [done | | done].
    by rewrite <- Hk in Hn.
  - destruct (tk_cancelled task).
    + split; [apply lookup_delete_eq|]. exists r. split; [done|]. by rewrite Hc.
    + split; [apply lookup_delete_eq|]. cbn [leave rp_runs]. unfold Failed.
      rewrite (proj1 (append_rows _ _ _ _ _)). cbn [with_runs rp_runs]. unfold Store.Fail.
      set (reason := if String.eqb why "" then _ else why).
      destruct (update_settles (rp_runs rp) k (Store.set_failed at_ reason) r Hl eq_refl eq_refl)
        as (r' & b & Hr' & Hb' & Hterm).
      exists r'. split; [|done].
      assert (Hrun : (ru_TenantID (tk_run task), ru_RunID (tk_run task)) = k) by done. rewrite Hrun.
      rewrite (ignored_fine (rp_runs rp) _ (fun db => Store.update db k Store.unsettled
        (Store.set_failed at_ reason)) b); [done | | done]. by rewrite <- Hk in Hn.
Qed.

(** The scenario an engine is started with is the built-in one or a file of the scenario
    directory whose name is letters, digits, underscores and dashes. *)
Theorem scenario_stays_inside (is_file : string -> bool) (name p : string) :
  ResolveScenario is_file name = Ok p ->
  p = "demo" \/ exists n, p = Join_dir (n +:+ ".json") /\ is_file p = true /\ n <> "" /\
    (String.length n <= 64)%nat /\ forallb name_byte (bytes n) = true.
Proof.
  unfold ResolveScenario. destruct (ValidateScenarioName name) as [n|] eqn:E; [|done].
  apply ValidateScenarioName_ok in E as (_ & Hn & Hl & Hf).
  destruct (String.eqb_spec n "demo"); [intros [= <-]; by left|].
  destruct (negb _); [done|]. destruct (is_file _) eqn:Ei; [|done]. intros [= <-]. right. by exists n.
Qed.

(** * Divergences *)

(** FAILED is terminal by [Terminal], and not by the store: a failed run becomes
    COMPLETED. *)
Theorem failed_run_is_completed (db : Store.Tables) (run : Run) (at_ : Time) (r : Store.Row) :
  ru_TenantID run <> "" -> db !! run_key run = Some r -> Store.r_status r = StatusFailed ->
  ru_ResultFingerprint run <> "" ->
  exists db' r', Store.Complete marshal_record Fine db run at_ = (db', Ok ()) /\
    db' !! run_key run = Some r' /\ Store.r_status r' = StatusCompleted /\
    Terminal (Store.r_status r) = true.
Proof.
  intros Ht Hl Hs Hf. unfold Store.Complete, Store.withTenant.
  destruct (String.eqb_spec (ru_TenantID run) ""); [done|]. unfold run_key in Hl. cbn.
  unfold Store.update. rewrite Hl. unfold Store.unsettled. rewrite Hs. cbn.
  unfold Store.row_refused, Store.set_completed, Store.nullIfEmpty. cbn.
  destruct (String.eqb_spec (ru_ResultFingerprint run) ""); [done|]. cbn.
  do 2 eexists. split; [done|]. by rewrite lookup_insert_eq.
Qed.

Lemma Complete_refused (f : TxFault) (db : Store.Tables) (run : Run) (at_ : Time) :
  ru_ResultFingerprint run = "" -> fst (Store.Complete marshal_record f db run at_) = db.
Proof.
  intros Hs. unfold Store.Complete. pose proof (sim_tenant_cases f db (ru_TenantID run) (fun db =>
    Store.ignore (Store.update db (ru_TenantID run, ru_RunID run) Store.unsettled
      (Store.set_completed at_ run (marshal_record (ru_Record run)))))) as [H|(_ & a & H)]; [by rewrite H|].
  apply ignore_ok in H as [b H]. symmetry. revert H. generalize (fst (Store.withTenant f db (ru_TenantID run)
    (fun db => Store.ignore (Store.update db (ru_TenantID run, ru_RunID run) Store.unsettled
      (Store.set_completed at_ run (marshal_record (ru_Record run))))))). intros db'.
  unfold Store.update. destruct (db !! _) as [r|]; [|by intros [= <- _]].
  destruct (Store.unsettled r); [|by intros [= <- _]].
  unfold Store.row_refused, Store.set_completed, Store.nullIfEmpty. by rewrite Hs.
Qed.

(** An engine that prints an empty fingerprint passes the check on its output, and the
    table refuses the result: the run is left as it was, running, with nobody to end it. *)
Theorem empty_fingerprint_never_settles (rp : Replica) (is_file : string -> bool) (f : TxFault)
    (at_ : Time) (em : EvidenceMoment) (k : string * string) (task : Task) (outcome : EngineOutcome)
    (record : EngineRecord) :
  invoke is_file (tk_run task) outcome = Ok record ->
  lookup_string record "result_fingerprint" = Some "" ->
  let rp' := finish is_file f at_ em rp k task outcome in
  rp_runs rp' = rp_runs rp /\ rp_tasks rp' !! k = None.
Proof.
  intros E Hs. cbn zeta. unfold finish. rewrite E. split; [|apply lookup_delete_eq].
  cbn [leave rp_runs]. unfold Completed. rewrite (proj1 (append_rows _ _ _ _ _)). cbn [with_runs rp_runs].
  apply Complete_refused. cbn. by rewrite Hs.
Qed.

(** ** A scenario with space around its name *)

Lemma trim_bytes_done encs fuel : forall l, Forall (fun e => e <> []) encs -> (length l <= fuel)%nat ->
  strip_one encs (trim_bytes fuel encs l) = None.
Proof.
  induction fuel as [|fuel IH]; intros l He Hl; cbn.
  - destruct l; [|cbn in Hl; lia]. clear Hl. induction He as [|e encs Hne _ IHe]; [done|]. cbn. by destruct e.
  - destruct (strip_one encs l) as [l'|] eqn:E; [|exact E]. apply IH; [done|].
    assert (Hs : (length l' < length l)%nat); [|lia]. clear Hl. revert E.
    clear IH. induction He as [|e encs Hne _ IHe]; cbn; [done|].
    destruct (strip_prefix e l) as [r|] eqn:Ep; [|done].
    intros [= <-]. rewrite (strip_prefix_app _ _ _ Ep), length_app. destruct e; [done | cbn; lia].
Qed.

Lemma trim_bytes_suffix encs fuel : forall l, exists p, l = p ++ trim_bytes fuel encs l.
Proof.
  induction fuel as [|fuel IH]; intros l; cbn; [by exists []|].
  destruct (strip_one encs l) as [l'|] eqn:E; [|by exists []]. destruct (IH l') as [p Hp].
  assert (exists q, l = q ++ l') as [q ->].
  { revert E. clear. induction encs as [|e encs IH]; cbn; [done|].
    destruct (strip_prefix e l) as [r|] eqn:Ep; [|done]. intros [= <-]. exists e. by apply strip_prefix_app. }
  exists (q ++ p). rewrite <- app_assoc. by rewrite <- Hp.
Qed.

Lemma trimmed_no_space s x : TrimSpace s <> x +:+ " ".
Proof.
  unfold TrimSpace. intros H. apply (f_equal bytes) in H. rewrite bytes_app in H.
  assert (Hb : Forall Crypto.is_byte (trim_right (trim_left (bytes s)))).
  { assert (H0 : Forall Crypto.is_byte (bytes s)).
    { apply Forall_forall. intros n Hn. apply list_elem_of_fmap in Hn as (c & -> & _).
      unfold Crypto.is_byte. apply Ascii.nat_ascii_bounded. }
    unfold trim_right, trim_left.
    destruct (trim_bytes_suffix space_encodings (length (bytes s)) (bytes s)) as [p Hp].
    rewrite Hp in H0. apply Forall_app in H0 as [_ H0]. revert H0.
    generalize (trim_bytes (length (bytes s)) space_encodings (bytes s)). intros l H0.
    apply Forall_rev in H0.
    destruct (trim_bytes_suffix (map (@rev nat) space_encodings) (length l) (rev l)) as [q Hq].
    apply Forall_rev. rewrite Hq in H0. by apply Forall_app in H0 as [_ H0]. }
  rewrite Crypto.bytes_str_of_bytes in H by done. clear Hb. unfold trim_right in H.
  apply (f_equal (@rev nat)) in H. rewrite rev_involutive, rev_app_distr in H.
  pose proof (trim_bytes_done (map (@rev nat) space_encodings) (length (trim_left (bytes s)))
    (rev (trim_left (bytes s)))) as Hd.
  rewrite H in Hd. cbn in Hd. discriminate Hd.
  - repeat constructor; done.
  - by rewrite length_rev.
Qed.

(** A scenario named with a space after it is accepted, and its run cannot be read or
    cancelled: the run's identifier ends in the space that the other endpoints trim from
    the identifiers they are given. *)
Theorem padded_scenario_cannot_be_named (at_ : Time) (req : SimRequest) (seed : Z) (name : string)
    (r : Request) :
  sq_Scenario req = name +:+ " " -> TrimSpace (rq_PathID r) <> ru_RunID (queued_run at_ req seed).
Proof.
  intros H. cbn [ru_RunID queued_run]. rewrite H, !str_app_assoc. apply trimmed_no_space.
Qed.
End Runner.

(** * Witnesses *)

#[local] Existing Instance Evidence.toy_json.

Definition toy_output (s : string) : result EngineRecord string := Ok [("result_fingerprint", DString s)].
Definition toy_marshal (_ : option EngineRecord) : string := "{}".
Definition toy_unmarshal (_ : string) : option (option EngineRecord) := Some None.
Definition anywhere (_ : string) : bool := true.
Definition no_store : EvidenceMoment := mkEvidenceMoment false 0 0 Fine.
Definition recorded (at_ : Time) : EvidenceMoment := mkEvidenceMoment true at_ at_ Fine.

Local Abbreviation step := (sim_step (HJ := Evidence.toy_json) toy_marshal toy_unmarshal toy_output "/srv" 1).
Local Abbreviation demo_submit := (Submit "/srv").
Local Abbreviation demo_begin := (begin_engine (HJ := Evidence.toy_json)).
Local Abbreviation demo_finish := (finish (HJ := Evidence.toy_json) toy_marshal toy_output "/srv").
Local Abbreviation demo_cancel := (Cancel (HJ := Evidence.toy_json) toy_unmarshal).

Definition sim_start : Time := unixNanoEpoch + 7.
Definition demo_request : SimRequest := mkSimRequest "acme" "demo" (Some 42) "ana" "svc-1".
Definition demo_key : string * string := ("acme", "sim_7_demo").
Definition demo_run : Run := queued_run sim_start demo_request 42.

Definition booted : Replica := mkReplica ∅ ∅ ∅ Evidence.empty_tables 0.
Definition accepted : Replica := fst (demo_submit anywhere Fine sim_start booted demo_request).
Definition slotted : Replica := set_task accepted demo_key (mkTask demo_run HasSlot false).
Definition running : Replica :=
  demo_begin Fine (sim_start + 1) (recorded (sim_start + 1)) slotted demo_key (mkTask demo_run HasSlot false).
Definition engine_task : Task := mkTask (started_run demo_run (sim_start + 1)) Engine false.
Definition ended (stdout : string) : Replica :=
  demo_finish anywhere Fine (sim_start + 9) (recorded (sim_start + 9)) running demo_key engine_task
    (Printed stdout).

Lemma booted_boots : boots booted.
Proof. split_and!; [reflexivity | reflexivity | apply map_Forall_empty]. Qed.

Lemma run_to_engine : rtc step booted running.
Proof.
  eapply rtc_l; [exact (step_submit _ _ _ _ _ anywhere Fine sim_start booted demo_request)|].
  eapply rtc_l; [exact (step_slot _ _ _ _ _ accepted demo_key (mkTask demo_run Waiting false)
    eq_refl eq_refl (proj1 (Nat.ltb_lt (busy accepted) 1) eq_refl))|].
  apply rtc_once. exact (step_begin _ _ _ _ _ Fine (sim_start + 1) (recorded (sim_start + 1)) slotted demo_key
    (mkTask demo_run HasSlot false) eq_refl eq_refl).
Qed.

Lemma run_to_end : rtc step booted (ended "f1").
Proof.
  eapply rtc_r; [exact run_to_engine|].
  exact (step_finish _ _ _ _ _ anywhere Fine (sim_start + 9) (recorded (sim_start + 9)) running demo_key
    engine_task (Printed "f1") eq_refl eq_refl).
Qed.

Definition status_of (rp : Replica) (k : string * string) : option Status :=
  Store.r_status <$> rp_runs rp !! k.

Example run_record_is_kept_witness :
  status_of running demo_key = Some StatusRunning /\ rows_valid (rp_runs running).
Proof.
  split; [vm_compute; reflexivity|].
  exact (proj2 (run_record_is_kept _ _ _ _ _ booted running run_to_engine) ltac:(apply map_Forall_empty)).
Defined.

Example engines_bounded_witness : busy running = 1%nat /\ (busy running <= 1)%nat.
Proof.
  split; [vm_compute; reflexivity|].
  exact (engines_bounded _ _ _ _ 1 booted running run_to_engine eq_refl).
Defined.

Definition stop : CancelMoment := mkCancelMoment Fine Fine (sim_start + 5) (recorded (sim_start + 5)).
Definition stopped : Replica := fst (demo_cancel stop running "acme" "sim_7_demo" "ana" "svc-1").

Example cancellation_is_true_witness :
  status_of stopped demo_key = Some StatusCancelled /\
  exists r, forall later, rtc step stopped later -> rp_runs later !! demo_key = Some r.
Proof.
  split; [vm_compute; reflexivity|].
  pose proof (cancellation_is_true _ _ _ _ _ booted running stop "acme" "sim_7_demo" "ana" "svc-1"
    booted_boots run_to_engine) as H.
  unfold stopped. destruct (demo_cancel stop running "acme" "sim_7_demo" "ana" "svc-1") as [rp' a] eqn:E.
  assert (a = Ok true) as -> by (apply (f_equal snd) in E; vm_compute in E; by rewrite <- E).
  destruct H as (r & _ & _ & _ & _ & H). exact (ex_intro _ _ H).
Defined.

Definition demo_callers : Server (Pool := unit) := mkServer None None.
Definition demo_chain (_ : unit) (_ : list Certificate) (_ : Certificate) (_ : Time) : option X509Error := None.
Definition demo_moment : ApiMoment :=
  mkApiMoment true true (fun _ => sim_start) anywhere Fine stop Fine.

(** A request without identity that names the run. *)
Definition stranger : Request := mkRequest "" "acme" [] (Some "{}") "sim_7_demo".

Example simulations_are_isolated_witness :
  a_TenantID (resolve demo_chain demo_callers (am_clock demo_moment) 0 stranger) = "" /\
  rp_runs (fst (cancel (HJ := Evidence.toy_json) toy_unmarshal demo_chain demo_callers
                  (fun _ => Err "") demo_moment running stranger)) !! demo_key = rp_runs running !! demo_key.
Proof.
  split; [vm_compute; reflexivity|].
  refine (proj1 (proj1 (simulations_are_isolated _ _ _ _ _ demo_chain demo_callers (fun _ => Err "") (fun _ => Err "")
    booted running demo_moment stranger "" demo_key booted_boots run_to_engine) _ _ (or_intror eq_refl))).
  vm_compute. discriminate.
Defined.

Example ended_run_is_settled_witness :
  status_of (ended "f1") demo_key = Some StatusCompleted /\
  rp_tasks (ended "f1") !! demo_key = None.
Proof.
  split; [vm_compute; reflexivity|].
  refine (proj1 (ended_run_is_settled _ _ _ _ _ booted running anywhere (sim_start + 9) (recorded (sim_start + 9))
    demo_key engine_task (Printed "f1") booted_boots run_to_engine eq_refl _)).
  intros record H. vm_compute in H. injection H as <-. vm_compute. discriminate.
Defined.

Example scenario_stays_inside_witness :
  exists p, ResolveScenario "/srv" anywhere " flash_crash " = Ok p /\ p = "/srv/flash_crash.json".
Proof.
  exists "/srv/flash_crash.json". split; [vm_compute; reflexivity|].
  destruct (scenario_stays_inside "/srv" anywhere " flash_crash " "/srv/flash_crash.json"
    ltac:(vm_compute; reflexivity)) as [H|_]; [discriminate H | reflexivity].
Defined.

Definition failed_once : Replica :=
  demo_finish anywhere Fine (sim_start + 9) no_store running demo_key engine_task TimedOut.

Example failed_run_is_completed_witness :
  status_of failed_once demo_key = Some StatusFailed /\
  exists db, Store.Complete toy_marshal Fine (rp_runs failed_once)
    (completed_run demo_run 5 [("result_fingerprint", DString "f1")]) 5 = (db, Ok ()).
Proof.
  split; [vm_compute; reflexivity|].
  destruct (rp_runs failed_once !! demo_key) as [r|] eqn:E; [|vm_compute in E; discriminate].
  destruct (failed_run_is_completed toy_marshal (rp_runs failed_once)
    (completed_run demo_run 5 [("result_fingerprint", DString "f1")]) 5 r) as (db & _ & H & _).
  - discriminate.
  - exact E.
  - vm_compute in E. injection E as <-. reflexivity.
  - discriminate.
  - exists db. exact H.
Defined.

Example empty_fingerprint_never_settles_witness :
  status_of (ended "") demo_key = Some StatusRunning /\ rp_runs (ended "") = rp_runs running.
Proof.
  split; [vm_compute; reflexivity|].
  exact (proj1 (empty_fingerprint_never_settles toy_marshal toy_output "/srv" running anywhere Fine (sim_start + 9)
    (recorded (sim_start + 9)) demo_key engine_task (Printed "") [("result_fingerprint", DString "")]
    ltac:(vm_compute; reflexivity) ltac:(reflexivity))).
Defined.

Definition padded_request : SimRequest := mkSimRequest "acme" "demo " (Some 42) "ana" "svc-1".

Example padded_scenario_cannot_be_named_witness :
  is_ok (snd (demo_submit anywhere Fine sim_start booted padded_request)) = true /\
  forall r, TrimSpace (rq_PathID r) <> ru_RunID (queued_run sim_start padded_request 42).
Proof.
  split; [vm_compute; reflexivity|]. intros r.
  exact (padded_scenario_cannot_be_named sim_start padded_request 42 "demo" r eq_refl).
Defined.

(** The engine finishes while a cancellation arrives: the row keeps the cancellation and
    the evidence says both. *)
Definition raced : Replica :=
  demo_finish anywhere Fine (sim_start + 9) (recorded (sim_start + 9))
    stopped demo_key (mkTask (started_run demo_run (sim_start + 1)) Engine true) (Printed "f1").

Definition event_names (rp : Replica) : list string :=
  map (fun x => Evidence.r_event_name (snd x)) (map_to_list (Evidence.events (rp_evidence rp))).

(** An engine that ends well as its run is cancelled leaves evidence of both: the row is
    CANCELLED, and the evidence says that the run was cancelled and that it completed. *)
Theorem cancelled_run_is_reported_completed :
  status_of raced demo_key = Some StatusCancelled /\
  SimulationCancelled ∈ event_names raced /\ SimulationCompleted ∈ event_names raced.
Proof.
  split; [vm_compute; reflexivity|].
  split; apply list_elem_of_In; vm_compute; tauto.
Qed.
