(* ===== verification/Telemetry.v ===== *)
(** The gateway's telemetry: internal/gateway/telemetry.go and [observed] of pipeline.go.

    A submission leaves a copy of its envelope and of what was decided in a bounded
    buffer; a loop takes the buffer in batches and writes it to the analytical store
    ([FleetStore]).  Observations arrive while a batch is being written, so a flush is two
    steps, [take_batch] and [deliver].  [Observe] is a partial function: the code panics
    when the buffer's bound is not positive.  Counters of observations are integers.  The
    loop's timer and wake-up only choose when a flush happens and are not modelled. *)

From S2P Require Import Prelude Money Intent Fleet FleetStore.
From S2P Require Pipeline Scenarios Identity Authority Policy Broker Crypto Evidence Usage Execution.

(** * The buffer *)

Record Telemetry := mkTelemetry {
  te_envelopes : list Envelope;
  te_decisions : gmap string Decision;
  te_dropped : Z
}.

(** [NewTelemetry]: the bound is 50,000. *)
Definition NewTelemetry : Telemetry := mkTelemetry [] ∅ 0.
Definition DefaultMaxBuffered : Z := 50000.

(** What [observed] says of a result, for which results, and nothing of an envelope that
    did not decode. *)
Definition observed_decision (r : Pipeline.Result) : Decision :=
  mkDecision (match Pipeline.rs_Authority r with Some a => Authority.d_Code a | None => "" end)
    (match Pipeline.rs_Policy r with Some p => Policy.pd_Action p | None => "" end)
    (match Pipeline.rs_Policy r with Some p => Policy.pd_BundleID p | None => "" end)
    (if String.eqb (Pipeline.rs_Stage r) Pipeline.StageControl then Pipeline.rs_Code r else "")
    (if String.eqb (Pipeline.rs_Stage r) Pipeline.StageControl then Pipeline.rs_ControlID r else "").

(** The answers that return without [observed]: a replayed duplicate and an unknown
    outcome. *)
Definition unobserved (r : Pipeline.Result) : bool :=
  (String.eqb (Pipeline.rs_Stage r) Pipeline.StageIdempotency && String.eqb (Pipeline.rs_Code r) "DUPLICATE") ||
  (String.eqb (Pipeline.rs_Stage r) Pipeline.StageExecution && String.eqb (Pipeline.rs_Code r) "OUTCOME_UNKNOWN").

Definition observation (decoded : option Envelope) (r : option Pipeline.Result)
    : option (Envelope * Decision) :=
  match decoded, r with
  | Some env, Some r => if unobserved r then None else Some (env, observed_decision r)
  | _, _ => None
  end.

Section Buffer.
Context (MaxBuffered : nat).

Definition add (e : Envelope) (d : Decision) (t : Telemetry) : Telemetry :=
  mkTelemetry (te_envelopes t ++ [e]) (<[env_EnvelopeID e := d]> (te_decisions t)) (te_dropped t).

(** [None] is the panic of an empty buffer that is already too full. *)
Definition Observe (e : Envelope) (d : Decision) (t : Telemetry) : option Telemetry :=
  if (MaxBuffered <=? length (te_envelopes t))%nat then
    match te_envelopes t with
    | [] => None
    | oldest :: rest =>
        Some (add e d (mkTelemetry rest (delete (env_EnvelopeID oldest) (te_decisions t)) (te_dropped t + 1)))
    end
  else Some (add e d t).

(** A batch on its way: the envelopes and their decisions. *)
Record Batch := mkBatch { ba_envelopes : list Envelope; ba_decisions : gmap string Decision }.

(** The first half of [Flush]: the buffer is taken, and the number dropped is what is
    reported when there is anything to write. *)
Definition take_batch (t : Telemetry) : Telemetry * option Batch * Z :=
  (NewTelemetry,
   match te_envelopes t with [] => None | l => Some (mkBatch l (te_decisions t)) end,
   match te_envelopes t with [] => 0 | _ => te_dropped t end).

Definition requeue (b : Batch) (t : Telemetry) : Telemetry :=
  let n := length (ba_envelopes b) in
  if (MaxBuffered <=? length (te_envelopes t))%nat then
    mkTelemetry (te_envelopes t) (te_decisions t) (te_dropped t + Z.of_nat n)
  else
    let room := (MaxBuffered - length (te_envelopes t))%nat in
    mkTelemetry (drop (n - room) (ba_envelopes b) ++ te_envelopes t)
      (ba_decisions b ∪ te_decisions t)
      (te_dropped t + Z.of_nat (n - room)).

(** The second half: a batch that was not written is put back, one whose dependencies
    were not is not. *)
Definition deliver (intents deps : TxFault) (db : Analytics) (b : Batch) (t : Telemetry)
    : Analytics * Telemetry * bool :=
  let envelopes := map Some (ba_envelopes b) in
  match InsertIntents intents db envelopes (ba_decisions b) with
  | (db, Some _) => (db, requeue b t, false)
  | (db, None) => (fst (InsertDependencies deps db envelopes), t, true)
  end.

(** * Over time *)

(** The telemetry of a gateway: the buffer, the batch that is being written, the tables,
    and the sum of the numbers reported as dropped. *)
Record State := mkState {
  st_telemetry : Telemetry;
  st_flight : option Batch;
  st_db : Analytics;
  st_reported : Z
}.

Inductive telemetry_op :=
| OObserve (e : Envelope) (d : Decision)
| OTake
| ODeliver (intents deps : TxFault).

(** One flush at a time, as the loop runs them. *)
Definition telemetry_step (s : State) (op : telemetry_op) : State :=
  match op with
  | OObserve e d =>
      match Observe e d (st_telemetry s) with
      | Some t => mkState t (st_flight s) (st_db s) (st_reported s)
      | None => s
      end
  | OTake =>
      match st_flight s with
      | Some _ => s
      | None =>
          let '(t, b, n) := take_batch (st_telemetry s) in mkState t b (st_db s) (st_reported s + n)
      end
  | ODeliver f1 f2 =>
      match st_flight s with
      | None => s
      | Some b =>
          let '(db, t, ok) := deliver f1 f2 (st_db s) b (st_telemetry s) in mkState t None db (st_reported s)
      end
  end.

Definition idle : State := mkState NewTelemetry None no_analytics 0.

(** ** What is observed and what is held *)

(** What a caller hands over is counted whatever becomes of it. *)
Definition observed_of (ops : list telemetry_op) : list (Envelope * Decision) :=
  omap (fun op => match op with OObserve e d => Some (e, d) | _ => None end) ops.

(** No write is applied behind a lost answer. *)
Definition clean (op : telemetry_op) : Prop :=
  match op with ODeliver LostAck _ => False | _ => True end.

Definition in_flight (s : State) : list Envelope :=
  match st_flight s with Some b => ba_envelopes b | None => [] end.

(** What waits to be written, oldest first. *)
Definition waiting (s : State) : list Envelope := in_flight s ++ te_envelopes (st_telemetry s).

(** The row of an observation. *)
Definition row_of (p : Envelope * Decision) : IntentRow :=
  intent_row {[env_EnvelopeID (fst p) := snd p]} (fst p).

(** The pairs of a batch, with the decisions it holds for them. *)
Definition pairs (b : Batch) : list (Envelope * Decision) :=
  map (fun e => (e, default no_decision (ba_decisions b !! env_EnvelopeID e))) (ba_envelopes b).

Lemma map_fst_pairs b : map fst (pairs b) = ba_envelopes b.
Proof. unfold pairs. rewrite map_map. apply map_id. Qed.

Lemma length_pairs b : length (pairs b) = length (ba_envelopes b).
Proof. apply length_map. Qed.

(** A batch is written as the rows of its pairs. *)
Lemma rows_of_pairs b : map (intent_row (ba_decisions b)) (ba_envelopes b) = map row_of (pairs b).
Proof.
  unfold pairs. rewrite map_map. apply map_ext. intros e. unfold row_of, intent_row. cbn [fst snd].
  by rewrite lookup_singleton_eq.
Qed.

Lemma observed_app ops op : observed_of (ops ++ [op]) = observed_of ops ++ observed_of [op].
Proof. apply omap_app. Qed.

(** After [ops], with [W] written and acknowledged: nothing is missing, what is kept is in
    order, the rows of [W] are in the table, in that order, nothing else is if no answer was
    lost, and every row there is that of something observed. *)
Record accounted (ops : list telemetry_op) (s : State) (W : list (Envelope * Decision)) : Prop := {
  ac_order : sublist (map fst W ++ waiting s) (map fst (observed_of ops));
  ac_count : Z.of_nat (length (observed_of ops)) =
    Z.of_nat (length W + length (waiting s)) + te_dropped (st_telemetry s) + st_reported s;
  ac_bound : (length (te_envelopes (st_telemetry s)) <= MaxBuffered)%nat;
  ac_reportable : te_envelopes (st_telemetry s) = [] -> te_dropped (st_telemetry s) = 0;
  ac_flight : forall b, st_flight s = Some b -> ba_envelopes b <> [];
  ac_rows : sublist (map row_of W) (intents (st_db s));
  ac_exact : Forall clean ops -> intents (st_db s) = map row_of W;
  ac_origin : forall x, x ∈ intents (st_db s) -> exists e d, e ∈ map fst (observed_of ops) /\ x = row_of (e, d)
}.

(** The table is untouched by a step that writes nothing. *)
Lemma same_rows ops op W (l : list IntentRow) :
  (sublist (map row_of W) l /\ (Forall clean ops -> l = map row_of W) /\
   forall x, x ∈ l -> exists e d, e ∈ map fst (observed_of ops) /\ x = row_of (e, d)) ->
  sublist (map row_of W) l /\ (Forall clean (ops ++ [op]) -> l = map row_of W) /\
  forall x, x ∈ l -> exists e d, e ∈ map fst (observed_of (ops ++ [op])) /\ x = row_of (e, d).
Proof.
  intros (H1 & H2 & H3). split_and!; [done | by intros [? _]%Forall_app; auto |].
  intros x Hx. destruct (H3 x Hx) as (e & d & He & ->). exists e, d. split; [|done].
  rewrite observed_app, map_app. apply elem_of_app. by left.
Qed.

Lemma Observe_accounted ops e d s t W :
  (0 < MaxBuffered)%nat -> accounted ops s W -> Observe e d (st_telemetry s) = Some t ->
  accounted (ops ++ [OObserve e d]) (mkState t (st_flight s) (st_db s) (st_reported s)) W.
Proof.
  intros Hm [Ho Hc Hb Hr Hf H1 H2 H3].
  destruct (same_rows ops (OObserve e d) W (intents (st_db s)) (conj H1 (conj H2 H3))) as (H1' & H2' & H3').
  clear H1 H2 H3. rewrite observed_app in H3'. change (observed_of [OObserve e d]) with [(e, d)] in H3'.
  assert (Hobs : observed_of (ops ++ [OObserve e d]) = observed_of ops ++ [(e, d)]) by apply observed_app.
  unfold Observe. unfold waiting, in_flight in *.
  destruct (MaxBuffered <=? length (te_envelopes (st_telemetry s)))%nat eqn:E; b2p.
  - destruct (te_envelopes (st_telemetry s)) as [|x rest] eqn:Et; [done|]. intros [= <-].
    constructor; unfold waiting, in_flight; rewrite ?Hobs;
      cbn [te_envelopes te_dropped add st_telemetry st_flight st_reported]; try done.
    + rewrite map_app, !app_assoc. apply sublist_app; [|done]. rewrite <- !app_assoc. etransitivity; [|exact Ho].
      do 2 (apply sublist_app; [done|]). by apply sublist_cons.
    + rewrite !length_app in *. cbn [length] in *. lia.
    + rewrite length_app. cbn [length] in *. lia.
    + by destruct rest.
  - intros [= <-]. constructor; unfold waiting, in_flight; rewrite ?Hobs;
      cbn [te_envelopes te_dropped add st_telemetry st_flight st_reported]; try done.
    + rewrite map_app, !app_assoc. apply sublist_app; [|done]. by rewrite <- !app_assoc.
    + rewrite !length_app in *. cbn [length] in *. lia.
    + rewrite length_app. cbn [length] in *. apply Nat.leb_gt in E. lia.
    + by destruct (te_envelopes (st_telemetry s)).
Qed.

Lemma take_accounted ops s W :
  accounted ops s W -> accounted (ops ++ [OTake]) (telemetry_step s OTake) W.
Proof.
  intros [Ho Hc Hb Hr Hf H1 H2 H3].
  destruct (same_rows ops OTake W (intents (st_db s)) (conj H1 (conj H2 H3))) as (H1' & H2' & H3').
  clear H1 H2 H3. cbn [telemetry_step].
  assert (observed_of (ops ++ [OTake]) = observed_of ops) as Hobs by by rewrite observed_app, app_nil_r.
  rewrite Hobs in H3'. destruct (st_flight s) as [b|] eqn:Ef.
  - constructor; rewrite ?Hobs, ?Ef; done.
  - unfold take_batch, waiting, in_flight in *. rewrite Ef in *.
    destruct (te_envelopes (st_telemetry s)) as [|x l] eqn:Et;
      constructor; unfold waiting, in_flight; rewrite ?Hobs; cbn in *; rewrite ?app_nil_r in *; try done; try lia.
    + rewrite (Hr eq_refl) in Hc. lia.
    + by intros b [= <-].
Qed.

Lemma requeue_spec b t :
  (length (te_envelopes t) <= MaxBuffered)%nat ->
  exists k, te_envelopes (requeue b t) = drop k (ba_envelopes b) ++ te_envelopes t /\
    (k <= length (ba_envelopes b))%nat /\
    (length (te_envelopes (requeue b t)) <= MaxBuffered)%nat /\
    te_dropped (requeue b t) = te_dropped t + Z.of_nat k /\
    (k = length (ba_envelopes b) -> te_envelopes t = [] -> MaxBuffered = O \/ ba_envelopes b = []).
Proof.
  intros Hb. unfold requeue. destruct (MaxBuffered <=? length (te_envelopes t))%nat eqn:E; b2p.
  - exists (length (ba_envelopes b)). rewrite drop_all. split_and!; try done.
    intros _ Ht. apply Nat.leb_le in E. rewrite Ht in E. cbn in E. left. lia.
  - apply Nat.leb_gt in E. exists (length (ba_envelopes b) - (MaxBuffered - length (te_envelopes t)))%nat. cbn.
    split_and!; [done | lia | rewrite length_app, length_drop; lia | done |].
    intros Hk Ht. rewrite Ht in *. cbn in *. right. apply nil_length_inv. lia.
Qed.

(** What a write does to the table and to the buffer. *)
Lemma deliver_cases f1 f2 db b t :
  ba_envelopes b <> [] ->
  exists db', (deliver f1 f2 db b t = (db', requeue b t, false) /\
      (intents db' = intents db \/ f1 = LostAck /\ intents db' = intents db ++ map row_of (pairs b))) \/
    (deliver f1 f2 db b t = (db', t, true) /\ intents db' = intents db ++ map row_of (pairs b)).
Proof.
  intros Hne. rewrite <- rows_of_pairs. unfold deliver, InsertIntents, InsertDependencies. cbn zeta.
  replace (omap id (map Some (ba_envelopes b))) with (ba_envelopes b)
    by (clear; induction (ba_envelopes b) as [|x l IH]; cbn; [done | by rewrite <- IH]).
  destruct (ba_envelopes b) as [|x l]; [done|]. cbn [map].
  destruct f1; cbn [exec].
  - eexists. right. split; [done|]. by destruct (dependency_rows _), f2.
  - eexists. left. split; [done|]. by left.
  - eexists. left. split; [done|]. by right.
Qed.

Lemma deliver_accounted f1 f2 ops s W :
  (0 < MaxBuffered)%nat -> accounted ops s W ->
  exists W', accounted (ops ++ [ODeliver f1 f2]) (telemetry_step s (ODeliver f1 f2)) W'.
Proof.
  intros Hm [Ho Hc Hb Hr Hf H1 H2 H3].
  assert (observed_of (ops ++ [ODeliver f1 f2]) = observed_of ops) as Hobs by by rewrite observed_app, app_nil_r.
  assert (Hcl : Forall clean (ops ++ [ODeliver f1 f2]) -> Forall clean ops /\ f1 <> LostAck).
  { intros [? Hx]%Forall_app. apply Forall_cons in Hx as [Hx _]. by destruct f1. }
  cbn [telemetry_step]. destruct (st_flight s) as [b|] eqn:Ef.
  2:{ exists W. constructor; rewrite ?Hobs, ?Ef; try done. intros Hx. by apply H2, Hcl. }
  specialize (Hf b eq_refl). unfold waiting, in_flight in *. rewrite Ef in *.
  assert (Hor : forall x, x ∈ map row_of (pairs b) -> exists e d, e ∈ map fst (observed_of ops) /\ x = row_of (e, d)).
  { intros x ([e d] & -> & Hp)%list_elem_of_fmap. exists e, d. split; [|done].
    eapply elem_of_sublist; [|exact Ho].
    rewrite <- (map_fst_pairs b). apply elem_of_app. right. apply elem_of_app. left.
    apply list_elem_of_fmap. by exists (e, d). }
  destruct (deliver_cases f1 f2 (st_db s) b (st_telemetry s) Hf) as (db & [[-> Hd]|[-> Hd]]).
  - exists W. destruct (requeue_spec b (st_telemetry s) Hb) as (k & He & Hk & Hb' & Hdr & Hz).
    constructor; unfold waiting, in_flight; cbn [st_telemetry st_flight st_reported st_db]; rewrite ?Hobs, ?He, ?Hdr in *.
    + etransitivity; [|exact Ho]. cbn. apply sublist_app; [done|]. apply sublist_app; [|done].
      apply sublist_drop.
    + cbn. rewrite !length_app, length_drop in *. lia.
    + done.
    + intros Hx. apply app_eq_nil in Hx as [Hx Ht]. apply (f_equal length) in Hx.
      rewrite length_drop in Hx. cbn in Hx. destruct Hz as [|]; [lia | done | lia | done].
    + done.
    + destruct Hd as [->|[_ ->]]; [done | by apply sublist_inserts_r].
    + intros [Hx Hn]%Hcl. destruct Hd as [->|[? _]]; [by apply H2 | done].
    + destruct Hd as [->|[_ ->]]; [done|]. intros x [Hx|Hx]%elem_of_app; auto.
  - exists (W ++ pairs b).
    constructor; unfold waiting, in_flight; cbn [st_telemetry st_flight st_reported st_db]; rewrite ?Hobs, ?Hd, ?map_app.
    + rewrite map_fst_pairs. by rewrite <- app_assoc.
    + rewrite !length_app, length_pairs in *. cbn. lia.
    + done.
    + done.
    + done.
    + by apply sublist_app.
    + intros [Hx _]%Hcl. by rewrite H2.
    + intros x [Hx|Hx]%elem_of_app; auto.
Qed.

Definition nonempty_flight (s : State) : Prop :=
  forall b, st_flight s = Some b -> ba_envelopes b <> [].

Lemma Observe_some e d t : (0 < MaxBuffered)%nat -> is_Some (Observe e d t).
Proof.
  intros Hm. unfold Observe. destruct (MaxBuffered <=? length (te_envelopes t))%nat eqn:E; [|by eexists].
  destruct (te_envelopes t); [|by eexists]. apply Nat.leb_le in E. cbn in E. lia.
Qed.

Lemma history_accounted ops :
  (0 < MaxBuffered)%nat -> exists W, accounted ops (run_ops telemetry_step idle ops) W.
Proof.
  intros Hm. induction ops as [|op ops [W HA]] using rev_ind.
  - exists []. constructor; cbn; try done; try lia. by intros x ?%elem_of_nil.
  - rewrite run_ops_app. cbn [run_ops foldl]. destruct op as [e d| |f1 f2].
    + exists W. cbn [telemetry_step].
      destruct (Observe_some e d (st_telemetry (run_ops telemetry_step idle ops)) Hm) as [t Ht]. rewrite Ht.
      by eapply Observe_accounted.
    + exists W. by apply take_accounted.
    + by eapply deliver_accounted.
Qed.

(** C26: The telemetry loses nothing in silence.  Whatever is observed while batches are
    taken, written, refused and put back: every observation is written, with its row in
    the intents table, on its way, buffered, or counted as dropped; what is kept stays in
    the order it was observed in; every row of the table is that of an observation; unless
    a write was applied behind a lost answer the table holds the written ones and nothing
    else, each once; and the buffer never outgrows its bound. *)
Theorem telemetry_loses_nothing_in_silence (ops : list telemetry_op) :
  (0 < MaxBuffered)%nat ->
  let s := run_ops telemetry_step idle ops in
  (exists W, sublist (map fst W ++ in_flight s ++ te_envelopes (st_telemetry s)) (map fst (observed_of ops)) /\
     Z.of_nat (length (observed_of ops)) =
       Z.of_nat (length W + length (in_flight s) + length (te_envelopes (st_telemetry s))) +
       te_dropped (st_telemetry s) + st_reported s /\
     sublist (map row_of W) (intents (st_db s)) /\
     (Forall clean ops -> intents (st_db s) = map row_of W)) /\
  (forall x, x ∈ intents (st_db s) -> exists e d, e ∈ map fst (observed_of ops) /\ x = row_of (e, d)) /\
  (length (te_envelopes (st_telemetry s)) <= MaxBuffered)%nat.
Proof.
  intros Hm s. destruct (history_accounted ops Hm) as [W [Ho Hc Hb _ _ H1 H2 H3]]. fold s in Ho, Hc, Hb, H1, H2, H3.
  split_and!; [|done..]. exists W. split_and!; [done | | done..].
  rewrite Hc. unfold waiting. rewrite length_app. lia.
Qed.

(** ** What the written rows say *)

Notation id_of := (fun p : Envelope * Decision => env_EnvelopeID (fst p)).

(** The buffered list [l] under the decisions [m]. *)
Definition carries (m : gmap string Decision) (l : list (Envelope * Decision)) : Prop :=
  Forall (fun p => m !! env_EnvelopeID (fst p) = Some (snd p)) l.

Definition known (m : gmap string Decision) (seen : list (Envelope * Decision)) : Prop :=
  forall k, is_Some (m !! k) -> k ∈ map id_of seen.

Lemma intent_row_lookup m m' e :
  m !! env_EnvelopeID e = m' !! env_EnvelopeID e -> intent_row m e = intent_row m' e.
Proof. intros H. unfold intent_row. by rewrite H. Qed.

Lemma rows_of_carried m l : carries m l -> map (intent_row m) (map fst l) = map row_of l.
Proof.
  intros H. rewrite map_map. apply map_ext_in. intros p Hp. apply list_elem_of_In in Hp.
  unfold row_of. apply intent_row_lookup. rewrite lookup_singleton_eq.
  by apply (proj1 (Forall_forall _ _) H).
Qed.

Definition flight_of (s : State) : Batch := default (mkBatch [] ∅) (st_flight s).

(** Every observation still held has its own decision beside it. *)
Record faithful (seen : list (Envelope * Decision)) (s : State) : Prop := {
  fa_rows : exists W F B,
    intents (st_db s) = map row_of W /\ ba_envelopes (flight_of s) = map fst F /\
    te_envelopes (st_telemetry s) = map fst B /\ sublist (W ++ F ++ B) seen /\
    carries (ba_decisions (flight_of s)) F /\ carries (te_decisions (st_telemetry s)) B /\
    (forall p, p ∈ B -> ba_decisions (flight_of s) !! env_EnvelopeID (fst p) = None);
  fa_flight : known (ba_decisions (flight_of s)) seen;
  fa_buffer : known (te_decisions (st_telemetry s)) seen
}.

Lemma carries_insert m l e d :
  env_EnvelopeID e ∉ map id_of l -> carries m l -> carries (<[env_EnvelopeID e := d]> m) (l ++ [(e, d)]).
Proof.
  intros Hn H. apply Forall_app. split; [|constructor; [apply lookup_insert_eq | constructor]].
  apply Forall_forall. intros p Hp. rewrite lookup_insert_ne.
  - by apply (proj1 (Forall_forall _ _) H).
  - intros He. apply Hn. rewrite He. apply list_elem_of_fmap. by exists p.
Qed.

Lemma carries_delete m p l :
  NoDup (map id_of (p :: l)) -> carries m (p :: l) -> carries (delete (env_EnvelopeID (fst p)) m) l.
Proof.
  intros Hd H. apply NoDup_cons in Hd as [Hn _]. apply Forall_cons in H as [_ H].
  apply Forall_forall. intros q Hq. rewrite lookup_delete_ne.
  - by apply (proj1 (Forall_forall _ _) H).
  - intros He. apply Hn. rewrite He. apply list_elem_of_fmap. by exists q.
Qed.

Lemma known_empty seen : known ∅ seen.
Proof. intros k [x Hk]. by apply lookup_empty_Some in Hk. Qed.

Lemma known_app m seen more : known m seen -> known m (seen ++ more).
Proof. intros H k Hk. rewrite map_app. apply elem_of_app. left. by apply H. Qed.

Lemma known_insert m seen e d :
  known m seen -> known (<[env_EnvelopeID e := d]> m) (seen ++ [(e, d)]).
Proof.
  intros H k [x Hk]. rewrite map_app. apply elem_of_app. apply lookup_insert_Some in Hk as [[<- _]|[_ Hk]].
  - right. cbn. by apply list_elem_of_singleton.
  - left. apply H. by eexists.
Qed.

Lemma known_delete m seen k : known m seen -> known (delete k m) seen.
Proof. intros H j [x Hj]. apply lookup_delete_Some in Hj as [_ Hj]. apply H. by eexists. Qed.

Lemma id_sublist {l l' : list (Envelope * Decision)} : sublist l l' -> sublist (map id_of l) (map id_of l').
Proof. induction 1; cbn; by constructor. Qed.

Lemma Observe_faithful seen e d s t :
  NoDup (map id_of (seen ++ [(e, d)])) -> faithful seen s -> Observe e d (st_telemetry s) = Some t ->
  faithful (seen ++ [(e, d)]) (mkState t (st_flight s) (st_db s) (st_reported s)).
Proof.
  intros Hd [(W & F & B & Hw & Hf & He & Hs & Hcf & Hcb & Hx) Kf Kb] HO.
  rewrite map_app in Hd. apply NoDup_app in Hd as (Hd & Hnew & _).
  assert (env_EnvelopeID e ∉ map id_of seen) as Hn.
  { intros Hin. apply (Hnew _ Hin). by apply list_elem_of_singleton. }
  assert (ba_decisions (flight_of s) !! env_EnvelopeID e = None) as Hfl.
  { apply eq_None_not_Some. intros Hy. by apply Hn, Kf. }
  assert (exists B' m', t = add e d (mkTelemetry (map fst B') m' (te_dropped t)) /\
      sublist B' B /\ carries m' B' /\ known m' seen) as (B' & m' & -> & HB & HcB & Hk).
  { unfold Observe in HO. rewrite He in HO. destruct (MaxBuffered <=? _)%nat.
    - destruct B as [|p B]; cbn in HO; [done|]. injection HO as <-. cbn.
      exists B, (delete (env_EnvelopeID (fst p)) (te_decisions (st_telemetry s))).
      split_and!; [done | by apply sublist_cons | | by apply known_delete].
      apply carries_delete; [|done]. eapply sublist_NoDup; [exact Hd|]. apply id_sublist.
      etransitivity; [|exact Hs]. by apply sublist_inserts_l, sublist_inserts_l.
    - injection HO as <-. cbn. exists B, (te_decisions (st_telemetry s)).
      destruct (st_telemetry s); cbn in *; subst; done. }
  assert (sublist (W ++ F ++ B') seen) as Hs'.
  { etransitivity; [|exact Hs]. by do 2 (apply sublist_app; [done|]). }
  constructor; cbn [flight_of st_flight st_telemetry add te_decisions te_envelopes st_db].
  - exists W, F, (B' ++ [(e, d)]). rewrite map_app. split_and!; try done.
    + rewrite !app_assoc. apply sublist_app; [|done]. by rewrite <- app_assoc.
    + apply carries_insert; [|done]. intros Hin. apply Hn. apply (elem_of_sublist _ _ _ Hin).
      apply id_sublist. etransitivity; [|exact Hs'].
      by apply sublist_inserts_l, sublist_inserts_l.
    + intros p [Hp|Hp]%elem_of_app; [apply Hx; by eapply elem_of_sublist|].
      by apply list_elem_of_singleton in Hp as ->.
  - by apply known_app.
  - by apply known_insert.
Qed.

Lemma take_faithful seen s : faithful seen s -> faithful seen (telemetry_step s OTake).
Proof.
  intros HF. cbn. destruct (st_flight s) as [b|] eqn:Ef; [done|].
  destruct HF as [(W & F & B & Hw & Hf & He & Hs & Hcf & Hcb & Hx) Kf Kb].
  unfold flight_of in *. rewrite Ef in *. cbn in *. symmetry in Hf. apply map_eq_nil in Hf as ->. cbn in Hs.
  destruct (te_envelopes (st_telemetry s)) as [|x l] eqn:Et;
    constructor; cbn [flight_of st_flight st_telemetry te_decisions te_envelopes st_db NewTelemetry default ba_decisions ba_envelopes];
    try apply known_empty; try done.
  - exists W, [], []. destruct B; [|done]. split_and!; try done; by constructor.
  - exists W, B, []. rewrite app_nil_r. split_and!; try done; try by constructor. by intros p ?%elem_of_nil.
Qed.

Lemma carries_union_l m m' l : carries m l -> carries (m ∪ m') l.
Proof. intros H. eapply Forall_impl; [exact H|]. intros p Hp. by apply lookup_union_Some_l. Qed.

Lemma carries_union_r (m m' : gmap string Decision) l :
  (forall p, p ∈ l -> m !! env_EnvelopeID (fst p) = None) -> carries m' l -> carries (m ∪ m') l.
Proof.
  intros Hx H. apply Forall_forall. intros p Hp. rewrite lookup_union_r by by apply Hx.
  by apply (proj1 (Forall_forall _ _) H).
Qed.

Lemma deliver_db f1 f2 db b t :
  clean (ODeliver f1 f2) -> ba_envelopes b <> [] ->
  exists db', (deliver f1 f2 db b t = (db', requeue b t, false) /\ intents db' = intents db) \/
    (deliver f1 f2 db b t = (db', t, true) /\
     intents db' = intents db ++ map (intent_row (ba_decisions b)) (ba_envelopes b)).
Proof.
  intros Hc Hne. rewrite rows_of_pairs.
  destruct (deliver_cases f1 f2 db b t Hne) as (db' & [[-> [Hd|[-> _]]]|[-> Hd]]); [| done |]; exists db'; auto.
Qed.

Lemma deliver_faithful seen f1 f2 s :
  clean (ODeliver f1 f2) -> nonempty_flight s -> faithful seen s -> faithful seen (telemetry_step s (ODeliver f1 f2)).
Proof.
  intros Hc Hne HF. cbn. destruct (st_flight s) as [b|] eqn:Ef; [|done].
  destruct HF as [(W & F & B & Hw & Hf & He & Hs & Hcf & Hcb & Hx) Kf Kb].
  unfold flight_of in *. rewrite Ef in *. cbn [default from_option id] in *.
  destruct (deliver_db f1 f2 (st_db s) b (st_telemetry s) Hc (Hne b Ef)) as [db [[-> Hi]|[-> Hi]]];
    constructor; cbn [flight_of st_flight st_telemetry st_db default ba_decisions ba_envelopes];
    try apply known_empty; try done; try (by constructor).
  - rewrite Hi. unfold requeue. destruct (MaxBuffered <=? _)%nat.
    + exists W, [], B. split_and!; try done; [|by constructor]. etransitivity; [|exact Hs].
      apply sublist_app; [done|]. by apply sublist_inserts_l.
    + exists W, [], (drop (length (ba_envelopes b) - (MaxBuffered - length (te_envelopes (st_telemetry s))))
                       F ++ B). cbn. rewrite Hf, He, map_app, skipn_map.
      split_and!; try done; try by apply Forall_nil.
      * etransitivity; [|exact Hs]. cbn.
        apply sublist_app; [done|]. apply sublist_app; [apply sublist_drop | done].
      * apply Forall_app. split; [|by apply carries_union_r]. apply carries_union_l.
        by apply Forall_drop.
  - unfold requeue. destruct (MaxBuffered <=? length (te_envelopes (st_telemetry s)))%nat; [exact Kb|]. cbn.
    intros k [x [Hk|[_ Hk]]%lookup_union_Some_raw]; [apply Kf | apply Kb]; by eexists.
  - exists (W ++ F), [], B. rewrite Hi, Hf, Hw, map_app, (rows_of_carried _ _ Hcf), <- app_assoc.
    split_and!; try done. by constructor.
Qed.

(** A row says what was decided of its own intent.  While every observed envelope has
    an id of its own and no write is applied behind a lost answer, the intents table
    holds, in the order they were observed and each once, observations with the decision
    that was made of them, whatever was dropped, put back or interleaved. *)
Theorem rows_carry_their_own_decision (ops : list telemetry_op) :
  (0 < MaxBuffered)%nat -> NoDup (map id_of (observed_of ops)) -> Forall clean ops ->
  exists W, sublist W (observed_of ops) /\
    intents (st_db (run_ops telemetry_step idle ops)) = map row_of W.
Proof.
  intros Hm Hd Hcl.
  assert (forall ops, NoDup (map id_of (observed_of ops)) -> Forall clean ops ->
    faithful (observed_of ops) (run_ops telemetry_step idle ops)) as H.
  { clear -Hm. intros ops. induction ops as [|op ops IH] using rev_ind.
    - intros _ _. constructor; cbn; try apply known_empty. exists [], [], []. split_and!; try done; by constructor.
    - intros Hd [Hc1 Hc2]%Forall_app. apply Forall_cons in Hc2 as [Hc2 _]. rewrite observed_app in *.
      specialize (IH ltac:(rewrite map_app in Hd; by apply NoDup_app in Hd as [? _]) Hc1).
      destruct (history_accounted ops Hm) as [W HA]. rewrite run_ops_app. cbn [run_ops foldl].
      destruct op as [e d| |f1 f2].
      + cbn [telemetry_step].
        destruct (Observe_some e d (st_telemetry (run_ops telemetry_step idle ops)) Hm) as [t Ht].
        rewrite Ht. by apply Observe_faithful.
      + cbn [observed_of omap list_omap]. rewrite app_nil_r. by apply take_faithful.
      + cbn [observed_of omap list_omap]. rewrite app_nil_r.
        apply deliver_faithful; [done | exact (ac_flight _ _ _ HA) | done]. }
  destruct (H ops Hd Hcl) as [(W & F & B & Hw & _ & _ & Hl & _) _ _].
  exists W. split; [|exact Hw]. etransitivity; [|exact Hl]. by apply sublist_inserts_r.
Qed.
End Buffer.

(** * Runs *)

#[local] Existing Instance Crypto.toy_crypto.
#[local] Existing Instance Evidence.toy_json.
#[local] Existing Instance Usage.memory_reserver.
#[local] Existing Instance Identity.postgres_keys.
#[local] Existing Instance Execution.memory_store.
#[local] Existing Instance Broker.fakebroker_adapter.

(** A request that presents nothing at all. *)
Definition nobody : Identity.Presented := Identity.mkPresented None [] "" "" false false false.

Definition forged_run :=
  Pipeline.Submit Identity.any_chain Scenarios.decode_desk Scenarios.text_of Scenarios.text_of Scenarios.desk
    (fst Scenarios.accepted_run) (Scenarios.moment Scenarios.tight Fine Fine 51)
    (Scenarios.body_of Scenarios.first_order) nobody.

(** The observations of some answers about one envelope, flushed together. *)
Definition observe_all (env : Envelope) (rs : list (option Pipeline.Result)) : list telemetry_op :=
  omap (fun r => option_map (fun p : Envelope * Decision => OObserve (fst p) (snd p)) (observation (Some env) r)) rs.

Definition flushed (ops : list telemetry_op) : list (string * string) :=
  map (fun r => (xr_EnvelopeID r, xr_AuthorityDecision r))
    (intents (st_db (run_ops (telemetry_step 4) idle (ops ++ [OTake; ODeliver Fine Fine])))).

(** Anyone who can reach the gateway rewrites what the fleet sees.  The decisions of a
    batch are kept by envelope id alone, and a submission is observed before its caller is
    known.  An order is accepted, and a request that presents no identity repeats its
    envelope before the batch is written: it is refused, and the accepted order's row no
    longer says that it was authorised. *)
Theorem refused_stranger_rewrites_the_row :
  Scenarios.verdict (snd Scenarios.accepted_run) = Some (true, "", "ACCEPTED") /\
  Scenarios.verdict (snd forged_run) = Some (false, Pipeline.StageIdentity, "UNAUTHENTICATED_WORKLOAD") /\
  flushed (observe_all Scenarios.first_order [snd Scenarios.accepted_run]) = [("env-1", Authority.codeAllowed)] /\
  flushed (observe_all Scenarios.first_order [snd Scenarios.accepted_run; snd forged_run]) =
    [("env-1", ""); ("env-1", "")].
Proof. vm_compute. auto. Qed.

(** An order whose outcome is unknown was decided and may be working at the venue, and the
    fleet view is not told of it. *)
Theorem unknown_outcome_is_not_observed :
  Scenarios.verdict (snd Scenarios.unknown_run) = Some (false, Pipeline.StageExecution, "OUTCOME_UNKNOWN") /\
  observation (Some Scenarios.first_order) (snd Scenarios.unknown_run) = None.
Proof. vm_compute. auto. Qed.

Definition one_order : list telemetry_op := [OObserve Scenarios.first_order no_decision; OTake].

(** A batch whose write was applied and whose answer was lost is put back and written
    again: one observation, two rows, in a store that removes no duplicate. *)
Theorem lost_answer_counts_an_intent_twice :
  let ops := one_order ++ [ODeliver LostAck Fine; OTake; ODeliver Fine Fine] in
  let s := run_ops (telemetry_step 4) idle ops in
  length (observed_of ops) = 1%nat /\
  map xr_EnvelopeID (intents (st_db s)) = ["env-1"; "env-1"].
Proof. vm_compute. auto. Qed.

(** A buffer of one, a batch refused while another observation arrives. *)
Definition busy_desk : list telemetry_op :=
  [OObserve Scenarios.first_order no_decision; OTake; OObserve Scenarios.other_order no_decision;
   ODeliver Fails Fine; OTake; ODeliver Fine Fine].

Definition busy_state : State := run_ops (telemetry_step 1) idle busy_desk.

Lemma busy_desk_clean : Forall clean busy_desk.
Proof. repeat constructor. Qed.

Example telemetry_loses_nothing_in_silence_witness :
  te_dropped (st_telemetry busy_state) + st_reported busy_state = 1 /\
  exists W, sublist (map fst W) (map fst (observed_of busy_desk)) /\ length W = 1%nat /\
    intents (st_db busy_state) = map row_of W.
Proof.
  split; [vm_compute; reflexivity|].
  destruct (telemetry_loses_nothing_in_silence 1 busy_desk) as ((W & Ho & _ & _ & He) & _); [lia|].
  exists W. split_and!.
  - etransitivity; [|exact Ho]. by apply sublist_inserts_r.
  - rewrite <- (length_map row_of W). pose proof (f_equal length (He busy_desk_clean)) as Hl.
    etransitivity; [symmetry; exact Hl | vm_compute; reflexivity].
  - apply He, busy_desk_clean.
Defined.

Example rows_carry_their_own_decision_witness :
  exists W, sublist W (observed_of busy_desk) /\
    intents (st_db (run_ops (telemetry_step 1) idle busy_desk)) = map row_of W /\
    map xr_EnvelopeID (intents (st_db (run_ops (telemetry_step 1) idle busy_desk))) = ["env-9"].
Proof.
  destruct (rows_carry_their_own_decision 1 busy_desk) as (W & HW & HR).
  - lia.
  - vm_compute. repeat constructor; set_solver.
  - repeat constructor.
  - exists W. split_and!; [exact HW | exact HR | vm_compute; reflexivity].
Defined.
