(* ===== verification/Wire.v ===== *)
(** What the adapters of external services share: numbers read from text
    ([strconv.ParseFloat]), text put into an address ([url.QueryEscape],
    [url.PathEscape]), and one HTTP exchange with a service.

    The service and the network are a parameter, [Transport]: an exchange either gets no
    answer, or one that breaks off, or a status and a body of which at most a mebibyte is
    read.  A request is its method, address, headers and payload; the encoding of the
    payload (encoding/json, url.Values.Encode) is the library's. *)

From Stdlib Require Import SpecFloat.
From S2P Require Import Prelude Strings Money Broker CanonicalJSON Crypto Float64.

(** * strconv.ParseFloat *)

Definition byte_of_set (l : bytes_t) (b : nat) : bool := existsb (Nat.eqb b) l.

Definition lower_byte (b : nat) : nat := if ((65 <=? b) && (b <=? 90))%nat then b + 32 else b.

Fixpoint common_prefix (l p : bytes_t) : nat :=
  match l, p with
  | b :: l', c :: p' => if (lower_byte b =? c)%nat then S (common_prefix l' p') else 0
  | _, _ => 0
  end.

(** [special]: a number and how much of the text it is. *)
Definition special (l : bytes_t) : option (float64 * nat) :=
  let infinity neg nsign rest :=
    let n := common_prefix rest (bytes "infinity") in
    let n := if ((3 <? n) && (n <? 8))%nat then 3%nat else n in
    if ((n =? 3) || (n =? 8))%nat then Some (S754_infinity neg, nsign + n)%nat else None in
  match l with
  | 43%nat :: rest => infinity false 1%nat rest
  | 45%nat :: rest => infinity true 1%nat rest
  | b :: _ =>
      if (lower_byte b =? 105)%nat then infinity false 0%nat l
      else if (common_prefix l (bytes "nan") =? 3)%nat then Some (S754_nan, 3%nat) else None
  | [] => None
  end.

Definition digit_in (base : Z) (b : nat) : option Z :=
  if ((48 <=? b) && (b <=? 57))%nat then Some (Z.of_nat b - 48)
  else if (base =? 16) && ((97 <=? lower_byte b) && (lower_byte b <=? 102))%nat
  then Some (Z.of_nat (lower_byte b) - 87) else None.

(** The digits read so far: their value, how many follow the point, and whether there is
    a point, a digit, an underscore. *)
Record Scan := mkScan {
  sc_mantissa : Z;
  sc_fraction : Z;
  sc_dot : bool;
  sc_digits : bool;
  sc_underscores : bool
}.

Fixpoint scan_digits (base : Z) (sc : Scan) (l : bytes_t) : Scan * bytes_t :=
  match l with
  | [] => (sc, [])
  | b :: l' =>
      if (b =? 95)%nat then
        scan_digits base (mkScan (sc_mantissa sc) (sc_fraction sc) (sc_dot sc) (sc_digits sc) true) l'
      else if (b =? 46)%nat then
        if sc_dot sc then (sc, l)
        else scan_digits base (mkScan (sc_mantissa sc) (sc_fraction sc) true (sc_digits sc) (sc_underscores sc)) l'
      else match digit_in base b with
           | Some d =>
               scan_digits base (mkScan (sc_mantissa sc * base + d)
                                   (if sc_dot sc then sc_fraction sc + 1 else sc_fraction sc)
                                   (sc_dot sc) true (sc_underscores sc)) l'
           | None => (sc, l)
           end
  end.

Fixpoint scan_exponent (e : Z) (under : bool) (l : bytes_t) : Z * bool * bytes_t :=
  match l with
  | b :: l' =>
      if (b =? 95)%nat then scan_exponent e true l'
      else match digit_in 10 b with
           | Some d => scan_exponent (if e <? 10000 then e * 10 + d else e) under l'
           | None => (e, under, l)
           end
  | [] => (e, under, [])
  end.

(** The sign and the digits of an exponent: its value, whether it holds underscores, and
    what follows it. *)
Definition read_exponent (l : bytes_t) : option (Z * bool * bytes_t) :=
  let '(sign, l) := match l with
                    | 43%nat :: l' => (1, l')
                    | 45%nat :: l' => (-1, l')
                    | _ => (1, l)
                    end in
  match l with
  | b :: _ =>
      match digit_in 10 b with
      | Some _ => let '(e, under, rest) := scan_exponent 0 false l in Some (sign * e, under, rest)
      | None => None
      end
  | [] => None
  end.

(** [underscoreOK]: what was last seen is nothing, a digit, an underscore or another byte. *)
Inductive Saw := SawStart | SawDigit | SawUnderscore | SawOther.

Fixpoint underscores_ok (hex : bool) (saw : Saw) (l : bytes_t) : bool :=
  match l with
  | [] => match saw with SawUnderscore => false | _ => true end
  | b :: l' =>
      match digit_in (if hex then 16 else 10) b with
      | Some _ => underscores_ok hex SawDigit l'
      | None =>
          if (b =? 95)%nat then
            match saw with SawDigit => underscores_ok hex SawUnderscore l' | _ => false end
          else match saw with SawUnderscore => false | _ => underscores_ok hex SawOther l' end
      end
  end.

Definition underscoreOK (l : bytes_t) : bool :=
  let l := match l with 43%nat :: l' | 45%nat :: l' => l' | _ => l end in
  match l with
  | 48%nat :: b :: l' =>
      if byte_of_set (bytes "box") (lower_byte b)
      then underscores_ok (lower_byte b =? 120)%nat SawDigit l'
      else underscores_ok false SawStart l
  | _ => underscores_ok false SawStart l
  end.

(** The binary64 number nearest to [mantissa * base ^ exponent]. *)
Definition nearest (neg : bool) (mantissa base exponent : Z) : float64 :=
  match mantissa * base ^ Z.max 0 exponent, base ^ Z.max 0 (- exponent) with
  | Zpos n, Zpos d => SFdiv 53 1024 (S754_finite neg n 0) (S754_finite false d 0)
  | _, _ => S754_zero neg
  end.

Definition is_infinite (x : float64) : bool := match x with S754_infinity _ => true | _ => false end.

(** [strconv.ParseFloat(s, 64)]; [None] is any error, out of range included. *)
Definition ParseFloat (s : string) : option float64 :=
  let l := bytes s in
  match special l with
  | Some (x, n) => if (n =? length l)%nat then Some x else None
  | None =>
      let '(neg, l1) := match l with
                        | 43%nat :: l' => (false, l')
                        | 45%nat :: l' => (true, l')
                        | _ => (false, l)
                        end in
      let '(base, l2) := match l1 with
                         | 48%nat :: b :: (_ :: _) as l' =>
                             if (lower_byte b =? 120)%nat then (16, l') else (10, l1)
                         | _ => (10, l1)
                         end in
      let '(sc, l3) := scan_digits base (mkScan 0 0 false false false) l2 in
      if negb (sc_digits sc) then None
      else
        let exponent :=
          match l3 with
          | b :: l4 =>
              if (lower_byte b =? (if (base =? 16)%Z then 112 else 101))%nat then read_exponent l4
              else if base =? 16 then None else Some (0, false, l3)
          | [] => if base =? 16 then None else Some (0, false, l3)
          end in
        match exponent with
        | Some (e, under, []) =>
            if (sc_underscores sc || under) && negb (underscoreOK l) then None
            else
              let x := if base =? 16 then nearest neg (sc_mantissa sc) 2 (e - 4 * sc_fraction sc)
                       else nearest neg (sc_mantissa sc) 10 (e - sc_fraction sc) in
              if is_infinite x then None else Some x
        | _ => None
        end
  end.

Example ParseFloat_ex :
  ParseFloat "189.4200" = Some (f64_lit 1894200 10000) /\ ParseFloat "-0.1" = Some (f64_lit (-1) 10) /\
  ParseFloat ".5e1" = Some (f64_of_Z 5) /\ ParseFloat "0x1p-2" = Some (f64_lit 1 4) /\
  ParseFloat "1_0" = Some (f64_of_Z 10) /\ ParseFloat "NaN" = Some S754_nan /\
  ParseFloat "-Inf" = Some (S754_infinity true) /\ ParseFloat "1e400" = None /\ ParseFloat "5 " = None /\
  ParseFloat "0x1" = None /\ ParseFloat "_1" = None /\ ParseFloat "." = None /\ ParseFloat "" = None /\
  ParseFloat "1e" = None /\ ParseFloat "+nan" = None /\ ParseFloat "9007199254740993" = Some (f64_of_Z 9007199254740992).
Proof. vm_compute. repeat split. Qed.

(** A text between double quotes. *)
Definition quote_mark : string := String (Ascii.ascii_of_nat 34) "".
Definition quote (s : string) : string := quote_mark +:+ s +:+ quote_mark.

(** * Text in an address *)

Definition unreserved (b : nat) : bool :=
  ((48 <=? b) && (b <=? 57) || (65 <=? b) && (b <=? 90) || (97 <=? b) && (b <=? 122))%nat ||
  byte_of_set (bytes "-_.~") b.

Definition upper_hex (n : nat) : nat := if (n <? 10)%nat then (48 + n)%nat else (55 + n)%nat.

Definition percent_byte (b : nat) : bytes_t := [37%nat; upper_hex (b / 16); upper_hex (b mod 16)].

Definition query_byte (b : nat) : bytes_t :=
  if unreserved b then [b] else if (b =? 32)%nat then [43%nat] else percent_byte b.

(** [url.QueryEscape] *)
Definition QueryEscape (s : string) : string := str_of_bytes (flat_map query_byte (bytes s)).

Definition segment_byte (b : nat) : bytes_t :=
  if unreserved b || byte_of_set (bytes "$&+:=@") b then [b] else percent_byte b.

(** [url.PathEscape] *)
Definition PathEscape (s : string) : string := str_of_bytes (flat_map segment_byte (bytes s)).

(** How a server reads such text back. *)
Definition from_hex (b : nat) : option nat :=
  if ((48 <=? b) && (b <=? 57))%nat then Some (b - 48)%nat
  else if ((65 <=? b) && (b <=? 70))%nat then Some (b - 55)%nat
  else if ((97 <=? b) && (b <=? 102))%nat then Some (b - 87)%nat else None.

Fixpoint unescape (plus : bool) (l : bytes_t) : option bytes_t :=
  match l with
  | [] => Some []
  | 37%nat :: h :: k :: l' =>
      match from_hex h, from_hex k, unescape plus l' with
      | Some a, Some b, Some rest => Some ((16 * a + b)%nat :: rest)
      | _, _, _ => None
      end
  | b :: l' =>
      if (b =? 37)%nat then None
      else match unescape plus l' with
           | Some rest => Some ((if plus && (b =? 43)%nat then 32 else b)%nat :: rest)
           | None => None
           end
  end.

Example QueryEscape_ex : QueryEscape "coid-a b/c_1" = "coid-a+b%2Fc_1" /\ PathEscape "VA 1/x" = "VA%201%2Fx".
Proof. vm_compute. auto. Qed.

(** ** What is put into an address is read back *)

Lemma upper_hex_spec n : (n < 16)%nat -> from_hex (upper_hex n) = Some n /\ (upper_hex n < 256)%nat.
Proof. intros H. do 16 (destruct n as [|n]; [vm_compute; split; [done | lia]|]). lia. Qed.

Lemma unescape_percent plus b l :
  (b < 256)%nat -> unescape plus (percent_byte b ++ l) = option_map (cons b) (unescape plus l).
Proof.
  intros Hb. assert (b / 16 < 16)%nat as Hd by (apply Nat.Div0.div_lt_upper_bound; lia).
  assert (b mod 16 < 16)%nat as Hm by (apply Nat.mod_upper_bound; lia).
  cbn [percent_byte app unescape]. rewrite (proj1 (upper_hex_spec _ Hd)), (proj1 (upper_hex_spec _ Hm)).
  rewrite <- Nat.div_mod by lia. by destruct (unescape plus l).
Qed.

Lemma unescape_plain plus b l :
  (b =? 37)%nat = false -> plus && (b =? 43)%nat = false ->
  unescape plus (b :: l) = option_map (cons b) (unescape plus l).
Proof.
  intros H1 H2. destruct (Nat.eq_dec b 37) as [->|Hn]; [done|].
  assert (unescape plus (b :: l) = match unescape plus l with
    | Some rest => Some ((if plus && (b =? 43)%nat then 32 else b)%nat :: rest) | None => None end) as ->.
  { cbn [unescape]. rewrite H1. do 38 (destruct b as [|b]; [done|]). done. }
  rewrite H2. by destruct (unescape plus l).
Qed.

Lemma small_bytes (P : nat -> bool) : forallb P (seq 0 256) = true -> forall b, (b < 256)%nat -> P b = true.
Proof. intros H b Hb. rewrite forallb_forall in H. apply H, in_seq. lia. Qed.

Lemma query_byte_unescape b l :
  (b < 256)%nat -> unescape true (query_byte b ++ l) = option_map (cons b) (unescape true l).
Proof.
  intros Hb. unfold query_byte. destruct (unreserved b) eqn:E.
  - assert ((b =? 37)%nat = false /\ (b =? 43)%nat = false) as [H1 H2].
    { split; apply Nat.eqb_neq; by intros ->. }
    apply unescape_plain; [done|]. by rewrite H2.
  - destruct (Nat.eqb_spec b 32) as [->|]; [|by apply unescape_percent].
    cbn. by destruct (unescape true l).
Qed.

Lemma segment_byte_unescape b l :
  (b < 256)%nat -> unescape false (segment_byte b ++ l) = option_map (cons b) (unescape false l).
Proof.
  intros Hb. unfold segment_byte. destruct (_ || _) eqn:E; [|by apply unescape_percent].
  apply unescape_plain; [|done]. by destruct (Nat.eqb_spec b 37) as [->|].
Qed.

Lemma unescape_flat plus f l :
  (forall b l, (b < 256)%nat -> unescape plus (f b ++ l) = option_map (cons b) (unescape plus l)) ->
  Forall is_byte l -> unescape plus (flat_map f l) = Some l.
Proof.
  intros Hf H. induction H as [|b l Hb _ IH]; [done|]. cbn [flat_map]. rewrite Hf by exact Hb. by rewrite IH.
Qed.

Lemma bytes_are_bytes s : Forall is_byte (bytes s).
Proof.
  induction s as [|c s IH]; [constructor|]. constructor; [|exact IH]. apply Ascii.nat_ascii_bounded.
Qed.

Lemma query_byte_bytes b : is_byte b -> Forall is_byte (query_byte b).
Proof.
  intros Hb. assert (forallb (fun x => x <? 256)%nat (query_byte b) = true) as H.
  { revert b Hb. apply (small_bytes (fun b => forallb (fun x => x <? 256)%nat (query_byte b))). by vm_compute. }
  apply Forall_forall. intros x Hx. rewrite forallb_forall in H. apply list_elem_of_In in Hx.
  apply H in Hx. by apply Nat.ltb_lt in Hx.
Qed.

Lemma segment_byte_bytes b : is_byte b -> Forall is_byte (segment_byte b).
Proof.
  intros Hb. assert (forallb (fun x => x <? 256)%nat (segment_byte b) = true) as H.
  { revert b Hb. apply (small_bytes (fun b => forallb (fun x => x <? 256)%nat (segment_byte b))). by vm_compute. }
  apply Forall_forall. intros x Hx. rewrite forallb_forall in H. apply list_elem_of_In in Hx.
  apply H in Hx. by apply Nat.ltb_lt in Hx.
Qed.

Lemma Forall_flat_map {A B} (P : A -> Prop) (Q : B -> Prop) (f : A -> list B) l :
  (forall a, P a -> Forall Q (f a)) -> Forall P l -> Forall Q (flat_map f l).
Proof. intros Hf H. induction H; cbn; [constructor|]. apply Forall_app. by split; [apply Hf|]. Qed.

Lemma QueryEscape_read s : unescape true (bytes (QueryEscape s)) = Some (bytes s).
Proof.
  unfold QueryEscape. rewrite bytes_str_of_bytes.
  - apply unescape_flat; [apply query_byte_unescape | apply bytes_are_bytes].
  - eapply Forall_flat_map; [apply query_byte_bytes | apply bytes_are_bytes].
Qed.

Lemma PathEscape_read s : unescape false (bytes (PathEscape s)) = Some (bytes s).
Proof.
  unfold PathEscape. rewrite bytes_str_of_bytes.
  - apply unescape_flat; [apply segment_byte_unescape | apply bytes_are_bytes].
  - eapply Forall_flat_map; [apply segment_byte_bytes | apply bytes_are_bytes].
Qed.

Lemma QueryEscape_inj s t : QueryEscape s = QueryEscape t -> s = t.
Proof.
  intros H. pose proof (QueryEscape_read s) as Hs. rewrite H, QueryEscape_read in Hs. injection Hs as Hs.
  by rewrite <- (str_of_bytes_bytes s), <- Hs, str_of_bytes_bytes.
Qed.

Lemma PathEscape_inj s t : PathEscape s = PathEscape t -> s = t.
Proof.
  intros H. pose proof (PathEscape_read s) as Hs. rewrite H, PathEscape_read in Hs. injection Hs as Hs.
  by rewrite <- (str_of_bytes_bytes s), <- Hs, str_of_bytes_bytes.
Qed.

(** * An exchange *)

Inductive Field := FText (s : string) | FFlag (b : bool).

Record WireRequest := mkWireRequest {
  wr_Method : string;
  wr_URL : string;
  wr_Headers : list (string * string);
  wr_Payload : list (string * Field)
}.

Definition MethodGet : string := "GET".
Definition MethodPost : string := "POST".
Definition MethodDelete : string := "DELETE".

Inductive Exchange :=
| Unreachable
| BrokenOff
| Answered (status : Z) (body : string).

(** A service [V]: what it becomes and answers.  A context that is over is a transport
    failure. *)
Class Transport (V : Type) := {
  roundTrip : V -> Context -> WireRequest -> V * Exchange
}.

(** How both venue adapters read an answer; [message] is what the body of a refusal
    says. *)
Definition respond (message : string -> string) (x : Exchange) : result string BrokerError :=
  match x with
  | Unreachable | BrokenOff => Err ErrTimeout
  | Answered status body =>
      if status =? 404 then Err ErrOrderNotFound
      else if 500 <=? status then Err ErrTimeout
      else if 400 <=? status then Err (ErrVenue ("venue rejected the request: " +:+ message body))
      else Ok body
  end.

Definition ambiguous (x : Exchange) : bool :=
  match x with Unreachable | BrokenOff => true | Answered status _ => 500 <=? status end.

Lemma respond_timeout message x : respond message x = Err ErrTimeout <-> ambiguous x = true.
Proof.
  destruct x as [| |status body]; [done | done |]. cbn.
  destruct (Z.eqb_spec status 404) as [->|]; [done|].
  destruct (500 <=? status); [done|]. by destruct (400 <=? status).
Qed.

Lemma respond_ok message x body :
  respond message x = Ok body <-> exists status, x = Answered status body /\ status < 400.
Proof.
  destruct x as [| |status b]; cbn; [by split; [|intros (? & ? & _)] | by split; [|intros (? & ? & _)] |].
  destruct (Z.eqb_spec status 404) as [->|]; [by split; [|intros (? & [= <- <-] & ?)]|].
  destruct (Z.leb_spec 500 status); [split; [done | intros (? & [= <- <-] & ?); lia]|].
  destruct (Z.leb_spec 400 status); [split; [done | intros (? & [= <- <-] & ?); lia]|].
  split; [intros [= <-]; eauto | by intros (? & [= <- <-] & _)].
Qed.
