(* ===== verification/Venues.v ===== *)
(** The brokerage adapters: adapters/alpaca/alpaca.go and adapters/tradier/tradier.go,
    over the rest of the contract of internal/broker/adapter.go.

    Both are clients of a brokerage's HTTP interface, which is a parameter ([Transport]),
    as are JSON decoding, [time.Parse] and [url.Parse].  A reply of the venue is decoded
    to the fields the adapter's wire types name.  The two adapters implement [Adapter],
    which is all the execution service knows of them, and [Canonical], what the service's
    treatment of answers rests on. *)

From Stdlib Require Import SpecFloat.
From S2P Require Import Prelude Strings Money Intent Broker Float64 Wire Execution.

(** * The rest of the contract *)

Record Account := mkAccount {
  ac_AccountID : string;
  ac_Currency : string;
  ac_Cash : float64;
  ac_BuyingPower : float64;
  ac_PaperTrading : bool
}.

Record Position := mkPosition {
  ps_InstrumentID : string;
  ps_Symbol : string;
  ps_Quantity : float64;
  ps_AveragePrice : float64
}.

Record Capabilities := mkCapabilities {
  cb_Name : string;
  cb_PaperOnly : bool;
  cb_AssetClasses : list AssetClass;
  cb_OrderTypes : list OrderType;
  cb_SupportsNotional : bool;
  cb_SupportsExtendedHours : bool;
  cb_SupportsClientOrderID : bool
}.

(** The zero [time.Time]. *)
Definition no_time : Time := 0.

Definition order_type_text (o : OrderType) : string :=
  if String.eqb o OrderMarket then "market"
  else if String.eqb o OrderLimit then "limit"
  else if String.eqb o OrderStop then "stop"
  else if String.eqb o OrderStopLimit then "stop_limit" else o.

(** [venueSymbol], the same in both. *)
Definition venueSymbol (req : OrderRequest) (fallback : option (string -> option string))
    : result string BrokerError :=
  if str_nonempty (or_Symbol req) then Ok (or_Symbol req)
  else
    match fallback with
    | Some f =>
        match f (or_InstrumentID req) with
        | Some symbol => Ok symbol
        | None => Err (ErrUnsupported "no venue symbol for instrument; an adapter does not guess one")
        end
    | None => Err (ErrUnsupported "no venue symbol for instrument; an adapter does not guess one")
    end.

Definition local_host (host : string) : bool := contains ["127.0.0.1"; "localhost"; "::1"] host.

Inductive ConfigError :=
| UnparseableURL
| ErrLiveTradingRefused
| NoCredentials
| NoAccount
| NoResolver.

Definition optional (name : string) (value : option Field) : list (string * Field) :=
  match value with Some v => [(name, v)] | None => [] end.

Definition price_field (p : option Amount) : option Field := option_map (fun x => FText (Amount_String x)) p.

(** An order that cannot be mapped does not discard the rest. *)
Definition mapped {A} (f : A -> result BrokerOrder BrokerError) (l : list A) : list BrokerOrder :=
  omap (fun w => match f w with Ok o => Some o | Err _ => None end) l.

(** * Alpaca *)

Module Alpaca.
Record Config := mkConfig {
  BaseURL : string;
  KeyID : string;
  SecretKey : string;
  SymbolFor : option (string -> option string);
  Timeout : Z
}.

Definition PaperBaseURL : string := "https://paper-api.alpaca.markets".

Record wireOrder := mkWireOrder {
  w_ID : string;
  w_ClientOrderID : string;
  w_Status : string;
  w_FilledQty : string;
  w_FilledAvgPrice : string;
  w_SubmittedAt : string;
  w_UpdatedAt : string
}.

Record wirePosition := mkWirePosition { wp_Symbol : string; wp_Qty : string; wp_AvgPrice : string }.
Record wireAccount := mkWireAccount { wa_ID : string; wa_Currency : string; wa_Cash : string; wa_BuyingPower : string }.

Definition Capabilities_ : Capabilities :=
  mkCapabilities "alpaca-paper" true [AssetEquity; AssetETF]
    [OrderMarket; OrderLimit; OrderStop; OrderStopLimit] true true true.

(** An empty text is zero. *)
Definition venueNumber (raw : string) : result float64 BrokerError :=
  if blank raw then Ok f64_zero
  else match ParseFloat raw with
       | Some value => Ok value
       | None => Err (ErrVenue "venue sent a field which is not a number")
       end.

Definition toExecutionState (status : string) : option ExecutionState :=
  let s := ToLower status in
  if contains ["new"; "accepted"; "pending_new"; "accepted_for_bidding"; "held"; "replaced";
               "pending_replace"; "pending_cancel"; "done_for_day"; "stopped"; "suspended";
               "calculated"] s then Some StateAccepted
  else if String.eqb s "partially_filled" then Some StatePartiallyFilled
  else if String.eqb s "filled" then Some StateFilled
  else if contains ["canceled"; "cancelled"] s then Some StateCancelled
  else if String.eqb s "expired" then Some StateExpired
  else if String.eqb s "rejected" then Some StateRejected
  else None.

Section Adapter.
Context {V : Type} `{HT : Transport V}.
(** [url.Parse] and [Hostname]; [http.NewRequest] on an address; [time.Parse] of RFC 3339. *)
Context (hostname : string -> option string) (request_parses : string -> bool)
  (parse_time : string -> option Time).
(** encoding/json on the bodies of the venue. *)
Context (wire_error : string -> string) (decode_order : string -> option wireOrder)
  (decode_orders : string -> option (list wireOrder))
  (decode_positions : string -> option (list wirePosition))
  (decode_account : string -> option wireAccount).
(** [Time.Format] of RFC 3339. *)
Context (format_time : Time -> string).

Definition refuseLiveEndpoint (raw : string) : option ConfigError :=
  match hostname raw with
  | None => Some UnparseableURL
  | Some host =>
      let host := ToLower host in
      if local_host host then None
      else if HasPrefix host "paper-api." then None else Some ErrLiveTradingRefused
  end.

Definition New (cfg : Config) : result Config ConfigError :=
  let base := if String.eqb (BaseURL cfg) "" then PaperBaseURL else BaseURL cfg in
  match refuseLiveEndpoint base with
  | Some e => Err e
  | None =>
      if String.eqb (KeyID cfg) "" || String.eqb (SecretKey cfg) "" then Err NoCredentials
      else match SymbolFor cfg with
           | None => Err NoResolver
           | Some _ =>
               Ok (mkConfig base (KeyID cfg) (SecretKey cfg) (SymbolFor cfg)
                     (if Timeout cfg =? 0 then 10 * Second else Timeout cfg))
           end
  end.

Context (cfg : Config).

Definition message (body : string) : string :=
  if String.eqb (wire_error body) "" then TrimSpace body else wire_error body.

Definition request (method path : string) (payload : list (string * Field)) : WireRequest :=
  mkWireRequest method (BaseURL cfg +:+ path)
    ([("APCA-API-KEY-ID", KeyID cfg); ("APCA-API-SECRET-KEY", SecretKey cfg)] ++
     match payload with [] => [] | _ => [("Content-Type", "application/json")] end) payload.

(** [do]: the body of an answer that is none of the errors. *)
Definition do_ (v : V) (ctx : Context) (method path : string) (payload : list (string * Field))
    : V * result string BrokerError :=
  if request_parses (BaseURL cfg +:+ path) then
    let '(v, x) := roundTrip v ctx (request method path payload) in (v, respond message x)
  else (v, Err (ErrVenue "invalid address")).

Definition toBrokerOrder (w : wireOrder) : result BrokerOrder BrokerError :=
  match toExecutionState (w_Status w) with
  | None => Err (ErrVenue "venue returned an unmapped status")
  | Some state =>
      match venueNumber (w_FilledQty w) with
      | Err e => Err e
      | Ok filled =>
          match venueNumber (w_FilledAvgPrice w) with
          | Err e => Err e
          | Ok avg =>
              Ok (mkBrokerOrder (w_ClientOrderID w) (w_ID w) state filled avg []
                    (default no_time (parse_time (w_SubmittedAt w)))
                    (default no_time (parse_time (w_UpdatedAt w))) "")
          end
      end
  end.

Definition order_in (body : string) : result BrokerOrder BrokerError :=
  match decode_order body with
  | None => Err (ErrVenue "venue returned unparseable JSON")
  | Some w => toBrokerOrder w
  end.

Definition order_payload (req : OrderRequest) (symbol : string) (size : string * Field)
    : list (string * Field) :=
  [("symbol", FText symbol); ("side", FText (ToLower (or_Side req)));
   ("type", FText (order_type_text (or_OrderType req)));
   ("time_in_force", FText (ToLower (or_TimeInForce req)));
   ("client_order_id", FText (or_ClientOrderID req)); ("extended_hours", FFlag (or_ExtendedHours req));
   size] ++
  optional "limit_price" (price_field (or_LimitPrice req)) ++
  optional "stop_price" (price_field (or_StopPrice req)).

Definition order_size (req : OrderRequest) : option (string * Field) :=
  match or_Quantity req, or_Notional req with
  | Some q, _ => Some ("qty", FText (Quantity_String q))
  | None, Some n => Some ("notional", FText (Amount_String n))
  | None, None => None
  end.

Definition SubmitOrder (v : V) (ctx : Context) (req : OrderRequest) : V * result BrokerOrder BrokerError :=
  match venueSymbol req (SymbolFor cfg) with
  | Err e => (v, Err e)
  | Ok symbol =>
      if String.eqb (or_ClientOrderID req) "" then
        (v, Err (ErrUnsupported "client order id is required for reconciliation"))
      else
        match order_size req with
        | None => (v, Err (ErrUnsupported "neither quantity nor notional"))
        | Some size =>
            match do_ v ctx MethodPost "/v2/orders" (order_payload req symbol size) with
            | (v, Err e) => (v, Err e)
            | (v, Ok body) => (v, order_in body)
            end
        end
  end.

Definition order_path (clientOrderID : string) : string :=
  "/v2/orders:by_client_order_id?client_order_id=" +:+ QueryEscape clientOrderID.

Definition GetOrder (v : V) (ctx : Context) (clientOrderID : string) : V * result BrokerOrder BrokerError :=
  match do_ v ctx MethodGet (order_path clientOrderID) [] with
  | (v, Err e) => (v, Err e)
  | (v, Ok body) => (v, order_in body)
  end.

Definition Reconcile := GetOrder.

Definition CancelOrder (v : V) (ctx : Context) (clientOrderID : string) : V * result unit BrokerError :=
  match GetOrder v ctx clientOrderID with
  | (v, Err e) => (v, Err e)
  | (v, Ok order) =>
      if String.eqb (bo_BrokerOrderID order) "" then (v, Err ErrOrderNotFound)
      else
        match do_ v ctx MethodDelete ("/v2/orders/" +:+ PathEscape (bo_BrokerOrderID order)) [] with
        | (v, Err e) => (v, Err e)
        | (v, Ok _) => (v, Ok ())
        end
  end.

Definition GetOrders (v : V) (ctx : Context) (since : Time) : V * result (list BrokerOrder) BrokerError :=
  match do_ v ctx MethodGet ("/v2/orders?status=all&after=" +:+ QueryEscape (format_time since)) [] with
  | (v, Err e) => (v, Err e)
  | (v, Ok body) =>
      match decode_orders body with
      | None => (v, Err (ErrVenue "venue returned unparseable JSON"))
      | Some wires => (v, Ok (mapped toBrokerOrder wires))
      end
  end.

Fixpoint positions_of (l : list wirePosition) : result (list Position) BrokerError :=
  match l with
  | [] => Ok []
  | w :: l' =>
      match venueNumber (wp_Qty w), venueNumber (wp_AvgPrice w) with
      | Ok qty, Ok price =>
          match positions_of l' with
          | Ok rest => Ok (mkPosition "" (wp_Symbol w) qty price :: rest)
          | Err e => Err e
          end
      | Err e, _ | _, Err e => Err e
      end
  end.

Definition GetPositions (v : V) (ctx : Context) : V * result (list Position) BrokerError :=
  match do_ v ctx MethodGet "/v2/positions" [] with
  | (v, Err e) => (v, Err e)
  | (v, Ok body) =>
      match decode_positions body with
      | None => (v, Err (ErrVenue "venue returned unparseable JSON"))
      | Some wires => (v, positions_of wires)
      end
  end.

Definition account_of (w : wireAccount) : result Account BrokerError :=
  match venueNumber (wa_Cash w), venueNumber (wa_BuyingPower w) with
  | Ok cash, Ok bp => Ok (mkAccount (wa_ID w) (wa_Currency w) cash bp true)
  | Err e, _ | _, Err e => Err e
  end.

Definition GetAccount (v : V) (ctx : Context) : V * result Account BrokerError :=
  match do_ v ctx MethodGet "/v2/account" [] with
  | (v, Err e) => (v, Err e)
  | (v, Ok body) =>
      match decode_account body with
      | None => (v, Err (ErrVenue "venue returned unparseable JSON"))
      | Some w => (v, account_of w)
      end
  end.
End Adapter.
End Alpaca.

(** * Tradier *)

Module Tradier.
Record Config := mkConfig {
  BaseURL : string;
  Token : string;
  AccountID : string;
  SymbolFor : option (string -> option string);
  Timeout : Z
}.

Definition SandboxBaseURL : string := "https://sandbox.tradier.com".

Record wireOrder := mkWireOrder {
  w_ID : Z;
  w_Status : string;
  w_Tag : string;
  w_ExecQuantity : float64;
  w_AvgFillPrice : float64;
  w_CreateDate : string;
  w_TransactionDate : string;
  w_ReasonDescription : string
}.

Record wirePosition := mkWirePosition { wp_Symbol : string; wp_Quantity : float64; wp_CostBasis : float64 }.
Record wireBalances := mkWireBalances { wb_AccountNumber : string; wb_TotalCash : float64; wb_BuyingPower : float64 }.

Definition Capabilities_ : Capabilities :=
  mkCapabilities "tradier-sandbox" true [AssetEquity; AssetETF]
    [OrderMarket; OrderLimit; OrderStop; OrderStopLimit] false true true.

Definition tag_byte (b : nat) : bool :=
  ((65 <=? b) && (b <=? 90) || (97 <=? b) && (b <=? 122) || (48 <=? b) && (b <=? 57) || (b =? 45))%nat.

(** [tagPattern] *)
Definition tag_matches (s : string) : bool :=
  (1 <=? String.length s)%nat && (String.length s <=? 255)%nat && forallb tag_byte (bytes s).

Definition tradierSide (s : Side) : string := if String.eqb s SideSell then "sell" else "buy".

Definition toExecutionState (status : string) : option ExecutionState :=
  let s := ToLower status in
  if contains ["open"; "pending"; "calculated"] s then Some StateAccepted
  else if String.eqb s "partially_filled" then Some StatePartiallyFilled
  else if String.eqb s "filled" then Some StateFilled
  else if contains ["canceled"; "cancelled"] s then Some StateCancelled
  else if String.eqb s "expired" then Some StateExpired
  else if contains ["rejected"; "error"] s then Some StateRejected
  else None.

(** [strings.Trim] *)
Fixpoint drop_set (set l : list nat) : list nat :=
  match l with
  | b :: l' => if byte_of_set set b then drop_set set l' else l
  | [] => []
  end.
Definition Trim (s cutset : string) : string :=
  str_of_bytes (rev (drop_set (bytes cutset) (rev (drop_set (bytes cutset) (bytes s))))).

(** [unmarshalOneOrMany]: nothing, one value or a list of them; [many] decodes a list. *)
Definition unmarshalOneOrMany {A} (many : string -> option (list A)) (raw : string) : option (list A) :=
  if contains [""; "null"; quote "null"] raw then Some []
  else if HasPrefix raw "[" then many raw
  else many ("[" +:+ raw +:+ "]").

Section Adapter.
Context {V : Type} `{HT : Transport V}.
Context (hostname : string -> option string) (request_parses : string -> bool)
  (parse_time : string -> option Time).
(** encoding/json on the bodies of the venue: the raw value of a member, and lists of
    wire values. A fault has a text and the raw value of its errors. *)
Context (wire_fault : string -> option (string * string)) (decode_order : string -> option string)
  (decode_orders : string -> option string) (decode_positions : string -> option string)
  (decode_balances : string -> option wireBalances) (wire_orders : string -> option (list wireOrder))
  (wire_positions : string -> option (list wirePosition)).

Definition refuseLiveEndpoint (raw : string) : option ConfigError :=
  match hostname raw with
  | None => Some UnparseableURL
  | Some host =>
      let host := ToLower host in
      if local_host host then None
      else if HasPrefix host "sandbox." then None else Some ErrLiveTradingRefused
  end.

Definition New (cfg : Config) : result Config ConfigError :=
  let base := if String.eqb (BaseURL cfg) "" then SandboxBaseURL else BaseURL cfg in
  match refuseLiveEndpoint base with
  | Some e => Err e
  | None =>
      if String.eqb (Token cfg) "" then Err NoCredentials
      else if String.eqb (AccountID cfg) "" then Err NoAccount
      else match SymbolFor cfg with
           | None => Err NoResolver
           | Some _ =>
               Ok (mkConfig base (Token cfg) (AccountID cfg) (SymbolFor cfg)
                     (if Timeout cfg =? 0 then 10 * Second else Timeout cfg))
           end
  end.

Context (cfg : Config).

Definition faultMessage (body : string) : string :=
  match wire_fault body with
  | Some (fault, errors) =>
      if str_nonempty fault then fault
      else if str_nonempty errors then Trim errors (quote_mark +:+ "[]") else TrimSpace body
  | None => TrimSpace body
  end.

Definition request (method path : string) (form : list (string * Field)) : WireRequest :=
  mkWireRequest method (BaseURL cfg +:+ path)
    ([("Authorization", "Bearer " +:+ Token cfg); ("Accept", "application/json")] ++
     match form with [] => [] | _ => [("Content-Type", "application/x-www-form-urlencoded")] end) form.

Definition do_ (v : V) (ctx : Context) (method path : string) (form : list (string * Field))
    : V * result string BrokerError :=
  if request_parses (BaseURL cfg +:+ path) then
    let '(v, x) := roundTrip v ctx (request method path form) in (v, respond faultMessage x)
  else (v, Err (ErrVenue "invalid address")).

Definition account_path (rest : string) : string :=
  "/v1/accounts/" +:+ PathEscape (AccountID cfg) +:+ rest.

Definition toBrokerOrder (w : wireOrder) : result BrokerOrder BrokerError :=
  match toExecutionState (w_Status w) with
  | None => Err (ErrVenue "venue returned an unmapped status")
  | Some state =>
      Ok (mkBrokerOrder (w_Tag w) (if w_ID w =? 0 then "" else fmt_d (w_ID w)) state
            (w_ExecQuantity w) (w_AvgFillPrice w) []
            (default no_time (parse_time (w_CreateDate w)))
            (default no_time (parse_time (w_TransactionDate w))) (w_ReasonDescription w))
  end.

Definition singleOrder (raw : string) : result BrokerOrder BrokerError :=
  match unmarshalOneOrMany wire_orders raw with
  | None => Err (ErrVenue "venue order was not the expected shape")
  | Some [] => Err (ErrVenue "venue response contained no order")
  | Some (w :: _) => toBrokerOrder w
  end.

Definition since_ok (since : Time) (o : BrokerOrder) : bool :=
  (since =? no_time) || negb (bo_SubmittedAt o <? since).

Definition manyOrders (raw : string) (since : Time) : result (list BrokerOrder) BrokerError :=
  match unmarshalOneOrMany wire_orders raw with
  | None => Err (ErrVenue "venue orders were not the expected shape")
  | Some wires => Ok (List.filter (since_ok since) (mapped toBrokerOrder wires))
  end.

(** An order with the identifier of the request when the venue sent none. *)
Definition named (id : string) (o : BrokerOrder) : BrokerOrder :=
  if String.eqb (bo_ClientOrderID o) "" then
    mkBrokerOrder id (bo_BrokerOrderID o) (bo_State o) (bo_FilledQuantity o) (bo_AverageFillPrice o)
      (bo_Fills o) (bo_SubmittedAt o) (bo_UpdatedAt o) (bo_RejectReason o)
  else o.

Definition order_in (body id : string) : result BrokerOrder BrokerError :=
  match decode_order body with
  | None => Err (ErrVenue "venue returned unparseable JSON")
  | Some raw => match singleOrder raw with Err e => Err e | Ok o => Ok (named id o) end
  end.

Definition order_form (req : OrderRequest) (symbol : string) (q : Quantity) : list (string * Field) :=
  [("class", FText "equity"); ("symbol", FText symbol); ("side", FText (tradierSide (or_Side req)));
   ("quantity", FText (Quantity_String q)); ("type", FText (order_type_text (or_OrderType req)));
   ("duration", FText (ToLower (or_TimeInForce req))); ("tag", FText (or_ClientOrderID req))] ++
  optional "price" (price_field (or_LimitPrice req)) ++
  optional "stop" (price_field (or_StopPrice req)).

Definition SubmitOrder (v : V) (ctx : Context) (req : OrderRequest) : V * result BrokerOrder BrokerError :=
  match venueSymbol req (SymbolFor cfg) with
  | Err e => (v, Err e)
  | Ok symbol =>
      if String.eqb (or_ClientOrderID req) "" then
        (v, Err (ErrUnsupported "client order id is required for reconciliation"))
      else if negb (tag_matches (or_ClientOrderID req)) then
        (v, Err (ErrVenue "client order id cannot be carried by this venue"))
      else
        match or_Quantity req with
        | None => (v, Err (ErrUnsupported "this venue sizes orders in shares"))
        | Some q =>
            match do_ v ctx MethodPost (account_path "/orders") (order_form req symbol q) with
            | (v, Err e) => (v, Err e)
            | (v, Ok body) => (v, order_in body (or_ClientOrderID req))
            end
        end
  end.

Definition GetOrders (v : V) (ctx : Context) (since : Time) : V * result (list BrokerOrder) BrokerError :=
  match do_ v ctx MethodGet (account_path "/orders") [] with
  | (v, Err e) => (v, Err e)
  | (v, Ok body) =>
      match decode_orders body with
      | None => (v, Err (ErrVenue "venue returned unparseable JSON"))
      | Some raw => (v, manyOrders raw since)
      end
  end.

(** The venue looks nothing up by tag, so the orders are listed. *)
Definition GetOrder (v : V) (ctx : Context) (clientOrderID : string) : V * result BrokerOrder BrokerError :=
  match GetOrders v ctx no_time with
  | (v, Err e) => (v, Err e)
  | (v, Ok orders) =>
      match List.find (fun o => String.eqb (bo_ClientOrderID o) clientOrderID) orders with
      | Some o => (v, Ok o)
      | None => (v, Err ErrOrderNotFound)
      end
  end.

Definition Reconcile := GetOrder.

Definition CancelOrder (v : V) (ctx : Context) (clientOrderID : string) : V * result unit BrokerError :=
  match GetOrder v ctx clientOrderID with
  | (v, Err e) => (v, Err e)
  | (v, Ok order) =>
      if String.eqb (bo_BrokerOrderID order) "" then (v, Err ErrOrderNotFound)
      else
        match do_ v ctx MethodDelete
                (account_path ("/orders/" +:+ PathEscape (bo_BrokerOrderID order))) [] with
        | (v, Err e) => (v, Err e)
        | (v, Ok _) => (v, Ok ())
        end
  end.

Definition position_of (p : wirePosition) : Position :=
  mkPosition "" (wp_Symbol p) (wp_Quantity p)
    (if f64_eqb (wp_Quantity p) f64_zero then f64_zero else f64_div (wp_CostBasis p) (wp_Quantity p)).

Definition GetPositions (v : V) (ctx : Context) : V * result (list Position) BrokerError :=
  match do_ v ctx MethodGet (account_path "/positions") [] with
  | (v, Err e) => (v, Err e)
  | (v, Ok body) =>
      match decode_positions body with
      | None => (v, Err (ErrVenue "venue returned unparseable JSON"))
      | Some raw =>
          match unmarshalOneOrMany wire_positions raw with
          | None => (v, Ok [])
          | Some l => (v, Ok (map position_of l))
          end
      end
  end.

Definition GetAccount (v : V) (ctx : Context) : V * result Account BrokerError :=
  match do_ v ctx MethodGet (account_path "/balances") [] with
  | (v, Err e) => (v, Err e)
  | (v, Ok body) =>
      match decode_balances body with
      | None => (v, Err (ErrVenue "venue returned unparseable JSON"))
      | Some w => (v, Ok (mkAccount (wb_AccountNumber w) "USD" (wb_TotalCash w) (wb_BuyingPower w) true))
      end
  end.
End Adapter.
End Tradier.

(** * What the execution service may rely on *)

(** The states a venue's order can be in; UNKNOWN is none of them. *)
Definition definite (s : ExecutionState) : bool :=
  contains [StateAccepted; StateRejected; StatePartiallyFilled; StateFilled; StateCancelled; StateExpired] s.

Definition field (wr : WireRequest) (name : string) : option Field :=
  option_map snd (List.find (fun p => String.eqb (fst p) name) (wr_Payload wr)).

(** The names a venue gives to the parts of an order. *)
Record Dialect := mkDialect {
  dl_id : string;
  dl_quantity : string;
  dl_notional : option string;
  dl_limit : string;
  dl_stop : string;
  dl_duration : string;
  (** [None] is a venue that is not told of extended hours *)
  dl_extended : option string;
  (** what else a request may hold *)
  dl_class : list string
}.

Definition alpaca_dialect : Dialect :=
  mkDialect "client_order_id" "qty" (Some "notional") "limit_price" "stop_price" "time_in_force"
    (Some "extended_hours") [].
Definition tradier_dialect : Dialect :=
  mkDialect "tag" "quantity" None "price" "stop" "duration" None ["class"].

(** The words both venues have for the kinds of order and for how long one stands. *)
Definition type_words : list (OrderType * string) :=
  [(OrderMarket, "market"); (OrderLimit, "limit"); (OrderStop, "stop"); (OrderStopLimit, "stop_limit")].
Definition duration_words : list (TimeInForce * string) :=
  [("DAY", "day"); ("GTC", "gtc"); ("IOC", "ioc"); ("FOK", "fok")].

Definition opt_list {A : Type} (o : option A) : list A := match o with Some x => [x] | None => [] end.

(** Every field a request in the dialect may have. *)
Definition vocabulary (d : Dialect) : list string :=
  ["symbol"; "side"; "type"; dl_id d; dl_quantity d; dl_limit d; dl_stop d; dl_duration d] ++
  opt_list (dl_notional d) ++ opt_list (dl_extended d) ++ dl_class d.

(** The text of a field, read back, is the number. *)
Definition reads {E : Type} (f : option Field) (parse : string -> result Z E) (limit z : Z) : Prop :=
  exists t, f = Some (FText t) /\ (Z.abs z < limit -> parse t = Ok z).

Definition reads_quantity (f : option Field) (q : Quantity) : Prop :=
  reads f ParseQuantity (parse_limit QuantityScale) q.
Definition reads_amount (f : option Field) (a : Amount) : Prop := reads f Parse (parse_limit Scale) a.
Definition priced (f : option Field) (p : option Amount) : Prop :=
  match p with Some a => reads_amount f a | None => f = None end.

(** The request is the order [req]: its identifier, symbol, side and kind, the one size it
    has, the prices it has and no other, how long it stands and, to a venue that is told,
    whether outside regular hours; and nothing besides. *)
Record Says (d : Dialect) (wr : WireRequest) (req : OrderRequest) : Prop := {
  sy_method : wr_Method wr = MethodPost;
  sy_id : field wr (dl_id d) = Some (FText (or_ClientOrderID req));
  sy_symbol : or_Symbol req <> "" -> field wr "symbol" = Some (FText (or_Symbol req));
  sy_buy : or_Side req = SideBuy -> field wr "side" = Some (FText "buy");
  sy_sell : or_Side req = SideSell -> field wr "side" = Some (FText "sell");
  sy_size : match or_Quantity req with
            | Some q => reads_quantity (field wr (dl_quantity d)) q /\
                        forall name, dl_notional d = Some name -> field wr name = None
            | None => (exists name n, dl_notional d = Some name /\ or_Notional req = Some n /\
                                      reads_amount (field wr name) n) /\
                      field wr (dl_quantity d) = None
            end;
  sy_type : forall word, (or_OrderType req, word) ∈ type_words -> field wr "type" = Some (FText word);
  sy_duration : forall word, (or_TimeInForce req, word) ∈ duration_words ->
    field wr (dl_duration d) = Some (FText word);
  sy_extended : forall name, dl_extended d = Some name -> field wr name = Some (FFlag (or_ExtendedHours req));
  sy_nothing_else : forall name f, (name, f) ∈ wr_Payload wr -> name ∈ vocabulary d;
  sy_limit : priced (field wr (dl_limit d)) (or_LimitPrice req);
  sy_stop : priced (field wr (dl_stop d)) (or_StopPrice req)
}.

(** An adapter that speaks [d]: a submission is at most one request, which says the
    order; asking about an order only asks; no answer is a timeout and nothing else is;
    and the states it reports are definite. *)
Class Faithful (V : Type) `{HT : Transport V} `{HA : Adapter V} (d : Dialect) : Prop := {
  fv_submit : forall v ctx now req v' r, ad_SubmitOrder v ctx now req = (v', r) ->
    (v' = v /\ exists e, r = Err e /\ e <> ErrTimeout) \/
    exists wr x, Says d wr req /\ roundTrip v ctx wr = (v', x) /\
      (r = Err ErrTimeout <-> ambiguous x = true);
  fv_reconcile : forall v ctx id v' r, ad_Reconcile v ctx id = (v', r) ->
    (v' = v /\ exists e, r = Err e) \/
    exists wr x, wr_Method wr = MethodGet /\ roundTrip v ctx wr = (v', x) /\
      (ambiguous x = true -> r = Err ErrTimeout);
  fv_submitted : forall v ctx now req v' o, ad_SubmitOrder v ctx now req = (v', Ok o) ->
    definite (bo_State o) = true;
  fv_reconciled : forall v ctx id v' o, ad_Reconcile v ctx id = (v', Ok o) ->
    definite (bo_State o) = true
}.

Lemma reads_quantity_text q f : f = Some (FText (Quantity_String q)) -> reads_quantity f q.
Proof. intros ->. eexists. split; [done|]. apply Quantity_roundtrip. Qed.

Lemma reads_amount_text a f : f = Some (FText (Amount_String a)) -> reads_amount f a.
Proof. intros ->. eexists. split; [done|]. apply Amount_roundtrip'. Qed.

Ltac each_word :=
  intros H; repeat (apply elem_of_cons in H as [H|H]; [injection H as -> ->; reflexivity|]); by apply elem_of_nil in H.

(** The adapters' words are these. *)
Lemma type_word (o : OrderType) word :
  (o, word) ∈ type_words -> Some (FText (order_type_text o)) = Some (FText word).
Proof. unfold type_words. by each_word. Qed.

Lemma duration_word (t : TimeInForce) word :
  (t, word) ∈ duration_words -> Some (FText (ToLower t)) = Some (FText word).
Proof. unfold duration_words. by each_word. Qed.

(** Each field of a request is named by one of the words. *)
Ltac in_words H :=
  rewrite ?elem_of_app in H; destruct_or? H;
  repeat (apply elem_of_cons in H as [H|H]; [injection H as -> _; by apply (bool_decide_unpack _)|]);
  by apply elem_of_nil in H.

Lemma venueSymbol_own req f symbol :
  venueSymbol req f = Ok symbol -> or_Symbol req <> "" -> symbol = or_Symbol req.
Proof. unfold venueSymbol. destruct (or_Symbol req); [done|]. by intros [= <-]. Qed.

Lemma venueSymbol_error req f e : venueSymbol req f = Err e -> e <> ErrTimeout.
Proof.
  unfold venueSymbol. destruct (str_nonempty _); [done|].
  destruct f as [f|]; [destruct (f _)|]; by intros [= <-].
Qed.

(** ** Alpaca *)

Module AlpacaProofs.
Section Adapter.
Import Alpaca.
Context {V : Type} `{HT : Transport V} (request_parses : string -> bool) (parse_time : string -> option Time)
  (wire_error : string -> string) (decode_order : string -> option wireOrder) (cfg : Config).
Local Abbreviation Submit_ := (SubmitOrder request_parses parse_time wire_error decode_order cfg).
Local Abbreviation Reconcile_ := (Reconcile request_parses parse_time wire_error decode_order cfg).

#[export] Instance alpaca_adapter : Adapter V := {
  ad_SubmitOrder v ctx _ req := Submit_ v ctx req;
  ad_Reconcile := Reconcile_
}.

Lemma order_in_ok body o :
  order_in parse_time decode_order body = Ok o ->
  exists w, decode_order body = Some w /\ toExecutionState (w_Status w) = Some (bo_State o).
Proof.
  unfold order_in, toBrokerOrder. destruct (decode_order body) as [w|]; [|done]. intros H. exists w.
  split; [done|]. destruct (toExecutionState _); [|done].
  destruct (venueNumber _); [|done]. destruct (venueNumber _); [|done]. by injection H as <-.
Qed.

Lemma order_in_error body e : order_in parse_time decode_order body = Err e -> e <> ErrTimeout.
Proof.
  unfold order_in, toBrokerOrder, venueNumber. destruct (decode_order body); [|by intros [= <-]].
  destruct (toExecutionState _); [|by intros [= <-]].
  repeat (destruct (blank _) || destruct (ParseFloat _)); by intros [= <-].
Qed.

Lemma toExecutionState_definite s st : toExecutionState s = Some st -> definite st = true.
Proof. unfold toExecutionState. repeat case_match; intros Hst; simplify_eq; reflexivity. Qed.

Lemma order_payload_says req symbol size :
  venueSymbol req (SymbolFor cfg) = Ok symbol -> order_size req = Some size ->
  Says alpaca_dialect (request cfg MethodPost "/v2/orders" (order_payload req symbol size)) req.
Proof.
  intros Hs Hz. unfold order_size in Hz.
  destruct req as [id t i sym ac side ot qty ntl lim stop tif ext]; cbn in *.
  constructor; unfold field; cbn.
  - done.
  - done.
  - intros Hne. by rewrite (venueSymbol_own _ _ _ Hs Hne).
  - by intros ->.
  - by intros ->.
  - destruct qty as [q|]; [|destruct ntl as [n|]; [|done]]; injection Hz as <-; cbn.
    + split; [by apply reads_quantity_text|]. intros name [= <-]. by destruct lim, stop.
    + split; [|by destruct lim, stop]. exists "notional", n. split_and!; [done | done |].
      by apply reads_amount_text.
  - intros word. apply type_word.
  - intros word. apply duration_word.
  - by intros name [= <-].
  - intros name f. destruct qty as [q|]; [|destruct ntl as [n|]; [|done]]; injection Hz as <-;
      destruct lim, stop; cbn; intros H; in_words H.
  - destruct qty as [q|]; [|destruct ntl as [n|]; [|done]]; injection Hz as <-;
      destruct lim, stop; cbn; by try apply reads_amount_text.
  - destruct qty as [q|]; [|destruct ntl as [n|]; [|done]]; injection Hz as <-;
      destruct lim, stop; cbn; by try apply reads_amount_text.
Qed.

#[export] Instance alpaca_faithful : Faithful V alpaca_dialect.
Proof.
  constructor.
  - intros v ctx now req v' r. cbn. unfold Submit_.
    destruct (venueSymbol req (SymbolFor cfg)) as [symbol|e] eqn:Es;
      [|intros [= <- <-]; left; split; [done|]; eexists; split; [done | by eapply venueSymbol_error]].
    destruct (String.eqb _ ""); [intros [= <- <-]; left; by eauto|].
    destruct (order_size req) as [size|] eqn:Ez; [|intros [= <- <-]; left; by eauto].
    unfold do_. destruct (request_parses _); [|intros [= <- <-]; left; by eauto].
    destruct (roundTrip _ _ _) as [v1 x] eqn:Er. intros H. right.
    exists (request cfg MethodPost "/v2/orders" (order_payload req symbol size)), x.
    split; [by apply order_payload_says|]. rewrite <- (respond_timeout (message wire_error) x).
    destruct (respond _ x) as [body|e] eqn:Ex; injection H as <- <-; (split; [exact Er|]).
    + split; [|done]. intros He. by apply order_in_error in He.
    + split; by intros [= ->].
  - intros v ctx id v' r. cbn. unfold Reconcile_, GetOrder, do_.
    destruct (request_parses _); [|intros [= <- <-]; left; by eauto].
    destruct (roundTrip _ _ _) as [v1 x] eqn:Er. intros H. right.
    exists (request cfg MethodGet (order_path id) []), x. split; [done|].
    destruct (respond _ x) as [body|e] eqn:Ex; injection H as <- <-; (split; [exact Er|]);
      rewrite <- (respond_timeout (message wire_error) x), Ex; [done | by intros [= ->]].
  - intros v ctx now req v' o. cbn. unfold Submit_.
    destruct (venueSymbol _ _); [|done]. destruct (String.eqb _ ""); [done|].
    destruct (order_size _); [|done]. destruct (do_ _ _ _ _ _ _ _) as [v1 [body|e]]; [|done].
    intros [= <- H]. apply order_in_ok in H as (w & _ & H). by eapply toExecutionState_definite.
  - intros v ctx id v' o. cbn. unfold Reconcile_, GetOrder.
    destruct (do_ _ _ _ _ _ _ _) as [v1 [body|e]]; [|done].
    intros [= <- H]. apply order_in_ok in H as (w & _ & H). by eapply toExecutionState_definite.
Qed.
End Adapter.
End AlpacaProofs.

(** ** Tradier *)

Module TradierProofs.
Section Adapter.
Import Tradier.
Context {V : Type} `{HT : Transport V} (request_parses : string -> bool) (parse_time : string -> option Time)
  (wire_fault : string -> option (string * string)) (decode_order decode_orders : string -> option string)
  (wire_orders : string -> option (list wireOrder)) (cfg : Config).
Local Abbreviation Submit_ := (SubmitOrder request_parses parse_time wire_fault decode_order wire_orders cfg).
Local Abbreviation Reconcile_ := (Reconcile request_parses parse_time wire_fault decode_orders wire_orders cfg).

#[export] Instance tradier_adapter : Adapter V := {
  ad_SubmitOrder v ctx _ req := Submit_ v ctx req;
  ad_Reconcile := Reconcile_
}.

Lemma tradier_state_definite s st : toExecutionState s = Some st -> definite st = true.
Proof. unfold toExecutionState. repeat case_match; intros Hst; simplify_eq; reflexivity. Qed.

Lemma toBrokerOrder_definite w o : toBrokerOrder parse_time w = Ok o -> definite (bo_State o) = true.
Proof.
  unfold toBrokerOrder. destruct (toExecutionState _) eqn:E; [|done]. intros [= <-].
  by eapply tradier_state_definite.
Qed.

Lemma tradier_order_in_ok body id o :
  order_in parse_time decode_order wire_orders body id = Ok o -> definite (bo_State o) = true.
Proof.
  unfold order_in, singleOrder. destruct (decode_order body) as [raw|]; [|done].
  destruct (unmarshalOneOrMany _ raw) as [[|w l]|]; [done | | done].
  destruct (toBrokerOrder parse_time w) as [o'|] eqn:E; [|done]. apply toBrokerOrder_definite in E.
  unfold named. by destruct (String.eqb _ ""); intros [= <-].
Qed.

Lemma tradier_order_in_error body id e :
  order_in parse_time decode_order wire_orders body id = Err e -> e <> ErrTimeout.
Proof.
  unfold order_in, singleOrder, toBrokerOrder. destruct (decode_order body); [|by intros [= <-]].
  destruct (unmarshalOneOrMany _ _) as [[|w l]|]; [by intros [= <-] | | by intros [= <-]].
  by destruct (toExecutionState _); intros [= <-].
Qed.

(** The orders of a listing are among the mapped ones. *)
Lemma manyOrders_elem raw since l o :
  manyOrders parse_time wire_orders raw since = Ok l -> o ∈ l -> exists w, toBrokerOrder parse_time w = Ok o.
Proof.
  unfold manyOrders. destruct (unmarshalOneOrMany _ raw) as [ws|]; [|done]. intros [= <-] Ho.
  apply list_elem_of_In, filter_In in Ho as [Ho _]. apply list_elem_of_In in Ho.
  apply list_elem_of_omap in Ho as (w & _ & Hw). exists w.
  destruct (toBrokerOrder parse_time w); [by injection Hw as -> | done].
Qed.

(** What reconciliation finds is the order asked for. *)
Lemma GetOrder_ok v ctx id v' o :
  GetOrder request_parses parse_time wire_fault decode_orders wire_orders cfg v ctx id = (v', Ok o) ->
  bo_ClientOrderID o = id /\ definite (bo_State o) = true.
Proof.
  unfold GetOrder, GetOrders. destruct (do_ _ _ _ _ _ _ _) as [v1 [body|e]]; [|done].
  destruct (decode_orders body) as [raw|]; [|done].
  destruct (manyOrders _ _ raw no_time) as [l|] eqn:El; [|done].
  destruct (List.find _ l) as [o'|] eqn:Ef; [|done]. intros [= <- <-].
  apply List.find_some in Ef as [Hin Hid]. apply String.eqb_eq in Hid. split; [done|].
  apply list_elem_of_In in Hin. destruct (manyOrders_elem _ _ _ _ El Hin) as [w Hw].
  by eapply toBrokerOrder_definite.
Qed.

Lemma order_form_says req symbol q :
  venueSymbol req (SymbolFor cfg) = Ok symbol -> or_Quantity req = Some q ->
  Says tradier_dialect (request cfg MethodPost (account_path cfg "/orders") (order_form req symbol q)) req.
Proof.
  intros Hs Hq.
  destruct req as [id t i sym ac side ot qty ntl lim stop tif ext]; cbn in *. subst qty.
  constructor; unfold field; cbn.
  - done.
  - done.
  - intros Hne. by rewrite (venueSymbol_own _ _ _ Hs Hne).
  - by intros ->.
  - by intros ->.
  - split; [by apply reads_quantity_text | done].
  - intros word. apply type_word.
  - intros word. apply duration_word.
  - done.
  - intros name f. destruct lim, stop; cbn; intros H; in_words H.
  - destruct lim, stop; cbn; by try apply reads_amount_text.
  - destruct lim, stop; cbn; by try apply reads_amount_text.
Qed.

#[export] Instance tradier_faithful : Faithful V tradier_dialect.
Proof.
  constructor.
  - intros v ctx now req v' r. cbn. unfold Submit_.
    destruct (venueSymbol req (SymbolFor cfg)) as [symbol|e] eqn:Es;
      [|intros [= <- <-]; left; split; [done|]; eexists; split; [done | by eapply venueSymbol_error]].
    destruct (String.eqb _ ""); [intros [= <- <-]; left; by eauto|].
    destruct (tag_matches _); cbn [negb]; [|intros [= <- <-]; left; by eauto].
    destruct (or_Quantity req) as [q|] eqn:Eq; [|intros [= <- <-]; left; by eauto].
    unfold do_. destruct (request_parses _); [|intros [= <- <-]; left; by eauto].
    destruct (roundTrip _ _ _) as [v1 x] eqn:Er. intros H. right.
    exists (request cfg MethodPost (account_path cfg "/orders") (order_form req symbol q)), x.
    split; [by apply order_form_says|]. rewrite <- (respond_timeout (faultMessage wire_fault) x).
    destruct (respond _ x) as [body|e] eqn:Ex; injection H as <- <-; (split; [exact Er|]).
    + split; [|done]. intros He. by apply tradier_order_in_error in He.
    + split; by intros [= ->].
  - intros v ctx id v' r. cbn. unfold Reconcile_, GetOrder, GetOrders, do_.
    destruct (request_parses _); [|intros [= <- <-]; left; by eauto].
    destruct (roundTrip _ _ _) as [v1 x] eqn:Er. intros H. right.
    exists (request cfg MethodGet (account_path cfg "/orders") []), x. split; [done|].
    rewrite <- (respond_timeout (faultMessage wire_fault) x).
    destruct (respond _ x) as [body|e] eqn:Ex.
    + destruct (decode_orders body) as [raw|]; [|by injection H as <- <-].
      destruct (manyOrders _ _ raw _) as [l|]; [|by injection H as <- <-].
      by destruct (List.find _ l); injection H as <- <-.
    + injection H as <- <-. split; [exact Er|]. by intros [= ->].
  - intros v ctx now req v' o. cbn. unfold Submit_.
    destruct (venueSymbol _ _); [|done]. destruct (String.eqb _ ""); [done|].
    destruct (tag_matches _); cbn [negb]; [|done].
    destruct (or_Quantity req); [|done]. destruct (do_ _ _ _ _ _ _ _) as [v1 [body|e]]; [|done].
    intros [= <- H]. exact (tradier_order_in_ok _ _ _ H).
  - intros v ctx id v' o H. exact (proj2 (GetOrder_ok _ _ _ _ _ H)).
Qed.
End Adapter.
End TradierProofs.

(** * The execution service over a faithful adapter *)

(** A venue with a record of every request it was sent. *)
Record Recorded (V : Type) := mkRecorded { rv_venue : V; rv_log : list WireRequest }.
Arguments mkRecorded {V}.
Arguments rv_venue {V}.
Arguments rv_log {V}.

#[export] Instance recorded_transport {V : Type} `{Transport V} : Transport (Recorded V) := {
  roundTrip r ctx wr :=
    let '(v, x) := roundTrip (rv_venue r) ctx wr in (mkRecorded v (rv_log r ++ [wr]), x)
}.

Definition is_post (wr : WireRequest) : bool := String.eqb (wr_Method wr) MethodPost.
Definition posts (l : list WireRequest) : list WireRequest := List.filter is_post l.

Section Service.
Context {S V : Type} `{HS : IdemStore S, HL : !StoreLaws S} `{HT : Transport V}
  `{HA : Adapter (Recorded V)} {d : Dialect} `{HF : !Faithful (Recorded V) d}.
Implicit Types (w : Execution.World S (Recorded V)).

(** What may be sent: questions, and orders some [P] request describes. *)
Definition permitted (P : OrderRequest -> Prop) (wr : WireRequest) : Prop :=
  is_post wr = true -> exists req, P req /\ Says d wr req.

(** At most [n] orders, and only permitted requests, are sent between two states. *)
Definition sends (P : OrderRequest -> Prop) (n : nat) (v v' : Recorded V) : Prop :=
  exists l, rv_log v' = rv_log v ++ l /\ (length (posts l) <= n)%nat /\ Forall (permitted P) l.

Lemma sends_nothing P v : sends P 0 v v.
Proof. exists []. rewrite app_nil_r. split_and!; [done | done | constructor]. Qed.

Lemma sends_trans P n m v1 v2 v3 : sends P n v1 v2 -> sends P m v2 v3 -> sends P (n + m) v1 v3.
Proof.
  intros (l1 & H1 & L1 & F1) (l2 & H2 & L2 & F2). exists (l1 ++ l2). rewrite H2, H1, <- app_assoc.
  split_and!; [done | | by apply Forall_app]. unfold posts in *. rewrite List.filter_app, length_app. lia.
Qed.

Lemma sends_more P n m v v' : sends P n v v' -> (n <= m)%nat -> sends P m v v'.
Proof. intros (l & H & L & F) Hn. exists l. split_and!; [done | lia | done]. Qed.

Lemma roundTrip_log (v v' : Recorded V) ctx wr x :
  roundTrip v ctx wr = (v', x) -> rv_log v' = rv_log v ++ [wr].
Proof. cbn. destruct (roundTrip (rv_venue v) ctx wr). by intros [= <- <-]. Qed.

Lemma reconcile_sends P v ctx id v' r : ad_Reconcile v ctx id = (v', r) -> sends P 0 v v'.
Proof.
  intros [[-> _]|(wr & x & Hg & Hr & _)]%fv_reconcile; [apply sends_nothing|].
  exists [wr]. rewrite (roundTrip_log _ _ _ _ _ Hr). unfold posts, is_post. cbn. rewrite Hg. cbn.
  split_and!; [done | lia |]. constructor; [|constructor]. unfold permitted, is_post. by rewrite Hg.
Qed.

Lemma submit_sends (P : OrderRequest -> Prop) v ctx now req v' r :
  P req -> ad_SubmitOrder v ctx now req = (v', r) -> sends P 1 v v'.
Proof.
  intros HP [[-> _]|(wr & x & Hs & Hr & _)]%fv_submit; [eapply sends_more; [apply sends_nothing | lia]|].
  exists [wr]. rewrite (roundTrip_log _ _ _ _ _ Hr). split_and!; [done | |].
  - unfold posts. cbn. destruct (is_post wr); cbn; lia.
  - constructor; [|constructor]. intros _. by exists req.
Qed.

Lemma resolve_venue su w t k o w' e : resolve su w t k o = (w', e) -> w_venue w' = w_venue w /\ w_sent w' = w_sent w.
Proof. unfold resolve. destruct (st_Resolve _ _ _ _ _ _) as [s [|]]; by intros [= <- <-]. Qed.

Lemma reconcileAndResolve_sends P su w t k id w' a :
  reconcileAndResolve su w t k id = (w', a) -> sends P 0 (w_venue w) (w_venue w') /\ w_sent w' = w_sent w.
Proof.
  unfold reconcileAndResolve. destruct (ad_Reconcile _ _ _) as [v r] eqn:E. apply (reconcile_sends P) in E.
  destruct r as [order|e]; [|by intros [= <- <-]].
  destruct (outcomeFrom _ _) as [o|]; [|by intros [= <- <-]].
  destruct (resolve _ _ _ _ _) as [w2 [e|]] eqn:E2; apply resolve_venue in E2 as [E2 E3];
    intros [= <- <-]; by rewrite E2, E3.
Qed.

Lemma submitOnce_sends (P : OrderRequest -> Prop) su w env req w' a :
  P req -> submitOnce su w env req = (w', a) ->
  sends P 1 (w_venue w) (w_venue w') /\ (length (w_sent w') = length (w_sent w) + 1)%nat.
Proof.
  intros HP. unfold submitOnce. destruct (ad_SubmitOrder _ _ _ _) as [v r] eqn:E.
  apply (submit_sends P) in E; [|done].
  assert (H : forall w2, sends P 0 v (w_venue w2) -> w_sent w2 = w_sent w ++ [sent_for env] ->
    sends P 1 (w_venue w) (w_venue w2) /\ (length (w_sent w2) = length (w_sent w) + 1)%nat).
  { intros w2 H1 H2. rewrite H2, length_app. split; [|done].
    exact (sends_trans P 1 0 _ _ _ E H1). }
  destruct (su_crash su); [intros [= <- <-]; apply H; [apply sends_nothing | done]|].
  destruct r as [order|e]; [destruct (outcomeFrom _ _)|destruct e];
    try (destruct (resolve _ _ _ _ _) as [w2 e2] eqn:E2; apply resolve_venue in E2 as [E2 E3];
         intros [= <- <-]; apply H; [rewrite E2; apply sends_nothing | exact E3]);
    destruct (reconcileAndResolve _ _ _ _ _) as [w2 e2] eqn:E2;
    apply (reconcileAndResolve_sends P) in E2 as [E2 E3]; intros [= <- <-]; by apply H.
Qed.

Lemma resume_sends P su w ex w' a :
  resumeExisting su w ex = (w', a) -> sends P 0 (w_venue w) (w_venue w') /\ w_sent w' = w_sent w.
Proof.
  unfold resumeExisting. destruct ex as [rec|]; [|intros [= <- <-]; split; [apply sends_nothing | done]].
  destruct (rc_State rec); [apply reconcileAndResolve_sends|].
  intros [= <- <-]. split; [apply sends_nothing | done].
Qed.

(** A call sends no more orders than it notes as sent. *)
Lemma Submit_sends (P : OrderRequest -> Prop) su w env req w' a :
  P req -> Submit su w env req = (w', a) ->
  exists n, sends P n (w_venue w) (w_venue w') /\ (length (w_sent w') = length (w_sent w) + n)%nat.
Proof.
  intros HP. assert (H0 : forall w2, sends P 0 (w_venue w) (w_venue w2) /\ w_sent w2 = w_sent w ->
    exists n, sends P n (w_venue w) (w_venue w2) /\ (length (w_sent w2) = length (w_sent w) + n)%nat).
  { intros w2 [H1 ->]. exists 0%nat. split; [done | lia]. }
  assert (Hw : sends P 0 (w_venue w) (w_venue w) /\ w_sent w = w_sent w) by (split; [apply sends_nothing | done]).
  unfold Submit. destruct env as [env|]; [|intros [= <- <-]; by apply H0].
  destruct (_ || _); [intros [= <- <-]; by apply H0|].
  destruct (String.eqb _ ""); [intros [= <- <-]; by apply H0|].
  destruct (fromCache _ _ _); [destruct (claimed_by_other _ _); intros [= <- <-]; by apply H0|].
  destruct (st_Claim _ _ _) as [s [[ex [|]]|e]]; [| |intros [= <- <-]; by apply H0].
  - intros H. exists 1%nat. by apply (submitOnce_sends P) in H.
  - destruct ex as [rec|]; [destruct (claimed_by_other _ _); [intros [= <- <-]; by apply H0|]|];
      destruct (resumeExisting _ _ _) as [w2 a2] eqn:E; apply (resume_sends P) in E;
      intros [= <- <-]; by apply H0.
Qed.

(** ** Histories *)

(** A history of the execution service in which the brokerage may become anything, but
    the record of what it was sent is kept. *)
Inductive vop :=
| VSubmit (su : Surroundings) (env : option Envelope) (req : OrderRequest)
| VPrune (f : Fault) (tenantID : string) (before now : Time)
| VCacheLost
| VMoves (v : V).

Definition vop_of (w : Execution.World S (Recorded V)) (op : vop) : wop (V := Recorded V) :=
  match op with
  | VSubmit su env req => OpSubmit su env req
  | VPrune f t before now => OpPrune f t before now
  | VCacheLost => OpCacheLost
  | VMoves v => OpVenue (mkRecorded v (rv_log (w_venue w)))
  end.

Definition vstep (w : Execution.World S (Recorded V)) (op : vop) : Execution.World S (Recorded V) :=
  wstep w (vop_of w op).

Definition vop_ok (op : vop) : Prop :=
  match op with VSubmit _ (Some env) _ => st_tenant_ok (env_TenantID env) = true | _ => True end.

Definition submitted (ops : list vop) (req : OrderRequest) : Prop :=
  exists su env, VSubmit su env req ∈ ops.

Record kept_count (P : OrderRequest -> Prop) (w : Execution.World S (Recorded V)) : Prop := {
  kc_world : world_ok w;
  kc_posts : (length (posts (rv_log (w_venue w))) <= length (w_sent w))%nat;
  kc_permitted : Forall (permitted P) (rv_log (w_venue w))
}.

Lemma vstep_kept (P : OrderRequest -> Prop) w op :
  (forall su env req, op = VSubmit su env req -> P req) -> vop_ok op ->
  kept_count P w -> kept_count P (vstep w op).
Proof.
  intros HP Hok [Hw Hp Hf]. unfold vstep.
  assert (world_ok (wstep w (vop_of w op))) as Hw'.
  { apply wstep_ok; [|done]. destruct op as [su [env|] req| | |]; done. }
  constructor; [exact Hw' | |]; destruct op as [su env req|f t before now| |v]; cbn [vop_of wstep] in *; try done.
  - destruct (Submit su w env req) as [w' a] eqn:E.
    apply (Submit_sends P) in E as (n & (l & Hl & Hn & _) & Hs); [|by eapply HP].
    cbn. rewrite Hl, Hs. unfold posts in *. rewrite List.filter_app, length_app. lia.
  - destruct (Submit su w env req) as [w' a] eqn:E.
    apply (Submit_sends P) in E as (n & (l & Hl & _ & Hf') & _); [|by eapply HP].
    cbn. rewrite Hl. by apply Forall_app.
Qed.

Definition open_desk (c : option Memory.MemoryCache) (v : V) : Execution.World S (Recorded V) :=
  fresh_world c (mkRecorded v []).

(** Over any history no more orders are sent to the brokerage than there are pairs of a
    tenant and a key they were sent for, no pair counts twice, and each says what one of the
    submitted requests says. *)
Definition receives_once : Prop :=
  forall (c : option Memory.MemoryCache) (v : V) (ops : list vop), Forall vop_ok ops ->
  let w := run_ops vstep (open_desk c v) ops in
  let log := rv_log (w_venue w) in
  NoDup (keys_sent w) /\ (length (posts log) <= length (keys_sent w))%nat /\
  (forall wr, wr ∈ log -> is_post wr = true -> exists req, submitted ops req /\ Says d wr req).

Lemma faithful_receives_once : receives_once.
Proof.
  intros c v ops.
  intros Hok w log.
  assert (kept_count (submitted ops) w) as [Hw Hp Hf].
  { subst w log. assert (forall ops', Forall vop_ok ops' -> (forall op, op ∈ ops' -> op ∈ ops) ->
      forall w0, kept_count (submitted ops) w0 -> kept_count (submitted ops) (run_ops vstep w0 ops')) as H.
    { clear Hok. induction ops' as [|op ops' IH]; intros Ho Hin w0 Hk; [done|].
      apply Forall_cons in Ho as [Ho1 Ho2]. cbn. apply IH; [done | |].
      - intros op' H'. apply Hin. by right.
      - apply vstep_kept; [|done|done]. intros su env req ->. exists su, env. apply Hin. by left. }
    apply H; [done | done |]. constructor; [apply fresh_world_ok | cbn; lia | constructor]. }
  split_and!; [apply Hw | unfold keys_sent; by rewrite length_map |].
  intros wr Hwr. apply (proj1 (Forall_forall _ _) Hf wr Hwr).
Qed.

(** ** What an outcome rests on *)

(** The last exchange was answered, however the venue refused: the one that sent the
    order, or a question after it. *)
Definition answered (req : OrderRequest) (v v' : Recorded V) : Prop :=
  exists v0 ctx wr x, roundTrip v0 ctx wr = (v', x) /\ ambiguous x = false /\
    ((v0 = v /\ Says d wr req) \/
     (wr_Method wr = MethodGet /\ exists ctx' order x', roundTrip v ctx' order = (v0, x') /\ Says d order req)).

Lemma outcomeFrom_state id order o : outcomeFrom id order = Ok o -> oc_State o = bo_State order.
Proof.
  unfold outcomeFrom. destruct (negb _); [done|]. destruct (String.eqb _ ""); [done|].
  destruct (negb _); [done|]. destruct (f64_ltb _ _); [done|]. by intros [= <-].
Qed.

Lemma reconcile_rests su w t k id w' o e :
  reconcileAndResolve su w t k id = (w', (o, e)) ->
  (oc_State o = StateUnknown -> e = Some ErrUnresolved /\ w_store w' = w_store w) /\
  (oc_State o <> StateUnknown ->
     exists ctx wr x, roundTrip (w_venue w) ctx wr = (w_venue w', x) /\ ambiguous x = false /\ wr_Method wr = MethodGet).
Proof.
  unfold reconcileAndResolve. destruct (ad_Reconcile _ _ _) as [v r] eqn:E. pose proof E as Hd.
  apply fv_reconcile in E. destruct r as [order|x]; [|intros [= <- <- <-]; by split].
  destruct (outcomeFrom _ _) as [oc|] eqn:Eo; [|intros [= <- <- <-]; by split].
  assert (oc_State oc <> StateUnknown) as Hne.
  { rewrite (outcomeFrom_state _ _ _ Eo). intros Hu. apply fv_reconciled in Hd. by rewrite Hu in Hd. }
  assert (Ha : exists ctx wr x, roundTrip (w_venue w) ctx wr = (v, x) /\ ambiguous x = false /\ wr_Method wr = MethodGet).
  { destruct E as [[_ (x & [=])]|(wr & x & Hg & Hr & Hx)]. exists (su_reconcile_ctx su), wr, x.
    split_and!; [done | | done]. destruct (ambiguous x); [by specialize (Hx eq_refl) | done]. }
  destruct (resolve _ _ _ _ _) as [w2 [e2|]] eqn:E2; apply resolve_venue in E2 as [E2 _];
    intros [= <- <- <-]; (split; [done|]); intros _; by rewrite E2.
Qed.

(** The outcome and the error of a submission from [w] to [w'] rest on what the venue
    answered. *)
Definition rests req w w' (o : Outcome) (e : option ExecError) : Prop :=
  (oc_State o = StateUnknown -> e = Some ErrUnresolved /\ w_store w' = w_store w) /\
  (oc_State o <> StateUnknown ->
     (w_venue w' = w_venue w /\ oc_State o = StateRejected) \/ answered req (w_venue w) (w_venue w')).

Section Submission.
Context (su : Surroundings) (w : Execution.World S (Recorded V)) (env : Envelope) (req : OrderRequest)
  (v : Recorded V) (r : result BrokerOrder BrokerError)
  (Hv : ad_SubmitOrder (w_venue w) (su_submit_ctx su) (su_now su) req = (v, r)).
Let w1 := mkWorld (w_store w) (w_cache w) v (w_sent w ++ [sent_for env]).

(** The submission was answered. *)
Lemma submit_answered :
  r <> Err ErrTimeout ->
  (v = w_venue w /\ is_ok r = false) \/ answered req (w_venue w) v.
Proof.
  intros Hr. destruct (fv_submit _ _ _ _ _ _ Hv) as [[-> (e & -> & _)]|(wr & x & Hs & Ht & Hx)]; [by left|].
  right. exists (w_venue w), (su_submit_ctx su), wr, x. split_and!; [done | | by left].
  destruct (ambiguous x); [|done]. by destruct Hr; apply Hx.
Qed.

(** The outcome of an answer is recorded as far as it can be. *)
Lemma resolve_rests o w' o' e :
  oc_State o <> StateUnknown -> (is_ok r = false -> oc_State o = StateRejected) -> r <> Err ErrTimeout ->
  (let '(w2, err) := resolve su w1 (env_TenantID env) (env_IdempotencyKey env) o in
   (w2, Some (o, err))) = (w', Some (o', e)) -> rests req w w' o' e.
Proof.
  intros Hne Hrej Hr. destruct (resolve _ _ _ _ _) as [w2 e2] eqn:E. apply resolve_venue in E as [E _].
  intros [= <- <- <-]. split; [done|]. intros _. rewrite E. cbn.
  destruct (submit_answered Hr) as [[-> H]|H]; [left | by right]. split; [done | by apply Hrej].
Qed.

(** An order nothing definite is known of is asked about. *)
Lemma unanswered_rests w' o e :
  (forall e0, r = Err e0 -> e0 = ErrTimeout) ->
  (let '(w2, a) := reconcileAndResolve su w1 (env_TenantID env) (env_IdempotencyKey env)
                     (or_ClientOrderID req) in (w2, Some a)) = (w', Some (o, e)) -> rests req w w' o e.
Proof.
  intros Hr. destruct (reconcileAndResolve _ _ _ _ _) as [w2 [o2 e2]] eqn:E. intros [= <- <- <-].
  apply reconcile_rests in E as [H1 H2]. split; [exact H1|]. intros Hne.
  destruct (H2 Hne) as (ctx & wr & x & Ht & Hx & Hg). right. exists v, ctx, wr, x.
  split_and!; [done | done |]. right. split; [done|].
  destruct (fv_submit _ _ _ _ _ _ Hv) as [[-> (e3 & He3 & Hn)]|(order & x' & Hs & Ht' & _)].
  - by apply Hr in He3.
  - by exists (su_submit_ctx su), order, x'.
Qed.
End Submission.

(** Whatever the brokerage does, an outcome other than UNKNOWN rests on an answer; else it
    comes with the error that sends it to an operator and the record is left pending. *)
Definition rests_on_answers : Prop :=
  forall (su : Surroundings) (w w' : Execution.World S (Recorded V)) (env : Envelope) (req : OrderRequest)
    (o : Outcome) (e : option ExecError),
  submitOnce su w env req = (w', Some (o, e)) ->
  (oc_State o = StateUnknown -> e = Some ErrUnresolved /\ w_store w' = w_store w) /\
  (oc_State o <> StateUnknown ->
     (w_venue w' = w_venue w /\ oc_State o = StateRejected) \/ answered req (w_venue w) (w_venue w')).

Lemma faithful_rests_on_answers : rests_on_answers.
Proof.
  intros su w w' env req o e.
  unfold submitOnce. destruct (ad_SubmitOrder _ _ _ _) as [v r] eqn:E. destruct (su_crash su); [done|].
  destruct r as [order|er].
  - destruct (outcomeFrom _ _) as [oc|] eqn:Eo.
    + apply (resolve_rests su w env req v _ E); [|done|done]. rewrite (outcomeFrom_state _ _ _ Eo).
      intros Hu. apply fv_submitted in E. by rewrite Hu in E.
    + by apply (unanswered_rests su w env req v _ E).
  - destruct er; try by apply (resolve_rests su w env req v _ E).
    apply (unanswered_rests su w env req v _ E). by intros e0 [= <-].
Qed.
End Service.

(** ** Both adapters *)

Section Both.
Context {S V : Type} `{HS : IdemStore S, HL : !StoreLaws S} `{HT : Transport V}.
#[local] Existing Instance AlpacaProofs.alpaca_faithful.
#[local] Existing Instance TradierProofs.tradier_faithful.
Context (parses : string -> bool) (parse_time : string -> option Time).
Context (wire_error : string -> string) (decode_order : string -> option Alpaca.wireOrder) (ca : Alpaca.Config).
Context (wire_fault : string -> option (string * string)) (decode_one decode_many : string -> option string)
  (wire_orders : string -> option (list Tradier.wireOrder)) (ct : Tradier.Config).

(** C4: The brokerage receives an order once.  Over any history of calls by any tenants,
    with databases that fail, a brokerage that answers, refuses, breaks off or changes by
    itself, processes that die and caches that are lost, through either adapter no more
    orders are sent than there are pairs of a tenant and a key they were sent for, no pair
    counts twice, and each is one of the submitted requests: its identifier, symbol, side,
    kind and duration, the one size and the prices it has, as text that reads back as the
    authorised number, and nothing besides.  Alpaca is told whether it is for extended
    hours; Tradier is not ([extended_hours_are_dropped]). *)
Theorem brokerage_receives_an_order_once :
  receives_once (S := S) (d := alpaca_dialect)
    (HA := AlpacaProofs.alpaca_adapter (V := Recorded V) parses parse_time wire_error decode_order ca) /\
  receives_once (S := S) (d := tradier_dialect)
    (HA := TradierProofs.tradier_adapter (V := Recorded V) parses parse_time wire_fault decode_one decode_many
             wire_orders ct).
Proof. split; refine faithful_receives_once. Qed.

(** C5: INV-004 at the wire.  Whatever the brokerage and the network do, through either
    adapter an outcome other than UNKNOWN rests on an answer: nothing was sent and the
    outcome is a rejection, or the request that carried the order, or the question asked
    about it afterwards, was answered with a status that is not a failure of the server.
    Otherwise the outcome is UNKNOWN, it comes with the error that sends it to an operator,
    and the idempotency record is left pending. *)
Theorem definite_outcomes_rest_on_answers :
  rests_on_answers (S := S) (d := alpaca_dialect)
    (HA := AlpacaProofs.alpaca_adapter (V := Recorded V) parses parse_time wire_error decode_order ca) /\
  rests_on_answers (S := S) (d := tradier_dialect)
    (HA := TradierProofs.tradier_adapter (V := Recorded V) parses parse_time wire_fault decode_one decode_many
             wire_orders ct).
Proof. split; refine faithful_rests_on_answers. Qed.
End Both.

(** ** Addresses *)

Lemma alpaca_host hostname raw :
  Alpaca.refuseLiveEndpoint hostname raw = None ->
  exists host, hostname raw = Some host /\
    (local_host (ToLower host) = true \/ HasPrefix (ToLower host) "paper-api." = true).
Proof.
  unfold Alpaca.refuseLiveEndpoint. destruct (hostname raw) as [host|]; [|done]. exists host.
  destruct (local_host _); [auto|]. destruct (HasPrefix _ _); auto. done.
Qed.

Lemma tradier_host hostname raw :
  Tradier.refuseLiveEndpoint hostname raw = None ->
  exists host, hostname raw = Some host /\
    (local_host (ToLower host) = true \/ HasPrefix (ToLower host) "sandbox." = true).
Proof.
  unfold Tradier.refuseLiveEndpoint. destruct (hostname raw) as [host|]; [|done]. exists host.
  destruct (local_host _); [auto|]. destruct (HasPrefix _ _); auto. done.
Qed.

(** Both constructors refuse an address whose host is neither local nor named as the
    venue's trial service, and every request of the adapter goes below that address. *)
Theorem endpoints_are_trials (hostname : string -> option string) (a a' : Alpaca.Config)
    (t t' : Tradier.Config) :
  (Alpaca.New hostname a = Ok a' ->
   (exists host, hostname (Alpaca.BaseURL a') = Some host /\
      (local_host (ToLower host) = true \/ HasPrefix (ToLower host) "paper-api." = true)) /\
   forall method path payload, HasPrefix (wr_URL (Alpaca.request a' method path payload)) (Alpaca.BaseURL a') = true) /\
  (Tradier.New hostname t = Ok t' ->
   (exists host, hostname (Tradier.BaseURL t') = Some host /\
      (local_host (ToLower host) = true \/ HasPrefix (ToLower host) "sandbox." = true)) /\
   forall method path form, HasPrefix (wr_URL (Tradier.request t' method path form)) (Tradier.BaseURL t') = true).
Proof.
  assert (forall a b, HasPrefix (a +:+ b) a = true) as Hpre.
  { intros x y. unfold HasPrefix. by rewrite (proj2 (CutPrefix_spec _ _ y) eq_refl). }
  split; intros H; (split; [|intros; apply Hpre]).
  - unfold Alpaca.New in H. destruct (Alpaca.refuseLiveEndpoint _ _) eqn:E; [done|]. apply alpaca_host in E.
    destruct (String.eqb (Alpaca.KeyID a) "" || _); [done|]. destruct (Alpaca.SymbolFor a); [|done].
    by injection H as <-.
  - unfold Tradier.New in H. destruct (Tradier.refuseLiveEndpoint _ _) eqn:E; [done|]. apply tradier_host in E.
    destruct (String.eqb (Tradier.Token t) ""); [done|]. destruct (String.eqb (Tradier.AccountID t) ""); [done|].
    destruct (Tradier.SymbolFor t); [|done]. by injection H as <-.
Qed.

(** Two orders are asked about at two addresses. *)
Lemma order_path_inj id1 id2 : Alpaca.order_path id1 = Alpaca.order_path id2 -> id1 = id2.
Proof. unfold Alpaca.order_path. intros H. apply (f_equal (fun s => CutPrefix s "/v2/orders:by_client_order_id?client_order_id=")) in H.
  rewrite !(proj2 (CutPrefix_spec _ _ _) eq_refl) in H. injection H as H. by apply QueryEscape_inj. Qed.

(** * A brokerage *)

(** It files every order, and answers with a status of its own. *)
Record Desk := mkDesk { dk_answer : Exchange; dk_orders : list string }.

Definition id_of (wr : WireRequest) (name : string) : string :=
  match field wr name with Some (FText s) => s | _ => "" end.

Definition desk_transport (name : string) : Transport Desk := {|
  roundTrip v ctx wr :=
    match ctx with
    | Some _ => (v, Unreachable)
    | None =>
        (if is_post wr then mkDesk (dk_answer v) (dk_orders v ++ [id_of wr name]) else v, dk_answer v)
    end
|}.
#[local] Instance alpaca_desk : Transport Desk := desk_transport "client_order_id".

Definition paper : Alpaca.Config := Alpaca.mkConfig Alpaca.PaperBaseURL "key" "secret" (Some Some) Second.

(** The body of an answer is the status and the filled quantity of the one order. *)
Definition demo_order (body : string) : option Alpaca.wireOrder :=
  match Cut "|"%char body with
  | Some (status, filled) => Some (Alpaca.mkWireOrder "venue-1" "coid-k1" status filled "" "" "")
  | None => None
  end.

Definition any_address (_ : string) : bool := true.
Definition no_clock (_ : string) : option Time := None.
#[local] Instance paper_adapter : Adapter (Recorded Desk) :=
  AlpacaProofs.alpaca_adapter any_address no_clock (fun _ => "") demo_order paper.
#[local] Instance paper_faithful : Faithful (Recorded Desk) alpaca_dialect :=
  AlpacaProofs.alpaca_faithful any_address no_clock (fun _ => "") demo_order paper.

Abbreviation DeskWorld := (Execution.World Memory.MemoryStore (Recorded Desk)).

Definition desk_of (answer : Exchange) : DeskWorld :=
  open_desk (S := Memory.MemoryStore) None (mkDesk answer []).

Definition placed (answer : Exchange) : DeskWorld * option (Outcome * option ExecError) :=
  Submit (calm 10) (desk_of answer) (Some demo_env) sample_request.

Definition told (a : option (Outcome * option ExecError)) : option (ExecutionState * option ExecError) :=
  option_map (fun x => (oc_State (fst x), snd x)) a.

Example placed_ex :
  told (snd (placed (Answered 200 "filled|10"))) = Some (StateFilled, None) /\
  told (snd (placed Unreachable)) = Some (StateUnknown, Some ErrUnresolved) /\
  told (snd (placed (Answered 503 ""))) = Some (StateUnknown, Some ErrUnresolved) /\
  told (snd (placed (Answered 422 "no"))) = Some (StateRejected, None).
Proof. vm_compute. auto. Qed.

(** An order the venue took, and answered with a status the adapter has no name for, is
    recorded as REJECTED for good: the adapter's error is not the timeout that is
    reconciled, and the execution service takes every other error for a refusal.  The
    same holds of a body that does not decode.  The order is at the venue, and the retry
    is answered with the rejection. *)
Theorem live_order_is_recorded_as_rejected (answer : Exchange) :
  answer = Answered 200 "pending_review|" \/ answer = Answered 200 "<html>" ->
  let w := fst (placed answer) in
  told (snd (placed answer)) = Some (StateRejected, None) /\
  dk_orders (rv_venue (w_venue w)) = ["coid-k1"] /\
  told (snd (Submit (calm 20) w (Some demo_env) sample_request)) = Some (StateRejected, None).
Proof. intros [->| ->]; vm_compute; auto. Qed.

(** A filled quantity that is not a number passes: ParseFloat reads NaN, and a comparison
    with it is false. *)
Theorem fill_that_is_no_number :
  option_map (fun x => (oc_State (fst x), is_nan (oc_FilledQuantity (fst x)), snd x))
    (snd (placed (Answered 200 "filled|NaN"))) = Some (StateFilled, true, None).
Proof. vm_compute. reflexivity. Qed.

(** Tradier is asked for nothing outside regular hours, although the adapter declares that
    it supports extended hours: the request does not depend on the flag. *)
Theorem extended_hours_are_dropped (symbol : string) (req : OrderRequest) (q : Quantity) (extended : bool) :
  Tradier.order_form (mkOrderRequest (or_ClientOrderID req) (or_TenantID req) (or_InstrumentID req)
      (or_Symbol req) (or_AssetClass req) (or_Side req) (or_OrderType req) (or_Quantity req)
      (or_Notional req) (or_LimitPrice req) (or_StopPrice req) (or_TimeInForce req) extended) symbol q =
    Tradier.order_form req symbol q /\
  cb_SupportsExtendedHours Tradier.Capabilities_ = true.
Proof. done. Qed.

(** Positions the Tradier adapter cannot decode are reported as none. *)
Theorem unreadable_positions_are_none {V : Type} {HT : Transport V} (parses : string -> bool)
    (fault : string -> option (string * string)) (positions : string -> option string)
    (many : string -> option (list Tradier.wirePosition)) (cfg : Tradier.Config) (v v' : V) (ctx : Context)
    (body raw : string) :
  Tradier.do_ parses fault cfg v ctx MethodGet (Tradier.account_path cfg "/positions") [] = (v', Ok body) ->
  positions body = Some raw -> Tradier.unmarshalOneOrMany many raw = None ->
  Tradier.GetPositions parses fault positions many cfg v ctx = (v', Ok []).
Proof. intros H1 H2 H3. unfold Tradier.GetPositions. by rewrite H1, H2, H3. Qed.

(** * Witnesses *)

(** A submission that dies after the brokerage took it, a brokerage that cannot be
    reached, and one that is back. *)
Definition desk_history : list (vop (V := Desk)) :=
  [VSubmit (crashing 10) (Some demo_env) sample_request; VCacheLost;
   VMoves (mkDesk Unreachable ["coid-k1"]);
   VSubmit (calm 20) (Some demo_env) sample_request;
   VMoves (mkDesk (Answered 200 "filled|10") ["coid-k1"]);
   VSubmit (calm 30) (Some demo_env) sample_request].

Definition after_history : DeskWorld :=
  run_ops vstep (desk_of (Answered 200 "new|")) desk_history.

Definition no_config : Tradier.Config := Tradier.mkConfig "" "" "" None 0.

Example brokerage_receives_an_order_once_witness :
  length (posts (rv_log (w_venue after_history))) = 1%nat /\
  length (rv_log (w_venue after_history)) = 3%nat /\
  (length (posts (rv_log (w_venue after_history))) <= length (keys_sent after_history))%nat.
Proof.
  do 2 (split; [vm_compute; reflexivity|]).
  apply (proj1 (brokerage_receives_an_order_once (S := Memory.MemoryStore) any_address no_clock (fun _ => "")
    demo_order paper (fun _ => None) Some Some (fun _ => None) no_config) None
    (mkDesk (Answered 200 "new|") []) desk_history).
  repeat constructor.
Defined.

Example definite_outcomes_rest_on_answers_witness :
  exists w' o e, submitOnce (calm 10) (desk_of Unreachable) demo_env sample_request = (w', Some (o, e)) /\
    oc_State o = StateUnknown /\ e = Some ErrUnresolved.
Proof.
  assert (option_map fst (told (snd (submitOnce (calm 10) (desk_of Unreachable) demo_env sample_request))) =
    Some StateUnknown) as Ht by (vm_compute; reflexivity).
  destruct (submitOnce (calm 10) (desk_of Unreachable) demo_env sample_request) as [w' [[o e]|]] eqn:E;
    [|discriminate Ht].
  injection Ht as Ho. exists w', o, e. split_and!; [reflexivity | exact Ho |].
  apply (proj1 (definite_outcomes_rest_on_answers (S := Memory.MemoryStore) any_address no_clock (fun _ => "")
    demo_order paper (fun _ => None) Some Some (fun _ => None) no_config) _ _ _ _ _ _ _ E). exact Ho.
Defined.

Example unreadable_positions_are_none_witness :
  snd (Tradier.GetPositions (HT := desk_transport "tag") any_address (fun _ => None) Some (fun _ => None)
         no_config (mkDesk (Answered 200 "x") []) None) = Ok [].
Proof.
  exact (f_equal snd (unreadable_positions_are_none (HT := desk_transport "tag") any_address (fun _ => None) Some
    (fun _ => None) no_config (mkDesk (Answered 200 "x") []) _ None "x" "x"
    eq_refl eq_refl eq_refl)).
Defined.

Example live_order_is_recorded_as_rejected_witness :
  told (snd (placed (Answered 200 "pending_review|"))) = Some (StateRejected, None).
Proof. apply (live_order_is_recorded_as_rejected (Answered 200 "pending_review|")). by left. Defined.
