(* ===== verification/Backbone.v ===== *)
(** The evidence backbone: internal/evidence/stream.go, its use by the outbox publisher of
    outbox.go, and internal/fleet/evidence_projection.go with [InsertEvidence] of
    clickhouse.go.

    The gateway's outbox is drained onto a stream, and a durable consumer projects the
    stream into the analytical store.  JetStream is a service: a publication is stored,
    deduplicated by its identifier within a window, or not acknowledged ([Fate]); a fetch
    delivers some of the messages that are neither acknowledged nor terminated; an
    acknowledgement may be lost.  That messages live for ninety days is not modelled.  The
    analytical table is the list of the rows appended to it; its engine shows one row of
    each tenant and event identifier.  It reads a row as JSON ([read_row]), and the row is
    written by Go's %q; that the table refuses a row which is no strict JSON is assumed of it.  The loop of RunEvidenceConsumer is a sequence of [KFetch] steps; its
    pauses change nothing. *)

From S2P Require Import Prelude Strings Money CanonicalJSON Crypto Wire Evidence.

(** * Text in a row *)

(** The code point of an encoded rune. *)
Definition code_point (rune : bytes_t) : Z :=
  match map Z.of_nat rune with
  | [a] => a
  | [a; b] => (a - 192) * 64 + (b - 128)
  | [a; b; c] => (a - 224) * 4096 + (b - 128) * 64 + (c - 128)
  | [a; b; c; d] => (a - 240) * 262144 + (b - 128) * 4096 + (c - 128) * 64 + (d - 128)
  | _ => 65533
  end.

Fixpoint hex_text (width : nat) (n : Z) : bytes_t :=
  match width with
  | O => []
  | S w => hex_text w (n / 16) ++ [hex_digit (Z.to_nat (n mod 16))]
  end.

(** An ASCII character in %q. *)
Definition quote_ascii (a : nat) : bytes_t :=
  if (a =? 34)%nat || (a =? 92)%nat then [92%nat; a]
  else if (a =? 7)%nat then bytes "\a"
  else if (a =? 8)%nat then bytes "\b"
  else if (a =? 12)%nat then bytes "\f"
  else if (a =? 10)%nat then bytes "\n"
  else if (a =? 13)%nat then bytes "\r"
  else if (a =? 9)%nat then bytes "\t"
  else if (a =? 11)%nat then bytes "\v"
  else if (a <? 32)%nat || (a =? 127)%nat then bytes "\x" ++ hex_text 2 (Z.of_nat a)
  else [a].

Section Row.
(** [unicode.IsPrint] of a rune outside ASCII. *)
Context (is_print : bytes_t -> bool).

Definition quote_rune (rune : bytes_t) : bytes_t :=
  if is_print rune then rune
  else if (length rune <? 4)%nat then bytes "\u" ++ hex_text 4 (code_point rune)
  else bytes "\U" ++ hex_text 8 (code_point rune).

(** [strconv.Quote]; every rune takes a byte, so the length is enough fuel. *)
Fixpoint quote_body (fuel : nat) (l : bytes_t) : bytes_t :=
  match l, fuel with
  | a :: l1, S f =>
      match after_rune l with
      | None => bytes "\x" ++ hex_text 2 (Z.of_nat a) ++ quote_body f l1
      | Some rest =>
          (if (a <? 128)%nat then quote_ascii a else quote_rune (take (length l - length rest) l)) ++
          quote_body f rest
      end
  | _, _ => []
  end.

Definition Quote (s : string) : bytes_t := 34%nat :: quote_body (length (bytes s)) (bytes s) ++ [34%nat].

Definition key (name : string) : bytes_t := 34%nat :: bytes name ++ [34%nat; 58%nat].
Definition comma : bytes_t := [44%nat].

Section Layout.
(** The occurrence time as [Format] writes it. *)
Context (stamp : Time -> string).

Definition projectionRow (e : Event) : bytes_t :=
  bytes "{" ++ key "tenant_id" ++ Quote (ev_TenantID e) ++ comma ++
  key "event_id" ++ Quote (ev_EventID e) ++ comma ++
  key "event_name" ++ Quote (ev_EventName e) ++ comma ++
  key "aggregate_id" ++ Quote (ev_AggregateID e) ++ comma ++
  key "correlation_id" ++ Quote (ev_CorrelationID e) ++ comma ++
  key "causation_id" ++ Quote (ev_CausationID e) ++ comma ++
  key "producer" ++ Quote (ev_Producer e) ++ comma ++
  key "sequence" ++ bytes (fmt_d (ev_Sequence e)) ++ comma ++
  key "occurred_at" ++ Quote (stamp (ev_OccurredAt e)) ++ bytes "}".

(** ** What JSON reads *)

Definition utf8_of (n : Z) : bytes_t :=
  map Z.to_nat
    (if n <? 128 then [n]
     else if n <? 2048 then [192 + n / 64; 128 + n mod 64]
     else [224 + n / 4096; 128 + n / 64 mod 64; 128 + n mod 64]).

Definition escaped (c : nat) : option nat :=
  if byte_of_set [34; 92; 47]%nat c then Some c
  else if (c =? 98)%nat then Some 8%nat
  else if (c =? 102)%nat then Some 12%nat
  else if (c =? 110)%nat then Some 10%nat
  else if (c =? 114)%nat then Some 13%nat
  else if (c =? 116)%nat then Some 9%nat
  else None.

Definition hex4 (a b c d : nat) : option Z :=
  match from_hex a, from_hex b, from_hex c, from_hex d with
  | Some a, Some b, Some c, Some d =>
      Some (Z.of_nat a * 4096 + Z.of_nat b * 256 + Z.of_nat c * 16 + Z.of_nat d)
  | _, _, _, _ => None
  end.

(** One character of a JSON string; surrogates are left out. *)
Definition read_char (l : bytes_t) : option (bytes_t * bytes_t) :=
  match l with
  | [] => None
  | a :: l1 =>
      if (a =? 34)%nat || (a <? 32)%nat then None
      else if (a =? 92)%nat then
        match l1 with
        | u :: l2 =>
            if (u =? 117)%nat then
              match l2 with
              | p :: q :: r :: s :: l3 =>
                  match hex4 p q r s with Some n => Some (utf8_of n, l3) | None => None end
              | _ => None
              end
            else match escaped u with Some b => Some ([b], l2) | None => None end
        | [] => None
        end
      else Some ([a], l1)
  end.

Fixpoint read_chars (fuel : nat) (l : bytes_t) : option (bytes_t * bytes_t) :=
  match fuel with
  | O => None
  | S f =>
      match l with
      | 34%nat :: l' => Some ([], l')
      | _ =>
          match read_char l with
          | Some (c, l') =>
              match read_chars f l' with Some (cs, rest) => Some (c ++ cs, rest) | None => None end
          | None => None
          end
      end
  end.

Definition read_string (l : bytes_t) : option (string * bytes_t) :=
  match l with
  | 34%nat :: l' =>
      match read_chars (length l') l' with Some (cs, rest) => Some (str_of_bytes cs, rest) | None => None end
  | _ => None
  end.

Fixpoint expect (p l : bytes_t) : option bytes_t :=
  match p, l with
  | [], _ => Some l
  | a :: p', b :: l' => if (a =? b)%nat then expect p' l' else None
  | _ :: _, [] => None
  end.

(** A member and its text, after [before]. *)
Definition read_member (before : bytes_t) (name : string) (l : bytes_t) : option (string * bytes_t) :=
  match expect before l with
  | Some l => match expect (key name) l with Some l => read_string l | None => None end
  | None => None
  end.

Fixpoint read_digits (acc : Z) (l : bytes_t) : Z * bytes_t :=
  match l with
  | b :: l' => match digit_in 10 b with Some d => read_digits (acc * 10 + d) l' | None => (acc, l) end
  | [] => (acc, [])
  end.

Definition read_number (l : bytes_t) : Z * bytes_t :=
  match l with
  | 45%nat :: l' => let '(n, rest) := read_digits 0 l' in (- n, rest)
  | _ => read_digits 0 l
  end.

Record Projected := mkProjected {
  pj_tenant_id : string;
  pj_event_id : string;
  pj_event_name : string;
  pj_aggregate_id : string;
  pj_correlation_id : string;
  pj_causation_id : string;
  pj_producer : string;
  pj_sequence : Z;
  pj_occurred_at : string
}.

Definition read_row (l : bytes_t) : option Projected :=
  '(t, l) ← read_member (bytes "{") "tenant_id" l;
  '(i, l) ← read_member comma "event_id" l;
  '(n, l) ← read_member comma "event_name" l;
  '(a, l) ← read_member comma "aggregate_id" l;
  '(c, l) ← read_member comma "correlation_id" l;
  '(u, l) ← read_member comma "causation_id" l;
  '(p, l) ← read_member comma "producer" l;
  l ← expect comma l;
  l ← expect (key "sequence") l;
  let '(s, l) := read_number l in
  '(o, l) ← read_member comma "occurred_at" l;
  l ← expect (bytes "}") l;
  if bool_decide (l = []) then Some (mkProjected t i n a c u p s o) else None.

Definition projected (e : Event) : Projected :=
  mkProjected (ev_TenantID e) (ev_EventID e) (ev_EventName e) (ev_AggregateID e) (ev_CorrelationID e)
    (ev_CausationID e) (ev_Producer e) (ev_Sequence e) (stamp (ev_OccurredAt e)).

(** ** What of %q is JSON *)

(** JSON has no escape for these; %q writes \a, \v and \x. *)
Definition bad (a : nat) : bool :=
  ((a <? 32) && negb (byte_of_set [8; 9; 10; 12; 13] a) || (a =? 127))%nat.

(** The text is written in escapes that JSON has. *)
Fixpoint writable_body (fuel : nat) (l : bytes_t) : bool :=
  match l, fuel with
  | a :: l1, S f =>
      match after_rune l with
      | None => false
      | Some rest =>
          let rune := take (length l - length rest) l in
          (if (a <? 128)%nat then negb (bad a) else is_print rune || (length rune <? 4)%nat) &&
          writable_body f rest
      end
  | _, _ => true
  end.

Definition writable (s : string) : bool := writable_body (length (bytes s)) (bytes s).

Lemma hex_digit_read n : (n < 16)%nat -> from_hex (hex_digit n) = Some n.
Proof. intros H. do 16 (destruct n as [|n]; [reflexivity|]). lia. Qed.

Lemma hex4_text n l : 0 <= n < 65536 ->
  exists p q r s, hex_text 4 n ++ l = p :: q :: r :: s :: l /\ hex4 p q r s = Some n.
Proof.
  intros Hn. cbn [hex_text app]. do 4 eexists. split; [reflexivity|]. unfold hex4.
  assert (forall z, from_hex (hex_digit (Z.to_nat (z mod 16))) = Some (Z.to_nat (z mod 16))) as H.
  { intros z. apply hex_digit_read. pose proof (Z.mod_pos_bound z 16). lia. }
  rewrite !H. f_equal. rewrite !Z2Nat.id by (apply Z.mod_pos_bound; lia).
  clear H. Z.div_mod_to_equations. lia.
Qed.

(** A rune outside ASCII: its bytes, and that its code point is written back as it. *)
Lemma rune_high a l1 rest :
  after_rune (a :: l1) = Some rest -> (a <? 128)%nat = false ->
  exists rune, a :: l1 = rune ++ rest /\ Forall (fun b => 128 <= b)%nat rune /\ rune <> [] /\
    ((length rune < 4)%nat -> utf8_of (code_point rune) = rune /\ 0 <= code_point rune < 65536).
Proof.
  intros H Ha. cbn [after_rune] in H. rewrite Ha in H. apply Nat.ltb_ge in Ha.
  destruct l1 as [|b l2]; [done|]. destruct (between 194 223 a) eqn:E2.
  { destruct (cont b) eqn:Eb; [|done]. injection H as <-. unfold between, cont in *.
    exists [a; b]. rewrite !andb_true_iff, !Nat.leb_le in *. split_and!; [done | | done |].
    - repeat constructor; lia.
    - intros _. cbn [map code_point utf8_of length]. unfold utf8_of, code_point. cbn [map].
      set (n := (Z.of_nat a - 192) * 64 + (Z.of_nat b - 128)).
      assert (128 <= n < 2048) as Hn by lia.
      destruct (Z.ltb_spec n 128); [lia|]. destruct (Z.ltb_spec n 2048); [|lia].
      split; [|lia]. cbn [map]. repeat f_equal; subst n; Z.div_mod_to_equations; lia. }
  destruct l2 as [|c l3]; [done|]. destruct (_ || _ || _ || _) eqn:E3.
  { destruct (cont c) eqn:Ec; [|done]. injection H as <-.
    assert (224 <= a <= 239 /\ 128 <= b <= 191 /\ 128 <= c <= 191 /\ (a = 224 -> 160 <= b))%nat as (Ha1 & Hb & Hc & Hab).
    { unfold between, cont in *. rewrite !orb_true_iff, !andb_true_iff, !Nat.leb_le, !Nat.eqb_eq in *. lia. }
    exists [a; b; c]. split_and!; [done | | done |].
    - repeat constructor; lia.
    - intros _. unfold utf8_of, code_point. cbn [map].
      set (n := (Z.of_nat a - 224) * 4096 + (Z.of_nat b - 128) * 64 + (Z.of_nat c - 128)).
      assert (2048 <= n < 65536) as Hn by lia.
      destruct (Z.ltb_spec n 128); [lia|]. destruct (Z.ltb_spec n 2048); [lia|].
      split; [|lia]. cbn [map]. repeat f_equal; subst n; Z.div_mod_to_equations; lia. }
  destruct l3 as [|d l4]; [done|]. destruct (_ && _ && _) eqn:E4; [|done]. injection H as <-.
  exists [a; b; c; d]. split_and!; [done | | done |].
  - unfold between, cont in *. rewrite !andb_true_iff, !orb_true_iff, !andb_true_iff, !Nat.leb_le, !Nat.eqb_eq in E4.
    repeat constructor; lia.
  - cbn. lia.
Qed.

Definition prepend (c : bytes_t) (x : bytes_t * bytes_t) : bytes_t * bytes_t := (c ++ fst x, snd x).

Lemma read_chars_unfold F a l1 :
  a <> 34%nat ->
  read_chars (S F) (a :: l1) =
    match read_char (a :: l1) with
    | Some (c, l') =>
        match read_chars F l' with Some (cs, rest) => Some (c ++ cs, rest) | None => None end
    | None => None
    end.
Proof. intros Ha. cbn [read_chars]. do 35 (destruct a as [|a]; [first [reflexivity | by destruct Ha]|]). reflexivity. Qed.

Lemma read_chars_char F l c l' :
  read_char l = Some (c, l') -> read_chars (S F) l = option_map (prepend c) (read_chars F l').
Proof.
  intros H. destruct l as [|a l1]; [done|].
  assert ((a =? 34)%nat = false) as Ha by (cbn [read_char] in H; by destruct (a =? 34)%nat).
  apply Nat.eqb_neq in Ha.
  rewrite read_chars_unfold by done. rewrite H. by destruct (read_chars F l') as [[cs rest]|].
Qed.

Lemma read_chars_bad F l : read_char l = None -> (forall l', l <> 34%nat :: l') -> read_chars F l = None.
Proof.
  intros H Hq. destruct F as [|F]; [done|]. destruct l as [|a l1]; [done|].
  rewrite read_chars_unfold, H; [done|]. intros ->. by apply (Hq l1).
Qed.

Lemma quote_ascii_read a l :
  (a < 128)%nat ->
  (bad a = false /\ read_char (quote_ascii a ++ l) = Some ([a], l)) \/
  (bad a = true /\ read_char (quote_ascii a ++ l) = None /\ exists b, quote_ascii a = 92%nat :: b).
Proof.
  intros H. do 128 (destruct a as [|a]; [first [left; split; reflexivity | right; split_and!; [reflexivity | reflexivity | eexists; reflexivity]]|]).
  lia.
Qed.

Lemma read_raw r F l :
  Forall (fun b => 128 <= b)%nat r ->
  read_chars (length r + F) (r ++ l) = option_map (prepend r) (read_chars F l).
Proof.
  intros H. induction H as [|b r Hb _ IH]; [cbn [length app Nat.add]; by destruct (read_chars F l) as [[]|]|].
  cbn [length app Nat.add]. rewrite (read_chars_char _ _ [b] (r ++ l)).
  - rewrite IH. by destruct (read_chars F l) as [[]|].
  - cbn [read_char]. destruct (Nat.eqb_spec b 34); [lia|]. destruct (Nat.ltb_spec b 32); [lia|].
    destruct (Nat.eqb_spec b 92); [lia|]. done.
Qed.

(** Reading [chunk], with fuel for its length, gives [rune] and leaves enough fuel. *)
Definition reads_as (chunk rune : bytes_t) : Prop :=
  forall F rest, (length chunk <= F)%nat ->
  exists F', (F <= F' + length chunk)%nat /\
    read_chars F (chunk ++ rest) = option_map (prepend rune) (read_chars F' rest).

Lemma reads_as_char chunk c :
  chunk <> [] -> (forall l, read_char (chunk ++ l) = Some (c, l)) -> reads_as chunk c.
Proof.
  intros Hne H F rest HF. destruct chunk as [|x chunk]; [done|]. cbn [length] in *.
  destruct F as [|F]; [lia|]. exists F. split; [lia|]. by apply read_chars_char.
Qed.

Lemma unicode_escape_reads n :
  0 <= n < 65536 -> reads_as (bytes "\u" ++ hex_text 4 n) (utf8_of n).
Proof.
  intros Hn. apply reads_as_char; [done|]. intros l. rewrite <- app_assoc.
  destruct (hex4_text n l Hn) as (p & q & r & s & -> & H). cbn. by rewrite H.
Qed.

(** One rune of the text: how %q writes it, and what JSON makes of that. *)
Lemma rune_step f a l1 :
  exists chunk rest, quote_body (S f) (a :: l1) = chunk ++ quote_body f rest /\ (length rest <= length l1)%nat /\
    ((writable_body (S f) (a :: l1) = writable_body f rest /\
      exists rune, a :: l1 = rune ++ rest /\ reads_as chunk rune) \/
     (writable_body (S f) (a :: l1) = false /\ forall F l, read_chars F (chunk ++ l) = None)).
Proof.
  assert (forall b F l, read_chars F (92%nat :: 120%nat :: b ++ l) = None) as Hx.
  { intros b F l. by apply read_chars_bad. }
  destruct (after_rune (a :: l1)) as [rest|] eqn:E.
  - destruct (a <? 128)%nat eqn:Ea.
    + exists (quote_ascii a), rest. cbn [quote_body writable_body]. rewrite E, Ea.
      assert (rest = l1) as ->.
      { cbn [after_rune] in E. rewrite Ea in E. by injection E as ->. }
      split_and!; [done | done |]. apply Nat.ltb_lt in Ea.
      destruct (bad a) eqn:Eb; [right | left]; cbn [negb andb].
      * split; [done|]. intros F l. destruct (quote_ascii_read a l Ea) as [[H _]|(_ & H & b & Hb)]; [congruence|].
        apply read_chars_bad; [done|]. rewrite Hb. by intros l'.
      * split; [done|]. exists [a]. split; [done|]. apply reads_as_char.
        -- intros H. destruct (quote_ascii_read a [] Ea) as [[_ H']|[H' _]]; [by rewrite H in H' | congruence].
        -- intros l. destruct (quote_ascii_read a l Ea) as [[_ H]|[H _]]; [done | congruence].
    + destruct (rune_high a l1 rest E Ea) as (rune & Hr & Hh & Hne & Hu).
      assert (take (length (a :: l1) - length rest) (a :: l1) = rune) as Ht.
      { rewrite Hr at 2. rewrite Hr, length_app. replace (length rune + length rest - length rest)%nat with (length rune) by lia.
        by rewrite take_app_length. }
      exists (quote_rune rune), rest. cbn [quote_body writable_body]. rewrite E, Ea, Ht.
      split_and!; [done | |].
      { apply (f_equal length) in Hr. rewrite length_app in Hr. destruct rune; [done|]. cbn in Hr. lia. }
      unfold quote_rune. destruct (is_print rune); cbn [orb andb].
      * left. split; [done|]. exists rune. split; [done|]. intros F l HF. exists (F - length rune)%nat.
        split; [lia|]. rewrite <- read_raw by done. f_equal. lia.
      * destruct (length rune <? 4)%nat eqn:El; cbn [andb].
        -- left. split; [done|]. exists rune. split; [done|]. apply Nat.ltb_lt in El. destruct (Hu El) as [Hu1 Hu2].
           rewrite <- Hu1 at 2. by apply unicode_escape_reads.
        -- right. split; [done|]. intros F l. by apply read_chars_bad.
  - exists (bytes "\x" ++ hex_text 2 (Z.of_nat a)), l1. cbn [quote_body writable_body]. rewrite E.
    split_and!; [by rewrite <- app_assoc | done |]. right. split; [done|]. intros F l.
    rewrite <- app_assoc. apply Hx.
Qed.

Lemma quote_body_read f : forall l F rest,
  (length l <= f)%nat -> (length (quote_body f l) < F)%nat ->
  read_chars F (quote_body f l ++ 34%nat :: rest) = if writable_body f l then Some (l, rest) else None.
Proof.
  induction f as [|f IH]; intros l F rest Hl HF.
  - destruct l; [|cbn in Hl; lia]. destruct F; [lia|done].
  - destruct l as [|a l1]; [destruct F; [cbn in HF; lia|done]|].
    destruct (rune_step f a l1) as (chunk & r & Hq & Hr & [[Hw (rune & Hl1 & Hrd)]|[Hw Hrd]]).
    + rewrite Hq, Hw in *. rewrite length_app in HF. rewrite <- app_assoc.
      destruct (Hrd F (quote_body f r ++ 34%nat :: rest)) as (F' & HF' & ->); [lia|].
      rewrite IH by (cbn [length] in Hl; lia). rewrite Hl1. by destruct (writable_body f r).
    + rewrite Hq, Hw, <- app_assoc. apply Hrd.
Qed.

(** A quoted text reads as itself when JSON has all its escapes, and does not read otherwise. *)
Lemma read_Quote s rest : read_string (Quote s ++ rest) = if writable s then Some (s, rest) else None.
Proof.
  unfold Quote, writable. cbn [app read_string]. rewrite <- app_assoc. cbn [app].
  rewrite quote_body_read by (rewrite ?length_app; cbn [length]; lia).
  destruct (writable_body _ _); [by rewrite str_of_bytes_bytes | done].
Qed.

Lemma expect_app p l : expect p (p ++ l) = Some l.
Proof. induction p as [|a p IH]; [done|]. cbn [app expect]. by rewrite Nat.eqb_refl. Qed.

Lemma read_member_Quote before name s rest :
  read_member before name (before ++ key name ++ Quote s ++ rest) =
    if writable s then Some (s, rest) else None.
Proof. unfold read_member. rewrite !expect_app. apply read_Quote. Qed.

Lemma digit_in_10 c : digit_in 10 (Ascii.nat_of_ascii c) = if is_digit c then Some (digit_value c) else None.
Proof. unfold digit_in, is_digit. by destruct ((48 <=? Ascii.nat_of_ascii c) && _)%nat. Qed.

Lemma read_digits_app s l : forall acc,
  str_forall is_digit s = true -> read_digits acc (bytes s ++ 44%nat :: l) = (digits_val acc s, 44%nat :: l).
Proof.
  induction s as [|c s IH]; intros acc H; [done|]. cbn [str_forall] in H. apply andb_true_iff in H as [Hc Hs].
  change (bytes (String c s)) with (Ascii.nat_of_ascii c :: bytes s). cbn [app read_digits].
  rewrite digit_in_10, Hc. by apply IH.
Qed.

Lemma read_number_digits s l :
  str_forall is_digit s = true -> s <> "" ->
  read_number (bytes s ++ 44%nat :: l) = (digits_val 0 s, 44%nat :: l).
Proof.
  intros Hs Hne. rewrite <- (read_digits_app s l 0 Hs). destruct s as [|c s]; [done|].
  cbn [str_forall] in Hs. apply andb_true_iff in Hs as [Hc _]. unfold is_digit in Hc.
  change (bytes (String c s)) with (Ascii.nat_of_ascii c :: bytes s). cbn [app]. unfold read_number.
  apply andb_true_iff in Hc as [Hc _]. apply Nat.leb_le in Hc.
  remember (Ascii.nat_of_ascii c) as n eqn:En. clear En.
  do 46 (destruct n as [|n]; [first [reflexivity | lia]|]). reflexivity.
Qed.

Lemma read_number_fmt n l : read_number (bytes (fmt_d n) ++ 44%nat :: l) = (n, 44%nat :: l).
Proof.
  unfold fmt_d. destruct (Z.ltb_spec n 0) as [Hn|Hn].
  - destruct (itoa_spec (- n)) as (Hd & Hv & _); [lia|]. rewrite bytes_app.
    change (bytes "-") with [45%nat]. cbn [app read_number]. rewrite read_digits_app, Hv by done. f_equal. lia.
  - destruct (itoa_spec n Hn) as (Hd & Hv & Hne). by rewrite read_number_digits, Hv.
Qed.

(** Every text of the row is written in escapes that JSON has. *)
Definition legible (e : Event) : bool :=
  writable (ev_TenantID e) && writable (ev_EventID e) && writable (ev_EventName e) &&
  writable (ev_AggregateID e) && writable (ev_CorrelationID e) && writable (ev_CausationID e) &&
  writable (ev_Producer e) && writable (stamp (ev_OccurredAt e)).

(** The row is JSON exactly when it is legible, and says what the event says. *)
Lemma read_projectionRow e : read_row (projectionRow e) = if legible e then Some (projected e) else None.
Proof.
  unfold read_row, projectionRow, legible. rewrite read_member_Quote.
  destruct (writable (ev_TenantID e)); [|done]. cbn [mbind option_bind]. rewrite read_member_Quote.
  destruct (writable (ev_EventID e)); [|done]. cbn [mbind option_bind]. rewrite read_member_Quote.
  destruct (writable (ev_EventName e)); [|done]. cbn [mbind option_bind]. rewrite read_member_Quote.
  destruct (writable (ev_AggregateID e)); [|done]. cbn [mbind option_bind]. rewrite read_member_Quote.
  destruct (writable (ev_CorrelationID e)); [|done]. cbn [mbind option_bind]. rewrite read_member_Quote.
  destruct (writable (ev_CausationID e)); [|done]. cbn [mbind option_bind]. rewrite read_member_Quote.
  destruct (writable (ev_Producer e)); [|done]. cbn [mbind option_bind andb]. rewrite expect_app.
  cbn [mbind option_bind]. rewrite expect_app. cbn [mbind option_bind].
  change (comma ++ key "occurred_at" ++ ?x) with (44%nat :: key "occurred_at" ++ x). rewrite read_number_fmt.
  change (44%nat :: key "occurred_at" ++ ?x) with (comma ++ key "occurred_at" ++ x). rewrite read_member_Quote.
  destruct (writable (stamp _)); [|done]. cbn [mbind option_bind].
  by rewrite <- (app_nil_r (bytes "}")), expect_app.
Qed.

(** * The stream *)

Record Message := mkMessage { ms_ID : string; ms_Subject : string; ms_Data : string }.

Inductive PublishError :=
| PublishInvalid (field : string)
| PublishMarshal
| PublishFailed (id : string) (err : string)
| PublishNoAck (id : string).

(** What a message's future holds when the server is done with it. *)
Inductive Answer := Acknowledged | Refused (err : string) | Silent.

(** What becomes of a publication: not handed to the server, lost on its way, or stored,
    within the window the server deduplicates in or not, and answered or not. *)
Inductive Fate :=
| NotSent (err : string)
| Dropped (err : option string)
| Kept (window : bool) (answer : Answer).

(** The stream, and the messages the consumer has acknowledged or terminated. *)
Record Bus := mkBus { bs_messages : list Message; bs_settled : gset nat }.

Definition has_message (st : list Message) (id : string) : bool :=
  existsb (fun m => String.eqb (ms_ID m) id) st.

Definition store (window : bool) (st : list Message) (m : Message) : list Message :=
  if window && has_message st (ms_ID m) then st else st ++ [m].

Section Consumed.
Context {HJ : JSON}.

(** The first loop of PublishBatch for one event: the failure, or the future. *)
Definition publish_async (st : list Message) (e : Event) (fate : Fate) : list Message * (PublishError + Answer) :=
  if str_nonempty (Validate e) then (st, inl (PublishInvalid (Validate e))) else
  match marshal_event e with
  | None => (st, inl PublishMarshal)
  | Some raw =>
      match fate with
      | NotSent err => (st, inl (PublishFailed (ev_EventID e) err))
      | Dropped err => (st, inr (match err with Some err => Refused err | None => Silent end))
      | Kept window answer => (store window st (mkMessage (ev_EventID e) (Subject e) raw), inr answer)
      end
  end.

Fixpoint publish_all (st : list Message) (es : list Event) (fate : nat -> Fate)
    : list Message * list (Event * (PublishError + Answer)) :=
  match es with
  | [] => (st, [])
  | e :: es' =>
      let '(st1, x) := publish_async st e (fate 0%nat) in
      let '(st2, l) := publish_all st1 es' (fun i => fate (S i)) in
      (st2, (e, x) :: l)
  end.

(** The loop over the futures. *)
Definition settle (x : Event * (PublishError + Answer)) : option PublishError :=
  match snd x with
  | inl err => Some err
  | inr Acknowledged => None
  | inr (Refused err) => Some (PublishFailed (ev_EventID (fst x)) err)
  | inr Silent => Some (PublishNoAck (ev_EventID (fst x)))
  end.

(** [PublishBatch]: [complete] when the server answered before the context ended. *)
Definition PublishBatch (st : list Message) (es : list Event) (fate : nat -> Fate) (complete : bool)
    : list Message * option (list (option PublishError)) :=
  let '(st', l) := publish_all st es fate in
  (st', if complete then Some (map settle l) else None).

(** ** The consumer *)

Inductive AckFate := AckDone | AckLost | AckFails.

(** A message the server delivers, whether a Term for it arrives, what becomes of an Ack. *)
Record Delivery := mkDelivery { dl_seq : nat; dl_term : bool; dl_ack : AckFate }.

Record FetchEnv := mkFetchEnv {
  fe_refused : option string;
  fe_delivered : list Delivery;
  fe_error : option string;
  fe_insert : TxFault
}.

(** A delivered message has not been settled. *)
Definition deliverable (b : Bus) (d : Delivery) : option Message :=
  if bool_decide (dl_seq d ∈ bs_settled b) then None else bs_messages b !! dl_seq d.

Definition settled (b : Bus) (d : Delivery) : Bus := mkBus (bs_messages b) ({[dl_seq d]} ∪ bs_settled b).

(** The loop over the messages of a fetch: the events, and how many were terminated. *)
Fixpoint sort_out (b : Bus) (l : list Delivery) : Bus * list (Delivery * Event) * Z :=
  match l with
  | [] => (b, [], 0)
  | d :: l' =>
      match deliverable b d with
      | None => sort_out b l'
      | Some m =>
          match unmarshal_event (ms_Data m) with
          | None =>
              let '(b', events, poison) := sort_out (if dl_term d then settled b d else b) l' in
              (b', events, poison + 1)
          | Some e =>
              let '(b', events, poison) := sort_out b l' in (b', (d, e) :: events, poison)
          end
      end
  end.

(** The acknowledgements, up to the first that fails. *)
Fixpoint ack_all (b : Bus) (l : list Delivery) : Bus * Z * bool :=
  match l with
  | [] => (b, 0, true)
  | d :: l' =>
      match dl_ack d with
      | AckFails => (b, 0, false)
      | a =>
          let '(b', n, done) := ack_all (match a with AckDone => settled b d | _ => b end) l' in
          (b', n + 1, done)
      end
  end.

Record Fetched := mkFetched { fd_count : Z; fd_error : option string; fd_reported : Z }.

Definition FetchBatch {St : Type} (h : St -> list Event -> St * option string) (env : FetchEnv)
    (b : Bus) (s : St) : Bus * St * Fetched :=
  match fe_refused env with
  | Some err => (b, s, mkFetched 0 (Some err) 0)
  | None =>
      let '(b1, received, poison) := sort_out b (fe_delivered env) in
      match fe_error env, received with
      | Some err, [] => (b1, s, mkFetched 0 (Some err) 0)
      | None, [] => (b1, s, mkFetched 0 None poison)
      | err, _ :: _ =>
          match h s (map snd received) with
          | (s', Some err) => (b1, s', mkFetched 0 (Some err) poison)
          | (s', None) =>
              let '(b2, n, done) := ack_all b1 (map fst received) in
              (b2, s', mkFetched n (if done : bool then err else Some "ack") poison)
          end
      end
  end.

(** [Fetch], with a handler for each event; [h] is given the delivery it runs for. *)
Fixpoint fetch_each {St : Type} (h : Delivery -> St -> Event -> St * option string) (b : Bus) (s : St)
    (l : list Delivery) : Bus * St * Z * option string :=
  match l with
  | [] => (b, s, 0, None)
  | d :: l' =>
      match deliverable b d with
      | None => fetch_each h b s l'
      | Some m =>
          match unmarshal_event (ms_Data m) with
          | None => fetch_each h (if dl_term d then settled b d else b) s l'
          | Some e =>
              match h d s e with
              | (s', Some _) => fetch_each h b s' l'
              | (s', None) =>
                  match dl_ack d with
                  | AckFails => (b, s', 0, Some "ack")
                  | a =>
                      let '(b', s'', n, err) :=
                        fetch_each h (match a with AckDone => settled b d | _ => b end) s' l' in
                      (b', s'', n + 1, err)
                  end
              end
          end
      end
  end.

Definition Fetch {St : Type} (h : Delivery -> St -> Event -> St * option string) (env : FetchEnv) (b : Bus) (s : St)
    : Bus * St * Z * option string :=
  match fe_refused env with
  | Some err => (b, s, 0, Some err)
  | None =>
      match fetch_each h b s (fe_delivered env) with
      | (b', s', n, Some err) => (b', s', n, Some err)
      | (b', s', n, None) => (b', s', n, fe_error env)
      end
  end.

Definition StoreHandler (fault : Delivery -> TxFault) (d : Delivery) (db : Tables) (e : Event)
    : Tables * option string :=
  match AppendConsumed (fault d) db e with
  | (db', Ok _) => (db', None)
  | (db', Err _) => (db', Some "not recorded")
  end.

(** [Publish] of one event; [no_reply] is the library's error when no answer comes. *)
Definition Publish (st : list Message) (e : Event) (fate : Fate) (no_reply : string)
    : list Message * option PublishError :=
  let '(st', x) := publish_async st e fate in
  (st', match x with
        | inl err => Some err
        | inr Acknowledged => None
        | inr (Refused err) => Some (PublishFailed (ev_EventID e) err)
        | inr Silent => Some (PublishFailed (ev_EventID e) no_reply)
        end).

(** ** The projection *)

(** The analytical table, as appended to; a row it cannot read fails the insert. *)
Definition InsertEvidence (f : TxFault) (table : list Projected) (rows : list bytes_t)
    : list Projected * option string :=
  match rows with
  | [] => (table, None)
  | _ =>
      let '(table', r) := transaction (fun what => what) f table (fun table =>
        match mapM read_row rows with
        | Some l => (table ++ l, Ok ())
        | None => (table, Err "cannot parse the input")
        end) in
      (table', match r with Ok _ => None | Err err => Some err end)
  end.

Definition HandleBatch (f : TxFault) (table : list Projected) (events : list Event)
    : list Projected * option string :=
  match events with
  | [] => (table, None)
  | _ => InsertEvidence f table (map projectionRow events)
  end.

(** * The backbone *)

Record World := mkWorld { bk_tables : Tables; bk_bus : Bus; bk_table : list Projected }.

Section World.
(** The text of an error, which the outbox row is marked with. *)
Context (Error : PublishError -> string).

(** What a pass of the publisher hands to the bus. *)
Definition handed (mark_failed : Z -> TxFault) (claim : TxFault) (db : Tables) (batch : Z) (owner : string)
    (at_ : Time) (reclaim : Duration) : list Event :=
  let batch := if batch <=? 0 then 500 else batch in
  let owner := if str_nonempty owner then owner else "assurance-gateway" in
  let reclaim := if 0 <? reclaim then reclaim else 2 * Minute in
  match Claim claim db batch owner at_ reclaim with
  | (db1, Ok entries) => map fst (snd (decode mark_failed db1 entries))
  | (_, Err _) => []
  end.

Definition answers (r : option (list (option PublishError))) : option (list (option string)) :=
  option_map (map (option_map Error)) r.

(** The store's own operations, a pass of the publisher, and one turn of
    [RunEvidenceConsumer]. *)
Inductive kop :=
| KEvidence (op : eop)
| KDrain (mark_failed : Z -> TxFault) (claim mark : TxFault) (batch : Z) (owner : string)
    (at_ marked_at : Time) (reclaim : Duration) (fate : nat -> Fate) (complete : bool)
| KFetch (env : FetchEnv).

Definition kstep (w : World) (op : kop) : World :=
  match op with
  | KEvidence op => mkWorld (estep (bk_tables w) op) (bk_bus w) (bk_table w)
  | KDrain mf claim mark batch owner at_ marked_at reclaim fate complete =>
      let st := bs_messages (bk_bus w) in
      mkWorld
        (fst (Drain mf claim mark (bk_tables w) batch owner at_ marked_at reclaim
                (fun es => answers (snd (PublishBatch st es fate complete)))))
        (mkBus (fst (PublishBatch st (handed mf claim (bk_tables w) batch owner at_ reclaim) fate complete))
           (bs_settled (bk_bus w)))
        (bk_table w)
  | KFetch env =>
      let '(b, table, _) := FetchBatch (HandleBatch (fe_insert env)) env (bk_bus w) (bk_table w) in
      mkWorld (bk_tables w) b table
  end.

(** Only the publisher marks a row as published. *)
Definition kop_ok (op : kop) : Prop :=
  match op with KEvidence (OPublished _ _ _) => False | _ => True end.

Definition silent_world : World := mkWorld empty_tables (mkBus [] ∅) [].

(** ** The publisher *)

Definition on_stream (st : list Message) (id : string) : Prop := exists m, m ∈ st /\ ms_ID m = id.

Lemma has_message_spec st id : has_message st id = true -> on_stream st id.
Proof.
  unfold has_message. intros (m & Hm & He)%existsb_exists. exists m. apply String.eqb_eq in He.
  by rewrite list_elem_of_In.
Qed.

Lemma on_stream_app st l id : on_stream st id -> on_stream (st ++ l) id.
Proof. intros (m & Hm & He). exists m. split; [set_solver|done]. Qed.

Lemma publish_async_grows st e fate : exists l, fst (publish_async st e fate) = st ++ l.
Proof.
  unfold publish_async, store. destruct (str_nonempty _); [exists []; by rewrite app_nil_r|].
  destruct (marshal_event e); [|exists []; by rewrite app_nil_r].
  destruct fate; [exists []; by rewrite app_nil_r..|]. destruct (_ && _); [exists []; by rewrite app_nil_r|].
  by eexists.
Qed.

Lemma publish_async_acked st e fate :
  settle (e, snd (publish_async st e fate)) = None -> on_stream (fst (publish_async st e fate)) (ev_EventID e).
Proof.
  unfold publish_async, settle, store. destruct (str_nonempty _); [done|]. destruct (marshal_event e); [|done].
  destruct fate as [| [err|] | window answer]; [done..|]. cbn. intros _.
  destruct window; cbn [andb].
  - destruct (has_message st (ev_EventID e)) eqn:E; [by apply has_message_spec|].
    eexists. split; [apply elem_of_app; right; by left | done].
  - eexists. split; [apply elem_of_app; right; by left | done].
Qed.

Lemma publish_all_grows es : forall st fate, exists l, fst (publish_all st es fate) = st ++ l.
Proof.
  induction es as [|e es IH]; intros st fate; cbn [publish_all]; [exists []; by rewrite app_nil_r|].
  destruct (publish_async st e (fate 0%nat)) as [st1 x] eqn:E.
  destruct (publish_async_grows st e (fate 0%nat)) as [l1 H1]. rewrite E in H1. cbn in H1.
  destruct (IH st1 (fun i => fate (S i))) as [l2 H2].
  destruct (publish_all st1 es _) as [st2 l]. cbn in *. exists (l1 ++ l2). by rewrite H2, H1, app_assoc.
Qed.

Lemma PublishBatch_grows st es fate complete : exists l, fst (PublishBatch st es fate complete) = st ++ l.
Proof.
  unfold PublishBatch. destruct (publish_all_grows es st fate) as [l H].
  destruct (publish_all st es fate) as [st' x]. by exists l.
Qed.

(** An event whose row is told that it was published is on the stream. *)
Lemma publish_all_acked (l : list (Event * OutboxEntry)) : forall st fate en,
  (en, None) ∈ zip (map snd l) (map (option_map Error) (map settle (snd (publish_all st (map fst l) fate)))) ->
  exists e, (e, en) ∈ l /\ on_stream (fst (publish_all st (map fst l) fate)) (ev_EventID e).
Proof.
  induction l as [|[e0 en0] l IH]; intros st fate en; cbn [map publish_all fst snd]; [by intros H%elem_of_nil|].
  destruct (publish_async st e0 (fate 0%nat)) as [st1 x] eqn:E. cbn [fst snd].
  destruct (publish_all st1 (map fst l) (fun i => fate (S i))) as [st2 r] eqn:Er. cbn [map zip fst snd].
  intros [H|H]%elem_of_cons.
  - injection H as -> Hs. exists e0. split; [by left|].
    destruct (publish_all_grows (map fst l) st1 (fun i => fate (S i))) as [more Hm]. rewrite Er in Hm. cbn in Hm.
    rewrite Hm. apply on_stream_app. change st1 with (fst (st1, x)). rewrite <- E. apply publish_async_acked.
    rewrite E. cbn. by destruct (settle (e0, x)).
  - specialize (IH st1 (fun i => fate (S i)) en). rewrite Er in IH. destruct (IH H) as (e & He & Hs).
    exists e. split; [by right | done].
Qed.

Abbreviation still marked := (extends 0 0 marked False).

Lemma still_step db op : still (marks op) db (estep db op).
Proof. eapply extends_weaken; [| |apply estep_extends]; done. Qed.

Lemma decode_still mf entries : forall db, still [] db (fst (decode mf db entries)).
Proof.
  induction entries as [|en entries IH]; intros db; cbn [decode]; [apply extends_refl|].
  destruct (unmarshal_event (en_Payload en)).
  - specialize (IH db). by destruct (decode mf db entries).
  - eapply extends_trans; [|apply IH]. apply (still_step db (OFailed _ _ _ _)).
Qed.

Lemma decode_decodes mf entries : forall db e en,
  (e, en) ∈ snd (decode mf db entries) -> en ∈ entries /\ unmarshal_event (en_Payload en) = Some e.
Proof.
  induction entries as [|en0 entries IH]; intros db e en; cbn [decode]; [by intros H%elem_of_nil|].
  destruct (unmarshal_event (en_Payload en0)) as [e0|] eqn:E.
  - specialize (IH db e en). destruct (decode mf db entries) as [db' l]. cbn in *.
    intros [[= -> ->]|H]%elem_of_cons; [split; [by left | done]|]. destruct (IH H). split; [by right | done].
  - intros H. destruct (IH _ _ _ H). split; [by right | done].
Qed.

Lemma acknowledge_still mf l : forall db, still [] db (fst (acknowledge mf db l)).
Proof.
  induction l as [|[en [reason|]] l IH]; intros db; cbn [acknowledge]; [apply extends_refl | |].
  - eapply extends_trans; [|apply IH]. apply (still_step db (OFailed _ _ _ _)).
  - specialize (IH db). by destruct (acknowledge mf db l).
Qed.

Lemma acknowledge_ids mf l : forall db id,
  id ∈ snd (acknowledge mf db l) -> exists en, (en, None) ∈ l /\ id = en_OutboxID en.
Proof.
  induction l as [|[en [reason|]] l IH]; intros db id; cbn [acknowledge]; [by intros H%elem_of_nil | |].
  - intros H. destruct (IH _ _ H) as (en' & He & ->). exists en'. split; [by right | done].
  - specialize (IH db). destruct (acknowledge mf db l) as [db' ids]. cbn in *.
    intros [->|H]%elem_of_cons; [exists en; split; [by left | done]|].
    destruct (IH _ H) as (en' & He & ->). exists en'. split; [by right | done].
Qed.

Lemma Claim_entries f db n owner t r db' es en :
  Claim f db n owner t r = (db', Ok es) -> en ∈ es ->
  exists o, outbox db !! en_OutboxID en = Some o /\ en_Payload en = o_payload o.
Proof.
  intros H Hin. unfold Claim in H. apply transaction_ok in H as [_ H]. injection H as _ <-.
  apply list_elem_of_fmap in Hin as (x & -> & Hx). apply to_claim_in in Hx as [Hx _].
  exists (snd x). by split.
Qed.

(** A row owed to the bus before a pass of the publisher is owed afterwards, or its event
    is on the stream. *)
Definition accounted (db : Tables) (st : list Message) (id : Z) (o : OutboxRow) : Prop :=
  (exists o', outbox db !! id = Some o' /\ o_published_at o' = None /\ same_message o o') \/
  (forall e, unmarshal_event (o_payload o) = Some e -> on_stream st (ev_EventID e)).

Lemma marked_accounted db db' st ids id o :
  still ids db db' -> numbered db -> outbox db !! id = Some o -> o_published_at o = None ->
  (id ∈ ids -> forall e, unmarshal_event (o_payload o) = Some e -> on_stream st (ev_EventID e)) ->
  accounted db' st id o.
Proof.
  intros Hs Hn Ho Hp Hon. destruct (decide (id ∈ ids)) as [Hin|Hin]; [right; auto|].
  left. by apply (ex_owed _ _ _ _ _ _ Hs Hn).
Qed.

Lemma kdrain_accounts w mf claim mark batch owner at_ marked_at reclaim fate complete :
  let w' := kstep w (KDrain mf claim mark batch owner at_ marked_at reclaim fate complete) in
  (numbered (bk_tables w) -> numbered (bk_tables w')) /\
  (numbered (bk_tables w) ->
   forall id o, outbox (bk_tables w) !! id = Some o -> o_published_at o = None ->
   accounted (bk_tables w') (bs_messages (bk_bus w')) id o).
Proof.
  cbn [kstep bk_tables bk_bus bs_messages]. unfold Drain, handed. set (db := bk_tables w).
  set (st := bs_messages (bk_bus w)). set (batch1 := if batch <=? 0 then 500 else batch).
  set (owner1 := if str_nonempty owner then _ else _). set (reclaim1 := if 0 <? reclaim then _ else _).
  assert (forall db', still [] db db' ->
    (numbered db -> numbered db') /\
    (numbered db -> forall id o, outbox db !! id = Some o -> o_published_at o = None ->
       forall st', accounted db' st' id o)) as Hquiet.
  { intros db' Hs. split; [apply (ex_numbered _ _ _ _ _ _ Hs)|]. intros Hn id o Ho Hp st'. left.
    apply (ex_owed _ _ _ _ _ _ Hs Hn id o Ho Hp). set_solver. }
  destruct (Claim claim db batch1 owner1 at_ reclaim1) as [db1 [entries|]] eqn:Ec.
  2: { pose proof (still_step db (OClaim claim batch1 owner1 at_ reclaim1)) as Hs. cbn [estep marks] in Hs.
       rewrite Ec in Hs. destruct (Hquiet _ Hs) as [H1 H2]. split; [exact H1|]. intros. by apply H2. }
  assert (still [] db db1) as Hs1.
  { pose proof (still_step db (OClaim claim batch1 owner1 at_ reclaim1)) as Hs. cbn [estep marks] in Hs.
    by rewrite Ec in Hs. }
  pose proof (decode_still mf entries db1) as Hs2. pose proof (decode_decodes mf entries db1) as Hd.
  destruct (decode mf db1 entries) as [db2 decoded]. cbn [fst snd] in Hs2, Hd |- *.
  pose proof (extends_trans _ _ _ _ _ _ _ Hs1 Hs2) as Hs12.
  destruct (Hquiet _ Hs12) as [Hq1 Hq2].
  destruct decoded as [|x decoded]; [split; [exact Hq1|]; intros; by apply Hq2|].
  unfold answers, PublishBatch. pose proof (publish_all_acked (x :: decoded) st fate) as Ha.
  destruct (publish_all st (map fst (x :: decoded)) fate) as [st' r] eqn:Ep. cbn [fst snd] in Ha |- *.
  destruct complete; cbn [option_map]; [|split; [exact Hq1|]; intros; by apply Hq2].
  set (l := zip (map snd (x :: decoded)) _) in *.
  pose proof (acknowledge_still mf l db2) as Hs3. pose proof (acknowledge_ids mf l db2) as Hid.
  destruct (acknowledge mf db2 l) as [db3 ids]. cbn [fst snd] in Hs3, Hid.
  pose proof (extends_trans _ _ _ _ _ _ _ Hs12 Hs3) as Hs123.
  pose proof (still_step db3 (OPublished mark ids marked_at)) as Hs4. cbn [estep marks] in Hs4.
  assert (still ids db (fst (MarkPublishedBatch mark db3 ids marked_at))) as Hs.
  { eapply extends_trans; [|exact Hs4]. eapply extends_weaken; [| |exact Hs123]; [set_solver | done]. }
  assert (forall n : Z, (numbered db -> numbered (fst (fst (MarkPublishedBatch mark db3 ids marked_at), n))) /\
    (numbered db -> forall id o, outbox db !! id = Some o -> o_published_at o = None ->
       accounted (fst (fst (MarkPublishedBatch mark db3 ids marked_at), n)) st' id o)) as Hend.
  { intros n. split; [apply (ex_numbered _ _ _ _ _ _ Hs)|]. intros Hn id o Ho Hp. cbn [fst].
    apply (marked_accounted db _ st' ids id o Hs Hn Ho Hp). intros Hin e He.
    destruct (Hid id Hin) as (en & Hen & ->). destruct (Ha en Hen) as (e' & He' & Hon).
    destruct (Hd _ _ He') as [Hent Hu].
    destruct (Claim_entries _ _ _ _ _ _ _ _ _ Ec Hent) as (o' & Ho' & Hpay).
    rewrite Ho in Ho'. injection Ho' as <-. rewrite Hpay, He in Hu. by injection Hu as ->. }
  destruct (MarkPublishedBatch mark db3 ids marked_at) as [db4 [u|err]]; apply Hend.
Qed.

(** ** The consumer *)

(** Message [i] is accounted for in the table: it is no event, or its event is a row. *)
Definition projected_in (st : list Message) (table : list Projected) (i : nat) : Prop :=
  exists m, st !! i = Some m /\
    (unmarshal_event (ms_Data m) = None \/
     exists e, unmarshal_event (ms_Data m) = Some e /\ legible e = true /\ projected e ∈ table).

(** What is settled is accounted for, and every row is what a message says. *)
Record faithful (b : Bus) (table : list Projected) : Prop := {
  ff_settled : forall i, i ∈ bs_settled b -> projected_in (bs_messages b) table i;
  ff_table : forall p, p ∈ table -> exists m e, m ∈ bs_messages b /\
    unmarshal_event (ms_Data m) = Some e /\ legible e = true /\ p = projected e
}.

Lemma projected_in_grows st l table table' i :
  (forall p, p ∈ table -> p ∈ table') -> projected_in st table i -> projected_in (st ++ l) table' i.
Proof.
  intros Hsub (m & Hm & H). exists m. split; [by apply lookup_app_l_Some|].
  destruct H as [H|(e & He & Hl & Hp)]; [by left | right; exists e; auto].
Qed.

Lemma faithful_grows b l table :
  faithful b table -> faithful (mkBus (bs_messages b ++ l) (bs_settled b)) table.
Proof.
  intros [H1 H2]. constructor; cbn [bs_messages bs_settled].
  - intros i Hi. apply (projected_in_grows _ _ table); auto.
  - intros p Hp. destruct (H2 p Hp) as (m & e & Hm & He). exists m, e. split; [set_solver|done].
Qed.

Lemma map_elem {A B} (f : A -> B) l x : x ∈ l -> f x ∈ map f l.
Proof. rewrite !list_elem_of_In. apply in_map. Qed.

Lemma sort_out_spec l : forall b,
  let '(b', events, _) := sort_out b l in
  bs_messages b' = bs_messages b /\
  (forall i, i ∈ bs_settled b' -> i ∈ bs_settled b \/
     exists m, bs_messages b !! i = Some m /\ unmarshal_event (ms_Data m) = None) /\
  (forall d e, (d, e) ∈ events -> d ∈ l /\
     exists m, bs_messages b !! dl_seq d = Some m /\ unmarshal_event (ms_Data m) = Some e).
Proof.
  induction l as [|d l IH]; intros b; cbn [sort_out].
  { split_and!; [done | auto | by intros ? ? ?%elem_of_nil]. }
  assert (let '(b', events, _) := sort_out b l in
    bs_messages b' = bs_messages b /\
    (forall i, i ∈ bs_settled b' -> i ∈ bs_settled b \/
       exists m, bs_messages b !! i = Some m /\ unmarshal_event (ms_Data m) = None) /\
    (forall d' e, (d', e) ∈ events -> d' ∈ d :: l /\
       exists m, bs_messages b !! dl_seq d' = Some m /\ unmarshal_event (ms_Data m) = Some e)) as Hskip.
  { specialize (IH b). destruct (sort_out b l) as [[b' events] poison]. destruct IH as (IH1 & IH2 & IH3).
    split_and!; [done..|]. intros d' e H. destruct (IH3 d' e H). split; [by right | done]. }
  unfold deliverable. destruct (bool_decide _); [exact Hskip|].
  destruct (bs_messages b !! dl_seq d) as [m|] eqn:Em; [|exact Hskip].
  destruct (unmarshal_event (ms_Data m)) as [e|] eqn:Eu.
  - destruct (sort_out b l) as [[b' events] poison]. destruct Hskip as (IH1 & IH2 & IH3).
    split_and!; [done..|]. intros d' e' [[= -> ->]|H]%elem_of_cons; [split; [by left | by exists m] | by apply IH3].
  - clear Hskip. specialize (IH (if dl_term d then settled b d else b)).
    destruct (sort_out _ l) as [[b' events] poison]. destruct IH as (IH1 & IH2 & IH3).
    assert (bs_messages (if dl_term d then settled b d else b) = bs_messages b) as Hm by (by destruct (dl_term d)).
    rewrite Hm in *. split_and!; [done | | intros d' e H; destruct (IH3 d' e H); split; [by right | done]].
    intros i Hi. destruct (IH2 i Hi) as [H|H]; [|by right].
    destruct (dl_term d); [|by left]. cbn in H. apply elem_of_union in H as [H%elem_of_singleton|H]; [|by left].
    subst i. right. by exists m.
Qed.

Lemma ack_all_spec l : forall b,
  let '(b', _, _) := ack_all b l in
  bs_messages b' = bs_messages b /\
  forall i, i ∈ bs_settled b' -> i ∈ bs_settled b \/ exists d, d ∈ l /\ i = dl_seq d.
Proof.
  induction l as [|d l IH]; intros b; cbn [ack_all]; [auto|].
  assert (forall b1, bs_messages b1 = bs_messages b ->
    (forall i, i ∈ bs_settled b1 -> i ∈ bs_settled b \/ i = dl_seq d) ->
    let '(b', _, _) := (let '(b', n, done) := ack_all b1 l in (b', n + 1, done)) in
    bs_messages b' = bs_messages b /\
    forall i, i ∈ bs_settled b' -> i ∈ bs_settled b \/ exists d0, d0 ∈ d :: l /\ i = dl_seq d0) as Hrest.
  { intros b1 Hm Hs. specialize (IH b1). destruct (ack_all b1 l) as [[b' n] done]. destruct IH as [IH1 IH2].
    split; [congruence|]. intros i Hi. destruct (IH2 i Hi) as [H|(d' & Hd & ->)].
    - destruct (Hs i H) as [H1| ->]; [by left|]. right. exists d. split; [by left | done].
    - right. exists d'. split; [by right | done]. }
  destruct (dl_ack d); [apply Hrest; [done|] | apply Hrest; [done|]; auto | auto].
  cbn. intros i [H%elem_of_singleton|H]%elem_of_union; auto.
Qed.

Lemma read_rows (es : list Event) :
  mapM read_row (map projectionRow es) = if forallb legible es then Some (map projected es) else None.
Proof.
  induction es as [|e es IH]; [done|]. cbn [map mapM forallb]. rewrite read_projectionRow.
  destruct (legible e); [|done]. cbn [mbind option_bind andb]. rewrite IH. by destruct (forallb legible es).
Qed.

(** The insert of a batch appends its rows or nothing, and an answer means that it did. *)
Lemma HandleBatch_spec f table es table' r :
  HandleBatch f table es = (table', r) ->
  (table' = table /\ (r = None -> es = [])) \/
  (table' = table ++ map projected es /\ forallb legible es = true).
Proof.
  unfold HandleBatch. destruct es as [|e es]; [intros [= <- <-]; by left|].
  unfold InsertEvidence. cbn [map]. change (projectionRow e :: map projectionRow es) with (map projectionRow (e :: es)).
  unfold transaction. rewrite read_rows.
  destruct f; destruct (forallb legible (e :: es)); intros [= <- <-]; auto; left; done.
Qed.

(** What a fetch has terminated is no event, and what it has received is on the stream. *)
Record sorted (b b1 : Bus) (received : list (Delivery * Event)) : Prop := {
  so_messages : bs_messages b1 = bs_messages b;
  so_settled : forall i, i ∈ bs_settled b1 -> i ∈ bs_settled b \/
    exists m, bs_messages b !! i = Some m /\ unmarshal_event (ms_Data m) = None;
  so_received : forall d e, (d, e) ∈ received -> exists m, bs_messages b !! dl_seq d = Some m /\
    unmarshal_event (ms_Data m) = Some e
}.

Lemma sorted_faithful b b1 received table :
  sorted b b1 received -> faithful b table -> faithful b1 table.
Proof.
  intros [Hm Hs _] [F1 F2]. constructor; rewrite Hm; [|done]. intros i Hi.
  destruct (Hs i Hi) as [H|(m & Hm' & Hu)]; [auto|]. exists m. auto.
Qed.

Lemma rows_faithful b b1 received table :
  sorted b b1 received -> faithful b1 table -> forallb legible (map snd received) = true ->
  faithful b1 (table ++ map projected (map snd received)).
Proof.
  intros [Hm _ Hr] [F1 F2] Hl. constructor.
  - intros i Hi. rewrite <- (app_nil_r (bs_messages b1)). apply (projected_in_grows _ _ table); [set_solver | auto].
  - intros p [H|H]%elem_of_app; [auto|]. apply list_elem_of_fmap in H as (e & -> & H).
    assert (legible e = true) as He by (rewrite forallb_forall in Hl; by apply Hl, list_elem_of_In).
    apply list_elem_of_fmap in H as ([d e'] & -> & Hd). destruct (Hr d e' Hd) as (m & Hm' & Hu).
    exists m, e'. rewrite Hm. split_and!; [by eapply list_elem_of_lookup_2 | done..].
Qed.

Lemma acked_faithful b b1 received table :
  sorted b b1 received -> faithful b1 (table ++ map projected (map snd received)) ->
  forallb legible (map snd received) = true ->
  let '(b2, _, _) := ack_all b1 (map fst received) in
  faithful b2 (table ++ map projected (map snd received)).
Proof.
  intros [Hm _ Hr] [F1 F2] Hl. pose proof (ack_all_spec (map fst received) b1) as Ha.
  destruct (ack_all b1 _) as [[b2 n] fin]. destruct Ha as [Ha1 Ha2]. constructor; rewrite Ha1; [|done].
  intros i Hi. destruct (Ha2 i Hi) as [H|(d & Hd & ->)]; [auto|].
  apply list_elem_of_fmap in Hd as ([d' e] & -> & Hd). destruct (Hr _ _ Hd) as (m & Hm' & Hu).
  rewrite Hm. exists m. split; [done|]. right. exists e. split_and!; [done | |].
  - rewrite forallb_forall in Hl. apply Hl, list_elem_of_In, (map_elem snd _ _ Hd).
  - apply elem_of_app. right. exact (map_elem projected (map snd received) e (map_elem snd _ _ Hd)).
Qed.

Lemma FetchBatch_faithful env b table b' table' r :
  FetchBatch (HandleBatch (fe_insert env)) env b table = (b', table', r) ->
  faithful b table -> faithful b' table'.
Proof.
  intros H F. unfold FetchBatch in H. destruct (fe_refused env); [by injection H as <- <- <-|].
  pose proof (sort_out_spec (fe_delivered env) b) as Hs.
  destruct (sort_out b (fe_delivered env)) as [[b1 received] poison]. destruct Hs as (Hm & Hs & Hr).
  assert (sorted b b1 received) as So by (constructor; [done | done | intros d e Hd; by apply Hr]).
  pose proof (sorted_faithful _ _ _ _ So F) as F1.
  destruct received as [|x received]; [by destruct (fe_error env); injection H as <- <- <-|].
  destruct (HandleBatch _ _ _) as [rows [er|]] eqn:Eh; apply HandleBatch_spec in Eh.
  - assert (b' = b1 /\ table' = rows) as [-> ->] by by destruct (fe_error env); injection H as <- <- <-.
    destruct Eh as [[-> _]|[-> Hl]]; [done | by apply (rows_faithful b)].
  - destruct Eh as [[_ Eh]|[-> Hl]]; [by specialize (Eh eq_refl)|].
    pose proof (acked_faithful _ _ _ _ So (rows_faithful _ _ _ _ So F1 Hl) Hl) as Fa.
    destruct (ack_all b1 _) as [[b2 n] fin]. by destruct (fe_error env); injection H as <- <- <-.
Qed.

(** ** Histories *)

Lemma kstep_messages w op : exists l, bs_messages (bk_bus (kstep w op)) = bs_messages (bk_bus w) ++ l.
Proof.
  destruct op as [op| mf claim mark batch owner at_ marked_at reclaim fate complete |env]; cbn [kstep bk_bus].
  - exists []. by rewrite app_nil_r.
  - apply PublishBatch_grows.
  - destruct (FetchBatch _ env _ _) as [[b table] r] eqn:E. cbn [bk_bus]. exists []. rewrite app_nil_r.
    unfold FetchBatch in E. destruct (fe_refused env); [by injection E as <- <- <-|].
    pose proof (sort_out_spec (fe_delivered env) (bk_bus w)) as Hs.
    destruct (sort_out _ _) as [[b1 received] poison]. destruct Hs as (Hm & _).
    destruct received as [|x received]; [by destruct (fe_error env); injection E as <- <- <-|].
    pose proof (ack_all_spec (map fst (x :: received)) b1) as Ha.
    destruct (HandleBatch _ _ _) as [rows [er|]]; [by destruct (fe_error env); injection E as <- <- <-|].
    destruct (ack_all b1 _) as [[b2 n] fin]. destruct Ha as [Ha _].
    destruct (fe_error env); injection E as <- <- <-; congruence.
Qed.

Lemma kstep_faithful w op :
  faithful (bk_bus w) (bk_table w) -> faithful (bk_bus (kstep w op)) (bk_table (kstep w op)).
Proof.
  intros H. destruct op as [op| mf claim mark batch owner at_ marked_at reclaim fate complete |env]; cbn [kstep].
  - done.
  - cbn [bk_bus bk_table]. destruct (PublishBatch_grows (bs_messages (bk_bus w))
      (handed mf claim (bk_tables w) batch owner at_ reclaim) fate complete) as [l ->]. by apply faithful_grows.
  - destruct (FetchBatch _ env _ _) as [[b table] r] eqn:E. cbn [bk_bus bk_table].
    by apply (FetchBatch_faithful _ _ _ _ _ _ E).
Qed.

Lemma kstep_numbered w op : numbered (bk_tables w) -> numbered (bk_tables (kstep w op)).
Proof.
  destruct op as [op| mf claim mark batch owner at_ marked_at reclaim fate complete |env].
  - apply (ex_numbered _ _ _ _ _ _ (still_step (bk_tables w) op)).
  - apply kdrain_accounts.
  - cbn [kstep]. by destruct (FetchBatch _ env _ _) as [[b table] r].
Qed.

Lemma kstep_accounts w op id o :
  kop_ok op -> numbered (bk_tables w) ->
  accounted (bk_tables w) (bs_messages (bk_bus w)) id o ->
  accounted (bk_tables (kstep w op)) (bs_messages (bk_bus (kstep w op))) id o.
Proof.
  intros Hok Hn [(o1 & Ho & Hp & Hs)|H].
  2: { right. intros e He. destruct (kstep_messages w op) as [l ->]. by apply on_stream_app, H. }
  assert (accounted (bk_tables (kstep w op)) (bs_messages (bk_bus (kstep w op))) id o1) as Ha.
  { destruct op as [op| mf claim mark batch owner at_ marked_at reclaim fate complete |env].
    - left. assert (marks op = []) as Hmk by by destruct op.
      pose proof (still_step (bk_tables w) op) as Hst. rewrite Hmk in Hst.
      apply (ex_owed _ _ _ _ _ _ Hst Hn id o1 Ho Hp). set_solver.
    - by apply kdrain_accounts.
    - left. exists o1. cbn [kstep]. destruct (FetchBatch _ env _ _) as [[b table] r]. done. }
  destruct Ha as [(o2 & Ho2 & Hp2 & Hs2)|Ha].
  - left. exists o2. split_and!; [done..|]. by eapply same_message_trans.
  - right. destruct Hs as (_ & _ & _ & Hpay). by rewrite <- Hpay.
Qed.

(** C10: Evidence is not lost on its way to the analytical store.  Over any history of the
    store's operations, passes of the publisher and turns of the consumer, with a database,
    a stream and an analytical store that fail and lose answers in any way: a row owed to
    the bus is owed later, with its content, or a message with its event's identifier is on
    the stream; what the consumer has acknowledged or terminated is no event, or its row is
    in the table; and every row of the table is what an event on the stream says. *)
Theorem evidence_reaches_the_projection (ops1 ops2 : list kop) :
  Forall kop_ok ops2 ->
  let w1 := run_ops kstep silent_world ops1 in
  let w2 := run_ops kstep w1 ops2 in
  (forall id o, outbox (bk_tables w1) !! id = Some o -> o_published_at o = None ->
     accounted (bk_tables w2) (bs_messages (bk_bus w2)) id o) /\
  (forall i, i ∈ bs_settled (bk_bus w2) -> projected_in (bs_messages (bk_bus w2)) (bk_table w2) i) /\
  (forall p, p ∈ bk_table w2 -> exists m e, m ∈ bs_messages (bk_bus w2) /\
     unmarshal_event (ms_Data m) = Some e /\ p = projected e).
Proof.
  intros Hok w1 w2.
  assert (forall ops w, numbered (bk_tables w) /\ faithful (bk_bus w) (bk_table w) ->
    numbered (bk_tables (run_ops kstep w ops)) /\
    faithful (bk_bus (run_ops kstep w ops)) (bk_table (run_ops kstep w ops))) as Hinv.
  { intros ops. apply (run_ops_invariant kstep (fun w => numbered (bk_tables w) /\ faithful (bk_bus w) (bk_table w))).
    intros w op [H1 H2]. split; [by apply kstep_numbered | by apply kstep_faithful]. }
  destruct (Hinv ops1 silent_world) as [Hn Hf].
  { split; [|constructor; [set_solver | by intros p Hp%elem_of_nil]].
    intros id o Ho. cbn in Ho. by rewrite lookup_empty in Ho. }
  destruct (Hinv ops2 w1 (conj Hn Hf)) as [_ [Hset Htab]]. fold w2 in Hset, Htab. split_and!.
  - intros id o Ho Hp. assert (accounted (bk_tables w1) (bs_messages (bk_bus w1)) id o) as Ha.
    { left. by exists o. }
    clear Hf Hset Htab Ho Hp. fold w1 in Hn. subst w2. clearbody w1. revert w1 Hn Ha.
    induction Hok as [|op ops Hop _ IH]; intros w1 Hn Ha; [done|].
    apply IH; [by apply kstep_numbered | by apply kstep_accounts].
  - exact Hset.
  - intros p Hp. destruct (Htab p Hp) as (m & e & Hm & Hu & _ & ->). by exists m, e.
Qed.

(** ** Fetches *)

Lemma sort_out_received l : forall b d m e,
  d ∈ l -> deliverable b d = Some m -> unmarshal_event (ms_Data m) = Some e ->
  (d, e) ∈ snd (fst (sort_out b l)).
Proof.
  induction l as [|d0 l IH]; intros b d m e; [by intros H%elem_of_nil|]. cbn [sort_out].
  intros [->|Hd]%elem_of_cons Hm He.
  - rewrite Hm, He. destruct (sort_out b l) as [[b' events] poison]. by left.
  - destruct (deliverable b d0) as [m0|] eqn:E0; [|by eapply IH].
    destruct (unmarshal_event (ms_Data m0)) as [e0|] eqn:Eu.
    + specialize (IH b d m e Hd Hm He). destruct (sort_out b l) as [[b' events] poison]. by right.
    + assert (deliverable (if dl_term d0 then settled b d0 else b) d = Some m) as Hm'.
      { destruct (dl_term d0); [|done]. unfold deliverable in *. cbn [settled bs_settled bs_messages].
        destruct (bool_decide_reflect (dl_seq d ∈ bs_settled b)); [done|]. rewrite bool_decide_eq_false_2; [done|].
        intros [Heq%elem_of_singleton|]%elem_of_union; [|done].
        destruct (bool_decide _) in E0; [done|]. rewrite <- Heq, Hm in E0. injection E0 as ->. congruence. }
      specialize (IH _ d m e Hd Hm' He). by destruct (sort_out _ l) as [[b' events] poison].
Qed.

(** One event whose row is not JSON keeps every event of its fetch out of the table, and
    leaves all of them to be delivered again. *)
Theorem illegible_event_stops_its_batch (env : FetchEnv) (b : Bus) (table : list Projected) (d : Delivery)
    (m : Message) (e : Event) :
  d ∈ fe_delivered env -> deliverable b d = Some m -> unmarshal_event (ms_Data m) = Some e -> legible e = false ->
  let '(b', table', _) := FetchBatch (HandleBatch (fe_insert env)) env b table in
  table' = table /\
  forall i m' e', bs_messages b !! i = Some m' -> unmarshal_event (ms_Data m') = Some e' ->
    i ∉ bs_settled b -> i ∉ bs_settled b'.
Proof.
  intros Hd Hm He Hl. unfold FetchBatch. destruct (fe_refused env); [auto|].
  pose proof (sort_out_received _ _ _ _ _ Hd Hm He) as Hin.
  pose proof (sort_out_spec (fe_delivered env) b) as Hs.
  destruct (sort_out b (fe_delivered env)) as [[b1 received] poison]. cbn in Hin. destruct Hs as (_ & Hs & _).
  assert (forall i m' e', bs_messages b !! i = Some m' -> unmarshal_event (ms_Data m') = Some e' ->
    i ∉ bs_settled b -> i ∉ bs_settled b1) as Hq.
  { intros i m' e' Hm' He' Hi [H|(m1 & Hm1 & Hu)]%Hs; [done|congruence]. }
  destruct received as [|x received]; [by apply elem_of_nil in Hin|].
  assert (forallb legible (map snd (x :: received)) = false) as Hbad.
  { apply not_true_is_false. rewrite forallb_forall. intros H.
    assert (legible e = true) by (apply H, list_elem_of_In, (map_elem snd _ _ Hin)). congruence. }
  destruct (HandleBatch (fe_insert env) table (map snd (x :: received))) as [rows [er|]] eqn:Eh.
  - apply HandleBatch_spec in Eh as [[-> _]|[_ Eh]]; [by destruct (fe_error env) | congruence].
  - apply HandleBatch_spec in Eh as [[_ Eh]|[_ Eh]]; [by specialize (Eh eq_refl) | congruence].
Qed.

(** A fetch that ends in an error and brings only unparseable messages terminates them
    without a report. *)
Theorem terminated_in_silence (env : FetchEnv) (b : Bus) (table : list Projected) (d : Delivery) (m : Message)
    (err : string) :
  fe_refused env = None -> fe_error env = Some err -> fe_delivered env = [d] -> dl_term d = true ->
  deliverable b d = Some m -> unmarshal_event (ms_Data m) = None ->
  FetchBatch (HandleBatch (fe_insert env)) env b table = (settled b d, table, mkFetched 0 (Some err) 0).
Proof.
  intros H1 H2 H3 H4 H5 H6. unfold FetchBatch. rewrite H1, H2, H3. cbn [sort_out]. by rewrite H5, H6, H4.
Qed.

Lemma ack_all_done l : forall b,
  (forall d, d ∈ l -> dl_ack d = AckDone) ->
  let '(b', _, fin) := ack_all b l in
  fin = true /\ (forall i, i ∈ bs_settled b -> i ∈ bs_settled b') /\ forall d, d ∈ l -> dl_seq d ∈ bs_settled b'.
Proof.
  induction l as [|d l IH]; intros b Hl; cbn [ack_all].
  { split_and!; [done | done | by intros d Hd%elem_of_nil]. }
  rewrite (Hl d) by (by left). specialize (IH (settled b d) (fun d' H => Hl d' (list_elem_of_further _ _ _ H))).
  destruct (ack_all (settled b d) l) as [[b' n] fin]. destruct IH as (IH1 & IH2 & IH3).
  split_and!; [done | intros i Hi; apply IH2; cbn; set_solver |].
  intros d' [->|Hd]%elem_of_cons; [apply IH2; cbn; set_solver | by apply IH3].
Qed.

(** C30: A calm turn of the consumer catches up.  A fetch the server answers, whose events
    are legible, whose insert succeeds and whose acknowledgements arrive, puts the row of
    every event it delivers into the table and leaves none of them to be delivered again,
    whatever unparseable messages lie between them. *)
Theorem calm_fetch_projects (env : FetchEnv) (b b' : Bus) (table table' : list Projected) (r : Fetched) :
  fe_refused env = None -> fe_insert env = Fine ->
  (forall d, d ∈ fe_delivered env -> dl_ack d = AckDone) ->
  (forall d m e, d ∈ fe_delivered env -> bs_messages b !! dl_seq d = Some m ->
     unmarshal_event (ms_Data m) = Some e -> legible e = true) ->
  FetchBatch (HandleBatch (fe_insert env)) env b table = (b', table', r) ->
  forall d m e, d ∈ fe_delivered env -> deliverable b d = Some m -> unmarshal_event (ms_Data m) = Some e ->
  projected e ∈ table' /\ dl_seq d ∈ bs_settled b'.
Proof.
  intros H1 H2 Hack Hleg H d m e Hd Hm He. unfold FetchBatch in H. rewrite H1, H2 in H.
  pose proof (sort_out_received _ _ _ _ _ Hd Hm He) as Hin.
  pose proof (sort_out_spec (fe_delivered env) b) as Hs.
  destruct (sort_out b (fe_delivered env)) as [[b1 received] poison]. cbn in Hin. destruct Hs as (_ & _ & Hr).
  destruct received as [|x received]; [by apply elem_of_nil in Hin|].
  pose proof (ack_all_done (map fst (x :: received)) b1) as Ha.
  destruct (HandleBatch Fine table (map snd (x :: received))) as [rows [er|]] eqn:Eh.
  - exfalso. unfold HandleBatch, InsertEvidence, transaction in Eh. cbn [map] in Eh.
    change (projectionRow (snd x) :: map projectionRow (map snd received))
      with (map projectionRow (map snd (x :: received))) in Eh. rewrite read_rows in Eh.
    assert (forallb legible (map snd (x :: received)) = true) as Hl; [|by rewrite Hl in Eh].
    apply forallb_forall. intros e0 ([d0 e1] & -> & Hd0)%list_elem_of_In%list_elem_of_fmap.
    destruct (Hr _ _ Hd0) as (Hd0' & m0 & Hm0 & Hu0). by eapply Hleg.
  - apply HandleBatch_spec in Eh as [[_ Eh]|[-> _]]; [by specialize (Eh eq_refl)|].
    destruct (ack_all b1 _) as [[b2 n] fin]. destruct Ha as (_ & _ & Ha).
    { intros d0 ([d1 e1] & -> & Hd1)%list_elem_of_fmap. apply Hack. by destruct (Hr _ _ Hd1). }
    assert (b' = b2 /\ table' = table ++ map projected (map snd (x :: received))) as [-> ->].
    { by destruct (fe_error env); injection H as <- <- <-. }
    split; [|exact (Ha _ (map_elem fst _ _ Hin))]. apply elem_of_app. right.
    exact (map_elem projected (map snd (x :: received)) e (map_elem snd _ _ Hin)).
Qed.

(** The table of events admits two with one identifier at two times, and the outbox queues
    the first alone: the second is recorded, and nothing is owed for it. *)
Theorem repeated_identifier_is_not_queued (f : TxFault) (now : Time) (db db' : Tables) (e : Event) :
  Append f now db e = (db', Ok true) -> queued db (ev_EventID e) = true ->
  events db !! event_key e = None /\ is_Some (events db' !! event_key e) /\ outbox db' = outbox db.
Proof.
  intros H Hq. pose proof (Append_ok _ _ _ _ _ _ H) as (_ & -> & _ & payload & Hp & Hrow & Ho).
  destruct Ho as [[Ho _]|(_ & Hnone & Hev & _)]; [done|]. split_and!; [done | rewrite Hev, lookup_insert_eq; by eexists |].
  unfold Append, withTenant in H. destruct (str_nonempty (Validate e)); [done|]. rewrite Hp in H.
  destruct (String.eqb (ev_TenantID e) ""); [done|]. apply transaction_ok in H as [_ H].
  unfold insert_event in H. fold (row_of e payload) in H. rewrite Hrow in H. fold (event_key e) in H.
  rewrite Hnone in H. cbn [negb in_tx enqueue] in H. destruct (marshal_event e) as [raw|]; [|done].
  unfold insert_outbox in H. rewrite String.eqb_refl in H. cbn [negb] in H. unfold queued in H, Hq. cbn [outbox] in H.
  rewrite Hq in H. cbn [in_tx] in H. by injection H as <-.
Qed.

(** ** The store as a consumer *)

(** What is settled is no event, or is recorded in the store. *)
Definition recorded_in (b : Bus) (db : Tables) : Prop :=
  forall i, i ∈ bs_settled b -> exists m, bs_messages b !! i = Some m /\
    (unmarshal_event (ms_Data m) = None \/
     exists e, unmarshal_event (ms_Data m) = Some e /\ is_Some (events db !! event_key e)).

Lemma recorded_in_settled b db d m :
  recorded_in b db -> bs_messages b !! dl_seq d = Some m ->
  (unmarshal_event (ms_Data m) = None \/
   exists e, unmarshal_event (ms_Data m) = Some e /\ is_Some (events db !! event_key e)) ->
  recorded_in (settled b d) db.
Proof.
  intros H Hm He i Hi. cbn in Hi. apply elem_of_union in Hi as [Hi%elem_of_singleton|Hi]; [|by apply H].
  subst i. by exists m.
Qed.

Lemma recorded_in_grows b db db' : recorded_in b db -> events db ⊆ events db' -> recorded_in b db'.
Proof.
  intros H Hsub i Hi. destruct (H i Hi) as (m & Hm & Hu). exists m. split; [done|].
  destruct Hu as [Hu|(e & He & [r Hr])]; [by left|]. right. exists e. split; [done|]. exists r.
  by eapply lookup_weaken.
Qed.

Lemma StoreHandler_records fault d db e db' r :
  StoreHandler fault d db e = (db', r) ->
  events db ⊆ events db' /\ (r = None -> is_Some (events db' !! event_key e)).
Proof.
  unfold StoreHandler. pose proof (ex_events _ _ _ _ _ _ (AppendConsumed_extends 0 0 [] False (fault d) db e)) as Hs.
  destruct (AppendConsumed (fault d) db e) as [db1 [x|er]] eqn:E; intros [= <- <-]; cbn in Hs; (split; [done|]);
    [intros _|done].
  unfold AppendConsumed, withTenant in E. destruct (str_nonempty _); [done|].
  destruct (payload_column e) as [payload|]; [|done]. destruct (String.eqb _ _); [done|].
  apply transaction_ok in E as [_ E]. destruct (insert_event _ _ _ _ _) as [[db2 b]|] eqn:Ei; [|done].
  cbn in E. injection E as <- <-. by eapply insert_event_recorded.
Qed.

(** Through [Fetch] the store acknowledges what it has recorded, and nothing else. *)
Theorem store_records_before_it_acknowledges (fault : Delivery -> TxFault) (env : FetchEnv) (b b' : Bus)
    (db db' : Tables) (n : Z) (err : option string) :
  recorded_in b db -> Fetch (StoreHandler fault) env b db = (b', db', n, err) -> recorded_in b' db'.
Proof.
  intros Hr H. unfold Fetch in H. destruct (fe_refused env); [by injection H as <- <- <- <-|].
  assert (forall l b db, recorded_in b db ->
    let '(b', db', _, _) := fetch_each (StoreHandler fault) b db l in recorded_in b' db') as Hl.
  { clear. induction l as [|d l IH]; intros b db Hr; cbn [fetch_each]; [done|].
    destruct (deliverable b d) as [m|] eqn:Ed; [|by apply IH].
    assert (bs_messages b !! dl_seq d = Some m) as Hm by (unfold deliverable in Ed; by destruct (bool_decide _)).
    destruct (unmarshal_event (ms_Data m)) as [e|] eqn:Eu.
    - destruct (StoreHandler fault d db e) as [db1 [er|]] eqn:Eh; apply StoreHandler_records in Eh as [Hsub He];
        pose proof (recorded_in_grows _ _ _ Hr Hsub) as Hr1; [by apply IH|].
      assert (recorded_in (settled b d) db1) as Hd by (eapply recorded_in_settled; eauto).
      destruct (dl_ack d); [specialize (IH _ _ Hd) | specialize (IH _ _ Hr1) | done];
        by destruct (fetch_each _ _ db1 l) as [[[b2 db2] n] er].
    - apply IH. destruct (dl_term d); [|done]. eapply recorded_in_settled; eauto. }
  specialize (Hl (fe_delivered env) b db Hr). destruct (fetch_each _ b db _) as [[[b2 db2] n2] [er|]];
    by injection H as <- <- <- <-.
Qed.
End World.
End Consumed.
End Layout.
End Row.

(** * Witnesses *)

(** The identifier is the message, and one message is no event. *)
Definition wire_json : JSON := {|
  marshal_payload := fun _ => Some "{}";
  unmarshal_payload := fun _ => None;
  marshal_event := fun e => Some (ev_EventID e);
  unmarshal_event := fun s => if String.eqb s "poison" then None else Some (sample_event s 5)
|}.

Definition all_printable (_ : bytes_t) : bool := true.
Definition one_stamp (_ : Time) : string := "2026-01-05 10:00:00.000".
Definition no_text (_ : PublishError) : string := "not published".

Definition drain_at (t : Time) (fate : Fate) : kop :=
  KDrain (fun _ => Fine) Fine Fine 0 "p" t t 0 (fun _ => fate) true.

Definition fetch_with (f : TxFault) (ack : AckFate) : kop :=
  KFetch (mkFetchEnv None [mkDelivery 0 true ack] None f).

(** An event is recorded and its publication lost; stored and not answered; answered; its
    insert applied without an answer; its acknowledgement lost; acknowledged. *)
Definition backbone_before : list kop :=
  [KEvidence (OAppend Fine 10 (sample_event "e-1" 5)); drain_at 20 (Dropped None)].
Definition backbone_after : list kop :=
  [drain_at (20 + 3 * Minute) (Kept true Silent); drain_at (20 + 6 * Minute) (Kept true Acknowledged);
   fetch_with LostAck AckDone; fetch_with Fine AckLost; fetch_with Fine AckDone].

Abbreviation turn := (kstep (HJ := wire_json) all_printable one_stamp no_text).

Definition world_before : World := run_ops turn silent_world backbone_before.
Definition world_after : World := run_ops turn world_before backbone_after.

Lemma backbone_after_ok : Forall kop_ok backbone_after.
Proof. repeat constructor. Qed.

Example evidence_reaches_the_projection_witness :
  option_map o_published_at (outbox (bk_tables world_before) !! 1) = Some None /\
  option_map o_published_at (outbox (bk_tables world_after) !! 1) = Some (Some (20 + 6 * Minute)) /\
  length (bs_messages (bk_bus world_after)) = 1%nat /\ length (bk_table world_after) = 3%nat /\
  projected_in (HJ := wire_json) all_printable one_stamp (bs_messages (bk_bus world_after))
    (bk_table world_after) 0.
Proof.
  do 4 (split; [vm_compute; reflexivity|]).
  apply (proj1 (proj2 (evidence_reaches_the_projection (HJ := wire_json) all_printable one_stamp no_text
    backbone_before backbone_after backbone_after_ok))).
  apply (bool_decide_unpack _). vm_compute. exact I.
Defined.

Definition two_messages : Bus :=
  mkBus [mkMessage "e-1" "evidence.t" "e-1"; mkMessage "e-2" "evidence.t" "poison"] ∅.
Definition calm_env : FetchEnv :=
  mkFetchEnv None [mkDelivery 1 true AckDone; mkDelivery 0 true AckDone] None Fine.

Example calm_fetch_projects_witness :
  projected one_stamp (sample_event "e-1" 5) ∈
    snd (fst (FetchBatch (HJ := wire_json) (HandleBatch all_printable one_stamp Fine) calm_env two_messages [])).
Proof.
  refine (proj1 (calm_fetch_projects (HJ := wire_json) all_printable one_stamp calm_env two_messages _ [] _ _
    eq_refl eq_refl _ _ eq_refl (mkDelivery 0 true AckDone) (mkMessage "e-1" "evidence.t" "e-1") _ _ eq_refl eq_refl)).
  - intros d Hd. set_solver.
  - intros d m e Hd Hm He. apply elem_of_cons in Hd as [->|[->|Hd%elem_of_nil]%elem_of_cons]; [| |done];
      cbn in Hm; injection Hm as <-; cbn in He; [discriminate He|]. injection He as <-. vm_compute. reflexivity.
  - right. left.
Defined.

(** A bell in an identifier is written \a, which JSON does not have. *)
Definition bell : string := String (Ascii.ascii_of_nat 7) "".

Example illegible_event_stops_its_batch_witness :
  snd (fst (FetchBatch (HJ := wire_json) (HandleBatch all_printable one_stamp Fine)
    (mkFetchEnv None [mkDelivery 0 true AckDone; mkDelivery 1 true AckDone] None Fine)
    (mkBus [mkMessage "e-1" "evidence.t" "e-1"; mkMessage bell "evidence.t" bell] ∅) [])) = [].
Proof.
  exact (proj1 (illegible_event_stops_its_batch (HJ := wire_json) all_printable one_stamp
    (mkFetchEnv None [mkDelivery 0 true AckDone; mkDelivery 1 true AckDone] None Fine)
    (mkBus [mkMessage "e-1" "evidence.t" "e-1"; mkMessage bell "evidence.t" bell] ∅) []
    (mkDelivery 1 true AckDone) _ _ ltac:(right; left) eq_refl eq_refl eq_refl)).
Defined.

Example terminated_in_silence_witness :
  fd_reported (snd (FetchBatch (HJ := wire_json) (HandleBatch all_printable one_stamp Fine)
    (mkFetchEnv None [mkDelivery 1 true AckDone] (Some "timeout") Fine) two_messages [])) = 0.
Proof.
  exact (f_equal (fun x => fd_reported (snd x)) (terminated_in_silence (HJ := wire_json) all_printable one_stamp
    (mkFetchEnv None [mkDelivery 1 true AckDone] (Some "timeout") Fine) two_messages [] (mkDelivery 1 true AckDone)
    _ "timeout" eq_refl eq_refl eq_refl eq_refl eq_refl eq_refl)).
Defined.

Definition once_recorded : Tables :=
  fst (Append (HJ := wire_json) Fine 10 empty_tables (sample_event "e-1" 5)).

Example repeated_identifier_is_not_queued_witness :
  outbox (fst (Append (HJ := wire_json) Fine 11 once_recorded (sample_event "e-1" 6))) = outbox once_recorded.
Proof.
  exact (proj2 (proj2 (repeated_identifier_is_not_queued (HJ := wire_json) Fine 11 once_recorded _
    (sample_event "e-1" 6) eq_refl eq_refl))).
Defined.

Example store_records_before_it_acknowledges_witness :
  let '(b, db, n, _) := Fetch (HJ := wire_json) (StoreHandler (HJ := wire_json) (fun _ => Fine)) calm_env
    two_messages empty_tables in
  n = 1 /\ recorded_in (HJ := wire_json) b db.
Proof.
  split; [vm_compute; reflexivity|].
  refine (store_records_before_it_acknowledges (HJ := wire_json) (fun _ => Fine) calm_env two_messages _
    empty_tables _ _ _ _ eq_refl).
  intros i Hi. cbn in Hi. set_solver.
Defined.
