(* ===== verification/MoneyJSON.v ===== *)
(** Decimal numbers on the wire: the JSON and YAML forms of internal/money's [Amount] and
    [Quantity], and their constructors from floats.

    A number travels as text and is read from the literal itself.  [unquote] is
    encoding/json on a token that is a string, [FormatFloat] the shortest decimal of a
    binary64; both are parameters. *)

From S2P Require Import Prelude Money Broker.

(** A token that is no string, or text that is no number of the type. *)
Inductive WireError := BadToken | BadNumber (e : ParseError).

Definition first_is_quote (s : string) : bool :=
  match s with String c _ => (Ascii.nat_of_ascii c =? 34)%nat | "" => false end.

Fixpoint last_is_quote (s : string) : bool :=
  match s with
  | "" => false
  | String c "" => (Ascii.nat_of_ascii c =? 34)%nat
  | String _ s' => last_is_quote s'
  end.

Section Wire.
Context (unquote : string -> option string).

(** [None] is the error of the string decoder. *)
Definition numericText (data : string) : option string :=
  let text := TrimSpace data in
  if String.eqb text "null" then Some ""
  else if (2 <=? String.length text)%nat && first_is_quote text && last_is_quote text then
    option_map TrimSpace (unquote data)
  else Some text.

Definition unmarshal (parse : string -> result Z ParseError) (data : string) : result Z WireError :=
  match numericText data with
  | None => Err BadToken
  | Some text =>
      if String.eqb text "" then Ok 0
      else match parse text with Ok v => Ok v | Err e => Err (BadNumber e) end
  end.

Definition Amount_UnmarshalJSON (data : string) : result Amount WireError := unmarshal Parse data.
Definition Quantity_UnmarshalJSON (data : string) : result Quantity WireError := unmarshal ParseQuantity data.

Definition Amount_MarshalJSON (a : Amount) : string := Amount_String a.
Definition Quantity_MarshalJSON (q : Quantity) : string := Quantity_String q.

(** On the value of a YAML node. *)
Definition Amount_UnmarshalYAML (value : string) : result Amount ParseError := Parse value.
Definition Quantity_UnmarshalYAML (value : string) : result Quantity ParseError := ParseQuantity value.
Definition Amount_MarshalYAML (a : Amount) : string := Amount_String a.
Definition Quantity_MarshalYAML (q : Quantity) : string := Quantity_String q.

Context (FormatFloat : float64 -> string).
Definition FromFloat (f : float64) : result Amount ParseError := Parse (FormatFloat f).
Definition QuantityFromFloat (f : float64) : result Quantity ParseError := ParseQuantity (FormatFloat f).

(** * Properties *)

(** A literal is no string and not blank, and passes as it is. *)
Lemma last_literal s : str_forall literal_byte s = true -> last_is_quote s = false.
Proof.
  induction s as [|c s IH]; [done|]. cbn [str_forall last_is_quote]. rewrite andb_true_iff. intros [Hc Hs].
  destruct s as [|c' s]; [|by apply IH]. destruct (Nat.eqb_spec (Ascii.nat_of_ascii c) 34) as [E|]; [|done].
  assert (c = Ascii.ascii_of_nat 34) as -> by (rewrite <- E; symmetry; apply Ascii.ascii_nat_embedding). done.
Qed.

Lemma numericText_literal s : s <> "null" -> str_forall literal_byte s = true -> numericText s = Some s.
Proof.
  intros Hn Hs. unfold numericText. rewrite TrimSpace_word by by apply literal_byte_word.
  rewrite (proj2 (String.eqb_neq _ _) Hn), last_literal by done. by rewrite andb_false_r.
Qed.

Lemma not_null s : str_forall literal_byte s = true -> s <> "null".
Proof. by intros H ->. Qed.

Lemma unmarshal_literal parse s v :
  str_forall literal_byte s = true -> parse s = Ok v -> parse "" = Err EmptyNumber -> unmarshal parse s = Ok v.
Proof.
  intros Hs Hp He. unfold unmarshal. rewrite numericText_literal by (done || by apply not_null).
  destruct (String.eqb_spec s "") as [->|]; [congruence|]. by rewrite Hp.
Qed.

Lemma Amount_String_bytes a : - max_int64 <= a <= max_int64 -> str_forall literal_byte (Amount_String a) = true.
Proof.
  intros Ha. rewrite (Amount_String_literal a Ha). destruct (itoa_spec (Z.abs a / 10000)) as (Hd & _);
    [apply Z.div_pos; lia|]. destruct (frac_text 4 (Z.abs a mod 10000)) as (Hf & _);
    [lia | apply Z.mod_pos_bound; lia |]. by apply literal_bytes.
Qed.

Lemma Quantity_String_bytes q : - max_int64 <= q <= max_int64 -> str_forall literal_byte (Quantity_String q) = true.
Proof.
  intros Hq. rewrite (Quantity_String_literal q Hq). destruct (itoa_spec (Z.abs q / 100000000)) as (Hd & _);
    [apply Z.div_pos; lia|]. destruct (frac_text 8 (Z.abs q mod 100000000)) as (Hf & Hl & _);
    [lia | apply Z.mod_pos_bound; lia |]. apply literal_bytes; [done|]. intros _.
  destruct (_ =? 0); [done|]. by apply trim_right_zeros_spec.
Qed.
(** The literal of an accepted number: the token, or the content of the string it is. *)
Definition literal_of (data text : string) : Prop :=
  text = TrimSpace data \/ exists s, unquote data = Some s /\ text = TrimSpace s.

(** [v] is null or blank text read as zero, or the decimal of the literal. *)
Definition read_exactly (data : string) (scale : nat) (v : Z) : Prop :=
  (numericText data = Some "" /\ v = 0) \/
  exists text sg w f (has : bool),
    literal_of data text /\ TrimSpace text = sg +:+ w +:+ (if has then "." +:+ f else "") /\
    sg ∈ ["";"+";"-"] /\ str_forall is_digit (w +:+ f) = true /\
    denotes v scale (String.eqb sg "-") w f /\ Z.abs v < parse_limit scale.

Lemma unmarshal_exact scale e data v :
  (scale <= 18)%nat -> unmarshal (fun s => parseFixed s scale e) data = Ok v -> read_exactly data scale v.
Proof.
  intros Hs. unfold read_exactly, unmarshal. destruct (numericText data) as [text|] eqn:E; [|done].
  destruct (String.eqb_spec text "") as [->|Hne]; [intros [= <-]; by left|].
  destruct (parseFixed text scale e) as [v'|] eqn:Ep; [|done]. intros [= ->]. right.
  destruct (parseFixed_exact _ _ _ _ Hs Ep) as (sg & w & f & has & Ht & Hsg & Hd & Hv & Hl).
  exists text, sg, w, f, has. split; [|done]. unfold literal_of. unfold numericText in E.
  destruct (String.eqb (TrimSpace data) "null"); [by injection E as <-|].
  destruct (_ && _ && _); [|injection E as <-; by left].
  destruct (unquote data) as [s|]; [|done]. injection E as <-. right. by exists s.
Qed.

End Wire.

(** A string between quotes, without escapes. *)
Definition simple_unquote (data : string) : option string :=
  match TrimSpace data with
  | String _ s => Some (str_take (String.length s - 1) s)
  | "" => None
  end.

Definition quoted (s : string) : string :=
  String (Ascii.ascii_of_nat 34) (s +:+ String (Ascii.ascii_of_nat 34) "").

(** Blank text between quotes is read as zero, which as a ceiling of a grant means none,
    where the parser refuses the same text. *)
Theorem blank_string_is_zero :
  Amount_UnmarshalJSON simple_unquote (quoted "") = Ok 0 /\ Amount_UnmarshalJSON simple_unquote (quoted "  ") = Ok 0 /\
  Parse "" = Err EmptyNumber /\ Amount_UnmarshalYAML "" = Err EmptyNumber.
Proof. vm_compute. repeat split. Qed.

