(* ===== verification/Reads.v ===== *)
(** The surfaces that only read: the evidence endpoints of cmd/assurance-gateway/main.go,
    internal/incident/api.go and internal/fleet/api.go.

    Each answers for the tenant its caller's credential establishes, which each establishes
    by a function of its own.  Reading is a function of the tables to an answer, so that
    nothing is changed is a matter of types; what is proved is what an answer can depend on.
    The analytical store is asked in SQL text and is a parameter. *)

From S2P Require Import Prelude Strings Identity Http Evidence.
From S2P Require Fleet Incident Submission.

Section Readers.
Context {Pool : Type} (chain : Pool -> list Certificate -> Certificate -> Time -> option X509Error).
Context {HJ : JSON}.

(** * Evidence *)

(** [tenantOf] *)
Definition tenantOf (sv : Server (Pool := Pool)) (clock : nat -> Time) (r : Request) : result string Response :=
  let attested := resolve chain sv clock 0 r in
  match RequireExecutable attested with
  | Some _ => Err (errorBody StatusUnauthorized "the caller is not authenticated")
  | None =>
      if String.eqb (a_TenantID attested) "" then
        Err (errorBody StatusUnauthorized "no tenant is established")
      else
        let claimed := TrimSpace (rq_TenantHeader r) in
        if str_nonempty claimed && negb (String.eqb claimed (a_TenantID attested)) then
          Err (errorBody StatusForbidden "the request names another tenant")
        else Ok (a_TenantID attested)
  end.

(** The tenant of an answer, and its events. *)
Definition serveChain (reader : option Tables) (tenant : string)
    (load : Tables -> result (list Event) EvidenceError) : result (string * list Event) Response :=
  match reader with
  | None => Err (errorBody StatusServiceUnavailable "no evidence store is configured")
  | Some db =>
      match load db with
      | Err _ => Err (errorBody StatusInternalServerError "evidence could not be read")
      | Ok events => Ok (tenant, events)
      end
  end.

Definition evidenceByCorrelation (f : TxFault) (reader : option Tables) (sv : Server (Pool := Pool))
    (clock : nat -> Time) (r : Request) (correlation_id : string) : result (string * list Event) Response :=
  match tenantOf sv clock r with
  | Err answer => Err answer
  | Ok tenant =>
      let correlationID := TrimSpace correlation_id in
      if String.eqb correlationID "" then Err (errorBody StatusBadRequest "correlation_id is required")
      else serveChain reader tenant (fun db => Chain f db tenant correlationID)
  end.

Definition evidenceByIntent (f : TxFault) (reader : option Tables) (sv : Server (Pool := Pool))
    (clock : nat -> Time) (r : Request) : result (string * list Event) Response :=
  match tenantOf sv clock r with
  | Err answer => Err answer
  | Ok tenant =>
      let intentID := TrimSpace (rq_PathID r) in
      if String.eqb intentID "" then Err (errorBody StatusBadRequest "intent id is required")
      else serveChain reader tenant (fun db => ByAggregate f db tenant intentID)
  end.

(** * Incidents *)

Section IncidentAPI.
Context {HI : Incident.IncidentJSON}.

Record Summary := mkSummary {
  sm_incident_id : string;
  sm_tenant_id : string;
  sm_correlation_id : string;
  sm_severity : string;
  sm_severity_rule : string;
  sm_status : string;
  sm_anomaly_rules : list string;
  sm_shared_dependencies : list string;
  sm_recommended : string;
  sm_window_start : Time;
  sm_window_end : Time;
  sm_opened_at : Time;
  sm_closed_at : option Time
}.

Definition summarise (inc : Incident.Incident) : Summary :=
  mkSummary (Incident.ic_IncidentID inc) (Incident.ic_TenantID inc) (Incident.ic_CorrelationID inc)
    (Incident.ic_Severity inc) (Incident.ic_SeverityRule inc) (Incident.ic_Status inc)
    (map Incident.an_Rule (Incident.ic_Anomalies inc)) (Incident.ic_SharedDependencies inc)
    (Incident.ic_Recommended inc) (Fleet.Start (Incident.ic_Window inc)) (Fleet.End_ (Incident.ic_Window inc))
    (Incident.ic_OpenedAt inc) (Incident.ic_ClosedAt inc).

(** What a detail view shows of the timeline. *)
Inductive TimelineView :=
| NoTimeline
| TimelineError (what : string)
| TimelineOf (t : Incident.Timeline) (answered : Incident.Answers).

Record Detail := mkDetail {
  dt_summary : Summary;
  dt_anomalies : list Incident.Anomaly;
  dt_human_actions : list Incident.HumanAction;
  dt_timeline : TimelineView
}.

(** [API.requireTenant] of internal/incident; a missing store is answered first. *)
Definition incident_tenant {A : Type} (store : option A) (sv : Server (Pool := Pool)) (clock : nat -> Time)
    (r : Request) : result (A * string) Response :=
  match store with
  | None => Err (errorBody StatusServiceUnavailable "no incident store is configured")
  | Some db => match tenantOf sv clock r with Err answer => Err answer | Ok tenant => Ok (db, tenant) end
  end.

Definition list_incidents (f : TxFault) (store : option Incident.Incidents) (sv : Server (Pool := Pool))
    (clock : nat -> Time) (r : Request) (limit : string) : result (string * list Summary) Response :=
  match incident_tenant store sv clock r with
  | Err answer => Err answer
  | Ok (db, tenant) =>
      let limit := if str_nonempty limit then default 50 (Submission.Atoi limit) else 50 in
      match Incident.List_ f db tenant limit with
      | Err _ => Err (errorBody StatusInternalServerError "the incidents could not be read")
      | Ok incidents => Ok (tenant, map summarise incidents)
      end
  end.

Definition timeline_view (f : TxFault) (evidence : option Tables) (tenant correlationID : string) : TimelineView :=
  match evidence with
  | None => NoTimeline
  | Some ev =>
      match Chain f ev tenant correlationID with
      | Err _ => TimelineError "the evidence chain could not be read"
      | Ok events =>
          match Incident.Reconstruct events with
          | Err _ => TimelineError "the evidence chain could not be reconstructed"
          | Ok t => TimelineOf t (Incident.AnsweredQuestions t)
          end
      end
  end.

Definition get_incident (f f' : TxFault) (store : option Incident.Incidents) (evidence : option Tables)
    (sv : Server (Pool := Pool)) (clock : nat -> Time) (r : Request) : result Detail Response :=
  match incident_tenant store sv clock r with
  | Err answer => Err answer
  | Ok (db, tenant) =>
      let incidentID := TrimSpace (rq_PathID r) in
      if String.eqb incidentID "" then Err (errorBody StatusBadRequest "an incident id is required")
      else
        match Incident.Load f db tenant incidentID with
        | Err _ => Err (errorBody StatusInternalServerError "the incident could not be read")
        | Ok None => Err (errorBody StatusNotFound "no such incident")
        | Ok (Some inc) =>
            Ok (mkDetail (summarise inc) (Incident.ic_Anomalies inc) (Incident.ic_HumanActions inc)
                  (timeline_view f' evidence tenant (Incident.ic_CorrelationID inc)))
        end
  end.
End IncidentAPI.

(** * Fleet *)

Section FleetAPI.
(** [Reader.Query], and encoding/json on a line of its answer. *)
Context {Row : Type} (query : string -> option string) (decode_row : string -> option Row).

Definition identifier_byte (b : nat) : bool :=
  ((97 <=? b) && (b <=? 122) || (65 <=? b) && (b <=? 90) || (48 <=? b) && (b <=? 57) ||
   existsb (Nat.eqb b) [95; 45; 46])%nat.

Definition safeIdentifier (s : string) : bool :=
  str_nonempty s && (String.length s <=? 128)%nat && forallb identifier_byte (bytes s).

(** [API.requireTenant] of internal/fleet; [store] is whether one is configured. *)
Definition fleet_tenant (store : bool) (sv : Server (Pool := Pool)) (clock : nat -> Time) (r : Request)
    : result string Response :=
  if negb store then Err (errorBody StatusServiceUnavailable "no analytical store is configured")
  else
    let attested := resolve chain sv clock 0 r in
    match RequireExecutable attested with
    | Some _ => Err (errorBody StatusUnauthorized "the caller is not authenticated")
    | None =>
        if String.eqb (a_TenantID attested) "" then
          Err (errorBody StatusUnauthorized "no tenant is established")
        else if negb (safeIdentifier (a_TenantID attested)) then
          Err (errorBody StatusUnauthorized "tenant id is not identifier-shaped")
        else
          let claimed := TrimSpace (rq_TenantHeader r) in
          if str_nonempty claimed && negb (String.eqb claimed (a_TenantID attested)) then
            Err (errorBody StatusForbidden "the request names another tenant")
          else Ok (a_TenantID attested)
    end.

Definition newline : Ascii.ascii := Ascii.ascii_of_nat 10.

(** [API.query]: the rows, or the error that was answered. *)
Fixpoint decode_lines (lines : list string) : option (list Row) :=
  match lines with
  | [] => Some []
  | line :: lines' =>
      if String.eqb (TrimSpace line) "" then decode_lines lines'
      else match decode_row line with
           | None => None
           | Some row => option_map (cons row) (decode_lines lines')
           end
  end.

Definition run_query (sql : string) : result (list Row) Response :=
  match query sql with
  | None => Err (errorBody StatusServiceUnavailable "the analytical store is unavailable")
  | Some raw =>
      match decode_lines (Split newline (TrimSpace raw)) with
      | None => Err (errorBody StatusInternalServerError "the analytical store returned unreadable rows")
      | Some rows => Ok rows
      end
  end.

(** The lines of a query, each on its own and indented, around a tenant in quotes. *)
Definition sql_text (before : list string) (tenant : string) (after : list string) : string :=
  let nl := String newline (String (Ascii.ascii_of_nat 9) (String (Ascii.ascii_of_nat 9) "")) in
  String.concat "" (map (String.append nl) before) +:+ nl +:+ " WHERE tenant_id = '" +:+ tenant +:+ "'" +:+
  String.concat "" (map (String.append nl) after).

Definition fleetState_sql (tenant : string) : string :=
  sql_text
    ["SELECT cohort_id, cohort_predicate, window_start, window_end,";
     "       intent_count, authorized_intents, refused_intents,";
     "       agent_count, gross_notional, net_notional,";
     "       directional_imbalance, observed_coverage, verified_coverage,";
     "       declared_coverage, unknown_coverage";
     "  FROM assurance.fleet_measurements"]
    tenant
    [" ORDER BY window_start DESC"; " LIMIT 200"; " FORMAT JSONEachRow"].

Definition cohorts_sql (tenant : string) : string :=
  sql_text
    ["SELECT cohort_id, cohort_predicate,"; "       count() AS windows,"; "       max(window_end) AS last_seen,";
     "       max(intent_count) AS peak_intents,"; "       max(agent_count) AS peak_agents";
     "  FROM assurance.fleet_measurements"]
    tenant
    [" GROUP BY cohort_id, cohort_predicate"; " ORDER BY last_seen DESC"; " LIMIT 200"; " FORMAT JSONEachRow"].

Definition dependencies_sql (tenant : string) : string :=
  sql_text
    ["SELECT dependency_type, dependency_id,"; "       count() AS observations,";
     "       countIf(verification = 'VERIFIED') AS verified,";
     "       countIf(verification = 'DECLARED') AS declared,";
     "       countIf(verification = 'UNKNOWN') AS unknown,"; "       uniqExact(agent_id) AS agents,";
     "       max(observed_at) AS last_seen"; "  FROM assurance.dependency_observations"]
    tenant
    [" GROUP BY dependency_type, dependency_id"; " ORDER BY observations DESC"; " LIMIT 200";
     " FORMAT JSONEachRow"].

Definition read_rows (sql : string -> string) (store : bool) (sv : Server (Pool := Pool)) (clock : nat -> Time)
    (r : Request) : result (string * list Row) Response :=
  match fleet_tenant store sv clock r with
  | Err answer => Err answer
  | Ok tenant => match run_query (sql tenant) with Err answer => Err answer | Ok rows => Ok (tenant, rows) end
  end.

Definition fleetState := read_rows fleetState_sql.
Definition cohorts := read_rows cohorts_sql.
Definition dependencies := read_rows dependencies_sql.
End FleetAPI.
End Readers.

(** * What an answer can depend on *)

Section Isolation.
Context {HJ : JSON}.

(** The events of tenant [t] are the same. *)
Definition same_events (t : string) (db db' : Tables) : Prop :=
  forall k r, r_tenant_id r = t -> events db !! k = Some r <-> events db' !! k = Some r.

#[export] Instance same_events_equiv t : Equivalence (same_events t).
Proof.
  split.
  - by intros db k r.
  - intros db db' H k r Hr. symmetry. by apply H.
  - intros db1 db2 db3 H1 H2 k r Hr. etrans; [by apply H1 | by apply H2].
Qed.

(** The events a query selects from, in no particular order. *)
Definition selected (db : Tables) (t : string) (cond : Event -> bool) : list Event :=
  List.filter (fun e => String.eqb (ev_TenantID e) t && cond e)
    (map (fun '(k, r) => event_of k r) (map_to_list (events db))).

Lemma selected_spec db t cond e :
  e ∈ selected db t cond <-> exists k r, events db !! k = Some r /\ e = event_of k r /\
    r_tenant_id r = t /\ cond e = true.
Proof.
  unfold selected. rewrite list_elem_of_In, filter_In, <- list_elem_of_In, andb_true_iff, String.eqb_eq. split.
  - intros [([k r] & -> & Hk)%list_elem_of_fmap [Ht Hc]]. apply elem_of_map_to_list in Hk. eauto 6.
  - intros (k & r & Hk & -> & Ht & Hc). split; [|done]. apply list_elem_of_fmap. exists (k, r).
    split; [done|]. by apply elem_of_map_to_list.
Qed.

Lemma event_of_key k r : event_key (event_of k r) = k.
Proof. by destruct k. Qed.

Lemma NoDup_selected db t cond : NoDup (selected db t cond).
Proof.
  unfold selected. apply NoDup_ListNoDup, List.NoDup_filter.
  apply (List.NoDup_map_inv event_key). rewrite map_map.
  erewrite (map_ext _ fst) by (intros [k r]; apply event_of_key).
  apply NoDup_ListNoDup, NoDup_fst_map_to_list.
Qed.

Lemma selected_agree t db db' cond : same_events t db db' -> selected db t cond ≡ₚ selected db' t cond.
Proof.
  intros H. apply NoDup_Permutation; [apply NoDup_selected..|]. intros e. rewrite !selected_spec.
  split; intros (k & r & Hk & He & Ht & Hc); exists k, r; (split_and!; [by apply (H k r Ht) | done..]).
Qed.

Lemma event_order_total db t cond e1 e2 :
  e1 ∈ selected db t cond -> e2 ∈ selected db t cond ->
  not_after event_before e1 e2 -> not_after event_before e2 e1 -> e1 = e2.
Proof.
  intros (k1 & r1 & H1 & -> & _)%selected_spec (k2 & r2 & H2 & -> & _)%selected_spec. unfold not_after, event_before.
  destruct (Z.eqb_spec (ev_OccurredAt (event_of k2 r2)) (ev_OccurredAt (event_of k1 r1))) as [Eo|Eo];
    destruct (Z.eqb_spec (ev_OccurredAt (event_of k1 r1)) (ev_OccurredAt (event_of k2 r2))); try congruence;
    [|rewrite !Z.ltb_ge; lia].
  destruct (Z.eqb_spec (ev_Sequence (event_of k2 r2)) (ev_Sequence (event_of k1 r1))) as [Es|Es];
    destruct (Z.eqb_spec (ev_Sequence (event_of k1 r1)) (ev_Sequence (event_of k2 r2))); try congruence;
    [|rewrite !Z.ltb_ge; lia].
  intros Ha Hb. pose proof (str_not_after_antisym _ _ Ha Hb) as Ei. cbn in Eo, Ei.
  destruct k1 as [i1 o1], k2 as [i2 o2]. cbn in *. subst. congruence.
Qed.

Lemma query_agree f t db db' cond : same_events t db db' -> Evidence.query f db t cond = Evidence.query f db' t cond.
Proof.
  intros H. unfold Evidence.query, withTenant. destruct (String.eqb t ""); [done|].
  assert (stable_sort event_before (selected db t cond) = stable_sort event_before (selected db' t cond)) as Hs.
  { apply (StronglySorted_unique_strong (not_after event_before)).
    - intros e1 e2. rewrite !stable_sort_perm, <- (selected_agree t db db' cond H).
      apply event_order_total.
    - apply stable_sort_sorted; [apply event_before_asym | apply event_not_after_trans].
    - apply stable_sort_sorted; [apply event_before_asym | apply event_not_after_trans].
    - rewrite !stable_sort_perm. by apply selected_agree. }
  unfold selected in Hs. unfold transaction. destruct f; cbn; by rewrite ?Hs.
Qed.
End Isolation.

Section Answers.
Context {Pool : Type} (chain : Pool -> list Certificate -> Certificate -> Time -> option X509Error).
Context {HJ : JSON} {HI : Incident.IncidentJSON}.

Lemma tenantOf_callerTenant sv clock r : tenantOf chain sv clock r = callerTenant chain sv clock r.
Proof. reflexivity. Qed.

Lemma serveChain_agree t db db' load :
  load db = load db' -> serveChain (Some db) t load = serveChain (Some db') t load.
Proof. unfold serveChain. by intros ->. Qed.

Lemma Load_agree f t id db db' :
  db !! (t, id) = db' !! (t, id) -> Incident.Load f db t id = Incident.Load f db' t id.
Proof.
  intros H. unfold Incident.Load, Incident.withTenant. destruct (String.eqb t ""); [done|].
  unfold transaction. rewrite H. destruct f; [|done|]; destruct (db' !! (t, id)) as [row|]; try done;
    by destruct (Incident.scanIncident t id row).
Qed.

(** C14: A reader learns nothing of other tenants.  Between any two states that hold the
    same events and the same incidents of the tenant its caller's credential establishes,
    the evidence endpoints and the incident answer the same, byte for byte: whether
    something exists elsewhere, or elsewhere fails, changes no status and no body.  A caller
    without a tenant is answered the same in every state. *)
Theorem reads_disclose_only_their_tenant (f f' : TxFault) (sv : Server (Pool := Pool)) (clock : nat -> Time)
    (r : Request) (correlation_id : string) (ev ev' : Tables) (db db' : Incident.Incidents) :
  (forall t, callerTenant chain sv clock r = Ok t ->
     same_events t ev ev' /\ forall id, db !! (t, id) = db' !! (t, id)) ->
  evidenceByCorrelation chain f (Some ev) sv clock r correlation_id =
    evidenceByCorrelation chain f (Some ev') sv clock r correlation_id /\
  evidenceByIntent chain f (Some ev) sv clock r = evidenceByIntent chain f (Some ev') sv clock r /\
  get_incident chain f f' (Some db) (Some ev) sv clock r = get_incident chain f f' (Some db') (Some ev') sv clock r.
Proof.
  intros H. unfold evidenceByCorrelation, evidenceByIntent, get_incident, incident_tenant.
  rewrite tenantOf_callerTenant. destruct (callerTenant chain sv clock r) as [t|]; [|done].
  destruct (H t eq_refl) as [He Hi]. split_and!.
  - destruct (String.eqb _ ""); [done|]. by apply serveChain_agree, query_agree.
  - destruct (String.eqb _ ""); [done|]. by apply serveChain_agree, query_agree.
  - destruct (String.eqb _ ""); [done|]. rewrite (Load_agree f t _ db db') by apply Hi.
    destruct (Incident.Load f db' t _) as [[inc|]|]; [|done..].
    unfold timeline_view, Chain. by rewrite (query_agree f' t ev ev' _ He).
Qed.

(** What the evidence endpoints answer is the tenant's and what was asked for. *)
Theorem evidence_is_the_callers (f : TxFault) (sv : Server (Pool := Pool)) (clock : nat -> Time) (r : Request)
    (correlation_id t : string) (db : Tables) (l : list Event) :
  evidenceByCorrelation chain f (Some db) sv clock r correlation_id = Ok (t, l) ->
  callerTenant chain sv clock r = Ok t /\
  forall e, e ∈ l -> ev_TenantID e = t /\ ev_CorrelationID e = TrimSpace correlation_id.
Proof.
  unfold evidenceByCorrelation. rewrite tenantOf_callerTenant.
  destruct (callerTenant chain sv clock r) as [t'|]; [|done]. destruct (String.eqb _ ""); [done|].
  unfold serveChain. destruct (Chain f db t' _) as [l'|] eqn:E; [|done]. intros [= <- <-]. split; [done|].
  unfold Chain, Evidence.query, withTenant in E. destruct (String.eqb_spec t' ""); [done|].
  unfold transaction in E. destruct f; [|done|done]. injection E as <-. intros e.
  rewrite stable_sort_perm, list_elem_of_In, filter_In, andb_true_iff, !String.eqb_eq. tauto.
Qed.

Lemma scan_all_tenants (rows : list (string * string * Incident.IncidentRow)) : forall l inc,
  Incident.scan_all rows = Ok l -> inc ∈ l -> exists kr, kr ∈ rows /\ Incident.ic_TenantID inc = fst (fst kr).
Proof.
  induction rows as [|[k row] rows IH]; intros l inc; cbn [Incident.scan_all].
  - intros [= <-] H. by apply elem_of_nil in H.
  - destruct (Incident.scanIncident (fst k) (snd k) row) as [i|] eqn:E; [|done].
    destruct (Incident.scan_all rows) as [rest|]; [|done]. intros [= <-] [->|H]%elem_of_cons.
    + exists (k, row). split; [by left|]. unfold Incident.scanIncident in E. cbn.
      destruct (Incident.unmarshal_anomalies _); [|done]. destruct (Incident.unmarshal_strings _); [|done].
      destruct (Incident.unmarshal_actions _); [|done]. by injection E as <-.
    + destruct (IH rest inc eq_refl H) as (kr & Hkr & Ht). exists kr. split; [by right | done].
Qed.

(** The list of incidents is the tenant's. *)
Theorem incidents_are_the_callers (f : TxFault) (db : Incident.Incidents) (sv : Server (Pool := Pool))
    (clock : nat -> Time) (r : Request) (limit t : string) (l : list Summary) :
  list_incidents chain f (Some db) sv clock r limit = Ok (t, l) ->
  callerTenant chain sv clock r = Ok t /\ Forall (fun s => sm_tenant_id s = t) l.
Proof.
  unfold list_incidents, incident_tenant. rewrite tenantOf_callerTenant.
  destruct (callerTenant chain sv clock r) as [t'|]; [|done].
  destruct (Incident.List_ f db t' _) as [incs|] eqn:E; [|done]. intros [= <- <-]. split; [done|].
  unfold Incident.List_, Incident.withTenant in E. destruct (String.eqb t' ""); [done|].
  unfold transaction in E. destruct f; [|done|by destruct (Incident.scan_all _)].
  destruct (Incident.scan_all _) as [incs'|] eqn:Es; [|done]. injection E as ->. apply Forall_forall.
  intros s (inc & -> & Hinc)%list_elem_of_fmap. cbn. destruct (scan_all_tenants _ _ _ Es Hinc) as (kr & Hkr & ->).
  apply elem_of_take in Hkr as (i & Hi & _). apply list_elem_of_lookup_2 in Hi.
  rewrite stable_sort_perm, list_elem_of_In, filter_In in Hi. apply String.eqb_eq, Hi.
Qed.

(** A text that stands in quotes as it is. *)
Definition unquoted (s : string) : bool := forallb (fun b => negb (existsb (Nat.eqb b) [39; 92]%nat)) (bytes s).

Lemma safeIdentifier_unquoted s : safeIdentifier s = true -> unquoted s = true.
Proof.
  unfold safeIdentifier, unquoted. intros [_ H]%andb_true_iff. rewrite forallb_forall in *. intros b Hb.
  specialize (H b Hb). unfold identifier_byte in H. cbn [existsb] in *.
  destruct (Nat.eqb_spec b 39) as [->|]; [done|]. destruct (Nat.eqb_spec b 92) as [->|]; [done|]. done.
Qed.

Lemma fleet_tenant_ok sv clock r t :
  fleet_tenant chain true sv clock r = Ok t -> callerTenant chain sv clock r = Ok t /\ safeIdentifier t = true.
Proof.
  unfold fleet_tenant, callerTenant. cbn [negb]. destruct (RequireExecutable _); [done|].
  destruct (String.eqb _ ""); [done|]. destruct (safeIdentifier _) eqn:E; [|done]. cbn [negb].
  destruct (_ && _); [done|]. by intros [= <-].
Qed.

(** The queries of the fleet surface: the text around the tenant is the same for every
    caller, the tenant is the one the credential establishes and ends no literal, and an
    answer depends on the store's answer to that text alone. *)
Theorem fleet_queries_are_scoped {Row : Type} (decode_row : string -> option Row) (sql : string -> string)
    (sv : Server (Pool := Pool)) (clock : nat -> Time) (r : Request) :
  sql ∈ [fleetState_sql; cohorts_sql; dependencies_sql] ->
  (exists before after, forall t, sql t = before +:+ "'" +:+ t +:+ "'" +:+ after) /\
  (forall t, fleet_tenant chain true sv clock r = Ok t -> callerTenant chain sv clock r = Ok t /\ unquoted t = true) /\
  (forall query query' : string -> option string,
     (forall t, fleet_tenant chain true sv clock r = Ok t -> query (sql t) = query' (sql t)) ->
     read_rows chain query decode_row sql true sv clock r = read_rows chain query' decode_row sql true sv clock r).
Proof.
  intros Hsql. split_and!.
  - assert (forall b a, exists before after, forall t, sql_text b t a = before +:+ "'" +:+ t +:+ "'" +:+ after) as H.
    { intros b a. unfold sql_text. set (nl := String newline _). set (x := String.concat "" (map _ b)).
      set (y := String.concat "" (map _ a)). exists (x +:+ nl +:+ " WHERE tenant_id = "), y. intros t.
      change " WHERE tenant_id = '" with (" WHERE tenant_id = " +:+ "'"). clearbody x y nl.
      by rewrite <- !str_app_assoc. }
    repeat (apply elem_of_cons in Hsql as [->|Hsql]; [apply H|]). by apply elem_of_nil in Hsql.
  - intros t Ht. apply fleet_tenant_ok in Ht as [Ht Hs]. split; [done|]. by apply safeIdentifier_unquoted.
  - intros query query' H. unfold read_rows, run_query. destruct (fleet_tenant chain true sv clock r) as [t|]; [|done].
    by rewrite (H t eq_refl).
Qed.
End Answers.

(** * Witnesses *)

Definition no_chain (_ : unit) (_ : list Certificate) (_ : Certificate) (_ : Time) : option X509Error := None.
Definition reader_of (tenant : string) : Server (Pool := unit) :=
  mkServer (Some {[ "token-1" := mkCaller "alice" tenant false false false ]}) None.
Definition read_request : Request := mkRequest "Bearer token-1" "" [] None "env-1".

Definition stored (tenant id : string) : Row :=
  mkRow SchemaVersion IntentReceived tenant "env-1" "corr-1" None 5 "gateway" 0 None "{}".
Definition one_tenant : Tables := mkTables {[ ("e-1", 5) := stored "tenant-1" "e-1" ]} ∅ 1.
Definition two_tenants : Tables :=
  mkTables (<[ ("e-2", 6) := stored "tenant-2" "e-2" ]> (events one_tenant)) ∅ 1.

Definition no_incident_json : Incident.IncidentJSON := {|
  Incident.marshal_anomalies := fun _ => None; Incident.unmarshal_anomalies := fun _ => None;
  Incident.marshal_strings := fun _ => None; Incident.unmarshal_strings := fun _ => None;
  Incident.marshal_actions := fun _ => None; Incident.unmarshal_actions := fun _ => None |}.

Definition an_incident_row : Incident.IncidentRow :=
  Incident.mkIncidentRow "corr-1" "cohort" 0 Minute "LOW" "OPEN" "" "" "" "" "" 100 None.
Definition other_incidents : Incident.Incidents := {[ ("tenant-2", "incident-1") := an_incident_row ]}.

Example reads_disclose_only_their_tenant_witness :
  option_map (fun x => length (snd x))
    (match evidenceByIntent (HJ := toy_json) no_chain Fine (Some two_tenants) (reader_of "tenant-1") (fun _ => 0)
             read_request with Ok x => Some x | Err _ => None end) = Some 1%nat /\
  evidenceByIntent (HJ := toy_json) no_chain Fine (Some one_tenant) (reader_of "tenant-1") (fun _ => 0) read_request =
  evidenceByIntent (HJ := toy_json) no_chain Fine (Some two_tenants) (reader_of "tenant-1") (fun _ => 0) read_request.
Proof.
  split; [vm_compute; reflexivity|].
  refine (proj1 (proj2 (reads_disclose_only_their_tenant (HJ := toy_json) (HI := no_incident_json) no_chain Fine Fine
    (reader_of "tenant-1") (fun _ => 0) read_request "" one_tenant two_tenants ∅ other_incidents _))).
  intros t Ht. assert (t = "tenant-1") as ->.
  { assert (callerTenant no_chain (reader_of "tenant-1") (fun _ => 0) read_request = Ok "tenant-1") as E
      by (vm_compute; reflexivity). congruence. }
  split.
  - intros k r Hr. unfold two_tenants. cbn [events]. split.
    + intros Hk. rewrite lookup_insert_ne; [exact Hk|]. intros <-. vm_compute in Hk. discriminate Hk.
    + intros [[<- <-]|[_ Hk]]%lookup_insert_Some; [discriminate Hr | exact Hk].
  - intros id. rewrite lookup_empty. unfold other_incidents. rewrite lookup_singleton_ne; [done|]. intros [=].
Defined.

Example evidence_is_the_callers_witness :
  match evidenceByCorrelation (HJ := toy_json) no_chain Fine (Some two_tenants) (reader_of "tenant-1") (fun _ => 0)
          read_request "corr-1" with
  | Ok (t, l) => t = "tenant-1" /\ Forall (fun e => ev_TenantID e = t) l
  | Err _ => False
  end.
Proof.
  destruct (evidenceByCorrelation no_chain Fine (Some two_tenants) (reader_of "tenant-1") (fun _ => 0)
              read_request "corr-1") as [[t l]|] eqn:E; [|vm_compute in E; discriminate E].
  destruct (evidence_is_the_callers no_chain Fine (reader_of "tenant-1") (fun _ => 0) read_request "corr-1" t
              two_tenants l E) as [Ht Hl].
  split; [vm_compute in Ht; congruence|]. apply Forall_forall. intros e He. apply (Hl e He).
Defined.

Example fleet_queries_are_scoped_witness :
  unquoted "tenant-1" = true /\ safeIdentifier "tenant' OR 1=1 --" = false.
Proof.
  split; [|vm_compute; reflexivity].
  apply (proj1 (proj2 (fleet_queries_are_scoped no_chain (Some (A := string)) cohorts_sql (reader_of "tenant-1")
    (fun _ => 0) read_request ltac:(right; left)))). vm_compute. reflexivity.
Defined.
