(* ===== verification/MarketData.v ===== *)
(** The market-data adapter: adapters/marketdata/alphavantage/alphavantage.go, the source
    of venue volume for the participation component of internal/fleet.

    The provider is an HTTP service ([Transport]); encoding/json is a parameter.  [quoteFor]
    reads the clock first and then holds its mutex twice, around the look-up that spends the
    budget ([admit_request]) and around the store of the answer ([keep]), and not before or
    between them: [market_step] interleaves the three parts of any number of calls. *)

From Stdlib Require Import SpecFloat.
From S2P Require Import Prelude Strings Intent Broker Float64 Wire.
From S2P Require Fleet.

(** * Configuration *)

Record Config := mkConfig {
  APIKey : string;
  BaseURL : string;
  SymbolFor : option (string -> option string);
  DailyRequestBudget : Z;
  CacheTTL : Duration
}.

Definition defaultBaseURL : string := "https://www.alphavantage.co".
Definition MinimumWindow : Duration := 6 * Hour.

Inductive MarketError :=
| ErrConfig (what : string)
| ErrRateLimited
| ErrPremiumEndpoint
| ErrWindowTooShort
| ErrNoSymbol
| ErrProvider (what : string).

Definition New (cfg : Config) : result Config MarketError :=
  if String.eqb (TrimSpace (APIKey cfg)) "" then Err (ErrConfig "an API key is required")
  else if isNil (SymbolFor cfg) then Err (ErrConfig "a symbol resolver is required")
  else Ok (mkConfig (APIKey cfg) (if String.eqb (BaseURL cfg) "" then defaultBaseURL else BaseURL cfg)
             (SymbolFor cfg) (if DailyRequestBudget cfg <=? 0 then 25 else DailyRequestBudget cfg)
             (if CacheTTL cfg <=? 0 then 4 * Hour else CacheTTL cfg)).

(** * Quotes *)

Record quote := mkQuote {
  q_symbol : string;
  q_price : float64;
  q_volume : float64;
  q_tradingDay : string;
  q_fetchedAt : Time
}.

Section Adapter.
(** encoding/json: the raw members of an object, and an object of texts. *)
Context (decode_envelope : string -> option (gmap string string))
  (decode_fields : string -> option (gmap string string)).

(** A missing field is the empty text. *)
Definition text_of (fields : gmap string string) (name : string) : string := default "" (fields !! name).

Definition quote_of (fields : gmap string string) : result quote MarketError :=
  match ParseFloat (text_of fields "05. price"), ParseFloat (text_of fields "06. volume") with
  | Some price, Some volume =>
      if f64_leb price f64_zero || f64_leb volume f64_zero then Err (ErrProvider "a non-positive price or volume")
      else Ok (mkQuote (text_of fields "01. symbol") price volume (text_of fields "07. latest trading day") 0)
  | _, _ => Err (ErrProvider "no usable price or volume")
  end.

Definition parseQuote (raw : string) : result quote MarketError :=
  match decode_envelope raw with
  | None => Err (ErrProvider "unparseable JSON")
  | Some envelope =>
      match envelope !! "Information" with
      | Some info =>
          let text := ToLower info in
          if Contains text "premium" then Err ErrPremiumEndpoint
          else if Contains text "rate limit" || Contains text "requests per day" then Err ErrRateLimited
          else Err (ErrProvider "declined to answer")
      | None =>
          if negb (isNil (envelope !! "Note")) then Err ErrRateLimited
          else if negb (isNil (envelope !! "Error Message")) then Err (ErrProvider "rejected the request")
          else
            match envelope !! "Global Quote" with
            | None => Err (ErrProvider "the response contained no quote")
            | Some body =>
                match decode_fields body with
                | None => Err (ErrProvider "not the expected shape")
                | Some fields =>
                    if bool_decide (fields = ∅) then Err (ErrProvider "no quote for that symbol")
                    else quote_of fields
                end
            end
      end
  end.

Context (cfg : Config).

Definition request (symbol : string) : WireRequest :=
  mkWireRequest MethodGet
    (BaseURL cfg +:+ "/query?apikey=" +:+ QueryEscape (APIKey cfg) +:+ "&function=GLOBAL_QUOTE&symbol=" +:+
     QueryEscape symbol) [] [].

Definition read_answer (x : Exchange) : result quote MarketError :=
  match x with
  | Unreachable => Err (ErrProvider "unreachable")
  | BrokenOff => Err (ErrProvider "response unreadable")
  | Answered status body => if 300 <=? status then Err (ErrProvider "status") else parseQuote body
  end.

(** * The cache and the budget *)

(** [None] is a budget day that was never set. *)
Record Adapter := mkAdapter { ad_cache : gmap string quote; ad_spent : Z; ad_budgetDay : option Z }.

Definition fresh_adapter : Adapter := mkAdapter ∅ 0 None.

(** The UTC day of an instant. *)
Definition day_of (t : Time) : Z := t / (24 * Hour).

Definition cached (a : Adapter) (symbol : string) (now : Time) : option quote :=
  match ad_cache a !! symbol with
  | Some q => if TimeSub now (q_fetchedAt q) <? CacheTTL cfg then Some q else None
  | None => None
  end.

(** The first half of [quoteFor] after the cache: the budget resets, and is spent or not. *)
Definition admit_request (a : Adapter) (now : Time) : Adapter * bool :=
  let spent := if bool_decide (ad_budgetDay a = Some (day_of now)) then ad_spent a else 0 in
  if DailyRequestBudget cfg <=? spent then (mkAdapter (ad_cache a) spent (Some (day_of now)), false)
  else (mkAdapter (ad_cache a) (spent + 1) (Some (day_of now)), true).

(** The second half: the answer is stored as of the call. *)
Definition keep (a : Adapter) (symbol : string) (now : Time) (q : quote) : Adapter * quote :=
  let q := mkQuote (q_symbol q) (q_price q) (q_volume q) (q_tradingDay q) now in
  (mkAdapter (<[symbol := q]> (ad_cache a)) (ad_spent a) (ad_budgetDay a), q).

Definition settle (a : Adapter) (symbol : string) (now : Time) (x : Exchange) : Adapter * result quote MarketError :=
  match read_answer x with
  | Err e => (a, Err e)
  | Ok q => let '(a, q) := keep a symbol now q in (a, Ok q)
  end.

Section Call.
Context {V : Type} `{HT : Transport V} (request_parses : string -> bool).

Definition quoteFor (v : V) (a : Adapter) (ctx : Context) (symbol : string) (now : Time)
    : V * Adapter * result quote MarketError :=
  match cached a symbol now with
  | Some q => (v, a, Ok q)
  | None =>
      match admit_request a now with
      | (a, false) => (v, a, Err ErrRateLimited)
      | (a, true) =>
          if request_parses (wr_URL (request symbol)) then
            let '(v, x) := roundTrip v ctx (request symbol) in
            let '(a, r) := settle a symbol now x in (v, a, r)
          else (v, a, Err (ErrProvider "invalid address"))
      end
  end.

(** The notional and its trading day. *)
Definition VenueVolumeE (v : V) (a : Adapter) (ctx : Context) (instrumentID : string) (w : Fleet.Window) (now : Time)
    : V * Adapter * result (float64 * string) MarketError :=
  if Fleet.WindowDuration w <? MinimumWindow then (v, a, Err ErrWindowTooShort)
  else
    match default (fun _ => None) (SymbolFor cfg) instrumentID with
    | None => (v, a, Err ErrNoSymbol)
    | Some symbol =>
        match quoteFor v a ctx symbol now with
        | (v, a, Err e) => (v, a, Err e)
        | (v, a, Ok q) => (v, a, Ok (f64_mul (q_volume q) (q_price q), q_tradingDay q))
        end
    end.

Definition VenueVolume (v : V) (a : Adapter) (instrumentID : string) (w : Fleet.Window) (now : Time)
    : V * Adapter * option float64 :=
  match VenueVolumeE v a None instrumentID w now with
  | (v, a, Ok (notional, _)) => (v, a, Some notional)
  | (v, a, Err _) => (v, a, None)
  end.
End Call.

Definition Budget (a : Adapter) : Z * Z := (ad_spent a, DailyRequestBudget cfg).

(** * Calls at once *)

(** A call reads the clock, takes the lock, and later has its answer: the calls that have
    read the clock and not yet taken the lock, those that sent their request and have no
    answer yet, and the day every request was sent for. *)
Record System := mkSystem {
  sy_adapter : Adapter;
  sy_started : list (string * Time);
  sy_pending : list (string * Time);
  sy_sent : list Z
}.

Inductive market_op :=
| Begin (symbol : string) (now : Time)
| Enter (call : nat)
| Arrives (call : nat) (x : Exchange).

Definition market_step (s : System) (op : market_op) : System :=
  match op with
  | Begin symbol now => mkSystem (sy_adapter s) (sy_started s ++ [(symbol, now)]) (sy_pending s) (sy_sent s)
  | Enter call =>
      match sy_started s !! call with
      | None => s
      | Some (symbol, now) =>
          let started := delete call (sy_started s) in
          match cached (sy_adapter s) symbol now with
          | Some _ => mkSystem (sy_adapter s) started (sy_pending s) (sy_sent s)
          | None =>
              match admit_request (sy_adapter s) now with
              | (a, false) => mkSystem a started (sy_pending s) (sy_sent s)
              | (a, true) => mkSystem a started (sy_pending s ++ [(symbol, now)]) (sy_sent s ++ [day_of now])
              end
          end
      end
  | Arrives call x =>
      match sy_pending s !! call with
      | None => s
      | Some (symbol, now) =>
          mkSystem (fst (settle (sy_adapter s) symbol now x)) (sy_started s) (delete call (sy_pending s)) (sy_sent s)
      end
  end.

Definition quiet : System := mkSystem fresh_adapter [] [] [].

Definition requests_on (day : Z) (s : System) : Z := Z.of_nat (length (List.filter (Z.eqb day) (sy_sent s))).

(** A call that asks for a request under the lock with a clock reading of a day before the
    one the budget is at. *)
Definition straggler (s : System) (op : market_op) : bool :=
  match op with
  | Enter call =>
      match sy_started s !! call, ad_budgetDay (sy_adapter s) with
      | Some (symbol, now), Some today => isNil (cached (sy_adapter s) symbol now) && (day_of now <? today)
      | _, _ => false
      end
  | _ => false
  end.

Fixpoint stragglers (s : System) (ops : list market_op) : Z :=
  match ops with
  | [] => 0
  | op :: ops => Z.b2z (straggler s op) + stragglers (market_step s op) ops
  end.

(** ** The budget *)

(** What was sent for a day: a budget for each straggler so far and, by where the budget's
    day stands, nothing, what is spent, or one budget more. *)
Definition within_budget (day k : Z) (s : System) : Prop :=
  0 <= ad_spent (sy_adapter s) <= DailyRequestBudget cfg /\
  match ad_budgetDay (sy_adapter s) with
  | None => requests_on day s <= 0
  | Some today =>
      requests_on day s <= DailyRequestBudget cfg * k +
        (if today <? day then 0 else if today =? day then ad_spent (sy_adapter s) else DailyRequestBudget cfg)
  end.

Lemma settle_budget a symbol now x :
  ad_spent (fst (settle a symbol now x)) = ad_spent a /\
  ad_budgetDay (fst (settle a symbol now x)) = ad_budgetDay a.
Proof. unfold settle. by destruct (read_answer x). Qed.

Lemma requests_on_app day l a st p s :
  requests_on day (mkSystem a st p (sy_sent s ++ l)) =
  requests_on day s + Z.of_nat (length (List.filter (Z.eqb day) l)).
Proof. unfold requests_on. cbn. rewrite List.filter_app, length_app. lia. Qed.

(** The reset at a new day, and one straggler more when that day is an earlier one. *)
Lemma within_budget_reset day k s now :
  0 <= DailyRequestBudget cfg -> 0 <= k -> within_budget day k s ->
  let late := match ad_budgetDay (sy_adapter s) with Some today => day_of now <? today | None => false end in
  let spent := if bool_decide (ad_budgetDay (sy_adapter s) = Some (day_of now)) then ad_spent (sy_adapter s) else 0 in
  0 <= spent <= DailyRequestBudget cfg /\
  requests_on day s <= DailyRequestBudget cfg * (k + Z.b2z late) +
    (if day_of now <? day then 0 else if day_of now =? day then spent else DailyRequestBudget cfg).
Proof.
  intros HB Hk [Hs Hr]. cbn zeta. set (e := day_of now) in *.
  destruct (ad_budgetDay (sy_adapter s)) as [today|].
  - destruct (bool_decide_reflect (Some today = Some e)) as [[= ->]|Hne]; (split; [lia|]).
    + rewrite Z.ltb_irrefl. cbn. rewrite Z.add_0_r. done.
    + assert (today <> e) by congruence.
      destruct (Z.ltb_spec e today), (Z.ltb_spec today day), (Z.eqb_spec today day), (Z.ltb_spec e day), (Z.eqb_spec e day);
        cbn [Z.b2z]; nia.
  - rewrite bool_decide_eq_false_2 by done. split; [lia|]. cbn [Z.b2z].
    rewrite Z.add_0_r. pose proof (Z.mul_nonneg_nonneg _ _ HB Hk). destruct (e <? day), (e =? day); lia.
Qed.

Lemma within_budget_step day k s op :
  0 <= DailyRequestBudget cfg -> 0 <= k -> within_budget day k s ->
  within_budget day (k + Z.b2z (straggler s op)) (market_step s op).
Proof.
  intros HB Hk Hw. destruct op as [symbol now|call|call x]; cbn [market_step straggler].
  - cbn. by rewrite Z.add_0_r.
  - destruct (sy_started s !! call) as [[symbol now]|]; [|cbn; by rewrite Z.add_0_r].
    pose proof (within_budget_reset day k s now HB Hk Hw) as [Hs Hr]. cbn zeta in Hs, Hr.
    destruct (cached (sy_adapter s) symbol now); cbn [isNil].
    { replace (match ad_budgetDay _ with Some _ => _ | None => _ end) with false by (by destruct (ad_budgetDay _)).
      cbn [Z.b2z]. by rewrite Z.add_0_r. }
    cbn [andb]. unfold admit_request. set (spent := if bool_decide _ then _ else 0) in *.
    destruct (Z.leb_spec (DailyRequestBudget cfg) spent) as [Hfull|Hfree]; split; cbn [sy_adapter ad_spent ad_budgetDay].
    + lia.
    + exact Hr.
    + lia.
    + rewrite requests_on_app. cbn [List.filter]. rewrite (Z.eqb_sym day).
      destruct (Z.ltb_spec (day_of now) day), (Z.eqb_spec (day_of now) day); cbn [length]; lia.
  - cbn [Z.b2z]. rewrite Z.add_0_r. destruct (sy_pending s !! call) as [[symbol now]|]; [|done].
    destruct (settle_budget (sy_adapter s) symbol now x) as [Es Ed]. unfold within_budget. cbn [sy_adapter].
    rewrite Es, Ed. exact Hw.
Qed.

Lemma within_budget_run day ops : forall k s,
  0 <= DailyRequestBudget cfg -> 0 <= k -> within_budget day k s ->
  within_budget day (k + stragglers s ops) (run_ops market_step s ops).
Proof.
  induction ops as [|op ops IH]; intros k s HB Hk Hw; cbn [stragglers run_ops foldl]; [by rewrite Z.add_0_r|].
  rewrite Z.add_assoc. apply IH; [done | destruct (straggler s op); cbn; lia | by apply within_budget_step].
Qed.

Lemma stragglers_nonneg ops : forall s, 0 <= stragglers s ops.
Proof.
  induction ops as [|op l IH]; intros s; cbn [stragglers]; [done|].
  specialize (IH (market_step s op)). destruct (straggler s op); cbn; lia.
Qed.

(** C37: The daily budget holds, but for stragglers.  However calls overlap, read the clock,
    take the lock, and their answers come, be late or fail: the requests of a day are no more
    than the budget, and as many again for every call that reaches the lock, and is not
    answered from the cache, with a clock reading of a day the budget has left. *)
Theorem daily_budget_is_kept (ops : list market_op) (day : Z) :
  0 <= DailyRequestBudget cfg ->
  requests_on day (run_ops market_step quiet ops) <= DailyRequestBudget cfg * (1 + stragglers quiet ops).
Proof.
  intros HB. pose proof (within_budget_run day ops 0 quiet HB) as H.
  destruct H as [Hs Hr]; [done | by split|].
  pose proof (stragglers_nonneg ops quiet) as H0. destruct (ad_budgetDay _) as [today|]; [|nia].
  destruct (today <? day), (today =? day); nia.
Qed.

(** ** What an answer rests on *)

(** Every cached quote passed the check on its numbers. *)
Definition sound (a : Adapter) : Prop := forall symbol q, ad_cache a !! symbol = Some q ->
  f64_leb (q_price q) f64_zero = false /\ f64_leb (q_volume q) f64_zero = false.

Lemma quote_of_positive fields q :
  quote_of fields = Ok q -> f64_leb (q_price q) f64_zero = false /\ f64_leb (q_volume q) f64_zero = false.
Proof.
  unfold quote_of. destruct (ParseFloat (text_of fields "05. price")) as [price|]; [|done].
  destruct (ParseFloat (text_of fields "06. volume")) as [volume|]; [|done].
  destruct (f64_leb price f64_zero) eqn:Ep; [done|]. destruct (f64_leb volume f64_zero) eqn:Ev; [done|].
  intros [= <-]. done.
Qed.

Lemma parseQuote_ok raw q :
  parseQuote raw = Ok q ->
  exists envelope body fields, decode_envelope raw = Some envelope /\
    envelope !! "Information" = None /\ envelope !! "Note" = None /\ envelope !! "Error Message" = None /\
    envelope !! "Global Quote" = Some body /\ decode_fields body = Some fields /\ quote_of fields = Ok q.
Proof.
  unfold parseQuote. destruct (decode_envelope raw) as [envelope|]; [|done].
  destruct (envelope !! "Information") as [info|] eqn:E1; [by destruct (Contains (ToLower info) "premium"); [|destruct (_ || _)]|].
  destruct (envelope !! "Note") eqn:E2; [done|]. destruct (envelope !! "Error Message") eqn:E3; [done|]. cbn.
  destruct (envelope !! "Global Quote") as [body|] eqn:E4; [|done].
  destruct (decode_fields body) as [fields|] eqn:E5; [|done]. destruct (bool_decide _); [done|].
  intros H. by exists envelope, body, fields.
Qed.

Lemma settle_ok a symbol now x a' q :
  settle a symbol now x = (a', Ok q) ->
  ad_cache a' = <[symbol := q]> (ad_cache a) /\ q_fetchedAt q = now /\
  exists status body q0, x = Answered status body /\ status < 300 /\ parseQuote body = Ok q0 /\
    q_price q = q_price q0 /\ q_volume q = q_volume q0.
Proof.
  unfold settle, read_answer. destruct x as [| |status body]; [done..|].
  destruct (Z.leb_spec 300 status); [done|]. destruct (parseQuote body) as [q0|] eqn:E; [|done].
  cbn. intros [= <- <-]. split_and!; [done..|]. by exists status, body, q0.
Qed.

Lemma settle_err a symbol now x a' e : settle a symbol now x = (a', Err e) -> a' = a.
Proof. unfold settle. destruct (read_answer x); [done|]. by intros [= -> _]. Qed.

Lemma sound_settle a symbol now x : sound a -> sound (fst (settle a symbol now x)).
Proof.
  intros H. destruct (settle a symbol now x) as [a' [q|e]] eqn:E; [|by apply settle_err in E as ->].
  apply settle_ok in E as (Hc & _ & status & body & q0 & _ & _ & Hp & Hpr & Hv). intros s1 q1. cbn. rewrite Hc.
  intros [[<- <-]|[_ Hq]]%lookup_insert_Some; [|by apply (H s1)].
  apply parseQuote_ok in Hp as (? & ? & fields & _ & _ & _ & _ & _ & _ & Hq). rewrite Hpr, Hv.
  by apply (quote_of_positive fields).
Qed.

Lemma admit_cache a now : ad_cache (fst (admit_request a now)) = ad_cache a.
Proof. unfold admit_request. by destruct (_ <=? _). Qed.

Section Call.
Context {V : Type} `{HT : Transport V} (request_parses : string -> bool).

Lemma quoteFor_ok v a ctx symbol now v' a' q :
  sound a -> quoteFor request_parses v a ctx symbol now = (v', a', Ok q) ->
  sound a' /\ ad_cache a' !! symbol = Some q /\
  ((a' = a /\ v' = v /\ TimeSub now (q_fetchedAt q) < CacheTTL cfg) \/
   (q_fetchedAt q = now /\ exists status body q0, roundTrip v ctx (request symbol) = (v', Answered status body) /\
      status < 300 /\ parseQuote body = Ok q0 /\ q_price q = q_price q0 /\ q_volume q = q_volume q0)).
Proof.
  intros Hs. unfold quoteFor. destruct (cached a symbol now) as [q1|] eqn:Ec.
  - intros [= <- <- <-]. unfold cached in Ec. destruct (ad_cache a !! symbol) as [q2|] eqn:El; [|done].
    destruct (Z.ltb_spec (TimeSub now (q_fetchedAt q2)) (CacheTTL cfg)); [|done]. injection Ec as ->. split_and!; [done | done | by left].
  - pose proof (admit_cache a now) as Hadm. destruct (admit_request a now) as [a1 [|]]; [|done]. cbn in Hadm.
    destruct (request_parses _); [|done]. destruct (roundTrip v ctx (request symbol)) as [v1 x] eqn:Ex.
    destruct (settle a1 symbol now x) as [a2 r] eqn:Es. intros [= -> -> ->].
    assert (sound a1) as Hs1 by (unfold sound; by rewrite Hadm).
    pose proof (sound_settle a1 symbol now x Hs1) as Hs2. rewrite Es in Hs2.
    apply settle_ok in Es as (Hc & Hf & status & body & q0 & -> & Hst & Hp & Hpr & Hv).
    split_and!; [done | by rewrite Hc, lookup_insert_eq |]. right. split; [done|]. by exists status, body, q0.
Qed.

(** A volume rests on an answer of the provider.  The adapter says a volume only for a
    window of a session or more and a mapped instrument, and it is the product of a quote's
    numbers: one that came with a status below 300 in a body that holds a quote and none of
    the provider's three refusals, either now or so recently that it is still to be reused,
    and neither number is zero or less.  Anything else is unknown. *)
Theorem volume_rests_on_an_answer (v v' : V) (a a' : Adapter) (instrument : string) (w : Fleet.Window) (now : Time)
    (x : float64) :
  sound a -> VenueVolume request_parses v a instrument w now = (v', a', Some x) ->
  MinimumWindow <= Fleet.WindowDuration w /\ sound a' /\
  exists symbol q, default (fun _ => None) (SymbolFor cfg) instrument = Some symbol /\
    ad_cache a' !! symbol = Some q /\ x = f64_mul (q_volume q) (q_price q) /\
    f64_leb (q_price q) f64_zero = false /\ f64_leb (q_volume q) f64_zero = false /\
    ((v' = v /\ TimeSub now (q_fetchedAt q) < CacheTTL cfg) \/
     (q_fetchedAt q = now /\ exists status body envelope, roundTrip v None (request symbol) = (v', Answered status body) /\
        status < 300 /\ decode_envelope body = Some envelope /\ envelope !! "Information" = None /\
        envelope !! "Note" = None /\ envelope !! "Error Message" = None)).
Proof.
  intros Hs. unfold VenueVolume, VenueVolumeE. destruct (Z.ltb_spec (Fleet.WindowDuration w) MinimumWindow); [done|].
  destruct (default _ (SymbolFor cfg) instrument) as [symbol|] eqn:Esym; [|done].
  destruct (quoteFor request_parses v a None symbol now) as [[v1 a1] [q|e]] eqn:E; [|done].
  intros [= <- <- <-]. apply quoteFor_ok in E as (Hs' & Hc & Hwhy); [|done]. split_and!; [done | done |].
  exists symbol, q. destruct (Hs' symbol q Hc) as [Hp Hv]. split_and!; [done..|].
  destruct Hwhy as [(_ & -> & Httl)|(Hf & status & body & q0 & Hx & Hst & Hq & _)]; [by left|]. right.
  apply parseQuote_ok in Hq as (envelope & ? & ? & He & H1 & H2 & H3 & _). split; [done|].
  by exists status, body, envelope.
Qed.
End Call.

End Adapter.

(** ** Numbers that are none *)

(** A price that reads as NaN passes the check that refuses prices of zero or less, and the
    participation computed over it is reported as known. *)
Theorem volume_that_is_no_number :
  exists q, quote_of {[ "05. price" := "NaN"; "06. volume" := "1000" ]} = Ok q /\
    is_nan (f64_mul (q_volume q) (q_price q)) = true /\
    forall c w m, let p := Fleet.participation c w m (Some (fun _ _ => Some (f64_mul (q_volume q) (q_price q)))) in
      foldl (fun i p => if String.eqb (Fleet.Field p) Fleet.FieldInstrument then Fleet.Value p else i) ""
        (Fleet.co_Predicates c) <> "" ->
      Fleet.cp_Known p = true /\ is_nan (Fleet.cp_Value p) = true.
Proof.
  eexists. split; [vm_compute; reflexivity|]. split; [vm_compute; reflexivity|].
  intros c w m p H. subst p. unfold Fleet.participation.
  destruct (String.eqb_spec (foldl (fun i p => if String.eqb (Fleet.Field p) Fleet.FieldInstrument then Fleet.Value p
    else i) "" (Fleet.co_Predicates c)) ""); [done|].
  match goal with |- context [f64_leb ?x _] => change (f64_leb x f64_zero) with false end.
  split; [done|]. cbn [Fleet.cp_Value]. unfold f64_div, SFdiv. cbn. by destruct (Fleet.ms_GrossNotional m).
Qed.

(** * Witnesses *)

(** A provider that answers every request alike. *)
#[local] Instance constant_provider : Transport Exchange := {| roundTrip := fun v _ _ => (v, v) |}.

Definition demo_envelope (body : string) : option (gmap string string) :=
  Some {[ (if String.eqb body "note" then "Note" else "Global Quote") := body ]}.
Definition demo_fields (_ : string) : option (gmap string string) :=
  Some {[ "01. symbol" := "AAPL"; "05. price" := "2.5"; "06. volume" := "1000"; "07. latest trading day" := "d" ]}.
Definition one_a_day : Config := mkConfig "key" defaultBaseURL (Some Some) 1 Hour.
Definition session : Fleet.Window := Fleet.mkWindow 0 (7 * Hour).

(** Two calls at once and a third the next day. *)
Definition three_calls : list market_op :=
  [Begin "AAPL" 10; Begin "MSFT" 20; Enter 1; Enter 0; Arrives 0 (Answered 200 "quote");
   Begin "AAPL" (24 * Hour + 5); Enter 0].

(** A call that reads the clock before midnight and takes the lock after the first call of
    the new day. *)
Definition over_midnight : list market_op :=
  [Begin "AAPL" (24 * Hour - 1); Begin "MSFT" (24 * Hour + 1); Enter 1; Enter 0; Begin "IBM" (24 * Hour + 2); Enter 0].

Definition one_a_day_step := market_step demo_envelope demo_fields one_a_day.

Example daily_budget_is_kept_witness :
  requests_on 0 (run_ops one_a_day_step quiet three_calls) = 1 /\
  stragglers demo_envelope demo_fields one_a_day quiet three_calls = 0 /\
  requests_on 1 (run_ops one_a_day_step quiet three_calls) <= 1 * (1 + 0).
Proof.
  do 2 (split; [vm_compute; reflexivity|]).
  apply (daily_budget_is_kept demo_envelope demo_fields one_a_day three_calls 1). cbn. lia.
Defined.

(** The clock is read before the lock is taken, so that clock readings that never go back are
    not enough: one straggler makes the budget of the day begin again. *)
Theorem straggler_resets_the_budget :
  let s := run_ops one_a_day_step quiet over_midnight in
  DailyRequestBudget one_a_day = 1 /\ sy_sent s = [1; 0; 1] /\ requests_on 1 s = 2 /\
  stragglers demo_envelope demo_fields one_a_day quiet over_midnight = 1.
Proof. vm_compute. done. Qed.

Definition asked (answer : Exchange) : Exchange * Adapter * option float64 :=
  VenueVolume demo_envelope demo_fields one_a_day (fun _ => true) answer fresh_adapter "AAPL" session 10.

Example volume_rests_on_an_answer_witness :
  snd (asked (Answered 200 "note")) = None /\ snd (asked Unreachable) = None /\
  exists v a x, asked (Answered 200 "quote") = (v, a, Some x) /\ sound a.
Proof.
  do 2 (split; [vm_compute; reflexivity|]).
  destruct (asked (Answered 200 "quote")) as [[v a] [x|]] eqn:E;
    [|exfalso; apply (f_equal (fun y => match snd y with Some _ => true | None => false end)) in E;
      vm_compute in E; discriminate E].
  exists v, a, x. split; [reflexivity|].
  refine (proj1 (proj2 (volume_rests_on_an_answer demo_envelope demo_fields one_a_day (fun _ => true)
    (Answered 200 "quote") v fresh_adapter a "AAPL" session 10 x _ E))).
  intros symbol q H. discriminate H.
Defined.
