(* ===== verification/ObjectStore.v ===== *)
(** The archive destination: adapters/objectstore/s3.go.

    A client of an S3-compatible service.  The service is an interface ([Bucket]) with what
    its protocol promises ([BucketLaws]): it acts on a request whose signature is the one
    Signature Version 4 prescribes and on no other, and an answer of 200 means that it did;
    redirects, which the HTTP client follows, are on the service's side of the interface.
    SHA-256 ([Crypto]), HMAC and the two formats of time are parameters.  What the client
    gives the exporter is the object store of [Retention]. *)

From S2P Require Import Prelude Strings Money Intent CanonicalJSON Crypto Broker Wire.
From S2P Require Retention.

Record Config := mkConfig {
  Endpoint : string;
  AccessKey : string;
  SecretKey : string;
  Bucket_ : string;
  Region : string;
  UseTLS : bool
}.

(** A request as it leaves: the path is not yet escaped. *)
Record S3Request := mkS3Request {
  sr_Method : string;
  sr_Scheme : string;
  sr_Host : string;
  sr_Path : string;
  sr_Body : string;
  sr_Headers : list (string * string)
}.

Definition MethodHead : string := "HEAD".
Definition MethodPut : string := "PUT".

Definition nl : string := String (Ascii.ascii_of_nat 10) "".
Definition slash : Ascii.ascii := "/"%char.

(** [strings.ReplaceAll(p, "+", "%20")] *)
Definition plus_as_space (s : string) : string :=
  str_of_bytes (flat_map (fun b => if (b =? 43)%nat then bytes "%20" else [b]) (bytes s)).

Definition escapePath (path : string) : string :=
  Join slash (map (fun p => plus_as_space (PathEscape p)) (Split slash path)).

Section Client.
Context {C : Crypto} (hmac : bytes_t -> bytes_t -> bytes_t).
(** The formats 20060102T150405Z and 20060102. *)
Context (stamp_text day_text : Time -> string).

Definition sha256sum (s : string) : string := EncodeToString (sha256 (bytes s)).
Definition hmacSHA256 (key : bytes_t) (data : string) : bytes_t := hmac key (bytes data).

Definition signed_headers : string := "host;x-amz-content-sha256;x-amz-date".

Definition canonical (method escaped host payloadHash stamp : string) : string :=
  method +:+ nl +:+ escaped +:+ nl +:+ nl +:+
  "host:" +:+ host +:+ nl +:+ "x-amz-content-sha256:" +:+ payloadHash +:+ nl +:+
  "x-amz-date:" +:+ stamp +:+ nl +:+ nl +:+ signed_headers +:+ nl +:+ payloadHash.

Definition scope (day region : string) : string := day +:+ "/" +:+ region +:+ "/s3/aws4_request".

Definition toSign (stamp scope canonical : string) : string :=
  "AWS4-HMAC-SHA256" +:+ nl +:+ stamp +:+ nl +:+ scope +:+ nl +:+ sha256sum canonical.

Definition signing_key (secret day region : string) : bytes_t :=
  hmacSHA256 (hmacSHA256 (hmacSHA256 (hmacSHA256 (bytes ("AWS4" +:+ secret)) day) region) "s3") "aws4_request".

Definition signature (secret day region text : string) : string :=
  EncodeToString (hmacSHA256 (signing_key secret day region) text).

(** The text a request is signed by, its path escaped by [escape]. *)
Definition signed_text (escape : string -> string) (cfg : Config) (method host path body : string) (at_ : Time)
    : string :=
  toSign (stamp_text at_) (scope (day_text at_) (Region cfg))
    (canonical method (escape path) host (sha256sum body) (stamp_text at_)).

Definition authorization (escape : string -> string) (cfg : Config) (method host path body : string) (at_ : Time)
    : string :=
  "AWS4-HMAC-SHA256 Credential=" +:+ AccessKey cfg +:+ "/" +:+ scope (day_text at_) (Region cfg) +:+
  ", SignedHeaders=" +:+ signed_headers +:+ ", Signature=" +:+
  signature (SecretKey cfg) (day_text at_) (Region cfg) (signed_text escape cfg method host path body at_).

Definition sign (cfg : Config) (method host path body : string) (at_ : Time) : list (string * string) :=
  [("Host", host); ("X-Amz-Date", stamp_text at_); ("X-Amz-Content-Sha256", sha256sum body);
   ("Authorization", authorization escapePath cfg method host path body at_)].

Definition path_of (cfg : Config) (key : string) : string :=
  "/" +:+ Bucket_ cfg +:+ (if String.eqb key "" then "" else "/" +:+ key).

Definition request (cfg : Config) (method key body : string) (at_ : Time) : S3Request :=
  mkS3Request method (if UseTLS cfg then "https" else "http") (Endpoint cfg) (path_of cfg key) body
    (sign cfg method (Endpoint cfg) (path_of cfg key) body at_).

(** What comes back: nothing, or a status with a body that may break off. *)
Inductive Reply := NoReply | Replied (status : Z) (body : option string).

(** A service: what it becomes and answers, what it holds by path. *)
Class Bucket (V : Type) := {
  serve : V -> S3Request -> V * Reply;
  contents : V -> gmap string string
}.

Inductive StoreError := NotConfigured | Unusable | PutFailed | GetFailed | BadAddress.

Section Calls.
Context {V : Type} `{HB : Bucket V} (request_parses : S3Request -> bool).

Definition answered_ok (x : Reply) : bool :=
  match x with Replied status _ => status =? 200 | NoReply => false end.

Definition New (v : V) (cfg : Config) (at_ : Time) : V * result Config StoreError :=
  if String.eqb (Endpoint cfg) "" || String.eqb (Bucket_ cfg) "" then (v, Err NotConfigured)
  else
    let cfg := mkConfig (Endpoint cfg) (AccessKey cfg) (SecretKey cfg) (Bucket_ cfg)
                 (if String.eqb (Region cfg) "" then "us-east-1" else Region cfg) (UseTLS cfg) in
    let r := request cfg MethodHead "" "" at_ in
    if request_parses r then
      let '(v, x) := serve v r in
      (v, if answered_ok x then Ok cfg else Err Unusable)
    else (v, Err BadAddress).

Definition with_header (r : S3Request) (name value : string) : S3Request :=
  mkS3Request (sr_Method r) (sr_Scheme r) (sr_Host r) (sr_Path r) (sr_Body r) (sr_Headers r ++ [(name, value)]).

Definition Put (cfg : Config) (v : V) (key body : string) (at_ : Time) : V * option StoreError :=
  let r := request cfg MethodPut key body at_ in
  if request_parses r then
    let '(v, x) := serve v (with_header r "Content-Type" "application/x-ndjson") in
    (v, if answered_ok x then None else Some PutFailed)
  else (v, Some BadAddress).

Definition Get (cfg : Config) (v : V) (key : string) (at_ : Time) : V * result string StoreError :=
  let r := request cfg MethodGet key "" at_ in
  if request_parses r then
    let '(v, x) := serve v r in
    (v, match x with
        | Replied status (Some body) => if status =? 200 then Ok body else Err GetFailed
        | Replied _ None | NoReply => Err GetFailed
        end)
  else (v, Err BadAddress).
End Calls.

(** * The protocol *)

(** The escaping Signature Version 4 prescribes: every byte but the unreserved ones and the
    separators. *)
Definition aws_escape (path : string) : string :=
  str_of_bytes (flat_map (fun b => if (b =? 47)%nat || unreserved b then [b] else percent_byte b) (bytes path)).

(** The service knows the client's secret and finds the request signed as prescribed. *)
Definition accepts (cfg : Config) (r : S3Request) : Prop :=
  exists at_, ("X-Amz-Date", stamp_text at_) ∈ sr_Headers r /\
    ("Authorization", authorization aws_escape cfg (sr_Method r) (sr_Host r) (sr_Path r) (sr_Body r) at_) ∈ sr_Headers r.

(** What the service promises to the holder of the credentials [cfg]. *)
Class BucketLaws (V : Type) `{HB : Bucket V} (cfg : Config) : Prop := {
  bl_refused v r v' x : serve v r = (v', x) -> ~ accepts cfg r ->
    contents v' = contents v /\ forall body, x <> Replied 200 body;
  bl_read v r v' x : serve v r = (v', x) -> sr_Method r = MethodGet \/ sr_Method r = MethodHead ->
    contents v' = contents v /\
    forall body, x = Replied 200 (Some body) -> sr_Method r = MethodGet -> contents v !! sr_Path r = Some body;
  bl_put v r v' x : serve v r = (v', x) -> sr_Method r = MethodPut ->
    contents v' = <[sr_Path r := sr_Body r]> (contents v) \/
    (contents v' = contents v /\ forall body, x <> Replied 200 body)
}.

(** Only the answer 200 is a success. *)
Lemma answered_ok_spec x : answered_ok x = true <-> exists body, x = Replied 200 body.
Proof.
  destruct x as [|status body]; cbn; [naive_solver|]. rewrite Z.eqb_eq. naive_solver.
Qed.

Lemma not_answered x : (forall body, x <> Replied 200 body) -> answered_ok x = false.
Proof.
  intros H. apply not_true_is_false. intros (body & E)%answered_ok_spec. by apply (H body).
Qed.

(** * The client is the exporter's object store *)

Lemma str_app_inv_head a b c : a +:+ b = a +:+ c -> b = c.
Proof. induction a as [|x a IH]; cbn; [done|]. intros [= H]. by apply IH. Qed.

Lemma path_of_inj cfg k1 k2 : path_of cfg k1 = path_of cfg k2 -> k1 = k2.
Proof.
  unfold path_of. intros H. injection H as H. apply str_app_inv_head in H.
  destruct (String.eqb_spec k1 "") as [E1|], (String.eqb_spec k2 "") as [E2|]; try congruence; try done.
Qed.

Section Refinement.
Context {V : Type} (cfg : Config) `{HB : Bucket V} {BL : BucketLaws V cfg} (request_parses : S3Request -> bool).

(** The service holds the archives [o] under the client's bucket. *)
Definition stores (v : V) (o : gmap string string) : Prop := forall key, o !! key = contents v !! path_of cfg key.

Lemma stores_insert v v' o key body :
  stores v o -> contents v' = <[path_of cfg key := body]> (contents v) -> stores v' (<[key := body]> o).
Proof.
  intros H Hv k. rewrite Hv. destruct (decide (k = key)) as [->|Hne]; [by rewrite !lookup_insert_eq|].
  rewrite !lookup_insert_ne; [apply H | | done]. intros E. by apply path_of_inj in E.
Qed.

(** C22: The client refines the archive's object store.  Whatever the service and the network
    do with a request, an upload is one of the three things the exporter reckons with: done
    and reported, refused with nothing changed, or done without an answer; and what is read
    back is what the store holds, or nothing. *)
Theorem archive_client_refines_the_store (v : V) (o : gmap string string) (key body : string) (at_ : Time) :
  stores v o ->
  (let '(v', e) := Put request_parses cfg v key body at_ in
   exists f, stores v' (Retention.Put f o key body) /\ (e = None <-> Retention.put_ok f = true)) /\
  (let '(v', r) := Get request_parses cfg v key at_ in
   stores v' o /\ exists up, Retention.Get up o key = match r with Ok b => Some b | Err _ => None end).
Proof.
  intros Hs. unfold Put, Get. split.
  - destruct (request_parses _); [|by exists Retention.PutRefused].
    destruct (serve v _) as [v' x] eqn:E. destruct (bl_put _ _ _ _ E eq_refl) as [Hc|[Hc Hx]].
    + destruct (answered_ok x); [exists Retention.PutDone | exists Retention.PutLost]; (split; [|done]);
        by apply (stores_insert v).
    + exists Retention.PutRefused. rewrite (not_answered _ Hx). split; [|done]. intros k. cbn. by rewrite Hc.
  - destruct (request_parses _); [|by split; [|exists false]].
    destruct (serve v _) as [v' x] eqn:E. destruct (bl_read _ _ _ _ E (or_introl eq_refl)) as [Hc Hb].
    split; [intros k; by rewrite Hc|]. destruct x as [|status [b|]]; [by exists false | | by exists false].
    destruct (Z.eqb_spec status 200) as [->|]; [|by exists false]. exists true. cbn.
    rewrite (Hs key). by apply Hb.
Qed.
End Refinement.

(** * What is signed *)

(** [escapePath] of one byte. *)
Definition path_byte (b : nat) : bytes_t :=
  if (b =? 47)%nat then [b] else flat_map (fun b => if (b =? 43)%nat then bytes "%20" else [b]) (segment_byte b).

Lemma byte_forallb (p : nat -> bool) b : is_byte b -> forallb p (seq 0 256) = true -> p b = true.
Proof. intros Hb H. rewrite forallb_forall in H. apply H, in_seq. unfold is_byte in Hb. lia. Qed.

(** One segment, escaped. *)
Lemma escape_segment s :
  plus_as_space (PathEscape s) =
  str_of_bytes (flat_map (fun b => flat_map (fun b => if (b =? 43)%nat then bytes "%20" else [b]) (segment_byte b))
    (bytes s)).
Proof.
  unfold plus_as_space, PathEscape. rewrite bytes_str_of_bytes.
  - f_equal. induction (bytes s) as [|b l IH]; [done|]. cbn [flat_map]. by rewrite flat_map_app, IH.
  - eapply Forall_flat_map; [apply segment_byte_bytes | apply bytes_are_bytes].
Qed.

Lemma str_of_bytes_app l1 l2 : str_of_bytes (l1 ++ l2) = str_of_bytes l1 +:+ str_of_bytes l2.
Proof. induction l1 as [|b l1 IH]; [done|]. cbn. by f_equal. Qed.

(** The segments are escaped byte by byte. *)
Lemma escapePath_bytes s : escapePath s = str_of_bytes (flat_map path_byte (bytes s)).
Proof.
  unfold escapePath. induction s as [|c s IH]; [done|].
  change (bytes (String c s)) with (Ascii.nat_of_ascii c :: bytes s). cbn [flat_map Split].
  rewrite str_of_bytes_app, <- IH. destruct (Ascii.eqb_spec c slash) as [->|Hc].
  - cbn [map]. destruct (map _ (Split slash s)) eqn:E; [by destruct s; cbn in E; [|destruct (Ascii.eqb _ _) in E; [|destruct (Split _ _) in E]]|].
    reflexivity.
  - assert (path_byte (Ascii.nat_of_ascii c) =
      flat_map (fun b => if (b =? 43)%nat then bytes "%20" else [b]) (segment_byte (Ascii.nat_of_ascii c))) as ->.
    { unfold path_byte. destruct (Nat.eqb_spec (Ascii.nat_of_ascii c) 47) as [E|]; [|done].
      exfalso. apply Hc. by rewrite <- (Ascii.ascii_nat_embedding c), E. }
    destruct (Split slash s) as [|h t] eqn:E.
    { exfalso. destruct s; cbn in E; [done|]. destruct (Ascii.eqb _ _); [done|]. by destruct (Split _ _). }
    cbn [map]. rewrite !escape_segment. change (bytes (String c h)) with (Ascii.nat_of_ascii c :: bytes h).
    cbn [flat_map]. rewrite str_of_bytes_app. destruct (map _ t); [done|]. cbn [Join].
    by rewrite str_app_assoc.
Qed.

(** A text without the bytes that the client and the protocol escape differently. *)
Definition plain (s : string) : bool := forallb (fun b => negb (byte_of_set (bytes "$&+:=@") b)) (bytes s).

Lemma escapePath_plain s : plain s = true -> escapePath s = aws_escape s.
Proof.
  intros H. rewrite escapePath_bytes. unfold aws_escape, plain in *. f_equal. rewrite forallb_forall in H.
  pose proof (bytes_are_bytes s) as Hb. induction (bytes s) as [|b l IH]; [done|]. cbn [flat_map]. inversion_clear Hb.
  rewrite IH; [|intros; apply H; by right | done]. f_equal. specialize (H b (or_introl eq_refl)).
  pose proof (byte_forallb (fun b => implb (negb (byte_of_set (bytes "$&+:=@") b))
    (bool_decide (path_byte b = (if (b =? 47)%nat || unreserved b then [b] else percent_byte b)))) b) as Hall.
  cbv beta in Hall. rewrite H in Hall. cbn [implb] in Hall. apply (bool_decide_unpack _).
  rewrite Hall; [exact I | done | vm_compute; reflexivity].
Qed.

(** A request for a plain path is signed as the protocol prescribes. *)
Theorem plain_requests_are_accepted (cfg : Config) (method key body : string) (at_ : Time) :
  plain (path_of cfg key) = true -> accepts cfg (request cfg method key body at_).
Proof.
  intros H. exists at_. cbn [request sr_Headers sign sr_Method sr_Host sr_Path sr_Body]. split; [set_solver|].
  unfold authorization, signed_text. rewrite <- (escapePath_plain _ H). do 3 apply list_elem_of_further.
  apply list_elem_of_here.
Qed.
(** ** The signature covers the request *)

Definition newline : Ascii.ascii := Ascii.ascii_of_nat 10.
Definition one_line (s : string) : Prop := str_mem newline s = false.

Lemma str_mem_bytes c s : str_mem c s = existsb (Nat.eqb (Ascii.nat_of_ascii c)) (bytes s).
Proof.
  induction s as [|d s IH]; [done|]. change (bytes (String d s)) with (Ascii.nat_of_ascii d :: bytes s).
  cbn. rewrite IH. f_equal. destruct (Ascii.eqb_spec d c) as [->|Hne]; [by rewrite Nat.eqb_refl|].
  symmetry. apply Nat.eqb_neq. intros H. apply Hne. by rewrite <- (Ascii.ascii_nat_embedding d), <- H, Ascii.ascii_nat_embedding.
Qed.

Lemma one_line_bytes l :
  Forall is_byte l -> forallb (fun b => negb (b =? 10)%nat) l = true -> one_line (str_of_bytes l).
Proof.
  intros Hb H. unfold one_line. rewrite str_mem_bytes, bytes_str_of_bytes by done.
  change (Ascii.nat_of_ascii newline) with 10%nat. induction l as [|b l IH]; [done|]. cbn [forallb] in H.
  apply andb_true_iff in H as [H1 H2]. inversion_clear Hb. change (((10 =? b)%nat || existsb (Nat.eqb 10) l) = false).
  rewrite IH, Nat.eqb_sym, orb_false_r by done. by apply negb_true_iff.
Qed.

Lemma path_byte_bytes b :
  is_byte b -> Forall is_byte (path_byte b) /\ forallb (fun b => negb (b =? 10)%nat) (path_byte b) = true.
Proof.
  intros H. pose proof (byte_forallb (fun b => forallb (fun c => (c <? 256)%nat && negb (c =? 10)%nat) (path_byte b)) b H
    ltac:(vm_compute; reflexivity)) as Hb. cbv beta in Hb. rewrite forallb_forall in Hb. split.
  - apply List.Forall_forall. intros c Hc. apply Hb in Hc. apply andb_true_iff in Hc as [Hc _]. by apply Nat.ltb_lt.
  - apply forallb_forall. intros c Hc. apply Hb in Hc. by apply andb_true_iff in Hc as [_ Hc].
Qed.

Lemma escapePath_one_line s : one_line (escapePath s).
Proof.
  rewrite escapePath_bytes. pose proof (bytes_are_bytes s) as H. apply one_line_bytes.
  - eapply Forall_flat_map; [|done]. intros b Hb. by apply path_byte_bytes.
  - induction H as [|b l Hb _ IH]; [done|]. cbn [flat_map]. rewrite forallb_app, IH, andb_true_r.
    by apply path_byte_bytes.
Qed.

Context {CL : CryptoLaws}.

Lemma sha256sum_one_line s : one_line (sha256sum s).
Proof.
  unfold sha256sum, EncodeToString. pose proof (sha256_bytes (bytes s)) as H.
  apply one_line_bytes; [by apply hex_encode_bytes|]. induction H as [|b l Hb _ IH]; [done|]. cbn [hex_encode forallb].
  rewrite IH, andb_true_r. pose proof (byte_forallb (fun b => negb (hex_digit (b / 16) =? 10)%nat &&
    negb (hex_digit (b mod 16) =? 10)%nat) b Hb ltac:(vm_compute; reflexivity)) as Hd. exact Hd.
Qed.

Lemma sha256sum_inj s t : sha256sum s = sha256sum t -> sha256 (bytes s) = sha256 (bytes t).
Proof.
  intros H. apply (f_equal DecodeString) in H. unfold sha256sum in H.
  rewrite !DecodeString_encode in H by apply sha256_bytes. by injection H.
Qed.

Lemma one_line_app a b : one_line a -> one_line b -> one_line (a +:+ b).
Proof. unfold one_line. rewrite str_mem_app. by intros -> ->. Qed.

Lemma canonical_lines m e h p st :
  canonical m e h p st = Join newline [m; e; ""; "host:" +:+ h; "x-amz-content-sha256:" +:+ p;
    "x-amz-date:" +:+ st; ""; signed_headers; p].
Proof.
  unfold canonical. cbn [Join]. change nl with (String newline "").
  by rewrite <- ?str_app_assoc.
Qed.

Lemma toSign_lines st sc c : toSign st sc c = Join newline ["AWS4-HMAC-SHA256"; st; sc; sha256sum c].
Proof. unfold toSign. cbn [Join]. by change nl with (String newline ""). Qed.

Lemma canonical_inj m e h p st m' e' h' p' st' :
  Forall one_line [m; e; h; p; st] -> Forall one_line [m'; e'; h'; p'; st'] ->
  canonical m e h p st = canonical m' e' h' p' st' -> m = m' /\ e = e' /\ h = h' /\ p = p' /\ st = st'.
Proof.
  rewrite !canonical_lines, !Forall_cons. intros (A1 & A2 & A3 & A4 & A5 & _) (B1 & B2 & B3 & B4 & B5 & _) H.
  apply (f_equal (Split newline)) in H.
  rewrite !Split_Join in H; [|done | repeat constructor; first [done | by apply one_line_app]..].
  injection H. intros. by subst.
Qed.

(** The text that is signed determines the request: its method, its host, its escaped path,
    its instant, and, unless two texts collide under SHA-256, every byte of its body. *)
Theorem signature_covers_the_request (cfg cfg' : Config) (m m' h h' path path' body body' : string) (at_ at' : Time) :
  Forall one_line [m; h; stamp_text at_; scope (day_text at_) (Region cfg)] ->
  Forall one_line [m'; h'; stamp_text at'; scope (day_text at') (Region cfg')] ->
  (forall s t, sha256 (bytes s) = sha256 (bytes t) ->
     (s = body /\ t = body') \/
     (s = canonical m (escapePath path) h (sha256sum body) (stamp_text at_) /\
      t = canonical m' (escapePath path') h' (sha256sum body') (stamp_text at')) -> s = t) ->
  signed_text escapePath cfg m h path body at_ = signed_text escapePath cfg' m' h' path' body' at' ->
  m = m' /\ h = h' /\ escapePath path = escapePath path' /\ stamp_text at_ = stamp_text at' /\ body = body'.
Proof.
  rewrite !Forall_cons. intros (Hm & Hh & Hst & Hsc & _) (Hm' & Hh' & Hst' & Hsc' & _) Hcol H.
  unfold signed_text in H. rewrite !toSign_lines in H. apply (f_equal (Split newline)) in H.
  rewrite !Split_Join in H; [|done | repeat constructor; first [done | apply sha256sum_one_line]..].
  injection H as Es _ Ec. apply sha256sum_inj in Ec. apply Hcol in Ec; [|by right].
  apply canonical_inj in Ec; [|repeat constructor; first [done | apply sha256sum_one_line | apply escapePath_one_line]..].
  destruct Ec as (-> & Ee & -> & Ep & _). split_and!; [done..|].
  apply sha256sum_inj in Ep. apply Hcol; [exact Ep | by left].
Qed.
End Client.

(** The client signs a plus as a space and leaves five bytes bare that the protocol escapes:
    what it signs for such a key is not what the service checks, and two keys are signed
    alike. *)
Theorem some_keys_are_signed_wrongly :
  escapePath "/b/a+b" = escapePath "/b/a b" /\
  escapePath "/b/a+b" <> aws_escape "/b/a+b" /\
  escapePath "/b/evidence/tenant:1/2026.jsonl" <> aws_escape "/b/evidence/tenant:1/2026.jsonl".
Proof. split_and!; vm_compute; [reflexivity | discriminate | discriminate]. Qed.

(** * Witnesses *)

Definition demo_config : Config := mkConfig "store.local" "key-id" "secret" "archive" "eu-west-1" true.
Definition demo_hmac (key text : bytes_t) : bytes_t := (key ++ text)%list.
Definition demo_stamp (_ : Time) : string := "20260105T100000Z".
Definition demo_day (_ : Time) : string := "20260105".

(** Decidable, because the demonstration's stamps do not depend on the instant. *)
Definition acceptsb (r : S3Request) : bool :=
  bool_decide (("X-Amz-Date", demo_stamp 0) ∈ sr_Headers r /\
    ("Authorization", authorization (C := Retention.plain_crypto) demo_hmac demo_stamp demo_day aws_escape demo_config
       (sr_Method r) (sr_Host r) (sr_Path r) (sr_Body r) 0) ∈ sr_Headers r).

Lemma acceptsb_spec r : acceptsb r = true <-> accepts (C := Retention.plain_crypto) demo_hmac demo_stamp demo_day demo_config r.
Proof.
  unfold acceptsb. rewrite bool_decide_eq_true. split; [intros H; exists 0; exact H|].
  intros [at_ H]. exact H.
Qed.

(** A service that checks signatures and keeps objects by path. *)
Definition demo_serve (v : gmap string string) (r : S3Request) : gmap string string * Reply :=
  if negb (acceptsb r) then (v, Replied 403 (Some "SignatureDoesNotMatch"))
  else if String.eqb (sr_Method r) MethodPut then (<[sr_Path r := sr_Body r]> v, Replied 200 (Some ""))
  else match v !! sr_Path r with
       | Some body => (v, if String.eqb (sr_Method r) MethodGet then Replied 200 (Some body) else Replied 200 (Some ""))
       | None => (v, Replied 404 (Some "NoSuchKey"))
       end.

#[local] Instance demo_bucket : Bucket (gmap string string) := {| serve := demo_serve; contents := fun v => v |}.

#[local] Instance demo_bucket_laws :
  BucketLaws (C := Retention.plain_crypto) demo_hmac demo_stamp demo_day (gmap string string) demo_config.
Proof.
  constructor; intros v r v' x; cbn [serve contents demo_bucket]; unfold demo_serve.
  - intros H Ha. destruct (acceptsb r) eqn:E; [by apply acceptsb_spec in E|]. by injection H as <- <-.
  - intros H [Hm|Hm]; rewrite Hm in H; cbn in H.
    + destruct (acceptsb r); cbn in H; [|by injection H as <- <-; split].
      destruct (v !! sr_Path r) as [body|] eqn:E; injection H as <- <-; (split; [done|]); [|done].
      intros b [= <-] _. done.
    + split; [|intros body _ Hg; rewrite Hm in Hg; discriminate Hg].
      destruct (acceptsb r); cbn in H; [|by injection H as <- <-].
      by destruct (v !! sr_Path r); injection H as <- <-.
  - intros H Hm. rewrite Hm in H. cbn in H. destruct (acceptsb r); cbn in H; injection H as <- <-; [by left | by right].
Qed.

Definition always (_ : S3Request) : bool := true.
Abbreviation put := (Put (C := Retention.plain_crypto) demo_hmac demo_stamp demo_day always demo_config).
Abbreviation get := (Get (C := Retention.plain_crypto) demo_hmac demo_stamp demo_day always demo_config).

(** What is uploaded is read back; a key with a plus is refused. *)
Example archive_client_refines_the_store_witness :
  snd (get (fst (put ∅ "evidence/t1/p1.jsonl" "archive" 0)) "evidence/t1/p1.jsonl" 0) = Ok "archive" /\
  snd (put ∅ "evidence/t+1/p1.jsonl" "archive" 0) = Some PutFailed /\
  exists f, stores demo_config (fst (put ∅ "evidence/t1/p1.jsonl" "archive" 0))
              (Retention.Put f ∅ "evidence/t1/p1.jsonl" "archive").
Proof.
  do 2 (split; [vm_compute; reflexivity|]).
  destruct (archive_client_refines_the_store (C := Retention.plain_crypto) demo_hmac demo_stamp demo_day demo_config always
    ∅ ∅ "evidence/t1/p1.jsonl" "archive" 0 (fun key => eq_trans (lookup_empty _) (eq_sym (lookup_empty _)))) as [Hput _].
  destruct (put ∅ "evidence/t1/p1.jsonl" "archive" 0) as [v' e]. destruct Hput as (f & Hf & _). by exists f.
Defined.

Example plain_requests_are_accepted_witness :
  acceptsb (request (C := Retention.plain_crypto) demo_hmac demo_stamp demo_day demo_config MethodPut "evidence/t1/p1.jsonl" "x" 5) = true.
Proof.
  apply acceptsb_spec. apply (plain_requests_are_accepted (C := Retention.plain_crypto) demo_hmac demo_stamp demo_day demo_config).
  vm_compute. reflexivity.
Defined.

Example signature_covers_the_request_witness :
  "a" = "a" /\ escapePath "/x" = escapePath "/x" /\ "body" = "body".
Proof.
  destruct (signature_covers_the_request (C := Retention.plain_crypto) demo_stamp demo_day (CL := Retention.plain_laws) demo_config demo_config
    "a" "a" "h" "h" "/x" "/x" "body" "body" 0 7) as (H1 & _ & H2 & _ & H3).
  - repeat constructor; vm_compute; reflexivity.
  - repeat constructor; vm_compute; reflexivity.
  - intros s t _ [[-> ->]|[-> ->]]; reflexivity.
  - reflexivity.
  - repeat split; assumption.
Defined.
