(* ===== verification/Clickhouse.v ===== *)
(** The client of the analytical store: [NewSink], [Query], [exec] and [request] of
    internal/fleet/clickhouse.go, and what the intelligence API reads through it.

    The server and the network are one function from a request to an exchange: no answer, an
    answer that breaks off, or a status and a body, of which four mebibytes are read. *)

From S2P Require Import Prelude Strings CanonicalJSON Crypto Wire Identity Http Reads.

Record Sink := mkSink {
  BaseURL : string;
  User : string;
  Password : string;
  Database : string
}.

(** [strings.TrimRight(s, "/")] *)
Fixpoint TrimRight_slash (s : string) : string :=
  match s with
  | "" => ""
  | String c s' =>
      match TrimRight_slash s' with
      | "" => if Ascii.eqb c "/"%char then "" else String c ""
      | rest => String c rest
      end
  end.

Definition NewSink (baseURL user password : string) : Sink := mkSink (TrimRight_slash baseURL) user password "assurance".

Record StoreRequest := mkStoreRequest {
  sq_Method : string;
  sq_URL : string;
  sq_Headers : list (string * string);
  sq_Body : option string
}.

Inductive StoreAnswer := Unreachable | BrokenOff | Answered (status : Z) (body : string).

(** [url.Values.Encode]: the keys in order. *)
Definition encode_values (l : list (string * string)) : string :=
  match l with
  | [] => ""
  | (k, v) :: l' =>
      foldl (fun acc kv => acc +:+ "&" +:+ QueryEscape (fst kv) +:+ "=" +:+ QueryEscape (snd kv))
        (QueryEscape k +:+ "=" +:+ QueryEscape v) l'
  end.

(** [io.LimitReader]; the counter is the number of bytes still read. *)
Fixpoint limited (n : Z) (s : string) : string :=
  match s with
  | "" => ""
  | String c s' => if n <=? 0 then "" else String c (limited (n - 1) s')
  end.

Definition MaxAnswer : Z := Z.shiftl 4 20.

Inductive StoreError := ErrAddress | ErrUnreachable | ErrRead | ErrStatus (status : Z) (text : string).

Section Client.
Context (request_parses : string -> bool) (do_ : StoreRequest -> StoreAnswer).

Definition address (s : Sink) (query : string) : string :=
  BaseURL s +:+ "/?" +:+
  encode_values [("database", Database s); ("output_format_json_quote_64bit_integers", "0"); ("query", query)].

Definition store_request (s : Sink) (query : string) (body : option string) : StoreRequest :=
  mkStoreRequest "POST" (address s query) [("X-ClickHouse-User", User s); ("X-ClickHouse-Key", Password s)] body.

Definition request (s : Sink) (query : string) (body : option string) : result string StoreError :=
  if request_parses (address s query) then
    match do_ (store_request s query body) with
    | Unreachable => Err ErrUnreachable
    | BrokenOff => Err ErrRead
    | Answered status text =>
        let raw := limited MaxAnswer text in
        if 300 <=? status then Err (ErrStatus status (TrimSpace raw)) else Ok raw
    end
  else Err ErrAddress.

Definition Query (s : Sink) (sql : string) : result string StoreError := request s sql None.

Definition exec (s : Sink) (query : string) (body : string) : option StoreError :=
  match request s query (Some body) with Ok _ => None | Err e => Some e end.

(** The reader the intelligence API asks. *)
Definition read_by (s : Sink) (sql : string) : option string :=
  match Query s sql with Ok raw => Some raw | Err _ => None end.
End Client.

(** * What the store is asked, and what is believed *)

(** An escaped text holds nothing that ends a parameter. *)
Definition separator (b : nat) : bool := byte_of_set (bytes "&#;=+?/ ") b && negb (b =? 43)%nat.

Lemma query_byte_plain b : (b < 256)%nat -> forallb (fun c => negb (separator c)) (query_byte b) = true.
Proof.
  revert b. apply (small_bytes (fun b => forallb (fun c => negb (separator c)) (query_byte b))). by vm_compute.
Qed.

Lemma QueryEscape_plain s : forallb (fun c => negb (separator c)) (bytes (QueryEscape s)) = true.
Proof.
  unfold QueryEscape. rewrite bytes_str_of_bytes.
  - pose proof (bytes_are_bytes s) as Hs. induction Hs as [|b l Hb _ IH]; [done|]. cbn [flat_map].
    rewrite forallb_app, IH, andb_true_r. by apply query_byte_plain.
  - eapply Forall_flat_map; [apply query_byte_bytes | apply bytes_are_bytes].
Qed.

Lemma limited_all s : forall n, Z.of_nat (String.length s) <= n -> limited n s = s.
Proof.
  induction s as [|c s IH]; intros n; cbn [limited String.length]; [done|]. intros Hn.
  destruct (Z.leb_spec n 0); [lia|]. f_equal. apply IH. lia.
Qed.

Lemma length_limited s : forall n, 0 <= n <= Z.of_nat (String.length s) -> Z.of_nat (String.length (limited n s)) = n.
Proof.
  induction s as [|c s IH]; intros n; cbn [limited String.length]; [lia|]. intros Hn.
  destruct (Z.leb_spec n 0); cbn [String.length]; [lia|]. rewrite Nat2Z.inj_succ, IH; lia.
Qed.

Lemma address_split url user password query :
  address (NewSink url user password) query =
  TrimRight_slash url +:+ "/?database=assurance&output_format_json_quote_64bit_integers=0&query=" +:+ QueryEscape query.
Proof. unfold address, encode_values. cbn [foldl fst snd]. unfold NewSink. cbn [BaseURL Database]. reflexivity. Qed.

Section Answers.
Context (request_parses : string -> bool) (do_ : StoreRequest -> StoreAnswer).
Context {Row : Type} (decode_row : string -> option Row).

(** A statement reaches the analytical store whole, and no secret travels with it in the
    open.  The address ends in the one parameter that is the statement: the server decodes
    exactly the text that was asked, and nothing in it can end the parameter or add another;
    the address is the same for every user and password.  A text is returned only for a
    status below 300, the whole body when it fits; and whatever else happens the
    intelligence API answers 503 and no rows. *)
Theorem statements_arrive_whole (url user password sql : string) :
  let sink := NewSink url user password in
  (exists prefix escaped, address sink sql = prefix +:+ "&query=" +:+ escaped /\
     (forall user' password' sql', exists escaped', address (NewSink url user' password') sql' = prefix +:+ "&query=" +:+ escaped') /\
     unescape true (bytes escaped) = Some (bytes sql) /\
     forallb (fun b => negb (separator b)) (bytes escaped) = true) /\
  (forall text, Query request_parses do_ sink sql = Ok text ->
     exists status body, do_ (store_request sink sql None) = Answered status body /\ status < 300 /\
       (Z.of_nat (String.length body) <= MaxAnswer -> text = body)) /\
  (forall e, Query request_parses do_ sink sql = Err e ->
     exists answer, run_query (read_by request_parses do_ sink) decode_row sql = Err answer /\
       rp_Status answer = StatusServiceUnavailable).
Proof.
  cbn zeta. split_and!.
  - exists (TrimRight_slash url +:+ "/?database=assurance&output_format_json_quote_64bit_integers=0"), (QueryEscape sql).
    assert (forall u p q, address (NewSink url u p) q =
      (TrimRight_slash url +:+ "/?database=assurance&output_format_json_quote_64bit_integers=0") +:+ "&query=" +:+
        QueryEscape q) as Hsplit by (intros; rewrite address_split, <- str_app_assoc; reflexivity).
    split_and!; [apply Hsplit | intros; eexists; apply Hsplit | apply QueryEscape_read | apply QueryEscape_plain].
  - intros text. unfold Query, request. destruct (request_parses _); [|done].
    destruct (do_ _) as [| |status body]; [done..|]. destruct (Z.leb_spec 300 status); [done|]. intros [= <-].
    exists status, body. split_and!; [done | lia |]. apply limited_all.
  - intros e He. unfold run_query, read_by. rewrite He. eauto.
Qed.

(** An answer of more than four mebibytes is cut and taken for the whole. *)
Theorem long_answer_is_cut (sink : Sink) (sql body : string) (status : Z) :
  request_parses (address sink sql) = true -> do_ (store_request sink sql None) = Answered status body ->
  status < 300 -> MaxAnswer < Z.of_nat (String.length body) ->
  exists text, Query request_parses do_ sink sql = Ok text /\ text <> body /\
    Z.of_nat (String.length text) = MaxAnswer.
Proof.
  intros Hp Hd Hs Hl. unfold Query, request. rewrite Hp, Hd. destruct (Z.leb_spec 300 status); [lia|].
  assert (Z.of_nat (String.length (limited MaxAnswer body)) = MaxAnswer) as Hc
    by (apply length_limited; change MaxAnswer with 4194304 in *; lia).
  eexists. split_and!; [done | | done]. intros E. rewrite E in Hc. lia.
Qed.
End Answers.

(** * Witnesses *)

Definition one_server (r : StoreRequest) : StoreAnswer :=
  if String.eqb (sq_URL r)
       "http://ch/?database=assurance&output_format_json_quote_64bit_integers=0&query=SELECT+1+%26+2"
  then Answered 200 "3" else Unreachable.

Example statements_arrive_whole_witness :
  Query (fun _ => true) one_server (NewSink "http://ch/" "u" "secret") "SELECT 1 & 2" = Ok "3" /\
  match run_query (read_by (fun _ => true) one_server (NewSink "http://ch/" "u" "secret")) (Some : string -> option string) "SELECT 2" with
  | Err answer => rp_Status answer = 503
  | Ok _ => False
  end.
Proof.
  split; [vm_compute; reflexivity|].
  destruct (statements_arrive_whole (fun _ => true) one_server (Some : string -> option string) "http://ch/" "u" "secret"
    "SELECT 2") as (_ & _ & H). destruct (H ErrUnreachable) as (answer & -> & Hs); [vm_compute; reflexivity | exact Hs].
Defined.
