(* ===== verification/Outbox.v ===== *)
(** The loops over the outbox: what is left of internal/evidence/outbox.go.

    [Evidence] has the table's operations, one [Drain] and one [Sweep]; here are the depth an
    operator watches and the loops of [OutboxPublisher.Run] and [OutboxSweeper.Run], which
    drain without pausing while anything was published.  A [Round] is what one pass meets:
    its clock, its faults, the bus, and whether the context has ended when it is over. *)

From S2P Require Import Prelude Strings Evidence.

(** The queue: how many rows wait, and since when.  No tenant means every tenant. *)
Definition waiting (tenantID : string) (x : Z * OutboxRow) : bool :=
  unpublished x && (String.eqb tenantID "" || String.eqb (o_tenant_id (snd x)) tenantID).

(** [min(created_at)]: NULL, and the zero time, of no rows. *)
Definition oldest_of (l : list (Z * OutboxRow)) : Time :=
  match map (fun x => o_created_at (snd x)) l with [] => 0 | t :: l' => foldr Z.min t l' end.

Definition Depth (f : TxFault) (db : Tables) (tenantID : string) : result (Z * Time) EvidenceError :=
  snd (transaction ErrDatabase f db (fun db =>
    let rows := List.filter (waiting tenantID) (map_to_list (outbox db)) in
    (db, Ok (Z.of_nat (length rows), oldest_of rows)))).

Record OutboxPublisher := mkOutboxPublisher {
  op_Every : Duration;
  op_Batch : Z;
  op_Owner : string;
  op_ReclaimAfter : Duration
}.

(** The defaults [Run] sets before its loop. *)
Definition prepared (o : OutboxPublisher) : OutboxPublisher :=
  mkOutboxPublisher (if op_Every o <=? 0 then Second else op_Every o) (if op_Batch o <=? 0 then 500 else op_Batch o)
    (op_Owner o) (op_ReclaimAfter o).

Record Round := mkRound {
  rd_now : Time;
  rd_marked : Time;
  rd_claim : TxFault;
  rd_failed : Z -> TxFault;
  rd_mark : TxFault;
  rd_bus : list Event -> option (list (option string));
  rd_done : bool
}.

Section Loops.
Context {HJ : JSON}.

Definition drain (o : OutboxPublisher) (rd : Round) (db : Tables) : Tables * Z :=
  Drain (rd_failed rd) (rd_claim rd) (rd_mark rd) db (op_Batch o) (op_Owner o) (rd_now rd) (rd_marked rd)
    (op_ReclaimAfter o) (rd_bus rd).

(** What each pass published, and whether the loop then waited. *)
Fixpoint drain_loop (o : OutboxPublisher) (db : Tables) (rounds : list Round) : Tables * list (Z * bool) :=
  match rounds with
  | [] => (db, [])
  | rd :: rounds' =>
      let '(db1, n) := drain o rd db in
      let pass := (n, negb (0 <? n)) in
      if rd_done rd then (db1, [pass])
      else let '(db2, passes) := drain_loop o db1 rounds' in (db2, pass :: passes)
  end.

Definition Run (o : OutboxPublisher) (db : Tables) (rounds : list Round) : Tables * list (Z * bool) :=
  drain_loop (prepared o) db rounds.
End Loops.

(** [OutboxSweeper.Run]: a sweep, then a pause, until the context ends. *)
Record OutboxSweeper := mkOutboxSweeper { os_Every : Duration; os_Keep : Duration; os_Batch : Z; os_Tenants : list string }.

Definition pause (s : OutboxSweeper) : Duration := if os_Every s <=? 0 then Hour else os_Every s.

Fixpoint sweep_loop (s : OutboxSweeper) (db : Tables) (rounds : list (Time * (string -> list TxFault)))
    : Tables * list Z :=
  match rounds with
  | [] => (db, [])
  | (now, faults) :: rounds' =>
      let '(db1, n) := Sweep faults db (os_Tenants s) now (os_Keep s) (os_Batch s) in
      let '(db2, counts) := sweep_loop s db1 rounds' in (db2, n :: counts)
  end.

(** * A calm round *)

Section Calm.
Context {HJ : JSON}.

Definition owed (db : Tables) : list (Z * OutboxRow) := List.filter unpublished (map_to_list (outbox db)).

Lemma owed_spec db x : x ∈ owed db <-> outbox db !! fst x = Some (snd x) /\ unpublished x = true.
Proof.
  unfold owed. rewrite list_elem_of_In, filter_In, <- list_elem_of_In. destruct x as [id o].
  by rewrite elem_of_map_to_list.
Qed.

Lemma NoDup_owed db : NoDup (owed db).
Proof. apply NoDup_ListNoDup, List.NoDup_filter, NoDup_ListNoDup, NoDup_map_to_list. Qed.

Lemma Depth_owed db : Depth Fine db "" = Ok (Z.of_nat (length (owed db)), oldest_of (owed db)).
Proof.
  unfold Depth, owed, transaction. cbn [snd].
  assert (List.filter (waiting "") (map_to_list (outbox db)) = List.filter unpublished (map_to_list (outbox db))) as ->;
    [|done].
  apply List.filter_ext. intros x. unfold waiting. cbn. by rewrite andb_true_r.
Qed.

(** Every row that is owed may be claimed, and says an event. *)
Definition free (cutoff : Time) (db : Tables) : Prop := forall x, x ∈ owed db -> claimable cutoff x = true.
Definition readable (db : Tables) : Prop :=
  forall x, x ∈ owed db -> exists e, unmarshal_event (o_payload (snd x)) = Some e.

(** The bus acknowledges everything it is given. *)
Definition acknowledging (bus : list Event -> option (list (option string))) : Prop :=
  forall es, bus es = Some (map (fun _ => None) es).

Definition calm (o : OutboxPublisher) (cutoff : Time) (rd : Round) : Prop :=
  rd_claim rd = Fine /\ rd_mark rd = Fine /\ acknowledging (rd_bus rd) /\ rd_done rd = false /\
  cutoff <= TimeAdd (rd_now rd) (- (if 0 <? op_ReclaimAfter o then op_ReclaimAfter o else 2 * Minute)).

Lemma decode_readable mf db entries :
  Forall (fun en => exists e, unmarshal_event (en_Payload en) = Some e) entries ->
  exists decoded, decode mf db entries = (db, decoded) /\ map snd decoded = entries.
Proof.
  induction 1 as [|en entries [e He] _ (decoded & IH & Hd)]; cbn [decode]; [by exists []|].
  rewrite He, IH. exists ((e, en) :: decoded). cbn. by rewrite Hd.
Qed.

Lemma acknowledge_all mf db entries :
  acknowledge mf db (map (fun en => (en, None)) entries) = (db, map en_OutboxID entries).
Proof. induction entries as [|en entries IH]; cbn; [done|]. by rewrite IH. Qed.

Lemma zip_acknowledged (decoded : list (Event * OutboxEntry)) :
  zip (map snd decoded) (map (fun _ => None : option string) (map fst decoded)) =
  map (fun en => (en, None)) (map snd decoded).
Proof. induction decoded as [|[e en] decoded IH]; cbn; [done|]. by rewrite IH. Qed.

(** The rows a calm pass claims: the oldest that are owed, as many as the batch takes. *)
Definition batch_of (o : OutboxPublisher) : nat := clamp_limit (if op_Batch o <=? 0 then 500 else op_Batch o).
Definition next_batch (o : OutboxPublisher) (db : Tables) : list (Z * OutboxRow) :=
  take (batch_of o) (stable_sort oldest_first (owed db)).

Lemma batch_positive o : (0 < batch_of o)%nat.
Proof.
  unfold batch_of, clamp_limit. destruct (Z.leb_spec (op_Batch o) 0); [by vm_compute; lia|].
  destruct (Z.leb_spec (op_Batch o) 0), (Z.ltb_spec 2000 (op_Batch o)); cbn; lia.
Qed.

Lemma length_next_batch o db : length (next_batch o db) = Nat.min (batch_of o) (length (owed db)).
Proof. unfold next_batch. by rewrite length_take, length_stable_sort. Qed.

Lemma next_batch_owed o db x : x ∈ next_batch o db -> x ∈ owed db.
Proof.
  unfold next_batch. intros H. apply elem_of_take in H as (i & Hi & _). apply list_elem_of_lookup_2 in Hi.
  by rewrite stable_sort_perm in Hi.
Qed.

Lemma NoDup_next_batch o db : NoDup (next_batch o db).
Proof. unfold next_batch. eapply sublist_NoDup; [|apply sublist_take]. rewrite stable_sort_perm. apply NoDup_owed. Qed.

Lemma to_claim_free o db cutoff :
  free cutoff db -> to_claim db (if op_Batch o <=? 0 then 500 else op_Batch o) cutoff = next_batch o db.
Proof.
  intros Hf. unfold to_claim, next_batch, batch_of. do 2 f_equal. unfold owed. apply List.filter_ext_in.
  intros x Hx. unfold claimable. destruct (unpublished x) eqn:E; [|done].
  assert (x ∈ owed db) as Ho by (unfold owed; apply list_elem_of_In, filter_In; done).
  specialize (Hf x Ho). unfold claimable in Hf. by rewrite E in Hf.
Qed.

(** What a calm pass leaves. *)
Definition settled_by (o : OutboxPublisher) (rd : Round) (db : Tables) : Tables :=
  let ids := map fst (next_batch o db) in
  let claimed_rows := update_rows (claimed (rd_now rd) (if str_nonempty (op_Owner o) then op_Owner o else "assurance-gateway"))
                        ids (outbox db) in
  set_outbox db (update_rows (published (rd_marked rd)) ids claimed_rows).

Lemma set_outbox_same db : set_outbox db (outbox db) = db.
Proof. by destruct db. Qed.

Lemma calm_drain o cutoff rd db :
  calm o cutoff rd -> free cutoff db -> readable db ->
  drain o rd db = (settled_by o rd db, Z.of_nat (length (next_batch o db))).
Proof.
  intros (Hc & Hm & Hb & _ & Hcut) Hf Hr. unfold drain, Drain. rewrite Hc, Hm. unfold Claim, transaction.
  set (cut := TimeAdd _ _) in Hcut |- *. assert (free cut db) as Hf'.
  { intros x Hx. specialize (Hf x Hx). unfold claimable in *. destruct (unpublished x); [|done]. cbn in *.
    destruct (o_claimed_at (snd x)); [|done]. apply Z.ltb_lt in Hf. apply Z.ltb_lt. lia. }
  rewrite (to_claim_free o db cut Hf').
  destruct (decode_readable (rd_failed rd) (set_outbox db (update_rows (claimed (rd_now rd)
    (if str_nonempty (op_Owner o) then op_Owner o else "assurance-gateway")) (map fst (next_batch o db)) (outbox db)))
    (map entry_of (next_batch o db))) as (decoded & -> & Hd).
  { apply List.Forall_map, Forall_forall. intros x Hx. apply (Hr x), (next_batch_owed o), Hx. }
  assert (map en_OutboxID (map entry_of (next_batch o db)) = map fst (next_batch o db)) as Hids
    by (rewrite map_map; by apply map_ext).
  destruct decoded as [|d decoded'] eqn:Ed.
  - destruct (next_batch o db) eqn:En; [|done]. cbn [MarkPublishedBatch map]. unfold settled_by. rewrite En. done.
  - rewrite <- Ed in *. rewrite (Hb (map fst decoded)), zip_acknowledged, Hd, acknowledge_all, Hids.
    unfold MarkPublishedBatch, settled_by.
    destruct (next_batch o db) as [|x rest] eqn:En; [by rewrite Ed in Hd|]. cbn [map length]. by rewrite length_map.
Qed.

Lemma update_rows_in g ids (m : gmap Z OutboxRow) id :
  NoDup ids -> id ∈ ids -> update_rows g ids m !! id = g <$> m !! id.
Proof.
  revert m. induction ids as [|i ids IH]; intros m Hn Hin; [by apply elem_of_nil in Hin|].
  apply NoDup_cons in Hn as [Hi Hn]. rewrite update_rows_cons. apply elem_of_cons in Hin as [->|Hin].
  - rewrite update_rows_ne by done. apply lookup_alter_eq.
  - rewrite IH by done. rewrite lookup_alter_ne; [done|]. by intros ->.
Qed.

(** The batch is published, the others are untouched. *)
Lemma settled_owed o rd db : owed db ≡ₚ next_batch o db ++ owed (settled_by o rd db).
Proof.
  assert (NoDup (map fst (next_batch o db))) as Hnd.
  { apply NoDup_fmap_2_strong; [|apply NoDup_next_batch]. intros [i1 o1] [i2 o2] H1%next_batch_owed%owed_spec
      H2%next_batch_owed%owed_spec Hi. cbn in Hi. subst. destruct H1 as [H1 _], H2 as [H2 _]. cbn in *. congruence. }
  assert (forall id, id ∈ map fst (next_batch o db) -> forall row, outbox (settled_by o rd db) !! id = Some row ->
            o_published_at row <> None) as Hin.
  { intros id Hid row. unfold settled_by. cbn. rewrite !update_rows_in by done.
    destruct (outbox db !! id); [|done]. by intros [= <-]. }
  assert (forall id, id ∉ map fst (next_batch o db) -> outbox (settled_by o rd db) !! id = outbox db !! id) as Hout.
  { intros id Hid. unfold settled_by. cbn. by rewrite !update_rows_ne. }
  apply NoDup_Permutation.
  - apply NoDup_owed.
  - apply NoDup_app. split_and!; [apply NoDup_next_batch | | apply NoDup_owed].
    intros [id row] Hx Hy%owed_spec. destruct Hy as [Hy Hu]. cbn in Hy. unfold unpublished in Hu. cbn in Hu.
    apply (Hin id (list_elem_of_fmap_2 fst _ (id, row) Hx)) in Hy. by destruct (o_published_at row).
  - intros [id row]. rewrite elem_of_app. split.
    + intros Hx. destruct (decide (id ∈ map fst (next_batch o db))) as [Hid|Hid].
      * left. apply list_elem_of_fmap in Hid as ([id' row'] & -> & Hin'). pose proof Hin' as Hb.
        apply next_batch_owed, owed_spec in Hb as [Hb _]. apply owed_spec in Hx as [Hx _]. cbn in *.
        rewrite Hb in Hx. by injection Hx as ->.
      * right. apply owed_spec. apply owed_spec in Hx as [Hx Hu]. split; [|done]. cbn in *. by rewrite Hout.
    + intros [Hx|Hx]; [by eapply next_batch_owed|]. apply owed_spec in Hx as [Hx Hu]. cbn in Hx.
      destruct (decide (id ∈ map fst (next_batch o db))) as [Hid|Hid].
      * apply (Hin id Hid) in Hx. unfold unpublished in Hu. cbn in Hu. by destruct (o_published_at row).
      * apply owed_spec. split; [|done]. cbn. by rewrite <- Hout.
Qed.

Lemma settled_keeps (P : Z * OutboxRow -> Prop) o rd db :
  (forall x, x ∈ owed db -> P x) -> forall x, x ∈ owed (settled_by o rd db) -> P x.
Proof. intros H x Hx. apply H. rewrite (settled_owed o rd db). apply elem_of_app. by right. Qed.

Lemma length_settled o rd db : length (owed (settled_by o rd db)) = (length (owed db) - batch_of o)%nat.
Proof.
  pose proof (Permutation_length (settled_owed o rd db)) as H. rewrite length_app, length_next_batch in H. lia.
Qed.

Lemma calm_loop o cutoff rounds : forall db,
  Forall (calm o cutoff) rounds -> free cutoff db -> readable db ->
  let '(db', passes) := drain_loop o db rounds in
  length (owed db') = (length (owed db) - length rounds * batch_of o)%nat /\ events db' = events db /\
  forall k n w, passes !! k = Some (n, w) ->
    n = Z.of_nat (Nat.min (batch_of o) (length (owed db) - k * batch_of o)) /\ w = negb (0 <? n).
Proof.
  induction rounds as [|rd rounds IH]; intros db Hc Hf Hr; cbn [drain_loop].
  - split_and!; [cbn; lia | done | done].
  - apply Forall_cons in Hc as [Hc Hcs]. rewrite (calm_drain o cutoff rd db Hc Hf Hr).
    destruct Hc as (_ & _ & _ & -> & _). specialize (IH (settled_by o rd db) Hcs).
    destruct (drain_loop o (settled_by o rd db) rounds) as [db' passes].
    destruct IH as (Hl & He & Hp); [exact (settled_keeps _ o rd db Hf) | exact (settled_keeps _ o rd db Hr)|].
    rewrite length_settled in Hl, Hp. split_and!.
    + cbn [length]. lia.
    + rewrite He. done.
    + intros [|k] n w; cbn [lookup list_lookup].
      * intros [= <- <-]. rewrite length_next_batch. split; [f_equal; lia | done].
      * intros Hk. destruct (Hp k n w Hk) as [-> ->]. split; [|done]. do 2 f_equal. lia.
Qed.

(** C27: The publisher empties the outbox.  From any queue whose rows say events and hold no
    live lease, with databases that answer and a bus that acknowledges, Run publishes a full
    batch on every pass while there is one, the rest on the next, and pauses only when
    nothing is owed: as many passes as there are batches bring the depth to zero, the
    evidence itself untouched.  The service rate follows the depth. *)
Theorem backlog_is_drained (o : OutboxPublisher) (db : Tables) (rounds : list Round) (cutoff : Time) :
  Forall (calm (prepared o) cutoff) rounds -> free cutoff db -> readable db ->
  (length (owed db) <= length rounds * batch_of (prepared o))%nat ->
  let '(db', passes) := Run o db rounds in
  Depth Fine db' "" = Ok (0, 0) /\ events db' = events db /\
  forall k n w, passes !! k = Some (n, w) ->
    n = Z.of_nat (Nat.min (batch_of (prepared o)) (length (owed db) - k * batch_of (prepared o))) /\
    (w = true <-> length (owed db) <= k * batch_of (prepared o))%nat.
Proof.
  intros Hc Hf Hr Hn. pose proof (calm_loop (prepared o) cutoff rounds db Hc Hf Hr) as H.
  unfold Run. destruct (drain_loop _ _ _) as [db' passes]. destruct H as (Hl & He & Hp). split_and!; [|done|].
  - rewrite Depth_owed. assert (length (owed db') = 0)%nat as H0 by lia.
    by rewrite (nil_length_inv _ H0).
  - intros k n w Hk. destruct (Hp k n w Hk) as [-> ->]. split; [done|].
    pose proof (batch_positive (prepared o)). rewrite negb_true_iff, Z.ltb_ge. lia.
Qed.
End Calm.

(** ** Every pass *)

Section Passes.
Context {HJ : JSON}.

(** A bus that cannot be reached makes the loop pause, whatever is owed. *)
Lemma unreachable_bus_pauses o rd db :
  (forall es, rd_bus rd es = None) -> snd (drain o rd db) = 0.
Proof.
  intros Hb. unfold drain, Drain. destruct (Claim _ _ _ _ _ _) as [db1 [entries|]]; [|done].
  destruct (decode _ _ _) as [db2 [|d decoded]]; [|by rewrite Hb].
  unfold MarkPublishedBatch. done.
Qed.
End Passes.

(** ** The sweeper *)

Lemma PrunePublished_keeps f db tenant before batch id row :
  outbox db !! id = Some row -> (forall p, o_published_at row = Some p -> before <= p) ->
  outbox (fst (PrunePublished f db tenant before batch)) !! id = Some row.
Proof.
  intros Hrow Hp. unfold PrunePublished, withTenant. destruct (String.eqb tenant ""); [done|].
  unfold transaction. destruct f; cbn [fst set_outbox outbox]; try done;
    (rewrite foldl_delete_lookup; [done|]; intros ([id' row'] & -> & Hx)%list_elem_of_fmap;
     apply prunable_in in Hx as [Hx Hd]; cbn in *; rewrite Hx in Hrow; injection Hrow as ->;
     unfold delivered in Hd; cbn in Hd; destruct (o_published_at row) as [p|]; [|by rewrite andb_false_r in Hd];
     specialize (Hp p eq_refl); apply andb_true_iff in Hd as [_ Hd]; apply Z.ltb_lt in Hd; lia).
Qed.

Lemma sweep_tenant_keeps faults tenant before batch id row : forall db total,
  outbox db !! id = Some row -> (forall p, o_published_at row = Some p -> before <= p) ->
  outbox (fst (sweep_tenant faults db tenant before batch total)) !! id = Some row.
Proof.
  induction faults as [|f faults IH]; intros db total Hrow Hp; cbn [sweep_tenant]; [done|].
  pose proof (PrunePublished_keeps f db tenant before batch id row Hrow Hp) as H.
  destruct (PrunePublished _ _ _ _ _) as [db' [deleted|]]; cbn in H; [|done].
  destruct (deleted <? batch); [done | by apply IH].
Qed.

Lemma sweep_tenants_keep (faults : string -> list TxFault) cut batch id row ts : forall db total,
  outbox db !! id = Some row -> (forall p, o_published_at row = Some p -> cut <= p) ->
  outbox (fst (foldl (fun '(db, total) t => sweep_tenant (faults t) db t cut batch total) (db, total) ts)) !! id =
    Some row.
Proof.
  induction ts as [|t ts IH]; intros db total Hrow Hcut; cbn [foldl]; [done|].
  pose proof (sweep_tenant_keeps (faults t) t cut batch id row db total Hrow Hcut) as Hs.
  destruct (sweep_tenant _ _ _ _ _ _) as [db' total']. by apply IH.
Qed.

(** Retention of the outbox removes receipts and nothing else.  However often the sweeper
    runs, over whatever tenants, with databases that fail or lose their answers, a row that
    is still owed to the bus stays as it is at any age, and so does a delivered one until it
    has been delivered for longer than the retention. *)
Theorem sweeps_remove_only_receipts (s : OutboxSweeper) (rounds : list (Time * (string -> list TxFault)))
    (db : Tables) (id : Z) (row : OutboxRow) :
  outbox db !! id = Some row ->
  (forall p now faults, o_published_at row = Some p -> (now, faults) ∈ rounds ->
     TimeAdd now (- (if os_Keep s <=? 0 then DefaultOutboxRetention else os_Keep s)) <= p) ->
  outbox (fst (sweep_loop s db rounds)) !! id = Some row.
Proof.
  revert db. induction rounds as [|[now faults] rounds IH]; intros db Hrow Hp; cbn [sweep_loop]; [done|].
  assert (outbox (fst (Sweep faults db (os_Tenants s) now (os_Keep s) (os_Batch s))) !! id = Some row) as H.
  { unfold Sweep. apply sweep_tenants_keep; [done|]. intros p Hr. eapply Hp; [done | by left]. }
  destruct (Sweep _ _ _ _ _ _) as [db1 n]. cbn in H.
  assert (outbox (fst (sweep_loop s db1 rounds)) !! id = Some row) as Hl
    by (apply IH; [done|]; intros p now' faults' Hr Hin; eapply Hp; [done | by right]).
  by destruct (sweep_loop _ _ _) as [db2 counts].
Qed.

(** * Witnesses *)

#[local] Instance demo_json : JSON := toy_json.

Definition demo_publisher : OutboxPublisher := mkOutboxPublisher 0 1 "" 0.
Definition acks (es : list Event) : option (list (option string)) := Some (map (fun _ => None) es).
Definition calm_round (now : Time) : Round := mkRound now (now + 1) Fine (fun _ => Fine) Fine acks false.

(** Two rows, one of them appended by a transaction whose answer was lost, and two passes. *)
Example backlog_is_drained_witness :
  Depth Fine sample_tables "" = Ok (2, 10) /\
  Depth Fine (fst (Run demo_publisher sample_tables [calm_round 20; calm_round 21; calm_round 22])) "" = Ok (0, 0).
Proof.
  split; [vm_compute; reflexivity|].
  pose proof (backlog_is_drained demo_publisher sample_tables [calm_round 20; calm_round 21; calm_round 22] (- Hour)) as H.
  destruct (Run _ _ _) as [db' passes]. apply H.
  - repeat constructor; vm_compute; discriminate.
  - intros x Hx. apply owed_spec in Hx as [Hx _]. destruct x as [id row]. cbn in Hx.
    assert (o_claimed_at row = None) as Hc.
    { assert (map_Forall (fun _ r => o_claimed_at r = None) (outbox sample_tables)) as Hall
        by (apply map_Forall_to_list; vm_compute; repeat constructor). by eapply Hall. }
    unfold claimable, unpublished. cbn. rewrite Hc. 
    assert (o_published_at row = None) as ->; [|done].
    assert (map_Forall (fun _ r => o_published_at r = None) (outbox sample_tables)) as Hall
      by (apply map_Forall_to_list; vm_compute; repeat constructor). by eapply Hall.
  - intros x _. eexists. reflexivity.
  - vm_compute. lia.
Defined.

Example sweeps_remove_only_receipts_witness :
  exists row, outbox sample_tables !! 1 = Some row /\
    outbox (fst (sweep_loop (mkOutboxSweeper 0 0 0 ["tenant-1"]) sample_tables [(1000 * Day, fun _ => [Fine; Fine])])) !! 1
      = Some row.
Proof.
  eexists. split; [vm_compute; reflexivity|].
  apply (sweeps_remove_only_receipts (mkOutboxSweeper 0 0 0 ["tenant-1"])); [vm_compute; reflexivity|].
  intros p now faults Hp. vm_compute in Hp. discriminate.
Defined.
