(* ===== verification/Routing.v ===== *)
(** Which handler answers a request: Go's [http.ServeMux] and the route tables of the two
    commands ([newMux] of cmd/assurance-gateway/main.go and of cmd/fleet-engine/main.go,
    with the [Routes] functions of internal/fleet, internal/incident and
    internal/simulation).

    A pattern is a method and a path of words and wildcards; the mux walks a tree of them,
    a word before a wildcard, and registering a pattern that conflicts with another one
    stops the process.  A path is its segments: it is clean (the mux redirects another) and
    carries no escapes.  A handler is of any type, so that a table can be read with names,
    with functions, or with the models of the handlers. *)

From S2P Require Import Prelude Strings.

(** * Patterns *)

Inductive Segment := Word (s : string) | Wild (name : string).

Record Pattern := mkPattern { pt_Method : string; pt_Path : list Segment }.

#[export] Instance Segment_eq_dec : EqDecision Segment.
Proof. solve_decision. Defined.

Definition slash : Ascii.ascii := "/"%char.
Definition space : Ascii.ascii := " "%char.
Definition brace : Ascii.ascii := "}"%char.

Definition parseSegment (s : string) : Segment :=
  match CutPrefix s "{" with
  | Some name => if HasSuffix name brace then Wild (TrimSuffix name brace) else Word s
  | None => Word s
  end.

Definition parsePattern (s : string) : Pattern :=
  match Cut space s with
  | Some (method, path) => mkPattern method (map parseSegment (Split slash path))
  | None => mkPattern "" (map parseSegment (Split slash s))
  end.

(** A path is matched by a pattern with the values of its wildcards; a wildcard takes no
    empty segment. *)
Fixpoint matches (p : list Segment) (path : list string) : option (list string) :=
  match p, path with
  | [], [] => Some []
  | Word s :: p', seg :: path' => if String.eqb s seg then matches p' path' else None
  | Wild _ :: p', seg :: path' => if String.eqb seg "" then None else cons seg <$> matches p' path'
  | _, _ => None
  end.

(** The method of a pattern takes a request's: none takes any, GET takes HEAD. *)
Definition takes (pattern method : string) : bool :=
  String.eqb pattern "" || String.eqb pattern method || String.eqb pattern "GET" && String.eqb method "HEAD".

(** ** Conflicts *)

Inductive Relationship := Equivalent | MoreGeneral | MoreSpecific | Disjoint | Overlaps.

Definition combineRelationships (r1 r2 : Relationship) : Relationship :=
  match r1, r2 with
  | Equivalent, _ => r2
  | Disjoint, _ | Overlaps, Disjoint => Disjoint
  | Overlaps, _ => Overlaps
  | _, Equivalent => r1
  | MoreGeneral, MoreSpecific | MoreSpecific, MoreGeneral => Overlaps
  | _, _ => r2
  end.

Definition compareMethods (m1 m2 : string) : Relationship :=
  if String.eqb m1 m2 then Equivalent
  else if String.eqb m1 "" then MoreGeneral
  else if String.eqb m2 "" then MoreSpecific
  else if String.eqb m1 "GET" && String.eqb m2 "HEAD" then MoreGeneral
  else if String.eqb m2 "GET" && String.eqb m1 "HEAD" then MoreSpecific
  else Disjoint.

Definition compareSegments (s1 s2 : Segment) : Relationship :=
  match s1, s2 with
  | Wild _, Wild _ => Equivalent
  | Wild _, Word s => if String.eqb s "" then Disjoint else MoreGeneral
  | Word s, Wild _ => if String.eqb s "" then Disjoint else MoreSpecific
  | Word s, Word s' => if String.eqb s s' then Equivalent else Disjoint
  end.

Fixpoint comparePaths (p1 p2 : list Segment) : Relationship :=
  match p1, p2 with
  | [], [] => Equivalent
  | s1 :: p1', s2 :: p2' => combineRelationships (compareSegments s1 s2) (comparePaths p1' p2')
  | _, _ => Disjoint
  end.

Definition comparePathsAndMethods (p1 p2 : Pattern) : Relationship :=
  match compareMethods (pt_Method p1) (pt_Method p2) with
  | Disjoint => Disjoint
  | r => combineRelationships r (comparePaths (pt_Path p1) (pt_Path p2))
  end.

Definition conflictsWith (p1 p2 : Pattern) : bool :=
  match comparePathsAndMethods p1 p2 with Equivalent | Overlaps => true | _ => false end.

(** * The mux *)

Inductive Answer (H : Type) :=
| Handled (h : H) (values : list string)
| MethodNotAllowed (allow : list string)
| NotFound.
Arguments Handled {H}. Arguments MethodNotAllowed {H}. Arguments NotFound {H}.

Section Mux.
Context {H : Type}.

(** A node of the tree is what is left of the patterns that pass through it. *)
Definition Node : Type := list (list Segment * H).

Definition wordChild (seg : string) (n : Node) : Node :=
  omap (fun e => match fst e with
                 | Word s :: rest => if String.eqb s seg then Some (rest, snd e) else None
                 | _ => None
                 end) n.

Definition wildChild (n : Node) : Node :=
  omap (fun e => match fst e with Wild _ :: rest => Some (rest, snd e) | _ => None end) n.

Definition leaf (n : Node) : option H :=
  head (omap (fun e => match fst e with [] => Some (snd e) | _ => None end) n).

Fixpoint matchPath (n : Node) (path : list string) : option (H * list string) :=
  match path with
  | [] => (fun h => (h, [])) <$> leaf n
  | seg :: path' =>
      match matchPath (wordChild seg n) path' with
      | Some x => Some x
      | None =>
          if String.eqb seg "" then None
          else (fun x => (fst x, seg :: snd x)) <$> matchPath (wildChild n) path'
      end
  end.

Definition found {A : Type} (x : option A) : bool := match x with Some _ => true | None => false end.

(** The tree below a method. *)
Definition under (method : string) (ps : list (Pattern * H)) : Node :=
  omap (fun e => if String.eqb (pt_Method (fst e)) method then Some (pt_Path (fst e), snd e) else None) ps.

Definition matchMethodAndPath (ps : list (Pattern * H)) (method : string) (path : list string)
    : option (H * list string) :=
  match matchPath (under method ps) path with
  | Some x => Some x
  | None =>
      match (if String.eqb method "HEAD" then matchPath (under "GET" ps) path else None) with
      | Some x => Some x
      | None => matchPath (under "" ps) path
      end
  end.

Definition matchingMethods (ps : list (Pattern * H)) (path : list string) : list string :=
  let set := List.filter (fun m => str_nonempty m &&
                 (found (matchPath (under m ps) path) || found (matchPath (under m ps) (path ++ [""]))))
               (map (fun e => pt_Method (fst e)) ps) in
  sort_strings (remove_dups (set ++ if contains set "GET" then ["HEAD"] else [])).

Definition serve (ps : list (Pattern * H)) (method : string) (path : list string) : Answer H :=
  match matchMethodAndPath ps method path with
  | Some (h, values) => Handled h values
  | None =>
      match matchingMethods ps path with
      | [] => NotFound
      | allow => MethodNotAllowed allow
      end
  end.

(** [mux.HandleFunc] in turn; [None] is the panic of a conflicting registration. *)
Fixpoint register (mux : list (Pattern * H)) (ps : list (Pattern * H)) : option (list (Pattern * H)) :=
  match ps with
  | [] => Some mux
  | e :: ps' =>
      if existsb (fun e' => conflictsWith (fst e) (fst e')) mux then None else register (mux ++ [e]) ps'
  end.

(** [if h != nil { mux.HandleFunc(pattern, h) }] *)
Definition handle (pattern : string) (h : option H) : list (Pattern * H) :=
  match h with Some h => [(parsePattern pattern, h)] | None => [] end.
End Mux.

(** * The tables of the commands *)

Section Tables.
Context {H : Type}.

(** [routes] of the gateway; [None] is a handler that is not configured. *)
Record routes := mkRoutes {
  submit : option H;
  status : option H;
  list_ : option H;
  revokeGrant : option H;
  issueGrant : option H;
  applyControl : option H;
  revokeControl : option H;
  listControls : option H;
  registerKey : option H;
  revokeKey : option H;
  registerActivationKey : option H;
  revokeActivationKey : option H
}.

(** What the gateway's mux may serve, in the order it registers. *)
Definition gateway_table (health evidenceByCorrelation evidenceByIntent : H) (h : routes)
    : list (string * option H) :=
  [("/healthz", Some health); ("/readyz", Some health);
   ("GET /v1/evidence", Some evidenceByCorrelation);
   ("GET /v1/intents/{id}/evidence", Some evidenceByIntent);
   ("POST /v1/intents", submit h);
   ("GET /v1/intents/{id}", status h);
   ("GET /v1/intents", list_ h);
   ("POST /v1/authority-grants/{id}/revoke", revokeGrant h);
   ("POST /v1/authority-grants", issueGrant h);
   ("POST /v1/controls", applyControl h);
   ("POST /v1/agent-keys/revoke", revokeKey h);
   ("POST /v1/agent-keys", registerKey h);
   ("POST /v1/policy-activation-keys/revoke", revokeActivationKey h);
   ("POST /v1/policy-activation-keys", registerActivationKey h);
   ("POST /v1/controls/{id}/revoke", revokeControl h);
   ("GET /v1/controls", listControls h)].

Definition registrations (table : list (string * option H)) : list (Pattern * H) :=
  mbind (fun e => handle (fst e) (snd e)) table.

Definition newMux (health evidenceByCorrelation evidenceByIntent : H) (h : routes)
    : option (list (Pattern * H)) :=
  register [] (registrations (gateway_table health evidenceByCorrelation evidenceByIntent h)).

(** [Routes] of the three surfaces of the fleet engine. *)
Record FleetAPI := mkFleetAPI { fleetState : H; cohorts : H; dependencies : H }.
Record SimulationAPI := mkSimulationAPI { sim_submit : H; sim_list : H; sim_get : H; sim_cancel : H }.
Record IncidentAPI := mkIncidentAPI { inc_list : H; inc_get : H }.

Definition fleet_routes (a : FleetAPI) : list (string * option H) :=
  [("GET /v1/fleet/state", Some (fleetState a)); ("GET /v1/cohorts", Some (cohorts a));
   ("GET /v1/dependencies", Some (dependencies a))].

Definition simulation_routes (a : option SimulationAPI) : list (string * option H) :=
  [("POST /v1/simulations", sim_submit <$> a); ("GET /v1/simulations", sim_list <$> a);
   ("GET /v1/simulations/{id}", sim_get <$> a); ("POST /v1/simulations/{id}/cancel", sim_cancel <$> a)].

Definition incident_routes (a : option IncidentAPI) : list (string * option H) :=
  [("GET /v1/incidents", inc_list <$> a); ("GET /v1/incidents/{id}", inc_get <$> a)].

Definition fleet_table (health : H) (api : FleetAPI) (sim : option SimulationAPI) (inc : option IncidentAPI)
    : list (string * option H) :=
  [("/healthz", Some health); ("/readyz", Some health)] ++ fleet_routes api ++ simulation_routes sim ++
  incident_routes inc.

Definition fleet_newMux (health : H) (api : FleetAPI) (sim : option SimulationAPI) (inc : option IncidentAPI)
    : option (list (Pattern * H)) :=
  register [] (registrations (fleet_table health api sim inc)).
End Tables.
Arguments routes : clear implicits. Arguments FleetAPI : clear implicits.
Arguments SimulationAPI : clear implicits. Arguments IncidentAPI : clear implicits.

(** * What the tree finds *)

Section Walk.
Context {H : Type}.
Implicit Types (n : Node (H := H)) (ps : list (Pattern * H)).

Lemma elem_wordChild seg n p h : (p, h) ∈ wordChild seg n <-> (Word seg :: p, h) ∈ n.
Proof.
  unfold wordChild. rewrite list_elem_of_omap. split.
  - intros ([[|[s|name] rest] h'] & Hin & He); cbn in He; try done.
    destruct (String.eqb_spec s seg); [|done]. by injection He as -> ->; subst.
  - intros Hin. exists (Word seg :: p, h). cbn. by rewrite String.eqb_refl.
Qed.

Lemma elem_wildChild n p h : (p, h) ∈ wildChild n <-> exists name, (Wild name :: p, h) ∈ n.
Proof.
  unfold wildChild. rewrite list_elem_of_omap. split.
  - intros ([[|[s|name] rest] h'] & Hin & He); cbn in He; try done. injection He as -> ->. by exists name.
  - intros [name Hin]. by exists (Wild name :: p, h).
Qed.

Lemma elem_under m ps p h : (p, h) ∈ under m ps <-> (mkPattern m p, h) ∈ ps.
Proof.
  unfold under. rewrite list_elem_of_omap. split.
  - intros ([[m' p'] h'] & Hin & He); cbn in He. destruct (String.eqb_spec m' m); [|done].
    by injection He as -> ->; subst.
  - intros Hin. exists (mkPattern m p, h). cbn. by rewrite String.eqb_refl.
Qed.

Lemma leaf_Some n h : leaf n = Some h -> ([], h) ∈ n.
Proof.
  unfold leaf. intros Hh%head_Some_elem_of%list_elem_of_omap. destruct Hh as ([[|] h'] & Hin & He); [|done].
  by injection He as ->.
Qed.

Lemma leaf_None n h : ([], h) ∈ n -> leaf n <> None.
Proof.
  intros Hin Hl. unfold leaf in Hl. apply head_None in Hl.
  assert (h ∈ omap (fun e : list Segment * H => match fst e with [] => Some (snd e) | _ => None end) n) as Hm
    by (apply list_elem_of_omap; by exists ([], h)).
  rewrite Hl in Hm. by apply elem_of_nil in Hm.
Qed.

(** The walk ends at a pattern that matches. *)
Lemma matchPath_sound path : forall n h values,
  matchPath n path = Some (h, values) -> exists p, (p, h) ∈ n /\ matches p path = Some values.
Proof.
  induction path as [|seg path IH]; intros n h values; cbn [matchPath].
  - destruct (leaf n) as [h'|] eqn:E; [|done]. intros [= -> <-]. apply leaf_Some in E. by exists [].
  - destruct (matchPath (wordChild seg n) path) as [[h' vs]|] eqn:E.
    + intros [= -> ->]. destruct (IH _ _ _ E) as (p & Hp & Hm). apply elem_wordChild in Hp.
      exists (Word seg :: p). split; [done|]. cbn. by rewrite String.eqb_refl.
    + destruct (String.eqb_spec seg "") as [|Hs]; [done|].
      destruct (matchPath (wildChild n) path) as [[h' vs]|] eqn:E'; [|done]. intros [= -> <-].
      destruct (IH _ _ _ E') as (p & Hp & Hm). apply elem_wildChild in Hp as [name Hp].
      exists (Wild name :: p). split; [done|]. cbn. rewrite (proj2 (String.eqb_neq _ _) Hs). by rewrite Hm.
Qed.

(** And finds one where there is one. *)
Lemma matchPath_complete path : forall n p h values,
  (p, h) ∈ n -> matches p path = Some values -> matchPath n path <> None.
Proof.
  induction path as [|seg path IH]; intros n p h values Hin Hm; cbn [matchPath].
  - destruct p as [|[] ]; [|done..]. destruct (leaf n) eqn:E; [done|]. by apply leaf_None in Hin.
  - destruct p as [|[s|name] p]; [done|cbn in Hm..].
    + destruct (String.eqb_spec s seg) as [->|]; [|done]. apply elem_wordChild in Hin.
      destruct (matchPath (wordChild seg n) path) eqn:E; [done|]. by apply (IH _ _ _ _ Hin) in Hm.
    + destruct (matchPath (wordChild seg n) path); [done|]. destruct (String.eqb seg ""); [done|].
      destruct (matches p path) as [vs|] eqn:E; [|done].
      assert ((p, h) ∈ wildChild n) as Hw by (apply elem_wildChild; by exists name).
      specialize (IH _ _ _ _ Hw E). by destruct (matchPath (wildChild n) path).
Qed.

Lemma matchMethodAndPath_sound ps method path h values :
  matchMethodAndPath ps method path = Some (h, values) ->
  exists p, (p, h) ∈ ps /\ takes (pt_Method p) method = true /\ matches (pt_Path p) path = Some values.
Proof.
  assert (forall m, takes m method = true -> matchPath (under m ps) path = Some (h, values) ->
    exists p, (p, h) ∈ ps /\ takes (pt_Method p) method = true /\ matches (pt_Path p) path = Some values) as Hat.
  { intros m Ht (p & Hp%elem_under & Hm)%matchPath_sound. by exists (mkPattern m p). }
  unfold matchMethodAndPath, takes in *. destruct (matchPath (under method ps) path) as [x|] eqn:E.
  { intros [= ->]. apply (Hat method); [|done]. by rewrite String.eqb_refl, !orb_true_r. }
  destruct (String.eqb_spec method "HEAD") as [->|].
  - destruct (matchPath (under "GET" ps) path) as [x|] eqn:E'.
    + intros [= ->]. by apply (Hat "GET").
    + by apply (Hat "").
  - by apply (Hat "").
Qed.

Lemma matchMethodAndPath_complete ps method path p h values :
  (p, h) ∈ ps -> takes (pt_Method p) method = true -> matches (pt_Path p) path = Some values ->
  matchMethodAndPath ps method path <> None.
Proof.
  destruct p as [m p]. intros Hin Ht Hm. assert ((p, h) ∈ under m ps) as Hu by by apply elem_under.
  pose proof (matchPath_complete _ _ _ _ _ Hu Hm) as Hne. cbn in Ht. unfold takes in Ht.
  unfold matchMethodAndPath. rewrite !orb_true_iff, andb_true_iff, !String.eqb_eq in Ht.
  destruct (matchPath (under method ps) path) eqn:E; [done|].
  destruct Ht as [[->| ->]|[-> ->]].
  - by destruct (if String.eqb method "HEAD" then _ else None).
  - by rewrite E in Hne.
  - cbn. by destruct (matchPath (under "GET" ps) path).
Qed.
End Walk.

(** ** Disjoint patterns *)

Lemma compareMethods_disjoint m1 m2 method :
  compareMethods m1 m2 = Disjoint -> takes m1 method = true -> takes m2 method = true -> False.
Proof.
  unfold compareMethods, takes. rewrite !orb_true_iff, !andb_true_iff, !String.eqb_eq.
  destruct (String.eqb_spec m1 m2); [done|]. destruct (String.eqb_spec m1 ""); [done|].
  destruct (String.eqb_spec m2 ""); [done|]. destruct (String.eqb_spec m1 "GET"), (String.eqb_spec m2 "HEAD"),
    (String.eqb_spec m2 "GET"), (String.eqb_spec m1 "HEAD"); cbn; try done; intros _; naive_solver congruence.
Qed.

Lemma compareSegments_disjoint s1 s2 p1 p2 seg path :
  compareSegments s1 s2 = Disjoint -> found (matches (s1 :: p1) (seg :: path)) = true ->
  found (matches (s2 :: p2) (seg :: path)) = true -> False.
Proof.
  destruct s1 as [s1|], s2 as [s2|]; cbn; try done.
  - destruct (String.eqb_spec s1 s2); [done|]. intros _. destruct (String.eqb_spec s1 seg) as [->|]; [|done].
    by destruct (String.eqb_spec s2 seg).
  - destruct (String.eqb_spec s1 ""); [|done]. intros _. destruct (String.eqb_spec s1 seg); [|done]. by subst.
  - destruct (String.eqb_spec s2 ""); [|done]. intros _. destruct (String.eqb_spec s2 seg); [|by destruct (String.eqb seg "")].
    by subst.
Qed.

Lemma combine_disjoint r1 r2 : combineRelationships r1 r2 = Disjoint <-> r1 = Disjoint \/ r2 = Disjoint.
Proof. destruct r1, r2; cbn; naive_solver. Qed.

Lemma matches_tail s p seg path :
  found (matches (s :: p) (seg :: path)) = true -> found (matches p path) = true.
Proof.
  destruct s; cbn; [destruct (String.eqb _ _)|destruct (String.eqb _ _)]; try done.
  by destruct (matches p path).
Qed.

Lemma comparePaths_disjoint p1 : forall p2 path,
  comparePaths p1 p2 = Disjoint -> found (matches p1 path) = true -> found (matches p2 path) = true -> False.
Proof.
  induction p1 as [|s1 p1 IH]; intros [|s2 p2] path; cbn [comparePaths].
  - done.
  - intros _. destruct path; [|done]. by destruct s2.
  - intros _. destruct path; [by destruct s1 | done].
  - destruct path as [|seg path]; [by destruct s1|]. intros [Hd|Hd]%combine_disjoint H1 H2.
    + by eapply compareSegments_disjoint.
    + apply (IH p2 path); [done | by eapply matches_tail..].
Qed.

(** No request is matched by both of two disjoint patterns. *)
Lemma disjoint_patterns p1 p2 method path v1 v2 :
  comparePathsAndMethods p1 p2 = Disjoint ->
  takes (pt_Method p1) method = true -> matches (pt_Path p1) path = Some v1 ->
  takes (pt_Method p2) method = true -> matches (pt_Path p2) path = Some v2 -> False.
Proof.
  unfold comparePathsAndMethods. intros Hd T1 M1 T2 M2.
  assert (compareMethods (pt_Method p1) (pt_Method p2) = Disjoint \/
          comparePaths (pt_Path p1) (pt_Path p2) = Disjoint) as [Hm|Hp].
  { destruct (compareMethods _ _); try (by left); by apply combine_disjoint in Hd as [Hd|Hd]; [|right]. }
  - by eapply compareMethods_disjoint.
  - eapply comparePaths_disjoint; [exact Hp | by rewrite M1 | by rewrite M2].
Qed.

(** * Tables whose patterns are apart *)

Definition apart (p q : Pattern) : bool :=
  match comparePathsAndMethods p q, comparePathsAndMethods q p with Disjoint, Disjoint => true | _, _ => false end.

Fixpoint all_apart (l : list Pattern) : bool :=
  match l with [] => true | p :: l' => forallb (apart p) l' && all_apart l' end.

Lemma apart_comm p q : apart p q = apart q p.
Proof. unfold apart. by destruct (comparePathsAndMethods p q), (comparePathsAndMethods q p). Qed.

Lemma apart_disjoint p q : apart p q = true -> comparePathsAndMethods p q = Disjoint.
Proof. unfold apart. by destruct (comparePathsAndMethods p q). Qed.

Lemma all_apart_perm l l' : l ≡ₚ l' -> all_apart l = true -> all_apart l' = true.
Proof.
  induction 1 as [|p l l' Hp IH|p q l|l1 l2 l3 _ IH1 _ IH2]; cbn [all_apart forallb]; [done| | |auto].
  - rewrite !andb_true_iff, !forallb_forall. intros [Ha Hl]. split; [|auto].
    intros q Hq. apply Ha. apply list_elem_of_In. rewrite Hp. by apply list_elem_of_In.
  - rewrite !andb_true_iff, (apart_comm p q). tauto.
Qed.

Lemma all_apart_eq l p q : all_apart l = true -> p ∈ l -> q ∈ l -> p = q \/ comparePathsAndMethods p q = Disjoint.
Proof.
  induction l as [|r l IH]; cbn [all_apart]; [intros _ H; by apply elem_of_nil in H|].
  rewrite andb_true_iff, forallb_forall. intros [Ha Hl] [->|Hp]%elem_of_cons [->|Hq]%elem_of_cons; auto.
  - right. apply apart_disjoint, Ha. by apply list_elem_of_In.
  - right. apply apart_disjoint. rewrite apart_comm. apply Ha. by apply list_elem_of_In.
Qed.

Definition Table (H : Type) : Type := list (string * option H).

Section Served.
Context {H : Type}.
Implicit Types (t : Table H) (ps : list (Pattern * H)).

Definition patterns t : list Pattern := map (fun e => parsePattern (fst e)) t.

(** A row of the table answers a request. *)
Definition answers t (method : string) (path : list string) (h : H) (values : list string) : Prop :=
  exists pattern, (pattern, Some h) ∈ t /\ takes (pt_Method (parsePattern pattern)) method = true /\
    matches (pt_Path (parsePattern pattern)) path = Some values.

Lemma elem_registrations t p h :
  (p, h) ∈ registrations t <-> exists s, (s, Some h) ∈ t /\ p = parsePattern s.
Proof.
  unfold registrations. rewrite list_elem_of_bind. split.
  - intros ([s [h'|]] & Hin & Ht); cbn in Hin; [|by apply elem_of_nil in Hin].
    apply list_elem_of_singleton in Hin as [= -> ->]. by exists s.
  - intros (s & Hs & ->). exists (s, Some h). split; [|done]. cbn. by apply list_elem_of_singleton.
Qed.

Lemma register_apart t : forall mux,
  all_apart (patterns t) = true ->
  (forall e p, e ∈ mux -> p ∈ patterns t -> apart p (fst e) = true) ->
  register mux (registrations t) = Some (mux ++ registrations t).
Proof.
  induction t as [|[s [h|]] t IH]; intros mux; cbn [patterns map all_apart].
  - intros _ _. cbn. by rewrite app_nil_r.
  - rewrite andb_true_iff, forallb_forall. intros [Ha Ht] Hm. cbn.
    assert (existsb (fun e' => conflictsWith (parsePattern s) (fst e')) mux = false) as ->.
    { apply not_true_is_false. intros (e & He & Hc)%existsb_exists. apply list_elem_of_In in He.
      specialize (Hm e (parsePattern s) He (list_elem_of_here _ _)). apply apart_disjoint in Hm.
      unfold conflictsWith in Hc. by rewrite Hm in Hc. }
    change (mbind _ t) with (registrations t). rewrite IH; [by rewrite <- app_assoc | done |].
    intros e p [He| ->%list_elem_of_singleton]%elem_of_app Hp; [apply Hm; [done | by right]|].
    cbn. rewrite apart_comm. apply Ha. by apply list_elem_of_In.
  - rewrite andb_true_iff. intros [_ Ht] Hm. cbn. apply IH; [done|]. intros e p He Hp. apply Hm; [done | by right].
Qed.

(** Two rows with the same pattern, as text, would be one. *)
Lemma row_unique t s1 s2 h1 h2 :
  all_apart (patterns t) = true -> (s1, Some h1) ∈ t -> (s2, Some h2) ∈ t ->
  parsePattern s1 = parsePattern s2 -> h1 = h2.
Proof.
  induction t as [|e t IH]; cbn [patterns map all_apart]; [intros _ Hin; by apply elem_of_nil in Hin|].
  rewrite andb_true_iff, forallb_forall. intros [Ha Ht] Hin1 Hin2 Hs.
  assert (forall s h, (s, Some h) ∈ t -> apart (parsePattern (fst e)) (parsePattern s) = true) as Hap.
  { intros s h Hin. apply Ha. apply list_elem_of_In, list_elem_of_fmap. by exists (s, Some h). }
  assert (forall p, apart p p = true -> False) as Hself.
  { intros [m p] Hp%apart_disjoint. unfold comparePathsAndMethods, compareMethods in Hp. cbn in Hp.
    rewrite String.eqb_refl in Hp. cbn in Hp. clear -Hp. induction p as [|[w|w] p IH]; cbn in Hp; [done|..].
    - rewrite String.eqb_refl in Hp. by apply IH.
    - by apply IH. }
  apply elem_of_cons in Hin1 as [<-|Hin1], Hin2 as [E|Hin2]; [| | |by apply IH].
  - by injection E.
  - apply Hap in Hin2. cbn in Hin2. rewrite <- Hs in Hin2. by apply Hself in Hin2.
  - subst e. apply Hap in Hin1. cbn in Hin1. rewrite Hs in Hin1. by apply Hself in Hin1.
Qed.

(** The mux of a table answers exactly by its rows. *)
Lemma served t method path h values :
  all_apart (patterns t) = true ->
  (serve (registrations t) method path = Handled h values <-> answers t method path h values).
Proof.
  intros Ha. unfold serve. split.
  - destruct (matchMethodAndPath _ _ _) as [[h' vs]|] eqn:E; [|by destruct (matchingMethods _ _)].
    intros [= -> ->]. destruct (matchMethodAndPath_sound _ _ _ _ _ E) as (p & Hp & Ht & Hm).
    apply elem_registrations in Hp as (s & Hs & ->). by exists s.
  - intros (s & Hs & Ht & Hm).
    assert ((parsePattern s, h) ∈ registrations t) as Hin by (apply elem_registrations; by exists s).
    pose proof (matchMethodAndPath_complete _ _ _ _ _ _ Hin Ht Hm) as Hne.
    destruct (matchMethodAndPath _ _ _) as [[h' vs]|] eqn:E; [|done].
    destruct (matchMethodAndPath_sound _ _ _ _ _ E) as (p & Hp & Ht' & Hm').
    apply elem_registrations in Hp as (s' & Hs' & ->).
    assert (forall s h, (s, Some h) ∈ t -> parsePattern s ∈ patterns t) as Hpat
      by (intros s0 h0 H0; apply list_elem_of_fmap; by exists (s0, Some h0)).
    destruct (all_apart_eq _ _ _ Ha (Hpat _ _ Hs) (Hpat _ _ Hs')) as [Heq|Hd].
    + rewrite (row_unique _ _ _ _ _ Ha Hs Hs' Heq). rewrite <- Heq in Hm'. congruence.
    + exfalso. by eapply disjoint_patterns.
Qed.

Lemma found_matchPath (n : Node (H := H)) path :
  found (matchPath n path) = true <-> exists e, e ∈ n /\ found (matches (fst e) path) = true.
Proof.
  split.
  - destruct (matchPath n path) as [[h vs]|] eqn:E; [|done]. intros _.
    apply matchPath_sound in E as (p & Hp & Hm). exists (p, h). cbn. by rewrite Hm.
  - intros ([p h] & Hp & Hm). cbn in Hm. destruct (matches p path) eqn:E; [|done].
    pose proof (matchPath_complete _ _ _ _ _ Hp E) as Hne. by destruct (matchPath n path).
Qed.

Lemma matchingMethods_perm ps ps' path : ps ≡ₚ ps' -> matchingMethods ps path = matchingMethods ps' path.
Proof.
  intros Hp. unfold matchingMethods. apply sort_strings_perm.
  assert (forall m q, found (matchPath (under m ps) q) = found (matchPath (under m ps') q)) as Hf.
  { intros m q. apply eq_true_iff_eq. rewrite !found_matchPath.
    assert (forall e, e ∈ under m ps <-> e ∈ under m ps') as He by (intros [p h]; by rewrite !elem_under, Hp).
    by setoid_rewrite He. }
  set (l := map (fun e => pt_Method (fst e)) ps). set (l' := map (fun e => pt_Method (fst e)) ps').
  assert (l ≡ₚ l') as Hl by (unfold l, l'; by rewrite Hp).
  set (f := fun m => str_nonempty m && _). set (f' := fun m => str_nonempty m && _).
  assert (forall m, f m = f' m) as Hff by (intros m; unfold f, f'; by rewrite !Hf).
  assert (forall m, m ∈ List.filter f l <-> m ∈ List.filter f' l') as Hm.
  { intros m. by rewrite !list_elem_of_In, !filter_In, <- !list_elem_of_In, Hl, Hff. }
  assert (contains (List.filter f l) "GET" = contains (List.filter f' l') "GET") as Hc.
  { apply eq_true_iff_eq. rewrite !contains_spec. apply Hm. }
  apply NoDup_Permutation; [apply NoDup_remove_dups..|]. intros m.
  by rewrite !elem_of_remove_dups, !elem_of_app, Hm, Hc.
Qed.

Lemma not_handled ps method path :
  (forall h values, serve ps method path <> Handled h values) ->
  serve ps method path = match matchingMethods ps path with [] => NotFound | allow => MethodNotAllowed allow end.
Proof.
  unfold serve. destruct (matchMethodAndPath _ _ _) as [[h vs]|]; [|done]. intros Hn. by destruct (Hn h vs).
Qed.

Lemma serve_perm t t' method path :
  t ≡ₚ t' -> all_apart (patterns t) = true ->
  serve (registrations t) method path = serve (registrations t') method path.
Proof.
  intros Hp Ha. assert (all_apart (patterns t') = true) as Ha'
    by (eapply all_apart_perm; [|exact Ha]; unfold patterns; by rewrite Hp).
  assert (forall h values, serve (registrations t) method path = Handled h values <->
                           serve (registrations t') method path = Handled h values) as Hiff.
  { intros h values. rewrite !served by done. unfold answers. by setoid_rewrite Hp. }
  destruct (serve (registrations t) method path) as [h values|allow|] eqn:E.
  - symmetry. by apply Hiff.
  - rewrite <- E, !not_handled; [|intros h v Hs; apply Hiff in Hs; congruence | intros h v; congruence].
    rewrite (matchingMethods_perm _ (registrations t')); [done|]. unfold registrations. by rewrite Hp.
  - rewrite <- E, !not_handled; [|intros h v Hs; apply Hiff in Hs; congruence | intros h v; congruence].
    rewrite (matchingMethods_perm _ (registrations t')); [done|]. unfold registrations. by rewrite Hp.
Qed.

(** What a mux built from a table promises. *)
Definition routed t : Prop :=
  forall t', t' ≡ₚ t -> exists ps, register [] (registrations t') = Some ps /\
    forall method path h values, serve ps method path = Handled h values <-> answers t method path h values.

Lemma apart_routed t : all_apart (patterns t) = true -> routed t.
Proof.
  intros Ha t' Hp. assert (all_apart (patterns t') = true) as Ha'
    by (eapply all_apart_perm; [|exact Ha]; unfold patterns; by rewrite Hp).
  exists (registrations t'). split.
  - by rewrite (register_apart t' []) by (done || (intros e p He; by apply elem_of_nil in He)).
  - intros method path h values. rewrite served by done. unfold answers. by setoid_rewrite Hp.
Qed.
End Served.

Lemma matches_Word s p path values :
  matches (Word s :: p) path = Some values -> exists path', path = s :: path' /\ matches p path' = Some values.
Proof.
  destruct path as [|seg path]; [done|]. cbn. destruct (String.eqb_spec s seg) as [->|]; [|done]. by exists path.
Qed.

Lemma matches_Wild name p path values :
  matches (Wild name :: p) path = Some values ->
  exists seg path' values', path = seg :: path' /\ values = seg :: values' /\ seg <> "" /\
    matches p path' = Some values'.
Proof.
  destruct path as [|seg path]; [done|]. cbn. destruct (String.eqb_spec seg ""); [done|].
  destruct (matches p path) as [vs|] eqn:E; [|done]. intros [= <-]. by exists seg, path, vs.
Qed.

Lemma matches_nil path values : matches [] path = Some values -> path = [] /\ values = [].
Proof. by destruct path; [intros [= <-]|]. Qed.

(** A match against a known pattern says what the path is. *)
Ltac walk_path Hm :=
  match type of Hm with matches ?p _ = _ => let q := eval vm_compute in p in change p with q in Hm end;
  repeat first
    [ apply matches_Word in Hm as (? & -> & Hm)
    | let id := fresh "id" in apply matches_Wild in Hm as (id & ? & ? & -> & -> & ? & Hm)
    | apply matches_nil in Hm as [-> ->] ].

(** * Properties *)

Section Routed.
Context {H : Type}.

Lemma gateway_routed (health ec ei : H) (h : routes H) : routed (gateway_table health ec ei h).
Proof. apply apart_routed. vm_compute. reflexivity. Qed.

Lemma fleet_routed (health : H) (api : FleetAPI H) (sim : option (SimulationAPI H)) (inc : option (IncidentAPI H)) :
  routed (fleet_table health api sim inc).
Proof. apply apart_routed. vm_compute. reflexivity. Qed.

(** ** What each command serves *)

(** GET stands for HEAD too. *)
Definition reading (method : string) : Prop := method = "GET" \/ method = "HEAD".

(** The interface of the gateway: a request, what answers it, and what its handler finds
    under {id}. *)
Inductive gateway_serves (health ec ei : H) (h : routes H) : string -> list string -> H -> list string -> Prop :=
| gs_healthz m : gateway_serves health ec ei h m ["";"healthz"] health []
| gs_readyz m : gateway_serves health ec ei h m ["";"readyz"] health []
| gs_evidence m : reading m -> gateway_serves health ec ei h m ["";"v1";"evidence"] ec []
| gs_intent_evidence m id : reading m -> id <> "" ->
    gateway_serves health ec ei h m ["";"v1";"intents";id;"evidence"] ei [id]
| gs_submit x : submit h = Some x -> gateway_serves health ec ei h "POST" ["";"v1";"intents"] x []
| gs_list m x : reading m -> list_ h = Some x -> gateway_serves health ec ei h m ["";"v1";"intents"] x []
| gs_status m id x : reading m -> id <> "" -> status h = Some x ->
    gateway_serves health ec ei h m ["";"v1";"intents";id] x [id]
| gs_issue x : issueGrant h = Some x -> gateway_serves health ec ei h "POST" ["";"v1";"authority-grants"] x []
| gs_revoke id x : id <> "" -> revokeGrant h = Some x ->
    gateway_serves health ec ei h "POST" ["";"v1";"authority-grants";id;"revoke"] x [id]
| gs_apply_control x : applyControl h = Some x -> gateway_serves health ec ei h "POST" ["";"v1";"controls"] x []
| gs_list_controls m x : reading m -> listControls h = Some x ->
    gateway_serves health ec ei h m ["";"v1";"controls"] x []
| gs_revoke_control id x : id <> "" -> revokeControl h = Some x ->
    gateway_serves health ec ei h "POST" ["";"v1";"controls";id;"revoke"] x [id]
| gs_register_key x : registerKey h = Some x -> gateway_serves health ec ei h "POST" ["";"v1";"agent-keys"] x []
| gs_revoke_key x : revokeKey h = Some x ->
    gateway_serves health ec ei h "POST" ["";"v1";"agent-keys";"revoke"] x []
| gs_register_activation x : registerActivationKey h = Some x ->
    gateway_serves health ec ei h "POST" ["";"v1";"policy-activation-keys"] x []
| gs_revoke_activation x : revokeActivationKey h = Some x ->
    gateway_serves health ec ei h "POST" ["";"v1";"policy-activation-keys";"revoke"] x [].

(** The interface of the intelligence plane. *)
Inductive fleet_serves (health : H) (api : FleetAPI H) (sim : option (SimulationAPI H)) (inc : option (IncidentAPI H))
    : string -> list string -> H -> list string -> Prop :=
| fs_healthz m : fleet_serves health api sim inc m ["";"healthz"] health []
| fs_readyz m : fleet_serves health api sim inc m ["";"readyz"] health []
| fs_state m : reading m -> fleet_serves health api sim inc m ["";"v1";"fleet";"state"] (fleetState api) []
| fs_cohorts m : reading m -> fleet_serves health api sim inc m ["";"v1";"cohorts"] (cohorts api) []
| fs_dependencies m : reading m -> fleet_serves health api sim inc m ["";"v1";"dependencies"] (dependencies api) []
| fs_submit a : sim = Some a -> fleet_serves health api sim inc "POST" ["";"v1";"simulations"] (sim_submit a) []
| fs_list m a : reading m -> sim = Some a -> fleet_serves health api sim inc m ["";"v1";"simulations"] (sim_list a) []
| fs_get m id a : reading m -> id <> "" -> sim = Some a ->
    fleet_serves health api sim inc m ["";"v1";"simulations";id] (sim_get a) [id]
| fs_cancel id a : id <> "" -> sim = Some a ->
    fleet_serves health api sim inc "POST" ["";"v1";"simulations";id;"cancel"] (sim_cancel a) [id]
| fs_incidents m a : reading m -> inc = Some a -> fleet_serves health api sim inc m ["";"v1";"incidents"] (inc_list a) []
| fs_incident m id a : reading m -> id <> "" -> inc = Some a ->
    fleet_serves health api sim inc m ["";"v1";"incidents";id] (inc_get a) [id].

Lemma takes_GET method : takes "GET" method = true <-> reading method.
Proof. unfold takes, reading. rewrite !orb_true_iff, andb_true_iff, !String.eqb_eq. naive_solver. Qed.

Lemma takes_POST method : takes "POST" method = true <-> method = "POST".
Proof. unfold takes. rewrite !orb_true_iff, andb_true_iff, !String.eqb_eq. naive_solver. Qed.

(** One row answers: what its path and method are. *)
Ltac row_of_request Ht Hm :=
  match type of Ht with takes ?p _ = _ => let q := eval vm_compute in p in change p with q in Ht end;
  try apply takes_GET in Ht; try (apply takes_POST in Ht; subst); walk_path Hm.

(** The row that answers is at [s] of the table. *)
Ltac request_of_row s :=
  exists s; split;
  [ try match goal with Hx : _ = Some _ |- _ => rewrite <- Hx end;
    repeat (apply elem_of_cons; first [left; reflexivity | right]) | ]; split;
  [ match goal with |- takes ?p _ = _ => let q := eval vm_compute in p in change p with q end;
    solve [reflexivity | by apply takes_GET | by apply takes_POST]
  | match goal with |- matches ?p _ = _ => let q := eval vm_compute in p in change p with q end;
    cbn; repeat match goal with Hid : ?id <> "" |- _ => apply String.eqb_neq in Hid; rewrite Hid end; reflexivity ].

Lemma gateway_interface (health ec ei : H) (h : routes H) method path x values :
  answers (gateway_table health ec ei h) method path x values <-> gateway_serves health ec ei h method path x values.
Proof.
  split.
  - intros (s & Hs & Ht & Hm). unfold gateway_table in Hs.
    repeat (apply elem_of_cons in Hs as [Hx|Hs]; [apply pair_equal_spec in Hx as [-> Hx]|]);
      [..|by apply elem_of_nil in Hs]; row_of_request Ht Hm;
    try (injection Hx as ->); solve [constructor; solve [assumption | done | by symmetry]].
  - intros []; unfold gateway_table.
    + request_of_row "/healthz".
    + request_of_row "/readyz".
    + request_of_row "GET /v1/evidence".
    + request_of_row "GET /v1/intents/{id}/evidence".
    + request_of_row "POST /v1/intents".
    + request_of_row "GET /v1/intents".
    + request_of_row "GET /v1/intents/{id}".
    + request_of_row "POST /v1/authority-grants".
    + request_of_row "POST /v1/authority-grants/{id}/revoke".
    + request_of_row "POST /v1/controls".
    + request_of_row "GET /v1/controls".
    + request_of_row "POST /v1/controls/{id}/revoke".
    + request_of_row "POST /v1/agent-keys".
    + request_of_row "POST /v1/agent-keys/revoke".
    + request_of_row "POST /v1/policy-activation-keys".
    + request_of_row "POST /v1/policy-activation-keys/revoke".
Qed.

Lemma fleet_interface (health : H) (api : FleetAPI H) (sim : option (SimulationAPI H)) (inc : option (IncidentAPI H))
    method path x values :
  answers (fleet_table health api sim inc) method path x values <-> fleet_serves health api sim inc method path x values.
Proof.
  split.
  - intros (s & Hs & Ht & Hm).
    unfold fleet_table, fleet_routes, simulation_routes, incident_routes in Hs. cbn [app] in Hs.
    repeat (apply elem_of_cons in Hs as [Hx|Hs]; [apply pair_equal_spec in Hx as [-> Hx]|]);
      [..|by apply elem_of_nil in Hs]; row_of_request Ht Hm;
      try (destruct sim as [a|]; [|by cbn in Hx]); try (destruct inc as [a'|]; [|by cbn in Hx]);
      injection Hx as ->; solve [constructor; solve [assumption | done]].
  - intros []; subst; unfold fleet_table, fleet_routes, simulation_routes, incident_routes; cbn [app fmap option_fmap option_map].
    + request_of_row "/healthz".
    + request_of_row "/readyz".
    + request_of_row "GET /v1/fleet/state".
    + request_of_row "GET /v1/cohorts".
    + request_of_row "GET /v1/dependencies".
    + request_of_row "POST /v1/simulations".
    + request_of_row "GET /v1/simulations".
    + request_of_row "GET /v1/simulations/{id}".
    + request_of_row "POST /v1/simulations/{id}/cancel".
    + request_of_row "GET /v1/incidents".
    + request_of_row "GET /v1/incidents/{id}".
Qed.

(** C29: Both commands serve the interface they document, whatever of them is configured.
    No two of the registered patterns conflict, so that building the mux never stops the
    process, in any order of registration; and a request is given to a handler, with the
    values of the wildcards, exactly when [gateway_serves] or [fleet_serves] says so, which
    name for every endpoint its method, its path and the handler, configured or not: what
    writes takes POST alone, what reads takes GET and HEAD, an identifier is one segment and
    not empty, and revoking a key, a grant or a control is never registering one. *)
Theorem requests_reach_their_rows (health ec ei : H) (h : routes H) (api : FleetAPI H)
    (sim : option (SimulationAPI H)) (inc : option (IncidentAPI H)) :
  (forall t, t ≡ₚ gateway_table health ec ei h -> exists ps, register [] (registrations t) = Some ps /\
     forall method path x values, serve ps method path = Handled x values <->
       gateway_serves health ec ei h method path x values) /\
  (forall t, t ≡ₚ fleet_table health api sim inc -> exists ps, register [] (registrations t) = Some ps /\
     forall method path x values, serve ps method path = Handled x values <->
       fleet_serves health api sim inc method path x values).
Proof.
  split; intros t Ht.
  - destruct (gateway_routed health ec ei h t Ht) as (ps & Hr & Hs). exists ps. split; [done|].
    intros. by rewrite Hs, gateway_interface.
  - destruct (fleet_routed health api sim inc t Ht) as (ps & Hr & Hs). exists ps. split; [done|].
    intros. by rewrite Hs, fleet_interface.
Qed.

(** Nothing the intelligence plane serves takes a method that writes, but the submission and
    the cancellation of a simulation. *)
Theorem intelligence_writes_only_simulations (health : H) (api : FleetAPI H) (sim : option (SimulationAPI H))
    (inc : option (IncidentAPI H)) (ps : list (Pattern * H)) (method : string) (path : list string)
    (x : H) (values : list string) :
  fleet_newMux health api sim inc = Some ps ->
  serve ps method path = Handled x values ->
  method = "GET" \/ method = "HEAD" \/ x = health \/
  exists a, sim = Some a /\
    (method = "POST" /\ ((path = ["";"v1";"simulations"] /\ x = sim_submit a) \/
       exists id, path = ["";"v1";"simulations";id;"cancel"] /\ x = sim_cancel a /\ values = [id])).
Proof.
  unfold fleet_newMux. destruct (fleet_routed health api sim inc _ (reflexivity _)) as (ps' & -> & Hps). intros [= <-] (s & Hs & Ht & Hm)%Hps.
  assert (takes "GET" method = true -> method = "GET" \/ method = "HEAD") as Hget
    by (unfold takes; rewrite !orb_true_iff, andb_true_iff, !String.eqb_eq; naive_solver).
  assert (takes "POST" method = true -> method = "POST") as Hpost
    by (unfold takes; rewrite !orb_true_iff, andb_true_iff, !String.eqb_eq; naive_solver).
  unfold fleet_table, fleet_routes, simulation_routes, incident_routes in Hs. cbn [app] in Hs.
  repeat (apply elem_of_cons in Hs as [[= -> Hx]|Hs]); [..|by apply elem_of_nil in Hs];
    try (apply Hget in Ht; tauto); try (subst x; tauto);
    destruct sim as [a|]; cbn in Hx; try discriminate Hx; injection Hx as ->; apply Hpost in Ht;
    do 3 right; exists a; (split; [done|]); (split; [done|]); walk_path Hm.
  - by left.
  - right. by exists id.
Qed.
End Routed.

(** A gateway with a database and without a submission path answers a submission 405, with
    the methods the list of intents takes, and not 404. *)
Theorem unserved_submission_is_not_allowed :
  option_map (fun ps => serve ps "POST" ["";"v1";"intents"])
    (newMux "health" "evidenceByCorrelation" "evidenceByIntent"
       (mkRoutes None (Some "status") (Some "list") None None None None None None None None None)) =
  Some (MethodNotAllowed ["GET"; "HEAD"]).
Proof. vm_compute. reflexivity. Qed.

(** What the fleet engine serves when everything is configured. *)
Example intelligence_writes_only_simulations_witness :
  option_map (fun ps => serve ps "POST" (Split slash "/v1/simulations/sim_1/cancel"))
    (fleet_newMux "health" (mkFleetAPI "state" "cohorts" "dependencies")
       (Some (mkSimulationAPI "submit" "list" "get" "cancel")) None) = Some (Handled "cancel" ["sim_1"]) /\
  exists ps, fleet_newMux "health" (mkFleetAPI "state" "cohorts" "dependencies") None
    (Some (mkIncidentAPI "list" "get")) = Some ps /\
    forall path x values, serve ps "POST" path = Handled x values -> x = "health".
Proof.
  split; [vm_compute; reflexivity|]. eexists. split; [vm_compute; reflexivity|]. intros path x values Hs.
  destruct (intelligence_writes_only_simulations "health" (mkFleetAPI "state" "cohorts" "dependencies") None
    (Some (mkIncidentAPI "list" "get")) _ "POST" path x values ltac:(vm_compute; reflexivity) Hs)
    as [H|[H|[H|(a & H & _)]]]; by done || congruence.
Defined.
