(* ===== verification/Wiring.v ===== *)
(** The start of the two processes: what cmd/assurance-gateway/main.go and
    cmd/fleet-engine/main.go build from their environment, and internal/pg.

    The environment is a function from names to texts.  Files, certificates, connections
    and durations written as text are parameters; the constructors of the components are
    those of the other files.  A process that calls [os.Exit] on its way up is [Err] of the
    code.  What is built is a record of the components and the mux that serves them; loops
    that are started are the configurations they are started with. *)

From S2P Require Import Prelude Strings Money Identity Http Broker Routing.
From S2P Require Submission Venues Bundles Execution Evidence Fleet FleetStore Reads Clickhouse.

(** [int32(n)] *)
Definition to_int32 (z : Z) : Z := (z + 2 ^ 31) mod 2 ^ 32 - 2 ^ 31.

(** [time.Duration(n) * unit] *)
Definition duration_of (n unit : Z) : Duration := wrap64 (wrap64 n * unit).

(** * The event stream *)

Definition StreamName : string := "EVIDENCE".
Definition SubjectPattern : string := "evidence.>".

Record StreamConfig := mkStreamConfig {
  st_Name : string;
  st_Subjects : list string;
  st_Retention : string;
  st_Storage : string;
  st_MaxAge : Duration;
  st_Discard : string
}.

Record ConsumerConfig := mkConsumerConfig {
  cn_Durable : string;
  cn_AckPolicy : string;
  cn_DeliverPolicy : string;
  cn_FilterSubject : string;
  cn_MaxDeliver : Z
}.

Section Environment.
Context (getenv : string -> string).

(** * Settings *)

Definition envOr (key fallback : string) : string :=
  if str_nonempty (getenv key) then getenv key else fallback.

(** The gateway's; the fleet engine's is [intOr]. *)
Definition envInt (key : string) (fallback : Z) : Z :=
  match Submission.Atoi (getenv key) with
  | Some v => if 0 <? v then v else fallback
  | None => fallback
  end.

Definition intOr (key : string) (fallback : Z) : Z :=
  if str_nonempty (getenv key) then
    match Submission.Atoi (getenv key) with
    | Some n => if 0 <? n then n else fallback
    | None => fallback
    end
  else fallback.

(** [parse_duration] is [time.ParseDuration]. *)
Definition durationOr (parse_duration : string -> option Duration) (key : string) (fallback : Duration) : Duration :=
  if str_nonempty (getenv key) then
    match parse_duration (getenv key) with
    | Some d => if 0 <? d then d else fallback
    | None => fallback
    end
  else fallback.

Definition gateway_addr : string := envOr "GATEWAY_ADDR" ":8080".
Definition fleet_addr : string := envOr "FLEET_ENGINE_ADDR" ":8081".

(** * Databases *)

(** pgxpool: [ParseConfig], the assignment of [MaxConns], [NewWithConfig]. *)
Context {PoolConfig Postgres : Type} (ParseConfig : string -> option PoolConfig)
  (with_MaxConns : Z -> PoolConfig -> PoolConfig) (NewWithConfig : PoolConfig -> option Postgres).

Definition DefaultMaxConns : Z := 50.

Definition maxConns : Z :=
  match Submission.Atoi (getenv "POSTGRES_MAX_CONNS") with
  | Some v => if 0 <? v then v else DefaultMaxConns
  | None => DefaultMaxConns
  end.

Definition Open (dsn : string) : option Postgres :=
  match ParseConfig dsn with
  | None => None
  | Some cfg => NewWithConfig (if Contains dsn "pool_max_conns" then cfg else with_MaxConns (to_int32 maxConns) cfg)
  end.

Definition open_named (key : string) : option Postgres :=
  if String.eqb (getenv key) "" then None else Open (getenv key).

Definition openPool : option Postgres := open_named "POSTGRES_APP_DSN".
Definition openOutboxPool : option Postgres := open_named "POSTGRES_OUTBOX_DSN".
Definition openEvidence : option Postgres := open_named "POSTGRES_APP_DSN".

(** * Identity *)

Context {Pool : Type} (read_file : string -> option string) (append_certs : string -> option Pool)
  (url_parse : string -> option URL).

(** The gateway's, and the fleet engine's of the same shape. *)
Definition identityVerifier : Verifier (Pool := Pool) :=
  let path := getenv "SPIFFE_TRUST_BUNDLE" in
  if String.eqb path "" then mkVerifier "" None None
  else
    match read_file path with
    | None => mkVerifier "" None None
    | Some pem =>
        match append_certs pem with
        | None => mkVerifier "" None None
        | Some roots =>
            let workloads := match ParseWorkloads url_parse (getenv "SPIFFE_WORKLOADS") with
                             | Ok w => Some w
                             | Err _ => None
                             end in
            mkVerifier (getenv "SPIFFE_TRUST_DOMAIN") (Some roots) workloads
        end
    end.

Definition workloadVerifier : Verifier (Pool := Pool) :=
  let path := getenv "SPIFFE_TRUST_BUNDLE" in
  if String.eqb path "" then mkVerifier "" None None
  else
    match read_file path with
    | None => mkVerifier "" None None
    | Some pem =>
        match append_certs pem with
        | None => mkVerifier "" None None
        | Some roots =>
            match ParseWorkloads url_parse (getenv "SPIFFE_WORKLOADS") with
            | Err _ => mkVerifier (getenv "SPIFFE_TRUST_DOMAIN") (Some roots) None
            | Ok w => mkVerifier (getenv "SPIFFE_TRUST_DOMAIN") (Some roots) (Some w)
            end
        end
    end.

Definition registry (key : string) : option Credentials :=
  match ParseCredentials (getenv key) with Ok c => Some c | Err _ => None end.

Definition openCredentials : option Credentials := registry "GATEWAY_API_CREDENTIALS".

(** The variable that grants a privilege. *)
Definition privilege_list (pr : Privilege) : string :=
  match pr with
  | IssueAuthority => "GATEWAY_GRANT_ISSUERS"
  | RegisterKeys => "GATEWAY_KEY_REGISTRARS"
  | RegisterActivationKeys => "GATEWAY_ACTIVATION_KEY_REGISTRARS"
  end.

Definition credentialsFromEnv : option Credentials :=
  match openCredentials with
  | None => None
  | Some creds =>
      Some (AllowActivationKeyRegistrars (getenv (privilege_list RegisterActivationKeys))
              (AllowKeyRegistrars (getenv (privilege_list RegisterKeys))
                 (AllowIssuers (getenv (privilege_list IssueAuthority)) creds)))
  end.

(** * The submission path *)

(** [url.Parse] and [Hostname] *)
Context (hostname : string -> option string).

Inductive Venue :=
| VAlpaca (cfg : Venues.Alpaca.Config)
| VTradier (cfg : Venues.Tradier.Config)
| VFake.

Inductive BrokerConfigError :=
| AlpacaConfig (e : Venues.ConfigError)
| TradierConfig (e : Venues.ConfigError)
| FakeOutsideDevelopment
| NoVenueNamed.

(** The resolver of last resort: the platform puts the symbol on the order. *)
Definition symbolMustComeFromThePlatform (_ : string) : option string := None.

Definition openBroker : result Venue BrokerConfigError :=
  let name := getenv "BROKER" in
  if String.eqb name "alpaca" then
    match Venues.Alpaca.New hostname
            (Venues.Alpaca.mkConfig (getenv "ALPACA_BASE_URL") (getenv "ALPACA_KEY_ID")
               (getenv "ALPACA_SECRET_KEY") (Some symbolMustComeFromThePlatform) 0) with
    | Ok cfg => Ok (VAlpaca cfg)
    | Err e => Err (AlpacaConfig e)
    end
  else if String.eqb name "tradier" then
    match Venues.Tradier.New hostname
            (Venues.Tradier.mkConfig (getenv "TRADIER_BASE_URL") (getenv "TRADIER_TOKEN")
               (getenv "TRADIER_ACCOUNT_ID") (Some symbolMustComeFromThePlatform) 0) with
    | Ok cfg => Ok (VTradier cfg)
    | Err e => Err (TradierConfig e)
    end
  else if String.eqb name "fake" then
    if negb (String.eqb (getenv "ASSURANCE_ENV") "development") then Err FakeOutsideDevelopment else Ok VFake
  else Err NoVenueNamed.

(** Whether the process is to die after the first accepted order. *)
Definition crashPoint : result bool Z :=
  let point := getenv "ASSURANCE_TEST_CRASH_POINT" in
  if String.eqb point "" then Ok false
  else if negb (String.eqb point "after_broker_accept_before_outcome_commit") then Err 2
  else if negb (String.eqb (getenv "ASSURANCE_ENV") "development") then Err 2
  else Ok true.

(** [LoadSymbols]; encoding/json on the file. *)
Context (unmarshal_symbols : string -> option (gmap string string)).

Definition LoadSymbols (path : string) : option (gmap string string) :=
  match read_file path with None => None | Some raw => unmarshal_symbols raw end.

(** The analytical store's client. *)
Definition open_sink : option Clickhouse.Sink :=
  let base := getenv "CLICKHOUSE_HTTP_URL" in
  if String.eqb base "" then None
  else
    let user := getenv "CLICKHOUSE_USER" in
    Some (Clickhouse.NewSink (Clickhouse.TrimRight_slash base) (if String.eqb user "" then "assurance" else user)
            (getenv "CLICKHOUSE_PASSWORD")).

Record PipelineParts := mkPipelineParts {
  pp_Database : Postgres;
  pp_Identity : Verifier (Pool := Pool);
  pp_Bundles : Bundles.FileBundles;
  pp_BundleDir : string;
  pp_Symbols : gmap string string;
  pp_Venue : Venue;
  pp_Crash : bool;
  pp_Telemetry : option Clickhouse.Sink
}.

(** [None] is a submission path that is not served. *)
Definition buildPipeline : result (option (PipelineParts * Credentials)) Z :=
  let dsn := getenv "POSTGRES_APP_DSN" in
  if String.eqb dsn "" then Ok None else
  match Open dsn with None => Ok None | Some pool =>
  match openCredentials with None => Ok None | Some creds =>
  match Bundles.NewFileBundles (getenv "POLICY_PUBLIC_KEY") true with None => Ok None | Some bundles =>
  match LoadSymbols (envOr "INSTRUMENT_SYMBOLS" "/etc/assurance/instruments.json") with None => Ok None | Some symbols =>
  match openBroker with Err _ => Ok None | Ok venue =>
  let telemetry := open_sink in
  let verifier := identityVerifier in
  match crashPoint with
  | Err code => Err code
  | Ok crash =>
      Ok (Some (mkPipelineParts pool verifier bundles (envOr "POLICY_BUNDLE_DIR" "/etc/assurance/policy")
                  symbols venue crash telemetry, creds))
  end end end end end end.

(** * The gateway *)

Inductive GatewayHandler :=
| HHealth | HEvidenceByCorrelation | HEvidenceByIntent
| HSubmit (p : PipelineParts)
| HStatus | HList | HRevokeGrant | HIssueGrant | HApplyControl | HRevokeControl | HListControls
| HRegisterKey | HRevokeKey | HRegisterActivationKey | HRevokeActivationKey.

(** What needs only the database is served with it alone. *)
Definition gateway_routes (db : option Postgres) (pipeline : option PipelineParts) : routes GatewayHandler :=
  let h x := match db with Some _ => Some x | None => None end in
  mkRoutes (HSubmit <$> pipeline) (h HStatus) (h HList) (h HRevokeGrant) (h HIssueGrant) (h HApplyControl)
    (h HRevokeControl) (h HListControls) (h HRegisterKey) (h HRevokeKey) (h HRegisterActivationKey)
    (h HRevokeActivationKey).

(** A retention loop, as it is configured and as its [Run] takes it. *)
Record SweeperConfig := mkSweeperConfig { sw_Every : Duration; sw_Keep : Duration; sw_Tenants : list string }.

Definition idempotency_sweeper (creds : Credentials) : SweeperConfig :=
  mkSweeperConfig (duration_of (envInt "IDEMPOTENCY_SWEEP_MINUTES" 60) Minute)
    (wrap64 (duration_of (envInt "IDEMPOTENCY_RETENTION_DAYS" 30) 24 * Hour)) (Tenants (Some creds)).

Definition outbox_sweeper (creds : Credentials) : SweeperConfig :=
  mkSweeperConfig (duration_of (envInt "OUTBOX_SWEEP_MINUTES" 60) Minute)
    (duration_of (envInt "OUTBOX_RETENTION_HOURS" 24) Hour) (Tenants (Some creds)).

Definition started_sweeper (default_keep : Duration) (c : SweeperConfig) : SweeperConfig :=
  mkSweeperConfig (if sw_Every c <=? 0 then Hour else sw_Every c)
    (if sw_Keep c <=? 0 then default_keep else sw_Keep c) (sw_Tenants c).

(** One pass of the two loops, at [now]. *)
Definition sweep_idempotency (c : SweeperConfig) (faults : string -> list Execution.Fault)
    (db : Execution.Postgres.Tables) (now : Time) : Execution.Postgres.Tables * nat :=
  let c := started_sweeper Execution.Sweeper.DefaultRetention c in
  Execution.Sweeper.Sweep faults db (sw_Tenants c) (sw_Keep c) now.

(** The event bus: a connection, JetStream on it, and what it makes of a configuration. *)
Context {Conn JS : Type} (nats_connect : string -> option Conn) (jetstream_new : Conn -> option JS)
  (CreateOrUpdateStream : JS -> StreamConfig -> bool) (CreateOrUpdateConsumer : JS -> string -> ConsumerConfig -> bool).

Definition EnsureStream (nc : Conn) : option JS :=
  match jetstream_new nc with
  | None => None
  | Some js =>
      if CreateOrUpdateStream js (mkStreamConfig StreamName [SubjectPattern] "limits" "file" (90 * 24 * Hour) "old")
      then Some js else None
  end.

Definition NewConsumer (js : JS) (durable filter : string) : bool :=
  let filter := if String.eqb filter "" then SubjectPattern else filter in
  CreateOrUpdateConsumer js StreamName (mkConsumerConfig durable "explicit" "all" filter (-1)).

Definition open_stream : option JS :=
  let url := getenv "NATS_URL" in
  if String.eqb url "" then None
  else match nats_connect url with None => None | Some conn => EnsureStream conn end.

Record PublisherConfig := mkPublisherConfig { pb_Every : Duration; pb_Batch : Z; pb_Owner : string }.

(** The publishers of one process: one, or several with an owner each. *)
Definition publishers : list PublisherConfig :=
  match openOutboxPool, open_stream with
  | Some _, Some _ =>
      let publisher := mkPublisherConfig (duration_of (envInt "OUTBOX_INTERVAL_MS" 250) FleetStore.Millisecond)
                         (envInt "OUTBOX_BATCH" 500) (envOr "HOSTNAME" "assurance-gateway") in
      let workers := envInt "OUTBOX_WORKERS" 1 in
      let workers := if workers <? 1 then 1 else workers in
      map (fun i =>
             if 1 <? workers then
               mkPublisherConfig (pb_Every publisher) (pb_Batch publisher)
                 (pb_Owner publisher +:+ "#" +:+ fmt_d (Z.of_nat i))
             else publisher)
        (seq 0 (Z.to_nat workers))
  | _, _ => []
  end.

Record Gateway := mkGateway {
  gp_creds : option Credentials;
  gp_verifier : Verifier (Pool := Pool);
  gp_evidence : option Postgres;
  gp_sweepers : option (SweeperConfig * SweeperConfig);
  gp_publishers : list PublisherConfig;
  gp_mux : list (Pattern * GatewayHandler)
}.

(** A conflict of patterns is a panic, which exits with 2. *)
Definition gateway_main : result Gateway Z :=
  let creds := credentialsFromEnv in
  match buildPipeline with
  | Err code => Err code
  | Ok pipeline =>
      let verifier := identityVerifier in
      let pool := openPool in
      let sweepers := match pool, creds with
                      | Some _, Some c => Some (idempotency_sweeper c, outbox_sweeper c)
                      | _, _ => None
                      end in
      match newMux HHealth HEvidenceByCorrelation HEvidenceByIntent (gateway_routes pool (fst <$> pipeline)) with
      | None => Err 2
      | Some mux => Ok (mkGateway creds verifier openEvidence sweepers publishers mux)
      end
  end.

(** The credentials and the verifier the gateway's handlers are built with. *)
Definition gateway_server (g : Gateway) : Server (Pool := Pool) := mkServer (gp_creds g) (Some (gp_verifier g)).

(** * The fleet engine *)

Record SimulationConfig := mkSimulationConfig {
  sc_Python : string;
  sc_Repo : string;
  sc_ScenarioDir : string;
  sc_Timeout : Duration;
  sc_Concurrency : Z;
  sc_Watchdog : Duration
}.

(** [Runner.Prepare], with a store; [is_dir] is [os.Stat]. *)
Definition Prepare (is_dir : string -> bool) (c : SimulationConfig) : result SimulationConfig string :=
  let c := mkSimulationConfig (sc_Python c) (sc_Repo c) (sc_ScenarioDir c)
             (if sc_Timeout c <=? 0 then 5 * Minute else sc_Timeout c)
             (if sc_Concurrency c <=? 0 then 2 else sc_Concurrency c)
             (if sc_Watchdog c <=? 0 then 2 * Second else sc_Watchdog c) in
  if String.eqb (sc_Python c) "" then Err "no python interpreter configured"
  else if negb (is_dir (sc_ScenarioDir c)) then Err "the scenario directory is not a directory"
  else Ok c.

Definition openSimulation (parse_duration : string -> option Duration) (is_dir : string -> bool)
    : option (Server (Pool := Pool) * SimulationConfig) :=
  if String.eqb (getenv "POSTGRES_APP_DSN") "" then None else
  match Open (getenv "POSTGRES_APP_DSN") with None => None | Some _ =>
  if String.eqb (getenv "SIMULATOR_PYTHON") "" then None else
  match registry "INTELLIGENCE_API_CREDENTIALS" with None => None | Some creds =>
  match Prepare is_dir (mkSimulationConfig (getenv "SIMULATOR_PYTHON") (envOr "SIMULATOR_REPO" ".")
                   (envOr "SIMULATOR_SCENARIO_DIR" "simulator/scenarios")
                   (durationOr parse_duration "SIMULATION_TIMEOUT" (5 * Minute)) (intOr "SIMULATION_CONCURRENCY" 2)
                   (durationOr parse_duration "SIMULATION_WATCHDOG" (2 * Second))) with
  | Err _ => None
  | Ok runner => Some (mkServer (Some creds) (Some workloadVerifier), runner)
  end end end.

(** A cohort of every intent for each tenant that is named. *)
Definition openProducer (parse_duration : string -> option Duration) (store : option Clickhouse.Sink)
    : option FleetStore.ProducerConfig :=
  match store with
  | None => None
  | Some _ =>
      match map (fun tenant => Fleet.mkCohort tenant []) (names (getenv "FLEET_COHORT_TENANTS")) with
      | [] => None
      | cohorts => Some (FleetStore.mkProducerConfig cohorts (durationOr parse_duration "FLEET_WINDOW" Minute)
                           (durationOr parse_duration "FLEET_LAG" (15 * Second)))
      end
  end.

Inductive FleetHandler :=
| FHealth | FState | FCohorts | FDependencies
| FSimSubmit (sv : Server (Pool := Pool)) (c : SimulationConfig) | FSimList | FSimGet | FSimCancel
| FIncidents | FIncident.

Record FleetEngine := mkFleetEngine {
  fe_store : option Clickhouse.Sink;
  fe_creds : option Credentials;
  fe_verifier : Verifier (Pool := Pool);
  fe_producer : option FleetStore.ProducerConfig;
  (** the producer's anomalies open incidents *)
  fe_detects : bool;
  (** the evidence consumer runs *)
  fe_consumes : bool;
  fe_mux : list (Pattern * FleetHandler)
}.

Definition fleet_main (parse_duration : string -> option Duration) (is_dir : string -> bool)
    : result FleetEngine Z :=
  let sim := (fun x => mkSimulationAPI (FSimSubmit (fst x) (snd x)) FSimList FSimGet FSimCancel) <$>
             openSimulation parse_duration is_dir in
  let creds := registry "INTELLIGENCE_API_CREDENTIALS" in
  let verifier := workloadVerifier in
  let incidents := match openPool with Some _ => Some (mkIncidentAPI FIncidents FIncident) | None => None end in
  let store := open_sink in
  let consumes := match open_stream, store with Some js, Some _ => NewConsumer js "fleet-evidence" SubjectPattern | _, _ => false end in
  match fleet_newMux FHealth (mkFleetAPI FState FCohorts FDependencies) sim incidents with
  | None => Err 2
  | Some mux =>
      Ok (mkFleetEngine store creds verifier (openProducer parse_duration store) (found openPool) consumes mux)
  end.

(** * Properties *)

Context (chain : Pool -> list Certificate -> Certificate -> Time -> option X509Error).

(** ** Settings *)

Lemma intOr_envInt key fallback : intOr key fallback = envInt key fallback.
Proof.
  unfold intOr, envInt, str_nonempty. destruct (String.eqb_spec (getenv key) "") as [->|]; [|done].
  reflexivity.
Qed.

Lemma workloadVerifier_identityVerifier : workloadVerifier = identityVerifier.
Proof.
  unfold workloadVerifier, identityVerifier. destruct (String.eqb _ ""); [done|].
  destruct (read_file _); [|done]. destruct (append_certs _); [|done]. by destruct (ParseWorkloads _ _).
Qed.

Lemma envInt_positive key fallback : 0 < fallback -> 0 < envInt key fallback.
Proof. unfold envInt. intros H. destruct (Submission.Atoi _) as [v|]; [|done]. by destruct (Z.ltb_spec 0 v). Qed.

(** ** Privileges *)

Definition plain (k : Caller) : Prop := forall pr, of_caller pr k = false.

Lemma parse_credentials_plain pairs : forall c c',
  parse_credentials pairs c = Ok c' -> map_Forall (fun _ k => plain k) c -> map_Forall (fun _ k => plain k) c'.
Proof.
  induction pairs as [|raw pairs IH]; intros c c'; cbn [parse_credentials]; [by intros [= ->]|].
  destruct (String.eqb (TrimSpace raw) ""); [apply IH|]. destruct (Cut _ (TrimSpace raw)) as [[who token]|]; [|done].
  destruct (String.eqb token ""); [done|]. destruct (Cut _ (TrimSpace who)) as [[name tenant]|]; [|done].
  destruct (negb _ || _); [done|]. destruct (_ <? 32)%nat; [done|]. intros H Hc. apply (IH _ _ H).
  apply map_Forall_insert_2; [|done]. by intros [].
Qed.

Lemma registry_plain key c : registry key = Some c -> map_Forall (fun _ k => plain k) c.
Proof.
  unfold registry, ParseCredentials. destruct (parse_credentials _ _) as [c0|] eqn:E; [|done].
  destruct (bool_decide _); [done|]. intros [= ->]. apply (parse_credentials_plain _ _ _ E). apply map_Forall_empty.
Qed.

(** A privilege is given by name and to nobody else.  In the registry the gateway starts
    with, a credential may issue authority, bind an agent's key or bootstrap an activation
    key exactly when its identity is written in the variable of that privilege; the other
    two variables, and the credential's own entry, say nothing about it. *)
Theorem privileges_are_given_by_name (c : Credentials) (token : string) (caller : Caller) (pr : Privilege) :
  credentialsFromEnv = Some c -> c !! token = Some caller ->
  (of_caller pr caller = true <-> cr_Identity caller ∈ names (getenv (privilege_list pr))).
Proof.
  unfold credentialsFromEnv, openCredentials. destruct (registry _) as [c0|] eqn:E; [|done]. intros [= <-].
  unfold AllowActivationKeyRegistrars, AllowKeyRegistrars, AllowIssuers. rewrite !mark_lookup.
  destruct (c0 !! token) as [k|] eqn:Ek; [|done]. apply registry_plain in E. specialize (E _ _ Ek pr).
  intros [= <-]. rewrite <- contains_spec.
  cbn [privilege_list].
  destruct (contains (names (getenv "GATEWAY_GRANT_ISSUERS")) (cr_Identity k)) eqn:E1; cbn [cr_Identity];
    destruct (contains (names (getenv "GATEWAY_KEY_REGISTRARS")) (cr_Identity k)) eqn:E2; cbn [cr_Identity];
    destruct (contains (names (getenv "GATEWAY_ACTIVATION_KEY_REGISTRARS")) (cr_Identity k)) eqn:E3; cbn [cr_Identity];
    destruct pr; cbn in E |- *; rewrite ?E, ?E1, ?E2, ?E3; done.
Qed.

(** ** The submission path *)

Definition trial_host (prefix base : string) : Prop :=
  exists host, hostname base = Some host /\
    (Venues.local_host (ToLower host) = true \/ HasPrefix (ToLower host) prefix = true).

(** No order of this venue is real. *)
Definition on_trial (v : Venue) : Prop :=
  match v with
  | VAlpaca cfg => trial_host "paper-api." (Venues.Alpaca.BaseURL cfg)
  | VTradier cfg => trial_host "sandbox." (Venues.Tradier.BaseURL cfg)
  | VFake => getenv "ASSURANCE_ENV" = "development"
  end.

Lemma openBroker_trial v : openBroker = Ok v -> on_trial v.
Proof.
  unfold openBroker. destruct (String.eqb (getenv "BROKER") "alpaca").
  { destruct (Venues.Alpaca.New _ _) as [cfg|] eqn:E; [|done]. intros [= <-]. unfold Venues.Alpaca.New in E.
    destruct (Venues.Alpaca.refuseLiveEndpoint _ _) eqn:Er; [done|]. apply Venues.alpaca_host in Er.
    cbn in E. destruct (_ || _); [done|]. by injection E as <-. }
  destruct (String.eqb (getenv "BROKER") "tradier").
  { destruct (Venues.Tradier.New _ _) as [cfg|] eqn:E; [|done]. intros [= <-]. unfold Venues.Tradier.New in E.
    destruct (Venues.Tradier.refuseLiveEndpoint _ _) eqn:Er; [done|]. apply Venues.tradier_host in Er.
    cbn in E. destruct (String.eqb (getenv "TRADIER_TOKEN") ""); [done|].
    destruct (String.eqb (getenv "TRADIER_ACCOUNT_ID") ""); [done|]. by injection E as <-. }
  destruct (String.eqb (getenv "BROKER") "fake"); [|done].
  destruct (String.eqb_spec (getenv "ASSURANCE_ENV") "development"); [|done]. by intros [= <-].
Qed.

(** Everything the submission path is built from. *)
Definition configured : Prop :=
  Open (getenv "POSTGRES_APP_DSN") <> None /\ getenv "POSTGRES_APP_DSN" <> "" /\ openCredentials <> None /\
  Bundles.NewFileBundles (getenv "POLICY_PUBLIC_KEY") true <> None /\
  LoadSymbols (envOr "INSTRUMENT_SYMBOLS" "/etc/assurance/instruments.json") <> None /\
  exists v, openBroker = Ok v.

Record well_built (p : PipelineParts) : Prop := {
  wb_database : Open (getenv "POSTGRES_APP_DSN") = Some (pp_Database p);
  wb_identity : pp_Identity p = identityVerifier;
  wb_bundles : Bundles.NewFileBundles (getenv "POLICY_PUBLIC_KEY") true = Some (pp_Bundles p);
  wb_symbols : LoadSymbols (envOr "INSTRUMENT_SYMBOLS" "/etc/assurance/instruments.json") = Some (pp_Symbols p);
  wb_venue : openBroker = Ok (pp_Venue p);
  wb_crash : crashPoint = Ok (pp_Crash p)
}.

Lemma buildPipeline_spec o :
  buildPipeline = Ok o ->
  (configured <-> o <> None) /\
  forall p creds, o = Some (p, creds) -> well_built p /\ openCredentials = Some creds.
Proof.
  unfold buildPipeline, configured. intros H.
  destruct (String.eqb_spec (getenv "POSTGRES_APP_DSN") "") as [->|Hne];
    [injection H as <-; split; [split; [intros (_ & [] & _); done | done] | done]|].
  destruct (Open _) as [db|] eqn:Eo; [|injection H as <-; split; [split; [intros ([] & _); done | done] | done]].
  destruct openCredentials as [c0|]; [|injection H as <-; split; [split; [intros (_ & _ & [] & _); done | done] | done]].
  destruct (Bundles.NewFileBundles _ _) as [fb|] eqn:Eb;
    [|injection H as <-; split; [split; [intros (_ & _ & _ & [] & _); done | done] | done]].
  destruct (LoadSymbols _) as [sy|] eqn:Es;
    [|injection H as <-; split; [split; [intros (_ & _ & _ & _ & [] & _); done | done] | done]].
  destruct openBroker as [v|] eqn:Ev; [|injection H as <-; split; [split; [naive_solver | done] | done]].
  destruct crashPoint as [crash|] eqn:Ec; [|done]. injection H as <-. split; [split; [done | naive_solver]|].
  intros p creds [= <- <-]. split; [|done]. by constructor.
Qed.

Lemma gateway_main_mux g :
  gateway_main = Ok g -> exists o, buildPipeline = Ok o /\
    gp_creds g = credentialsFromEnv /\ gp_verifier g = identityVerifier /\
    forall method path h values, serve (gp_mux g) method path = Handled h values <->
      answers (gateway_table HHealth HEvidenceByCorrelation HEvidenceByIntent (gateway_routes openPool (fst <$> o)))
        method path h values.
Proof.
  unfold gateway_main, newMux. destruct buildPipeline as [o|]; [|done].
  destruct (gateway_routed HHealth HEvidenceByCorrelation HEvidenceByIntent
    (gateway_routes openPool (fst <$> o)) _ (reflexivity _)) as (ps & -> & Hps).
  intros [= <-]. by exists o.
Qed.

Lemma submit_row (o : option (PipelineParts * Credentials)) method path p values :
  answers (gateway_table HHealth HEvidenceByCorrelation HEvidenceByIntent (gateway_routes openPool (fst <$> o)))
    method path (HSubmit p) values <->
  method = "POST" /\ path = ["";"v1";"intents"] /\ values = [] /\ fst <$> o = Some p.
Proof.
  split.
  - intros (s & Hs & Ht & Hm). unfold gateway_table in Hs.
    repeat (apply elem_of_cons in Hs as [Hx|Hs]; [apply pair_equal_spec in Hx as [-> Hx]; try discriminate Hx|]);
      [..|by apply elem_of_nil in Hs];
      try (cbn in Hx; destruct openPool; discriminate Hx).
    walk_path Hm. cbn in Hx. split_and!; [|done..|].
    + revert Ht. unfold takes. rewrite !orb_true_iff, andb_true_iff, !String.eqb_eq. naive_solver.
    + destruct o as [x|]; [|done]. by injection Hx as ->.
  - intros (-> & -> & -> & Ho). exists "POST /v1/intents". split; [|by vm_compute]. cbn [gateway_routes submit gateway_table].
    rewrite Ho. do 4 right. left.
Qed.

(** C12: An order can be submitted to a gateway only when everything that enforces is there.
    In whatever environment the process starts, the submission endpoint is the POST to
    /v1/intents, and it is served exactly when a database opens, the credential registry
    parses, the publisher's key is a key, the symbols load and a venue is configured; it is
    then served by a pipeline over these, and the venue is on trial: its host is local or
    the brokerage's paper service, or it is the fake one in a development environment.  The
    evidence endpoints are served in every environment. *)
Theorem submission_needs_everything (g : Gateway) (method : string) (path : list string) :
  gateway_main = Ok g ->
  (forall p values, serve (gp_mux g) method path = Handled (HSubmit p) values ->
     method = "POST" /\ path = ["";"v1";"intents"] /\ well_built p /\ on_trial (pp_Venue p) /\
     gp_creds g <> None) /\
  (configured <-> exists p, serve (gp_mux g) "POST" ["";"v1";"intents"] = Handled (HSubmit p) []) /\
  serve (gp_mux g) "GET" ["";"v1";"evidence"] = Handled HEvidenceByCorrelation [].
Proof.
  intros (o & Ho & Hcr & _ & Hmux)%gateway_main_mux. destruct (buildPipeline_spec o Ho) as [Hc Hp]. split_and!.
  - intros p values (-> & -> & -> & Hf)%Hmux%submit_row. destruct o as [[p' creds]|]; [|done]. injection Hf as ->.
    destruct (Hp p creds eq_refl) as [Hw Hcreds]. split_and!; [done..| |].
    + by apply openBroker_trial, wb_venue.
    + rewrite Hcr. unfold credentialsFromEnv. by rewrite Hcreds.
  - rewrite Hc. split.
    + destruct o as [[p creds]|]; [|done]. intros _. exists p. by apply Hmux, submit_row.
    + intros (p & (_ & _ & _ & Hf)%Hmux%submit_row). by destruct o.
  - apply Hmux. exists "GET /v1/evidence". split; [|by vm_compute]. do 2 right. left.
Qed.

(** ** A gateway that can identify nobody *)

Lemma resolve_nobody sv clock n r :
  sv_creds sv = None -> v_Bundle (verifier_of sv) = None ->
  RequireExecutable (resolve chain sv clock n r) = Some "UNAUTHENTICATED_WORKLOAD".
Proof.
  intros Hc Hv. unfold resolve, presentedFrom. rewrite Hc. unfold FromTransport, Resolve, degraded.
  assert (match CutPrefix (rq_Authorization r) "Bearer " with
          | Some token => Identify None (TrimSpace token) | None => None end = None) as -> by by destruct (CutPrefix _ _).
  cbn [p_SVID p_APIIdentity]. destruct (head _) as [leaf|]; [|done]. unfold Verify. by rewrite Hv.
Qed.

(** A gateway that can identify nobody tells nobody anything.  Started without a usable
    credential registry and without a trust bundle, it serves no submission path, and every
    caller of every other surface is answered 401, whatever the request carries: nothing of
    any tenant is read. *)
Theorem nobody_is_told_anything (g : Gateway) (clock : nat -> Time) (r : Request) :
  gateway_main = Ok g -> openCredentials = None -> getenv "SPIFFE_TRUST_BUNDLE" = "" ->
  (forall method path p values, serve (gp_mux g) method path <> Handled (HSubmit p) values) /\
  (exists answer, callerTenant chain (gateway_server g) clock r = Err answer /\ rp_Status answer = StatusUnauthorized) /\
  (exists answer, Reads.tenantOf chain (gateway_server g) clock r = Err answer /\ rp_Status answer = StatusUnauthorized).
Proof.
  intros (o & Ho & Hcr & Hv & Hmux)%gateway_main_mux Hc Hb. unfold credentialsFromEnv in Hcr. rewrite Hc in Hcr.
  assert (RequireExecutable (resolve chain (gateway_server g) clock 0 r) = Some "UNAUTHENTICATED_WORKLOAD") as Hr.
  { apply resolve_nobody; [done|]. unfold verifier_of, gateway_server. cbn. rewrite Hv. unfold identityVerifier.
    by rewrite Hb. }
  split_and!.
  - intros method path p values (_ & _ & _ & Hf)%Hmux%submit_row. destruct o as [[p' creds]|]; [|done].
    destruct (buildPipeline_spec _ Ho) as [_ Hp]. destruct (Hp _ _ eq_refl) as [_ He]. congruence.
  - unfold callerTenant. rewrite Hr. eauto.
  - unfold Reads.tenantOf. rewrite Hr. eauto.
Qed.

(** ** Loops *)

(** Two publishers of one process never share a name, so that a lease names the publisher
    that holds it; there is one at least when there is a stream. *)
Lemma publishers_have_names : NoDup (map pb_Owner publishers).
Proof.
  unfold publishers. destruct openOutboxPool; [|constructor]. destruct open_stream; [|constructor].
  set (w := envInt "OUTBOX_WORKERS" 1). assert ((w <? 1) = false) as ->
    by (apply Z.ltb_ge; pose proof (envInt_positive "OUTBOX_WORKERS" 1 eq_refl); fold w in H; lia).
  rewrite map_map. destruct (Z.ltb_spec 1 w) as [Hw|Hw].
  - apply NoDup_fmap_2_strong; [|apply NoDup_seq]. intros m m' _ _ Hij. cbn [pb_Owner] in Hij.
    apply (inj (String.app _)) in Hij. apply (inj (String.app _)) in Hij. apply fmt_d_inj in Hij; lia.
  - destruct (Z.to_nat w) as [|[|n]] eqn:E; [constructor | | lia]. cbn. apply NoDup_singleton.
Qed.

Lemma duration_of_small n unit :
  0 <= n -> 0 <= unit -> n * unit <= max_int64 -> 0 < unit -> duration_of n unit = n * unit.
Proof.
  intros Hn Hu Hm Hp. unfold duration_of. rewrite (wrap64_id n), wrap64_id; unfold in_int64, min_int64, max_int64 in *; nia.
Qed.

(** Retention keeps what was asked for.  For as many days as fit a duration (106751) and
    as many hours (2562047), the two sweepers the gateway starts keep exactly the configured
    number; and whatever the variables hold, each keeps for a positive time and runs at a
    positive interval. *)
Theorem retention_is_as_configured (creds : Credentials) (n m : Z) :
  let idem := started_sweeper Execution.Sweeper.DefaultRetention (idempotency_sweeper creds) in
  let outbox := started_sweeper Evidence.DefaultOutboxRetention (outbox_sweeper creds) in
  (Submission.Atoi (getenv "IDEMPOTENCY_RETENTION_DAYS") = Some n -> 0 < n <= 106751 -> sw_Keep idem = n * Day) /\
  (Submission.Atoi (getenv "OUTBOX_RETENTION_HOURS") = Some m -> 0 < m <= 2562047 -> sw_Keep outbox = m * Hour) /\
  0 < sw_Keep idem /\ 0 < sw_Keep outbox /\ 0 < sw_Every idem /\ 0 < sw_Every outbox.
Proof.
  assert (forall d x, 0 < d -> 0 < (if x <=? 0 then d else x)) as Hpos
    by (intros d x Hd; destruct (Z.leb_spec x 0); lia).
  cbn zeta. unfold started_sweeper, idempotency_sweeper, outbox_sweeper. cbn [sw_Keep sw_Every].
  split_and!; [| |by apply Hpos..].
  - intros Ha Hn. unfold envInt. rewrite Ha. destruct (Z.ltb_spec 0 n); [|lia].
    rewrite duration_of_small, wrap64_id by (unfold in_int64, min_int64, max_int64, Hour, Minute, Second in *; lia).
    destruct (Z.leb_spec (n * 24 * Hour) 0); unfold Day, Hour, Minute, Second in *; lia.
  - intros Ha Hm. unfold envInt. rewrite Ha. destruct (Z.ltb_spec 0 m); [|lia].
    rewrite duration_of_small by (unfold max_int64, Hour, Minute, Second in *; lia).
    destruct (Z.leb_spec (m * Hour) 0); unfold Hour, Minute, Second in *; lia.
Qed.

(** Beyond that the product wraps: a retention of 213504 days, or of 5124096 hours, keeps
    for less than half an hour; and a pool of 2^32 connections is a pool of none. *)
Theorem long_retention_wraps (creds : Credentials) :
  getenv "IDEMPOTENCY_RETENTION_DAYS" = "213504" -> getenv "OUTBOX_RETENTION_HOURS" = "5124096" ->
  getenv "POSTGRES_MAX_CONNS" = "4294967296" ->
  0 < sw_Keep (started_sweeper Execution.Sweeper.DefaultRetention (idempotency_sweeper creds)) < 30 * Minute /\
  0 < sw_Keep (started_sweeper Evidence.DefaultOutboxRetention (outbox_sweeper creds)) < 30 * Minute /\
  to_int32 maxConns = 0.
Proof.
  intros H1 H2 H3. unfold idempotency_sweeper, outbox_sweeper, envInt, maxConns. rewrite H1, H2, H3.
  vm_compute. repeat split; congruence.
Qed.

(** A crash point that is refused is ignored when nothing is submitted. *)
Lemma crash_point_is_ignored : getenv "POSTGRES_APP_DSN" = "" -> buildPipeline = Ok None.
Proof. unfold buildPipeline. by intros ->. Qed.
End Environment.

(** * Environments *)

Definition environment (l : list (string * string)) (key : string) : string :=
  match List.find (fun e => String.eqb (fst e) key) l with Some e => snd e | None => "" end.

Definition demo_settings : list (string * string) :=
  [("POSTGRES_APP_DSN", "postgres://db"); ("POSTGRES_OUTBOX_DSN", "postgres://db"); ("NATS_URL", "nats://bus");
   ("OUTBOX_WORKERS", "3"); ("GATEWAY_API_CREDENTIALS", "desk@tenant-1=0123456789abcdef0123456789abcdef");
   ("GATEWAY_GRANT_ISSUERS", "desk"); ("POLICY_PUBLIC_KEY", "0101010101010101010101010101010101010101010101010101010101010101");
   ("BROKER", "alpaca"); ("ALPACA_KEY_ID", "k"); ("ALPACA_SECRET_KEY", "s");
   ("ASSURANCE_ENV", "development"); ("ASSURANCE_TEST_CRASH_POINT", "after_broker_accept_before_outcome_commit");
   ("IDEMPOTENCY_RETENTION_DAYS", "90"); ("OUTBOX_RETENTION_HOURS", "48");
   ("CLICKHOUSE_HTTP_URL", "http://ch/"); ("FLEET_COHORT_TENANTS", "tenant-1, tenant-1")].

Definition demo_env : string -> string := environment demo_settings.
(** The same without credentials and without fault injection. *)
Definition anonymous_env : string -> string :=
  environment (("GATEWAY_API_CREDENTIALS", "") :: ("ASSURANCE_TEST_CRASH_POINT", "") :: demo_settings).

Definition demo_file (_ : string) : option string := Some "{}".
Definition demo_certs (_ : string) : option unit := None.
Definition demo_url (_ : string) : option URL := None.
Definition demo_host (raw : string) : option string := CutPrefix raw "https://".
Definition demo_symbols (_ : string) : option (gmap string string) := Some ∅.

Local Abbreviation demo_gateway env :=
  (gateway_main env (Some : string -> option string) (fun _ c => c) (Some : string -> option string)
     demo_file demo_certs demo_url demo_host demo_symbols (Some : string -> option string)
     (Some : string -> option string) (fun _ _ => true)).

(** Fault injection is armed on a gateway that sends to a brokerage: only the environment is
    asked, and not the venue. *)
Theorem fault_injection_reaches_a_brokerage :
  exists g p cfg, demo_gateway demo_env = Ok g /\
    serve (gp_mux g) "POST" ["";"v1";"intents"] = Handled (HSubmit p) [] /\
    pp_Crash p = true /\ pp_Venue p = VAlpaca cfg /\ demo_env "BROKER" = "alpaca".
Proof. do 3 eexists. split_and!; vm_compute; reflexivity. Qed.

(** A tenant that is named twice is two equal cohorts, and each window of it is written
    twice. *)
Theorem tenant_named_twice_is_measured_twice :
  exists p, openProducer demo_env (fun _ => None) (open_sink demo_env) = Some p /\
    map Fleet.co_TenantID (FleetStore.pc_Cohorts p) = ["tenant-1"; "tenant-1"] /\
    map (fun row => (FleetStore.xm_TenantID row, FleetStore.xm_CohortID row, FleetStore.xm_WindowEnd row))
      (FleetStore.fleet_measurements (FleetStore.ps_store
         (FleetStore.tick_step (HS := FleetStore.quiet_sink) FleetStore.desk_text Fleet.ascending (fun l => l) p
            (FleetStore.fresh (Some ())) (FleetStore.mkTick (3 * Minute) FleetStore.works)))) =
      let row := ("tenant-1", Fleet.CohortID (Fleet.mkCohort "tenant-1" []), 2 * Minute) in [row; row].
Proof. eexists. split; [vm_compute; reflexivity|]. split; vm_compute; reflexivity. Qed.

(** * Witnesses *)

Definition started (env : string -> string) : Gateway (Postgres := string) (Pool := unit) :=
  match demo_gateway env with
  | Ok g => g
  | Err _ => mkGateway None (mkVerifier "" None None) None None [] []
  end.

Example privileges_are_given_by_name_witness :
  match credentialsFromEnv demo_env with
  | Some c => (of_caller IssueAuthority <$> c !! "0123456789abcdef0123456789abcdef") = Some true /\
              (of_caller RegisterKeys <$> c !! "0123456789abcdef0123456789abcdef") = Some false
  | None => False
  end /\ ("desk" ∈ names (demo_env "GATEWAY_GRANT_ISSUERS")).
Proof.
  split; [vm_compute; done|].
  eapply (privileges_are_given_by_name demo_env (default ∅ (credentialsFromEnv demo_env))
    "0123456789abcdef0123456789abcdef" (mkCaller "desk" "tenant-1" true false false) IssueAuthority); vm_compute; reflexivity.
Defined.

Example submission_needs_everything_witness :
  demo_gateway demo_env = Ok (started demo_env) /\
  exists p, serve (gp_mux (started demo_env)) "POST" ["";"v1";"intents"] = Handled (HSubmit p) [] /\
    on_trial demo_env demo_host (pp_Venue p).
Proof.
  assert (demo_gateway demo_env = Ok (started demo_env)) as H by (vm_compute; reflexivity). split; [exact H|].
  eexists. split; [vm_compute; reflexivity|].
  refine (proj1 (proj2 (proj2 (proj2 (proj1 (submission_needs_everything demo_env _ _ _ _ _ _ _ _ _ _ _
    (started demo_env) "POST" ["";"v1";"intents"] H) _ [] _))))). vm_compute. reflexivity.
Defined.

Example nobody_is_told_anything_witness :
  demo_gateway anonymous_env = Ok (started anonymous_env) /\
  match callerTenant (fun _ _ _ _ => None) (gateway_server (started anonymous_env)) (fun _ => 0)
          (mkRequest "Bearer 0123456789abcdef0123456789abcdef" "tenant-1" [] None "") with
  | Err answer => rp_Status answer = 401
  | Ok _ => False
  end.
Proof.
  assert (demo_gateway anonymous_env = Ok (started anonymous_env)) as H by (vm_compute; reflexivity). split; [exact H|].
  destruct (proj1 (proj2 (nobody_is_told_anything anonymous_env _ _ _ _ _ _ _ _ _ _ _ (fun _ _ _ _ => None)
    (started anonymous_env) (fun _ => 0)
    (mkRequest "Bearer 0123456789abcdef0123456789abcdef" "tenant-1" [] None "") H
    ltac:(vm_compute; reflexivity) ltac:(vm_compute; reflexivity)))) as (answer & -> & Hs). exact Hs.
Defined.

Example retention_is_as_configured_witness :
  sw_Keep (started_sweeper Execution.Sweeper.DefaultRetention (idempotency_sweeper demo_env ∅)) = 90 * Day /\
  sw_Keep (started_sweeper Evidence.DefaultOutboxRetention (outbox_sweeper demo_env ∅)) = 48 * Hour.
Proof.
  destruct (retention_is_as_configured demo_env ∅ 90 48) as (H1 & H2 & _). split.
  - apply H1; [vm_compute; reflexivity | lia].
  - apply H2; [vm_compute; reflexivity | lia].
Defined.

(** Three publishers with a name each. *)
Example publishers_of_the_demonstration :
  map pb_Owner (publishers demo_env (Some : string -> option string) (fun _ c => c) (Some : string -> option string)
    (Some : string -> option string) (Some : string -> option string) (fun _ _ => true)) =
  ["assurance-gateway#0"; "assurance-gateway#1"; "assurance-gateway#2"].
Proof. vm_compute. reflexivity. Qed.

(** A fleet engine without a simulator serves no simulations and still measures. *)
Example fleet_engine_of_the_demonstration :
  match fleet_main demo_env (Some : string -> option string) (fun _ c => c)
          (Some : string -> option string) demo_file demo_certs demo_url (Some : string -> option string)
          (Some : string -> option string) (fun _ _ => true) (fun _ _ _ => true) (fun _ => None) (fun _ => true) with
  | Ok fe => serve (fe_mux fe) "GET" ["";"v1";"incidents";"i-1"] = Handled FIncident ["i-1"] /\
             serve (fe_mux fe) "POST" ["";"v1";"simulations"] = NotFound /\ fe_consumes fe = true
  | Err _ => False
  end.
Proof. vm_compute. repeat split. Qed.
